(* ===== verification/_CoqProject ===== *)
-Q . S2P
Prelude.v
CLib.v
Float.v
Cbor.v
CborEncode.v
CborDecode.v
CborSpec.v
PlankObject.v
PlankWire.v
PlankObjectSpec.v
PlankMessageSpec.v
PlankCore.v
PlankCoreSpec.v
PlankPolicy.v
PlankPolicySpec.v
PlankRoute.v
PlankRouteSpec.v
PlankLink.v
PlankFrame.v
PlankLinkSpec.v
PlankLinkPeer.v
Fsedit.v
FseditSpec.v
MtsText.v
MtsTextSpec.v
MtsStore.v
MtsState.v
MtsRender.v
MtsChat.v
MtsInbox.v
MtsWorld.v
MtsRooms.v
MtsSafe.v
MtsReach.v
MtsDelivery.v
Telnet.v
Acs.v
AcsSpec.v
AcsTable.v
Lexer.v
LexerSpec.v
Value.v
ValueSpec.v
Vm.v
VmSpec.v
Ast.v
Parser.v
ParserSpec.v
ParserTrees.v
Semantic.v
SemanticSpec.v
Emit.v
EmitSpec.v
EmitInv.v
EmitJumps.v
EmitDefects.v
TypeSpec.v
ModuleFile.v
ModuleVerify.v
ModuleSpec.v
Compiler.v
Mci.v
MciSpec.v
Process.v
ProcessSpec.v
Calendar.v
Scheduler.v
ScheduleSpec.v
SchedulerSpec.v
Menu.v
MenuSpec.v
MenuTemplate.v
MenuTemplateSpec.v
MailDb.v
MailDbSpec.v
Fido.v
FidoSpec.v
Qwk.v
QwkSpec.v
