(* ===== verification/Prelude.v ===== *)
(** * Mutineer: a verification library for its core

    Mutineer is a telnet bulletin-board server in C. A caller's bytes pass the
    telnet filter (src/telnet.c), the sessions behind it decide what a user may
    do by access-control strings (src/acs.c), extensions are programs in the
    Buccaneer language, and the PLANK store-and-forward network exchanges
    canonical CBOR built and read by src/plank/plank_cbor.c. A Buccaneer source
    is tokenised by src/buccaneer/lexer.c, parsed by parser.c, checked by
    semantic.c and compiled by emit.c, in the order that compile_source of
    tools/bucc.c gives them; the module is written to a file, read back and
    verified by module.c and executed by the virtual machine of vm.c over the
    values of value.c. Between boards, src/plank/plank_object.c signs and reads the
    objects and messages of PLANK, plank_core.c has their addresses, plank_policy.c
    says which are taken, plank_route.c where they go and when a link is tried
    again, and plank_link.c carries them in frames over a connection that both
    nodes have proved their keys on. Users write messages in the editor of
    src/fsedit.c and talk to each other in the rooms of the teleconference, the
    plugin of plugins/chat. What they see are menus (src/menu.c, src/menu_template.c)
    and texts with codes (src/mci.c); commands of the board run other programs
    (src/process.c), some of them at times of a schedule (src/scheduler.c). Mail
    leaves the board as FidoNet packets (src/fido_netmail.c) and as packets for
    offline readers (src/qwk.c), from tables that src/db.c keeps. These parts, which
    take untrusted input and have a contract of their own, are modelled here function
    by function; paths are relative to the repository.

    ** Files

    - [Prelude]: machine integers ([wrap], [swrap], [in_u], [in_s], and the tactics
      [zred] and [zlia]), lengths and offsets in [Z] ([zlen], [nthZ], [takeZ],
      [dropZ], tactic [zl]), big-endian integers, [memcmp]. [CLib]: the C string
      functions and conversions the code calls, lines and paths of text files. [Float]: binary64 through the
      Standard Library's [SpecFloat], with [strtod], [%g] and the conversion to
      integers.
    - [Telnet] (src/telnet.c, include/bbs_telnet.h): [TelnetState] is the
      struct, [telnet_step] one round of the loop of [telnet_feed]; the bytes
      sent to the socket and the clean output are explicit.
    - [Acs], [AcsSpec], [AcsTable] (src/acs.c, include/bbs_flags.h): the mutually recursive
      [eval_expr], [eval_factor], [eval_term] over the rest of the string, with
      the table of conditions in [eval_atom]; the clock and [mktime] are a
      record [Clock] of parameters. [acs_check] is the checker of the tools.
    - [Cbor], [CborEncode], [CborDecode], [CborSpec]
      (src/plank/plank_cbor.c): the encoder and the map builder with their
      buffers, the decoder as a cursor with its sticky error flag. Lengths are
      64-bit and wrap as in the code.
    - [PlankObject] (src/plank/plank_object.c, and the life cycle of objects and
      messages in plank_core.c): the structs as records, a definition per
      encoder, decoder, signature and identifier function; OpenSSL is the record
      [openssl] of parameters, with the laws [ssl_pair] of a key pair.
      [PlankWire]: how a map of fields is written and read, shared by
      [PlankObjectSpec] (objects and envelopes) and [PlankMessageSpec] (bodies of
      messages).
    - [PlankCore], [PlankCoreSpec] (src/plank/plank_core.c, plank_crypto.c):
      addresses, copies, hexadecimal, the transcript of a connection.
    - [PlankPolicy], [PlankPolicySpec] (src/plank/plank_policy.c) and [PlankRoute],
      [PlankRouteSpec] (src/plank/plank_route.c): a definition per function that
      decides something; what the store holds is the parameter [config].
    - [PlankLink] (src/plank/plank_link.c, the headers of include/plank/plank_wire.h):
      a session of a link as the record [link], with the bytes that arrive and
      those that were sent; the socket, TLS, the signatures, random numbers and
      the callbacks are records of parameters. [PlankFrame]: the headers of
      frames. [PlankLinkSpec]: a network that delivers, greetings, proofs and the
      handshake of two nodes. [PlankLinkPeer]: what a peer can and cannot do.
    - [Fsedit] (src/fsedit.c): the editor's arrays of bytes, a definition per key,
      [fsedit_edit] over the bytes that arrive. [FseditSpec]: the same keys on a
      text buffer ([press]), and the simulation between the two.
    - The teleconference (plugins/chat). [MtsText]: the texts of mts_render.c,
      UTF-8, widths, durations and templates; [MtsTextSpec]: what is left of a
      text. [MtsStore] (mts.h, mts_store.c): the data, and the tables as lists of
      rows. [MtsState] (mts_state.c): sessions in a heap where they are allocated,
      referred to and freed, the room array, a monad [M] in which a pointer that
      dangles and a write past an array are undefined, publishing, joining,
      leaving, starting. [MtsRender] (mts_render.c, mts_command.c): events as
      lines, pages, the table of commands. [MtsChat] (chat.c): a definition per
      command, creating, entering, typed lines, cleaning up, destroying, events of the
      board; what the board answers is the record [host]. [MtsInbox]: the rules [runs_*] for
      programs of [M] and the ring of an inbox. [MtsWorld], [MtsRooms], [MtsSafe]: the invariant [world_ok], the judgement [safe] over a frame of
      what may change, and its tactic [safely], which follows the code of a
      handler; [MtsReach]: the system of inputs, its states and its start.
      [MtsDelivery]: who receives what, who may enter, and scripts of typed lines
      that moderation does not stop.
    - [Lexer], [LexerSpec] (src/buccaneer/lexer.c): the lexer state as a record,
      a definition per scanner.
    - [Value], [ValueSpec] (src/buccaneer/value.c): arrays, maps and errors are
      cells of a store that values refer to, so that aliasing is the code's.
    - [Vm], [VmSpec] (src/buccaneer/vm.c): the machine as a record, a state
      monad [M] with undefined behaviour, a definition per opcode, [exec] the
      switch, [bucc_vm_step], [bucc_vm_run], [bucc_vm_call]. The loaded module
      is a record; the host functions, which are calls into the database and
      the session, are a parameter; so is the integer that is read from the
      union of a value holding something else.
    - [Ast] (src/buccaneer/include/bucc_ast.h): the trees, as inductive types with
      their induction principles. A null child is [NNull] or [None].
    - [Parser] (src/buccaneer/parser.c): a definition per parsing function in a
      monad over the lexer and the two error flags. [ParserSpec]: expressions
      always return, what no source is parsed to, and where the recovery from an
      error does not return. [ParserTrees]: the invariant of all
      parsing functions, that a node is missing only after an error.
    - [Semantic], [SemanticSpec] (src/buccaneer/semantic.c): types, scopes, the
      table of host functions, [analyze_expr], [analyze_stmt],
      [bucc_semantic_analyze]; the scopes and diagnostics it leaves, and the
      capabilities of an accepted module. [TypeSpec]: its types against the
      meaning of expressions.
    - [Emit] (src/buccaneer/emit.c): the code generator. [emit_expr],
      [emit_stmt], [emit_procedure] append bytes to an [emitter] and intern
      constants, texts and imports in its pools; jumps leave a patch that
      [bucc_emit_resolve_patches] fills in; [compile] goes from a tree to the
      module record that the machine of [Vm] runs. [EmitSpec] has the
      reference meaning of expressions, [eval], and the simulation between it
      and the machine; [EmitInv] the interface of what every step of emission
      preserves, a class with a law per elementary step; [EmitJumps] the
      invariant of labels and patches, and that every label a patch waits for is
      placed; [EmitDefects] programs that are not
      compiled to what they say.
    - [ModuleFile] (src/buccaneer/module.c): saving, loading, the verifier, debug
      maps. [ModuleVerify]: the verifier accepts what the compiler makes, by an
      instance of the class of [EmitInv]. [ModuleSpec]: the files.
    - [Compiler] (src/buccaneer/tools/bucc.c): [compile_source], the passes in a
      row, and what holds of every source that compiles.
    - [Mci], [MciSpec] (src/mci.c): colours, the tables of codes, conditionals, and
      [mci_expand], which fills the buffer of the caller; the counts and names of the
      database are the record [MciDb].
    - [Process], [ProcessSpec] (src/process.c): command templates split without a
      shell, and the parent's watch over what [waitpid] and the clock answer.
    - [Calendar]: [struct tm], time zones and the Gregorian calendar. [Scheduler]
      (src/scheduler.c, the events of src/db.c): [parse_schedule], [sched_round] over
      the rows of the table, with the list of its actions; the events of logging on.
      [ScheduleSpec]: the times schedules ask for. [SchedulerSpec]: the rounds.
    - [Menu], [MenuSpec] (src/menu.c): files, lookup, visibility, the classic page at
      the offsets of its buffer, and the choice of a command in src/session.c.
      [MenuTemplate], [MenuTemplateSpec] (src/menu_template.c): validation, cells,
      rows and pages of templates; the file system is a function from paths.
    - [MailDb] (src/db.c over sql/schema.sql): the tables of messages and FidoNet mail
      as lists of rows with the next identifier, a definition per C function, foreign
      and unique keys as the conditions under which a statement fails. [MailDbSpec]:
      the invariant [db_ok] and the system [db_step] of all operations.
    - [Fido], [FidoSpec] (src/fido_netmail.c): export and import; the record [Env] has
      the answers of the file system, of locks and of the clock, and what is done to
      files is a list.
    - [Qwk], [QwkSpec] (src/qwk.c): the files of a packet and the import of replies.

    ** What is shown

    - Telnet: [telnet_feed] decodes the grammar of RFC 854 items it is sent
      ([telnet_feed_decodes_items]) however the network splits the stream
      ([telnet_feed_split_invariant]), and no input leaves the arrays or
      amplifies the output ([telnet_feed_safe]).
    - Access control: evaluation always ends with a verdict
      ([acs_allows_total]), it is the Boolean meaning of every printed
      expression, with [!] over [&] over [|] ([acs_allows_denotes]), each
      condition, ages, ratios and days left included, means what the documented table
      says of the user's record ([acs_allows_conditions]), and more rights never lose access to a string
      without negation ([acs_allows_monotone]); the tools' checker is only a
      conjunction ([acs_check_conjunction], [acs_check_disagrees]).
    - CBOR: the encoder refines a byte string appended item by item
      ([encoder_refines_byte_string]), the order of insertion into a map builder
      does not matter ([map_builder_encode_order_independent]), integers and
      strings round-trip, [cbor_skip] steps over exactly one item
      ([cbor_skip_item_exact]), lookups find the first matching key, and the
      limits of the length checks are pinned down ([cbor_skip_terminates],
      [cbor_skip_diverges], [cbor_decode_block_bounds],
      [cbor_text_length_can_exceed_buffer]).
    - PLANK: a message that is composed, signed and sent is read by the other
      node as it was written ([message_delivered], [signed_object_delivered]),
      texts above the limit of the reader excepted
      ([long_texts_are_sent_unreadable], [large_objects_never_signed]); the bytes
      that are signed determine every field ([signed_bytes_cover_fields]). Policy
      accepts a signed object ([signed_objects_accepted], [should_prune_spec]);
      the limit on attachments and the bans have no effect
      ([attachment_limit_never_enforced], [bans_have_no_effect]). A loop is found
      exactly when the node is in the path ([loop_detection]), unless a node of
      the path is short ([short_path_node_crashes]); [retry_delay_bounds] and
      [should_deadletter_spec] bound the retries. Addresses and identifiers print
      and parse back ([user_addr_roundtrip], [hex_roundtrip]), and two different
      connections never sign the same transcript
      ([auth_transcript_injective]).
    - PLANK links: headers are read as they were sent ([frame_header_roundtrip]);
      on a plain connection a session that reads frames answers every ping among them
      ([every_ping_is_answered]); no frame but a proof whose signature verifies
      authenticates the peer ([only_proofs_authenticate]), with or without a greeting
      ([proofs_need_no_greeting]), but bundles are taken
      without ([bundles_need_no_authentication]); and two nodes that follow the
      protocol authenticate each other only when both clocks read zero
      ([handshake_needs_zero_clocks]), since the time that is signed is never
      sent. [hello_never_returns], [empty_key_is_node_id], [long_offers_are_cut]
      and [receipt_details_are_outside] are smaller defects.
    - Editor: every session does to the arrays what its keys do to a text buffer,
      without leaving them, and ends ([editor_is_a_text_buffer]); what is saved
      is opened again ([saved_text_opens_again]). Telnet options are typed
      ([window_size_is_typed]) and an end of line counts twice
      ([line_end_opens_two_lines]).
    - Teleconference: nothing that callers do leaves the defined behaviour, in
      every state that callers and the board can bring about: no pointer to a session
      that was freed is followed and the arrays are not left
      ([teleconference_never_crashes]). An inbox is a bounded queue
      ([inbox_is_a_bounded_queue]); an event reaches exactly those it is for
      ([events_reach_their_audience]), and a private message nobody else
      ([private_messages_stay_private]); rooms admit exactly whom they should
      ([joining_is_authorized]). What is typed is left as characters without
      controls ([sanitized_text_is_clean]) and lines fit the terminal
      ([clipped_text_fits]). But bans do not move anyone, mutes and reasons have
      holes ([moderation_has_gaps]), and rooms that become private and messages
      that wait are not kept ([rooms_and_messages_leak]).
    - Parser: from any position an expression is parsed to its end
      ([bucc_parse_expression_terminates]); without a reported error the tree has
      every node ([parsed_modules_whole]). No source contains an assignment
      ([bucc_parse_module_no_assignment]), and a missing END is never got past
      ([missing_end_hangs]).
    - Analysis: the type of an expression is that of its value, where the checks
      suffice ([analyze_expr_sound]) and where they do not ([typing_gaps]); an
      accepted module declares the capabilities of its host calls
      ([capabilities_enforced]).
    - Compiler: the passes compose ([compiled_sources]): a source that compiles
      has a whole tree, a Main, its capabilities, and a module that the verifier
      accepts. [capability_bypass] and [globals_are_not_stored] are sources that
      compile and should not, or do not do what they say.
    - Lexer: every call consumes white space and one token, with exact text and
      coordinates ([bucc_lexer_next_spec]), tokens and white space partition the
      source ([lexer_lossless]), peeking is transparent, keywords and integer
      literals are read back.
    - Values: maps refine finite maps in insertion order ([bucc_map_refines]);
      comparison and the integer conversions.
    - Machine: no step writes outside of the fixed arrays, and the steps that are
      undefined are told ([bucc_vm_stays_in_bounds]); a run
      ends within its instruction limit ([bucc_vm_run_terminates]); calls and
      returns keep the caller's stack, locals and frames ([op_call_return]);
      exceptions unwind to their handler ([op_throw_unwinds]); the date
      conversions are the Gregorian calendar ([cast_date_correct],
      [cast_datetime_correct]).
    - Code generator: the code of every expression without calls computes its
      value, one step per instruction, and leaves the rest of the machine alone
      ([emit_expr_correct]); every jump of a compiled module lands where its
      label was placed, and no label is left out ([compiled_jumps_land]). Local
      variables are not compiled ([locals_are_not_compiled]), a zero takes the sign of
      the one before ([zeros_share_a_constant]), and four constructs compile to something else
      ([constructs_are_miscompiled]).
    - Module files: what is saved is loaded back ([module_file_roundtrip]); the
      verifier accepts compiled modules ([compiled_modules_verify]), but for
      operands it does not know of ([verifier_misreads_operands]); dates and short
      files are mistreated ([module_file_flaws]).
    - Texts with codes: a template of documented codes is made of the meanings of its
      codes, of which the buffer gets those that fit whole ([templates_are_rendered],
      [mci_expand_bounded]);
      a long condition is evaluated without its end ([long_conditions_are_cut]).
    - Programs: the words of a template are the arguments ([templates_are_split]); a
      watch with a limit ends, and a process is killed only after it was told to stop
      ([watched_processes_end]); one without waits ([unlimited_watch_waits]).
    - Schedules: the next run is the first moment that satisfies the schedule
      ([next_run_is_the_first]), an event runs at the first round at or after its time
      and once ([scheduled_events_run_once]); [scheduler_gaps] are the exceptions.
    - Menus: a command runs only for those its conditions let in
      ([commands_are_guarded]); saved menus load again ([saved_menus_load], but
      [saves_lose]); pages and templates show what the menu says
      ([pages_are_rendered], [templates_make_pages], [valid_templates],
      [keys_are_checked]) unless they leave their buffer ([long_pages_overflow],
      [wide_templates_overflow]).
    - Mail tables: every operation, the deletions of users, areas and messages among
      them, keeps them whole ([operations_keep_integrity]); private mail, forwarding and
      mass mail are refused ([mail_is_refused]), and packing the messages deletes none
      ([packing_deletes_nothing]);
      posted messages and addresses read back ([posted_messages_read],
      [addresses_read_back]); a zero refers to nothing ([zero_is_no_reference]),
      a refused address costs the primary one ([failed_add_loses_primary]), and a
      message queued twice is exported twice ([queued_twice_pending_twice]).
    - FidoNet: a run writes what is queued for the first 32 links, once and in order
      ([run_exports_the_queue]), rounds of any limit empty their queue
      ([queue_is_emptied]), packets read as they were written ([packets_read_back]);
      and none is ever imported ([nothing_is_imported]).
    - QWK: an index leads to every message of a packet, up to its capacity
      ([packets_are_indexed], [index_numbers_exact]), messages read as they were
      written ([written_messages_read_back]); and no reply is ever imported
      ([no_reply_is_imported]).
    - Theorems whose name says so (an input that diverges, disagrees, is misread,
      loses precision) prove where the code falls short of its intent.

    ** Undefined behaviour, fuel and bounds

    C's undefined behaviour is [None] ([Undefined] for a run); allocation is
    assumed to succeed except in the CBOR buffers and the variable sizes of
    PLANK, where the failure is a parameter (theorems about delivery assume that
    up to 64 KiB is granted). Fuel: the access-control evaluator takes a bound on the length
    of the string, which [acs_allows_total] proves enough; the machine takes
    one step for each instruction its limit leaves and one more, which
    [bucc_vm_run_terminates] proves enough; the year loop of the dates takes one
    round per 365 days; [cbor_skip] recurses as deep as its input, with the
    sufficient depth in [cbor_skip_terminates] and an input for which none is
    in [cbor_skip_diverges]; the PLANK decoders skip unknown fields with twice the
    bytes and two, 8194 for an envelope of at most 4096 bytes and 16386 for a
    body of at most 8192; greetings and proofs of links skip with 1000. A session
    of the editor reads one key a step, for which one more than the bytes of the
    input is enough. The loops over texts of the teleconference take the length of
    the text, and the automatic answers to a message one level, since an answer
    is not answered. The parser takes one number for all its loops and its
    recursion: for an expression one more than the characters left, twice counted
    at the end, is enough ([bucc_parse_expression_terminates]); statements have no
    bound, since some sources are parsed for ever. The loop of [mci_expand], the tokens
    of a command, the placeholders of a template and the replies of a QWK file take the
    length of their text, of which every round reads something; the rows of a menu's
    body one more than its items; the month of a date thirty steps from an estimate that
    is at most that far off. The export of FidoNet mail is repeated as often as rows
    wait, which [queue_is_emptied] proves enough.

    ** What is not modelled

    Reference counts and freeing of Buccaneer values (the store keeps every object); the positions of
    nodes other than statements; printing of diagnostics and disassembly; of the
    database (src/db.c) everything but the events, the tables of mail, the lists of files
    and what access control reads; the sessions and their screens but for the choice of
    a command; doors; the child side of a process; starting and stopping the scheduler's
    thread; plugins other than the teleconference, the tools but for the compiler; the
    host functions of Buccaneer programs, which are a parameter; of PLANK, the bundles,
    the store, the files of keys, random numbers and compression, and the functions of
    routing that only forward to the store. Of the teleconference, the commands that only
    print joins of tables, the schema of its database and its settings file; every input
    of a caller is one step, although the code releases its locks between the parts of a
    command. Of mail, the failure of a rename, the archivers, and the commands that ask
    the user; SQL statements succeed unless a key forbids them or, where the model says
    so, another connection holds the database.

    ** Plan

    What is left, in the order of its weight: the file format of
    src/plank/plank_bundle.c over the objects; the user, file and door tables of src/db.c
    with the commands over them; the drop files of src/doors.c; the settings file of the
    teleconference; the code of statements against the machine, and a print and parse
    round trip of expressions. *)

From stdpp Require Export base tactics list numbers option strings.
From Stdlib Require Export ZArith Lia ZifyBool Ascii.

Declare Scope bbs_scope.
Delimit Scope bbs_scope with bbs.

#[local] Open Scope Z_scope.

Create HintDb bbs discriminated.
Create Rewrite HintDb bbs.
Create Rewrite HintDb zlen.

(** ** Machine integers

    A [w]-bit C integer is the mathematical integer it denotes; the wrap-around
    of an unsigned type and the two's-complement conversion of a signed one are
    written out where the code performs them. *)

Definition wrap (w z : Z) : Z := z mod 2 ^ w.

Definition swrap (w z : Z) : Z := (z + 2 ^ (w - 1)) mod 2 ^ w - 2 ^ (w - 1).

Definition in_u (w z : Z) : Prop := 0 <= z < 2 ^ w.

Definition in_s (w z : Z) : Prop := - 2 ^ (w - 1) <= z < 2 ^ (w - 1).

Abbreviation u8 := (wrap 8).
Abbreviation u16 := (wrap 16).
Abbreviation u32 := (wrap 32).
Abbreviation u64 := (wrap 64).
Abbreviation s16 := (swrap 16).
Abbreviation s32 := (swrap 32).
Abbreviation s64 := (swrap 64).

#[export] Instance in_u_dec w z : Decision (in_u w z).
Proof. unfold in_u. apply _. Defined.

#[export] Instance in_s_dec w z : Decision (in_s w z).
Proof. unfold in_s. apply _. Defined.

(** [zred] turns the powers of two with literal exponents into literals, so that
    [lia] sees linear arithmetic; [zlia] is [lia] after it. *)
Ltac zred :=
  unfold in_u, in_s in *;
  repeat match goal with
  | |- context [2 ^ ?k] =>
      match isZcst k with true => idtac end;
      let v := eval vm_compute in (2 ^ k) in change (2 ^ k) with v
  | H : context [2 ^ ?k] |- _ =>
      match isZcst k with true => idtac end;
      let v := eval vm_compute in (2 ^ k) in change (2 ^ k) with v in H
  | |- context [2 ^ (?a - ?b)] =>
      match isZcst a with true => idtac end;
      let v := eval vm_compute in (2 ^ (a - b)) in change (2 ^ (a - b)) with v
  | H : context [2 ^ (?a - ?b)] |- _ =>
      match isZcst a with true => idtac end;
      let v := eval vm_compute in (2 ^ (a - b)) in change (2 ^ (a - b)) with v in H
  end.

Ltac zlia := zred; lia.

Section integers.
Context (w : Z) (Hw : 0 < w).

Lemma wrap_range z : in_u w (wrap w z).
Proof. apply Z.mod_pos_bound. lia. Qed.

Lemma wrap_small z : in_u w z → wrap w z = z.
Proof. apply Z.mod_small. Qed.

Lemma pow2_split : 2 ^ w = 2 * 2 ^ (w - 1).
Proof. rewrite <- Z.pow_succ_r by lia. f_equal. lia. Qed.

Lemma swrap_range z : in_s w (swrap w z).
Proof.
  unfold in_s, swrap. pose proof pow2_split.
  pose proof (Z.mod_pos_bound (z + 2 ^ (w - 1)) (2 ^ w) ltac:(lia)). lia.
Qed.

Lemma swrap_small z : in_s w z → swrap w z = z.
Proof.
  unfold in_s, swrap. intros Hz. pose proof pow2_split.
  rewrite Z.mod_small; lia.
Qed.

Lemma swrap_high z : 2 ^ (w - 1) <= z < 2 ^ w → swrap w z = z - 2 ^ w.
Proof.
  unfold swrap. intros Hz. pose proof pow2_split.
  rewrite (Z.mod_eq (z + _)) by lia.
  replace ((z + 2 ^ (w - 1)) / 2 ^ w) with 1; [lia |].
  apply (Z.div_unique _ _ 1 (z - 2 ^ (w - 1))); lia.
Qed.

Lemma swrap_wrap z : swrap w (wrap w z) = swrap w z.
Proof. unfold swrap, wrap. by rewrite Zplus_mod_idemp_l. Qed.

Lemma wrap_swrap z : wrap w (swrap w z) = wrap w z.
Proof.
  unfold swrap, wrap. rewrite Zminus_mod_idemp_l. f_equal. lia.
Qed.

Lemma wrap_wrap z : wrap w (wrap w z) = wrap w z.
Proof. apply Zmod_mod. Qed.
End integers.

#[export] Hint Rewrite wrap_wrap : bbs.
#[export] Hint Rewrite wrap_small swrap_small using zlia : bbs.
#[export] Hint Resolve wrap_range swrap_range : bbs.

(** ** Lists indexed by machine integers *)

Definition zlen {A} (l : list A) : Z := Z.of_nat (length l).

Definition nthZ {A} (l : list A) (i : Z) : option A :=
  if i <? 0 then None else l !! Z.to_nat i.

Definition dropZ {A} (i : Z) (l : list A) : list A := drop (Z.to_nat i) l.
Definition takeZ {A} (i : Z) (l : list A) : list A := take (Z.to_nat i) l.

(** The bytes [off .. off+len) of a buffer. *)
Definition slice {A} (off len : Z) (l : list A) : list A := takeZ len (dropZ off l).

Lemma zlen_nonneg {A} (l : list A) : 0 <= zlen l.
Proof. unfold zlen. lia. Qed.

Lemma zlen_nil {A} : zlen (@nil A) = 0.
Proof. done. Qed.

Lemma zlen_cons {A} (x : A) l : zlen (x :: l) = 1 + zlen l.
Proof. unfold zlen. simpl. lia. Qed.

Lemma zlen_app {A} (l k : list A) : zlen (l ++ k) = zlen l + zlen k.
Proof. unfold zlen. rewrite length_app. lia. Qed.

Lemma zlen_map {A B} (f : A → B) l : zlen (f <$> l) = zlen l.
Proof. unfold zlen. by rewrite length_fmap. Qed.

#[export] Hint Rewrite @zlen_nil @zlen_cons @zlen_app @zlen_map : zlen.

Lemma nthZ_Some {A} (l : list A) i x : nthZ l i = Some x → 0 <= i < zlen l.
Proof.
  unfold nthZ, zlen. destruct (Z.ltb_spec i 0); [done |].
  intros ?%lookup_lt_Some. lia.
Qed.

Lemma nthZ_lookup {A} (l : list A) i : 0 <= i < zlen l → ∃ x, nthZ l i = Some x.
Proof.
  unfold nthZ, zlen. intros Hi. destruct (Z.ltb_spec i 0); [lia |].
  apply lookup_lt_is_Some. lia.
Qed.

Lemma nthZ_app_r {A} (l k : list A) i :
  zlen l <= i → nthZ (l ++ k) i = nthZ k (i - zlen l).
Proof.
  unfold nthZ, zlen. intros Hi.
  destruct (Z.ltb_spec i 0); [lia |]. destruct (Z.ltb_spec (i - Z.of_nat (length l)) 0); [lia |].
  rewrite lookup_app_r by lia. f_equal. lia.
Qed.

Lemma nthZ_app_l {A} (l k : list A) i :
  i < zlen l → nthZ (l ++ k) i = nthZ l i.
Proof.
  unfold nthZ, zlen. intros Hi. destruct (Z.ltb_spec i 0); [done |].
  apply lookup_app_l. lia.
Qed.

Lemma nthZ_mid {A} (l : list A) x k : nthZ (l ++ x :: k) (zlen l) = Some x.
Proof. rewrite nthZ_app_r by lia. rewrite Z.sub_diag. done. Qed.

Lemma dropZ_app {A} (l k : list A) : dropZ (zlen l) (l ++ k) = k.
Proof. unfold dropZ, zlen. rewrite Nat2Z.id. apply drop_app_length. Qed.

Lemma takeZ_app {A} (l k : list A) : takeZ (zlen l) (l ++ k) = l.
Proof. unfold takeZ, zlen. rewrite Nat2Z.id. apply take_app_length. Qed.

Lemma takeZ_all {A} n (l : list A) : zlen l = n → takeZ n l = l.
Proof. intros <-. unfold takeZ, zlen. by rewrite Nat2Z.id, firstn_all. Qed.

Lemma slice_mid {A} (l m k : list A) : slice (zlen l) (zlen m) (l ++ m ++ k) = m.
Proof. unfold slice. by rewrite dropZ_app, takeZ_app. Qed.

Lemma take_take_app {A} n (l k : list A) : take n (take n l ++ k) = take n (l ++ k).
Proof.
  destruct (decide (n <= length l)%nat).
  - rewrite !take_app_le by (rewrite ?length_take; lia). by rewrite take_take, Nat.min_id.
  - by rewrite (take_ge l) by lia.
Qed.

#[export] Hint Resolve zlen_nonneg : bbs.

(** ** Big-endian byte strings *)

Definition bytes_ok (l : list Z) : Prop := Forall (in_u 8) l.

Definition be_value (bs : list Z) : Z := foldl (fun acc b => acc * 256 + b) 0 bs.

Fixpoint be_bytes (n : nat) (z : Z) : list Z :=
  match n with
  | O => []
  | S k => u8 (z / 256 ^ Z.of_nat k) :: be_bytes k z
  end.

Lemma be_bytes_length n z : length (be_bytes n z) = n.
Proof. induction n; simpl; congruence. Qed.

Lemma be_bytes_ok n z : bytes_ok (be_bytes n z).
Proof. induction n; constructor; [by apply wrap_range | done]. Qed.

Lemma be_value_acc bs a :
  foldl (fun acc b => acc * 256 + b) a bs = a * 256 ^ zlen bs + be_value bs.
Proof.
  unfold be_value. revert a. induction bs as [|b bs IH]; intros a; simpl.
  - rewrite zlen_nil. lia.
  - rewrite IH, (IH (0 * 256 + b)), zlen_cons, Z.pow_add_r by auto with bbs lia. lia.
Qed.

Lemma be_value_cons b bs : be_value (b :: bs) = b * 256 ^ zlen bs + be_value bs.
Proof. unfold be_value at 1. simpl. apply be_value_acc. Qed.

Lemma be_value_bytes n z : be_value (be_bytes n z) = z mod 256 ^ Z.of_nat n.
Proof.
  induction n as [|n IH]; simpl be_bytes.
  - simpl. by rewrite Z.mod_1_r.
  - rewrite be_value_cons, IH. unfold zlen. rewrite be_bytes_length.
    rewrite Nat2Z.inj_succ, Z.pow_succ_r by lia. unfold wrap.
    change (2 ^ 8) with 256. rewrite (Z.mul_comm 256), Z.rem_mul_r by lia. lia.
Qed.

Lemma be_value_range bs : bytes_ok bs → 0 <= be_value bs < 256 ^ zlen bs.
Proof.
  induction 1 as [|b bs Hb _ IH]; [done |].
  rewrite be_value_cons, zlen_cons, Z.pow_add_r by auto with bbs lia. zred. nia.
Qed.

(** ** Bit fields *)

Lemma land_shiftl_low m a k : 0 <= k → 0 <= a < 2 ^ k → Z.land (Z.shiftl m k) a = 0.
Proof.
  intros Hk Ha. apply Z.bits_inj'. intros n Hn.
  rewrite Z.land_spec, Z.bits_0. destruct (Z.ltb_spec n k).
  - by rewrite Z.shiftl_spec_low.
  - rewrite <- (Z.mod_small a (2 ^ k)) by lia.
    rewrite Z.mod_pow2_bits_high by lia. apply andb_false_r.
Qed.

(** A field below bit [k] can be or-ed or added. *)
Lemma lor_shiftl_add m a k :
  0 <= k → 0 <= a < 2 ^ k → Z.lor (Z.shiftl m k) a = m * 2 ^ k + a.
Proof.
  intros Hk Ha. pose proof (land_shiftl_low m a k Hk Ha).
  rewrite <- Z.lxor_lor, <- Z.add_nocarry_lxor, Z.shiftl_mul_pow2 by done. done.
Qed.

Lemma land_low z k : 0 <= k → Z.land z (Z.ones k) = z mod 2 ^ k.
Proof. apply Z.land_ones. Qed.

(** ** Length arithmetic

    [zl] normalises [zlen], adds that every length in sight is nonnegative, and
    calls [lia]. *)
Ltac zlen_facts :=
  autorewrite with zlen in *;
  repeat match goal with
  | |- context [zlen ?l] =>
      lazymatch goal with
      | _ : 0 <= zlen l |- _ => fail
      | _ => pose proof (zlen_nonneg l)
      end
  | _ : context [zlen ?l] |- _ =>
      lazymatch goal with
      | _ : 0 <= zlen l |- _ => fail
      | _ => pose proof (zlen_nonneg l)
      end
  end.

Ltac zl := zlen_facts; zlia.

(** ** Comparing buffers *)

(** The sign of C's [memcmp] on two buffers of the same length. *)
Fixpoint memcmp (a b : list Z) : Z :=
  match a, b with
  | x :: a, y :: b => if x <? y then -1 else if y <? x then 1 else memcmp a b
  | _, _ => 0
  end.

Lemma memcmp_sym a b : memcmp b a = - memcmp a b.
Proof.
  revert b. induction a as [|x a IH]; intros [|y b]; simpl; try lia.
  destruct (Z.ltb_spec x y), (Z.ltb_spec y x); try lia. apply IH.
Qed.

Lemma memcmp_eq a b : zlen a = zlen b → memcmp a b = 0 → a = b.
Proof.
  revert b. induction a as [|x a IH]; intros [|y b] Hlen; simpl; try solve [zl | done].
  rewrite !zlen_cons in Hlen.
  destruct (Z.ltb_spec x y), (Z.ltb_spec y x); try lia.
  intros Hc. f_equal; [lia | apply IH; [lia | done]].
Qed.

Lemma memcmp_trans a b c :
  zlen a = zlen b → zlen b = zlen c → memcmp a b <= 0 → memcmp b c <= 0 → memcmp a c <= 0.
Proof.
  revert b c. induction a as [|x a IH]; intros [|y b] [|z c]; simpl; intros Hab Hbc;
    try solve [zl].
  rewrite !zlen_cons in Hab, Hbc.
  destruct (Z.ltb_spec x y), (Z.ltb_spec y x), (Z.ltb_spec y z), (Z.ltb_spec z y),
    (Z.ltb_spec x z), (Z.ltb_spec z x); try lia.
  apply IH; lia.
Qed.
