(* ===== verification/CLib.v ===== *)
(** The part of the C library the modelled code calls on strings: character
    classes of the "C" locale, [strtoll] and [atoi], the [%d] conversions of
    [sscanf], decimal output. A C string is the list of its bytes before the
    terminating NUL, each an unsigned 8-bit value; reading at the length gives
    the terminator. And text files: the lines [fgets] reads, and their paths
    (src/util.c). *)

From S2P Require Import Prelude.
From Stdlib Require String.

#[local] Open Scope Z_scope.

Abbreviation cstr := (list Z).

(** A string literal of the source. *)
Fixpoint lit (s : String.string) : cstr :=
  match s with
  | String.EmptyString => []
  | String.String a s => Z.of_nat (nat_of_ascii a) :: lit s
  end.
Arguments lit s%_string.

(** A character constant of the source. *)
Definition ch (a : ascii) : Z := Z.of_nat (nat_of_ascii a).
Arguments ch a%_char.

(** Character constants in the goal and the hypotheses as numbers. *)
Ltac chars :=
  repeat match goal with
  | |- context [ch ?a] =>
      let v := eval vm_compute in (ch a) in change (ch a) with v
  | H : context [ch ?a] |- _ =>
      let v := eval vm_compute in (ch a) in change (ch a) with v in H
  end.

(** The characters before an embedded NUL. *)
Fixpoint c_string (s : cstr) : cstr :=
  match s with [] => [] | c :: s => if c =? 0 then [] else c :: c_string s end.

(** [s[i]] *)
Definition char_at (s : cstr) (i : nat) : Z := default 0 (s !! i).

(** ** Character classes *)

Definition isspace (c : Z) : bool := (c =? 32) || ((9 <=? c) && (c <=? 13)).
Definition isdigit (c : Z) : bool := (48 <=? c) && (c <=? 57).
Definition isupper (c : Z) : bool := (65 <=? c) && (c <=? 90).
Definition islower (c : Z) : bool := (97 <=? c) && (c <=? 122).
Definition isalpha (c : Z) : bool := isupper c || islower c.
Definition isalnum (c : Z) : bool := isalpha c || isdigit c.
Definition isxdigit (c : Z) : bool :=
  isdigit c || ((65 <=? c) && (c <=? 70)) || ((97 <=? c) && (c <=? 102)).
Definition toupper (c : Z) : Z := if islower c then c - 32 else c.
Definition tolower (c : Z) : Z := if isupper c then c + 32 else c.

(** ** Numbers *)

Definition digit_of (c : Z) : Z :=
  if isdigit c then c - 48
  else if islower c then c - 87
  else if isupper c then c - 55
  else 99.

(** The digits at the front of a string: their value, their number, the rest. *)
Fixpoint read_digits (base acc : Z) (n : nat) (s : cstr) : Z * nat * cstr :=
  match s with
  | [] => (acc, n, [])
  | c :: r =>
      if digit_of c <? base then read_digits base (acc * base + digit_of c) (S n) r
      else (acc, n, s)
  end.

Fixpoint skip_space (s : cstr) : cstr :=
  match s with
  | c :: r => if isspace c then skip_space r else s
  | [] => []
  end.

Definition read_sign (s : cstr) : bool * cstr :=
  match s with
  | c :: r => if c =? ch "-" then (true, r) else if c =? ch "+" then (false, r) else (false, s)
  | [] => (false, [])
  end.

Definition skip_0x (s : cstr) : cstr :=
  match s with
  | z :: x :: c :: r =>
      if (z =? ch "0") && ((x =? ch "x") || (x =? ch "X")) && isxdigit c then c :: r else s
  | _ => s
  end.

Definition clamp64 (z : Z) : Z := Z.max (- 2 ^ 63) (Z.min (2 ^ 63 - 1) z).

(** [strtoll(s, &end, base)] for a base of 2 to 36: value and end; the end is
    [s] itself when there is no number. *)
Definition strtoll (base : Z) (s : cstr) : Z * cstr :=
  let '(neg, r) := read_sign (skip_space s) in
  let r := if base =? 16 then skip_0x r else r in
  match read_digits base 0 0 r with
  | (_, O, _) => (0, s)
  | (v, S _, r') => (clamp64 (if neg : bool then - v else v), r')
  end.

(** [atoi] is [strtol] converted to [int]. *)
Definition atoi (s : cstr) : Z := s32 (fst (strtoll 10 s)).

(** One [%d] of [sscanf]. *)
Definition scan_d (s : cstr) : option (Z * cstr) :=
  let '(neg, r) := read_sign (skip_space s) in
  match read_digits 10 0 0 r with
  | (_, O, _) => None
  | (v, S _, r') => Some (s32 (clamp64 (if neg : bool then - v else v)), r')
  end.

(** [sscanf] of [%d] conversions separated by the characters [seps]; the values
    converted before the first failure. *)
Fixpoint scan_ds (seps : list Z) (s : cstr) : list Z * cstr :=
  match scan_d s with
  | None => ([], s)
  | Some (v, r) =>
      match seps, r with
      | sep :: seps', c :: r' =>
          let here := if sep =? 32 then Some (skip_space r) else if c =? sep then Some r' else None in
          match here with
          | Some r'' => let '(vs, e) := scan_ds seps' r'' in (v :: vs, e)
          | None => ([v], r)
          end
      | _, _ => ([v], r)
      end
  end.

(** ** Output *)

Fixpoint dec_digits (fuel : nat) (z : Z) (acc : cstr) : cstr :=
  match fuel with
  | O => acc
  | S fuel =>
      let acc := (48 + z mod 10) :: acc in
      if z <? 10 then acc else dec_digits fuel (z / 10) acc
  end.

(** The decimal digits of a nonnegative number; a number below [2^k] has at
    most [k + 1] of them. *)
Definition dec_of_nonneg (z : Z) : cstr :=
  dec_digits (S (Z.to_nat (Z.log2_up (z + 1)))) z [].

(** [%lld] *)
Definition fmt_d (z : Z) : cstr :=
  if z <? 0 then ch "-" :: dec_of_nonneg (- z) else dec_of_nonneg z.

Definition pad_left (n : nat) (c : Z) (s : cstr) : cstr :=
  replicate (n - length s) c ++ s.

(** [%0nd] *)
Definition fmt_0d (n : nat) (z : Z) : cstr :=
  if z <? 0 then ch "-" :: pad_left (n - 1) (ch "0") (dec_of_nonneg (- z))
  else pad_left n (ch "0") (dec_of_nonneg z).


Fixpoint has_prefix (p s : cstr) : bool :=
  match p, s with
  | [], _ => true
  | x :: p, y :: s => (x =? y) && has_prefix p s
  | _, [] => false
  end.

(** Where [strchr(s, c)] points: the characters before it and those after it. *)
Fixpoint cut (c : Z) (s : cstr) : option (cstr * cstr) :=
  match s with
  | [] => None
  | x :: s =>
      if x =? c then Some ([], s)
      else match cut c s with Some (l, r) => Some (x :: l, r) | None => None end
  end.

(** [strstr(s, p)]: what follows the first occurrence, and what is before it. *)
Fixpoint find_str (p s : cstr) : option (cstr * cstr) :=
  if has_prefix p s then Some ([], dropZ (zlen p) s)
  else match s with
       | [] => None
       | x :: s => '(l, r) ← find_str p s; Some (x :: l, r)
       end.

Definition has_str (p s : cstr) : bool := bool_decide (is_Some (find_str p s)).

(** ** Decimal output reads back *)

Definition stops (base : Z) (rest : cstr) : Prop :=
  match rest with c :: _ => base <= digit_of c | [] => True end.

Lemma digit_char z : 0 <= z < 10 → digit_of (48 + z) = z ∧ isdigit (48 + z) = true.
Proof.
  intros Hz. assert (isdigit (48 + z) = true) as E by (unfold isdigit; lia).
  unfold digit_of. rewrite E. split; [lia | done].
Qed.

Lemma read_digits_stop base acc n rest :
  stops base rest → read_digits base acc n rest = (acc, n, rest).
Proof. destruct rest as [|c r]; [done |]. cbn. intros ?. by rewrite (proj2 (Z.ltb_ge _ _)). Qed.

Lemma read_digit_cons z acc n k :
  0 <= z < 10 → read_digits 10 acc n ((48 + z) :: k) = read_digits 10 (acc * 10 + z) (S n) k.
Proof. intros Hz. cbn [read_digits]. destruct (digit_char z Hz) as [-> _]. by rewrite (proj2 (Z.ltb_lt _ _)) by lia. Qed.

Lemma read_dec_digits fuel : ∀ z acc n k,
  0 <= z < 10 ^ Z.of_nat (S fuel) →
  ∃ L, (0 < L)%nat ∧ read_digits 10 acc n (dec_digits (S fuel) z k) =
    read_digits 10 (acc * 10 ^ Z.of_nat L + z) (n + L) k.
Proof.
  induction fuel as [|fuel IH]; intros z acc n k Hz.
  - exists 1%nat. split; [lia |]. change (10 ^ Z.of_nat 1) with 10 in *.
    cbn [dec_digits]. rewrite (proj2 (Z.ltb_lt z 10)) by lia.
    rewrite Z.mod_small, read_digit_cons by lia. f_equal; lia.
  - cbn [dec_digits]. destruct (Z.ltb_spec z 10).
    + exists 1%nat. split; [lia |]. change (10 ^ Z.of_nat 1) with 10.
      rewrite Z.mod_small, read_digit_cons by lia. f_equal; lia.
    + rewrite Nat2Z.inj_succ, Z.pow_succ_r in Hz by lia.
      pose proof (Z.div_mod z 10 ltac:(lia)) as Hdm.
      pose proof (Z.mod_pos_bound z 10 ltac:(lia)).
      destruct (IH (z / 10) acc n ((48 + z mod 10) :: k)) as (L & HL & E).
      { split; [apply Z.div_pos; lia |]. apply Z.div_lt_upper_bound; lia. }
      exists (S L). split; [lia |]. cbn [dec_digits] in E. rewrite E, read_digit_cons by lia.
      rewrite Nat2Z.inj_succ, Z.pow_succ_r by lia. f_equal; lia.
Qed.

Lemma dec_fuel z : 0 <= z → z < 10 ^ Z.of_nat (S (Z.to_nat (Z.log2_up (z + 1)))).
Proof.
  intros Hz. rewrite Nat2Z.inj_succ, Z2Nat.id by apply Z.log2_up_nonneg.
  rewrite Z.pow_succ_r by apply Z.log2_up_nonneg.
  assert (z + 1 <= 2 ^ Z.log2_up (z + 1)) by (apply Z.log2_up_le_pow2; lia).
  assert (2 ^ Z.log2_up (z + 1) <= 10 ^ Z.log2_up (z + 1)) by (apply Z.pow_le_mono_l; lia).
  lia.
Qed.

Lemma dec_digits_app fuel z k r : dec_digits fuel z (k ++ r) = dec_digits fuel z k ++ r.
Proof.
  revert z k. induction fuel as [|fuel IH]; intros z k; [done |].
  cbn [dec_digits]. case_match; [done |]. apply (IH _ (_ :: k)).
Qed.

(** The digits printed for a nonnegative number read back as that number. *)
Lemma read_dec z acc n rest :
  0 <= z → stops 10 rest →
  ∃ L, (0 < L)%nat ∧ read_digits 10 acc n (dec_of_nonneg z ++ rest) =
    (acc * 10 ^ Z.of_nat L + z, (n + L)%nat, rest).
Proof.
  intros Hz Hr. unfold dec_of_nonneg. rewrite <- dec_digits_app.
  destruct (read_dec_digits (Z.to_nat (Z.log2_up (z + 1))) z acc n ([] ++ rest)) as (L & HL & E).
  { split; [done | by apply dec_fuel]. }
  exists L. split; [done |]. rewrite E. by apply read_digits_stop.
Qed.

Lemma dec_digits_digits fuel z k :
  0 <= z → Forall (λ c, isdigit c = true) k →
  Forall (λ c, isdigit c = true) (dec_digits fuel z k).
Proof.
  revert z k. induction fuel as [|fuel IH]; intros z k Hz Hk; [done |].
  pose proof (Z.mod_pos_bound z 10 ltac:(lia)).
  assert (Forall (λ c, isdigit c = true) ((48 + z mod 10) :: k)).
  { constructor; [by apply digit_char | done]. }
  cbn [dec_digits]. case_match; [done |]. apply IH; [apply Z.div_pos; lia | done].
Qed.

Lemma dec_digits_grows fuel z k : (length k <= length (dec_digits fuel z k))%nat.
Proof.
  revert z k. induction fuel as [|fuel IH]; intros z k; [done |].
  cbn [dec_digits]. case_match; cbn; [lia |]. specialize (IH (z / 10) ((48 + z mod 10) :: k)).
  cbn in IH. lia.
Qed.

Lemma dec_of_nonneg_digits z :
  0 <= z → Forall (λ c, isdigit c = true) (dec_of_nonneg z) ∧ dec_of_nonneg z ≠ [].
Proof.
  intros Hz. split; [by apply dec_digits_digits |].
  unfold dec_of_nonneg. cbn [dec_digits]. intros E. apply (f_equal length) in E.
  case_match; [done |].
  pose proof (dec_digits_grows (Z.to_nat (Z.log2_up (z + 1))) (z / 10) [48 + z mod 10]).
  cbn in *. lia.
Qed.

Lemma digit_not_special c :
  isdigit c = true → isspace c = false ∧ (c =? ch "-") = false ∧ (c =? ch "+") = false.
Proof.
  change (ch "-") with 45. change (ch "+") with 43.
  unfold isdigit, isspace. intros. split_and!; lia.
Qed.

Lemma dec_head z : 0 <= z → ∃ c r, dec_of_nonneg z = c :: r ∧ isdigit c = true.
Proof.
  intros Hz. destruct (dec_of_nonneg_digits z Hz) as [Hall Hne].
  destruct Hall as [|c r Hc _]; [done |]. by exists c, r.
Qed.

(** [strtoll] inverts [%lld] on the 64-bit integers. *)
Lemma strtoll_fmt_d z rest :
  in_s 64 z → stops 10 rest → strtoll 10 (fmt_d z ++ rest) = (z, rest).
Proof.
  intros Hz Hr. unfold strtoll, fmt_d. zred. change (10 =? 16) with false. cbv beta iota.
  assert (Hpos : ∀ z, 0 <= z → ∃ L, (0 < L)%nat ∧
    read_digits 10 0 0 (dec_of_nonneg z ++ rest) = (z, L, rest)).
  { intros y Hy. destruct (read_dec y 0 0 rest Hy Hr) as (L & HL & E). exists L.
    by rewrite E. }
  destruct (Z.ltb_spec z 0).
  - destruct (Hpos (- z) ltac:(lia)) as (L & HL & E). cbn [app skip_space].
    change (isspace (ch "-")) with false. cbn [read_sign].
    change (ch "-" =? ch "-") with true. cbv beta iota. rewrite E.
    destruct L; [lia |]. unfold clamp64. f_equal. lia.
  - destruct (Hpos z ltac:(lia)) as (L & HL & E).
    destruct (dec_head z ltac:(lia)) as (c & r & Hdec & Hc).
    destruct (digit_not_special c Hc) as (Hs & Hm & Hp).
    rewrite Hdec in *. cbn [app skip_space]. rewrite Hs. cbn [read_sign]. rewrite Hm, Hp.
    change (c :: r ++ rest) with ((c :: r) ++ rest). rewrite E.
    destruct L; [lia |]. unfold clamp64. f_equal. lia.
Qed.

Lemma c_string_no_nul s : Forall (λ c, c ≠ 0) s → c_string s = s.
Proof.
  induction 1 as [|c s Hc _ IH]; cbn; [done |]. by rewrite (proj2 (Z.eqb_neq _ _) Hc), IH.
Qed.

(** ** Prefixes and parts of a text *)

Lemma has_prefix_app m s : has_prefix m s = true ↔ ∃ q, s = m ++ q.
Proof.
  revert s. induction m as [|x m IH]; intros s; cbn; [split; eauto |].
  destruct s as [|y s]; [split; [done | by intros [q [=]]] |].
  rewrite andb_true_iff, Z.eqb_eq, IH. split.
  - intros [-> [q ->]]. eauto.
  - intros [q [= -> ->]]. eauto.
Qed.

Lemma cut_app c l r : c ∉ l → cut c (l ++ c :: r) = Some (l, r).
Proof.
  induction l as [|x l IH]; intros Hl; cbn; [by rewrite Z.eqb_refl |].
  apply not_elem_of_cons in Hl as [Hx Hl]. destruct (Z.eqb_spec x c); [done |]. by rewrite IH.
Qed.

Lemma cut_none c l : c ∉ l → cut c l = None.
Proof.
  induction l as [|x l IH]; intros Hl; cbn; [done |].
  apply not_elem_of_cons in Hl as [Hx Hl]. destruct (Z.eqb_spec x c); [done |]. by rewrite IH.
Qed.

Lemma cut_sound c s l r : cut c s = Some (l, r) → s = l ++ c :: r ∧ c ∉ l.
Proof.
  revert l. induction s as [|x s IH]; intros l; cbn; [done |].
  destruct (Z.eqb_spec x c) as [-> |]; [intros [= <- <-]; split; [done | by apply not_elem_of_nil] |].
  destruct (cut c s) as [[l' r'] |] eqn:E; [| done]. intros [= <- <-].
  destruct (IH l' eq_refl) as [-> Hl]. split; [done |]. by apply not_elem_of_cons.
Qed.

Lemma find_str_shorter p s l r : p ≠ [] → find_str p s = Some (l, r) → (length r < length s)%nat.
Proof.
  intros Hp. revert l. induction s as [| x s IH]; intros l; cbn [find_str].
  - by destruct p.
  - case_match.
    + intros [= <- <-]. unfold dropZ, zlen. rewrite length_drop, Nat2Z.id. destruct p; cbn in *; [done | lia].
    + destruct (find_str p s) as [[l' r'] |]; [| done]. intros [= <- <-]. specialize (IH l' eq_refl). cbn. lia.
Qed.

Lemma has_prefix_drop p s : has_prefix p s = true → s = p ++ dropZ (zlen p) s.
Proof.
  intros (q & ->)%has_prefix_app. unfold dropZ, zlen. by rewrite Nat2Z.id, drop_app_length.
Qed.

Lemma find_str_sound p s l r : find_str p s = Some (l, r) → s = l ++ p ++ r.
Proof.
  revert l. induction s as [|x s IH]; intros l; cbn [find_str].
  - case_match eqn:E; [| done]. intros [= <- <-]. by apply has_prefix_drop.
  - case_match eqn:E; [intros [= <- <-]; by apply has_prefix_drop |].
    destruct (find_str p s) as [[l' r'] |]; [| done]. intros [= <- <-]. cbn. by rewrite (IH l' eq_refl).
Qed.

(** * Text files *)

(** [fgets] into 512 bytes, until the end of the file: the strings it leaves. *)
Fixpoint read_lines (n : nat) (cur content : cstr) : list cstr :=
  match content with
  | [] => match cur with [] => [] | _ => [c_string cur] end
  | c :: r =>
      match n with
      | O => c_string cur :: read_lines 510 [c] r
      | S n =>
          if c =? 10 then c_string (cur ++ [c]) :: read_lines 511 [] r
          else read_lines n (cur ++ [c]) r
      end
  end.

(** Into a buffer of [cap] bytes.
    src/util.c:99-116 (path_join) *)
Definition path_join (dir leaf : cstr) (cap : nat) : cstr :=
  take (cap - 1)
    (match dir, leaf with
     | [], _ => leaf
     | _, [] => dir
     | _, _ => if bool_decide (last dir = Some (ch "/")) then dir ++ leaf else dir ++ ch "/" :: leaf
     end).

(** ** Lines of a file *)

(** What one line of a text file can hold. *)
Definition line_char (c : Z) : Prop := c ≠ 0 ∧ c ≠ 10.
Definition file_line (s : cstr) : Prop := Forall line_char s ∧ (length s <= 510)%nat.

Lemma read_line l : ∀ n cur r,
  Forall line_char (cur ++ l) → (length l < n)%nat →
  read_lines n cur (l ++ 10 :: r) = ((cur ++ l) ++ [10]) :: read_lines 511 [] r.
Proof.
  induction l as [|c l IH]; intros n cur r Hl Hn; (destruct n as [|n]; [cbn in Hn; lia |]).
  - cbn [read_lines app]. rewrite Z.eqb_refl, app_nil_r in *. f_equal. apply c_string_no_nul.
    apply Forall_app. split; [| by repeat constructor].
    by eapply Forall_impl; [exact Hl | intros ? []].
  - cbn [read_lines app]. rewrite (proj2 (Z.eqb_neq c 10)).
    + rewrite IH; [by rewrite <- (app_assoc cur [c] l) | by rewrite <- app_assoc | cbn in Hn; lia].
    + apply Forall_app in Hl as [_ Hl]. by apply Forall_cons in Hl as [[_ ?] _].
Qed.

Definition file_of (ls : list cstr) : cstr := concat (map (λ l, l ++ [10]) ls).

Lemma read_file ls : Forall file_line ls → read_lines 511 [] (file_of ls) = map (λ l, l ++ [10]) ls.
Proof.
  induction 1 as [|l ls [Hl Hn] _ IH]; [done |].
  unfold file_of in *. cbn [map concat]. rewrite <- app_assoc. cbn [app].
  rewrite read_line by (done || lia). by rewrite IH.
Qed.
