(* ===== verification/Float.v ===== *)
(** IEEE binary64 numbers as the code uses C's [double]: the Standard Library's
    executable specification of the format ([SpecFloat]) at precision 53, the
    conversions the code performs, [strtod], [fmod] and the [%g] conversion. *)

From S2P Require Import Prelude CLib.
From Stdlib Require Export SpecFloat.

#[local] Open Scope Z_scope.

Abbreviation f64 := spec_float.

Definition f64_of_Z (z : Z) : f64 := binary_normalize 53 1024 z 0 false.
Definition fadd : f64 → f64 → f64 := SFadd 53 1024.
Definition fsub : f64 → f64 → f64 := SFsub 53 1024.
Definition fmul : f64 → f64 → f64 := SFmul 53 1024.
Definition fdiv : f64 → f64 → f64 := SFdiv 53 1024.
Definition fneg : f64 → f64 := SFopp.
Definition feqb : f64 → f64 → bool := SFeqb.
Definition fltb : f64 → f64 → bool := SFltb.
Definition fleb : f64 → f64 → bool := SFleb.
Definition fzero : f64 := S754_zero false.
Definition fone : f64 := f64_of_Z 1.

(** [m * 2^e], rounded once. *)
Definition f64_scale (s : bool) (m e : Z) : f64 :=
  match m with
  | Zpos _ => binary_normalize 53 1024 (cond_Zopp s m) e s
  | _ => S754_zero s
  end.

(** [n / d] for positive integers, rounded once. *)
Definition f64_ratio (s : bool) (n d : Z) : f64 :=
  let '(q, e, loc) := SFdiv_core_binary 53 1024 n 0 d 0 in
  binary_round_aux 53 1024 s q e loc.

(** [m * 10^e], rounded once. *)
Definition f64_decimal (s : bool) (m e : Z) : f64 :=
  if m <=? 0 then S754_zero s
  else if 0 <=? e then f64_scale s (m * 10 ^ e) 0
  else f64_ratio s m (10 ^ (- e)).

(** The integer part, as the exact value of the conversion to an integer type;
    [None] for an infinity or a NaN. *)
Definition f64_trunc (x : f64) : option Z :=
  match x with
  | S754_zero _ => Some 0
  | S754_finite s m e =>
      let a := if 0 <=? e then Z.shiftl (Zpos m) e else Z.shiftr (Zpos m) (- e) in
      Some (cond_Zopp s a)
  | _ => None
  end.

(** [(int64_t)d]: undefined unless the integer part is representable. *)
Definition f64_to_i64 (x : f64) : option Z :=
  match f64_trunc x with
  | Some z => if (- 2 ^ 63 <=? z) && (z <? 2 ^ 63) then Some z else None
  | None => None
  end.

(** ** [strtod] *)

Definition ci_prefix (p s : cstr) : bool := has_prefix p (map tolower s).

(** The decimal exponent after a mantissa, when a well-formed one is there. *)
Definition read_exponent (mark : Z) (s : cstr) : Z * cstr :=
  match s with
  | c :: r =>
      if tolower c =? mark then
        let '(neg, r') := read_sign r in
        match read_digits 10 0 0 r' with
        | (_, O, _) => (0, s)
        | (v, S _, r'') => ((if neg : bool then - v else v), r'')
        end
      else (0, s)
  | [] => (0, [])
  end.

(** Digits, an optional point and fraction: mantissa, number of digits, number
    of fraction digits, rest. *)
Definition read_mantissa (base : Z) (s : cstr) : Z * nat * nat * cstr :=
  let '(m, n, r) := read_digits base 0 0 s in
  match r with
  | c :: r' =>
      if c =? ch "." then
        let '(m', n', r'') := read_digits base m n r' in
        match n' with
        | O => (m, O, O, s)
        | _ => (m', n', (n' - n)%nat, r'')
        end
      else (m, n, O, r)
  | [] => (m, n, O, r)
  end.

(** [strtod(s, &end)]: value and end, the end being [s] when there is no number. *)
Definition strtod (s : cstr) : f64 * cstr :=
  let '(neg, r) := read_sign (skip_space s) in
  if ci_prefix (lit "infinity") r then (S754_infinity neg, drop 8 r)
  else if ci_prefix (lit "inf") r then (S754_infinity neg, drop 3 r)
  else if ci_prefix (lit "nan") r then (S754_nan, drop 3 r)
  else
    let hex :=
      if ci_prefix (lit "0x") r then
        match read_mantissa 16 (drop 2 r) with
        | (_, O, _, _) => None
        | (m, S _, f, r') =>
            let '(e, r'') := read_exponent (ch "p") r' in
            Some (f64_scale neg m (e - 4 * Z.of_nat f), r'')
        end
      else None in
    match hex with
    | Some x => x
    | None =>
        match read_mantissa 10 r with
        | (_, O, _, _) => (fzero, s)
        | (m, S _, f, r') =>
            let '(e, r'') := read_exponent (ch "e") r' in
            (f64_decimal neg m (e - Z.of_nat f), r'')
        end
    end.

Definition atof (s : cstr) : f64 := fst (strtod s).

(** ** [%g] *)

(** [n / d] rounded to the nearest integer, ties to even. *)
Definition div_even (n d : Z) : Z :=
  let q := n / d in
  let r := n mod d in
  if 2 * r <? d then q
  else if d <? 2 * r then q + 1
  else if Z.even q then q else q + 1.

(** The largest [x] with [10^x <= n / d], found by search from an estimate. *)
Fixpoint dec_exponent (fuel : nat) (n d x : Z) : Z :=
  match fuel with
  | O => x
  | S fuel =>
      let le y := if 0 <=? y then 10 ^ y * d <=? n else d <=? n * 10 ^ (- y) in
      if le (x + 1) then dec_exponent fuel n d (x + 1)
      else if le x then x
      else dec_exponent fuel n d (x - 1)
  end.

Definition strip_zeros (s : cstr) : cstr :=
  let fix go (l : cstr) := match l with
    | c :: l' => if c =? ch "0" then go l' else l
    | [] => [] end in
  reverse (go (reverse s)).

Definition fmt_g (x : f64) : cstr :=
  match x with
  | S754_nan => lit "nan"
  | S754_infinity s => (if s : bool then lit "-" else []) ++ lit "inf"
  | S754_zero s => (if s : bool then lit "-" else []) ++ lit "0"
  | S754_finite s m e =>
      let n := if 0 <=? e then Zpos m * 2 ^ e else Zpos m in
      let d := if 0 <=? e then 1 else 2 ^ (- e) in
      let est := ((Z.log2 (Zpos m) + e) * 30103) / 100000 in
      let x := dec_exponent 8 n d est in
      let scaled := if 0 <=? x - 5 then div_even n (d * 10 ^ (x - 5))
                    else div_even (n * 10 ^ (5 - x)) d in
      let '(digits, x) := if scaled =? 1000000 then (100000, x + 1) else (scaled, x) in
      let ds := dec_of_nonneg digits in
      let body :=
        if (x <? -4) || (6 <=? x) then
          let frac := strip_zeros (drop 1 ds) in
          take 1 ds ++ (match frac with [] => [] | _ => ch "." :: frac end) ++
          lit "e" ++ (if x <? 0 then lit "-" else lit "+") ++ fmt_0d 2 (Z.abs x)
        else if x <? 0 then
          lit "0." ++ replicate (Z.to_nat (- x - 1)) (ch "0") ++ strip_zeros ds
        else
          let i := Z.to_nat (x + 1) in
          let frac := strip_zeros (drop i ds) in
          take i ds ++ (match frac with [] => [] | _ => ch "." :: frac end) in
      (if s : bool then lit "-" else []) ++ body
  end.
