(* ===== verification/Cbor.v ===== *)
(** Canonical CBOR for PLANK: the encoder of src/plank/plank_cbor.c.

    Module [Encoder] holds the output buffer and every [cbor_encode_*] function,
    module [MapBuilder] the canonical map builder.  A write through a null
    buffer, or a read past the end of a source buffer, is undefined behaviour
    and is modelled by [None]. *)

From S2P Require Import Prelude.
From stdpp Require Import sorting.

#[local] Open Scope Z_scope.

(** Major types.  include/plank/plank_cbor.h:24-33 (cbor_type_t) *)
Inductive cbor_type : Type :=
  | CBOR_TYPE_UINT | CBOR_TYPE_NEGINT | CBOR_TYPE_BYTES | CBOR_TYPE_TEXT
  | CBOR_TYPE_ARRAY | CBOR_TYPE_MAP | CBOR_TYPE_TAG | CBOR_TYPE_SIMPLE.

#[export] Instance cbor_type_eq_dec : EqDecision cbor_type.
Proof. solve_decision. Defined.

Definition cbor_type_code (t : cbor_type) : Z :=
  match t with
  | CBOR_TYPE_UINT => 0 | CBOR_TYPE_NEGINT => 1 | CBOR_TYPE_BYTES => 2
  | CBOR_TYPE_TEXT => 3 | CBOR_TYPE_ARRAY => 4 | CBOR_TYPE_MAP => 5
  | CBOR_TYPE_TAG => 6 | CBOR_TYPE_SIMPLE => 7
  end.

Module Encoder.

(** The encoder state: [e_null] is [buf == NULL], [e_data] the [len] bytes
    written so far.  include/plank/plank_cbor.h:45-50 (cbor_encoder_t) *)
Record encoder := MkEnc {
  e_null : bool;
  e_cap : Z;
  e_data : list Z;
  e_error : bool
}.

Definition e_len (e : encoder) : Z := zlen (e_data e).

Definition set_error (e : encoder) : encoder :=
  MkEnc (e_null e) (e_cap e) (e_data e) true.

Section encoder.
(** Whether an allocation of that many bytes succeeds. *)
Context (malloc_ok : Z → bool).

(** src/plank/plank_cbor.c:15-39 (encoder_ensure_space) *)
Definition encoder_ensure_space (e : encoder) (needed : Z) : encoder :=
  if e_error e then e
  else if e_null e then
    if e_cap e <? u64 (e_len e + needed) then
      let new_cap := u64 (e_cap e * 2) in
      let new_cap :=
        if new_cap <? u64 (e_len e + needed)
        then u64 (e_len e + needed + 256) else new_cap in
      if malloc_ok new_cap then MkEnc false new_cap (e_data e) false
      else set_error e
    else e
  else
    if e_cap e <? u64 (e_len e + needed) then set_error e else e.

(** Store at [buf[len]]: undefined when the buffer is null. *)
Definition store (e : encoder) (bs : list Z) : option encoder :=
  if e_null e then None
  else Some (MkEnc false (e_cap e) (e_data e ++ bs) (e_error e)).

(** src/plank/plank_cbor.c:41-46 (encoder_write_byte) *)
Definition encoder_write_byte (e : encoder) (b : Z) : option encoder :=
  let e := encoder_ensure_space e 1 in
  if e_error e then Some e else store e [b].

(** src/plank/plank_cbor.c:48-54 (encoder_write_bytes) *)
Definition encoder_write_bytes (e : encoder) (data : list Z) (len : Z)
  : option encoder :=
  let e := encoder_ensure_space e len in
  if e_error e then Some e
  else if zlen data <? len then None
  else store e (takeZ len data).

Fixpoint write_seq (e : encoder) (bs : list Z) : option encoder :=
  match bs with
  | [] => Some e
  | b :: bs => e ← encoder_write_byte e b; write_seq e bs
  end.

(** src/plank/plank_cbor.c:57-86 (encode_type_arg) *)
Definition encode_type_arg (e : encoder) (major arg : Z) : option encoder :=
  let mt := u8 (Z.shiftl major 5) in
  if arg <? 24 then
    encoder_write_byte e (Z.lor mt (u8 arg))
  else if arg <=? 0xFF then
    write_seq e [Z.lor mt 24; u8 arg]
  else if arg <=? 0xFFFF then
    write_seq e [Z.lor mt 25; u8 (Z.shiftr arg 8); u8 arg]
  else if arg <=? 0xFFFFFFFF then
    write_seq e [Z.lor mt 26; u8 (Z.shiftr arg 24); u8 (Z.shiftr arg 16);
                 u8 (Z.shiftr arg 8); u8 arg]
  else
    write_seq e [Z.lor mt 27; u8 (Z.shiftr arg 56); u8 (Z.shiftr arg 48);
                 u8 (Z.shiftr arg 40); u8 (Z.shiftr arg 32);
                 u8 (Z.shiftr arg 24); u8 (Z.shiftr arg 16);
                 u8 (Z.shiftr arg 8); u8 arg].

(** [buf] is [None] for a null pointer.
    src/plank/plank_cbor.c:92-97 (cbor_encoder_init) *)
Definition cbor_encoder_init (buf_null : bool) (cap : Z) : encoder :=
  MkEnc buf_null cap [] false.

(** src/plank/plank_cbor.c:99-105 (cbor_encoder_init_dynamic) *)
Definition cbor_encoder_init_dynamic (initial_cap : Z) : encoder :=
  let initial_cap := if initial_cap <? 64 then 64 else initial_cap in
  let null := negb (malloc_ok initial_cap) in
  MkEnc null initial_cap [] null.

(** src/plank/plank_cbor.c:107-114 (cbor_encoder_free) *)
Definition cbor_encoder_free (e : encoder) : encoder :=
  MkEnc true 0 [] (e_error e).

(** src/plank/plank_cbor.c:116-118 (cbor_encoder_data) *)
Definition cbor_encoder_data (e : encoder) : option (list Z) :=
  if e_null e then None else Some (e_data e).

(** src/plank/plank_cbor.c:120-122 (cbor_encoder_len) *)
Definition cbor_encoder_len (e : encoder) : Z := e_len e.

(** src/plank/plank_cbor.c:124-126 (cbor_encoder_ok) *)
Definition cbor_encoder_ok (e : encoder) : bool := negb (e_error e).

(** src/plank/plank_cbor.c:128-130 (cbor_encode_uint) *)
Definition cbor_encode_uint (e : encoder) (val : Z) : option encoder :=
  encode_type_arg e (cbor_type_code CBOR_TYPE_UINT) val.

(** src/plank/plank_cbor.c:132-134 (cbor_encode_negint) *)
Definition cbor_encode_negint (e : encoder) (val : Z) : option encoder :=
  encode_type_arg e (cbor_type_code CBOR_TYPE_NEGINT) val.

(** src/plank/plank_cbor.c:136-142 (cbor_encode_int) *)
Definition cbor_encode_int (e : encoder) (val : Z) : option encoder :=
  if 0 <=? val then cbor_encode_uint e (u64 val)
  else cbor_encode_negint e (u64 (- (val + 1))).

(** src/plank/plank_cbor.c:144-149 (cbor_encode_bytes) *)
Definition cbor_encode_bytes (e : encoder) (data : option (list Z)) (len : Z)
  : option encoder :=
  e ← encode_type_arg e (cbor_type_code CBOR_TYPE_BYTES) len;
  match data with
  | Some data => if 0 <? len then encoder_write_bytes e data len else Some e
  | None => Some e
  end.

(** src/plank/plank_cbor.c:156-161 (cbor_encode_text_len) *)
Definition cbor_encode_text_len (e : encoder) (str : option (list Z)) (len : Z)
  : option encoder :=
  e ← encode_type_arg e (cbor_type_code CBOR_TYPE_TEXT) len;
  match str with
  | Some str => if 0 <? len then encoder_write_bytes e str len else Some e
  | None => Some e
  end.

(** A C string is the list of its bytes before the terminating zero, so
    [strlen] is the length of the list.
    src/plank/plank_cbor.c:151-154 (cbor_encode_text) *)
Definition cbor_encode_text (e : encoder) (str : option (list Z)) : option encoder :=
  let len := match str with Some s => zlen s | None => 0 end in
  cbor_encode_text_len e str len.

(** src/plank/plank_cbor.c:163-165 (cbor_encode_array) *)
Definition cbor_encode_array (e : encoder) (count : Z) : option encoder :=
  encode_type_arg e (cbor_type_code CBOR_TYPE_ARRAY) count.

(** src/plank/plank_cbor.c:167-169 (cbor_encode_map) *)
Definition cbor_encode_map (e : encoder) (count : Z) : option encoder :=
  encode_type_arg e (cbor_type_code CBOR_TYPE_MAP) count.

(** src/plank/plank_cbor.c:171-173 (cbor_encode_bool) *)
Definition cbor_encode_bool (e : encoder) (val : bool) : option encoder :=
  encoder_write_byte e (0xF4 + (if val then 1 else 0)).

(** src/plank/plank_cbor.c:175-177 (cbor_encode_null) *)
Definition cbor_encode_null (e : encoder) : option encoder :=
  encoder_write_byte e 0xF6.

(** src/plank/plank_cbor.c:179-181 (cbor_encode_raw) *)
Definition cbor_encode_raw (e : encoder) (data : list Z) (len : Z) : option encoder :=
  encoder_write_bytes e data len.

End encoder.
End Encoder.

Module MapBuilder.
Import Encoder.

(** A key (a C string) with its already encoded value.
    include/plank/plank_cbor.h:115-119 (cbor_map_entry_t) *)
Record map_entry := MkEntry {
  key : list Z;
  encoded_value : list Z
}.

(** include/plank/plank_cbor.h:121-125 (cbor_map_builder_t) *)
Record map_builder := MkBuilder {
  entries : list map_entry;
  mb_cap : Z
}.

(** src/plank/plank_cbor.c:187-191 (cbor_map_builder_init) *)
Definition cbor_map_builder_init : map_builder := MkBuilder [] 0.

(** src/plank/plank_cbor.c:193-203 (cbor_map_builder_free) *)
Definition cbor_map_builder_free (mb : map_builder) : map_builder := MkBuilder [] 0.

(** The size of one [cbor_map_entry_t] on an LP64 target. *)
Definition sizeof_map_entry : Z := 24.

(** The value is copied: [len] bytes of [encoded_value].  The second component
    is the returned success flag.
    src/plank/plank_cbor.c:205-226 (cbor_map_builder_add) *)
Definition cbor_map_builder_add (malloc_ok : Z → bool) (mb : map_builder)
    (k : list Z) (value : list Z) (len : Z) : map_builder * bool :=
  let '(mb, ok) :=
    if mb_cap mb <=? zlen (entries mb) then
      let new_cap := if mb_cap mb =? 0 then 8 else mb_cap mb * 2 in
      if malloc_ok (new_cap * sizeof_map_entry)
      then (MkBuilder (entries mb) new_cap, true) else (mb, false)
    else (mb, true) in
  if ok then
    if malloc_ok len then
      (MkBuilder (entries mb ++ [MkEntry k (takeZ len value)]) (mb_cap mb), true)
    else (mb, false)
  else (mb, false).

(** src/plank/plank_cbor.c:229-243 (compare_map_entries) *)
Definition compare_map_entries (ea eb : map_entry) : Z :=
  let len_a := zlen (key ea) in
  let len_b := zlen (key eb) in
  if negb (len_a =? len_b) then (if len_a <? len_b then -1 else 1)
  else memcmp (key ea) (key eb).

(** The order [qsort] sorts by. *)
Definition entry_le (ea eb : map_entry) : Prop := compare_map_entries ea eb <= 0.

#[export] Instance entry_le_dec ea eb : Decision (entry_le ea eb).
Proof. unfold entry_le. apply _. Defined.

(** The loop that writes the key-value pairs.
    src/plank/plank_cbor.c:255-259 (cbor_map_builder_encode) *)
Fixpoint encode_pairs (malloc_ok : Z → bool) (l : list map_entry) (e : encoder)
  : option encoder :=
  match l with
  | [] => Some e
  | x :: l =>
      e ← cbor_encode_text malloc_ok e (Some (key x));
      e ← cbor_encode_raw malloc_ok e (encoded_value x) (zlen (encoded_value x));
      encode_pairs malloc_ok l e
  end.

(** [qsort] is a sorting function by [compare_map_entries].  Returns the
    builder, whose entries are now sorted, and the encoder.
    src/plank/plank_cbor.c:245-260 (cbor_map_builder_encode) *)
Definition cbor_map_builder_encode (malloc_ok : Z → bool) (mb : map_builder)
    (e : encoder) : option (map_builder * encoder) :=
  let sorted :=
    if 1 <? zlen (entries mb) then merge_sort entry_le (entries mb)
    else entries mb in
  e ← cbor_encode_map malloc_ok e (zlen sorted);
  e ← encode_pairs malloc_ok sorted e;
  Some (MkBuilder sorted (mb_cap mb), e).

End MapBuilder.
