(* ===== verification/CborEncode.v ===== *)
(** What the CBOR encoder emits: every [cbor_encode_*] function appends exactly
    the bytes of the data item it is given when they fit in the buffer, and
    raises the sticky error flag, never writing past the capacity, when they do
    not. And the canonical map builder: its order is a total preorder that only
    identifies equal keys, so the encoding of a map with distinct keys does not
    depend on the order in which the entries were added. *)

From S2P Require Import Prelude Cbor.
From stdpp Require Import sorting.

#[local] Open Scope Z_scope.

Import Encoder.

(** ** The abstract encoder *)

(** The initial byte and argument of a data item in its shortest form. *)
Definition head_bytes (major arg : Z) : list Z :=
  if arg <? 24 then [major * 32 + arg]
  else if arg <=? 0xFF then (major * 32 + 24) :: be_bytes 1 arg
  else if arg <=? 0xFFFF then (major * 32 + 25) :: be_bytes 2 arg
  else if arg <=? 0xFFFFFFFF then (major * 32 + 26) :: be_bytes 4 arg
  else (major * 32 + 27) :: be_bytes 8 arg.

(** A live buffer: allocated, within its capacity, of a realistic size. *)
Definition enc_wf (e : encoder) : Prop :=
  e_null e = false ∧ e_len e <= e_cap e < 2 ^ 62.

(** [Emits e bs e']: from [e] the code appended [bs], or failed for lack of
    room; nothing else of the state changed. *)
Record Emits (e : encoder) (bs : list Z) (e' : encoder) : Prop := {
  emits_wf : enc_wf e';
  emits_cap : e_cap e' = e_cap e;
  emits_sticky : e_error e = true → e' = e;
  emits_fit : e_error e = false → e_len e + zlen bs <= e_cap e →
    e' = MkEnc false (e_cap e) (e_data e ++ bs) false;
  emits_full : e_error e = false → e_cap e < e_len e + zlen bs →
    e_error e' = true ∧ e_data e `prefix_of` e_data e'
}.

Definition Writes (m : encoder → option encoder) (bs : list Z) : Prop :=
  ∀ e, enc_wf e → ∃ e', m e = Some e' ∧ Emits e bs e'.

Lemma emits_nil e : enc_wf e → Emits e [] e.
Proof.
  intros He. split; [done | done | done | | ].
  - intros Hok _. destruct e, He; simpl in *; subst. by rewrite app_nil_r.
  - unfold enc_wf in He. rewrite zlen_nil. lia.
Qed.

Lemma emits_trans e1 bs1 e2 bs2 e3 :
  Emits e1 bs1 e2 → Emits e2 bs2 e3 → Emits e1 (bs1 ++ bs2) e3.
Proof.
  intros [Hw1 Hc1 Hs1 Hf1 Hx1] [Hw2 Hc2 Hs2 Hf2 Hx2].
  pose proof (zlen_nonneg bs1). pose proof (zlen_nonneg bs2).
  split; [done | congruence | | | ].
  - intros H1. specialize (Hs1 H1). subst e2. auto.
  - intros H1. rewrite zlen_app. intros Hroom.
    specialize (Hf1 H1 ltac:(lia)). subst e2. simpl in *.
    rewrite Hf2; [by rewrite <- app_assoc | done |].
    unfold e_len in *. simpl. rewrite zlen_app. lia.
  - intros H1. rewrite zlen_app. intros Hfull.
    destruct (Z.le_gt_cases (e_len e1 + zlen bs1) (e_cap e1)) as [Hfit | Hno].
    + specialize (Hf1 H1 Hfit). subst e2. simpl in *.
      destruct Hx2 as [Herr Hpre]; [done | |].
      { unfold e_len in *. simpl. rewrite zlen_app. lia. }
      split; [done |]. etrans; [| exact Hpre]. by apply prefix_app_r.
    + destruct (Hx1 H1 ltac:(lia)) as [Herr Hpre].
      rewrite (Hs2 Herr). done.
Qed.

Lemma writes_bind m1 m2 bs1 bs2 :
  Writes m1 bs1 → Writes m2 bs2 → Writes (λ e, m1 e ≫= m2) (bs1 ++ bs2).
Proof.
  intros H1 H2 e He. destruct (H1 e He) as (e1 & -> & He1).
  destruct (H2 e1 (emits_wf _ _ _ He1)) as (e2 & Hm & He2).
  exists e2. simpl. split; [done |]. by eapply emits_trans.
Qed.

Lemma writes_ret : Writes Some [].
Proof. intros e He. eexists. split; [done |]. by apply emits_nil. Qed.

Section writes.
Context (malloc_ok : Z → bool).

Lemma ensure_space_live e n :
  enc_wf e → 0 <= n < 2 ^ 62 →
  encoder_ensure_space malloc_ok e n =
    if e_error e then e else if e_cap e <? e_len e + n then set_error e else e.
Proof.
  intros [Hnull Hlen] Hn. unfold encoder_ensure_space. rewrite Hnull.
  assert (0 <= e_len e) by apply zlen_nonneg.
  by rewrite wrap_small by zlia.
Qed.

(** One store of a block, guarded by [encoder_ensure_space]. *)
Lemma store_block e bs :
  enc_wf e → zlen bs < 2 ^ 62 →
  ∃ e', (let e1 := encoder_ensure_space malloc_ok e (zlen bs) in
         if e_error e1 then Some e1 else store e1 bs) = Some e' ∧ Emits e bs e'.
Proof.
  intros He Hbs. pose proof (zlen_nonneg bs).
  rewrite ensure_space_live by (done || lia). pose proof He as [Hnull Hlen].
  destruct e as [nl cap data err]; simpl in *; subst nl.
  destruct err; simpl.
  { eexists. split; [done |]. split; simpl; done. }
  unfold e_len in *; simpl in *.
  destruct (Z.ltb_spec cap (zlen data + zlen bs)); simpl; eexists; (split; [done |]); split;
    simpl; unfold enc_wf, e_len in *; simpl; rewrite ?zlen_app; try done; try lia; auto.
Qed.

Lemma write_byte_writes b : Writes (λ e, encoder_write_byte malloc_ok e b) [b].
Proof. intros e He. by apply (store_block e [b]). Qed.

Lemma write_bytes_writes bs :
  zlen bs < 2 ^ 62 → Writes (λ e, encoder_write_bytes malloc_ok e bs (zlen bs)) bs.
Proof.
  intros Hbs e He. unfold encoder_write_bytes.
  rewrite Z.ltb_irrefl. unfold takeZ, zlen. rewrite Nat2Z.id, firstn_all.
  fold (zlen bs). by apply store_block.
Qed.

Lemma write_seq_writes bs : Writes (λ e, write_seq malloc_ok e bs) bs.
Proof.
  induction bs as [|b bs IH]; [apply writes_ret |].
  apply (writes_bind _ _ [b] bs); [apply write_byte_writes | apply IH].
Qed.

Lemma u8_shiftr_byte arg j k :
  0 <= k → j = 8 * k → u8 (Z.shiftr arg j) = u8 (arg / 256 ^ k).
Proof.
  intros Hk ->. rewrite Z.shiftr_div_pow2 by lia. by rewrite Z.pow_mul_r by lia.
Qed.

Lemma initial_byte major info :
  0 <= major < 8 → 0 <= info < 32 → Z.lor (u8 (Z.shiftl major 5)) info = major * 32 + info.
Proof.
  intros Hm Hi. rewrite wrap_small.
  - by apply lor_shiftl_add.
  - rewrite Z.shiftl_mul_pow2 by lia. zlia.
Qed.

Lemma encode_type_arg_writes major arg :
  0 <= major < 8 → 0 <= arg < 2 ^ 64 →
  Writes (λ e, encode_type_arg malloc_ok e major arg) (head_bytes major arg).
Proof.
  intros Hm Ha. unfold encode_type_arg, head_bytes. destruct (Z.ltb_spec arg 24).
  { rewrite (wrap_small 8 arg), initial_byte by zlia. apply write_byte_writes. }
  rewrite !initial_byte by lia.
  rewrite (u8_shiftr_byte _ 8 1), (u8_shiftr_byte _ 16 2), (u8_shiftr_byte _ 24 3),
    (u8_shiftr_byte _ 32 4), (u8_shiftr_byte _ 40 5), (u8_shiftr_byte _ 48 6),
    (u8_shiftr_byte _ 56 7) by lia.
  assert (H0 : u8 arg = u8 (arg / 256 ^ 0)) by (by rewrite Z.div_1_r).
  rewrite H0. repeat case_match; apply write_seq_writes.
Qed.
End writes.

(** ** The public encoding functions *)

(** A call of the encoding API, and the bytes it stands for. *)
Inductive enc_call : Type :=
  | CallUint (val : Z) | CallNegint (val : Z) | CallInt (val : Z)
  | CallBytes (data : list Z) | CallText (str : list Z)
  | CallArray (count : Z) | CallMap (count : Z)
  | CallBool (val : bool) | CallNull | CallRaw (data : list Z).

Definition run_call (malloc_ok : Z → bool) (c : enc_call) (e : encoder) : option encoder :=
  match c with
  | CallUint v => cbor_encode_uint malloc_ok e v
  | CallNegint v => cbor_encode_negint malloc_ok e v
  | CallInt v => cbor_encode_int malloc_ok e v
  | CallBytes d => cbor_encode_bytes malloc_ok e (Some d) (zlen d)
  | CallText s => cbor_encode_text malloc_ok e (Some s)
  | CallArray n => cbor_encode_array malloc_ok e n
  | CallMap n => cbor_encode_map malloc_ok e n
  | CallBool b => cbor_encode_bool malloc_ok e b
  | CallNull => cbor_encode_null malloc_ok e
  | CallRaw d => cbor_encode_raw malloc_ok e d (zlen d)
  end.

Fixpoint run_calls (malloc_ok : Z → bool) (cs : list enc_call) (e : encoder)
  : option encoder :=
  match cs with
  | [] => Some e
  | c :: cs => e ← run_call malloc_ok c e; run_calls malloc_ok cs e
  end.

Definition call_bytes (c : enc_call) : list Z :=
  match c with
  | CallUint v => head_bytes 0 v
  | CallNegint v => head_bytes 1 v
  | CallInt v => if 0 <=? v then head_bytes 0 v else head_bytes 1 (-1 - v)
  | CallBytes d => head_bytes 2 (zlen d) ++ d
  | CallText s => head_bytes 3 (zlen s) ++ s
  | CallArray n => head_bytes 4 n
  | CallMap n => head_bytes 5 n
  | CallBool b => [if b then 0xF5 else 0xF4]
  | CallNull => [0xF6]
  | CallRaw d => d
  end.

(** The C types of the arguments. *)
Definition call_ok (c : enc_call) : Prop :=
  match c with
  | CallUint v | CallNegint v | CallArray v | CallMap v => in_u 64 v
  | CallInt v => in_s 64 v
  | CallBytes d | CallText d | CallRaw d => zlen d < 2 ^ 62
  | CallBool _ | CallNull => True
  end.

Section calls.
Context (malloc_ok : Z → bool).

Lemma head_then_block major bs :
  0 <= major < 8 → zlen bs < 2 ^ 62 →
  Writes (λ e, e ← encode_type_arg malloc_ok e major (zlen bs);
               if 0 <? zlen bs then encoder_write_bytes malloc_ok e bs (zlen bs)
               else Some e) (head_bytes major (zlen bs) ++ bs).
Proof.
  intros Hm Hbs. pose proof (zlen_nonneg bs).
  apply writes_bind; [apply encode_type_arg_writes; zlia |].
  destruct (Z.ltb_spec 0 (zlen bs)); [by apply write_bytes_writes |].
  replace bs with (@nil Z); [apply writes_ret |].
  destruct bs as [|b bs]; [done |]. rewrite zlen_cons in *.
  pose proof (zlen_nonneg bs). lia.
Qed.

Lemma run_call_writes c : call_ok c → Writes (run_call malloc_ok c) (call_bytes c).
Proof.
  destruct c; simpl; intros Hok;
    unfold run_call, cbor_encode_uint, cbor_encode_negint, cbor_encode_array,
      cbor_encode_map, cbor_encode_null, cbor_encode_raw.
  all: try (apply encode_type_arg_writes; simpl; unfold in_u in *; lia).
  - unfold cbor_encode_int. destruct (Z.leb_spec 0 val).
    + rewrite (wrap_small 64) by zlia. apply encode_type_arg_writes; simpl; zlia.
    + rewrite (wrap_small 64) by zlia.
      replace (-1 - val) with (- (val + 1)) by lia.
      apply encode_type_arg_writes; simpl; zlia.
  - apply head_then_block; [simpl; lia | done].
  - apply head_then_block; [simpl; lia | done].
  - destruct val; apply write_byte_writes.
  - apply write_byte_writes.
  - by apply write_bytes_writes.
Qed.

Lemma run_calls_writes cs :
  Forall call_ok cs → Writes (run_calls malloc_ok cs) (concat (call_bytes <$> cs)).
Proof.
  induction 1 as [|c cs Hc _ IH]; [apply writes_ret |].
  apply (writes_bind (run_call malloc_ok c)); [by apply run_call_writes | done].
Qed.

(** Running any sequence of encoding calls on a live buffer appends exactly the
    bytes of the calls, in order, when they fit; otherwise the error flag is set,
    the bytes already in the buffer are kept, and nothing is written past the
    capacity. *)
Theorem encoder_refines_byte_string cs e :
  Forall call_ok cs → enc_wf e → e_error e = false →
  ∃ e', run_calls malloc_ok cs e = Some e' ∧
    if decide (e_len e + zlen (concat (call_bytes <$> cs)) <= e_cap e) then
      e' = MkEnc false (e_cap e) (e_data e ++ concat (call_bytes <$> cs)) false
    else e_error e' = true ∧ e_len e' <= e_cap e ∧ e_data e `prefix_of` e_data e'.
Proof.
  intros Hcs He Hok. destruct (run_calls_writes cs Hcs e He) as (e' & Hrun & HE).
  exists e'. split; [done |]. case_decide as Hroom.
  - by apply (emits_fit _ _ _ HE).
  - destruct (emits_full _ _ _ HE) as [Herr Hpre]; [done | lia |].
    pose proof (emits_wf _ _ _ HE) as [_ ?]. rewrite (emits_cap _ _ _ HE) in *.
    repeat split; (done || lia).
Qed.

(** An encoder created by [cbor_encoder_init_dynamic] never grows: its capacity
    stays the initial one, and it is in the error state exactly when the calls need
    more bytes than that. *)
Theorem dynamic_encoder_never_grows cs initial_cap :
  malloc_ok (Z.max 64 initial_cap) = true → initial_cap < 2 ^ 62 →
  Forall call_ok cs →
  ∃ e', run_calls malloc_ok cs (cbor_encoder_init_dynamic malloc_ok initial_cap) = Some e' ∧
    e_cap e' = Z.max 64 initial_cap ∧
    cbor_encoder_ok e' =
      bool_decide (zlen (concat (call_bytes <$> cs)) <= Z.max 64 initial_cap).
Proof.
  intros Hm Hcap Hcs.
  set (e := cbor_encoder_init_dynamic malloc_ok initial_cap).
  assert (He : e = MkEnc false (Z.max 64 initial_cap) [] false).
  { unfold e, cbor_encoder_init_dynamic.
    replace (if initial_cap <? 64 then 64 else initial_cap) with (Z.max 64 initial_cap)
      by (destruct (Z.ltb_spec initial_cap 64); lia).
    by rewrite Hm. }
  assert (Hwf : enc_wf e) by (rewrite He; unfold enc_wf, e_len; simpl; rewrite zlen_nil; split; [done | zlia]).
  destruct (run_calls_writes cs Hcs e Hwf) as (e' & Hrun & HE).
  exists e'. split; [done |]. rewrite (emits_cap _ _ _ HE). split; [by rewrite He |].
  unfold cbor_encoder_ok. case_bool_decide as Hroom.
  - rewrite (emits_fit _ _ _ HE); [done | by rewrite He |].
    rewrite He. unfold e_len. simpl. rewrite zlen_nil. lia.
  - destruct (emits_full _ _ _ HE) as [-> _]; [by rewrite He | | done].
    rewrite He. unfold e_len. simpl. rewrite zlen_nil. lia.
Qed.
End calls.

(** ** Witnesses *)

Definition witness_calls : list enc_call :=
  [CallMap 1; CallText [97; 98]; CallArray 3; CallInt (-500); CallBytes [1; 2; 3]; CallBool true].

Lemma encoder_refines_byte_string_witness :
  ∃ e', run_calls (λ _, true) witness_calls (cbor_encoder_init false 64) = Some e' ∧
    if decide (0 + zlen (concat (call_bytes <$> witness_calls)) <= 64) then
      e' = MkEnc false 64 ([] ++ concat (call_bytes <$> witness_calls)) false
    else e_error e' = true ∧ e_len e' <= 64 ∧ [] `prefix_of` e_data e'.
Proof.
  apply (encoder_refines_byte_string (λ _, true) witness_calls (cbor_encoder_init false 64)).
  - repeat constructor; vm_compute; intuition congruence.
  - split; [reflexivity | vm_compute; intuition congruence].
  - reflexivity.
Defined.

Lemma dynamic_encoder_never_grows_witness :
  ∃ e', run_calls (λ _, true) [CallBytes (replicate 80 7)]
          (cbor_encoder_init_dynamic (λ _, true) 16) = Some e' ∧
    e_cap e' = Z.max 64 16 ∧
    cbor_encoder_ok e' =
      bool_decide (zlen (concat (call_bytes <$> [CallBytes (replicate 80 7)])) <= Z.max 64 16).
Proof.
  apply (dynamic_encoder_never_grows (λ _, true)).
  - reflexivity.
  - reflexivity.
  - repeat constructor.
Defined.

(** * The map builder *)

Import Encoder MapBuilder.

(** ** The key order *)

Lemma compare_sym ea eb : compare_map_entries eb ea = - compare_map_entries ea eb.
Proof.
  unfold compare_map_entries.
  destruct (Z.eqb_spec (zlen (key ea)) (zlen (key eb))) as [Heq | Hne].
  - rewrite Heq, Z.eqb_refl. simpl. apply memcmp_sym.
  - destruct (Z.eqb_spec (zlen (key eb)) (zlen (key ea))); [lia |]. simpl.
    destruct (Z.ltb_spec (zlen (key ea)) (zlen (key eb))),
      (Z.ltb_spec (zlen (key eb)) (zlen (key ea))); lia.
Qed.

Lemma entry_le_spec ea eb :
  entry_le ea eb ↔
  zlen (key ea) < zlen (key eb) ∨
  (zlen (key ea) = zlen (key eb) ∧ memcmp (key ea) (key eb) <= 0).
Proof.
  unfold entry_le, compare_map_entries.
  destruct (Z.eqb_spec (zlen (key ea)) (zlen (key eb))); simpl; [lia |].
  destruct (Z.ltb_spec (zlen (key ea)) (zlen (key eb))); lia.
Qed.

#[export] Instance entry_le_total : Total entry_le.
Proof.
  intros ea eb. unfold entry_le. rewrite (compare_sym ea eb). lia.
Qed.

#[export] Instance entry_le_trans : Transitive entry_le.
Proof.
  intros ea eb ec. rewrite !entry_le_spec.
  intros [?|[? ?]] [?|[? ?]]; try (left; lia). right. split; [lia |].
  eapply memcmp_trans; eauto.
Qed.

Lemma entry_le_antisym ea eb : entry_le ea eb → entry_le eb ea → key ea = key eb.
Proof.
  rewrite !entry_le_spec. intros [?|[? ?]] [?|[? Hba]]; try lia.
  rewrite memcmp_sym in Hba. apply memcmp_eq; lia.
Qed.

(** ** The encoded map *)

Definition pair_bytes (x : map_entry) : list Z :=
  head_bytes 3 (zlen (key x)) ++ key x ++ encoded_value x.

Definition map_bytes (l : list map_entry) : list Z :=
  head_bytes 5 (zlen l) ++ concat (pair_bytes <$> l).

Definition entry_ok (x : map_entry) : Prop :=
  zlen (key x) < 2 ^ 62 ∧ zlen (encoded_value x) < 2 ^ 62.

Definition canonical (l : list map_entry) : list map_entry := merge_sort entry_le l.

Lemma canonical_small l : zlen l <= 1 → canonical l = l.
Proof.
  destruct l as [|x [|y l]]; [done | done |].
  rewrite !zlen_cons. pose proof (zlen_nonneg l). lia.
Qed.

(** The order of a canonical map, on keys: the shorter first, and of two keys of
    the same length the one with the smaller byte where they first differ
    (src/include/plank/plank_cbor.h). *)
Definition bytes_before (a b : list Z) : Prop :=
  ∃ p x y s t, a = p ++ x :: s ∧ b = p ++ y :: t ∧ x < y.

Definition canonical_before (a b : list Z) : Prop :=
  zlen a < zlen b ∨ zlen a = zlen b ∧ bytes_before a b.

Lemma memcmp_before a b : zlen a = zlen b → memcmp a b <= 0 → a ≠ b → bytes_before a b.
Proof.
  revert b. induction a as [|x a IH]; intros [|y b] Hlen Hc Hne; try solve [zl | done]. rewrite !zlen_cons in Hlen.
  cbn in Hc. destruct (Z.ltb_spec x y).
  { exists [], x, y, a, b. by split_and!. }
  destruct (Z.ltb_spec y x); [lia |]. assert (y = x) as -> by lia.
  destruct (IH b) as (p & u & v & s & t & -> & -> & Huv); [lia | done | congruence |].
  exists (x :: p), u, v, s, t. by split_and!.
Qed.

Lemma sorted_canonical l :
  StronglySorted entry_le l → NoDup (key <$> l) → StronglySorted canonical_before (key <$> l).
Proof.
  induction 1 as [|x l Hs IH Hx]; cbn; [constructor |]. intros [Hnot Hnd]%NoDup_cons. constructor; [by apply IH |].
  apply Forall_fmap. apply Forall_forall. intros y Hy. pose proof (proj1 (Forall_forall _ _) Hx y Hy) as Hle.
  cbn. apply entry_le_spec in Hle as [Hle | [Hlen Hle]]; [by left |]. right. split; [done |].
  apply memcmp_before; [done | done |]. intros E. apply Hnot. rewrite E. by apply list_elem_of_fmap_2.
Qed.

Section encode.
Context (malloc_ok : Z → bool).

Lemma encode_pairs_writes l :
  Forall entry_ok l → Writes (encode_pairs malloc_ok l) (concat (pair_bytes <$> l)).
Proof.
  induction 1 as [|x l [Hk Hv] _ IH]; [apply writes_ret |].
  simpl. unfold pair_bytes at 1. rewrite <- !app_assoc, app_assoc.
  apply (writes_bind (run_call malloc_ok (CallText (key x)))); [by apply run_call_writes |].
  apply (writes_bind (run_call malloc_ok (CallRaw (encoded_value x)))); [| done].
  by apply run_call_writes.
Qed.

(** The builder writes the entries in canonical order. *)
Lemma map_builder_encode_spec mb e :
  Forall entry_ok (entries mb) → zlen (entries mb) < 2 ^ 62 → enc_wf e →
  ∃ e', cbor_map_builder_encode malloc_ok mb e =
          Some (MkBuilder (canonical (entries mb)) (mb_cap mb), e') ∧
        Emits e (map_bytes (canonical (entries mb))) e'.
Proof.
  intros Hok Hlen He. unfold cbor_map_builder_encode, map_bytes.
  replace (if 1 <? zlen (entries mb) then merge_sort entry_le (entries mb) else entries mb)
    with (canonical (entries mb))
    by (destruct (Z.ltb_spec 1 (zlen (entries mb))); [done | by apply canonical_small]).
  set (l := canonical (entries mb)).
  assert (Hperm : l ≡ₚ entries mb) by apply merge_sort_Permutation.
  assert (Hl : zlen l = zlen (entries mb)) by (unfold zlen; by rewrite Hperm).
  pose proof (zlen_nonneg (entries mb)).
  destruct (run_call_writes malloc_ok (CallMap (zlen l)) ltac:(simpl; rewrite Hl; zlia) e He)
    as (e1 & Hrun & HE1).
  destruct (encode_pairs_writes l ltac:(by rewrite Hperm) e1 (emits_wf _ _ _ HE1))
    as (e2 & Hp & HE2).
  exists e2. simpl in Hrun. rewrite Hrun. simpl. rewrite Hp. simpl. split; [done |].
  by eapply emits_trans.
Qed.

Lemma canonical_sorted l : StronglySorted entry_le (canonical l).
Proof. apply StronglySorted_merge_sort; apply _. Qed.

Lemma NoDup_key_inj (l : list map_entry) x y :
  NoDup (key <$> l) → x ∈ l → y ∈ l → key x = key y → x = y.
Proof.
  induction l as [|z l IH]; [by rewrite elem_of_nil |].
  rewrite fmap_cons, NoDup_cons, !elem_of_cons. intros [Hz Hnd] [->|Hx] [->|Hy] Heq; auto.
  - destruct Hz. rewrite Heq. by apply list_elem_of_fmap_2.
  - destruct Hz. rewrite <- Heq. by apply list_elem_of_fmap_2.
Qed.

Lemma canonical_perm l1 l2 :
  l1 ≡ₚ l2 → NoDup (key <$> l1) → canonical l1 = canonical l2.
Proof.
  intros Hp Hnd. unfold canonical.
  apply (Sorted_unique_strong entry_le).
  - intros x1 x2 Hx1 Hx2 H12 H21.
    rewrite merge_sort_Permutation in Hx1, Hx2. rewrite <- Hp in Hx2.
    eapply NoDup_key_inj; eauto using entry_le_antisym.
  - apply Sorted_merge_sort, _.
  - apply Sorted_merge_sort, _.
  - by rewrite !merge_sort_Permutation.
Qed.

(** C40. The canonical map encoding does not depend on the order in which the entries
    were added: two builders with the same entries, under distinct keys (with fewer
    than 2^62 entries and bytes in each), produce the same encoder state. The keys
    are in the order that the header file prescribes: shorter keys before longer
    ones, and of two keys of the same length the one with the smaller byte where
    they first differ; and when the buffer has room, what is written is the head of
    the map and each key, as a text, with its encoded value behind it. *)
Theorem map_builder_encode_order_independent mb1 mb2 e :
  entries mb1 ≡ₚ entries mb2 → NoDup (key <$> entries mb1) →
  Forall entry_ok (entries mb1) → zlen (entries mb1) < 2 ^ 62 → enc_wf e →
  ∃ mb' mb'' e',
    cbor_map_builder_encode malloc_ok mb1 e = Some (mb', e') ∧
    cbor_map_builder_encode malloc_ok mb2 e = Some (mb'', e') ∧
    StronglySorted canonical_before (key <$> entries mb') ∧ entries mb' ≡ₚ entries mb1 ∧
    (e_error e = false → e_len e + zlen (map_bytes (entries mb')) <= e_cap e →
     e_data e' = e_data e ++ map_bytes (entries mb')).
Proof.
  intros Hp Hnd Hok Hlen He.
  destruct (map_builder_encode_spec mb1 e Hok Hlen He) as (e1 & H1 & HE1).
  assert (Hl : zlen (entries mb2) = zlen (entries mb1)) by (unfold zlen; by rewrite Hp).
  destruct (map_builder_encode_spec mb2 e) as (e2 & H2 & HE2);
    [by rewrite <- Hp | lia | done |].
  assert (e2 = e1) as ->.
  { pose proof H1 as H1'. pose proof H2 as H2'. revert H1' H2'.
    unfold cbor_map_builder_encode.
    assert (Hc : ∀ mb, (if 1 <? zlen (entries mb) then merge_sort entry_le (entries mb)
                        else entries mb) = canonical (entries mb)).
    { intros mb. destruct (Z.ltb_spec 1 (zlen (entries mb))); [done |].
      symmetry. by apply canonical_small. }
    rewrite !Hc, (canonical_perm _ _ Hp Hnd).
    destruct (cbor_encode_map _ _ _) as [e3|]; simpl; [| done].
    destruct (encode_pairs _ _ _); simpl; congruence. }
  do 3 eexists. repeat split; [exact H1 | exact H2 | | |].
  - apply sorted_canonical; [apply canonical_sorted |]. cbn.
    unfold canonical. by rewrite merge_sort_Permutation.
  - apply merge_sort_Permutation.
  - intros Herr Hroom. by rewrite (emits_fit _ _ _ HE1 Herr Hroom).
Qed.
End encode.

(** ** Witness *)

Definition witness_entries : list map_entry :=
  [MkEntry [98] [1]; MkEntry [97; 97] [2]; MkEntry [97] [3]].

Lemma map_builder_encode_order_independent_witness :
  ∃ mb' mb'' e',
    cbor_map_builder_encode (λ _, true) (MkBuilder witness_entries 8)
      (cbor_encoder_init false 64) = Some (mb', e') ∧
    cbor_map_builder_encode (λ _, true) (MkBuilder (reverse witness_entries) 8)
      (cbor_encoder_init false 64) = Some (mb'', e') ∧
    StronglySorted canonical_before (key <$> entries mb') ∧ entries mb' ≡ₚ witness_entries ∧
    (false = false → 0 + zlen (map_bytes (entries mb')) <= 64 →
     e_data e' = [] ++ map_bytes (entries mb')).
Proof.
  apply (map_builder_encode_order_independent (λ _, true)
    (MkBuilder witness_entries 8) (MkBuilder (reverse witness_entries) 8)
    (cbor_encoder_init false 64)).
  - simpl. symmetry. apply reverse_Permutation.
  - apply (bool_decide_unpack _). vm_compute. exact I.
  - repeat constructor; vm_compute; reflexivity.
  - reflexivity.
  - split; [reflexivity | vm_compute; intuition congruence].
Defined.
