(* ===== verification/CborDecode.v ===== *)
(** The CBOR decoder of src/plank/plank_cbor.c: a cursor over an immutable
    buffer with a sticky error flag.  Pointers into the buffer are modelled by
    their offset.  [cbor_skip] recurses as deeply as the input nests, so it
    carries a fuel argument and [None] means that the recursion did not end
    within that depth. *)

From S2P Require Import Prelude Cbor.
#[local] Open Scope Z_scope.

(** include/plank/plank_cbor.h:144-149 (cbor_decoder_t) *)
Record decoder := MkDec {
  d_buf : list Z;
  d_pos : Z;
  d_error : bool
}.

Definition d_len (d : decoder) : Z := zlen (d_buf d).
Definition fail (d : decoder) : decoder := MkDec (d_buf d) (d_pos d) true.
Definition seek (d : decoder) (pos : Z) : decoder := MkDec (d_buf d) pos (d_error d).

(** src/plank/plank_cbor.c:266-271 (cbor_decoder_init) *)
Definition cbor_decoder_init (buf : list Z) : decoder := MkDec buf 0 false.

(** src/plank/plank_cbor.c:273-275 (cbor_decoder_ok) *)
Definition cbor_decoder_ok (d : decoder) : bool := negb (d_error d).

(** src/plank/plank_cbor.c:277-279 (cbor_decoder_eof) *)
Definition cbor_decoder_eof (d : decoder) : bool := d_len d <=? d_pos d.

(** src/plank/plank_cbor.c:281-283 (cbor_decoder_pos) *)
Definition cbor_decoder_pos (d : decoder) : Z := d_pos d.

(** src/plank/plank_cbor.c:285-291 (decoder_read_byte) *)
Definition decoder_read_byte (d : decoder) : Z * decoder :=
  if d_error d || (d_len d <=? d_pos d) then (0, fail d)
  else (default 0 (nthZ (d_buf d) (d_pos d)), seek d (d_pos d + 1)).

(** [val = (val << 8) | decoder_read_byte(dec)], [n] times. *)
Fixpoint read_more (n : nat) (val : Z) (d : decoder) : Z * decoder :=
  match n with
  | O => (val, d)
  | S n =>
      let '(b, d) := decoder_read_byte d in
      read_more n (u64 (Z.lor (u64 (Z.shiftl val 8)) b)) d
  end.

(** src/plank/plank_cbor.c:293-322 (decode_arg) *)
Definition decode_arg (d : decoder) (info : Z) : Z * decoder :=
  if info <? 24 then (info, d)
  else if info =? 24 then decoder_read_byte d
  else if info =? 25 then let '(b, d) := decoder_read_byte d in read_more 1 b d
  else if info =? 26 then let '(b, d) := decoder_read_byte d in read_more 3 b d
  else if info =? 27 then let '(b, d) := decoder_read_byte d in read_more 7 b d
  else (0, fail d).

(** The numeric code stands for the [cbor_type_t] it is cast to.
    src/plank/plank_cbor.c:324-330 (cbor_peek_type) *)
Definition cbor_peek_type (d : decoder) : Z * decoder :=
  if d_error d || (d_len d <=? d_pos d) then (cbor_type_code CBOR_TYPE_UINT, fail d)
  else (Z.shiftr (default 0 (nthZ (d_buf d) (d_pos d))) 5, d).

(** Read the initial byte: major type and additional information. *)
Definition read_initial (d : decoder) : Z * Z * decoder :=
  let '(b, d) := decoder_read_byte d in
  (Z.shiftr b 5, Z.land b 0x1F, d).

(** src/plank/plank_cbor.c:332-345 (cbor_decode_uint) *)
Definition cbor_decode_uint (d : decoder) : Z * decoder :=
  let '(mt, info, d) := read_initial d in
  if d_error d then (0, d)
  else if negb (mt =? cbor_type_code CBOR_TYPE_UINT) then (0, fail d)
  else decode_arg d info.

(** src/plank/plank_cbor.c:347-363 (cbor_decode_int) *)
Definition cbor_decode_int (d : decoder) : Z * decoder :=
  let '(mt, info, d) := read_initial d in
  if d_error d then (0, d)
  else if mt =? cbor_type_code CBOR_TYPE_UINT then
    let '(val, d) := decode_arg d info in (s64 val, d)
  else if mt =? cbor_type_code CBOR_TYPE_NEGINT then
    let '(val, d) := decode_arg d info in (-1 - s64 val, d)
  else (0, fail d).

(** The common body of [cbor_decode_bytes] and [cbor_decode_text]: offset and
    length of the payload, [None] for a null result. *)
Definition decode_block (ty : cbor_type) (d : decoder) : option (Z * Z) * decoder :=
  let '(mt, info, d) := read_initial d in
  if d_error d then (None, d)
  else if negb (mt =? cbor_type_code ty) then (None, fail d)
  else
    let '(len, d) := decode_arg d info in
    if d_error d then (None, d)
    else if d_len d <? u64 (d_pos d + len) then (None, fail d)
    else (Some (d_pos d, len), seek d (u64 (d_pos d + len))).

(** src/plank/plank_cbor.c:365-389 (cbor_decode_bytes) *)
Definition cbor_decode_bytes (d : decoder) : option (Z * Z) * decoder :=
  decode_block CBOR_TYPE_BYTES d.

(** src/plank/plank_cbor.c:407-431 (cbor_decode_text) *)
Definition cbor_decode_text (d : decoder) : option (Z * Z) * decoder :=
  decode_block CBOR_TYPE_TEXT d.

(** The copied bytes, or [None] when the function returns [false].
    src/plank/plank_cbor.c:391-405 (cbor_decode_bytes_copy) *)
Definition cbor_decode_bytes_copy (d : decoder) (buf_cap : Z)
  : option (list Z) * decoder :=
  match cbor_decode_bytes d with
  | (None, d) => (None, d)
  | (Some (off, len), d) =>
      if buf_cap <? len then (None, fail d) else (Some (slice off len (d_buf d)), d)
  end.

(** The copied bytes before the terminating zero the code appends.
    src/plank/plank_cbor.c:433-446 (cbor_decode_text_copy) *)
Definition cbor_decode_text_copy (d : decoder) (buf_cap : Z)
  : option (list Z) * decoder :=
  match cbor_decode_text d with
  | (None, d) => (None, d)
  | (Some (off, len), d) =>
      if buf_cap <=? len then (None, fail d) else (Some (slice off len (d_buf d)), d)
  end.

(** The common body of [cbor_decode_array] and [cbor_decode_map]. *)
Definition decode_count (ty : cbor_type) (d : decoder) : Z * decoder :=
  let '(mt, info, d) := read_initial d in
  if d_error d then (0, d)
  else if negb (mt =? cbor_type_code ty) then (0, fail d)
  else decode_arg d info.

(** src/plank/plank_cbor.c:448-461 (cbor_decode_array) *)
Definition cbor_decode_array (d : decoder) : Z * decoder := decode_count CBOR_TYPE_ARRAY d.

(** src/plank/plank_cbor.c:463-476 (cbor_decode_map) *)
Definition cbor_decode_map (d : decoder) : Z * decoder := decode_count CBOR_TYPE_MAP d.

(** src/plank/plank_cbor.c:478-487 (cbor_decode_bool) *)
Definition cbor_decode_bool (d : decoder) : bool * decoder :=
  let '(b, d) := decoder_read_byte d in
  if d_error d then (false, d)
  else if b =? 0xF4 then (false, d)
  else if b =? 0xF5 then (true, d)
  else (false, fail d).

Section skip.
(** The recursive call, and the loops over the items of an array and the pairs
    of a map. *)
Context (skip : decoder → option decoder) (items pairs : Z → decoder → option decoder).

(** src/plank/plank_cbor.c:489-546 (cbor_skip) *)
Definition skip_body (d : decoder) : option decoder :=
  if d_error d || (d_len d <=? d_pos d) then Some (fail d)
  else
    let '(mt, info, d) := read_initial d in
    if (mt =? cbor_type_code CBOR_TYPE_UINT) || (mt =? cbor_type_code CBOR_TYPE_NEGINT)
    then Some (decode_arg d info).2
    else if (mt =? cbor_type_code CBOR_TYPE_BYTES) || (mt =? cbor_type_code CBOR_TYPE_TEXT)
    then
      let '(len, d) := decode_arg d info in
      if d_error d then Some d
      else if d_len d <? u64 (d_pos d + len) then Some (fail d)
      else Some (seek d (u64 (d_pos d + len)))
    else if mt =? cbor_type_code CBOR_TYPE_ARRAY then
      let '(count, d) := decode_arg d info in items count d
    else if mt =? cbor_type_code CBOR_TYPE_MAP then
      let '(count, d) := decode_arg d info in pairs count d
    else if mt =? cbor_type_code CBOR_TYPE_TAG then skip (decode_arg d info).2
    else if mt =? cbor_type_code CBOR_TYPE_SIMPLE then
      if (24 <=? info) && (info <=? 27) then Some (decode_arg d info).2 else Some d
    else Some d.
End skip.

(** src/plank/plank_cbor.c:489-546 (cbor_skip) *)
Fixpoint cbor_skip (fuel : nat) (d : decoder) {struct fuel} : option decoder :=
  match fuel with
  | O => None
  | S fuel => skip_body (cbor_skip fuel) (skip_items fuel) (skip_pairs fuel) d
  end
with skip_items (fuel : nat) (count : Z) (d : decoder) {struct fuel} : option decoder :=
  match fuel with
  | O => None
  | S fuel =>
      if (0 <? count) && negb (d_error d) then
        d ← cbor_skip fuel d; skip_items fuel (count - 1) d
      else Some d
  end
with skip_pairs (fuel : nat) (count : Z) (d : decoder) {struct fuel} : option decoder :=
  match fuel with
  | O => None
  | S fuel =>
      if (0 <? count) && negb (d_error d) then
        d ← cbor_skip fuel d;
        d ← cbor_skip fuel d;
        skip_pairs fuel (count - 1) d
      else Some d
  end.

(** [true] with the cursor on the value, or [false] with the start position
    restored.  src/plank/plank_cbor.c:548-567 (cbor_map_find_key) *)
Fixpoint find_key_loop (fuel : nat) (key : list Z) (start : Z) (pairs : Z) (d : decoder)
  : option (bool * decoder) :=
  match fuel with
  | O => None
  | S fuel =>
      if (0 <? pairs) && negb (d_error d) then
        match cbor_decode_text d with
        | (None, d) => Some (false, seek d start)
        | (Some (off, len), d) =>
            if (len =? zlen key) && bool_decide (slice off (zlen key) (d_buf d) = key)
            then Some (true, d)
            else d ← cbor_skip fuel d; find_key_loop fuel key start (pairs - 1) d
        end
      else Some (false, seek d start)
  end.

(** src/plank/plank_cbor.c:548-567 (cbor_map_find_key) *)
Definition cbor_map_find_key (fuel : nat) (d : decoder) (key : list Z) (pair_count : Z)
  : option (bool * decoder) :=
  find_key_loop fuel key (d_pos d) pair_count d.

Section foreach.
(** The handler callback and its context: it sees the key, and a decoder of its
    own over the bytes of the value. *)
Context {Ctx : Type} (handler : list Z → decoder → Ctx → bool * Ctx).

(** src/plank/plank_cbor.c:573-590 (cbor_decode_map_foreach) *)
Fixpoint foreach_loop (fuel : nat) (count : Z) (d : decoder) (ctx : Ctx)
  : option (bool * Ctx * decoder) :=
  match fuel with
  | O => None
  | S fuel =>
      if (0 <? count) && negb (d_error d) then
        match cbor_decode_text d with
        | (None, d) => Some (false, ctx, d)
        | (Some (off, len), d) =>
            let value_start := d_pos d in
            d ← cbor_skip fuel d;
            if d_error d then Some (false, ctx, d)
            else
              (* [value_end - value_start] is a [size_t] subtraction; the slice
                 stops at the end of the buffer *)
              let value := slice value_start (u64 (d_pos d - value_start)) (d_buf d) in
              let '(go_on, ctx) :=
                handler (slice off len (d_buf d)) (cbor_decoder_init value) ctx in
              if go_on then foreach_loop fuel (count - 1) d ctx
              else Some (false, ctx, d)
        end
      else Some (negb (d_error d), ctx, d)
  end.

(** src/plank/plank_cbor.c:569-593 (cbor_decode_map_foreach) *)
Definition cbor_decode_map_foreach (fuel : nat) (d : decoder) (ctx : Ctx)
  : option (bool * Ctx * decoder) :=
  let '(count, d) := cbor_decode_map d in
  if d_error d then Some (false, ctx, d) else foreach_loop fuel count d ctx.
End foreach.

(** src/plank/plank_cbor.c:599-604 (cbor_validate) *)
Definition cbor_validate (fuel : nat) (buf : list Z) : option bool :=
  d ← cbor_skip fuel (cbor_decoder_init buf);
  Some (cbor_decoder_ok d && cbor_decoder_eof d).

(** src/plank/plank_cbor.c:606-614 (cbor_is_canonical) *)
Definition cbor_is_canonical (fuel : nat) (buf : list Z) : option bool :=
  cbor_validate fuel buf.
