(* ===== verification/CborSpec.v ===== *)
(** What the CBOR decoder computes: round trips with the encoder, exact skipping
    of well-formed items, bounds of the cursor, termination of [cbor_skip], and
    the length arithmetic that can wrap. *)

From S2P Require Import Prelude Cbor CborEncode CborDecode.
#[local] Open Scope Z_scope.

Import Encoder.

(** ** Data items *)

(** Abstract CBOR data items.  [ISimple n] is the item with major type 7 and
    argument [n]: simple values, and floats by their bits. *)
Inductive item : Type :=
  | IUint (n : Z) | INegint (n : Z)
  | IBytes (bs : list Z) | IText (bs : list Z)
  | IArray (l : list item) | IMap (l : list (item * item))
  | ITag (n : Z) (it : item) | ISimple (n : Z).

Fixpoint enc_item (it : item) : list Z :=
  match it with
  | IUint n => head_bytes 0 n
  | INegint n => head_bytes 1 n
  | IBytes bs => head_bytes 2 (zlen bs) ++ bs
  | IText bs => head_bytes 3 (zlen bs) ++ bs
  | IArray l => head_bytes 4 (zlen l) ++ concat (enc_item <$> l)
  | IMap l =>
      head_bytes 5 (zlen l) ++ concat ((λ p, enc_item p.1 ++ enc_item p.2) <$> l)
  | ITag n it => head_bytes 6 n ++ enc_item it
  | ISimple n => head_bytes 7 n
  end.

Inductive item_ok : item → Prop :=
  | ok_uint n : in_u 64 n → item_ok (IUint n)
  | ok_negint n : in_u 64 n → item_ok (INegint n)
  | ok_bytes bs : zlen bs < 2 ^ 62 → bytes_ok bs → item_ok (IBytes bs)
  | ok_text bs : zlen bs < 2 ^ 62 → bytes_ok bs → item_ok (IText bs)
  | ok_array l : zlen l < 2 ^ 62 → Forall item_ok l → item_ok (IArray l)
  | ok_map l : zlen l < 2 ^ 62 → Forall (λ p, item_ok p.1 ∧ item_ok p.2) l → item_ok (IMap l)
  | ok_tag n it : in_u 64 n → item_ok it → item_ok (ITag n it)
  | ok_simple n : in_u 64 n → item_ok (ISimple n).

Section item_ind.
Context (P : item → Prop)
  (Huint : ∀ n, in_u 64 n → P (IUint n))
  (Hneg : ∀ n, in_u 64 n → P (INegint n))
  (Hbytes : ∀ bs, zlen bs < 2 ^ 62 → bytes_ok bs → P (IBytes bs))
  (Htext : ∀ bs, zlen bs < 2 ^ 62 → bytes_ok bs → P (IText bs))
  (Harr : ∀ l, zlen l < 2 ^ 62 → Forall P l → P (IArray l))
  (Hmap : ∀ l, zlen l < 2 ^ 62 → Forall (λ p, P p.1 ∧ P p.2) l → P (IMap l))
  (Htag : ∀ n it, in_u 64 n → P it → P (ITag n it))
  (Hsimple : ∀ n, in_u 64 n → P (ISimple n)).

(** Induction on well-formed items, with the hypothesis on every component. *)
Fixpoint item_ok_ind' it (H : item_ok it) {struct H} : P it.
Proof.
  destruct H as [| | | |l Hl Hf|l Hl Hf|n it Hn H|]; auto.
  - apply Harr; [done |]. clear Hl.
    induction Hf as [|x l Hx Hf IH]; constructor; [exact (item_ok_ind' x Hx) | exact IH].
  - apply Hmap; [done |]. clear Hl.
    induction Hf as [|x l [H1 H2] Hf IH]; constructor; [| exact IH].
    exact (conj (item_ok_ind' x.1 H1) (item_ok_ind' x.2 H2)).
Defined.
End item_ind.

(** ** The cursor *)

(** The decoder that has consumed [pre] and has [rest] before it. *)
Definition cur (pre rest : list Z) : decoder := MkDec (pre ++ rest) (zlen pre) false.

Lemma cur_init buf : cbor_decoder_init buf = cur [] buf.
Proof. done. Qed.

Lemma cur_len pre rest : d_len (cur pre rest) = zlen pre + zlen rest.
Proof. unfold d_len, cur. simpl. by rewrite zlen_app. Qed.

Lemma cur_at_end pre rest :
  rest ≠ [] → (d_len (cur pre rest) <=? d_pos (cur pre rest)) = false.
Proof.
  intros Hr. rewrite cur_len. apply Z.leb_gt. simpl.
  destruct rest; [done |]. zl.
Qed.

Lemma read_byte_cur pre b rest :
  decoder_read_byte (cur pre (b :: rest)) = (b, cur (pre ++ [b]) rest).
Proof.
  unfold decoder_read_byte. rewrite cur_at_end by done. simpl.
  rewrite nthZ_mid. unfold seek, cur. simpl. by rewrite <- app_assoc, zlen_app.
Qed.

Lemma read_more_cur bs rest val pre :
  bytes_ok bs → 0 <= val → (val + 1) * 256 ^ zlen bs <= 2 ^ 64 →
  read_more (length bs) val (cur pre (bs ++ rest)) =
    (val * 256 ^ zlen bs + be_value bs, cur (pre ++ bs) rest).
Proof.
  intros Hbs. revert val pre. induction Hbs as [|b bs Hb Hbs IH]; intros val pre Hv Hfit.
  - simpl. rewrite zlen_nil, app_nil_r. f_equal. unfold be_value. simpl. lia.
  - simpl length. simpl read_more. simpl app. rewrite read_byte_cur.
    rewrite zlen_cons, Z.pow_add_r in * by zl. change (256 ^ 1) with 256 in *.
    assert (0 < 256 ^ zlen bs) by (apply Z.pow_pos_nonneg; zl).
    rewrite (wrap_small 64 (Z.shiftl val 8)) by (rewrite Z.shiftl_mul_pow2 by lia; zred; nia).
    rewrite lor_shiftl_add by zlia. rewrite wrap_small by (zred; nia).
    rewrite IH; [| zlia | zred; nia].
    rewrite <- app_assoc, be_value_cons. simpl. f_equal. zred. lia.
Qed.

(** Bytes [b :: bs] read as one big-endian number. *)
Lemma read_be_cur n arg rest pre :
  0 <= arg < 256 ^ Z.of_nat (S n) → (S n <= 8)%nat →
  (let '(b, d) := decoder_read_byte (cur pre (be_bytes (S n) arg ++ rest)) in
   read_more n b d) = (arg, cur (pre ++ be_bytes (S n) arg) rest).
Proof.
  intros Ha Hn. simpl be_bytes. simpl app. rewrite read_byte_cur.
  set (b := u8 (arg / 256 ^ Z.of_nat n)).
  assert (Hb : in_u 8 b) by (by apply wrap_range).
  pose proof (be_bytes_length n arg) as Hlen.
  assert (Hz : zlen (be_bytes n arg) = Z.of_nat n) by (unfold zlen; lia).
  assert (256 ^ Z.of_nat n <= 256 ^ 7) by (apply Z.pow_le_mono_r; lia).
  rewrite <- Hlen at 1. rewrite read_more_cur.
  - rewrite <- app_assoc. f_equal. rewrite <- be_value_cons.
    change (b :: be_bytes n arg) with (be_bytes (S n) arg).
    by rewrite be_value_bytes, Z.mod_small.
  - apply be_bytes_ok.
  - zlia.
  - rewrite Hz. change (256 ^ 7) with (2 ^ 56) in *.
    assert (0 < 256 ^ Z.of_nat n) by (apply Z.pow_pos_nonneg; lia). zred. nia.
Qed.

Lemma initial_fields m i :
  0 <= m < 8 → 0 <= i < 32 →
  Z.shiftr (m * 32 + i) 5 = m ∧ Z.land (m * 32 + i) 31 = i.
Proof.
  intros Hm Hi. rewrite Z.shiftr_div_pow2 by lia.
  change 31 with (Z.ones 5). rewrite Z.land_ones by lia. zred. split.
  - rewrite Z.div_add_l, Z.div_small by lia. lia.
  - rewrite Z.add_comm, Z.mod_add, Z.mod_small by lia. lia.
Qed.

Lemma read_initial_cur pre m i rest :
  0 <= m < 8 → 0 <= i < 32 →
  read_initial (cur pre ((m * 32 + i) :: rest)) = (m, i, cur (pre ++ [m * 32 + i]) rest).
Proof.
  intros Hm Hi. unfold read_initial. rewrite read_byte_cur.
  by destruct (initial_fields m i) as [-> ->].
Qed.

(** The head of an item is read back: major type, additional information, and
    the argument. *)
Lemma read_head m arg pre rest :
  0 <= m < 8 → in_u 64 arg →
  ∃ i d, read_initial (cur pre (head_bytes m arg ++ rest)) = (m, i, d) ∧
    d_error d = false ∧ 0 <= i <= 27 ∧ (i < 24 → i = arg ∧ d = cur (pre ++ head_bytes m arg) rest) ∧
    decode_arg d i = (arg, cur (pre ++ head_bytes m arg) rest).
Proof.
  intros Hm Ha. unfold head_bytes.
  assert (Hstep : ∀ i n, 24 <= i <= 27 → 0 <= arg < 256 ^ Z.of_nat (S n) → (S n <= 8)%nat →
    (∀ d, decode_arg d i = let '(b, d) := decoder_read_byte d in read_more n b d) →
    ∃ i' d, read_initial (cur pre (((m * 32 + i) :: be_bytes (S n) arg) ++ rest)) = (m, i', d) ∧
    d_error d = false ∧ 0 <= i' <= 27 ∧
    (i' < 24 → i' = arg ∧ d = cur (pre ++ (m * 32 + i) :: be_bytes (S n) arg) rest) ∧
    decode_arg d i' = (arg, cur (pre ++ (m * 32 + i) :: be_bytes (S n) arg) rest)).
  { intros i n Hi Hn H8 Hd. rewrite <- app_comm_cons, read_initial_cur by lia.
    do 2 eexists. split; [done |]. split; [done |]. split; [lia |]. split; [lia |].
    rewrite Hd, read_be_cur by done. by rewrite <- app_assoc. }
  destruct (Z.ltb_spec arg 24).
  { simpl app. rewrite read_initial_cur by zlia. do 2 eexists. split; [done |].
    split; [done |]. split; [zlia |]. split; [done |]. unfold decode_arg.
    destruct (Z.ltb_spec arg 24); [done | lia]. }
  assert (Hpow : 256 ^ Z.of_nat 1 = 256 ∧ 256 ^ Z.of_nat 2 = 65536 ∧
    256 ^ Z.of_nat 4 = 4294967296 ∧ 256 ^ Z.of_nat 8 = 2 ^ 64) by done.
  destruct Hpow as (P1 & P2 & P4 & P8).
  repeat (case_match; [apply Hstep; [lia | rewrite ?P1, ?P2, ?P4; lia | lia | ] |]).
  4: apply Hstep; [lia | rewrite P8; zlia | lia |].
  all: intros d; unfold decode_arg; simpl; by destruct (decoder_read_byte d).
Qed.

Lemma head_nonempty m arg : ∃ b bs, head_bytes m arg = b :: bs.
Proof. unfold head_bytes. repeat case_match; eauto. Qed.

Lemma head_len m arg : 1 <= zlen (head_bytes m arg) <= 9.
Proof.
  unfold head_bytes. repeat case_match;
    rewrite ?zlen_cons; unfold zlen; rewrite ?be_bytes_length; simpl; lia.
Qed.

Lemma head_length m arg : (1 <= length (head_bytes m arg) <= 9)%nat.
Proof. pose proof (head_len m arg) as Hh. unfold zlen in Hh. lia. Qed.

Lemma cur_read_ok pre rest bs :
  bs ≠ [] → d_error (cur pre (bs ++ rest)) ||
    (d_len (cur pre (bs ++ rest)) <=? d_pos (cur pre (bs ++ rest))) = false.
Proof.
  intros Hbs. rewrite cur_at_end; [done |]. destruct bs; done.
Qed.

(** Moving over a payload that is present in the buffer. *)
Lemma seek_payload pre bs rest :
  zlen (pre ++ bs ++ rest) < 2 ^ 63 →
  let d := cur pre (bs ++ rest) in
  (d_len d <? u64 (d_pos d + zlen bs)) = false ∧
  seek d (u64 (d_pos d + zlen bs)) = cur (pre ++ bs) rest.
Proof.
  intros Hsize. simpl. rewrite cur_len. zlen_facts.
  rewrite wrap_small by zlia. split; [zl |].
  unfold seek, cur. simpl. by rewrite zlen_app, <- app_assoc.
Qed.

(** ** Round trips *)

Section roundtrip.
Context (pre rest : list Z).

Lemma decode_uint_head n :
  in_u 64 n → cbor_decode_uint (cur pre (head_bytes 0 n ++ rest)) =
              (n, cur (pre ++ head_bytes 0 n) rest).
Proof.
  intros Hn. unfold cbor_decode_uint.
  destruct (read_head 0 n pre rest) as (i & d & -> & -> & _ & _ & Harg); [lia | done |].
  done.
Qed.

Lemma decode_int_call v :
  in_s 64 v → cbor_decode_int (cur pre (call_bytes (CallInt v) ++ rest)) =
              (v, cur (pre ++ call_bytes (CallInt v)) rest).
Proof.
  intros Hv. unfold cbor_decode_int. simpl. destruct (Z.leb_spec 0 v).
  - destruct (read_head 0 v pre rest) as (i & d & -> & -> & _ & _ & Harg); [lia | zlia |].
    simpl. rewrite Harg. by rewrite swrap_small by zlia.
  - destruct (read_head 1 (-1 - v) pre rest) as (i & d & -> & -> & _ & _ & Harg);
      [lia | zlia |].
    simpl. rewrite Harg. rewrite swrap_small by zlia. f_equal. lia.
Qed.

Lemma decode_block_head ty bs :
  zlen (pre ++ head_bytes (cbor_type_code ty) (zlen bs) ++ bs ++ rest) < 2 ^ 63 →
  decode_block ty (cur pre (head_bytes (cbor_type_code ty) (zlen bs) ++ bs ++ rest)) =
    (Some (zlen (pre ++ head_bytes (cbor_type_code ty) (zlen bs)), zlen bs),
     cur (pre ++ head_bytes (cbor_type_code ty) (zlen bs) ++ bs) rest).
Proof.
  intros Hsize. unfold decode_block.
  destruct (read_head (cbor_type_code ty) (zlen bs) pre (bs ++ rest))
    as (i & d & -> & -> & _ & _ & Harg); [destruct ty; simpl; lia | zl |].
  rewrite Z.eqb_refl. simpl negb. cbv iota. rewrite Harg. simpl d_error. cbv iota.
  destruct (seek_payload (pre ++ head_bytes (cbor_type_code ty) (zlen bs)) bs rest)
    as [-> ->]; [by rewrite <- app_assoc |].
  by rewrite <- app_assoc.
Qed.

Lemma decode_count_head ty n :
  in_u 64 n → decode_count ty (cur pre (head_bytes (cbor_type_code ty) n ++ rest)) =
              (n, cur (pre ++ head_bytes (cbor_type_code ty) n) rest).
Proof.
  intros Hn. unfold decode_count.
  destruct (read_head (cbor_type_code ty) n pre rest) as (i & d & -> & -> & _ & _ & Harg);
    [destruct ty; simpl; lia | done |].
  by rewrite Z.eqb_refl.
Qed.
End roundtrip.

(** The payload handed out by [decode_block] is the encoded string. *)
Lemma payload_slice (pre hd bs rest : list Z) :
  slice (zlen (pre ++ hd)) (zlen bs) (pre ++ hd ++ bs ++ rest) = bs.
Proof. rewrite app_assoc. apply slice_mid. Qed.

(** ** Skipping *)

Lemma concat_fmap_cons {A} (f : A → list Z) x l :
  concat (f <$> x :: l) = f x ++ concat (f <$> l).
Proof. done. Qed.

Definition skips (bs : list Z) : Prop :=
  ∀ fuel pre rest, zlen (pre ++ bs ++ rest) < 2 ^ 63 → (2 * length bs < fuel)%nat →
    cbor_skip fuel (cur pre (bs ++ rest)) = Some (cur (pre ++ bs) rest).

Lemma skip_items_concat l :
  Forall (λ it, 1 <= zlen (enc_item it) ∧ skips (enc_item it)) l →
  ∀ fuel pre rest, zlen (pre ++ concat (enc_item <$> l) ++ rest) < 2 ^ 63 →
    (2 * length (concat (enc_item <$> l)) + 1 < fuel)%nat →
    skip_items fuel (zlen l) (cur pre (concat (enc_item <$> l) ++ rest)) =
      Some (cur (pre ++ concat (enc_item <$> l)) rest).
Proof.
  induction 1 as [|it l [Hlen Hit] _ IH]; intros [|fuel] pre rest Hsize Hfuel; try lia.
  { simpl. by rewrite app_nil_r. }
  rewrite concat_fmap_cons, length_app in *. unfold zlen in Hlen.
  simpl skip_items. destruct (Z.ltb_spec 0 (zlen (it :: l))); [| zl]. simpl.
  rewrite <- app_assoc in *. rewrite Hit; [| done | lia]. simpl.
  replace (zlen (it :: l) - 1) with (zlen l) by zl.
  rewrite IH; [by rewrite app_assoc | by rewrite <- app_assoc | lia].
Qed.

Lemma skip_pairs_concat l :
  Forall (λ p, (1 <= zlen (enc_item p.1) ∧ skips (enc_item p.1)) ∧
               (1 <= zlen (enc_item p.2) ∧ skips (enc_item p.2))) l →
  let bytes := concat ((λ p, enc_item p.1 ++ enc_item p.2) <$> l) in
  ∀ fuel pre rest, zlen (pre ++ bytes ++ rest) < 2 ^ 63 →
    (2 * length bytes + 1 < fuel)%nat →
    skip_pairs fuel (zlen l) (cur pre (bytes ++ rest)) = Some (cur (pre ++ bytes) rest).
Proof.
  induction 1 as [|p l [[Hl1 H1] [Hl2 H2]] _ IH]; intros bytes [|fuel] pre rest Hsize Hfuel;
    try lia.
  { simpl. by rewrite app_nil_r. }
  unfold bytes in *. clear bytes. rewrite concat_fmap_cons, !length_app in *.
  unfold zlen in Hl1, Hl2.
  simpl skip_pairs. destruct (Z.ltb_spec 0 (zlen (p :: l))); [| zl]. simpl.
  rewrite <- !app_assoc in *. rewrite H1; [| done | lia]. simpl.
  rewrite H2; [| by rewrite <- app_assoc | lia]. simpl.
  replace (zlen (p :: l) - 1) with (zlen l) by zl.
  rewrite IH; [by rewrite !app_assoc | by rewrite <- !app_assoc in * | lia].
Qed.

Lemma skip_head m arg fuel pre rest :
  0 <= m < 8 → in_u 64 arg →
  ∃ i d, 0 <= i <= 27 ∧ (i < 24 → i = arg ∧ d = cur (pre ++ head_bytes m arg) rest) ∧
    decode_arg d i = (arg, cur (pre ++ head_bytes m arg) rest) ∧
    cbor_skip (S fuel) (cur pre (head_bytes m arg ++ rest)) =
      if (m =? 0) || (m =? 1) then Some (decode_arg d i).2
      else if (m =? 2) || (m =? 3) then
        let d := cur (pre ++ head_bytes m arg) rest in
        if d_len d <? u64 (d_pos d + arg) then Some (fail d)
        else Some (seek d (u64 (d_pos d + arg)))
      else if m =? 4 then skip_items fuel arg (cur (pre ++ head_bytes m arg) rest)
      else if m =? 5 then skip_pairs fuel arg (cur (pre ++ head_bytes m arg) rest)
      else if m =? 6 then cbor_skip fuel (cur (pre ++ head_bytes m arg) rest)
      else Some (cur (pre ++ head_bytes m arg) rest).
Proof.
  intros Hm Ha. destruct (read_head m arg pre rest) as (i & d & Hr & He & Hi & Hsmall & Harg);
    [done | done |].
  exists i, d. split; [done |]. split; [done |]. split; [done |].
  simpl cbor_skip. unfold skip_body. destruct (head_nonempty m arg) as (b & bs & Hb).
  rewrite cur_read_ok by (rewrite Hb; done). rewrite Hr, Harg. simpl.
  repeat case_match; try done; try lia.
  f_equal. apply Hsmall. lia.
Qed.

Lemma scalar_skips m n :
  m = 0 ∨ m = 1 ∨ m = 7 → in_u 64 n → skips (head_bytes m n).
Proof.
  intros Hm Hn [|fuel] pre rest Hsize Hfuel; [lia |].
  destruct (skip_head m n fuel pre rest) as (i & d & _ & _ & Harg & ->); [lia | done |].
  rewrite Harg. by destruct Hm as [->|[->| ->]].
Qed.

Lemma block_skips m bs :
  m = 2 ∨ m = 3 → zlen bs < 2 ^ 62 → skips (head_bytes m (zlen bs) ++ bs).
Proof.
  intros Hm Hbs [|fuel] pre rest Hsize Hfuel; [lia |]. rewrite <- app_assoc in *.
  destruct (skip_head m (zlen bs) fuel pre (bs ++ rest)) as (i & d & _ & _ & _ & ->);
    [lia | zl |].
  destruct (seek_payload (pre ++ head_bytes m (zlen bs)) bs rest) as [E1 E2];
    [by rewrite <- !app_assoc |].
  cbv zeta. rewrite E1, E2, <- app_assoc. by destruct Hm as [-> | ->].
Qed.

Lemma array_skips l :
  zlen l < 2 ^ 62 → Forall (λ it, 1 <= zlen (enc_item it) ∧ skips (enc_item it)) l →
  skips (enc_item (IArray l)).
Proof.
  intros Hl Hf [|fuel] pre rest Hsize Hfuel; [lia |]. simpl enc_item in *.
  rewrite <- app_assoc in *.
  destruct (skip_head 4 (zlen l) fuel pre (concat (enc_item <$> l) ++ rest))
    as (i & d & _ & _ & _ & ->); [lia | zl |]. simpl.
  pose proof (head_length 4 (zlen l)). rewrite length_app in Hfuel.
  rewrite skip_items_concat; [by rewrite <- app_assoc | done | by rewrite <- app_assoc |].
  lia.
Qed.

Lemma map_skips l :
  zlen l < 2 ^ 62 →
  Forall (λ p, (1 <= zlen (enc_item p.1) ∧ skips (enc_item p.1)) ∧
               (1 <= zlen (enc_item p.2) ∧ skips (enc_item p.2))) l →
  skips (enc_item (IMap l)).
Proof.
  intros Hl Hf [|fuel] pre rest Hsize Hfuel; [lia |]. simpl enc_item in *.
  rewrite <- app_assoc in *.
  destruct (skip_head 5 (zlen l) fuel pre
    (concat ((λ p, enc_item p.1 ++ enc_item p.2) <$> l) ++ rest))
    as (i & d & _ & _ & _ & ->); [lia | zl |]. simpl.
  pose proof (head_length 5 (zlen l)). rewrite length_app in Hfuel.
  rewrite skip_pairs_concat; [by rewrite <- app_assoc | done | by rewrite <- app_assoc |].
  lia.
Qed.

Lemma tag_skips n it : in_u 64 n → skips (enc_item it) → skips (enc_item (ITag n it)).
Proof.
  intros Hn IH [|fuel] pre rest Hsize Hfuel; [lia |]. simpl enc_item in *.
  rewrite <- app_assoc in *.
  destruct (skip_head 6 n fuel pre (enc_item it ++ rest)) as (i & d & _ & _ & _ & ->);
    [lia | done |]. simpl.
  pose proof (head_length 6 n). rewrite length_app in Hfuel.
  rewrite IH; [by rewrite <- app_assoc | by rewrite <- app_assoc | lia].
Qed.

Lemma enc_item_skips it : item_ok it → 1 <= zlen (enc_item it) ∧ skips (enc_item it).
Proof.
  intros Hit. induction Hit as [n Hn|n Hn|bs Hl Hb|bs Hl Hb|l Hl IH|l Hl IH|n it Hn [_ IH]|n Hn]
      using item_ok_ind'; (split; [simpl enc_item;
        match goal with |- context [head_bytes ?m ?a] => pose proof (head_len m a); zl end |]).
    + apply scalar_skips; auto.
    + apply scalar_skips; auto.
    + apply block_skips; auto.
    + apply block_skips; auto.
    + by apply array_skips.
    + by apply map_skips.
    + by apply tag_skips.
    + apply scalar_skips; auto.
Qed.

(** ** Progress and termination

    [advances d d']: the same buffer, a cursor that only moved forward and is
    still inside the buffer. *)

Definition dec_wf (d : decoder) : Prop := 0 <= d_pos d <= d_len d.

Record advances (d d' : decoder) : Prop := {
  adv_buf : d_buf d' = d_buf d;
  adv_pos : d_pos d <= d_pos d' <= d_len d;
  adv_err : d_error d = true → d_error d' = true
}.

Lemma advances_refl d : dec_wf d → advances d d.
Proof. unfold dec_wf. intros ?. split; [done | simpl; lia | done]. Qed.

Lemma advances_fail d : dec_wf d → advances d (fail d).
Proof. unfold dec_wf. intros ?. split; [done | simpl; lia | done]. Qed.

Lemma advances_trans d1 d2 d3 : advances d1 d2 → advances d2 d3 → advances d1 d3.
Proof.
  intros [Hb1 Hp1 He1] [Hb2 Hp2 He2]. unfold d_len in *. rewrite Hb1 in *.
  split; unfold d_len; [congruence | lia | auto].
Qed.

Lemma advances_wf d d' : dec_wf d → advances d d' → dec_wf d'.
Proof. unfold dec_wf, d_len. intros Hwf [Hb Hp _]. unfold d_len in *. rewrite Hb. lia. Qed.

Lemma read_byte_advances d : dec_wf d → advances d (decoder_read_byte d).2.
Proof.
  intros Hwf. unfold decoder_read_byte.
  destruct (d_error d) eqn:He; [by apply advances_fail |]. simpl.
  destruct (Z.leb_spec (d_len d) (d_pos d)); [by apply advances_fail |].
  unfold dec_wf in Hwf. split; simpl; [done | lia | congruence].
Qed.

Lemma read_more_advances n val d : dec_wf d → advances d (read_more n val d).2.
Proof.
  revert val d. induction n as [|n IH]; intros val d Hwf; simpl; [by apply advances_refl |].
  pose proof (read_byte_advances d Hwf) as Hd. destruct (decoder_read_byte d) as [b d1].
  eapply advances_trans; [exact Hd |]. apply IH. by eapply advances_wf.
Qed.

Lemma decode_arg_advances d info : dec_wf d → advances d (decode_arg d info).2.
Proof.
  intros Hwf. unfold decode_arg.
  pose proof (read_byte_advances d Hwf) as Hd. pose proof (advances_wf _ _ Hwf Hd) as Hwf1.
  destruct (decoder_read_byte d) as [b d1]. cbn [snd] in *.
  assert (Hmore : ∀ n, advances d (read_more n b d1).2).
  { intros n. eapply advances_trans; [exact Hd | by apply read_more_advances]. }
  repeat case_match; auto using advances_refl, advances_fail.
Qed.

Lemma read_initial_advances d :
  dec_wf d → d_error d = false → d_pos d < d_len d →
  ∃ mt i d1, read_initial d = (mt, i, d1) ∧ d_buf d1 = d_buf d ∧
    d_pos d1 = d_pos d + 1 ∧ d_error d1 = false.
Proof.
  intros Hwf He Hlt. unfold read_initial, decoder_read_byte. rewrite He. simpl.
  destruct (Z.leb_spec (d_len d) (d_pos d)); [lia |].
  do 3 eexists. repeat split; done.
Qed.

(** The length argument of a byte or text string that starts at offset [p] does
    not wrap the cursor around. *)
Definition no_wrap_at (buf : list Z) (p : Z) : bool :=
  let '(mt, info, d) := read_initial (MkDec buf p false) in
  let '(len, d) := decode_arg d info in
  negb ((mt =? 2) || (mt =? 3)) || d_error d || (d_pos d + len <? 2 ^ 64).

Definition no_wrap (buf : list Z) : Prop :=
  Forall (λ p, no_wrap_at buf (Z.of_nat p) = true) (seq 0 (length buf)).

Lemma no_wrap_spec buf p : no_wrap buf → 0 <= p < zlen buf → no_wrap_at buf p = true.
Proof.
  unfold no_wrap, zlen. rewrite Forall_forall. intros H Hp.
  specialize (H (Z.to_nat p)). rewrite elem_of_seq, Z2Nat.id in H by lia. apply H. lia.
Qed.

Lemma decode_arg_nonneg d info :
  bytes_ok (d_buf d) → 0 <= info → 0 <= (decode_arg d info).1.
Proof.
  intros Hb Hi.
  assert (Hbyte : ∀ d, d_buf d = d_buf d → bytes_ok (d_buf d) → 0 <= (decoder_read_byte d).1).
  { intros d0 _ H0. unfold decoder_read_byte. case_match; simpl; [lia |].
    destruct (nthZ (d_buf d0) (d_pos d0)) as [b|] eqn:E; simpl; [| lia].
    unfold nthZ in E. case_match; [done |].
    apply list_elem_of_lookup_2 in E.
    unfold bytes_ok in H0. rewrite Forall_forall in H0. specialize (H0 _ E). zlia. }
  assert (Hmore : ∀ n val d, 0 <= val → 0 <= (read_more n val d).1).
  { induction n as [|n IH]; intros val d0 Hv; simpl; [done |].
    destruct (decoder_read_byte d0). apply IH.
    destruct (wrap_range 64 ltac:(lia) (Z.lor (u64 (Z.shiftl val 8)) z)). done. }
  unfold decode_arg. specialize (Hbyte d eq_refl Hb).
  destruct (decoder_read_byte d) as [b d1]. cbn [fst] in *.
  repeat case_match; auto; simpl; lia.
Qed.

Definition need (d : decoder) : nat :=
  if d_error d then 0 else Z.to_nat (2 * (d_len d - d_pos d)).

(** What a skipping function achieves from [d]: it ends, moved forward, and by
    at least [k] bytes unless it failed. *)
Definition ends (k : Z) (d : decoder) (r : option decoder) : Prop :=
  ∃ d', r = Some d' ∧ advances d d' ∧ (d_error d' = true ∨ d_pos d + k <= d_pos d').

Lemma ends_need k d d' :
  dec_wf d → advances d d' → (d_error d' = true ∨ d_pos d + k <= d_pos d') →
  0 <= k → d_error d = false →
  (d_error d' = true ∧ need d' = 0 ∨ need d' + Z.to_nat (2 * k) <= need d)%nat.
Proof.
  unfold need, dec_wf. intros Hwf [Hb Hp _] Hk Hk0 He.
  unfold d_len in *. rewrite Hb in *. rewrite He.
  destruct (d_error d'); [by left |]. destruct Hk; [done | lia].
Qed.

Section terminates.
Context (buf : list Z) (Hbytes : bytes_ok buf) (Hnw : no_wrap buf).

Lemma skip_body_ends skip items pairs d :
  d_buf d = buf → dec_wf d →
  (∀ d1, d_buf d1 = buf → dec_wf d1 → (d_error d1 = true ∨ d_pos d < d_pos d1) →
     ends 0 d1 (skip d1)) →
  (∀ n d1, d_buf d1 = buf → dec_wf d1 → (d_error d1 = true ∨ d_pos d < d_pos d1) →
     ends 0 d1 (items n d1)) →
  (∀ n d1, d_buf d1 = buf → dec_wf d1 → (d_error d1 = true ∨ d_pos d < d_pos d1) →
     ends 0 d1 (pairs n d1)) →
  ends 1 d (skip_body skip items pairs d).
Proof.
  intros Hbuf Hwf Hskip Hitems Hpairs. unfold skip_body.
  destruct (d_error d) eqn:He; simpl.
  { eexists. split; [done |]. split; [by apply advances_fail | by left]. }
  destruct (Z.leb_spec (d_len d) (d_pos d)) as [|Hlt]; simpl.
  { eexists. split; [done |]. split; [by apply advances_fail | by left]. }
  assert (Hat : no_wrap_at (d_buf d) (d_pos d) = true).
  { rewrite Hbuf. apply no_wrap_spec; [done |]. unfold dec_wf, d_len in *. rewrite Hbuf in *. lia. }
  unfold no_wrap_at in Hat. replace (MkDec (d_buf d) (d_pos d) false) with d in Hat
    by (destruct d; simpl in *; congruence).
  destruct (read_initial_advances d Hwf He Hlt) as (mt & i & d1 & Hr & Hb1 & Hp1 & He1).
  assert (Hi : 0 <= i).
  { unfold read_initial in Hr. destruct (decoder_read_byte d). simplify_eq.
    apply Z.land_nonneg. lia. }
  assert (A1 : advances d d1).
  { split; [done | unfold dec_wf in *; lia | congruence]. }
  assert (Hwf1 : dec_wf d1) by (by eapply advances_wf).
  rewrite Hr in *. pose proof (decode_arg_advances d1 i Hwf1) as A2.
  pose proof (decode_arg_nonneg d1 i ltac:(by rewrite Hb1, Hbuf) Hi) as Harg.
  destruct (decode_arg d1 i) as [len d2] eqn:Hd. simpl in A2, Harg.
  assert (A : advances d d2) by (by eapply advances_trans).
  assert (Hwf2 : dec_wf d2) by (by eapply advances_wf).
  assert (Hb2 : d_buf d2 = buf) by (rewrite (adv_buf _ _ A); done).
  assert (Hp2 : d_pos d < d_pos d2) by (pose proof (adv_pos _ _ A2); lia).
  assert (Hcont : ∀ r, ends 0 d2 r → ends 1 d r).
  { intros r (d3 & -> & A3 & _). exists d3. split; [done |].
    split; [by eapply advances_trans |]. right. pose proof (adv_pos _ _ A3). lia. }
  assert (Hend2 : ends 0 d2 (Some d2)).
  { exists d2. split; [done |]. split; [by apply advances_refl | right; lia]. }
  assert (Hend1 : ends 1 d (Some d1)).
  { exists d1. split; [done |]. split; [done | right; lia]. }
  simpl cbor_type_code.
  repeat case_match; subst; auto.
  - apply Hcont. exists (fail d2). split; [done |]. split; [by apply advances_fail | by left].
  - destruct ((mt =? 2) || (mt =? 3)) eqn:Hmt; [| done]. simpl in Hat.
    destruct (d_error d2) eqn:He2; [done |]. simpl in Hat. apply Z.ltb_lt in Hat.
    apply Hcont. unfold dec_wf in Hwf2.
    rewrite (wrap_small 64) in * by zlia.
    match goal with H : (_ <? _) = false |- _ => apply Z.ltb_ge in H end.
    exists (seek d2 (d_pos d2 + len)). split; [done |]. split; [| right; simpl; lia].
    split; simpl; [done | lia | congruence].
Qed.

(** Enough fuel for a loop from [d]; a loop on a failed decoder stops at once. *)
Definition loop_fuel (fuel : nat) (d : decoder) : Prop :=
  (need d + 1 < fuel ∨ need d = 0 ∧ 0 < fuel ∧ d_error d = true)%nat.

Definition skip_ok (fuel : nat) : Prop :=
  ∀ d, d_buf d = buf → dec_wf d → (need d < fuel)%nat → ends 1 d (cbor_skip fuel d).

Definition loop_ok (loop : nat → Z → decoder → option decoder) (fuel : nat) : Prop :=
  ∀ n d, d_buf d = buf → dec_wf d → loop_fuel fuel d → ends 0 d (loop fuel n d).

Lemma ends_stop d : dec_wf d → ends 0 d (Some d).
Proof.
  intros Hd. exists d. split; [done |]. split; [by apply advances_refl | right; lia].
Qed.

Lemma ends_fail k d : dec_wf d → ends k d (Some (fail d)).
Proof.
  intros Hd. exists (fail d). split; [done |]. split; [by apply advances_fail | by left].
Qed.

Lemma loop_fuel_after d d1 fuel :
  d_buf d = buf → d_buf d1 = buf → dec_wf d → dec_wf d1 → (need d < S fuel)%nat →
  d_error d = false → d_pos d < d_len d → (d_error d1 = true ∨ d_pos d < d_pos d1) →
  loop_fuel fuel d1.
Proof.
  unfold loop_fuel, need, dec_wf, d_len. intros -> -> Hwf Hwf1 Hn He Hlt Hor.
  rewrite He in *. destruct (d_error d1); [right; repeat split; lia |].
  destruct Hor; [done | left; lia].
Qed.

Lemma skip_step fuel :
  skip_ok fuel → loop_ok skip_items fuel → loop_ok skip_pairs fuel → skip_ok (S fuel).
Proof.
  intros IHs IHi IHp d Hb Hwf Hn. simpl.
  destruct (d_error d) eqn:He.
  { unfold skip_body. rewrite He. by apply ends_fail. }
  destruct (Z.leb_spec (d_len d) (d_pos d)) as [Hge|Hlt].
  { unfold skip_body. rewrite He. simpl.
    destruct (Z.leb_spec (d_len d) (d_pos d)); [by apply ends_fail | lia]. }
  apply skip_body_ends; [done | done | | |].
  - intros d1 Hb1 Hwf1 Hor.
    destruct (IHs d1 Hb1 Hwf1) as (d2 & Hd2 & A & _).
    { destruct (loop_fuel_after d d1 fuel) as [?|(?&?&?)]; (done || lia). }
    exists d2. split; [done |]. split; [done |]. pose proof (adv_pos _ _ A). right. lia.
  - intros n d1 Hb1 Hwf1 Hor. apply IHi; [done | done |]. by apply (loop_fuel_after d d1).
  - intros n d1 Hb1 Hwf1 Hor. apply IHp; [done | done |]. by apply (loop_fuel_after d d1).
Qed.

(** One skip inside a loop leaves enough fuel for the rest of the loop. *)
Lemma skip_in_loop fuel d :
  skip_ok fuel → d_buf d = buf → dec_wf d → d_error d = false → loop_fuel (S fuel) d →
  ∃ d1, cbor_skip fuel d = Some d1 ∧ advances d d1 ∧ d_buf d1 = buf ∧ dec_wf d1 ∧
        loop_fuel fuel d1 ∧ (need d1 < fuel)%nat.
Proof.
  intros IHs Hb Hwf He [Hn|(_&_&?)]; [| congruence].
  destruct (IHs d Hb Hwf ltac:(lia)) as (d1 & -> & A & Hor).
  exists d1. split; [done |]. split; [done |].
  split; [rewrite (adv_buf _ _ A); done |]. split; [by eapply advances_wf |].
  unfold loop_fuel. destruct (ends_need 1 d d1) as [[Herr Hz]|?]; [done.. | lia | done | | lia].
  rewrite Herr. lia.
Qed.

Lemma items_step fuel :
  skip_ok fuel → loop_ok skip_items fuel → loop_ok skip_items (S fuel).
Proof.
  intros IHs IHi n d Hb Hwf Hn. simpl. destruct (0 <? n); simpl; [| by apply ends_stop].
  destruct (d_error d) eqn:He; simpl; [by apply ends_stop |].
  destruct (skip_in_loop fuel d) as (d1 & -> & A & Hb1 & Hwf1 & Hf1 & _); [done.. |]. simpl.
  destruct (IHi (n - 1) d1 Hb1 Hwf1 Hf1) as (d2 & Hd2 & A2 & _).
  exists d2. split; [done |]. split; [by eapply advances_trans |].
  right. pose proof (adv_pos _ _ A). pose proof (adv_pos _ _ A2). lia.
Qed.

Lemma pairs_step fuel :
  skip_ok fuel → loop_ok skip_pairs fuel → loop_ok skip_pairs (S fuel).
Proof.
  intros IHs IHp n d Hb Hwf Hn. simpl. destruct (0 <? n); simpl; [| by apply ends_stop].
  destruct (d_error d) eqn:He; simpl; [by apply ends_stop |].
  destruct (skip_in_loop fuel d) as (d1 & -> & A & Hb1 & Hwf1 & Hf1 & Hn1); [done.. |]. simpl.
  destruct (IHs d1 Hb1 Hwf1 Hn1) as (d1' & -> & A' & _). simpl.
  assert (Hwf1' : dec_wf d1') by (by eapply advances_wf).
  assert (Hb1' : d_buf d1' = buf) by (rewrite (adv_buf _ _ A'); done).
  destruct (IHp (n - 1) d1' Hb1' Hwf1') as (d2 & Hd2 & A2 & _).
  { unfold loop_fuel, need, d_len in *. rewrite Hb1', Hb1 in *.
    pose proof (adv_pos _ _ A') as Hp. pose proof (adv_err _ _ A') as Hsticky.
    destruct (d_error d1') eqn:E1; [right; repeat split; lia |].
    destruct (d_error d1); [by discriminate Hsticky |]. left. lia. }
  exists d2. split; [done |]. split; [eauto using advances_trans |].
  right. pose proof (adv_pos _ _ A). pose proof (adv_pos _ _ A').
  pose proof (adv_pos _ _ A2). lia.
Qed.

Lemma skip_ends fuel :
  skip_ok fuel ∧ loop_ok skip_items fuel ∧ loop_ok skip_pairs fuel.
Proof.
  induction fuel as [|fuel (IHs & IHi & IHp)].
  - split; [| split]; [intros ? ? ? ?; lia | |];
      intros n d Hb Hwf [?|(?&?&?)]; lia.
  - split; [by apply skip_step |]. split; [by apply items_step | by apply pairs_step].
Qed.
End terminates.

(** ** Key lookup *)

Definition pair_enc (p : list Z * item) : list Z := enc_item (IText p.1) ++ enc_item p.2.

Definition pair_ok (p : list Z * item) : Prop := item_ok (IText p.1) ∧ item_ok p.2.

(** The bytes of the pairs of a map with text keys. *)
Definition pairs_enc (l : list (list Z * item)) : list Z := concat (pair_enc <$> l).

Lemma pairs_enc_cons p l :
  pairs_enc (p :: l) =
  head_bytes 3 (zlen p.1) ++ p.1 ++ enc_item p.2 ++ pairs_enc l.
Proof. unfold pairs_enc. simpl. unfold pair_enc. simpl. by rewrite <- !app_assoc. Qed.

(** Where the lookup should stop: before the value of the first pair with the
    key, or back at the start. *)
Fixpoint find_result (key : list Z) (start : decoder) (pre : list Z)
    (l : list (list Z * item)) (rest : list Z) : bool * decoder :=
  match l with
  | [] => (false, start)
  | p :: l =>
      let pre1 := pre ++ head_bytes 3 (zlen p.1) ++ p.1 in
      if bool_decide (p.1 = key) then (true, cur pre1 (enc_item p.2 ++ pairs_enc l ++ rest))
      else find_result key start (pre1 ++ enc_item p.2) l rest
  end.

Lemma find_key_loop_spec key whole start l :
  Forall pair_ok l → ∀ fuel pre rest,
  pre ++ pairs_enc l ++ rest = whole → zlen whole < 2 ^ 63 →
  (2 * length (pairs_enc l) + 1 < fuel)%nat →
  find_key_loop fuel key start (zlen l) (cur pre (pairs_enc l ++ rest)) =
    Some (find_result key (MkDec whole start false) pre l rest).
Proof.
  induction 1 as [|p l [Hk Hv] _ IH]; intros [|fuel] pre rest Hw Hsize Hfuel; try lia.
  { simpl. unfold seek, cur. simpl. by rewrite <- Hw. }
  subst whole. rewrite pairs_enc_cons in *. rewrite !length_app in Hfuel.
  pose proof (head_length 3 (zlen p.1)). cbn [find_key_loop].
  destruct (Z.ltb_spec 0 (zlen (p :: l))); [| zl]. cbn [d_error cur negb andb].
  unfold cbor_decode_text. rewrite <- !app_assoc in *.
  rewrite (decode_block_head pre (enc_item p.2 ++ pairs_enc l ++ rest) CBOR_TYPE_TEXT)
    by exact Hsize.
  cbn [find_result cbor_type_code d_buf cur].
  replace (zlen (p :: l) - 1) with (zlen l) by zl.
  assert (Hcmp : ((zlen p.1 =? zlen key) && bool_decide (slice (zlen (pre ++
      head_bytes 3 (zlen p.1))) (zlen key) ((pre ++ head_bytes 3 (zlen p.1) ++ p.1) ++
      enc_item p.2 ++ pairs_enc l ++ rest) = key)) = bool_decide (p.1 = key)).
  { destruct (Z.eqb_spec (zlen p.1) (zlen key)) as [E|E]; simpl.
    - rewrite <- E, <- !app_assoc, payload_slice. done.
    - symmetry. apply bool_decide_eq_false. congruence. }
  rewrite Hcmp. destruct (decide (p.1 = key)) as [E|E];
    [by rewrite !bool_decide_eq_true_2 by done | rewrite !bool_decide_eq_false_2 by done].
  destruct (enc_item_skips p.2 Hv) as [_ Hskip].
  rewrite Hskip; [| by rewrite <- !app_assoc | lia]. simpl.
  apply IH; [by rewrite <- !app_assoc | done | lia].
Qed.

(** ** Properties of the decoder *)

(** An [int64_t] that [cbor_encode_int] writes into a buffer with room
    for it is read back by [cbor_decode_int] unchanged, whatever bytes follow, and
    the cursor ends exactly after it. *)
Theorem cbor_int_roundtrip malloc_ok e v rest :
  enc_wf e → e_error e = false → e_len e + 9 <= e_cap e → in_s 64 v →
  ∃ e', cbor_encode_int malloc_ok e v = Some e' ∧ e_error e' = false ∧
    cbor_decode_int (MkDec (e_data e' ++ rest) (e_len e) false) =
      (v, MkDec (e_data e' ++ rest) (e_len e') false).
Proof.
  intros He Hok Hroom Hv.
  destruct (run_call_writes malloc_ok (CallInt v) Hv e He) as (e' & Hrun & HE).
  exists e'. split; [done |].
  assert (Hlen : zlen (call_bytes (CallInt v)) <= 9).
  { simpl. case_match; apply head_len. }
  rewrite (emits_fit _ _ _ HE) by (done || lia). split; [done |].
  unfold e_len. cbn [e_data]. rewrite <- app_assoc.
  change (MkDec (e_data e ++ call_bytes (CallInt v) ++ rest) (zlen (e_data e)) false)
    with (cur (e_data e) (call_bytes (CallInt v) ++ rest)).
  rewrite decode_int_call by done. unfold cur. by rewrite <- app_assoc.
Qed.

(** A byte or text string written by the encoder is copied back exactly
    by [cbor_decode_bytes_copy] and [cbor_decode_text_copy], the cursor ending after
    it; the copy fails with the error flag set precisely when the destination is too
    small (for text, when there is no room for the terminating zero). *)
Theorem cbor_block_roundtrip malloc_ok e data rest cap :
  enc_wf e → e_error e = false → e_len e + 9 + zlen data <= e_cap e →
  zlen (e_data e) + 9 + zlen data + zlen rest < 2 ^ 63 →
  ∃ e1 e2,
    cbor_encode_bytes malloc_ok e (Some data) (zlen data) = Some e1 ∧
    cbor_encode_text malloc_ok e (Some data) = Some e2 ∧
    cbor_decode_bytes_copy (MkDec (e_data e1 ++ rest) (e_len e) false) cap =
      (if cap <? zlen data then None else Some data,
       MkDec (e_data e1 ++ rest) (e_len e1) (cap <? zlen data)) ∧
    cbor_decode_text_copy (MkDec (e_data e2 ++ rest) (e_len e) false) cap =
      (if cap <=? zlen data then None else Some data,
       MkDec (e_data e2 ++ rest) (e_len e2) (cap <=? zlen data)).
Proof.
  intros He Hok Hroom Hsize. pose proof (zlen_nonneg rest). pose proof (zlen_nonneg data).
  assert (Hcap : zlen data < 2 ^ 62) by (destruct He; unfold e_len in *; zl).
  destruct (run_call_writes malloc_ok (CallBytes data) Hcap e He) as (e1 & H1 & HE1).
  destruct (run_call_writes malloc_ok (CallText data) Hcap e He) as (e2 & H2 & HE2).
  pose proof (head_len 2 (zlen data)). pose proof (head_len 3 (zlen data)).
  exists e1, e2. split; [done |]. split; [done |].
  rewrite (emits_fit _ _ _ HE1), (emits_fit _ _ _ HE2) by
    (done || (simpl call_bytes; rewrite zlen_app; lia)).
  unfold e_len. cbn [e_data call_bytes]. rewrite <- !app_assoc.
  unfold cbor_decode_bytes_copy, cbor_decode_text_copy, cbor_decode_bytes, cbor_decode_text.
  assert (Hdec : ∀ ty, zlen (head_bytes (cbor_type_code ty) (zlen data)) <= 9 →
    decode_block ty (MkDec (e_data e ++ head_bytes (cbor_type_code ty) (zlen data) ++
      data ++ rest) (zlen (e_data e)) false) = _)
    by (intros ty Hty; apply (decode_block_head (e_data e) rest ty data); zl).
  pose proof (Hdec CBOR_TYPE_BYTES ltac:(simpl; lia)) as Hbytes.
  pose proof (Hdec CBOR_TYPE_TEXT ltac:(simpl; lia)) as Htext.
  simpl cbor_type_code in Hbytes, Htext. rewrite Hbytes, Htext.
  simpl cbor_type_code. unfold cur, fail. cbn [d_buf d_pos]. rewrite <- !app_assoc, !payload_slice.
  by destruct (cap <? zlen data), (cap <=? zlen data).
Qed.

(** C34. [cbor_skip] on any encoded data item, however nested and whatever
    surrounds it, ends without error with the cursor exactly after the item, and
    [cbor_validate] accepts the encoding of every item. *)
Theorem cbor_skip_item_exact it pre rest fuel :
  item_ok it → zlen (pre ++ enc_item it ++ rest) < 2 ^ 63 →
  (2 * length (enc_item it) < fuel)%nat →
  cbor_skip fuel (MkDec (pre ++ enc_item it ++ rest) (zlen pre) false) =
    Some (MkDec (pre ++ enc_item it ++ rest) (zlen pre + zlen (enc_item it)) false) ∧
  cbor_validate fuel (enc_item it) = Some true.
Proof.
  intros Hit Hsize Hfuel. destruct (enc_item_skips it Hit) as [_ Hskip]. split.
  - pose proof (Hskip fuel pre rest Hsize Hfuel) as H. unfold cur in H.
    by rewrite <- app_assoc, zlen_app in H.
  - unfold cbor_validate. rewrite cur_init.
    pose proof (Hskip fuel [] []) as H. rewrite !app_nil_r in H.
    rewrite H; [| zl | done]. simpl.
    unfold cbor_decoder_ok, cbor_decoder_eof, d_len. simpl. rewrite app_nil_r.
    by rewrite Z.leb_refl.
Qed.

(** On a buffer in which no string length makes the cursor wrap, the
    recursion of [cbor_skip] ends at depth at most twice the buffer length, the
    cursor stays inside the buffer, and it advances unless the error flag is set. *)
Theorem cbor_skip_terminates buf pos :
  bytes_ok buf → no_wrap buf → 0 <= pos <= zlen buf →
  ∃ d', cbor_skip (2 * length buf + 1) (MkDec buf pos false) = Some d' ∧
    d_buf d' = buf ∧ d_pos d' <= zlen buf ∧ (d_error d' = true ∨ pos < d_pos d').
Proof.
  intros Hb Hnw Hpos.
  destruct (skip_ends buf Hb Hnw (2 * length buf + 1)) as [Hs _].
  destruct (Hs (MkDec buf pos false)) as (d' & Hd & A & Hor); [done | done | |].
  { unfold need, d_len, zlen in *. cbn [d_error d_buf d_pos]. lia. }
  exists d'. split; [done |]. destruct A as [? Hp _].
  unfold d_len in Hp. cbn [d_buf d_pos] in *.
  split; [done |]. split; [lia |]. destruct Hor; [by left | right; lia].
Qed.

(** A ten byte message: an array of two items whose first is a byte string of
    length [2^64 - 10]. *)
Definition looping_message : list Z :=
  [0x82; 0x5B; 0xFF; 0xFF; 0xFF; 0xFF; 0xFF; 0xFF; 0xFF; 0xF6].

(** Skipping an array of two whose first element brings the cursor back to the
    array never ends. *)
Lemma looping_skip buf p q :
  (∀ fuel, cbor_skip (S fuel) (MkDec buf p false) = skip_items fuel 2 (MkDec buf q false)) →
  (∀ fuel, cbor_skip (S fuel) (MkDec buf q false) = Some (MkDec buf p false)) →
  ∀ fuel, cbor_skip fuel (MkDec buf p false) = None.
Proof.
  intros Hp Hq fuel. induction fuel as [fuel IH] using (well_founded_induction lt_wf).
  destruct fuel as [|fuel]; [done |]. rewrite Hp.
  destruct fuel as [|fuel]; [done |]. cbn [skip_items d_error negb andb Z.ltb Z.compare].
  destruct fuel as [|fuel]; [done |]. rewrite Hq.
  cbn [mbind option_bind skip_items d_error negb andb Z.sub Z.ltb Z.compare Z.opp Z.add
       Z.pos_sub Pos.pred_double].
  by rewrite IH by lia.
Qed.

(** There is a ten byte message on which [cbor_validate] never returns:
    the length of its inner byte string wraps the cursor back to the start of the
    message, so [cbor_skip] recurses for ever. *)
Theorem cbor_skip_diverges : ∀ fuel, cbor_validate fuel looping_message = None.
Proof.
  intros fuel. unfold cbor_validate, cbor_decoder_init.
  by rewrite (looping_skip looping_message 0 1).
Qed.

(** A byte or text string handed out by the decoder starts after the
    cursor, leaves the cursor inside the buffer, and, when its length does not wrap
    the cursor, lies inside the buffer and ends at the new cursor. *)
Theorem cbor_decode_block_bounds ty buf pos off len d' :
  bytes_ok buf → 0 <= pos <= zlen buf → zlen buf < 2 ^ 63 →
  decode_block ty (MkDec buf pos false) = (Some (off, len), d') →
  d_buf d' = buf ∧ d_pos d' = u64 (off + len) ∧ d_pos d' <= zlen buf ∧ pos < off ∧
  (no_wrap_at buf pos = true → (ty = CBOR_TYPE_BYTES ∨ ty = CBOR_TYPE_TEXT) →
     off + len = d_pos d').
Proof.
  intros Hb Hpos Hsize. unfold decode_block, no_wrap_at.
  destruct (Z.eq_dec pos (zlen buf)) as [->|Hne].
  { unfold read_initial, decoder_read_byte, d_len. simpl. by rewrite Z.leb_refl. }
  destruct (read_initial_advances (MkDec buf pos false)) as (mt & i & d1 & Hr & Hb1 & Hp1 & He1);
    [done | done | unfold d_len; simpl; lia |].
  assert (Hi : 0 <= i).
  { unfold read_initial in Hr. destruct (decoder_read_byte _). simplify_eq.
    apply Z.land_nonneg. lia. }
  rewrite Hr, He1. simpl in Hb1, Hp1.
  assert (Hwf1 : dec_wf d1) by (unfold dec_wf, d_len; rewrite Hb1, Hp1; lia).
  pose proof (decode_arg_advances d1 i Hwf1) as A2.
  pose proof (decode_arg_nonneg d1 i ltac:(by rewrite Hb1) Hi) as Harg.
  destruct (Z.eqb_spec mt (cbor_type_code ty)) as [Hmt|]; simpl; [| done].
  destruct (decode_arg d1 i) as [n d2]. simpl in A2, Harg.
  destruct (d_error d2) eqn:E2; [done |].
  destruct (Z.ltb_spec (d_len d2) (u64 (d_pos d2 + n))) as [|Hle]; [done |].
  intros [= <- <- <-]. destruct A2 as [Hb2 Hp2 _]. unfold d_len in *.
  rewrite Hb2, Hb1 in *. simpl. split; [congruence |]. split; [done |].
  split; [lia |]. split; [lia |]. intros Hnw Hty.
  rewrite wrap_small; [done |]. destruct Hty as [-> | ->]; rewrite Hmt in Hnw; simpl in Hnw; zlia.
Qed.

(** Without that condition the bound fails: there is a nine byte buffer
    for which [cbor_decode_text] succeeds with a length larger than the buffer and
    moves the cursor backwards. *)
Theorem cbor_text_length_can_exceed_buffer :
  ∃ buf off len d', bytes_ok buf ∧
    cbor_decode_text (cbor_decoder_init buf) = (Some (off, len), d') ∧
    cbor_decoder_ok d' = true ∧ d_pos d' < off ∧ zlen buf < len.
Proof.
  exists [0x7B; 0xFF; 0xFF; 0xFF; 0xFF; 0xFF; 0xFF; 0xFF; 0xFF]. do 3 eexists.
  split; [repeat constructor; zlia |]. split; [reflexivity |]. by repeat split.
Qed.

(** [cbor_map_find_key] on the encoded pairs of a map with text keys
    returns the first pair whose key is equal, with the cursor on its value, and
    otherwise returns [false] with the cursor restored to where it was. *)
Theorem cbor_map_find_key_spec key l pre rest fuel :
  Forall pair_ok l → zlen (pre ++ pairs_enc l ++ rest) < 2 ^ 63 →
  (2 * length (pairs_enc l) + 1 < fuel)%nat →
  cbor_map_find_key fuel (MkDec (pre ++ pairs_enc l ++ rest) (zlen pre) false) key (zlen l) =
    Some (find_result key (MkDec (pre ++ pairs_enc l ++ rest) (zlen pre) false) pre l rest).
Proof.
  intros Hl Hsize Hfuel. unfold cbor_map_find_key.
  by apply (find_key_loop_spec key (pre ++ pairs_enc l ++ rest)).
Qed.

(** [cbor_is_canonical] accepts an encoding that is not canonical: the
    two byte form of the integer zero. *)
Theorem cbor_is_canonical_accepts_long_form :
  cbor_is_canonical 1 [0x18; 0x00] = Some true ∧ [0x18; 0x00] ≠ enc_item (IUint 0) ∧
  cbor_decode_uint (cbor_decoder_init [0x18; 0x00]) = (0, MkDec [0x18; 0x00] 2 false).
Proof. by repeat split. Qed.

(** ** Witnesses *)

Lemma cbor_int_roundtrip_witness :
  ∃ e', cbor_encode_int (λ _, true) (cbor_encoder_init false 64) (-1000) = Some e' ∧
    e_error e' = false ∧
    cbor_decode_int (MkDec (e_data e' ++ [0xF6]) 0 false) =
      (-1000, MkDec (e_data e' ++ [0xF6]) (e_len e') false).
Proof.
  apply (cbor_int_roundtrip (λ _, true) (cbor_encoder_init false 64) (-1000) [0xF6]).
  - split; [reflexivity | vm_compute; intuition congruence].
  - reflexivity.
  - vm_compute. discriminate.
  - vm_compute. intuition congruence.
Defined.

Lemma cbor_block_roundtrip_witness :
  ∃ e1 e2,
    cbor_encode_bytes (λ _, true) (cbor_encoder_init false 64) (Some [104; 105]) 2 = Some e1 ∧
    cbor_encode_text (λ _, true) (cbor_encoder_init false 64) (Some [104; 105]) = Some e2 ∧
    cbor_decode_bytes_copy (MkDec (e_data e1 ++ [1]) 0 false) 2 =
      (Some [104; 105], MkDec (e_data e1 ++ [1]) (e_len e1) false) ∧
    cbor_decode_text_copy (MkDec (e_data e2 ++ [1]) 0 false) 2 =
      (None, MkDec (e_data e2 ++ [1]) (e_len e2) true).
Proof.
  apply (cbor_block_roundtrip (λ _, true) (cbor_encoder_init false 64) [104; 105] [1] 2).
  - split; [reflexivity | vm_compute; intuition congruence].
  - reflexivity.
  - vm_compute. discriminate.
  - reflexivity.
Defined.

Definition witness_item : item :=
  IMap [(IText [97], IArray [IUint 1; INegint 300; ISimple 20]); (IText [98], ITag 1 (IBytes [7]))].

Lemma witness_item_ok : item_ok witness_item.
Proof. repeat (constructor; [done || zlia ..|]); repeat constructor; zlia. Qed.

Lemma cbor_skip_item_exact_witness :
  cbor_skip 40 (MkDec ([1] ++ enc_item witness_item ++ [2]) (zlen [1]) false) =
    Some (MkDec ([1] ++ enc_item witness_item ++ [2]) (zlen [1] + zlen (enc_item witness_item))
            false) ∧
  cbor_validate 40 (enc_item witness_item) = Some true.
Proof.
  apply (cbor_skip_item_exact witness_item [1] [2] 40).
  - exact witness_item_ok.
  - reflexivity.
  - vm_compute. lia.
Defined.

Lemma cbor_skip_terminates_witness :
  ∃ d', cbor_skip (2 * length [0x82; 0x41; 0x5B; 0x9F] + 1)
          (MkDec [0x82; 0x41; 0x5B; 0x9F] 0 false) = Some d' ∧
    d_buf d' = [0x82; 0x41; 0x5B; 0x9F] ∧ d_pos d' <= zlen [0x82; 0x41; 0x5B; 0x9F] ∧
    (d_error d' = true ∨ 0 < d_pos d').
Proof.
  apply (cbor_skip_terminates [0x82; 0x41; 0x5B; 0x9F] 0).
  - repeat constructor; vm_compute; intuition congruence.
  - repeat constructor.
  - vm_compute. intuition congruence.
Defined.

Lemma cbor_decode_block_bounds_witness :
  d_buf (MkDec [0x42; 7; 8] 3 false) = [0x42; 7; 8] ∧
  d_pos (MkDec [0x42; 7; 8] 3 false) = u64 (1 + 2) ∧
  d_pos (MkDec [0x42; 7; 8] 3 false) <= zlen [0x42; 7; 8] ∧ 0 < 1 ∧
  (no_wrap_at [0x42; 7; 8] 0 = true →
   (CBOR_TYPE_BYTES = CBOR_TYPE_BYTES ∨ CBOR_TYPE_BYTES = CBOR_TYPE_TEXT) →
   1 + 2 = d_pos (MkDec [0x42; 7; 8] 3 false)).
Proof.
  apply (cbor_decode_block_bounds CBOR_TYPE_BYTES [0x42; 7; 8] 0 1 2).
  - repeat constructor; vm_compute; intuition congruence.
  - vm_compute. intuition congruence.
  - reflexivity.
  - reflexivity.
Defined.

Definition witness_pairs : list (list Z * item) := [([97], IUint 5); ([98; 99], IText [120])].

Lemma cbor_map_find_key_spec_witness :
  cbor_map_find_key 40 (MkDec ([0xA2] ++ pairs_enc witness_pairs ++ []) (zlen [0xA2]) false)
    [98; 99] (zlen witness_pairs) =
  Some (find_result [98; 99]
    (MkDec ([0xA2] ++ pairs_enc witness_pairs ++ []) (zlen [0xA2]) false)
    [0xA2] witness_pairs []).
Proof.
  apply (cbor_map_find_key_spec [98; 99] witness_pairs [0xA2] [] 40).
  - repeat constructor; vm_compute; intuition congruence.
  - reflexivity.
  - vm_compute. lia.
Defined.
