(* ===== verification/PlankObject.v ===== *)
(** PLANK objects: src/plank/plank_object.c over the CBOR codec of [Cbor] and
    [CborDecode], with the life cycle of objects from src/plank/plank_core.c and
    the wrappers of src/plank/plank_crypto.c. OpenSSL is a record of functions;
    allocation of a variable size is the parameter [malloc_ok], that of a fixed
    size is assumed to succeed. A character array is its C string; a function
    that returns false or NULL returns [None], and undefined behaviour is [None]
    around that. *)

From S2P Require Import Prelude CLib Cbor CborDecode.

#[local] Open Scope Z_scope.

Import Encoder MapBuilder.

(** ** Sizes *)

(** include/plank/plank_types.h:24-43 (PLANK_NODE_ID_SIZE) *)
Definition PLANK_NODE_ID_SIZE : Z := 16.
Definition PLANK_OBJECT_ID_SIZE : Z := 32.
Definition PLANK_ATTACHMENT_ID_SIZE : Z := 32.
Definition PLANK_SIGNATURE_SIZE : Z := 64.
Definition PLANK_HASH_SIZE : Z := 32.
Definition PLANK_MAX_USER_NAME : Z := 32.
Definition PLANK_MAX_SUBJECT : Z := 256.
Definition PLANK_MAX_ADDRESS : Z := 128.

Definition PLANK_CLASS_MESSAGE : Z := 3.
Definition PLANK_MSG_AREA_POST : Z := 1.
Definition PLANK_SIG_ED25519 : Z := 1.

Definition zeros (n : Z) : list Z := replicate (Z.to_nat n) 0.

(** Signed arithmetic that overflows is undefined. *)
Definition checked (w z : Z) : option Z := if decide (in_s w z) then Some z else None.

(** ** OpenSSL *)

(** The functions of OpenSSL that are called; [None] where they report failure.
    A private key is given by its seed. *)
Record openssl : Type := MkOpenssl {
  EVP_Digest_sha256 : list Z → option (list Z);
  EVP_DigestSign_ed25519 : list Z → list Z → option (list Z);
  EVP_DigestVerify_ed25519 : list Z → list Z → list Z → bool
}.

(** ** Objects *)

(** [body_cbor] and [envelope_cbor] are the buffers with their lengths.
    include/plank/plank_object.h:24-41 (plank_object_t) *)
Record plank_object : Type := MkObj {
  version : Z;
  object_class : Z;
  origin_node_id : list Z;
  origin_node_addr : list Z;
  created_at : Z;
  object_id : list Z;
  sig_alg : Z;
  signature : list Z;
  body_cbor : option (list Z);
  envelope_cbor : option (list Z)
}.

Definition set_version (x : Z) (o : plank_object) : plank_object :=
    MkObj x (object_class o) (origin_node_id o) (origin_node_addr o) (created_at o) (object_id
    o) (sig_alg o) (signature o) (body_cbor o) (envelope_cbor o).
Definition set_object_class (x : Z) (o : plank_object) : plank_object :=
    MkObj (version o) x (origin_node_id o) (origin_node_addr o) (created_at o) (object_id o)
    (sig_alg o) (signature o) (body_cbor o) (envelope_cbor o).
Definition set_origin_node_id (x : list Z) (o : plank_object) : plank_object :=
    MkObj (version o) (object_class o) x (origin_node_addr o) (created_at o) (object_id o)
    (sig_alg o) (signature o) (body_cbor o) (envelope_cbor o).
Definition set_origin_node_addr (x : list Z) (o : plank_object) : plank_object :=
    MkObj (version o) (object_class o) (origin_node_id o) x (created_at o) (object_id o)
    (sig_alg o) (signature o) (body_cbor o) (envelope_cbor o).
Definition set_created_at (x : Z) (o : plank_object) : plank_object :=
    MkObj (version o) (object_class o) (origin_node_id o) (origin_node_addr o) x (object_id o)
    (sig_alg o) (signature o) (body_cbor o) (envelope_cbor o).
Definition set_object_id (x : list Z) (o : plank_object) : plank_object :=
    MkObj (version o) (object_class o) (origin_node_id o) (origin_node_addr o) (created_at o) x
    (sig_alg o) (signature o) (body_cbor o) (envelope_cbor o).
Definition set_sig_alg (x : Z) (o : plank_object) : plank_object :=
    MkObj (version o) (object_class o) (origin_node_id o) (origin_node_addr o) (created_at o)
    (object_id o) x (signature o) (body_cbor o) (envelope_cbor o).
Definition set_signature (x : list Z) (o : plank_object) : plank_object :=
    MkObj (version o) (object_class o) (origin_node_id o) (origin_node_addr o) (created_at o)
    (object_id o) (sig_alg o) x (body_cbor o) (envelope_cbor o).
Definition set_body_cbor (x : option (list Z)) (o : plank_object) : plank_object :=
    MkObj (version o) (object_class o) (origin_node_id o) (origin_node_addr o) (created_at o)
    (object_id o) (sig_alg o) (signature o) x (envelope_cbor o).
Definition set_envelope_cbor (x : option (list Z)) (o : plank_object) : plank_object :=
    MkObj (version o) (object_class o) (origin_node_id o) (origin_node_addr o) (created_at o)
    (object_id o) (sig_alg o) (signature o) (body_cbor o) x.

(** The arrays of pointers with their counts; a pointer may be null.
    include/plank/plank_object.h:47-70 (plank_message_body_t) *)
Record plank_message_body : Type := MkBody {
  message_type : Z;
  author_user : list Z;
  author_display : list Z;
  from_addr : list Z;
  to_addrs : list (option (list Z));
  area_addr : list Z;
  subject : list Z;
  body_format : Z;
  body_text : option (list Z);
  body_text_len : Z;
  thread_root_id : list Z;
  parent_id : list Z;
  reply_to : list Z;
  attachment_refs : list (option (list Z));
  retention_class : Z;
  visibility : Z;
  flags : Z;
  path : list (option (list Z));
  hop_count : Z
}.

Definition set_message_type (x : Z) (b : plank_message_body) : plank_message_body :=
    MkBody x (author_user b) (author_display b) (from_addr b) (to_addrs b) (area_addr b)
    (subject b) (body_format b) (body_text b) (body_text_len b) (thread_root_id b) (parent_id b)
    (reply_to b) (attachment_refs b) (retention_class b) (visibility b) (flags b) (path b)
    (hop_count b).
Definition set_author_user (x : list Z) (b : plank_message_body) : plank_message_body :=
    MkBody (message_type b) x (author_display b) (from_addr b) (to_addrs b) (area_addr b)
    (subject b) (body_format b) (body_text b) (body_text_len b) (thread_root_id b) (parent_id b)
    (reply_to b) (attachment_refs b) (retention_class b) (visibility b) (flags b) (path b)
    (hop_count b).
Definition set_author_display (x : list Z) (b : plank_message_body) : plank_message_body :=
    MkBody (message_type b) (author_user b) x (from_addr b) (to_addrs b) (area_addr b) (subject
    b) (body_format b) (body_text b) (body_text_len b) (thread_root_id b) (parent_id b)
    (reply_to b) (attachment_refs b) (retention_class b) (visibility b) (flags b) (path b)
    (hop_count b).
Definition set_from_addr (x : list Z) (b : plank_message_body) : plank_message_body :=
    MkBody (message_type b) (author_user b) (author_display b) x (to_addrs b) (area_addr b)
    (subject b) (body_format b) (body_text b) (body_text_len b) (thread_root_id b) (parent_id b)
    (reply_to b) (attachment_refs b) (retention_class b) (visibility b) (flags b) (path b)
    (hop_count b).
Definition set_to_addrs (x : list (option (list Z))) (b : plank_message_body) : plank_message_body :=
    MkBody (message_type b) (author_user b) (author_display b) (from_addr b) x (area_addr b)
    (subject b) (body_format b) (body_text b) (body_text_len b) (thread_root_id b) (parent_id b)
    (reply_to b) (attachment_refs b) (retention_class b) (visibility b) (flags b) (path b)
    (hop_count b).
Definition set_area_addr (x : list Z) (b : plank_message_body) : plank_message_body :=
    MkBody (message_type b) (author_user b) (author_display b) (from_addr b) (to_addrs b) x
    (subject b) (body_format b) (body_text b) (body_text_len b) (thread_root_id b) (parent_id b)
    (reply_to b) (attachment_refs b) (retention_class b) (visibility b) (flags b) (path b)
    (hop_count b).
Definition set_subject (x : list Z) (b : plank_message_body) : plank_message_body :=
    MkBody (message_type b) (author_user b) (author_display b) (from_addr b) (to_addrs b)
    (area_addr b) x (body_format b) (body_text b) (body_text_len b) (thread_root_id b)
    (parent_id b) (reply_to b) (attachment_refs b) (retention_class b) (visibility b) (flags b)
    (path b) (hop_count b).
Definition set_body_format (x : Z) (b : plank_message_body) : plank_message_body :=
    MkBody (message_type b) (author_user b) (author_display b) (from_addr b) (to_addrs b)
    (area_addr b) (subject b) x (body_text b) (body_text_len b) (thread_root_id b) (parent_id b)
    (reply_to b) (attachment_refs b) (retention_class b) (visibility b) (flags b) (path b)
    (hop_count b).
Definition set_body_text (x : option (list Z)) (b : plank_message_body) : plank_message_body :=
    MkBody (message_type b) (author_user b) (author_display b) (from_addr b) (to_addrs b)
    (area_addr b) (subject b) (body_format b) x (body_text_len b) (thread_root_id b) (parent_id
    b) (reply_to b) (attachment_refs b) (retention_class b) (visibility b) (flags b) (path b)
    (hop_count b).
Definition set_body_text_len (x : Z) (b : plank_message_body) : plank_message_body :=
    MkBody (message_type b) (author_user b) (author_display b) (from_addr b) (to_addrs b)
    (area_addr b) (subject b) (body_format b) (body_text b) x (thread_root_id b) (parent_id b)
    (reply_to b) (attachment_refs b) (retention_class b) (visibility b) (flags b) (path b)
    (hop_count b).
Definition set_thread_root_id (x : list Z) (b : plank_message_body) : plank_message_body :=
    MkBody (message_type b) (author_user b) (author_display b) (from_addr b) (to_addrs b)
    (area_addr b) (subject b) (body_format b) (body_text b) (body_text_len b) x (parent_id b)
    (reply_to b) (attachment_refs b) (retention_class b) (visibility b) (flags b) (path b)
    (hop_count b).
Definition set_parent_id (x : list Z) (b : plank_message_body) : plank_message_body :=
    MkBody (message_type b) (author_user b) (author_display b) (from_addr b) (to_addrs b)
    (area_addr b) (subject b) (body_format b) (body_text b) (body_text_len b) (thread_root_id b)
    x (reply_to b) (attachment_refs b) (retention_class b) (visibility b) (flags b) (path b)
    (hop_count b).
Definition set_reply_to (x : list Z) (b : plank_message_body) : plank_message_body :=
    MkBody (message_type b) (author_user b) (author_display b) (from_addr b) (to_addrs b)
    (area_addr b) (subject b) (body_format b) (body_text b) (body_text_len b) (thread_root_id b)
    (parent_id b) x (attachment_refs b) (retention_class b) (visibility b) (flags b) (path b)
    (hop_count b).
Definition set_attachment_refs (x : list (option (list Z))) (b : plank_message_body) : plank_message_body :=
    MkBody (message_type b) (author_user b) (author_display b) (from_addr b) (to_addrs b)
    (area_addr b) (subject b) (body_format b) (body_text b) (body_text_len b) (thread_root_id b)
    (parent_id b) (reply_to b) x (retention_class b) (visibility b) (flags b) (path b)
    (hop_count b).
Definition set_retention_class (x : Z) (b : plank_message_body) : plank_message_body :=
    MkBody (message_type b) (author_user b) (author_display b) (from_addr b) (to_addrs b)
    (area_addr b) (subject b) (body_format b) (body_text b) (body_text_len b) (thread_root_id b)
    (parent_id b) (reply_to b) (attachment_refs b) x (visibility b) (flags b) (path b)
    (hop_count b).
Definition set_visibility (x : Z) (b : plank_message_body) : plank_message_body :=
    MkBody (message_type b) (author_user b) (author_display b) (from_addr b) (to_addrs b)
    (area_addr b) (subject b) (body_format b) (body_text b) (body_text_len b) (thread_root_id b)
    (parent_id b) (reply_to b) (attachment_refs b) (retention_class b) x (flags b) (path b)
    (hop_count b).
Definition set_flags (x : Z) (b : plank_message_body) : plank_message_body :=
    MkBody (message_type b) (author_user b) (author_display b) (from_addr b) (to_addrs b)
    (area_addr b) (subject b) (body_format b) (body_text b) (body_text_len b) (thread_root_id b)
    (parent_id b) (reply_to b) (attachment_refs b) (retention_class b) (visibility b) x (path b)
    (hop_count b).
Definition set_path (x : list (option (list Z))) (b : plank_message_body) : plank_message_body :=
    MkBody (message_type b) (author_user b) (author_display b) (from_addr b) (to_addrs b)
    (area_addr b) (subject b) (body_format b) (body_text b) (body_text_len b) (thread_root_id b)
    (parent_id b) (reply_to b) (attachment_refs b) (retention_class b) (visibility b) (flags b)
    x (hop_count b).
Definition set_hop_count (x : Z) (b : plank_message_body) : plank_message_body :=
    MkBody (message_type b) (author_user b) (author_display b) (from_addr b) (to_addrs b)
    (area_addr b) (subject b) (body_format b) (body_text b) (body_text_len b) (thread_root_id b)
    (parent_id b) (reply_to b) (attachment_refs b) (retention_class b) (visibility b) (flags b)
    (path b) x.

(** src/plank/plank_core.c:359-366 (plank_object_new) *)
Definition plank_object_new : plank_object :=
  MkObj 1 0 (zeros PLANK_NODE_ID_SIZE) [] 0 (zeros PLANK_OBJECT_ID_SIZE) PLANK_SIG_ED25519
    (zeros PLANK_SIGNATURE_SIZE) None None.

(** src/plank/plank_core.c:412-421 (plank_message_body_new) *)
Definition plank_message_body_new : plank_message_body :=
  MkBody 1 [] [] [] [] [] [] 1 None 0 (zeros PLANK_OBJECT_ID_SIZE) (zeros PLANK_OBJECT_ID_SIZE)
    [] [] 2 1 0 [] 0.

(** src/plank/plank_crypto.c:372-378 (plank_crypto_memcmp) *)
Definition plank_crypto_memcmp (a b : list Z) (len : Z) : bool :=
  fold_left (λ diff p, Z.lor diff (Z.lxor (fst p) (snd p))) (zip (takeZ len a) (takeZ len b)) 0 =? 0.

(** src/plank/plank_core.c:580-582 (plank_object_id_equal) *)
Definition plank_object_id_equal (a b : list Z) : bool := plank_crypto_memcmp a b PLANK_OBJECT_ID_SIZE.

(** src/plank/plank_core.c:584-589 (plank_object_id_is_zero) *)
Definition plank_object_id_is_zero (id : list Z) : bool :=
  forallb (λ b, b =? 0) (takeZ PLANK_OBJECT_ID_SIZE id).

Section objects.
Context (malloc_ok : Z → bool) (ssl : openssl).

(** A copy of a buffer that holds something; no buffer otherwise. *)
Definition clone_buffer (b : option (list Z)) : option (option (list Z)) :=
  match b with
  | Some (x :: l) => if malloc_ok (zlen (x :: l)) then Some (Some (x :: l)) else None
  | _ => Some None
  end.

(** src/plank/plank_core.c:375-406 (plank_object_clone) *)
Definition plank_object_clone (o : plank_object) : option plank_object :=
  body ← clone_buffer (body_cbor o);
  envelope ← clone_buffer (envelope_cbor o);
  Some (set_envelope_cbor envelope (set_body_cbor body o)).

(** ** Cryptography *)

(** src/plank/plank_crypto.c:170-174 (plank_crypto_sha256) *)
Definition plank_crypto_sha256 (data : list Z) : option (list Z) :=
  h ← EVP_Digest_sha256 ssl data; if zlen h =? PLANK_HASH_SIZE then Some h else None.

(** The seed is the first half of the key. The signature is what OpenSSL writes
    to an array of its size.
    src/plank/plank_crypto.c:109-138 (plank_crypto_sign_ed25519) *)
Definition plank_crypto_sign_ed25519 (message privkey : list Z) : option (list Z) :=
  EVP_DigestSign_ed25519 ssl (takeZ 32 privkey) message.

(** src/plank/plank_crypto.c:140-164 (plank_crypto_verify_ed25519) *)
Definition plank_crypto_verify_ed25519 (message signature pubkey : list Z) : bool :=
  EVP_DigestVerify_ed25519 ssl (takeZ 32 pubkey) (takeZ PLANK_SIGNATURE_SIZE signature) message.

(** ** Encoding *)

(** [cbor_encoder_init(&tmp, buf, sizeof(buf))], some encoding, and
    [cbor_map_builder_add(&mb, key, buf, tmp.len)], whose result is not looked at. *)
Definition add_field (cap : Z) (k : cstr) (write : encoder → option encoder) (mb : map_builder)
  : option map_builder :=
  e ← write (cbor_encoder_init false cap);
  Some (fst (cbor_map_builder_add malloc_ok mb k (e_data e) (e_len e))).

Definition add_if (b : bool) (cap : Z) (k : cstr) (write : encoder → option encoder)
    (mb : map_builder) : option map_builder :=
  if b then add_field cap k write mb else Some mb.

Definition put_uint (v : Z) (e : encoder) : option encoder := cbor_encode_uint malloc_ok e v.
Definition put_text (s : cstr) (e : encoder) : option encoder := cbor_encode_text malloc_ok e (Some s).
Definition put_bytes (b : list Z) (n : Z) (e : encoder) : option encoder :=
  cbor_encode_bytes malloc_ok e (Some b) n.

Fixpoint put_each {A} (put : A → encoder → option encoder) (l : list A) (e : encoder)
  : option encoder :=
  match l with [] => Some e | x :: l => e ← put x e; put_each put l e end.

(** An array of its count and its elements. *)
Definition put_array {A} (put : A → encoder → option encoder) (l : list A) (e : encoder)
  : option encoder :=
  e ← cbor_encode_array malloc_ok e (zlen l); put_each put l e.

Definition put_address (a : option cstr) (e : encoder) : option encoder := cbor_encode_text malloc_ok e a.
Definition put_id (n : Z) (id : option (list Z)) (e : encoder) : option encoder :=
  cbor_encode_bytes malloc_ok e id n.

Definition is_empty (s : cstr) : bool := match s with [] => true | _ => false end.

(** The fields of a message.
    src/plank/plank_object.c:23-130 (encode_message_body) *)
Definition body_fields (b : plank_message_body) : option map_builder :=
  let field := add_field 8192 in
  let field_if c := add_if c 8192 in
  mb ← field (lit "message_type") (put_uint (message_type b)) cbor_map_builder_init;
  mb ← field (lit "author_user") (put_text (author_user b)) mb;
  mb ← field_if (negb (is_empty (author_display b))) (lit "author_display")
         (put_text (author_display b)) mb;
  mb ← field (lit "from_addr") (put_text (from_addr b)) mb;
  mb ← field (lit "to_addrs") (put_array put_address (to_addrs b)) mb;
  mb ← field_if ((message_type b =? PLANK_MSG_AREA_POST) && negb (is_empty (area_addr b)))
         (lit "area_addr") (put_text (area_addr b)) mb;
  mb ← field (lit "subject") (put_text (subject b)) mb;
  mb ← field (lit "body_format") (put_uint (body_format b)) mb;
  mb ← field (lit "body_text")
         (λ e, cbor_encode_text_len malloc_ok e (body_text b) (body_text_len b)) mb;
  mb ← field_if (negb (plank_object_id_is_zero (thread_root_id b))) (lit "thread_root_id")
         (put_bytes (thread_root_id b) PLANK_OBJECT_ID_SIZE) mb;
  mb ← field_if (negb (plank_object_id_is_zero (parent_id b))) (lit "parent_id")
         (put_bytes (parent_id b) PLANK_OBJECT_ID_SIZE) mb;
  mb ← field_if (negb (is_empty (reply_to b))) (lit "reply_to") (put_text (reply_to b)) mb;
  mb ← field (lit "attachment_refs")
         (put_array (put_id PLANK_ATTACHMENT_ID_SIZE) (attachment_refs b)) mb;
  mb ← field (lit "retention_class") (put_uint (retention_class b)) mb;
  mb ← field (lit "visibility") (put_uint (visibility b)) mb;
  mb ← field (lit "flags") (put_uint (flags b)) mb;
  mb ← field (lit "path") (put_array (put_id PLANK_NODE_ID_SIZE) (path b)) mb;
  field (lit "hop_count") (put_uint (hop_count b)) mb.

(** src/plank/plank_object.c:15-137 (encode_message_body) *)
Definition encode_message_body (enc : encoder) (b : plank_message_body) : option encoder :=
  mb ← body_fields b;
  '(_, enc) ← cbor_map_builder_encode malloc_ok mb enc;
  Some enc.

(** The fields that both envelopes have.
    src/plank/plank_object.c:144-186 (encode_envelope_without_sig) *)
Definition envelope_fields (o : plank_object) : option map_builder :=
  let field := add_field 256 in
  mb ← field (lit "version") (put_uint (version o)) cbor_map_builder_init;
  mb ← field (lit "class") (put_uint (object_class o)) mb;
  mb ← field (lit "origin_node_id") (put_bytes (origin_node_id o) PLANK_NODE_ID_SIZE) mb;
  mb ← field (lit "origin_node_addr") (put_text (origin_node_addr o)) mb;
  mb ← field (lit "created_at") (put_uint (created_at o)) mb;
  mb ← field (lit "object_id") (put_bytes (object_id o) PLANK_OBJECT_ID_SIZE) mb;
  let body := default [] (body_cbor o) in
  let mb := fst (cbor_map_builder_add malloc_ok mb (lit "body") body (zlen body)) in
  field (lit "sig_alg") (put_uint (sig_alg o)) mb.

(** src/plank/plank_object.c:143-193 (encode_envelope_without_sig) *)
Definition encode_envelope_without_sig (enc : encoder) (o : plank_object) : option encoder :=
  mb ← envelope_fields o;
  '(_, enc) ← cbor_map_builder_encode malloc_ok mb enc;
  Some enc.

(** src/plank/plank_object.c:195-250 (encode_envelope_with_sig) *)
Definition encode_envelope_with_sig (enc : encoder) (o : plank_object) : option encoder :=
  mb ← envelope_fields o;
  mb ← add_field 256 (lit "signature") (put_bytes (signature o) PLANK_SIGNATURE_SIZE) mb;
  '(_, enc) ← cbor_map_builder_encode malloc_ok mb enc;
  Some enc.

(** The bytes of [encode] in a new dynamic buffer; [Some None] when it fails. *)
Definition encoded (cap : Z) (encode : encoder → option encoder) : option (option (list Z)) :=
  e ← encode (cbor_encoder_init_dynamic malloc_ok cap);
  Some (if cbor_encoder_ok e then Some (e_data e) else None).

Definition has_body (o : plank_object) : bool :=
  match body_cbor o with Some _ => true | None => false end.

(** The object and the returned flag.
    src/plank/plank_object.c:256-281 (plank_object_encode) *)
Definition plank_object_encode (o : plank_object) : option (plank_object * bool) :=
  if negb (has_body o) then Some (o, false)
  else
    r ← encoded 4096 (λ e, encode_envelope_with_sig e (set_envelope_cbor None o));
    Some (set_envelope_cbor r o, match r with Some _ => true | None => false end).

(** src/plank/plank_object.c:287-319 (plank_object_compute_id) *)
Definition plank_object_compute_id (o : plank_object) : option (plank_object * bool) :=
  if negb (has_body o) then Some (o, false)
  else
    r ← encoded 4096 (λ e, encode_envelope_without_sig e (set_object_id (zeros PLANK_OBJECT_ID_SIZE) o));
    Some match r ≫= plank_crypto_sha256 with
      | Some h => (set_object_id h o, true)
      | None => (o, false)
      end.

(** src/plank/plank_object.c:325-357 (plank_object_sign) *)
Definition plank_object_sign (o : plank_object) (privkey : list Z) : option (plank_object * bool) :=
  if negb (has_body o) then Some (o, false)
  else
    '(o, ok) ← plank_object_compute_id o;
    if negb ok then Some (o, false)
    else
      r ← encoded 4096 (λ e, encode_envelope_without_sig e o);
      match r ≫= (λ m, plank_crypto_sign_ed25519 m privkey) with
      | Some s => plank_object_encode (set_signature s o)
      | None => Some (o, false)
      end.

(** src/plank/plank_object.c:363-399 (plank_object_verify) *)
Definition plank_object_verify (o : plank_object) (pubkey : list Z) : option bool :=
  if negb (has_body o) then Some false
  else
    match plank_object_clone o with
    | None => Some false
    | Some tmp =>
        r ← encoded 4096 (λ e, encode_envelope_without_sig e tmp);
        Some match r with
          | Some m => plank_crypto_verify_ed25519 m (signature o) pubkey
          | None => false
          end
    end.

(** src/plank/plank_object.c:401-425 (plank_object_verify_id) *)
Definition plank_object_verify_id (o : plank_object) : option bool :=
  if negb (has_body o) then Some false
  else
    match plank_object_clone o with
    | None => Some false
    | Some tmp =>
        '(tmp, ok) ← plank_object_compute_id tmp;
        Some (ok && plank_object_id_equal (object_id o) (object_id tmp))
    end.

(** [Some None] is a null result. The clock is [now].
    src/plank/plank_object.c:431-474 (plank_object_create_message) *)
Definition plank_object_create_message (now : Z) (node_id : list Z) (node_addr : cstr)
    (body : plank_message_body) (privkey : list Z) : option (option plank_object) :=
  let o := set_created_at (u64 now)
    (set_origin_node_addr (takeZ (PLANK_MAX_ADDRESS - 1) node_addr)
      (set_origin_node_id (takeZ PLANK_NODE_ID_SIZE node_id)
        (set_object_class PLANK_CLASS_MESSAGE plank_object_new))) in
  r ← encoded 8192 (λ e, encode_message_body e body);
  match r with
  | None => Some None
  | Some b =>
      '(o, ok) ← plank_object_sign (set_body_cbor (Some b) o) privkey;
      Some (if ok : bool then Some o else None)
  end.

(** ** Decoding *)

(** The key at [off] of [len] bytes is [k]: a test of the length and [memcmp]. *)
Definition key_is (k : cstr) (off len : Z) (d : decoder) : bool :=
  (len =? zlen k) && bool_decide (slice off (zlen k) (d_buf d) = k).

(** An identifier: the field keeps its value unless the size is right. *)
Definition decode_id (size : Z) (old : list Z) (d : decoder) : list Z * decoder :=
  match cbor_decode_bytes d with
  | (Some (off, len), d) => (if len =? size then slice off len (d_buf d) else old, d)
  | (None, d) => (old, d)
  end.

(** [cbor_decode_text_copy] to a character array of [cap] bytes. *)
Definition decode_string (cap : Z) (old : cstr) (d : decoder) : cstr * decoder :=
  match cbor_decode_text_copy d cap with
  | (Some s, d) => (c_string s, d)
  | (None, d) => (old, d)
  end.

(** [cbor_decode_uint] of a type of [w] bits. *)
Definition decode_number (w : Z) (d : decoder) : Z * decoder :=
  let '(v, d) := cbor_decode_uint d in (wrap w v, d).

(** A field of an object read by [read] and stored by [set]. *)
Definition store_field {A T} (set : A → T → T) (r : A * decoder) (o : T) : option (T * decoder) :=
  let '(x, d) := r in Some (set x o, d).

(** The value of the key, for an object.
    src/plank/plank_object.c:517-559 (plank_object_decode) *)
Definition decode_object_field (fuel : nat) (off len : Z) (d : decoder) (o : plank_object)
  : option (plank_object * decoder) :=
  if key_is (lit "version") off len d then store_field set_version (decode_number 16 d) o
  else if key_is (lit "class") off len d then store_field set_object_class (decode_number 32 d) o
  else if key_is (lit "origin_node_id") off len d then
    store_field set_origin_node_id (decode_id PLANK_NODE_ID_SIZE (origin_node_id o) d) o
  else if key_is (lit "origin_node_addr") off len d then
    store_field set_origin_node_addr (decode_string PLANK_MAX_ADDRESS (origin_node_addr o) d) o
  else if key_is (lit "created_at") off len d then
    store_field set_created_at (decode_number 64 d) o
  else if key_is (lit "object_id") off len d then
    store_field set_object_id (decode_id PLANK_OBJECT_ID_SIZE (object_id o) d) o
  else if key_is (lit "body") off len d then
    let body_start := d_pos d in
    d ← cbor_skip fuel d;
    let n := u64 (d_pos d - body_start) in
    if negb (malloc_ok n) then Some (set_body_cbor None o, d)
    else if d_len d <? body_start + n then None
    else Some (set_body_cbor (Some (slice body_start n (d_buf d))) o, d)
  else if key_is (lit "sig_alg") off len d then store_field set_sig_alg (decode_number 32 d) o
  else if key_is (lit "signature") off len d then
    store_field set_signature (decode_id PLANK_SIGNATURE_SIZE (signature o) d) o
  else d ← cbor_skip fuel d; Some (o, d).

Section entries.
Context {T : Type} (field : nat → Z → Z → decoder → T → option (T * decoder)).

(** The loop over the entries of a map.
    src/plank/plank_object.c:512-560 (plank_object_decode) *)
Fixpoint decode_entries (fuel : nat) (count : Z) (d : decoder) (o : T) : option (T * decoder) :=
  match fuel with
  | O => None
  | S fuel =>
      if (0 <? count) && cbor_decoder_ok d then
        match cbor_decode_text d with
        | (None, d) => Some (o, d)
        | (Some (off, len), d) =>
            '(o, d) ← field fuel off len d o;
            decode_entries fuel (count - 1) d o
        end
      else Some (o, d)
  end.
End entries.

(** [Some None] is a null result.
    src/plank/plank_object.c:480-569 (plank_object_decode) *)
Definition plank_object_decode (fuel : nat) (cbor : list Z) : option (option plank_object) :=
  if zlen cbor =? 0 then Some None
  else
    let '(map_count, d) := cbor_decode_map (cbor_decoder_init cbor) in
    if negb (cbor_decoder_ok d) then Some None
    else if negb (malloc_ok (zlen cbor)) then Some None
    else
      '(o, d) ← decode_entries decode_object_field fuel map_count d
                  (set_envelope_cbor (Some cbor) plank_object_new);
      Some (if cbor_decoder_ok d then Some o else None).

(** The elements of an array, up to an error: after one the object is not
    returned. *)
Fixpoint decode_elements {A} (element : decoder → option (A * decoder)) (fuel : nat) (count : Z)
    (d : decoder) : option (list A * decoder) :=
  match fuel with
  | O => None
  | S fuel =>
      if (0 <? count) && cbor_decoder_ok d then
        '(x, d) ← element d;
        '(l, d) ← decode_elements element fuel (count - 1) d;
        Some (x :: l, d)
      else Some ([], d)
  end.

(** [strndup] of the text at [off]: [Some None] when the copy is not allocated.
    The text stops at a zero, and without one must lie inside the buffer. *)
Definition strndup (off len : Z) (d : decoder) : option (option cstr) :=
  let s := slice off len (d_buf d) in
  if (zlen s <? len) && negb (existsb (Z.eqb 0) s) then None
  else Some (if malloc_ok (zlen (c_string s) + 1) then Some (c_string s) else None).

(** src/plank/plank_object.c:615-619 (plank_object_decode_message_body) *)
Definition decode_address (d : decoder) : option (option cstr * decoder) :=
  match cbor_decode_text d with
  | (Some (off, len), d) => r ← strndup off len d; Some (r, d)
  | (None, d) => Some (None, d)
  end.

(** src/plank/plank_object.c:663-670 (plank_object_decode_message_body) *)
Definition decode_path_node (d : decoder) : option (option (list Z) * decoder) :=
  match cbor_decode_bytes d with
  | (Some (off, len), d) =>
      Some (if len =? PLANK_NODE_ID_SIZE then Some (slice off len (d_buf d)) else None, d)
  | (None, d) => Some (None, d)
  end.

(** An array into a new array of pointers. An array that is not allocated takes
    the place of the old one but not of its count, so the message cannot even be
    freed when there were elements.
    src/plank/plank_object.c:610-623 (plank_object_decode_message_body) *)
Definition decode_pointers {A} (element : decoder → option (A * decoder)) (fuel : nat)
    (old : list A) (d : decoder) : option (list A * decoder) :=
  let '(n, d) := cbor_decode_array d in
  if negb (0 <? n) then Some (old, d)
  else if malloc_ok (n * 8) then decode_elements element fuel n d
  else match old with [] => Some ([], d) | _ :: _ => None end.

(** The value of the key, for a message.
    src/plank/plank_object.c:601-677 (plank_object_decode_message_body) *)
Definition decode_message_field (fuel : nat) (off len : Z) (d : decoder) (b : plank_message_body)
  : option (plank_message_body * decoder) :=
  if key_is (lit "message_type") off len d then store_field set_message_type (decode_number 32 d) b
  else if key_is (lit "author_user") off len d then
    store_field set_author_user (decode_string PLANK_MAX_USER_NAME (author_user b) d) b
  else if key_is (lit "author_display") off len d then
    store_field set_author_display (decode_string PLANK_MAX_USER_NAME (author_display b) d) b
  else if key_is (lit "from_addr") off len d then
    store_field set_from_addr (decode_string PLANK_MAX_ADDRESS (from_addr b) d) b
  else if key_is (lit "to_addrs") off len d then
    r ← decode_pointers decode_address fuel (to_addrs b) d; store_field set_to_addrs r b
  else if key_is (lit "area_addr") off len d then
    store_field set_area_addr (decode_string PLANK_MAX_ADDRESS (area_addr b) d) b
  else if key_is (lit "subject") off len d then
    store_field set_subject (decode_string PLANK_MAX_SUBJECT (subject b) d) b
  else if key_is (lit "body_format") off len d then
    store_field set_body_format (decode_number 32 d) b
  else if key_is (lit "body_text") off len d then
    match cbor_decode_text d with
    | (Some (o, n), d) =>
        r ← strndup o n d;
        Some (set_body_text_len n (set_body_text ((λ s, s ++ [0]) <$> r) b), d)
    | (None, d) => Some (b, d)
    end
  else if key_is (lit "thread_root_id") off len d then
    store_field set_thread_root_id (decode_id PLANK_OBJECT_ID_SIZE (thread_root_id b) d) b
  else if key_is (lit "parent_id") off len d then
    store_field set_parent_id (decode_id PLANK_OBJECT_ID_SIZE (parent_id b) d) b
  else if key_is (lit "retention_class") off len d then
    store_field set_retention_class (decode_number 32 d) b
  else if key_is (lit "visibility") off len d then
    store_field set_visibility (decode_number 32 d) b
  else if key_is (lit "flags") off len d then store_field set_flags (decode_number 32 d) b
  else if key_is (lit "hop_count") off len d then store_field set_hop_count (decode_number 32 d) b
  else if key_is (lit "path") off len d then
    r ← decode_pointers decode_path_node fuel (path b) d; store_field set_path r b
  else d ← cbor_skip fuel d; Some (b, d).

(** src/plank/plank_object.c:575-687 (plank_object_decode_message_body) *)
Definition plank_object_decode_message_body (fuel : nat) (o : plank_object)
  : option (option plank_message_body) :=
  match body_cbor o with
  | None => Some None
  | Some body =>
      if negb (object_class o =? PLANK_CLASS_MESSAGE) then Some None
      else
        let '(map_count, d) := cbor_decode_map (cbor_decoder_init body) in
        if negb (cbor_decoder_ok d) then Some None
        else
          '(b, d) ← decode_entries decode_message_field fuel map_count d plank_message_body_new;
          Some (if cbor_decoder_ok d then Some b else None)
  end.
End objects.

(** The error text, for an object that is not valid.
    src/plank/plank_object.c:693-731 (plank_object_validate) *)
Definition plank_object_validate (o : plank_object) : cstr + unit :=
  if negb (version o =? 1) then inl (lit "Unsupported version: " ++ fmt_d (version o))
  else if (object_class o <? 1) || (11 <? object_class o) then
    inl (lit "Invalid object class: " ++ fmt_d (s32 (object_class o)))
  else if is_empty (origin_node_addr o) then inl (lit "Missing origin node address")
  else if created_at o =? 0 then inl (lit "Missing creation timestamp")
  else if match body_cbor o with Some (_ :: _) => false | _ => true end then inl (lit "Missing body")
  else if negb (sig_alg o =? PLANK_SIG_ED25519) then inl (lit "Unsupported signature algorithm")
  else inr tt.
