(* ===== verification/PlankWire.v ===== *)
(** How the fields of a PLANK map are written and read: what the temporary
    buffer of a field holds ([Writes]), what a chain of [add_field]s collects
    ([Builds]), and what the decoding loop makes of the entries of a map when
    every entry is understood by its field decoder ([Reads]). *)

From S2P Require Import Prelude CLib Cbor CborEncode CborDecode CborSpec PlankObject.
From stdpp Require Import sorting.
#[local] Open Scope Z_scope.

Import Encoder MapBuilder.

(** An entry that is written when [c] holds. *)
Definition opt {A} (c : bool) (x : A) : list A := if c then [x] else [].

(** The allocations of the objects below: up to 64 KiB. *)
Definition small_ok (malloc_ok : Z → bool) : Prop := ∀ n, 0 <= n <= 65536 → malloc_ok n = true.

(** A list is no longer than the concatenation of nonempty pieces. *)
Lemma zlen_concat_ge {A} (f : A → list Z) l :
  (∀ x, 1 <= zlen (f x)) → zlen l <= zlen (concat (f <$> l)).
Proof.
  intros Hf. induction l as [|x l IH]; [done |].
  rewrite concat_fmap_cons, zlen_app, zlen_cons. specialize (Hf x). lia.
Qed.

(** ** Writing *)

Section write.
Context (malloc_ok : Z → bool) (malloc_small : small_ok malloc_ok).

(** [f] appends the entries [xs] to a builder of up to a hundred entries. *)
Definition Builds (f : map_builder → option map_builder) (xs : list map_entry) : Prop :=
  ∀ mb, 0 <= mb_cap mb → zlen (entries mb) + zlen xs <= 100 →
    ∃ mb', f mb = Some mb' ∧ 0 <= mb_cap mb' ∧ entries mb' = entries mb ++ xs.

Lemma map_builder_add_small mb k v :
  0 <= mb_cap mb → zlen (entries mb) < 100 → zlen v <= 65536 →
  ∃ mb', cbor_map_builder_add malloc_ok mb k v (zlen v) = (mb', true) ∧
    0 <= mb_cap mb' ∧ entries mb' = entries mb ++ [MkEntry k v].
Proof using malloc_small.
  intros Hcap Hn Hv. unfold cbor_map_builder_add, sizeof_map_entry.
  pose proof (takeZ_all _ v eq_refl) as Htake.
  pose proof (zlen_nonneg v). pose proof (zlen_nonneg (entries mb)).
  destruct (Z.leb_spec (mb_cap mb) (zlen (entries mb))).
  - destruct (Z.eqb_spec (mb_cap mb) 0);
      rewrite !malloc_small, Htake by lia; eexists; (split; [done |]); split; simpl; (done || lia).
  - rewrite malloc_small, Htake by lia. by eexists.
Qed.

Lemma builds_field cap k write bs :
  Writes write bs → zlen bs <= cap → cap <= 65536 →
  Builds (add_field malloc_ok cap k write) [MkEntry k bs].
Proof using malloc_small.
  intros Hw Hbs Hcap mb Hmb Hlen. unfold add_field. pose proof (zlen_nonneg bs).
  destruct (Hw (cbor_encoder_init false cap)) as (e & -> & HE).
  { split; [done |]. unfold e_len. simpl. rewrite zlen_nil. zlia. }
  rewrite (emits_fit _ _ _ HE) by done. simpl. rewrite zlen_cons, zlen_nil in Hlen.
  destruct (map_builder_add_small mb k bs) as (mb' & E & Hc & He); [done | lia | lia |].
  unfold e_len. simpl. rewrite E. by exists mb'.
Qed.

(** A field that does not fit keeps what fits of it, in whole items. *)
Lemma builds_field_if c cap k write bs :
  (c = true → Writes write bs ∧ zlen bs <= cap) → cap <= 65536 →
  Builds (add_if malloc_ok c cap k write) (opt c (MkEntry k bs)).
Proof using malloc_small.
  intros Hw Hcap. destruct c; simpl.
  - destruct (Hw eq_refl). by apply builds_field.
  - intros mb Hmb Hlen. exists mb. by rewrite app_nil_r.
Qed.

Lemma builds_bind f g xs ys :
  Builds f xs → Builds g ys → Builds (λ mb, f mb ≫= g) (xs ++ ys).
Proof.
  intros Hf Hg mb Hmb Hlen. rewrite zlen_app in Hlen. pose proof (zlen_nonneg ys).
  destruct (Hf mb) as (mb1 & -> & H1 & E1); [done | lia |].
  destruct (Hg mb1) as (mb2 & E & H2 & E2); [done | rewrite E1, zlen_app; lia |].
  exists mb2. simpl. split; [done |]. split; [done |]. by rewrite E2, E1, app_assoc.
Qed.

Lemma builds_raw g k v ys :
  zlen v <= 65536 → Builds g ys →
  Builds (λ mb, g (fst (cbor_map_builder_add malloc_ok mb k v (zlen v)))) ([MkEntry k v] ++ ys).
Proof using malloc_small.
  intros Hv Hg mb Hmb Hlen. rewrite zlen_app in Hlen. pose proof (zlen_nonneg ys).
  rewrite zlen_cons, zlen_nil in Hlen.
  destruct (map_builder_add_small mb k v) as (mb1 & -> & H1 & E1); [done | lia | done |].
  destruct (Hg mb1) as (mb2 & E & H2 & E2); [done | rewrite E1; zl |].
  exists mb2. cbn [fst]. by rewrite E2, E1, <- app_assoc.
Qed.

Lemma builds_apply f xs :
  Builds f xs → zlen xs <= 100 →
  ∃ mb, f cbor_map_builder_init = Some mb ∧ 0 <= mb_cap mb ∧ entries mb = xs.
Proof. intros Hf Hlen. by apply (Hf cbor_map_builder_init). Qed.

Lemma put_uint_writes v : in_u 64 v → Writes (put_uint malloc_ok v) (head_bytes 0 v).
Proof. intros Hv. by apply (run_call_writes malloc_ok (CallUint v)). Qed.

Lemma put_text_writes s :
  zlen s < 2 ^ 62 → Writes (put_text malloc_ok s) (head_bytes 3 (zlen s) ++ s).
Proof. intros Hs. by apply (run_call_writes malloc_ok (CallText s)). Qed.

Lemma put_bytes_writes b n :
  zlen b = n → n < 2 ^ 62 → Writes (put_bytes malloc_ok b n) (head_bytes 2 n ++ b).
Proof. intros <- Hs. by apply (run_call_writes malloc_ok (CallBytes b)). Qed.

Lemma put_each_writes {A} (put : A → encoder → option encoder) (f : A → list Z) l :
  Forall (λ x, Writes (put x) (f x)) l → Writes (put_each put l) (concat (f <$> l)).
Proof.
  induction 1 as [|x l Hx _ IH]; [apply writes_ret |]. by apply (writes_bind (put x)).
Qed.

Lemma put_array_writes {A} (put : A → encoder → option encoder) (f : A → list Z) l :
  zlen l < 2 ^ 62 → Forall (λ x, Writes (put x) (f x)) l →
  Writes (put_array malloc_ok put l) (head_bytes 4 (zlen l) ++ concat (f <$> l)).
Proof.
  intros Hl Hf. apply (writes_bind (run_call malloc_ok (CallArray (zlen l)))).
  - apply run_call_writes. simpl. zl.
  - by apply put_each_writes.
Qed.

(** An array of pointers that are not null. *)
Lemma put_pointers_writes (put : option (list Z) → encoder → option encoder) (mk : list Z → item) l :
  Forall (λ x, Writes (put (Some x)) (enc_item (mk x))) l →
  (∀ x, 1 <= zlen (enc_item (mk x))) → zlen (enc_item (IArray (mk <$> l))) < 2 ^ 62 →
  Writes (put_array malloc_ok put (Some <$> l)) (enc_item (IArray (mk <$> l))).
Proof.
  intros Hl Hmk Hlen. cbn [enc_item] in *. rewrite zlen_map, <- list_fmap_compose in *.
  pose proof (zlen_concat_ge (enc_item ∘ mk) l Hmk).
  replace (concat (enc_item ∘ mk <$> l)) with
    (concat ((λ o, enc_item (mk (default [] o))) <$> (Some <$> l)))
    by (by rewrite <- list_fmap_compose).
  rewrite <- (zlen_map Some l). apply put_array_writes.
  - rewrite zlen_map. rewrite zlen_app in Hlen. pose proof (head_len 4 (zlen l)). lia.
  - by apply Forall_fmap.
Qed.

(** The builder with its entries in a dynamic buffer of [cap] bytes. *)
Lemma encoded_map encode mb cap l :
  64 <= cap <= 65536 → (∀ e, encode e = '(_, e) ← cbor_map_builder_encode malloc_ok mb e; Some e) →
  canonical (entries mb) = l → Forall entry_ok l → zlen (entries mb) <= 100 →
  encoded malloc_ok cap encode = Some (if zlen (map_bytes l) <=? cap then Some (map_bytes l) else None).
Proof using malloc_small.
  intros Hcap He Hl Hok Hlen. unfold encoded. rewrite He.
  unfold cbor_encoder_init_dynamic. destruct (Z.ltb_spec cap 64); [lia |].
  rewrite malloc_small by lia. simpl negb.
  assert (Hperm : l ≡ₚ entries mb) by (rewrite <- Hl; apply merge_sort_Permutation).
  destruct (map_builder_encode_spec malloc_ok mb (MkEnc false cap [] false)) as (e' & -> & HE).
  { by rewrite <- Hperm. } { zlia. }
  { split; [done |]. unfold e_len. simpl. rewrite zlen_nil. zlia. }
  simpl. rewrite Hl in HE. unfold cbor_encoder_ok.
  destruct (Z.leb_spec (zlen (map_bytes l)) cap).
  - by rewrite (emits_fit _ _ _ HE).
  - destruct (emits_full _ _ _ HE) as [-> _]; done.
Qed.
End write.

Lemma head_len_16 m arg : arg <= 65535 → zlen (head_bytes m arg) <= 3.
Proof.
  intros Ha. unfold head_bytes. repeat case_match; try lia;
    rewrite zlen_cons; unfold zlen; rewrite ?be_bytes_length; simpl; lia.
Qed.

(** A bound on every head in sight. *)
Ltac heads :=
  repeat match goal with
  | |- context [zlen (head_bytes ?m ?a)] =>
      lazymatch goal with
      | _ : 1 <= zlen (head_bytes m a) <= 9 |- _ => fail
      | _ => pose proof (head_len m a)
      end
  end.

Ltac sizes :=
  unfold PLANK_NODE_ID_SIZE, PLANK_OBJECT_ID_SIZE, PLANK_ATTACHMENT_ID_SIZE, PLANK_SIGNATURE_SIZE,
    PLANK_HASH_SIZE, PLANK_MAX_ADDRESS, PLANK_MAX_USER_NAME, PLANK_MAX_SUBJECT in *.

(** A chain of fields from the empty builder with the entries [xs]; the fields
    of a chain one by one: what is left are the fields of
    another kind and the bounds. *)
Tactic Notation "builds_start" open_constr(xs) :=
  match goal with
  | |- ∃ mb, ?t = Some mb ∧ _ =>
      let f := eval pattern cbor_map_builder_init in t in
      match f with ?g _ => apply (builds_apply g xs) end
  end.

Ltac builds H :=
  repeat (apply builds_bind);
  try (first
    [ apply (builds_field_if _ H); [intros _; split |]
    | apply (builds_field _ H)]; [
    first [apply put_uint_writes | apply put_text_writes | apply put_bytes_writes | idtac] | |]).

(** ** Reading *)

Section read.
Context {T : Type} (field : nat → Z → Z → decoder → T → option (T * decoder)).

(** The field decoder, called with the key [key x] anywhere before the value
    of [x], consumes the value and updates the object by [upd]. *)
Definition Reads (x : map_entry) (upd : T → T) : Prop :=
  ∀ fuel off pre rest o,
    slice off (zlen (key x)) (pre ++ encoded_value x ++ rest) = key x →
    zlen (pre ++ encoded_value x ++ rest) < 2 ^ 63 → (2 * length (encoded_value x) < fuel)%nat →
    field fuel off (zlen (key x)) (cur pre (encoded_value x ++ rest)) o =
      Some (upd o, cur (pre ++ encoded_value x) rest).

Definition updates (fs : list (map_entry * (T → T))) (o : T) : T := foldl (λ o f, f.2 o) o fs.

Lemma decode_entries_reads fs :
  Forall (λ f, Reads f.1 f.2) fs → ∀ fuel pre rest o,
  let bytes := concat (pair_bytes <$> fs.*1) in
  zlen (pre ++ bytes ++ rest) < 2 ^ 63 → (2 * length bytes + 1 < fuel)%nat →
  decode_entries field fuel (zlen fs) (cur pre (bytes ++ rest)) o =
    Some (updates fs o, cur (pre ++ bytes) rest).
Proof.
  induction 1 as [|[x upd] fs Hx _ IH]; intros [|fuel] pre rest o bytes Hsize Hfuel; try lia.
  { simpl. by rewrite app_nil_r. }
  unfold bytes in *. clear bytes. rewrite !fmap_cons in *. cbn [concat fst] in *.
  set (B := concat (pair_bytes <$> fs.*1)) in *.
  pose proof (head_length 3 (zlen (key x))). set (hd := head_bytes 3 (zlen (key x))) in *.
  assert (E : pair_bytes x = hd ++ key x ++ encoded_value x) by done.
  rewrite E, <- !app_assoc in *. rewrite !length_app in Hfuel.
  cbn [decode_entries]. destruct (Z.ltb_spec 0 (zlen ((x, upd) :: fs))); [| zl]. cbn [andb].
  unfold cbor_decoder_ok. cbn [cur d_error negb].
  unfold cbor_decode_text, hd. rewrite (decode_block_head pre _ CBOR_TYPE_TEXT) by done. fold hd.
  cbn [cbor_type_code]. fold hd. rewrite Hx; cycle 1.
  { rewrite <- !app_assoc. apply payload_slice. }
  { by rewrite <- !app_assoc. } { lia. }
  cbn [mbind option_bind]. replace (zlen ((x, upd) :: fs) - 1) with (zlen fs) by zl.
  rewrite <- !app_assoc. rewrite (app_assoc pre), (app_assoc (pre ++ hd)), (app_assoc _ (encoded_value x)).
  rewrite IH; [by rewrite <- !app_assoc | by rewrite <- !app_assoc | lia].
Qed.

(** A decoder over a whole map: the entries are read from its head on. *)
Lemma decode_map_reads fs fuel :
  Forall (λ f, Reads f.1 f.2) fs → ∀ o,
  zlen (map_bytes fs.*1) < 2 ^ 60 → (2 * length (map_bytes fs.*1) + 1 < fuel)%nat →
  ∃ d, cbor_decode_map (cbor_decoder_init (map_bytes fs.*1)) = (zlen fs, d) ∧ d_error d = false ∧
    decode_entries field fuel (zlen fs) d o = Some (updates fs o, cur (map_bytes fs.*1) []).
Proof.
  intros Hfs o Hsize Hfuel. unfold map_bytes in *. rewrite zlen_map in *.
  set (hd := head_bytes 5 (zlen fs)) in *. set (B := concat _) in *.
  assert (Hn : zlen fs < 2 ^ 62).
  { assert (zlen fs <= zlen B); [| rewrite zlen_app in *; pose proof (zlen_nonneg hd); zlia].
    unfold B. rewrite <- (zlen_map fst fs). apply zlen_concat_ge. intros x. unfold pair_bytes.
    pose proof (head_len 3 (zlen (key x))). zl. }
  rewrite cur_init. exists (cur hd B). split; [| split; [done |]].
  - unfold cbor_decode_map. change hd with (head_bytes (cbor_type_code CBOR_TYPE_MAP) (zlen fs)).
    rewrite (decode_count_head [] B CBOR_TYPE_MAP) by zl. done.
  - rewrite length_app in Hfuel. rewrite <- (app_nil_r B) at 1.
    rewrite (decode_entries_reads fs Hfs fuel hd []); [done | |].
    + rewrite app_nil_r. fold B. zlia.
    + fold B. lia.
Qed.
End read.

(** ** The readers of single values *)

Section readers.
Context (malloc_ok : Z → bool) {T : Type}.

Lemma key_is_spec k k' off d :
  slice off (zlen k') (d_buf d) = k' → key_is k off (zlen k') d = bool_decide (k = k').
Proof.
  intros Hk. unfold key_is. destruct (Z.eqb_spec (zlen k') (zlen k)) as [E | Hne]; cbn [andb].
  - rewrite <- E, Hk. apply bool_decide_ext. by split.
  - symmetry. apply bool_decide_eq_false. by intros ->.
Qed.

Lemma store_number (set : Z → T → T) w v o pre rest :
  0 <= w <= 64 → in_u w v →
  store_field set (decode_number w (cur pre (head_bytes 0 v ++ rest))) o =
    Some (set v o, cur (pre ++ head_bytes 0 v) rest).
Proof.
  intros Hw Hv. unfold store_field, decode_number. rewrite decode_uint_head, wrap_small; [done | done |].
  unfold in_u in *. pose proof (Z.pow_le_mono_r 2 w 64). lia.
Qed.

Lemma decode_id_head size old b pre rest :
  zlen b = size → zlen (pre ++ (head_bytes 2 size ++ b) ++ rest) < 2 ^ 63 →
  decode_id size old (cur pre ((head_bytes 2 size ++ b) ++ rest)) =
    (b, cur (pre ++ head_bytes 2 size ++ b) rest).
Proof.
  intros <- Hsize. rewrite <- app_assoc in *. unfold decode_id, cbor_decode_bytes.
  rewrite (decode_block_head pre rest CBOR_TYPE_BYTES) by done. rewrite Z.eqb_refl. cbn [cur d_buf].
  rewrite <- !app_assoc. by rewrite payload_slice.
Qed.

Lemma decode_string_head cap old s pre rest :
  zlen s < cap → Forall (λ c, c ≠ 0) s →
  zlen (pre ++ (head_bytes 3 (zlen s) ++ s) ++ rest) < 2 ^ 63 →
  decode_string cap old (cur pre ((head_bytes 3 (zlen s) ++ s) ++ rest)) =
    (s, cur (pre ++ head_bytes 3 (zlen s) ++ s) rest).
Proof.
  intros Hcap Hs Hsize. rewrite <- app_assoc in *.
  unfold decode_string, cbor_decode_text_copy, cbor_decode_text.
  rewrite (decode_block_head pre rest CBOR_TYPE_TEXT) by done.
  destruct (Z.leb_spec cap (zlen s)); [lia |]. cbn [cur d_buf].
  rewrite <- !app_assoc. by rewrite payload_slice, c_string_no_nul.
Qed.
End readers.

(** Decide which key a field decoder is called with. *)
Tactic Notation "which_key" reference(f) :=
  let fuel := fresh "fuel" in let off := fresh "off" in let pre := fresh "pre" in
  let rest := fresh "rest" in let o := fresh "o" in let Hk := fresh "Hk" in
  intros fuel off pre rest o Hk ?Hsize ?Hfuel; unfold f; cbn [key encoded_value] in *;
  rewrite ?(λ k d H, key_is_spec k _ off d H) by exact Hk;
  repeat match goal with
  | |- context [bool_decide (lit ?a = lit ?b)] =>
      let v := eval vm_compute in (bool_decide (lit a = lit b)) in
      change (bool_decide (lit a = lit b)) with v
  end; cbv iota.

(** Read a number, an identifier or a text, within the bounds of the hypotheses. *)
Ltac read_value :=
  unfold store_field;
  first
  [ rewrite decode_id_head by done; done
  | rewrite decode_string_head by done; done
  | apply store_number; [lia | done] ].
