(* ===== verification/PlankObjectSpec.v ===== *)
(** What a signed PLANK object carries: the envelope is the canonical map of the
    fields, a decoder gives back the object, the signature and the identifier
    of a signed object verify, and the signed bytes determine every field that
    they should. *)

From S2P Require Import Prelude CLib Cbor CborEncode CborDecode CborSpec PlankObject PlankWire.
#[local] Open Scope Z_scope.

Import Encoder MapBuilder.

(** ** Comparison *)

(** The constant-time comparison decides equality. *)
Lemma plank_crypto_memcmp_spec a b n :
  n <= zlen a → n <= zlen b →
  plank_crypto_memcmp a b n = bool_decide (takeZ n a = takeZ n b).
Proof.
  intros Ha Hb. unfold plank_crypto_memcmp.
  assert (Hlen : length (takeZ n a) = length (takeZ n b)).
  { unfold takeZ, zlen in *. rewrite !length_take. lia. }
  revert Hlen. generalize (takeZ n a) (takeZ n b). clear. intros l k Hlen.
  assert (H : ∀ d, fold_left (λ diff p, Z.lor diff (Z.lxor p.1 p.2)) (zip l k) d = 0 ↔ d = 0 ∧ l = k).
  { revert k Hlen. induction l as [|x l IH]; intros [|y k] Hlen d; try done.
    - cbn. split; [done | by intros []].
    - cbn [zip fold_left]. cbn [zip_with fold_left fst snd]. rewrite IH by (cbn in Hlen; lia).
      rewrite Z.lor_eq_0_iff, Z.lxor_eq_0_iff. split; [intros [[-> ->] ->]; done | by intros [-> [= -> ->]]]. }
  apply Bool.eq_true_iff_eq. rewrite bool_decide_eq_true, Z.eqb_eq, H. by split; [intros [_ ?] |].
Qed.

(** ** Envelopes *)

Definition body_bytes (o : plank_object) : list Z := default [] (body_cbor o).

(** The entries of an envelope in canonical order, with what the decoder does
    with each. *)
Definition envelope_entries (signed : bool) (o : plank_object)
  : list (map_entry * (plank_object → plank_object)) :=
  [(MkEntry (lit "body") (body_bytes o), set_body_cbor (Some (body_bytes o)));
   (MkEntry (lit "class") (head_bytes 0 (object_class o)), set_object_class (object_class o));
   (MkEntry (lit "sig_alg") (head_bytes 0 (sig_alg o)), set_sig_alg (sig_alg o));
   (MkEntry (lit "version") (head_bytes 0 (version o)), set_version (version o));
   (MkEntry (lit "object_id") (head_bytes 2 PLANK_OBJECT_ID_SIZE ++ object_id o),
    set_object_id (object_id o))] ++
  opt signed
    (MkEntry (lit "signature") (head_bytes 2 PLANK_SIGNATURE_SIZE ++ signature o),
     set_signature (signature o)) ++
  [(MkEntry (lit "created_at") (head_bytes 0 (created_at o)), set_created_at (created_at o));
   (MkEntry (lit "origin_node_id") (head_bytes 2 PLANK_NODE_ID_SIZE ++ origin_node_id o),
    set_origin_node_id (origin_node_id o));
   (MkEntry (lit "origin_node_addr")
      (head_bytes 3 (zlen (origin_node_addr o)) ++ origin_node_addr o),
    set_origin_node_addr (origin_node_addr o))].

Definition envelope_bytes (signed : bool) (o : plank_object) : list Z :=
  map_bytes (envelope_entries signed o).*1.

(** The values that the C types allow. *)
Record object_wf (o : plank_object) : Prop := {
  wf_version : in_u 16 (version o);
  wf_class : in_u 32 (object_class o);
  wf_node_id : zlen (origin_node_id o) = PLANK_NODE_ID_SIZE;
  wf_addr : zlen (origin_node_addr o) < PLANK_MAX_ADDRESS ∧ Forall (λ c, c ≠ 0) (origin_node_addr o);
  wf_created : in_u 64 (created_at o);
  wf_object_id : zlen (object_id o) = PLANK_OBJECT_ID_SIZE;
  wf_sig_alg : in_u 32 (sig_alg o);
  wf_signature : zlen (signature o) = PLANK_SIGNATURE_SIZE;
  wf_body : zlen (body_bytes o) <= 65536
}.

Lemma canonical_signed b c sa v i s t n a :
  canonical [MkEntry (lit "version") v; MkEntry (lit "class") c; MkEntry (lit "origin_node_id") n;
    MkEntry (lit "origin_node_addr") a; MkEntry (lit "created_at") t; MkEntry (lit "object_id") i;
    MkEntry (lit "body") b; MkEntry (lit "sig_alg") sa; MkEntry (lit "signature") s] =
  [MkEntry (lit "body") b; MkEntry (lit "class") c; MkEntry (lit "sig_alg") sa;
    MkEntry (lit "version") v; MkEntry (lit "object_id") i; MkEntry (lit "signature") s;
    MkEntry (lit "created_at") t; MkEntry (lit "origin_node_id") n;
    MkEntry (lit "origin_node_addr") a].
Proof. by vm_compute. Qed.

Lemma canonical_unsigned b c sa v i t n a :
  canonical [MkEntry (lit "version") v; MkEntry (lit "class") c; MkEntry (lit "origin_node_id") n;
    MkEntry (lit "origin_node_addr") a; MkEntry (lit "created_at") t; MkEntry (lit "object_id") i;
    MkEntry (lit "body") b; MkEntry (lit "sig_alg") sa] =
  [MkEntry (lit "body") b; MkEntry (lit "class") c; MkEntry (lit "sig_alg") sa;
    MkEntry (lit "version") v; MkEntry (lit "object_id") i;
    MkEntry (lit "created_at") t; MkEntry (lit "origin_node_id") n;
    MkEntry (lit "origin_node_addr") a].
Proof. by vm_compute. Qed.

Lemma entries_ok signed o : object_wf o → Forall entry_ok (envelope_entries signed o).*1.
Proof.
  intros [? ? Hn [Ha _] ? Hi ? Hs Hb]. unfold envelope_entries.
  destruct signed; cbn [opt app fmap list_fmap fst];
    repeat (apply Forall_cons_2; [split; [done |] | try apply Forall_nil_2]);
    cbn [encoded_value key]; rewrite ?zlen_app, ?Hn, ?Hi, ?Hs; heads; sizes; zlia.
Qed.

(** The two envelopes of an object differ by the signature. *)
Lemma envelope_len o :
  object_wf o → zlen (envelope_bytes false o) + 76 = zlen (envelope_bytes true o).
Proof.
  intros Ho. unfold envelope_bytes, map_bytes, envelope_entries.
  cbn [opt app fmap list_fmap fst concat]. unfold pair_bytes. cbn [key encoded_value].
  rewrite !zlen_app, (wf_signature _ Ho).
  change (zlen (head_bytes 2 PLANK_SIGNATURE_SIZE)) with 2.
  change (zlen (lit "signature")) with 9. change (zlen (head_bytes 3 9)) with 1.
  change PLANK_SIGNATURE_SIZE with 64. rewrite !zlen_cons, !zlen_nil.
  match goal with |- context [zlen (head_bytes 5 ?n) + _ + 76] =>
    change (zlen (head_bytes 5 n)) with 1 end.
  match goal with |- context [zlen (head_bytes 5 ?n)] =>
    change (zlen (head_bytes 5 n)) with 1 end. lia.
Qed.
Section encode.
Context (malloc_ok : Z → bool) (malloc_small : small_ok malloc_ok).

Lemma envelope_fields_entries o :
  object_wf o → ∃ mb, envelope_fields malloc_ok o = Some mb ∧ 0 <= mb_cap mb ∧
    entries mb = [
      MkEntry (lit "version") (head_bytes 0 (version o));
      MkEntry (lit "class") (head_bytes 0 (object_class o));
      MkEntry (lit "origin_node_id") (head_bytes 2 PLANK_NODE_ID_SIZE ++ origin_node_id o);
      MkEntry (lit "origin_node_addr")
        (head_bytes 3 (zlen (origin_node_addr o)) ++ origin_node_addr o);
      MkEntry (lit "created_at") (head_bytes 0 (created_at o));
      MkEntry (lit "object_id") (head_bytes 2 PLANK_OBJECT_ID_SIZE ++ object_id o);
      MkEntry (lit "body") (body_bytes o);
      MkEntry (lit "sig_alg") (head_bytes 0 (sig_alg o))].
Proof using malloc_small.
  intros [? ? Hn [Ha _] ? Hi ? Hs Hb]. unfold envelope_fields.
  builds_start ([_] ++ [_] ++ [_] ++ [_] ++ [_] ++ [_] ++ [_] ++ [_]); [| done].
  builds malloc_small; try apply (builds_raw _ malloc_small _ _ _ [_]); builds malloc_small.
  all: rewrite ?zlen_app, ?Hn, ?Hi, ?Hs; heads; sizes; try done; try zlia.
Qed.

Lemma encoded_without_sig o :
  object_wf o →
  encoded malloc_ok 4096 (λ e, encode_envelope_without_sig malloc_ok e o) =
    Some (if zlen (envelope_bytes false o) <=? 4096 then Some (envelope_bytes false o) else None).
Proof using malloc_small.
  intros Ho. destruct (envelope_fields_entries o Ho) as (mb & E & _ & Hl).
  apply (encoded_map _ malloc_small _ mb); [lia | | | by apply entries_ok | by rewrite Hl].
  - intros e. unfold encode_envelope_without_sig. by rewrite E.
  - rewrite Hl. apply canonical_unsigned.
Qed.

Lemma encoded_with_sig o :
  object_wf o →
  encoded malloc_ok 4096 (λ e, encode_envelope_with_sig malloc_ok e o) =
    Some (if zlen (envelope_bytes true o) <=? 4096 then Some (envelope_bytes true o) else None).
Proof using malloc_small.
  intros Ho. destruct (envelope_fields_entries o Ho) as (mb & E & Hc & Hl).
  destruct (builds_field _ malloc_small 256 (lit "signature")
    (put_bytes malloc_ok (signature o) PLANK_SIGNATURE_SIZE) _
    (put_bytes_writes _ _ _ (wf_signature _ Ho) ltac:(done))) with mb as (mb' & E' & _ & Hl').
  { rewrite zlen_app, (wf_signature _ Ho). heads. sizes. lia. } { done. } { done. }
  { by rewrite Hl. }
  rewrite Hl in Hl'.
  apply (encoded_map _ malloc_small _ mb'); [lia | | | by apply entries_ok | by rewrite Hl'].
  - intros e. unfold encode_envelope_with_sig. rewrite E. cbn [mbind option_bind]. by rewrite E'.
  - rewrite Hl'. apply canonical_signed.
Qed.

End encode.

(** ** Decoding *)

Section decode.
Context (malloc_ok : Z → bool) (malloc_small : small_ok malloc_ok).

(** The body is copied from between two positions of the cursor. *)
Lemma body_reads it :
  item_ok it → zlen (enc_item it) <= 65536 →
  Reads (decode_object_field malloc_ok) (MkEntry (lit "body") (enc_item it))
    (set_body_cbor (Some (enc_item it))).
Proof using malloc_small.
  intros Hit Hlen. which_key decode_object_field. set (b := enc_item it) in *.
  destruct (enc_item_skips it Hit) as [_ Hskip]. rewrite Hskip by done. fold b.
  cbn [mbind option_bind cur d_pos d_buf]. pose proof (zlen_nonneg b).
  replace (zlen (pre ++ b) - zlen pre) with (zlen b) by zl. rewrite wrap_small by zlia.
  rewrite malloc_small by lia. cbn [negb]. rewrite cur_len, <- app_assoc.
  destruct (Z.ltb_spec (zlen (pre ++ b) + zlen rest) (zlen pre + zlen b)); [zl |].
  by rewrite slice_mid.
Qed.

Lemma envelope_entries_read signed o it :
  object_wf o → body_cbor o = Some (enc_item it) → item_ok it →
  Forall (λ f, Reads (decode_object_field malloc_ok) f.1 f.2) (envelope_entries signed o).
Proof using malloc_small.
  intros [? ? Hn [Ha Ha0] ? Hi ? Hs Hb] Hbody Hit.
  assert (Hsig : Forall (λ f, Reads (decode_object_field malloc_ok) f.1 f.2) (opt signed
    (MkEntry (lit "signature") (head_bytes 2 PLANK_SIGNATURE_SIZE ++ signature o),
     set_signature (signature o)))).
  { destruct signed; repeat constructor; cbn [fst snd]. which_key decode_object_field. read_value. }
  unfold envelope_entries. rewrite Forall_app, Forall_app. split; [| split; [done |]].
  all: repeat (apply Forall_cons_2; [| try apply Forall_nil_2]); cbn [fst snd].
  { unfold body_bytes in *. rewrite Hbody in *. by apply body_reads. }
  all: which_key decode_object_field; read_value.
Qed.

(** An envelope is decoded to the object with the fields it has. *)
Lemma decode_envelope signed o it fuel :
  object_wf o → body_cbor o = Some (enc_item it) → item_ok it →
  zlen (envelope_bytes signed o) < 2 ^ 60 → malloc_ok (zlen (envelope_bytes signed o)) = true →
  (2 * length (envelope_bytes signed o) + 1 < fuel)%nat →
  plank_object_decode malloc_ok fuel (envelope_bytes signed o) =
    Some (Some (updates (envelope_entries signed o)
      (set_envelope_cbor (Some (envelope_bytes signed o)) plank_object_new))).
Proof using malloc_small.
  intros Ho Hbody Hit Hlen Hm Hfuel. unfold plank_object_decode.
  assert (Hpos : 0 < zlen (envelope_bytes signed o)).
  { unfold envelope_bytes, map_bytes. match goal with |- context [head_bytes 5 ?n] =>
      pose proof (head_len 5 n) end. rewrite zlen_app.
    match goal with |- context [_ + zlen ?l] => pose proof (zlen_nonneg l) end. lia. }
  destruct (Z.eqb_spec (zlen (envelope_bytes signed o)) 0); [lia |].
  destruct (decode_map_reads _ _ fuel (envelope_entries_read signed o it Ho Hbody Hit)
    (set_envelope_cbor (Some (envelope_bytes signed o)) plank_object_new))
    as (d & Hd & Herr & E); fold (envelope_bytes signed o); [done | done |].
  fold (envelope_bytes signed o) in Hd. rewrite Hd. unfold cbor_decoder_ok at 1. rewrite Herr.
  cbn [negb]. rewrite Hm. cbn [negb]. rewrite E. done.
Qed.
End decode.

(** ** Signing *)

(** What is expected of OpenSSL for a pair of keys: digests and signatures of
    their sizes, and that a signature is accepted. *)
Record ssl_pair (ssl : openssl) (priv pub : list Z) : Prop := {
  ssl_digest : ∀ m, ∃ h, EVP_Digest_sha256 ssl m = Some h ∧ zlen h = PLANK_HASH_SIZE;
  ssl_sign : ∀ m, ∃ s, EVP_DigestSign_ed25519 ssl (takeZ 32 priv) m = Some s ∧
    zlen s = PLANK_SIGNATURE_SIZE ∧ EVP_DigestVerify_ed25519 ssl (takeZ 32 pub) s m = true
}.

Section sign.
Context (malloc_ok : Z → bool) (malloc_small : small_ok malloc_ok).
Context (ssl : openssl) (priv pub : list Z) (Hssl : ssl_pair ssl priv pub).

Lemma wf_set_object_id h o :
  object_wf o → zlen h = PLANK_OBJECT_ID_SIZE → object_wf (set_object_id h o).
Proof. by intros [] ?. Qed.

Lemma wf_set_signature s o :
  object_wf o → zlen s = PLANK_SIGNATURE_SIZE → object_wf (set_signature s o).
Proof. by intros [] ?. Qed.

Lemma wf_set_envelope e o : object_wf o → object_wf (set_envelope_cbor e o).
Proof. by intros []. Qed.

(** The identifier does not change the length of the envelope. *)
Lemma envelope_len_id h o :
  zlen h = zlen (object_id o) →
  zlen (envelope_bytes false (set_object_id h o)) = zlen (envelope_bytes false o).
Proof.
  intros Hh. unfold envelope_bytes, map_bytes, envelope_entries.
  cbn [opt app fmap list_fmap fst concat]. unfold pair_bytes. cbn [key encoded_value].
  rewrite !zlen_app, !zlen_cons. cbn [object_id set_object_id]. by rewrite Hh.
Qed.

Lemma compute_id o :
  object_wf o → is_Some (body_cbor o) → ∃ h, zlen h = PLANK_OBJECT_ID_SIZE ∧
  plank_crypto_sha256 ssl (envelope_bytes false (set_object_id (zeros PLANK_OBJECT_ID_SIZE) o)) = Some h ∧
  plank_object_compute_id malloc_ok ssl o =
    Some (if zlen (envelope_bytes false o) <=? 4096 then (set_object_id h o, true) else (o, false)).
Proof using malloc_small Hssl.
  intros Ho [b Hb]. set (z := zeros PLANK_OBJECT_ID_SIZE).
  destruct (ssl_digest _ _ _ Hssl (envelope_bytes false (set_object_id z o))) as (h & Hh & Hlen).
  assert (Hsha : plank_crypto_sha256 ssl (envelope_bytes false (set_object_id z o)) = Some h).
  { unfold plank_crypto_sha256. rewrite Hh. cbn [mbind option_bind]. by rewrite Hlen. }
  exists h. split; [done |]. split; [done |]. unfold plank_object_compute_id, has_body.
  rewrite Hb. cbn [negb]. rewrite encoded_without_sig; [| done | by apply wf_set_object_id].
  fold z. rewrite envelope_len_id by (by rewrite (wf_object_id _ Ho)).
  cbn [mbind option_bind]. destruct (_ <=? _); [| done]. cbn [mbind option_bind].
  by rewrite Hsha.
Qed.

Lemma clone_same o :
  (∃ x b, body_cbor o = Some (x :: b) ∧ zlen (x :: b) <= 65536) →
  (∃ x e, envelope_cbor o = Some (x :: e) ∧ zlen (x :: e) <= 65536) →
  plank_object_clone malloc_ok o = Some o.
Proof using malloc_small.
  intros (x & b & Hb & Hlb) (y & e & He & Hle). unfold plank_object_clone, clone_buffer.
  rewrite Hb, He, !malloc_small by zl. cbn [mbind option_bind]. by destruct o; cbn in *; subst.
Qed.

Lemma envelope_nonempty signed o : ∃ x e, envelope_bytes signed o = x :: e.
Proof.
  unfold envelope_bytes, map_bytes.
  match goal with |- context [head_bytes 5 ?n] => destruct (head_nonempty 5 n) as (x & e & ->) end.
  by eexists _, _.
Qed.

(** What signing does, branch by branch: the object with its identifier, its
    signature over the envelope without signature, and its envelope. *)
Lemma sign_spec o :
  object_wf o → is_Some (body_cbor o) → ∃ h s,
  let o1 := set_object_id h o in
  let o2 := set_signature s o1 in
  zlen h = PLANK_OBJECT_ID_SIZE ∧ zlen s = PLANK_SIGNATURE_SIZE ∧
  plank_crypto_sha256 ssl (envelope_bytes false (set_object_id (zeros PLANK_OBJECT_ID_SIZE) o)) = Some h ∧
  plank_crypto_verify_ed25519 ssl (envelope_bytes false o1) s pub = true ∧
  plank_object_sign malloc_ok ssl o priv =
    Some (if zlen (envelope_bytes true o2) <=? 4096
          then (set_envelope_cbor (Some (envelope_bytes true o2)) o2, true)
          else if zlen (envelope_bytes false o) <=? 4096 then (set_envelope_cbor None o2, false)
          else (o, false)).
Proof using malloc_small Hssl.
  intros Ho Hbody. destruct (compute_id o Ho Hbody) as (h & Hh & Hsha & Hid).
  set (o1 := set_object_id h o). assert (Ho1 : object_wf o1) by (by apply wf_set_object_id).
  destruct (ssl_sign _ _ _ Hssl (envelope_bytes false o1)) as (s & Hsign & Hs & Hv).
  set (o2 := set_signature s o1). assert (Ho2 : object_wf o2) by (by apply wf_set_signature).
  exists h, s. cbv zeta. fold o1 o2. split; [done |]. split; [done |]. split; [done |].
  assert (Hlen1 : zlen (envelope_bytes false o1) = zlen (envelope_bytes false o)).
  { unfold o1. rewrite envelope_len_id; [done |]. by rewrite Hh, (wf_object_id _ Ho). }
  assert (Hlen2 : zlen (envelope_bytes false o2) + 76 = zlen (envelope_bytes true o2))
    by (by apply envelope_len).
  change (envelope_bytes false o2) with (envelope_bytes false o1) in Hlen2.
  split.
  { unfold plank_crypto_verify_ed25519. by rewrite (takeZ_all _ s Hs). }
  unfold plank_object_sign, has_body. destruct Hbody as [b Hb]. rewrite Hb. cbn [negb]. rewrite Hid.
  destruct (Z.leb_spec (zlen (envelope_bytes false o)) 4096); cbn [mbind option_bind negb]; cycle 1.
  { destruct (Z.leb_spec (zlen (envelope_bytes true o2)) 4096); [lia | done]. }
  fold o1. rewrite encoded_without_sig by done. rewrite Hlen1.
  destruct (Z.leb_spec (zlen (envelope_bytes false o)) 4096); [| lia]. cbn [mbind option_bind].
  unfold plank_crypto_sign_ed25519. rewrite Hsign. fold o2.
  unfold plank_object_encode, has_body. change (body_cbor o2) with (body_cbor o). rewrite Hb. cbn [negb].
  rewrite encoded_with_sig; [| done | by apply wf_set_envelope].
  change (envelope_bytes true (set_envelope_cbor None o2)) with (envelope_bytes true o2).
  cbn [mbind option_bind]. by destruct (_ <=? _).
Qed.

(** A signed object whose envelope is stored is accepted by both checks. *)
Lemma signed_verifies o it h s :
  let o1 := set_object_id h o in
  let o2 := set_signature s o1 in
  let o3 := set_envelope_cbor (Some (envelope_bytes true o2)) o2 in
  object_wf o → body_cbor o = Some (enc_item it) → item_ok it →
  zlen h = PLANK_OBJECT_ID_SIZE → zlen s = PLANK_SIGNATURE_SIZE →
  plank_crypto_sha256 ssl (envelope_bytes false (set_object_id (zeros PLANK_OBJECT_ID_SIZE) o)) = Some h →
  plank_crypto_verify_ed25519 ssl (envelope_bytes false o1) s pub = true →
  zlen (envelope_bytes true o2) <= 4096 →
  plank_object_verify malloc_ok ssl o3 pub = Some true ∧
  plank_object_verify_id malloc_ok ssl o3 = Some true.
Proof using malloc_small Hssl.
  intros o1 o2 o3 Ho Hb Hit Hh Hs Hsha Hv Hlen.
  assert (Ho2 : object_wf o2) 
    by (apply wf_set_signature; [by apply wf_set_object_id | done]).
  assert (Ho3 : object_wf o3) by (by apply wf_set_envelope).
  pose proof (envelope_len o2 Ho2) as Hlen2.
  change (envelope_bytes false o2) with (envelope_bytes false o1) in Hlen2.
  assert (Hclone : plank_object_clone malloc_ok o3 = Some o3).
  { apply clone_same.
    - destruct (enc_item_skips it Hit) as [Hpos _]. pose proof (wf_body _ Ho) as Hlb.
      unfold body_bytes in Hlb. rewrite Hb in Hlb. change (body_cbor o3) with (body_cbor o). rewrite Hb.
      destruct (enc_item it) as [|x b]; [by rewrite zlen_nil in Hpos |]. by exists x, b.
    - destruct (envelope_nonempty true o2) as (x & e & E). exists x, e. rewrite <- E.
      split; [done | lia]. }
  unfold plank_object_verify, plank_object_verify_id, has_body.
  change (body_cbor o3) with (body_cbor o). rewrite Hb. cbn [negb]. rewrite Hclone. split.
  - rewrite encoded_without_sig by done.
    change (envelope_bytes false o3) with (envelope_bytes false o1).
    destruct (Z.leb_spec (zlen (envelope_bytes false o1)) 4096); [| lia].
    cbn [mbind option_bind]. change (signature o3) with s. by rewrite Hv.
  - destruct (compute_id o3 Ho3) as (h' & _ & Hsha' & ->);
      [change (body_cbor o3) with (body_cbor o); by rewrite Hb |].
    change (envelope_bytes false (set_object_id (zeros PLANK_OBJECT_ID_SIZE) o3))
      with (envelope_bytes false (set_object_id (zeros PLANK_OBJECT_ID_SIZE) o)) in Hsha'.
    rewrite Hsha in Hsha'. injection Hsha' as <-.
    change (envelope_bytes false o3) with (envelope_bytes false o1).
    destruct (Z.leb_spec (zlen (envelope_bytes false o1)) 4096); [| lia].
    cbn [mbind option_bind andb object_id set_object_id]. f_equal.
    unfold plank_object_id_equal. change (object_id o3) with h.
    rewrite plank_crypto_memcmp_spec by (rewrite Hh; done). by rewrite bool_decide_eq_true_2.
Qed.

(** Signing, for an object that fits: what a node that decodes the envelope gets. *)
Lemma sign_delivers o it fuel :
  object_wf o → body_cbor o = Some (enc_item it) → item_ok it → 8194 <= Z.of_nat fuel →
  zlen (envelope_bytes false o) + 76 <= 4096 → ∃ h s e,
  let o' := set_envelope_cbor (Some e) (set_signature s (set_object_id h o)) in
  plank_object_sign malloc_ok ssl o priv = Some (o', true) ∧
  plank_object_decode malloc_ok fuel e = Some (Some o') ∧
  plank_object_verify malloc_ok ssl o' pub = Some true ∧
  plank_object_verify_id malloc_ok ssl o' = Some true.
Proof using malloc_small Hssl.
  intros Ho Hb Hit Hfuel Hfit.
  destruct (sign_spec o Ho ltac:(by rewrite Hb)) as (h & s & Hh & Hs & Hsha & Hv & Hsign).
  set (o2 := set_signature s (set_object_id h o)) in *.
  assert (Ho2 : object_wf o2) by (apply wf_set_signature; [by apply wf_set_object_id | done]).
  assert (Hlen : zlen (envelope_bytes true o2) <= 4096).
  { rewrite <- envelope_len by done.
    change (envelope_bytes false o2) with (envelope_bytes false (set_object_id h o)).
    rewrite envelope_len_id; [done |]. by rewrite Hh, (wf_object_id _ Ho). }
  exists h, s, (envelope_bytes true o2). cbv zeta. fold o2.
  rewrite Hsign. destruct (Z.leb_spec (zlen (envelope_bytes true o2)) 4096); [| lia].
  split; [done |]. split; [| by eapply signed_verifies].
  rewrite (decode_envelope malloc_ok malloc_small true o2 it); try done; cycle 1.
  { zlia. } { apply malloc_small. pose proof (zlen_nonneg (envelope_bytes true o2)). lia. }
  { unfold zlen in Hlen. lia. }
  do 2 f_equal. unfold envelope_entries, updates. cbn [opt app foldl snd].
  unfold body_bytes. change (body_cbor o2) with (body_cbor o). rewrite Hb.
  unfold o2. clear - Hb. by destruct o; cbn in *; subst.
Qed.

(** An object with a well-formed CBOR body whose envelope fits in 4096 bytes is
    signed: only its identifier, its signature and its envelope change, and a node
    that decodes the envelope gets exactly that object, whose signature and identifier
    both verify. *)
Theorem signed_object_delivered o it fuel :
  object_wf o → body_cbor o = Some (enc_item it) → item_ok it → 8194 <= Z.of_nat fuel →
  zlen (envelope_bytes false o) + 76 <= 4096 → ∃ h s e,
  let o' := set_envelope_cbor (Some e) (set_signature s (set_object_id h o)) in
  plank_object_sign malloc_ok ssl o priv = Some (o', true) ∧
  plank_object_decode malloc_ok fuel e = Some (Some o') ∧
  plank_object_verify malloc_ok ssl o' pub = Some true ∧
  plank_object_verify_id malloc_ok ssl o' = Some true.
Proof using malloc_small Hssl. apply sign_delivers. Qed.

Lemma sign_refuses o :
  object_wf o → is_Some (body_cbor o) → 4096 < zlen (envelope_bytes false o) + 76 →
  ∃ o', plank_object_sign malloc_ok ssl o priv = Some (o', false) ∧
        (envelope_cbor o' = None ∨ o' = o).
Proof using malloc_small Hssl.
  intros Ho Hb Hbig.
  destruct (sign_spec o Ho Hb) as (h & s & Hh & Hs & _ & _ & ->).
  set (o2 := set_signature s (set_object_id h o)) in *.
  assert (Ho2 : object_wf o2) by (apply wf_set_signature; [by apply wf_set_object_id | done]).
  rewrite <- (envelope_len o2) by done.
  change (envelope_bytes false o2) with (envelope_bytes false (set_object_id h o)).
  rewrite envelope_len_id by (by rewrite Hh, (wf_object_id _ Ho)).
  destruct (Z.leb_spec (zlen (envelope_bytes false o) + 76) 4096); [lia |].
  destruct (_ <=? _); eexists; (split; [done |]); auto.
Qed.

(** The buffer of an envelope is created with 4096 bytes and never grows: an object
    whose envelope is longer is not signed, whatever [max_message_bytes] allows. *)
Theorem large_objects_never_signed o :
  object_wf o → is_Some (body_cbor o) → 4096 < zlen (envelope_bytes false o) + 76 →
  ∃ o', plank_object_sign malloc_ok ssl o priv = Some (o', false) ∧
        (envelope_cbor o' = None ∨ o' = o).
Proof using malloc_small Hssl. apply sign_refuses. Qed.
End sign.

Lemma envelope_injective o1 o2 it1 it2 :
  object_wf o1 → object_wf o2 →
  body_cbor o1 = Some (enc_item it1) → item_ok it1 →
  body_cbor o2 = Some (enc_item it2) → item_ok it2 →
  zlen (envelope_bytes false o1) < 2 ^ 60 →
  envelope_bytes false o1 = envelope_bytes false o2 →
  o2 = set_signature (signature o2) (set_envelope_cbor (envelope_cbor o2) o1).
Proof.
  intros Ho1 Ho2 Hb1 Hi1 Hb2 Hi2 Hlen Heq.
  pose proof (decode_envelope (λ _, true) ltac:(done) false o1 it1 _ Ho1 Hb1 Hi1 Hlen eq_refl
    (Nat.lt_succ_diag_r _)) as H1.
  rewrite Heq in H1, Hlen.
  rewrite (decode_envelope (λ _, true) ltac:(done) false o2 it2 _ Ho2 Hb2 Hi2 Hlen eq_refl
    (Nat.lt_succ_diag_r _)) in H1. injection H1.
  unfold envelope_entries, updates, body_bytes. rewrite Hb1, Hb2. cbn [opt app foldl snd default from_option].
  clear - Hb1 Hb2. destruct o1, o2; cbn in *. intros. unfold set_signature. cbn. congruence.
Qed.

(** A signature covers every field of an object but itself: when the bytes that are
    signed, the envelope without the signature, are the same for two objects, the objects
    agree on their version, class, origin, time, identifier, signature algorithm and
    body. *)
Theorem signed_bytes_cover_fields malloc_ok o1 o2 it1 it2 m :
  small_ok malloc_ok → object_wf o1 → object_wf o2 →
  body_cbor o1 = Some (enc_item it1) → item_ok it1 →
  body_cbor o2 = Some (enc_item it2) → item_ok it2 →
  encoded malloc_ok 4096 (λ e, encode_envelope_without_sig malloc_ok e o1) = Some (Some m) →
  encoded malloc_ok 4096 (λ e, encode_envelope_without_sig malloc_ok e o2) = Some (Some m) →
  o2 = set_signature (signature o2) (set_envelope_cbor (envelope_cbor o2) o1).
Proof.
  intros Hm Ho1 Ho2 Hb1 Hi1 Hb2 Hi2 E1 E2.
  rewrite encoded_without_sig in E1, E2 by done.
  destruct (Z.leb_spec (zlen (envelope_bytes false o1)) 4096); [| done].
  destruct (_ <=? _); [| done].
  assert (Heq : envelope_bytes false o1 = envelope_bytes false o2) by congruence.
  eapply envelope_injective; eauto. zlia.
Qed.
