(* ===== verification/PlankMessageSpec.v ===== *)
(** What a PLANK message carries: the body is the canonical map of the fields,
    and what a node reads from it is the message that was sent, but for the
    address to reply to and the references to attachments, which are written
    and never read, and the address of the area of what is not a post. *)

From S2P Require Import Prelude CLib Cbor CborEncode CborDecode CborSpec.
From S2P Require Import PlankObject PlankWire PlankObjectSpec.
#[local] Open Scope Z_scope.

Import Encoder MapBuilder.

Lemma opt_fmap {A B} (f : A → B) c x : f <$> opt c x = opt c (f x).
Proof. by destruct c. Qed.

(** ** Messages *)

(** A text of a character array of [cap] bytes. *)
Definition text_ok (cap : Z) (s : cstr) : Prop := zlen s < cap ∧ Forall (λ c, 0 < c < 256) s.

(** An identifier of [n] bytes. *)
Definition id_ok (n : Z) (id : list Z) : Prop := zlen id = n ∧ bytes_ok id.

#[export] Instance text_ok_dec cap s : Decision (text_ok cap s).
Proof. unfold text_ok. apply _. Defined.

#[export] Instance id_ok_dec n s : Decision (id_ok n s).
Proof. unfold id_ok, bytes_ok. apply _. Defined.

(** The values that the C types and the temporary buffers allow, for a message
    with the text [t]. *)
Record message_wf (b : plank_message_body) (t : cstr) : Prop := {
  wf_type : in_u 32 (message_type b);
  wf_author : text_ok PLANK_MAX_USER_NAME (author_user b);
  wf_display : text_ok PLANK_MAX_USER_NAME (author_display b);
  wf_from : text_ok PLANK_MAX_ADDRESS (from_addr b);
  wf_to : ∃ l, to_addrs b = Some <$> l ∧ Forall (text_ok 8190) l ∧
    zlen (enc_item (IArray (IText <$> l))) <= 8192;
  wf_area : text_ok PLANK_MAX_ADDRESS (area_addr b);
  wf_subject : text_ok PLANK_MAX_SUBJECT (subject b);
  wf_format : in_u 32 (body_format b);
  wf_text : text_ok 8190 t ∧ body_text_len b = zlen t ∧ ∃ r, body_text b = Some (t ++ r);
  wf_root : id_ok PLANK_OBJECT_ID_SIZE (thread_root_id b);
  wf_parent : id_ok PLANK_OBJECT_ID_SIZE (parent_id b);
  wf_reply : text_ok PLANK_MAX_ADDRESS (reply_to b);
  wf_refs : ∃ l, attachment_refs b = Some <$> l ∧ Forall (id_ok PLANK_ATTACHMENT_ID_SIZE) l ∧
    zlen (enc_item (IArray (IBytes <$> l))) <= 8192;
  wf_retention : in_u 32 (retention_class b);
  wf_visibility : in_u 32 (visibility b);
  wf_flags : in_u 32 (flags b);
  wf_path : ∃ l, path b = Some <$> l ∧ Forall (id_ok PLANK_NODE_ID_SIZE) l ∧
    zlen (enc_item (IArray (IBytes <$> l))) <= 8192;
  wf_hops : in_u 32 (hop_count b)
}.

(** A well-formed item that fits in the temporary buffer. *)
Definition sendable (it : item) : Prop := item_ok it ∧ zlen (enc_item it) <= 8192.

Lemma number_sendable v : in_u 32 v → sendable (IUint v).
Proof. intros Hv. split; [constructor; zlia |]. cbn [enc_item]. heads. lia. Qed.

Lemma text_sendable cap s : cap <= 8190 → text_ok cap s → sendable (IText s).
Proof.
  intros Hcap [Hs Hc]. split.
  - constructor; [zlia |]. eapply Forall_impl; [exact Hc |]. intros c ?. zlia.
  - cbn [enc_item]. rewrite zlen_app. pose proof (head_len_16 3 (zlen s)). lia.
Qed.

Lemma id_sendable n s : n <= 8183 → id_ok n s → sendable (IBytes s).
Proof.
  intros Hn [<- Hs]. split; [constructor; [zlia | done] |].
  cbn [enc_item]. rewrite zlen_app. heads. lia.
Qed.

Lemma array_sendable (mk : list Z → item) l :
  (∀ x, 1 <= zlen (enc_item (mk x))) → Forall (λ x, item_ok (mk x)) l →
  zlen (enc_item (IArray (mk <$> l))) <= 8192 → sendable (IArray (mk <$> l)).
Proof.
  intros Hmk Hl Hlen. split; [| done]. constructor; [| by apply Forall_fmap].
  cbn [enc_item] in Hlen. rewrite zlen_app, zlen_map, <- list_fmap_compose in *.
  pose proof (zlen_concat_ge (enc_item ∘ mk) l Hmk). pose proof (head_len 4 (zlen l)). zlia.
Qed.

Lemma lit_bytes s : bytes_ok (lit s).
Proof.
  induction s as [|a s IH]; [constructor |]. cbn [lit]. constructor; [| done].
  pose proof (Ascii.nat_ascii_bounded a). zlia.
Qed.

Lemma block_nonempty m (x : list Z) : 1 <= zlen (head_bytes m (zlen x) ++ x).
Proof. rewrite zlen_app. heads. zl. Qed.

Lemma Forall_opt {A} (P : A → Prop) c x : P x → Forall P (opt c x).
Proof. intros Hx. destruct c; by repeat constructor. Qed.

(** The elements of an array of pointers. *)
Definition elements (l : list (option (list Z))) : list (list Z) := default [] <$> l.

Definition has_area (b : plank_message_body) : bool :=
  (message_type b =? PLANK_MSG_AREA_POST) && negb (is_empty (area_addr b)).

(** The array [x] read into a field that held [old]. *)
Definition if_any {A} (x old : list A) : list A := match x with [] => old | _ => x end.

(** The fields of a message in canonical order: key and item, and what the
    decoder does with them. *)
Definition message_fields (b : plank_message_body) (t : cstr)
  : list (cstr * item * (plank_message_body → plank_message_body)) :=
  [(lit "path", IArray (IBytes <$> elements (path b)), λ o, set_path (if_any (path b) (path o)) o);
   (lit "flags", IUint (flags b), set_flags (flags b));
   (lit "subject", IText (subject b), set_subject (subject b))] ++
  opt (negb (is_empty (reply_to b))) (lit "reply_to", IText (reply_to b), id) ++
  [(lit "to_addrs", IArray (IText <$> elements (to_addrs b)),
    λ o, set_to_addrs (if_any (to_addrs b) (to_addrs o)) o)] ++
  opt (has_area b) (lit "area_addr", IText (area_addr b), set_area_addr (area_addr b)) ++
  [(lit "body_text", IText t, λ o, set_body_text_len (zlen t) (set_body_text (Some (t ++ [0])) o));
   (lit "from_addr", IText (from_addr b), set_from_addr (from_addr b));
   (lit "hop_count", IUint (hop_count b), set_hop_count (hop_count b))] ++
  opt (negb (plank_object_id_is_zero (parent_id b)))
    (lit "parent_id", IBytes (parent_id b), set_parent_id (parent_id b)) ++
  [(lit "visibility", IUint (visibility b), set_visibility (visibility b));
   (lit "author_user", IText (author_user b), set_author_user (author_user b));
   (lit "body_format", IUint (body_format b), set_body_format (body_format b));
   (lit "message_type", IUint (message_type b), set_message_type (message_type b))] ++
  opt (negb (is_empty (author_display b)))
    (lit "author_display", IText (author_display b), set_author_display (author_display b)) ++
  opt (negb (plank_object_id_is_zero (thread_root_id b)))
    (lit "thread_root_id", IBytes (thread_root_id b), set_thread_root_id (thread_root_id b)) ++
  [(lit "attachment_refs", IArray (IBytes <$> elements (attachment_refs b)), id);
   (lit "retention_class", IUint (retention_class b), set_retention_class (retention_class b))].

(** The message as one CBOR item. *)
Definition message_item (b : plank_message_body) (t : cstr) : item :=
  IMap ((λ f, (IText f.1.1, f.1.2)) <$> message_fields b t).

Definition message_entries (b : plank_message_body) (t : cstr) : list map_entry :=
  (λ f, MkEntry f.1.1 (enc_item f.1.2)) <$> message_fields b t.

Lemma message_item_bytes b t : enc_item (message_item b t) = map_bytes (message_entries b t).
Proof.
  unfold message_item, message_entries, map_bytes. cbn [enc_item]. rewrite !zlen_map. f_equal.
  induction (message_fields b t) as [|f l IH]; [done |].
  rewrite !fmap_cons. cbn [concat]. rewrite IH. f_equal. unfold pair_bytes. cbn. by rewrite <- app_assoc.
Qed.

(** The entries in the order in which the code writes them. *)
Definition written_entries (b : plank_message_body) (t : cstr) : list map_entry :=
  [MkEntry (lit "message_type") (enc_item (IUint (message_type b)))] ++
  [MkEntry (lit "author_user") (enc_item (IText (author_user b)))] ++
  opt (negb (is_empty (author_display b)))
    (MkEntry (lit "author_display") (enc_item (IText (author_display b)))) ++
  [MkEntry (lit "from_addr") (enc_item (IText (from_addr b)))] ++
  [MkEntry (lit "to_addrs") (enc_item (IArray (IText <$> elements (to_addrs b))))] ++
  opt (has_area b) (MkEntry (lit "area_addr") (enc_item (IText (area_addr b)))) ++
  [MkEntry (lit "subject") (enc_item (IText (subject b)))] ++
  [MkEntry (lit "body_format") (enc_item (IUint (body_format b)))] ++
  [MkEntry (lit "body_text") (enc_item (IText t))] ++
  opt (negb (plank_object_id_is_zero (thread_root_id b)))
    (MkEntry (lit "thread_root_id") (enc_item (IBytes (thread_root_id b)))) ++
  opt (negb (plank_object_id_is_zero (parent_id b)))
    (MkEntry (lit "parent_id") (enc_item (IBytes (parent_id b)))) ++
  opt (negb (is_empty (reply_to b))) (MkEntry (lit "reply_to") (enc_item (IText (reply_to b)))) ++
  [MkEntry (lit "attachment_refs") (enc_item (IArray (IBytes <$> elements (attachment_refs b))))] ++
  [MkEntry (lit "retention_class") (enc_item (IUint (retention_class b)))] ++
  [MkEntry (lit "visibility") (enc_item (IUint (visibility b)))] ++
  [MkEntry (lit "flags") (enc_item (IUint (flags b)))] ++
  [MkEntry (lit "path") (enc_item (IArray (IBytes <$> elements (path b))))] ++
  [MkEntry (lit "hop_count") (enc_item (IUint (hop_count b)))].

(** Sorting them, whichever of the optional ones there are. *)
Lemma canonical_optional (c1 c2 c3 c4 c5 : bool) x1 x2 x3 x4 x5 x6 x7 x8 x9 x10 x11 x12 x13 x14 x15
    x16 x17 x18 :
  canonical ([MkEntry (lit "message_type") x1] ++ [MkEntry (lit "author_user") x2] ++
    opt c1 (MkEntry (lit "author_display") x3) ++ [MkEntry (lit "from_addr") x4] ++
    [MkEntry (lit "to_addrs") x5] ++ opt c2 (MkEntry (lit "area_addr") x6) ++
    [MkEntry (lit "subject") x7] ++ [MkEntry (lit "body_format") x8] ++
    [MkEntry (lit "body_text") x9] ++ opt c3 (MkEntry (lit "thread_root_id") x10) ++
    opt c4 (MkEntry (lit "parent_id") x11) ++ opt c5 (MkEntry (lit "reply_to") x12) ++
    [MkEntry (lit "attachment_refs") x13] ++ [MkEntry (lit "retention_class") x14] ++
    [MkEntry (lit "visibility") x15] ++ [MkEntry (lit "flags") x16] ++ [MkEntry (lit "path") x17] ++
    [MkEntry (lit "hop_count") x18]) =
  [MkEntry (lit "path") x17; MkEntry (lit "flags") x16; MkEntry (lit "subject") x7] ++
    opt c5 (MkEntry (lit "reply_to") x12) ++ [MkEntry (lit "to_addrs") x5] ++
    opt c2 (MkEntry (lit "area_addr") x6) ++
    [MkEntry (lit "body_text") x9; MkEntry (lit "from_addr") x4; MkEntry (lit "hop_count") x18] ++
    opt c4 (MkEntry (lit "parent_id") x11) ++
    [MkEntry (lit "visibility") x15; MkEntry (lit "author_user") x2; MkEntry (lit "body_format") x8;
     MkEntry (lit "message_type") x1] ++ opt c1 (MkEntry (lit "author_display") x3) ++
    opt c3 (MkEntry (lit "thread_root_id") x10) ++
    [MkEntry (lit "attachment_refs") x13; MkEntry (lit "retention_class") x14].
Proof. destruct c1, c2, c3, c4, c5; by vm_compute. Qed.

Lemma canonical_written b t : canonical (written_entries b t) = message_entries b t.
Proof.
  unfold written_entries. rewrite canonical_optional. unfold message_entries, message_fields.
  rewrite !fmap_app. unfold opt. by repeat case_match.
Qed.

Lemma written_len b t : zlen (written_entries b t) <= 100.
Proof. unfold written_entries, opt. repeat case_match; done. Qed.

Lemma elements_some l : elements (Some <$> l) = l.
Proof. unfold elements. rewrite <- list_fmap_compose. apply list_fmap_id. Qed.

Lemma message_fields_ok b t :
  message_wf b t → Forall (λ f, sendable f.1.2 ∧ zlen f.1.1 <= 100 ∧ bytes_ok f.1.1)
    (message_fields b t).
Proof.
  intros [? Hau Hdi Hfr (to & Hto & Ht1 & Ht2) Har Hsu ? (Ht & _)
    Hro Hpa Hre (rf & Hrf & Hr1 & Hr2) ? ? ? (pa & Hpt & Hp1 & Hp2) ?].
  unfold message_fields. rewrite Hto, Hrf, Hpt, !elements_some.
  repeat (apply Forall_app; split).
  all: repeat (apply Forall_cons_2; [| try apply Forall_nil_2]); try (apply Forall_opt); cbn [fst snd].
  all: split; [| split; [done | apply lit_bytes]].
  all: try (by apply number_sendable); 
    try (by eapply text_sendable; [| eassumption]); try (by eapply id_sendable; [| eassumption]).
  all: apply array_sendable; [intros; apply block_nonempty | | assumption].
  all: eapply Forall_impl; [eassumption |]; intros x Hx.
  all: eapply proj1; first [eapply id_sendable; [| exact Hx]; done
                          | eapply text_sendable; [| exact Hx]; done].
Qed.

Lemma message_item_ok b t : message_wf b t → item_ok (message_item b t).
Proof.
  intros Hb. pose proof (message_fields_ok b t Hb) as H. constructor.
  - rewrite zlen_map. unfold message_fields, opt. repeat case_match; done.
  - apply Forall_fmap. eapply Forall_impl; [exact H |]. intros [[k it] u] [[Hit _] Hk].
    destruct Hk as [Hlen Hbytes]. cbn [fst snd] in *. split; [| done].
    constructor; [apply Z.le_lt_trans with 100; [done | zlia] | done].
Qed.

(** ** Encoding *)

Section encode.
Context (malloc_ok : Z → bool) (malloc_small : small_ok malloc_ok).

Lemma put_text_len_writes t r :
  zlen t < 2 ^ 62 →
  Writes (λ e, cbor_encode_text_len malloc_ok e (Some (t ++ r)) (zlen t)) (enc_item (IText t)).
Proof.
  intros Ht e He. destruct (head_then_block malloc_ok 3 t ltac:(lia) Ht e He) as (e' & E & HE).
  exists e'. split; [| exact HE]. rewrite <- E. unfold cbor_encode_text_len. cbn [cbor_type_code].
  destruct (encode_type_arg _ _ _ _) as [e1|]; [| done]. cbn [mbind option_bind].
  destruct (0 <? zlen t); [| done]. unfold encoder_write_bytes.
  destruct (e_error _); [done |]. rewrite zlen_app. pose proof (zlen_nonneg r).
  destruct (Z.ltb_spec (zlen t + zlen r) (zlen t)); [lia |]. rewrite Z.ltb_irrefl, takeZ_app.
  by rewrite takeZ_all.
Qed.

Lemma put_texts_writes l :
  Forall (text_ok 8190) l → zlen (enc_item (IArray (IText <$> l))) <= 8192 →
  Writes (put_array malloc_ok (put_address malloc_ok) (Some <$> l)) (enc_item (IArray (IText <$> l))).
Proof.
  intros Hl Hlen. apply put_pointers_writes; [| | zlia].
  - eapply Forall_impl; [exact Hl |]. intros s [Hs _]. apply put_text_writes. zlia.
  - intros x. cbn. rewrite zlen_app. heads. zl.
Qed.

Lemma put_ids_writes n l :
  n < 8192 → Forall (id_ok n) l → zlen (enc_item (IArray (IBytes <$> l))) <= 8192 →
  Writes (put_array malloc_ok (put_id malloc_ok n) (Some <$> l)) (enc_item (IArray (IBytes <$> l))).
Proof.
  intros Hn Hl Hlen. apply put_pointers_writes; [| | zlia].
  - eapply Forall_impl; [exact Hl |]. intros s [<- _]. apply put_bytes_writes; [done | zlia].
  - intros x. cbn. rewrite zlen_app. heads. zl.
Qed.

Lemma body_fields_written b t :
  message_wf b t →
  ∃ mb, body_fields malloc_ok b = Some mb ∧ 0 <= mb_cap mb ∧ entries mb = written_entries b t.
Proof using malloc_small.
  intros [? [Hau _] [Hdi _] [Hfr _] (to & Hto & Ht1 & Ht2) [Har _] [Hsu _] ? ([Ht _] & Htl & r & Htx)
    [Hro _] [Hpa _] [Hre _] (rf & Hrf & Hr1 & Hr2) ? ? ? (pa & Hpt & Hp1 & Hp2) ?].
  unfold body_fields, written_entries. rewrite Hto, Hrf, Hpt, Htl, Htx, !elements_some.
  builds_start ([_] ++ [_] ++ opt _ _ ++ [_] ++ [_] ++ opt _ _ ++ [_] ++ [_] ++ [_] ++ opt _ _ ++
    opt _ _ ++ opt _ _ ++ [_] ++ [_] ++ [_] ++ [_] ++ [_] ++ [_]).
  - builds malloc_small; try (by apply put_texts_writes); try (by apply (put_ids_writes _ _));
      try done; try (apply put_text_len_writes).
    all: cbn [enc_item] in *; try pose proof (head_len_16 3 (zlen t));
      rewrite ?zlen_app; heads; sizes; try zlia.
    + rewrite Hro. by apply put_bytes_writes.
    + rewrite Hpa. by apply put_bytes_writes.
  - pose proof (written_len b t) as H. unfold written_entries in H.
    by rewrite Hto, Hrf, Hpt, !elements_some in H.
Qed.

Lemma encoded_message b t :
  message_wf b t →
  encoded malloc_ok 8192 (λ e, encode_message_body malloc_ok e b) =
    Some (if zlen (enc_item (message_item b t)) <=? 8192 then Some (enc_item (message_item b t))
          else None).
Proof using malloc_small.
  intros Hb. destruct (body_fields_written b t Hb) as (mb & E & _ & Hl). rewrite message_item_bytes.
  apply (encoded_map _ malloc_small _ mb); [lia | | | |].
  - intros e. unfold encode_message_body. by rewrite E.
  - by rewrite Hl, canonical_written.
  - apply Forall_fmap. eapply Forall_impl; [by apply message_fields_ok |].
    intros f [[_ Hv] [Hk _]]. split; cbn; zlia.
  - rewrite Hl. apply written_len.
Qed.
End encode.

(** ** Decoding *)

Section decode.
Context (malloc_ok : Z → bool) (malloc_small : small_ok malloc_ok).

(** The elements of an array, each read by [element]. *)
Lemma decode_elements_read {A} (element : decoder → option (A * decoder)) (mk : list Z → item)
    (g : list Z → A) l :
  (∀ x, 1 <= zlen (enc_item (mk x))) →
  Forall (λ x, ∀ pre rest, zlen (pre ++ enc_item (mk x) ++ rest) < 2 ^ 63 →
    element (cur pre (enc_item (mk x) ++ rest)) = Some (g x, cur (pre ++ enc_item (mk x)) rest)) l →
  ∀ fuel pre rest, let bytes := concat (enc_item <$> (mk <$> l)) in
  zlen (pre ++ bytes ++ rest) < 2 ^ 63 → (length bytes < fuel)%nat →
  decode_elements element fuel (zlen l) (cur pre (bytes ++ rest)) =
    Some (g <$> l, cur (pre ++ bytes) rest).
Proof.
  intros Hmk. induction 1 as [|x l Hx _ IH]; intros [|fuel] pre rest bytes Hsize Hfuel; try lia.
  { cbn. by rewrite app_nil_r. }
  unfold bytes in *. clear bytes. rewrite !fmap_cons, concat_cons, length_app in *.
  set (B := concat (enc_item <$> (mk <$> l))) in *. rewrite <- !app_assoc in *.
  cbn [decode_elements]. destruct (Z.ltb_spec 0 (zlen (x :: l))); [| zl].
  unfold cbor_decoder_ok. cbn [andb cur d_error negb]. rewrite Hx by done. cbn [mbind option_bind].
  replace (zlen (x :: l) - 1) with (zlen l) by zl. rewrite app_assoc.
  specialize (Hmk x). unfold zlen in Hmk.
  rewrite IH; [by rewrite <- !app_assoc | by rewrite <- !app_assoc | lia].
Qed.

(** An array of pointers that all are there. *)
Lemma decode_pointers_read (element : decoder → option (option (list Z) * decoder))
    (mk : list Z → item) l old fuel pre rest :
  (∀ x, 1 <= zlen (enc_item (mk x))) →
  Forall (λ x, ∀ pre rest, zlen (pre ++ enc_item (mk x) ++ rest) < 2 ^ 63 →
    element (cur pre (enc_item (mk x) ++ rest)) = Some (Some x, cur (pre ++ enc_item (mk x)) rest)) l →
  zlen (enc_item (IArray (mk <$> l))) <= 8192 →
  zlen (pre ++ enc_item (IArray (mk <$> l)) ++ rest) < 2 ^ 63 →
  (length (enc_item (IArray (mk <$> l))) < fuel)%nat →
  decode_pointers malloc_ok element fuel old (cur pre (enc_item (IArray (mk <$> l)) ++ rest)) =
    Some (if_any (Some <$> l) old, cur (pre ++ enc_item (IArray (mk <$> l))) rest).
Proof using malloc_small.
  intros Hmk Hl Hlen Hsize Hfuel. cbn [enc_item] in *. rewrite zlen_map, zlen_app in *.
  assert (Hn : zlen l <= zlen (concat (enc_item <$> (mk <$> l)))).
  { rewrite <- list_fmap_compose. by apply (zlen_concat_ge (enc_item ∘ mk)). }
  pose proof (head_len 4 (zlen l)). pose proof (zlen_nonneg l).
  unfold decode_pointers, cbor_decode_array. rewrite <- app_assoc.
  rewrite (decode_count_head _ _ CBOR_TYPE_ARRAY) by zlia. cbn [cbor_type_code].
  destruct (Z.ltb_spec 0 (zlen l)); cbn [negb].
  - rewrite malloc_small by lia. rewrite length_app in Hfuel.
    rewrite (decode_elements_read element mk Some); [| done | done | | lia].
    + rewrite <- app_assoc. by destruct l.
    + zl.
  - destruct l; [| zl]. cbn. by rewrite app_nil_r.
Qed.

Lemma strndup_c_string s off d :
  Forall (λ c, c ≠ 0) s → zlen s <= 65535 → slice off (zlen s) (d_buf d) = s →
  strndup malloc_ok off (zlen s) d = Some (Some s).
Proof using malloc_small.
  intros Hs Hlen E. unfold strndup. rewrite E, Z.ltb_irrefl. cbn [andb].
  rewrite c_string_no_nul by done. pose proof (zlen_nonneg s). by rewrite malloc_small by lia.
Qed.

Lemma text_no_nul cap s : text_ok cap s → Forall (λ c, c ≠ 0) s.
Proof. intros [_ Hs]. eapply Forall_impl; [exact Hs |]. intros c ?. cbn in *. lia. Qed.

(** A text read and copied. *)
Lemma decode_text_read s pre rest :
  text_ok 8190 s → zlen (pre ++ enc_item (IText s) ++ rest) < 2 ^ 63 →
  ∃ off, let d := cur (pre ++ enc_item (IText s)) rest in
    cbor_decode_text (cur pre (enc_item (IText s) ++ rest)) = (Some (off, zlen s), d) ∧
    strndup malloc_ok off (zlen s) d = Some (Some s).
Proof using malloc_small.
  intros Hs Hsize. cbn [enc_item] in *. rewrite <- app_assoc in *. eexists. split.
  - unfold cbor_decode_text. by rewrite (decode_block_head pre rest CBOR_TYPE_TEXT).
  - destruct (Hs) as [Hlen _]. apply strndup_c_string; [by eapply text_no_nul | lia |].
    cbn [cur d_buf cbor_type_code]. rewrite <- !app_assoc. apply payload_slice.
Qed.

Lemma decode_address_read s pre rest :
  text_ok 8190 s → zlen (pre ++ enc_item (IText s) ++ rest) < 2 ^ 63 →
  decode_address malloc_ok (cur pre (enc_item (IText s) ++ rest)) =
    Some (Some s, cur (pre ++ enc_item (IText s)) rest).
Proof using malloc_small.
  intros Hs Hsize. destruct (decode_text_read s pre rest Hs Hsize) as (off & E1 & E2).
  unfold decode_address. rewrite E1, E2. done.
Qed.

Lemma decode_path_node_read s pre rest :
  id_ok PLANK_NODE_ID_SIZE s → zlen (pre ++ enc_item (IBytes s) ++ rest) < 2 ^ 63 →
  decode_path_node (cur pre (enc_item (IBytes s) ++ rest)) =
    Some (Some s, cur (pre ++ enc_item (IBytes s)) rest).
Proof.
  intros [Hs _] Hsize. cbn [enc_item] in *. rewrite <- app_assoc in *.
  unfold decode_path_node, cbor_decode_bytes.
  rewrite (decode_block_head pre rest CBOR_TYPE_BYTES) by done. rewrite Hs, Z.eqb_refl.
  cbn [cur d_buf cbor_type_code]. rewrite <- !app_assoc, <- Hs. by rewrite payload_slice.
Qed.

(** A key that the decoder does not know. *)
Lemma skip_read {T} fuel pre rest it (o : T) :
  item_ok it → zlen (pre ++ enc_item it ++ rest) < 2 ^ 63 → (2 * length (enc_item it) < fuel)%nat →
  (d ← cbor_skip fuel (cur pre (enc_item it ++ rest)); Some (o, d)) =
    Some (id o, cur (pre ++ enc_item it) rest).
Proof. intros Hit Hsize Hfuel. destruct (enc_item_skips it Hit) as [_ Hskip]. by rewrite Hskip. Qed.

Lemma store_text {T} (set : cstr → T → T) cap old s o pre rest :
  text_ok cap s → zlen (pre ++ enc_item (IText s) ++ rest) < 2 ^ 63 →
  store_field set (decode_string cap old (cur pre (enc_item (IText s) ++ rest))) o =
    Some (set s o, cur (pre ++ enc_item (IText s)) rest).
Proof.
  intros Hs Hsize. unfold store_field. cbn [enc_item] in *.
  rewrite decode_string_head; [done | by destruct Hs | by eapply text_no_nul | done].
Qed.

Lemma store_id {T} (set : list Z → T → T) n old s o pre rest :
  id_ok n s → zlen (pre ++ enc_item (IBytes s) ++ rest) < 2 ^ 63 →
  store_field set (decode_id n old (cur pre (enc_item (IBytes s) ++ rest))) o =
    Some (set s o, cur (pre ++ enc_item (IBytes s)) rest).
Proof.
  intros [<- _] Hsize. unfold store_field. cbn [enc_item] in *. by rewrite decode_id_head.
Qed.

Lemma message_fields_read b t :
  message_wf b t →
  Forall (λ f, Reads (decode_message_field malloc_ok) (MkEntry f.1.1 (enc_item f.1.2)) f.2)
    (message_fields b t).
Proof using malloc_small.
  intros [? Hau Hdi Hfr (to & Hto & Ht1 & Ht2) Har Hsu ? (Ht & _)
    Hro Hpa Hre (rf & Hrf & Hr1 & Hr2) ? ? ? (pa & Hpt & Hp1 & Hp2) ?].
  unfold message_fields. rewrite Hto, Hrf, Hpt, !elements_some.
  repeat (apply Forall_app; split).
  all: repeat (apply Forall_cons_2; [| try apply Forall_nil_2]); try (apply Forall_opt); cbn [fst snd].
  all: which_key decode_message_field.
  all: try (by apply store_text); try (by apply store_id); try (apply store_number; [lia | done]).
  - rewrite (decode_pointers_read decode_path_node IBytes pa); try done;
      [by intros; apply block_nonempty | | lia].
    eapply Forall_impl; [exact Hp1 |]. intros x Hx ??. by apply decode_path_node_read.
  - apply skip_read; [| done | done]. eapply proj1, text_sendable; [| exact Hre]. done.
  - rewrite (decode_pointers_read (decode_address malloc_ok) IText to); try done;
      [by intros; apply block_nonempty | | lia].
    eapply Forall_impl; [exact Ht1 |]. intros x Hx ??. by apply decode_address_read.
  - destruct (decode_text_read t pre rest) as (n & E1 & E2); [done | done |].
    rewrite E1, E2. done.
  - apply skip_read; [| done | done]. eapply proj1, array_sendable; [by intros; apply block_nonempty | | done].
    eapply Forall_impl; [exact Hr1 |]. intros x Hx. eapply proj1, id_sendable; [| exact Hx]. done.
Qed.

(** What is read from the body of a message: neither the address to reply to nor
    the references to attachments, and an area only of a post to an area. *)
Definition delivered (b : plank_message_body) (t : cstr) : plank_message_body :=
  set_reply_to [] (set_attachment_refs [] (set_body_text (Some (t ++ [0]))
    (set_area_addr (if message_type b =? PLANK_MSG_AREA_POST then area_addr b else []) b))).

Lemma is_empty_nil s : is_empty s = true → s = [].
Proof. by destruct s. Qed.

Lemma zero_id id :
  zlen id = PLANK_OBJECT_ID_SIZE → plank_object_id_is_zero id = true →
  id = zeros PLANK_OBJECT_ID_SIZE.
Proof.
  unfold plank_object_id_is_zero. intros Hid. rewrite takeZ_all by done. rewrite <- Hid.
  unfold zeros, zlen. rewrite Nat2Z.id. clear Hid. intros H. induction id as [|x id IH]; [done |].
  cbn in *. apply andb_true_iff in H as [Hx%Z.eqb_eq H]. subst. f_equal. auto.
Qed.

Lemma fields_delivered b t :
  message_wf b t →
  foldl (λ o f, f.2 o) plank_message_body_new (message_fields b t) = delivered b t.
Proof.
  intros [? _ _ _ _ _ _ ? (Ht & Htl & _) [Hro _] [Hpa _] _ _ ? ? ? _ ?].
  assert (Hany : ∀ x : list (option (list Z)), if_any x [] = x) by (by intros []).
  unfold delivered, message_fields, has_area. destruct b. cbn in Htl, Hro, Hpa |- *. subst.
  destruct (is_empty author_display) eqn:E1; [apply is_empty_nil in E1; subst |];
    (destruct (is_empty area_addr) eqn:E2; [apply is_empty_nil in E2; subst |]);
    (destruct (plank_object_id_is_zero parent_id) eqn:E3; [apply zero_id in E3; [subst | done] |]);
    (destruct (plank_object_id_is_zero thread_root_id) eqn:E4;
      [apply zero_id in E4; [subst | done] |]);
    destruct (is_empty reply_to), (message_type =? PLANK_MSG_AREA_POST); cbn; by rewrite !Hany.
Qed.

(** The body of a message object is read back. *)
Lemma decode_message b t o fuel :
  message_wf b t → zlen (enc_item (message_item b t)) <= 8192 →
  object_class o = PLANK_CLASS_MESSAGE → 16386 <= Z.of_nat fuel →
  plank_object_decode_message_body malloc_ok fuel
    (set_body_cbor (Some (enc_item (message_item b t))) o) = Some (Some (delivered b t)).
Proof using malloc_small.
  intros Hb Hlen Ho Hfuel. unfold plank_object_decode_message_body.
  cbn [body_cbor set_body_cbor object_class]. rewrite Ho, Z.eqb_refl. cbn [negb].
  set (fs := (λ f : cstr * item * (plank_message_body → plank_message_body),
    (MkEntry f.1.1 (enc_item f.1.2), f.2)) <$> message_fields b t).
  assert (Hfs : fs.*1 = message_entries b t) by (unfold fs; by rewrite <- list_fmap_compose).
  rewrite message_item_bytes, <- Hfs in *.
  destruct (decode_map_reads (decode_message_field malloc_ok) fs fuel) with (o := plank_message_body_new)
    as (d & -> & Herr & E); [apply Forall_fmap; by apply message_fields_read | zlia | |].
  { unfold zlen in Hlen. lia. }
  unfold cbor_decoder_ok at 1. rewrite Herr. cbn [negb]. rewrite E. cbn [mbind option_bind].
  rewrite <- fields_delivered by done. do 2 f_equal. unfold updates, fs.
  generalize plank_message_body_new. clear. induction (message_fields b t) as [|f l IH]; [done |].
  intros o. cbn. apply IH.
Qed.

(** The body of a message is encoded as the canonical CBOR map of its fields, and a
    node that decodes it gets every field back: the author, addresses, subject, text,
    thread, flags and path as they were sent. Two fields are written and never read:
    the address to reply to and the references to attachments arrive empty. *)
Theorem message_body_roundtrip b t o fuel :
  message_wf b t → zlen (enc_item (message_item b t)) <= 8192 →
  object_class o = PLANK_CLASS_MESSAGE → 16386 <= Z.of_nat fuel → ∃ bytes,
  encoded malloc_ok 8192 (λ e, encode_message_body malloc_ok e b) = Some (Some bytes) ∧
  bytes = enc_item (message_item b t) ∧
  plank_object_decode_message_body malloc_ok fuel (set_body_cbor (Some bytes) o) =
    Some (Some (delivered b t)).
Proof using malloc_small.
  intros Hb Hlen Ho Hfuel. exists (enc_item (message_item b t)).
  rewrite (encoded_message malloc_ok malloc_small b t Hb).
  destruct (Z.leb_spec (zlen (enc_item (message_item b t))) 8192); [| lia].
  split; [done |]. split; [done |]. by apply decode_message.
Qed.
End decode.

(** ** Messages as signed objects *)

(** The object of a message before it is signed. *)
Definition message_object (now : Z) (node_id : list Z) (node_addr : cstr) (body : list Z)
  : plank_object :=
  set_body_cbor (Some body) (set_created_at (u64 now)
    (set_origin_node_addr (takeZ (PLANK_MAX_ADDRESS - 1) node_addr)
      (set_origin_node_id (takeZ PLANK_NODE_ID_SIZE node_id)
        (set_object_class PLANK_CLASS_MESSAGE plank_object_new)))).

Lemma message_object_wf now node_id node_addr body :
  zlen node_id = PLANK_NODE_ID_SIZE → Forall (λ c, c ≠ 0) node_addr → zlen body <= 65536 →
  object_wf (message_object now node_id node_addr body).
Proof.
  intros Hid Haddr Hbody. split; cbn; try done.
  - by rewrite takeZ_all.
  - split; [| by apply Forall_take]. unfold takeZ, zlen. rewrite length_take. sizes. lia.
  - by apply wrap_range.
Qed.

Section messages.
Context (malloc_ok : Z → bool) (malloc_small : small_ok malloc_ok).
Context (ssl : openssl) (priv pub : list Z) (Hssl : ssl_pair ssl priv pub).

(** C27. A message that is created at one node and whose envelope is decoded at another
    arrives: the object is the same, its signature and identifier verify, and its body
    is the message that was written, but for three fields: the address to reply to and
    the references to attachments, which are written and never read, and the address of
    the area, which is written of an area's post only. The message must be one that the
    C types and the temporary buffers of 8192 bytes hold ([message_wf]): a text of less
    than 8190 bytes, names, subject and addresses within their arrays, no NUL in them,
    lists that encode to at most 8192 bytes, and so the whole body. It is created when
    its envelope fits in 4096 bytes and refused when it does not. (A longer text is
    sent though no node can read it, [long_texts_are_sent_unreadable].) Memory is there
    for what is allocated, and OpenSSL verifies what it signed. *)
Theorem message_delivered now node_id node_addr b t fuel :
  message_wf b t → zlen node_id = PLANK_NODE_ID_SIZE → Forall (λ c, c ≠ 0) node_addr →
  zlen (enc_item (message_item b t)) <= 8192 → 16386 <= Z.of_nat fuel →
  let o0 := message_object now node_id node_addr (enc_item (message_item b t)) in
  if decide (zlen (envelope_bytes false o0) + 76 <= 4096) then ∃ o e,
    plank_object_create_message malloc_ok ssl now node_id node_addr b priv = Some (Some o) ∧
    envelope_cbor o = Some e ∧
    plank_object_decode malloc_ok fuel e = Some (Some o) ∧
    plank_object_verify malloc_ok ssl o pub = Some true ∧
    plank_object_verify_id malloc_ok ssl o = Some true ∧
    plank_object_decode_message_body malloc_ok fuel o = Some (Some (delivered b t))
  else plank_object_create_message malloc_ok ssl now node_id node_addr b priv = Some None.
Proof using malloc_small Hssl.
  intros Hb Hid Haddr Hlen Hfuel o0.
  assert (Ho : object_wf o0) by (apply message_object_wf; [done | done | lia]).
  assert (Hit : item_ok (message_item b t)) by (by apply message_item_ok).
  unfold plank_object_create_message. rewrite (encoded_message malloc_ok malloc_small b t Hb).
  destruct (Z.leb_spec (zlen (enc_item (message_item b t))) 8192); [| lia].
  cbn [mbind option_bind]. fold (message_object now node_id node_addr (enc_item (message_item b t))).
  fold o0. case_decide as Hfit.
  - destruct (sign_delivers malloc_ok malloc_small ssl priv pub Hssl o0 _ fuel Ho eq_refl Hit)
      as (h & s & e & Hsign & Hdec & Hv & Hvid); [lia | done |].
    eexists _, e. rewrite Hsign. split; [done |]. split; [done |]. split; [exact Hdec |].
    split; [exact Hv |]. split; [exact Hvid |].
    by apply (decode_message malloc_ok malloc_small b t
      (set_envelope_cbor (Some e) (set_signature s (set_object_id h o0)))).
  - destruct (sign_refuses malloc_ok malloc_small ssl priv pub Hssl o0 Ho) as (o' & -> & _);
      [by eexists | lia |]. done.
Qed.
End messages.

(** ** Witnesses *)

(** A stand-in for OpenSSL: the digest is a sum, and a signature the digest twice. *)
Definition toy_digest (m : list Z) : list Z := replicate 31 0 ++ [foldl (λ a b, u8 (a * 31 + b)) 7 m].

Definition toy_ssl : openssl := MkOpenssl
  (λ m, Some (toy_digest m))
  (λ _ m, Some (toy_digest m ++ toy_digest m))
  (λ _ s m, bool_decide (s = toy_digest m ++ toy_digest m)).

Lemma toy_pair priv pub : ssl_pair toy_ssl priv pub.
Proof.
  split; intros m; eexists; (split; [done |]); [done |]. split; [done |].
  by apply bool_decide_eq_true_2.
Qed.

Definition malloc_all (n : Z) : bool := true.

Definition sample_node : list Z := replicate 16 3.

Definition sample_object : plank_object :=
  message_object 1700000000 sample_node (lit "node@plank") [0xA1; 0x61; 0x61; 0x18; 0x2A].

Definition sample_body_item : item := IMap [(IText [0x61], IUint 42)].

Lemma sample_body_ok : item_ok sample_body_item.
Proof. repeat constructor; vm_compute; intuition congruence. Qed.

Lemma sample_object_wf : object_wf sample_object.
Proof. apply message_object_wf; [done | repeat constructor | ]; done. Qed.

Lemma signed_object_delivered_witness : ∃ h s e,
  let o' := set_envelope_cbor (Some e) (set_signature s (set_object_id h sample_object)) in
  plank_object_sign malloc_all toy_ssl sample_object (zeros 64) = Some (o', true) ∧
  plank_object_decode malloc_all (Z.to_nat 8194) e = Some (Some o') ∧
  plank_object_verify malloc_all toy_ssl o' (zeros 32) = Some true ∧
  plank_object_verify_id malloc_all toy_ssl o' = Some true.
Proof.
  apply (signed_object_delivered malloc_all ltac:(done) toy_ssl (zeros 64) (zeros 32)
    (toy_pair _ _) sample_object sample_body_item (Z.to_nat 8194)).
  - exact sample_object_wf.
  - reflexivity.
  - exact sample_body_ok.
  - vm_compute. congruence.
  - vm_compute. congruence.
Defined.

Lemma large_objects_never_signed_witness :
  let o := set_body_cbor (Some (replicate (Z.to_nat 4000) 0)) sample_object in
  ∃ o', plank_object_sign malloc_all toy_ssl o (zeros 64) = Some (o', false) ∧
        (envelope_cbor o' = None ∨ o' = o).
Proof.
  apply (large_objects_never_signed malloc_all ltac:(done) toy_ssl (zeros 64) (zeros 32) (toy_pair _ _)).
  - apply (message_object_wf 1700000000 sample_node (lit "node@plank") (replicate (Z.to_nat 4000) 0));
      [done | repeat constructor; done | vm_compute; congruence].
  - by eexists.
  - vm_compute. reflexivity.
Defined.

Lemma signed_bytes_cover_fields_witness :
  let o2 := set_signature (replicate 64 9) sample_object in
  o2 = set_signature (signature o2) (set_envelope_cbor (envelope_cbor o2) sample_object).
Proof.
  apply (signed_bytes_cover_fields malloc_all sample_object (set_signature (replicate 64 9) sample_object)
    sample_body_item sample_body_item (envelope_bytes false sample_object));
    try exact sample_body_ok; try reflexivity.
  - intros n _. reflexivity.
  - exact sample_object_wf.
  - apply wf_set_signature; [exact sample_object_wf | reflexivity].
Defined.

(** A reply with an attachment, sent through two nodes. *)
Definition sample_message : plank_message_body :=
  set_author_user (lit "alice") (set_from_addr (lit "alice@one") (set_to_addrs [Some (lit "bob@two")]
  (set_area_addr (lit "general@plank") (set_subject (lit "hello") (set_body_text (Some (lit "hi bob"))
  (set_body_text_len 6 (set_parent_id (replicate 32 7) (set_reply_to (lit "alice@home")
  (set_attachment_refs [Some (replicate 32 5)] (set_path [Some sample_node; Some (replicate 16 4)]
  (set_hop_count 2 plank_message_body_new))))))))))).

Ltac concrete := apply (bool_decide_unpack _); vm_compute; exact I.

Lemma sample_message_wf : message_wf sample_message (lit "hi bob").
Proof.
  split; try concrete.
  - exists [lit "bob@two"]. split; [done |]. split; concrete.
  - split; [concrete | split; [done | by exists []]].
  - exists [replicate 32 5]. split; [done |]. split; concrete.
  - exists [sample_node; replicate 16 4]. split; [done |]. split; concrete.
Qed.

Lemma message_body_roundtrip_witness : ∃ bytes,
  encoded malloc_all 8192 (λ e, encode_message_body malloc_all e sample_message) = Some (Some bytes) ∧
  bytes = enc_item (message_item sample_message (lit "hi bob")) ∧
  plank_object_decode_message_body malloc_all (Z.to_nat 16386)
    (set_body_cbor (Some bytes) sample_object) = Some (Some (delivered sample_message (lit "hi bob"))).
Proof.
  apply (message_body_roundtrip malloc_all ltac:(done)); [exact sample_message_wf | | reflexivity |].
  - vm_compute. congruence.
  - vm_compute. congruence.
Defined.

Lemma message_delivered_witness :
  let o0 := message_object 1700000000 sample_node (lit "node@plank")
    (enc_item (message_item sample_message (lit "hi bob"))) in
  if decide (zlen (envelope_bytes false o0) + 76 <= 4096) then ∃ o e,
    plank_object_create_message malloc_all toy_ssl 1700000000 sample_node (lit "node@plank")
      sample_message (zeros 64) = Some (Some o) ∧
    envelope_cbor o = Some e ∧
    plank_object_decode malloc_all (Z.to_nat 16386) e = Some (Some o) ∧
    plank_object_verify malloc_all toy_ssl o (zeros 32) = Some true ∧
    plank_object_verify_id malloc_all toy_ssl o = Some true ∧
    plank_object_decode_message_body malloc_all (Z.to_nat 16386) o =
      Some (Some (delivered sample_message (lit "hi bob")))
  else plank_object_create_message malloc_all toy_ssl 1700000000 sample_node (lit "node@plank")
         sample_message (zeros 64) = Some None.
Proof.
  apply (message_delivered malloc_all ltac:(done) toy_ssl (zeros 64) (zeros 32) (toy_pair _ _)).
  - exact sample_message_wf.
  - reflexivity.
  - concrete.
  - vm_compute. congruence.
  - vm_compute. congruence.
Defined.

(** A text of more than 8189 bytes does not fit in the temporary buffer of its field,
    and the failure is not looked at: the head of the text is written without the text.
    The message is created, signed, and verifies, but no node can decode its envelope. A
    text of 5000 bytes, which cannot be sent either, is refused. *)
Theorem long_texts_are_sent_unreadable :
  let send t := plank_object_create_message malloc_all toy_ssl 0 sample_node (lit "node@plank")
    (set_body_text (Some t) (set_body_text_len (zlen t) sample_message)) (zeros 64) in
  send (replicate (Z.to_nat 5000) 97) = Some None ∧
  ∃ o e, send (replicate (Z.to_nat 8190) 97) = Some (Some o) ∧
    envelope_cbor o = Some e ∧ plank_object_verify malloc_all toy_ssl o (zeros 32) = Some true ∧
    plank_object_verify_id malloc_all toy_ssl o = Some true ∧
    plank_object_decode malloc_all (Z.to_nat 10000) e = Some None.
Proof.
  split; [by vm_compute |]. eexists _, _. split; [vm_compute; reflexivity |].
  split; [reflexivity |]. repeat split; by vm_compute.
Qed.
