(* ===== verification/PlankCore.v ===== *)
(** The core of PLANK from src/plank/plank_core.c and src/plank/plank_crypto.c:
    addresses of nodes, users and areas, copies of messages, hexadecimal
    identifiers and the transcript that two nodes sign when they connect. *)

From S2P Require Import Prelude CLib PlankObject.

#[local] Open Scope Z_scope.

(** ** Addresses *)

(** include/plank/plank_types.h:36-39 (PLANK_MAX_NODE_NAME) *)
Definition PLANK_MAX_NODE_NAME : Z := 32.
Definition PLANK_MAX_NETWORK_NAME : Z := 32.
Definition PLANK_MAX_AREA_SLUG : Z := 48.

(** src/plank/plank_core.c:113-117 (is_valid_name_char) *)
Definition is_valid_name_char (c : Z) : bool :=
  ((ch "a" <=? c) && (c <=? ch "z")) || ((ch "0" <=? c) && (c <=? ch "9")) ||
  (c =? ch "_") || (c =? ch "-").

(** src/plank/plank_core.c:119-121 (is_valid_user_char) *)
Definition is_valid_user_char (c : Z) : bool := is_valid_name_char c || (c =? ch ".").

(** src/plank/plank_core.c:123-125 (is_valid_slug_char) *)
Definition is_valid_slug_char (c : Z) : bool := is_valid_name_char c || (c =? ch ".").

(** src/plank/plank_core.c:127-135 (validate_name) *)
Definition validate_name (name : cstr) (max_len : Z) : bool :=
  negb (is_empty name) && (zlen name <=? max_len) && forallb is_valid_name_char name.

(** src/plank/plank_core.c:348-353 (plank_canonicalize_addr) *)
Definition plank_canonicalize_addr (addr : cstr) : cstr := tolower <$> addr.

(** [snprintf] to a buffer of [max] bytes, and the canonical form when it fits. *)
Definition put_addr (s : cstr) (max : Z) : option cstr :=
  if max <=? zlen s then None else Some (plank_canonicalize_addr s).

(** src/plank/plank_core.c:141-166 (plank_format_node_addr) *)
Definition plank_format_node_addr (node_name network_name : cstr) (max : Z) : option cstr :=
  if negb (validate_name node_name PLANK_MAX_NODE_NAME) then None
  else if negb (validate_name network_name PLANK_MAX_NETWORK_NAME) then None
  else put_addr (node_name ++ lit "@" ++ network_name) max.

(** src/plank/plank_core.c:168-205 (plank_format_user_addr) *)
Definition plank_format_user_addr (user node_name network_name : cstr) (max : Z) : option cstr :=
  if (zlen user =? 0) || (PLANK_MAX_USER_NAME <? zlen user) then None
  else if negb (forallb is_valid_user_char user) then None
  else if negb (validate_name node_name PLANK_MAX_NODE_NAME) then None
  else if negb (validate_name network_name PLANK_MAX_NETWORK_NAME) then None
  else put_addr (user ++ lit "@" ++ node_name ++ lit "@" ++ network_name) max.

(** src/plank/plank_core.c:207-244 (plank_format_area_addr) *)
Definition plank_format_area_addr (slug origin_node network_name : cstr) (max : Z) : option cstr :=
  if (zlen slug =? 0) || (PLANK_MAX_AREA_SLUG <? zlen slug) then None
  else if negb (forallb is_valid_slug_char slug) then None
  else if negb (validate_name origin_node PLANK_MAX_NODE_NAME) then None
  else if negb (validate_name network_name PLANK_MAX_NETWORK_NAME) then None
  else put_addr (slug ++ lit "@" ++ origin_node ++ lit "@" ++ network_name) max.

(** A part of an address fits in a buffer of [max] bytes and is not empty. *)
Definition fits (s : cstr) (max : Z) : bool := negb ((zlen s =? 0) || (max <=? zlen s)).

(** The names that are stored.
    src/plank/plank_core.c:250-273 (plank_parse_node_addr) *)
Definition plank_parse_node_addr (addr : cstr) (node_max network_max : Z) : option (cstr * cstr) :=
  '(node_name, network_name) ← cut (ch "@") addr;
  if negb (fits node_name node_max) then None
  else if negb (fits network_name network_max) then None
  else match cut (ch "@") network_name with
       | Some _ => None
       | None => Some (node_name, network_name)
       end.

(** src/plank/plank_core.c:275-308 (plank_parse_user_addr) *)
Definition plank_parse_user_addr (addr : cstr) (user_max node_max network_max : Z)
  : option (cstr * cstr * cstr) :=
  '(user, r) ← cut (ch "@") addr;
  '(node_name, network_name) ← cut (ch "@") r;
  match cut (ch "@") network_name with
  | Some _ => None
  | None =>
      if negb (fits user user_max) then None
      else if negb (fits node_name node_max) then None
      else if negb (fits network_name network_max) then None
      else Some (user, node_name, network_name)
  end.

(** src/plank/plank_core.c:310-317 (plank_parse_area_addr) *)
Definition plank_parse_area_addr (addr : cstr) (slug_max origin_max network_max : Z)
  : option (cstr * cstr * cstr) := plank_parse_user_addr addr slug_max origin_max network_max.

Definition succeeds {A} (x : option A) : bool := match x with Some _ => true | None => false end.

(** src/plank/plank_core.c:323-328 (plank_validate_node_addr) *)
Definition plank_validate_node_addr (addr : cstr) : bool :=
  succeeds (plank_parse_node_addr addr (PLANK_MAX_NODE_NAME + 1) (PLANK_MAX_NETWORK_NAME + 1)).

(** src/plank/plank_core.c:330-337 (plank_validate_user_addr) *)
Definition plank_validate_user_addr (addr : cstr) : bool :=
  succeeds (plank_parse_user_addr addr (PLANK_MAX_USER_NAME + 1) (PLANK_MAX_NODE_NAME + 1)
    (PLANK_MAX_NETWORK_NAME + 1)).

(** src/plank/plank_core.c:339-346 (plank_validate_area_addr) *)
Definition plank_validate_area_addr (addr : cstr) : bool :=
  succeeds (plank_parse_area_addr addr (PLANK_MAX_AREA_SLUG + 1) (PLANK_MAX_NODE_NAME + 1)
    (PLANK_MAX_NETWORK_NAME + 1)).

(** ** Copies of messages *)

Section clone.
Context (malloc_ok : Z → bool).

(** Copies of the elements of an array. An element that is null is undefined
    behaviour, and [Some None] is a copy that is not allocated. *)
Fixpoint clone_elements (size : list Z → Z) (l : list (option (list Z)))
  : option (option (list (option (list Z)))) :=
  match l with
  | [] => Some (Some [])
  | None :: _ => None
  | Some x :: l =>
      if negb (malloc_ok (size x)) then Some None
      else r ← clone_elements size l;
           Some match r with Some l => Some (Some x :: l) | None => None end
  end.

Definition clone_array (size : list Z → Z) (l : list (option (list Z)))
  : option (option (list (option (list Z)))) :=
  match l with
  | [] => Some (Some [])
  | _ => if malloc_ok (zlen l * 8) then clone_elements size l else Some None
  end.

(** The text, its terminator and its length; nothing of an empty text. *)
Definition clone_text (text : option (list Z)) (len : Z) : option (option (option (list Z) * Z)) :=
  match text with
  | Some s =>
      if negb (0 <? len) then Some (Some (None, 0))
      else if negb (malloc_ok (len + 1)) then Some None
      else if zlen s <? len then None
      else Some (Some (Some (takeZ len s ++ [0]), len))
  | None => Some (Some (None, 0))
  end.

(** [Some None] is a null result.
    src/plank/plank_core.c:452-539 (plank_message_body_clone) *)
Definition plank_message_body_clone (b : plank_message_body) : option (option plank_message_body) :=
  let clone := set_message_type (message_type b) (set_author_user (author_user b)
    (set_author_display (author_display b) (set_from_addr (from_addr b)
    (set_area_addr (area_addr b) (set_subject (subject b) (set_body_format (body_format b)
    (set_thread_root_id (thread_root_id b) (set_parent_id (parent_id b) (set_reply_to (reply_to b)
    (set_retention_class (retention_class b) (set_visibility (visibility b) (set_flags (flags b)
    (set_hop_count (hop_count b) plank_message_body_new))))))))))))) in
  text ← clone_text (body_text b) (body_text_len b);
  match text with
  | None => Some None
  | Some (text, len) =>
      to ← clone_array (λ s, zlen s + 1) (to_addrs b);
      match to with
      | None => Some None
      | Some to =>
          refs ← clone_array (λ _, PLANK_ATTACHMENT_ID_SIZE) (attachment_refs b);
          match refs with
          | None => Some None
          | Some refs =>
              p ← clone_array (λ _, PLANK_NODE_ID_SIZE) (path b);
              Some match p with
                | None => None
                | Some p =>
                    Some (set_path p (set_attachment_refs refs (set_to_addrs to
                      (set_body_text_len len (set_body_text text clone)))))
                end
          end
      end
  end.
End clone.

(** ** Names *)

(** src/plank/plank_core.c:554-569 (plank_object_class_name) *)
Definition plank_object_class_name (cls : Z) : cstr :=
  if cls =? 1 then lit "AreaDefinition"
  else if cls =? 2 then lit "AreaPolicy"
  else if cls =? 3 then lit "Message"
  else if cls =? 4 then lit "AttachmentMeta"
  else if cls =? 5 then lit "SubscriptionEvent"
  else if cls =? 6 then lit "ModerationEvent"
  else if cls =? 7 then lit "RoutingEvent"
  else if cls =? 8 then lit "ReceiptEvent"
  else if cls =? 9 then lit "LinkEvent"
  else if cls =? 10 then lit "BundleCheckpoint"
  else if cls =? 11 then lit "NodeInfo"
  else lit "Unknown".

(** src/plank/plank_core.c:571-578 (plank_message_type_name) *)
Definition plank_message_type_name (type : Z) : cstr :=
  if type =? 1 then lit "AREA_POST"
  else if type =? 2 then lit "DIRECT_POST"
  else if type =? 3 then lit "SYSTEM_POST"
  else lit "Unknown".

(** ** Hexadecimal *)

Definition hex_chars : cstr := lit "0123456789abcdef".

(** src/plank/plank_crypto.c:389-395 (plank_crypto_to_hex) *)
Fixpoint plank_crypto_to_hex (bytes : list Z) : cstr :=
  match bytes with
  | [] => []
  | b :: bytes =>
      default 0 (nthZ hex_chars (Z.land (Z.shiftr b 4) 0xF)) ::
      default 0 (nthZ hex_chars (Z.land b 0xF)) :: plank_crypto_to_hex bytes
  end.

(** src/plank/plank_crypto.c:397-402 (hex_digit) *)
Definition hex_digit (c : Z) : Z :=
  if (ch "0" <=? c) && (c <=? ch "9") then c - ch "0"
  else if (ch "a" <=? c) && (c <=? ch "f") then c - ch "a" + 10
  else if (ch "A" <=? c) && (c <=? ch "F") then c - ch "A" + 10
  else -1.

(** The loop over the pairs of digits; the bytes written before a bad digit are
    not a result.
    src/plank/plank_crypto.c:411-416 (plank_crypto_from_hex) *)
Fixpoint hex_pairs (hex : cstr) : option (list Z) :=
  match hex with
  | h :: l :: hex =>
      let hi := hex_digit h in
      let lo := hex_digit l in
      if (hi <? 0) || (lo <? 0) then None
      else r ← hex_pairs hex; Some (u8 (Z.lor (Z.shiftl hi 4) lo) :: r)
  | _ => Some []
  end.

(** src/plank/plank_crypto.c:404-419 (plank_crypto_from_hex) *)
Definition plank_crypto_from_hex (hex : cstr) (max_len : Z) : option (list Z) :=
  if negb (zlen hex mod 2 =? 0) then None
  else if max_len <? zlen hex / 2 then None
  else hex_pairs hex.

(** src/plank/plank_core.c:545-547 (plank_object_id_to_hex) *)
Definition plank_object_id_to_hex (id : list Z) : cstr :=
  plank_crypto_to_hex (takeZ PLANK_OBJECT_ID_SIZE id).

(** src/plank/plank_core.c:549-552 (plank_hex_to_object_id) *)
Definition plank_hex_to_object_id (hex : cstr) : option (list Z) :=
  if negb (zlen hex =? PLANK_OBJECT_ID_SIZE * 2) then None
  else plank_crypto_from_hex hex PLANK_OBJECT_ID_SIZE.

(** ** Authentication *)

Definition PLANK_NONCE_SIZE : Z := 32.
Definition PLANK_LINK_ID_SIZE : Z := 16.

(** [for (int i = 7; i >= 0; i--) *p++ = (uint8_t)(timestamp >> (i * 8));] *)
Definition timestamp_bytes (timestamp : Z) : list Z :=
  (λ i, u8 (Z.shiftr timestamp (i * 8))) <$> [7; 6; 5; 4; 3; 2; 1; 0].

(** src/plank/plank_crypto.c:246-291 (plank_crypto_build_auth_transcript) *)
Definition plank_crypto_build_auth_transcript
    (initiator_node_id responder_node_id initiator_link_id initiator_nonce responder_nonce : list Z)
    (initiator_timestamp responder_timestamp : Z) : list Z :=
  lit "PLANK-AUTH-v1" ++
  takeZ PLANK_NODE_ID_SIZE initiator_node_id ++ takeZ PLANK_NODE_ID_SIZE responder_node_id ++
  takeZ PLANK_LINK_ID_SIZE initiator_link_id ++
  takeZ PLANK_NONCE_SIZE initiator_nonce ++ takeZ PLANK_NONCE_SIZE responder_nonce ++
  timestamp_bytes initiator_timestamp ++ timestamp_bytes responder_timestamp.
