(* ===== verification/PlankCoreSpec.v ===== *)
(** The core of PLANK: formatting and parsing of addresses are inverse, so are
    those of identifiers in hexadecimal, the transcript of a connection
    determines everything that it was built from, and a copy of a message is
    that message. *)

From S2P Require Import Prelude CLib PlankObject PlankWire PlankMessageSpec PlankCore.
#[local] Open Scope Z_scope.

(** ** Addresses *)

(** A character of a name is not an [@] and has no capital form. *)
Lemma user_char_spec c : (is_valid_user_char c = true) → c ≠ ch "@" ∧ tolower c = c.
Proof.
  unfold is_valid_user_char, is_valid_name_char, tolower, isupper. chars. intros H.
  destruct (Z.leb_spec 65 c), (Z.leb_spec c 90); cbn [andb]; lia.
Qed.

Lemma user_chars_spec s :
  forallb is_valid_user_char s = true → (ch "@" ∉ s) ∧ plank_canonicalize_addr s = s.
Proof.
  induction s as [|c s IH]; cbn; [intros _; split; [apply not_elem_of_nil | done] |].
  intros [Hc Hs]%andb_true_iff. destruct (user_char_spec c Hc) as [Hat Hlow].
  destruct (IH Hs) as [Hin Hcan]. split; [by apply not_elem_of_cons |].
  unfold plank_canonicalize_addr in *. cbn. by rewrite Hlow, Hcan.
Qed.

Lemma validate_name_spec s max :
  validate_name s max = true →
  (0 < zlen s <= max) ∧ (ch "@" ∉ s) ∧ plank_canonicalize_addr s = s.
Proof.
  unfold validate_name. intros [[Hne Hlen]%andb_true_iff Hs]%andb_true_iff. split.
  - destruct s; [done |]. rewrite zlen_cons in *. pose proof (zlen_nonneg s). lia.
  - apply user_chars_spec, forallb_forall. intros c Hc. unfold is_valid_user_char.
    rewrite forallb_forall in Hs. by rewrite (Hs c Hc).
Qed.

Lemma canonicalize_app s t :
  plank_canonicalize_addr (s ++ t) = plank_canonicalize_addr s ++ plank_canonicalize_addr t.
Proof. apply fmap_app. Qed.

Lemma fits_spec s max : 0 < zlen s < max → fits s max = true.
Proof. unfold fits. lia. Qed.

(** A user or area address with names that are well-formed is taken apart. *)
Lemma parse_three u n w max umax :
  forallb is_valid_user_char u = true → 0 < zlen u <= umax →
  validate_name n PLANK_MAX_NODE_NAME = true → validate_name w PLANK_MAX_NETWORK_NAME = true →
  ∀ a, put_addr (u ++ lit "@" ++ n ++ lit "@" ++ w) max = Some a →
  a = u ++ lit "@" ++ n ++ lit "@" ++ w ∧ zlen a < max ∧
  plank_parse_user_addr a (umax + 1) (PLANK_MAX_NODE_NAME + 1) (PLANK_MAX_NETWORK_NAME + 1) =
    Some (u, n, w).
Proof.
  intros Hu Hul (Hnl & Hna & Hnc)%validate_name_spec (Hwl & Hwa & Hwc)%validate_name_spec a.
  destruct (user_chars_spec u Hu) as [Hua Huc]. unfold put_addr.
  destruct (Z.leb_spec max (zlen (u ++ lit "@" ++ n ++ lit "@" ++ w))); [done |].
  rewrite !canonicalize_app, Huc, Hnc, Hwc. intros [= <-]. split; [done |]. split; [done |].
  unfold plank_parse_user_addr. cbn [lit app]. change (Z.of_nat (nat_of_ascii "@")) with (ch "@").
  rewrite cut_app by done. cbn [mbind option_bind]. rewrite cut_app by done. cbn [mbind option_bind].
  rewrite cut_none by done. by rewrite !fits_spec by lia.
Qed.

(** An address of a user that is formatted from its three names is parsed back to
    them: the names hold no [@] and only characters that canonical form keeps. *)
Theorem user_addr_roundtrip user node network max a :
  plank_format_user_addr user node network max = Some a →
  zlen a < max ∧ plank_validate_user_addr a = true ∧
  plank_parse_user_addr a (PLANK_MAX_USER_NAME + 1) (PLANK_MAX_NODE_NAME + 1)
    (PLANK_MAX_NETWORK_NAME + 1) = Some (user, node, network).
Proof.
  unfold plank_format_user_addr.
  destruct (Z.eqb_spec (zlen user) 0), (Z.ltb_spec PLANK_MAX_USER_NAME (zlen user)); try done.
  cbn [orb]. destruct (forallb is_valid_user_char user) eqn:Hu; [| done].
  destruct (validate_name node _) eqn:Hn; [| done]. destruct (validate_name network _) eqn:Hw; [| done].
  cbn [negb]. intros Ha. pose proof (zlen_nonneg user).
  destruct (parse_three user node network max PLANK_MAX_USER_NAME Hu ltac:(lia) Hn Hw a Ha)
    as (_ & Hlen & Hp).
  split; [done |]. split; [| done]. unfold plank_validate_user_addr. by rewrite Hp.
Qed.

Theorem area_addr_roundtrip slug origin network max a :
  plank_format_area_addr slug origin network max = Some a →
  zlen a < max ∧ plank_validate_area_addr a = true ∧
  plank_parse_area_addr a (PLANK_MAX_AREA_SLUG + 1) (PLANK_MAX_NODE_NAME + 1)
    (PLANK_MAX_NETWORK_NAME + 1) = Some (slug, origin, network).
Proof.
  unfold plank_format_area_addr.
  destruct (Z.eqb_spec (zlen slug) 0), (Z.ltb_spec PLANK_MAX_AREA_SLUG (zlen slug)); try done.
  cbn [orb]. destruct (forallb is_valid_slug_char slug) eqn:Hu; [| done].
  destruct (validate_name origin _) eqn:Hn; [| done]. destruct (validate_name network _) eqn:Hw; [| done].
  cbn [negb]. intros Ha. pose proof (zlen_nonneg slug).
  destruct (parse_three slug origin network max PLANK_MAX_AREA_SLUG Hu ltac:(lia) Hn Hw a Ha)
    as (_ & Hlen & Hp).
  split; [done |]. split; [| done]. unfold plank_validate_area_addr, plank_parse_area_addr.
  by rewrite Hp.
Qed.

Theorem node_addr_roundtrip node network max a :
  plank_format_node_addr node network max = Some a →
  zlen a < max ∧ plank_validate_node_addr a = true ∧
  plank_parse_node_addr a (PLANK_MAX_NODE_NAME + 1) (PLANK_MAX_NETWORK_NAME + 1) =
    Some (node, network).
Proof.
  unfold plank_format_node_addr.
  destruct (validate_name node _) eqn:Hn; [| done]. destruct (validate_name network _) eqn:Hw; [| done].
  apply validate_name_spec in Hn as (Hnl & Hna & Hnc), Hw as (Hwl & Hwa & Hwc).
  cbn [negb]. unfold put_addr.
  destruct (Z.leb_spec max (zlen (node ++ lit "@" ++ network))); [done |].
  rewrite !canonicalize_app, Hnc, Hwc. change (plank_canonicalize_addr (lit "@")) with (lit "@").
  intros Ha. assert (a = node ++ lit "@" ++ network) as -> by congruence.
  assert (Hp : plank_parse_node_addr (node ++ lit "@" ++ network) (PLANK_MAX_NODE_NAME + 1)
    (PLANK_MAX_NETWORK_NAME + 1) = Some (node, network)).
  { unfold plank_parse_node_addr. cbn [lit app]. change (Z.of_nat (nat_of_ascii "@")) with (ch "@").
    rewrite cut_app by done. cbn [mbind option_bind]. rewrite cut_none by done.
    by rewrite !fits_spec by lia. }
  split; [done |]. split; [| done]. unfold plank_validate_node_addr. by rewrite Hp.
Qed.

(** What is parsed are the parts of the address. *)
Theorem parse_user_addr_sound a umax nmax wmax u n w :
  plank_parse_user_addr a umax nmax wmax = Some (u, n, w) →
  a = u ++ lit "@" ++ n ++ lit "@" ++ w ∧
  0 < zlen u < umax ∧ 0 < zlen n < nmax ∧ 0 < zlen w < wmax ∧ ch "@" ∉ u ++ n ++ w.
Proof.
  unfold plank_parse_user_addr.
  destruct (cut (ch "@") a) as [[u' r] |] eqn:E1; [| done]. cbn [mbind option_bind].
  destruct (cut (ch "@") r) as [[n' w'] |] eqn:E2; [| done]. cbn [mbind option_bind].
  destruct (cut (ch "@") w') as [|] eqn:E3; [done |].
  destruct (fits u' umax) eqn:F1, (fits n' nmax) eqn:F2, (fits w' wmax) eqn:F3; try done.
  cbn. intros [= <- <- <-].
  apply cut_sound in E1 as [-> Hu], E2 as [-> Hn]. unfold fits in *.
  pose proof (zlen_nonneg u'). pose proof (zlen_nonneg n'). pose proof (zlen_nonneg w').
  split; [done |]. split; [lia |]. split; [lia |]. split; [lia |].
  rewrite !elem_of_app. intros [? | [? | Hw]]; [done | done |].
  apply list_elem_of_split in Hw as (l1 & l2 & ->).
  clear - E3. induction l1 as [|x l1 IH]; cbn in E3; [done |].
  destruct (x =? ch "@"); [done |]. destruct (cut _ _) as [[??] |]; [done |]. by apply IH.
Qed.

(** The validation of an address looks at the lengths of its names only. *)
Lemma addresses_are_not_validated :
  plank_validate_node_addr (lit "A B!@x") = true ∧
  plank_format_node_addr (lit "A B!") (lit "x") 128 = None.
Proof. by vm_compute. Qed.

(** ** Hexadecimal *)

Lemma hex_byte b :
  in_u 8 b →
  let h := default 0 (nthZ hex_chars (Z.land (Z.shiftr b 4) 0xF)) in
  let l := default 0 (nthZ hex_chars (Z.land b 0xF)) in
  (hex_digit h <? 0) || (hex_digit l <? 0) = false ∧
  u8 (Z.lor (Z.shiftl (hex_digit h) 4) (hex_digit l)) = b.
Proof.
  intros Hb. assert (H : forallb (λ b,
    let h := default 0 (nthZ hex_chars (Z.land (Z.shiftr b 4) 0xF)) in
    let l := default 0 (nthZ hex_chars (Z.land b 0xF)) in
    negb ((hex_digit h <? 0) || (hex_digit l <? 0)) &&
    (u8 (Z.lor (Z.shiftl (hex_digit h) 4) (hex_digit l)) =? b)) (seqZ 0 256) = true)
    by (by vm_compute).
  rewrite forallb_forall in H. cbv zeta. specialize (H b). cbv zeta in H.
  apply andb_true_iff in H as [H1%negb_true_iff H2%Z.eqb_eq]; [done |].
  apply list_elem_of_In, elem_of_seqZ. zlia.
Qed.

(** An identifier printed in hexadecimal is read back, byte for byte. *)
Theorem hex_roundtrip bytes max :
  bytes_ok bytes → zlen bytes <= max →
  zlen (plank_crypto_to_hex bytes) = 2 * zlen bytes ∧
  plank_crypto_from_hex (plank_crypto_to_hex bytes) max = Some bytes.
Proof.
  intros Hb Hmax.
  assert (Hlen : zlen (plank_crypto_to_hex bytes) = 2 * zlen bytes).
  { clear. induction bytes as [|b bytes IH]; [done |]. cbn [plank_crypto_to_hex].
    rewrite !zlen_cons, IH. lia. }
  split; [done |]. unfold plank_crypto_from_hex. rewrite Hlen, Z.mul_comm, Z.mod_mul, Z.div_mul by lia.
  cbn [Z.eqb negb]. destruct (Z.ltb_spec max (zlen bytes)); [lia |].
  clear - Hb. induction Hb as [|b bytes Hb _ IH]; [done |].
  cbn [plank_crypto_to_hex hex_pairs]. destruct (hex_byte b Hb) as [E1 E2]. cbv zeta in *.
  rewrite E1, E2, IH. done.
Qed.

(** ** Authentication *)

Lemma timestamp_bytes_be t : timestamp_bytes t = be_bytes 8 t.
Proof.
  unfold timestamp_bytes. cbn [fmap list_fmap be_bytes]. by rewrite !Z.shiftr_div_pow2 by lia.
Qed.

Lemma timestamp_bytes_inj s t :
  in_u 64 s → in_u 64 t → timestamp_bytes s = timestamp_bytes t → s = t.
Proof.
  intros Hs Ht. rewrite !timestamp_bytes_be. intros E. apply (f_equal be_value) in E.
  rewrite !be_value_bytes in E. change (256 ^ Z.of_nat 8) with (2 ^ 64) in E.
  by rewrite !Z.mod_small in E.
Qed.

(** The transcript that both nodes of a link sign fixes who connects to whom, over
    which link, with which nonces and at what times: two equal transcripts were built
    from the same values. *)
Theorem auth_transcript_injective a1 b1 l1 m1 n1 s1 t1 a2 b2 l2 m2 n2 s2 t2 :
  Forall (λ x, zlen x = PLANK_NODE_ID_SIZE) [a1; b1; a2; b2] →
  Forall (λ x, zlen x = PLANK_LINK_ID_SIZE) [l1; l2] →
  Forall (λ x, zlen x = PLANK_NONCE_SIZE) [m1; n1; m2; n2] →
  Forall (in_u 64) [s1; t1; s2; t2] →
  plank_crypto_build_auth_transcript a1 b1 l1 m1 n1 s1 t1 =
    plank_crypto_build_auth_transcript a2 b2 l2 m2 n2 s2 t2 →
  a1 = a2 ∧ b1 = b2 ∧ l1 = l2 ∧ m1 = m2 ∧ n1 = n2 ∧ s1 = s2 ∧ t1 = t2.
Proof.
  intros Hid Hl Hn Ht. decompose_Forall_hyps.
  unfold plank_crypto_build_auth_transcript. rewrite !takeZ_all by done.
  unfold PLANK_NODE_ID_SIZE, PLANK_LINK_ID_SIZE, PLANK_NONCE_SIZE, zlen in *.
  intros E. apply app_inv_head in E.
  do 6 (apply app_inj_1 in E as [? E]; [| cbn [length fmap list_fmap timestamp_bytes]; lia]).
  pose proof timestamp_bytes_inj. auto 10.
Qed.

(** ** Copies *)

Section clone.
Context (malloc_ok : Z → bool) (malloc_small : small_ok malloc_ok).

Lemma clone_array_same size l :
  zlen l <= 8192 → Forall (λ x, 0 <= size x <= 65536) l →
  clone_array malloc_ok size (Some <$> l) = Some (Some (Some <$> l)).
Proof using malloc_small.
  intros Hlen Hl.
  assert (He : clone_elements malloc_ok size (Some <$> l) = Some (Some (Some <$> l))).
  { clear Hlen. induction Hl as [|x l Hx _ IH]; [done |]. cbn.
    rewrite malloc_small by done. cbn in IH. by rewrite IH. }
  unfold clone_array. rewrite zlen_map. pose proof (zlen_nonneg l).
  rewrite malloc_small by lia. by destruct l.
Qed.

(** A copy of a message that was received is that message, but that an empty text
    becomes no text at all. *)
Theorem clone_delivered b t :
  message_wf b t →
  plank_message_body_clone malloc_ok (delivered b t) =
    Some (Some (if is_empty t then set_body_text None (delivered b t) else delivered b t)).
Proof using malloc_small.
  intros [? _ _ _ (to & Hto & Ht1 & Ht2) _ _ ? ([Ht _] & Htl & _) _ _ _ _ ? ? ?
    (pa & Hpt & Hp1 & Hp2) ?].
  assert (Hn : ∀ mk (l : list (list Z)), (∀ x, 1 <= zlen (CborSpec.enc_item (mk x))) →
    zlen (CborSpec.enc_item (CborSpec.IArray (mk <$> l))) <= 8192 → zlen l <= 8192).
  { intros mk l Hmk H. cbn [CborSpec.enc_item] in H. rewrite zlen_app, zlen_map, <- list_fmap_compose in H.
    pose proof (zlen_concat_ge (CborSpec.enc_item ∘ mk) l Hmk).
    pose proof (CborSpec.head_len 4 (zlen l)). lia. }
  assert (Hlt : zlen to <= 8192) by (apply (Hn CborSpec.IText); [intros; apply block_nonempty | done]).
  assert (Hlp : zlen pa <= 8192) by (apply (Hn CborSpec.IBytes); [intros; apply block_nonempty | done]).
  unfold plank_message_body_clone.
  change (to_addrs (delivered b t)) with (to_addrs b). change (path (delivered b t)) with (path b).
  change (attachment_refs (delivered b t)) with (Some <$> ([] : list (list Z))).
  change (body_text (delivered b t)) with (Some (t ++ [0])).
  change (body_text_len (delivered b t)) with (body_text_len b).
  rewrite Hto, Hpt, Htl. rewrite !clone_array_same; try done.
  - unfold clone_text. rewrite (zlen_app t [0]). change (zlen [0]) with 1. pose proof (zlen_nonneg t).
    rewrite (malloc_small (zlen t + 1)) by lia. destruct t as [|c t'].
    + cbn in Htl. unfold delivered. destruct b; cbn in *. by subst.
    + destruct (Z.ltb_spec 0 (zlen (c :: t'))); [| zl].
      destruct (Z.ltb_spec (zlen (c :: t') + 1) (zlen (c :: t'))); [lia |].
      rewrite takeZ_app. unfold delivered. destruct b; cbn in Hto, Hpt, Htl |- *. by subst.
  - eapply Forall_impl; [exact Ht1 |]. intros s [Hs _]. pose proof (zlen_nonneg s). cbn in *. lia.
  - eapply Forall_impl; [exact Hp1 |]. done.
Qed.
End clone.

(** ** Witnesses *)

Lemma user_addr_roundtrip_witness :
  zlen (lit "sysop@node1@plank") < 128 ∧
  plank_validate_user_addr (lit "sysop@node1@plank") = true ∧
  plank_parse_user_addr (lit "sysop@node1@plank") (PLANK_MAX_USER_NAME + 1) (PLANK_MAX_NODE_NAME + 1)
    (PLANK_MAX_NETWORK_NAME + 1) = Some (lit "sysop", lit "node1", lit "plank").
Proof.
  apply (user_addr_roundtrip (lit "sysop") (lit "node1") (lit "plank") 128). vm_compute. reflexivity.
Defined.

Lemma auth_transcript_injective_witness :
  let a := replicate 16 1 in let b := replicate 16 2 in let l := replicate 16 3 in
  let m := replicate 32 4 in let n := replicate 32 5 in
  a = a ∧ b = b ∧ l = l ∧ m = m ∧ n = n ∧ 1700000000 = 1700000000 ∧ 1700000001 = 1700000001.
Proof.
  apply (auth_transcript_injective (replicate 16 1) (replicate 16 2) (replicate 16 3) (replicate 32 4)
    (replicate 32 5) 1700000000 1700000001); try (apply (bool_decide_unpack _); vm_compute; exact I).
Defined.
