(* ===== verification/PlankPolicy.v ===== *)
(** The policy of a PLANK node: src/plank/plank_policy.c. The policy is read
    from the configuration in the store when it is created; the store itself is
    SQLite's, and what it answers is the parameter [config]. Pointers are not
    null. Undefined behaviour is [None]. *)

From S2P Require Import Prelude CLib PlankObject.

#[local] Open Scope Z_scope.

(** ** The policy *)

(** src/plank/plank_policy.c:16-27 (plank_policy) *)
Record plank_policy : Type := MkPolicy {
  max_message_bytes : Z;
  max_attachment_bytes : Z;
  max_attachments_per_message : Z;
  max_hop_count : Z;
  clock_drift_tolerance_sec : Z;
  default_retention_days : Z;
  quarantine_auto_reject_days : Z
}.

(** [config key default] is [plank_store_config_get_int(store, key, default)].
    src/plank/plank_policy.c:33-57 (plank_policy_create) *)
Definition plank_policy_create (config : cstr → Z → Z) : plank_policy :=
  MkPolicy (u32 (config (lit "max_message_bytes") 65536))
    (u32 (config (lit "max_attachment_bytes") 10485760))
    (u32 (config (lit "max_attachments_per_message") 10))
    (config (lit "max_hop_count") 16)
    (config (lit "clock_drift_tolerance_sec") 300)
    (config (lit "default_retention_days") 365)
    (config (lit "quarantine_auto_reject_days") 30).

(** ** Validation *)

(** include/plank/plank_types.h:384-396 (plank_quarantine_reason_t) *)
Inductive quarantine_reason : Type :=
  | PLANK_QUARANTINE_NONE | PLANK_QUARANTINE_BAD_SIGNATURE | PLANK_QUARANTINE_POLICY_DENY
  | PLANK_QUARANTINE_SIZE_EXCEEDED | PLANK_QUARANTINE_HOP_EXCEEDED | PLANK_QUARANTINE_LOOP_DETECTED
  | PLANK_QUARANTINE_BANNED_NODE | PLANK_QUARANTINE_BANNED_USER | PLANK_QUARANTINE_AREA_UNKNOWN
  | PLANK_QUARANTINE_FORMAT_INVALID | PLANK_QUARANTINE_MANUAL.

(** The error is a buffer of 256 bytes.
    include/plank/plank_policy.h:38-43 (plank_validation_result_t) *)
Record validation_result : Type := MkResult {
  valid : bool;
  should_quarantine : bool;
  reason : quarantine_reason;
  error : cstr
}.

Definition accept : validation_result := MkResult true false PLANK_QUARANTINE_NONE [].

Definition reject (msg : cstr) : validation_result :=
  MkResult false false PLANK_QUARANTINE_NONE (takeZ 255 msg).

Definition quarantine (r : quarantine_reason) (msg : cstr) : validation_result :=
  MkResult false true r (takeZ 255 msg).

Section policy.
Context (malloc_ok : Z → bool) (ssl : openssl) (policy : plank_policy).

(** The result, whose [valid] is what is returned. The key may be null, and the
    clock is [now].
    src/plank/plank_policy.c:67-117 (plank_policy_validate_object) *)
Definition plank_policy_validate_object (now : Z) (o : plank_object) (signing_key_pub : option (list Z))
  : option validation_result :=
  match plank_object_validate o with
  | inl e => Some (reject e)
  | inr _ =>
      id_ok ← plank_object_verify_id malloc_ok ssl o;
      if negb id_ok then Some (reject (lit "Object ID verification failed"))
      else
        sig_ok ← match signing_key_pub with
                 | Some key => plank_object_verify malloc_ok ssl o key
                 | None => Some true
                 end;
        if negb sig_ok then
          Some (quarantine PLANK_QUARANTINE_BAD_SIGNATURE (lit "Signature verification failed"))
        else
          let drift := s64 (created_at o) - now in
          if negb (bool_decide (in_s 64 drift)) then None
          else if clock_drift_tolerance_sec policy <? drift then
            Some (quarantine PLANK_QUARANTINE_POLICY_DENY
              (lit "Timestamp too far in future: " ++ fmt_d drift ++ lit " seconds"))
          else Some accept
  end.

(** [%zu] or [%u] of the limit that is exceeded. *)
Definition too_large (what : cstr) (size limit : Z) (unit : cstr) : cstr :=
  what ++ lit ": " ++ fmt_d size ++ lit " > " ++ fmt_d limit ++ unit.

(** src/plank/plank_policy.c:119-164 (plank_policy_validate_message_for_area) *)
Definition plank_policy_validate_message_for_area (o : plank_object) (b : plank_message_body)
  : validation_result :=
  let len := zlen (default [] (envelope_cbor o)) in
  if max_message_bytes policy <? len then
    quarantine PLANK_QUARANTINE_SIZE_EXCEEDED
      (too_large (lit "Message too large") len (max_message_bytes policy) (lit " bytes"))
  else if u32 (max_hop_count policy) <? hop_count b then
    quarantine PLANK_QUARANTINE_HOP_EXCEEDED
      (too_large (lit "Hop count exceeded") (hop_count b) (max_hop_count policy) [])
  else if max_attachments_per_message policy <? zlen (attachment_refs b) then
    reject (too_large (lit "Too many attachments") (zlen (attachment_refs b))
      (max_attachments_per_message policy) [])
  else accept.

(** src/plank/plank_policy.c:166-193 (plank_policy_validate_attachment) *)
Definition plank_policy_validate_attachment (size_bytes : Z) : validation_result :=
  if max_attachment_bytes policy <? size_bytes then
    quarantine PLANK_QUARANTINE_SIZE_EXCEEDED
      (too_large (lit "Attachment too large") size_bytes (max_attachment_bytes policy) (lit " bytes"))
  else accept.

(** src/plank/plank_policy.c:195-211 (plank_policy_validate_moderation) *)
Definition plank_policy_validate_moderation : validation_result := accept.

(** src/plank/plank_policy.c:213-229 (plank_policy_validate_subscription) *)
Definition plank_policy_validate_subscription : validation_result := accept.

(** ** Checks *)

(** src/plank/plank_policy.c:235-241 (plank_policy_check_message_size) *)
Definition plank_policy_check_message_size (body_size : Z) : bool :=
  body_size <=? max_message_bytes policy.

(** src/plank/plank_policy.c:243-249 (plank_policy_check_attachment_size) *)
Definition plank_policy_check_attachment_size (attachment_size : Z) : bool :=
  attachment_size <=? max_attachment_bytes policy.

(** src/plank/plank_policy.c:251-257 (plank_policy_check_body_format) *)
Definition plank_policy_check_body_format (format : Z) : bool := true.

(** src/plank/plank_policy.c:259-265 (plank_policy_check_hop_count) *)
Definition plank_policy_check_hop_count (hop_count : Z) : bool :=
  hop_count <=? u32 (max_hop_count policy).

(** src/plank/plank_policy.c:267-270 (plank_policy_is_node_banned) *)
Definition plank_policy_is_node_banned (node_addr : cstr) : bool := false.

(** src/plank/plank_policy.c:272-275 (plank_policy_is_user_banned) *)
Definition plank_policy_is_user_banned (user_addr : cstr) : bool := false.

(** src/plank/plank_policy.c:277-287 (plank_policy_can_post) *)
Definition plank_policy_can_post (area_addr from_addr : cstr) : bool :=
  negb (plank_policy_is_user_banned from_addr).

(** src/plank/plank_policy.c:289-294 (plank_policy_can_moderate) *)
Definition plank_policy_can_moderate (area_addr from_addr : cstr) : bool := true.

(** ** Areas *)

(** The fields of the configuration that are set; the others are zero.
    include/plank/plank_policy.h:126-137 (plank_area_policy_config_t) *)
Record area_policy_config : Type := MkAreaConfig {
  config_area_addr : cstr;
  config_max_message_bytes : Z;
  config_max_attachment_bytes : Z;
  config_retention_days : Z;
  config_max_hops : Z
}.

(** src/plank/plank_policy.c:300-313 (plank_policy_get_area_policy) *)
Definition plank_policy_get_area_policy (area_addr : cstr) : area_policy_config :=
  MkAreaConfig (takeZ (PLANK_MAX_ADDRESS - 1) area_addr) (max_message_bytes policy)
    (max_attachment_bytes policy) (u32 (default_retention_days policy)) (u32 (max_hop_count policy)).

(** ** Changes

    The functions that change the policy return what they report and the policy
    after them; only the tolerance is ever set. *)

(** src/plank/plank_policy.c:315-319 (plank_policy_set_area_policy) *)
Definition plank_policy_set_area_policy (config : area_policy_config) : bool * plank_policy :=
  (true, policy).

(** src/plank/plank_policy.c:325-337 (plank_policy_apply_moderation) *)
Definition plank_policy_apply_moderation (target : list Z) (action : Z) : bool * plank_policy :=
  (true, policy).

(** src/plank/plank_policy.c:360-368 (plank_policy_ban_node) *)
Definition plank_policy_ban_node (node_addr : cstr) : bool * plank_policy := (true, policy).

(** src/plank/plank_policy.c:370-375 (plank_policy_unban_node) *)
Definition plank_policy_unban_node (node_addr : cstr) : bool * plank_policy := (true, policy).

(** src/plank/plank_policy.c:377-385 (plank_policy_ban_user) *)
Definition plank_policy_ban_user (user_addr : cstr) : bool * plank_policy := (true, policy).

(** src/plank/plank_policy.c:387-392 (plank_policy_unban_user) *)
Definition plank_policy_unban_user (user_addr : cstr) : bool * plank_policy := (true, policy).

(** src/plank/plank_policy.c:447-449 (plank_policy_set_clock_tolerance) *)
Definition plank_policy_set_clock_tolerance (seconds : Z) : plank_policy :=
  MkPolicy (max_message_bytes policy) (max_attachment_bytes policy)
    (max_attachments_per_message policy) (max_hop_count policy) seconds
    (default_retention_days policy) (quarantine_auto_reject_days policy).

(** src/plank/plank_policy.c:339-343 (plank_policy_get_visibility) *)
Definition plank_policy_get_visibility (object_id : list Z) : Z := 1.

(** src/plank/plank_policy.c:345-348 (plank_policy_is_tombstoned) *)
Definition plank_policy_is_tombstoned (object_id : list Z) : bool := false.

(** src/plank/plank_policy.c:350-354 (plank_policy_is_thread_locked) *)
Definition plank_policy_is_thread_locked (thread_root_id : list Z) : bool := false.

(** ** Retention and clocks *)

(** include/plank/plank_types.h:134-140 (plank_retention_class_t) *)
Definition PLANK_RETENTION_EPHEMERAL : Z := 1.
Definition PLANK_RETENTION_LONG_TERM : Z := 3.
Definition PLANK_RETENTION_ARCHIVE : Z := 4.
Definition PLANK_RETENTION_LEGAL_HOLD : Z := 5.

(** src/plank/plank_policy.c:398-404 (plank_policy_calc_retention) *)
Definition plank_policy_calc_retention (requested : Z) : Z := requested.

(** src/plank/plank_policy.c:406-427 (plank_policy_should_prune) *)
Definition plank_policy_should_prune (now retention created_at : Z) : option bool :=
  if (retention =? PLANK_RETENTION_ARCHIVE) || (retention =? PLANK_RETENTION_LEGAL_HOLD)
  then Some false
  else
    days ← (if retention =? PLANK_RETENTION_EPHEMERAL then Some 7
            else if retention =? PLANK_RETENTION_LONG_TERM
                 then checked 32 (default_retention_days policy * 2)
            else Some (default_retention_days policy));
    age ← checked 64 (now - created_at);
    limit ← checked 32 (days * 86400);
    Some (limit <? age).

(** src/plank/plank_policy.c:433-441 (plank_policy_check_timestamp) *)
Definition plank_policy_check_timestamp (now timestamp : Z) : option bool :=
  drift ← checked 64 (s64 timestamp - now);
  drift ← (if drift <? 0 then checked 64 (- drift) else Some drift);
  Some (drift <=? clock_drift_tolerance_sec policy).

(** src/plank/plank_policy.c:443-445 (plank_policy_get_clock_tolerance) *)
Definition plank_policy_get_clock_tolerance : Z := clock_drift_tolerance_sec policy.

(** src/plank/plank_policy.c:455-459 (plank_policy_should_quarantine) *)
Definition plank_policy_should_quarantine (area_addr : cstr) : bool := true.

(** src/plank/plank_policy.c:461-463 (plank_policy_get_quarantine_auto_reject_days) *)
Definition plank_policy_get_quarantine_auto_reject_days : Z := quarantine_auto_reject_days policy.

(** src/plank/plank_policy.c:469-475 (plank_policy_link_can_send) *)
Definition plank_policy_link_can_send (link_id : Z) (area_addr : cstr) : bool := true.

(** src/plank/plank_policy.c:477-483 (plank_policy_link_can_receive) *)
Definition plank_policy_link_can_receive (link_id : Z) (area_addr : cstr) : bool := true.
End policy.
