(* ===== verification/PlankPolicySpec.v ===== *)
(** What the policy of a PLANK node lets through: a signed object that arrives
    is accepted unless it is dated too far in the future, and the limits that
    can, and that cannot, stop a message. *)

From S2P Require Import Prelude CLib CborDecode CborSpec PlankObject PlankWire PlankObjectSpec.
From S2P Require Import PlankMessageSpec PlankPolicy.
#[local] Open Scope Z_scope.

(** ** Signed objects *)

(** The objects that [plank_object_validate] lets through. *)
Definition object_valid (o : plank_object) : Prop :=
  version o = 1 ∧ 1 <= object_class o <= 11 ∧ origin_node_addr o ≠ [] ∧ created_at o ≠ 0 ∧
  (∃ x b, body_cbor o = Some (x :: b)) ∧ sig_alg o = PLANK_SIG_ED25519.

Lemma validate_spec o : object_valid o ↔ plank_object_validate o = inr tt.
Proof.
  unfold object_valid, plank_object_validate, is_empty. split.
  - intros (-> & Hc & Ha & Ht & (x & b & Hb) & ->). rewrite Hb.
    destruct (Z.ltb_spec (object_class o) 1), (Z.ltb_spec 11 (object_class o)); try lia.
    destruct (origin_node_addr o); [done |]. cbn. by destruct (Z.eqb_spec (created_at o) 0).
  - destruct (Z.eqb_spec (version o) 1); [| done].
    destruct (Z.ltb_spec (object_class o) 1), (Z.ltb_spec 11 (object_class o)); try done.
    destruct (origin_node_addr o); [done |]. destruct (Z.eqb_spec (created_at o) 0); [done |].
    destruct (body_cbor o) as [[|x b] |]; try done. cbn.
    destruct (Z.eqb_spec (sig_alg o) PLANK_SIG_ED25519); [| done]. intros _.
    split_and!; try lia; try done; eauto.
Qed.

Section signed.
Context (malloc_ok : Z → bool) (malloc_small : small_ok malloc_ok).
Context (ssl : openssl) (priv pub : list Z) (Hssl : ssl_pair ssl priv pub) (policy : plank_policy).

Lemma signed_validated o it fuel now :
  object_wf o → object_valid o → body_cbor o = Some (enc_item it) → item_ok it →
  8194 <= Z.of_nat fuel → zlen (envelope_bytes false o) + 76 <= 4096 →
  in_s 64 (s64 (created_at o) - now) → ∃ o' e,
  plank_object_sign malloc_ok ssl o priv = Some (o', true) ∧ envelope_cbor o' = Some e ∧
  plank_object_decode malloc_ok fuel e = Some (Some o') ∧
  plank_policy_validate_object malloc_ok ssl policy now o' (Some pub) =
    Some (if clock_drift_tolerance_sec policy <? s64 (created_at o) - now then
            quarantine PLANK_QUARANTINE_POLICY_DENY (lit "Timestamp too far in future: " ++
              fmt_d (s64 (created_at o) - now) ++ lit " seconds")
          else accept).
Proof using malloc_small Hssl.
  intros Ho Hv Hb Hit Hfuel Hfit Hdrift.
  destruct (sign_delivers malloc_ok malloc_small ssl priv pub Hssl o it fuel Ho Hb Hit Hfuel Hfit)
    as (h & s & e & Hsign & Hdec & Hver & Hid).
  eexists _, e. split; [exact Hsign |]. split; [done |]. split; [exact Hdec |].
  unfold plank_policy_validate_object.
  rewrite (proj1 (validate_spec _)), Hid; cycle 1.
  { exact Hv. }
  cbn [mbind option_bind negb]. rewrite Hver. cbn [mbind option_bind negb].
  cbn [created_at set_envelope_cbor set_signature set_object_id].
  rewrite (bool_decide_eq_true_2 _ Hdrift). by destruct (_ <? _).
Qed.

(** A well-formed object that is signed at one node passes the validation of any
    node that knows the key, from the decoding of its envelope to its identifier and its
    signature; the clock alone decides, and quarantines what is dated further ahead than
    the tolerance. *)
Theorem signed_objects_accepted o it fuel now :
  object_wf o → object_valid o → body_cbor o = Some (enc_item it) → item_ok it →
  8194 <= Z.of_nat fuel → zlen (envelope_bytes false o) + 76 <= 4096 →
  in_s 64 (s64 (created_at o) - now) → ∃ o' e,
  plank_object_sign malloc_ok ssl o priv = Some (o', true) ∧ envelope_cbor o' = Some e ∧
  plank_object_decode malloc_ok fuel e = Some (Some o') ∧
  plank_policy_validate_object malloc_ok ssl policy now o' (Some pub) =
    Some (if clock_drift_tolerance_sec policy <? s64 (created_at o) - now then
            quarantine PLANK_QUARANTINE_POLICY_DENY (lit "Timestamp too far in future: " ++
              fmt_d (s64 (created_at o) - now) ++ lit " seconds")
          else accept).
Proof using malloc_small Hssl. apply signed_validated. Qed.

(** The time is compared as a signed number: an object that is dated 2^63 seconds or
    more after the epoch looks old, and is accepted. *)
Theorem far_future_accepted o it fuel now :
  object_wf o → object_valid o → body_cbor o = Some (enc_item it) → item_ok it →
  8194 <= Z.of_nat fuel → zlen (envelope_bytes false o) + 76 <= 4096 →
  0 <= clock_drift_tolerance_sec policy → 0 <= now → 2 ^ 63 + now <= created_at o → ∃ o' e,
  plank_object_sign malloc_ok ssl o priv = Some (o', true) ∧ envelope_cbor o' = Some e ∧
  plank_object_decode malloc_ok fuel e = Some (Some o') ∧
  plank_policy_validate_object malloc_ok ssl policy now o' (Some pub) = Some accept.
Proof using malloc_small Hssl.
  intros Ho Hv Hb Hit Hfuel Hfit Htol Hnow Hfar. pose proof (wf_created _ Ho) as Hc.
  assert (Hs : s64 (created_at o) = created_at o - 2 ^ 64).
  { apply swrap_high; [lia |]. unfold in_u in Hc. zlia. }
  destruct (signed_validated o it fuel now Ho Hv Hb Hit Hfuel Hfit) as (o' & e & H1 & H2 & H3 & H4).
  { rewrite Hs. unfold in_u in Hc. zlia. }
  exists o', e. split; [done |]. split; [done |]. split; [done |]. rewrite H4, Hs.
  unfold in_u in Hc. destruct (Z.ltb_spec (clock_drift_tolerance_sec policy) (created_at o - 2 ^ 64 - now));
    [zlia | done].
Qed.
End signed.

(** ** Messages *)

Section received.
Context (malloc_ok : Z → bool) (policy : plank_policy).

(** No key of a message body stores a reference to an attachment. *)
Lemma field_keeps_refs fuel off len d b b' d' :
  decode_message_field malloc_ok fuel off len d b = Some (b', d') →
  attachment_refs b' = attachment_refs b.
Proof.
  unfold decode_message_field, store_field.
  repeat match goal with
  | |- context [if ?c then _ else _] => destruct c
  end.
  all: try match goal with |- context [decode_pointers ?a ?b ?c ?d ?e] =>
    destruct (decode_pointers a b c d e) as [[??] |] end.
  all: try match goal with |- context [cbor_skip ?a ?b] => destruct (cbor_skip a b) as [?|] end.
  all: cbn [mbind option_bind]; repeat case_match; try done; try (by intros [= <- <-]).
  destruct (strndup _ _ _ _); [by intros [= <- <-] | done].
Qed.

Lemma entries_keep_refs fuel count d b b' d' :
  decode_entries (decode_message_field malloc_ok) fuel count d b = Some (b', d') →
  attachment_refs b' = attachment_refs b.
Proof.
  revert count d b. induction fuel as [|fuel IH]; intros count d b; [done |]. cbn [decode_entries].
  destruct (_ && _); [| by intros [= <- <-]].
  destruct (cbor_decode_text d) as [[[off len] |] d1]; [| by intros [= <- <-]].
  destruct (decode_message_field _ _ _ _ _ _) as [[b1 d2] |] eqn:E; [| done].
  cbn [mbind option_bind]. intros H. rewrite (IH _ _ _ H). by eapply field_keeps_refs.
Qed.

(** The limit on the number of attachments is never enforced on a message that was
    received: whatever references its body carries, none is decoded, so that a message
    within the limits of size and hops is always accepted. *)
Theorem attachment_limit_never_enforced fuel o b :
  plank_object_decode_message_body malloc_ok fuel o = Some (Some b) →
  0 <= max_attachments_per_message policy →
  attachment_refs b = [] ∧
  (zlen (default [] (envelope_cbor o)) <= max_message_bytes policy →
   hop_count b <= u32 (max_hop_count policy) →
   plank_policy_validate_message_for_area policy o b = accept).
Proof.
  intros Hdec Hmax. assert (Hrefs : attachment_refs b = []).
  { revert Hdec. unfold plank_object_decode_message_body.
    destruct (body_cbor o) as [body |]; [| done]. destruct (negb _); [done |].
    destruct (cbor_decode_map _) as [n d]. destruct (negb _); [done |].
    destruct (decode_entries _ _ _ _ _) as [[b1 d1] |] eqn:E; [| done]. cbn [mbind option_bind].
    destruct (cbor_decoder_ok d1); intros [= <-]. by rewrite (entries_keep_refs _ _ _ _ _ _ E). }
  split; [done |]. intros Hlen Hhops. unfold plank_policy_validate_message_for_area.
  rewrite Hrefs.
  destruct (Z.ltb_spec (max_message_bytes policy) (zlen (default [] (envelope_cbor o)))); [lia |].
  destruct (Z.ltb_spec (u32 (max_hop_count policy)) (hop_count b)); [lia |].
  destruct (Z.ltb_spec (max_attachments_per_message policy) (zlen (@nil (option (list Z))))); [| done].
  rewrite zlen_nil in *. lia.
Qed.
End received.

(** ** Changes of policy *)

(** A ban is reported as done, and the user can post as before. *)
Lemma bans_have_no_effect policy user area :
  let '(done, policy) := plank_policy_ban_user policy user in
  done = true ∧ plank_policy_is_user_banned user = false ∧ plank_policy_can_post area user = true.
Proof. done. Qed.

(** A limit of -1 hops, converted to 32 unsigned bits, is no limit. *)
Lemma negative_hop_limit policy hops :
  max_hop_count policy = -1 → in_u 32 hops → plank_policy_check_hop_count policy hops = true.
Proof.
  intros Hm Hh. unfold plank_policy_check_hop_count. rewrite Hm. change (u32 (-1)) with (2 ^ 32 - 1).
  zlia.
Qed.

(** An object is pruned exactly when it is older than the days of its retention
    class: seven for ephemeral objects, the default for standard ones, twice that for
    long-term ones; archived objects and objects on legal hold are kept. The arithmetic
    holds for defaults of up to 12427 days, and is undefined from 24856 days on. *)
Theorem should_prune_spec policy now retention created :
  0 <= default_retention_days policy <= 12427 → in_s 64 (now - created) →
  let days := if retention =? PLANK_RETENTION_EPHEMERAL then 7
              else if retention =? PLANK_RETENTION_LONG_TERM then 2 * default_retention_days policy
              else default_retention_days policy in
  plank_policy_should_prune policy now retention created =
    Some (negb (retention =? PLANK_RETENTION_ARCHIVE) &&
          negb (retention =? PLANK_RETENTION_LEGAL_HOLD) && (days * 86400 <? now - created)).
Proof.
  intros Hd Hage. unfold plank_policy_should_prune.
  assert (Hc : ∀ w z, in_s w z → checked w z = Some z) by (intros; by apply decide_True).
  destruct (_ =? PLANK_RETENTION_ARCHIVE), (_ =? PLANK_RETENTION_LEGAL_HOLD); try done. cbn [orb negb andb].
  rewrite (Hc 64) by done. rewrite (Hc 32 (_ * 2)) by zlia. rewrite (Z.mul_comm _ 2).
  destruct (_ =? PLANK_RETENTION_EPHEMERAL); [done |].
  destruct (_ =? PLANK_RETENTION_LONG_TERM); cbn [mbind option_bind]; by rewrite Hc by zlia.
Qed.

Lemma should_prune_overflow policy now created :
  24856 <= default_retention_days policy → plank_policy_should_prune policy now 2 created = None.
Proof.
  intros Hd. unfold plank_policy_should_prune.
  change (2 =? PLANK_RETENTION_ARCHIVE) with false.
  change (2 =? PLANK_RETENTION_LEGAL_HOLD) with false.
  change (2 =? PLANK_RETENTION_EPHEMERAL) with false.
  change (2 =? PLANK_RETENTION_LONG_TERM) with false. cbn [orb mbind option_bind].
  destruct (checked 64 _); [| done]. cbn [mbind option_bind]. unfold checked.
  by rewrite decide_False by zlia.
Qed.

(** ** Witnesses *)

Definition sample_policy : plank_policy := plank_policy_create (λ _ default, default).

Lemma sample_object_valid : object_valid sample_object.
Proof. apply validate_spec. by vm_compute. Qed.

Lemma signed_objects_accepted_witness : ∃ o' e,
  plank_object_sign malloc_all toy_ssl sample_object (zeros 64) = Some (o', true) ∧
  envelope_cbor o' = Some e ∧
  plank_object_decode malloc_all (Z.to_nat 8194) e = Some (Some o') ∧
  plank_policy_validate_object malloc_all toy_ssl sample_policy 1700000100 o' (Some (zeros 32)) =
    Some accept.
Proof.
  apply (signed_objects_accepted malloc_all ltac:(done) toy_ssl (zeros 64) (zeros 32) (toy_pair _ _)
    sample_policy sample_object sample_body_item (Z.to_nat 8194) 1700000100).
  - exact sample_object_wf.
  - exact sample_object_valid.
  - reflexivity.
  - exact sample_body_ok.
  - vm_compute. congruence.
  - vm_compute. congruence.
  - apply (bool_decide_unpack _). vm_compute. exact I.
Defined.

(** The same object, dated in the year 292 billion. *)
Definition future_object : plank_object := set_created_at (2 ^ 63 + 2 ^ 32) sample_object.

Lemma far_future_accepted_witness : ∃ o' e,
  plank_object_sign malloc_all toy_ssl future_object (zeros 64) = Some (o', true) ∧
  envelope_cbor o' = Some e ∧
  plank_object_decode malloc_all (Z.to_nat 8194) e = Some (Some o') ∧
  plank_policy_validate_object malloc_all toy_ssl sample_policy 1700000000 o' (Some (zeros 32)) =
    Some accept.
Proof.
  apply (far_future_accepted malloc_all ltac:(done) toy_ssl (zeros 64) (zeros 32) (toy_pair _ _)
    sample_policy future_object sample_body_item (Z.to_nat 8194) 1700000000).
  - destruct sample_object_wf. by split.
  - apply validate_spec. by vm_compute.
  - reflexivity.
  - exact sample_body_ok.
  - vm_compute. congruence.
  - vm_compute. congruence.
  - vm_compute. congruence.
  - vm_compute. congruence.
  - vm_compute. congruence.
Defined.

Lemma attachment_limit_never_enforced_witness :
  let o := set_body_cbor (Some (enc_item (message_item sample_message (lit "hi bob")))) sample_object in
  let b := delivered sample_message (lit "hi bob") in
  attachment_refs b = [] ∧
  (zlen (default [] (envelope_cbor o)) <= max_message_bytes sample_policy →
   hop_count b <= u32 (max_hop_count sample_policy) →
   plank_policy_validate_message_for_area sample_policy o b = accept).
Proof.
  apply (attachment_limit_never_enforced malloc_all sample_policy (Z.to_nat 16386)).
  - vm_compute. reflexivity.
  - vm_compute. congruence.
Defined.

Lemma should_prune_spec_witness :
  plank_policy_should_prune sample_policy 100000000 3 10000000 = Some true.
Proof.
  apply (should_prune_spec sample_policy 100000000 3 10000000).
  - split; vm_compute; congruence.
  - apply (bool_decide_unpack _). vm_compute. exact I.
Defined.
