(* ===== verification/PlankRoute.v ===== *)
(** Routing between PLANK nodes: src/plank/plank_route.c. The functions that only
    forward to the store are left out; [config] is what the store answers. A
    null pointer that is read, and an index past an array, are [None]. *)

From S2P Require Import Prelude CLib PlankObject PlankCore.

#[local] Open Scope Z_scope.

(** include/plank/plank_route.h:214-219 (plank_retry_policy_t) *)
Record retry_policy : Type := MkRetry {
  initial_sec : Z;
  max_sec : Z;
  limit : Z;
  deadletter_timeout_sec : Z
}.

(** The names are those of the identity of the node.
    src/plank/plank_route.c:16-24 (plank_router) *)
Record plank_router : Type := MkRouter {
  node_name : cstr;
  network_name : cstr;
  retry : retry_policy;
  router_max_hop_count : Z;
  router_clock_drift_tolerance_sec : Z
}.

(** src/plank/plank_route.c:30-61 (plank_router_create) *)
Definition plank_router_create (config : cstr → Z → Z) (node network : cstr) : plank_router :=
  MkRouter node network
    (MkRetry (config (lit "retry_initial_sec") 60) (config (lit "retry_max_sec") 3600)
      (config (lit "retry_limit") 10) (config (lit "deadletter_timeout_sec") 86400))
    (config (lit "max_hop_count") 16) (config (lit "clock_drift_tolerance_sec") 300).

Section router.
Context (malloc_ok : Z → bool) (router : plank_router).

(** ** Decisions *)

(** The number of decisions written.
    src/plank/plank_route.c:72-87 (plank_router_route_area_message) *)
Definition plank_router_route_area_message (area_addr : cstr) : Z := 0.

(** src/plank/plank_route.c:89-116 (plank_router_route_direct_message) *)
Definition plank_router_route_direct_message (dest_node_addr : cstr) : bool :=
  match plank_parse_user_addr dest_node_addr 64 64 64 with
  | None => false
  | Some (_, node, network) =>
      if bool_decide (node = node_name router) && bool_decide (network = network_name router)
      then false else false
  end.

(** src/plank/plank_route.c:122-130 (plank_router_subscribe) *)
Definition plank_router_subscribe (link_id : Z) (area_addr : cstr) : bool := true.

(** src/plank/plank_route.c:132-140 (plank_router_unsubscribe) *)
Definition plank_router_unsubscribe (link_id : Z) (area_addr : cstr) : bool := true.

(** src/plank/plank_route.c:142-149 (plank_router_pause_subscription) *)
Definition plank_router_pause_subscription (link_id : Z) (area_addr : cstr) : bool := true.

(** src/plank/plank_route.c:151-158 (plank_router_resume_subscription) *)
Definition plank_router_resume_subscription (link_id : Z) (area_addr : cstr) : bool := true.

(** src/plank/plank_route.c:160-167 (plank_router_is_subscribed) *)
Definition plank_router_is_subscribed (link_id : Z) (area_addr : cstr) : bool := false.

(** The number of areas or of links written.
    src/plank/plank_route.c:169-176 (plank_router_get_subscriptions) *)
Definition plank_router_get_subscriptions (link_id : Z) : Z := 0.

(** src/plank/plank_route.c:178-184 (plank_router_get_subscribers) *)
Definition plank_router_get_subscribers (area_addr : cstr) : Z := 0.

(** src/plank/plank_route.c:307-315 (plank_router_queue_outbound) *)
Definition plank_router_queue_outbound (o : plank_object) (exclude_link_id : Z) : bool := true.

(** src/plank/plank_route.c:317-327 (plank_router_queue_to_link) *)
Definition plank_router_queue_to_link (object_id : list Z) (link_id priority : Z) : bool := true.

(** src/plank/plank_route.c:329-335 (plank_router_pending_count) *)
Definition plank_router_pending_count (link_id : Z) : Z := 0.

(** src/plank/plank_route.c:384-396 (plank_router_add_route) *)
Definition plank_router_add_route (dest_node_addr : cstr) (link_id hop_count priority : Z) : bool :=
  true.

(** The link, -1, the hops and the result.
    src/plank/plank_route.c:408-420 (plank_router_get_route) *)
Definition plank_router_get_route (dest_node_addr : cstr) : Z * Z * bool := (-1, 0, false).

(** ** Loops *)

(** The nodes before a match are compared, and must be there.
    src/plank/plank_route.c:202-210 (plank_router_check_loop) *)
Fixpoint in_path (p : list (option (list Z))) (local_node_id : list Z) : option bool :=
  match p with
  | [] => Some false
  | None :: _ => None
  | Some node :: p =>
      if memcmp (takeZ PLANK_NODE_ID_SIZE node) (takeZ PLANK_NODE_ID_SIZE local_node_id) =? 0
      then Some true else in_path p local_node_id
  end.

(** src/plank/plank_route.c:190-216 (plank_router_check_loop) *)
Definition plank_router_check_loop (fuel : nat) (msg : plank_object) (local_node_id : list Z)
  : option bool :=
  if object_class msg =? PLANK_CLASS_MESSAGE then
    body ← plank_object_decode_message_body malloc_ok fuel msg;
    match body with
    | Some body => in_path (path body) local_node_id
    | None => Some false
    end
  else Some false.

(** src/plank/plank_route.c:218-243 (plank_router_check_hops) *)
Definition plank_router_check_hops (fuel : nat) (msg : plank_object) : option bool :=
  if object_class msg =? PLANK_CLASS_MESSAGE then
    body ← plank_object_decode_message_body malloc_ok fuel msg;
    match body with
    | Some body => Some (hop_count body <=? u32 (router_max_hop_count router))
    | None => Some true
    end
  else Some true.

(** The array has the pointers that are counted, as every function that makes a
    message allocates it.
    src/plank/plank_route.c:245-260 (plank_router_append_path) *)
Definition plank_router_append_path (b : plank_message_body) (local_node_id : list Z)
  : option (plank_message_body * bool) :=
  let n := zlen (path b) in
  if 16 <=? n then Some (b, false)
  else match nthZ (path b) n with
       | Some (Some _) =>
           Some (set_hop_count (u32 (hop_count b + 1))
             (set_path (path b ++ [Some (takeZ PLANK_NODE_ID_SIZE local_node_id)]) b), true)
       | _ => None
       end.

(** ** Retries *)

(** src/plank/plank_route.c:466-472 (plank_router_set_retry_policy) *)
Definition plank_router_set_retry_policy (policy : retry_policy) : plank_router :=
  MkRouter (node_name router) (network_name router) policy (router_max_hop_count router)
    (router_clock_drift_tolerance_sec router).

(** src/plank/plank_route.c:458-464 (plank_router_get_retry_policy) *)
Definition plank_router_get_retry_policy : retry_policy := retry router.

(** [rand] is the result of [rand()]. A shift of 1 by 31 or more is undefined.
    src/plank/plank_route.c:474-492 (plank_router_calc_retry_delay) *)
Definition plank_router_calc_retry_delay (rand retry_count : Z) : option Z :=
  if (retry_count <? 0) || (30 <? retry_count) then None
  else
    delay ← checked 32 (initial_sec (retry router) * Z.shiftl 1 retry_count);
    let delay := if max_sec (retry router) <? delay then max_sec (retry router) else delay in
    let jitter := Z.quot delay 10 in
    if 0 <? jitter then checked 32 (delay + (Z.rem rand jitter - Z.quot jitter 2)) else Some delay.

(** src/plank/plank_route.c:494-508 (plank_router_should_deadletter) *)
Definition plank_router_should_deadletter (now retry_count first_failure : Z) : option bool :=
  if limit (retry router) <=? retry_count then Some true
  else
    age ← checked 64 (now - first_failure);
    Some (deadletter_timeout_sec (retry router) <? age).
End router.
