(* ===== verification/PlankRouteSpec.v ===== *)
(** Routing between PLANK nodes: a loop is found exactly when the node is in the
    path, a path with a node of the wrong size cannot be checked at all, no
    node ever adds itself to a path, and the delays between retries. *)

From S2P Require Import Prelude CLib CborSpec PlankObject PlankWire PlankObjectSpec PlankMessageSpec.
From S2P Require Import PlankCore PlankPolicy PlankPolicySpec PlankRoute.
#[local] Open Scope Z_scope.

(** ** Loops *)

Lemma memcmp_refl a : memcmp a a = 0.
Proof. induction a as [|x a IH]; [done |]. cbn. by rewrite Z.ltb_irrefl. Qed.

Lemma in_path_spec nodes local :
  Forall (λ n, zlen n = PLANK_NODE_ID_SIZE) nodes → zlen local = PLANK_NODE_ID_SIZE →
  in_path (Some <$> nodes) local = Some (bool_decide (local ∈ nodes)).
Proof.
  intros Hn Hl. induction Hn as [|n nodes Hn _ IH]; [done |]. cbn. rewrite !takeZ_all by done.
  destruct (Z.eqb_spec (memcmp n local) 0) as [E | Hne].
  - apply memcmp_eq in E; [| congruence]. subst. symmetry. f_equal.
    apply bool_decide_eq_true_2. by left.
  - cbn in IH. rewrite IH. f_equal. apply bool_decide_ext. rewrite elem_of_cons. split; [by right |].
    intros [-> | ?]; [by rewrite memcmp_refl in Hne | done].
Qed.

Section loops.
Context (malloc_ok : Z → bool) (malloc_small : small_ok malloc_ok) (router : plank_router).

(** A node that receives a message it sent or forwarded finds the loop: the check of
    a decoded message answers whether the identifier of the node is among those of the
    path that the message was sent with, and the check of hops compares the count that
    was sent. *)
Theorem loop_detection b t o local fuel :
  message_wf b t → zlen (enc_item (message_item b t)) <= 8192 →
  object_class o = PLANK_CLASS_MESSAGE → body_cbor o = Some (enc_item (message_item b t)) →
  zlen local = PLANK_NODE_ID_SIZE → 16386 <= Z.of_nat fuel →
  plank_router_check_loop malloc_ok fuel o local =
    Some (bool_decide (local ∈ elements (path b))) ∧
  plank_router_check_hops malloc_ok router fuel o =
    Some (hop_count b <=? u32 (router_max_hop_count router)).
Proof using malloc_small.
  intros Hb Hlen Ho Hbody Hl Hfuel.
  assert (Hdec : plank_object_decode_message_body malloc_ok fuel o = Some (Some (delivered b t))).
  { rewrite <- (decode_message malloc_ok malloc_small b t o fuel Hb Hlen Ho Hfuel), <- Hbody.
    by destruct o. }
  unfold plank_router_check_loop, plank_router_check_hops. rewrite Ho, Z.eqb_refl, Hdec.
  cbn [mbind option_bind]. split; [| done]. change (path (delivered b t)) with (path b).
  destruct (wf_path _ _ Hb) as (l & -> & Hids & _). rewrite elements_some. apply in_path_spec; [| done].
  eapply Forall_impl; [exact Hids |]. by intros n [].
Qed.
End loops.

(** A message whose path has a node of four bytes, in a body that any CBOR encoder
    can make. *)
Definition short_path_item : item := IMap [(IText (lit "path"), IArray [IBytes [1; 2; 3; 4]])].

Definition short_path_object : plank_object :=
  message_object 1700000000 sample_node (lit "node@plank") (enc_item short_path_item).

(** A node of a path that is not 16 bytes long becomes a null pointer, and the check
    for loops reads through it. The object is well-formed, signed and accepted by the
    policy: any peer whose key is known can stop a node with it. *)
Theorem short_path_node_crashes :
  ∃ o e, plank_object_sign malloc_all toy_ssl short_path_object (zeros 64) = Some (o, true) ∧
    envelope_cbor o = Some e ∧
    plank_object_decode malloc_all (Z.to_nat 8194) e = Some (Some o) ∧
    plank_policy_validate_object malloc_all toy_ssl sample_policy 1700000000 o (Some (zeros 32)) =
      Some accept ∧
    ∀ local, plank_router_check_loop malloc_all (Z.to_nat 8194) o local = None.
Proof.
  eexists _, _. split; [vm_compute; reflexivity |]. split; [reflexivity |].
  split; [by vm_compute |]. split; [by vm_compute |]. intros local. by vm_compute.
Qed.

(** No node ever appends itself to the path of a message: a path of 16 nodes is left
    as it is, and for a shorter one the write goes through the pointer after the last
    one of the array. *)
Lemma append_path_never_succeeds b local :
  plank_router_append_path b local = if 16 <=? zlen (path b) then Some (b, false) else None.
Proof.
  unfold plank_router_append_path. destruct (_ <=? _); [done |].
  unfold nthZ. destruct (Z.ltb_spec (zlen (path b)) 0); [done |].
  rewrite lookup_ge_None_2; [done |]. unfold zlen. lia.
Qed.

(** A route that was added is not found, and what was queued is not counted. *)
Lemma routes_are_not_kept addr link hops priority id :
  plank_router_add_route addr link hops priority = true ∧
  (plank_router_get_route addr).2 = false ∧
  plank_router_queue_to_link id link priority = true ∧ plank_router_pending_count link = 0.
Proof. done. Qed.

(** ** Retries *)

Section retries.
Context (router : plank_router).

(** The delay before a retry doubles with every failure up to the maximum, give or
    take a twentieth for the jitter, which is added after the maximum is applied: it is
    always positive, and can exceed the maximum by five per cent. *)
Theorem retry_delay_bounds rand retry_count :
  0 < initial_sec (retry router) → 0 < max_sec (retry router) <= 2000000000 →
  0 <= retry_count <= 30 → initial_sec (retry router) * 2 ^ retry_count < 2 ^ 31 → 0 <= rand →
  ∃ delay, plank_router_calc_retry_delay router rand retry_count = Some delay ∧
  let base := Z.min (initial_sec (retry router) * 2 ^ retry_count) (max_sec (retry router)) in
  base - base / 20 <= delay <= base + base / 20 ∧ 0 < delay.
Proof.
  intros Hi Hm Hc Hfit Hr. unfold plank_router_calc_retry_delay.
  destruct (Z.ltb_spec retry_count 0), (Z.ltb_spec 30 retry_count); try lia. cbn [orb].
  rewrite Z.shiftl_1_l. set (d := initial_sec (retry router) * 2 ^ retry_count) in *.
  assert (Hd : 0 < d) by (apply Z.mul_pos_pos; [done | by apply Z.pow_pos_nonneg]).
  assert (Hck : ∀ z, in_s 32 z → checked 32 z = Some z) by (intros; by apply decide_True).
  rewrite Hck by zlia. cbn [mbind option_bind].
  set (base := Z.min d (max_sec (retry router))).
  replace (if max_sec (retry router) <? d then max_sec (retry router) else d) with base
    by (unfold base; destruct (Z.ltb_spec (max_sec (retry router)) d); lia).
  assert (Hb : 0 < base <= 2000000000) by (unfold base; lia). clearbody base.
  rewrite Z.quot_div_nonneg by lia. pose proof (Z.div_mod base 10 ltac:(lia)).
  pose proof (Z.mod_pos_bound base 10 ltac:(lia)).
  assert (Hhalf : base / 10 / 2 = base / 20) by (rewrite Z.div_div by lia; done).
  destruct (Z.ltb_spec 0 (base / 10)).
  - rewrite Z.quot_div_nonneg, Hhalf by lia.
    pose proof (Z.rem_bound_pos rand (base / 10) Hr ltac:(lia)).
    pose proof (Z.div_mod (base / 10) 2 ltac:(lia)). pose proof (Z.mod_pos_bound (base / 10) 2 ltac:(lia)).
    rewrite Hck by zlia. eexists. split; [done |]. lia.
  - eexists. split; [done |]. pose proof (Z.div_pos base 20). lia.
Qed.

(** With the default policy the delay is defined for every retry before the message is
    given up, and no longer from the 26th on. *)
Lemma retry_overflow rand retry_count :
  initial_sec (retry router) = 60 → 26 <= retry_count →
  plank_router_calc_retry_delay router rand retry_count = None.
Proof.
  intros Hi Hc. unfold plank_router_calc_retry_delay. rewrite Hi.
  destruct (Z.ltb_spec retry_count 0), (Z.ltb_spec 30 retry_count); try done; try lia. cbn [orb].
  rewrite Z.shiftl_1_l. unfold checked.
  pose proof (Z.pow_le_mono_r 2 26 retry_count ltac:(lia) ltac:(lia)).
  rewrite decide_False; [done |]. zlia.
Qed.

(** A message is given up when the limit of retries is reached, whatever the time, and
    before that exactly when the first failure is further back than the timeout. *)
Theorem should_deadletter_spec now retry_count first_failure :
  in_s 64 (now - first_failure) →
  plank_router_should_deadletter router now retry_count first_failure =
    Some ((limit (retry router) <=? retry_count) ||
          (first_failure + deadletter_timeout_sec (retry router) <? now)).
Proof.
  intros Hage. unfold plank_router_should_deadletter.
  destruct (_ <=? _); [done |]. unfold checked. rewrite decide_True by done.
  cbn [mbind option_bind orb]. f_equal. lia.
Qed.
End retries.

(** ** Witnesses *)

Definition sample_router : plank_router :=
  plank_router_create (λ _ default, default) (lit "node") (lit "plank").

Lemma loop_detection_witness :
  let o := message_object 1700000000 sample_node (lit "node@plank")
    (enc_item (message_item sample_message (lit "hi bob"))) in
  plank_router_check_loop malloc_all (Z.to_nat 16386) o sample_node =
    Some (bool_decide (sample_node ∈ elements (path sample_message))) ∧
  plank_router_check_hops malloc_all sample_router (Z.to_nat 16386) o = Some true.
Proof.
  apply (loop_detection malloc_all ltac:(done) sample_router sample_message (lit "hi bob")).
  - exact sample_message_wf.
  - vm_compute. congruence.
  - reflexivity.
  - reflexivity.
  - reflexivity.
  - vm_compute. congruence.
Defined.

Lemma retry_delay_bounds_witness :
  ∃ delay, plank_router_calc_retry_delay sample_router 12345 9 = Some delay ∧
  let base := Z.min (60 * 2 ^ 9) 3600 in
  base - base / 20 <= delay <= base + base / 20 ∧ 0 < delay.
Proof.
  apply (retry_delay_bounds sample_router 12345 9); [reflexivity | | | reflexivity | done].
  - split; vm_compute; congruence.
  - lia.
Defined.

Lemma should_deadletter_spec_witness :
  plank_router_should_deadletter sample_router 1700100000 3 1700000000 = Some true.
Proof.
  apply (should_deadletter_spec sample_router 1700100000 3 1700000000).
  apply (bool_decide_unpack _). vm_compute. exact I.
Defined.
