(* ===== verification/PlankLink.v ===== *)
(** The link protocol between PLANK nodes: src/plank/plank_link.c with the frame
    headers of include/plank/plank_wire.h. A session holds the bytes that have
    arrived and those that it has sent; what the socket or the TLS library
    answers is the record [transport]. The clock and the random numbers are
    arguments. Pointers are not null; a function that returns false is a [false]
    beside the session, and undefined behaviour is [None]. *)

From S2P Require Import Prelude CLib Cbor CborDecode PlankObject PlankCore.
#[local] Open Scope Z_scope.

Import Encoder.

Definition PLANK_BUNDLE_ID_SIZE : Z := 32.
Definition PLANK_PUBKEY_SIZE : Z := 32.
Definition PLANK_PRIVKEY_SIZE : Z := 64.
Definition PLANK_FRAME_HEADER_SIZE : Z := 24.
Definition PLANK_PROTOCOL_VERSION : Z := 1.

(** ** Frame headers *)

(** include/plank/plank_types.h:233-246 (plank_frame_type_t) *)
Definition PLANK_FRAME_HELLO : Z := 1.
Definition PLANK_FRAME_AUTH_PROOF : Z := 3.
Definition PLANK_FRAME_BUNDLE_OFFER : Z := 5.
Definition PLANK_FRAME_BUNDLE_REQUEST : Z := 6.
Definition PLANK_FRAME_BUNDLE_DATA : Z := 7.
Definition PLANK_FRAME_RECEIPT : Z := 8.
Definition PLANK_FRAME_PING : Z := 9.
Definition PLANK_FRAME_PONG : Z := 10.
Definition PLANK_FRAME_ERROR : Z := 11.
Definition PLANK_FRAME_CLOSE : Z := 12.

(** The target is little-endian.
    include/plank/plank_wire.h:92-98 (plank_htons) *)
Definition plank_htons (h : Z) : Z :=
  u16 (Z.lor (Z.shiftl (Z.land h 0xFF) 8) (Z.land (Z.shiftr h 8) 0xFF)).

(** include/plank/plank_wire.h:104-111 (plank_htonl) *)
Definition plank_htonl (h : Z) : Z :=
  Z.lor (Z.lor (Z.lor (u32 (Z.shiftl (Z.land h 0xFF) 24)) (u32 (Z.shiftl (Z.land h 0xFF00) 8)))
    (Z.land (Z.shiftr h 8) 0xFF00)) (Z.land (Z.shiftr h 24) 0xFF).

(** include/plank/plank_wire.h:117-124 (plank_htonll) *)
Definition plank_htonll (h : Z) : Z :=
  Z.lor (u64 (Z.shiftl (plank_htonl (u32 h)) 32)) (plank_htonl (u32 (Z.shiftr h 32))).

(** include/plank/plank_wire.h:100-102 (plank_ntohs) *)
Definition plank_ntohs (n : Z) : Z := plank_htons n.

(** include/plank/plank_wire.h:113-115 (plank_ntohl) *)
Definition plank_ntohl (n : Z) : Z := plank_htonl n.

(** include/plank/plank_wire.h:126-128 (plank_ntohll) *)
Definition plank_ntohll (n : Z) : Z := plank_htonll n.

(** include/plank/plank_wire.h:25-32 (plank_frame_hdr_t) *)
Record plank_frame_hdr : Type := MkHdr {
  magic : list Z;
  frame_type : Z;
  frame_flags : Z;
  payload_len : Z;
  correlation_id : Z;
  reserved : Z
}.

(** The bytes of an integer in memory. *)
Fixpoint le_bytes (n : nat) (z : Z) : list Z :=
  match n with O => [] | S n => u8 z :: le_bytes n (Z.shiftr z 8) end.

Fixpoint le_value (bs : list Z) : Z :=
  match bs with [] => 0 | b :: bs => Z.lor b (Z.shiftl (le_value bs) 8) end.

(** The packed struct in memory, which is what is sent and received. *)
Definition hdr_bytes (h : plank_frame_hdr) : list Z :=
  magic h ++ le_bytes 2 (frame_type h) ++ le_bytes 2 (frame_flags h) ++
  le_bytes 4 (payload_len h) ++ le_bytes 8 (correlation_id h) ++ le_bytes 4 (reserved h).

Definition hdr_of_bytes (l : list Z) : plank_frame_hdr :=
  MkHdr (takeZ 4 l) (le_value (slice 4 2 l)) (le_value (slice 6 2 l)) (le_value (slice 8 4 l))
    (le_value (slice 12 8 l)) (le_value (slice 20 4 l)).

(** include/plank/plank_wire.h:134-148 (plank_frame_hdr_init) *)
Definition plank_frame_hdr_init (type flags payload_len correlation_id : Z) : plank_frame_hdr :=
  MkHdr (lit "PLK1") (plank_htons (u16 type)) (plank_htons flags) (plank_htonl payload_len)
    (plank_htonll correlation_id) 0.

(** include/plank/plank_wire.h:150-153 (plank_frame_hdr_valid_magic) *)
Definition plank_frame_hdr_valid_magic (h : plank_frame_hdr) : bool :=
  bool_decide (magic h = lit "PLK1").

(** include/plank/plank_wire.h:155-157 (plank_frame_hdr_type) *)
Definition plank_frame_hdr_type (h : plank_frame_hdr) : Z := plank_ntohs (frame_type h).

(** include/plank/plank_wire.h:159-161 (plank_frame_hdr_flags) *)
Definition plank_frame_hdr_flags (h : plank_frame_hdr) : Z := plank_ntohs (frame_flags h).

(** include/plank/plank_wire.h:163-165 (plank_frame_hdr_payload_len) *)
Definition plank_frame_hdr_payload_len (h : plank_frame_hdr) : Z := plank_ntohl (payload_len h).

(** include/plank/plank_wire.h:167-169 (plank_frame_hdr_correlation_id) *)
Definition plank_frame_hdr_correlation_id (h : plank_frame_hdr) : Z :=
  plank_ntohll (correlation_id h).

(** ** Sessions *)

(** include/plank/plank_types.h:306-315 (plank_link_state_t) *)
Inductive plank_link_state : Type :=
  | PLANK_LINK_DISABLED | PLANK_LINK_IDLE | PLANK_LINK_CONNECTING | PLANK_LINK_TLS_OK
  | PLANK_LINK_AUTH_OK | PLANK_LINK_SYNCING | PLANK_LINK_BACKOFF | PLANK_LINK_FAILED.

#[export] Instance plank_link_state_eq_dec : EqDecision plank_link_state.
Proof. solve_decision. Defined.

(** include/plank/plank_types.h:321-325 (plank_link_direction_t) *)
Inductive plank_link_direction : Type :=
  | PLANK_DIR_UNSET | PLANK_DIR_INBOUND | PLANK_DIR_OUTBOUND | PLANK_DIR_BOTH.

(** The fields of the identity that a link uses.
    include/plank/plank_store.h:47-62 (plank_node_identity_t) *)
Record plank_node_identity : Type := MkIdentity {
  node_id : list Z;
  node_addr : cstr;
  signing_key_pub : list Z;
  signing_key_priv : list Z
}.

(** [ssl] tells whether there is a TLS object; [arriving] are the bytes that the
    peer has sent and that were not read, [sent] those that went out.
    src/plank/plank_link.c:30-61 (plank_link_session) *)
Record plank_link_session : Type := MkSession {
  link_id : Z;
  socket_fd : Z;
  state : plank_link_state;
  direction : plank_link_direction;
  ssl : bool;
  identity : plank_node_identity;
  peer_node_id : list Z;
  peer_node_addr : cstr;
  peer_signing_key_pub : list Z;
  local_nonce : list Z;
  remote_nonce : list Z;
  local_timestamp : Z;
  remote_timestamp : Z;
  arriving : list Z;
  sent : list Z
}.

Definition set_socket_fd (x : Z) (s : plank_link_session) : plank_link_session :=
    MkSession (link_id s) x (state s) (direction s) (ssl s) (identity s) (peer_node_id s)
    (peer_node_addr s) (peer_signing_key_pub s) (local_nonce s) (remote_nonce s)
    (local_timestamp s) (remote_timestamp s) (arriving s) (sent s).
Definition set_state (x : plank_link_state) (s : plank_link_session) : plank_link_session :=
    MkSession (link_id s) (socket_fd s) x (direction s) (ssl s) (identity s) (peer_node_id
    s) (peer_node_addr s) (peer_signing_key_pub s) (local_nonce s) (remote_nonce s)
    (local_timestamp s) (remote_timestamp s) (arriving s) (sent s).
Definition set_direction (x : plank_link_direction) (s : plank_link_session) : plank_link_session :=
    MkSession (link_id s) (socket_fd s) (state s) x (ssl s) (identity s) (peer_node_id s)
    (peer_node_addr s) (peer_signing_key_pub s) (local_nonce s) (remote_nonce s)
    (local_timestamp s) (remote_timestamp s) (arriving s) (sent s).
Definition set_ssl (x : bool) (s : plank_link_session) : plank_link_session :=
    MkSession (link_id s) (socket_fd s) (state s) (direction s) x (identity s) (peer_node_id
    s) (peer_node_addr s) (peer_signing_key_pub s) (local_nonce s) (remote_nonce s)
    (local_timestamp s) (remote_timestamp s) (arriving s) (sent s).
Definition set_peer_node_id (x : list Z) (s : plank_link_session) : plank_link_session :=
    MkSession (link_id s) (socket_fd s) (state s) (direction s) (ssl s) (identity s) x
    (peer_node_addr s) (peer_signing_key_pub s) (local_nonce s) (remote_nonce s)
    (local_timestamp s) (remote_timestamp s) (arriving s) (sent s).
Definition set_peer_node_addr (x : cstr) (s : plank_link_session) : plank_link_session :=
    MkSession (link_id s) (socket_fd s) (state s) (direction s) (ssl s) (identity s)
    (peer_node_id s) x (peer_signing_key_pub s) (local_nonce s) (remote_nonce s)
    (local_timestamp s) (remote_timestamp s) (arriving s) (sent s).
Definition set_peer_signing_key_pub (x : list Z) (s : plank_link_session) : plank_link_session :=
    MkSession (link_id s) (socket_fd s) (state s) (direction s) (ssl s) (identity s)
    (peer_node_id s) (peer_node_addr s) x (local_nonce s) (remote_nonce s) (local_timestamp
    s) (remote_timestamp s) (arriving s) (sent s).
Definition set_local_nonce (x : list Z) (s : plank_link_session) : plank_link_session :=
    MkSession (link_id s) (socket_fd s) (state s) (direction s) (ssl s) (identity s)
    (peer_node_id s) (peer_node_addr s) (peer_signing_key_pub s) x (remote_nonce s)
    (local_timestamp s) (remote_timestamp s) (arriving s) (sent s).
Definition set_remote_nonce (x : list Z) (s : plank_link_session) : plank_link_session :=
    MkSession (link_id s) (socket_fd s) (state s) (direction s) (ssl s) (identity s)
    (peer_node_id s) (peer_node_addr s) (peer_signing_key_pub s) (local_nonce s) x
    (local_timestamp s) (remote_timestamp s) (arriving s) (sent s).
Definition set_local_timestamp (x : Z) (s : plank_link_session) : plank_link_session :=
    MkSession (link_id s) (socket_fd s) (state s) (direction s) (ssl s) (identity s)
    (peer_node_id s) (peer_node_addr s) (peer_signing_key_pub s) (local_nonce s)
    (remote_nonce s) x (remote_timestamp s) (arriving s) (sent s).
Definition set_arriving (x : list Z) (s : plank_link_session) : plank_link_session :=
    MkSession (link_id s) (socket_fd s) (state s) (direction s) (ssl s) (identity s)
    (peer_node_id s) (peer_node_addr s) (peer_signing_key_pub s) (local_nonce s)
    (remote_nonce s) (local_timestamp s) (remote_timestamp s) x (sent s).
Definition set_sent (x : list Z) (s : plank_link_session) : plank_link_session :=
    MkSession (link_id s) (socket_fd s) (state s) (direction s) (ssl s) (identity s)
    (peer_node_id s) (peer_node_addr s) (peer_signing_key_pub s) (local_nonce s)
    (remote_nonce s) (local_timestamp s) (remote_timestamp s) (arriving s) x.

(** The callbacks that are called, where they are not null.
    include/plank/plank_link.h:31-65 (plank_link_callbacks_t) *)
Record plank_link_callbacks : Type := MkCallbacks {
  on_bundle_received : option (plank_link_session → list Z → plank_link_session);
  on_error : option (plank_link_session → plank_link_session)
}.

(** What a call to send, or to receive that many bytes, returns, and whether poll
    reports input, over TLS or not. *)
Record transport : Type := MkTransport {
  send_ret : bool → list Z → list Z → Z;
  recv_ret : bool → list Z → Z → Z;
  poll_in : bool → list Z → bool
}.

(** [calloc], and the identity that the store has.
    src/plank/plank_link.c:67-89 (session_alloc) *)
Definition session_alloc (malloc_ok : Z → bool) (id : Z) (stored : option plank_node_identity)
    (input : list Z) : option plank_link_session :=
  let zero := MkIdentity (zeros PLANK_NODE_ID_SIZE) [] (zeros PLANK_PUBKEY_SIZE)
                (zeros PLANK_PRIVKEY_SIZE) in
  if malloc_ok 65536 then
    Some (MkSession id (-1) PLANK_LINK_IDLE PLANK_DIR_UNSET false (default zero stored)
      (zeros PLANK_NODE_ID_SIZE) [] (zeros PLANK_PUBKEY_SIZE) (zeros PLANK_NONCE_SIZE)
      (zeros PLANK_NONCE_SIZE) 0 0 input [])
  else None.

(** src/plank/plank_link.c:91-97 (plank_link_session_create_outbound) *)
Definition plank_link_session_create_outbound (malloc_ok : Z → bool) (id : Z)
    (stored : option plank_node_identity) (input : list Z) : option plank_link_session :=
  set_direction PLANK_DIR_OUTBOUND <$> session_alloc malloc_ok id stored input.

(** src/plank/plank_link.c:99-109 (plank_link_session_create_inbound) *)
Definition plank_link_session_create_inbound (malloc_ok : Z → bool) (fd : Z)
    (stored : option plank_node_identity) (input : list Z) : option plank_link_session :=
  set_state PLANK_LINK_CONNECTING ∘ set_socket_fd fd ∘ set_direction PLANK_DIR_INBOUND
    <$> session_alloc malloc_ok 0 stored input.

(** [getaddrinfo], [socket] and [connect] are arguments.
    src/plank/plank_link.c:142-179 (plank_link_session_connect) *)
Definition plank_link_session_connect (getaddrinfo : cstr → cstr → bool) (socket : Z)
    (connect : Z → bool) (host : cstr) (port : Z) (s : plank_link_session)
  : plank_link_session * bool :=
  if port <=? 0 then (s, false)
  else
    let s := set_state PLANK_LINK_CONNECTING s in
    if negb (getaddrinfo host (fmt_d port)) then (set_state PLANK_LINK_FAILED s, false)
    else
      let s := set_socket_fd socket s in
      if socket <? 0 then (set_state PLANK_LINK_FAILED s, false)
      else if negb (connect socket) then
        (set_state PLANK_LINK_FAILED (set_socket_fd (-1) s), false)
      else (s, true).

(** Whether the two objects of TLS are made, and what the handshake returns, are
    arguments.
    src/plank/plank_link.c:181-208 (plank_link_session_tls_handshake) *)
Definition plank_link_session_tls_handshake (ssl_ctx_new ssl_new : bool)
    (handshake : plank_link_direction → Z) (s : plank_link_session) : plank_link_session * bool :=
  if socket_fd s <? 0 then (s, false)
  else if negb ssl_ctx_new then (s, false)
  else
    let s := set_ssl ssl_new s in
    if negb ssl_new then (s, false)
    else if negb (handshake (direction s) =? 1) then (s, false)
    else (set_state PLANK_LINK_TLS_OK s, true).

Section link.
Context (malloc_ok : Z → bool) (crypto : openssl) (net : transport)
  (callbacks : plank_link_callbacks).

(** ** Sending *)

(** One call of [SSL_write] or [send], and whether it wrote everything. TLS takes
    an [int]. *)
Definition write_all (data : list Z) (s : plank_link_session) : plank_link_session * bool :=
  let r := send_ret net (ssl s) (sent s) data in
  (set_sent (sent s ++ takeZ r data) s,
   r =? (if ssl s then s32 (zlen data) else zlen data)).

(** src/plank/plank_link.c:220-236 (send_frame) *)
Definition send_frame (type : Z) (payload : list Z) (s : plank_link_session)
  : plank_link_session * bool :=
  let '(s, ok) := write_all (hdr_bytes (plank_frame_hdr_init type 0 (u32 (zlen payload)) 0)) s in
  if negb ok then (s, false)
  else if 0 <? zlen payload then write_all payload s
  else (s, true).

(** An encoder of [cap] bytes filled by [encode]; what it holds is sent, whether
    it is complete or not. *)
Definition send_encoded (cap type : Z) (encode : encoder → option encoder)
    (s : plank_link_session) : option (plank_link_session * bool) :=
  e ← encode (cbor_encoder_init_dynamic malloc_ok cap);
  Some (send_frame type (default [] (cbor_encoder_data e)) s).

(** src/plank/plank_link.c:247-257 (plank_link_session_send_hello) *)
Definition encode_hello (s : plank_link_session) (e : encoder) : option encoder :=
  e ← cbor_encode_map malloc_ok e 5;
  e ← put_text malloc_ok (lit "version") e;
  e ← put_uint malloc_ok PLANK_PROTOCOL_VERSION e;
  e ← put_text malloc_ok (lit "node_id") e;
  e ← put_bytes malloc_ok (node_id (identity s)) PLANK_NODE_ID_SIZE e;
  e ← put_text malloc_ok (lit "node_addr") e;
  e ← put_text malloc_ok (node_addr (identity s)) e;
  e ← put_text malloc_ok (lit "pubkey") e;
  e ← put_bytes malloc_ok (signing_key_pub (identity s)) PLANK_PUBKEY_SIZE e;
  e ← put_text malloc_ok (lit "nonce") e;
  put_bytes malloc_ok (local_nonce s) PLANK_NONCE_SIZE e.

(** [nonce] is what the random generator leaves in the array, and [now] the clock.
    src/plank/plank_link.c:238-262 (plank_link_session_send_hello) *)
Definition plank_link_session_send_hello (nonce : list Z) (now : Z) (s : plank_link_session)
  : option (plank_link_session * bool) :=
  let s := set_local_timestamp (u64 now) (set_local_nonce nonce s) in
  send_encoded 512 PLANK_FRAME_HELLO (encode_hello s) s.

(** The transcript that this node signs.
    src/plank/plank_link.c:307-315 (plank_link_session_send_auth_proof) *)
Definition local_transcript (s : plank_link_session) : list Z :=
  plank_crypto_build_auth_transcript (node_id (identity s)) (peer_node_id s) (zeros 16)
    (local_nonce s) (remote_nonce s) (local_timestamp s) (remote_timestamp s).

(** The transcript that the peer should have signed.
    src/plank/plank_link.c:363-371 (plank_link_session_handle_auth_proof) *)
Definition peer_transcript (s : plank_link_session) : list Z :=
  plank_crypto_build_auth_transcript (peer_node_id s) (node_id (identity s)) (zeros 16)
    (remote_nonce s) (local_nonce s) (remote_timestamp s) (local_timestamp s).

Definition encode_proof (signature : list Z) (e : encoder) : option encoder :=
  e ← cbor_encode_map malloc_ok e 1;
  e ← put_text malloc_ok (lit "sig") e;
  put_bytes malloc_ok signature PLANK_SIGNATURE_SIZE e.

(** src/plank/plank_link.c:301-334 (plank_link_session_send_auth_proof) *)
Definition plank_link_session_send_auth_proof (s : plank_link_session)
  : option (plank_link_session * bool) :=
  match plank_crypto_sign_ed25519 crypto (local_transcript s) (signing_key_priv (identity s)) with
  | None => Some (s, false)
  | Some signature =>
      '(s, ok) ← send_encoded 128 PLANK_FRAME_AUTH_PROOF (encode_proof signature) s;
      Some (if ok : bool then set_state PLANK_LINK_AUTH_OK s else s, ok)
  end.

(** One bundle of an offer; an array that is not given counts as zeros, and an
    index past the end is undefined.
    src/plank/plank_link.c:402-412 (plank_link_session_send_bundle_offer) *)
Definition put_offered (bundle_types object_counts sizes : option (list Z)) (i : Z)
    (id : list Z) (e : encoder) : option encoder :=
  let number (l : option (list Z)) := match l with Some l => nthZ l i | None => Some 0 end in
  e ← cbor_encode_map malloc_ok e 4;
  e ← put_text malloc_ok (lit "id") e;
  e ← put_bytes malloc_ok id PLANK_BUNDLE_ID_SIZE e;
  e ← put_text malloc_ok (lit "type") e;
  n ← number bundle_types; e ← put_uint malloc_ok n e;
  e ← put_text malloc_ok (lit "objects") e;
  n ← number object_counts; e ← put_uint malloc_ok n e;
  e ← put_text malloc_ok (lit "size") e;
  n ← number sizes; put_uint malloc_ok n e.

Fixpoint put_offers (bundle_types object_counts sizes : option (list Z)) (i : Z)
    (ids : list (list Z)) (e : encoder) : option encoder :=
  match ids with
  | [] => Some e
  | id :: ids =>
      e ← put_offered bundle_types object_counts sizes i id e;
      put_offers bundle_types object_counts sizes (i + 1) ids e
  end.

(** src/plank/plank_link.c:386-421 (plank_link_session_send_bundle_offer) *)
Definition plank_link_session_send_bundle_offer (bundle_ids : list (list Z))
    (bundle_types object_counts sizes : option (list Z)) (cursor_low cursor_high : Z)
    (s : plank_link_session) : option (plank_link_session * bool) :=
  if zlen bundle_ids <=? 0 then Some (s, false)
  else send_encoded 1024 PLANK_FRAME_BUNDLE_OFFER (λ e,
    e ← cbor_encode_map malloc_ok e 3;
    e ← put_text malloc_ok (lit "bundles") e;
    e ← cbor_encode_array malloc_ok e (zlen bundle_ids);
    e ← put_offers bundle_types object_counts sizes 0 bundle_ids e;
    e ← put_text malloc_ok (lit "cursor_low") e;
    e ← put_uint malloc_ok cursor_low e;
    e ← put_text malloc_ok (lit "cursor_high") e;
    put_uint malloc_ok cursor_high e) s.

(** The arguments are not used.
    src/plank/plank_link.c:423-431 (plank_link_session_send_bundle_request) *)
Definition plank_link_session_send_bundle_request (s : plank_link_session)
  : plank_link_session * bool := send_frame PLANK_FRAME_BUNDLE_REQUEST [] s.

(** src/plank/plank_link.c:433-438 (plank_link_session_send_bundle) *)
Definition plank_link_session_send_bundle (data : list Z) (s : plank_link_session)
  : plank_link_session * bool := send_frame PLANK_FRAME_BUNDLE_DATA data s.

(** The counts are of type [int].
    src/plank/plank_link.c:459-479 (plank_link_session_send_receipt) *)
Definition encode_receipt (code target_kind : Z) (target_id : option (list Z))
    (accepted duplicate rejected quarantine : Z) (details : option cstr) (e : encoder)
  : option encoder :=
  e ← cbor_encode_map malloc_ok e 7;
  e ← put_text malloc_ok (lit "code") e;
  e ← put_uint malloc_ok code e;
  e ← put_text malloc_ok (lit "target_kind") e;
  e ← put_uint malloc_ok target_kind e;
  e ← put_text malloc_ok (lit "target_id") e;
  e ← match target_id with
      | Some id => put_bytes malloc_ok id PLANK_BUNDLE_ID_SIZE e
      | None => cbor_encode_null malloc_ok e
      end;
  e ← put_text malloc_ok (lit "accepted") e;
  e ← put_uint malloc_ok (u64 accepted) e;
  e ← put_text malloc_ok (lit "duplicate") e;
  e ← put_uint malloc_ok (u64 duplicate) e;
  e ← put_text malloc_ok (lit "rejected") e;
  e ← put_uint malloc_ok (u64 rejected) e;
  e ← put_text malloc_ok (lit "quarantine") e;
  e ← put_uint malloc_ok (u64 quarantine) e;
  match details with
  | Some (c :: details) =>
      e ← put_text malloc_ok (lit "details") e;
      put_text malloc_ok (c :: details) e
  | _ => Some e
  end.

(** src/plank/plank_link.c:447-484 (plank_link_session_send_receipt) *)
Definition plank_link_session_send_receipt (code target_kind : Z) (target_id : option (list Z))
    (accepted duplicate rejected quarantine : Z) (details : option cstr)
    (s : plank_link_session) : option (plank_link_session * bool) :=
  send_encoded 256 PLANK_FRAME_RECEIPT
    (encode_receipt code target_kind target_id accepted duplicate rejected quarantine details) s.

(** src/plank/plank_link.c:490-492 (plank_link_session_send_ping) *)
Definition plank_link_session_send_ping (s : plank_link_session) : plank_link_session * bool :=
  send_frame PLANK_FRAME_PING [] s.

(** src/plank/plank_link.c:494-498 (plank_link_session_handle_ping) *)
Definition plank_link_session_handle_ping (s : plank_link_session) : plank_link_session * bool :=
  send_frame PLANK_FRAME_PONG [] s.

(** src/plank/plank_link.c:504-522 (plank_link_session_send_error) *)
Definition plank_link_session_send_error (code : Z) (fatal : bool) (text : option cstr)
    (s : plank_link_session) : option (plank_link_session * bool) :=
  send_encoded 256 PLANK_FRAME_ERROR (λ e,
    e ← cbor_encode_map malloc_ok e 3;
    e ← put_text malloc_ok (lit "code") e;
    e ← put_uint malloc_ok code e;
    e ← put_text malloc_ok (lit "fatal") e;
    e ← cbor_encode_bool malloc_ok e fatal;
    e ← put_text malloc_ok (lit "text") e;
    put_text malloc_ok (default [] text) e) s.

(** src/plank/plank_link.c:524-539 (plank_link_session_send_close) *)
Definition plank_link_session_send_close (reason_code : Z) (text : option cstr)
    (s : plank_link_session) : option (plank_link_session * bool) :=
  send_encoded 128 PLANK_FRAME_CLOSE (λ e,
    e ← cbor_encode_map malloc_ok e 2;
    e ← put_text malloc_ok (lit "reason") e;
    e ← put_uint malloc_ok (u64 reason_code) e;
    e ← put_text malloc_ok (lit "text") e;
    put_text malloc_ok (default [] text) e) s.

(** src/plank/plank_link.c:541-556 (plank_link_session_close) *)
Definition plank_link_session_close (s : plank_link_session) : option plank_link_session :=
  '(s, _) ← plank_link_session_send_close 0 (Some (lit "Normal close")) s;
  let s := if 0 <=? socket_fd s then set_socket_fd (-1) s else s in
  Some (set_state PLANK_LINK_IDLE s).

(** ** Receiving *)

(** [strncmp(s, k, n) == 0] for the bytes [s] in memory and a literal [k];
    reading past the bytes is undefined. *)
Fixpoint strncmp_eq (k : cstr) (s : list Z) (n : Z) : option bool :=
  if n <=? 0 then Some true
  else match s with
       | [] => None
       | c :: s =>
           match k with
           | [] => Some (c =? 0)
           | x :: k => if c =? x then strncmp_eq k s (n - 1) else Some false
           end
       end.

(** The key of [len] bytes at [off] is a prefix of [k]. *)
Definition key_starts {A} (k : cstr) (off len : Z) (d : decoder) (yes no : option A) : option A :=
  found ← strncmp_eq k (dropZ off (d_buf d)) len;
  if found : bool then yes else no.

(** The value of the key, for a greeting.
    src/plank/plank_link.c:277-296 (plank_link_session_handle_hello) *)
Definition hello_field (fuel : nat) (off len : Z) (d : decoder) (s : plank_link_session)
  : option (plank_link_session * decoder) :=
  key_starts (lit "node_id") off len d
    (store_field set_peer_node_id (decode_id PLANK_NODE_ID_SIZE (peer_node_id s) d) s)
  (key_starts (lit "node_addr") off len d
    (store_field set_peer_node_addr (decode_string PLANK_MAX_ADDRESS (peer_node_addr s) d) s)
  (key_starts (lit "pubkey") off len d
    (store_field set_peer_signing_key_pub
       (decode_id PLANK_PUBKEY_SIZE (peer_signing_key_pub s) d) s)
  (key_starts (lit "nonce") off len d
    (store_field set_remote_nonce (decode_id PLANK_NONCE_SIZE (remote_nonce s) d) s)
    (d ← cbor_skip fuel d; Some (s, d))))).

(** The value of the key, for a proof.
    src/plank/plank_link.c:351-358 (plank_link_session_handle_auth_proof) *)
Definition proof_field (fuel : nat) (off len : Z) (d : decoder) (signature : list Z)
  : option (list Z * decoder) :=
  key_starts (lit "sig") off len d
    (store_field (λ x _, x) (decode_id PLANK_SIGNATURE_SIZE signature d) signature)
    (d ← cbor_skip fuel d; Some (signature, d)).

Section entries.
Context {T : Type} (field : nat → Z → Z → decoder → T → option (T * decoder)).

(** The loop over the entries, which only a key that is no text ends early.
    src/plank/plank_link.c:272-297 (plank_link_session_handle_hello) *)
Fixpoint link_entries (fuel : nat) (count : Z) (d : decoder) (o : T) : option T :=
  match fuel with
  | O => None
  | S fuel =>
      if 0 <? count then
        match cbor_decode_text d with
        | (None, _) => Some o
        | (Some (off, len), d) =>
            '(o, d) ← field fuel off len d o;
            link_entries fuel (count - 1) d o
        end
      else Some o
  end.
End entries.

(** src/plank/plank_link.c:264-299 (plank_link_session_handle_hello) *)
Definition plank_link_session_handle_hello (fuel : nat) (payload : list Z)
    (s : plank_link_session) : option (plank_link_session * bool) :=
  let '(map_count, d) := cbor_decode_map (cbor_decoder_init payload) in
  s ← link_entries hello_field fuel map_count d s;
  Some (s, true).

(** src/plank/plank_link.c:336-380 (plank_link_session_handle_auth_proof) *)
Definition plank_link_session_handle_auth_proof (fuel : nat) (payload : list Z)
    (s : plank_link_session) : option (plank_link_session * bool) :=
  let '(map_count, d) := cbor_decode_map (cbor_decoder_init payload) in
  signature ← link_entries proof_field fuel map_count d (zeros PLANK_SIGNATURE_SIZE);
  Some (if plank_crypto_verify_ed25519 crypto (peer_transcript s) signature
             (peer_signing_key_pub s)
        then (set_state PLANK_LINK_AUTH_OK s, true) else (s, false)).

(** What is done with a frame. An empty payload is a null pointer.
    src/plank/plank_link.c:598-627 (plank_link_session_read_frame) *)
Definition dispatch (fuel : nat) (type : Z) (payload : list Z) (s : plank_link_session)
  : option (plank_link_session * bool) :=
  let handle (h : option (plank_link_session * bool)) :=
    if zlen payload =? 0 then Some (s, false) else h in
  if type =? PLANK_FRAME_HELLO then handle (plank_link_session_handle_hello fuel payload s)
  else if type =? PLANK_FRAME_AUTH_PROOF then
    handle (plank_link_session_handle_auth_proof fuel payload s)
  else if type =? PLANK_FRAME_PING then Some (plank_link_session_handle_ping s)
  else if type =? PLANK_FRAME_CLOSE then Some (set_state PLANK_LINK_IDLE s, true)
  else if type =? PLANK_FRAME_BUNDLE_DATA then
    Some (match on_bundle_received callbacks with Some f => f s payload | None => s end, true)
  else if type =? PLANK_FRAME_ERROR then
    Some (match on_error callbacks with Some f => f s | None => s end, true)
  else Some (s, true).

(** One call of [SSL_read] or [recv] for [n] bytes: the bytes, and whether there
    are as many. *)
Definition read_exactly (n : Z) (s : plank_link_session) : list Z * plank_link_session * bool :=
  let r := recv_ret net (ssl s) (arriving s) n in
  (takeZ r (arriving s), set_arriving (dropZ r (arriving s)) s, r =? n).

(** src/plank/plank_link.c:562-628 (plank_link_session_read_frame) *)
Definition plank_link_session_read_frame (fuel : nat) (s : plank_link_session)
  : option (plank_link_session * bool) :=
  if socket_fd s <? 0 then Some (s, false)
  else
    let '(l, s, ok) := read_exactly PLANK_FRAME_HEADER_SIZE s in
    let hdr := hdr_of_bytes l in
    if negb ok then Some (s, false)
    else if negb (plank_frame_hdr_valid_magic hdr) then Some (s, false)
    else
      let n := plank_frame_hdr_payload_len hdr in
      if 0 <? n then
        if negb (malloc_ok n) then Some (s, false)
        else
          let '(payload, s, ok) := read_exactly n s in
          if negb ok then Some (s, false)
          else dispatch fuel (plank_frame_hdr_type hdr) payload s
      else dispatch fuel (plank_frame_hdr_type hdr) [] s.

(** Every round gives [inner] to the loops over a payload.
    src/plank/plank_link.c:636-641 (plank_link_session_process) *)
Fixpoint process_loop (inner fuel : nat) (count : Z) (s : plank_link_session)
  : option (plank_link_session * Z) :=
  match fuel with
  | O => None
  | S fuel =>
      if poll_in net (ssl s) (arriving s) then
        '(s, ok) ← plank_link_session_read_frame inner s;
        if ok : bool then
          count ← checked 32 (count + 1);
          process_loop inner fuel count s
        else Some (s, count)
      else Some (s, count)
  end.

(** src/plank/plank_link.c:630-642 (plank_link_session_process) *)
Definition plank_link_session_process (inner fuel : nat) (s : plank_link_session)
  : option (plank_link_session * Z) :=
  if socket_fd s <? 0 then Some (s, -1) else process_loop inner fuel 0 s.
End link.
