(* ===== verification/PlankFrame.v ===== *)
(** Frame headers on the wire: the byte order functions of
    include/plank/plank_wire.h put every field in network order, and a header
    that was sent is read back field by field. *)

From S2P Require Import Prelude CLib Cbor CborDecode PlankObject PlankCore PlankLink.
#[local] Open Scope Z_scope.

(** ** Byte order *)

(** Two numbers of [w] bits are equal when their bits are. *)
Lemma bits_eq (w : nat) a b :
  in_u (Z.of_nat w) a → in_u (Z.of_nat w) b →
  Forall (λ k, Z.testbit a k = Z.testbit b k) (Z.of_nat <$> seq 0 w) → a = b.
Proof.
  intros Ha Hb Hk. rewrite Forall_fmap, Forall_forall in Hk. apply Z.bits_inj'. intros n Hn.
  destruct (Z.ltb_spec n (Z.of_nat w)).
  - replace n with (Z.of_nat (Z.to_nat n)) by lia. apply Hk, elem_of_seq. lia.
  - unfold in_u in *. rewrite <- (Z.mod_small a (2 ^ Z.of_nat w)), <- (Z.mod_small b (2 ^ Z.of_nat w)) by done.
    by rewrite !Z.mod_pow2_bits_high by lia.
Qed.

(** The bits of the byte order functions, one by one. *)
Ltac bits :=
  cbn [fmap list_fmap seq Z.of_nat Pos.of_succ_nat Pos.succ];
  repeat apply Forall_cons_2; try apply Forall_nil_2;
  repeat first
    [ rewrite Z.lor_spec | rewrite Z.land_spec | rewrite Z.shiftr_spec by lia
    | rewrite Z.mod_pow2_bits_low by lia | rewrite Z.mod_pow2_bits_high by lia
    | rewrite Z.shiftl_spec_low by lia | rewrite Z.shiftl_spec_high by lia ];
  repeat match goal with
  | |- context [Z.testbit (Zpos ?c) ?k] =>
      let v := eval vm_compute in (Z.testbit (Zpos c) k) in change (Z.testbit (Zpos c) k) with v
  end;
  rewrite ?andb_true_r, ?andb_false_r, ?orb_false_r, ?orb_false_l; try reflexivity.

Lemma u8_in z : in_u (Z.of_nat 8) (u8 z).
Proof. by apply wrap_range. Qed.

Lemma be_bytes_shiftr n z : be_bytes (S n) z = u8 (Z.shiftr z (8 * Z.of_nat n)) :: be_bytes n z.
Proof. cbn [be_bytes]. by rewrite Z.shiftr_div_pow2, Z.pow_mul_r by lia. Qed.

Ltac byte_order :=
  rewrite !be_bytes_shiftr; cbn [le_bytes be_bytes]; rewrite ?Z.shiftr_shiftr by lia;
  repeat (apply (f_equal2 cons); [apply (bits_eq 8); [apply u8_in.. | unfold wrap; bits] |]); try done.

Lemma htons_bytes x : le_bytes 2 (plank_htons x) = be_bytes 2 x.
Proof. unfold plank_htons. byte_order. Qed.

Lemma htonl_bytes x : le_bytes 4 (plank_htonl x) = be_bytes 4 x.
Proof. unfold plank_htonl. byte_order. Qed.


Lemma lor_in w a b : 0 <= w → in_u w a → in_u w b → in_u w (Z.lor a b).
Proof.
  unfold in_u. intros Hw Ha Hb.
  assert (E : Z.lor a b = Z.lor a b mod 2 ^ w).
  { rewrite <- Z.land_ones, Z.land_lor_distr_l, !Z.land_ones, !Z.mod_small by done. done. }
  rewrite E. apply Z.mod_pos_bound. lia.
Qed.

Lemma land_in w a m : in_u w m → 0 <= w → in_u w (Z.land a m).
Proof.
  unfold in_u. intros Hm Hw. split; [apply Z.land_nonneg; lia |].
  assert (E : Z.land a m = Z.land a m mod 2 ^ w).
  { rewrite <- Z.land_ones, <- Z.land_assoc, Z.land_ones, Z.mod_small by done. done. }
  rewrite E. apply Z.mod_pos_bound. lia.
Qed.

Lemma htons_in x : in_u 16 (plank_htons x).
Proof. by apply wrap_range. Qed.

Lemma htonl_in x : in_u 32 (plank_htonl x).
Proof.
  unfold plank_htonl. repeat apply lor_in; try done; try (by apply wrap_range); by apply land_in.
Qed.

Lemma htonll_in x : in_u 64 (plank_htonll x).
Proof.
  apply lor_in; [done | by apply wrap_range |]. pose proof (htonl_in (u32 (Z.shiftr x 32))). zlia.
Qed.

Lemma le_bytes_length n z : length (le_bytes n z) = n.
Proof. revert z. induction n as [|n IH]; intros z; [done |]. cbn. by rewrite IH. Qed.

Lemma le_bytes_app n m z :
  le_bytes (n + m) z = le_bytes n z ++ le_bytes m (Z.shiftr z (8 * Z.of_nat n)).
Proof.
  revert z. induction n as [|n IH]; intros z; [by rewrite Z.shiftr_0_r |].
  cbn [plus le_bytes app]. rewrite IH, Z.shiftr_shiftr by lia. do 4 f_equal. lia.
Qed.

Lemma be_bytes_app n m z :
  be_bytes (n + m) z = be_bytes n (Z.shiftr z (8 * Z.of_nat m)) ++ be_bytes m z.
Proof.
  induction n as [|n IH]; [done |]. cbn [plus]. rewrite !be_bytes_shiftr, IH, Z.shiftr_shiftr by lia.
  cbn [app]. do 3 f_equal. lia.
Qed.

Lemma be_bytes_rev n z : be_bytes n z = rev (le_bytes n z).
Proof.
  induction n as [|n IH]; [done |]. rewrite be_bytes_shiftr, IH.
  replace (S n) with (n + 1)%nat by lia. rewrite le_bytes_app, rev_app_distr. done.
Qed.

Lemma le_value_bytes n z : le_value (le_bytes n z) = z mod 256 ^ Z.of_nat n.
Proof.
  revert z. induction n as [|n IH]; intros z; [by rewrite Z.mod_1_r |].
  cbn [le_bytes le_value]. rewrite Z.lor_comm, lor_shiftl_add by (done || by apply wrap_range).
  rewrite IH, Nat2Z.inj_succ, Z.pow_succ_r, Z.rem_mul_r, Z.shiftr_div_pow2 by lia.
  unfold wrap. change (2 ^ 8) with 256. lia.
Qed.

(** Only the low bytes count. *)
Lemma le_bytes_add n a b : le_bytes n (a * 256 ^ Z.of_nat n + b) = le_bytes n b.
Proof.
  revert a b. induction n as [|n IH]; intros a b; [done |].
  cbn [le_bytes]. rewrite Nat2Z.inj_succ, Z.pow_succ_r, !Z.shiftr_div_pow2 by lia.
  replace (a * (256 * 256 ^ Z.of_nat n) + b) with (a * 256 ^ Z.of_nat n * 2 ^ 8 + b) by lia.
  rewrite Z.div_add_l by lia. rewrite IH. f_equal. unfold wrap.
  by rewrite Z.add_comm, Z_mod_plus_full.
Qed.

Lemma htonll_bytes x : in_u 64 x → le_bytes 8 (plank_htonll x) = be_bytes 8 x.
Proof.
  intros Hx. unfold plank_htonll. set (A := plank_htonl (u32 x)). set (B := plank_htonl _).
  assert (HA : in_u 32 A) by apply htonl_in. assert (HB : in_u 32 B) by apply htonl_in.
  assert (E : Z.lor (u64 (Z.shiftl A 32)) B = A * 256 ^ Z.of_nat 4 + B).
  { rewrite wrap_small, lor_shiftl_add; [done | done | done |]. rewrite Z.shiftl_mul_pow2 by lia. clearbody A B. zred. lia. }
  rewrite E, (le_bytes_app 4 4), (be_bytes_app 4 4), le_bytes_add. f_equal.
  - unfold B. rewrite htonl_bytes, wrap_small; [done |]. rewrite Z.shiftr_div_pow2 by lia. unfold in_u in *.
    split; [apply Z.div_pos | apply Z.div_lt_upper_bound]; zlia.
  - rewrite Z.shiftr_div_pow2, Z.div_add_l, Z.div_small, Z.add_0_r by zlia.
    unfold A. rewrite htonl_bytes, !be_bytes_rev. f_equal.
    rewrite <- (le_bytes_add 4 (x / 2 ^ 32) (u32 x)). f_equal. unfold wrap.
    change (256 ^ Z.of_nat 4) with (2 ^ 32).
    pose proof (Z.div_mod x (2 ^ 32)). lia.
Qed.

(** Twice is nothing. *)
Lemma hton_twice n (f : Z → Z) x :
  (∀ z, in_u (8 * Z.of_nat n) z → in_u (8 * Z.of_nat n) (f z) ∧ le_bytes n (f z) = be_bytes n z) →
  in_u (8 * Z.of_nat n) x → f (f x) = x.
Proof.
  intros Hf Hx. destruct (Hf x Hx) as [H1 E1]. destruct (Hf (f x) H1) as [H2 E2].
  rewrite be_bytes_rev, E1, be_bytes_rev, rev_involutive in E2.
  apply (f_equal le_value) in E2. rewrite !le_value_bytes in E2. unfold in_u in *.
  rewrite Z.pow_mul_r in * by lia. change (2 ^ 8) with 256 in *. by rewrite !Z.mod_small in E2 by done.
Qed.

Lemma htons_twice x : in_u 16 x → plank_ntohs (plank_htons x) = x.
Proof. apply (hton_twice 2). intros z _. split; [apply htons_in | apply htons_bytes]. Qed.

Lemma htonl_twice x : in_u 32 x → plank_ntohl (plank_htonl x) = x.
Proof. apply (hton_twice 4). intros z _. split; [apply htonl_in | apply htonl_bytes]. Qed.

Lemma htonll_twice x : in_u 64 x → plank_ntohll (plank_htonll x) = x.
Proof. apply (hton_twice 8). intros z Hz. split; [apply htonll_in | by apply htonll_bytes]. Qed.

(** ** Frame headers *)

(** The header on the wire. *)
Definition header_bytes (type flags len id : Z) : list Z :=
  lit "PLK1" ++ be_bytes 2 type ++ be_bytes 2 flags ++ be_bytes 4 len ++ be_bytes 8 id ++
  [0; 0; 0; 0].

Lemma header_on_wire type flags len id :
  in_u 16 type → in_u 64 id →
  hdr_bytes (plank_frame_hdr_init type flags len id) = header_bytes type flags len id.
Proof.
  intros Ht Hid. unfold hdr_bytes, plank_frame_hdr_init, header_bytes.
  cbn [magic frame_type frame_flags payload_len correlation_id reserved].
  by rewrite wrap_small, !htons_bytes, htonl_bytes, htonll_bytes.
Qed.

Lemma zlen_le_bytes n z : zlen (le_bytes n z) = Z.of_nat n.
Proof. unfold zlen. by rewrite le_bytes_length. Qed.

Lemma hdr_of_bytes_app (h : plank_frame_hdr) :
  magic h = lit "PLK1" → in_u 16 (frame_type h) → in_u 16 (frame_flags h) →
  in_u 32 (payload_len h) → in_u 64 (correlation_id h) → in_u 32 (reserved h) →
  hdr_of_bytes (hdr_bytes h) = h.
Proof.
  intros Hm H1 H2 H3 H4 H5. destruct h as [m t f l c r]. cbn in Hm, H1, H2, H3, H4, H5. subst m.
  assert (Hv : ∀ n z, in_u (8 * Z.of_nat n) z → le_value (le_bytes n z) = z).
  { intros n z Hz. rewrite le_value_bytes, Z.mod_small; [done |]. unfold in_u in Hz.
    by rewrite Z.pow_mul_r in Hz by lia. }
  change (hdr_of_bytes _) with (MkHdr (lit "PLK1") (le_value (le_bytes 2 t)) (le_value (le_bytes 2 f))
    (le_value (le_bytes 4 l)) (le_value (le_bytes 8 c)) (le_value (le_bytes 4 r))).
  by rewrite !Hv.
Qed.

Lemma frame_header_length type flags len id : zlen (header_bytes type flags len id) = 24.
Proof. done. Qed.

(** Reading a header that was sent. *)
Lemma header_read type flags len id :
  in_u 16 type → in_u 16 flags → in_u 32 len → in_u 64 id →
  let h := hdr_of_bytes (header_bytes type flags len id) in
  plank_frame_hdr_valid_magic h = true ∧ plank_frame_hdr_type h = type ∧
  plank_frame_hdr_flags h = flags ∧ plank_frame_hdr_payload_len h = len ∧
  plank_frame_hdr_correlation_id h = id.
Proof.
  intros Ht Hf Hl Hid. cbv zeta. rewrite <- header_on_wire by done.
  rewrite hdr_of_bytes_app;
    cbn [plank_frame_hdr_init magic frame_type frame_flags payload_len correlation_id reserved];
    try done; try apply htons_in; try apply htonl_in; try apply htonll_in.
  unfold plank_frame_hdr_valid_magic, plank_frame_hdr_type, plank_frame_hdr_flags,
    plank_frame_hdr_payload_len, plank_frame_hdr_correlation_id, plank_frame_hdr_init.
  cbn [magic frame_type frame_flags payload_len correlation_id].
  rewrite (wrap_small 16 type), !htons_twice, htonl_twice, htonll_twice by done. done.
Qed.

(** The packed header that is sent has its 24 bytes in network order, whatever
    the machine, and the peer reads from it the type, flags, length and
    correlation number that it was made with. *)
Theorem frame_header_roundtrip type flags len id :
  in_u 16 type → in_u 16 flags → in_u 32 len → in_u 64 id →
  let bytes := hdr_bytes (plank_frame_hdr_init type flags len id) in
  let h := hdr_of_bytes bytes in
  bytes = header_bytes type flags len id ∧ zlen bytes = PLANK_FRAME_HEADER_SIZE ∧
  plank_frame_hdr_valid_magic h = true ∧ plank_frame_hdr_type h = type ∧
  plank_frame_hdr_flags h = flags ∧ plank_frame_hdr_payload_len h = len ∧
  plank_frame_hdr_correlation_id h = id.
Proof.
  intros Ht Hf Hl Hid. cbv zeta. rewrite header_on_wire by done.
  split; [done |]. split; [apply frame_header_length | by apply header_read].
Qed.

Lemma frame_header_roundtrip_witness :
  let bytes := hdr_bytes (plank_frame_hdr_init 9 3 70000 5) in
  let h := hdr_of_bytes bytes in
  bytes = header_bytes 9 3 70000 5 ∧ zlen bytes = PLANK_FRAME_HEADER_SIZE ∧
  plank_frame_hdr_valid_magic h = true ∧ plank_frame_hdr_type h = 9 ∧
  plank_frame_hdr_flags h = 3 ∧ plank_frame_hdr_payload_len h = 70000 ∧
  plank_frame_hdr_correlation_id h = 5.
Proof. apply (frame_header_roundtrip 9 3 70000 5); by vm_compute. Defined.
