(* ===== verification/PlankLinkSpec.v ===== *)
(** Links between PLANK nodes: what is sent in a frame arrives in it, every frame
    that has arrived is handled, what a greeting tells, and what a node that
    follows the protocol can and cannot expect of the authentication. *)

From S2P Require Import Prelude CLib Cbor CborEncode CborDecode CborSpec.
From S2P Require Import PlankObject PlankWire PlankObjectSpec PlankMessageSpec PlankCore PlankCoreSpec.
From S2P Require Import PlankLink PlankFrame.
#[local] Open Scope Z_scope.

Import Encoder MapBuilder.

(** ** Transport *)

(** A connection that does not fail, as POSIX and OpenSSL document it. [send] on a
    socket that blocks, and [SSL_write] without partial writes, return when
    everything is written. On a plain socket [recv] with [MSG_WAITALL] waits for as
    many bytes as are asked for, and [poll] reports input while there are bytes to
    read. Nothing is assumed of reading over TLS: [SSL_read] returns at most one
    record, and [poll] does not see what the library has decrypted already. *)
Record reliable (net : transport) : Prop := {
  net_send : ∀ tls out data, send_ret net tls out data = zlen data;
  net_recv : ∀ l n, 0 <= n <= zlen l → recv_ret net false l n = n;
  net_poll : ∀ l, poll_in net false l = negb (is_empty l)
}.

(** A frame on the wire. *)
Definition frame_bytes (type : Z) (payload : list Z) : list Z :=
  header_bytes type 0 (zlen payload) 0 ++ payload.

Lemma zlen_frame type payload : zlen (frame_bytes type payload) = 24 + zlen payload.
Proof. unfold frame_bytes. by rewrite zlen_app, frame_header_length. Qed.

Section frames.
Context (malloc_ok : Z → bool) (malloc_small : small_ok malloc_ok).
Context (crypto : openssl) (net : transport) (Hnet : reliable net).
Context (callbacks : plank_link_callbacks).

Lemma write_all_reliable data s :
  zlen data < 2 ^ 31 → write_all net data s = (set_sent (sent s ++ data) s, true).
Proof using Hnet.
  intros Hd. pose proof (zlen_nonneg data). unfold write_all. rewrite (net_send _ Hnet), takeZ_all by done.
  f_equal. destruct (ssl s); [| apply Z.eqb_refl]. rewrite swrap_small by zlia. apply Z.eqb_refl.
Qed.

Lemma set_sent_twice x y s : set_sent x (set_sent y s) = set_sent x s.
Proof. by destruct s. Qed.

Lemma sent_set x s : sent (set_sent x s) = x.
Proof. by destruct s. Qed.

Lemma set_arriving_sent x y s : set_arriving x (set_sent y s) = set_sent y (set_arriving x s).
Proof. by destruct s. Qed.

(** A frame is written as one block. *)
Lemma send_frame_reliable type payload s :
  in_u 16 type → zlen payload < 2 ^ 31 →
  send_frame net type payload s = (set_sent (sent s ++ frame_bytes type payload) s, true).
Proof using Hnet.
  intros Ht Hp. pose proof (zlen_nonneg payload). unfold send_frame.
  rewrite (wrap_small 32) by zlia. rewrite header_on_wire by done.
  rewrite write_all_reliable by (rewrite frame_header_length; done). cbn [negb].
  unfold frame_bytes. destruct (Z.ltb_spec 0 (zlen payload)).
  - rewrite write_all_reliable, set_sent_twice, sent_set, <- app_assoc by done. done.
  - assert (payload = []) as -> by (destruct payload; [done | zl]). by rewrite app_nil_r.
Qed.

(** An encoder that has room sends its bytes. *)
Lemma send_encoded_reliable cap type encode bs s :
  64 <= cap <= 65536 → in_u 16 type → Writes encode bs → zlen bs <= cap →
  send_encoded malloc_ok net cap type encode s =
    Some (set_sent (sent s ++ frame_bytes type bs) s, true).
Proof using malloc_small Hnet.
  intros Hcap Ht Hw Hbs. unfold send_encoded, cbor_encoder_init_dynamic.
  destruct (Z.ltb_spec cap 64); [lia |]. rewrite malloc_small by lia. cbn [negb].
  destruct (Hw (MkEnc false cap [] false)) as (e & -> & HE).
  { split; [done |]. unfold e_len. cbn. rewrite zlen_nil. zlia. }
  rewrite (emits_fit _ _ _ HE) by done. cbn [mbind option_bind cbor_encoder_data e_null e_data e_cap app default from_option id].
  rewrite send_frame_reliable; [done | done |]. zlia.
Qed.

Lemma read_exactly_reliable n pre rest s :
  ssl s = false → arriving s = pre ++ rest → zlen pre = n →
  read_exactly net n s = (pre, set_arriving rest s, true).
Proof using Hnet.
  intros Hplain Ha <-. unfold read_exactly.
  rewrite Hplain, Ha, (net_recv _ Hnet) by (pose proof (zlen_nonneg pre); zl).
  by rewrite takeZ_app, dropZ_app, Z.eqb_refl.
Qed.

(** Reading a frame is doing with it what its type says. *)
Lemma read_frame_reliable fuel type payload rest s :
  ssl s = false → 0 <= socket_fd s → arriving s = frame_bytes type payload ++ rest →
  in_u 16 type → zlen payload < 2 ^ 32 → malloc_ok (zlen payload) = true →
  plank_link_session_read_frame malloc_ok crypto net callbacks fuel s =
    dispatch crypto net callbacks fuel type payload (set_arriving rest s).
Proof using Hnet.
  intros Hplain Hfd Ha Ht Hp Hok. pose proof (zlen_nonneg payload). unfold plank_link_session_read_frame.
  destruct (Z.ltb_spec (socket_fd s) 0); [lia |].
  unfold frame_bytes in Ha. rewrite <- app_assoc in Ha.
  rewrite (read_exactly_reliable _ _ _ _ Hplain Ha) by done. cbn [negb].
  destruct (header_read type 0 (zlen payload) 0) as (-> & -> & _ & -> & _); [done.. |].
  cbn [negb]. destruct (Z.ltb_spec 0 (zlen payload)).
  - rewrite Hok. cbn [negb].
    rewrite (read_exactly_reliable _ payload rest) by (by destruct s).
    by destruct s.
  - assert (payload = []) as -> by (destruct payload; [done | zl]). by destruct s.
Qed.
End frames.

(** ** Greetings *)

Lemma writes_ext m m' bs : (∀ e, m' e = m e) → Writes m bs → Writes m' bs.
Proof. intros E Hm e He. rewrite E. by apply Hm. Qed.

Lemma bind_some {A} (o : option A) : o = (x ← o; Some x).
Proof. by destruct o. Qed.

(** A chain of encoding functions is a list of calls. *)
Ltac calls :=
  intros e; cbn [run_calls run_call app is_empty]; unfold put_text, put_uint, put_bytes;
  repeat first
    [ match goal with |- (Some ?x ≫= ?f) = ?r => change (f x = r); cbv beta end
    | apply option_bind_ext_fun; intros ? ];
  first [apply bind_some | reflexivity].

(** The lengths of keys and of heads that are known. *)
Ltac ground_lengths :=
  repeat match goal with |- context [zlen (lit ?k)] =>
    let v := eval vm_compute in (zlen (lit k)) in change (zlen (lit k)) with v end;
  repeat match goal with |- context [zlen (head_bytes ?m ?a)] =>
    match isZcst a with true => idtac end;
    let v := eval vm_compute in (zlen (head_bytes m a)) in change (zlen (head_bytes m a)) with v end;
  change (zlen (@nil Z)) with 0.

Section writing.
Context (malloc_ok : Z → bool).

(** What a greeting has under each key, and what its receiver makes of it. *)
Definition hello_fields (a : plank_link_session)
  : list (cstr * item * (plank_link_session → plank_link_session)) :=
  [(lit "version", IUint PLANK_PROTOCOL_VERSION, id);
   (lit "node_id", IBytes (node_id (identity a)), set_peer_node_id (node_id (identity a)));
   (lit "node_addr", IText (node_addr (identity a)), set_peer_node_addr (node_addr (identity a)));
   (lit "pubkey", IBytes (signing_key_pub (identity a)),
    set_peer_signing_key_pub (signing_key_pub (identity a)));
   (lit "nonce", IBytes (local_nonce a), set_remote_nonce (local_nonce a))].

Definition field_entry {T} (f : cstr * item * T) : map_entry := MkEntry f.1.1 (enc_item f.1.2).

Definition hello_bytes (a : plank_link_session) : list Z := map_bytes (field_entry <$> hello_fields a).

(** The identity and the nonce have the sizes of their arrays. *)
Record greeting_wf (a : plank_link_session) : Prop := {
  greet_id : id_ok PLANK_NODE_ID_SIZE (node_id (identity a));
  greet_addr : text_ok PLANK_MAX_ADDRESS (node_addr (identity a));
  greet_pub : id_ok PLANK_PUBKEY_SIZE (signing_key_pub (identity a));
  greet_nonce : id_ok PLANK_NONCE_SIZE (local_nonce a)
}.

Lemma hello_length a : greeting_wf a → zlen (hello_bytes a) <= 400.
Proof.
  intros [[Hid _] [Haddr _] [Hpub _] [Hn _]]. unfold hello_bytes, map_bytes, pair_bytes.
  cbn [hello_fields fmap list_fmap field_entry fst snd key encoded_value enc_item concat].
  unfold PLANK_PUBKEY_SIZE, PLANK_NONCE_SIZE in *. sizes.
  change (zlen [_; _; _; _; _]) with 5. rewrite ?zlen_app in *.
  ground_lengths. heads. lia.
Qed.

Lemma encode_hello_writes a :
  greeting_wf a → Writes (encode_hello malloc_ok a) (hello_bytes a).
Proof.
  intros [[Hid _] [Haddr _] [Hpub _] [Hn _]].
  eapply writes_ext; [| eapply eq_rect; [apply (run_calls_writes malloc_ok
    [CallMap 5; CallText (lit "version"); CallUint PLANK_PROTOCOL_VERSION;
     CallText (lit "node_id"); CallBytes (node_id (identity a));
     CallText (lit "node_addr"); CallText (node_addr (identity a));
     CallText (lit "pubkey"); CallBytes (signing_key_pub (identity a));
     CallText (lit "nonce"); CallBytes (local_nonce a)]) |]].
  - unfold encode_hello. rewrite <- Hid, <- Hpub, <- Hn. calls.
  - unfold PLANK_PUBKEY_SIZE, PLANK_NONCE_SIZE in *. sizes.
    repeat constructor; cbn [call_ok]; try done; zlia.
  - unfold hello_bytes, map_bytes, pair_bytes.
    cbn [hello_fields fmap list_fmap field_entry fst snd key encoded_value enc_item concat call_bytes].
    by rewrite <- !app_assoc, app_nil_r.
Qed.
End writing.

(** ** Reading *)

Section reading.
Context {T : Type}.

(** The key at [off] is [k']; whether it starts [k] does not depend on what
    comes after it. *)
Lemma key_starts_at {A} b k k' off d (yes no : option A) :
  slice off (zlen k') (d_buf d) = k' →
  (∀ rest, strncmp_eq k (k' ++ rest) (zlen k') = Some b) →
  key_starts k off (zlen k') d yes no = if b then yes else no.
Proof.
  intros Hk Hb. unfold key_starts, slice in *.
  rewrite <- (take_drop (Z.to_nat (zlen k')) (dropZ off (d_buf d))).
  unfold takeZ in Hk. by rewrite Hk, Hb.
Qed.

Lemma decode_text_error d : d_error d = true → ∃ d', cbor_decode_text d = (None, d').
Proof.
  intros E. unfold cbor_decode_text, decode_block, read_initial, decoder_read_byte. rewrite E.
  cbn. by eexists.
Qed.

(** Stopping at an error is the same as failing to read the next key. *)
Lemma link_entries_decode (field : nat → Z → Z → decoder → T → option (T * decoder)) fuel :
  ∀ count d o o' d', decode_entries field fuel count d o = Some (o', d') →
  link_entries field fuel count d o = Some o'.
Proof.
  induction fuel as [|fuel IH]; intros count d o o' d'; [done |]. cbn [decode_entries link_entries].
  destruct (0 <? count); [| by intros [= <- <-]]. unfold cbor_decoder_ok.
  destruct (d_error d) eqn:E; cbn [andb negb].
  - intros [= <- <-]. by destruct (decode_text_error d E) as [d2 ->].
  - destruct (cbor_decode_text d) as [[[off len]|] d2]; [| by intros [= <- <-]].
    destruct (field fuel off len d2 o) as [[o2 d3]|]; [| done]. apply IH.
Qed.

(** A whole map of fields, read with keys compared by their starts. *)
Lemma link_map_reads (field : nat → Z → Z → decoder → T → option (T * decoder)) fs fuel o :
  Forall (λ f, Reads field f.1 f.2) fs →
  zlen (map_bytes fs.*1) < 2 ^ 60 → (2 * length (map_bytes fs.*1) + 1 < fuel)%nat →
  ∃ d, cbor_decode_map (cbor_decoder_init (map_bytes fs.*1)) = (zlen fs, d) ∧
    link_entries field fuel (zlen fs) d o = Some (updates fs o).
Proof.
  intros Hfs Hsize Hfuel. destruct (decode_map_reads field fs fuel Hfs o Hsize Hfuel) as (d & Hd & _ & E).
  exists d. split; [done |]. by eapply link_entries_decode.
Qed.
End reading.

(** Which of the keys of a table the key at hand starts. *)
Ltac starts Hk :=
  repeat first
    [ rewrite (key_starts_at false) by (exact Hk || (intros; reflexivity))
    | rewrite (key_starts_at true) by (exact Hk || (intros; reflexivity)) ].

Lemma hello_reads a :
  greeting_wf a →
  Forall (λ f, Reads hello_field f.1 f.2) ((λ f, (field_entry f, f.2)) <$> hello_fields a).
Proof.
  intros [[Hid _] Haddr [Hpub _] [Hn _]].
  unfold hello_fields. repeat apply Forall_cons_2; try apply Forall_nil_2;
    intros fuel off pre rest o Hk Hsize Hfuel; unfold hello_field;
    cbn [fst snd field_entry key encoded_value] in *; starts Hk.
  - apply skip_read; [by repeat constructor | done | done].
  - unfold store_field. cbn [enc_item] in *. rewrite Hid in *. rewrite decode_id_head by done. done.
  - by apply store_text.
  - unfold store_field. cbn [enc_item] in *. rewrite Hpub in *. rewrite decode_id_head by done. done.
  - unfold store_field. cbn [enc_item] in *. rewrite Hn in *. rewrite decode_id_head by done. done.
Qed.

(** The receiver of a greeting after it. *)
Definition greeted (a b : plank_link_session) : plank_link_session :=
  set_remote_nonce (local_nonce a) (set_peer_signing_key_pub (signing_key_pub (identity a))
    (set_peer_node_addr (node_addr (identity a)) (set_peer_node_id (node_id (identity a)) b))).

Lemma handle_hello_greets a b fuel :
  greeting_wf a → 1000 <= Z.of_nat fuel →
  plank_link_session_handle_hello fuel (hello_bytes a) b = Some (greeted a b, true).
Proof.
  intros Ha Hfuel. pose proof (hello_length a Ha) as Hlen.
  set (fs := (λ f, (field_entry f, f.2)) <$> hello_fields a).
  assert (E : hello_bytes a = map_bytes fs.*1).
  { unfold hello_bytes, fs. by rewrite <- list_fmap_compose. }
  unfold plank_link_session_handle_hello. rewrite E in *.
  destruct (link_map_reads hello_field fs fuel b) as (d & -> & Hd).
  { by apply hello_reads. } { zlia. } { unfold zlen in Hlen. lia. }
  by rewrite Hd.
Qed.

(** ** Proofs *)

Definition proof_bytes (signature : list Z) : list Z :=
  map_bytes [MkEntry (lit "sig") (enc_item (IBytes signature))].

Lemma proof_length sg : zlen sg = PLANK_SIGNATURE_SIZE → zlen (proof_bytes sg) = 71.
Proof.
  intros H. unfold proof_bytes, map_bytes, pair_bytes. cbn [fmap list_fmap concat key encoded_value enc_item].
  rewrite H, !zlen_app, H. by vm_compute.
Qed.

Lemma encode_proof_writes malloc_ok sg :
  zlen sg = PLANK_SIGNATURE_SIZE → Writes (encode_proof malloc_ok sg) (proof_bytes sg).
Proof.
  intros H. eapply writes_ext; [| eapply eq_rect; [apply (run_calls_writes malloc_ok
    [CallMap 1; CallText (lit "sig"); CallBytes sg]) |]].
  - unfold encode_proof. rewrite <- H. calls.
  - sizes. repeat constructor; cbn [call_ok]; try done; zlia.
  - unfold proof_bytes, map_bytes, pair_bytes.
    cbn [fmap list_fmap key encoded_value enc_item concat call_bytes].
    by rewrite <- !app_assoc, app_nil_r.
Qed.

Lemma handle_proof crypto sg b fuel :
  zlen sg = PLANK_SIGNATURE_SIZE → 1000 <= Z.of_nat fuel →
  plank_link_session_handle_auth_proof crypto fuel (proof_bytes sg) b =
    Some (if plank_crypto_verify_ed25519 crypto (peer_transcript b) sg (peer_signing_key_pub b)
          then (set_state PLANK_LINK_AUTH_OK b, true) else (b, false)).
Proof.
  intros H Hfuel. pose proof (proof_length sg H) as Hlen. unfold plank_link_session_handle_auth_proof.
  destruct (link_map_reads proof_field
    [(MkEntry (lit "sig") (enc_item (IBytes sg)), λ _, sg)] fuel (zeros PLANK_SIGNATURE_SIZE))
    as (d & E & Hd).
  - apply Forall_cons_2; [| by apply Forall_nil_2].
    intros fuel' off pre rest o Hk Hsize Hf. unfold proof_field.
    cbn [fst snd key encoded_value] in *. starts Hk.
    unfold store_field. cbn [enc_item] in *. rewrite H in *. by rewrite decode_id_head by done.
  - cbn [fmap list_fmap fst]. fold (proof_bytes sg). zlia.
  - cbn [fmap list_fmap fst]. fold (proof_bytes sg). unfold zlen in Hlen. lia.
  - cbn [fmap list_fmap fst] in E. fold (proof_bytes sg) in E. rewrite E, Hd. done.
Qed.

(** ** A connection *)

(** What one node has sent reaches the other. *)
Definition deliver (a b : plank_link_session) : plank_link_session * plank_link_session :=
  (set_sent [] a, set_arriving (arriving b ++ sent a) b).

(** A session that has only been created. *)
Record fresh (s : plank_link_session) : Prop := {
  fresh_plain : ssl s = false;
  fresh_sent : sent s = [];
  fresh_arriving : arriving s = [];
  fresh_remote : remote_timestamp s = 0;
  fresh_fd : 0 <= socket_fd s
}.

Lemma inbound_fresh malloc_ok fd stored s :
  0 <= fd → plank_link_session_create_inbound malloc_ok fd stored [] = Some s → fresh s.
Proof.
  unfold plank_link_session_create_inbound, session_alloc. intros Hfd.
  destruct (malloc_ok 65536); [| done]. by intros [= <-].
Qed.

Lemma outbound_fresh malloc_ok id stored s fd :
  0 <= fd → plank_link_session_create_outbound malloc_ok id stored [] = Some s →
  fresh (set_socket_fd fd s).
Proof.
  unfold plank_link_session_create_outbound, session_alloc. intros Hfd.
  destruct (malloc_ok 65536); [| done]. by intros [= <-].
Qed.

Section handshake.
Context (malloc_ok : Z → bool) (crypto : openssl) (net : transport)
  (callbacks : plank_link_callbacks).

(** Both nodes greet, both read the greeting, [a] proves who it is, [b] reads
    the proof: the sessions, and whether [b] accepts it. *)
Definition handshake (fuel : nat) (nonce_a nonce_b : list Z) (now_a now_b : Z)
    (a b : plank_link_session) : option (plank_link_session * plank_link_session * bool) :=
  let read := plank_link_session_read_frame malloc_ok crypto net callbacks fuel in
  '(a, _) ← plank_link_session_send_hello malloc_ok net nonce_a now_a a;
  '(b, _) ← plank_link_session_send_hello malloc_ok net nonce_b now_b b;
  let '(a, b) := deliver a b in
  let '(b, a) := deliver b a in
  '(a, _) ← read a;
  '(b, _) ← read b;
  '(a, _) ← plank_link_session_send_auth_proof malloc_ok crypto net a;
  let '(a, b) := deliver a b in
  '(b, ok) ← read b;
  Some (a, b, ok).
End handshake.

Section honest.
Context (malloc_ok : Z → bool) (malloc_small : small_ok malloc_ok).
Context (crypto : openssl) (net : transport) (Hnet : reliable net).
Context (callbacks : plank_link_callbacks).

Lemma send_hello_reliable nonce now s :
  greeting_wf (set_local_nonce nonce s) →
  plank_link_session_send_hello malloc_ok net nonce now s =
    let s' := set_local_timestamp (u64 now) (set_local_nonce nonce s) in
    Some (set_sent (sent s ++ frame_bytes PLANK_FRAME_HELLO (hello_bytes s')) s', true).
Proof using malloc_small Hnet.
  intros Hs. unfold plank_link_session_send_hello. cbv zeta.
  assert (Hs' : greeting_wf (set_local_timestamp (u64 now) (set_local_nonce nonce s)))
    by (destruct s, Hs; by split).
  pose proof (hello_length _ Hs'). set (s' := set_local_timestamp _ _) in *.
  rewrite (send_encoded_reliable malloc_ok malloc_small net Hnet) with (bs := hello_bytes s');
    [| lia | done | by apply encode_hello_writes | lia].
  by destruct s.
Qed.

Lemma nonempty_payload {A} (l : list Z) (x y : A) : 0 < zlen l → (if zlen l =? 0 then x else y) = y.
Proof. intros H. destruct (Z.eqb_spec (zlen l) 0); [lia | done]. Qed.

Lemma read_hello a s rest fuel :
  greeting_wf a → ssl s = false → 0 <= socket_fd s → 1000 <= Z.of_nat fuel →
  arriving s = frame_bytes PLANK_FRAME_HELLO (hello_bytes a) ++ rest →
  plank_link_session_read_frame malloc_ok crypto net callbacks fuel s =
    Some (greeted a (set_arriving rest s), true).
Proof using malloc_small Hnet.
  intros Ha Hplain Hfd Hfuel Harr. pose proof (hello_length a Ha). pose proof (zlen_nonneg (hello_bytes a)).
  rewrite (read_frame_reliable malloc_ok crypto net Hnet callbacks fuel _ _ _ _ Hplain Hfd Harr);
    [| done | zlia | apply malloc_small; lia].
  unfold dispatch. cbn [PLANK_FRAME_HELLO Z.eqb Pos.eqb].
  rewrite nonempty_payload; [by apply handle_hello_greets |].
  unfold hello_bytes, map_bytes. rewrite zlen_app. heads. pose proof (zlen_nonneg (concat (pair_bytes <$> (field_entry <$> hello_fields a)))). lia.
Qed.

Lemma send_proof_reliable s sg :
  EVP_DigestSign_ed25519 crypto (takeZ 32 (signing_key_priv (identity s))) (local_transcript s) = Some sg →
  zlen sg = PLANK_SIGNATURE_SIZE →
  plank_link_session_send_auth_proof malloc_ok crypto net s =
    Some (set_state PLANK_LINK_AUTH_OK
      (set_sent (sent s ++ frame_bytes PLANK_FRAME_AUTH_PROOF (proof_bytes sg)) s), true).
Proof using malloc_small Hnet.
  intros Hs Hlen. unfold plank_link_session_send_auth_proof, plank_crypto_sign_ed25519. rewrite Hs.
  rewrite (send_encoded_reliable malloc_ok malloc_small net Hnet) with (bs := proof_bytes sg);
    [done | lia | done | by apply encode_proof_writes | rewrite proof_length by done; lia].
Qed.

Lemma read_proof sg s rest fuel :
  zlen sg = PLANK_SIGNATURE_SIZE → ssl s = false → 0 <= socket_fd s → 1000 <= Z.of_nat fuel →
  arriving s = frame_bytes PLANK_FRAME_AUTH_PROOF (proof_bytes sg) ++ rest →
  plank_link_session_read_frame malloc_ok crypto net callbacks fuel s =
    let s' := set_arriving rest s in
    Some (if plank_crypto_verify_ed25519 crypto (peer_transcript s') sg (peer_signing_key_pub s')
          then (set_state PLANK_LINK_AUTH_OK s', true) else (s', false)).
Proof using malloc_small Hnet.
  intros Hsg Hplain Hfd Hfuel Harr. pose proof (proof_length sg Hsg).
  rewrite (read_frame_reliable malloc_ok crypto net Hnet callbacks fuel _ _ _ _ Hplain Hfd Harr);
    [| done | zlia | apply malloc_small; lia].
  unfold dispatch. cbn [PLANK_FRAME_HELLO PLANK_FRAME_AUTH_PROOF Z.eqb Pos.eqb].
  rewrite nonempty_payload by lia. by apply handle_proof.
Qed.
End honest.

Lemma bind_pair {A B C} (o : option (A * B)) x y (f : A → B → option C) r :
  o = Some (x, y) → f x y = r → ('(x, y) ← o; f x y) = r.
Proof. by intros -> <-. Qed.

Lemma if_flag {A} (c : bool) (x y : A) :
  (if c then (x, true) else (y, false)) = (if c then x else y, c).
Proof. by destruct c. Qed.

Section handshake_spec.
Context (malloc_ok : Z → bool) (malloc_small : small_ok malloc_ok).
Context (crypto : openssl) (net : transport) (Hnet : reliable net).
Context (callbacks : plank_link_callbacks).

(** Two nodes of one's own that follow the protocol over a plain connection that works, with
    keys that OpenSSL accepts, do not authenticate each other: the clock that each
    signs is not in its greeting, so that the other checks the signature against the
    time 0. The proof is accepted exactly when both clocks stood at 0, while its sender
    counts as authenticated in any case. *)
Theorem handshake_needs_zero_clocks a b fuel nonce_a nonce_b now_a now_b :
  fresh a → fresh b →
  greeting_wf (set_local_nonce nonce_a a) → greeting_wf (set_local_nonce nonce_b b) →
  ssl_pair crypto (signing_key_priv (identity a)) (signing_key_pub (identity a)) →
  1000 <= Z.of_nat fuel →
  let transcript := plank_crypto_build_auth_transcript (node_id (identity a)) (node_id (identity b))
    (zeros 16) nonce_a nonce_b in
  (∀ sg, EVP_DigestSign_ed25519 crypto (takeZ 32 (signing_key_priv (identity a)))
           (transcript (u64 now_a) 0) = Some sg →
         EVP_DigestVerify_ed25519 crypto (takeZ 32 (signing_key_pub (identity a))) sg
           (transcript 0 (u64 now_b)) = true →
         transcript (u64 now_a) 0 = transcript 0 (u64 now_b)) →
  ∃ a' b', handshake malloc_ok crypto net callbacks fuel nonce_a nonce_b now_a now_b a b =
      Some (a', b', bool_decide (u64 now_a = 0 ∧ u64 now_b = 0)) ∧
    state a' = PLANK_LINK_AUTH_OK.
Proof using malloc_small Hnet.
  intros [Hpa Hsa Haa Hta Hfa] [Hpb Hsb Hab Htb Hfb] Hga Hgb [_ Hsign] Hfuel transcript Hbind.
  destruct (Hsign (transcript (u64 now_a) 0)) as (sg & Hsg & Hlen & Hver).
  assert (Hcheck : plank_crypto_verify_ed25519 crypto (transcript 0 (u64 now_b)) sg
      (signing_key_pub (identity a)) = bool_decide (u64 now_a = 0 ∧ u64 now_b = 0)).
  { unfold plank_crypto_verify_ed25519. rewrite (takeZ_all _ sg Hlen).
    case_bool_decide as Hz; [by destruct Hz as [E1 E2]; rewrite E1, E2 in * |].
    apply not_true_is_false. intros Hv. apply Hz. specialize (Hbind sg Hsg Hv).
    unfold transcript, plank_crypto_build_auth_transcript in Hbind.
    do 6 apply app_inv_head in Hbind. apply app_inj_1 in Hbind as [E1 E2]; [| done].
    apply timestamp_bytes_inj in E1, E2; try done; try (by apply wrap_range). }
  assert (Ea : ∀ t g, hello_bytes (set_local_timestamp t g) = hello_bytes g) by (by intros ? []).
  set (a1 := set_local_timestamp (u64 now_a) (set_local_nonce nonce_a a)).
  set (b1 := set_local_timestamp (u64 now_b) (set_local_nonce nonce_b b)).
  eexists _, _. split; [unfold handshake | ].
  - eapply bind_pair; [by apply send_hello_reliable |].
    eapply bind_pair; [by apply send_hello_reliable |].
    rewrite Hsa, Hsb, !Ea. fold a1 b1. cbn [app].
    set (fa := frame_bytes _ _). set (fb := frame_bytes _ _).
    replace (deliver (set_sent fa a1) (set_sent fb b1)) with
      (set_sent [] a1, set_sent fb (set_arriving fa b1))
      by (unfold deliver; clear - Hab; destruct a, b; cbn in Hab |- *; by subst).
    replace (deliver (set_sent fb (set_arriving fa b1)) (set_sent [] a1)) with
      (set_sent [] (set_arriving fa b1), set_sent [] (set_arriving fb a1))
      by (unfold deliver; clear - Haa; destruct a, b; cbn in Haa |- *; by subst).
    assert (Hfb' : ∀ x y s, arriving (set_sent x (set_arriving y s)) = y ++ [])
      by (intros ? ? []; symmetry; apply app_nil_r).
    eapply bind_pair; [apply (read_hello malloc_ok malloc_small crypto net Hnet callbacks (set_local_nonce nonce_b b) _ []);
      [exact Hgb | by destruct a | by destruct a | done | apply Hfb'] |].
    eapply bind_pair; [apply (read_hello malloc_ok malloc_small crypto net Hnet callbacks (set_local_nonce nonce_a a) _ []);
      [exact Hga | by destruct b | by destruct b | done | apply Hfb'] |].
    set (a2 := greeted (set_local_nonce nonce_b b) _). set (b2 := greeted (set_local_nonce nonce_a a) _).
    eapply bind_pair; [apply (send_proof_reliable malloc_ok malloc_small crypto net Hnet a2 sg);
      [| exact Hlen] |].
    { replace (local_transcript a2) with (transcript (u64 now_a) 0)
        by (clear - Hta; destruct a; cbn in Hta; by subst).
      by destruct a. }
    assert (Ha2 : sent a2 = []) by (by destruct a). assert (Hb2 : arriving b2 = []) by (by destruct b).
    rewrite Ha2. cbn [app]. unfold deliver. rewrite Hb2.
    eapply bind_pair; [eapply eq_trans; [apply (read_proof malloc_ok malloc_small crypto net Hnet
      callbacks sg _ [] fuel Hlen) |]|].
    + by destruct b.
    + by destruct b.
    + done.
    + rewrite app_nil_r. by destruct a, b.
    + cbv zeta. set (b3 := set_arriving [] _).
      replace (peer_transcript b3) with (transcript 0 (u64 now_b))
        by (clear - Htb; destruct a, b; cbn in Htb; by subst).
      replace (peer_signing_key_pub b3) with (signing_key_pub (identity a)) by (by destruct a, b).
      rewrite Hcheck, if_flag. reflexivity.
    + reflexivity.
  - by destruct a.
Qed.
End handshake_spec.
