(* ===== verification/PlankLinkPeer.v ===== *)
(** What the other end of a link can do: which frames are handled, when a node is
    taken for authenticated, and what hostile or oversized payloads lead to. *)

From S2P Require Import Prelude CLib Cbor CborEncode CborDecode CborSpec.
From S2P Require Import PlankObject PlankWire PlankObjectSpec PlankMessageSpec PlankCore PlankCoreSpec.
From S2P Require Import PlankLink PlankFrame PlankLinkSpec.
#[local] Open Scope Z_scope.

Import Encoder MapBuilder.

(** ** What a handler leaves alone *)

(** The connection and this node's side of it. *)
Record same_link (s s' : plank_link_session) : Prop := {
  same_fd : socket_fd s' = socket_fd s;
  same_state : state s' = state s;
  same_ssl : ssl s' = ssl s;
  same_identity : identity s' = identity s;
  same_nonce : local_nonce s' = local_nonce s;
  same_local : local_timestamp s' = local_timestamp s;
  same_remote : remote_timestamp s' = remote_timestamp s;
  same_arriving : arriving s' = arriving s;
  same_sent : sent s' = sent s
}.

#[export] Instance same_link_refl : Reflexive same_link.
Proof. by intros s. Qed.

#[export] Instance same_link_trans : Transitive same_link.
Proof. intros s1 s2 s3 [] []. split; congruence. Qed.

Lemma link_entries_inv {T} (field : nat → Z → Z → decoder → T → option (T * decoder)) (P : T → Prop) :
  (∀ fuel off len d o o' d', P o → field fuel off len d o = Some (o', d') → P o') →
  ∀ fuel count d o o', P o → link_entries field fuel count d o = Some o' → P o'.
Proof.
  intros Hf. induction fuel as [|fuel IH]; intros count d o o' Ho; [done |]. cbn [link_entries].
  destruct (0 <? count); [| by intros [= <-]].
  destruct (cbor_decode_text d) as [[[off len]|] d2]; [| by intros [= <-]].
  destruct (field fuel off len d2 o) as [[o2 d3]|] eqn:E; [| done]. apply IH. by eapply Hf.
Qed.

Lemma key_starts_cases {A} k off len d (yes no : option A) r :
  key_starts k off len d yes no = Some r → yes = Some r ∨ no = Some r.
Proof. unfold key_starts. destruct (strncmp_eq _ _ _) as [[]|]; [by left | by right | done]. Qed.

Lemma hello_field_same fuel off len d s s' d' :
  hello_field fuel off len d s = Some (s', d') → same_link s s'.
Proof.
  unfold hello_field, store_field. intros H.
  repeat (apply key_starts_cases in H as [H | H]).
  - destruct (decode_id _ _ _). simplify_eq. by destruct s.
  - destruct (decode_string _ _ _). simplify_eq. by destruct s.
  - destruct (decode_id _ _ _). simplify_eq. by destruct s.
  - destruct (decode_id _ _ _). simplify_eq. by destruct s.
  - destruct (cbor_skip _ _); by simplify_eq/=.
Qed.

(** A greeting changes what is known of the peer and nothing else. *)
Lemma handle_hello_same fuel payload s s' ok :
  plank_link_session_handle_hello fuel payload s = Some (s', ok) → same_link s s' ∧ ok = true.
Proof.
  unfold plank_link_session_handle_hello. destruct (cbor_decode_map _) as [n d].
  destruct (link_entries _ _ _ _ _) as [s2|] eqn:E; [| done]. intros [= <- <-]. split; [| done].
  eapply (link_entries_inv hello_field (same_link s)); [| reflexivity | exact E].
  intros. etrans; [done |]. by eapply hello_field_same.
Qed.

(** ** The signature of a proof *)

(** Which signature the next entries of a payload carry: the last byte string of 64 bytes
    under a key that is [sig] or a start of it. The entries end where there is no key. *)
Inductive carries : Z → decoder → option (list Z) → Prop :=
  | carries_end count d : count <= 0 → carries count d None
  | carries_no_key count d d1 : cbor_decode_text d = (None, d1) → carries count d None
  | carries_signature count d off len d1 at_ d2 later :
      0 < count → cbor_decode_text d = (Some (off, len), d1) →
      strncmp_eq (lit "sig") (dropZ off (d_buf d1)) len = Some true →
      cbor_decode_bytes d1 = (Some (at_, PLANK_SIGNATURE_SIZE), d2) → carries (count - 1) d2 later →
      carries count d (Some (default (slice at_ PLANK_SIGNATURE_SIZE (d_buf d2)) later))
  | carries_no_signature count d off len d1 value d2 later :
      0 < count → cbor_decode_text d = (Some (off, len), d1) →
      strncmp_eq (lit "sig") (dropZ off (d_buf d1)) len = Some true →
      cbor_decode_bytes d1 = (value, d2) → snd <$> value ≠ Some PLANK_SIGNATURE_SIZE →
      carries (count - 1) d2 later → carries count d later
  | carries_other count d off len d1 fuel d2 later :
      0 < count → cbor_decode_text d = (Some (off, len), d1) →
      strncmp_eq (lit "sig") (dropZ off (d_buf d1)) len = Some false →
      cbor_skip fuel d1 = Some d2 → carries (count - 1) d2 later → carries count d later.

(** The signature of a whole payload. *)
Definition signature_of (payload : list Z) (found : option (list Z)) : Prop :=
  let '(count, d) := cbor_decode_map (cbor_decoder_init payload) in carries count d found.

Lemma proof_entries fuel : ∀ count d sg sg',
  link_entries proof_field fuel count d sg = Some sg' →
  ∃ found, carries count d found ∧ sg' = default sg found.
Proof.
  induction fuel as [|fuel IH]; intros count d sg sg'; [done |]. cbn [link_entries].
  destruct (Z.ltb_spec 0 count); [| intros [= <-]; exists None; by split; [constructor |]].
  destruct (cbor_decode_text d) as [[[off len]|] d1] eqn:Et;
    [| intros [= <-]; exists None; split; [by econstructor | done]].
  destruct (proof_field fuel off len d1 sg) as [[sg1 d2]|] eqn:Ef; [| done]. cbn [mbind option_bind].
  intros (found & Hc & ->)%IH. unfold proof_field, key_starts in Ef.
  destruct (strncmp_eq _ _ _) as [[]|] eqn:Ek; [| | done]; cbn [mbind option_bind] in Ef.
  - unfold store_field, decode_id in Ef. destruct (cbor_decode_bytes d1) as [[[a n]|] d3] eqn:Eb;
      [destruct (Z.eqb_spec n PLANK_SIGNATURE_SIZE) as [-> |] |]; injection Ef as <- <-.
    + eexists. split; [by eapply carries_signature | by destruct found].
    + exists found. split; [| done]. eapply carries_no_signature; [done.. | cbn; congruence | done].
    + exists found. split; [| done]. by eapply carries_no_signature.
  - destruct (cbor_skip fuel d1) as [d3|] eqn:Es; [| done]. injection Ef as <- <-.
    exists found. split; [by eapply carries_other | done].
Qed.

(** Callbacks that leave the connection alone. *)
Definition quiet (callbacks : plank_link_callbacks) : Prop :=
  (∀ f, on_bundle_received callbacks = Some f → ∀ s p, same_link s (f s p)) ∧
  (∀ f, on_error callbacks = Some f → ∀ s, same_link s (f s)).

Section safety.
Context (malloc_ok : Z → bool) (crypto : openssl) (net : transport)
  (callbacks : plank_link_callbacks) (Hquiet : quiet callbacks).

Lemma write_all_state data s : state (fst (write_all net data s)) = state s.
Proof. by destruct s. Qed.

Lemma send_frame_state type payload s : state (fst (send_frame net type payload s)) = state s.
Proof.
  unfold send_frame.
  pose proof (write_all_state (hdr_bytes (plank_frame_hdr_init type 0 (u32 (zlen payload)) 0)) s) as H.
  destruct (write_all _ _ s) as [s1 []]; cbn in H |- *; [| done].
  destruct (0 <? zlen payload); cbn; [| done].
  pose proof (write_all_state payload s1) as H2. destruct (write_all _ payload s1). cbn in *. congruence.
Qed.

(** What a proof that is accepted proves. *)
Definition proven (payload : list Z) (s s' : plank_link_session) : Prop :=
  s' = set_state PLANK_LINK_AUTH_OK s ∧
  ∃ found, signature_of payload found ∧
    plank_crypto_verify_ed25519 crypto (peer_transcript s) (default (zeros PLANK_SIGNATURE_SIZE) found)
      (peer_signing_key_pub s) = true.

Lemma dispatch_authenticates fuel type payload s s' ok :
  dispatch crypto net callbacks fuel type payload s = Some (s', ok) →
  state s ≠ PLANK_LINK_AUTH_OK → state s' = PLANK_LINK_AUTH_OK →
  type = PLANK_FRAME_AUTH_PROOF ∧ proven payload s s'.
Proof using Hquiet.
  destruct Hquiet as [Hb He]. unfold dispatch. intros H Hs Hs'.
  destruct (Z.eqb_spec type PLANK_FRAME_HELLO) as [_|_].
  { destruct (zlen payload =? 0); [by simplify_eq |].
    apply handle_hello_same in H as [H _]. destruct (Hs). by rewrite <- (same_state _ _ H). }
  destruct (Z.eqb_spec type PLANK_FRAME_AUTH_PROOF) as [E1|_].
  { split; [done |]. destruct (zlen payload =? 0); [by simplify_eq |].
    unfold plank_link_session_handle_auth_proof in H.
    unfold proven, signature_of. destruct (cbor_decode_map _) as [count d].
    destruct (link_entries _ _ _ _ _) as [sg|] eqn:El; [| done]. cbn [mbind option_bind] in H.
    apply proof_entries in El as (found & Hc & ->).
    destruct (plank_crypto_verify_ed25519 _ _ _ _) eqn:E; [| by simplify_eq].
    split; [by simplify_eq |]. by exists found. }
  exfalso. apply Hs. rewrite <- Hs'.
  destruct (type =? PLANK_FRAME_PING).
  { pose proof (send_frame_state PLANK_FRAME_PONG [] s) as Hp.
    unfold plank_link_session_handle_ping in H. destruct (send_frame _ _ _ s). by simplify_eq/=. }
  destruct (type =? PLANK_FRAME_CLOSE). { by simplify_eq. }
  destruct (type =? PLANK_FRAME_BUNDLE_DATA).
  { destruct (on_bundle_received callbacks) as [f|] eqn:Ef; simplify_eq.
    symmetry. apply same_state. by apply (Hb f). }
  destruct (type =? PLANK_FRAME_ERROR).
  { destruct (on_error callbacks) as [f|] eqn:Ef; simplify_eq. symmetry. apply same_state. by apply (He f). }
  by simplify_eq.
Qed.

(** C29. No frame makes a node take its peer for authenticated but a proof: when reading a
    frame does so, the header that came in has the magic bytes and the type of a proof,
    and the signature that its payload carries verifies, under the key that the session
    had for the peer, for the transcript of this connection; nothing else of the session
    changes but the state and the bytes that were read. The signature of a payload is
    the last value of 64 bytes under the key sig or a start of that key ([carries]); for
    a payload that carries none it is 64 zero bytes, which have to verify as well. Any
    transport, also TLS. The callbacks of the program for bundles and errors do not
    touch the connection ([quiet]). *)
Theorem only_proofs_authenticate fuel s s' ok :
  plank_link_session_read_frame malloc_ok crypto net callbacks fuel s = Some (s', ok) →
  state s ≠ PLANK_LINK_AUTH_OK → state s' = PLANK_LINK_AUTH_OK →
  let header := takeZ PLANK_FRAME_HEADER_SIZE (arriving s) in
  let hdr := hdr_of_bytes header in
  let n := plank_frame_hdr_payload_len hdr in
  let rest := dropZ PLANK_FRAME_HEADER_SIZE (arriving s) in
  plank_frame_hdr_valid_magic hdr = true ∧ plank_frame_hdr_type hdr = PLANK_FRAME_AUTH_PROOF ∧
  proven (takeZ n rest) (set_arriving (dropZ n rest) s) s'.
Proof using Hquiet.
  unfold plank_link_session_read_frame, read_exactly. intros H Hs Hs'.
  assert (Ha : ∀ l s, state (set_arriving l s) = state s) by (by intros ? []).
  assert (Hr : ∀ l s, arriving (set_arriving l s) = l) by (by intros ? []).
  assert (Hl : ∀ l s, ssl (set_arriving l s) = ssl s) by (by intros ? []).
  assert (Ht : ∀ l l' s, set_arriving l (set_arriving l' s) = set_arriving l s) by (by intros ? ? []).
  destruct (socket_fd s <? 0); [by simplify_eq |]. cbv zeta beta in H. rewrite !Hr, Ht in H.
  destruct (Z.eqb_spec (recv_ret net (ssl s) (arriving s) PLANK_FRAME_HEADER_SIZE) PLANK_FRAME_HEADER_SIZE) as [E1 |];
    cbn [negb] in H; [| by simplify_eq/=; rewrite Ha in Hs'].
  rewrite E1 in H. cbv zeta.
  destruct (plank_frame_hdr_valid_magic _); cbn [negb] in H; [| by simplify_eq/=; rewrite Ha in Hs'].
  set (n := plank_frame_hdr_payload_len _) in *. set (rest := dropZ PLANK_FRAME_HEADER_SIZE (arriving s)) in *.
  split; [done |]. destruct (Z.ltb_spec 0 n) as [Hn | Hn].
  - destruct (malloc_ok n); cbn [negb] in H; [| by simplify_eq/=; rewrite Ha in Hs'].
    rewrite Hl in H.
    destruct (Z.eqb_spec (recv_ret net (ssl s) rest n) n) as [E2 |]; cbn [negb] in H; [| by simplify_eq/=; rewrite Ha in Hs'].
    rewrite E2 in H. by apply dispatch_authenticates in H; rewrite ?Ha.
  - apply dispatch_authenticates in H; [| by rewrite Ha | done].
    unfold takeZ, dropZ. replace (Z.to_nat n) with 0%nat by lia. by rewrite take_0, drop_0.
Qed.

(** A proof needs neither a greeting nor a signature: on a connection that has only been
    accepted, one with an empty map is checked like any other, with a signature of
    zeros under the key of zeros that the session was created with. *)
Theorem proofs_need_no_greeting fuel fd stored s :
  plank_link_session_create_inbound malloc_ok fd stored [] = Some s → (0 < fuel)%nat →
  dispatch crypto net callbacks fuel PLANK_FRAME_AUTH_PROOF [0xA0] s =
    Some (if plank_crypto_verify_ed25519 crypto (peer_transcript s) (zeros PLANK_SIGNATURE_SIZE) (zeros PLANK_PUBKEY_SIZE)
          then (set_state PLANK_LINK_AUTH_OK s, true) else (s, false)).
Proof.
  unfold plank_link_session_create_inbound, session_alloc. destruct (malloc_ok 65536); [| done].
  intros [= <-] Hfuel. destruct fuel as [|fuel]; [lia |]. reflexivity.
Qed.
End safety.

(** ** Progress *)

Section progress.
Context (malloc_ok : Z → bool) (crypto : openssl) (net : transport) (Hnet : reliable net).
Context (callbacks : plank_link_callbacks) (Hquiet : quiet callbacks).

(** A frame that is not refused: any but a proof, and a greeting when it is one. *)
Definition welcome (f : Z * list Z) : Prop :=
  in_u 16 f.1 ∧ zlen f.2 < 2 ^ 32 ∧ malloc_ok (zlen f.2) = true ∧ f.1 ≠ PLANK_FRAME_AUTH_PROOF ∧
  (f.1 = PLANK_FRAME_HELLO → ∃ a, greeting_wf a ∧ f.2 = hello_bytes a).

(** What a frame is answered with. *)
Definition answer (f : Z * list Z) : list Z :=
  if f.1 =? PLANK_FRAME_PING then frame_bytes PLANK_FRAME_PONG [] else [].

Lemma hello_nonempty a : 0 < zlen (hello_bytes a).
Proof.
  unfold hello_bytes, map_bytes. rewrite zlen_app. heads.
  pose proof (zlen_nonneg (concat (pair_bytes <$> (field_entry <$> hello_fields a)))). lia.
Qed.

Lemma dispatch_welcome fuel f s :
  welcome f → 1000 <= Z.of_nat fuel →
  ∃ s', dispatch crypto net callbacks fuel f.1 f.2 s = Some (s', true) ∧
    ssl s' = ssl s ∧ socket_fd s' = socket_fd s ∧ arriving s' = arriving s ∧ sent s' = sent s ++ answer f.
Proof using Hnet Hquiet.
  destruct Hquiet as [Hb He], f as [type payload]. cbn. intros (Ht & Hl & Hm & Hn & Hh) Hfuel.
  assert (Hsame : ∀ s', same_link s s' → type ≠ PLANK_FRAME_PING → ssl s' = ssl s ∧ socket_fd s' = socket_fd s ∧
    arriving s' = arriving s ∧ sent s' = sent s ++ answer (type, payload)).
  { intros s' [] Hp. unfold answer. cbn [fst]. apply Z.eqb_neq in Hp. rewrite Hp, app_nil_r. done. }
  unfold dispatch. destruct (Z.eqb_spec type PLANK_FRAME_HELLO) as [->|_].
  { destruct (Hh eq_refl) as (a & Ha & Ep). cbn in Ep. subst payload. rewrite nonempty_payload by apply hello_nonempty.
    pose proof (handle_hello_greets a s fuel Ha Hfuel) as E. eexists. split; [exact E |].
    apply Hsame; [| done]. by eapply handle_hello_same. }
  destruct (Z.eqb_spec type PLANK_FRAME_AUTH_PROOF) as [|_]; [done |].
  destruct (Z.eqb_spec type PLANK_FRAME_PING) as [->|Hp].
  { unfold plank_link_session_handle_ping. rewrite (send_frame_reliable net Hnet) by done.
    eexists. split; [done |]. by destruct s. }
  destruct (type =? PLANK_FRAME_CLOSE).
  { eexists. split; [done |]. unfold answer. cbn [fst]. apply Z.eqb_neq in Hp.
    rewrite Hp, app_nil_r. by destruct s. }
  destruct (type =? PLANK_FRAME_BUNDLE_DATA).
  { destruct (on_bundle_received callbacks) as [f|] eqn:Ef; eexists; (split; [done |]); apply Hsame; try done.
    by apply Hb. }
  destruct (type =? PLANK_FRAME_ERROR).
  { destruct (on_error callbacks) as [f|] eqn:Ef; eexists; (split; [done |]); apply Hsame; try done.
    by apply He. }
  eexists. split; [done |]. by apply Hsame.
Qed.

Lemma process_welcome inner frames : 1000 <= Z.of_nat inner → Forall welcome frames →
  ∀ fuel count s, (length frames < fuel)%nat → 0 <= count → count + zlen frames < 2 ^ 31 →
  ssl s = false → 0 <= socket_fd s → arriving s = concat ((λ f, frame_bytes f.1 f.2) <$> frames) →
  ∃ s', process_loop malloc_ok crypto net callbacks inner fuel count s =
      Some (s', count + zlen frames) ∧
    arriving s' = [] ∧ sent s' = sent s ++ concat (answer <$> frames).
Proof using Hnet Hquiet.
  intros Hinner. induction 1 as [|f frames Hf _ IH];
    intros [|fuel] count s Hfuel Hc Hcount Hplain Hfd Ha; try (cbn in Hfuel; lia);
    cbn [process_loop]; rewrite Hplain, (net_poll _ Hnet), Ha.
  { exists s. rewrite zlen_nil, Z.add_0_r, app_nil_r. done. }
  rewrite zlen_cons in Hcount. pose proof (zlen_nonneg frames). pose proof Hf as (Ht & Hl & Hm & _).
  destruct (is_empty _) eqn:E.
  { cbn in E. unfold frame_bytes, header_bytes in E. done. }
  cbn [negb]. rewrite fmap_cons in Ha. cbn [concat] in Ha. pose proof (zlen_nonneg f.2).
  rewrite (read_frame_reliable malloc_ok crypto net Hnet callbacks inner _ _ _ _ Hplain Hfd Ha);
    [| done | done | done].
  destruct (dispatch_welcome inner f (set_arriving (concat ((λ f, frame_bytes f.1 f.2) <$> frames)) s))
    as (s1 & -> & Hp1 & Hfd1 & Ha1 & Hs1); [done | done |].
  cbn [mbind option_bind]. unfold checked. rewrite decide_True by zlia. cbn [mbind option_bind].
  destruct (IH fuel (count + 1) s1) as (s2 & -> & Ha2 & Hs2).
  - cbn in Hfuel. lia.
  - lia.
  - lia.
  - rewrite Hp1. by destruct s.
  - rewrite Hfd1. by destruct s.
  - rewrite Ha1. by destruct s.
  - exists s2. split; [do 2 f_equal; zl |]. split; [done |].
    rewrite Hs2, Hs1, fmap_cons. cbn [concat]. rewrite <- app_assoc. by destruct s.
Qed.

(** C28. Progress on a plain TCP connection: when frames have arrived of which each is
    what a node handles in any state, processing the session returns, has handled
    every one of them, leaves nothing unread, and has answered each ping, in order,
    with one pong. The frames are of any types but proofs (whose fate depends on the
    keys), and greetings only as nodes of this program send them; fewer than 2^31,
    with payloads of less than 4 GB for which there is memory. The connection stays
    open ([reliable]: [recv] waits for all the bytes, [poll] reports bytes that are
    there, [send] sends everything), and the callbacks of the program leave it
    alone. Over TLS this is not so (plank_link.c:571): [SSL_read] may return less,
    and the frame is refused. *)
Theorem every_ping_is_answered inner fuel frames s :
  ssl s = false → 0 <= socket_fd s → Forall welcome frames → zlen frames < 2 ^ 31 →
  arriving s = concat ((λ f, frame_bytes f.1 f.2) <$> frames) →
  1000 <= Z.of_nat inner → (length frames < fuel)%nat →
  ∃ s', plank_link_session_process malloc_ok crypto net callbacks inner fuel s =
      Some (s', zlen frames) ∧
    arriving s' = [] ∧ sent s' = sent s ++ concat (answer <$> frames).
Proof using Hnet Hquiet.
  intros Hplain Hfd Hf Hlen Ha Hinner Hfuel. unfold plank_link_session_process.
  destruct (Z.ltb_spec (socket_fd s) 0); [lia |]. by apply (process_welcome inner frames Hinner Hf fuel 0).
Qed.
End progress.

(** ** Hostile and oversized payloads *)

(** A greeting with an unknown key, under which the length of a byte string takes
    the cursor back to the array that it is in. *)
Definition endless_hello : list Z :=
  [0xA1; 0x61; 0x78; 0x82; 0x5B; 0xFF; 0xFF; 0xFF; 0xFF; 0xFF; 0xFF; 0xFF; 0xF6].

(** A greeting of thirteen bytes, which anyone can send before any authentication, is
    never finished with: whatever the depth allowed, reading its value goes deeper. *)
Theorem hello_never_returns malloc_ok crypto net callbacks s rest :
  malloc_ok 13 = true → reliable net → ssl s = false → 0 <= socket_fd s →
  arriving s = frame_bytes PLANK_FRAME_HELLO endless_hello ++ rest →
  ∀ fuel, plank_link_session_read_frame malloc_ok crypto net callbacks fuel s = None.
Proof.
  intros Hok Hnet Hplain Hfd Ha fuel.
  rewrite (read_frame_reliable malloc_ok crypto net Hnet callbacks fuel _ _ _ _ Hplain Hfd Ha) by done.
  change (dispatch _ _ _ _ _ _ ?s) with (plank_link_session_handle_hello fuel endless_hello s).
  destruct fuel as [|fuel]; [done |]. set (s0 := set_arriving rest s).
  change (plank_link_session_handle_hello (S fuel) endless_hello s0) with
    (s ← ('(s, d) ← (d ← cbor_skip fuel (MkDec endless_hello 3 false); Some (s0, d));
          link_entries hello_field fuel 0 d s); Some (s, true)).
  by rewrite (looping_skip endless_hello 3 4).
Qed.

(** A key that starts the name of a field is taken for it: the empty key is the identity of
    the node. *)
Theorem empty_key_is_node_id id s fuel :
  id_ok PLANK_NODE_ID_SIZE id → 1000 <= Z.of_nat fuel →
  plank_link_session_handle_hello fuel (map_bytes [MkEntry [] (enc_item (IBytes id))]) s =
    Some (set_peer_node_id id s, true).
Proof.
  intros [Hid _] Hfuel. unfold plank_link_session_handle_hello.
  assert (Hlen : zlen (map_bytes [MkEntry [] (enc_item (IBytes id))]) <= 40).
  { unfold map_bytes, pair_bytes. cbn [fmap list_fmap concat key encoded_value enc_item].
    rewrite !zlen_app, Hid. by vm_compute. }
  destruct (link_map_reads hello_field [(MkEntry [] (enc_item (IBytes id)), set_peer_node_id id)] fuel s)
    as (d & E & Hd).
  - apply Forall_cons_2; [| by apply Forall_nil_2].
    intros fuel' off pre rest o Hk Hsize Hf. unfold hello_field.
    cbn [fst snd key encoded_value] in *. starts Hk.
    unfold store_field. cbn [enc_item] in *. rewrite Hid in *. by rewrite decode_id_head by done.
  - cbn [fmap list_fmap fst]. zlia.
  - cbn [fmap list_fmap fst]. unfold zlen in Hlen. lia.
  - cbn [fmap list_fmap fst] in E. by rewrite E, Hd.
Qed.

(** A bundle is handed to the node in whatever state the session is: one on a
    connection that has only been accepted, before TLS, greeting and proof, is received
    like any other. *)
Theorem bundles_need_no_authentication malloc_ok crypto net on_bundle on_err fuel fd stored data s :
  small_ok malloc_ok → reliable net → 0 <= fd → zlen data <= 65536 →
  plank_link_session_create_inbound malloc_ok fd stored (frame_bytes PLANK_FRAME_BUNDLE_DATA data) =
    Some s →
  state s = PLANK_LINK_CONNECTING ∧ ssl s = false ∧
  plank_link_session_read_frame malloc_ok crypto net (MkCallbacks (Some on_bundle) on_err) fuel s =
    Some (on_bundle (set_arriving [] s) data, true).
Proof.
  unfold plank_link_session_create_inbound, session_alloc. intros Hsmall Hnet Hfd Hd Hs.
  rewrite Hsmall in Hs by lia. injection Hs as <-. split; [done |]. split; [done |].
  pose proof (zlen_nonneg data).
  rewrite (read_frame_reliable malloc_ok crypto net Hnet _ fuel PLANK_FRAME_BUNDLE_DATA data []);
    [done | done | done | by rewrite app_nil_r | done | zlia | apply Hsmall; lia].
Qed.

(** Sending more than the buffer of the encoder holds succeeds and sends some of it. *)
Lemma send_encoded_short malloc_ok net cap type encode bs s :
  small_ok malloc_ok → reliable net → 64 <= cap <= 65536 → in_u 16 type →
  Writes encode bs → cap < zlen bs →
  ∃ p, send_encoded malloc_ok net cap type encode s =
      Some (set_sent (sent s ++ frame_bytes type p) s, true) ∧ zlen p <= cap.
Proof.
  intros Hsmall Hnet Hcap Ht Hw Hbs. unfold send_encoded, cbor_encoder_init_dynamic.
  destruct (Z.ltb_spec cap 64); [lia |]. rewrite Hsmall by lia. cbn [negb].
  destruct (Hw (MkEnc false cap [] false)) as (e & -> & HE).
  { split; [done |]. unfold e_len. cbn. rewrite zlen_nil. zlia. }
  destruct (emits_wf _ _ _ HE) as [Hnull He]. rewrite (emits_cap _ _ _ HE) in He. cbn in He.
  exists (e_data e). cbn [mbind option_bind]. unfold cbor_encoder_data. rewrite Hnull.
  cbn [default from_option id]. unfold e_len in He.
  rewrite (send_frame_reliable net Hnet) by (done || zlia). split; [done | lia].
Qed.

(** The bytes of an offer. *)
Definition offered_bytes (id : list Z) : list Z :=
  concat (call_bytes <$> [CallMap 4; CallText (lit "id"); CallBytes id; CallText (lit "type");
    CallUint 0; CallText (lit "objects"); CallUint 0; CallText (lit "size"); CallUint 0]).

Lemma put_offers_writes malloc_ok ids i :
  Forall (λ id, zlen id = PLANK_BUNDLE_ID_SIZE) ids →
  Writes (put_offers malloc_ok None None None i ids) (concat (offered_bytes <$> ids)).
Proof.
  intros H. revert i. induction H as [|id ids Hid _ IH]; intros i; [apply writes_ret |].
  rewrite fmap_cons. cbn [concat put_offers].
  apply (writes_bind (put_offered malloc_ok None None None i id)); [| apply IH].
  eapply writes_ext; [| apply run_calls_writes]; [unfold put_offered; rewrite <- Hid; calls |].
  unfold PLANK_BUNDLE_ID_SIZE in Hid. repeat constructor; cbn [call_ok]; try done; zlia.
Qed.

(** An offer of more than seventeen bundles does not fit in the buffer that it is
    encoded in. The failure is not looked at: the call succeeds, and what the peer
    receives is a frame that is too short for the bundles it announces. *)
Theorem long_offers_are_cut malloc_ok net ids low high s :
  small_ok malloc_ok → reliable net → in_u 64 low → in_u 64 high →
  Forall (λ id, zlen id = PLANK_BUNDLE_ID_SIZE) ids → 17 < zlen ids < 2 ^ 32 →
  ∃ p, plank_link_session_send_bundle_offer malloc_ok net ids None None None low high s =
      Some (set_sent (sent s ++ frame_bytes PLANK_FRAME_BUNDLE_OFFER p) s, true) ∧
    zlen p < zlen (concat (offered_bytes <$> ids)).
Proof.
  intros Hsmall Hnet Hlow Hhigh Hids Hn. unfold plank_link_session_send_bundle_offer.
  destruct (Z.leb_spec (zlen ids) 0); [lia |].
  assert (Hlen : 59 * zlen ids <= zlen (concat (offered_bytes <$> ids))).
  { clear - Hids. induction Hids as [|id ids Hid _ IH]; [done |].
    rewrite fmap_cons. cbn [concat]. rewrite zlen_app, zlen_cons.
    enough (59 <= zlen (offered_bytes id)) by lia. unfold offered_bytes.
    cbn [fmap list_fmap call_bytes concat]. rewrite !zlen_app, Hid. by vm_compute. }
  set (bundles := concat (offered_bytes <$> ids)) in *.
  pose proof (zlen_nonneg bundles) as H0.
  edestruct (send_encoded_short malloc_ok net 1024 PLANK_FRAME_BUNDLE_OFFER) as (p & E & Hp);
    [exact Hsmall | exact Hnet | lia | done | | | exists p; split; [exact E | zlia]].
  - apply (writes_bind (run_call malloc_ok (CallMap 3))); [by apply run_call_writes |].
    apply (writes_bind (run_call malloc_ok (CallText (lit "bundles")))); [by apply run_call_writes |].
    apply (writes_bind (run_call malloc_ok (CallArray (zlen ids)))); [apply run_call_writes; cbn; zlia |].
    apply writes_bind; [by apply put_offers_writes |].
    apply (writes_bind (run_call malloc_ok (CallText (lit "cursor_low")))); [by apply run_call_writes |].
    apply (writes_bind (run_call malloc_ok (CallUint low))); [by apply run_call_writes |].
    apply (writes_bind (run_call malloc_ok (CallText (lit "cursor_high")))); [by apply run_call_writes |].
    by apply (run_call_writes malloc_ok (CallUint high)).
  - rewrite !zlen_app. fold bundles.
    repeat match goal with |- context [zlen (call_bytes ?c)] => lazymatch goal with
      | _ : 0 <= zlen (call_bytes c) |- _ => fail | _ => pose proof (zlen_nonneg (call_bytes c)) end end.
    zlia.
Qed.

(** The seven fields of a receipt. *)
Definition receipt_item (code kind : Z) (id : option (list Z)) (accepted duplicate rejected quarantine : Z)
  : item :=
  IMap [(IText (lit "code"), IUint code); (IText (lit "target_kind"), IUint kind);
    (IText (lit "target_id"), match id with Some id => IBytes id | None => ISimple 22 end);
    (IText (lit "accepted"), IUint (u64 accepted)); (IText (lit "duplicate"), IUint (u64 duplicate));
    (IText (lit "rejected"), IUint (u64 rejected));
    (IText (lit "quarantine"), IUint (u64 quarantine))].

Definition details_bytes (details : cstr) : list Z :=
  if is_empty details then [] else enc_item (IText (lit "details")) ++ enc_item (IText details).

Lemma receipt_writes malloc_ok code kind id acc dup rej qua details :
  in_u 32 code → in_u 32 kind → (∀ x, id = Some x → id_ok PLANK_BUNDLE_ID_SIZE x) →
  zlen details <= 80 →
  Writes (encode_receipt malloc_ok code kind id acc dup rej qua (Some details))
    (enc_item (receipt_item code kind id acc dup rej qua) ++ details_bytes details).
Proof.
  intros Hc Hk Hid Hd.
  eapply writes_ext; [| eapply eq_rect; [apply (run_calls_writes malloc_ok
    ([CallMap 7; CallText (lit "code"); CallUint code; CallText (lit "target_kind"); CallUint kind;
     CallText (lit "target_id"); match id with Some id => CallBytes id | None => CallNull end;
     CallText (lit "accepted"); CallUint (u64 acc); CallText (lit "duplicate"); CallUint (u64 dup);
     CallText (lit "rejected"); CallUint (u64 rej); CallText (lit "quarantine"); CallUint (u64 qua)] ++
     if is_empty details then [] else [CallText (lit "details"); CallText details])) |]].
  - intros e. unfold encode_receipt. destruct id as [id|].
    + destruct (Hid id eq_refl) as [E _]. rewrite <- E. destruct details; revert e; calls.
    + destruct details; revert e; calls.
  - assert (H64 : ∀ z, in_u 64 (u64 z)) by (intros; by apply wrap_range).
    apply Forall_app. split; [| destruct details; repeat constructor; cbn [call_ok]; try done; zlia].
    repeat constructor; cbn [call_ok]; try done; try apply H64; try zlia.
    destruct id as [id|]; [| done]. destruct (Hid id eq_refl) as [E _]. cbn [call_ok]. rewrite E. done.
  - unfold receipt_item, details_bytes. rewrite fmap_app, concat_app.
    cbn [fmap list_fmap call_bytes concat enc_item fst snd]. f_equal.
    + rewrite <- !app_assoc, app_nil_r. destruct id; [by cbn [call_bytes enc_item]; rewrite <- ?app_assoc |].
      done.
    + destruct details; [done |]. cbn [is_empty fmap list_fmap call_bytes concat enc_item].
      by rewrite app_nil_r.
Qed.

(** The details of a receipt are sent after the map, which says that it has seven entries:
    the payload of a receipt with details is not one CBOR item, and validation fails. *)
Theorem receipt_details_are_outside malloc_ok net code kind id acc dup rej qua details s fuel :
  small_ok malloc_ok → reliable net →
  in_u 32 code → in_u 32 kind → (∀ x, id = Some x → id_ok PLANK_BUNDLE_ID_SIZE x) →
  zlen details <= 80 → 1000 <= Z.of_nat fuel →
  let payload := enc_item (receipt_item code kind id acc dup rej qua) ++ details_bytes details in
  plank_link_session_send_receipt malloc_ok net code kind id acc dup rej qua (Some details) s =
    Some (set_sent (sent s ++ frame_bytes PLANK_FRAME_RECEIPT payload) s, true) ∧
  cbor_validate fuel payload = Some (is_empty details).
Proof.
  intros Hsmall Hnet Hc Hk Hid Hd Hfuel payload.
  assert (H64 : ∀ z, in_u 64 (u64 z)) by (intros; by apply wrap_range).
  assert (Hlen : zlen (enc_item (receipt_item code kind id acc dup rej qua)) <= 160).
  { assert (Hi : zlen (enc_item (match id with Some id => IBytes id | None => ISimple 22 end)) <= 34).
    { destruct id as [id|]; [| by vm_compute]. destruct (Hid id eq_refl) as [E _].
      cbn [enc_item]. rewrite zlen_app, E. by vm_compute. }
    unfold receipt_item. cbn [enc_item fmap list_fmap concat fst snd].
    change (zlen [_; _; _; _; _; _; _]) with 7. rewrite ?zlen_app in *. ground_lengths. heads. lia. }
  assert (Hdl : zlen (details_bytes details) <= 95).
  { unfold details_bytes. destruct (is_empty details); [by vm_compute |]. cbn [enc_item].
    rewrite !zlen_app. ground_lengths. pose proof (head_len_16 3 (zlen details)). lia. }
  assert (Hp : zlen payload <= 255) by (unfold payload; rewrite zlen_app; lia).
  split.
  - apply (send_encoded_reliable malloc_ok Hsmall net Hnet);
      [lia | done | by apply receipt_writes | fold payload; lia].
  - unfold cbor_validate. rewrite cur_init. unfold payload.
    destruct (enc_item_skips (receipt_item code kind id acc dup rej qua)) as [_ Hskip].
    { unfold receipt_item. constructor; [done |].
      repeat apply Forall_cons_2; try apply Forall_nil_2; cbn [fst snd];
        (split; [constructor; [done | apply lit_bytes] |]); try (by constructor); try (constructor; zlia).
      destruct id as [id|]; [| by constructor]. destruct (Hid id eq_refl) as [E Hb].
      constructor; [by rewrite E | done]. }
    rewrite Hskip; cycle 1.
    { fold payload. cbn [app]. zlia. } { unfold zlen in Hlen. lia. }
    cbn [mbind option_bind app]. unfold cbor_decoder_ok, cbor_decoder_eof. cbn [cur d_error negb andb].
    f_equal. unfold details_bytes. destruct details as [|c details]; cbn [is_empty].
    + rewrite cur_len. cbn [cur d_pos]. rewrite zlen_nil. apply Z.leb_le. lia.
    + apply cur_at_end. cbn [enc_item]. destruct (head_nonempty 3 (zlen (lit "details"))) as (b & bs & ->). done.
Qed.

(** ** Witnesses *)

(** A socket on which everything goes through. *)
Definition toy_net : transport :=
  MkTransport (λ _ _ data, zlen data) (λ _ l n, Z.min n (zlen l)) (λ _ l, negb (is_empty l)).

Lemma toy_net_reliable : reliable toy_net.
Proof. split; [done | | done]. intros l n Hn. cbn. lia. Qed.

(** A stand-in for signatures, with the whole message in the last number. *)
Definition toy_mark (m : list Z) : list Z :=
  replicate 63 0 ++ [foldl (λ a b, a * 257 + b + 1) 0 m].

Definition toy_signer : openssl := MkOpenssl
  (λ m, Some (toy_digest m)) (λ _ m, Some (toy_mark m)) (λ _ s m, bool_decide (s = toy_mark m)).

Lemma toy_signer_pair priv pub : ssl_pair toy_signer priv pub.
Proof.
  split; intros m; eexists; (split; [done |]); [done |]. split; [done |].
  by apply bool_decide_eq_true_2.
Qed.

Definition toy_identity (n : Z) : plank_node_identity :=
  MkIdentity (replicate 16 n) (lit "node@plank") (replicate 32 n) (replicate 64 n).

Definition toy_session (n : Z) (input : list Z) : plank_link_session :=
  default (MkSession 0 0 PLANK_LINK_IDLE PLANK_DIR_UNSET false (toy_identity n) [] [] [] [] [] 0 0 [] [])
    (plank_link_session_create_inbound malloc_all 5 (Some (toy_identity n)) input).

Definition toy_callbacks : plank_link_callbacks := MkCallbacks None None.

Lemma toy_greeting n : in_u 8 n → greeting_wf (set_local_nonce (replicate 32 n) (toy_session n [])).
Proof.
  intros Hn. split; try (split; [done |]); cbn;
    try (by repeat constructor; apply Hn); try (by repeat apply Forall_cons_2).
Qed.

Lemma handshake_needs_zero_clocks_witness : ∃ a' b',
  handshake malloc_all toy_signer toy_net toy_callbacks 1000 (replicate 32 1) (replicate 32 2)
    1700000000 1700000001 (toy_session 1 []) (toy_session 2 []) =
    Some (a', b', bool_decide (u64 1700000000 = 0 ∧ u64 1700000001 = 0)) ∧
  state a' = PLANK_LINK_AUTH_OK.
Proof.
  apply (handshake_needs_zero_clocks malloc_all ltac:(done) toy_signer toy_net toy_net_reliable
    toy_callbacks (toy_session 1 []) (toy_session 2 []) 1000 (replicate 32 1) (replicate 32 2)).
  - done.
  - done.
  - by apply toy_greeting.
  - by apply toy_greeting.
  - apply toy_signer_pair.
  - vm_compute. congruence.
  - intros sg H H'. exfalso. revert H'. injection H as <-. vm_compute. congruence.
Defined.


Lemma toy_quiet : quiet toy_callbacks.
Proof. by split. Qed.

Lemma only_proofs_authenticate_witness :
  let proof := proof_bytes (toy_mark (peer_transcript (toy_session 2 []))) in
  let s := toy_session 2 (frame_bytes PLANK_FRAME_AUTH_PROOF proof) in
  let s' := set_state PLANK_LINK_AUTH_OK (set_arriving [] s) in
  plank_frame_hdr_type (hdr_of_bytes (takeZ 24 (arriving s))) = PLANK_FRAME_AUTH_PROOF ∧
  proven toy_signer proof (set_arriving [] s) s'.
Proof.
  refine (proj2 (only_proofs_authenticate malloc_all toy_signer toy_net toy_callbacks toy_quiet 1000
    (toy_session 2 (frame_bytes PLANK_FRAME_AUTH_PROOF
      (proof_bytes (toy_mark (peer_transcript (toy_session 2 [])))))) _ true _ _ _)).
  - vm_compute. reflexivity.
  - vm_compute. congruence.
  - reflexivity.
Defined.

Definition toy_frames : list (Z * list Z) :=
  [(PLANK_FRAME_PING, []); (PLANK_FRAME_BUNDLE_DATA, [1; 2]); (PLANK_FRAME_PING, [3]);
   (PLANK_FRAME_CLOSE, [])].

Lemma every_ping_is_answered_witness : ∃ s',
  plank_link_session_process malloc_all toy_signer toy_net toy_callbacks 1000 5
    (toy_session 1 (concat ((λ f, frame_bytes f.1 f.2) <$> toy_frames))) = Some (s', 4) ∧
  arriving s' = [] ∧ sent s' = [] ++ concat (answer <$> toy_frames).
Proof.
  apply (every_ping_is_answered malloc_all toy_signer toy_net toy_net_reliable
    toy_callbacks toy_quiet 1000 5 toy_frames
    (toy_session 1 (concat ((λ f, frame_bytes f.1 f.2) <$> toy_frames)))).
  - reflexivity.
  - vm_compute. congruence.
  - repeat (apply Forall_cons_2; [repeat split; done |]). by apply Forall_nil_2.
  - done.
  - reflexivity.
  - vm_compute. congruence.
  - vm_compute. lia.
Defined.

Lemma hello_never_returns_witness : ∀ fuel,
  plank_link_session_read_frame malloc_all toy_signer toy_net toy_callbacks fuel
    (toy_session 1 (frame_bytes PLANK_FRAME_HELLO endless_hello)) = None.
Proof.
  apply (hello_never_returns malloc_all toy_signer toy_net toy_callbacks
    (toy_session 1 (frame_bytes PLANK_FRAME_HELLO endless_hello)) []).
  - done.
  - exact toy_net_reliable.
  - reflexivity.
  - vm_compute. congruence.
  - vm_compute. reflexivity.
Defined.

Lemma empty_key_is_node_id_witness :
  plank_link_session_handle_hello 1000
    (map_bytes [MkEntry [] (enc_item (IBytes (replicate 16 7)))]) (toy_session 1 []) =
    Some (set_peer_node_id (replicate 16 7) (toy_session 1 []), true).
Proof.
  apply (empty_key_is_node_id (replicate 16 7) (toy_session 1 []) 1000);
    [apply (bool_decide_unpack _); vm_compute; exact I | vm_compute; congruence].
Defined.

Lemma bundles_need_no_authentication_witness :
  let s := toy_session 1 (frame_bytes PLANK_FRAME_BUNDLE_DATA [1; 2; 3]) in
  let on_bundle s (p : list Z) := set_sent p s in
  state s = PLANK_LINK_CONNECTING ∧ ssl s = false ∧
  plank_link_session_read_frame malloc_all toy_signer toy_net (MkCallbacks (Some on_bundle) None) 1000 s =
    Some (on_bundle (set_arriving [] s) [1; 2; 3], true).
Proof.
  apply (bundles_need_no_authentication malloc_all toy_signer toy_net (λ s p, set_sent p s) None 1000 5
    (Some (toy_identity 1)) [1; 2; 3]).
  - intros n _. reflexivity.
  - exact toy_net_reliable.
  - lia.
  - vm_compute. congruence.
  - reflexivity.
Defined.

Lemma long_offers_are_cut_witness :
  let ids := replicate 20 (replicate 32 7) in
  ∃ p, plank_link_session_send_bundle_offer malloc_all toy_net ids None None None 1 2 (toy_session 1 []) =
      Some (set_sent ([] ++ frame_bytes PLANK_FRAME_BUNDLE_OFFER p) (toy_session 1 []), true) ∧
    zlen p < zlen (concat (offered_bytes <$> ids)).
Proof.
  apply (long_offers_are_cut malloc_all toy_net (replicate 20 (replicate 32 7)) 1 2 (toy_session 1 []));
    try done; [exact toy_net_reliable | by repeat constructor].
Defined.

Lemma receipt_details_are_outside_witness :
  let payload := enc_item (receipt_item 1 2 (Some (replicate 32 9)) 3 0 (-1) 0) ++
    details_bytes (lit "busy") in
  plank_link_session_send_receipt malloc_all toy_net 1 2 (Some (replicate 32 9)) 3 0 (-1) 0
    (Some (lit "busy")) (toy_session 1 []) =
    Some (set_sent ([] ++ frame_bytes PLANK_FRAME_RECEIPT payload) (toy_session 1 []), true) ∧
  cbor_validate 1000 payload = Some (is_empty (lit "busy")).
Proof.
  apply (receipt_details_are_outside malloc_all toy_net 1 2 (Some (replicate 32 9)) 3 0 (-1) 0
    (lit "busy") (toy_session 1 []) 1000); try done.
  - exact toy_net_reliable.
  - intros x [= <-]. apply (bool_decide_unpack _). vm_compute. exact I.
Defined.
