(* ===== verification/Fsedit.v ===== *)
(** The full-screen editor: src/fsedit.c. A line is an array of 79 bytes, and the
    accesses to it are those of the code, so that one outside of it, or a string
    without its end, is undefined: [None]. What is sent to the terminal is
    collected as bytes; the calls that wait for input are replaced by the bytes
    that arrive. *)

From S2P Require Import Prelude CLib.
#[local] Open Scope Z_scope.

Definition FSEDIT_MAX_LINES : Z := 50.
Definition FSEDIT_LINE_LEN : Z := 78.
Definition FSEDIT_VIEW_LINES : Z := 20.

(** src/fsedit.c:13-21 (FsEditor) *)
Record FsEditor : Type := MkEd {
  lines : list (list Z);
  line_count : Z;
  cur_line : Z;
  cur_col : Z;
  insert_mode : Z;
  top_line : Z
}.

Definition set_lines (x : list (list Z)) (e : FsEditor) : FsEditor :=
  MkEd x (line_count e) (cur_line e) (cur_col e) (insert_mode e) (top_line e).
Definition set_line_count (x : Z) (e : FsEditor) : FsEditor :=
  MkEd (lines e) x (cur_line e) (cur_col e) (insert_mode e) (top_line e).
Definition set_cur_line (x : Z) (e : FsEditor) : FsEditor :=
  MkEd (lines e) (line_count e) x (cur_col e) (insert_mode e) (top_line e).
Definition set_cur_col (x : Z) (e : FsEditor) : FsEditor :=
  MkEd (lines e) (line_count e) (cur_line e) x (insert_mode e) (top_line e).
Definition set_top_line (x : Z) (e : FsEditor) : FsEditor :=
  MkEd (lines e) (line_count e) (cur_line e) (cur_col e) (insert_mode e) x.

(** ** Arrays of characters *)

(** The string at the start of some memory. *)
Fixpoint string_at (a : list Z) : option cstr :=
  match a with
  | [] => None
  | c :: a => if c =? 0 then Some [] else s ← string_at a; Some (c :: s)
  end.

Definition put_byte (a : list Z) (i c : Z) : option (list Z) :=
  if (0 <=? i) && (i <? zlen a) then Some (<[Z.to_nat i := c]> a) else None.

(** [memmove(a + dst, a + src, n)] and [memcpy]. *)
Definition memmove (a : list Z) (dst : Z) (b : list Z) (src n : Z) : option (list Z) :=
  if (0 <=? dst) && (0 <=? src) && (0 <=? n) && (dst + n <=? zlen a) && (src + n <=? zlen b)
  then Some (takeZ dst a ++ slice src n b ++ dropZ (dst + n) a) else None.

(** [snprintf(dst, FSEDIT_LINE_LEN + 1, "%s", src)] for an array of that size.
    src/fsedit.c:42-45 (copy_line) *)
Definition copy_line (dst : list Z) (src : list Z) : option (list Z) :=
  s ← string_at src;
  let t := takeZ FSEDIT_LINE_LEN s in
  memmove dst 0 (t ++ [0]) 0 (zlen t + 1).

(** ** The editor *)

Definition get_line (e : FsEditor) (i : Z) : option (list Z) := nthZ (lines e) i.

Definition put_line (e : FsEditor) (i : Z) (l : list Z) : option FsEditor :=
  if (0 <=? i) && (i <? zlen (lines e)) then Some (set_lines (<[Z.to_nat i := l]> (lines e)) e)
  else None.

(** src/fsedit.c:23-26 (line_len) *)
Definition line_len (e : FsEditor) : option Z :=
  l ← get_line e (cur_line e); s ← string_at l; Some (zlen s).

(** src/fsedit.c:28-40 (clamp_cursor) *)
Definition clamp_cursor (e : FsEditor) : option FsEditor :=
  let e := if line_count e <? 1 then set_line_count 1 e else e in
  let e := if cur_line e <? 0 then set_cur_line 0 e else e in
  let e := if line_count e <=? cur_line e then set_cur_line (line_count e - 1) e else e in
  len ← line_len e;
  let e := if cur_col e <? 0 then set_cur_col 0 e else e in
  let e := if len <? cur_col e then set_cur_col len e else e in
  let e := if cur_line e <? top_line e then set_top_line (cur_line e) e else e in
  let e := if top_line e + FSEDIT_VIEW_LINES <=? cur_line e
           then set_top_line (cur_line e - FSEDIT_VIEW_LINES + 1) e else e in
  Some (if top_line e <? 0 then set_top_line 0 e else e).

(** ** The screen *)

Definition ESC : cstr := [27].
Definition CRLF : cstr := [13; 10].
Definition RULE : cstr := replicate 70 45 ++ CRLF.

(** One line of the view, which fits in the buffer of 256 bytes. *)
Definition show_line (e : FsEditor) (i : Z) : option cstr :=
  l ← get_line e i;
  s ← string_at l;
  Some ((if i =? cur_line e then ESC ++ lit "[1;32m" else []) ++
    pad_left 2 32 (fmt_d (i + 1)) ++ lit "|" ++ s ++ ESC ++ lit "[0m" ++ CRLF).

Fixpoint show_lines (e : FsEditor) (n : nat) (i : Z) : option cstr :=
  match n with
  | O => Some []
  | S n => l ← show_line e i; r ← show_lines e n (i + 1); Some (l ++ r)
  end.

(** The editor after the cursor is put in its bounds, and what is sent.
    src/fsedit.c:47-75 (fsedit_redraw) *)
Definition fsedit_redraw (e : FsEditor) : option (FsEditor * cstr) :=
  e ← clamp_cursor e;
  let last := top_line e + FSEDIT_VIEW_LINES in
  let last := if line_count e <? last then line_count e else last in
  view ← show_lines e (Z.to_nat (last - top_line e)) (top_line e);
  Some (e, ESC ++ lit "[2J" ++ ESC ++ lit "[H" ++
    ESC ++ lit "[1;36m=== Full-Screen Editor ===" ++ ESC ++ lit "[0m" ++ CRLF ++
    ESC ++ lit "[1;33mCtrl-S=Save  Ctrl-A=Abort  Ctrl-Y=Delete Line  Ctrl-N=Insert Line" ++
    ESC ++ lit "[0m" ++ CRLF ++ RULE ++ view ++ RULE ++
    lit "Line " ++ fmt_d (cur_line e + 1) ++ lit "/" ++ fmt_d (line_count e) ++ lit "  Col " ++
    fmt_d (cur_col e + 1) ++ lit "  " ++
    (if insert_mode e =? 0 then lit "[OVR]" else lit "[INS]") ++ CRLF ++
    ESC ++ lit "[" ++ fmt_d (cur_line e - top_line e + 4) ++ lit ";" ++ fmt_d (cur_col e + 4) ++
    lit "H").

(** ** Text in and out *)

(** The text in a buffer of [cap] bytes, after both parts of a line: as much as
    fits before the final zero. The flag tells whether the function goes on.
    src/fsedit.c:82-95 (save_text) *)
Fixpoint save_parts (cap : Z) (parts : list cstr) (out : cstr) : cstr :=
  match parts with
  | [] => out
  | p :: parts =>
      let avail := if zlen out <? cap then cap - zlen out - 1 else 0 in
      if avail =? 0 then out else save_parts cap parts (out ++ takeZ avail p)
  end.

(** The two parts of every line.
    src/fsedit.c:82-84 (save_text) *)
Fixpoint line_parts (e : FsEditor) (n : nat) (i : Z) : option (list cstr) :=
  match n with
  | O => Some []
  | S n => l ← get_line e i; s ← string_at l; r ← line_parts e n (i + 1); Some (s :: CRLF :: r)
  end.

(** src/fsedit.c:77-96 (save_text) *)
Definition save_text (e : FsEditor) (text_cap : Z) : option cstr :=
  parts ← line_parts e (Z.to_nat (line_count e)) 0;
  Some (save_parts text_cap parts []).

(** The text before the first line feed, and what is after it if there is one. *)
Fixpoint split_nl (s : cstr) : cstr * option cstr :=
  match s with
  | [] => ([], None)
  | c :: s => if c =? 10 then ([], Some s) else let '(l, r) := split_nl s in (c :: l, r)
  end.

(** The length of a line that is kept.
    src/fsedit.c:112-115 (fsedit_edit) *)
Definition kept_len (l : cstr) : Z :=
  let len := zlen l in
  let len := if (0 <? len) && bool_decide (nthZ l (len - 1) = Some 13) then len - 1 else len in
  if FSEDIT_LINE_LEN <? len then FSEDIT_LINE_LEN else len.

(** The loop over the lines of the text. [fuel] is the number of lines left.
    src/fsedit.c:110-121 (fsedit_edit) *)
Fixpoint load_lines (fuel : nat) (p : cstr) (e : FsEditor) : option FsEditor :=
  match fuel, p with
  | S fuel, _ :: _ =>
      let '(l, nl) := split_nl p in
      let len := kept_len l in
      a ← get_line e (line_count e);
      a ← memmove a 0 l 0 len;
      a ← put_byte a len 0;
      e ← put_line e (line_count e) a;
      let e := set_line_count (line_count e + 1) e in
      match nl with Some p => load_lines fuel p e | None => Some e end
  | _, _ => Some e
  end.

Definition blank_editor : FsEditor :=
  MkEd (replicate (Z.to_nat FSEDIT_MAX_LINES) (replicate (Z.to_nat (FSEDIT_LINE_LEN + 1)) 0)) 1 0 0 1 0.

(** src/fsedit.c:101-123 (fsedit_edit) *)
Definition load_text (text : cstr) : option FsEditor :=
  if bool_decide (text = []) then Some blank_editor
  else
    e ← load_lines (Z.to_nat FSEDIT_MAX_LINES) text (set_line_count 0 blank_editor);
    Some (if line_count e =? 0 then set_line_count 1 e else e).

(** ** Keys *)

(** [for (int i = a; i < a + n; i++) copy_line(ed.lines[i], ed.lines[i + 1]);] *)
Fixpoint shift_up (n : nat) (i : Z) (e : FsEditor) : option FsEditor :=
  match n with
  | O => Some e
  | S n =>
      d ← get_line e i; s ← get_line e (i + 1);
      l ← copy_line d s;
      e ← put_line e i l;
      shift_up n (i + 1) e
  end.

(** [for (int i = b; i > b - n; i--) copy_line(ed.lines[i], ed.lines[i - 1]);] *)
Fixpoint shift_down (n : nat) (i : Z) (e : FsEditor) : option FsEditor :=
  match n with
  | O => Some e
  | S n =>
      d ← get_line e i; s ← get_line e (i - 1);
      l ← copy_line d s;
      e ← put_line e i l;
      shift_down n (i - 1) e
  end.

(** src/fsedit.c:163-178 (fsedit_edit) *)
Definition key_delete_line (e : FsEditor) : option FsEditor :=
  e ← (if 1 <? line_count e then
         e ← shift_up (Z.to_nat (line_count e - 1 - cur_line e)) (cur_line e) e;
         Some (set_line_count (line_count e - 1) e)
       else
         a ← get_line e 0; a ← put_byte a 0 0; put_line e 0 a);
  Some (set_cur_col 0 e).

(** src/fsedit.c:181-194 (fsedit_edit) *)
Definition key_insert_line (e : FsEditor) : option FsEditor :=
  if line_count e <? FSEDIT_MAX_LINES then
    e ← shift_down (Z.to_nat (line_count e - (cur_line e + 1))) (line_count e) e;
    let e := set_cur_line (cur_line e + 1) (set_line_count (line_count e + 1) e) in
    a ← get_line e (cur_line e); a ← put_byte a 0 0; e ← put_line e (cur_line e) a;
    Some (set_cur_col 0 e)
  else Some e.

(** src/fsedit.c:197-214 (fsedit_edit) *)
Definition key_enter (e : FsEditor) : option FsEditor :=
  if line_count e <? FSEDIT_MAX_LINES then
    a ← get_line e (cur_line e);
    rest ← (if (0 <=? cur_col e) && (cur_col e <? zlen a)
            then copy_line (replicate (Z.to_nat (FSEDIT_LINE_LEN + 1)) 0) (dropZ (cur_col e) a)
            else None);
    a ← put_byte a (cur_col e) 0;
    e ← put_line e (cur_line e) a;
    e ← shift_down (Z.to_nat (line_count e - (cur_line e + 1))) (line_count e) e;
    let e := set_cur_line (cur_line e + 1) (set_line_count (line_count e + 1) e) in
    d ← get_line e (cur_line e);
    l ← copy_line d rest;
    e ← put_line e (cur_line e) l;
    Some (set_cur_col 0 e)
  else Some e.

(** The line is joined to the one before when there is room for both.
    src/fsedit.c:224-242 (fsedit_edit) *)
Definition join_lines (e : FsEditor) : option FsEditor :=
  p ← get_line e (cur_line e - 1); ps ← string_at p;
  c ← get_line e (cur_line e); cs ← string_at c;
  if zlen ps + zlen cs <=? FSEDIT_LINE_LEN then
    let room := FSEDIT_LINE_LEN - zlen ps in
    p ← (if 0 <? room then memmove p (zlen ps) c 0 (zlen cs + 1) else Some p);
    e ← put_line e (cur_line e - 1) p;
    e ← shift_up (Z.to_nat (line_count e - 1 - cur_line e)) (cur_line e) e;
    Some (set_cur_col (zlen ps)
      (set_cur_line (cur_line e - 1) (set_line_count (line_count e - 1) e)))
  else Some e.

(** src/fsedit.c:216-246 (fsedit_edit) *)
Definition key_backspace (e : FsEditor) : option FsEditor :=
  if 0 <? cur_col e then
    a ← get_line e (cur_line e);
    s ← string_at (dropZ (cur_col e) a);
    a ← memmove a (cur_col e - 1) a (cur_col e) (zlen s + 1);
    e ← put_line e (cur_line e) a;
    Some (set_cur_col (cur_col e - 1) e)
  else if 0 <? cur_line e then join_lines e
  else Some e.

(** The flag tells whether the screen is drawn again.
    src/fsedit.c:248-262 (fsedit_edit) *)
Definition key_char (ch : Z) (e : FsEditor) : option (FsEditor * bool) :=
  a ← get_line e (cur_line e);
  s ← string_at a;
  if zlen s <? FSEDIT_LINE_LEN then
    a ← (if insert_mode e =? 0 then Some a
         else r ← string_at (dropZ (cur_col e) a);
              memmove a (cur_col e + 1) a (cur_col e) (zlen r + 1));
    a ← put_byte a (cur_col e) ch;
    a ← (if zlen s <=? cur_col e then put_byte a (cur_col e + 1) 0 else Some a);
    e ← put_line e (cur_line e) a;
    Some (set_cur_col (cur_col e + 1) e, true)
  else Some (e, false).

(** The second byte of an arrow key.
    src/fsedit.c:146-150 (fsedit_edit) *)
Definition key_arrow (c : Z) (e : FsEditor) : option FsEditor :=
  len ← line_len e;
  Some (if (c =? ch "A") && (0 <? cur_line e) then set_cur_line (cur_line e - 1) e
    else if (c =? ch "B") && (cur_line e <? line_count e - 1) then set_cur_line (cur_line e + 1) e
    else if (c =? ch "C") && (cur_col e <? len) then set_cur_col (cur_col e + 1) e
    else if (c =? ch "D") && (0 <? cur_col e) then set_cur_col (cur_col e - 1) e
    else e).

(** A key that is neither an escape nor one that leaves the editor.
    src/fsedit.c:163-263 (fsedit_edit) *)
Definition key (c : Z) (e : FsEditor) : option (FsEditor * bool) :=
  let redraw (o : option FsEditor) := e ← o; e ← clamp_cursor e; Some (e, true) in
  if c =? 0x19 then redraw (key_delete_line e)
  else if c =? 0x0E then redraw (key_insert_line e)
  else if (c =? 13) || (c =? 10) then redraw (key_enter e)
  else if (c =? 0x08) || (c =? 0x7F) then redraw (key_backspace e)
  else if (0x20 <=? c) && (c <? 0x7F) then
    '(e, r) ← key_char c e;
    if r : bool then e ← clamp_cursor e; Some (e, true) else Some (e, false)
  else Some (e, false).

(** How the editor is left: the value returned, and the text. *)
Inductive outcome : Type :=
  | Saved (text : cstr)
  | Aborted
  | Lost.

(** One key after the other. [dontwait] is what a read of two bytes that does not
    wait returns, for the bytes that are to come; the end of the input is a
    connection that is closed. The bytes sent are collected in [out].
    src/fsedit.c:127-264 (fsedit_edit) *)
Fixpoint edit_loop (dontwait : list Z → Z) (text_cap : Z) (fuel : nat) (input : list Z)
    (e : FsEditor) (out : cstr) : option (outcome * cstr) :=
  match fuel with
  | O => None
  | S fuel =>
      match input with
      | [] => Some (Lost, out)
      | c :: input =>
          if c =? 0x1B then
            let n := dontwait input in
            let rest := dropZ n input in
            match takeZ n input with
            | [b0; b1] =>
                if b0 =? ch "[" then
                  e ← key_arrow b1 e; e ← clamp_cursor e;
                  '(e, o) ← fsedit_redraw e;
                  edit_loop dontwait text_cap fuel rest e (out ++ o)
                else edit_loop dontwait text_cap fuel rest e out
            | _ => edit_loop dontwait text_cap fuel rest e out
            end
          else if c =? 0x13 then text ← save_text e text_cap; Some (Saved text, out)
          else if c =? 0x01 then Some (Aborted, out)
          else
            '(e, r) ← key c e;
            if r : bool then
              '(e, o) ← fsedit_redraw e;
              edit_loop dontwait text_cap fuel input e (out ++ o)
            else edit_loop dontwait text_cap fuel input e out
      end
  end.

(** src/fsedit.c:98-264 (fsedit_edit) *)
Definition fsedit_edit (dontwait : list Z → Z) (text_cap : Z) (fuel : nat) (input : list Z)
    (text : cstr) : option (outcome * cstr) :=
  if text_cap =? 0 then Some (Lost, [])
  else
    e ← load_text text;
    '(e, out) ← fsedit_redraw e;
    edit_loop dontwait text_cap fuel input e out.
