(* ===== verification/FseditSpec.v ===== *)
(** The editor of [Fsedit] against a text buffer: the lines above the cursor, the
    text of its line on both sides of it, the lines below. Every key does on the
    arrays what it does on the buffer, and no key leaves the arrays. *)

From S2P Require Import Prelude CLib Fsedit.
#[local] Open Scope Z_scope.

(** ** Lines of text in arrays *)

#[local] Notation "'no_nul' s" := (Forall (λ c : Z, c ≠ 0) s) (at level 10, s at level 9).

(** The array holds the string [s]. *)
Record holds (a : list Z) (s : cstr) : Prop := Holds {
  holds_size : zlen a = FSEDIT_LINE_LEN + 1;
  holds_text : no_nul s;
  holds_end : ∃ junk, a = s ++ 0 :: junk
}.

Lemma string_at_nul s junk : no_nul s → string_at (s ++ 0 :: junk) = Some s.
Proof.
  induction 1 as [| c s Hc _ IH]; [done |]. cbn [app string_at].
  destruct (Z.eqb_spec c 0); [done |]. by rewrite IH.
Qed.

Lemma string_at_holds a s : holds a s → string_at a = Some s.
Proof. intros [_ Hs [junk ->]]. by apply string_at_nul. Qed.

Lemma holds_short a s : holds a s → zlen s <= FSEDIT_LINE_LEN.
Proof. intros [Ha _ [junk ->]]. zl. Qed.

(** The text of a line after the first [n] bytes of it. *)
Lemma string_at_inside s r junk :
  no_nul (s ++ r) → string_at (dropZ (zlen s) (s ++ r ++ 0 :: junk)) = Some r.
Proof. intros Hn. rewrite dropZ_app. apply string_at_nul. by apply Forall_app in Hn as [_ ?]. Qed.

(** A list cut at [n]. *)
Lemma cut_at {A} n (l : list A) :
  0 <= n <= zlen l → ∃ x y, l = x ++ y ∧ zlen x = n ∧ takeZ n l = x ∧ dropZ n l = y.
Proof.
  intros Hn. exists (takeZ n l), (dropZ n l). split_and!; try done.
  - unfold takeZ, dropZ. by rewrite take_drop.
  - unfold takeZ, zlen in *. rewrite length_take. lia.
Qed.

Lemma put_byte_mid l x k c : put_byte (l ++ x :: k) (zlen l) c = Some (l ++ c :: k).
Proof.
  unfold put_byte.
  replace ((0 <=? zlen l) && (zlen l <? zlen (l ++ x :: k))) with true by (symmetry; zl).
  f_equal. unfold zlen. rewrite Nat2Z.id, insert_app_r_alt by done. by rewrite Nat.sub_diag.
Qed.

(** A block of an array replaced by one of the same size, which may be a part of
    the array itself. *)
Lemma memmove_block a b p q r x m y dst src n :
  a = p ++ q ++ r → b = x ++ m ++ y → zlen q = zlen m →
  dst = zlen p → src = zlen x → n = zlen m →
  memmove a dst b src n = Some (p ++ m ++ r).
Proof.
  intros -> -> Hq -> -> ->. unfold memmove.
  match goal with |- (if ?c then _ else _) = _ => replace c with true by (symmetry; zl) end.
  rewrite takeZ_app, slice_mid, (app_assoc p q r).
  replace (zlen p + zlen m) with (zlen (p ++ q)) by zl. by rewrite dropZ_app.
Qed.

Lemma holds_of s junk : no_nul s → zlen s + zlen junk = FSEDIT_LINE_LEN → holds (s ++ 0 :: junk) s.
Proof. intros Hs Hj. split; [zl | done | by exists junk]. Qed.

Lemma copy_line_holds d a s :
  zlen d = FSEDIT_LINE_LEN + 1 → string_at a = Some s → no_nul s → zlen s <= FSEDIT_LINE_LEN →
  ∃ l, copy_line d a = Some l ∧ holds l s.
Proof.
  intros Hd Ha Hn Hs. unfold copy_line. rewrite Ha. cbn [mbind option_bind].
  assert (takeZ FSEDIT_LINE_LEN s = s) as ->.
  { unfold takeZ, zlen in *. apply take_ge. lia. }
  destruct (cut_at (zlen s + 1) d) as (q & r & -> & Hq & _); [zl |].
  exists (s ++ 0 :: r). split; [| apply holds_of; [done | zl]].
  rewrite (memmove_block _ _ [] q r [] (s ++ [0]) []); try done; [| by rewrite app_nil_r | zl | zl].
  by rewrite <- app_assoc.
Qed.

(** ** Pages of lines *)

#[local] Notation "'page' ls L" := (Forall2 holds ls L) (at level 10, ls, L at level 9).

Lemma get_page ls pre s post i :
  page ls (pre ++ s :: post) → i = zlen pre → ∃ a, nthZ ls i = Some a ∧ holds a s.
Proof.
  intros (l1 & l2 & H1 & H2 & ->)%Forall2_app_inv_r ->.
  inversion H2 as [| a ? l2' ? Ha H2']; subst. exists a. split; [| done].
  replace (zlen pre) with (zlen l1) by (unfold zlen; f_equal; by eapply Forall2_length).
  apply nthZ_mid.
Qed.

Lemma page_length ls L : page ls L → zlen ls = zlen L.
Proof. intros H. unfold zlen. f_equal. by eapply Forall2_length. Qed.

Lemma put_page e pre s post a s' i :
  page (lines e) (pre ++ s :: post) → holds a s' → i = zlen pre →
  ∃ ls, put_line e i a = Some (set_lines ls e) ∧ page ls (pre ++ s' :: post).
Proof.
  intros Hp Ha ->. pose proof (page_length _ _ Hp) as Hl.
  revert Hp Hl. intros (l1 & l2 & H1 & H2 & Hls)%Forall2_app_inv_r Hl.
  inversion H2 as [| b ? l2' ? Hb H2']; subst. rewrite Hls in *.
  exists (l1 ++ a :: l2'). split; [| by apply Forall2_app; [| constructor]].
  unfold put_line. rewrite Hls, Hl.
  match goal with |- (if ?c then _ else _) = _ => replace c with true by (symmetry; zl) end.
  do 2 f_equal. unfold zlen. rewrite Nat2Z.id.
  apply Forall2_length in H1. rewrite <- H1, insert_app_r_alt by done. by rewrite Nat.sub_diag.
Qed.

(** The loops that move lines up and down write over the line at one end, and
    leave the one at the other twice. *)
Lemma shift_up_moves mid : ∀ n i pre x post e,
  page (lines e) (pre ++ x :: mid ++ post) → i = zlen pre → n = length mid →
  ∃ ls y, shift_up n i e = Some (set_lines ls e) ∧ page ls (pre ++ mid ++ y :: post).
Proof.
  induction mid as [| m mid IH]; intros n i pre x post e Hp -> ->.
  - exists (lines e), x. by destruct e.
  - cbn [length shift_up].
    destruct (get_page _ _ _ _ (zlen pre) Hp eq_refl) as (d & Hd & Hd').
    destruct (get_page (lines e) (pre ++ [x]) m (mid ++ post) (zlen pre + 1)) as (s & Hs & Hs'); [| zl |].
    { by rewrite <- app_assoc. }
    unfold get_line. rewrite Hd, Hs. cbn [mbind option_bind].
    destruct (copy_line_holds d s m) as (l & -> & Hl); eauto using holds_size, string_at_holds,
      holds_text, holds_short. cbn [mbind option_bind].
    destruct (put_page _ _ _ _ _ _ (zlen pre) Hp Hl eq_refl) as (ls & -> & Hls).
    cbn [mbind option_bind].
    edestruct (IH (length mid) (zlen pre + 1) (pre ++ [m]) m post (set_lines ls e))
      as (ls' & y & -> & Hls'); [by rewrite <- app_assoc | zl | done |].
    exists ls', y. split; [done |]. by rewrite <- app_assoc in Hls'.
Qed.

Lemma shift_down_moves mid : ∀ n i pre x post e,
  page (lines e) (pre ++ mid ++ x :: post) → i = zlen pre + zlen mid → n = length mid →
  ∃ ls y, shift_down n i e = Some (set_lines ls e) ∧ page ls (pre ++ y :: mid ++ post).
Proof.
  induction mid as [| m mid IH] using rev_ind; intros n i pre x post e Hp -> ->.
  - exists (lines e), x. by destruct e.
  - rewrite length_app, Nat.add_comm. cbn [length Nat.add shift_down].
    set (i := zlen pre + zlen (mid ++ [m])).
    rewrite <- app_assoc in Hp. cbn [app] in Hp.
    destruct (get_page (lines e) (pre ++ mid ++ [m]) x post i) as (d & Hd & Hd'); [| subst i; zl |].
    { by rewrite <- !app_assoc. }
    destruct (get_page (lines e) (pre ++ mid) m (x :: post) (i - 1)) as (s & Hs & Hs'); [| subst i; zl |].
    { by rewrite <- !app_assoc. }
    unfold get_line. rewrite Hd, Hs. cbn [mbind option_bind].
    destruct (copy_line_holds d s m) as (l & -> & Hl); eauto using holds_size, string_at_holds,
      holds_text, holds_short. cbn [mbind option_bind].
    destruct (put_page e (pre ++ mid ++ [m]) x post l m i) as (ls & -> & Hls); [| done | subst i; zl |].
    { by rewrite <- !app_assoc. }
    cbn [mbind option_bind].
    edestruct (IH (length mid) (i - 1) pre m (m :: post) (set_lines ls e))
      as (ls' & y & -> & Hls'); [| subst i; zl | done |].
    { by rewrite <- !app_assoc in Hls. }
    exists ls', y. split; [done |]. by rewrite <- app_assoc.
Qed.

(** ** The buffer *)

Record buffer : Type := Buf {
  above : list cstr;
  before : cstr;
  after : cstr;
  below : list cstr
}.

Definition line_at (b : buffer) : cstr := before b ++ after b.
Definition text_lines (b : buffer) : list cstr := above b ++ line_at b :: below b.

(** The arrays show the buffer; what is in the lines after the last does not
    matter, and the line of the cursor is one of those in view. *)
Record shows (e : FsEditor) (b : buffer) : Prop := Shows {
  shows_page : ∃ rest, page (lines e) (above b ++ line_at b :: below b ++ rest);
  shows_size : zlen (lines e) = FSEDIT_MAX_LINES;
  shows_count : line_count e = zlen (above b) + 1 + zlen (below b);
  shows_row : cur_line e = zlen (above b);
  shows_col : cur_col e = zlen (before b);
  shows_mode : insert_mode e = 1;
  shows_view : 0 <= top_line e <= cur_line e /\ cur_line e < top_line e + FSEDIT_VIEW_LINES
}.

(** The first line in view follows the cursor. *)
Lemma scroll_shows ls lc cl cc im tl :
  0 <= cl →
  ∃ tl', (let e := MkEd ls lc cl cc im tl in
          let e := if cur_line e <? top_line e then set_top_line (cur_line e) e else e in
          let e := if top_line e + FSEDIT_VIEW_LINES <=? cur_line e
                   then set_top_line (cur_line e - FSEDIT_VIEW_LINES + 1) e else e in
          if top_line e <? 0 then set_top_line 0 e else e) = MkEd ls lc cl cc im tl' ∧
    0 <= tl' <= cl /\ cl < tl' + FSEDIT_VIEW_LINES.
Proof.
  intros Hcl. unfold FSEDIT_VIEW_LINES, set_top_line. cbn.
  destruct (Z.ltb_spec cl tl); cbn;
    repeat match goal with
    | |- context [?a <=? ?b] => destruct (Z.leb_spec a b); cbn
    | |- context [?a <? ?b] => destruct (Z.ltb_spec a b); cbn
    end; (eexists; split; [reflexivity | lia]).
Qed.

Lemma clamp_settles e up cur down rest :
  page (lines e) (up ++ cur :: down ++ rest) → zlen (lines e) = FSEDIT_MAX_LINES →
  line_count e = zlen up + 1 + zlen down → insert_mode e = 1 → 0 <= cur_col e →
  cur_line e = zlen up ∨ down = [] ∧ zlen up <= cur_line e →
  ∃ e', clamp_cursor e = Some e' ∧
    shows e' (Buf up (takeZ (cur_col e) cur) (dropZ (cur_col e) cur) down).
Proof.
  intros Hp Hs Hc Hm Hcol Hrow. destruct e as [ls lc cl cc im tl]. cbn in *.
  destruct (get_page _ _ _ _ (zlen up) Hp eq_refl) as (a & Ha & Ha').
  unfold clamp_cursor, line_len, get_line. cbn.
  destruct (Z.ltb_spec lc 1); [zl |]. cbn.
  destruct (Z.ltb_spec cl 0); [zl |]. cbn.
  assert ((if lc <=? cl then set_cur_line (lc - 1) (MkEd ls lc cl cc im tl)
           else MkEd ls lc cl cc im tl) = MkEd ls lc (zlen up) cc im tl) as ->.
  { destruct (Z.leb_spec lc cl); unfold set_cur_line; cbn; f_equal;
    destruct Hrow as [? | [-> ?]]; zl. }
  cbn. rewrite Ha. cbn [mbind option_bind]. rewrite (string_at_holds _ _ Ha'). cbn [mbind option_bind].
  destruct (Z.ltb_spec cc 0); [lia |]. cbn.
  set (col := if zlen cur <? cc then zlen cur else cc).
  assert ((if zlen cur <? cc then set_cur_col (zlen cur) (MkEd ls lc (zlen up) cc im tl)
           else MkEd ls lc (zlen up) cc im tl) = MkEd ls lc (zlen up) col im tl) as ->.
  { unfold col. by destruct (zlen cur <? cc). }
  assert (col = zlen (takeZ cc cur)) as Hcol'.
  { unfold col, takeZ, zlen. rewrite length_take. destruct (Z.ltb_spec (Z.of_nat (length cur)) cc); lia. }
  assert (takeZ cc cur ++ dropZ cc cur = cur) as Hcur by (unfold takeZ, dropZ; apply take_drop).
  destruct (scroll_shows ls lc (zlen up) col im tl) as (tl' & Htop & Htl); [zl |].
  exists (MkEd ls lc (zlen up) col im tl'). split; [exact (f_equal Some Htop) |].
  split; cbn; unfold line_at; cbn; rewrite ?Hcur; eauto.
Qed.

(** The keys of the editor. *)
Inductive keystroke : Type :=
  | Char (c : Z) | Enter | Backspace | DeleteLine | InsertLine
  | Up | Down | Forward | Back
  | SaveKey | AbortKey | OtherKey.

(** The cursor in the line of the cursor, at most at its end. *)
Definition at_col (up : list cstr) (s : cstr) (down : list cstr) (col : Z) : buffer :=
  Buf up (takeZ col s) (dropZ col s) down.

Definition has_room (b : buffer) : bool := zlen (text_lines b) <? FSEDIT_MAX_LINES.

(** The last of a list, and what is before it. *)
Definition unsnoc {A} (l : list A) : option (list A * A) :=
  match reverse l with [] => None | x :: l => Some (reverse l, x) end.

Definition press (k : keystroke) (b : buffer) : buffer :=
  let '(Buf up s r down) := b in
  match k with
  | Char c => if zlen (s ++ r) <? FSEDIT_LINE_LEN then Buf up (s ++ [c]) r down else b
  | Enter => if has_room b then Buf (up ++ [s]) [] r down else b
  | Backspace =>
      match unsnoc s, unsnoc up with
      | Some (s, _), _ => Buf up s r down
      | None, Some (up, p) =>
          if zlen p + zlen r <=? FSEDIT_LINE_LEN then Buf up p r down else b
      | None, None => b
      end
  | DeleteLine =>
      match down, unsnoc up with
      | n :: down, _ => Buf up [] n down
      | [], Some (up, p) => Buf up [] p []
      | [], None => Buf [] [] [] []
      end
  | InsertLine => if has_room b then Buf (up ++ [s ++ r]) [] [] down else b
  | Up => match unsnoc up with
          | Some (up, p) => at_col up p ((s ++ r) :: down) (zlen s) | None => b end
  | Down => match down with
            | n :: down => at_col (up ++ [s ++ r]) n down (zlen s) | [] => b end
  | Forward => match r with c :: r => Buf up (s ++ [c]) r down | [] => b end
  | Back => match unsnoc s with Some (s, c) => Buf up s (c :: r) down | None => b end
  | SaveKey | AbortKey | OtherKey => b
  end.

Lemma unsnoc_spec {A} (l : list A) :
  match unsnoc l with Some (k, x) => l = k ++ [x] | None => l = [] end.
Proof.
  unfold unsnoc. destruct (reverse l) as [| x k] eqn:E.
  - by rewrite <- (reverse_involutive l), E.
  - rewrite <- (reverse_involutive l), E. by rewrite reverse_cons.
Qed.

(** ** The keys on the arrays *)

(** An operation gives an editor that, with its cursor in bounds, shows [b]. *)
Definition settles (o : option FsEditor) (b : buffer) : Prop :=
  ∃ e', (e ← o; clamp_cursor e) = Some e' ∧ shows e' b.

Lemma settles_at e up s r down rest :
  page (lines e) (up ++ (s ++ r) :: down ++ rest) → zlen (lines e) = FSEDIT_MAX_LINES →
  line_count e = zlen up + 1 + zlen down → insert_mode e = 1 →
  cur_line e = zlen up → cur_col e = zlen s →
  settles (Some e) (Buf up s r down).
Proof.
  intros Hp Hs Hc Hm Hrow Hcol.
  destruct (clamp_settles e up (s ++ r) down rest) as (e' & He & Hsh); eauto; [zl |].
  exists e'. split; [done |]. by rewrite Hcol, takeZ_app, dropZ_app in Hsh.
Qed.

Lemma settles_same e b : shows e b → settles (Some e) b.
Proof.
  destruct b as [up s r down]. intros [[rest Hp] ? ? ? ? ? ?]. cbn in *.
  by eapply settles_at.
Qed.

(** The line of the cursor ended at the cursor. *)
Lemma end_line a s r : holds a (s ++ r) → ∃ a', put_byte a (zlen s) 0 = Some a' ∧ holds a' s.
Proof.
  intros [Ha [Hs _]%Forall_app [junk ->]].
  rewrite <- app_assoc in *. destruct (r ++ 0 :: junk) as [| x k] eqn:E; [by destruct r |].
  rewrite put_byte_mid. eexists. split; [done |]. apply holds_of; [done | zl].
Qed.

Ltac line_step H := rewrite H; cbn [mbind option_bind].

Lemma delete_line_settles e b : shows e b → settles (key_delete_line e) (press DeleteLine b).
Proof.
  destruct b as [up s r down]. intros [[rest Hp] Hs Hc Hr Hcol Hm _]. cbn in * |-.
  unfold line_at in Hp. cbn in Hp. unfold key_delete_line.
  destruct (Z.ltb_spec 1 (line_count e)).
  - destruct (shift_up_moves down (Z.to_nat (line_count e - 1 - cur_line e)) (cur_line e)
      up (s ++ r) rest e) as (ls & y & Hsh & Hls); [done | done | unfold zlen in *; lia |].
    line_step Hsh. pose proof (page_length _ _ Hp). pose proof (page_length _ _ Hls).
    destruct down as [| n down]; cbn [press].
    + pose proof (unsnoc_spec up) as Hup. destruct (unsnoc up) as [[up' p] |]; [subst up | subst up; zl].
      destruct (clamp_settles (set_cur_col 0 (set_line_count (line_count e - 1) (set_lines ls e)))
        up' p [] (y :: rest)) as (e' & He & Hsh'); cbn; try zl; try done.
      { by rewrite <- app_assoc in Hls. }
      { right. split; [done | zl]. }
      by exists e'.
    + eapply (settles_at _ up [] n down (y :: rest)); cbn; try zl; try done.
  - assert (up = []) as -> by (destruct up; [done | zl]).
    assert (down = []) as -> by (destruct down; [done | zl]). cbn [press unsnoc].
    destruct (get_page _ [] _ _ 0 Hp eq_refl) as (a & Ha & Ha').
    unfold get_line. line_step Ha. destruct (end_line a [] (s ++ r) Ha') as (a' & Ha1 & Ha2).
    change (zlen (@nil Z)) with 0 in Ha1. line_step Ha1.
    destruct (put_page e [] _ _ a' [] 0 Hp Ha2 eq_refl) as (ls & Hls & Hls'). line_step Hls.
    pose proof (page_length _ _ Hp). pose proof (page_length _ _ Hls').
    eapply (settles_at _ [] [] [] [] rest); cbn; try zl; done.
Qed.

(** A line made free below the line [x]. *)
Lemma open_line e up x down rest :
  page (lines e) (up ++ x :: down ++ rest) → zlen (lines e) = FSEDIT_MAX_LINES →
  line_count e = zlen up + 1 + zlen down → cur_line e = zlen up →
  line_count e < FSEDIT_MAX_LINES →
  ∃ ls y rest', shift_down (Z.to_nat (line_count e - (cur_line e + 1))) (line_count e) e =
      Some (set_lines ls e) ∧ zlen ls = FSEDIT_MAX_LINES ∧
    page ls ((up ++ [x]) ++ y :: down ++ rest').
Proof.
  intros Hp Hs Hc Hr Hroom. pose proof (page_length _ _ Hp).
  destruct rest as [| z rest']; [zl |].
  edestruct (shift_down_moves down (Z.to_nat (line_count e - (cur_line e + 1))) (line_count e)
    (up ++ [x]) z rest' e) as (ls & y & Hsh & Hls);
    [by rewrite <- app_assoc | zl | unfold zlen in *; lia |].
  exists ls, y, rest'. split_and!; try done. pose proof (page_length _ _ Hls). zl.
Qed.

Lemma has_room_count e b : shows e b → has_room b = (line_count e <? FSEDIT_MAX_LINES).
Proof. intros []. unfold has_room, text_lines. f_equal. zl. Qed.

Lemma insert_line_settles e b : shows e b → settles (key_insert_line e) (press InsertLine b).
Proof.
  intros Hb. pose proof (has_room_count _ _ Hb) as Hroom. unfold key_insert_line.
  pose proof (settles_same _ _ Hb). revert Hroom.
  destruct b as [up s r down]. destruct Hb as [[rest Hp] Hs Hc Hr Hcol Hm _].
  cbn in * |-. unfold line_at in Hp. cbn in Hp.
  cbn [press]. intros ->. destruct (Z.ltb_spec (line_count e) FSEDIT_MAX_LINES); [| done].
  destruct (open_line e up (s ++ r) down rest) as (ls & y & rest' & Hsh & Hsz & Hls); try done.
  line_step Hsh. destruct (get_page ls (up ++ [s ++ r]) y _ (cur_line e + 1) Hls) as (a & Ha & Ha'); [zl |].
  change (get_line _ _) with (nthZ ls (cur_line e + 1)). line_step Ha. destruct (end_line a [] y Ha') as (a' & Ha1 & Ha2).
  change (zlen (@nil Z)) with 0 in Ha1. line_step Ha1.
  set (e1 := set_cur_line _ _). change (cur_line e1) with (cur_line e + 1).
  destruct (put_page e1 (up ++ [s ++ r]) y (down ++ rest') a' [] (cur_line e + 1)) as (ls' & Hput & Hls');
    [done | done | zl |]. line_step Hput.
  pose proof (page_length _ _ Hls). pose proof (page_length _ _ Hls').
  eapply (settles_at _ (up ++ [s ++ r]) [] [] down rest'); cbn; try zl; done.
Qed.

Lemma enter_settles e b : shows e b → settles (key_enter e) (press Enter b).
Proof.
  intros Hb. pose proof (has_room_count _ _ Hb) as Hroom. unfold key_enter.
  pose proof (settles_same _ _ Hb). revert Hroom.
  destruct b as [up s r down]. destruct Hb as [[rest Hp] Hs Hc Hr Hcol Hm _].
  cbn in * |-. unfold line_at in Hp. cbn in Hp.
  cbn [press]. intros ->. destruct (Z.ltb_spec (line_count e) FSEDIT_MAX_LINES); [| done].
  destruct (get_page _ _ _ _ (cur_line e) Hp Hr) as (a & Ha & Ha').
  change (get_line e (cur_line e)) with (nthZ (lines e) (cur_line e)). line_step Ha. rewrite Hcol.
  pose proof (holds_size _ _ Ha'). pose proof (holds_short _ _ Ha').
  replace ((0 <=? zlen s) && (zlen s <? zlen a)) with true by (symmetry; zl).
  assert (string_at (dropZ (zlen s) a) = Some r) as Hrest.
  { destruct Ha' as [_ Hn [junk ->]]. rewrite <- app_assoc. by apply string_at_inside. }
  pose proof (holds_text _ _ Ha') as [_ Hn]%Forall_app.
  destruct (copy_line_holds (replicate (Z.to_nat (FSEDIT_LINE_LEN + 1)) 0) _ r eq_refl Hrest)
    as (l & Hl & Hl'); [done | zl |]. line_step Hl.
  destruct (end_line a s r Ha') as (a' & Ha1 & Ha2). line_step Ha1.
  destruct (put_page e up _ _ a' s (cur_line e) Hp Ha2 Hr) as (ls & Hput & Hls). line_step Hput.
  pose proof (page_length _ _ Hp). pose proof (page_length _ _ Hls).
  destruct (open_line (set_lines ls e) up s down rest) as (ls1 & y & rest' & Hsh & Hsz & Hls1);
    try done; [cbn; zl |]. line_step Hsh.
  destruct (get_page ls1 (up ++ [s]) y _ (cur_line e + 1) Hls1) as (d & Hd & Hd'); [zl |].
  change (get_line _ _) with (nthZ ls1 (cur_line e + 1)). line_step Hd.
  destruct (copy_line_holds d l r) as (l' & Hcl & Hl''); eauto using holds_size, string_at_holds;
    [zl |]. line_step Hcl. set (e1 := set_cur_line _ _). change (cur_line e1) with (cur_line e + 1).
  destruct (put_page e1 (up ++ [s]) y (down ++ rest') l' r (cur_line e + 1)) as (ls2 & Hput2 & Hls2);
    [done | done | zl |]. line_step Hput2.
  pose proof (page_length _ _ Hls1). pose proof (page_length _ _ Hls2).
  subst e1. eapply (settles_at _ (up ++ [s]) [] r down rest'); cbn; try zl; done.
Qed.

(** The byte before the cursor taken out of a line. *)
Lemma rub_out a s c r :
  holds a ((s ++ [c]) ++ r) →
  ∃ a', memmove a (zlen s) a (zlen (s ++ [c])) (zlen r + 1) = Some a' ∧ holds a' (s ++ r).
Proof.
  intros [Ha [[Hs _]%Forall_app Hr]%Forall_app [junk ->]].
  destruct (cut_at (zlen r + 1) ([c] ++ r ++ 0 :: junk)) as (q & t & Hqt & Hq & _); [zl |].
  assert (zlen ([c] ++ r ++ 0 :: junk) = zlen q + zlen t) by (rewrite Hqt; zl).
  exists (s ++ (r ++ [0]) ++ t). split.
  - apply (memmove_block _ _ s q t (s ++ [c]) (r ++ [0]) junk); rewrite <- ?app_assoc; try zl; try done.
    by rewrite Hqt.
  - rewrite <- app_assoc. cbn. rewrite app_assoc. apply holds_of; [by apply Forall_app | zl].
Qed.

(** A byte put in a line at the cursor. *)
Lemma type_byte a s r c :
  holds a (s ++ r) → c ≠ 0 → zlen (s ++ r) < FSEDIT_LINE_LEN →
  ∃ a1 a2, memmove a (zlen s + 1) a (zlen s) (zlen r + 1) = Some a1 ∧
    put_byte a1 (zlen s) c = Some a2 ∧ holds a2 ((s ++ [c]) ++ r) ∧
    (r = [] → put_byte a2 (zlen s + 1) 0 = Some a2).
Proof.
  intros [Ha [Hs Hr]%Forall_app [junk ->]] Hc Hlen. rewrite <- app_assoc in *.
  destruct (cut_at 1 (r ++ 0 :: junk)) as (x & q0 & Hx & Hx1 & _); [zl |].
  destruct x as [| x [| ? ?]]; [zl | | zl].
  assert (zlen (r ++ 0 :: junk) = 1 + zlen q0) by (rewrite Hx; zl).
  destruct (cut_at (zlen r + 1) q0) as (q & t & -> & Hq & _); [zl |].
  exists ((s ++ [x]) ++ (r ++ [0]) ++ t), (s ++ c :: (r ++ [0]) ++ t). split_and!.
  - apply (memmove_block _ _ (s ++ [x]) q t s (r ++ [0]) junk); rewrite <- ?app_assoc; try zl; try done.
    by rewrite Hx.
  - rewrite <- app_assoc. apply put_byte_mid.
  - replace (s ++ c :: (r ++ [0]) ++ t) with (((s ++ [c]) ++ r) ++ 0 :: t)
      by (rewrite <- !app_assoc; done).
    apply holds_of; [| zl]. rewrite !Forall_app. by repeat constructor.
  - intros ->. replace (s ++ c :: ([] ++ [0]) ++ t) with ((s ++ [c]) ++ 0 :: t)
      by (rewrite <- !app_assoc; done).
    replace (zlen s + 1) with (zlen (s ++ [c])) by zl. apply put_byte_mid.
Qed.

(** A line put after another that has room for it. *)
Lemma append_line p a s r :
  holds p s → holds a r → zlen s + zlen r <= FSEDIT_LINE_LEN →
  ∃ p', (if 0 <? FSEDIT_LINE_LEN - zlen s then memmove p (zlen s) a 0 (zlen r + 1) else Some p) = Some p'
    ∧ holds p' (s ++ r).
Proof.
  intros Hp [Ha Hr [ja ->]] Hlen. destruct (Z.ltb_spec 0 (FSEDIT_LINE_LEN - zlen s)).
  - destruct Hp as [Hp Hs [jp ->]].
    destruct (cut_at (zlen r + 1) (0 :: jp)) as (q & t & Hqt & Hq & _); [zl |].
    assert (zlen (0 :: jp) = zlen q + zlen t) by (rewrite Hqt; zl).
    exists (s ++ (r ++ [0]) ++ t). split.
    + apply (memmove_block _ _ s q t [] (r ++ [0]) ja); rewrite <- ?app_assoc; try zl; try done.
      by rewrite Hqt.
    + rewrite <- app_assoc. cbn. rewrite app_assoc. apply holds_of; [by apply Forall_app | zl].
  - exists p. split; [done |]. destruct r as [| ? r]; [by rewrite app_nil_r | zl].
Qed.

(** What the proofs about a key start from. *)
Ltac key_start Hb :=
  pose proof (settles_same _ _ Hb);
  destruct Hb as [[rest Hp] Hs Hc Hr Hcol Hm _]; cbn in * |-; unfold line_at in Hp; cbn in Hp.

Lemma backspace_settles e b : shows e b → settles (key_backspace e) (press Backspace b).
Proof.
  destruct b as [up s r down]. intros Hb. key_start Hb. cbn [press]. unfold key_backspace.
  pose proof (unsnoc_spec s) as Hsn. pose proof (unsnoc_spec up) as Hup.
  destruct (get_page _ _ _ _ (cur_line e) Hp Hr) as (a & Ha & Ha').
  rewrite Hcol. destruct (unsnoc s) as [[s' c] |]; subst s.
  - replace (0 <? zlen (s' ++ [c])) with true by (symmetry; zl).
    unfold get_line. line_step Ha.
    assert (string_at (dropZ (zlen (s' ++ [c])) a) = Some r) as Hst.
    { destruct Ha' as [_ Hn [junk ->]]. rewrite <- (app_assoc (s' ++ [c])). by apply string_at_inside. }
    line_step Hst. destruct (rub_out _ _ _ _ Ha') as (a' & Hm1 & Hm2).
    replace (zlen (s' ++ [c]) - 1) with (zlen s') by zl. line_step Hm1.
    destruct (put_page e up _ _ a' _ (cur_line e) Hp Hm2 Hr) as (ls & Hput & Hls). line_step Hput.
    pose proof (page_length _ _ Hp). pose proof (page_length _ _ Hls).
    eapply (settles_at _ up s' r down rest); cbn; try zl; done.
  - change (0 <? zlen []) with false. cbn [app] in *.
    destruct (unsnoc up) as [[up' p] |]; subst up.
    + replace (0 <? cur_line e) with true by (symmetry; zl).
      destruct (get_page (lines e) up' p (r :: down ++ rest) (cur_line e - 1)) as (pa & Hpa & Hpa');
        [by rewrite <- app_assoc in Hp | zl |].
      unfold join_lines.
      change (get_line e (cur_line e - 1)) with (nthZ (lines e) (cur_line e - 1)). line_step Hpa. line_step (string_at_holds _ _ Hpa').
      change (get_line e (cur_line e)) with (nthZ (lines e) (cur_line e)).
      line_step Ha. line_step (string_at_holds _ _ Ha').
      destruct (Z.leb_spec (zlen p + zlen r) FSEDIT_LINE_LEN); [| done].
      destruct (append_line _ _ _ _ Hpa' Ha') as (p' & Hap & Hap'); [done |]. line_step Hap.
      destruct (put_page e up' p (r :: down ++ rest) p' (p ++ r) (cur_line e - 1)) as (ls & Hput & Hls);
        [by rewrite <- app_assoc in Hp | done | zl |]. line_step Hput.
      set (e1 := set_lines ls e).
      destruct (shift_up_moves down (Z.to_nat (line_count e1 - 1 - cur_line e1)) (cur_line e1)
        (up' ++ [p ++ r]) r rest e1) as (ls1 & y & Hsh & Hls1);
        [by rewrite <- app_assoc | cbn; zl | cbn; unfold zlen in *; lia |].
      line_step Hsh. rewrite <- app_assoc in Hls1.
      pose proof (page_length _ _ Hp). pose proof (page_length _ _ Hls1).
      eapply (settles_at _ up' p r down (y :: rest)); subst e1; cbn; try zl; done.
    + replace (0 <? cur_line e) with false by (symmetry; zl). done.
Qed.

Lemma char_settles e b c :
  shows e b → c ≠ 0 →
  ∃ e1 r, key_char c e = Some (e1, r) ∧ settles (Some e1) (press (Char c) b) ∧
    (r = false → shows e1 (press (Char c) b)).
Proof.
  destruct b as [up s r down]. intros Hb Hc0. pose proof Hb as Hb'. key_start Hb. cbn [press].
  unfold key_char. destruct (get_page _ _ _ _ (cur_line e) Hp Hr) as (a & Ha & Ha').
  unfold get_line. line_step Ha. line_step (string_at_holds _ _ Ha').
  destruct (Z.ltb_spec (zlen (s ++ r)) FSEDIT_LINE_LEN); [| by exists e, false].
  rewrite Hm. change (1 =? 0) with false. cbv iota.
  assert (string_at (dropZ (cur_col e) a) = Some r) as Hst.
  { rewrite Hcol. destruct Ha' as [_ Hn [junk ->]]. rewrite <- (app_assoc s). by apply string_at_inside. }
  line_step Hst. destruct (type_byte _ _ _ c Ha' Hc0 H0) as (a1 & a2 & H1 & H2 & H3 & H4).
  rewrite Hcol. line_step H1. line_step H2.
  assert ((if zlen (s ++ r) <=? zlen s then put_byte a2 (zlen s + 1) 0 else Some a2) = Some a2) as E.
  { destruct (Z.leb_spec (zlen (s ++ r)) (zlen s)); [| done]. apply H4. destruct r; [done | zl]. }
  line_step E. destruct (put_page e up _ _ a2 _ (cur_line e) Hp H3 Hr) as (ls & Hput & Hls). line_step Hput.
  pose proof (page_length _ _ Hp). pose proof (page_length _ _ Hls).
  do 2 eexists. split; [reflexivity |]. split; [| done].
  eapply (settles_at _ up (s ++ [c]) r down rest); cbn; try zl; done.
Qed.

(** The key an arrow sequence stands for. *)
Definition arrow (c : Z) : keystroke :=
  if c =? ch "A" then Up else if c =? ch "B" then Down
  else if c =? ch "C" then Forward else if c =? ch "D" then Back else OtherKey.

Lemma arrow_settles e b c : shows e b → settles (key_arrow c e) (press (arrow c) b).
Proof.
  destruct b as [up s r down]. intros Hb. key_start Hb. unfold key_arrow, line_len, arrow.
  destruct (get_page _ _ _ _ (cur_line e) Hp Hr) as (a & Ha & Ha').
  unfold get_line. line_step Ha. line_step (string_at_holds _ _ Ha').
  pose proof (unsnoc_spec s) as Hsn. pose proof (unsnoc_spec up) as Hup.
  destruct (Z.eqb_spec c (ch "A")) as [-> |]; cbn [andb].
  { cbn [press]. change (ch "A" =? ch "B") with false. change (ch "A" =? ch "C") with false.
    change (ch "A" =? ch "D") with false. cbn [andb].
    destruct (unsnoc up) as [[up' p] |]; subst up.
    - replace (0 <? cur_line e) with true by (symmetry; zl). rewrite <- app_assoc in Hp.
      destruct (clamp_settles (set_cur_line (cur_line e - 1) e) up' p ((s ++ r) :: down) rest)
        as (e' & He & Hsh); cbn; try zl; try done.
      exists e'. split; [done |]. unfold at_col. by rewrite <- Hcol.
    - replace (0 <? cur_line e) with false by (symmetry; zl). done. }
  destruct (Z.eqb_spec c (ch "B")) as [-> |]; cbn [andb].
  { cbn [press]. change (ch "B" =? ch "C") with false. change (ch "B" =? ch "D") with false. cbn [andb].
    destruct down as [| next down].
    - replace (cur_line e <? line_count e - 1) with false by (symmetry; zl). done.
    - replace (cur_line e <? line_count e - 1) with true by (symmetry; zl).
      destruct (clamp_settles (set_cur_line (cur_line e + 1) e) (up ++ [s ++ r]) next down rest)
        as (e' & He & Hsh); cbn; try zl; try done; [by rewrite <- app_assoc |].
      exists e'. split; [done |]. unfold at_col. by rewrite <- Hcol. }
  destruct (Z.eqb_spec c (ch "C")) as [-> |]; cbn [andb].
  { cbn [press]. change (ch "C" =? ch "D") with false. cbn [andb]. destruct r as [| x r].
    - replace (cur_col e <? zlen (s ++ [])) with false by (symmetry; zl). done.
    - replace (cur_col e <? zlen (s ++ x :: r)) with true by (symmetry; zl).
      eapply (settles_at _ up (s ++ [x]) r down rest); cbn; try zl; try done.
      by rewrite <- (app_assoc s). }
  destruct (Z.eqb_spec c (ch "D")) as [-> |]; cbn [andb]; [| done].
  cbn [press]. destruct (unsnoc s) as [[s' x] |]; subst s.
  - replace (0 <? cur_col e) with true by (symmetry; zl).
    eapply (settles_at _ up s' (x :: r) down rest); cbn; try zl; try done.
    by rewrite <- (app_assoc s') in Hp.
  - by replace (0 <? cur_col e) with false by (symmetry; zl).
Qed.

(** ** The session *)

(** The key a byte stands for. *)
Definition plain_key (c : Z) : keystroke :=
  if c =? 0x13 then SaveKey else if c =? 0x01 then AbortKey
  else if c =? 0x19 then DeleteLine else if c =? 0x0E then InsertLine
  else if (c =? 13) || (c =? 10) then Enter
  else if (c =? 0x08) || (c =? 0x7F) then Backspace
  else if (0x20 <=? c) && (c <? 0x7F) then Char c else OtherKey.

(** The keys of the input: an escape takes the bytes that are there with it. *)
Fixpoint decode (dontwait : list Z → Z) (fuel : nat) (input : list Z) : list keystroke :=
  match fuel, input with
  | S fuel, c :: input =>
      if c =? 0x1B then
        (match takeZ (dontwait input) input with
         | [b0; b1] => if b0 =? ch "[" then arrow b1 else OtherKey
         | _ => OtherKey
         end) :: decode dontwait fuel (dropZ (dontwait input) input)
      else plain_key c :: decode dontwait fuel input
  | _, _ => []
  end.

(** The text of the lines, each with its end. *)
Definition lines_text (ls : list cstr) : cstr := concat ((λ l, l ++ CRLF) <$> ls).

Fixpoint run (text_cap : Z) (ks : list keystroke) (b : buffer) : outcome :=
  match ks with
  | [] => Lost
  | SaveKey :: _ => Saved (takeZ (text_cap - 1) (lines_text (text_lines b)))
  | AbortKey :: _ => Aborted
  | k :: ks => run text_cap ks (press k b)
  end.

Definition strip_cr (l : cstr) : cstr :=
  match unsnoc l with Some (k, c) => if c =? 13 then k else l | None => l end.
Definition kept (l : cstr) : cstr := takeZ FSEDIT_LINE_LEN (strip_cr l).

(** The first [n] lines of a text, cut to the width of the editor. *)
Fixpoint kept_lines (n : nat) (p : cstr) : list cstr :=
  match n, p with
  | S n, _ :: _ =>
      let '(l, nl) := split_nl p in
      kept l :: match nl with Some p => kept_lines n p | None => [] end
  | _, _ => []
  end.

Definition opened (text : cstr) : buffer :=
  match kept_lines (Z.to_nat FSEDIT_MAX_LINES) text with
  | [] => Buf [] [] [] []
  | l :: ls => Buf [] [] l ls
  end.

(** *** Saving *)

Lemma line_parts_lines ts : ∀ e pre post,
  page (lines e) (pre ++ ts ++ post) →
  line_parts e (length ts) (zlen pre) = Some (concat ((λ s, [s; CRLF]) <$> ts)).
Proof.
  induction ts as [| s ts IH]; intros e pre post Hp; [done |].
  cbn [length line_parts]. destruct (get_page _ _ _ _ (zlen pre) Hp eq_refl) as (a & Ha & Ha').
  unfold get_line. line_step Ha. line_step (string_at_holds _ _ Ha').
  replace (zlen pre + 1) with (zlen (pre ++ [s])) by zl.
  rewrite (IH e (pre ++ [s]) post) by (by rewrite <- app_assoc). done.
Qed.

Lemma save_parts_fits cap parts : ∀ out,
  zlen out <= cap - 1 → save_parts cap parts out = takeZ (cap - 1) (out ++ concat parts).
Proof.
  induction parts as [| p parts IH]; intros out Hout; cbn [save_parts].
  - cbn. rewrite app_nil_r. symmetry. unfold takeZ, zlen in *. apply take_ge. lia.
  - destruct (Z.ltb_spec (zlen out) cap); [| lia].
    destruct (Z.eqb_spec (cap - zlen out - 1) 0).
    + replace (cap - 1) with (zlen out) by lia. by rewrite takeZ_app.
    + rewrite IH; cbn [concat];
        unfold takeZ, zlen in *; rewrite ?length_app, ?length_take; [| lia].
      rewrite <- app_assoc, !take_app. f_equal.
      rewrite length_take, take_take.
      replace (Z.to_nat (cap - 1) - length out)%nat with (Z.to_nat (cap - Z.of_nat (length out) - 1))
        by lia.
      f_equal; [f_equal; lia |].
      destruct (Nat.le_gt_cases (length p) (Z.to_nat (cap - Z.of_nat (length out) - 1))).
      * f_equal. lia.
      * rewrite !(proj2 (Nat.sub_0_le _ _)); [done | lia | lia].
Qed.

Lemma parts_text ts : concat (concat ((λ s, [s; CRLF]) <$> ts)) = lines_text ts.
Proof.
  unfold lines_text. induction ts as [| s ts IH]; [done |].
  cbn. rewrite <- app_assoc. do 2 f_equal. cbn in IH. by rewrite IH.
Qed.

Lemma save_shows e b cap :
  shows e b → 0 < cap →
  save_text e cap = Some (takeZ (cap - 1) (lines_text (text_lines b))).
Proof.
  intros [[rest Hp] _ Hc _ _ _ _] Hcap. unfold save_text.
  replace (Z.to_nat (line_count e)) with (length (text_lines b))
    by (rewrite Hc; unfold text_lines, zlen; rewrite length_app; cbn; lia).
  pose proof (line_parts_lines (text_lines b) e [] rest) as Hl. rewrite zlen_nil in Hl.
  rewrite Hl by (unfold text_lines; rewrite <- app_assoc; done).
  cbn [mbind option_bind]. by rewrite save_parts_fits, app_nil_l, parts_text by (rewrite zlen_nil; lia).
Qed.

(** *** Drawing *)

Lemma nth_page ls L i : page ls L → 0 <= i < zlen ls → ∃ a s, nthZ ls i = Some a ∧ holds a s.
Proof.
  intros Hp Hi. destruct (nthZ_lookup ls i Hi) as [a Ha]. exists a. unfold nthZ in Ha.
  destruct (i <? 0); [done |]. destruct (Forall2_lookup_l _ _ _ _ _ Hp Ha) as (s & _ & Hs).
  exists s. split; [| done]. unfold nthZ. by destruct (Z.ltb_spec i 0); [lia |].
Qed.

Lemma show_lines_some L e n : ∀ i,
  page (lines e) L → 0 <= i → i + Z.of_nat n <= zlen (lines e) → ∃ o, show_lines e n i = Some o.
Proof.
  induction n as [| n IH]; intros i Hp Hi Hn; [by eexists |]. cbn [show_lines]. unfold show_line, get_line.
  destruct (nth_page _ _ i Hp) as (a & s & Ha & Hs); [lia |]. line_step Ha.
  line_step (string_at_holds _ _ Hs). destruct (IH (i + 1) Hp) as [o Ho]; [lia | lia |].
  line_step Ho. by eexists.
Qed.

(** Drawing puts the cursor in bounds, and never fails. *)
Lemma redraw_shows e b : shows e b → ∃ e' o, fsedit_redraw e = Some (e', o) ∧ shows e' b.
Proof.
  intros Hb. destruct (settles_same _ _ Hb) as (e' & He & Hb'). cbn in He.
  unfold fsedit_redraw. line_step He.
  destruct (shows_page _ _ Hb') as [rest Hp]. pose proof (page_length _ _ Hp).
  pose proof Hb' as [_ Hs Hc Hr Hcol Hm Hv].
  destruct (show_lines_some _ e' (Z.to_nat ((if line_count e' <? top_line e' + FSEDIT_VIEW_LINES
    then line_count e' else top_line e' + FSEDIT_VIEW_LINES) - top_line e')) (top_line e') Hp) as [o Ho].
  { lia. }
  { destruct (Z.ltb_spec (line_count e') (top_line e' + FSEDIT_VIEW_LINES)); zl. }
  line_step Ho. by do 2 eexists.
Qed.

(** *** Loading *)

Lemma kept_len_kept l : kept_len l = zlen (kept l) ∧ ∃ r, l = kept l ++ r.
Proof.
  assert (∃ r, l = strip_cr l ++ r ∧
    (if (0 <? zlen l) && bool_decide (nthZ l (zlen l - 1) = Some 13) then zlen l - 1 else zlen l)
    = zlen (strip_cr l)) as (r & Hr & Hlen).
  { pose proof (unsnoc_spec l) as H. unfold strip_cr. destruct (unsnoc l) as [[k c] |]; subst l.
    - replace (zlen (k ++ [c]) - 1) with (zlen k) by zl. rewrite nthZ_mid.
      replace (0 <? zlen (k ++ [c])) with true by (symmetry; zl). cbn [andb].
      destruct (Z.eqb_spec c 13) as [-> | Hc].
      + exists [13]. rewrite bool_decide_true by done. done.
      + exists []. rewrite bool_decide_false by congruence. by rewrite app_nil_r.
    - by exists []. }
  unfold kept_len. rewrite Hlen. unfold kept. split.
  - unfold takeZ, zlen. rewrite length_take. unfold FSEDIT_LINE_LEN.
    destruct (Z.ltb_spec 78 (Z.of_nat (length (strip_cr l)))); lia.
  - exists (dropZ FSEDIT_LINE_LEN (strip_cr l) ++ r). unfold takeZ, dropZ.
    by rewrite app_assoc, take_drop.
Qed.

Lemma kept_short l : zlen (kept l) <= FSEDIT_LINE_LEN.
Proof. unfold kept, takeZ, zlen, FSEDIT_LINE_LEN. rewrite length_take. lia. Qed.

Lemma store_line a s l k r :
  holds a s → l = k ++ r → no_nul l → zlen k <= FSEDIT_LINE_LEN →
  ∃ a1 a2, memmove a 0 l 0 (zlen k) = Some a1 ∧ put_byte a1 (zlen k) 0 = Some a2 ∧ holds a2 k.
Proof.
  intros Ha -> [Hk _]%Forall_app Hlen. pose proof (holds_size _ _ Ha).
  destruct (cut_at (zlen k) a) as (q & t & -> & Hq & _); [zl |].
  destruct t as [| x t]; [zl |]. exists (k ++ x :: t), (k ++ 0 :: t). split_and!.
  - by apply (memmove_block _ _ [] q (x :: t) [] k r).
  - apply put_byte_mid.
  - apply holds_of; [done | zl].
Qed.

Lemma split_nl_no_nul p l nl : no_nul p → split_nl p = (l, nl) →
  no_nul l ∧ match nl with Some q => no_nul q | None => True end.
Proof.
  intros Hp. revert l nl. induction Hp as [| c p Hc Hp IH]; intros l nl; cbn; [by intros [= <- <-] |].
  destruct (c =? 10); [by intros [= <- <-] |]. destruct (split_nl p) as [l' nl'].
  destruct (IH l' nl' eq_refl) as [? ?]. intros [= <- <-]. split; [by constructor | done].
Qed.

Lemma load_lines_shows fuel : ∀ p e pre post,
  page (lines e) (pre ++ post) → line_count e = zlen pre → (fuel <= length post)%nat → no_nul p →
  ∃ ls post', load_lines fuel p e =
      Some (set_line_count (zlen (pre ++ kept_lines fuel p)) (set_lines ls e)) ∧
    page ls ((pre ++ kept_lines fuel p) ++ post') ∧ zlen ls = zlen (lines e).
Proof.
  induction fuel as [| fuel IH]; intros p e pre post Hp Hc Hf Hn.
  - exists (lines e), post. cbn. rewrite app_nil_r. split_and!; try done. destruct e. cbn in *. by subst.
  - destruct p as [| c p].
    { exists (lines e), post. cbn. rewrite app_nil_r. split_and!; try done. destruct e. cbn in *. by subst. }
    cbn [load_lines kept_lines]. destruct (split_nl (c :: p)) as [l nl] eqn:El.
    destruct (split_nl_no_nul _ _ _ Hn El) as [Hl Hnl].
    destruct post as [| s post]; [cbn in Hf; lia |].
    destruct (get_page _ _ _ _ (line_count e) Hp Hc) as (a & Ha & Ha'). unfold get_line. line_step Ha.
    destruct (kept_len_kept l) as [-> [r Hr]].
    destruct (store_line a s l (kept l) r Ha' Hr Hl (kept_short l)) as (a1 & a2 & H1 & H2 & H3).
    line_step H1. line_step H2.
    destruct (put_page e pre s post a2 _ (line_count e) Hp H3 Hc) as (ls & Hput & Hls). line_step Hput.
    pose proof (page_length _ _ Hp). pose proof (page_length _ _ Hls).
    destruct nl as [q |].
    + destruct (IH q (set_line_count (line_count e + 1) (set_lines ls e)) (pre ++ [kept l]) post)
        as (ls' & post' & E & Hls' & Hz); [by rewrite <- app_assoc | cbn; zl | cbn in Hf; lia | done |].
      rewrite <- app_assoc in E. rewrite <- !app_assoc in Hls'.
      exists ls', post'. split_and!; [exact E | by rewrite <- app_assoc |].
      rewrite Hz. cbn. zl.
    + exists ls, post. cbn. rewrite <- app_assoc. split_and!; [| done | zl].
      do 2 f_equal. zl.
Qed.

Lemma blank_page : page (lines blank_editor) (replicate (Z.to_nat FSEDIT_MAX_LINES) []).
Proof.
  apply Forall2_replicate. replace (replicate _ 0) with ([] ++ 0 :: replicate 78 0) by done.
  by apply holds_of.
Qed.

Lemma load_shows text : no_nul text → ∃ e, load_text text = Some e ∧ shows e (opened text).
Proof.
  intros Hn. unfold load_text. case_bool_decide as Ht.
  - subst. exists blank_editor. split; [done |]. change (opened []) with (Buf [] [] [] []).
    split; cbn; try done. exists (replicate 49 []). exact blank_page.
  - destruct (load_lines_shows (Z.to_nat FSEDIT_MAX_LINES) text (set_line_count 0 blank_editor) []
      (replicate (Z.to_nat FSEDIT_MAX_LINES) [])) as (ls & post & E & Hp & Hz);
      [exact blank_page | done | by rewrite length_replicate | done |].
    line_step E. cbn [app] in *. unfold opened.
    destruct (kept_lines (Z.to_nat FSEDIT_MAX_LINES) text) as [| l ks] eqn:Ek.
    { destruct text as [| c p]; [done |]. exfalso. revert Ek.
      change (Z.to_nat FSEDIT_MAX_LINES) with 50%nat. cbn [kept_lines].
      destruct (split_nl (c :: p)) as [l [q |]]; done. }
    cbn. destruct (Z.eqb_spec (zlen (l :: ks)) 0); [zl |]. eexists. split; [done |].
    split; cbn; try done; [by exists post | zl].
Qed.

(** *** The keys *)

(** A byte other than an escape, a save and an abort. *)
Lemma key_shows c e b :
  shows e b → c ≠ 0x1B → c ≠ 0x13 → c ≠ 0x01 →
  ∃ e' r, key c e = Some (e', r) ∧ shows e' (press (plain_key c) b).
Proof.
  intros Hb H1 H2 H3. unfold key, plain_key.
  destruct (Z.eqb_spec c 0x13); [done |]. destruct (Z.eqb_spec c 0x01); [done |].
  destruct (c =? 0x19).
  { destruct (delete_line_settles _ _ Hb) as (e' & He & Hb'). exists e', true. split; [| done].
    destruct (key_delete_line e); [| done]. cbn in *. by line_step He. }
  destruct (c =? 0x0E).
  { destruct (insert_line_settles _ _ Hb) as (e' & He & Hb'). exists e', true. split; [| done].
    destruct (key_insert_line e); [| done]. cbn in *. by line_step He. }
  destruct ((c =? 13) || (c =? 10)).
  { destruct (enter_settles _ _ Hb) as (e' & He & Hb'). exists e', true. split; [| done].
    destruct (key_enter e); [| done]. cbn in *. by line_step He. }
  destruct ((c =? 0x08) || (c =? 0x7F)).
  { destruct (backspace_settles _ _ Hb) as (e' & He & Hb'). exists e', true. split; [| done].
    destruct (key_backspace e); [| done]. cbn in *. by line_step He. }
  destruct (Z.leb_spec 0x20 c); cbn [andb]; [destruct (c <? 0x7F) |];
    [| by exists e, false; destruct b | by exists e, false; destruct b].
  destruct (char_settles e b c Hb) as (e1 & r & Hk & (e' & He & Hb') & Hf); [lia |].
  rewrite Hk. cbn [mbind option_bind]. cbn in He. destruct r.
  - line_step He. by exists e', true.
  - exists e1, false. split; [done | by apply Hf].
Qed.

Lemma press_other b : press OtherKey b = b.
Proof. by destruct b. Qed.

Lemma run_press cap c ks b :
  c ≠ 0x13 → c ≠ 0x01 → run cap (plain_key c :: ks) b = run cap ks (press (plain_key c) b).
Proof.
  intros H1 H2. unfold plain_key.
  destruct (Z.eqb_spec c 0x13); [done |]. destruct (Z.eqb_spec c 0x01); [done |].
  by repeat match goal with |- context [if ?x then _ else _] => destruct x end.
Qed.

Lemma run_arrow cap c ks b : run cap (arrow c :: ks) b = run cap ks (press (arrow c) b).
Proof.
  unfold arrow. by repeat match goal with |- context [if ?x then _ else _] => destruct x end.
Qed.

Lemma edit_loop_runs dontwait cap fuel : ∀ input e b out,
  0 < cap → shows e b → (length input < fuel)%nat →
  ∃ out', edit_loop dontwait cap fuel input e out =
    Some (run cap (decode dontwait fuel input) b, out').
Proof.
  induction fuel as [| fuel IH]; intros input e b out Hcap Hb Hf; [lia |].
  destruct input as [| c input]; [by eexists |]. cbn in Hf. cbn [edit_loop decode].
  destruct (Z.eqb_spec c 0x1B) as [-> | Hesc].
  - set (rest := dropZ (dontwait input) input).
    assert (length rest < fuel)%nat by (subst rest; unfold dropZ; rewrite length_drop; lia).
    destruct (takeZ (dontwait input) input) as [| b0 [| b1 [| ? ?]]];
      try (cbn [run]; rewrite press_other; by eapply IH).
    destruct (b0 =? ch "["); [| cbn [run]; rewrite press_other; by eapply IH].
    destruct (arrow_settles _ _ b1 Hb) as (e1 & He & Hb1).
    destruct (key_arrow b1 e) as [e0 |]; [| done].
    cbn [mbind option_bind] in He |- *. line_step He.
    destruct (redraw_shows _ _ Hb1) as (e2 & o & Ho & Hb2). line_step Ho.
    destruct (IH rest e2 _ (out ++ o) Hcap Hb2) as [out' E]; [done |].
    exists out'. by rewrite E, run_arrow.
  - destruct (Z.eqb_spec c 0x13) as [-> | Hs].
    { line_step (save_shows _ _ _ Hb Hcap). by eexists. }
    destruct (Z.eqb_spec c 0x01) as [-> | Ha]; [by eexists |].
    destruct (key_shows c e b Hb Hesc Hs Ha) as (e1 & r & Hk & Hb1). line_step Hk.
    rewrite run_press by done. destruct r.
    + destruct (redraw_shows _ _ Hb1) as (e2 & o & Ho & Hb2). line_step Ho.
      eapply IH; [done | done | lia].
    + eapply IH; [done | done | lia].
Qed.

(** ** Saved text *)

(** A line that fits in the editor and keeps to itself, and a buffer of them. *)
Definition line_ok (l : cstr) : Prop := zlen l <= FSEDIT_LINE_LEN ∧ Forall (λ c, c ≠ 0 ∧ c ≠ 10) l.
Definition text_ok (ls : list cstr) : Prop := zlen ls <= FSEDIT_MAX_LINES ∧ Forall line_ok ls.

Definition key_ok (k : keystroke) : Prop := match k with Char c => c ≠ 0 ∧ c ≠ 10 | _ => True end.

Lemma arrow_ok c : key_ok (arrow c).
Proof. unfold arrow. by repeat case_match. Qed.

Lemma plain_key_ok c : key_ok (plain_key c).
Proof.
  unfold plain_key. repeat match goal with |- context [if ?x then _ else _] => destruct x eqn:? end;
    try done. cbn. lia.
Qed.

Lemma decode_ok dontwait fuel : ∀ input, Forall key_ok (decode dontwait fuel input).
Proof.
  induction fuel as [| fuel IH]; intros [| c input]; cbn [decode]; try constructor.
  destruct (c =? 0x1B); constructor; auto using plain_key_ok.
  repeat case_match; try done. apply arrow_ok.
Qed.

Lemma line_ok_app s r :
  line_ok (s ++ r) ↔ zlen s + zlen r <= FSEDIT_LINE_LEN ∧
    Forall (λ c, c ≠ 0 ∧ c ≠ 10) s ∧ Forall (λ c, c ≠ 0 ∧ c ≠ 10) r.
Proof. unfold line_ok. by rewrite zlen_app, Forall_app. Qed.

Lemma text_ok_buf up s r down :
  text_ok (text_lines (Buf up s r down)) ↔
  (zlen up + 1 + zlen down <= FSEDIT_MAX_LINES ∧ zlen s + zlen r <= FSEDIT_LINE_LEN) ∧
  Forall line_ok up ∧ Forall line_ok down ∧
  Forall (λ c, c ≠ 0 ∧ c ≠ 10) s ∧ Forall (λ c, c ≠ 0 ∧ c ≠ 10) r.
Proof.
  unfold text_ok, text_lines, line_at. cbn [above before after below].
  rewrite Forall_app, Forall_cons, line_ok_app, zlen_app, zlen_cons.
  intuition lia.
Qed.

Ltac ok_facts :=
  rewrite ?text_ok_buf, ?Forall_app, ?Forall_cons, ?Forall_nil, ?line_ok_app in *;
  repeat match goal with H : _ ∧ _ |- _ => destruct H end.

Lemma press_ok k b : key_ok k → text_ok (text_lines b) → text_ok (text_lines (press k b)).
Proof.
  intros Hk Hb'. pose proof Hb' as Hb.
  destruct b as [up s r down]. pose proof (unsnoc_spec up) as Hup. pose proof (unsnoc_spec s) as Hs.
  rewrite text_ok_buf in Hb.
  destruct k; cbn [press key_ok] in *; unfold has_room; try exact Hb'.
  all: repeat match goal with
    | |- context [unsnoc ?l] => destruct (unsnoc l) as [[? ?] |]; try subst l
    | |- context [if ?a <? ?b then _ else _] => destruct (Z.ltb_spec a b)
    | |- context [if ?a <=? ?b then _ else _] => destruct (Z.leb_spec a b)
    | |- context [match ?l with [] => _ | _ :: _ => _ end] => is_var l; destruct l
    end; try exact Hb'; unfold at_col;
    try match goal with |- context [takeZ ?n ?l] =>
      pose proof (take_drop (Z.to_nat n) l) as Htd; fold (takeZ n l) (dropZ n l) in Htd;
      set (x := takeZ n l) in *; set (y := dropZ n l) in *; clearbody x y; subst l end;
    clear Hb'; apply text_ok_buf; ok_facts; split_and!; auto;
    unfold FSEDIT_MAX_LINES, FSEDIT_LINE_LEN, text_lines, line_at in *; cbn in * |-; try zl.
  all: unfold line_ok in *; repeat match goal with H : _ ∧ _ |- _ => destruct H end;
    unfold FSEDIT_LINE_LEN in *; try split; auto; zl.
Qed.

Lemma run_saved cap ks b t :
  Forall key_ok ks → text_ok (text_lines b) → run cap ks b = Saved t →
  ∃ ls, text_ok ls ∧ ls ≠ [] ∧ t = takeZ (cap - 1) (lines_text ls).
Proof.
  intros Hks. revert b. induction Hks as [| k ks Hk _ IH]; intros b Hb; [done |].
  pose proof (press_ok k b Hk Hb). destruct k; cbn [run]; try (by apply IH); [| done].
  intros [= <-]. exists (text_lines b). split_and!; [done | | done].
  unfold text_lines. by destruct (above b).
Qed.

(** *** What is opened *)

Lemma split_nl_line l rest : Forall (λ c, c ≠ 10) l → split_nl (l ++ 10 :: rest) = (l, Some rest).
Proof.
  induction 1 as [| c l Hc _ IH]; [done |]. cbn. destruct (Z.eqb_spec c 10); [done |]. by rewrite IH.
Qed.

Lemma kept_cr l : line_ok l → kept (l ++ [13]) = l.
Proof.
  intros [Hl _]. unfold kept, strip_cr, unsnoc. rewrite reverse_snoc, reverse_involutive. cbn.
  unfold takeZ, zlen, FSEDIT_LINE_LEN in *. apply take_ge. lia.
Qed.

(** Text in the form it is saved in is opened as the lines it was. *)
Lemma kept_lines_text ls : ∀ n,
  (length ls <= n)%nat → Forall line_ok ls → kept_lines n (lines_text ls) = ls.
Proof.
  induction ls as [| l ls IH]; intros n Hn Hok; [by destruct n |].
  apply Forall_cons in Hok as [Hl Hls]. destruct n as [| n]; [cbn in Hn; lia |].
  assert (lines_text (l :: ls) = (l ++ [13]) ++ 10 :: lines_text ls) as ->
    by (unfold lines_text; cbn; by rewrite <- !app_assoc).
  cbn [kept_lines]. rewrite split_nl_line.
  - rewrite kept_cr by done. rewrite IH; [| cbn in Hn; lia | done]. by destruct l.
  - apply Forall_app. split; [| by repeat constructor].
    destruct Hl as [_ Hl]. eapply Forall_impl; [exact Hl |]. by intros c [].
Qed.

Lemma kept_prefix l : ∃ r, l = kept l ++ r.
Proof. apply kept_len_kept. Qed.

Lemma kept_line_ok l : Forall (λ c, c ≠ 0 ∧ c ≠ 10) l → line_ok (kept l).
Proof.
  intros Hl. split; [apply kept_short |]. destruct (kept_prefix l) as [r Hr].
  rewrite Hr in Hl. by apply Forall_app in Hl as [? _].
Qed.

Lemma split_nl_ok p l nl : no_nul p → split_nl p = (l, nl) → Forall (λ c, c ≠ 0 ∧ c ≠ 10) l.
Proof.
  intros Hp. revert l nl. induction Hp as [| c p Hc Hp IH]; intros l nl; cbn; [by intros [= <- <-] |].
  destruct (Z.eqb_spec c 10); [by intros [= <- <-] |]. destruct (split_nl p) as [l' nl'].
  intros [= <- <-]. constructor; [done |]. by eapply IH.
Qed.

Lemma kept_lines_ok n : ∀ p, no_nul p → Forall line_ok (kept_lines n p) ∧ (length (kept_lines n p) <= n)%nat.
Proof.
  induction n as [| n IH]; intros [| c p] Hp; cbn [kept_lines length]; try (split; [done | lia]).
  destruct (split_nl (c :: p)) as [l nl] eqn:El.
  destruct (split_nl_no_nul _ _ _ Hp El) as [_ Hnl].
  pose proof (kept_line_ok l (split_nl_ok _ _ _ Hp El)).
  destruct nl as [q |]; cbn [length]; [| split; [by apply Forall_singleton | lia]].
  destruct (IH q Hnl). split; [by constructor | lia].
Qed.

Lemma opened_ok text : no_nul text → text_ok (text_lines (opened text)).
Proof.
  intros Hn. unfold opened.
  destruct (kept_lines_ok (Z.to_nat FSEDIT_MAX_LINES) text Hn) as [Hok Hlen].
  destruct (kept_lines _ text) as [| l ls].
  - split; [done |]. apply Forall_singleton. by split.
  - split; [| done]. unfold FSEDIT_MAX_LINES, text_lines, zlen in *. cbn [above before after below] in *.
    cbn in *. lia.
Qed.

Lemma opened_text ls : text_ok ls → ls ≠ [] → text_lines (opened (lines_text ls)) = ls.
Proof.
  intros [Hn Hok] Hne. unfold opened, FSEDIT_MAX_LINES, zlen in *.
  rewrite kept_lines_text; [| lia | done]. by destruct ls.
Qed.

Lemma lines_text_no_nul ls : Forall line_ok ls → no_nul (lines_text ls).
Proof.
  induction 1 as [| l ls [_ Hl] _ IH]; [done |].
  unfold lines_text. cbn. rewrite <- app_assoc. apply Forall_app. split.
  - eapply Forall_impl; [exact Hl |]. by intros c [].
  - by repeat constructor.
Qed.

Lemma lines_text_length ls : Forall line_ok ls → zlen (lines_text ls) <= 80 * zlen ls.
Proof.
  induction 1 as [| l ls [Hl _] _ IH]; [done |].
  unfold lines_text. cbn [fmap list_fmap concat]. fold (lines_text ls).
  unfold FSEDIT_LINE_LEN in Hl. assert (zlen CRLF = 2) by done. zl.
Qed.

(** ** What the editor promises *)

(** C30. A session in the full-screen editor does to the text what its keys do to a
    text buffer: whatever the bytes that arrive, no key reads or writes outside of
    the lines, the session ends when the input does, and what is saved, when the
    save key is pressed, is the text of the buffer, as much as the caller has room
    for. *)
Theorem editor_is_a_text_buffer dontwait cap input text :
  no_nul text → 0 < cap →
  ∃ out, fsedit_edit dontwait cap (S (length input)) input text =
    Some (run cap (decode dontwait (S (length input)) input) (opened text), out).
Proof.
  intros Hn Hcap. unfold fsedit_edit. destruct (Z.eqb_spec cap 0); [lia |].
  destruct (load_shows text Hn) as (e & He & Hb). line_step He.
  destruct (redraw_shows _ _ Hb) as (e' & o & Ho & Hb'). line_step Ho.
  apply edit_loop_runs; [done | done | lia].
Qed.

(** What the editor saves, with room for all of it, is opened again as it was:
    saving it at once gives the same text. *)
Theorem saved_text_opens_again dontwait cap input text t out :
  no_nul text → 4001 <= cap →
  fsedit_edit dontwait cap (S (length input)) input text = Some (Saved t, out) →
  ∃ out', fsedit_edit dontwait cap 2 [0x13] t = Some (Saved t, out').
Proof.
  intros Hn Hcap. unfold fsedit_edit. destruct (Z.eqb_spec cap 0); [lia |].
  destruct (load_shows text Hn) as (e & He & Hb). line_step He.
  destruct (redraw_shows _ _ Hb) as (e' & o & Ho & Hb'). line_step Ho.
  destruct (edit_loop_runs dontwait cap (S (length input)) input e' (opened text) o) as [out' E];
    [lia | done | lia |].
  rewrite E. intros Heq.
  assert (run cap (decode dontwait (S (length input)) input) (opened text) = Saved t) as Hrun
    by congruence.
  destruct (run_saved _ _ _ _ (decode_ok _ _ _) (opened_ok _ Hn) Hrun) as (ls & [Hlen Hok] & Hne & Ht).
  assert (t = lines_text ls) as ->.
  { subst t. pose proof (lines_text_length _ Hok). unfold FSEDIT_MAX_LINES, takeZ, zlen in *.
    apply take_ge. lia. }
  destruct (load_shows _ (lines_text_no_nul _ Hok)) as (e1 & He1 & Hb1). line_step He1.
  destruct (redraw_shows _ _ Hb1) as (e2 & o2 & Ho2 & Hb2). line_step Ho2.
  destruct (edit_loop_runs dontwait cap 2 [0x13] e2 (opened (lines_text ls)) o2) as [out2 E2]; [lia | done | cbn; lia |].
  exists out2. rewrite E2. change (Some (Saved (takeZ (cap - 1) (lines_text (text_lines (opened (lines_text ls))))), out2) =
    Some (Saved (lines_text ls), out2)).
  do 3 f_equal.
  rewrite opened_text by done. pose proof (lines_text_length _ Hok).
  unfold FSEDIT_MAX_LINES, takeZ, zlen in *. apply take_ge. lia.
Qed.

Lemma editor_is_a_text_buffer_witness :
  ∃ out, fsedit_edit (λ _, 2) 4096 17
      (lit "Hi" ++ [13] ++ lit "yo!" ++ [27; ch "["; ch "D"; 8; 27; ch "["; ch "A"; 0x0E; 0x13; 7])
      (lit "one" ++ [13; 10]) = Some (Saved (lit "Hi" ++ CRLF ++ CRLF ++ lit "y!one" ++ CRLF), out).
Proof.
  apply (editor_is_a_text_buffer (λ _, 2) 4096
    (lit "Hi" ++ [13] ++ lit "yo!" ++ [27; ch "["; ch "D"; 8; 27; ch "["; ch "A"; 0x0E; 0x13; 7])
    (lit "one" ++ [13; 10])); [repeat constructor; done | done].
Defined.

Lemma saved_text_opens_again_witness :
  ∃ out, fsedit_edit (λ _, 0) 4096 2 [0x13] (lit "b" ++ CRLF ++ lit "a" ++ CRLF) =
    Some (Saved (lit "b" ++ CRLF ++ lit "a" ++ CRLF), out).
Proof.
  eapply (saved_text_opens_again (λ _, 0) 4096 [ch "b"; 13; 0x13] (lit "a"));
    [repeat constructor; done | done | vm_compute; reflexivity].
Defined.

(** The editor reads the connection itself: the telnet filter is not asked, and
    what a terminal says about its window while the text is edited is typed
    into it. *)
Lemma window_size_is_typed :
  ∃ out, fsedit_edit (λ _, 0) 4096 11 ([255; 250; 31; 0; 80; 0; 24; 255; 240] ++ [0x13]) [] =
    Some (Saved (lit "P" ++ CRLF), out).
Proof. eexists. vm_compute. reflexivity. Qed.

(** Both bytes of the end of a line as terminals send it open a line. *)
Lemma line_end_opens_two_lines :
  ∃ out, fsedit_edit (λ _, 0) 4096 5 (lit "A" ++ [13; 10] ++ [0x13]) [] =
    Some (Saved (lit "A" ++ CRLF ++ CRLF ++ CRLF), out).
Proof. eexists. vm_compute. reflexivity. Qed.
