(* ===== verification/MtsText.v ===== *)
(** The texts of the teleconference: plugins/chat/mts_render.c, and the
    functions on strings of mts_state.c and chat.c. A string is its bytes before
    the final zero; a read past that zero is undefined: [None]. *)

From S2P Require Import Prelude CLib.
#[local] Open Scope Z_scope.

Definition MTS_NAME : Z := 64.
Definition MTS_TOPIC : Z := 256.
Definition MTS_TEXT : Z := 513.

(** [snprintf(dst, cap, "%s", s)] for a buffer that is not empty. *)
Definition copy_to (cap : Z) (s : cstr) : cstr := takeZ (cap - 1) s.

(** Equality of strings, and up to case. *)
Definition str_eq (a b : cstr) : bool := bool_decide (a = b).
Definition strcase_eq (a b : cstr) : bool := str_eq (tolower <$> a) (tolower <$> b).

(** The text before the first byte [c] and what is after it. *)
Fixpoint split_at (c : Z) (s : cstr) : cstr * option cstr :=
  match s with
  | [] => ([], None)
  | x :: s => if x =? c then ([], Some s) else let '(l, r) := split_at c s in (x :: l, r)
  end.

(** ** UTF-8 *)

(** [s[k]]. *)
Definition get (s : cstr) (k : Z) : option Z := nthZ (s ++ [0]) k.

(** [a && b] *)
Definition and_then (a b : option bool) : option bool :=
  match a with Some true => b | _ => a end.
#[local] Infix "&&&" := and_then (at level 40, left associativity).

Definition nonzero (s : cstr) (k : Z) : option bool := c ← get s k; Some (negb (c =? 0)).
Definition continues (s : cstr) (k : Z) : option bool := c ← get s k; Some (Z.land c 0xc0 =? 0x80).

(** The bytes of the first character, 0 of them when there is none that is
    encoded rightly, and its code point.
    plugins/chat/mts_render.c:7-31 (decode) *)
Definition decode (s : cstr) : option (Z * Z) :=
  s0 ← get s 0;
  if s0 <? 0x80 then Some (1, s0)
  else
    two ← Some ((0xc2 <=? s0) && (s0 <=? 0xdf)) &&& continues s 1;
    if two : bool then
      s1 ← get s 1;
      Some (2, Z.lor (Z.shiftl (Z.land s0 31) 6) (Z.land s1 63))
    else
      three ← Some ((0xe0 <=? s0) && (s0 <=? 0xef)) &&& nonzero s 1 &&& nonzero s 2 &&&
        continues s 1 &&& continues s 2 &&&
        (s1 ← get s 1; Some (negb ((s0 =? 0xe0) && (s1 <? 0xa0)))) &&&
        (s1 ← get s 1; Some (negb ((s0 =? 0xed) && (0xa0 <=? s1))));
      if three : bool then
        s1 ← get s 1; s2 ← get s 2;
        Some (3, Z.lor (Z.lor (Z.shiftl (Z.land s0 15) 12) (Z.shiftl (Z.land s1 63) 6)) (Z.land s2 63))
      else
        four ← Some ((0xf0 <=? s0) && (s0 <=? 0xf4)) &&& nonzero s 1 &&& nonzero s 2 &&& nonzero s 3 &&&
          continues s 1 &&& continues s 2 &&& continues s 3 &&&
          (s1 ← get s 1; Some (negb ((s0 =? 0xf0) && (s1 <? 0x90)))) &&&
          (s1 ← get s 1; Some (negb ((s0 =? 0xf4) && (0x90 <=? s1))));
        if four : bool then
          s1 ← get s 1; s2 ← get s 2; s3 ← get s 3;
          Some (4, Z.lor (Z.lor (Z.lor (Z.shiftl (Z.land s0 7) 18) (Z.shiftl (Z.land s1 63) 12))
            (Z.shiftl (Z.land s2 63) 6)) (Z.land s3 63))
        else Some (0, ch "?").

(** The columns of a character.
    plugins/chat/mts_render.c:32-43 (cells) *)
Definition cells (cp : Z) : Z :=
  let within a b := (a <=? cp) && (cp <=? b) in
  if within 0x300 0x36f || within 0x1ab0 0x1aff || within 0x1dc0 0x1dff || within 0xfe00 0xfe0f then 0
  else if (0x1100 <=? cp) &&
    ((cp <=? 0x115f) || (cp =? 0x2329) || (cp =? 0x232a) || within 0x2e80 0xa4cf ||
     within 0xac00 0xd7a3 || within 0xf900 0xfaff || within 0xfe10 0xfe6f ||
     within 0xff00 0xff60 || within 0x1f300 0x1faff) then 2
  else 1.

(** A byte that is left out.
    plugins/chat/mts_render.c:51-54 (mts_utf8_sanitize) *)
Definition control (c : Z) : bool :=
  (c =? 0x1b) || (c =? 0x7f) || ((c <? 0x20) && negb (c =? 9)).

(** [fuel] is the number of bytes left.
    plugins/chat/mts_render.c:50-68 (mts_utf8_sanitize) *)
Fixpoint sanitize_loop (fuel : nat) (cap : Z) (p out : cstr) : option cstr :=
  match p with
  | [] => Some out
  | c :: p' =>
      if zlen out + 1 <? cap then
        match fuel with
        | O => None
        | S fuel =>
            if control c then sanitize_loop fuel cap p' out
            else
              '(n, _) ← decode p;
              if n =? 0 then sanitize_loop fuel cap p' (out ++ [ch "?"])
              else if cap <=? zlen out + n then Some out
              else sanitize_loop fuel cap (dropZ n p) (out ++ takeZ n p)
        end
      else Some out
  end.

(** The text in a buffer of [cap] bytes, another one than the source.
    plugins/chat/mts_render.c:44-71 (mts_utf8_sanitize) *)
Definition mts_sanitize (cap : Z) (s : cstr) : option cstr := sanitize_loop (length s) cap s [].

(** The rest of the text after an escape sequence: [s[i++] != 'm'].
    plugins/chat/mts_render.c:75-80 (mts_display_width) *)
Fixpoint skip_escape (p : cstr) : cstr :=
  match p with [] => [] | c :: p => if c =? ch "m" then p else skip_escape p end.

(** plugins/chat/mts_render.c:72-87 (mts_display_width) *)
Fixpoint display_width (fuel : nat) (p : cstr) (w : Z) : option Z :=
  match p with
  | [] => Some w
  | c :: p' =>
      match fuel with
      | O => None
      | S fuel =>
          if c =? 0x1b then display_width fuel (skip_escape p') w
          else
            '(n, cp) ← decode p;
            display_width fuel (dropZ (if n =? 0 then 1 else n) p) (w + cells cp)
      end
  end.

Definition mts_display_width (s : cstr) : option Z := display_width (length s) s 0.

(** plugins/chat/mts_render.c:92-110 (mts_clip_width) *)
Fixpoint clip_loop (fuel : nat) (cap max : Z) (p out : cstr) (w : Z) : option cstr :=
  match p with
  | [] => Some out
  | c :: _ =>
      if zlen out + 1 <? cap then
        match fuel with
        | O => None
        | S fuel =>
            '(n, cp) ← decode p;
            let '(n, cp) := if n =? 0 then (1, ch "?") else (n, cp) in
            let cw := cells cp in
            if (max <? w + cw) || (cap <=? zlen out + n) then Some out
            else
              let out := if (cp =? ch "?") && (0x80 <=? c) then out ++ [ch "?"] else out ++ takeZ n p in
              clip_loop fuel cap max (dropZ n p) out (w + cw)
        end
      else Some out
  end.

(** plugins/chat/mts_render.c:88-113 (mts_clip_width) *)
Definition mts_clip_width (cap : Z) (s : cstr) (max : Z) : option cstr :=
  clip_loop (length s) cap max s [] 0.

(** ** Names, durations and templates *)

(** The name of a room as it is looked up, in a buffer of [n] bytes.
    plugins/chat/mts_state.c:50-56 (normalize) *)
Definition normalize (n : Z) (s : cstr) : cstr :=
  takeZ (n - 1) (tolower <$> filter (λ c, isalnum c = true) s).

(** plugins/chat/mts_state.c:13-46 (mts_parse_duration) *)
Definition mts_parse_duration (text : cstr) : option Z :=
  match text with
  | [] => None
  | _ =>
      let '(v, e) := strtoll 10 text in
      if v <? 1 then None
      else
        mult ← match e with
               | [] => Some 1
               | [c] =>
                   let c := tolower c in
                   if c =? ch "m" then Some 60
                   else if c =? ch "h" then Some 3600
                   else if c =? ch "d" then Some 86400
                   else if c =? ch "w" then Some 604800
                   else None
               | _ => None
               end;
        if 31536000 / mult <? v then None else Some (v * mult)
  end.

(** The loop over the placeholders of a template, with the counts of the two.
    plugins/chat/chat.c:240-256 (action_template_valid) *)
Fixpoint template_loop (fuel : nat) (p : cstr) (actor target : Z) : option bool :=
  match p with
  | [] => Some ((actor =? 1) && (target <=? 1))
  | _ =>
      match fuel with
      | O => None
      | S fuel =>
          match split_at (ch "{") p with
          | (_, None) => Some ((actor =? 1) && (target <=? 1))
          | (_, Some b) =>
              match split_at (ch "}") b with
              | (_, None) => Some false
              | (name, Some p) =>
                  if str_eq name (lit "actor") then template_loop fuel p (actor + 1) target
                  else if str_eq name (lit "target") then template_loop fuel p actor (target + 1)
                  else Some false
              end
          end
      end
  end.

(** plugins/chat/chat.c:237-258 (action_template_valid) *)
Definition action_template_valid (t : cstr) : option bool :=
  if (256 <=? zlen t) || bool_decide (ch "%" ∈ t) then Some false
  else template_loop (length t) t 0 0.

(** [strncat(out, s, n)] for a buffer of [cap] bytes. *)
Definition append_within (cap : Z) (out s : cstr) : cstr := out ++ takeZ (cap - zlen out - 1) s.

(** plugins/chat/chat.c:259-275 (replace_token) *)
Fixpoint replace_loop (fuel : nat) (cap : Z) (p token value out : cstr) : option cstr :=
  match p with
  | [] => Some out
  | _ =>
      if zlen out + 1 <? cap then
        match fuel with
        | O => None
        | S fuel =>
            match find_str token p with
            | None => Some (append_within cap out p)
            | Some (l, r) =>
                let out := append_within cap out l in
                replace_loop fuel cap r token value (append_within cap out value)
            end
        end
      else Some out
  end.

Definition replace_token (cap : Z) (s token value : cstr) : option cstr :=
  replace_loop (length s) cap s token value [].

(** [strtoul(s, &end, 10)]. *)
Definition strtoul (s : cstr) : Z * cstr :=
  let '(neg, r) := read_sign (skip_space s) in
  match read_digits 10 0 0 r with
  | (_, O, _) => (0, s)
  | (v, S _, r') =>
      (if 2 ^ 64 <=? v then 2 ^ 64 - 1 else if neg : bool then u64 (- v) else v, r')
  end.

(** The same loop where the buffer is the source: [i] bytes of it have been read.
    A copy of a character onto a part of itself is undefined.
    plugins/chat/mts_render.c:50-68 (mts_utf8_sanitize) *)
Fixpoint sanitize_in_place (fuel : nat) (cap i : Z) (p out : cstr) : option cstr :=
  match p with
  | [] => Some out
  | c :: p' =>
      if zlen out + 1 <? cap then
        match fuel with
        | O => None
        | S fuel =>
            if control c then sanitize_in_place fuel cap (i + 1) p' out
            else
              '(n, _) ← decode p;
              if n =? 0 then sanitize_in_place fuel cap (i + 1) p' (out ++ [ch "?"])
              else if cap <=? zlen out + n then Some out
              else if (0 <? i - zlen out) && (i - zlen out <? n) then None
              else sanitize_in_place fuel cap (i + n) (dropZ n p) (out ++ takeZ n p)
        end
      else Some out
  end.
