(* ===== verification/MtsTextSpec.v ===== *)
(** UTF-8 as the teleconference reads it, what is left of a text that is
    sanitized, and the width of a text that is cut. *)

From S2P Require Import Prelude CLib MtsText.
#[local] Open Scope Z_scope.

(** ** Characters and their bytes *)

Definition scalar (cp : Z) : Prop := 0 <= cp < 0xD800 ∨ 0xE000 <= cp < 0x110000.

(** The encoding of the standard. *)
Definition utf8 (cp : Z) : list Z :=
  if cp <? 0x80 then [cp]
  else if cp <? 0x800 then [0xC0 + cp / 64; 0x80 + cp mod 64]
  else if cp <? 0x10000 then [0xE0 + cp / 4096; 0x80 + cp / 64 mod 64; 0x80 + cp mod 64]
  else [0xF0 + cp / 262144; 0x80 + cp / 4096 mod 64; 0x80 + cp / 64 mod 64; 0x80 + cp mod 64].

Lemma utf8_length cp : 1 <= zlen (utf8 cp) <= 4.
Proof. unfold utf8. repeat case_match; zl. Qed.

Lemma get_0 c s : get (c :: s) 0 = Some c.
Proof. done. Qed.

Lemma get_S c s k : 0 <= k → get (c :: s) (1 + k) = get s k.
Proof.
  intros Hk. unfold get, nthZ. destruct (Z.ltb_spec (1 + k) 0); [lia |].
  destruct (Z.ltb_spec k 0); [lia |]. by replace (Z.to_nat (1 + k)) with (S (Z.to_nat k)) by lia.
Qed.

Lemma get_1 a b s : get (a :: b :: s) 1 = Some b.
Proof. done. Qed.
Lemma get_2 a b c s : get (a :: b :: c :: s) 2 = Some c.
Proof. done. Qed.
Lemma get_3 a b c d s : get (a :: b :: c :: d :: s) 3 = Some d.
Proof. done. Qed.

(** ** Bits *)

Lemma tail_byte b : 0 <= b < 256 → (Z.land b 0xc0 =? 0x80) = (0x80 <=? b) && (b <? 0xc0).
Proof.
  intros Hb. assert (∀ n, (n < 256)%nat → (Z.land (Z.of_nat n) 0xc0 =? 0x80) =
    (0x80 <=? Z.of_nat n) && (Z.of_nat n <? 0xc0)) as H.
  { intros n Hn. assert (forallb (λ n, Bool.eqb (Z.land (Z.of_nat n) 0xc0 =? 0x80)
      ((0x80 <=? Z.of_nat n) && (Z.of_nat n <? 0xc0))) (seq 0 256) = true) as Hall by by vm_compute.
    rewrite forallb_forall in Hall. specialize (Hall n). rewrite in_seq in Hall.
    apply eqb_prop, Hall. lia. }
  specialize (H (Z.to_nat b)). rewrite Z2Nat.id in H by lia. apply H. lia.
Qed.

Lemma land_ones_mod a n : 0 <= n → Z.land a (2 ^ n - 1) = a mod 2 ^ n.
Proof. intros Hn. rewrite <- Z.land_ones by done. f_equal. rewrite Z.ones_equiv. lia. Qed.

Lemma low_6 a : Z.land a 63 = a mod 64. Proof. exact (land_ones_mod a 6 ltac:(lia)). Qed.
Lemma low_5 a : Z.land a 31 = a mod 32. Proof. exact (land_ones_mod a 5 ltac:(lia)). Qed.
Lemma low_4 a : Z.land a 15 = a mod 16. Proof. exact (land_ones_mod a 4 ltac:(lia)). Qed.
Lemma low_3 a : Z.land a 7 = a mod 8. Proof. exact (land_ones_mod a 3 ltac:(lia)). Qed.

Lemma bits_2 a b : 0 <= b < 64 → Z.lor (Z.shiftl a 6) b = a * 64 + b.
Proof. intros Hb. rewrite lor_shiftl_add by lia. lia. Qed.

Lemma bits_3 a b c : 0 <= b < 64 → 0 <= c < 64 →
  Z.lor (Z.lor (Z.shiftl a 12) (Z.shiftl b 6)) c = a * 4096 + b * 64 + c.
Proof.
  intros Hb Hc. replace (Z.lor (Z.shiftl a 12) (Z.shiftl b 6)) with (Z.shiftl (a * 64 + b) 6).
  - rewrite bits_2 by done. lia.
  - replace (Z.shiftl a 12) with (Z.shiftl (Z.shiftl a 6) 6) by (rewrite Z.shiftl_shiftl by lia; f_equal; lia).
    rewrite <- Z.shiftl_lor. f_equal. symmetry. by apply bits_2.
Qed.

Lemma bits_4 a b c d : 0 <= b < 64 → 0 <= c < 64 → 0 <= d < 64 →
  Z.lor (Z.lor (Z.lor (Z.shiftl a 18) (Z.shiftl b 12)) (Z.shiftl c 6)) d =
  a * 262144 + b * 4096 + c * 64 + d.
Proof.
  intros Hb Hc Hd.
  replace (Z.lor (Z.shiftl a 18) (Z.shiftl b 12)) with (Z.shiftl (a * 64 + b) 12).
  - rewrite bits_3 by done. lia.
  - replace (Z.shiftl a 18) with (Z.shiftl (Z.shiftl a 6) 12) by (rewrite Z.shiftl_shiftl by lia; f_equal; lia).
    rewrite <- Z.shiftl_lor. f_equal. symmetry. by apply bits_2.
Qed.

(** ** Decoding *)

Definition tailb (b : Z) : bool := (0x80 <=? b) && (b <? 0xc0).

(** What [decode] reads, in numbers. *)
Definition decode_numbers (s : list Z) : Z * Z :=
  match s with
  | [] => (1, 0)
  | a :: s =>
      if a <? 0x80 then (1, a)
      else if (0xc2 <=? a) && (a <=? 0xdf) then
        match s with
        | b :: _ => if tailb b then (2, (a - 0xc0) * 64 + (b - 0x80)) else (0, ch "?")
        | _ => (0, ch "?")
        end
      else if (0xe0 <=? a) && (a <=? 0xef) then
        match s with
        | b :: c :: _ =>
            if tailb b && tailb c && negb ((a =? 0xe0) && (b <? 0xa0)) && negb ((a =? 0xed) && (0xa0 <=? b))
            then (3, (a - 0xe0) * 4096 + (b - 0x80) * 64 + (c - 0x80)) else (0, ch "?")
        | _ => (0, ch "?")
        end
      else if (0xf0 <=? a) && (a <=? 0xf4) then
        match s with
        | b :: c :: d :: _ =>
            if tailb b && tailb c && tailb d && negb ((a =? 0xf0) && (b <? 0x90)) &&
               negb ((a =? 0xf4) && (0x90 <=? b))
            then (4, (a - 0xf0) * 262144 + (b - 0x80) * 4096 + (c - 0x80) * 64 + (d - 0x80))
            else (0, ch "?")
        | _ => (0, ch "?")
        end
      else (0, ch "?")
  end.

Lemma tail_value b : tailb b = true → Z.land b 63 = b - 0x80 ∧ 0 <= b - 0x80 < 64.
Proof.
  unfold tailb. intros H. rewrite low_6. split; [| lia].
  symmetry. apply Z.mod_unique_pos with 2; lia.
Qed.

Lemma nonzero_at s k c : get s k = Some c → nonzero s k = Some (negb (c =? 0)).
Proof. intros H. unfold nonzero. by rewrite H. Qed.

Lemma continues_at s k c : get s k = Some c → in_u 8 c → continues s k = Some (tailb c).
Proof. intros H Hc. unfold continues. rewrite H. cbn. rewrite tail_byte by (zred; lia). done. Qed.

Lemma get_end_1 a : get [a] 1 = Some 0. Proof. done. Qed.
Lemma get_end_2 a b : get [a; b] 2 = Some 0. Proof. done. Qed.
Lemma get_end_3 a b c : get [a; b; c] 3 = Some 0. Proof. done. Qed.

Create Rewrite HintDb mts_get.
#[local] Hint Rewrite get_0 get_1 get_2 get_3 get_end_1 get_end_2 get_end_3 : mts_get.

(** A tail byte is not zero. *)
Lemma tailb_nonzero b : (b =? 0) = true → tailb b = false.
Proof. unfold tailb. lia. Qed.

Ltac reads :=
  unfold continues, nonzero; autorewrite with mts_get; cbn [mbind option_bind and_then];
  rewrite ?tail_byte by lia; try change (Z.land 0 192 =? 128) with false;
  cbn [negb and_then mbind option_bind].

Lemma decode_is_numbers s : bytes_ok s → decode s = Some (decode_numbers s).
Proof.
  intros Hs. destruct s as [| a s]; [done |].
  apply Forall_cons in Hs as [Ha Hs]. zred.
  unfold decode, decode_numbers. rewrite get_0. cbn [mbind option_bind].
  destruct (Z.ltb_spec a 0x80); [done |].
  destruct ((0xc2 <=? a) && (a <=? 0xdf)) eqn:E2; cbn [and_then mbind option_bind].
  - replace ((0xe0 <=? a) && (a <=? 0xef)) with false by lia.
    replace ((0xf0 <=? a) && (a <=? 0xf4)) with false by lia. cbn [and_then mbind option_bind].
    destruct s as [| b s]; reads; [done |].
    apply Forall_cons in Hs as [Hb _]. zred. rewrite tail_byte by lia. fold (tailb b).
    destruct (tailb b) eqn:Eb; [| done].
    destruct (tail_value b Eb) as [-> Hv]. rewrite bits_2 by done.
    rewrite low_5. by replace (a mod 32) with (a - 0xc0) by (apply Z.mod_unique_pos with 6; lia).
  - destruct ((0xe0 <=? a) && (a <=? 0xef)) eqn:E3; cbn [and_then mbind option_bind].
    + replace ((0xf0 <=? a) && (a <=? 0xf4)) with false by lia. cbn [and_then mbind option_bind].
      destruct s as [| b [| c s]]; reads; [done | by destruct (negb (b =? 0)) |].
      apply Forall_cons in Hs as [Hb [Hc _]%Forall_cons]. zred.
      rewrite !tail_byte by lia. fold (tailb b) (tailb c).
      destruct (b =? 0) eqn:Zb; cbn [negb and_then]; [by rewrite (tailb_nonzero _ Zb) |].
      destruct (c =? 0) eqn:Zc; cbn [negb and_then];
        [by rewrite (tailb_nonzero _ Zc), andb_false_r |].
      destruct (tailb b) eqn:Eb; cbn [and_then andb]; [| done].
      destruct (tailb c) eqn:Ec; cbn [and_then andb]; [| done].
      destruct ((a =? 0xe0) && (b <? 0xa0)); cbn [negb and_then andb]; [done |].
      destruct ((a =? 0xed) && (0xa0 <=? b)); cbn [negb and_then andb]; [done |].
      destruct (tail_value b Eb) as [-> Hv], (tail_value c Ec) as [-> Hw].
      cbn [mbind option_bind]. rewrite bits_3 by done.
      rewrite low_4. by replace (a mod 16) with (a - 0xe0) by (apply Z.mod_unique_pos with 14; lia).
    + destruct ((0xf0 <=? a) && (a <=? 0xf4)) eqn:E4; cbn [and_then mbind option_bind]; [| done].
      destruct s as [| b [| c [| d s]]]; reads;
        [done | by destruct (negb (b =? 0)) |
         by destruct (negb (b =? 0)); cbn; [destruct (negb (c =? 0)) |] |].
      apply Forall_cons in Hs as [Hb [Hc [Hd _]%Forall_cons]%Forall_cons]. zred.
      rewrite !tail_byte by lia. fold (tailb b) (tailb c) (tailb d).
      destruct (b =? 0) eqn:Zb; cbn [negb and_then]; [by rewrite (tailb_nonzero _ Zb) |].
      destruct (c =? 0) eqn:Zc; cbn [negb and_then];
        [by rewrite (tailb_nonzero _ Zc), andb_false_r |].
      destruct (d =? 0) eqn:Zd; cbn [negb and_then];
        [by rewrite (tailb_nonzero _ Zd), andb_false_r |].
      destruct (tailb b) eqn:Eb; cbn [and_then andb]; [| done].
      destruct (tailb c) eqn:Ec; cbn [and_then andb]; [| done].
      destruct (tailb d) eqn:Ed; cbn [and_then andb]; [| done].
      destruct ((a =? 0xf0) && (b <? 0x90)); cbn [negb and_then andb]; [done |].
      destruct ((a =? 0xf4) && (0x90 <=? b)); cbn [negb and_then andb]; [done |].
      destruct (tail_value b Eb) as [-> Hv], (tail_value c Ec) as [-> Hw], (tail_value d Ed) as [-> Hx].
      cbn [mbind option_bind]. rewrite bits_4 by done.
      rewrite low_3. by replace (a mod 8) with (a - 0xf0) by (apply Z.mod_unique_pos with 30; lia).
Qed.

Lemma tailb_of x : tailb (0x80 + x mod 64) = true.
Proof. unfold tailb. pose proof (Z.mod_pos_bound x 64 ltac:(lia)). lia. Qed.

Ltac euclid := Z.to_euclidean_division_equations; lia.

Lemma decode_numbers_utf8 cp r :
  scalar cp → decode_numbers (utf8 cp ++ r) = (zlen (utf8 cp), cp).
Proof.
  intros Hs. unfold scalar in Hs. unfold utf8.
  destruct (Z.ltb_spec cp 0x80); [cbn; by destruct (Z.ltb_spec cp 128); [| lia] |].
  destruct (Z.ltb_spec cp 0x800).
  { cbn [app decode_numbers]. replace (0xC0 + cp / 64 <? 0x80) with false by euclid.
    replace ((0xc2 <=? 0xC0 + cp / 64) && (0xC0 + cp / 64 <=? 0xdf)) with true by euclid.
    rewrite tailb_of. f_equal. euclid. }
  destruct (Z.ltb_spec cp 0x10000).
  { cbn [app decode_numbers]. replace (0xE0 + cp / 4096 <? 0x80) with false by euclid.
    replace ((0xc2 <=? 0xE0 + cp / 4096) && (0xE0 + cp / 4096 <=? 0xdf)) with false by euclid.
    replace ((0xe0 <=? 0xE0 + cp / 4096) && (0xE0 + cp / 4096 <=? 0xef)) with true by euclid.
    rewrite !tailb_of. cbn [andb].
    replace (negb ((0xE0 + cp / 4096 =? 0xe0) && (0x80 + cp / 64 mod 64 <? 0xa0))) with true by euclid.
    replace (negb ((0xE0 + cp / 4096 =? 0xed) && (0xa0 <=? 0x80 + cp / 64 mod 64))) with true by euclid.
    cbn [andb]. f_equal. euclid. }
  cbn [app decode_numbers]. replace (0xF0 + cp / 262144 <? 0x80) with false by euclid.
  replace ((0xc2 <=? 0xF0 + cp / 262144) && (0xF0 + cp / 262144 <=? 0xdf)) with false by euclid.
  replace ((0xe0 <=? 0xF0 + cp / 262144) && (0xF0 + cp / 262144 <=? 0xef)) with false by euclid.
  replace ((0xf0 <=? 0xF0 + cp / 262144) && (0xF0 + cp / 262144 <=? 0xf4)) with true by euclid.
  rewrite !tailb_of. cbn [andb].
  replace (negb ((0xF0 + cp / 262144 =? 0xf0) && (0x80 + cp / 4096 mod 64 <? 0x90))) with true by euclid.
  replace (negb ((0xF0 + cp / 262144 =? 0xf4) && (0x90 <=? 0x80 + cp / 4096 mod 64))) with true by euclid.
  cbn [andb]. f_equal. euclid.
Qed.

Lemma decode_numbers_sound s n cp :
  bytes_ok s → s ≠ [] → decode_numbers s = (n, cp) → n ≠ 0 →
  scalar cp ∧ s = utf8 cp ++ dropZ n s ∧ n = zlen (utf8 cp).
Proof.
  intros Hs Hne. destruct s as [| a s]; [done |]. apply Forall_cons in Hs as [Ha Hs]. zred.
  unfold decode_numbers.
  destruct (Z.ltb_spec a 0x80).
  { intros [= <- <-] _. unfold utf8, scalar. destruct (Z.ltb_spec a 128); [| lia]. split_and!; [lia | done | done]. }
  destruct ((0xc2 <=? a) && (a <=? 0xdf)) eqn:E2.
  { destruct s as [| b s]; [by intros ? ?; simplify_eq |].
    destruct (tailb b) eqn:Eb; [| by intros ? ?; simplify_eq]. unfold tailb in Eb.
    intros [= <- <-] _. set (cp := (a - 0xc0) * 64 + (b - 0x80)).
    assert (utf8 cp = [a; b]) as ->.
    { unfold utf8. destruct (Z.ltb_spec cp 0x80); [subst cp; lia |].
      destruct (Z.ltb_spec cp 0x800); [| subst cp; lia]. subst cp. repeat f_equal; euclid. }
    split_and!; [unfold scalar; subst cp; lia | done | done]. }
  destruct ((0xe0 <=? a) && (a <=? 0xef)) eqn:E3.
  { destruct s as [| b [| c s]]; [by intros ? ?; simplify_eq | by intros ? ?; simplify_eq |].
    match goal with |- context [if ?x then _ else _] => destruct x eqn:Eb end; [| by intros ? ?; simplify_eq]. unfold tailb in Eb.
    intros [= <- <-] _. set (cp := (a - 0xe0) * 4096 + (b - 0x80) * 64 + (c - 0x80)).
    assert (utf8 cp = [a; b; c]) as ->.
    { unfold utf8. destruct (Z.ltb_spec cp 0x80); [subst cp; lia |].
      destruct (Z.ltb_spec cp 0x800); [subst cp; lia |].
      destruct (Z.ltb_spec cp 0x10000); [| subst cp; lia]. subst cp. repeat f_equal; euclid. }
    split_and!; [unfold scalar; subst cp; lia | done | done]. }
  destruct ((0xf0 <=? a) && (a <=? 0xf4)) eqn:E4; [| by intros ? ?; simplify_eq].
  destruct s as [| b [| c [| d s]]]; [by intros ? ?; simplify_eq | by intros ? ?; simplify_eq | by intros ? ?; simplify_eq |].
  match goal with |- context [if ?x then _ else _] => destruct x eqn:Eb end; [| by intros ? ?; simplify_eq]. unfold tailb in Eb.
  intros [= <- <-] _. set (cp := (a - 0xf0) * 262144 + (b - 0x80) * 4096 + (c - 0x80) * 64 + (d - 0x80)).
  assert (utf8 cp = [a; b; c; d]) as ->.
  { unfold utf8. destruct (Z.ltb_spec cp 0x80); [subst cp; lia |].
    destruct (Z.ltb_spec cp 0x800); [subst cp; lia |].
    destruct (Z.ltb_spec cp 0x10000); [subst cp; lia |]. subst cp. repeat f_equal; euclid. }
  split_and!; [unfold scalar; subst cp; lia | done | done].
Qed.

(** The first character of a text, as [decode] sees it. *)
Lemma decode_first c p : bytes_ok (c :: p) →
  (0x80 <= c ∧ decode (c :: p) = Some (0, ch "?")) ∨
  (∃ cp r, scalar cp ∧ c :: p = utf8 cp ++ r ∧ decode (c :: p) = Some (zlen (utf8 cp), cp)).
Proof.
  intros Hs. rewrite decode_is_numbers by done.
  destruct (decode_numbers (c :: p)) as [n cp] eqn:E. destruct (decide (n = 0)) as [-> | Hn].
  - left. revert E. unfold decode_numbers. destruct (Z.ltb_spec c 0x80); [congruence |].
    intros E. split; [done |]. do 2 f_equal. revert E. repeat case_match; congruence.
  - right. destruct (decode_numbers_sound (c :: p) n cp Hs ltac:(done) E Hn) as (Hsc & Hsp & ->).
    by exists cp, (dropZ (zlen (utf8 cp)) (c :: p)).
Qed.

Lemma bytes_ok_app a b : bytes_ok (a ++ b) → bytes_ok a ∧ bytes_ok b.
Proof. apply Forall_app. Qed.

(** ** Texts of characters *)

Definition chars (cps : list Z) : cstr := concat (utf8 <$> cps).

Lemma chars_cons cp cps : chars (cp :: cps) = utf8 cp ++ chars cps.
Proof. done. Qed.

Lemma chars_app a b : chars (a ++ b) = chars a ++ chars b.
Proof. unfold chars. by rewrite fmap_app, concat_app. Qed.

Lemma chars_one cp : chars [cp] = utf8 cp.
Proof. unfold chars. cbn. apply app_nil_r. Qed.

Definition allowed (cp : Z) : Prop := scalar cp ∧ (cp = 9 ∨ 0x20 <= cp) ∧ cp ≠ 0x7f.

(** The first byte of a character. *)
Lemma utf8_head cp : scalar cp →
  ∃ c r, utf8 cp = c :: r ∧ (cp < 0x80 ∧ c = cp ∧ r = [] ∨ 0x80 <= cp ∧ 0x80 <= c < 256).
Proof.
  intros Hs. unfold scalar in Hs. unfold utf8.
  repeat match goal with |- context [if ?a <? ?b then _ else _] => destruct (Z.ltb_spec a b) end;
    (do 2 eexists; split; [reflexivity |]; first [left; split_and!; [lia | done | done] | right; euclid]).
Qed.

Lemma control_allowed c : control c = false → c < 0x80 → (c = 9 ∨ 0x20 <= c) ∧ c ≠ 0x7f.
Proof. unfold control. lia. Qed.

Lemma allowed_control cp c r : allowed cp → utf8 cp = c :: r → control c = false.
Proof.
  intros (Hs & Ha & Hd) E. destruct (utf8_head cp Hs) as (c' & r' & E' & Hc).
  rewrite E' in E. injection E as -> ->. unfold control. lia.
Qed.

Lemma takeZ_utf8 cp r : takeZ (zlen (utf8 cp)) (utf8 cp ++ r) = utf8 cp.
Proof. apply takeZ_app. Qed.

Lemma dropZ_utf8 cp r : dropZ (zlen (utf8 cp)) (utf8 cp ++ r) = r.
Proof. apply dropZ_app. Qed.

Lemma utf8_fuel cp r n : (length (utf8 cp ++ r) <= S n)%nat → (length r <= n)%nat.
Proof. rewrite length_app. pose proof (utf8_length cp). unfold zlen in *. lia. Qed.

(** ** Sanitizing *)

Lemma sanitize_loop_clean fuel : ∀ cap p done_,
  bytes_ok p → (length p <= fuel)%nat → Forall allowed done_ → zlen (chars done_) < cap →
  ∃ cps, sanitize_loop fuel cap p (chars done_) = Some (chars cps) ∧ Forall allowed cps ∧
    zlen (chars cps) < cap.
Proof.
  induction fuel as [| fuel IH]; intros cap p dn Hp Hf Hd Hc.
  - destruct p; [by exists dn | cbn in Hf; lia].
  - destruct p as [| c p]; [by exists dn |]. cbn [sanitize_loop].
    destruct (Z.ltb_spec (zlen (chars dn) + 1) cap); [| by exists dn].
    pose proof Hp as [Hc' Hp']%Forall_cons.
    destruct (control c) eqn:Ec; [apply IH; [done | cbn in Hf; lia | done | done] |].
    destruct (decode_first c p Hp) as [[_ ->] | (cp & r & Hs & Hsp & ->)];
      cbn [mbind option_bind].
    + change (0 =? 0) with true. cbv iota. change [ch "?"] with (chars [63]). rewrite <- chars_app.
      apply IH; [done | cbn in Hf; lia | |].
      * apply Forall_app. split; [done |]. apply Forall_singleton. unfold allowed, scalar. lia.
      * rewrite chars_app. change (chars [63]) with [63]. zl.
    + pose proof (utf8_length cp). destruct (Z.eqb_spec (zlen (utf8 cp)) 0); [lia |].
      destruct (Z.leb_spec cap (zlen (chars dn) + zlen (utf8 cp))); [by exists dn |].
      rewrite Hsp, takeZ_utf8, dropZ_utf8.
      replace (chars dn ++ utf8 cp) with (chars (dn ++ [cp])) by (by rewrite chars_app, chars_one).
      rewrite Hsp in Hp, Hf. apply IH.
      * by apply bytes_ok_app in Hp as [_ ?].
      * by eapply utf8_fuel.
      * apply Forall_app. split; [done |]. apply Forall_singleton.
        destruct (utf8_head cp Hs) as (c' & r' & E & Hc''). rewrite E in Hsp. injection Hsp as -> _.
        unfold allowed. pose proof (control_allowed c' Ec). split; [done |]. lia.
      * rewrite chars_app, chars_one. zl.
Qed.

Lemma utf8_bytes cp : scalar cp → bytes_ok (utf8 cp).
Proof. unfold utf8, scalar. intros H. repeat case_match; repeat constructor; zred; euclid. Qed.

Lemma chars_bytes cps : Forall scalar cps → bytes_ok (chars cps).
Proof.
  induction 1 as [| cp cps Hs _ IH]; [constructor |]. rewrite chars_cons.
  apply Forall_app. split; [by apply utf8_bytes | done].
Qed.

Lemma decode_char cp cps : scalar cp → Forall scalar cps →
  decode (utf8 cp ++ chars cps) = Some (zlen (utf8 cp), cp).
Proof.
  intros Hs Hc. rewrite decode_is_numbers; [by rewrite decode_numbers_utf8 |].
  apply Forall_app. split; [by apply utf8_bytes | by apply chars_bytes].
Qed.

Lemma allowed_scalar cps : Forall allowed cps → Forall scalar cps.
Proof. intros H. eapply Forall_impl; [exact H |]. by intros cp []. Qed.

Lemma sanitize_loop_same cps : ∀ fuel cap dn,
  (length (chars cps) <= fuel)%nat → Forall allowed cps → zlen dn + zlen (chars cps) < cap →
  sanitize_loop fuel cap (chars cps) dn = Some (dn ++ chars cps).
Proof.
  induction cps as [| cp cps IH]; intros fuel cap dn Hf Ha Hc.
  - change (chars []) with (@nil Z). rewrite app_nil_r. by destruct fuel.
  - apply Forall_cons in Ha as [Hcp Ha]. rewrite chars_cons in *.
    pose proof Hcp as [Hs _]. pose proof (utf8_length cp).
    pose proof (decode_char cp cps Hs (allowed_scalar _ Ha)) as Hdec.
    destruct (utf8_head cp Hs) as (c & r & E & _).
    pose proof (allowed_control cp c r Hcp E) as Hctl.
    destruct (utf8 cp ++ chars cps) as [| c' p] eqn:Ep; [by rewrite E in Ep |].
    assert (c' = c) as -> by (rewrite E in Ep; by injection Ep).
    destruct fuel as [| fuel]; [cbn in Hf; lia |]. cbn [sanitize_loop].
    rewrite <- Ep in *. destruct (Z.ltb_spec (zlen dn + 1) cap); [| zl].
    rewrite Hctl, Hdec. cbn [mbind option_bind].
    destruct (Z.eqb_spec (zlen (utf8 cp)) 0); [lia |].
    destruct (Z.leb_spec cap (zlen dn + zlen (utf8 cp))); [zl |].
    rewrite takeZ_utf8, dropZ_utf8, IH; [by rewrite <- app_assoc | by eapply utf8_fuel | done | zl].
Qed.

(** ** Cutting *)

Fixpoint columns (cps : list Z) : Z :=
  match cps with [] => 0 | cp :: cps => cells cp + columns cps end.

Lemma cells_range cp : 0 <= cells cp <= 2.
Proof. unfold cells. repeat case_match; lia. Qed.

Lemma columns_app a b : columns (a ++ b) = columns a + columns b.
Proof. induction a; cbn; lia. Qed.

Lemma columns_nonneg cps : 0 <= columns cps.
Proof. induction cps as [| cp cps]; cbn; [lia |]. pose proof (cells_range cp). lia. Qed.

Lemma clip_loop_fits fuel : ∀ cap max p dn,
  bytes_ok p → (length p <= fuel)%nat → Forall scalar dn → zlen (chars dn) < cap → columns dn <= max →
  ∃ cps, clip_loop fuel cap max p (chars dn) (columns dn) = Some (chars cps) ∧ Forall scalar cps ∧
    zlen (chars cps) < cap ∧ columns cps <= max.
Proof.
  induction fuel as [| fuel IH]; intros cap max p dn Hp Hf Hd Hc Hm.
  - destruct p; [by exists dn | cbn in Hf; lia].
  - destruct p as [| c p]; [by exists dn |]. cbn [clip_loop].
    destruct (Z.ltb_spec (zlen (chars dn) + 1) cap); [| by exists dn].
    destruct (decode_first c p Hp) as [[Hc' ->] | (cp & r & Hs & Hsp & ->)];
      cbn [mbind option_bind].
    + change (0 =? 0) with true. cbv iota beta. change (cells (ch "?")) with 1.
      destruct (Z.ltb_spec max (columns dn + 1)); cbn [orb]; [by exists dn |].
      destruct (Z.leb_spec cap (zlen (chars dn) + 1)); [by exists dn |].
      replace ((ch "?" =? ch "?") && (128 <=? c)) with true by (symmetry; apply Z.leb_le; lia).
      change [ch "?"] with (chars [63]). rewrite <- chars_app.
      change (dropZ 1 (c :: p)) with p.
      replace (columns dn + 1) with (columns (dn ++ [63])) by (rewrite columns_app; done).
      apply IH; [by apply Forall_cons in Hp as [_ ?] | cbn in Hf; lia | | |].
      * apply Forall_app. split; [done |]. apply Forall_singleton. unfold scalar. lia.
      * rewrite chars_app. change (chars [63]) with [63]. zl.
      * rewrite columns_app. cbn [columns]. change (cells 63) with 1. lia.
    + pose proof (utf8_length cp). destruct (Z.eqb_spec (zlen (utf8 cp)) 0); [lia |].
      destruct (Z.ltb_spec max (columns dn + cells cp)); cbn [orb]; [by exists dn |].
      destruct (Z.leb_spec cap (zlen (chars dn) + zlen (utf8 cp))); [by exists dn |].
      assert ((cp =? ch "?") && (128 <=? c) = false) as ->.
      { destruct (utf8_head cp Hs) as (c' & r' & E & Hcc). rewrite E in Hsp. injection Hsp as -> _.
        change (ch "?") with 63. lia. }
      rewrite Hsp, takeZ_utf8, dropZ_utf8.
      replace (chars dn ++ utf8 cp) with (chars (dn ++ [cp])) by (by rewrite chars_app, chars_one).
      replace (columns dn + cells cp) with (columns (dn ++ [cp])) by (rewrite columns_app; cbn; lia).
      rewrite Hsp in Hp, Hf. apply IH.
      * by apply bytes_ok_app in Hp as [_ ?].
      * by eapply utf8_fuel.
      * apply Forall_app. split; [done |]. by apply Forall_singleton.
      * rewrite chars_app, chars_one. zl.
      * rewrite columns_app. cbn. lia.
Qed.

(** An escape sequence ends at the end of a character. *)
Lemma skip_escape_chars cps : Forall scalar cps →
  ∃ a b, cps = a ++ b ∧ skip_escape (chars cps) = chars b ∧ columns b <= columns cps.
Proof.
  induction 1 as [| cp cps Hs Hcps IH]; [by exists [], [] |].
  destruct IH as (a & b & -> & Hb & Hcol). pose proof (cells_range cp).
  assert (∀ l k, Forall (λ c, c ≠ ch "m") l → skip_escape (l ++ k) = skip_escape k) as Hskip.
  { intros l k. induction 1 as [| x l Hx _ IHl]; [done |]. cbn [app skip_escape].
    destruct (Z.eqb_spec x (ch "m")); [done | exact IHl]. }
  rewrite chars_cons. destruct (Z.eqb_spec cp (ch "m")) as [-> | Hm].
  - exists [ch "m"], (a ++ b). split_and!; [done | done | cbn; lia].
  - exists (cp :: a), b. split_and!; [done | | cbn; lia].
    rewrite Hskip; [done |]. unfold utf8, scalar in *. change (ch "m") with 109 in *.
    repeat case_match; repeat constructor; euclid.
Qed.

Lemma display_width_columns fuel : ∀ cps w, Forall scalar cps → (length (chars cps) <= fuel)%nat →
  ∃ v, display_width fuel (chars cps) w = Some v ∧ w <= v <= w + columns cps.
Proof.
  induction fuel as [| fuel IH]; intros cps w Hs Hf.
  - exists w. pose proof (columns_nonneg cps). destruct (chars cps) as [| ? ?]; [| cbn in Hf; lia].
    split; [done | lia].
  - destruct cps as [| cp cps]; [exists w; cbn; split; [done | lia] |].
    apply Forall_cons in Hs as [Hcp Hs]. pose proof (cells_range cp). pose proof (utf8_length cp).
    pose proof (decode_char cp cps Hcp Hs) as Hdec. rewrite chars_cons in *.
    destruct (utf8_head cp Hcp) as (c & r & E & Hc).
    destruct (utf8 cp ++ chars cps) as [| c' p] eqn:Ep; [by rewrite E in Ep |].
    assert (c' = c ∧ p = r ++ chars cps) as [-> ->] by (rewrite E in Ep; by injection Ep).
    cbn [display_width]. destruct (Z.eqb_spec c 0x1b) as [-> | Hne].
    + assert (r = []) as -> by (destruct Hc as [(_ & _ & ?) | ?]; [done | lia]).
      destruct (skip_escape_chars cps Hs) as (a & b & -> & Hb & Hcol). cbn [app]. rewrite Hb.
      apply Forall_app in Hs as [_ Hsb].
      destruct (IH b w Hsb) as (v & Hv & Hvr).
      { cbn in Hf. rewrite chars_app, length_app in Hf. lia. }
      exists v. split; [done |]. cbn. lia.
    + rewrite Hdec. cbn [mbind option_bind]. rewrite <- Ep.
      destruct (Z.eqb_spec (zlen (utf8 cp)) 0); [lia |]. rewrite dropZ_utf8.
      destruct (IH cps (w + cells cp) Hs) as (v & Hv & Hvr).
      { rewrite <- Ep in Hf. by eapply utf8_fuel. }
      exists v. split; [done |]. cbn. lia.
Qed.

(** ** What the functions promise *)

(** What is shown to other users is text: whatever bytes were typed, the
    sanitized text is a sequence of characters of Unicode in UTF-8 without control
    characters but tabs, it fits in its buffer, and no byte past the end of the
    source is read. *)
Theorem sanitized_text_is_clean cap s :
  bytes_ok s → 0 < cap →
  ∃ cps, mts_sanitize cap s = Some (chars cps) ∧ Forall allowed cps ∧ zlen (chars cps) < cap.
Proof. intros Hs Hc. by apply (sanitize_loop_clean (length s) cap s []). Qed.

(** A clean text that fits is left as it is. *)
Lemma clean_text_is_kept cap cps :
  Forall allowed cps → zlen (chars cps) < cap → mts_sanitize cap (chars cps) = Some (chars cps).
Proof. intros Ha Hc. by apply (sanitize_loop_same cps (length (chars cps)) cap []). Qed.

(** C31. A line that is cut to a number of columns is shown in no more than them: the
    width of what is left, as the code measures it, is within the limit, and a
    character is never cut in two. *)
Theorem clipped_text_fits cap s max :
  bytes_ok s → 0 < cap → 0 <= max →
  ∃ cps w, mts_clip_width cap s max = Some (chars cps) ∧ Forall scalar cps ∧
    zlen (chars cps) < cap ∧ mts_display_width (chars cps) = Some w ∧ w <= max.
Proof.
  intros Hs Hc Hm.
  destruct (clip_loop_fits (length s) cap max s [] Hs) as (cps & Hcl & Hsc & Hlen & Hcol);
    [done | done | done | done |].
  destruct (display_width_columns (length (chars cps)) cps 0 Hsc) as (w & Hw & Hr); [done |].
  exists cps, w. split_and!; [exact Hcl | done | done | exact Hw | lia].
Qed.

Lemma sanitized_text_is_clean_witness :
  ∃ cps, mts_sanitize 8 [27; ch "["; 0xE2; 0x82; 0xAC; 0x9B; ch "m"; 7; 0xF0; 0x9F] = Some (chars cps) ∧
    Forall allowed cps ∧ zlen (chars cps) < 8.
Proof.
  apply (sanitized_text_is_clean 8 [27; ch "["; 0xE2; 0x82; 0xAC; 0x9B; ch "m"; 7; 0xF0; 0x9F]);
    [repeat constructor; done | done].
Defined.

Lemma clipped_text_fits_witness :
  ∃ cps w, mts_clip_width 1200 [0xE4; 0xB8; 0xAD; ch "a"; 0xE4; 0xB8; 0xAD; ch "b"] 4 = Some (chars cps) ∧
    Forall scalar cps ∧ zlen (chars cps) < 1200 ∧ mts_display_width (chars cps) = Some w ∧ w <= 4.
Proof.
  apply (clipped_text_fits 1200 [0xE4; 0xB8; 0xAD; ch "a"; 0xE4; 0xB8; 0xAD; ch "b"] 4);
    [repeat constructor; done | done | done].
Defined.

(** The sequences that a terminal takes for colours count as text when a line is
    cut, though not when its width is measured: of a coloured line that fits, the
    end and the return to no colour are lost. *)
Lemma colours_are_cut :
  let line := [27] ++ lit "[1;36mname" ++ [27] ++ lit "[0m" in
  mts_display_width line = Some 4 ∧ mts_clip_width 1200 line 10 = Some ([27] ++ lit "[1;36mnam").
Proof. by vm_compute. Qed.

(** The introducer of control sequences that is a single character is kept. *)
Lemma control_sequence_introducer_is_kept : mts_sanitize 513 [0xC2; 0x9B; ch "J"] = Some [0xC2; 0x9B; ch "J"].
Proof. by vm_compute. Qed.

(** Where the buffer is the source, a character after one that is left out is
    copied over itself. *)
Lemma copy_in_place_overlaps : sanitize_in_place 4 513 0 [7; 0xE2; 0x82; 0xAC] [] = None.
Proof. by vm_compute. Qed.

(** ** Every text is read to its end

    Whatever the bytes are: a character that is not whole ends at the terminator
    of the text, which is read and not passed. *)

Lemma decode_within c s : ∃ n cp, decode (c :: s) = Some (n, cp) ∧ 0 <= n <= zlen (c :: s).
Proof.
  destruct s as [| b [| x [| d s]]]; unfold decode, continues, nonzero;
    rewrite ?get_0, ?get_1, ?get_2, ?get_3, ?get_end_1, ?get_end_2, ?get_end_3;
    cbn [mbind option_bind]; change (Z.land 0 192 =? 128) with false; change (negb (0 =? 0)) with false;
    repeat first [by do 2 eexists; split; [reflexivity | zl] | case_match; cbn [and_then mbind option_bind] in *; simplify_eq].
Qed.

Lemma dropZ_shorter {A} n (x : A) l fuel :
  1 <= n → (length (x :: l) <= S fuel)%nat → (length (dropZ n (x :: l)) <= fuel)%nat.
Proof. intros Hn Hl. unfold dropZ. rewrite length_drop. cbn in *. lia. Qed.

Lemma sanitize_loop_is_Some fuel : ∀ cap p o,
  (length p <= fuel)%nat → is_Some (sanitize_loop fuel cap p o).
Proof.
  induction fuel as [| fuel IH]; intros cap p o Hf; [destruct p; [by eexists | cbn in Hf; lia] |].
  destruct p as [| c p]; [by eexists |]. cbn [sanitize_loop].
  destruct (_ <? cap); [| by eexists].
  destruct (control c); [apply IH; cbn in Hf; lia |].
  destruct (decode_within c p) as (n & cp & -> & Hn). cbn [mbind option_bind].
  destruct (Z.eqb_spec n 0); [apply IH; cbn in Hf; lia |].
  destruct (cap <=? _); [by eexists |]. apply IH, dropZ_shorter; [lia | done].
Qed.

Lemma mts_sanitize_is_Some cap s : is_Some (mts_sanitize cap s).
Proof. by apply sanitize_loop_is_Some. Qed.

Lemma clip_loop_is_Some fuel : ∀ cap max p o w,
  (length p <= fuel)%nat → is_Some (clip_loop fuel cap max p o w).
Proof.
  induction fuel as [| fuel IH]; intros cap max p o w Hf; [destruct p; [by eexists | cbn in Hf; lia] |].
  destruct p as [| c p]; [by eexists |]. cbn [clip_loop].
  destruct (_ <? cap); [| by eexists].
  destruct (decode_within c p) as (n & cp & -> & Hn). cbn [mbind option_bind].
  destruct (Z.eqb_spec n 0) as [-> | Hn0].
  - destruct (_ || _); [by eexists |]. apply IH, dropZ_shorter; [lia | done].
  - destruct (_ || _); [by eexists |]. apply IH, dropZ_shorter; [lia | done].
Qed.

Lemma mts_clip_width_is_Some cap s max : is_Some (mts_clip_width cap s max).
Proof. by apply clip_loop_is_Some. Qed.

Lemma split_at_shorter c s l r : split_at c s = (l, Some r) → (length r < length s)%nat.
Proof.
  revert l. induction s as [| x s IH]; intros l; [done |]. cbn.
  destruct (x =? c); [intros [= <- <-]; lia |].
  destruct (split_at c s) as [l' [r' |]]; [| done]. intros [= <- <-]. specialize (IH l' eq_refl). lia.
Qed.

Lemma template_loop_is_Some fuel : ∀ p a t, (length p <= fuel)%nat → is_Some (template_loop fuel p a t).
Proof.
  induction fuel as [| fuel IH]; intros p a t Hf; [destruct p; [by eexists | cbn in Hf; lia] |].
  destruct p as [| c p]; [by eexists |]. cbn [template_loop].
  destruct (split_at (ch "{") (c :: p)) as [l1 [b |]] eqn:E1; [| by eexists].
  destruct (split_at (ch "}") b) as [nm [q |]] eqn:E2; [| by eexists].
  apply split_at_shorter in E1, E2.
  destruct (str_eq nm _); [apply IH; lia |]. destruct (str_eq nm _); [apply IH; lia | by eexists].
Qed.

Lemma action_template_valid_is_Some t : is_Some (action_template_valid t).
Proof. unfold action_template_valid. case_match; [by eexists | by apply template_loop_is_Some]. Qed.

Lemma replace_loop_is_Some fuel : ∀ cap p token value o,
  token ≠ [] → (length p <= fuel)%nat → is_Some (replace_loop fuel cap p token value o).
Proof.
  induction fuel as [| fuel IH]; intros cap p tk v o Ht Hf; [destruct p; [by eexists | cbn in Hf; lia] |].
  destruct p as [| c p]; [by eexists |]. cbn [replace_loop].
  destruct (_ <? cap); [| by eexists].
  destruct (find_str tk (c :: p)) as [[l r] |] eqn:E; [| by eexists].
  apply find_str_shorter in E; [| done]. apply IH; [done | lia].
Qed.

Lemma replace_token_is_Some cap s token value : token ≠ [] → is_Some (replace_token cap s token value).
Proof. intros. by apply replace_loop_is_Some. Qed.

(** Without control characters nothing is left out, so that nothing moves: a
    buffer that is sanitized in place is what another buffer would be. *)
Lemma in_place_agrees fuel : ∀ cap p o,
  Forall (λ c, control c = false) p →
  sanitize_in_place fuel cap (zlen o) p o = sanitize_loop fuel cap p o.
Proof.
  induction fuel as [| fuel IH]; intros cap p o Hp; [by destruct p |].
  destruct p as [| c p]; [done |]. cbn [sanitize_in_place sanitize_loop].
  destruct (_ <? cap); [| done]. pose proof Hp as [Hc Hp']%Forall_cons. rewrite Hc.
  destruct (decode (c :: p)) as [[n cp] |] eqn:Ed; cbn [mbind option_bind]; [| done].
  destruct (Z.eqb_spec n 0).
  - rewrite <- (IH cap p (o ++ [ch "?"])) by done. f_equal. zl.
  - destruct (Z.leb_spec cap (zlen o + n)); [done |].
    replace (0 <? zlen o - zlen o) with false by lia. cbn [andb].
    assert (zlen (takeZ n (c :: p)) = n) as Hl.
    { unfold takeZ. destruct (decode_within c p) as (n' & cp' & E & Hn).
      rewrite Ed in E. injection E as <- <-. unfold zlen in *. rewrite length_take. lia. }
    rewrite <- (IH cap (dropZ n (c :: p)) (o ++ takeZ n (c :: p))) by (by apply Forall_drop).
    f_equal. rewrite zlen_app. lia.
Qed.
