(* ===== verification/MtsStore.v ===== *)
(** The data of the teleconference and its tables: plugins/chat/mts.h and
    plugins/chat/mts_store.c. The statements of the store are modelled as what
    they do to the tables, which are lists of rows in the order of insertion;
    SQLite is assumed to execute them, and its clock is that of the plugin. *)

From S2P Require Import Prelude CLib MtsText.
#[local] Open Scope Z_scope.

Definition MTS_HARD_USERS : Z := 256.
Definition MTS_HARD_ROOMS : Z := 128.
Definition MTS_INBOX : Z := 128.

(** plugins/chat/mts.h:23-33 (mts_event_type_t) *)
Inductive mts_event_type : Type :=
  | MTS_PUBLIC | MTS_DIRECTED | MTS_PRIVATE | MTS_ACTION | MTS_SYSTEM
  | MTS_PRESENCE | MTS_MODERATION | MTS_ANNOUNCEMENT | MTS_AFK_RESPONSE.

#[export] Instance mts_event_type_eq_dec : EqDecision mts_event_type.
Proof. solve_decision. Defined.

(** plugins/chat/mts.h:35-41 (mts_event_t) *)
Record mts_event : Type := MkEvent {
  sequence : Z;
  ev_room : Z;
  timestamp : Z;
  ev_type : mts_event_type;
  sender_id : Z;
  target_id : Z;
  sender : cstr;
  target : cstr;
  text : cstr
}.

Definition zero_event : mts_event := MkEvent 0 0 0 MTS_PUBLIC 0 0 [] [] [].

(** The identifier of a room is [rid], its owner [owner].
    plugins/chat/mts.h:43-50 (mts_room_t) *)
Record mts_room : Type := MkRoom {
  rid : Z;
  name : cstr;
  normalized : cstr;
  topic : cstr;
  owner : Z;
  is_private : bool;
  permanent : bool;
  ractive : bool;
  history : list mts_event;
  history_head : Z;
  history_count : Z;
  history_capacity : Z
}.

Definition set_rid (x : Z) (r : mts_room) : mts_room :=
  MkRoom x (name r) (normalized r) (topic r) (owner r) (is_private r) (permanent r) (ractive r)
    (history r) (history_head r) (history_count r) (history_capacity r).
Definition set_name (x : cstr) (r : mts_room) : mts_room :=
  MkRoom (rid r) x (normalized r) (topic r) (owner r) (is_private r) (permanent r) (ractive r)
    (history r) (history_head r) (history_count r) (history_capacity r).
Definition set_normalized (x : cstr) (r : mts_room) : mts_room :=
  MkRoom (rid r) (name r) x (topic r) (owner r) (is_private r) (permanent r) (ractive r)
    (history r) (history_head r) (history_count r) (history_capacity r).
Definition set_topic (x : cstr) (r : mts_room) : mts_room :=
  MkRoom (rid r) (name r) (normalized r) x (owner r) (is_private r) (permanent r) (ractive r)
    (history r) (history_head r) (history_count r) (history_capacity r).
Definition set_owner (x : Z) (r : mts_room) : mts_room :=
  MkRoom (rid r) (name r) (normalized r) (topic r) x (is_private r) (permanent r) (ractive r)
    (history r) (history_head r) (history_count r) (history_capacity r).
Definition set_is_private (x : bool) (r : mts_room) : mts_room :=
  MkRoom (rid r) (name r) (normalized r) (topic r) (owner r) x (permanent r) (ractive r)
    (history r) (history_head r) (history_count r) (history_capacity r).
Definition set_permanent (x : bool) (r : mts_room) : mts_room :=
  MkRoom (rid r) (name r) (normalized r) (topic r) (owner r) (is_private r) x (ractive r)
    (history r) (history_head r) (history_count r) (history_capacity r).
Definition set_ractive (x : bool) (r : mts_room) : mts_room :=
  MkRoom (rid r) (name r) (normalized r) (topic r) (owner r) (is_private r) (permanent r) x
    (history r) (history_head r) (history_count r) (history_capacity r).
Definition set_history (x : list mts_event) (r : mts_room) : mts_room :=
  MkRoom (rid r) (name r) (normalized r) (topic r) (owner r) (is_private r) (permanent r)
    (ractive r) x (history_head r) (history_count r) (history_capacity r).
Definition set_history_head (x : Z) (r : mts_room) : mts_room :=
  MkRoom (rid r) (name r) (normalized r) (topic r) (owner r) (is_private r) (permanent r)
    (ractive r) (history r) x (history_count r) (history_capacity r).
Definition set_history_count (x : Z) (r : mts_room) : mts_room :=
  MkRoom (rid r) (name r) (normalized r) (topic r) (owner r) (is_private r) (permanent r)
    (ractive r) (history r) (history_head r) x (history_capacity r).
Definition set_history_capacity (x : Z) (r : mts_room) : mts_room :=
  MkRoom (rid r) (name r) (normalized r) (topic r) (owner r) (is_private r) (permanent r)
    (ractive r) (history r) (history_head r) (history_count r) x.

Definition zero_room : mts_room := MkRoom 0 [] [] [] 0 false false false [] 0 0 0.

(** plugins/chat/mts.h:52-57 (mts_preferences_t) *)
Record mts_preferences : Type := MkPrefs {
  timestamps : bool;
  joins : bool;
  actions : bool;
  bell : bool;
  echo : bool;
  color : bool;
  allow_chat_requests : bool;
  directory_visible : bool;
  last_seen_visible : bool;
  profile_visible : bool;
  default_room : Z;
  theme : cstr;
  greeting : cstr;
  farewell : cstr
}.

Definition set_timestamps (x : bool) (r : mts_preferences) : mts_preferences :=
  MkPrefs x (joins r) (actions r) (bell r) (echo r) (color r) (allow_chat_requests r)
    (directory_visible r) (last_seen_visible r) (profile_visible r) (default_room r) (theme r)
    (greeting r) (farewell r).
Definition set_joins (x : bool) (r : mts_preferences) : mts_preferences :=
  MkPrefs (timestamps r) x (actions r) (bell r) (echo r) (color r) (allow_chat_requests r)
    (directory_visible r) (last_seen_visible r) (profile_visible r) (default_room r) (theme r)
    (greeting r) (farewell r).
Definition set_actions (x : bool) (r : mts_preferences) : mts_preferences :=
  MkPrefs (timestamps r) (joins r) x (bell r) (echo r) (color r) (allow_chat_requests r)
    (directory_visible r) (last_seen_visible r) (profile_visible r) (default_room r) (theme r)
    (greeting r) (farewell r).
Definition set_bell (x : bool) (r : mts_preferences) : mts_preferences :=
  MkPrefs (timestamps r) (joins r) (actions r) x (echo r) (color r) (allow_chat_requests r)
    (directory_visible r) (last_seen_visible r) (profile_visible r) (default_room r) (theme r)
    (greeting r) (farewell r).
Definition set_echo (x : bool) (r : mts_preferences) : mts_preferences :=
  MkPrefs (timestamps r) (joins r) (actions r) (bell r) x (color r) (allow_chat_requests r)
    (directory_visible r) (last_seen_visible r) (profile_visible r) (default_room r) (theme r)
    (greeting r) (farewell r).
Definition set_color (x : bool) (r : mts_preferences) : mts_preferences :=
  MkPrefs (timestamps r) (joins r) (actions r) (bell r) (echo r) x (allow_chat_requests r)
    (directory_visible r) (last_seen_visible r) (profile_visible r) (default_room r) (theme r)
    (greeting r) (farewell r).
Definition set_allow_chat_requests (x : bool) (r : mts_preferences) : mts_preferences :=
  MkPrefs (timestamps r) (joins r) (actions r) (bell r) (echo r) (color r) x (directory_visible
    r) (last_seen_visible r) (profile_visible r) (default_room r) (theme r) (greeting r)
    (farewell r).
Definition set_directory_visible (x : bool) (r : mts_preferences) : mts_preferences :=
  MkPrefs (timestamps r) (joins r) (actions r) (bell r) (echo r) (color r) (allow_chat_requests
    r) x (last_seen_visible r) (profile_visible r) (default_room r) (theme r) (greeting r)
    (farewell r).
Definition set_last_seen_visible (x : bool) (r : mts_preferences) : mts_preferences :=
  MkPrefs (timestamps r) (joins r) (actions r) (bell r) (echo r) (color r) (allow_chat_requests
    r) (directory_visible r) x (profile_visible r) (default_room r) (theme r) (greeting r)
    (farewell r).
Definition set_profile_visible (x : bool) (r : mts_preferences) : mts_preferences :=
  MkPrefs (timestamps r) (joins r) (actions r) (bell r) (echo r) (color r) (allow_chat_requests
    r) (directory_visible r) (last_seen_visible r) x (default_room r) (theme r) (greeting r)
    (farewell r).
Definition set_default_room (x : Z) (r : mts_preferences) : mts_preferences :=
  MkPrefs (timestamps r) (joins r) (actions r) (bell r) (echo r) (color r) (allow_chat_requests
    r) (directory_visible r) (last_seen_visible r) (profile_visible r) x (theme r) (greeting r)
    (farewell r).
Definition set_theme (x : cstr) (r : mts_preferences) : mts_preferences :=
  MkPrefs (timestamps r) (joins r) (actions r) (bell r) (echo r) (color r) (allow_chat_requests
    r) (directory_visible r) (last_seen_visible r) (profile_visible r) (default_room r) x
    (greeting r) (farewell r).
Definition set_greeting (x : cstr) (r : mts_preferences) : mts_preferences :=
  MkPrefs (timestamps r) (joins r) (actions r) (bell r) (echo r) (color r) (allow_chat_requests
    r) (directory_visible r) (last_seen_visible r) (profile_visible r) (default_room r) (theme
    r) x (farewell r).
Definition set_farewell (x : cstr) (r : mts_preferences) : mts_preferences :=
  MkPrefs (timestamps r) (joins r) (actions r) (bell r) (echo r) (color r) (allow_chat_requests
    r) (directory_visible r) (last_seen_visible r) (profile_visible r) (default_room r) (theme
    r) (greeting r) x.

(** plugins/chat/mts_store.c:203-212 (mts_store_load_preferences) *)
Definition default_preferences : mts_preferences :=
  MkPrefs true true true false true true true true true true 0 (lit "default") [] [].

(** plugins/chat/mts.h:101-106 (mts_sanction_record_t) *)
Record mts_sanction : Type := MkSanction {
  sn_room : Z;
  sn_user : Z;
  sn_actor : Z;
  sn_created : Z;
  sn_expires : option Z;
  sn_reason : cstr
}.

(** plugins/chat/mts.h:108-113 (mts_audit_record_t) *)
Record mts_audit : Type := MkAudit {
  au_actor : Z;
  au_target : Z;
  au_room : Z;
  au_created : Z;
  au_action : cstr;
  au_reason : cstr
}.

(** A row of mts_visits.
    plugins/chat/mts_store.c:74-76 (mts_store_open) *)
Record mts_visit : Type := MkVisit {
  vi_user : Z;
  vi_handle : cstr;
  vi_entered : Z;
  vi_left : option Z
}.

(** A row of mts_actions.
    plugins/chat/mts_store.c:77-79 (mts_store_open) *)
Record mts_action : Type := MkAction {
  ac_name : cstr;
  ac_template : cstr;
  ac_enabled : bool
}.

(** The tables that the sanctions are in. *)
Inductive sanction_table : Type := ROOM_BANS | ROOM_MUTES | GLOBAL_BANS | GLOBAL_MUTES.

#[export] Instance sanction_table_eq_dec : EqDecision sanction_table.
Proof. solve_decision. Defined.

Definition is_global (t : sanction_table) : bool :=
  match t with GLOBAL_BANS | GLOBAL_MUTES => true | _ => false end.

(** The tables of relations between users. *)
Inductive relation_table : Type := IGNORES | BLOCKS.

#[export] Instance relation_table_eq_dec : EqDecision relation_table.
Proof. solve_decision. Defined.

(** The tables of the database, but for that of the versions.
    plugins/chat/mts_store.c:40-84 (mts_store_open) *)
Record mts_db : Type := MkDb {
  t_rooms : list mts_room;
  t_preferences : list (Z * mts_preferences);
  t_relations : list (relation_table * Z * Z);
  t_profiles : list (Z * cstr);
  t_invitations : list (Z * Z);
  t_sanctions : list (sanction_table * mts_sanction);
  t_history : list mts_event;
  t_visits : list mts_visit;
  t_actions : list mts_action;
  t_audit : list mts_audit
}.

Definition set_t_rooms (x : list mts_room) (r : mts_db) : mts_db :=
  MkDb x (t_preferences r) (t_relations r) (t_profiles r) (t_invitations r) (t_sanctions r)
    (t_history r) (t_visits r) (t_actions r) (t_audit r).
Definition set_t_preferences (x : list (Z * mts_preferences)) (r : mts_db) : mts_db :=
  MkDb (t_rooms r) x (t_relations r) (t_profiles r) (t_invitations r) (t_sanctions r) (t_history
    r) (t_visits r) (t_actions r) (t_audit r).
Definition set_t_relations (x : list (relation_table * Z * Z)) (r : mts_db) : mts_db :=
  MkDb (t_rooms r) (t_preferences r) x (t_profiles r) (t_invitations r) (t_sanctions r)
    (t_history r) (t_visits r) (t_actions r) (t_audit r).
Definition set_t_profiles (x : list (Z * cstr)) (r : mts_db) : mts_db :=
  MkDb (t_rooms r) (t_preferences r) (t_relations r) x (t_invitations r) (t_sanctions r)
    (t_history r) (t_visits r) (t_actions r) (t_audit r).
Definition set_t_invitations (x : list (Z * Z)) (r : mts_db) : mts_db :=
  MkDb (t_rooms r) (t_preferences r) (t_relations r) (t_profiles r) x (t_sanctions r) (t_history
    r) (t_visits r) (t_actions r) (t_audit r).
Definition set_t_sanctions (x : list (sanction_table * mts_sanction)) (r : mts_db) : mts_db :=
  MkDb (t_rooms r) (t_preferences r) (t_relations r) (t_profiles r) (t_invitations r) x
    (t_history r) (t_visits r) (t_actions r) (t_audit r).
Definition set_t_history (x : list mts_event) (r : mts_db) : mts_db :=
  MkDb (t_rooms r) (t_preferences r) (t_relations r) (t_profiles r) (t_invitations r)
    (t_sanctions r) x (t_visits r) (t_actions r) (t_audit r).
Definition set_t_visits (x : list mts_visit) (r : mts_db) : mts_db :=
  MkDb (t_rooms r) (t_preferences r) (t_relations r) (t_profiles r) (t_invitations r)
    (t_sanctions r) (t_history r) x (t_actions r) (t_audit r).
Definition set_t_actions (x : list mts_action) (r : mts_db) : mts_db :=
  MkDb (t_rooms r) (t_preferences r) (t_relations r) (t_profiles r) (t_invitations r)
    (t_sanctions r) (t_history r) (t_visits r) x (t_audit r).
Definition set_t_audit (x : list mts_audit) (r : mts_db) : mts_db :=
  MkDb (t_rooms r) (t_preferences r) (t_relations r) (t_profiles r) (t_invitations r)
    (t_sanctions r) (t_history r) (t_visits r) (t_actions r) x.

(** ** Relations, invitations *)

(** plugins/chat/mts_store.c:272-289 (mts_store_relation) *)
Definition mts_store_relation (t : relation_table) (o v : Z) (add : bool) (d : mts_db) : mts_db :=
  if add then
    if bool_decide ((t, o, v) ∈ t_relations d) then d
    else set_t_relations (t_relations d ++ [(t, o, v)]) d
  else set_t_relations (filter (λ r, r ≠ (t, o, v)) (t_relations d)) d.

(** plugins/chat/mts_store.c:290-304 (mts_store_has_relation) *)
Definition mts_store_has_relation (t : relation_table) (o v : Z) (d : mts_db) : bool :=
  bool_decide ((t, o, v) ∈ t_relations d).

(** plugins/chat/mts_store.c:350-366 (mts_store_invitation) *)
Definition mts_store_invitation (room user : Z) (add : bool) (d : mts_db) : mts_db :=
  let rest := filter (λ r, r ≠ (room, user)) (t_invitations d) in
  set_t_invitations (if add then rest ++ [(room, user)] else rest) d.

(** plugins/chat/mts_store.c:367-377 (mts_store_is_invited) *)
Definition mts_store_is_invited (room user : Z) (d : mts_db) : bool :=
  bool_decide ((room, user) ∈ t_invitations d).

(** ** Sanctions *)

(** The row of a user, of one room unless the table is global. *)
Definition same_sanction (t : sanction_table) (room user : Z) (r : sanction_table * mts_sanction) : bool :=
  bool_decide (r.1 = t) && (sn_user r.2 =? user) && (is_global t || (sn_room r.2 =? room)).

(** A global sanction has no room.
    plugins/chat/mts_store.c:378-417 (mts_store_sanction) *)
Definition mts_store_sanction (now : Z) (t : sanction_table) (room user actor : Z) (reason : cstr)
    (expires : Z) (add : bool) (d : mts_db) : mts_db :=
  let rest := filter (λ r, same_sanction t room user r = false) (t_sanctions d) in
  let row := MkSanction (if is_global t then 0 else room) user actor now
    (if 0 <? expires then Some expires else None) reason in
  set_t_sanctions (if add then rest ++ [(t, row)] else rest) d.

(** A sanction that has not expired. *)
Definition in_force (now : Z) (s : mts_sanction) : bool :=
  match sn_expires s with None => true | Some e => now <? e end.

(** plugins/chat/mts_store.c:418-439 (mts_store_is_sanctioned) *)
Definition mts_store_is_sanctioned (now : Z) (t : sanction_table) (room user : Z) (d : mts_db) : bool :=
  existsb (λ r, same_sanction t room user r && in_force now r.2) (t_sanctions d).

(** A stable sort by the time of creation, the latest first. *)
Fixpoint insert_latest (s : mts_sanction) (l : list mts_sanction) : list mts_sanction :=
  match l with
  | [] => [s]
  | r :: l' => if sn_created r <? sn_created s then s :: l else r :: insert_latest s l'
  end.

(** plugins/chat/mts_store.c:440-473 (mts_store_list_sanctions) *)
Definition mts_store_list_sanctions (now : Z) (t : sanction_table) (room cap : Z) (d : mts_db) :
    list mts_sanction :=
  let rows := filter (λ r, bool_decide (r.1 = t) && (is_global t || (sn_room r.2 =? room)) &&
    in_force now r.2 = true) (t_sanctions d) in
  (λ s, MkSanction (sn_room s) (sn_user s) (sn_actor s) (sn_created s) (sn_expires s)
    (copy_to 256 (sn_reason s))) <$> takeZ cap (foldl (λ l r, insert_latest r.2 l) [] rows).

(** plugins/chat/mts_store.c:501-518 (mts_store_cleanup) *)
Definition mts_store_cleanup (now history_days audit_days : Z) (d : mts_db) : mts_db :=
  let old_events := λ e, timestamp e <? now - history_days * 86400 in
  let old_audit := λ a, au_created a <? now - audit_days * 86400 in
  let fix drop_old {A} (old : A → bool) (n : nat) (l : list A) : list A :=
    match l, n with
    | x :: l, S n' => if old x then drop_old old n' l else x :: drop_old old n l
    | _, _ => l
    end in
  set_t_audit (drop_old old_audit 500%nat (t_audit d))
    (set_t_history (drop_old old_events 500%nat (t_history d))
      (set_t_sanctions (filter (λ r, in_force now r.2 = true) (t_sanctions d)) d)).

(** ** Rooms, preferences, visits, history and audit *)

(** The row of a room is replaced or appended; a second room of the same
    normalized name is refused by the table.
    plugins/chat/mts_store.c:180-201 (mts_store_save_room) *)
Definition mts_store_save_room (r : mts_room) (d : mts_db) : mts_db :=
  if existsb (λ x, str_eq (normalized x) (normalized r) && negb (rid x =? rid r)) (t_rooms d) then d
  else if existsb (λ x, rid x =? rid r) (t_rooms d)
  then set_t_rooms ((λ x, if rid x =? rid r then r else x) <$> t_rooms d) d
  else set_t_rooms (t_rooms d ++ [r]) d.

(** plugins/chat/mts_store.c:541-550 (mts_store_delete_room) *)
Definition mts_store_delete_room (room : Z) (d : mts_db) : mts_db :=
  if room =? 1 then d else set_t_rooms (filter (λ r, rid r ≠ room) (t_rooms d)) d.

(** plugins/chat/mts_store.c:202-243 (mts_store_load_preferences) *)
Definition mts_store_load_preferences (user : Z) (d : mts_db) : mts_preferences :=
  match find (λ r, r.1 =? user) (t_preferences d) with
  | Some (_, p) => p | None => default_preferences
  end.

(** plugins/chat/mts_store.c:244-271 (mts_store_save_preferences) *)
Definition mts_store_save_preferences (user : Z) (p : mts_preferences) (d : mts_db) : mts_db :=
  set_t_preferences (filter (λ r, r.1 ≠ user) (t_preferences d) ++ [(user, p)]) d.

(** plugins/chat/mts_store.c:305-327 (mts_store_history) *)
Definition mts_store_history (persist : bool) (e : mts_event) (d : mts_db) : mts_db :=
  if negb persist || bool_decide (ev_type e = MTS_PRIVATE) || bool_decide (ev_type e = MTS_AFK_RESPONSE)
  then d else set_t_history (t_history d ++ [e]) d.

(** plugins/chat/mts_store.c:328-344 (mts_store_audit) *)
Definition mts_store_audit (now actor target room : Z) (action reason : cstr) (d : mts_db) : mts_db :=
  set_t_audit (t_audit d ++ [MkAudit actor target room now action reason]) d.

(** plugins/chat/mts_store.c:474-500 (mts_store_list_audit) *)
Definition mts_store_list_audit (cap : Z) (d : mts_db) : list mts_audit :=
  (λ a, MkAudit (au_actor a) (au_target a) (au_room a) (au_created a) (copy_to 48 (au_action a))
    (copy_to 256 (au_reason a))) <$> takeZ cap (reverse (t_audit d)).

(** The identifier of a visit is the position of its row.
    plugins/chat/mts_store.c:519-531 (mts_store_visit_start) *)
Definition mts_store_visit_start (now user : Z) (handle : cstr) (d : mts_db) : Z * mts_db :=
  (zlen (t_visits d) + 1, set_t_visits (t_visits d ++ [MkVisit user handle now None]) d).

(** plugins/chat/mts_store.c:532-540 (mts_store_visit_end) *)
Definition mts_store_visit_end (now id : Z) (d : mts_db) : mts_db :=
  match nthZ (t_visits d) (id - 1) with
  | None => d
  | Some v => set_t_visits (<[Z.to_nat (id - 1) := MkVisit (vi_user v) (vi_handle v) (vi_entered v)
      (Some now)]> (t_visits d)) d
  end.
