(* ===== verification/MtsState.v ===== *)
(** The state of the teleconference: plugins/chat/mts_state.c. Sessions are shared:
    they are allocated in a heap, pointed to, and freed. A null pointer that is
    followed, a pointer to memory that was not allocated or has been freed, and a
    write past the end of an array of pointers are undefined: [None]. The room list,
    the sessions that are present and the tables are beside the heap. What is sent
    to a terminal is collected with the session it is for. *)

From stdpp Require Export gmap.
From S2P Require Import Prelude CLib MtsText MtsStore.
#[local] Open Scope Z_scope.

(** plugins/chat/mts.h:86-89 (mts_config_room_t) *)
Record mts_config_room : Type := MkCfgRoom {
  cr_name : cstr;
  cr_topic : cstr;
  cr_private : bool
}.

(** plugins/chat/mts.h:91-99 (mts_config_t) *)
Record mts_config : Type := MkCfg {
  enabled : bool;
  max_users : Z;
  max_rooms : Z;
  max_message_bytes : Z;
  history_per_room : Z;
  history_retention_days : Z;
  messages_per_window : Z;
  rate_window_seconds : Z;
  allow_user_rooms : bool;
  allow_private_rooms : bool;
  max_rooms_per_user : Z;
  moderation_audit_retention_days : Z;
  persist_history : bool;
  cfg_default_room : cstr;
  cfg_rooms : list mts_config_room
}.

Definition set_enabled (x : bool) (r : mts_config) : mts_config :=
  MkCfg x (max_users r) (max_rooms r) (max_message_bytes r) (history_per_room r)
    (history_retention_days r) (messages_per_window r) (rate_window_seconds r) (allow_user_rooms
    r) (allow_private_rooms r) (max_rooms_per_user r) (moderation_audit_retention_days r)
    (persist_history r) (cfg_default_room r) (cfg_rooms r).
Definition set_max_users (x : Z) (r : mts_config) : mts_config :=
  MkCfg (enabled r) x (max_rooms r) (max_message_bytes r) (history_per_room r)
    (history_retention_days r) (messages_per_window r) (rate_window_seconds r) (allow_user_rooms
    r) (allow_private_rooms r) (max_rooms_per_user r) (moderation_audit_retention_days r)
    (persist_history r) (cfg_default_room r) (cfg_rooms r).
Definition set_max_rooms (x : Z) (r : mts_config) : mts_config :=
  MkCfg (enabled r) (max_users r) x (max_message_bytes r) (history_per_room r)
    (history_retention_days r) (messages_per_window r) (rate_window_seconds r) (allow_user_rooms
    r) (allow_private_rooms r) (max_rooms_per_user r) (moderation_audit_retention_days r)
    (persist_history r) (cfg_default_room r) (cfg_rooms r).
Definition set_max_message_bytes (x : Z) (r : mts_config) : mts_config :=
  MkCfg (enabled r) (max_users r) (max_rooms r) x (history_per_room r) (history_retention_days
    r) (messages_per_window r) (rate_window_seconds r) (allow_user_rooms r) (allow_private_rooms
    r) (max_rooms_per_user r) (moderation_audit_retention_days r) (persist_history r)
    (cfg_default_room r) (cfg_rooms r).
Definition set_history_per_room (x : Z) (r : mts_config) : mts_config :=
  MkCfg (enabled r) (max_users r) (max_rooms r) (max_message_bytes r) x (history_retention_days
    r) (messages_per_window r) (rate_window_seconds r) (allow_user_rooms r) (allow_private_rooms
    r) (max_rooms_per_user r) (moderation_audit_retention_days r) (persist_history r)
    (cfg_default_room r) (cfg_rooms r).
Definition set_history_retention_days (x : Z) (r : mts_config) : mts_config :=
  MkCfg (enabled r) (max_users r) (max_rooms r) (max_message_bytes r) (history_per_room r) x
    (messages_per_window r) (rate_window_seconds r) (allow_user_rooms r) (allow_private_rooms r)
    (max_rooms_per_user r) (moderation_audit_retention_days r) (persist_history r)
    (cfg_default_room r) (cfg_rooms r).
Definition set_messages_per_window (x : Z) (r : mts_config) : mts_config :=
  MkCfg (enabled r) (max_users r) (max_rooms r) (max_message_bytes r) (history_per_room r)
    (history_retention_days r) x (rate_window_seconds r) (allow_user_rooms r)
    (allow_private_rooms r) (max_rooms_per_user r) (moderation_audit_retention_days r)
    (persist_history r) (cfg_default_room r) (cfg_rooms r).
Definition set_rate_window_seconds (x : Z) (r : mts_config) : mts_config :=
  MkCfg (enabled r) (max_users r) (max_rooms r) (max_message_bytes r) (history_per_room r)
    (history_retention_days r) (messages_per_window r) x (allow_user_rooms r)
    (allow_private_rooms r) (max_rooms_per_user r) (moderation_audit_retention_days r)
    (persist_history r) (cfg_default_room r) (cfg_rooms r).
Definition set_allow_user_rooms (x : bool) (r : mts_config) : mts_config :=
  MkCfg (enabled r) (max_users r) (max_rooms r) (max_message_bytes r) (history_per_room r)
    (history_retention_days r) (messages_per_window r) (rate_window_seconds r) x
    (allow_private_rooms r) (max_rooms_per_user r) (moderation_audit_retention_days r)
    (persist_history r) (cfg_default_room r) (cfg_rooms r).
Definition set_allow_private_rooms (x : bool) (r : mts_config) : mts_config :=
  MkCfg (enabled r) (max_users r) (max_rooms r) (max_message_bytes r) (history_per_room r)
    (history_retention_days r) (messages_per_window r) (rate_window_seconds r) (allow_user_rooms
    r) x (max_rooms_per_user r) (moderation_audit_retention_days r) (persist_history r)
    (cfg_default_room r) (cfg_rooms r).
Definition set_max_rooms_per_user (x : Z) (r : mts_config) : mts_config :=
  MkCfg (enabled r) (max_users r) (max_rooms r) (max_message_bytes r) (history_per_room r)
    (history_retention_days r) (messages_per_window r) (rate_window_seconds r) (allow_user_rooms
    r) (allow_private_rooms r) x (moderation_audit_retention_days r) (persist_history r)
    (cfg_default_room r) (cfg_rooms r).
Definition set_moderation_audit_retention_days (x : Z) (r : mts_config) : mts_config :=
  MkCfg (enabled r) (max_users r) (max_rooms r) (max_message_bytes r) (history_per_room r)
    (history_retention_days r) (messages_per_window r) (rate_window_seconds r) (allow_user_rooms
    r) (allow_private_rooms r) (max_rooms_per_user r) x (persist_history r) (cfg_default_room r)
    (cfg_rooms r).
Definition set_persist_history (x : bool) (r : mts_config) : mts_config :=
  MkCfg (enabled r) (max_users r) (max_rooms r) (max_message_bytes r) (history_per_room r)
    (history_retention_days r) (messages_per_window r) (rate_window_seconds r) (allow_user_rooms
    r) (allow_private_rooms r) (max_rooms_per_user r) (moderation_audit_retention_days r) x
    (cfg_default_room r) (cfg_rooms r).
Definition set_cfg_default_room (x : cstr) (r : mts_config) : mts_config :=
  MkCfg (enabled r) (max_users r) (max_rooms r) (max_message_bytes r) (history_per_room r)
    (history_retention_days r) (messages_per_window r) (rate_window_seconds r) (allow_user_rooms
    r) (allow_private_rooms r) (max_rooms_per_user r) (moderation_audit_retention_days r)
    (persist_history r) x (cfg_rooms r).
Definition set_cfg_rooms (x : list mts_config_room) (r : mts_config) : mts_config :=
  MkCfg (enabled r) (max_users r) (max_rooms r) (max_message_bytes r) (history_per_room r)
    (history_retention_days r) (messages_per_window r) (rate_window_seconds r) (allow_user_rooms
    r) (allow_private_rooms r) (max_rooms_per_user r) (moderation_audit_retention_days r)
    (persist_history r) (cfg_default_room r) x.

(** The phases of a session.
    plugins/chat/mts.h:15-21 (MTS_LIFE_CREATED) *)
Definition MTS_LIFE_CREATED : Z := 0.
Definition MTS_LIFE_ENTERED : Z := 1.
Definition MTS_LIFE_EXITING : Z := 2.
Definition MTS_LIFE_EXITED : Z := 3.
Definition MTS_LIFE_DESTROYED : Z := 4.

(** Without the locks, last_sequence, which no code reads, and the flags of the
    inbox and the visit, which are set with it.
    plugins/chat/mts.h:59-84 (mts_session_t) *)
Record mts_session : Type := MkSession {
  host_session : Z;
  user_id : Z;
  flags : Z;
  restrictions : Z;
  node : Z;
  ansi : bool;
  active : bool;
  afk : bool;
  muted : bool;
  room_id : Z;
  watch_room : Z;
  visit_id : Z;
  last_private : Z;
  focused_user : Z;
  focus_requested_by : Z;
  watch_all : bool;
  term_cols : Z;
  term_rows : Z;
  lifecycle : Z;
  presence_registered : bool;
  departure_announced : bool;
  cleanup_complete : bool;
  afk_epoch : Z;
  afk_replied : list Z;
  handle : cstr;
  afk_message : cstr;
  prefs : mts_preferences;
  inbox : list mts_event;
  head : Z;
  count : Z;
  skipped : Z;
  rate_started : Z;
  rate_count : Z
}.

Definition set_host_session (x : Z) (r : mts_session) : mts_session :=
  MkSession x (user_id r) (flags r) (restrictions r) (node r) (ansi r) (active r) (afk r) (muted
    r) (room_id r) (watch_room r) (visit_id r) (last_private r) (focused_user r)
    (focus_requested_by r) (watch_all r) (term_cols r) (term_rows r) (lifecycle r)
    (presence_registered r) (departure_announced r) (cleanup_complete r) (afk_epoch r)
    (afk_replied r) (handle r) (afk_message r) (prefs r) (inbox r) (head r) (count r) (skipped
    r) (rate_started r) (rate_count r).
Definition set_user_id (x : Z) (r : mts_session) : mts_session :=
  MkSession (host_session r) x (flags r) (restrictions r) (node r) (ansi r) (active r) (afk r)
    (muted r) (room_id r) (watch_room r) (visit_id r) (last_private r) (focused_user r)
    (focus_requested_by r) (watch_all r) (term_cols r) (term_rows r) (lifecycle r)
    (presence_registered r) (departure_announced r) (cleanup_complete r) (afk_epoch r)
    (afk_replied r) (handle r) (afk_message r) (prefs r) (inbox r) (head r) (count r) (skipped
    r) (rate_started r) (rate_count r).
Definition set_flags (x : Z) (r : mts_session) : mts_session :=
  MkSession (host_session r) (user_id r) x (restrictions r) (node r) (ansi r) (active r) (afk r)
    (muted r) (room_id r) (watch_room r) (visit_id r) (last_private r) (focused_user r)
    (focus_requested_by r) (watch_all r) (term_cols r) (term_rows r) (lifecycle r)
    (presence_registered r) (departure_announced r) (cleanup_complete r) (afk_epoch r)
    (afk_replied r) (handle r) (afk_message r) (prefs r) (inbox r) (head r) (count r) (skipped
    r) (rate_started r) (rate_count r).
Definition set_restrictions (x : Z) (r : mts_session) : mts_session :=
  MkSession (host_session r) (user_id r) (flags r) x (node r) (ansi r) (active r) (afk r) (muted
    r) (room_id r) (watch_room r) (visit_id r) (last_private r) (focused_user r)
    (focus_requested_by r) (watch_all r) (term_cols r) (term_rows r) (lifecycle r)
    (presence_registered r) (departure_announced r) (cleanup_complete r) (afk_epoch r)
    (afk_replied r) (handle r) (afk_message r) (prefs r) (inbox r) (head r) (count r) (skipped
    r) (rate_started r) (rate_count r).
Definition set_node (x : Z) (r : mts_session) : mts_session :=
  MkSession (host_session r) (user_id r) (flags r) (restrictions r) x (ansi r) (active r) (afk
    r) (muted r) (room_id r) (watch_room r) (visit_id r) (last_private r) (focused_user r)
    (focus_requested_by r) (watch_all r) (term_cols r) (term_rows r) (lifecycle r)
    (presence_registered r) (departure_announced r) (cleanup_complete r) (afk_epoch r)
    (afk_replied r) (handle r) (afk_message r) (prefs r) (inbox r) (head r) (count r) (skipped
    r) (rate_started r) (rate_count r).
Definition set_ansi (x : bool) (r : mts_session) : mts_session :=
  MkSession (host_session r) (user_id r) (flags r) (restrictions r) (node r) x (active r) (afk
    r) (muted r) (room_id r) (watch_room r) (visit_id r) (last_private r) (focused_user r)
    (focus_requested_by r) (watch_all r) (term_cols r) (term_rows r) (lifecycle r)
    (presence_registered r) (departure_announced r) (cleanup_complete r) (afk_epoch r)
    (afk_replied r) (handle r) (afk_message r) (prefs r) (inbox r) (head r) (count r) (skipped
    r) (rate_started r) (rate_count r).
Definition set_active (x : bool) (r : mts_session) : mts_session :=
  MkSession (host_session r) (user_id r) (flags r) (restrictions r) (node r) (ansi r) x (afk r)
    (muted r) (room_id r) (watch_room r) (visit_id r) (last_private r) (focused_user r)
    (focus_requested_by r) (watch_all r) (term_cols r) (term_rows r) (lifecycle r)
    (presence_registered r) (departure_announced r) (cleanup_complete r) (afk_epoch r)
    (afk_replied r) (handle r) (afk_message r) (prefs r) (inbox r) (head r) (count r) (skipped
    r) (rate_started r) (rate_count r).
Definition set_afk (x : bool) (r : mts_session) : mts_session :=
  MkSession (host_session r) (user_id r) (flags r) (restrictions r) (node r) (ansi r) (active r)
    x (muted r) (room_id r) (watch_room r) (visit_id r) (last_private r) (focused_user r)
    (focus_requested_by r) (watch_all r) (term_cols r) (term_rows r) (lifecycle r)
    (presence_registered r) (departure_announced r) (cleanup_complete r) (afk_epoch r)
    (afk_replied r) (handle r) (afk_message r) (prefs r) (inbox r) (head r) (count r) (skipped
    r) (rate_started r) (rate_count r).
Definition set_muted (x : bool) (r : mts_session) : mts_session :=
  MkSession (host_session r) (user_id r) (flags r) (restrictions r) (node r) (ansi r) (active r)
    (afk r) x (room_id r) (watch_room r) (visit_id r) (last_private r) (focused_user r)
    (focus_requested_by r) (watch_all r) (term_cols r) (term_rows r) (lifecycle r)
    (presence_registered r) (departure_announced r) (cleanup_complete r) (afk_epoch r)
    (afk_replied r) (handle r) (afk_message r) (prefs r) (inbox r) (head r) (count r) (skipped
    r) (rate_started r) (rate_count r).
Definition set_room_id (x : Z) (r : mts_session) : mts_session :=
  MkSession (host_session r) (user_id r) (flags r) (restrictions r) (node r) (ansi r) (active r)
    (afk r) (muted r) x (watch_room r) (visit_id r) (last_private r) (focused_user r)
    (focus_requested_by r) (watch_all r) (term_cols r) (term_rows r) (lifecycle r)
    (presence_registered r) (departure_announced r) (cleanup_complete r) (afk_epoch r)
    (afk_replied r) (handle r) (afk_message r) (prefs r) (inbox r) (head r) (count r) (skipped
    r) (rate_started r) (rate_count r).
Definition set_watch_room (x : Z) (r : mts_session) : mts_session :=
  MkSession (host_session r) (user_id r) (flags r) (restrictions r) (node r) (ansi r) (active r)
    (afk r) (muted r) (room_id r) x (visit_id r) (last_private r) (focused_user r)
    (focus_requested_by r) (watch_all r) (term_cols r) (term_rows r) (lifecycle r)
    (presence_registered r) (departure_announced r) (cleanup_complete r) (afk_epoch r)
    (afk_replied r) (handle r) (afk_message r) (prefs r) (inbox r) (head r) (count r) (skipped
    r) (rate_started r) (rate_count r).
Definition set_visit_id (x : Z) (r : mts_session) : mts_session :=
  MkSession (host_session r) (user_id r) (flags r) (restrictions r) (node r) (ansi r) (active r)
    (afk r) (muted r) (room_id r) (watch_room r) x (last_private r) (focused_user r)
    (focus_requested_by r) (watch_all r) (term_cols r) (term_rows r) (lifecycle r)
    (presence_registered r) (departure_announced r) (cleanup_complete r) (afk_epoch r)
    (afk_replied r) (handle r) (afk_message r) (prefs r) (inbox r) (head r) (count r) (skipped
    r) (rate_started r) (rate_count r).
Definition set_last_private (x : Z) (r : mts_session) : mts_session :=
  MkSession (host_session r) (user_id r) (flags r) (restrictions r) (node r) (ansi r) (active r)
    (afk r) (muted r) (room_id r) (watch_room r) (visit_id r) x (focused_user r)
    (focus_requested_by r) (watch_all r) (term_cols r) (term_rows r) (lifecycle r)
    (presence_registered r) (departure_announced r) (cleanup_complete r) (afk_epoch r)
    (afk_replied r) (handle r) (afk_message r) (prefs r) (inbox r) (head r) (count r) (skipped
    r) (rate_started r) (rate_count r).
Definition set_focused_user (x : Z) (r : mts_session) : mts_session :=
  MkSession (host_session r) (user_id r) (flags r) (restrictions r) (node r) (ansi r) (active r)
    (afk r) (muted r) (room_id r) (watch_room r) (visit_id r) (last_private r) x
    (focus_requested_by r) (watch_all r) (term_cols r) (term_rows r) (lifecycle r)
    (presence_registered r) (departure_announced r) (cleanup_complete r) (afk_epoch r)
    (afk_replied r) (handle r) (afk_message r) (prefs r) (inbox r) (head r) (count r) (skipped
    r) (rate_started r) (rate_count r).
Definition set_focus_requested_by (x : Z) (r : mts_session) : mts_session :=
  MkSession (host_session r) (user_id r) (flags r) (restrictions r) (node r) (ansi r) (active r)
    (afk r) (muted r) (room_id r) (watch_room r) (visit_id r) (last_private r) (focused_user r)
    x (watch_all r) (term_cols r) (term_rows r) (lifecycle r) (presence_registered r)
    (departure_announced r) (cleanup_complete r) (afk_epoch r) (afk_replied r) (handle r)
    (afk_message r) (prefs r) (inbox r) (head r) (count r) (skipped r) (rate_started r)
    (rate_count r).
Definition set_watch_all (x : bool) (r : mts_session) : mts_session :=
  MkSession (host_session r) (user_id r) (flags r) (restrictions r) (node r) (ansi r) (active r)
    (afk r) (muted r) (room_id r) (watch_room r) (visit_id r) (last_private r) (focused_user r)
    (focus_requested_by r) x (term_cols r) (term_rows r) (lifecycle r) (presence_registered r)
    (departure_announced r) (cleanup_complete r) (afk_epoch r) (afk_replied r) (handle r)
    (afk_message r) (prefs r) (inbox r) (head r) (count r) (skipped r) (rate_started r)
    (rate_count r).
Definition set_term_cols (x : Z) (r : mts_session) : mts_session :=
  MkSession (host_session r) (user_id r) (flags r) (restrictions r) (node r) (ansi r) (active r)
    (afk r) (muted r) (room_id r) (watch_room r) (visit_id r) (last_private r) (focused_user r)
    (focus_requested_by r) (watch_all r) x (term_rows r) (lifecycle r) (presence_registered r)
    (departure_announced r) (cleanup_complete r) (afk_epoch r) (afk_replied r) (handle r)
    (afk_message r) (prefs r) (inbox r) (head r) (count r) (skipped r) (rate_started r)
    (rate_count r).
Definition set_term_rows (x : Z) (r : mts_session) : mts_session :=
  MkSession (host_session r) (user_id r) (flags r) (restrictions r) (node r) (ansi r) (active r)
    (afk r) (muted r) (room_id r) (watch_room r) (visit_id r) (last_private r) (focused_user r)
    (focus_requested_by r) (watch_all r) (term_cols r) x (lifecycle r) (presence_registered r)
    (departure_announced r) (cleanup_complete r) (afk_epoch r) (afk_replied r) (handle r)
    (afk_message r) (prefs r) (inbox r) (head r) (count r) (skipped r) (rate_started r)
    (rate_count r).
Definition set_lifecycle (x : Z) (r : mts_session) : mts_session :=
  MkSession (host_session r) (user_id r) (flags r) (restrictions r) (node r) (ansi r) (active r)
    (afk r) (muted r) (room_id r) (watch_room r) (visit_id r) (last_private r) (focused_user r)
    (focus_requested_by r) (watch_all r) (term_cols r) (term_rows r) x (presence_registered r)
    (departure_announced r) (cleanup_complete r) (afk_epoch r) (afk_replied r) (handle r)
    (afk_message r) (prefs r) (inbox r) (head r) (count r) (skipped r) (rate_started r)
    (rate_count r).
Definition set_presence_registered (x : bool) (r : mts_session) : mts_session :=
  MkSession (host_session r) (user_id r) (flags r) (restrictions r) (node r) (ansi r) (active r)
    (afk r) (muted r) (room_id r) (watch_room r) (visit_id r) (last_private r) (focused_user r)
    (focus_requested_by r) (watch_all r) (term_cols r) (term_rows r) (lifecycle r) x
    (departure_announced r) (cleanup_complete r) (afk_epoch r) (afk_replied r) (handle r)
    (afk_message r) (prefs r) (inbox r) (head r) (count r) (skipped r) (rate_started r)
    (rate_count r).
Definition set_departure_announced (x : bool) (r : mts_session) : mts_session :=
  MkSession (host_session r) (user_id r) (flags r) (restrictions r) (node r) (ansi r) (active r)
    (afk r) (muted r) (room_id r) (watch_room r) (visit_id r) (last_private r) (focused_user r)
    (focus_requested_by r) (watch_all r) (term_cols r) (term_rows r) (lifecycle r)
    (presence_registered r) x (cleanup_complete r) (afk_epoch r) (afk_replied r) (handle r)
    (afk_message r) (prefs r) (inbox r) (head r) (count r) (skipped r) (rate_started r)
    (rate_count r).
Definition set_cleanup_complete (x : bool) (r : mts_session) : mts_session :=
  MkSession (host_session r) (user_id r) (flags r) (restrictions r) (node r) (ansi r) (active r)
    (afk r) (muted r) (room_id r) (watch_room r) (visit_id r) (last_private r) (focused_user r)
    (focus_requested_by r) (watch_all r) (term_cols r) (term_rows r) (lifecycle r)
    (presence_registered r) (departure_announced r) x (afk_epoch r) (afk_replied r) (handle r)
    (afk_message r) (prefs r) (inbox r) (head r) (count r) (skipped r) (rate_started r)
    (rate_count r).
Definition set_afk_epoch (x : Z) (r : mts_session) : mts_session :=
  MkSession (host_session r) (user_id r) (flags r) (restrictions r) (node r) (ansi r) (active r)
    (afk r) (muted r) (room_id r) (watch_room r) (visit_id r) (last_private r) (focused_user r)
    (focus_requested_by r) (watch_all r) (term_cols r) (term_rows r) (lifecycle r)
    (presence_registered r) (departure_announced r) (cleanup_complete r) x (afk_replied r)
    (handle r) (afk_message r) (prefs r) (inbox r) (head r) (count r) (skipped r) (rate_started
    r) (rate_count r).
Definition set_afk_replied (x : list Z) (r : mts_session) : mts_session :=
  MkSession (host_session r) (user_id r) (flags r) (restrictions r) (node r) (ansi r) (active r)
    (afk r) (muted r) (room_id r) (watch_room r) (visit_id r) (last_private r) (focused_user r)
    (focus_requested_by r) (watch_all r) (term_cols r) (term_rows r) (lifecycle r)
    (presence_registered r) (departure_announced r) (cleanup_complete r) (afk_epoch r) x (handle
    r) (afk_message r) (prefs r) (inbox r) (head r) (count r) (skipped r) (rate_started r)
    (rate_count r).
Definition set_handle (x : cstr) (r : mts_session) : mts_session :=
  MkSession (host_session r) (user_id r) (flags r) (restrictions r) (node r) (ansi r) (active r)
    (afk r) (muted r) (room_id r) (watch_room r) (visit_id r) (last_private r) (focused_user r)
    (focus_requested_by r) (watch_all r) (term_cols r) (term_rows r) (lifecycle r)
    (presence_registered r) (departure_announced r) (cleanup_complete r) (afk_epoch r)
    (afk_replied r) x (afk_message r) (prefs r) (inbox r) (head r) (count r) (skipped r)
    (rate_started r) (rate_count r).
Definition set_afk_message (x : cstr) (r : mts_session) : mts_session :=
  MkSession (host_session r) (user_id r) (flags r) (restrictions r) (node r) (ansi r) (active r)
    (afk r) (muted r) (room_id r) (watch_room r) (visit_id r) (last_private r) (focused_user r)
    (focus_requested_by r) (watch_all r) (term_cols r) (term_rows r) (lifecycle r)
    (presence_registered r) (departure_announced r) (cleanup_complete r) (afk_epoch r)
    (afk_replied r) (handle r) x (prefs r) (inbox r) (head r) (count r) (skipped r)
    (rate_started r) (rate_count r).
Definition set_prefs (x : mts_preferences) (r : mts_session) : mts_session :=
  MkSession (host_session r) (user_id r) (flags r) (restrictions r) (node r) (ansi r) (active r)
    (afk r) (muted r) (room_id r) (watch_room r) (visit_id r) (last_private r) (focused_user r)
    (focus_requested_by r) (watch_all r) (term_cols r) (term_rows r) (lifecycle r)
    (presence_registered r) (departure_announced r) (cleanup_complete r) (afk_epoch r)
    (afk_replied r) (handle r) (afk_message r) x (inbox r) (head r) (count r) (skipped r)
    (rate_started r) (rate_count r).
Definition set_inbox (x : list mts_event) (r : mts_session) : mts_session :=
  MkSession (host_session r) (user_id r) (flags r) (restrictions r) (node r) (ansi r) (active r)
    (afk r) (muted r) (room_id r) (watch_room r) (visit_id r) (last_private r) (focused_user r)
    (focus_requested_by r) (watch_all r) (term_cols r) (term_rows r) (lifecycle r)
    (presence_registered r) (departure_announced r) (cleanup_complete r) (afk_epoch r)
    (afk_replied r) (handle r) (afk_message r) (prefs r) x (head r) (count r) (skipped r)
    (rate_started r) (rate_count r).
Definition set_head (x : Z) (r : mts_session) : mts_session :=
  MkSession (host_session r) (user_id r) (flags r) (restrictions r) (node r) (ansi r) (active r)
    (afk r) (muted r) (room_id r) (watch_room r) (visit_id r) (last_private r) (focused_user r)
    (focus_requested_by r) (watch_all r) (term_cols r) (term_rows r) (lifecycle r)
    (presence_registered r) (departure_announced r) (cleanup_complete r) (afk_epoch r)
    (afk_replied r) (handle r) (afk_message r) (prefs r) (inbox r) x (count r) (skipped r)
    (rate_started r) (rate_count r).
Definition set_count (x : Z) (r : mts_session) : mts_session :=
  MkSession (host_session r) (user_id r) (flags r) (restrictions r) (node r) (ansi r) (active r)
    (afk r) (muted r) (room_id r) (watch_room r) (visit_id r) (last_private r) (focused_user r)
    (focus_requested_by r) (watch_all r) (term_cols r) (term_rows r) (lifecycle r)
    (presence_registered r) (departure_announced r) (cleanup_complete r) (afk_epoch r)
    (afk_replied r) (handle r) (afk_message r) (prefs r) (inbox r) (head r) x (skipped r)
    (rate_started r) (rate_count r).
Definition set_skipped (x : Z) (r : mts_session) : mts_session :=
  MkSession (host_session r) (user_id r) (flags r) (restrictions r) (node r) (ansi r) (active r)
    (afk r) (muted r) (room_id r) (watch_room r) (visit_id r) (last_private r) (focused_user r)
    (focus_requested_by r) (watch_all r) (term_cols r) (term_rows r) (lifecycle r)
    (presence_registered r) (departure_announced r) (cleanup_complete r) (afk_epoch r)
    (afk_replied r) (handle r) (afk_message r) (prefs r) (inbox r) (head r) (count r) x
    (rate_started r) (rate_count r).
Definition set_rate_started (x : Z) (r : mts_session) : mts_session :=
  MkSession (host_session r) (user_id r) (flags r) (restrictions r) (node r) (ansi r) (active r)
    (afk r) (muted r) (room_id r) (watch_room r) (visit_id r) (last_private r) (focused_user r)
    (focus_requested_by r) (watch_all r) (term_cols r) (term_rows r) (lifecycle r)
    (presence_registered r) (departure_announced r) (cleanup_complete r) (afk_epoch r)
    (afk_replied r) (handle r) (afk_message r) (prefs r) (inbox r) (head r) (count r) (skipped
    r) x (rate_count r).
Definition set_rate_count (x : Z) (r : mts_session) : mts_session :=
  MkSession (host_session r) (user_id r) (flags r) (restrictions r) (node r) (ansi r) (active r)
    (afk r) (muted r) (room_id r) (watch_room r) (visit_id r) (last_private r) (focused_user r)
    (focus_requested_by r) (watch_all r) (term_cols r) (term_rows r) (lifecycle r)
    (presence_registered r) (departure_announced r) (cleanup_complete r) (afk_epoch r)
    (afk_replied r) (handle r) (afk_message r) (prefs r) (inbox r) (head r) (count r) (skipped
    r) (rate_started r) x.

(** What calloc gives.
    plugins/chat/chat.c:1575-1587 (create) *)
Definition new_session : mts_session :=
  MkSession 0 0 0 0 0 false false false false 0 0 0 0 0 0 false 0 0 MTS_LIFE_CREATED false false
    false 0 [] [] [] (MkPrefs false false false false false false false false false false 0 [] [] [])
    (replicate (Z.to_nat MTS_INBOX) zero_event) 0 0 0 0 0.

(** The locks are not in the record: every operation below that the code runs
    under one is a single step.
    plugins/chat/mts.h:115-130 (mts_state_t) *)
Record mts_state : Type := MkState {
  cfg : mts_config;
  rooms : list mts_room;
  sessions : list nat;
  next_room_id : Z;
  next_sequence : Z;
  initialized : bool;
  shutting_down : bool;
  chat_locked : bool;
  chat_lock_reason : cstr
}.

Definition set_cfg (x : mts_config) (r : mts_state) : mts_state :=
  MkState x (rooms r) (sessions r) (next_room_id r) (next_sequence r) (initialized r)
    (shutting_down r) (chat_locked r) (chat_lock_reason r).
Definition set_rooms (x : list mts_room) (r : mts_state) : mts_state :=
  MkState (cfg r) x (sessions r) (next_room_id r) (next_sequence r) (initialized r)
    (shutting_down r) (chat_locked r) (chat_lock_reason r).
Definition set_sessions (x : list nat) (r : mts_state) : mts_state :=
  MkState (cfg r) (rooms r) x (next_room_id r) (next_sequence r) (initialized r) (shutting_down
    r) (chat_locked r) (chat_lock_reason r).
Definition set_next_room_id (x : Z) (r : mts_state) : mts_state :=
  MkState (cfg r) (rooms r) (sessions r) x (next_sequence r) (initialized r) (shutting_down r)
    (chat_locked r) (chat_lock_reason r).
Definition set_next_sequence (x : Z) (r : mts_state) : mts_state :=
  MkState (cfg r) (rooms r) (sessions r) (next_room_id r) x (initialized r) (shutting_down r)
    (chat_locked r) (chat_lock_reason r).
Definition set_initialized (x : bool) (r : mts_state) : mts_state :=
  MkState (cfg r) (rooms r) (sessions r) (next_room_id r) (next_sequence r) x (shutting_down r)
    (chat_locked r) (chat_lock_reason r).
Definition set_shutting_down (x : bool) (r : mts_state) : mts_state :=
  MkState (cfg r) (rooms r) (sessions r) (next_room_id r) (next_sequence r) (initialized r) x
    (chat_locked r) (chat_lock_reason r).
Definition set_chat_locked (x : bool) (r : mts_state) : mts_state :=
  MkState (cfg r) (rooms r) (sessions r) (next_room_id r) (next_sequence r) (initialized r)
    (shutting_down r) x (chat_lock_reason r).
Definition set_chat_lock_reason (x : cstr) (r : mts_state) : mts_state :=
  MkState (cfg r) (rooms r) (sessions r) (next_room_id r) (next_sequence r) (initialized r)
    (shutting_down r) (chat_locked r) x.

(** The world of the plugin: [MTS], the sessions, the tables, the clock, what was
    written to the terminals, and the lines that the pager is to be answered; [None]
    is a connection that is lost. The heap has the sessions that are allocated;
    [allocated] is the number of sessions there ever were, so that the memory of
    one that is freed is not given out again and a pointer to it stays dangling. *)
Record world : Type := MkWorld {
  MTS : mts_state;
  heap : gmap nat mts_session;
  allocated : nat;
  db : mts_db;
  now : Z;
  sent : list (nat * cstr);
  answers : list (option cstr)
}.

Definition set_MTS (x : mts_state) (r : world) : world :=
  MkWorld x (heap r) (allocated r) (db r) (now r) (sent r) (answers r).
Definition set_heap (x : gmap nat mts_session) (r : world) : world :=
  MkWorld (MTS r) x (allocated r) (db r) (now r) (sent r) (answers r).
Definition set_allocated (x : nat) (r : world) : world :=
  MkWorld (MTS r) (heap r) x (db r) (now r) (sent r) (answers r).
Definition set_db (x : mts_db) (r : world) : world :=
  MkWorld (MTS r) (heap r) (allocated r) x (now r) (sent r) (answers r).
Definition set_now (x : Z) (r : world) : world :=
  MkWorld (MTS r) (heap r) (allocated r) (db r) x (sent r) (answers r).
Definition set_sent (x : list (nat * cstr)) (r : world) : world :=
  MkWorld (MTS r) (heap r) (allocated r) (db r) (now r) x (answers r).
Definition set_answers (x : list (option cstr)) (r : world) : world :=
  MkWorld (MTS r) (heap r) (allocated r) (db r) (now r) (sent r) x.

(** ** Steps on the world *)

Definition M (A : Type) : Type := world → option (A * world).

#[export] Instance M_ret : MRet M := λ A x w, Some (x, w).
#[export] Instance M_bind : MBind M := λ A B f m w, '(x, w) ← m w; f x w.

Definition undefined {A} : M A := λ _, None.
Definition gets {A} (f : world → A) : M A := λ w, Some (f w, w).
Definition modify (f : world → world) : M unit := λ w, Some (tt, f w).
Definition lift {A} (o : option A) : M A := λ w, x ← o; Some (x, w).

(** [*p], and an assignment through it. *)
Definition session (p : nat) : M mts_session := λ w, s ← heap w !! p; Some (s, w).
Definition update (p : nat) (f : mts_session → mts_session) : M unit := λ w,
  s ← heap w !! p; Some (tt, set_heap (<[p := f s]> (heap w)) w).

(** calloc and free. Freeing what is not allocated is undefined. *)
Definition alloc (x : mts_session) : M nat :=
  p ← gets allocated;
  modify (λ w, set_allocated (S p) (set_heap (<[p := x]> (heap w)) w));;
  mret p.
Definition free (p : nat) : M unit := session p;; modify (λ w, set_heap (delete p (heap w)) w).

(** An array of [cap] elements that a loop has written from its start: undefined when
    an element was past its end. *)
Definition filled {A} (cap : Z) (l : list A) : option (list A) := if zlen l <=? cap then Some l else None.

Definition update_MTS (f : mts_state → mts_state) : M unit := modify (λ w, set_MTS (f (MTS w)) w).
Definition update_db (f : mts_db → mts_db) : M unit := modify (λ w, set_db (f (db w)) w).

(** plugins/chat/chat.c:17-19 (out) *)
Definition out (p : nat) (x : cstr) : M unit := modify (λ w, set_sent (sent w ++ [(p, x)]) w).

Fixpoint for_each {A} (f : A → M unit) (l : list A) : M unit :=
  match l with [] => mret tt | x :: l => f x;; for_each f l end.

(** ** Rooms and users *)

(** The rooms that the loops look at. *)
Definition all_rooms : M (list mts_room) :=
  gets (λ w, takeZ (max_rooms (cfg (MTS w))) (rooms (MTS w))).

(** The position of the first, and of the last, room that a loop stops at, or
    does not stop at. *)
Fixpoint first_at {A} (P : A → bool) (l : list A) : option nat :=
  match l with [] => None | x :: l => if P x then Some O else S <$> first_at P l end.

Fixpoint last_at {A} (P : A → bool) (l : list A) : option nat :=
  match l with
  | [] => None
  | x :: l => match last_at P l with Some i => Some (S i) | None => if P x then Some O else None end
  end.

Definition is_room (id : Z) (r : mts_room) : bool := ractive r && (rid r =? id).

(** A write to a room of the array. *)
Definition update_room (i : nat) (f : mts_room → mts_room) : M unit := λ w,
  r ← rooms (MTS w) !! i; Some (tt, set_MTS (set_rooms (<[i := f r]> (rooms (MTS w))) (MTS w)) w).

Definition room_at (i : nat) : M mts_room := λ w, r ← rooms (MTS w) !! i; Some (r, w).

(** plugins/chat/mts_state.c:388-388 (mts_is_sysop) *)
Definition mts_is_sysop (s : mts_session) : bool := Z.testbit (flags s) 0.

(** The position of the room in the array.
    plugins/chat/mts_state.c:356-363 (mts_find_room) *)
Definition mts_find_room (q : cstr) : M (option nat) :=
  rs ← all_rooms;
  mret (first_at (λ r, ractive r && str_eq (normalized r) (normalize MTS_NAME q)) rs).

(** The loop over the sessions: the one that was found, and whether there are
    two users.
    plugins/chat/mts_state.c:372-384 (mts_find_user) *)
Fixpoint find_user_loop (heap : gmap nat mts_session) (is_node : bool) (number : Z) (q : cstr)
    (l : list nat) (found : option nat) : option (option nat * bool) :=
  match l with
  | [] => Some (found, false)
  | p :: l =>
      s ← heap !! p;
      let is_match := if is_node then node s =? number
                      else has_prefix (tolower <$> q) (tolower <$> handle s) in
      if is_match then
        match found with
        | Some f =>
            fs ← heap !! f;
            if user_id fs =? user_id s then find_user_loop heap is_node number q l (Some p)
            else Some (None, true)
        | None => find_user_loop heap is_node number q l (Some p)
        end
      else find_user_loop heap is_node number q l found
  end.

(** The session, and whether the name is ambiguous.
    plugins/chat/mts_state.c:364-387 (mts_find_user) *)
Definition mts_find_user (q : cstr) : M (option nat * bool) :=
  match q with
  | [] => mret (None, false)
  | _ =>
      let '(number, e) := strtoll 10 q in
      w ← gets id;
      lift (find_user_loop (heap w) (bool_decide (e = [])) number q (sessions (MTS w)) None)
  end.

(** ** Events *)

(** The event is put in the inbox; when that is full, a public one takes the
    place of the oldest and a private one is refused.
    plugins/chat/mts_state.c:151-167 (enqueue) *)
Definition enqueue (p : nat) (e : mts_event) (private : bool) : M bool :=
  s ← session p;
  if (count s =? MTS_INBOX) && private then mret false
  else
    (if count s =? MTS_INBOX
     then update p (λ s, set_skipped (u64 (skipped s + 1))
            (set_count (count s - 1) (set_head ((head s + 1) mod MTS_INBOX) s)))
     else mret tt);;
    update p (λ s, set_count (count s + 1)
      (set_inbox (<[Z.to_nat ((head s + count s) mod MTS_INBOX) := e]> (inbox s)) s));;
    mret true.

(** The first events of the inbox, at most [cap], and the number that was lost.
    plugins/chat/mts_state.c:270-274 (mts_drain) *)
Fixpoint drain_loop (n : nat) (s : mts_session) : option (list mts_event * mts_session) :=
  match n with
  | O => Some ([], s)
  | S n =>
      e ← nthZ (inbox s) (head s);
      '(l, s) ← drain_loop n (set_count (count s - 1) (set_head ((head s + 1) mod MTS_INBOX) s));
      Some (e :: l, s)
  end.

(** plugins/chat/mts_state.c:266-279 (mts_drain) *)
Definition mts_drain (p : nat) (cap : Z) : M (list mts_event * Z) :=
  s ← session p;
  '(l, s') ← lift (drain_loop (Z.to_nat (if count s <? cap then count s else cap)) s);
  update p (λ _, set_skipped 0 s');;
  mret (l, skipped s').

Definition is_private_type (t : mts_event_type) : bool :=
  bool_decide (t = MTS_PRIVATE) || bool_decide (t = MTS_AFK_RESPONSE).

(** Whether an event is for a session that is present.
    plugins/chat/mts_state.c:194-200 (mts_publish) *)
Definition is_for (t : mts_event_type) (room target : Z) (room_private : bool) (s : mts_session) : bool :=
  active s &&
  (bool_decide (t = MTS_ANNOUNCEMENT) ||
   (if is_private_type t then user_id s =? target
    else (room_id s =? room) || (watch_room s =? room) ||
         (watch_all s && mts_is_sysop s && negb room_private))).

(** Whether a recipient does not want it, or not from this sender.
    plugins/chat/mts_state.c:207-217 (mts_publish) *)
Definition is_unwanted (d : mts_db) (from : option (nat * Z)) (t : mts_event_type) (p : nat)
    (s : mts_session) : bool :=
  (bool_decide (t = MTS_PRESENCE) && negb (joins (prefs s))) ||
  (bool_decide (t = MTS_ACTION) && negb (actions (prefs s))) ||
  match from with
  | None => false
  | Some (f, fid) =>
      negb (Nat.eqb p f) &&
      (mts_store_has_relation BLOCKS (user_id s) fid d ||
       (negb (is_private_type t) && mts_store_has_relation IGNORES (user_id s) fid d))
  end.

(** One recipient: whether the event was refused, and whether the user is to
    answer it automatically.
    plugins/chat/mts_state.c:207-229 (mts_publish) *)
Definition deliver (from : option (nat * Z)) (e : mts_event) (p : nat) : M (bool * bool) :=
  d ← gets db;
  s ← session p;
  if is_unwanted d from (ev_type e) p s then mret (false, false)
  else
    ok ← enqueue p e (is_private_type (ev_type e));
    match from with
    | Some (_, fid) =>
        if bool_decide (ev_type e = MTS_PRIVATE) && afk s && bool_decide (fid ∉ afk_replied s) &&
           (zlen (afk_replied s) <? 32)
        then
          l ← lift (filled 32 (afk_replied s ++ [fid]));
          update p (set_afk_replied l);; mret (negb ok, true)
        else mret (negb ok, false)
    | None => mret (negb ok, false)
    end.

(** plugins/chat/mts_state.c:205-230 (mts_publish) *)
Fixpoint deliver_all (from : option (nat * Z)) (e : mts_event) (l : list nat) : M (bool * list nat) :=
  match l with
  | [] => mret (false, [])
  | p :: l =>
      '(refused, answers) ← deliver from e p;
      '(failed, auto) ← deliver_all from e l;
      mret (refused || failed, if answers : bool then p :: auto else auto)
  end.

(** The place in the array of the history that an event is written to.
    plugins/chat/mts_state.c:247-250 (mts_publish) *)
Definition history_slot (r : mts_room) : Z :=
  if history_count r =? history_capacity r
  then ((history_head r + 1) mod history_capacity r + history_count r - 1) mod history_capacity r
  else (history_head r + history_count r) mod history_capacity r.

(** plugins/chat/mts_state.c:246-253 (mts_publish) *)
Definition add_history (e : mts_event) (r : mts_room) : mts_room :=
  let cap := history_capacity r in
  if history_count r =? cap then
    let h := (history_head r + 1) mod cap in
    set_history (<[Z.to_nat ((h + history_count r - 1) mod cap) := e]> (history r)) (set_history_head h r)
  else
    set_history (<[Z.to_nat ((history_head r + history_count r) mod cap) := e]> (history r))
      (set_history_count (history_count r + 1) r).

(** The event goes to every history of the room, within its array.
    plugins/chat/mts_state.c:241-256 (mts_publish) *)
Definition record_history (e : mts_event) (room : Z) : M unit :=
  n ← gets (λ w, Z.to_nat (max_rooms (cfg (MTS w))));
  rs ← gets (λ w, rooms (MTS w));
  let has_history r := is_room room r && negb (history_capacity r =? 0) in
  if existsb (λ r, has_history r && negb (history_slot r <? zlen (history r))) (take n rs) then undefined
  else update_MTS (λ st, set_rooms (imap (λ i r,
    if (i <? n)%nat && has_history r then add_history e r else r) (rooms st)) st).

(** Everything under [publish_mu]: the sessions that are to answer automatically.
    plugins/chat/mts_state.c:168-257 (mts_publish) *)
Definition publish_event (f : option nat) (t : mts_event_type) (room target : Z) (tn : option cstr)
    (txt : cstr) : M (list nat) :=
  from ← match f with None => mret None | Some p => s ← session p; mret (Some (p, s)) end;
  txt ← lift (mts_sanitize MTS_TEXT txt);
  w ← gets id;
  let e := MkEvent (next_sequence (MTS w)) room (now w) t
    (match from with Some (_, s) => user_id s | None => 0 end) target
    (match from with Some (_, s) => copy_to MTS_NAME (handle s) | None => [] end)
    (match tn with Some n => copy_to MTS_NAME n | None => [] end) txt in
  update_MTS (λ st, set_next_sequence (u64 (next_sequence st + 1)) st);;
  rs ← all_rooms;
  let room_private := match last_at (is_room room) rs with
                      | Some i => default false (is_private <$> rs !! i) | None => false end in
  all ← lift (mapM (λ p, s ← heap w !! p; Some (p, s)) (sessions (MTS w)));
  rec ← lift (filled MTS_HARD_USERS (filter (λ ps, is_for t room target room_private ps.2 = true) all).*1);
  '(failed, auto) ← deliver_all (prod_map id user_id <$> from) e rec;
  auto ← lift (filled MTS_HARD_USERS auto);
  (match f with
   | Some p => if failed : bool then
       enqueue p (MkEvent (sequence e) room (now w) MTS_SYSTEM 0 target (lit "MTS") (MtsStore.target e)
         (lit "Private message not delivered: recipient inbox is full.")) false;; mret tt
       else mret tt
   | None => mret tt
   end);;
  update_db (mts_store_history (persist_history (cfg (MTS w))) e);;
  (if is_private_type t then mret tt else record_history e room);;
  mret auto.

(** The text of an automatic answer.
    plugins/chat/mts_state.c:259-262 (mts_publish) *)
Definition afk_text (s : mts_session) : cstr :=
  copy_to 256 (lit "AFK: " ++
    match afk_message s with [] => lit "away from the keyboard" | m => m end).

(** The event, and then the automatic answers to it, which are events in turn:
    [fuel] is how deep they go.
    plugins/chat/mts_state.c:168-265 (mts_publish) *)
Fixpoint publish (fuel : nat) (f : option nat) (t : mts_event_type) (room target : Z)
    (tn : option cstr) (txt : cstr) : M unit :=
  auto ← publish_event f t room target tn txt;
  match auto, fuel with
  | [], _ => mret tt
  | _, O => undefined
  | _, S fuel =>
      for_each (λ a,
        s ← session a;
        p ← lift f;
        fs ← session p;
        publish fuel (Some a) MTS_AFK_RESPONSE 0 (user_id fs) (Some (handle fs)) (afk_text s)) auto
  end.

Definition mts_publish : option nat → mts_event_type → Z → Z → option cstr → cstr → M unit :=
  publish 1.

(** ** Joining and leaving *)

(** Whether a session that is present is in the room.
    plugins/chat/mts_state.c:304-306 (mts_join) *)
Definition occupied (room : Z) : M bool :=
  w ← gets id;
  ss ← lift (mapM (λ p, heap w !! p) (sessions (MTS w)));
  mret (existsb (λ s, room_id s =? room) ss).

(** A temporary room is closed when nobody is in it.
    plugins/chat/mts_state.c:302-315 (mts_join) *)
Definition close_if_empty (room : Z) : M unit :=
  o ← occupied room;
  rs ← all_rooms;
  match last_at (λ r, is_room room r && negb (permanent r)) rs with
  | Some slot =>
      if o : bool then mret tt
      else update_room slot (set_ractive false);; update_db (mts_store_delete_room room)
  | None => mret tt
  end.

(** Whether the user may enter: the room as it was under the lock.
    plugins/chat/mts_state.c:281-295 (mts_join) *)
Definition may_join (p : nat) (room : Z) : M bool :=
  rs ← all_rooms;
  match (match last_at (is_room room) rs with Some i => rs !! i | None => None end) with
  | None => mret false
  | Some snapshot =>
      s ← session p;
      w ← gets id;
      let uid := user_id s in
      if negb (mts_is_sysop s) && (mts_store_is_sanctioned (now w) GLOBAL_BANS 0 uid (db w) ||
          mts_store_is_sanctioned (now w) ROOM_BANS room uid (db w)) then mret false
      else if is_private snapshot && negb (mts_is_sysop s) && negb (owner snapshot =? uid) &&
          negb (mts_store_is_invited room uid (db w)) then mret false
      else mret true
  end.

(** Whether the user may not speak in a room.
    plugins/chat/mts_state.c:320-322 (mts_join) *)
Definition is_muted (room uid : Z) : M bool :=
  w ← gets id;
  mret (mts_store_is_sanctioned (now w) GLOBAL_MUTES 0 uid (db w) ||
        mts_store_is_sanctioned (now w) ROOM_MUTES room uid (db w)).

(** The change of the room and what follows it.
    plugins/chat/mts_state.c:296-322 (mts_join) *)
Definition enter_room (p : nat) (room : Z) : M unit :=
  s ← session p;
  let old := room_id s in
  update p (set_room_id room);;
  mts_publish (Some p) MTS_PRESENCE room 0 None (lit "joined the room");;
  (if negb (old =? 0) && negb (old =? room) then close_if_empty old else mret tt);;
  s ← session p;
  m ← is_muted room (user_id s);
  update p (set_muted m).

(** plugins/chat/mts_state.c:280-324 (mts_join) *)
Definition mts_join (p : nat) (room : Z) : M bool :=
  ok ← may_join p room;
  if ok : bool then enter_room p room;; mret true else mret false.

(** The first pointer [p] of the list replaced by the last one.
    plugins/chat/mts_state.c:332-336 (mts_leave) *)
Definition swap_remove (p : nat) (l : list nat) : list nat :=
  match first_at (Nat.eqb p) l, last l with
  | Some i, Some x => take (length l - 1) (<[i := x]> l)
  | _, _ => l
  end.

(** plugins/chat/mts_state.c:325-355 (mts_leave) *)
Definition mts_leave (p : nat) (announce : bool) : M unit :=
  s ← session p;
  if active s then
    let room := room_id s in
    (if announce then mts_publish (Some p) MTS_PRESENCE room 0 None (lit "left the room") else mret tt);;
    update_MTS (λ st, set_sessions (swap_remove p (sessions st)) st);;
    update p (set_active false);;
    t ← gets now;
    (if visit_id s =? 0 then mret tt else update_db (mts_store_visit_end t (visit_id s)));;
    close_if_empty room
  else mret tt.

(** ** Starting *)

(** The rooms of the table, in the order of their identifiers, in the first
    places of the array.
    plugins/chat/mts_store.c:154-179 (mts_store_load_rooms) *)
Fixpoint insert_room (r : mts_room) (l : list mts_room) : list mts_room :=
  match l with
  | [] => [r]
  | x :: l' => if rid r <? rid x then r :: l else x :: insert_room r l'
  end.

(** plugins/chat/mts_store.c:162-176 (mts_store_load_rooms) *)
Fixpoint load_into (rows rooms : list mts_room) (next : Z) : list mts_room * Z :=
  match rows, rooms with
  | r :: rows, _ :: rooms =>
      let '(l, next) := load_into rows rooms (if next <=? rid r then rid r + 1 else next) in
      (MkRoom (rid r) (name r) (normalized r) (topic r) (owner r) (is_private r) (permanent r) true
         [] 0 0 0 :: l, next)
  | _, _ => (rooms, next)
  end.

(** plugins/chat/mts_store.c:154-179 (mts_store_load_rooms) *)
Definition mts_store_load_rooms : M unit :=
  w ← gets id;
  let rows := foldl (λ l r, insert_room r l) [] (t_rooms (db w)) in
  let n := Z.to_nat (max_rooms (cfg (MTS w))) in
  let '(l, next) := load_into rows (take n (rooms (MTS w))) (next_room_id (MTS w)) in
  update_MTS (λ st, set_next_room_id next (set_rooms (l ++ drop n (rooms st)) st)).

(** plugins/chat/mts_state.c:74-78 (mts_state_init) *)
Definition lobby : mts_room :=
  MkRoom 1 (lit "Lobby") (lit "lobby") (lit "Welcome to the Mutineer Teleconference System")
    0 false true true [] 0 0 0.

(** A permanent room that is no longer configured is closed.
    plugins/chat/mts_state.c:81-95 (mts_state_init) *)
Definition close_unconfigured (c : mts_config) (i : nat) : M unit :=
  r ← room_at i;
  if ractive r && negb (rid r =? 1) && permanent r &&
     negb (existsb (λ cr, str_eq (normalize MTS_NAME (cr_name cr)) (normalized r)) (cfg_rooms c))
  then update_room i (set_ractive false);; update_db (mts_store_delete_room (rid r))
  else mret tt.

(** A configured room: false when there is no place for it.
    plugins/chat/mts_state.c:97-123 (mts_state_init) *)
Definition open_configured (cr : mts_config_room) : M bool :=
  let norm := normalize MTS_NAME (cr_name cr) in
  if str_eq norm (lit "lobby") then mret true
  else
    found ← mts_find_room (cr_name cr);
    rs ← all_rooms;
    slot ← (match found with
            | Some i => mret (Some i)
            | None =>
                match first_at (λ r, negb (ractive r)) rs with
                | Some i =>
                    next ← gets (λ w, next_room_id (MTS w));
                    update_room i (λ _, set_ractive true (set_rid next zero_room));;
                    update_MTS (set_next_room_id (u64 (next + 1)));;
                    mret (Some i)
                | None => mret None
                end
            end);
    match slot with
    | None => mret false
    | Some i =>
        update_room i (λ r, set_owner 0 (set_permanent true (set_is_private (cr_private cr)
          (set_topic (copy_to MTS_TOPIC (cr_topic cr)) (set_normalized norm
            (set_name (copy_to MTS_NAME (cr_name cr)) r))))));;
        r ← room_at i;
        update_db (mts_store_save_room r);;
        mret true
    end.

(** plugins/chat/mts_state.c:96-124 (mts_state_init) *)
Fixpoint open_all (l : list mts_config_room) : M bool :=
  match l with
  | [] => mret true
  | cr :: l => ok ← open_configured cr; if ok : bool then open_all l else mret false
  end.

(** plugins/chat/mts_state.c:125-135 (mts_state_init) *)
Definition allocate_histories (c : mts_config) : M unit :=
  update_MTS (λ st, set_rooms (imap (λ i r,
    if (i <? Z.to_nat (max_rooms c))%nat && ractive r && (0 <? history_per_room c)
    then set_history (replicate (Z.to_nat (history_per_room c)) zero_event)
           (set_history_capacity (history_per_room c) r)
    else r) (rooms st)) st).

(** The tables are open; allocation succeeds. False when the configured rooms do
    not fit.
    plugins/chat/mts_state.c:57-138 (mts_state_init) *)
Definition mts_state_init (c : mts_config) : M bool :=
  update_MTS (λ st, MkState c (replicate (Z.to_nat MTS_HARD_ROOMS) zero_room) [] 2 1
    (initialized st) false false (chat_lock_reason st));;
  mts_store_load_rooms;;
  r0 ← room_at 0;
  (if ractive r0 then mret tt
   else update_room 0 (λ _, lobby);; update_db (mts_store_save_room lobby));;
  for_each (close_unconfigured c) (seq 0 (Z.to_nat (max_rooms c)));;
  ok ← open_all (cfg_rooms c);
  if ok : bool then allocate_histories c;; update_MTS (set_initialized true);; mret true
  else mret false.

(** plugins/chat/mts_state.c:139-150 (mts_state_shutdown) *)
Definition mts_state_shutdown : M unit :=
  update_MTS (λ st, set_initialized false (set_rooms ((λ r, set_history [] (set_history_capacity 0 r))
    <$> rooms st) (set_shutting_down true st))).
