(* ===== verification/MtsRender.v ===== *)
(** What the teleconference prints, and the table of its commands:
    plugins/chat/mts_render.c and plugins/chat/mts_command.c. *)

From S2P Require Import Prelude CLib MtsText MtsStore MtsState.
#[local] Open Scope Z_scope.

Definition CRLF : cstr := [13; 10].
Definition ESC : cstr := [27].

(** [%-ns] and [%nd]. *)
Definition pad_right (n : nat) (s : cstr) : cstr := s ++ replicate (n - length s) 32.
Definition pad_d (n : nat) (z : Z) : cstr := pad_left n 32 (fmt_d z).

(** ** Events *)

(** The accent, the alert and the end of both.
    plugins/chat/mts_render.c:114-129 (palette) *)
Definition palette (s : mts_session) : cstr * cstr * cstr :=
  if negb (ansi s) || negb (color (prefs s)) || str_eq (theme (prefs s)) (lit "mono") then ([], [], [])
  else
    let t := theme (prefs s) in
    (if str_eq t (lit "amber") then ESC ++ lit "[1;33m"
     else if str_eq t (lit "high-contrast") then ESC ++ lit "[1;37;44m"
     else if str_eq t (lit "ocean") then ESC ++ lit "[1;34m"
     else ESC ++ lit "[1;36m",
     ESC ++ lit "[1;33m", ESC ++ lit "[0m").

(** The line before it is cut; [stamp] is what the clock of the host shows for a
    time.
    plugins/chat/mts_render.c:135-161 (mts_render_event) *)
Definition event_line (stamp : Z → cstr) (s : mts_session) (e : mts_event) : cstr :=
  let '(a, alert, reset) := palette s in
  let st := if timestamps (prefs s) then copy_to 16 (stamp (timestamp e)) else [] in
  match ev_type e with
  | MTS_ANNOUNCEMENT => st ++ alert ++ lit "[ANNOUNCEMENT] " ++ text e ++ reset
  | MTS_PRIVATE | MTS_AFK_RESPONSE =>
      st ++ a ++ lit "[" ++
      (if bool_decide (ev_type e = MTS_AFK_RESPONSE) then lit "AFK" else lit "private") ++ lit "] " ++
      sender e ++ lit ": " ++ text e ++ (if bell (prefs s) then [7] else []) ++ reset
  | MTS_ACTION => st ++ lit "* " ++ sender e ++ lit " " ++ text e
  | MTS_PRESENCE => st ++ lit "*** " ++ sender e ++ lit " " ++ text e ++ lit " ***"
  | MTS_MODERATION | MTS_SYSTEM => st ++ alert ++ lit "[MTS] " ++ text e ++ reset
  | MTS_PUBLIC | MTS_DIRECTED =>
      if negb (ev_room e =? 0) && negb (ev_room e =? room_id s) then
        st ++ lit "[watch:" ++ fmt_d (ev_room e) ++ lit "] " ++ a ++ sender e ++ reset ++ lit ": " ++ text e
      else if bool_decide (ev_type e = MTS_DIRECTED) then
        st ++ a ++ sender e ++ reset ++ lit " > " ++ target e ++ lit ": " ++ text e
      else st ++ a ++ sender e ++ reset ++ lit ": " ++ text e
  end.

(** plugins/chat/mts_render.c:130-166 (mts_render_event) *)
Definition mts_render_event (stamp : Z → cstr) (s : mts_session) (e : mts_event) (cap : Z) : option cstr :=
  clipped ← mts_clip_width 1200 (copy_to 1200 (event_line stamp s e))
    (if 20 <=? term_cols s then term_cols s else 80);
  Some (copy_to cap (CRLF ++ clipped ++ CRLF)).

(** ** Pages *)

(** plugins/chat/mts_render.h:9-13 (mts_pager_t) *)
Record mts_pager : Type := MkPager {
  pg_session : nat;
  page_rows : Z;
  rows_used : Z;
  stopped : bool
}.

Definition set_pg_session (x : nat) (r : mts_pager) : mts_pager :=
  MkPager x (page_rows r) (rows_used r) (stopped r).
Definition set_page_rows (x : Z) (r : mts_pager) : mts_pager :=
  MkPager (pg_session r) x (rows_used r) (stopped r).
Definition set_rows_used (x : Z) (r : mts_pager) : mts_pager :=
  MkPager (pg_session r) (page_rows r) x (stopped r).
Definition set_stopped (x : bool) (r : mts_pager) : mts_pager :=
  MkPager (pg_session r) (page_rows r) (rows_used r) x.

(** plugins/chat/mts_render.c:171-178 (mts_pager_begin) *)
Definition mts_pager_begin (p : nat) (heading : cstr) : M mts_pager :=
  s ← session p;
  let pg := MkPager p (if 8 <=? term_rows s then term_rows s - 3 else 21) 0 false in
  match heading with
  | [] => mret pg
  | _ => out p heading;; mret (set_rows_used 1 pg)
  end.

(** The answer to the pager: the next of those that arrive. *)
Definition readline : M (option cstr) := λ w,
  match answers w with
  | [] => Some (None, w)
  | a :: l => Some (a, set_answers l w)
  end.

(** The line is written, after a full page when the user wants more.
    plugins/chat/mts_render.c:193-201 (mts_pager_line) *)
Definition pager_show (pg : mts_pager) (line : cstr) : M (bool * mts_pager) :=
  s ← session (pg_session pg);
  clipped ← lift (mts_clip_width 1400 line (if 20 <=? term_cols s then term_cols s else 80));
  out (pg_session pg) clipped;;
  (if bool_decide (10 ∈ clipped) then mret tt else out (pg_session pg) CRLF);;
  mret (true, set_rows_used (rows_used pg + 1) pg).

(** plugins/chat/mts_render.c:179-202 (mts_pager_line) *)
Definition mts_pager_line (pg : mts_pager) (line : cstr) : M (bool * mts_pager) :=
  if stopped pg then mret (false, pg)
  else if page_rows pg <=? rows_used pg then
    out (pg_session pg) (lit "-- More -- [Enter/q] ");;
    a ← readline;
    out (pg_session pg) CRLF;;
    let quit := match a with
                | None => true
                | Some l => (char_at l 0 =? ch "q") || (char_at l 0 =? ch "Q")
                end in
    if quit : bool then mret (false, set_stopped true pg)
    else pager_show (set_rows_used 0 pg) line
  else pager_show pg line.

(** The lines until the pager is stopped. *)
Fixpoint pager_lines (pg : mts_pager) (l : list cstr) : M mts_pager :=
  match l with
  | [] => mret pg
  | x :: l =>
      '(more, pg) ← mts_pager_line pg x;
      if more : bool then pager_lines pg l else mret pg
  end.

(** A heading and a list of lines. *)
Definition show_list (p : nat) (heading : cstr) (l : list cstr) : M mts_pager :=
  pg ← mts_pager_begin p heading; pager_lines pg l.

(** ** Commands *)

(** plugins/chat/mts_command.h:3-3 (mts_role_t) *)
Inductive mts_role : Type := MTS_ROLE_USER | MTS_ROLE_MODERATOR | MTS_ROLE_SYSOP.

#[export] Instance mts_role_eq_dec : EqDecision mts_role.
Proof. solve_decision. Defined.

(** The handler of a command is bound to it by its name.
    plugins/chat/mts_command.h:7-12 (mts_command_def_t) *)
Record mts_command_def : Type := MkCmd {
  cmd_name : cstr;
  aliases : cstr;
  syntax : cstr;
  summary : cstr;
  detail : cstr;
  role : mts_role;
  min_args : Z;
  max_args : Z
}.

(** plugins/chat/mts_command.c:9-108 (C) *)
Definition mts_commands : list mts_command_def := [
  MkCmd (lit "help") (lit "?") (lit "/help [command]")
    (lit "Show command help")
    (lit "Help is generated from the MTS command registry.") MTS_ROLE_USER 0 1;
  MkCmd (lit "rooms") (lit "r") (lit "/rooms [admin]")
    (lit "List rooms")
    (lit "Sysops may add admin for ownership and occupancy details.") MTS_ROLE_USER 0 1;
  MkCmd (lit "join") (lit "j") (lit "/join <room>")
    (lit "Join a room")
    (lit "Private rooms require ownership, invitation, or sysop access.") MTS_ROLE_USER 1 1;
  MkCmd (lit "leave") (lit "l") (lit "/leave")
    (lit "Return to Lobby")
    (lit "Lobby is immutable and always available.") MTS_ROLE_USER 0 0;
  MkCmd (lit "who") (lit "s") (lit "/who [room]")
    (lit "List room occupants")
    (lit "Shows node, AFK state, and role.") MTS_ROLE_USER 0 1;
  MkCmd (lit "topic") (lit "t") (lit "/topic [text]")
    (lit "View or set topic")
    (lit "Setting requires room moderator authority.") MTS_ROLE_USER 0 (-1);
  MkCmd (lit "msg") (lit "m") (lit "/msg <user> <message>")
    (lit "Send private message")
    (lit "Aliases include /<user> message.") MTS_ROLE_USER 2 (-1);
  MkCmd (lit "reply") (lit "//") (lit "/reply <message>")
    (lit "Reply privately")
    (lit "Replies to the last private correspondent.") MTS_ROLE_USER 1 (-1);
  MkCmd (lit "me") (lit "em") (lit "/me <action>")
    (lit "Send an action")
    (lit "Actions obey recipient visibility preferences.") MTS_ROLE_USER 1 (-1);
  MkCmd (lit "afk") [] (lit "/afk [message]")
    (lit "Toggle AFK")
    (lit "One automatic response is sent per sender and AFK epoch.") MTS_ROLE_USER 0 (-1);
  MkCmd (lit "ignore") [] (lit "/ignore <user>")
    (lit "Ignore public traffic")
    (lit "Relationships are stored by stable user ID.") MTS_ROLE_USER 1 1;
  MkCmd (lit "unignore") [] (lit "/unignore <user>")
    (lit "Remove ignore")
    [] MTS_ROLE_USER 1 1;
  MkCmd (lit "ignores") [] (lit "/ignores")
    (lit "List ignores")
    [] MTS_ROLE_USER 0 0;
  MkCmd (lit "block") [] (lit "/block <user>")
    (lit "Block private traffic")
    [] MTS_ROLE_USER 1 1;
  MkCmd (lit "unblock") [] (lit "/unblock <user>")
    (lit "Remove block")
    [] MTS_ROLE_USER 1 1;
  MkCmd (lit "blocks") [] (lit "/blocks")
    (lit "List blocks")
    [] MTS_ROLE_USER 0 0;
  MkCmd (lit "settings") [] (lit "/settings [key value|reset]")
    (lit "Manage preferences")
    (lit "Supports display, room, greeting, farewell, request, and privacy settings.") MTS_ROLE_USER 0 (-1);
  MkCmd (lit "create") [] (lit "/create <room>")
    (lit "Create temporary room")
    [] MTS_ROLE_USER 1 1;
  MkCmd (lit "rename") [] (lit "/rename <room>")
    (lit "Rename current room")
    [] MTS_ROLE_MODERATOR 1 1;
  MkCmd (lit "public") [] (lit "/public")
    (lit "Make room public")
    [] MTS_ROLE_MODERATOR 0 0;
  MkCmd (lit "private") [] (lit "/private")
    (lit "Make room private")
    [] MTS_ROLE_MODERATOR 0 0;
  MkCmd (lit "invite") [] (lit "/invite <user>")
    (lit "Invite user")
    [] MTS_ROLE_MODERATOR 1 1;
  MkCmd (lit "uninvite") [] (lit "/uninvite <user>")
    (lit "Remove invitation")
    [] MTS_ROLE_MODERATOR 1 1;
  MkCmd (lit "transfer") [] (lit "/transfer <user> <reason>")
    (lit "Transfer ownership")
    [] MTS_ROLE_MODERATOR 2 (-1);
  MkCmd (lit "kick") [] (lit "/kick <user> <reason>")
    (lit "Kick user")
    [] MTS_ROLE_MODERATOR 2 (-1);
  MkCmd (lit "ban") [] (lit "/ban <user> [duration] <reason>")
    (lit "Ban user")
    [] MTS_ROLE_MODERATOR 2 (-1);
  MkCmd (lit "unban") [] (lit "/unban <user>")
    (lit "Remove ban")
    [] MTS_ROLE_MODERATOR 1 1;
  MkCmd (lit "bans") [] (lit "/bans")
    (lit "List bans")
    [] MTS_ROLE_MODERATOR 0 0;
  MkCmd (lit "mute") [] (lit "/mute <user> [duration] <reason>")
    (lit "Mute user")
    [] MTS_ROLE_MODERATOR 2 (-1);
  MkCmd (lit "unmute") [] (lit "/unmute <user>")
    (lit "Remove mute")
    [] MTS_ROLE_MODERATOR 1 1;
  MkCmd (lit "mutes") [] (lit "/mutes")
    (lit "List mutes")
    [] MTS_ROLE_MODERATOR 0 0;
  MkCmd (lit "announce") [] (lit "/announce <message>")
    (lit "Global announcement")
    [] MTS_ROLE_SYSOP 1 (-1);
  MkCmd (lit "chatlock") [] (lit "/chatlock [reason]")
    (lit "Toggle chat lock")
    [] MTS_ROLE_SYSOP 0 (-1);
  MkCmd (lit "close") [] (lit "/close <room> <reason>")
    (lit "Close room")
    [] MTS_ROLE_SYSOP 2 (-1);
  MkCmd (lit "globalmute") [] (lit "/globalmute <user> [duration] <reason>")
    (lit "Globally mute")
    [] MTS_ROLE_SYSOP 2 (-1);
  MkCmd (lit "unglobalmute") [] (lit "/unglobalmute <user>")
    (lit "Remove global mute")
    [] MTS_ROLE_SYSOP 1 1;
  MkCmd (lit "globalban") [] (lit "/globalban <user> [duration] <reason>")
    (lit "Globally ban")
    [] MTS_ROLE_SYSOP 2 (-1);
  MkCmd (lit "unglobalban") [] (lit "/unglobalban <user>")
    (lit "Remove global ban")
    [] MTS_ROLE_SYSOP 1 1;
  MkCmd (lit "mitsaudit") [] (lit "/mitsaudit [count]")
    (lit "View moderation audit")
    [] MTS_ROLE_SYSOP 0 1;
  MkCmd (lit "profile") [] (lit "/profile [set text|user]")
    (lit "View or edit profile")
    [] MTS_ROLE_USER 0 (-1);
  MkCmd (lit "members") (lit "sc") (lit "/members [prefix]")
    (lit "List members")
    [] MTS_ROLE_USER 0 1;
  MkCmd (lit "recent") [] (lit "/recent")
    (lit "List recent users")
    [] MTS_ROLE_USER 0 0;
  MkCmd (lit "history") [] (lit "/history [count]")
    (lit "Show room history")
    [] MTS_ROLE_USER 0 1;
  MkCmd (lit "search") [] (lit "/search <text>")
    (lit "Search room history")
    [] MTS_ROLE_USER 1 (-1);
  MkCmd (lit "actions") [] (lit "/actions")
    (lit "List named actions")
    [] MTS_ROLE_USER 0 0;
  MkCmd (lit "action") [] (lit "/action <name> [user]")
    (lit "Run named action")
    (lit "Sysops may add or disable validated templates.") MTS_ROLE_USER 1 (-1);
  MkCmd (lit "stats") [] (lit "/stats")
    (lit "Show personal statistics")
    [] MTS_ROLE_USER 0 0;
  MkCmd (lit "chat") [] (lit "/chat <user>")
    (lit "Request focused chat")
    [] MTS_ROLE_USER 1 1;
  MkCmd (lit "accept") [] (lit "/accept")
    (lit "Accept focused chat")
    [] MTS_ROLE_USER 0 0;
  MkCmd (lit "decline") [] (lit "/decline")
    (lit "Decline or end focused chat")
    [] MTS_ROLE_USER 0 0;
  MkCmd (lit "watch") [] (lit "/watch <room|all>")
    (lit "Watch public room traffic")
    [] MTS_ROLE_USER 1 1;
  MkCmd (lit "unwatch") [] (lit "/unwatch")
    (lit "Stop watching")
    [] MTS_ROLE_USER 0 0;
  MkCmd (lit "quit") (lit "q,exit") (lit "/quit")
    (lit "Leave MTS")
    [] MTS_ROLE_USER 0 0
].

(** The words between commas, as strtok_r finds them. *)
Fixpoint tokens (sep : Z) (s cur : cstr) : list cstr :=
  match s with
  | [] => match cur with [] => [] | _ => [cur] end
  | c :: s =>
      if c =? sep then match cur with [] => tokens sep s [] | _ => cur :: tokens sep s [] end
      else tokens sep s (cur ++ [c])
  end.

(** plugins/chat/mts_command.c:118-134 (mts_command_find) *)
Definition mts_command_find (name : cstr) : option mts_command_def :=
  find (λ c, strcase_eq name (cmd_name c) ||
    existsb (strcase_eq name) (tokens (ch ",") (copy_to 64 (aliases c)) [])) mts_commands.
