(* ===== verification/MtsChat.v ===== *)
(** The commands of the teleconference: plugins/chat/chat.c. A handler has the
    session, the rest of the line and the command as it was typed, in small
    letters. What the board answers about users and sessions is the record
    [host]. The commands that only print joins of tables (members, recent,
    search, stats) are left out. *)

From S2P Require Import Prelude CLib MtsText MtsStore MtsState MtsRender.
#[local] Open Scope Z_scope.

Definition AC_RCHAT : Z := 1.

Inductive user_resolve_result : Type :=
  | USER_FOUND (id : Z)
  | USER_AMBIGUOUS
  | USER_NOT_FOUND.

(** What the board is asked: users by name and by number, and what the clock
    shows. *)
Record host : Type := MkHost {
  user_resolve : cstr → user_resolve_result;
  user_lookup_id : Z → option cstr;
  stamp : Z → cstr
}.

Section handlers.
Context (H : host).

Definition say (p : nat) (s : cstr) : M unit := out p (s ++ CRLF).

(** plugins/chat/chat.c:20-26 (clear_afk) *)
Definition clear_afk (p : nat) : M unit :=
  s ← session p;
  if afk s then
    update p (λ s, set_afk_replied [] (set_afk false s));;
    mts_publish (Some p) MTS_PRESENCE (room_id s) 0 None (lit "is back")
  else mret tt.

(** plugins/chat/chat.c:27-31 (render) *)
Definition render (p : nat) (e : mts_event) : M unit :=
  s ← session p; b ← lift (mts_render_event (stamp H) s e 1400); out p b.

(** plugins/chat/chat.c:32-45 (flush) *)
Definition flush (p : nat) : M unit :=
  '(l, lost) ← mts_drain p 32;
  (if lost =? 0 then mret tt
   else out p (copy_to 128 (CRLF ++ lit "[Skipped " ++ fmt_d lost ++
          lit " public messages while you were away]" ++ CRLF)));;
  for_each (render p) l.

(** The user who is meant, who must be present.
    plugins/chat/chat.c:61-69 (target) *)
Definition target (p : nat) (q : cstr) : M (option nat) :=
  '(u, amb) ← mts_find_user q;
  match u with
  | Some u => mret (Some u)
  | None =>
      say p (if amb : bool then lit "Ambiguous user." else lit "User is not active in MTS.");;
      mret None
  end.

(** The number of the user, 0 when there is none, and the session when the user
    was found by the name of one.
    plugins/chat/chat.c:70-97 (target_id) *)
Definition target_id (p : nat) (q : cstr) : M (Z * option nat) :=
  let '(id, e) := strtoul q in
  if negb (bool_decide (q = [])) && bool_decide (e = []) && (0 <? id) && (id <=? 2 ^ 32 - 1)
  then mret (id, None)
  else
    '(u, amb) ← mts_find_user q;
    match u with
    | Some u => s ← session u; mret (user_id s, Some u)
    | None =>
        if amb : bool then say p (lit "Ambiguous user.");; mret (0, None)
        else
          match user_resolve H q with
          | USER_AMBIGUOUS => say p (lit "Ambiguous user.");; mret (0, None)
          | USER_FOUND id => mret (id, None)
          | USER_NOT_FOUND => say p (lit "User not found.");; mret (0, None)
          end
    end.

(** plugins/chat/chat.c:98-103 (current_room) *)
Definition current_room (p : nat) : M (option nat) :=
  s ← session p; rs ← all_rooms; mret (first_at (is_room (room_id s)) rs).

(** plugins/chat/chat.c:104-106 (room_admin) *)
Definition room_admin (p : nat) (r : option nat) : M bool :=
  s ← session p;
  match r with
  | None => mret (mts_is_sysop s)
  | Some i => r ← room_at i; mret (mts_is_sysop s || (owner r =? user_id s))
  end.

(** The last session of the user. *)
Definition session_of (uid : Z) : M (option nat) :=
  w ← gets id;
  ss ← lift (mapM (λ p, s ← heap w !! p; Some (p, s)) (sessions (MTS w)));
  mret (fst <$> last (filter (λ ps, user_id ps.2 = uid) ss)).

(** The sessions that are present with a number of the user have it taken off. *)
Definition unfocus_all (uid : Z) : M unit :=
  l ← gets (λ w, sessions (MTS w));
  for_each (λ p, update p (λ s, if user_id s =? uid then set_focused_user 0 s else s)) l.

(** plugins/chat/chat.c:107-135 (identity_name) *)
Definition identity_name (id capacity : Z) : M cstr :=
  w ← gets Datatypes.id;
  ss ← lift (mapM (λ p, heap w !! p) (sessions (MTS w)));
  let here := match find (λ s, user_id s =? id) ss with
              | Some s => copy_to capacity (handle s) | None => [] end in
  name ← (match here, user_lookup_id H id with
          | [], Some h => lift (mts_sanitize capacity h)
          | _, _ => mret here
          end);
  name ← (match name, last (filter (λ v, vi_user v = id) (t_visits (db w))) with
          | [], Some v => lift (mts_sanitize capacity (vi_handle v))
          | _, _ => mret name
          end);
  mret (match name with [] => copy_to capacity (lit "unknown") | _ => name end).

(** plugins/chat/chat.c:136-149 (expiry_text) *)
Definition expiry_text (now expires : Z) : cstr :=
  if expires =? 0 then lit "permanent"
  else
    let left := if expires - now <? 0 then 0 else expires - now in
    copy_to 128 (lit "expires=" ++ fmt_d expires ++ lit " (" ++ fmt_d (left / 86400) ++ lit "d " ++
      fmt_d (left mod 86400 / 3600) ++ lit "h " ++ fmt_d (left mod 3600 / 60) ++ lit "m remaining)").

(** plugins/chat/chat.c:157-166 (list_sanctions) *)
Definition sanction_line (s : mts_sanction) : M cstr :=
  t ← gets now;
  user ← identity_name (sn_user s) MTS_NAME;
  actor ← identity_name (sn_actor s) MTS_NAME;
  mret (copy_to 768 (lit "  #" ++ fmt_d (sn_user s) ++ lit " " ++ user ++ lit "; actor=#" ++
    fmt_d (sn_actor s) ++ lit " " ++ actor ++ lit "; created=" ++ fmt_d (sn_created s) ++ lit "; " ++
    expiry_text t (default 0 (sn_expires s)) ++ lit "; reason=" ++ sn_reason s ++ CRLF)).

Fixpoint map_each {A B} (f : A → M B) (l : list A) : M (list B) :=
  match l with [] => mret [] | x :: l => y ← f x; r ← map_each f l; mret (y :: r) end.

(** plugins/chat/chat.c:150-170 (list_sanctions) *)
Definition list_sanctions (p : nat) (t : sanction_table) (heading : cstr) (room : Z) : M unit :=
  w ← gets id;
  let rows := mts_store_list_sanctions (now w) t room 100 (db w) in
  lines ← map_each sanction_line rows;
  pg ← show_list p heading lines;
  match rows with [] => mts_pager_line pg (lit "  (none)");; mret tt | _ => mret tt end.

(** plugins/chat/chat.c:180-193 (list_audit) *)
Definition audit_line (a : mts_audit) : M cstr :=
  actor ← identity_name (au_actor a) MTS_NAME;
  tgt ← identity_name (au_target a) MTS_NAME;
  mret (copy_to 768 (lit "  created=" ++ fmt_d (au_created a) ++ lit " action=" ++ au_action a ++
    lit " actor=#" ++ fmt_d (au_actor a) ++ lit " " ++ actor ++ lit " target=#" ++
    fmt_d (au_target a) ++ lit " " ++ tgt ++ lit " room=" ++ fmt_d (au_room a) ++
    lit " reason=" ++ au_reason a ++ CRLF)).

(** plugins/chat/chat.c:171-197 (list_audit) *)
Definition list_audit (p : nat) (cnt : Z) : M unit :=
  w ← gets id;
  let cnt := if cnt <? 1 then 20 else cnt in
  let cnt := if 100 <? cnt then 100 else cnt in
  let rows := mts_store_list_audit cnt (db w) in
  lines ← map_each audit_line rows;
  pg ← show_list p (lit "MTS moderation audit:" ++ CRLF) lines;
  match rows with [] => mts_pager_line pg (lit "  (none)");; mret tt | _ => mret tt end.

(** plugins/chat/chat.c:46-60 (help) *)
Definition help (p : nat) : M unit :=
  s ← session p;
  let shown := filter (λ c, negb (bool_decide (role c = MTS_ROLE_SYSOP)) || mts_is_sysop s = true)
                 mts_commands in
  pg ← show_list p (CRLF ++ lit "MTS commands:" ++ CRLF)
    ((λ c, copy_to 256 (lit "  " ++ pad_right 36 (syntax c) ++ lit " " ++ summary c ++ CRLF)) <$> shown);
  mts_pager_line pg (lit "Use /help <command> for details.");;
  mret tt.

(** The sessions that are present, in their order. *)
Definition present : M (list mts_session) :=
  w ← gets id; lift (mapM (λ p, heap w !! p) (sessions (MTS w))).

Definition occupants (ss : list mts_session) (r : mts_room) : Z :=
  zlen (filter (λ s, room_id s = rid r) ss).

(** plugins/chat/chat.c:276-294 (rooms) *)
Definition show_rooms (p : nat) : M unit :=
  rs ← all_rooms; ss ← present;
  show_list p (CRLF ++ lit "Rooms:" ++ CRLF)
    ((λ r, copy_to 384 (lit "  " ++ pad_right 20 (name r) ++ lit " " ++ pad_d 3 (occupants ss r) ++
        lit "  " ++ topic r)) <$> filter (λ r, ractive r && negb (is_private r) = true) rs);;
  mret tt.

(** plugins/chat/chat.c:295-309 (who) *)
Definition who (p : nat) : M unit :=
  s ← session p; ss ← present;
  show_list p (CRLF ++ lit "Present:" ++ CRLF)
    ((λ x, copy_to 160 (lit "  " ++ handle x ++ lit " (node " ++ fmt_d (node x) ++ lit ")" ++
        (if afk x then lit " [AFK]" else []))) <$> takeZ MTS_HARD_USERS (filter (λ x, room_id x = room_id s) ss));;
  mret tt.

(** ** Rooms *)

(** plugins/chat/chat.c:320-336 (handle_help) *)
Definition handle_help (p : nat) (arg line : cstr) : M unit :=
  match arg with
  | [] => help p
  | _ =>
      match mts_command_find arg with
      | None => say p (lit "Unknown command.")
      | Some d => out p (copy_to 768 (syntax d ++ CRLF ++
                    match detail d with [] => summary d | x => x end ++ CRLF))
      end
  end.

(** plugins/chat/chat.c:337-370 (handle_rooms) *)
Definition handle_rooms (p : nat) (arg line : cstr) : M unit :=
  if strcase_eq arg (lit "admin") then
    s ← session p;
    if mts_is_sysop s then
      rs ← all_rooms; ss ← present;
      show_list p (CRLF ++ lit "Room administration:" ++ CRLF)
        ((λ r, copy_to 384 (lit "  id=" ++ fmt_d (rid r) ++ lit " name=" ++ name r ++ lit " owner=" ++
            fmt_d (owner r) ++ lit " private=" ++ fmt_d (Z.b2z (is_private r)) ++ lit " permanent=" ++
            fmt_d (Z.b2z (permanent r)) ++ lit " users=" ++ fmt_d (occupants ss r) ++ CRLF))
         <$> filter (λ r, ractive r = true) rs);;
      mret tt
    else say p (lit "Sysop authorization required.")
  else show_rooms p.

(** plugins/chat/chat.c:371-376 (handle_who) *)
Definition handle_who (p : nat) (arg line : cstr) : M unit := who p.

(** plugins/chat/chat.c:377-391 (handle_join) *)
Definition handle_join (p : nat) (arg line : cstr) : M unit :=
  found ← mts_find_room arg;
  match found with
  | None => say p (lit "No such room.")
  | Some i =>
      s ← session p; r ← room_at i;
      ok ← mts_join p (rid r);
      if ok : bool then mts_publish (Some p) MTS_PRESENCE (room_id s) 0 None (lit "left the room")
      else say p (lit "You may not enter that room.")
  end.

(** plugins/chat/chat.c:392-402 (handle_leave) *)
Definition handle_leave (p : nat) (arg line : cstr) : M unit :=
  s ← session p;
  if room_id s =? 1 then say p (lit "You are already in Lobby.")
  else
    mts_publish (Some p) MTS_PRESENCE (room_id s) 0 None (lit "left the room");;
    mts_join p 1;; mret tt.

(** The room that is found is the last one of the number; a sysop in none
    follows a null pointer.
    plugins/chat/chat.c:403-420 (handle_topic) *)
Definition handle_topic (p : nat) (arg line : cstr) : M unit :=
  s ← session p; rs ← all_rooms;
  let slot := last_at (is_room (room_id s)) rs in
  r ← (match slot with Some i => r ← room_at i; mret (Some r) | None => mret None end);
  let allowed := mts_is_sysop s ||
    match r with Some r => owner r =? user_id s | None => false end in
  (if negb (bool_decide (arg = [])) && allowed then
     match slot with
     | None => undefined
     | Some i =>
         t ← lift (mts_sanitize MTS_TOPIC arg);
         update_room i (set_topic t);;
         r ← room_at i;
         update_db (mts_store_save_room r)
     end
   else mret tt);;
  t ← (match slot with Some i => r ← room_at i; mret (topic r) | None => mret [] end);
  out p (copy_to 384 (lit "Topic: " ++ t ++ CRLF)).

(** plugins/chat/chat.c:592-625 (handle_create) *)
Definition handle_create (p : nat) (arg line : cstr) : M unit :=
  c ← gets (λ w, cfg (MTS w));
  if negb (allow_user_rooms c) || bool_decide (arg = []) then
    say p (lit "Room creation is unavailable or missing a name.")
  else
    s ← session p; rs ← all_rooms;
    let owned := zlen (filter (λ r, ractive r && (owner r =? user_id s) = true) rs) in
    match first_at (λ r, negb (ractive r)) rs with
    | None => say p (lit "Room limit reached.")
    | Some slot =>
        if max_rooms_per_user c <=? owned then say p (lit "Room limit reached.")
        else
          next ← gets (λ w, next_room_id (MTS w));
          n ← lift (mts_sanitize MTS_NAME arg);
          update_MTS (set_next_room_id (u64 (next + 1)));;
          update_room slot (λ _, set_normalized (tolower <$> copy_to MTS_NAME n)
            (set_name n (set_ractive true (set_owner (user_id s) (set_rid next zero_room)))));;
          r ← room_at slot;
          update_db (mts_store_save_room r);;
          update p (set_room_id next);;
          say p (lit "Room created and joined.")
    end.

(** Every room of the number, in use or not, that the user may change.
    plugins/chat/chat.c:630-636 (handle_public) *)
Definition set_visibility (private : bool) (s : mts_session) (i : nat) : M unit :=
  r ← room_at i;
  if (rid r =? room_id s) && (mts_is_sysop s || (owner r =? user_id s)) && negb (rid r =? 1) then
    update_room i (set_is_private private);;
    r ← room_at i;
    update_db (mts_store_save_room r)
  else mret tt.

(** plugins/chat/chat.c:626-640 (handle_public) *)
Definition handle_public (p : nat) (arg line : cstr) : M unit :=
  s ← session p;
  n ← gets (λ w, Z.to_nat (max_rooms (cfg (MTS w))));
  for_each (set_visibility (str_eq line (lit "/private")) s) (seq 0 n);;
  say p (lit "Room visibility updated.").

(** plugins/chat/chat.c:641-670 (handle_rename) *)
Definition handle_rename (p : nat) (arg line : cstr) : M unit :=
  let usage := say p (lit "Usage: /rename <new-name> (room owner only; Lobby is immutable).") in
  cur ← current_room p;
  match cur with
  | None => usage
  | Some i =>
      r ← room_at i; admin ← room_admin p (Some i);
      if (rid r =? 1) || negb admin || bool_decide (arg = []) then usage
      else
        taken ← mts_find_room arg;
        match taken with
        | Some _ => say p (lit "A room with that name already exists.")
        | None =>
            n ← lift (mts_sanitize MTS_NAME arg);
            match normalize MTS_NAME n with
            | [] => say p (lit "Invalid room name.")
            | norm =>
                update_room i (λ r, set_normalized norm (set_name n r));;
                r ← room_at i;
                update_db (mts_store_save_room r);;
                say p (lit "Room renamed.")
            end
        end
  end.

(** ** Messages and safety *)

(** The words before and after the first space. *)
Definition words (arg : cstr) : cstr * option cstr := split_at 32 arg.

(** plugins/chat/chat.c:421-442 (handle_msg) *)
Definition handle_msg (p : nat) (arg line : cstr) : M unit :=
  match words arg with
  | (_, None) => say p (lit "Usage: /msg <user> <message>")
  | (q, Some msg) =>
      t ← target p q;
      match t with
      | None => mret tt
      | Some u =>
          us ← session u; s ← session p; d ← gets db;
          if mts_store_has_relation BLOCKS (user_id us) (user_id s) d then
            say p (lit "Message could not be delivered.")
          else
            update p (set_last_private (user_id us));;
            clear_afk p;;
            mts_publish (Some p) MTS_PRIVATE 0 (user_id us) (Some (handle us)) msg;;
            say p (lit "[private message sent]")
      end
  end.

(** plugins/chat/chat.c:443-459 (handle_reply) *)
Definition handle_reply (p : nat) (arg line : cstr) : M unit :=
  s ← session p;
  t ← session_of (last_private s);
  match t with
  | Some u =>
      if bool_decide (arg = []) then say p (lit "No active private correspondent.")
      else
        us ← session u;
        mts_publish (Some p) MTS_PRIVATE 0 (user_id us) (Some (handle us)) arg;;
        clear_afk p
  | None => say p (lit "No active private correspondent.")
  end.

(** plugins/chat/chat.c:460-466 (handle_me) *)
Definition handle_me (p : nat) (arg line : cstr) : M unit :=
  clear_afk p;;
  s ← session p;
  mts_publish (Some p) MTS_ACTION (room_id s) 0 None arg.

(** plugins/chat/chat.c:467-476 (handle_afk) *)
Definition handle_afk (p : nat) (arg line : cstr) : M unit :=
  m ← lift (mts_sanitize 128 arg);
  update p (λ s, set_afk_replied [] (set_afk_epoch (u64 (afk_epoch s + 1))
    (set_afk_message m (set_afk (negb (afk s)) s))));;
  s ← session p;
  say p (if afk s then lit "You are now AFK." else lit "You are back.").

(** plugins/chat/chat.c:477-488 (handle_ignore) *)
Definition handle_ignore (p : nat) (arg line : cstr) : M unit :=
  t ← target p arg;
  match t with
  | None => mret tt
  | Some u =>
      us ← session u; s ← session p;
      let add := negb (has_prefix (lit "/un") line) in
      let table := if has_str (lit "block") line then BLOCKS else IGNORES in
      update_db (mts_store_relation table (user_id s) (user_id us) add);;
      say p (if add then lit "Safety setting added." else lit "Safety setting removed.")
  end.

Fixpoint insert_number (x : Z) (l : list Z) : list Z :=
  match l with [] => [x] | y :: l' => if x <? y then x :: l else y :: insert_number x l' end.

(** The handle of the user as the board or the visits have it.
    plugins/chat/chat.c:211-234 (list_relations) *)
Definition relation_line (d : mts_db) (uid : Z) : cstr :=
  let h := match user_lookup_id H uid with Some h => copy_to MTS_NAME h | None => [] end in
  let h := match h, last (filter (λ v, vi_user v = uid) (t_visits d)) with
           | [], Some v => copy_to MTS_NAME (vi_handle v) | _, _ => h end in
  copy_to 128 (lit "  #" ++ fmt_d uid ++ lit " " ++ match h with [] => lit "(unknown)" | _ => h end ++ CRLF).

(** plugins/chat/chat.c:198-236 (list_relations) *)
Definition list_relations (p : nat) (t : relation_table) : M unit :=
  s ← session p; d ← gets db;
  let rows := filter (λ r, r.1 = (t, user_id s)) (t_relations d) in
  let ids := takeZ 200 (foldr insert_number [] (snd <$> rows)) in
  show_list p (if bool_decide (t = BLOCKS) then lit "Blocked users:" ++ CRLF
               else lit "Ignored users:" ++ CRLF) (relation_line d <$> ids);;
  mret tt.

(** plugins/chat/chat.c:489-494 (handle_ignores) *)
Definition handle_ignores (p : nat) (arg line : cstr) : M unit := list_relations p IGNORES.

(** plugins/chat/chat.c:495-500 (handle_blocks) *)
Definition handle_blocks (p : nat) (arg line : cstr) : M unit := list_relations p BLOCKS.

(** ** Settings *)

Definition on_off (b : bool) : cstr := if b then lit "on" else lit "off".

(** plugins/chat/chat.c:519-536 (handle_settings) *)
Definition settings_text (f : mts_preferences) : cstr :=
  copy_to 768 (lit "timestamps=" ++ on_off (timestamps f) ++ lit " joins=" ++ on_off (joins f) ++
    lit " actions=" ++ on_off (actions f) ++ lit " bell=" ++ on_off (bell f) ++
    lit " echo=" ++ on_off (echo f) ++ lit " color=" ++ on_off (color f) ++
    lit " theme=" ++ theme f ++ lit " chat_requests=" ++ on_off (allow_chat_requests f) ++
    lit " directory=" ++ on_off (directory_visible f) ++
    lit " last_seen=" ++ on_off (last_seen_visible f) ++
    lit " profile=" ++ on_off (profile_visible f) ++
    lit " default_room=" ++ fmt_d (default_room f) ++
    lit " greeting=" ++ greeting f ++ lit " farewell=" ++ farewell f ++ CRLF).

(** A setting that is on or off.
    plugins/chat/chat.c:545-564 (handle_settings) *)
Definition flag_setting (k : cstr) (yes : bool) : option (mts_preferences → mts_preferences) :=
  if str_eq k (lit "timestamps") then Some (set_timestamps yes)
  else if str_eq k (lit "joins") then Some (set_joins yes)
  else if str_eq k (lit "actions") then Some (set_actions yes)
  else if str_eq k (lit "echo") then Some (set_echo yes)
  else if str_eq k (lit "color") then Some (set_color yes)
  else if str_eq k (lit "bell") then Some (set_bell yes)
  else if str_eq k (lit "chat_requests") then Some (set_allow_chat_requests yes)
  else if str_eq k (lit "directory") then Some (set_directory_visible yes)
  else if str_eq k (lit "last_seen") then Some (set_last_seen_visible yes)
  else if str_eq k (lit "profile") then Some (set_profile_visible yes)
  else None.

Definition update_prefs (p : nat) (f : mts_preferences → mts_preferences) : M unit :=
  update p (λ s, set_prefs (f (prefs s)) s).

Definition save_prefs (p : nat) : M unit :=
  s ← session p; update_db (mts_store_save_preferences (user_id s) (prefs s)).

(** The setting is changed: false when the handler has said why not.
    plugins/chat/chat.c:543-587 (handle_settings) *)
Definition change_setting (p : nat) (k v : cstr) : M bool :=
  let yes := strcase_eq v (lit "on") || strcase_eq v (lit "yes") || str_eq v (lit "1") in
  match flag_setting k yes with
  | Some f => update_prefs p f;; mret true
  | None =>
      if str_eq k (lit "theme") then
        if existsb (strcase_eq v) [lit "default"; lit "ocean"; lit "amber"; lit "high-contrast"; lit "mono"]
        then update_prefs p (set_theme (copy_to 32 v));; mret true
        else say p (lit "Unknown theme.");; mret false
      else if str_eq k (lit "default-room") then
        found ← mts_find_room v;
        match found with
        | None => say p (lit "Default room is not accessible.");; mret false
        | Some i =>
            r ← room_at i;
            ok ← mts_join p (rid r);
            if ok : bool then
              r ← room_at i; update_prefs p (set_default_room (rid r));; mret true
            else say p (lit "Default room is not accessible.");; mret false
        end
      else if str_eq k (lit "greeting") then
        t ← lift (mts_sanitize 128 v); update_prefs p (set_greeting t);; mret true
      else if str_eq k (lit "farewell") then
        t ← lift (mts_sanitize 128 v); update_prefs p (set_farewell t);; mret true
      else say p (lit "Unknown setting.");; mret false
  end.

(** plugins/chat/chat.c:501-591 (handle_settings) *)
Definition handle_settings (p : nat) (arg line : cstr) : M unit :=
  if strcase_eq arg (lit "reset") then
    update p (set_prefs default_preferences);;
    save_prefs p;;
    say p (lit "Settings reset to defaults.")
  else
    match arg with
    | [] => s ← session p; out p (settings_text (prefs s))
    | _ =>
        match words arg with
        | (_, None) =>
            say p (lit "Usage: /settings <timestamps|joins|color|bell|chat_requests> <on|off>; privacy keys: directory, last_seen.")
        | (k, Some v) =>
            ok ← change_setting p k v;
            if ok : bool then save_prefs p;; say p (lit "Setting saved.") else mret tt
        end
    end.

(** ** Moderation *)

Fixpoint skip_blanks (s : cstr) : cstr :=
  match s with c :: r => if c =? 32 then skip_blanks r else s | [] => [] end.

(** plugins/chat/chat.c:671-710 (handle_invite) *)
Definition handle_invite (p : nat) (arg line : cstr) : M unit :=
  cur ← current_room p;
  match cur with
  | None => say p (lit "Room owner authorization required.")
  | Some i =>
      r ← room_at i; admin ← room_admin p (Some i);
      if (rid r =? 1) || negb admin then say p (lit "Room owner authorization required.")
      else
        let transfer := str_eq line (lit "/transfer") in
        let '(q, rest) := if transfer then words arg else (arg, None) in
        let reason := match rest with Some x => skip_blanks x | None => [] end in
        if transfer && bool_decide (reason = []) then say p (lit "Usage: /transfer <user> <reason>")
        else
          '(uid, u) ← target_id p q;
          if uid =? 0 then mret tt
          else
            s ← session p; t ← gets now;
            if transfer then
              update_room i (set_owner uid);;
              r ← room_at i;
              update_db (mts_store_save_room r);;
              update_db (mts_store_audit t (user_id s) uid (rid r) (lit "transfer") reason);;
              say p (lit "Room ownership transferred.")
            else
              let add := str_eq line (lit "/invite") in
              update_db (mts_store_invitation (rid r) uid add);;
              (match u with
               | Some u =>
                   us ← session u;
                   if add then
                     mts_publish (Some p) MTS_PRIVATE 0 uid (Some (handle us))
                       (lit "You were invited to a private room.")
                   else mret tt
               | None => mret tt
               end);;
              say p (if add then lit "Invitation added." else lit "Invitation removed.")
  end.

(** Everyone in the room goes to the Lobby, one after the other; the pointers are
    those that the array has when the loop comes to them.
    plugins/chat/chat.c:741-743 (handle_announce) *)
Fixpoint evict (n i : nat) (room : Z) : M unit :=
  match n with
  | O => mret tt
  | S n =>
      l ← gets (λ w, sessions (MTS w));
      match l !! i with
      | None => mret tt
      | Some p =>
          s ← session p;
          (if room_id s =? room then mts_join p 1;; mret tt else mret tt);;
          evict n (S i) room
      end
  end.

(** True when the command is written to the audit.
    plugins/chat/chat.c:729-748 (handle_announce) *)
Definition close_room (p : nat) (arg : cstr) : M bool :=
  match words arg with
  | (q, Some (_ :: _ as reason)) =>
      found ← mts_find_room q;
      match found with
      | None => say p (lit "No closable room found.");; mret false
      | Some i =>
          r ← room_at i;
          if rid r =? 1 then say p (lit "No closable room found.");; mret false
          else
            n ← gets (λ w, length (sessions (MTS w)));
            evict n 0 (rid r);;
            update_room i (set_ractive false);;
            update_db (mts_store_delete_room (rid r));;
            s ← session p; t ← gets now;
            update_db (mts_store_audit t (user_id s) 0 (rid r) (lit "close") reason);;
            say p (lit "Room closed.");;
            mret false
      end
  | _ => say p (lit "Usage: /close <room> <reason>");; mret false
  end.

(** plugins/chat/chat.c:721-728 (handle_announce) *)
Definition toggle_lock (p : nat) (arg : cstr) : M bool :=
  locked ← gets (λ w, chat_locked (MTS w));
  if negb locked && bool_decide (arg = []) then
    say p (lit "Usage: /chatlock <reason> when locking");; mret false
  else
    reason ← lift (mts_sanitize 128 arg);
    update_MTS (λ st, set_chat_lock_reason reason (set_chat_locked (negb locked) st));;
    say p (if locked then lit "MTS unlocked." else lit "MTS locked.");;
    mret true.

(** The audit log of the board is not modelled.
    plugins/chat/chat.c:711-763 (handle_announce) *)
Definition handle_announce (p : nat) (arg line : cstr) : M unit :=
  s ← session p;
  if negb (mts_is_sysop s) then say p (lit "Sysop authorization required.")
  else
    logged ← (if str_eq line (lit "/announce") then
                mts_publish (Some p) MTS_ANNOUNCEMENT 0 0 None arg;; mret true
              else if str_eq line (lit "/chatlock") then toggle_lock p arg
              else if str_eq line (lit "/close") then close_room p arg
              else
                let '(cnt, e) := match arg with [] => (20, []) | _ => strtoul arg end in
                if negb (bool_decide (e = [])) || (cnt <? 1) || (100 <? cnt) then
                  say p (lit "Usage: /mitsaudit [1-100]");; mret false
                else list_audit p cnt;; mret false);
    if logged : bool then
      s ← session p; t ← gets now;
      update_db (mts_store_audit t (user_id s) 0 (room_id s) line arg)
    else mret tt.

(** plugins/chat/chat.c:1133-1150 (handle_bans) *)
Definition handle_bans (p : nat) (arg line : cstr) : M unit :=
  cur ← current_room p; admin ← room_admin p cur;
  if negb admin then say p (lit "Room moderator authorization required.")
  else
    s ← session p;
    let bans := str_eq line (lit "/bans") in
    list_sanctions p (if bans then ROOM_BANS else ROOM_MUTES)
      ((if bans then lit "Active room bans:" else lit "Active room mutes:") ++ CRLF) (room_id s);;
    if mts_is_sysop s then
      list_sanctions p (if bans then GLOBAL_BANS else GLOBAL_MUTES)
        ((if bans then lit "Active global bans:" else lit "Active global mutes:") ++ CRLF) 0
    else mret tt.

(** plugins/chat/chat.c:1167-1183 (handle_kick) *)
Definition kick (p : nat) (uid : Z) (u : option nat) (rest : cstr) : M unit :=
  match rest, u with
  | [], _ => say p (lit "Usage: /kick <user> <reason>")
  | _, None => say p (lit "Kick requires an active MTS user.")
  | _, Some u =>
      us ← session u;
      mts_publish (Some u) MTS_MODERATION (room_id us) 0 None (lit "was removed by a moderator");;
      mts_join u 1;;
      s ← session p; t ← gets now;
      update_db (mts_store_audit t (user_id s) uid (room_id s) (lit "kick") rest);;
      say p (lit "User moved to Lobby.")
  end.

(** The end of the sanction, 0 for none, and the reason.
    plugins/chat/chat.c:1186-1198 (handle_kick) *)
Definition sanction_terms (now : Z) (remove : bool) (rest : cstr) : Z * cstr :=
  if remove || bool_decide (rest = []) then (0, [])
  else
    let '(w, next) := words rest in
    match mts_parse_duration w with
    | Some d => (now + d, default [] next)
    | None => (0, w)
    end.

(** plugins/chat/chat.c:1184-1219 (handle_kick) *)
Definition sanction (p : nat) (line : cstr) (uid : Z) (u : option nat) (rest : cstr) : M unit :=
  let global := has_str (lit "global") line in
  let remove := has_str (lit "un") line in
  let isban := has_str (lit "ban") line in
  let table := if global then (if isban then GLOBAL_BANS else GLOBAL_MUTES)
               else (if isban then ROOM_BANS else ROOM_MUTES) in
  t ← gets now;
  let '(expires, reason) := sanction_terms t remove rest in
  if negb remove && bool_decide (reason = []) then
    say p (lit "A non-empty moderation reason is required.")
  else
    s ← session p;
    update_db (mts_store_sanction t table (room_id s) uid (user_id s) reason expires (negb remove));;
    (match u with
     | None => mret tt
     | Some u =>
         us ← session u;
         m ← is_muted (room_id us) uid;
         update u (set_muted m);;
         if negb remove && isban then
           mts_publish (Some u) MTS_MODERATION (room_id us) 0 None (lit "was banned by a moderator");;
           mts_join u 1;; mret tt
         else mret tt
     end);;
    s ← session p;
    update_db (mts_store_audit t (user_id s) uid (room_id s) line reason);;
    say p (if remove then lit "Sanction removed." else lit "Sanction applied.").

(** plugins/chat/chat.c:1151-1220 (handle_kick) *)
Definition handle_kick (p : nat) (arg line : cstr) : M unit :=
  let global := has_str (lit "global") line in
  let '(q, rest) := words arg in
  '(uid, u) ← target_id p q;
  if uid =? 0 then mret tt
  else
    cur ← current_room p; admin ← room_admin p cur; s ← session p;
    if (if global then negb (mts_is_sysop s) else negb admin) then
      say p (if global then lit "Sysop authorization required."
             else lit "Room moderator authorization required.")
    else if str_eq line (lit "/kick") then kick p uid u (default [] rest)
    else sanction p line uid u (default [] rest).

(** ** Watching and focused conversations *)

(** plugins/chat/chat.c:828-853 (handle_watch) *)
Definition handle_watch (p : nat) (arg line : cstr) : M unit :=
  match arg with
  | [] => say p (lit "Usage: /watch <public-room>")
  | _ =>
      if strcase_eq arg (lit "all") then
        s ← session p;
        if mts_is_sysop s then
          update p (λ s, set_watch_room 0 (set_watch_all true s));;
          say p (lit "Watching all public rooms.")
        else say p (lit "/watch all is sysop-only.")
      else
        found ← mts_find_room arg;
        match found with
        | None => say p (lit "Only public rooms may be watched.")
        | Some i =>
            r ← room_at i;
            if is_private r then say p (lit "Only public rooms may be watched.")
            else update p (set_watch_room (rid r));; say p (lit "Room watch enabled.")
        end
  end.

(** plugins/chat/chat.c:854-861 (handle_unwatch) *)
Definition handle_unwatch (p : nat) (arg line : cstr) : M unit :=
  update p (λ s, set_watch_all false (set_watch_room 0 s));;
  say p (lit "Room watch disabled.").

(** plugins/chat/chat.c:862-881 (handle_chat) *)
Definition handle_chat (p : nat) (arg line : cstr) : M unit :=
  t ← target p arg;
  match t with
  | None => mret tt
  | Some u =>
      us ← session u; s ← session p;
      if negb (allow_chat_requests (prefs us)) then
        say p (lit "That user is not accepting focused chat requests.")
      else if (u =? p)%nat then say p (lit "You cannot request focused chat with yourself.")
      else
        update u (set_focus_requested_by (user_id s));;
        mts_publish (Some p) MTS_PRIVATE 0 (user_id us) (Some (handle us))
          (lit "Focused chat requested. Use /accept or /decline.");;
        say p (lit "Focused chat request sent.")
  end.

(** plugins/chat/chat.c:882-908 (handle_accept) *)
Definition handle_accept (p : nat) (arg line : cstr) : M unit :=
  s ← session p;
  if focus_requested_by s =? 0 then say p (lit "No focused chat request is pending.")
  else
    t ← session_of (focus_requested_by s);
    (match t with
     | Some u =>
         us ← session u;
         update p (set_focused_user (user_id us));;
         s ← session p;
         update u (set_focused_user (user_id s))
     | None => mret tt
     end);;
    update p (set_focus_requested_by 0);;
    match t with
    | None => say p (lit "The requester is no longer online.")
    | Some u =>
        us ← session u;
        mts_publish (Some p) MTS_PRIVATE 0 (user_id us) (Some (handle us)) (lit "Focused chat accepted.");;
        say p (lit "Focused chat started. /decline ends it.")
    end.

(** plugins/chat/chat.c:909-936 (handle_decline) *)
Definition handle_decline (p : nat) (arg line : cstr) : M unit :=
  s ← session p;
  if negb (focus_requested_by s =? 0) then
    update p (set_focus_requested_by 0);;
    t ← session_of (focus_requested_by s);
    (match t with
     | Some u =>
         us ← session u;
         mts_publish (Some p) MTS_PRIVATE 0 (user_id us) (Some (handle us))
           (lit "Focused chat request declined.")
     | None => mret tt
     end);;
    say p (lit "Focused chat request declined.")
  else
    update p (set_focused_user 0);;
    unfocus_all (focused_user s);;
    say p (lit "Focused chat ended.").

(** ** Profiles, history and actions *)

(** plugins/chat/chat.c:764-802 (handle_profile) *)
Definition handle_profile (p : nat) (arg line : cstr) : M unit :=
  if has_prefix (lit "set ") arg then
    bio ← lift (mts_sanitize 512 (dropZ 4 arg));
    s ← session p;
    update_db (λ d, set_t_profiles (filter (λ r, r.1 ≠ user_id s) (t_profiles d) ++ [(user_id s, bio)]) d);;
    say p (lit "Profile saved.")
  else
    s ← session p;
    t ← (match arg with [] => mret (Some None) | _ =>
           t ← target p arg; mret (match t with Some u => Some (Some u) | None => None end) end);
    match t with
    | None => mret tt
    | Some u =>
        hidden ← (match u with
                  | Some u =>
                      us ← session u;
                      mret (negb (u =? p)%nat && negb (mts_is_sysop s) && negb (profile_visible (prefs us)))
                  | None => mret false
                  end);
        uid ← (match u with Some u => us ← session u; mret (user_id us) | None => mret (user_id s) end);
        d ← gets db;
        match find (λ r, r.1 =? uid) (t_profiles d) with
        | Some (_, bio) =>
            if hidden : bool then say p (lit "No profile.")
            else out p (copy_to 640 (lit "Profile: " ++ bio ++ CRLF))
        | None => say p (lit "No profile.")
        end
    end.

(** plugins/chat/chat.c:803-827 (handle_history) *)
Definition handle_history (p : nat) (arg line : cstr) : M unit :=
  w ← gets id;
  if negb (persist_history (cfg (MTS w))) then say p (lit "Persistent room history is disabled.")
  else
    s ← session p;
    let rows := take 20 (reverse (filter (λ e, ev_room e = room_id s) (t_history (db w)))) in
    show_list p (lit "Recent history:" ++ CRLF)
      ((λ e, copy_to 700 (lit "  " ++ sender e ++ lit ": " ++ text e ++ CRLF)) <$> rows);;
    mret tt.

(** [<] of the bytes, the order of a text column. *)
Fixpoint text_lt (a b : cstr) : bool :=
  match a, b with
  | [], _ :: _ => true
  | x :: a, y :: b => (x <? y) || ((x =? y) && text_lt a b)
  | _, [] => false
  end.

Fixpoint insert_text (x : cstr) (l : list cstr) : list cstr :=
  match l with [] => [x] | y :: l' => if text_lt x y then x :: l else y :: insert_text x l' end.

(** plugins/chat/chat.c:937-954 (handle_actions) *)
Definition handle_actions (p : nat) (arg line : cstr) : M unit :=
  d ← gets db;
  let names := foldr insert_text [] (ac_name <$> filter (λ a, ac_enabled a = true) (t_actions d)) in
  show_list p (lit "Actions:" ++ CRLF) ((λ n, copy_to 128 (lit "  " ++ n ++ CRLF)) <$> names);;
  mret tt.

Definition action_name_ok (n : cstr) : bool := forallb (λ c, isalnum c || (c =? ch "_")) n.

(** The row of an action is replaced where it is, or appended.
    plugins/chat/chat.c:985-995 (handle_action) *)
Definition save_action (n t : cstr) (d : mts_db) : mts_db :=
  if existsb (λ a, str_eq (ac_name a) n) (t_actions d)
  then set_t_actions ((λ a, if str_eq (ac_name a) n then MkAction n t true else a) <$> t_actions d) d
  else set_t_actions (t_actions d ++ [MkAction n t true]) d.

(** plugins/chat/chat.c:997-1003 (handle_action) *)
Definition disable_action (n : cstr) (d : mts_db) : mts_db :=
  set_t_actions ((λ a, if str_eq (ac_name a) n then MkAction n (ac_template a) false else a)
    <$> t_actions d) d.

(** plugins/chat/chat.c:958-1008 (handle_action) *)
Definition edit_action (p : nat) (add : bool) (arg : cstr) : M unit :=
  match words arg, add with
  | (_, None), true => say p (lit "Usage: /action add <name> <template>")
  | (n, templ), _ =>
      if negb (action_name_ok n) then say p (lit "Invalid action name.")
      else if add then
        let templ := default [] templ in
        safe ← lift (mts_sanitize 256 templ);
        valid ← lift (action_template_valid safe);
        if negb (str_eq safe templ) || negb valid then
          say p (lit "Template must contain {actor} exactly once, optional {target} once, and no other placeholders or percent sequences.")
        else update_db (save_action n safe);; say p (lit "Action saved.")
      else update_db (disable_action n);; say p (lit "Action disabled.")
  end.

(** plugins/chat/chat.c:1009-1035 (handle_action) *)
Definition run_action (p : nat) (arg : cstr) : M unit :=
  let '(n, targ) := words arg in
  d ← gets db;
  match find (λ a, str_eq (ac_name a) n && ac_enabled a) (t_actions d) with
  | None => say p (lit "Unknown action.")
  | Some a =>
      let rendered := copy_to 512 (ac_template a) in
      valid ← lift (action_template_valid rendered);
      if negb valid then say p (lit "Stored action template is invalid.")
      else
        expanded ← lift (replace_token 512 rendered (lit "{actor}") []);
        final ← lift (replace_token 512 expanded (lit "{target}")
                        (match targ with Some t => t | None => lit "someone" end));
        rendered ← lift (mts_sanitize 512 final);
        s ← session p;
        mts_publish (Some p) MTS_ACTION (room_id s) 0 None rendered
  end.

(** plugins/chat/chat.c:955-1036 (handle_action) *)
Definition handle_action (p : nat) (arg line : cstr) : M unit :=
  if has_prefix (lit "add ") arg || has_prefix (lit "del ") arg then
    s ← session p;
    if negb (mts_is_sysop s) then say p (lit "Sysop authorization required.")
    else edit_action p (has_prefix (lit "add ") arg) (dropZ 4 arg)
  else run_action p arg.

(** ** The commands *)

(** The handler that is bound to a command, but for quit.
    plugins/chat/chat.c:1221-1280 (bind_command_handlers) *)
Definition handlers : list (list cstr * (nat → cstr → cstr → M unit)) := [
  ([lit "help"], handle_help);
  ([lit "rooms"], handle_rooms);
  ([lit "who"], handle_who);
  ([lit "join"], handle_join);
  ([lit "leave"], handle_leave);
  ([lit "topic"], handle_topic);
  ([lit "msg"], handle_msg);
  ([lit "reply"], handle_reply);
  ([lit "me"], handle_me);
  ([lit "afk"], handle_afk);
  ([lit "ignore"; lit "unignore"; lit "block"; lit "unblock"], handle_ignore);
  ([lit "ignores"], handle_ignores);
  ([lit "blocks"], handle_blocks);
  ([lit "settings"], handle_settings);
  ([lit "create"], handle_create);
  ([lit "public"; lit "private"], handle_public);
  ([lit "rename"], handle_rename);
  ([lit "invite"; lit "uninvite"; lit "transfer"], handle_invite);
  ([lit "announce"; lit "chatlock"; lit "close"; lit "mitsaudit"], handle_announce);
  ([lit "profile"], handle_profile);
  ([lit "history"], handle_history);
  ([lit "watch"], handle_watch);
  ([lit "unwatch"], handle_unwatch);
  ([lit "chat"], handle_chat);
  ([lit "accept"], handle_accept);
  ([lit "decline"], handle_decline);
  ([lit "actions"], handle_actions);
  ([lit "action"], handle_action);
  ([lit "bans"; lit "mutes"], handle_bans);
  ([lit "kick"; lit "mute"; lit "ban"; lit "unmute"; lit "unban"; lit "globalmute"; lit "globalban";
    lit "unglobalmute"; lit "unglobalban"], handle_kick)
].

(** The commands whose handlers only print are taken to print nothing. *)
Definition handler_of (n : cstr) : nat → cstr → cstr → M unit :=
  match find (λ h, existsb (str_eq n) h.1) handlers with
  | Some h => h.2 | None => λ _ _ _, mret tt
  end.

(** plugins/chat/chat.c:1303-1312 (command) *)
Fixpoint count_words (in_word : bool) (s : cstr) : Z :=
  match s with
  | [] => 0
  | c :: s =>
      if isspace c then count_words false s
      else (if in_word then 0 else 1) + count_words true s
  end.

(** A line that begins with a slash; the flag tells whether the session goes on.
    plugins/chat/chat.c:1284-1320 (command) *)
Definition command (p : nat) (line : cstr) : M bool :=
  let '(cmd, rest) := words line in
  let arg := match rest with Some r => skip_blanks r | None => [] end in
  let cmd := tolower <$> cmd in
  let lookup := if str_eq cmd (lit "//") then lit "//" else dropZ 1 cmd in
  match mts_command_find lookup with
  | None => say p (lit "Unknown command. Type /help.");; mret true
  | Some d =>
      s ← session p;
      if bool_decide (role d = MTS_ROLE_SYSOP) && negb (mts_is_sysop s) then
        say p (lit "Sysop authorization required.");; mret true
      else
        let argc := count_words false arg in
        if (argc <? min_args d) || ((0 <=? max_args d) && (max_args d <? argc)) then
          out p (copy_to 256 (lit "Usage: " ++ syntax d ++ CRLF));; mret true
        else if str_eq (cmd_name d) (lit "quit") then mret false
        else handler_of (cmd_name d) p arg cmd;; mret true
  end.

(** ** A session *)

(** What the board says of the caller. *)
Record caller : Type := MkCaller {
  c_session : Z;
  c_user_id : Z;
  c_flags : Z;
  c_restrictions : Z;
  c_node : Z;
  c_ansi : bool;
  c_cols : Z;
  c_rows : Z;
  c_username : cstr
}.

(** plugins/chat/chat.c:1575-1585 (create) *)
Definition create : M nat := alloc new_session.

(** False when the caller is not let in. Clearing the screen is not collected.
    plugins/chat/chat.c:1322-1375 (enter) *)
Definition enter (p : nat) (c : caller) : M bool :=
  update p (λ s, set_restrictions (c_restrictions c) (set_flags (c_flags c)
    (set_user_id (c_user_id c) (set_host_session (c_session c) s))));;
  if Z.testbit (c_restrictions c) AC_RCHAT then
    say p (lit "Chat access is restricted for this account.");; mret false
  else
    h ← lift (mts_sanitize MTS_NAME (c_username c));
    d ← gets db;
    update p (λ s, set_prefs (mts_store_load_preferences (user_id s) d) (set_handle h
      (set_term_rows (c_rows c) (set_term_cols (if c_cols c <? 20 then 20 else c_cols c)
      (set_ansi (c_ansi c) (set_node (c_node c) s))))));;
    s ← session p; w ← gets id;
    if negb (mts_is_sysop s) && mts_store_is_sanctioned (now w) GLOBAL_BANS 0 (user_id s) (db w) then
      say p (lit "You are banned from MTS.");; mret false
    else if chat_locked (MTS w) && negb (mts_is_sysop s) then
      say p (lit "MTS is currently locked by the sysop.");; mret false
    else if max_users (cfg (MTS w)) <=? zlen (sessions (MTS w)) then mret false
    else
      l ← lift (filled MTS_HARD_USERS (sessions (MTS w) ++ [p]));
      update_MTS (set_sessions l);;
      update p (λ s, set_lifecycle MTS_LIFE_ENTERED (set_presence_registered true (set_active true s)));;
      let '(visit, d) := mts_store_visit_start (now w) (user_id s) (handle s) (db w) in
      update_db (λ _, d);;
      update p (set_visit_id visit);;
      ok ← mts_join p (if default_room (prefs s) =? 0 then 1 else default_room (prefs s));
      (if ok : bool then mret tt else mts_join p 1;; mret tt);;
      out p (ESC ++ lit "[1;35m=== Mutineer Teleconference System v2.0 ===" ++ ESC ++ lit "[0m" ++ CRLF ++
        lit "Type /help for commands. You are in Lobby." ++ CRLF);;
      mret true.

(** Whether the line counts against the limit of its time: the new start and
    number of the window.
    plugins/chat/chat.c:1435-1440 (run) *)
Definition rate_window (c : mts_config) (now : Z) (s : mts_session) : mts_session :=
  let s := if rate_window_seconds c <=? now - rate_started s
           then set_rate_count 0 (set_rate_started now s) else s in
  set_rate_count (u32 (rate_count s + 1)) s.

(** A line that is neither a command nor directed at a user.
    plugins/chat/chat.c:1435-1468 (run) *)
Definition speak (p : nat) (line : cstr) : M unit :=
  w ← gets id;
  update p (rate_window (cfg (MTS w)) (now w));;
  s ← session p;
  if u32 (messages_per_window (cfg (MTS w))) <? rate_count s then
    say p (lit "Rate limit exceeded; please slow down.")
  else if chat_locked (MTS w) && negb (mts_is_sysop s) then say p (lit "MTS is locked.")
  else if muted s then say p (lit "You are muted in this room.")
  else if negb (focused_user s =? 0) then
    t ← session_of (focused_user s);
    match t with
    | Some u =>
        us ← session u;
        clear_afk p;;
        mts_publish (Some p) MTS_PRIVATE 0 (user_id us) (Some (handle us)) line
    | None =>
        update p (set_focused_user 0);;
        say p (lit "Focused user left; returning to room chat.")
    end
  else
    clear_afk p;;
    s ← session p;
    mts_publish (Some p) MTS_PUBLIC (room_id s) 0 None line.

(** A message for a user that the whole room sees.
    plugins/chat/chat.c:1418-1431 (run) *)
Definition speak_to (p : nat) (line : cstr) : M unit :=
  match words line with
  | (_, None) => say p (lit "Usage: >user message")
  | (q, Some msg) =>
      t ← target p (dropZ 1 q);
      match t with
      | None => mret tt
      | Some u =>
          clear_afk p;;
          s ← session p; us ← session u;
          mts_publish (Some p) MTS_DIRECTED (room_id s) (user_id us) (Some (handle us)) msg
      end
  end.

(** [/user message] is a private message, unless it is a command.
    plugins/chat/chat.c:1405-1417 (run) *)
Definition shorthand (line : cstr) : cstr :=
  match line with
  | a :: b :: _ =>
      if (a =? ch "/") && negb (b =? ch "/") then
        match words (dropZ 1 line) with
        | (n, Some rest) =>
            if (0 <? zlen n) && (zlen n <? MTS_NAME) && bool_decide (mts_command_find n = None)
            then copy_to MTS_TEXT (copy_to MTS_TEXT (lit "/msg " ++ n ++ lit " " ++ rest))
            else line
        | (_, None) => line
        end
      else line
  | _ => line
  end.

(** A line that was typed; the flag tells whether the session goes on.
    plugins/chat/chat.c:1402-1468 (run) *)
Definition run_line (p : nat) (typed : cstr) : M bool :=
  line ← lift (sanitize_in_place (length typed) MTS_TEXT 0 typed []);
  match line with
  | [] => mret true
  | _ =>
      let line := shorthand line in
      if (char_at line 0 =? ch ">") && negb (char_at line 1 =? 0) then speak_to p line;; mret true
      else if char_at line 0 =? ch "/" then command p line
      else speak p line;; mret true
  end.

(** plugins/chat/chat.c:1472-1498 (cleanup_instance) *)
Definition cleanup_instance (p : nat) (announce : bool) : M bool :=
  s ← session p;
  if cleanup_complete s || (MTS_LIFE_EXITING <=? lifecycle s) then mret false
  else
    update p (λ s, set_watch_all false (set_watch_room 0 (set_focus_requested_by 0
      (set_focused_user 0 (set_lifecycle MTS_LIFE_EXITING s)))));;
    unfocus_all (focused_user s);;
    st ← gets MTS;
    let do_announce := announce && presence_registered s && negb (departure_announced s) &&
                       negb (shutting_down st) in
    update p (set_departure_announced do_announce);;
    (if presence_registered s then mts_leave p do_announce else mret tt);;
    update p (λ s, set_cleanup_complete true (set_lifecycle MTS_LIFE_EXITED
      (set_presence_registered false s)));;
    mret true.

(** What a read of a line returns. *)
Inductive line_input : Type :=
  | Line (l : cstr)
  | TimedOut
  | Closed.

(** True when the session was left by the user, false when the connection was
    lost; the input that is used up is one that does not end.
    plugins/chat/chat.c:1384-1470 (run) *)
Fixpoint run_loop (p : nat) (prompt : bool) (input : list line_input) : M (option bool) :=
  match input with
  | [] => mret None
  | x :: input =>
      flush p;;
      (if prompt then mret tt else out p (lit "MTS> "));;
      match x with
      | TimedOut => run_loop p true input
      | Closed => cleanup_instance p true;; mret (Some false)
      | Line l =>
          more ← run_line p l;
          if more : bool then run_loop p false input else mret (Some true)
      end
  end.

(** plugins/chat/chat.c:1376-1471 (run) *)
Definition run (p : nat) (input : list line_input) : M (option bool) :=
  s ← session p;
  if active s then run_loop p false input else mret (Some false).

(** plugins/chat/chat.c:1508-1513 (leave) *)
Definition leave (p : nat) : M unit :=
  done_ ← cleanup_instance p true;
  if done_ : bool then out p (CRLF ++ lit "Leaving MTS." ++ CRLF) else mret tt.

(** plugins/chat/chat.c:1514-1523 (destroy) *)
Definition destroy (p : nat) : M unit :=
  cleanup_instance p false;;
  update p (set_lifecycle MTS_LIFE_DESTROYED);;
  free p.

(** Events of the board. *)
Inductive bbs_event : Type :=
  | EVT_FORCED_DISCONNECT (session : option Z)
  | EVT_SHUTDOWN
  | EVT_TICK_1S (now_ms : Z).

(** plugins/chat/chat.c:1499-1507 (instance_event) *)
Definition instance_event (p : nat) (ev : bbs_event) : M unit :=
  match ev with
  | EVT_FORCED_DISCONNECT o =>
      s ← session p;
      if match o with None => true | Some x => x =? host_session s end
      then cleanup_instance p false;; mret tt else mret tt
  | EVT_SHUTDOWN => cleanup_instance p false;; mret tt
  | EVT_TICK_1S _ => mret tt
  end.

(** plugins/chat/chat.c:1548-1573 (global_event) *)
Definition global_event (ev : bbs_event) : M unit :=
  match ev with
  | EVT_TICK_1S now_ms =>
      if now_ms mod 60000 <? 1000 then
        w ← gets id;
        update_db (mts_store_cleanup (now w) (history_retention_days (cfg (MTS w)))
          (moderation_audit_retention_days (cfg (MTS w))))
      else mret tt
  | EVT_FORCED_DISCONNECT None => mret tt
  | EVT_FORCED_DISCONNECT (Some x) =>
      w ← gets id;
      ss ← lift (mapM (λ p, s ← heap w !! p; Some (p, s)) (sessions (MTS w)));
      match last (filter (λ ps, host_session ps.2 = x) ss) with
      | Some (p, _) => cleanup_instance p false;; mret tt
      | None => mret tt
      end
  | EVT_SHUTDOWN =>
      update_MTS (set_shutting_down true);;
      l ← gets (λ w, takeZ MTS_HARD_USERS (sessions (MTS w)));
      for_each (λ p, cleanup_instance p false;; mret tt) l
  end.
End handlers.
