(* ===== verification/MtsInbox.v ===== *)
(** What a run of the teleconference does, as a program logic, and the inbox of a
    session: a ring of 128 events that is a queue. *)

From S2P Require Import Prelude CLib MtsText MtsStore MtsState.
#[local] Open Scope Z_scope.

(** ** Runs *)

(** The code is defined in [w], and leaves a value and a world for which [Q]
    holds. *)
Definition runs {A} (m : M A) (Q : A → world → Prop) (w : world) : Prop :=
  ∃ x w', m w = Some (x, w') ∧ Q x w'.

Section rules.
Context {A B : Type}.
Implicit Types (m : M A) (f : A → M B) (Q : A → world → Prop) (w : world).

Lemma runs_ret x Q w : Q x w → runs (mret x) Q w.
Proof. intros H. by exists x, w. Qed.

Lemma runs_bind m f (R : B → world → Prop) w :
  runs m (λ x w', runs (f x) R w') w → runs (m ≫= f) R w.
Proof.
  intros (x & w' & E & y & w'' & E' & H). exists y, w''. split; [| done].
  unfold mbind, M_bind. rewrite E. exact E'.
Qed.

Lemma runs_mono m Q (R : A → world → Prop) w : runs m Q w → (∀ x w', Q x w' → R x w') → runs m R w.
Proof. intros (x & w' & E & H) HQ. exists x, w'. eauto. Qed.

Lemma runs_gets (g : world → A) Q w : Q (g w) w → runs (gets g) Q w.
Proof. intros H. by exists (g w), w. Qed.

Lemma runs_lift x o Q w : o = Some x → Q x w → runs (lift o) Q w.
Proof. intros -> H. by exists x, w. Qed.
End rules.

Lemma runs_modify g (Q : unit → world → Prop) w : Q tt (g w) → runs (modify g) Q w.
Proof. intros H. by exists tt, (g w). Qed.

Lemma runs_alloc x (Q : nat → world → Prop) w :
  Q (allocated w) (set_allocated (S (allocated w)) (set_heap (<[allocated w := x]> (heap w)) w)) →
  runs (alloc x) Q w.
Proof. intros H. by do 2 eexists. Qed.

Lemma runs_free p s (Q : unit → world → Prop) w :
  heap w !! p = Some s → Q tt (set_heap (delete p (heap w)) w) → runs (free p) Q w.
Proof. intros E H. do 2 eexists. unfold free, session, mbind, M_bind. rewrite E. by split. Qed.

Lemma runs_filled {A} cap (l : list A) (Q : list A → world → Prop) w :
  zlen l <= cap → Q l w → runs (lift (filled cap l)) Q w.
Proof. intros Hl H. eapply (runs_lift l); [| done]. unfold filled. by rewrite (proj2 (Z.leb_le _ _)). Qed.

Lemma runs_session p s Q w : heap w !! p = Some s → Q s w → runs (session p) Q w.
Proof. intros E H. exists s, w. unfold session. by rewrite E. Qed.

Lemma runs_update p f s (Q : unit → world → Prop) w :
  heap w !! p = Some s → Q tt (set_heap (<[p := f s]> (heap w)) w) → runs (update p f) Q w.
Proof. intros E H. do 2 eexists. unfold update. rewrite E. by split. Qed.

Lemma runs_room_at i r Q w : rooms (MTS w) !! i = Some r → Q r w → runs (room_at i) Q w.
Proof. intros E H. exists r, w. unfold room_at. by rewrite E. Qed.

Lemma runs_update_room i f r (Q : unit → world → Prop) w :
  rooms (MTS w) !! i = Some r →
  Q tt (set_MTS (set_rooms (<[i := f r]> (rooms (MTS w))) (MTS w)) w) → runs (update_room i f) Q w.
Proof. intros E H. do 2 eexists. unfold update_room. rewrite E. by split. Qed.

(** ** The inbox *)

(** The positions of the ring are within its array. *)
Definition inbox_ok (s : mts_session) : Prop :=
  zlen (inbox s) = MTS_INBOX ∧ 0 <= head s < MTS_INBOX ∧ 0 <= count s <= MTS_INBOX.

(** The events that wait, the oldest first. *)
Definition queue (s : mts_session) : list mts_event :=
  (λ k, default zero_event (inbox s !! Z.to_nat ((head s + Z.of_nat k) mod MTS_INBOX)))
    <$> seq 0 (Z.to_nat (count s)).

(** What [enqueue] does to the session when it takes the event. *)
Definition inbox_push (e : mts_event) (s : mts_session) : mts_session :=
  let s := if count s =? MTS_INBOX
           then set_skipped (u64 (skipped s + 1)) (set_count (count s - 1)
                  (set_head ((head s + 1) mod MTS_INBOX) s))
           else s in
  set_count (count s + 1) (set_inbox (<[Z.to_nat ((head s + count s) mod MTS_INBOX) := e]> (inbox s)) s).

Lemma enqueue_runs p e private s w (Q : bool → world → Prop) :
  heap w !! p = Some s →
  (if (count s =? MTS_INBOX) && private then Q false w
   else Q true (set_heap (<[p := inbox_push e s]> (heap w)) w)) →
  runs (enqueue p e private) Q w.
Proof.
  intros Hs HQ. unfold enqueue. apply runs_bind, (runs_session _ s); [done |].
  destruct (_ && private) eqn:E; [by apply runs_ret |].
  apply runs_bind. destruct (count s =? MTS_INBOX) eqn:Ec.
  - apply (runs_update _ _ s); [done |].
    apply runs_bind, (runs_update _ _ (set_skipped (u64 (skipped s + 1)) (set_count (count s - 1)
      (set_head ((head s + 1) mod MTS_INBOX) s)))).
    { apply lookup_insert_eq. }
    apply runs_ret. unfold inbox_push in HQ. rewrite Ec in HQ. cbn in *.
    by rewrite insert_insert_eq.
  - apply runs_ret, runs_bind, (runs_update _ _ s); [done |].
    apply runs_ret. unfold inbox_push in HQ. by rewrite Ec in HQ.
Qed.

Lemma inbox_push_ok e s : inbox_ok s → inbox_ok (inbox_push e s).
Proof.
  intros (Hl & Hh & Hc). unfold inbox_ok, inbox_push, MTS_INBOX in *. destruct (Z.eqb_spec (count s) 128); cbn.
  - pose proof (Z.mod_pos_bound (head s + 1) 128). unfold zlen in *. rewrite length_insert. lia.
  - unfold zlen in *. rewrite length_insert. lia.
Qed.

(** Distinct offsets below the size are distinct positions of the ring. *)
Lemma ring_distinct h a b : 0 <= a < MTS_INBOX → 0 <= b < MTS_INBOX → a ≠ b →
  Z.to_nat ((h + a) mod MTS_INBOX) ≠ Z.to_nat ((h + b) mod MTS_INBOX).
Proof.
  intros Ha Hb Hab H. unfold MTS_INBOX in *.
  pose proof (Z.mod_pos_bound (h + a) 128). pose proof (Z.mod_pos_bound (h + b) 128).
  assert ((h + a) mod 128 = (h + b) mod 128) as E by lia.
  pose proof (Z.div_mod (h + a) 128). pose proof (Z.div_mod (h + b) 128). lia.
Qed.

Lemma queue_length s : 0 <= count s → zlen (queue s) = count s.
Proof. intros H. unfold queue, zlen. rewrite length_fmap, length_seq. lia. Qed.

(** The first event, and the queue without it. *)
Lemma queue_pop s : inbox_ok s → 0 < count s →
  queue s = default zero_event (inbox s !! Z.to_nat (head s)) ::
            queue (set_count (count s - 1) (set_head ((head s + 1) mod MTS_INBOX) s)).
Proof.
  intros (Hl & Hh & Hc) Hp. unfold queue. cbn [count head inbox set_count set_head].
  replace (Z.to_nat (count s)) with (S (Z.to_nat (count s - 1))) by lia.
  rewrite <- cons_seq. cbn [fmap list_fmap]. f_equal.
  - rewrite Z.add_0_r, Z.mod_small by done. done.
  - rewrite <- fmap_S_seq, <- list_fmap_compose. apply list_fmap_ext. intros _ k _. cbn [compose].
    unfold compose. rewrite Zplus_mod_idemp_l.
    by replace (head s + 1 + Z.of_nat k) with (head s + Z.of_nat (S k)) by lia.
Qed.

(** Room for one more event. *)
Lemma queue_snoc e s : inbox_ok s → count s < MTS_INBOX →
  queue (set_count (count s + 1)
    (set_inbox (<[Z.to_nat ((head s + count s) mod MTS_INBOX) := e]> (inbox s)) s)) = queue s ++ [e].
Proof.
  intros (Hl & Hh & Hc) Hp. unfold queue. cbn [count head inbox set_count set_inbox].
  replace (Z.to_nat (count s + 1)) with (Z.to_nat (count s) + 1)%nat by lia.
  rewrite seq_app, fmap_app. f_equal.
  - apply list_fmap_ext. intros i k [-> Hk]%lookup_seq. rewrite list_lookup_insert_ne; [done |].
    apply ring_distinct; lia.
  - cbn. rewrite Z2Nat.id by lia. rewrite list_lookup_insert_eq; [done |].
    unfold zlen, MTS_INBOX in *. pose proof (Z.mod_pos_bound (head s + count s) 128). lia.
Qed.

(** An event that is taken is the last of the queue; a full queue loses its
    first. *)
Lemma queue_push e s : inbox_ok s →
  queue (inbox_push e s) = (if count s =? MTS_INBOX then tail (queue s) else queue s) ++ [e].
Proof.
  intros Hok. pose proof Hok as (Hl & Hh & Hc). unfold inbox_push.
  destruct (Z.eqb_spec (count s) MTS_INBOX) as [E | E].
  - rewrite (queue_pop s) by (unfold MTS_INBOX in *; try lia; done). cbn [tail].
    etrans; [apply (queue_snoc e (set_skipped (u64 (skipped s + 1)) (set_count (count s - 1)
      (set_head ((head s + 1) mod MTS_INBOX) s)))) | done].
    + split_and!; cbn; unfold MTS_INBOX in *; try lia; apply Z.mod_pos_bound; lia.
    + cbn. lia.
  - apply queue_snoc; [done | lia].
Qed.

Lemma drain_loop_queue n : ∀ s, inbox_ok s → Z.of_nat n <= count s →
  ∃ s', drain_loop n s = Some (take n (queue s), s') ∧ queue s' = drop n (queue s) ∧
    inbox_ok s' ∧ s' = set_count (count s - Z.of_nat n) (set_head (head s') s).
Proof.
  induction n as [| n IH]; intros s Hok Hn.
  - exists s. split_and!; [done | done | done |]. rewrite Z.sub_0_r. by destruct s.
  - pose proof Hok as (Hl & Hh & Hc). rewrite (queue_pop s) by (done || lia).
    cbn [drain_loop take drop].
    destruct (nthZ_lookup (inbox s) (head s)) as [e He]; [unfold MTS_INBOX in *; lia |].
    rewrite He. cbn [mbind option_bind].
    destruct (IH (set_count (count s - 1) (set_head ((head s + 1) mod MTS_INBOX) s)))
      as (s' & -> & Hq & Hok' & Hs').
    { split_and!; cbn; unfold MTS_INBOX in *; try lia; apply Z.mod_pos_bound; lia. }
    { cbn. lia. }
    exists s'. cbn [mbind option_bind]. split_and!; [| done | done |].
    + unfold nthZ in He. destruct (head s <? 0) eqn:E; [lia |]. by rewrite He.
    + rewrite Hs'. cbn. unfold set_count, set_head. cbn. f_equal. lia.
Qed.

Lemma mts_drain_runs p cap s w (Q : list mts_event * Z → world → Prop) :
  heap w !! p = Some s → inbox_ok s → 0 <= cap →
  (∀ s', queue s' = dropZ cap (queue s) → inbox_ok s' → skipped s' = 0 →
    (∃ h c, s' = set_skipped 0 (set_count c (set_head h s))) →
    Q (takeZ cap (queue s), skipped s) (set_heap (<[p := s']> (heap w)) w)) →
  runs (mts_drain p cap) Q w.
Proof.
  intros Hs Hok Hcap HQ. unfold mts_drain. apply runs_bind, (runs_session _ s); [done |].
  set (n := if count s <? cap then count s else cap).
  pose proof Hok as (Hl & Hh & Hc).
  assert (0 <= n <= count s) as Hn by (unfold n; destruct (Z.ltb_spec (count s) cap); lia).
  destruct (drain_loop_queue (Z.to_nat n) s Hok) as (s' & Hd & Hq & Hok' & Hs'); [lia |].
  pose proof (queue_length s ltac:(lia)) as Hlen. unfold zlen in Hlen.
  assert (take (Z.to_nat n) (queue s) = takeZ cap (queue s) ∧
    drop (Z.to_nat n) (queue s) = dropZ cap (queue s)) as [Ht Hdr].
  { unfold takeZ, dropZ, n. destruct (Z.ltb_spec (count s) cap); [| done].
    rewrite !take_ge, !drop_ge by lia. done. }
  apply runs_bind, (runs_lift (takeZ cap (queue s), s')); [by rewrite Hd, Ht |].
  apply runs_bind, (runs_update _ _ s); [done |].
  apply runs_ret. replace (skipped s') with (skipped s) by (by rewrite Hs').
  apply HQ; [by rewrite <- Hdr, <- Hq | done | done |].
  exists (head s'), (count s - Z.of_nat (Z.to_nat n)). by rewrite Hs' at 1.
Qed.

(** ** The inbox refines a bounded queue *)

(** What is done to an inbox, by the sessions that publish and by its own. *)
Inductive inbox_op : Type :=
  | Put (e : mts_event) (private : bool)
  | Take (cap : Z).

Definition op_ok (o : inbox_op) : Prop := match o with Put _ _ => True | Take cap => 0 <= cap end.

(** What the caller learns: whether the event was taken, or the events and the
    number that was lost. *)
Abbreviation answer := (bool + list mts_event * Z)%type.

(** The code. *)
Definition do_op (p : nat) (o : inbox_op) : M answer :=
  match o with
  | Put e private => ok ← enqueue p e private; mret (inl ok)
  | Take cap => r ← mts_drain p cap; mret (inr r)
  end.

Fixpoint do_ops (p : nat) (l : list inbox_op) : M (list answer) :=
  match l with [] => mret [] | o :: l => a ← do_op p o; r ← do_ops p l; mret (a :: r) end.

(** A queue of at most 128 events with a count of those it lost. *)
Definition queue_op (o : inbox_op) (q : list mts_event) (lost : Z) : answer * (list mts_event * Z) :=
  match o with
  | Put e private =>
      if zlen q =? MTS_INBOX then
        if private then (inl false, (q, lost)) else (inl true, (tail q ++ [e], u64 (lost + 1)))
      else (inl true, (q ++ [e], lost))
  | Take cap => (inr (takeZ cap q, lost), (dropZ cap q, 0))
  end.

Fixpoint queue_ops (l : list inbox_op) (q : list mts_event) (lost : Z) : list answer * (list mts_event * Z) :=
  match l with
  | [] => ([], (q, lost))
  | o :: l =>
      let '(a, (q, lost)) := queue_op o q lost in
      let '(r, z) := queue_ops l q lost in (a :: r, z)
  end.

(** Two sessions that differ in their inbox only. *)
Definition same_but_inbox (s s' : mts_session) : Prop :=
  s' = set_inbox (inbox s') (set_head (head s') (set_count (count s') (set_skipped (skipped s') s))).

Lemma same_but_inbox_refl s : same_but_inbox s s.
Proof. by destruct s. Qed.

Lemma same_but_inbox_trans a b c : same_but_inbox a b → same_but_inbox b c → same_but_inbox a c.
Proof. unfold same_but_inbox. intros -> H. rewrite H. by destruct c. Qed.

Lemma inbox_push_same e s : same_but_inbox s (inbox_push e s).
Proof. unfold same_but_inbox, inbox_push. destruct (_ =? _); by destruct s. Qed.

Lemma inbox_push_skipped e s :
  skipped (inbox_push e s) = if count s =? MTS_INBOX then u64 (skipped s + 1) else skipped s.
Proof. unfold inbox_push. by destruct (_ =? _). Qed.

Lemma do_op_queue p o s w :
  heap w !! p = Some s → inbox_ok s → op_ok o →
  runs (do_op p o) (λ a w', ∃ s', w' = set_heap (<[p := s']> (heap w)) w ∧ inbox_ok s' ∧
    same_but_inbox s s' ∧ queue_op o (queue s) (skipped s) = (a, (queue s', skipped s'))) w.
Proof.
  intros Hs Hok Ho. pose proof Hok as (_ & _ & Hc).
  assert (set_heap (<[p:=s]> (heap w)) w = w) as Hid by (rewrite insert_id by done; by destruct w).
  destruct o as [e pr | cap]; cbn [do_op queue_op].
  - apply runs_bind. rewrite (queue_length s) by lia. apply (enqueue_runs _ _ _ s); [done |].
    destruct (count s =? MTS_INBOX) eqn:E; [destruct pr |]; cbn [andb]; apply runs_ret.
    + exists s. rewrite Hid. split_and!; [done | done | apply same_but_inbox_refl | done].
    + eexists. split_and!; [done | by apply inbox_push_ok | apply inbox_push_same |].
      by rewrite queue_push, inbox_push_skipped, E.
    + eexists. split_and!; [done | by apply inbox_push_ok | apply inbox_push_same |].
      by rewrite queue_push, inbox_push_skipped, E.
  - apply runs_bind, (mts_drain_runs _ _ s); [done | done | done |].
    intros s' Hq Hok' Hsk (h & c & Hs'). apply runs_ret. exists s'.
    split_and!; [done | done | by subst; destruct s | by rewrite Hq, Hsk].
Qed.

(** C12. The inbox of a session, a ring of 128 events in a fixed array, is a queue
    of at most 128 events: whatever is put into it and taken from it, the answers
    are those of the queue. An event that finds the queue full takes the place
    of the oldest, which is counted as lost, and a private one is refused
    instead; taking gives the oldest events in order with the number that was
    lost since the last time. Nothing else of the world changes, and no access
    leaves the array. *)
Theorem inbox_is_a_bounded_queue p ops s w :
  heap w !! p = Some s → inbox_ok s → Forall op_ok ops →
  runs (do_ops p ops) (λ answers w', ∃ s', w' = set_heap (<[p := s']> (heap w)) w ∧ inbox_ok s' ∧
    same_but_inbox s s' ∧ queue_ops ops (queue s) (skipped s) = (answers, (queue s', skipped s'))) w.
Proof.
  intros Hs Hok Ho. revert w s Hs Hok.
  induction Ho as [| o ops Ho _ IH]; intros w s Hs Hok.
  - apply runs_ret. exists s. rewrite insert_id by done. split_and!; [by destruct w | done | | done].
    apply same_but_inbox_refl.
  - cbn [do_ops queue_ops]. apply runs_bind. eapply runs_mono; [by apply do_op_queue |].
    intros a w1 (s1 & -> & Hok1 & Hsame & ->). apply runs_bind. eapply runs_mono.
    { apply (IH _ s1); [| done]. apply lookup_insert_eq. }
    intros r w2 (s2 & -> & Hok2 & Hsame2 & Heq). apply runs_ret. exists s2. rewrite Heq.
    split_and!; [| done | by eapply same_but_inbox_trans | done].
    cbn. by rewrite insert_insert_eq.
Qed.

(** A public event and a private one that find the inbox of a session full. *)
Lemma inbox_is_a_bounded_queue_witness :
  let e k := MkEvent k 1 0 MTS_PUBLIC 5 0 [] [] (lit "hi") in
  let ops := (λ k, Put (e (Z.of_nat k)) false) <$> seq 0 128 in
  let w := MkWorld (MkState (MkCfg true 1 1 1 0 0 0 0 true true 0 0 false [] []) [] [0%nat] 2 1 true
    false false []) {[0%nat := new_session]} 1 (MkDb [] [] [] [] [] [] [] [] [] []) 0 [] [] in
  runs (do_ops 0 (ops ++ [Put (e 128) true; Put (e 129) false; Take 32])) (λ answers w', ∃ s',
    w' = set_heap (<[0%nat := s']> (heap w)) w ∧ inbox_ok s' ∧ same_but_inbox new_session s' ∧
    queue_ops (ops ++ [Put (e 128) true; Put (e 129) false; Take 32]) [] 0 =
      (answers, (queue s', skipped s'))) w.
Proof.
  apply (inbox_is_a_bounded_queue 0 (((λ k, Put (MkEvent (Z.of_nat k) 1 0 MTS_PUBLIC 5 0 [] [] (lit "hi"))
    false) <$> seq 0 128) ++ [Put (MkEvent 128 1 0 MTS_PUBLIC 5 0 [] [] (lit "hi")) true;
    Put (MkEvent 129 1 0 MTS_PUBLIC 5 0 [] [] (lit "hi")) false; Take 32]) new_session).
  - reflexivity.
  - split_and!; vm_compute; [reflexivity | discriminate | reflexivity | discriminate | discriminate].
  - apply Forall_app. split.
    + apply Forall_fmap, Forall_forall. done.
    + repeat constructor. discriminate.
Defined.
