(* ===== verification/MtsWorld.v ===== *)
(** The invariant of the teleconference, and what the steps that the commands are
    made of do to it; the operations on the shared state keep it: finding, publishing,
    draining, joining and leaving. *)

From S2P Require Import Prelude CLib MtsText MtsTextSpec MtsStore MtsState MtsInbox.

#[local] Open Scope Z_scope.

(** ** The invariant *)

(** The history of a room is none, or a ring within its array. *)
Definition room_ok (r : mts_room) : Prop :=
  history_capacity r = 0 ∨
  zlen (history r) = history_capacity r ∧ 0 <= history_head r < history_capacity r ∧
  0 <= history_count r <= history_capacity r.

(** What other parts of the invariant look at. *)
Definition session_key (s : mts_session) : bool * bool * Z := (active s, mts_is_sysop s, room_id s).

(** What a session is while it is present, from entering to leaving. *)
Definition life_key (s : mts_session) : bool * Z * bool := (presence_registered s, lifecycle s, cleanup_complete s).
Definition alive : bool * Z * bool := (true, MTS_LIFE_ENTERED, false).
Definition full_key (s : mts_session) : bool * bool * Z * (bool * Z * bool) := (session_key s, life_key s).

Definition room_key (r : mts_room) : bool * Z * bool := (ractive r, rid r, permanent r).

(** The room of a number is in use. *)
Definition room_exists (room : Z) (w : world) : Prop :=
  ∃ i r, (i < Z.to_nat (max_rooms (cfg (MTS w))))%nat ∧ rooms (MTS w) !! i = Some r ∧ is_room room r = true.

(** The world in which the sessions [n] are allocated, [ss] of them are present, and [fr]
    are not yet in a room or are about to leave. *)
Record world_ok (n : gset nat) (ss fr : list nat) (w : world) : Prop := {
  ok_max : 1 <= max_rooms (cfg (MTS w)) <= MTS_HARD_ROOMS ∧ max_users (cfg (MTS w)) <= MTS_HARD_USERS;
  ok_rooms : zlen (rooms (MTS w)) = MTS_HARD_ROOMS ∧ Forall room_ok (rooms (MTS w));
  ok_lobby : ∃ r, rooms (MTS w) !! 0%nat = Some r ∧ room_key r = (true, 1, true);
  ok_heap : dom (heap w) = n ∧ map_Forall (λ _, inbox_ok) (heap w);
  ok_allocated : ∀ p, p ∈ n → (p < allocated w)%nat;
  ok_sessions : sessions (MTS w) = ss ∧ NoDup ss;
  ok_fit : zlen ss <= MTS_HARD_USERS;
  ok_present : ∀ p, p ∈ ss ↔ active <$> heap w !! p = Some true;
  ok_alive : ∀ p s, p ∈ ss → p ∉ fr → heap w !! p = Some s → life_key s = alive;
  ok_sysops : ∀ p s, p ∈ ss → p ∉ fr → heap w !! p = Some s → mts_is_sysop s = true → room_exists (room_id s) w
}.

(** Two worlds with the same sessions in the same rooms. *)
Record quiet (w w' : world) : Prop := {
  quiet_cfg : cfg (MTS w') = cfg (MTS w);
  quiet_rooms : room_key <$> rooms (MTS w') = room_key <$> rooms (MTS w);
  quiet_heap : full_key <$> heap w' = full_key <$> heap w;
  quiet_allocated : allocated w' = allocated w;
  quiet_sessions : sessions (MTS w') = sessions (MTS w)
}.

#[export] Instance quiet_preorder : PreOrder quiet.
Proof. split; [done | intros ? ? ? [] []; split; congruence]. Qed.

Lemma key_lookup w w' q : full_key <$> heap w' = full_key <$> heap w →
  full_key <$> heap w' !! q = full_key <$> heap w !! q.
Proof. intros E. by rewrite <- !lookup_fmap, E. Qed.

Lemma key_lookup_back w w' q s' : full_key <$> heap w' = full_key <$> heap w → heap w' !! q = Some s' →
  ∃ s, heap w !! q = Some s ∧ full_key s = full_key s'.
Proof.
  intros E%(key_lookup _ _ q) Hs. rewrite Hs in E. destruct (heap w !! q) as [s |]; [| done].
  apply (inj Some) in E. by exists s.
Qed.

Lemma full_key_session s s' : full_key s = full_key s' → session_key s = session_key s' ∧ life_key s = life_key s'.
Proof. intros E. split; [exact (f_equal fst E) | exact (f_equal snd E)]. Qed.

Lemma fmap_lookup_back {A B} (f : A → B) (l l' : list A) (i : nat) x' :
  f <$> l' = f <$> l → l' !! i = Some x' → ∃ x, l !! i = Some x ∧ f x = f x'.
Proof.
  intros E H. assert ((f <$> l') !! i = Some (f x')) as H' by (by rewrite list_lookup_fmap, H).
  rewrite E, list_lookup_fmap in H'. destruct (l !! i) as [x |]; [| done]. injection H' as H'. eauto.
Qed.

Lemma room_exists_quiet room w w' : quiet w w' → room_exists room w → room_exists room w'.
Proof.
  intros [Hc Hr _ _ _] (i & r & Hi & Hl & Hk).
  destruct (fmap_lookup_back room_key (rooms (MTS w')) (rooms (MTS w)) i r) as (r' & Hl' & E); [done | done |].
  exists i, r'. rewrite Hc. split_and!; [done | done |].
  unfold room_key in E. injection E as Ea Ei _. unfold is_room in *. by rewrite Ea, Ei.
Qed.

Lemma world_ok_quiet n ss fr w w' :
  world_ok n ss fr w → quiet w w' → Forall room_ok (rooms (MTS w')) → map_Forall (λ _, inbox_ok) (heap w') →
  world_ok n ss fr w'.
Proof.
  intros [H1 [H2 _] (r & Hr & Hk) [H4 _] Ha [H5 Hnd] Hfit H6 Hal H7] Hq Hro Hin. pose proof Hq as [Qc Qr Qh Qa Qs].
  pose proof (f_equal length Qr) as Lr. rewrite !length_fmap in Lr.
  split; try done.
  - by rewrite Qc.
  - unfold zlen in *. by rewrite Lr.
  - destruct (fmap_lookup_back room_key (rooms (MTS w')) (rooms (MTS w)) 0 r) as (r' & Hl & E); [done | done |].
    exists r'. split; [done | congruence].
  - split; [| done]. by rewrite <- (dom_fmap_L full_key), Qh, dom_fmap_L.
  - by rewrite Qa.
  - by rewrite Qs.
  - intros p. rewrite H6. assert (∀ h : gmap nat mts_session, active <$> h !! p = (λ k, k.1.1.1) <$> (full_key <$> h) !! p) as Hg.
    { intros h. rewrite lookup_fmap. by destruct (h !! p). }
    by rewrite !Hg, Qh.
  - intros p s' Hp Hf Hl. destruct (key_lookup_back w w' p s' Qh Hl) as (s & Hs & [_ <-]%full_key_session). by eapply Hal.
  - intros p s' Hp Hf Hl Hs. destruct (key_lookup_back w w' p s' Qh Hl) as (s & Hl' & [E _]%full_key_session).
    unfold session_key in E. injection E as _ Ef Er. rewrite <- Er.
    eapply room_exists_quiet, H7; [done | done | done | done | congruence].
Qed.

Lemma present_in_heap n ss fr w p : world_ok n ss fr w → p ∈ ss → p ∈ n.
Proof.
  intros H Hp. apply (ok_present _ _ _ _ H) in Hp. destruct (heap w !! p) eqn:E; [| done].
  apply elem_of_dom_2 in E. by rewrite (proj1 (ok_heap _ _ _ _ H)) in E.
Qed.

Lemma in_heap n ss fr w p s : world_ok n ss fr w → heap w !! p = Some s → p ∈ n.
Proof. intros H Hs. rewrite <- (proj1 (ok_heap _ _ _ _ H)). by eapply elem_of_dom_2. Qed.

Lemma heap_inbox_ok n ss fr w p s : world_ok n ss fr w → heap w !! p = Some s → inbox_ok s.
Proof. intros H Hs. by apply (proj2 (ok_heap _ _ _ _ H) p s). Qed.

Lemma heap_lookup n ss fr w p : world_ok n ss fr w → p ∈ n → ∃ s, heap w !! p = Some s ∧ inbox_ok s.
Proof.
  intros H Hp. rewrite <- (proj1 (ok_heap _ _ _ _ H)) in Hp. apply elem_of_dom in Hp as [s Hs].
  exists s. split; [done |]. by eapply heap_inbox_ok.
Qed.

Lemma dom_update (h : gmap nat mts_session) p s s' : h !! p = Some s → dom (<[p := s']> h) = dom h.
Proof. intros Hs. by apply dom_insert_lookup_L; eexists. Qed.

(** An assignment to a session that leaves it where it is. *)
Lemma world_ok_update n ss fr w p s s' :
  world_ok n ss fr w → heap w !! p = Some s → inbox_ok s' → full_key s' = full_key s →
  world_ok n ss fr (set_heap (<[p := s']> (heap w)) w) ∧ quiet w (set_heap (<[p := s']> (heap w)) w).
Proof.
  intros H Hs Hok Hk. assert (quiet w (set_heap (<[p := s']> (heap w)) w)) as Hq.
  { split; try done. cbn. rewrite fmap_insert, Hk.
    rewrite insert_id; [done |]. by rewrite lookup_fmap, Hs. }
  split; [| done]. eapply world_ok_quiet; [done | done | apply (ok_rooms _ _ _ _ H) |].
  cbn. apply map_Forall_insert_2; [done | apply (ok_heap _ _ _ _ H)].
Qed.

Lemma world_ok_update_room n ss fr w i r r' :
  world_ok n ss fr w → rooms (MTS w) !! i = Some r → room_ok r' → room_key r' = room_key r →
  let w' := set_MTS (set_rooms (<[i := r']> (rooms (MTS w))) (MTS w)) w in
  world_ok n ss fr w' ∧ quiet w w'.
Proof.
  intros H Hs Hok Hk w'. assert (quiet w w') as Hq.
  { split; try done. cbn. rewrite list_fmap_insert, Hk.
    rewrite list_insert_id; [done |]. by rewrite list_lookup_fmap, Hs. }
  split; [| done]. eapply world_ok_quiet; [done | done | | apply (ok_heap _ _ _ _ H)].
  cbn. apply Forall_insert; [apply (ok_rooms _ _ _ _ H) | done].
Qed.

(** ** What keeps the invariant

    [m] is defined in every world of [n] sessions of which [ss] are present, its
    result has the property [Φ], and the invariant holds after it; [R] is what
    is known of the worlds before and after. *)

Record frame : Type := Frame {
  related :> world → world → Prop;
  related_preorder : PreOrder related;
  related_quiet : subrelation quiet related
}.

Definition quietly : frame := Frame quiet quiet_preorder (λ _ _ H, H).

Definition somehow : frame.
Proof. by refine (Frame (λ _ _, True) _ _); split. Defined.

Section safe.
Context (n : gset nat) (ss fr : list nat) (R : frame).

#[local] Instance related_preorder_instance : PreOrder R := related_preorder R.

Definition safe {A} (m : M A) (Φ : A → Prop) : Prop :=
  ∀ w, world_ok n ss fr w → runs m (λ x w', world_ok n ss fr w' ∧ R w w' ∧ Φ x) w.

Lemma safe_ret {A} (x : A) (Φ : A → Prop) : Φ x → safe (mret x) Φ.
Proof. intros H w Hw. apply runs_ret. split_and!; [done | reflexivity | done]. Qed.

Lemma safe_bind {A B} (m : M A) (f : A → M B) Φ Ψ :
  safe m Φ → (∀ x, Φ x → safe (f x) Ψ) → safe (m ≫= f) Ψ.
Proof.
  intros Hm Hf w Hw. apply runs_bind. eapply runs_mono; [by apply Hm |].
  intros x w1 (Hw1 & R1 & Hx). eapply runs_mono; [by apply (Hf x Hx) |].
  intros y w2 (Hw2 & R2 & Hy). split_and!; [done | by etrans | done].
Qed.

Lemma safe_mono {A} (m : M A) (Φ Ψ : A → Prop) : safe m Φ → (∀ x, Φ x → Ψ x) → safe m Ψ.
Proof.
  intros Hm H w Hw. eapply runs_mono; [by apply Hm |]. intros x w' (? & ? & ?). split_and!; auto.
Qed.

Lemma safe_quiet {A} (m : M A) (Φ : A → Prop) :
  (∀ w, world_ok n ss fr w → runs m (λ x w', (world_ok n ss fr w' ∧ quiet w w') ∧ Φ x) w) → safe m Φ.
Proof.
  intros H w Hw. eapply runs_mono; [by apply H |]. intros x w' [[? ?] ?].
  split_and!; [done | by apply related_quiet | done].
Qed.

Lemma safe_lift {A} (o : option A) (Φ : A → Prop) : (∃ x, o = Some x ∧ Φ x) → safe (lift o) Φ.
Proof. intros (x & -> & H) w Hw. eapply runs_lift; [done |]. split_and!; [done | reflexivity | done]. Qed.

Lemma safe_lift_total {A} (o : option A) : is_Some o → safe (lift o) (λ x, o = Some x).
Proof. intros [x ->]. by apply safe_lift; exists x. Qed.

(** An array that is large enough. *)
Lemma safe_filled {A} cap (l : list A) : zlen l <= cap → safe (lift (filled cap l)) (λ x, x = l).
Proof. intros Hl w Hw. apply runs_filled; [done |]. split_and!; [done | reflexivity | done]. Qed.

(** What is read of the world at once. *)
Lemma safe_gets {A} (g : world → A) (Φ : A → Prop) : (∀ w, world_ok n ss fr w → Φ (g w)) → safe (gets g) Φ.
Proof. intros H w Hw. apply runs_gets. split_and!; [done | reflexivity | auto]. Qed.

Lemma safe_session p : p ∈ n → safe (session p) inbox_ok.
Proof.
  intros Hp w Hw. destruct (heap_lookup n ss fr w p Hw Hp) as (s & Hs & Hok).
  apply (runs_session _ s); [done |]. split_and!; [done | reflexivity | done].
Qed.

Lemma safe_update p f :
  p ∈ n → (∀ s, inbox_ok s → inbox_ok (f s) ∧ full_key (f s) = full_key s) →
  safe (update p f) (λ _, True).
Proof.
  intros Hp Hf. apply safe_quiet. intros w Hw. destruct (heap_lookup n ss fr w p Hw Hp) as (s & Hs & Hok).
  apply (runs_update _ _ s); [done |]. destruct (Hf s Hok). split; [| done].
  by eapply world_ok_update.
Qed.

(** A change of the world outside the sessions and the rooms. *)
Lemma safe_modify g :
  (∀ w, heap (g w) = heap w ∧ rooms (MTS (g w)) = rooms (MTS w) ∧ sessions (MTS (g w)) = sessions (MTS w) ∧
    cfg (MTS (g w)) = cfg (MTS w) ∧ allocated (g w) = allocated w) →
  safe (modify g) (λ _, True).
Proof.
  intros Hg. apply safe_quiet. intros w Hw. apply runs_modify. split; [| done].
  destruct (Hg w) as (Eh & Er & Es & Ec & Ea). assert (quiet w (g w)) as Hq by (split; congruence).
  split; [| done]. eapply world_ok_quiet; [done | done | rewrite Er; apply (ok_rooms _ _ _ _ Hw) |].
  rewrite Eh. apply (ok_heap _ _ _ _ Hw).
Qed.

Lemma safe_for_each {A} (f : A → M unit) l :
  (∀ x, x ∈ l → safe (f x) (λ _, True)) → safe (for_each f l) (λ _, True).
Proof.
  induction l as [| x l IH]; intros H; [by apply safe_ret |]. cbn [for_each].
  eapply safe_bind; [apply H; left |]. intros _ _. apply IH. intros y Hy. apply H. by right.
Qed.

(** ** Rooms *)

(** A room of the array, not the Lobby when it is not at its place. *)
Definition room_at_ok (i : nat) (r : mts_room) : Prop := room_ok r ∧ (i = 0%nat → room_key r = (true, 1, true)).

Lemma room_lookup w i r : world_ok n ss fr w → rooms (MTS w) !! i = Some r → room_at_ok i r.
Proof.
  intros Hw Hi. split.
  - eapply Forall_lookup_1, Hi. apply (ok_rooms _ _ _ _ Hw).
  - intros ->. destruct (ok_lobby _ _ _ _ Hw) as (r' & Hr' & Hk). congruence.
Qed.

Lemma rooms_bound w : world_ok n ss fr w → length (rooms (MTS w)) = 128%nat.
Proof. intros Hw. pose proof (proj1 (ok_rooms _ _ _ _ Hw)) as H. unfold zlen, MTS_HARD_ROOMS in H. lia. Qed.

Lemma safe_all_rooms :
  safe all_rooms (λ rs, (length rs <= 128)%nat ∧ ∀ i r, rs !! i = Some r → room_at_ok i r).
Proof.
  apply safe_gets. intros w Hw. pose proof (rooms_bound w Hw). unfold takeZ. split.
  - rewrite length_take. lia.
  - intros i r Hi. apply lookup_take_Some in Hi as [Hi _]. by apply (room_lookup w).
Qed.

Lemma safe_room_at i : (i < 128)%nat → safe (room_at i) (room_at_ok i).
Proof.
  intros Hi w Hw. destruct (lookup_lt_is_Some_2 (rooms (MTS w)) i) as [r Hr].
  { by rewrite (rooms_bound w Hw). }
  apply (runs_room_at _ r); [done |]. split_and!; [done | reflexivity |]. by eapply room_lookup.
Qed.

Lemma safe_update_room i f :
  (i < 128)%nat → (∀ r, room_ok r → room_ok (f r) ∧ room_key (f r) = room_key r) →
  safe (update_room i f) (λ _, True).
Proof.
  intros Hi Hf. apply safe_quiet. intros w Hw.
  destruct (lookup_lt_is_Some_2 (rooms (MTS w)) i) as [r Hr]; [by rewrite (rooms_bound w Hw) |].
  apply (runs_update_room _ _ r); [done |]. destruct (room_lookup w i r Hw Hr) as [Hok _].
  destruct (Hf r Hok). split; [| done]. by eapply world_ok_update_room.
Qed.
End safe.

Lemma first_at_Some {A} (P : A → bool) l i : first_at P l = Some i →
  ∃ x, l !! i = Some x ∧ P x = true.
Proof.
  revert i. induction l as [| x l IH]; intros i; [done |]. cbn. destruct (P x) eqn:E.
  - intros [= <-]. by exists x.
  - destruct (first_at P l) as [k |]; [| done]. intros [= <-]. by apply IH.
Qed.

Lemma last_at_Some {A} (P : A → bool) l i : last_at P l = Some i →
  ∃ x, l !! i = Some x ∧ P x = true.
Proof.
  revert i. induction l as [| x l IH]; intros i; [done |]. cbn. destruct (last_at P l) as [k |].
  - intros [= <-]. by apply IH.
  - destruct (P x) eqn:E; [| done]. intros [= <-]. by exists x.
Qed.

Lemma last_at_None {A} (P : A → bool) l i x : last_at P l = None → l !! i = Some x → P x = false.
Proof.
  revert i. induction l as [| y l IH]; intros i; [done |]. cbn. destruct (last_at P l) as [k |]; [done |].
  destruct (P y) eqn:E; [done |]. intros _ Hi. destruct i as [| i]; [cbn in Hi; congruence | by eapply IH].
Qed.

(** * The operations on the shared state *)

(** ** Reading the sessions *)

Lemma sessions_read n ss fr w l : world_ok n ss fr w → Forall (λ p, p ∈ n) l →
  ∃ xs, mapM (λ p, s ← heap w !! p; Some (p, s)) l = Some xs ∧ xs.*1 = l ∧
    Forall (λ ps, heap w !! ps.1 = Some ps.2) xs.
Proof.
  intros Hw. induction 1 as [| p l Hp _ (xs & Hm & H1 & H2)]; [by exists [] |].
  destruct (heap_lookup n ss fr w p Hw Hp) as (s & Hs & _). exists ((p, s) :: xs). cbn.
  rewrite Hs. cbn. rewrite Hm. cbn. split_and!; [done | by rewrite H1 | by constructor].
Qed.

Lemma sessions_read_present n ss fr w : world_ok n ss fr w →
  ∃ xs, mapM (λ p, s ← heap w !! p; Some (p, s)) (sessions (MTS w)) = Some xs ∧ xs.*1 = ss ∧
    Forall (λ ps, heap w !! ps.1 = Some ps.2) xs.
Proof.
  intros Hw. rewrite (proj1 (ok_sessions _ _ _ _ Hw)). eapply sessions_read; [done |].
  apply Forall_forall. intros p. by eapply present_in_heap.
Qed.

Lemma sessions_values_of n ss fr w l : world_ok n ss fr w → Forall (λ p, p ∈ n) l →
  ∃ xs, mapM (λ p, heap w !! p) l = Some xs ∧ (∀ s, s ∈ xs ↔ ∃ p, p ∈ l ∧ heap w !! p = Some s).
Proof.
  intros Hw. induction 1 as [| p l Hp _ (xs & Hm & H1)].
  - exists []. split; [done |]. intros s. split; [by intros ?%elem_of_nil | by intros (? & ?%elem_of_nil & _)].
  - destruct (heap_lookup n ss fr w p Hw Hp) as (s & Hs & _). exists (s :: xs). cbn.
    rewrite Hs. cbn. rewrite Hm. split; [done |]. intros x. rewrite elem_of_cons, H1. split.
    + intros [-> | (q & Hq & Hx)]; [exists p | exists q]; (split; [constructor | done]); by try constructor.
    + intros (q & [-> | Hq]%elem_of_cons & Hx); [left; congruence | right; eauto].
Qed.

Lemma sessions_values n ss fr w : world_ok n ss fr w →
  ∃ xs, mapM (λ p, heap w !! p) (sessions (MTS w)) = Some xs ∧
    (∀ s, s ∈ xs ↔ ∃ p, p ∈ ss ∧ heap w !! p = Some s).
Proof.
  intros Hw. rewrite (proj1 (ok_sessions _ _ _ _ Hw)). eapply sessions_values_of; [done |].
  apply Forall_forall. intros p. by eapply present_in_heap.
Qed.

(** The session that is found by its name is present. *)
Lemma find_user_loop_present n ss fr w is_node number q l : world_ok n ss fr w → (∀ p, p ∈ l → p ∈ ss) →
  ∀ found, (∀ p, found = Some p → p ∈ ss) →
  ∃ r, find_user_loop (heap w) is_node number q l found = Some r ∧ ∀ p, r.1 = Some p → p ∈ ss.
Proof.
  intros Hw. induction l as [| p l IH]; intros Hl found Hf; [by exists (found, false) |].
  assert (p ∈ ss) as Hp by (apply Hl; constructor).
  assert (∀ q, q ∈ l → q ∈ ss) as Hl' by (intros; apply Hl; by constructor).
  destruct (heap_lookup n ss fr w p Hw) as (s & Hs & _); [by eapply present_in_heap |].
  cbn [find_user_loop]. rewrite Hs. cbn [mbind option_bind].
  destruct (if is_node then _ else _); [| by apply IH].
  destruct found as [f |]; [| by apply IH; [| intros ? [= <-]]].
  destruct (heap_lookup n ss fr w f Hw) as (fs & Hfs & _); [by eapply present_in_heap, Hf |].
  rewrite Hfs. cbn [mbind option_bind]. destruct (_ =? _); [by apply IH; [| intros ? [= <-]] | by exists (None, true)].
Qed.

(** ** Histories *)

Lemma history_slot_ok r : room_ok r → history_capacity r ≠ 0 → history_slot r < zlen (history r).
Proof.
  intros [H0 | (Hl & Hh & Hc)] Hn; [done |]. unfold history_slot. rewrite Hl.
  destruct (_ =? _); apply Z.mod_pos_bound; lia.
Qed.

Lemma add_history_ok e r : room_ok r → history_capacity r ≠ 0 →
  room_ok (add_history e r) ∧ room_key (add_history e r) = room_key r.
Proof.
  intros [H0 | (Hl & Hh & Hc)] Hn; [done |]. unfold add_history, room_ok.
  destruct (Z.eqb_spec (history_count r) (history_capacity r)); cbn; (split; [right | done]).
  - pose proof (Z.mod_pos_bound (history_head r + 1) (history_capacity r)).
    unfold zlen in *. rewrite length_insert. lia.
  - unfold zlen in *. rewrite length_insert. lia.
Qed.

(** No history is written outside of its array. *)
Lemma histories_hold rs room k : Forall room_ok rs →
  existsb (λ r, is_room room r && negb (history_capacity r =? 0) && negb (history_slot r <? zlen (history r)))
    (take k rs) = false.
Proof.
  intros Hrs. apply not_true_is_false. intros (r & Hr%list_elem_of_In & Hb)%existsb_exists.
  apply andb_true_iff in Hb as [[_ Hc]%andb_true_iff Hb]. rewrite Forall_forall in Hrs.
  rewrite (proj2 (Z.ltb_lt _ _)) in Hb; [done |]. apply history_slot_ok; [| lia]. apply Hrs. by eapply subseteq_take.
Qed.

Section steps.
Context (n : gset nat) (ss fr : list nat) (R : frame).
Abbreviation safe := (safe n ss fr R).

Lemma safe_current : safe (gets id) (world_ok n ss fr).
Proof. by apply safe_gets. Qed.

Lemma safe_find_user q : safe (mts_find_user q) (λ r, ∀ p, r.1 = Some p → p ∈ n).
Proof.
  unfold mts_find_user. destruct q as [| c q]; [by apply safe_ret |].
  destruct (strtoll 10 (c :: q)) as [number e]. eapply safe_bind; [apply safe_current |].
  intros w Hw. rewrite (proj1 (ok_sessions _ _ _ _ Hw)). apply safe_lift.
  destruct (find_user_loop_present n ss fr w (bool_decide (e = [])) number (c :: q) ss Hw (λ _ Hp, Hp) None)
    as (r & Hr & Hp); [done |].
  exists r. split; [done |]. intros p Hrp. eapply present_in_heap; [done | by apply Hp].
Qed.

Lemma safe_find_room q : safe (mts_find_room q) (λ o, ∀ i, o = Some i → (i < 128)%nat).
Proof.
  eapply safe_bind; [apply safe_all_rooms |]. intros rs [Hl _]. apply safe_ret.
  intros i (r & Hr & _)%first_at_Some. apply lookup_lt_Some in Hr. lia.
Qed.

Lemma safe_enqueue p e private : p ∈ n → safe (enqueue p e private) (λ _, True).
Proof.
  intros Hp. apply safe_quiet. intros w Hw. destruct (heap_lookup n ss fr w p Hw Hp) as (s & Hs & Hok).
  apply (enqueue_runs _ _ _ s); [done |]. destruct (_ && private).
  - split; [| done]. by split; [| reflexivity].
  - split; [| done]. eapply world_ok_update; [done | done | by apply inbox_push_ok |].
    by rewrite (inbox_push_same e s).
Qed.

Lemma safe_drain p cap : p ∈ n → 0 <= cap → safe (mts_drain p cap) (λ _, True).
Proof.
  intros Hp Hc. apply safe_quiet. intros w Hw. destruct (heap_lookup n ss fr w p Hw Hp) as (s & Hs & Hok).
  apply (mts_drain_runs _ _ s); [done | done | done |]. intros s' _ Hok' _ (h & c & ->).
  split; [| done]. by eapply world_ok_update.
Qed.

Lemma safe_deliver from e p : p ∈ n →
  safe (deliver from e p) (λ r, r.2 = true → ev_type e = MTS_PRIVATE ∧ is_Some from).
Proof.
  intros Hp. unfold deliver. eapply safe_bind; [by apply (safe_gets _ _ _ _ _ (λ _, True)) |]. intros d _.
  eapply safe_bind; [by apply safe_session |]. intros s _.
  destruct (is_unwanted _ _ _ _ _); [by apply safe_ret |].
  eapply safe_bind; [by apply safe_enqueue |]. intros ok _.
  destruct from as [[f fid] |]; [| by apply safe_ret].
  destruct (_ && _ && _ && _) eqn:E; [| by apply safe_ret].
  eapply safe_bind; [apply safe_filled; rewrite zlen_app; change (zlen [fid]) with 1; lia |]. intros l ->.
  eapply safe_bind; [by apply safe_update |]. intros _ _. apply safe_ret. intros _. split; [| by eexists].
  repeat (apply andb_true_iff in E as [E _]). by apply bool_decide_eq_true in E.
Qed.

Lemma safe_deliver_all from e l : Forall (λ p, p ∈ n) l →
  safe (deliver_all from e l)
    (λ r, Forall (λ p, p ∈ n ∧ ev_type e = MTS_PRIVATE ∧ is_Some from) r.2 ∧ zlen r.2 <= zlen l).
Proof.
  induction 1 as [| p l Hp _ IH]; [by apply safe_ret |]. cbn [deliver_all].
  eapply safe_bind; [by apply safe_deliver |]. intros [refused answers] Ha.
  eapply safe_bind; [apply IH |]. intros [failed auto] [Hauto Hlen]. apply safe_ret. cbn in *.
  rewrite (zlen_cons p l). destruct answers; rewrite ?zlen_cons; (split; [| lia]);
    [constructor; [by split; [| apply Ha] | done] | done].
Qed.

Lemma safe_record_history e room : safe (record_history e room) (λ _, True).
Proof.
  eapply safe_bind; [by apply (safe_gets _ _ _ _ _ (λ _, True)) |]. intros k _.
  eapply safe_bind; [apply (safe_gets _ _ _ _ _ (Forall room_ok)); intros w Hw; apply (ok_rooms _ _ _ _ Hw) |].
  intros rs Hrs. cbv beta zeta. rewrite histories_hold by done. clear rs Hrs.
  apply safe_quiet. intros w Hw. apply runs_modify. split; [| done].
  set (f := λ i r, if (i <? k)%nat && (is_room room r && negb (history_capacity r =? 0))
                   then add_history e r else r).
  assert (∀ i r, room_ok r → room_ok (f i r) ∧ room_key (f i r) = room_key r) as Hf.
  { intros i r Hr. unfold f. destruct (_ && (_ && _)) eqn:E; [apply add_history_ok; [done | lia] | done]. }
  assert (Forall room_ok (rooms (MTS w))) as Hall by apply (ok_rooms _ _ _ _ Hw).
  assert (Forall room_ok (imap f (rooms (MTS w))) ∧
    room_key <$> imap f (rooms (MTS w)) = room_key <$> rooms (MTS w)) as [H1 H2].
  { clearbody f. revert f Hf. induction Hall as [| r rs Hr _ IH]; intros f Hf; [done |].
    destruct (Hf 0%nat r Hr) as [Ha Hb]. destruct (IH (f ∘ S)) as [Hc Hd]; [intros; by apply Hf |].
    split; [by constructor |]. cbn. by rewrite Hb, Hd. }
  assert (quiet w (set_MTS (set_rooms (imap f (rooms (MTS w))) (MTS w)) w)) as Hq by done.
  split; [| done]. eapply world_ok_quiet; [done | done | done | apply (ok_heap _ _ _ _ Hw)].
Qed.

(** ** Publishing *)

(** The sessions that answer do so to a private message that somebody sent. *)
Lemma safe_publish_event f t room tgt tn txt : (∀ p, f = Some p → p ∈ n) →
  safe (publish_event f t room tgt tn txt)
    (Forall (λ p, p ∈ n ∧ t = MTS_PRIVATE ∧ is_Some f)).
Proof.
  intros Hf. unfold publish_event.
  eapply (safe_bind _ _ _ _ _ _ (λ from, is_Some from ↔ is_Some f)).
  { destruct f as [p |]; [| by apply safe_ret]. eapply safe_bind; [by apply safe_session, Hf |].
    intros s _. apply safe_ret. split; by eexists. }
  intros from Hfrom. eapply safe_bind; [apply safe_lift_total, mts_sanitize_is_Some |]. intros x _.
  eapply safe_bind; [apply safe_current |]. intros w Hw.
  eapply safe_bind; [by apply safe_modify |]. intros _ _.
  eapply safe_bind; [apply safe_all_rooms |]. intros rs _.
  destruct (sessions_read_present n ss fr w Hw) as (xs & Hm & H1 & _).
  eapply safe_bind; [apply safe_lift_total; by rewrite Hm |]. intros all Hall.
  rewrite Hm in Hall. injection Hall as <-.
  set (for_it := λ ps : nat * mts_session, is_for _ _ _ _ ps.2 = true).
  assert (zlen (filter for_it xs).*1 <= MTS_HARD_USERS) as Hfit.
  { etrans; [| apply (ok_fit _ _ _ _ Hw)]. rewrite <- H1. unfold zlen. rewrite !length_fmap.
    apply Nat2Z.inj_le, length_filter. }
  eapply safe_bind; [by apply safe_filled |]. intros rec ->.
  eapply safe_bind; [apply safe_deliver_all |].
  { apply Forall_forall. intros p (ps & -> & [_ Hps]%list_elem_of_filter)%list_elem_of_fmap.
    eapply present_in_heap; [done |]. rewrite <- H1. by apply list_elem_of_fmap_2. }
  intros [failed auto] [Hauto Hlen]. eapply safe_bind; [apply safe_filled; cbn in Hlen; lia |]. intros _ ->.
  eapply (safe_bind _ _ _ _ _ _ (λ _, True)).
  { destruct f as [p |]; [| by apply safe_ret]. destruct failed; [| by apply safe_ret].
    eapply safe_bind; [by apply safe_enqueue, Hf |]. intros _ _. by apply safe_ret. }
  intros _ _. eapply safe_bind; [by apply safe_modify |]. intros _ _.
  eapply (safe_bind _ _ _ _ _ _ (λ _, True)).
  { destruct (is_private_type t); [by apply safe_ret | by apply safe_record_history]. }
  intros _ _. apply safe_ret. eapply Forall_impl; [done |]. cbn. intros p (Hp & Ht & Hs).
  split_and!; [done | done |]. apply Hfrom. by destruct from; [| destruct Hs].
Qed.

(** An answer is not answered: one level of answers is enough. *)
Lemma safe_publish fuel : ∀ f t room tgt tn txt, (∀ p, f = Some p → p ∈ n) →
  (t = MTS_PRIVATE → (1 <= fuel)%nat) → safe (publish fuel f t room tgt tn txt) (λ _, True).
Proof.
  induction fuel as [| fuel IH]; intros f t room tgt tn txt Hf Ht; cbn [publish];
    (eapply safe_bind; [by apply safe_publish_event |]; intros auto Hauto).
  - destruct Hauto as [| ? ? (_ & -> & _) _]; [by apply safe_ret |]. specialize (Ht eq_refl). lia.
  - destruct auto as [| a auto]; [by apply safe_ret |]. apply safe_for_each. intros b Hb.
    rewrite Forall_forall in Hauto. destruct (Hauto b Hb) as (Hbn & _ & [p Hp]).
    eapply safe_bind; [by apply safe_session |]. intros s _.
    eapply safe_bind; [apply safe_lift_total; by rewrite Hp |]. intros p' Hp'.
    eapply safe_bind; [by apply safe_session, Hf |]. intros fs _.
    apply IH; [by intros ? [= <-] | done].
Qed.

Lemma safe_mts_publish f t room tgt tn txt : (∀ p, f = Some p → p ∈ n) →
  safe (mts_publish f t room tgt tn txt) (λ _, True).
Proof. intros Hf. by apply safe_publish. Qed.
End steps.
