(* ===== verification/MtsRooms.v ===== *)
(** Joining and leaving keep the invariant, and who may join. *)

From S2P Require Import Prelude CLib MtsText MtsTextSpec MtsStore MtsState MtsInbox MtsWorld.
#[local] Open Scope Z_scope.

(** ** Moving a session *)

(** A session may be put into any room that exists. *)
Lemma world_ok_move n ss fr w p s s' :
  world_ok n ss fr w → heap w !! p = Some s → inbox_ok s' →
  active s' = active s → (p ∈ ss → p ∉ fr → life_key s' = life_key s) →
  (mts_is_sysop s' = true → p ∈ ss → p ∉ fr → room_exists (room_id s') w) →
  world_ok n ss fr (set_heap (<[p := s']> (heap w)) w).
Proof.
  intros H Hs Hok Ha Hlife Hr. pose proof H as [H1 H2 H3 [H4 H4'] Hal H5 Hfit H6 Hlv H7]. split; cbn; try done.
  - split; [by rewrite (dom_update _ _ s) | by apply map_Forall_insert_2].
  - intros q. rewrite H6. destruct (decide (p = q)) as [<- | Hpq].
    + rewrite lookup_insert_eq, Hs. cbn. by rewrite Ha.
    + by rewrite lookup_insert_ne.
  - intros q x Hq Hf Hx. destruct (decide (p = q)) as [<- | Hpq].
    + rewrite lookup_insert_eq in Hx. injection Hx as <-. rewrite Hlife by done. by eapply Hlv.
    + rewrite lookup_insert_ne in Hx by done. by eapply Hlv.
  - intros q x Hq Hf Hx Hsys. destruct (decide (p = q)) as [<- | Hpq].
    + rewrite lookup_insert_eq in Hx. injection Hx as <-.
      destruct Hr as (i & r & ?); [done | done | done |]. by exists i, r.
    + rewrite lookup_insert_ne in Hx by done. destruct (H7 q x Hq Hf Hx Hsys) as (i & r & ?).
      by exists i, r.
Qed.

(** A room that is not the Lobby may be closed when no sysop is in it. *)
Lemma world_ok_close n ss fr w i r :
  world_ok n ss fr w → rooms (MTS w) !! i = Some r → (i ≠ 0)%nat →
  (∀ p s, p ∈ ss → p ∉ fr → heap w !! p = Some s → mts_is_sysop s = true → room_id s ≠ rid r) →
  world_ok n ss fr (set_MTS (set_rooms (<[i := set_ractive false r]> (rooms (MTS w))) (MTS w)) w).
Proof.
  intros H Hi Hn0 Hr. pose proof H as [H1 [H2 H2'] (l & Hl & Hlk) H4 Ha H5 Hfit H6 Hlv H7]. split; cbn; try done.
  - split; [unfold zlen in *; by rewrite length_insert |]. apply Forall_insert; [done |].
    destruct (room_lookup n ss fr w i r H Hi) as [Hok _]. exact Hok.
  - exists l. by rewrite list_lookup_insert_ne.
  - intros q x Hq Hf Hx Hsys. destruct (H7 q x Hq Hf Hx Hsys) as (j & y & Hj & Hy & Hro).
    exists j, y. split_and!; [done | | done]. cbn. rewrite list_lookup_insert_ne; [done |].
    intros <-. rewrite Hi in Hy. injection Hy as <-. apply (Hr q x Hq Hf Hx Hsys).
    unfold is_room in Hro. lia.
Qed.

Lemma rids_quiet w w' : quiet w w' → rid <$> rooms (MTS w') = rid <$> rooms (MTS w).
Proof.
  intros Hq. pose proof (f_equal (fmap (λ k, k.1.2)) (quiet_rooms _ _ Hq)) as E.
  by rewrite <- !list_fmap_compose in E.
Qed.

Section rooms.
Context (n : gset nat) (ss fr : list nat).

(** A temporary room is closed only when nobody is in it. *)
Lemma close_if_empty_runs room w :
  world_ok n ss fr w →
  runs (close_if_empty room) (λ _ w', world_ok n ss fr w' ∧ heap w' = heap w ∧
    rid <$> rooms (MTS w') = rid <$> rooms (MTS w) ∧
    ∀ room', room' ≠ room → room_exists room' w → room_exists room' w') w.
Proof.
  intros Hw. destruct (sessions_values n ss fr w Hw) as (xs & Hm & Hxs).
  apply runs_bind, runs_bind, runs_gets, runs_bind. eapply runs_lift; [exact Hm |]. apply runs_ret, runs_bind, runs_gets.
  destruct (last_at _ _) as [slot |] eqn:El; [| by apply runs_ret].
  apply last_at_Some in El as (r & Hr & Hp). unfold takeZ in Hr. apply lookup_take_Some in Hr as [Hr _].
  destruct (existsb _ xs) eqn:Ex; [by apply runs_ret |].
  apply andb_true_iff in Hp as [Hroom Hperm].
  apply runs_bind, (runs_update_room _ _ r); [done |]. apply runs_modify. split_and!; [| done | |].
  2: { cbn. rewrite list_fmap_insert, list_insert_id; [done |]. by rewrite list_lookup_fmap, Hr. }
  2: { intros room' Hne (i & x & Hi & Hx & Hk). exists i, x. split_and!; [done | | done]. cbn.
       rewrite list_lookup_insert_ne; [done |]. intros <-. unfold is_room in *.
       rewrite Hr in Hx. injection Hx as <-. lia. }
  eapply world_ok_quiet; [eapply (world_ok_close n ss fr w slot r Hw Hr) | done | |].
  - intros ->. destruct (room_lookup n ss fr w 0 r Hw Hr) as [_ Hk]. specialize (Hk eq_refl).
    unfold room_key in Hk. injection Hk as _ _ Hk. by rewrite Hk in Hperm.
  - intros p s Hps _ Hs _ Hrid. assert (existsb (λ s, room_id s =? room) xs = true) as Ht; [| congruence].
    apply existsb_exists. exists s. split; [by apply list_elem_of_In, Hxs; exists p |].
    unfold is_room in Hroom. lia.
  - cbn. apply Forall_insert; [apply (ok_rooms _ _ _ _ Hw) |].
    destruct (room_lookup n ss fr w slot r Hw Hr) as [Hok _]. exact Hok.
  - apply (ok_heap _ _ _ _ Hw).
Qed.

(** Whether a user may enter a room: the room is in use; a sysop enters any; others
    must not be banned, from the teleconference or the room, and to a private
    room must be its owner or invited. *)
Definition room_of (room : Z) (w : world) : option mts_room :=
  let rs := takeZ (max_rooms (cfg (MTS w))) (rooms (MTS w)) in i ← last_at (is_room room) rs; rs !! i.

Definition may_enter (w : world) (s : mts_session) (room : Z) : bool :=
  match room_of room w with
  | None => false
  | Some r =>
      mts_is_sysop s ||
      negb (mts_store_is_sanctioned (now w) GLOBAL_BANS 0 (user_id s) (db w)) &&
      negb (mts_store_is_sanctioned (now w) ROOM_BANS room (user_id s) (db w)) &&
      (negb (is_private r) || (owner r =? user_id s) || mts_store_is_invited room (user_id s) (db w))
  end.

Lemma may_join_runs p room s w : heap w !! p = Some s →
  runs (may_join p room) (λ b w', w' = w ∧ b = may_enter w s room) w.
Proof.
  intros Hs. apply runs_bind, runs_gets. unfold may_enter, room_of.
  destruct (last_at _ _) as [i |] eqn:El; [| by apply runs_ret].
  cbn [mbind option_bind]. destruct (_ !! i) as [r |]; [| by apply runs_ret].
  apply runs_bind, (runs_session _ s); [done |]. apply runs_bind, runs_gets.
  destruct (mts_is_sysop s), (mts_store_is_sanctioned _ GLOBAL_BANS _ _ _),
    (mts_store_is_sanctioned _ ROOM_BANS _ _ _), (is_private r), (owner r =? user_id s),
    (mts_store_is_invited _ _ _); by apply runs_ret.
Qed.

Lemma room_of_exists room w r : room_of room w = Some r → room_exists room w.
Proof.
  unfold room_of. destruct (last_at _ _) as [i |] eqn:El; [| done]. cbn. intros Hi.
  apply last_at_Some in El as (r' & Hr' & Hp). unfold takeZ in *. exists i, r'.
  apply lookup_take_Some in Hr' as [? ?]. by split_and!.
Qed.

Lemma may_enter_exists w s room : may_enter w s room = true → room_exists room w.
Proof.
  unfold may_enter. destruct (room_of room w) as [r |] eqn:E; [| done]. intros _. by eapply room_of_exists.
Qed.

(** Where it exists, a sysop may enter. *)
Lemma sysop_may_enter w s room : mts_is_sysop s = true → room_exists room w → may_enter w s room = true.
Proof.
  intros Hs (i & r & Hi & Hr & Hp). unfold may_enter, room_of.
  assert (takeZ (max_rooms (cfg (MTS w))) (rooms (MTS w)) !! i = Some r) as Ht.
  { unfold takeZ. by rewrite lookup_take_lt. }
  destruct (last_at _ _) as [k |] eqn:El.
  - apply last_at_Some in El as (r' & Hr' & _). cbn [mbind option_bind]. by rewrite Hr', Hs.
  - by rewrite (last_at_None _ _ _ _ El Ht) in Hp.
Qed.

Lemma lobby_exists w : world_ok n ss fr w → room_exists 1 w.
Proof.
  intros Hw. destruct (ok_lobby _ _ _ _ Hw) as (r & Hr & Hk). pose proof (ok_max _ _ _ _ Hw).
  exists 0%nat, r. unfold room_key in Hk. injection Hk as Ha Hi _. unfold is_room.
  split_and!; [lia | done | rewrite Ha, Hi; done].
Qed.

(** A user who may enter is in the room afterwards, and nobody else has moved. *)
Lemma enter_room_runs p room s w :
  world_ok n ss fr w → heap w !! p = Some s → room_exists room w →
  runs (enter_room p room) (λ _ w', world_ok n ss fr w' ∧
    (∃ s', heap w' !! p = Some s' ∧ full_key s' = (active s, mts_is_sysop s, room, life_key s)) ∧
    room_exists room w' ∧ rid <$> rooms (MTS w') = rid <$> rooms (MTS w) ∧ ∀ q, q ≠ p → full_key <$> heap w' !! q = full_key <$> heap w !! q) w.
Proof.
  intros Hw Hs Hroom. assert (p ∈ n) as Hp.
  { by eapply in_heap. }
  destruct (heap_lookup n ss fr w p Hw Hp) as (s0 & Hs0 & Hok). rewrite Hs in Hs0. injection Hs0 as <-.
  apply runs_bind, (runs_session _ s); [done |]. apply runs_bind, (runs_update _ _ s); [done |].
  set (w1 := set_heap (<[p := set_room_id room s]> (heap w)) w).
  assert (world_ok n ss fr w1) as Hw1 by (by eapply (world_ok_move n ss fr w p s)).
  assert (heap w1 !! p = Some (set_room_id room s)) as Hp1.
  { apply lookup_insert_eq. }
  assert (∀ q, q ≠ p → heap w1 !! q = heap w !! q) as Hq1 by (intros; by apply lookup_insert_ne).
  assert (room_exists room w1) as Hroom1 by exact Hroom.
  assert (rooms (MTS w1) = rooms (MTS w)) as Hr1 by done.
  clearbody w1. apply runs_bind.
  eapply runs_mono; [apply (safe_mts_publish n ss fr quietly); [by intros ? [= <-] | done] |].
  intros _ w2 (Hw2 & Hq2 & _). pose proof (quiet_heap _ _ Hq2) as Hk2.
  pose proof (room_exists_quiet room _ _ Hq2 Hroom1) as Hroom2.
  pose proof (rids_quiet _ _ Hq2) as Hrid2. apply runs_bind.
  apply (runs_mono _ (λ _ w', world_ok n ss fr w' ∧ full_key <$> heap w' = full_key <$> heap w1 ∧
    room_exists room w' ∧ rid <$> rooms (MTS w') = rid <$> rooms (MTS w1))).
  { destruct (_ && _) eqn:Ho; [| by apply runs_ret].
    eapply runs_mono; [by apply close_if_empty_runs |]. intros _ w3 (? & -> & Hrid & Hex).
    split_and!; [done | done | apply Hex; [lia | done] | congruence]. }
  intros _ w3 (Hw3 & Hk3 & Hroom3 & Hrid3). destruct (heap_lookup n ss fr w3 p Hw3 Hp) as (s3 & Hs3 & Hok3).
  apply runs_bind, (runs_session _ s3); [done |]. apply runs_bind, runs_bind, runs_gets, runs_ret.
  apply (runs_update _ _ s3); [done |]. set (m := _ || _).
  destruct (world_ok_update n ss fr w3 p s3 (set_muted m s3)) as [Hw4 Hq4]; [done | done | done | done |].
  split; [exact Hw4 |]. split_and!; [| exact Hroom3 | cbn; congruence |].
  - exists (set_muted m s3). split; [apply lookup_insert_eq |].
    pose proof (key_lookup _ _ p Hk3) as E. rewrite Hs3, Hp1 in E. by apply (inj Some) in E.
  - intros q Hq. cbn. rewrite lookup_insert_ne by done. by rewrite (key_lookup _ _ q Hk3), Hq1.
Qed.

Lemma join_runs p room s w :
  world_ok n ss fr w → heap w !! p = Some s →
  runs (mts_join p room) (λ b w', b = may_enter w s room ∧ world_ok n ss fr w' ∧
    if b then (∃ s', heap w' !! p = Some s' ∧ full_key s' = (active s, mts_is_sysop s, room, life_key s)) ∧
              room_exists room w' ∧ rid <$> rooms (MTS w') = rid <$> rooms (MTS w) ∧ ∀ q, q ≠ p → full_key <$> heap w' !! q = full_key <$> heap w !! q
    else w' = w) w.
Proof.
  intros Hw Hs. apply runs_bind. eapply runs_mono; [by apply may_join_runs |].
  intros b _ [-> ->]. destruct (may_enter w s room) eqn:E; [| by apply runs_ret].
  apply runs_bind. eapply runs_mono; [eapply enter_room_runs; [done | done | by eapply may_enter_exists] |].
  intros _ w' (? & ? & ? & ? & ?). by apply runs_ret.
Qed.

Lemma safe_join p room : p ∈ n → safe n ss fr somehow (mts_join p room) (λ _, True).
Proof.
  intros Hp w Hw. destruct (heap_lookup n ss fr w p Hw Hp) as (s & Hs & _).
  eapply runs_mono; [by eapply join_runs |]. by intros b w' (_ & ? & _).
Qed.
End rooms.

(** ** Leaving *)

Lemma first_at_eqb p l i : first_at (Nat.eqb p) l = Some i → l !! i = Some p.
Proof. intros (x & Hx & Hp)%first_at_Some. apply Nat.eqb_eq in Hp. congruence. Qed.

Lemma first_at_elem p l : p ∈ l → is_Some (first_at (Nat.eqb p) l).
Proof.
  induction l as [| x l IH]; [by intros ?%elem_of_nil |]. cbn. intros Hp.
  destruct (Nat.eqb_spec p x); [by eexists |]. apply elem_of_cons in Hp as [? | Hp]; [done |].
  destruct (IH Hp) as [k ->]. by eexists.
Qed.

(** The array without the pointer, in another order. *)
Lemma swap_remove_perm p l : p ∈ l → p :: swap_remove p l ≡ₚ l.
Proof.
  intros Hp. unfold swap_remove. destruct (first_at_elem p l Hp) as [i Hi]. rewrite Hi.
  apply first_at_eqb in Hi. destruct (last l) as [x |] eqn:El.
  2: { apply last_None in El. by subst. }
  apply last_Some in El as [k ->]. rewrite length_app. cbn.
  replace (length k + 1 - 1)%nat with (length k) by lia.
  destruct (decide (i < length k)%nat) as [Hik | Hik].
  - rewrite insert_app_l by done. rewrite take_app_le by (rewrite length_insert; lia).
    rewrite take_ge by (rewrite length_insert; lia).
    rewrite lookup_app_l in Hi by done. rewrite (insert_take_drop k i x) by done.
    rewrite <- (take_drop_middle k i p Hi) at 3. solve_Permutation.
  - rewrite lookup_app_r in Hi by lia. destruct (i - length k)%nat as [| j] eqn:E; [| done].
    injection Hi as ->. replace i with (length k + 0)%nat by lia.
    rewrite insert_app_r. rewrite take_app_length. solve_Permutation.
Qed.

Lemma swap_remove_spec p l : NoDup l → p ∈ l →
  NoDup (swap_remove p l) ∧ ∀ q, q ∈ swap_remove p l ↔ q ∈ l ∧ q ≠ p.
Proof.
  intros Hnd Hp. pose proof (swap_remove_perm p l Hp) as E.
  assert (NoDup (p :: swap_remove p l)) as Hc by (by rewrite E). apply NoDup_cons in Hc as [Hni Hc].
  split; [done |]. intros q. rewrite <- E at 2. rewrite elem_of_cons. split.
  - intros Hq. split; [by right |]. by intros ->.
  - by intros [[-> | ?] ?].
Qed.

(** What is left when a session has gone. *)
Lemma world_ok_leave n ss fr w p s :
  world_ok n ss fr w → p ∈ ss → heap w !! p = Some s →
  world_ok n (swap_remove p ss) fr
    (set_heap (<[p := set_active false s]> (heap w)) (set_MTS (set_sessions (swap_remove p ss) (MTS w)) w)).
Proof.
  intros H Hp Hs. pose proof H as [H1 H2 H3 [H4 H4'] Ha [H5 Hnd] Hfit H6 Hlv H7].
  destruct (swap_remove_spec p ss Hnd Hp) as [Hnd' Hel]. pose proof (swap_remove_perm p ss Hp) as Hperm.
  assert (inbox_ok s) as Hok by (by eapply heap_inbox_ok).
  split; cbn; try done.
  - split; [by rewrite (dom_update _ _ s) | by apply map_Forall_insert_2].
  - pose proof (Permutation_length Hperm) as E. cbn in E. unfold zlen in *. lia.
  - intros q. rewrite Hel, H6. destruct (decide (p = q)) as [<- | Hpq].
    + rewrite lookup_insert_eq. cbn. by split; [intros [_ ?] |].
    + rewrite lookup_insert_ne by done. split; [by intros [? _] | by intros ?; split; [| congruence]].
  - intros q x [Hq Hqp]%Hel Hf Hx. rewrite lookup_insert_ne in Hx by done. by eapply Hlv.
  - intros q x [Hq Hqp]%Hel Hf Hx Hsys. rewrite lookup_insert_ne in Hx by done.
    destruct (H7 q x Hq Hf Hx Hsys) as (i & r & ?). by exists i, r.
Qed.

Lemma leave_runs n ss fr p announce w :
  world_ok n ss fr w → p ∈ n →
  runs (mts_leave p announce) (λ _ w', ∃ ss', world_ok n ss' fr w' ∧ (∀ q, q ∈ ss' ↔ q ∈ ss ∧ q ≠ p) ∧
    ∀ q, q ≠ p → full_key <$> heap w' !! q = full_key <$> heap w !! q) w.
Proof.
  intros Hw Hp. destruct (heap_lookup n ss fr w p Hw Hp) as (s & Hs & _).
  apply runs_bind, (runs_session _ s); [done |]. destruct (active s) eqn:Ha.
  2: { apply runs_ret. exists ss. split_and!; [done | | done]. intros q. split; [| by intros [? _]].
       intros Hq. split; [done |]. intros ->. apply (ok_present _ _ _ _ Hw) in Hq. rewrite Hs in Hq. cbn in Hq.
       congruence. }
  assert (p ∈ ss) as Hps by (apply (ok_present _ _ _ _ Hw); by rewrite Hs, <- Ha).
  apply runs_bind. apply (runs_mono _ (λ _ w', world_ok n ss fr w' ∧ quiet w w')).
  { destruct announce; [| by apply runs_ret].
    eapply runs_mono; [apply (safe_mts_publish n ss fr quietly); [by intros ? [= <-] | done] |].
    by intros _ w1 (? & ? & _). }
  intros _ w1 [Hw1 Hq1%quiet_heap]. destruct (heap_lookup n ss fr w1 p Hw1 Hp) as (s1 & Hs1 & _).
  apply runs_bind, runs_modify, runs_bind, (runs_update _ _ s1); [done |].
  pose proof (world_ok_leave n ss fr w1 p s1 Hw1 Hps Hs1) as Hw2. cbn [heap set_MTS].
  rewrite (proj1 (ok_sessions _ _ _ _ Hw1)). set (w2 := set_heap _ _) in *.
  assert (∀ q, q ≠ p → full_key <$> heap w2 !! q = full_key <$> heap w !! q) as Hk2.
  { intros q Hq. unfold w2. cbn. rewrite lookup_insert_ne by done. by apply key_lookup. }
  clearbody w2. apply runs_bind, runs_gets, runs_bind.
  apply (runs_mono _ (λ _ w', world_ok n (swap_remove p ss) fr w' ∧ heap w' = heap w2)).
  { destruct (_ =? _); [by apply runs_ret |]. apply runs_modify. split; [| done].
    by eapply world_ok_quiet; [done | | apply (ok_rooms _ _ _ _ Hw2) | apply (ok_heap _ _ _ _ Hw2)]. }
  intros _ w3 [Hw3 E3]. eapply runs_mono; [by apply close_if_empty_runs |].
  intros _ w4 (Hw4 & E4 & _ & _). exists (swap_remove p ss). split_and!; [done | |].
  - apply swap_remove_spec; [apply (ok_sessions _ _ _ _ Hw) | done].
  - intros q Hq. rewrite E4, E3. by apply Hk2.
Qed.
