(* ===== verification/MtsSafe.v ===== *)
(** Every command keeps the invariant of the teleconference, and none of them
    leaves the defined behaviour. *)

From S2P Require Import Prelude CLib MtsText MtsTextSpec MtsStore MtsState.
From S2P Require Import MtsRender MtsChat MtsInbox MtsWorld MtsRooms.
#[local] Open Scope Z_scope.

(** ** Automation *)

(** A condition on a pointer or a position. *)
Ltac in_range := solve [assumption | lia | auto | intros ? [= <-]; in_range].

(** The steps with a lemma of their own. *)
Ltac safe_step :=
  lazymatch goal with
  | |- safe _ _ _ _ (session _) _ => apply safe_session; in_range
  | |- safe _ _ _ _ (gets id) _ => apply safe_current
  | |- safe _ _ _ _ (gets (λ w, sessions (MTS w))) _ =>
      apply (safe_gets _ _ _ _ _ (λ l, l = _)); intros ? Hw; apply (ok_sessions _ _ _ _ Hw)
  | |- safe _ _ _ _ (gets _) _ => apply (safe_gets _ _ _ _ _ (λ _, True)); done
  | |- safe _ _ _ _ (update _ _) _ =>
      apply safe_update; [in_range | intros ? ?; repeat case_match; (split; [assumption | reflexivity])]
  | |- safe _ _ _ _ (modify _) _ => apply safe_modify; done
  | |- safe _ _ _ _ (update_db _) _ => apply safe_modify; done
  | |- safe _ _ _ _ (update_MTS _) _ => apply safe_modify; done
  | |- safe _ _ _ _ (out _ _) _ => apply safe_modify; done
  | |- safe _ _ _ _ (say _ _) _ => apply safe_modify; done
  | |- safe _ _ _ _ all_rooms _ => apply safe_all_rooms
  | |- safe _ _ _ _ (room_at _) _ => apply safe_room_at; in_range
  | |- safe _ _ _ _ (update_room _ _) _ =>
      apply safe_update_room; [in_range | intros ? ?; split; [assumption | reflexivity]]
  | |- safe _ _ _ _ (mts_find_user _) _ => apply safe_find_user
  | |- safe _ _ _ _ (mts_find_room _) _ => apply safe_find_room
  | |- safe _ _ _ _ (mts_publish _ _ _ _ _ _) _ => apply safe_mts_publish; in_range
  | |- safe _ _ _ _ (mts_drain _ _) _ => apply safe_drain; in_range
  | |- safe _ _ _ _ (mts_join _ _) _ => apply safe_join; in_range
  | |- safe _ _ _ _ (lift (mts_sanitize _ _)) _ => apply safe_lift_total, mts_sanitize_is_Some
  | |- safe _ _ _ _ (lift (mts_clip_width _ _ _)) _ => apply safe_lift_total, mts_clip_width_is_Some
  | |- safe _ _ _ _ (lift (action_template_valid _)) _ => apply safe_lift_total, action_template_valid_is_Some
  | |- safe _ _ _ _ (lift (replace_token _ _ _ _)) _ => apply safe_lift_total, replace_token_is_Some; done
  end.

Create HintDb mts.
#[export] Hint Extern 1 (safe _ _ _ _ _ _) => safe_step : mts.
#[export] Hint Extern 1 (_ < _)%nat => in_range : mts.
#[export] Hint Extern 1 (_ ∈ _) => in_range : mts.

(** One step of a proof about a piece of code; the code is followed into its
    branches. *)
Ltac safe_one :=
  lazymatch goal with
  | H : ∀ i, Some ?x = Some i → _ |- _ => specialize (H x eq_refl)
  | H : ∀ i, (Some ?x, _).1 = Some i → _ |- _ => specialize (H x eq_refl)
  | H : _ * _ |- _ => destruct H
  | |- safe _ _ _ _ (let _ := _ in _) _ => cbv zeta
  | |- safe _ _ _ _ (mret _) _ => apply safe_ret; try done
  | |- safe _ _ _ _ (for_each _ _) _ => apply safe_for_each; intros ? ?
  | |- safe _ _ _ _ (mbind _ _) _ =>
      first [eapply safe_bind; [solve [eauto 3 with mts] |]; cbv beta; intros ? ?
            | apply (safe_bind _ _ _ _ _ _ (λ _, True)); [| intros ? _]]
  | |- safe _ _ _ _ (match ?x with _ => _ end) _ => destruct x eqn:?
  | |- safe _ _ _ _ (let '(_, _) := ?x in _) _ => destruct x eqn:?
  | |- safe _ _ _ _ _ _ => eapply safe_mono; [solve [eauto 3 with mts] | try done]
  end.

Ltac safely := intros; repeat safe_one.

Section safety.
Context (n : gset nat) (ss fr : list nat) (R : frame).
Abbreviation safe := (safe n ss fr R).
Abbreviation ok := (λ _, True).

(** ** Output *)

Lemma safe_render_event f s e cap : is_Some (mts_render_event f s e cap).
Proof.
  unfold mts_render_event. edestruct mts_clip_width_is_Some as [x ->]. by eexists.
Qed.

Lemma safe_pager_begin p h : p ∈ n → safe (mts_pager_begin p h) (λ pg, pg_session pg ∈ n).
Proof. unfold mts_pager_begin. safely. Qed.

Lemma safe_readline : safe readline ok.
Proof.
  apply safe_quiet. intros w Hw. unfold readline. destruct (answers w) as [| a l] eqn:E.
  - exists None, w. rewrite E. by split_and!.
  - exists a, (set_answers l w). rewrite E. split; [done |]. split; [| done].
    assert (quiet w (set_answers l w)) as Hq by done. split; [| done].
    by eapply world_ok_quiet; [done | done | apply (ok_rooms _ _ _ _ Hw) | apply (ok_heap _ _ _ _ Hw)].
Qed.
Hint Extern 1 => apply safe_readline : mts.

Lemma safe_pager_show pg l : pg_session pg ∈ n → safe (pager_show pg l) (λ r, pg_session r.2 ∈ n).
Proof. unfold pager_show. safely. Qed.
Hint Extern 1 => apply safe_pager_show; in_range : mts.

Lemma safe_pager_line pg l : pg_session pg ∈ n →
  safe (mts_pager_line pg l) (λ r, pg_session r.2 ∈ n).
Proof. unfold mts_pager_line. safely. Qed.
Hint Extern 1 => apply safe_pager_line; in_range : mts.

Lemma safe_pager_lines l : ∀ pg, pg_session pg ∈ n →
  safe (pager_lines pg l) (λ pg, pg_session pg ∈ n).
Proof.
  induction l as [| x l IH]; intros pg Hp; cbn [pager_lines]; [by apply safe_ret |].
  eapply safe_bind; [by apply safe_pager_line |]. intros [[] pg'] Hp'; [by apply IH | by apply safe_ret].
Qed.

Lemma safe_show_list p h l : p ∈ n → safe (show_list p h l) (λ pg, pg_session pg ∈ n).
Proof.
  intros Hp. eapply safe_bind; [by apply safe_pager_begin |]. intros pg Hpg. by apply safe_pager_lines.
Qed.
End safety.

#[export] Hint Extern 1 (safe _ _ _ _ (show_list _ _ _) _) => apply safe_show_list; in_range : mts.
#[export] Hint Extern 1 (safe _ _ _ _ (mts_pager_line _ _) _) => apply safe_pager_line; in_range : mts.

Section commands.
Context (H : host) (n : gset nat) (ss fr : list nat).
Abbreviation safe := (safe n ss fr somehow).
Abbreviation ok := (λ _, True).

(** ** The parts of the commands *)

Lemma safe_clear_afk p : p ∈ n → safe (clear_afk p) ok.
Proof. unfold clear_afk. safely. Qed.

Lemma safe_render p e : p ∈ n → safe (render H p e) ok.
Proof.
  unfold render. intros. eapply safe_bind; [eauto with mts |]. intros s _.
  eapply safe_bind; [apply safe_lift_total, safe_render_event |]. safely.
Qed.

Lemma safe_flush p : p ∈ n → safe (flush H p) ok.
Proof. unfold flush. safely. by apply safe_render. Qed.

Lemma safe_target p q : p ∈ n → safe (target p q) (λ o, ∀ u, o = Some u → u ∈ n).
Proof. unfold target. safely. congruence. Qed.

Lemma safe_target_id p q : p ∈ n → safe (target_id H p q) (λ r, ∀ u, r.2 = Some u → u ∈ n).
Proof. unfold target_id. safely; intros ? [= <-]; done. Qed.

Lemma safe_current_room p : p ∈ n → safe (current_room p) (λ o, ∀ i, o = Some i → (i < 128)%nat).
Proof.
  intros Hp. unfold current_room. eapply safe_bind; [eauto with mts |]. intros s _.
  eapply safe_bind; [apply safe_all_rooms |]. intros rs [Hl _]. apply safe_ret.
  intros i (r & Hr & _)%first_at_Some. apply lookup_lt_Some in Hr. lia.
Qed.

Lemma safe_room_admin p o : p ∈ n → (∀ i, o = Some i → (i < 128)%nat) → safe (room_admin p o) ok.
Proof. unfold room_admin. safely. Qed.

Lemma safe_present_sessions w : world_ok n ss fr w →
  ∃ xs, mapM (λ p, s ← heap w !! p; Some (p, s)) (sessions (MTS w)) = Some xs ∧
    ∀ p s, (p, s) ∈ xs → p ∈ n.
Proof.
  intros Hw. destruct (sessions_read_present n ss fr w Hw) as (xs & Hm & H1 & _).
  exists xs. split; [done |]. intros p s Hp. eapply present_in_heap; [done |]. rewrite <- H1.
  by apply (list_elem_of_fmap_2 fst) in Hp.
Qed.

Lemma safe_session_of uid : safe (session_of uid) (λ o, ∀ u, o = Some u → u ∈ n).
Proof.
  eapply safe_bind; [apply safe_current |]. intros w Hw.
  destruct (safe_present_sessions w Hw) as (xs & Hm & Hxs).
  eapply safe_bind; [apply safe_lift_total; by rewrite Hm |]. intros ys Hys.
  rewrite Hm in Hys. injection Hys as <-. apply safe_ret. intros u Hu.
  destruct (last _) as [[q s] |] eqn:E; [| done]. injection Hu as <-.
  apply last_Some in E as [l E]. assert ((q, s) ∈ filter (λ ps, user_id ps.2 = uid) xs) as Hq.
  { rewrite E. apply elem_of_app. right. by constructor. }
  apply list_elem_of_filter in Hq as [_ Hq]. by eapply Hxs.
Qed.

Lemma safe_unfocus_all uid : safe (unfocus_all uid) ok.
Proof.
  unfold unfocus_all. eapply safe_bind.
  { apply (safe_gets _ _ _ _ _ (λ l, ∀ p, p ∈ l → p ∈ n)). intros w Hw p.
    rewrite (proj1 (ok_sessions _ _ _ _ Hw)). by eapply present_in_heap. }
  cbv beta. intros l Hl. apply safe_for_each. intros p Hp%Hl. safe_step.
Qed.

(** The sessions that are present can be read. *)
Lemma safe_present : safe present ok.
Proof.
  eapply safe_bind; [apply safe_current |]. intros w Hw.
  destruct (sessions_values n ss fr w Hw) as (xs & Hm & _).
  eapply safe_mono; [apply safe_lift_total; by rewrite Hm | done].
Qed.

Lemma safe_read_sessions w : world_ok n ss fr w → safe (lift (mapM (λ p, heap w !! p) (sessions (MTS w)))) ok.
Proof.
  intros Hw. destruct (sessions_values n ss fr w Hw) as (xs & Hm & _).
  eapply safe_mono; [apply safe_lift_total; by rewrite Hm | done].
Qed.
End commands.

#[export] Hint Extern 1 (safe _ _ _ _ (clear_afk _) _) => apply safe_clear_afk; in_range : mts.
#[export] Hint Extern 1 (safe _ _ _ _ (target _ _) _) => apply safe_target; in_range : mts.
#[export] Hint Extern 1 (safe _ _ _ _ (target_id _ _ _) _) => apply safe_target_id; in_range : mts.
#[export] Hint Extern 1 (safe _ _ _ _ (current_room _) _) => apply safe_current_room; in_range : mts.
#[export] Hint Extern 1 (safe _ _ _ _ (room_admin _ _) _) => apply safe_room_admin; in_range : mts.
#[export] Hint Extern 1 (safe _ _ _ _ (session_of _) _) => apply safe_session_of : mts.
#[export] Hint Extern 1 (safe _ _ _ _ (unfocus_all _) _) => apply safe_unfocus_all : mts.
#[export] Hint Extern 1 (safe _ _ _ _ present _) => apply safe_present : mts.
#[export] Hint Extern 1 (safe _ _ _ _ (lift (mapM _ _)) _) => apply safe_read_sessions; assumption : mts.

Section handlers_safe.
Context (H : host) (n : gset nat) (ss fr : list nat) (p : nat).
Context (Hp : p ∈ n).
Abbreviation safe := (safe n ss fr somehow).
Abbreviation ok := (λ _, True).

(** ** Commands that leave the rooms as they are *)

Lemma safe_map_each {A B} (f : A → M B) l : (∀ x, safe (f x) ok) → safe (map_each f l) ok.
Proof.
  intros Hf. induction l as [| x l IH]; cbn [map_each]; [by apply safe_ret |].
  eapply safe_bind; [apply Hf |]. intros y _. eapply safe_bind; [apply IH |]. intros r _. by apply safe_ret.
Qed.

Lemma safe_identity_name id cap : safe (identity_name H id cap) ok.
Proof. unfold identity_name. safely. Qed.

Lemma safe_sanction_line x : safe (sanction_line H x) ok.
Proof. unfold sanction_line. safely. all: apply safe_identity_name. Qed.

Lemma safe_audit_line x : safe (audit_line H x) ok.
Proof. unfold audit_line. safely. all: apply safe_identity_name. Qed.

Lemma safe_help : safe (help p) ok.
Proof. unfold help. safely. Qed.

Lemma safe_handle_help arg line : safe (handle_help p arg line) ok.
Proof. unfold handle_help. safely. all: try apply safe_help. Qed.

Lemma safe_handle_rooms arg line : safe (handle_rooms p arg line) ok.
Proof. unfold handle_rooms, show_rooms. safely. Qed.

Lemma safe_handle_who arg line : safe (handle_who p arg line) ok.
Proof. unfold handle_who, who. safely. Qed.

Lemma safe_handle_msg arg line : safe (handle_msg p arg line) ok.
Proof. unfold handle_msg. safely. Qed.

Lemma safe_handle_reply arg line : safe (handle_reply p arg line) ok.
Proof. unfold handle_reply. safely. Qed.

Lemma safe_handle_me arg line : safe (handle_me p arg line) ok.
Proof. unfold handle_me. safely. Qed.

Lemma safe_handle_afk arg line : safe (handle_afk p arg line) ok.
Proof. unfold handle_afk. safely. Qed.

Lemma safe_handle_ignore arg line : safe (handle_ignore p arg line) ok.
Proof. unfold handle_ignore. safely. Qed.

Lemma safe_list_relations t : safe (list_relations H p t) ok.
Proof. unfold list_relations. safely. Qed.

Lemma safe_handle_settings arg line : safe (handle_settings p arg line) ok.
Proof. unfold handle_settings, change_setting, save_prefs, update_prefs. safely. Qed.

Lemma safe_handle_watch arg line : safe (handle_watch p arg line) ok.
Proof. unfold handle_watch. safely. Qed.

Lemma safe_handle_unwatch arg line : safe (handle_unwatch p arg line) ok.
Proof. unfold handle_unwatch. safely. Qed.

Lemma safe_handle_chat arg line : safe (handle_chat p arg line) ok.
Proof. unfold handle_chat. safely. Qed.

Lemma safe_handle_accept arg line : safe (handle_accept p arg line) ok.
Proof. unfold handle_accept. safely. Qed.

Lemma safe_handle_decline arg line : safe (handle_decline p arg line) ok.
Proof. unfold handle_decline. safely. Qed.

Lemma safe_handle_profile arg line : safe (handle_profile p arg line) ok.
Proof.
  unfold handle_profile. destruct (has_prefix _ _); [safely |].
  eapply safe_bind; [eauto with mts |]. intros s _.
  apply (safe_bind _ _ _ _ _ _ (λ t, ∀ u, t = Some (Some u) → u ∈ n)).
  { destruct arg as [| c arg]; [by apply safe_ret |]. eapply safe_bind; [eauto with mts |].
    intros t Ht. apply safe_ret. destruct t as [u |]; [| done]. intros ? [= <-]. by apply Ht. }
  intros [[u |] |] Ht; [specialize (Ht u eq_refl) | |]; safely.
Qed.

Lemma safe_handle_history arg line : safe (handle_history p arg line) ok.
Proof. unfold handle_history. safely. Qed.

Lemma safe_handle_actions arg line : safe (handle_actions p arg line) ok.
Proof. unfold handle_actions. safely. Qed.

Lemma safe_handle_action arg line : safe (handle_action p arg line) ok.
Proof. unfold handle_action, edit_action, run_action. safely. Qed.

Lemma safe_handle_bans arg line : safe (handle_bans H p arg line) ok.
Proof.
  assert (∀ t h r, safe (list_sanctions H p t h r) ok) as Hl.
  { intros t h r. unfold list_sanctions. safely. all: apply safe_map_each, safe_sanction_line. }
  unfold handle_bans. safely. all: apply Hl.
Qed.

(** ** Commands about rooms *)

Lemma safe_handle_join arg line : safe (handle_join p arg line) ok.
Proof. unfold handle_join. safely. Qed.

Lemma safe_handle_leave arg line : safe (handle_leave p arg line) ok.
Proof. unfold handle_leave. safely. Qed.

Lemma safe_handle_rename arg line : safe (handle_rename p arg line) ok.
Proof. unfold handle_rename. safely. Qed.

Lemma safe_handle_invite arg line : safe (handle_invite H p arg line) ok.
Proof. unfold handle_invite. safely. Qed.

Lemma safe_handle_public arg line : safe (handle_public p arg line) ok.
Proof.
  unfold handle_public. eapply safe_bind; [eauto with mts |]. intros s _.
  apply (safe_bind _ _ _ _ _ _ (λ k, (k <= 128)%nat)).
  { apply safe_gets. intros w Hw. pose proof (ok_max _ _ _ _ Hw). unfold MTS_HARD_ROOMS in *. lia. }
  cbv beta. intros k Hk. apply (safe_bind _ _ _ _ _ _ ok); [| safely].
  apply safe_for_each. intros i Hi%elem_of_seq. assert (i < 128)%nat by lia. unfold set_visibility. safely.
Qed.

Lemma safe_kick uid o rest : (∀ u, o = Some u → u ∈ n) → safe (kick p uid o rest) ok.
Proof. unfold kick. safely. Qed.

Lemma safe_sanction line uid o rest : (∀ u, o = Some u → u ∈ n) → safe (sanction p line uid o rest) ok.
Proof. unfold sanction, is_muted. safely. Qed.

Lemma safe_handle_kick arg line : safe (handle_kick H p arg line) ok.
Proof.
  unfold handle_kick. safely. all: first [apply safe_kick | apply safe_sanction]; done.
Qed.

(** A place that is free may be taken. *)
Lemma world_ok_open w i r r' :
  world_ok n ss fr w → rooms (MTS w) !! i = Some r → ractive r = false → room_ok r' →
  world_ok n ss fr (set_MTS (set_rooms (<[i := r']> (rooms (MTS w))) (MTS w)) w).
Proof.
  intros Hw Hi Ha Hok. pose proof Hw as [H1 [H2 H2'] (l & Hl & Hlk) H4 Hal H5 Hfit H6 Hlv H7]. split; cbn; try done.
  - split; [unfold zlen in *; by rewrite length_insert | by apply Forall_insert].
  - exists l. rewrite list_lookup_insert_ne; [done |]. intros ->. rewrite Hi in Hl. injection Hl as ->.
    unfold room_key in Hlk. congruence.
  - intros q x Hq Hf Hx Hsys. destruct (H7 q x Hq Hf Hx Hsys) as (j & y & Hj & Hy & Hro).
    exists j, y. split_and!; [done | | done]. cbn. rewrite list_lookup_insert_ne; [done |].
    intros ->. rewrite Hi in Hy. injection Hy as ->. unfold is_room in Hro. by rewrite Ha in Hro.
Qed.

Lemma safe_handle_create arg line : safe (handle_create p arg line) ok.
Proof.
  unfold handle_create. eapply safe_bind; [eauto with mts |]. intros c _.
  destruct (_ || _); [safely |]. eapply safe_bind; [eauto with mts |]. intros s _.
  intros w Hw. destruct (heap_lookup n ss fr w p Hw Hp) as (x & Hx & Hxok).
  apply runs_bind, runs_gets. destruct (first_at _ _) as [slot |] eqn:Ef.
  2: { by apply (safe_modify n ss fr somehow). }
  destruct (_ <=? _); [by apply (safe_modify n ss fr somehow) |].
  apply first_at_Some in Ef as (r & Hr & Ha). unfold takeZ in Hr. apply lookup_take_Some in Hr as [Hr Hlt].
  apply runs_bind, runs_gets, runs_bind.
  destruct (mts_sanitize_is_Some MTS_NAME arg) as [nm Hnm]. eapply runs_lift; [exact Hnm |].
  set (next := next_room_id (MTS w)).
  apply runs_bind, runs_modify, runs_bind, (runs_update_room _ _ r); [done |].
  apply runs_bind. eapply (runs_room_at _ _).
  { apply list_lookup_insert_eq. by eapply lookup_lt_Some. }
  apply runs_bind, runs_modify, runs_bind, (runs_update _ _ x); [done |].
  apply runs_modify. split_and!; [| done | done].
  set (r' := set_normalized _ _).
  eapply world_ok_quiet; [eapply (world_ok_move n ss fr (set_MTS (set_rooms (<[slot := r']> (rooms (MTS w))) (MTS w)) w) p x
    (set_room_id next x)) | done | |].
  - eapply world_ok_open; [done | done | by destruct (ractive r) | by left].
  - done.
  - done.
  - done.
  - done.
  - intros _ _ _. exists slot, r'. split_and!; [done | | ].
    + cbn. apply list_lookup_insert_eq. by eapply lookup_lt_Some.
    + unfold is_room, r'. cbn. apply Z.eqb_refl.
  - cbn. apply Forall_insert; [apply (ok_rooms _ _ _ _ Hw) | by left].
  - cbn. apply map_Forall_insert_2; [done | apply (ok_heap _ _ _ _ Hw)].
Qed.

(** When everyone has been sent to the Lobby no sysop is in the room. *)
Definition no_sysop_in (room : Z) (l : list nat) (w : world) : Prop :=
  ∀ q s, q ∈ l → heap w !! q = Some s → mts_is_sysop s = true → room_id s ≠ room.

Lemma evict_runs room k : ∀ i w, world_ok n ss fr w → room ≠ 1 → length ss = (i + k)%nat →
  no_sysop_in room (take i ss) w →
  runs (evict k i room) (λ _ w', world_ok n ss fr w' ∧ no_sysop_in room ss w' ∧
    rid <$> rooms (MTS w') = rid <$> rooms (MTS w)) w.
Proof.
  induction k as [| k IH]; intros i w Hw Hr Hl Hno.
  - apply runs_ret. split_and!; [done | by rewrite take_ge in Hno by lia | done].
  - cbn [evict]. apply runs_bind, runs_gets. rewrite (proj1 (ok_sessions _ _ _ _ Hw)).
    destruct (lookup_lt_is_Some_2 ss i) as [q Hq]; [lia |]. rewrite Hq.
    assert (q ∈ ss) as Hqs by (by eapply list_elem_of_lookup_2).
    destruct (heap_lookup n ss fr w q Hw) as (s & Hs & _); [by eapply present_in_heap |].
    apply runs_bind, (runs_session _ s); [done |]. apply runs_bind.
    apply (runs_mono _ (λ _ w', world_ok n ss fr w' ∧ no_sysop_in room (take (S i) ss) w' ∧
      rid <$> rooms (MTS w') = rid <$> rooms (MTS w))).
    + rewrite (take_S_r _ _ _ Hq). destruct (Z.eqb_spec (room_id s) room) as [E | E].
      * apply runs_bind. eapply runs_mono; [by eapply (join_runs n ss fr) |].
        intros b w1 (Hb & Hw1 & Hj). apply runs_ret. split_and!; [done | |].
        2: { destruct b; [by apply Hj | by subst]. }
        intros q' s' Hq' Hs' Hsys.
        assert (mts_is_sysop s = true → b = true) as Hyes.
        { intros Hsy. subst b. apply sysop_may_enter; [done | by eapply lobby_exists]. }
        destruct (decide (q' = q)) as [-> | Hne].
        -- destruct b.
           ++ destruct Hj as ((s1 & Hs1 & Hk1) & _). rewrite Hs' in Hs1. injection Hs1 as <-.
              apply (f_equal (λ k, k.1.2)) in Hk1. cbn in Hk1. congruence.
           ++ subst w1. rewrite Hs in Hs'. injection Hs' as <-. by specialize (Hyes Hsys).
        -- assert (full_key <$> heap w1 !! q' = full_key <$> heap w !! q') as Hk.
           { destruct b; [by apply Hj | by subst]. }
           rewrite Hs' in Hk. destruct (heap w !! q') as [s0 |] eqn:Hs0; [| done].
           apply (inj Some), full_key_session in Hk as [Hk _]. unfold session_key in Hk. injection Hk as _ Hk1 Hk2. rewrite Hk2.
           apply (Hno q'); [| done | congruence].
           apply elem_of_app in Hq' as [? | ->%list_elem_of_singleton]; done.
      * apply runs_ret. split_and!; [done | | done].
        intros q' s' [Hq' | ->%list_elem_of_singleton]%elem_of_app Hs' Hsys; [by eapply Hno | congruence].
    + intros _ w1 (Hw1 & Hno1 & E1). eapply runs_mono; [apply IH; [done | done | lia | done] |].
      intros _ w2 (? & ? & ?). split_and!; [done | done | congruence].
Qed.

Lemma safe_close_room arg : safe (close_room p arg) ok.
Proof.
  unfold close_room. destruct (words arg) as [q [[| c reason] |]]; [safely | | safely].
  eapply safe_bind; [eauto with mts |]. intros [i |] Hi; [specialize (Hi i eq_refl) | safely].
  intros w Hw. destruct (lookup_lt_is_Some_2 (rooms (MTS w)) i) as [r Hr].
  { by rewrite (rooms_bound n ss fr w Hw). }
  apply runs_bind, (runs_room_at _ r); [done |]. destruct (Z.eqb_spec (rid r) 1) as [E | E].
  { cut (safe (say p (lit "No closable room found.");; mret false) ok); [intros Hs; by apply Hs | safely]. }
  apply runs_bind, runs_gets, runs_bind. eapply runs_mono.
  { apply evict_runs; [done | done | by rewrite (proj1 (ok_sessions _ _ _ _ Hw)) |].
    intros ? ? ?%elem_of_nil. done. }
  intros _ w1 (Hw1 & Hno & E1). destruct (lookup_lt_is_Some_2 (rooms (MTS w1)) i) as [r1 Hr1].
  { by rewrite (rooms_bound n ss fr w1 Hw1). }
  assert (rid r1 = rid r) as Erid.
  { destruct (fmap_lookup_back rid (rooms (MTS w)) (rooms (MTS w1)) i r1 E1 Hr1) as (x & Hx & Ex). congruence. }
  apply runs_bind, (runs_update_room _ _ r1); [done |].
  set (w2 := set_MTS _ _). assert (world_ok n ss fr w2) as Hw2.
  { apply (world_ok_close n ss fr w1 i r1 Hw1 Hr1).
    - intros ->. destruct (room_lookup n ss fr w1 0 r1 Hw1 Hr1) as [_ Hk]. specialize (Hk eq_refl).
      unfold room_key in Hk. congruence.
    - intros q' s Hq _ Hs Hsys. rewrite Erid. by apply (Hno q'). }
  clearbody w2. cut (∀ s0, safe (update_db (mts_store_delete_room (rid r));; s ← session p; t ← gets now;
    update_db (mts_store_audit t (user_id s) 0 (rid r) (lit "close") s0);;
    say p (lit "Room closed.");; mret false) ok).
  { intros Hs. eapply runs_mono; [by apply Hs |]. by intros ? ? (? & _). }
  intros s0. safely.
Qed.

Lemma safe_list_audit k : safe (list_audit H p k) ok.
Proof. unfold list_audit. safely. all: apply safe_map_each, safe_audit_line. Qed.

Lemma safe_handle_announce arg line : safe (handle_announce H p arg line) ok.
Proof.
  unfold handle_announce, toggle_lock. safely. all: first [apply safe_close_room | apply safe_list_audit].
Qed.

(** A sysop who is present is in a room, so that the topic has one. *)
Lemma safe_handle_topic arg line : p ∈ ss → p ∉ fr → safe (handle_topic p arg line) ok.
Proof.
  intros Hps Hpf w Hw. destruct (heap_lookup n ss fr w p Hw Hp) as (s & Hs & _).
  apply runs_bind, (runs_session _ s); [done |]. apply runs_bind, runs_gets.
  set (slot := last_at _ _).
  assert (∀ i, slot = Some i → (i < 128)%nat) as Hslot.
  { intros i (r & Hr & _)%last_at_Some. unfold takeZ in Hr. apply lookup_take_Some in Hr as [Hr _].
    apply lookup_lt_Some in Hr. by rewrite (rooms_bound n ss fr w Hw) in Hr. }
  assert (mts_is_sysop s = true → is_Some slot) as Hsys.
  { intros E. destruct (ok_sysops _ _ _ _ Hw p s Hps Hpf Hs E) as (i & r & Hi & Hr & Hro).
    unfold slot. destruct (last_at _ _) as [k |] eqn:El; [by eexists |].
    rewrite (last_at_None _ _ i r El) in Hro; [done |]. unfold takeZ. by rewrite lookup_take_lt. }
  clearbody slot. match goal with |- runs ?m _ _ => cut (safe m ok); [intros Hm; by apply Hm |] end.
  destruct slot as [i |].
  - specialize (Hslot i eq_refl). safely.
  - destruct (mts_is_sysop s); [by destruct (Hsys eq_refl) |]. cbv zeta.
    apply (safe_bind _ _ _ _ _ _ (λ r, r = None)); [by apply safe_ret |]. intros r ->.
    rewrite andb_false_r. safely.
Qed.
End handlers_safe.
