(* ===== verification/MtsReach.v ===== *)
(** The teleconference as a system: what callers and the board may do to it, and
    that all of it is defined in every state that can be reached. It starts in a good
    state, whatever rooms the tables and the configuration have. *)

From S2P Require Import Prelude CLib MtsText MtsTextSpec MtsStore MtsState MtsRender MtsChat MtsInbox MtsWorld MtsRooms MtsSafe.

#[local] Open Scope Z_scope.

Section lines.
Context (H : host) (n : gset nat) (ss fr : list nat) (p : nat).
Context (Hps : p ∈ ss) (Hpf : p ∉ fr) (Hp : p ∈ n).
Abbreviation safe := (safe n ss fr somehow).
Abbreviation ok := (λ _, True).

(** Every handler that is bound to a command. *)
Lemma handlers_safe : Forall (λ h, ∀ arg line, safe (h.2 p arg line) ok) (handlers H).
Proof.
  unfold handlers.
  repeat (apply Forall_cons; split; [intros arg line; cbn [snd] |]); [.. | constructor].
  all: first [apply safe_handle_help | apply safe_handle_rooms | apply safe_handle_who | apply safe_handle_join
    | apply safe_handle_leave | apply safe_handle_topic | apply safe_handle_msg | apply safe_handle_reply
    | apply safe_handle_me | apply safe_handle_afk | apply safe_handle_ignore | apply safe_list_relations
    | apply safe_handle_settings | apply safe_handle_create | apply safe_handle_public
    | apply safe_handle_rename | apply safe_handle_invite | apply safe_handle_announce
    | apply safe_handle_profile | apply safe_handle_history | apply safe_handle_watch
    | apply safe_handle_unwatch | apply safe_handle_chat | apply safe_handle_accept | apply safe_handle_decline
    | apply safe_handle_actions | apply safe_handle_action | apply safe_handle_bans | apply safe_handle_kick];
    done.
Qed.

Lemma safe_handler_of c arg line : safe (handler_of H c p arg line) ok.
Proof.
  unfold handler_of. destruct (find _ _) as [h |] eqn:E; [| by apply safe_ret].
  apply find_some in E as [E _]. pose proof handlers_safe as Hall. rewrite List.Forall_forall in Hall.
  by apply Hall.
Qed.

Lemma safe_command line : safe (command H p line) ok.
Proof. unfold command. safely. apply safe_handler_of. Qed.

Lemma safe_speak line : safe (speak p line) ok.
Proof. unfold speak, rate_window. safely. Qed.

Lemma safe_speak_to line : safe (speak_to p line) ok.
Proof. unfold speak_to. safely. Qed.

(** A line without control characters but for tabs. *)
Definition typed_ok (l : cstr) : Prop := Forall (λ c, control c = false) l.

Lemma safe_run_line typed : typed_ok typed → safe (run_line H p typed) ok.
Proof.
  intros Ht. unfold run_line. eapply safe_bind.
  - apply safe_lift_total. pose proof (in_place_agrees (length typed) MTS_TEXT typed [] Ht) as E.
    change (zlen []) with 0 in E. rewrite E. by apply sanitize_loop_is_Some.
  - intros [| c line] _; [by apply safe_ret |].
    safely. all: first [apply safe_speak_to | apply safe_command | apply safe_speak].
Qed.
End lines.

(** ** Coming and going *)

Lemma world_ok_alloc n ss w : world_ok n ss [] w →
  world_ok ({[allocated w]} ∪ n) ss []
    (set_allocated (S (allocated w)) (set_heap (<[allocated w := new_session]> (heap w)) w)).
Proof.
  intros Hw. pose proof Hw as [H1 H2 H3 [H4 H4'] Ha H5 Hfit H6 Hlv H7].
  assert (∀ q, q ∈ ss → allocated w ≠ q) as Hne.
  { intros q Hq <-. pose proof (Ha _ (present_in_heap n ss [] w _ Hw Hq)). lia. }
  split; cbn; try done.
  - split; [by rewrite dom_insert_L, H4 | by apply map_Forall_insert_2].
  - intros p [->%elem_of_singleton | Hp%Ha]%elem_of_union; lia.
  - intros q. rewrite H6. destruct (decide (allocated w = q)) as [<- | Hq].
    + rewrite lookup_insert_eq. split; [| done]. intros E.
      assert (allocated w ∈ ss) as Hin by (by apply H6). by destruct (Hne _ Hin).
    + by rewrite lookup_insert_ne.
  - intros q x Hq Hf Hx. rewrite lookup_insert_ne in Hx by (by apply Hne). by eapply Hlv.
  - intros q x Hq Hf Hx Hsys. rewrite lookup_insert_ne in Hx by (by apply Hne).
    destruct (H7 q x Hq Hf Hx Hsys) as (i & r & ?). by exists i, r.
Qed.

(** A session that was not present is, but is not yet in a room. *)
Lemma world_ok_arrive n ss w p s :
  world_ok n ss [] w → heap w !! p = Some s → p ∉ ss → zlen ss < MTS_HARD_USERS →
  world_ok n (ss ++ [p]) [p]
    (set_heap (<[p := set_lifecycle MTS_LIFE_ENTERED (set_presence_registered true (set_active true s))]> (heap w))
      (set_MTS (set_sessions (ss ++ [p]) (MTS w)) w)).
Proof.
  intros Hw Hs Hp Hroom. pose proof Hw as [H1 H2 H3 [H4 H4'] Ha [H5 Hnd] Hfit H6 Hlv H7].
  assert (inbox_ok s) as Hok by (by eapply heap_inbox_ok). split; cbn; try done.
  - split; [by rewrite (dom_update _ _ s) | by apply map_Forall_insert_2].
  - split; [done |]. apply NoDup_app. split_and!; [done | | apply NoDup_singleton].
    intros q Hq ->%list_elem_of_singleton. done.
  - rewrite zlen_app. change (zlen [p]) with 1. lia.
  - intros q. rewrite elem_of_app, list_elem_of_singleton, H6. destruct (decide (p = q)) as [<- | Hpq].
    + rewrite lookup_insert_eq. cbn. split; [done | by right].
    + rewrite lookup_insert_ne by done. split; [by intros [? | ?] | by left].
  - intros q x [Hq | ->%list_elem_of_singleton]%elem_of_app Hf Hx.
    + rewrite lookup_insert_ne in Hx by (intros ->; by apply Hf; constructor).
      by apply (Hlv q x Hq); [apply not_elem_of_nil |].
    + by destruct Hf; constructor.
  - intros q x [Hq | ->%list_elem_of_singleton]%elem_of_app Hf Hx Hsys.
    + rewrite lookup_insert_ne in Hx by (intros ->; by apply Hf; constructor).
      destruct (H7 q x Hq) as (i & r & ?); [by apply not_elem_of_nil | done | done |]. by exists i, r.
    + by destruct Hf; constructor.
Qed.

Lemma world_ok_settle n ss p w :
  world_ok n ss [p] w →
  (∀ s, p ∈ ss → heap w !! p = Some s → life_key s = alive ∧ (mts_is_sysop s = true → room_exists (room_id s) w)) →
  world_ok n ss [] w.
Proof.
  intros [H1 H2 H3 H4 Ha H5 Hfit H6 Hlv H7] Hp. split; try done.
  - intros q x Hq _ Hx. destruct (decide (q = p)) as [-> | Hne]; [by apply Hp |].
    apply (Hlv q); [done | | done]. by rewrite list_elem_of_singleton.
  - intros q x Hq _ Hx Hsys. destruct (decide (q = p)) as [-> | Hne]; [by apply Hp |].
    apply (H7 q); [done | | done | done]. by rewrite list_elem_of_singleton.
Qed.

(** Less is asked of a session that is about to leave. *)
Lemma world_ok_leaving n ss p w : world_ok n ss [] w → world_ok n ss [p] w.
Proof.
  intros [H1 H2 H3 H4 Ha H5 Hfit H6 Hlv H7]. split; try done.
  - intros q x Hq _. apply Hlv; [done | by apply not_elem_of_nil].
  - intros q x Hq _. apply H7; [done | by apply not_elem_of_nil].
Qed.

(** The memory of a session that is not present may be freed. *)
Lemma world_ok_free n ss w p :
  world_ok n ss [] w → p ∉ ss → world_ok (n ∖ {[p]}) ss [] (set_heap (delete p (heap w)) w).
Proof.
  intros Hw Hp. pose proof Hw as [H1 H2 H3 [H4 H4'] Ha H5 Hfit H6 Hlv H7].
  assert (∀ q, q ∈ ss → p ≠ q) as Hne by (by intros q Hq <-). split; cbn; try done.
  - split; [by rewrite dom_delete_L, H4 | by apply map_Forall_delete].
  - intros q [Hq _]%elem_of_difference. by apply Ha.
  - intros q. rewrite H6. destruct (decide (p = q)) as [<- | Hq].
    + rewrite lookup_delete_eq. split; [| done]. intros E. by destruct Hp; apply H6.
    + by rewrite lookup_delete_ne.
  - intros q x Hq Hf Hx. rewrite lookup_delete_ne in Hx by (by apply Hne). by eapply Hlv.
  - intros q x Hq Hf Hx Hsys. rewrite lookup_delete_ne in Hx by (by apply Hne).
    destruct (H7 q x Hq Hf Hx Hsys) as (i & r & ?). by exists i, r.
Qed.

(** The first room of a session: the one it prefers or the Lobby. *)
Lemma first_room_runs {A} n ss p room s w (k : M A) Q :
  world_ok n ss [p] w → heap w !! p = Some s → life_key s = alive → (∀ w', world_ok n ss [] w' → runs k Q w') →
  runs (ok ← mts_join p room; (if ok : bool then mret tt else mts_join p 1;; mret tt);; k) Q w.
Proof.
  intros Hw Hs Hlife HQ.
  assert (∀ w', world_ok n ss [p] w' → ∀ r, (∃ s', heap w' !! p = Some s' ∧
    full_key s' = (active s, mts_is_sysop s, r, life_key s)) → room_exists r w' → world_ok n ss [] w') as Hset.
  { intros w' Hw' r (s' & Hs' & Hk) Hr. eapply world_ok_settle; [done |]. intros x _ Hx.
    rewrite Hs' in Hx. injection Hx as <-. split; [by rewrite <- Hlife; apply (f_equal snd Hk) |].
    apply (f_equal (λ k, k.1.2)) in Hk. cbn in Hk. by rewrite Hk. }
  apply runs_bind. eapply runs_mono; [by eapply (join_runs n ss [p])|].
  intros [] w1 (Hb & Hw1 & Hj).
  - apply runs_bind, runs_ret, HQ. destruct Hj as (Hs1 & Hr & _ & _). by eapply Hset.
  - subst w1. apply runs_bind, runs_bind. eapply runs_mono; [by eapply (join_runs n ss [p])|].
    intros [] w2 (Hb2 & Hw2 & Hj2); apply runs_ret, HQ.
    + destruct Hj2 as (Hs2 & Hr & _ & _). by eapply Hset.
    + subst w2. eapply world_ok_settle; [done |]. intros x _ Hx. rewrite Hs in Hx. injection Hx as <-.
      split; [done |]. intros Hsys.
      exfalso. assert (may_enter w s 1 = true) by (apply sysop_may_enter; [done | by eapply lobby_exists]).
      congruence.
Qed.

(** From the moment a session is in the array of those that are present. *)
Lemma arrive_runs {A} n ss p s visit d room w (k : M A) Q :
  world_ok n ss [] w → heap w !! p = Some s → cleanup_complete s = false → p ∉ ss → zlen ss < MTS_HARD_USERS →
  (∀ w', world_ok n (ss ++ [p]) [] w' → runs k Q w') →
  runs (update p (λ s, set_lifecycle MTS_LIFE_ENTERED (set_presence_registered true (set_active true s)));;
    update_db (λ _, d);; update p (set_visit_id visit);;
    ok ← mts_join p room; (if ok : bool then mret tt else mts_join p 1;; mret tt);; k) Q
    (set_MTS (set_sessions (ss ++ [p]) (MTS w)) w).
Proof.
  intros Hw Hs Hnew Hps Hroom HQ. pose proof (world_ok_arrive n ss w p s Hw Hs Hps Hroom) as Hw3.
  apply runs_bind, (runs_update _ _ s); [done |]. cbn [heap set_MTS].
  set (s3 := set_lifecycle _ _) in *. set (w3 := set_heap _ _) in *.
  assert (heap w3 !! p = Some s3) as Hs3 by apply lookup_insert_eq.
  assert (life_key s3 = alive) as Hlife by (unfold life_key; cbn; by rewrite Hnew). clearbody w3 s3.
  apply runs_bind, runs_modify. set (w4 := set_db _ _).
  assert (world_ok n (ss ++ [p]) [p] w4) as Hw4.
  { eapply world_ok_quiet; [exact Hw3 | done | apply (ok_rooms _ _ _ _ Hw3) | apply (ok_heap _ _ _ _ Hw3)]. }
  assert (heap w4 !! p = Some s3) as Hs4 by done. clearbody w4.
  apply runs_bind, (runs_update _ _ s3); [done |].
  assert (inbox_ok s3) as Hok3 by (by eapply heap_inbox_ok).
  eapply (first_room_runs n (ss ++ [p]) p _ (set_visit_id visit s3)); [| apply lookup_insert_eq | done | done].
  by eapply (world_ok_update n (ss ++ [p]) [p] w4 p s3).
Qed.

(** A session that was created may enter. *)
Lemma enter_runs n ss p c s w :
  world_ok n ss [] w → heap w !! p = Some s → cleanup_complete s = false → p ∉ ss →
  runs (enter p c) (λ _ w', ∃ ss', world_ok n ss' [] w') w.
Proof.
  intros Hw Hs Hnew Hps. assert (p ∈ n) as Hp by (by eapply in_heap).
  assert (inbox_ok s) as Hok by (by eapply heap_inbox_ok).
  apply runs_bind, (runs_update _ _ s); [done |].
  set (s1 := set_restrictions _ _). set (w1 := set_heap _ _). assert (world_ok n ss [] w1) as Hw1.
  { by eapply (world_ok_move n ss [] w p s). }
  assert (heap w1 !! p = Some s1) as Hs1 by apply lookup_insert_eq.
  assert (cleanup_complete s1 = false) as Hnew1 by done.
  assert (inbox_ok s1) as Hok1 by done. clearbody w1 s1. set (Q := λ (_ : bool) w', ∃ ss', world_ok n ss' [] w').
  assert (∀ m : M bool, safe n ss [] somehow m (λ _, True) → ∀ w', world_ok n ss [] w' → runs m Q w') as Hsafe.
  { intros m Hm w' Hw'. eapply runs_mono; [by apply Hm |]. intros b w'' (? & _). by exists ss. }
  destruct (Z.testbit _ _); [apply Hsafe; [safely | done] |].
  destruct (mts_sanitize_is_Some MTS_NAME (c_username c)) as [h Hh]. apply runs_bind. eapply runs_lift; [exact Hh |].
  apply runs_bind, runs_gets, runs_bind, (runs_update _ _ s1); [done |].
  set (s2 := set_prefs _ _). set (w2 := set_heap _ _).
  assert (world_ok n ss [] w2) as Hw2 by (by eapply (world_ok_update n ss [] w1 p s1)).
  assert (heap w2 !! p = Some s2) as Hs2 by apply lookup_insert_eq.
  assert (cleanup_complete s2 = false) as Hnew2 by done. clearbody w2 s2.
  apply runs_bind, (runs_session _ s2); [done |]. apply runs_bind, runs_gets. unfold id.
  destruct (_ && _); [apply Hsafe; [safely | done] |].
  destruct (_ && _); [apply Hsafe; [safely | done] |].
  destruct (Z.leb_spec (max_users (cfg (MTS w2))) (zlen (sessions (MTS w2)))) as [_ | Hroom];
    [apply runs_ret; by exists ss |].
  pose proof (proj2 (ok_max _ _ _ _ Hw2)) as Hmax. rewrite (proj1 (ok_sessions _ _ _ _ Hw2)) in Hroom |- *.
  apply runs_bind, runs_filled; [rewrite zlen_app; change (zlen [p]) with 1; lia |].
  apply runs_bind, runs_modify. destruct (mts_store_visit_start _ _ _ _) as [visit d].
  eapply arrive_runs; [done | done | done | done | lia |]. intros w' Hw'.
  apply runs_bind, runs_modify, runs_ret. exists (ss ++ [p]).
  by eapply world_ok_quiet; [exact Hw' | done | apply (ok_rooms _ _ _ _ Hw') | apply (ok_heap _ _ _ _ Hw')].
Qed.

(** Cleaning up takes the session out of those that are present, once and for all. *)
Lemma cleanup_runs n ss p announce w :
  world_ok n ss [] w → p ∈ n →
  runs (cleanup_instance p announce)
    (λ _ w', ∃ ss', world_ok n ss' [] w' ∧ ∀ q, q ∈ ss' → q ∈ ss ∧ q ≠ p) w.
Proof.
  intros Hw Hp. destruct (heap_lookup n ss [] w p Hw Hp) as (s & Hs & Hok).
  apply runs_bind, (runs_session _ s); [done |].
  assert (p ∈ ss → life_key s = alive) as Hal.
  { intros Hin. by apply (ok_alive _ _ _ _ Hw p s Hin); [apply not_elem_of_nil |]. }
  assert (∀ q, p ∉ ss → q ∈ ss → q ∈ ss ∧ q ≠ p) as Hgone by (intros q Hn Hq; split; [done | by intros ->]).
  destruct (_ || _) eqn:Esk.
  { apply runs_ret. exists ss. split; [done |]. intros q. apply Hgone. intros Hin%Hal.
    injection Hin as _ El Ec. by rewrite El, Ec in Esk. }
  clear Esk. set (Q := λ (_ : bool) w', _).
  assert (∀ (m : M unit) (k : M bool) w', safe n ss [p] somehow m (λ _, True) → world_ok n ss [p] w' →
    (∀ w'', world_ok n ss [p] w'' → runs k Q w'') → runs (m;; k) Q w') as Hseq.
  { intros m k w' Hm Hw' Hk. apply runs_bind. eapply runs_mono; [by apply Hm |].
    intros [] w'' (? & _). by apply Hk. }
  apply runs_bind, (runs_update _ _ s); [done |]. set (w1 := set_heap _ _).
  assert (world_ok n ss [p] w1) as Hw1.
  { eapply (world_ok_move n ss [p] w p s); [by apply world_ok_leaving | done | done | done | |].
    - intros _ Hn. by destruct Hn; left.
    - intros _ _ Hn. by destruct Hn; left. }
  clearbody w1. apply Hseq; [apply safe_unfocus_all | done |].
  intros w2 Hw2. apply runs_bind, runs_gets. apply Hseq; [safe_step | done |]. intros w3 Hw3.
  apply runs_bind.
  apply (runs_mono _ (λ _ w', ∃ ss', world_ok n ss' [p] w' ∧ ∀ q, q ∈ ss' → q ∈ ss ∧ q ≠ p)).
  - destruct (presence_registered s) eqn:Er.
    + eapply runs_mono; [by apply leave_runs |]. intros _ w4 (ss' & ? & Hss & _).
      exists ss'. split; [done |]. by intros q ?%Hss.
    + apply runs_ret. exists ss. split; [done |]. intros q. apply Hgone. intros Hin%Hal.
      injection Hin as El _ _. congruence.
  - intros _ w4 (ss' & Hw4 & Hss). destruct (heap_lookup n ss' [p] w4 p Hw4 Hp) as (s4 & Hs4 & Hok4).
    apply runs_bind, (runs_update _ _ s4); [done |]. apply runs_ret. exists ss'. split; [| done].
    assert (p ∉ ss') as Hnp by (intros Hin; by destruct (Hss p Hin)).
    eapply world_ok_settle; [eapply (world_ok_move n ss' [p] w4 p s4); try done | done].
Qed.

(** ** The system *)

(** What may happen: a caller enters, types a line, is shown what waits, leaves
    or is destroyed; the board tells one session or the plugin of an event; the
    clock goes on; a pager is answered. *)
Inductive input : Type :=
  | Connect (c : caller)
  | Type_ (p : nat) (line : cstr)
  | Show (p : nat)
  | Leave (p : nat)
  | Destroy (p : nat)
  | Tell (p : nat) (ev : bbs_event)
  | Tell_all (ev : bbs_event)
  | Clock (t : Z)
  | Answer (a : option cstr).

Definition act (H : host) (i : input) : M unit :=
  match i with
  | Connect c => p ← create; enter p c;; mret tt
  | Type_ p line => run_line H p line;; mret tt
  | Show p => flush H p
  | Leave p => leave p
  | Destroy p => destroy p
  | Tell p ev => instance_event p ev
  | Tell_all ev => global_event ev
  | Clock t => modify (set_now t)
  | Answer a => modify (λ w, set_answers (answers w ++ [a]) w)
  end.

(** Lines come from sessions that are present, without control characters but
    tabs, which the board does not let pass; the rest is asked of any session that
    was created and not yet destroyed. *)
Definition may_happen (i : input) (w : world) : Prop :=
  match i with
  | Type_ p line => p ∈ sessions (MTS w) ∧ typed_ok line
  | Show p | Leave p | Destroy p | Tell p _ => p ∈ dom (heap w)
  | _ => True
  end.

Inductive reachable (H : host) (w0 : world) : world → Prop :=
  | reach_start : reachable H w0 w0
  | reach_step i w w' : reachable H w0 w → may_happen i w → act H i w = Some (tt, w') → reachable H w0 w'.

(** The invariant of the system. *)
Definition system_ok (w : world) : Prop := ∃ ss, world_ok (dom (heap w)) ss [] w.

Lemma system_ok_intro n ss w : world_ok n ss [] w → system_ok w.
Proof. intros Hw. exists ss. by rewrite (proj1 (ok_heap _ _ _ _ Hw)). Qed.

Lemma act_safe n ss m w : world_ok n ss [] w → safe n ss [] somehow m (λ _, True) →
  runs m (λ (_ : unit) w', system_ok w') w.
Proof.
  intros Hw Hm. eapply runs_mono; [by apply Hm |]. intros _ w' (? & _). by eapply system_ok_intro.
Qed.

(** Sessions are cleaned up one after the other. *)
Lemma cleanup_all_runs n l : ∀ ss w, world_ok n ss [] w → Forall (λ p, p ∈ n) l →
  runs (for_each (λ p, cleanup_instance p false;; mret tt) l) (λ _ w', system_ok w') w.
Proof.
  induction l as [| p l IH]; intros ss w Hw Hl.
  - apply runs_ret. by eapply system_ok_intro.
  - apply Forall_cons in Hl as [Hp Hl]. cbn [for_each]. apply runs_bind, runs_bind.
    eapply runs_mono; [by eapply cleanup_runs |]. intros b w1 (ss1 & Hw1 & _). apply runs_ret.
    by eapply IH.
Qed.

Lemma cleanup_then_runs n ss p announce w (k : bool → M unit) :
  world_ok n ss [] w → p ∈ n → (∀ b ss', safe n ss' [] somehow (k b) (λ _, True)) →
  runs (cleanup_instance p announce ≫= k) (λ _ w', system_ok w') w.
Proof.
  intros Hw Hp Hk. apply runs_bind. eapply runs_mono; [by eapply cleanup_runs |].
  intros b w1 (ss1 & Hw1 & _). by eapply act_safe.
Qed.

(** A session that is destroyed is not present any more. *)
Lemma destroy_runs n ss p w :
  world_ok n ss [] w → p ∈ n → runs (destroy p) (λ _ w', system_ok w') w.
Proof.
  intros Hw Hp. apply runs_bind. eapply runs_mono; [by eapply cleanup_runs |].
  intros b w1 (ss1 & Hw1 & Hss). assert (p ∉ ss1) as Hn by (intros Hin; by destruct (Hss p Hin)).
  destruct (heap_lookup n ss1 [] w1 p Hw1 Hp) as (s & Hs & Hok).
  apply runs_bind, (runs_update _ _ s); [done |]. eapply runs_free; [apply lookup_insert_eq |].
  eapply system_ok_intro, world_ok_free, Hn. by eapply (world_ok_move n ss1 [] w1 p s).
Qed.

Lemma global_event_runs n ss ev w : world_ok n ss [] w → runs (global_event ev) (λ _ w', system_ok w') w.
Proof.
  intros Hw. assert (Forall (λ p, p ∈ n) ss) as Hall.
  { apply Forall_forall. intros p. by eapply present_in_heap. }
  destruct ev as [[x |] | | t]; cbn [global_event].
  - apply runs_bind, runs_gets. destruct (safe_present_sessions n ss [] w Hw) as (xs & Hm & Hxs).
    apply runs_bind. eapply runs_lift; [exact Hm |].
    destruct (last _) as [[p s] |] eqn:E; [| apply runs_ret; by eapply system_ok_intro].
    apply last_Some in E as [l E]. assert ((p, s) ∈ filter (λ ps, host_session ps.2 = x) xs) as Hp.
    { rewrite E. apply elem_of_app. right. by constructor. }
    apply list_elem_of_filter in Hp as [_ Hp]. eapply cleanup_then_runs; [done | by eapply Hxs |].
    intros. by apply safe_ret.
  - apply runs_ret. by eapply system_ok_intro.
  - apply runs_bind, runs_modify, runs_bind, runs_gets. cbn [sessions MTS set_MTS set_shutting_down].
    rewrite (proj1 (ok_sessions _ _ _ _ Hw)). eapply (cleanup_all_runs n _ ss); [| by apply Forall_take].
    by eapply world_ok_quiet; [exact Hw | done | apply (ok_rooms _ _ _ _ Hw) | apply (ok_heap _ _ _ _ Hw)].
  - eapply act_safe; [done |]. safely.
Qed.

Lemma act_runs H i w : system_ok w → may_happen i w → runs (act H i) (λ _ w', system_ok w') w.
Proof.
  intros [ss Hw] Hi. set (n := dom (heap w)) in *. destruct i as [c | p l | p | p | p | p ev | ev | t | a];
    cbn [act may_happen] in *.
  - apply runs_bind, runs_alloc, runs_bind. pose proof (world_ok_alloc n ss w Hw) as Hw1. eapply runs_mono.
    { eapply enter_runs; [exact Hw1 | apply lookup_insert_eq | done |]. intros Hp.
      pose proof (ok_allocated _ _ _ _ Hw _ (present_in_heap n ss [] w _ Hw Hp)). lia. }
    intros b w2 (ss2 & Hw2). apply runs_ret. by eapply system_ok_intro.
  - destruct Hi as [Hp Hl]. rewrite (proj1 (ok_sessions _ _ _ _ Hw)) in Hp.
    eapply act_safe; [done |]. eapply safe_bind; [apply safe_run_line; [done | | | done] |].
    + by apply not_elem_of_nil.
    + by eapply present_in_heap.
    + intros b _. by apply safe_ret.
  - eapply act_safe; [done |]. by apply safe_flush.
  - eapply cleanup_then_runs; [done | done |]. intros [] ss'; [safe_step | by apply safe_ret].
  - by eapply destroy_runs.
  - destruct ev as [o | | t]; cbn [instance_event].
    + destruct (heap_lookup n ss [] w p Hw Hi) as (s & Hs & _). apply runs_bind, (runs_session _ s); [done |].
      destruct (match o with None => true | _ => _ end).
      * eapply cleanup_then_runs; [done | done |]. intros. by apply safe_ret.
      * apply runs_ret. by eapply system_ok_intro.
    + eapply cleanup_then_runs; [done | done |]. intros. by apply safe_ret.
    + apply runs_ret. by eapply system_ok_intro.
  - by eapply global_event_runs.
  - eapply act_safe; [done |]. safe_step.
  - eapply act_safe; [done |]. safe_step.
Qed.

Lemma reachable_ok H w0 w : system_ok w0 → reachable H w0 w → system_ok w.
Proof.
  intros H0. induction 1 as [| i w w' _ IH Hi E]; [done |].
  destruct (act_runs H i w IH Hi) as (x & w1 & E1 & Hok). congruence.
Qed.

(** * The start *)

(** ** Starting *)

(** The rooms of the tables: when there are any the Lobby is one of them, and
    it is permanent and the first. *)
Definition tables_ok (d : mts_db) : Prop :=
  (∀ r, r ∈ t_rooms d → 1 <= rid r ∧ (rid r = 1 → permanent r = true)) ∧
  (t_rooms d = [] ∨ ∃ r, r ∈ t_rooms d ∧ rid r = 1).

(** What mts_config_load lets pass. *)
Definition config_ok (c : mts_config) : Prop :=
  1 <= max_rooms c <= MTS_HARD_ROOMS ∧ max_users c <= MTS_HARD_USERS.

(** Rooms without a history, which they get when all of them are known. *)
Definition unused (r : mts_room) : Prop :=
  history_capacity r = 0 ∧ history_head r = 0 ∧ history_count r = 0.

(** The world while the plugin starts: no sessions. *)
Record starting (c : mts_config) (w : world) : Prop := {
  st_cfg : cfg (MTS w) = c;
  st_rooms : zlen (rooms (MTS w)) = MTS_HARD_ROOMS ∧ Forall unused (rooms (MTS w));
  st_lobby : ∃ r, rooms (MTS w) !! 0%nat = Some r ∧ room_key r = (true, 1, true);
  st_none : heap w = ∅ ∧ sessions (MTS w) = []
}.

Lemma starting_update c w i r r' :
  starting c w → rooms (MTS w) !! i = Some r → unused r' → (i = 0%nat → room_key r' = (true, 1, true)) →
  starting c (set_MTS (set_rooms (<[i := r']> (rooms (MTS w))) (MTS w)) w).
Proof.
  intros [H1 [H2 H2'] (l & Hl & Hk) H4] Hr Hu Hi. split; cbn.
  - done.
  - split; [unfold zlen in *; by rewrite length_insert | by apply Forall_insert].
  - destruct (decide (i = 0%nat)) as [-> | Hne].
    + exists r'. split; [apply list_lookup_insert_eq; by eapply lookup_lt_Some | by apply Hi].
    + exists l. by rewrite list_lookup_insert_ne.
  - done.
Qed.

Lemma starting_lookup c w i : starting c w → (i < 128)%nat →
  ∃ r, rooms (MTS w) !! i = Some r ∧ unused r ∧ (i = 0%nat → room_key r = (true, 1, true)).
Proof.
  intros Hw Hi. destruct (lookup_lt_is_Some_2 (rooms (MTS w)) i) as [r Hr].
  { pose proof (proj1 (st_rooms _ _ Hw)) as E. unfold zlen, MTS_HARD_ROOMS in E. lia. }
  exists r. split_and!; [done | |].
  - eapply Forall_lookup_1, Hr. apply (st_rooms _ _ Hw).
  - intros ->. destruct (st_lobby _ _ Hw) as (l & Hl & Hk). congruence.
Qed.

(** Nothing but the rooms matters. *)
Lemma starting_same c w w' : starting c w → MTS w' = MTS w → heap w' = heap w → starting c w'.
Proof. intros [H1 H2 H3 H4] Em Eh. split; by rewrite ?Em, ?Eh. Qed.

(** *** Loading *)

Lemma insert_room_elem r l x : x ∈ insert_room r l ↔ x = r ∨ x ∈ l.
Proof.
  induction l as [| y l IH]; cbn; [rewrite list_elem_of_singleton, elem_of_nil; tauto |].
  destruct (rid r <? rid y); rewrite !elem_of_cons, ?IH; tauto.
Qed.

(** The rows are in the order of their numbers. *)
Fixpoint ascending (l : list mts_room) : Prop :=
  match l with [] => True | x :: l => (∀ y, y ∈ l → rid x <= rid y) ∧ ascending l end.

Lemma insert_room_ascending r l : ascending l → ascending (insert_room r l).
Proof.
  induction l as [| y l IH]; cbn; [by split; [intros y ?%elem_of_nil |] |]. intros [Hy Hl]. destruct (Z.ltb_spec (rid r) (rid y)); cbn.
  - split_and!; [| done | done]. intros x [-> | Hx]%elem_of_cons; [lia |]. specialize (Hy x Hx). lia.
  - split; [| by apply IH]. intros x [-> | Hx]%insert_room_elem; [lia | by apply Hy].
Qed.

Lemma sorted_rows rows : ∀ l, ascending l →
  ascending (foldl (λ l r, insert_room r l) l rows) ∧
  ∀ x, x ∈ foldl (λ l r, insert_room r l) l rows ↔ x ∈ l ∨ x ∈ rows.
Proof.
  induction rows as [| r rows IH]; intros l Hl; cbn.
  - split; [done |]. intros x. rewrite elem_of_nil. tauto.
  - destruct (IH (insert_room r l)) as [H1 H2]; [by apply insert_room_ascending |].
    split; [done |]. intros x. rewrite H2, insert_room_elem, elem_of_cons. tauto.
Qed.

Lemma load_into_unused rows : ∀ rs next l next', load_into rows rs next = (l, next') →
  Forall unused rs → Forall unused l ∧ length l = length rs.
Proof.
  induction rows as [| r rows IH]; intros rs next l next' E Hu; [by injection E as <- <- |].
  destruct rs as [| y rs]; [by injection E as <- <- |]. cbn in E.
  destruct (load_into rows rs _) as [l1 n1] eqn:E1. injection E as <- <-.
  apply Forall_cons in Hu as [_ Hu]. destruct (IH _ _ _ _ E1 Hu) as [? ?].
  split; [by constructor | cbn; congruence].
Qed.

(** The array after the rows have been put into it. *)
Lemma loaded_rooms m d next l next' :
  1 <= m <= MTS_HARD_ROOMS → tables_ok d →
  let free := replicate (Z.to_nat MTS_HARD_ROOMS) zero_room in
  load_into (foldl (λ l r, insert_room r l) [] (t_rooms d)) (take (Z.to_nat m) free) next = (l, next') →
  let rs := l ++ drop (Z.to_nat m) free in
  Forall unused rs ∧ zlen rs = MTS_HARD_ROOMS ∧
  ∃ r, rs !! 0%nat = Some r ∧ (ractive r = false ∨ room_key r = (true, 1, true)).
Proof.
  intros Hm [Hrows Hlob] free El rs. unfold MTS_HARD_ROOMS in *.
  destruct (sorted_rows (t_rooms d) [] I) as [Hasc Hel].
  destruct (load_into_unused _ _ _ _ _ El) as [Hu Hlen]; [by apply Forall_take, Forall_replicate |].
  rewrite length_take in Hlen. unfold free in Hlen. rewrite length_replicate in Hlen. split_and!.
  - apply Forall_app. split; [done | by apply Forall_drop, Forall_replicate].
  - unfold rs, free, zlen. rewrite length_app, length_drop, length_replicate. lia.
  - unfold rs. replace free with (zero_room :: replicate 127 zero_room) in El |- * by done.
    destruct (Z.to_nat m) as [| k] eqn:Ek; [lia |]. cbn [take] in El.
    destruct (foldl _ _ _) as [| x rows].
    + cbn in El. injection El as <- _. exists zero_room. split; [done | by left].
    + cbn in El. destruct (load_into rows _ _) as [l1 n1]. injection El as <- _.
      eexists. split; [done |]. right. unfold room_key. cbn.
      assert (∀ z, z ∈ x :: rows ↔ z ∈ t_rooms d) as Hin by (intros z; rewrite Hel, elem_of_nil; tauto).
      assert (x ∈ t_rooms d) as Hx by (apply Hin; constructor).
      destruct (Hrows x Hx) as [Hx1 Hxp].
      destruct Hlob as [E | (y & Hy & Hy1)]; [rewrite E in Hx; by apply elem_of_nil in Hx |].
      assert (rid x <= rid y) as Hle by (apply Hin, elem_of_cons in Hy as [-> | Hy]; [done | by apply Hasc]).
      assert (rid x = 1) as E1 by lia. by rewrite E1, Hxp.
Qed.

(** The tables are read and there is a Lobby. *)
Definition begin_rooms (c : mts_config) : M unit :=
  update_MTS (λ st, MkState c (replicate (Z.to_nat MTS_HARD_ROOMS) zero_room) [] 2 1
    (initialized st) false false (chat_lock_reason st));;
  mts_store_load_rooms;;
  r0 ← room_at 0;
  if ractive r0 then mret tt else update_room 0 (λ _, lobby);; update_db (mts_store_save_room lobby).

Lemma begin_rooms_runs c w :
  config_ok c → tables_ok (db w) → heap w = ∅ → runs (begin_rooms c) (λ _ w', starting c w') w.
Proof.
  intros [Hc Hcu] Hd Hh. apply runs_bind, runs_modify, runs_bind, runs_bind, runs_gets. unfold id.
  cbn [MTS set_MTS db rooms cfg next_room_id].
  destruct (load_into _ _ _) as [l next] eqn:El.
  destruct (loaded_rooms (max_rooms c) (db w) 2 l next Hc Hd El) as (Hrs & Hrsl & r & Hr & Hk).
  apply runs_modify. cbn [MTS set_MTS rooms set_rooms set_next_room_id].
  set (rs := l ++ _) in *. clearbody rs.
  apply runs_bind, (runs_room_at _ r); [done |]. destruct (ractive r) eqn:Ea.
  - apply runs_ret. split; cbn; [done | done | | done].
    exists r. split; [done |]. by destruct Hk as [Hk |]; [congruence |].
  - apply runs_bind, (runs_update_room _ _ r); [done |]. apply runs_modify. split; cbn.
    + done.
    + split; [unfold zlen in *; by rewrite length_insert | by apply Forall_insert].
    + exists lobby. split; [| done]. apply list_lookup_insert_eq. by eapply lookup_lt_Some.
    + done.
Qed.

(** *** The configured rooms *)

Lemma starting_for_each {A} c (f : A → M unit) l w :
  (∀ x w, x ∈ l → starting c w → runs (f x) (λ _ w', starting c w') w) → starting c w →
  runs (for_each f l) (λ _ w', starting c w') w.
Proof.
  revert w. induction l as [| x l IH]; intros w Hf Hw; [by apply runs_ret |]. cbn [for_each].
  apply runs_bind. eapply runs_mono; [apply Hf; [constructor | done] |].
  intros [] w1 Hw1. apply IH; [| done]. intros. apply Hf; [by constructor | done].
Qed.

Lemma close_unconfigured_runs c i w : (i < 128)%nat → starting c w →
  runs (close_unconfigured c i) (λ _ w', starting c w') w.
Proof.
  intros Hi Hw. destruct (starting_lookup c w i Hw Hi) as (r & Hr & Hu & Hk).
  apply runs_bind, (runs_room_at _ r); [done |]. destruct (_ && _ && _ && _) eqn:E; [| by apply runs_ret].
  apply runs_bind, (runs_update_room _ _ r); [done |]. apply runs_modify.
  eapply starting_same; [eapply (starting_update c w i r (set_ractive false r)); [done | done | done |] | done | done].
  intros ->. specialize (Hk eq_refl). unfold room_key in Hk. injection Hk as _ Hk _. rewrite Hk in E.
  by rewrite andb_false_r in E.
Qed.

Lemma open_configured_runs c cr w : starting c w → runs (open_configured cr) (λ _ w', starting c w') w.
Proof.
  intros Hw. unfold open_configured. destruct (str_eq _ _); [by apply runs_ret |].
  apply runs_bind, runs_bind, runs_gets, runs_ret, runs_bind, runs_gets, runs_bind.
  apply (runs_mono _ (λ slot w', starting c w' ∧ ∀ i, slot = Some i → (i < 128)%nat)).
  - assert (∀ (P : mts_room → bool) i, first_at P (takeZ (max_rooms (cfg (MTS w))) (rooms (MTS w))) = Some i →
      (i < 128)%nat ∧ ∃ r, rooms (MTS w) !! i = Some r ∧ P r = true) as Hat.
    { intros P i (r & Hr & HP)%first_at_Some. unfold takeZ in Hr. apply lookup_take_Some in Hr as [Hr _].
      split; [| eauto]. apply lookup_lt_Some in Hr. pose proof (proj1 (st_rooms _ _ Hw)) as E.
      unfold zlen, MTS_HARD_ROOMS in E. lia. }
    destruct (first_at _ _) as [i |] eqn:E1.
    { apply Hat in E1 as [Hi _]. apply runs_ret. split; [done | by intros ? [= <-]]. }
    destruct (first_at (λ r, negb (ractive r)) _) as [i |] eqn:E2; [| by apply runs_ret].
    apply Hat in E2 as (Hi & r & Hr & Ha). apply runs_bind, runs_gets, runs_bind, (runs_update_room _ _ r); [done |].
    set (w1 := set_MTS _ w). assert (starting c w1) as Hw1.
    { eapply starting_update; [done | done | done |]. intros ->.
      destruct (starting_lookup c w 0 Hw Hi) as (r' & Hr' & _ & Hk). specialize (Hk eq_refl).
      rewrite Hr in Hr'. injection Hr' as <-. unfold room_key in Hk. injection Hk as Hk _ _. by rewrite Hk in Ha. }
    clearbody w1. apply runs_bind, runs_modify, runs_ret. split; [| by intros ? [= <-]].
    by destruct Hw1; split.
  - intros [i |] w1 [Hw1 Hi]; [specialize (Hi i eq_refl) | by apply runs_ret].
    destruct (starting_lookup c w1 i Hw1 Hi) as (r & Hr & Hu & Hk).
    apply runs_bind, (runs_update_room _ _ r); [done |]. apply runs_bind. eapply runs_room_at.
    { apply list_lookup_insert_eq. by eapply lookup_lt_Some. }
    apply runs_bind, runs_modify, runs_ret.
    eapply starting_same; [eapply starting_update; [exact Hw1 | exact Hr | |] | done | done]; [done |].
    intros ->. specialize (Hk eq_refl). unfold room_key in *. cbn. congruence.
Qed.

Lemma open_all_runs c l : ∀ w, starting c w → runs (open_all l) (λ _ w', starting c w') w.
Proof.
  induction l as [| cr l IH]; intros w Hw; [by apply runs_ret |]. cbn [open_all]. apply runs_bind.
  eapply runs_mono; [by apply open_configured_runs |]. intros [] w1 Hw1; [by apply IH | by apply runs_ret].
Qed.

(** The histories are allocated, and the teleconference is open. *)
Lemma starting_opens c w :
  config_ok c → starting c w →
  runs (allocate_histories c;; update_MTS (set_initialized true);; mret true) (λ _ w', world_ok ∅ [] [] w') w.
Proof.
  intros Hc [H1 [H2 H3] (l & Hl & Hk) [H4 H5]]. apply runs_bind, runs_modify, runs_bind, runs_modify, runs_ret.
  set (f := λ i r, if (i <? Z.to_nat (max_rooms c))%nat && ractive r && (0 <? history_per_room c)
    then set_history (replicate (Z.to_nat (history_per_room c)) zero_event)
           (set_history_capacity (history_per_room c) r) else r).
  assert (∀ i r, room_key (f i r) = room_key r) as Hkey by (intros i r; unfold f; by destruct (_ && _)).
  split; cbn; rewrite ?imap_length.
  - by rewrite H1.
  - split; [unfold zlen in *; by rewrite length_imap |]. apply Forall_lookup. intros i r' Hi.
    rewrite list_lookup_imap in Hi. destruct (rooms (MTS w) !! i) as [r |] eqn:Hr; [| done].
    injection Hi as <-. pose proof (Forall_lookup_1 _ _ _ _ H3 Hr) as (Hu1 & Hu2 & Hu3).
    unfold f. destruct (_ && _ && _) eqn:E; [| by left]. right. cbn. rewrite Hu2, Hu3.
    unfold zlen. rewrite length_replicate. lia.
  - exists (f 0%nat l). rewrite list_lookup_imap, Hl. split; [done | by rewrite Hkey].
  - by rewrite H4.
  - by intros p ?%elem_of_empty.
  - split; [done | constructor].
  - done.
  - rewrite H4. intros p. split; [by intros ?%elem_of_nil | done].
  - by intros p s ?%elem_of_nil.
  - by intros p s ?%elem_of_nil.
Qed.

Lemma mts_state_init_split c :
  ∀ w, mts_state_init c w = (begin_rooms c;; for_each (close_unconfigured c) (seq 0 (Z.to_nat (max_rooms c)));;
    ok ← open_all (cfg_rooms c);
    if ok : bool then allocate_histories c;; update_MTS (set_initialized true);; mret true else mret false) w.
Proof.
  intros w. unfold mts_state_init, begin_rooms, mbind, M_bind.
  destruct (update_MTS _ w) as [[[] w1] |]; [cbn [mbind option_bind] | done].
  destruct (mts_store_load_rooms w1) as [[[] w2] |]; [cbn [mbind option_bind] | done].
  destruct (room_at 0 w2) as [[r w3] |]; [cbn [mbind option_bind] | done]. done.
Qed.

Lemma mts_state_init_runs c w :
  config_ok c → tables_ok (db w) → heap w = ∅ →
  runs (mts_state_init c) (λ ok w', ok = true → world_ok ∅ [] [] w') w.
Proof.
  intros Hc Hd Hh. unfold runs. rewrite mts_state_init_split. apply runs_bind.
  eapply runs_mono; [by apply begin_rooms_runs |]. intros [] w1 Hw1. apply runs_bind.
  eapply runs_mono; [apply (starting_for_each c); [| done] |].
  { intros i w' Hi%elem_of_seq Hw'. apply close_unconfigured_runs; [| done].
    destruct Hc. unfold MTS_HARD_ROOMS in *. lia. }
  intros [] w2 Hw2. apply runs_bind. eapply runs_mono; [by apply (open_all_runs c) |].
  intros [] w3 Hw3; [| by apply runs_ret].
  eapply runs_mono; [by apply (starting_opens c) |]. by intros b w4 ? _.
Qed.


(** A board with a configured room, two rooms in its tables, one of them no longer
    configured. *)
Definition sample_config : mts_config :=
  MkCfg true 128 64 512 200 30 8 10 true true 1 365 false (lit "Lobby")
    [MkCfgRoom (lit "Trivia") (lit "Questions") false].

Definition sample_db : mts_db :=
  MkDb [lobby; MkRoom 7 (lit "Old Room") (lit "oldroom") [] 0 false true true [] 0 0 0]
    [] [] [] [] [] [] [] [] [].

Definition sample_world : world :=
  MkWorld (MkState sample_config [] [] 0 0 false false false []) ∅ 0 sample_db 1000 [] [].

Definition sample_host : host := MkHost (λ _, USER_NOT_FOUND) (λ _, None) (λ _, []).

Lemma sample_tables_ok : tables_ok sample_db.
Proof.
  split.
  - intros r Hr. repeat (apply elem_of_cons in Hr as [-> | Hr]; [by split |]). by apply elem_of_nil in Hr.
  - right. exists lobby. split; [constructor | done].
Qed.

