(* ===== verification/MtsDelivery.v ===== *)
(** Who receives what: the recipients of an event, and what an event does to each
    session. Who may enter a room, and what moderation does not do. *)

From S2P Require Import Prelude CLib MtsText MtsTextSpec MtsStore MtsState MtsRender MtsChat MtsInbox MtsWorld MtsRooms MtsSafe MtsReach.

#[local] Open Scope Z_scope.

(** ** One recipient *)

(** An inbox that is full refuses a private event. *)
Definition refuses (e : mts_event) (s : mts_session) : bool :=
  (count s =? MTS_INBOX) && is_private_type (ev_type e).

(** A user who is away answers each sender once, up to 32 of them. *)
Definition answers_to (from : option (nat * Z)) (e : mts_event) (s : mts_session) : bool :=
  match from with
  | Some (_, fid) =>
      bool_decide (ev_type e = MTS_PRIVATE) && afk s && bool_decide (fid ∉ afk_replied s) &&
      (zlen (afk_replied s) <? 32)
  | None => false
  end.

(** The session after the event has come to it. *)
Definition receive (d : mts_db) (from : option (nat * Z)) (e : mts_event) (p : nat) (s : mts_session) :
    mts_session :=
  if is_unwanted d from (ev_type e) p s then s
  else
    let s' := if refuses e s then s else inbox_push e s in
    match from with
    | Some (_, fid) => if answers_to from e s then set_afk_replied (afk_replied s ++ [fid]) s' else s'
    | None => s'
    end.

Lemma inbox_push_user e s : user_id (inbox_push e s) = user_id s.
Proof. by rewrite (inbox_push_same e s). Qed.

Lemma receive_user d from e p s : user_id (receive d from e p s) = user_id s.
Proof. unfold receive. pose proof (inbox_push_user e s). by repeat case_match. Qed.

Lemma set_heap_id p s w : heap w !! p = Some s → set_heap (<[p := s]> (heap w)) w = w.
Proof. intros Hs. rewrite insert_id by done. by destruct w. Qed.

Lemma set_heap_twice p a b w :
  set_heap (<[p := b]> (<[p := a]> (heap w))) (set_heap (<[p := a]> (heap w)) w) =
  set_heap (<[p := b]> (heap w)) w.
Proof. unfold set_heap. cbn. by rewrite insert_insert_eq. Qed.

Lemma deliver_runs from e p s w :
  heap w !! p = Some s →
  runs (deliver from e p) (λ r w', w' = set_heap (<[p := receive (db w) from e p s]> (heap w)) w ∧
    r = if is_unwanted (db w) from (ev_type e) p s then (false, false)
        else (refuses e s, answers_to from e s)) w.
Proof.
  intros Hs. unfold deliver, receive. apply runs_bind, runs_gets, runs_bind, (runs_session _ s); [done |].
  destruct (is_unwanted _ _ _ _ _) eqn:Eu; [apply runs_ret; by rewrite set_heap_id |].
  apply runs_bind, (enqueue_runs _ _ _ s); [done |]. fold (refuses e s).
  set (s1 := if refuses e s then s else inbox_push e s).
  assert (∀ b, runs (match from with
      | Some (_, fid) =>
          if bool_decide (ev_type e = MTS_PRIVATE) && afk s && bool_decide (fid ∉ afk_replied s) &&
             (zlen (afk_replied s) <? 32)
          then
            l ← lift (filled 32 (afk_replied s ++ [fid]));
            update p (set_afk_replied l);; mret (negb b, true)
          else mret (negb b, false)
      | None => mret (negb b, false)
      end)
    (λ r w', w' = set_heap (<[p := match from with
        | Some (_, fid) => if answers_to from e s then set_afk_replied (afk_replied s ++ [fid]) s1 else s1
        | None => s1 end]> (heap w)) w ∧ r = (negb b, answers_to from e s))
    (set_heap (<[p := s1]> (heap w)) w)) as Hrest.
  { intros b. destruct from as [[f fid] |]; cbn [answers_to]; [| by apply runs_ret].
    destruct (_ && _ && _ && _) eqn:Ea; [| by apply runs_ret].
    apply runs_bind, runs_filled; [rewrite zlen_app; change (zlen [fid]) with 1; lia |].
    apply runs_bind, (runs_update _ _ s1); [apply lookup_insert_eq |].
    apply runs_ret. cbn [heap set_heap]. by rewrite set_heap_twice. }
  unfold s1 in *. destruct (refuses e s) eqn:Er.
  - rewrite (set_heap_id p s w Hs) in Hrest. eapply runs_mono; [apply (Hrest false) | done].
  - eapply runs_mono; [apply (Hrest true) | done].
Qed.

(** ** All recipients *)

(** The sessions after the event has come to those of the list. *)
Definition received (d : mts_db) (from : option (nat * Z)) (e : mts_event) (l : list nat)
    (h h' : gmap nat mts_session) : Prop :=
  ∀ q, h' !! q = if decide (q ∈ l) then receive d from e q <$> h !! q else h !! q.

Lemma deliver_all_runs from e l : ∀ w, NoDup l → Forall (λ p, is_Some (heap w !! p)) l →
  runs (deliver_all from e l) (λ r w', (∃ h', w' = set_heap h' w ∧ received (db w) from e l (heap w) h') ∧
    (is_private_type (ev_type e) = false → r = (false, [])) ∧ (∀ a, a ∈ r.2 → a ∈ l) ∧ zlen r.2 <= zlen l) w.
Proof.
  induction l as [| p l IH]; intros w Hnd Hl; cbn [deliver_all].
  - apply runs_ret. split_and!; [| done | done | done]. exists (heap w). split; [by destruct w |]. intros q.
    by rewrite decide_False by apply not_elem_of_nil.
  - apply NoDup_cons in Hnd as [Hp Hnd]. apply Forall_cons in Hl as [[s Hs] Hl].
    apply runs_bind. eapply runs_mono; [by apply deliver_runs |]. intros [refused answers] w1 [-> Hr].
    set (s' := receive (db w) from e p s) in *.
    apply runs_bind. eapply runs_mono; [apply IH; [done |] |].
    { eapply Forall_impl; [done |]. cbn. intros q [x Hx]. destruct (decide (p = q)) as [<- | Hne].
      - exists s'. apply lookup_insert_eq.
      - exists x. by rewrite lookup_insert_ne. }
    intros [failed auto] w2 ((h' & -> & Hh') & Hf & Ha & Hlen). apply runs_ret. split_and!.
    + exists h'. split; [done |]. intros q. rewrite Hh'. cbn [heap set_heap db].
      destruct (decide (p = q)) as [<- | Hne].
      * rewrite decide_False by done. rewrite (decide_True (P := p ∈ p :: l)) by constructor.
        rewrite lookup_insert_eq. by rewrite Hs.
      * rewrite lookup_insert_ne by done. destruct (decide (q ∈ l)) as [Hq | Hq].
        -- by rewrite decide_True by (by constructor).
        -- rewrite decide_False; [done |]. by intros [? | ?]%elem_of_cons.
    + intros Ht. specialize (Hf Ht). injection Hf as -> ->.
      destruct (is_unwanted _ _ _ _ _); injection Hr as -> ->; [done |].
      unfold refuses, answers_to. rewrite Ht, andb_false_r. unfold is_private_type in Ht.
      apply orb_false_iff in Ht as [Ht _]. destruct from as [[f fid] |]; cbn; by rewrite ?Ht.
    + cbn in *. intros a. destruct answers; [intros [-> | ?]%elem_of_cons; [constructor |] | intros ?];
        constructor; by apply Ha.
    + cbn in *. rewrite (zlen_cons p l). destruct answers; rewrite ?zlen_cons; lia.
Qed.

(** ** The event and its audience *)

(** The event of a call: its sender is the user of the session [f], or nobody. *)
Definition event_of (w : world) (f : option mts_session) (t : mts_event_type) (room tgt : Z)
    (tn : option cstr) (txt : cstr) : mts_event :=
  MkEvent (next_sequence (MTS w)) room (now w) t (default 0 (user_id <$> f)) tgt
    (default [] (copy_to MTS_NAME ∘ handle <$> f)) (default [] (copy_to MTS_NAME <$> tn)) txt.

Definition room_private (w : world) (room : Z) : bool := default false (is_private <$> room_of room w).

(** A session the event is for: it is present, and the event is an announcement,
    or a private one to its user, or of the room the session is in or watches, or
    of a room that is not private where a sysop watches all of them. *)
Definition in_audience (w : world) (t : mts_event_type) (room tgt : Z) (q : nat) : bool :=
  match heap w !! q with
  | Some s => bool_decide (q ∈ sessions (MTS w)) && is_for t room tgt (room_private w room) s
  | None => false
  end.

(** The sender as the loop over the recipients has it. *)
Definition sender_of (w : world) (f : option nat) : option (nat * Z) :=
  p ← f; s ← heap w !! p; Some (p, user_id s).

Lemma audience_of n ss fr w xs (P : mts_session → bool) :
  world_ok n ss fr w → xs.*1 = ss → Forall (λ ps, heap w !! ps.1 = Some ps.2) xs →
  let rec := (filter (λ ps, P ps.2 = true) xs).*1 in
  zlen rec <= MTS_HARD_USERS ∧ NoDup rec ∧ Forall (λ p, is_Some (heap w !! p)) rec ∧
  ∀ q, q ∈ rec ↔ q ∈ ss ∧ ∃ s, heap w !! q = Some s ∧ P s = true.
Proof.
  intros Hw H1 H2 rec. rewrite Forall_forall in H2. split_and!.
  - etrans; [| apply (ok_fit _ _ _ _ Hw)]. rewrite <- H1. unfold rec, zlen. rewrite !length_fmap.
    apply Nat2Z.inj_le, length_filter.
  - eapply sublist_NoDup; [apply (proj2 (ok_sessions _ _ _ _ Hw)) |]. rewrite <- H1.
    apply fmap_sublist, sublist_filter.
  - apply Forall_forall. intros q ([q' s] & -> & [_ Hq]%list_elem_of_filter)%list_elem_of_fmap.
    exists s. by apply (H2 (q', s)).
  - intros q. unfold rec. rewrite list_elem_of_fmap. split.
    + intros ([q' s] & -> & [HP Hq]%list_elem_of_filter). split.
      * rewrite <- H1. by apply (list_elem_of_fmap_2 fst) in Hq.
      * exists s. split; [by apply (H2 (q', s)) | done].
    + intros [Hq (s & Hs & HP)]. rewrite <- H1 in Hq. apply list_elem_of_fmap in Hq as ([q' s'] & -> & Hq).
      exists (q', s'). split; [done |]. apply list_elem_of_filter. split; [| done].
      specialize (H2 _ Hq). cbn in *. congruence.
Qed.

Lemma publish_event_runs n ss fr f t room tgt tn txt w :
  world_ok n ss fr w → (∀ p, f = Some p → p ∈ n) →
  ∃ txt', mts_sanitize MTS_TEXT txt = Some txt' ∧
  let e := event_of w (f ≫= λ p, heap w !! p) t room tgt tn txt' in
  runs (publish_event f t room tgt tn txt) (λ auto w',
    next_sequence (MTS w') = u64 (next_sequence (MTS w) + 1) ∧
    db w' = mts_store_history (persist_history (cfg (MTS w))) e (db w) ∧
    (is_private_type t = false → auto = []) ∧
    (is_private_type t = true → rooms (MTS w') = rooms (MTS w)) ∧
    (∀ a, a ∈ auto → in_audience w t room tgt a = true) ∧
    (∀ q, user_id <$> heap w' !! q = user_id <$> heap w !! q) ∧
    ∀ q, (is_private_type t = false ∨ f ≠ Some q) →
      heap w' !! q = if in_audience w t room tgt q
                     then receive (db w) (sender_of w f) e q <$> heap w !! q
                     else heap w !! q) w.
Proof.
  intros Hw Hf. destruct (mts_sanitize_is_Some MTS_TEXT txt) as [txt' Htxt]. exists txt'. split; [done |].
  intros e. unfold publish_event. apply runs_bind.
  apply (runs_mono _ (λ from w', w' = w ∧ from = (p ← f; s ← heap w !! p; Some (p, s)))).
  { destruct f as [p |]; [| by apply runs_ret].
    destruct (heap_lookup n ss fr w p Hw) as (s & Hs & _); [by apply Hf |].
    apply runs_bind, (runs_session _ s), runs_ret; [done |]. cbn. by rewrite Hs. }
  intros from _ [-> Hfrom]. apply runs_bind. eapply runs_lift; [exact Htxt |].
  apply runs_bind, runs_gets. change (id w) with w.
  match goal with |- context [deliver_all _ ?ev _] => set (ev0 := ev) end.
  assert (ev0 = e) as Ee.
  { unfold ev0, e, event_of. subst from. destruct f as [p |]; [| by destruct tn].
    cbn. destruct (heap w !! p); by destruct tn. }
  assert (prod_map id user_id <$> from = sender_of w f) as Efrom.
  { subst from. unfold sender_of. destruct f as [p |]; [| done]. cbn. by destruct (heap w !! p). }
  rewrite Efrom. clearbody ev0. subst ev0.
  apply runs_bind, runs_modify, runs_bind, runs_gets, runs_bind.
  destruct (sessions_read_present n ss fr w Hw) as (xs & Hm & H1 & H2).
  eapply runs_lift; [exact Hm |]. cbn [MTS set_MTS rooms cfg set_next_sequence].
  match goal with |- context [is_for _ _ _ ?b _] => assert (b = room_private w room) as -> end.
  { unfold room_private, room_of. by destruct (last_at _ _). }
  destruct (audience_of n ss fr w xs (is_for t room tgt (room_private w room)) Hw H1 H2) as (Hfit & Hnd & Hval & Hrec).
  set (rec := (filter _ xs).*1) in *. clearbody rec. apply runs_bind, runs_filled; [done |].
  apply runs_bind. eapply runs_mono; [apply deliver_all_runs; [done | exact Hval] |].
  intros [failed auto] w1 ((h' & -> & Hh') & Hnf & Hauto & Hlen). cbn [heap set_heap set_MTS db snd] in *.
  apply runs_bind, runs_filled; [lia |].
  assert (∀ q, h' !! q = if in_audience w t room tgt q
    then receive (db w) (sender_of w f) e q <$> heap w !! q else heap w !! q) as Hq.
  { intros q. rewrite Hh'. unfold in_audience. rewrite (proj1 (ok_sessions _ _ _ _ Hw)).
    destruct (heap w !! q) as [s |] eqn:Es; [| by destruct (decide _)].
    destruct (decide (q ∈ rec)) as [Hin | Hin].
    - apply Hrec in Hin as [Hss (s' & Hs' & HP)]. rewrite Es in Hs'. injection Hs' as <-.
      by rewrite bool_decide_true, HP.
    - destruct (bool_decide (q ∈ ss) && _) eqn:E; [| done]. destruct Hin. apply Hrec.
      apply andb_true_iff in E as [E1 E2]. apply bool_decide_eq_true in E1. eauto. }
  assert (∀ a, a ∈ auto → in_audience w t room tgt a = true) as Haud.
  { intros a (Hss & s & Hs & HP)%Hauto%Hrec. unfold in_audience. rewrite Hs, HP.
    by rewrite (proj1 (ok_sessions _ _ _ _ Hw)), bool_decide_true. }
  assert (∀ q, user_id <$> h' !! q = user_id <$> heap w !! q) as Huid.
  { intros q. rewrite Hq. destruct (in_audience _ _ _ _ _); [| done].
    destruct (heap w !! q) as [s |]; [| done]. cbn. f_equal. apply receive_user. }
  clear Hrec Hh' Hauto. set (w2 := set_heap h' _).
  apply runs_bind. apply (runs_mono _ (λ _ w', ∃ h2, w' = set_heap h2 w2 ∧
    (∀ q, user_id <$> h2 !! q = user_id <$> h' !! q) ∧
    ∀ q, (is_private_type t = false ∨ f ≠ Some q) → h2 !! q = h' !! q)).
  - destruct f as [p |]; [| apply runs_ret; by exists h'].
    destruct failed; [| apply runs_ret; by exists h'].
    assert (is_Some (h' !! p)) as [x Hx].
    { rewrite Hq. destruct (heap_lookup n ss fr w p Hw (Hf p eq_refl)) as (y & -> & _).
      destruct (in_audience _ _ _ _ _); by eexists. }
    apply runs_bind, (enqueue_runs _ _ _ x); [done |]. rewrite andb_false_r. apply runs_ret.
    eexists. split_and!; [done | |].
    { intros q. destruct (decide (p = q)) as [<- | Hne]; [| by rewrite lookup_insert_ne].
      rewrite lookup_insert_eq, Hx. apply (f_equal Some), inbox_push_user. }
    intros q [Ht | Hne]; [by specialize (Hnf Ht) |]. apply lookup_insert_ne. congruence.
  - intros [] w3 (h2 & -> & Hu2 & Hh2). apply runs_bind, runs_modify, runs_bind.
    apply (runs_mono _ (λ _ w', next_sequence (MTS w') = u64 (next_sequence (MTS w) + 1) ∧
      db w' = mts_store_history (persist_history (cfg (MTS w))) e (db w) ∧ heap w' = h2 ∧
      (is_private_type t = true → rooms (MTS w') = rooms (MTS w)))).
    + destruct (is_private_type t); [by apply runs_ret |].
      apply runs_bind, runs_gets, runs_bind, runs_gets. cbv beta zeta.
      rewrite histories_hold by apply (ok_rooms _ _ _ _ Hw). by apply runs_modify.
    + intros [] w4 (Hs4 & Hd4 & Hh4 & Hr4). apply runs_ret. split_and!; [done | done | | done | done | |].
      * intros Ht. specialize (Hnf Ht). congruence.
      * intros q. by rewrite Hh4, Hu2.
      * intros q Hqc. rewrite Hh4, Hh2 by done. apply Hq.
Qed.

(** ** Room traffic *)

(** What an event that is not private does to a session. *)
Definition heard (w : world) (f : option nat) (t : mts_event_type) (room tgt : Z) (q : nat)
    (s : mts_session) : bool :=
  in_audience w t room tgt q && negb (is_unwanted (db w) (sender_of w f) t q s).

Lemma runs_and {A} (m : M A) Q (Q' : A → world → Prop) w :
  runs m Q w → runs m Q' w → runs m (λ x w', Q x w' ∧ Q' x w') w.
Proof. intros (x & w1 & E & H1) (y & w2 & E' & H2). exists x, w1. split; [done |]. split; congruence. Qed.

Lemma receive_public d from e q s : is_private_type (ev_type e) = false →
  receive d from e q s = if is_unwanted d from (ev_type e) q s then s else inbox_push e s.
Proof.
  intros Ht. unfold receive, refuses, answers_to. rewrite Ht, andb_false_r. cbv zeta iota.
  destruct (is_unwanted _ _ _ _ _); [done |]. destruct from as [[f fid] |]; [| done].
  unfold is_private_type in Ht. apply orb_false_iff in Ht as [-> _]. done.
Qed.

(** The session [q] is to hear the event: it is present, the event is for it, and
    its user has not turned such events off, nor ignores or blocks the sender. *)
Record hears (w : world) (f : option nat) (t : mts_event_type) (room : Z) (q : nat) (s : mts_session) :
    Prop := {
  hears_present : q ∈ sessions (MTS w);
  hears_for : t = MTS_ANNOUNCEMENT ∨ room_id s = room ∨ watch_room s = room ∨
    watch_all s = true ∧ mts_is_sysop s = true ∧
      ¬ (∃ r, room_of room w = Some r ∧ is_private r = true);
  hears_joins : t = MTS_PRESENCE → joins (prefs s) = true;
  hears_actions : t = MTS_ACTION → actions (prefs s) = true;
  hears_sender : ∀ p ps, f = Some p → heap w !! p = Some ps → q ≠ p →
    ¬ (BLOCKS, user_id s, user_id ps) ∈ t_relations (db w) ∧
    ¬ (IGNORES, user_id s, user_id ps) ∈ t_relations (db w)
}.

Lemma unless_iff (P Q : Prop) `{!Decision P} : ¬ P ∨ Q ↔ (P → Q).
Proof. split; [by intros [?|?] ? |]. intros H. destruct (decide P); [right; auto | by left]. Qed.

Lemma heard_iff n ss fr w f t room tgt q s :
  world_ok n ss fr w → heap w !! q = Some s → is_private_type t = false →
  (∀ p, f = Some p → p ∈ n) →
  heard w f t room tgt q s = true ↔ hears w f t room q s.
Proof.
  intros Hw Hs Ht Hf. unfold heard, in_audience. rewrite Hs.
  assert (q ∈ sessions (MTS w) → active s = true) as Hact.
  { intros Hq. rewrite (proj1 (ok_sessions _ _ _ _ Hw)) in Hq. apply (ok_present _ _ _ _ Hw) in Hq.
    rewrite Hs in Hq. by injection Hq. }
  assert (is_unwanted (db w) (sender_of w f) t q s = false ↔
    (t = MTS_PRESENCE → joins (prefs s) = true) ∧ (t = MTS_ACTION → actions (prefs s) = true) ∧
    ∀ p ps, f = Some p → heap w !! p = Some ps → q ≠ p →
      ¬ (BLOCKS, user_id s, user_id ps) ∈ t_relations (db w) ∧
    ¬ (IGNORES, user_id s, user_id ps) ∈ t_relations (db w))
    as Hun.
  { unfold is_unwanted. rewrite !orb_false_iff, !andb_false_iff, !negb_false_iff, !bool_decide_eq_false.
    pose proof (unless_iff (t = MTS_PRESENCE) (joins (prefs s) = true)) as U1.
    pose proof (unless_iff (t = MTS_ACTION) (actions (prefs s) = true)) as U2. rewrite U1, U2, (and_assoc (t = MTS_PRESENCE → _)). f_equiv.
    unfold sender_of, mts_store_has_relation. destruct f as [p |]; cbn; [| by split; [intros _ ? ? [=] |]].
    destruct (heap_lookup n ss fr w p Hw (Hf p eq_refl)) as (ps & Hps & _). rewrite Hps. cbn.
    rewrite Ht. cbn. rewrite andb_false_iff, orb_false_iff, negb_false_iff, Nat.eqb_eq, !bool_decide_eq_false.
    split.
    - intros H p' ps' [= <-] Hps' Hne. rewrite Hps in Hps'. injection Hps' as <-. by destruct H.
    - intros H. destruct (decide (q = p)) as [-> | Hne]; [by left | right; by eapply H]. }
  rewrite andb_true_iff, negb_true_iff, Hun, andb_true_iff, bool_decide_eq_true. unfold is_for. rewrite Ht.
  assert (room_private w room = false ↔ ¬ (∃ r, room_of room w = Some r ∧ is_private r = true)) as Hpriv.
  { unfold room_private. destruct (room_of room w) as [r |]; cbn.
    - split; [intros ? (r' & [= <-] & ?); congruence |]. intros H. apply not_true_is_false. intros ?.
      apply H. by exists r.
    - by split; [intros _ (? & ? & _) |]. }
  rewrite andb_true_iff, !orb_true_iff, !andb_true_iff, negb_true_iff, !Z.eqb_eq, bool_decide_eq_true, Hpriv.
  split.
  - intros ((H1 & H2 & H3) & H4 & H5 & H6). split; [done | | done | done | done]. tauto.
  - intros [H1 H2 H3 H4 H5]. split_and!; [done | by apply Hact | tauto | done | done | done].
Qed.

(** C10. What is said in a room reaches exactly those it is for, in the order in
    which it was said: a session that is present gets an event that is not
    private when it is an announcement, or the session is in the room or watches
    it, or a sysop watches all rooms that are not private, unless the user has
    turned such events off, ignores or blocks the sender. Then the event, with
    the sanitized text and the next number of the sequence, is the last of its
    queue, whose first event is lost when there are 128; every other session,
    and everything else of the one that gets it, is as it was. *)
Theorem events_reach_their_audience w f t room tgt tn txt :
  system_ok w → is_private_type t = false → (∀ p, f = Some p → p ∈ dom (heap w)) →
  ∃ txt' w', mts_sanitize MTS_TEXT txt = Some txt' ∧ mts_publish f t room tgt tn txt w = Some (tt, w') ∧
    let e := event_of w (f ≫= λ p, heap w !! p) t room tgt tn txt' in
    next_sequence (MTS w') = u64 (next_sequence (MTS w) + 1) ∧
    (∀ q s, heap w !! q = Some s → ∃ s', heap w' !! q = Some s' ∧ same_but_inbox s s' ∧
      (hears w f t room q s →
       queue s' = (if count s =? MTS_INBOX then tail (queue s) else queue s) ++ [e]) ∧
      (¬ hears w f t room q s → s' = s)).
Proof.
  intros [ss Hw] Ht Hf. destruct (publish_event_runs _ ss [] f t room tgt tn txt w Hw Hf) as (txt' & Htxt & Hruns).
  set (e := event_of w (f ≫= λ p, heap w !! p) t room tgt tn txt') in *.
  destruct Hruns as (auto & w' & E & Hseq & _ & Hauto & _ & _ & _ & Hheap).
  specialize (Hauto Ht). subst auto. exists txt', w'. split; [done |]. split; [| split; [done |]].
  { unfold mts_publish. cbn [publish]. unfold mbind at 1, M_bind. by rewrite E. }
  intros q s Hs. rewrite Hheap, Hs by (by left).
  assert (inbox_ok s) as Hok by (by eapply heap_inbox_ok).
  pose proof (heard_iff _ ss [] w f t room tgt q s Hw Hs Ht Hf) as Hh. unfold heard in Hh.
  assert (∀ b : bool, b = true ↔ hears w f t room q s → b = false → ¬ hears w f t room q s) as Hnot.
  { intros b Hb -> H. by apply Hb in H. }
  destruct (in_audience _ _ _ _ _); cbn [fmap option_fmap option_map andb] in *.
  - eexists. split; [done |]. rewrite receive_public by done. change (ev_type e) with t.
    destruct (is_unwanted _ _ _ _ _); cbn [negb] in *.
    + split_and!; [apply same_but_inbox_refl | intros H; by destruct (Hnot _ Hh eq_refl) | done].
    + split_and!; [apply inbox_push_same | intros _; by apply queue_push | intros H; destruct H; by apply Hh].
  - exists s. split_and!; [done | apply same_but_inbox_refl | intros H; by destruct (Hnot _ Hh eq_refl) | done].
Qed.

(** ** Private messages *)

(** The answer of a user who is away goes to the sender's sessions. *)
Lemma afk_answer_runs n ss a room tgt tn txt w :
  world_ok n ss [] w → a ∈ n →
  runs (publish 0 (Some a) MTS_AFK_RESPONSE room tgt tn txt) (λ _ w',
    world_ok n ss [] w' ∧ rooms (MTS w') = rooms (MTS w) ∧ t_history (db w') = t_history (db w) ∧
    (∀ q, user_id <$> heap w' !! q = user_id <$> heap w !! q) ∧
    ∀ q s, heap w !! q = Some s → q ≠ a → user_id s ≠ tgt → heap w' !! q = Some s) w.
Proof.
  intros Hw Ha. cbn [publish]. apply runs_bind.
  destruct (publish_event_runs n ss [] (Some a) MTS_AFK_RESPONSE room tgt tn txt w Hw) as (txt' & _ & Hr).
  { by intros ? [= <-]. }
  eapply runs_mono; [eapply runs_and; [exact Hr |];
    apply (safe_publish_event n ss [] somehow (Some a)); [by intros ? [= <-] | done] |].
  intros auto w' ((_ & Hdb & _ & Hrooms & _ & Hu & Hheap) & Hw' & _ & Hauto).
  destruct auto as [| x auto]; [| by apply Forall_cons in Hauto as [(_ & ? & _) _]].
  apply runs_ret. split_and!; [done | by apply Hrooms | | done |].
  - rewrite Hdb. unfold mts_store_history. cbn [ev_type event_of]. by rewrite !orb_true_r.
  - intros q s Hs Hq Hne. rewrite Hheap by (right; congruence). unfold in_audience. rewrite Hs.
    unfold is_for. cbn. replace (user_id s =? tgt) with false by lia. by rewrite !andb_false_r.
Qed.

(** C13. A private message is private: of all sessions only those of its sender
    and of the user it is for are changed by it, by the answer of a user who is
    away, or by the notice that it was not delivered; it is in the history of no
    room, and not in the table of the messages that are kept. *)
Theorem private_messages_stay_private w p ps room tgt tn txt :
  system_ok w → heap w !! p = Some ps →
  ∃ w', mts_publish (Some p) MTS_PRIVATE room tgt tn txt w = Some (tt, w') ∧
    rooms (MTS w') = rooms (MTS w) ∧ t_history (db w') = t_history (db w) ∧
    ∀ q s, heap w !! q = Some s → user_id s ≠ tgt → user_id s ≠ user_id ps → heap w' !! q = Some s.
Proof.
  intros [ss Hw] Hps. set (n := dom (heap w)) in *.
  assert (p ∈ n) as Hp by (by eapply in_heap).
  destruct (publish_event_runs n ss [] (Some p) MTS_PRIVATE room tgt tn txt w Hw) as (txt' & _ & Hr).
  { by intros ? [= <-]. }
  set (Good := λ w', world_ok n ss [] w' ∧ rooms (MTS w') = rooms (MTS w) ∧ t_history (db w') = t_history (db w) ∧
    (∀ q, user_id <$> heap w' !! q = user_id <$> heap w !! q) ∧
    ∀ q s, heap w !! q = Some s → user_id s ≠ tgt → user_id s ≠ user_id ps → heap w' !! q = Some s).
  assert (runs (mts_publish (Some p) MTS_PRIVATE room tgt tn txt) (λ _ w', Good w') w) as (x & w' & E & HG).
  2: { destruct x, HG as (_ & ? & ? & _ & ?). by exists w'. }
  unfold mts_publish. cbn [publish]. apply runs_bind.
  eapply runs_mono; [eapply runs_and; [exact Hr |];
    apply (safe_publish_event n ss [] somehow (Some p)); [by intros ? [= <-] | done] |].
  intros auto w1 ((_ & Hdb & _ & Hrooms & Haud & Hu & Hheap) & Hw1 & _ & _).
  assert (Good w1) as HG1.
  { split_and!; [done | by apply Hrooms | | done |].
    - rewrite Hdb. unfold mts_store_history. cbn [ev_type event_of]. by rewrite orb_true_r.
    - intros q s Hs Hnt Hns. rewrite Hheap by (right; congruence). unfold in_audience. rewrite Hs.
      unfold is_for. cbn. replace (user_id s =? tgt) with false by lia. by rewrite !andb_false_r. }
  assert (∀ a, a ∈ auto → ∃ s, heap w !! a = Some s ∧ user_id s = tgt) as Htgt.
  { intros a Ha%Haud. unfold in_audience in Ha. destruct (heap w !! a) as [s |]; [| done]. exists s.
    split; [done |]. apply andb_true_iff in Ha as [_ [_ Ha]%andb_true_iff]. by apply Z.eqb_eq in Ha. }
  assert (runs (for_each (λ a, s ← session a; p' ← lift (Some p); fs ← session p';
    publish 0 (Some a) MTS_AFK_RESPONSE 0 (user_id fs) (Some (handle fs)) (afk_text s)) auto)
    (λ _ w', Good w') w1) as Hall; [| by destruct auto; [apply runs_ret |]].
  clear Haud Hheap Hdb Hr Hu Hrooms Hw1. revert w1 HG1 Htgt.
  induction auto as [| a auto IH]; intros w1 HG1 Htgt; [by apply runs_ret |].
  destruct HG1 as (Hw1 & Hr1 & Hh1 & Hu1 & Hs1). destruct (Htgt a) as (sa & Hsa & Hua); [constructor |].
  assert (a ∈ n) as Ha by (by apply (elem_of_dom_2 _ _ sa)). cbn [for_each].
  destruct (heap_lookup n ss [] w1 a Hw1 Ha) as (s1 & Hs1a & _).
  destruct (heap_lookup n ss [] w1 p Hw1 Hp) as (fs & Hfs & _).
  apply runs_bind, runs_bind, (runs_session _ s1); [done |].
  apply runs_bind, (runs_lift p); [done |]. apply runs_bind, (runs_session _ fs); [done |].
  eapply runs_mono; [by apply (afk_answer_runs n ss) |]. intros [] w2 (Hw2 & Hr2 & Hh2 & Hu2 & Hs2).
  apply IH; [| intros; apply Htgt; by constructor]. split_and!; [done | congruence | congruence | |].
  - intros q. by rewrite Hu2.
  - intros q s Hs Hnt Hns. apply Hs2; [by apply Hs1 | |].
    + intros ->. congruence.
    + specialize (Hu1 p). rewrite Hfs, Hps in Hu1. cbn in Hu1. congruence.
Qed.

(** ** A board with callers *)

(** A sysop and two users, all in the Lobby. *)
Definition caller_of (id flags : Z) (nm : cstr) : caller := MkCaller id id flags 0 id false 80 24 nm.

Definition arrivals : list input :=
  [Connect (caller_of 1 1 (lit "root")); Connect (caller_of 2 0 (lit "ann")); Connect (caller_of 3 0 (lit "bob"))].

Definition opened : world := default sample_world (snd <$> mts_state_init sample_config sample_world).
Definition crowd : world := default opened (snd <$> for_each (act sample_host) arrivals opened).

Lemma crowd_ok : system_ok crowd.
Proof.
  assert (system_ok opened) as H0.
  { destruct (mts_state_init_runs sample_config sample_world) as (ok & w & E & Hok);
      [by split | exact sample_tables_ok | done |].
    assert (fst <$> mts_state_init sample_config sample_world = Some true) as Et by by vm_compute.
    unfold opened. rewrite E in Et |- *. injection Et as ->. by eapply system_ok_intro, Hok. }
  unfold crowd. generalize opened H0. unfold arrivals. intros w Hw.
  assert (∀ l w, system_ok w → Forall (λ i, ∀ w', may_happen i w') l →
    runs (for_each (act sample_host) l) (λ _ w', system_ok w') w) as Hall.
  { clear. induction l as [| i l IH]; intros w Hw Hl; [by apply runs_ret |].
    apply Forall_cons in Hl as [Hi Hl]. apply runs_bind. eapply runs_mono; [by apply act_runs |].
    intros [] w' Hw'. by apply IH. }
  destruct (Hall [Connect (caller_of 1 1 (lit "root")); Connect (caller_of 2 0 (lit "ann"));
    Connect (caller_of 3 0 (lit "bob"))] w Hw) as (x & w' & E & Hw'); [by repeat constructor |].
  by rewrite E.
Qed.

Lemma events_reach_their_audience_witness :
  ∃ txt' w', mts_sanitize MTS_TEXT (lit "hello") = Some txt' ∧
    mts_publish (Some 1%nat) MTS_PUBLIC 1 0 None (lit "hello") crowd = Some (tt, w') ∧
    let e := event_of crowd (Some 1%nat ≫= λ p, heap crowd !! p) MTS_PUBLIC 1 0 None txt' in
    next_sequence (MTS w') = u64 (next_sequence (MTS crowd) + 1) ∧
    (∀ q s, heap crowd !! q = Some s → ∃ s', heap w' !! q = Some s' ∧ same_but_inbox s s' ∧
      (hears crowd (Some 1%nat) MTS_PUBLIC 1 q s →
       queue s' = (if count s =? MTS_INBOX then tail (queue s) else queue s) ++ [e]) ∧
      (¬ hears crowd (Some 1%nat) MTS_PUBLIC 1 q s → s' = s)).
Proof.
  apply (events_reach_their_audience crowd (Some 1%nat) MTS_PUBLIC 1 0 None (lit "hello"));
    [exact crowd_ok | reflexivity |].
  intros p [= <-]. apply elem_of_dom. vm_compute. by eexists.
Defined.

Lemma private_messages_stay_private_witness :
  ∃ ps w', heap crowd !! 1%nat = Some ps ∧
    mts_publish (Some 1%nat) MTS_PRIVATE 0 1 (Some (lit "root")) (lit "a secret") crowd = Some (tt, w') ∧
    rooms (MTS w') = rooms (MTS crowd) ∧ t_history (db w') = t_history (db crowd) ∧
    ∀ q s, heap crowd !! q = Some s → user_id s ≠ 1 → user_id s ≠ user_id ps → heap w' !! q = Some s.
Proof.
  destruct (heap crowd !! 1%nat) as [ps |] eqn:E; [| vm_compute in E; discriminate].
  destruct (private_messages_stay_private crowd 1 ps 0 1 (Some (lit "root")) (lit "a secret") crowd_ok E) as (w' & HP).
  exists ps, w'. exact (conj eq_refl HP).
Defined.

(** * Moderation *)

(** ** Entering *)

(** A row of the table is in force against the user. *)
Definition sanctioned (w : world) (t : sanction_table) (room user : Z) : Prop :=
  ∃ sn, (t, sn) ∈ t_sanctions (db w) ∧ sn_user sn = user ∧ (is_global t = true ∨ sn_room sn = room) ∧
    match sn_expires sn with None => True | Some e => now w < e end.

Lemma is_sanctioned_iff w t room user :
  mts_store_is_sanctioned (now w) t room user (db w) = true ↔ sanctioned w t room user.
Proof.
  unfold mts_store_is_sanctioned, sanctioned, same_sanction, in_force. rewrite existsb_exists. split.
  - intros ([t' sn] & Hin%list_elem_of_In & H). cbn in H.
    repeat (apply andb_true_iff in H as [H ?]). apply bool_decide_eq_true in H. subst t'.
    exists sn. split_and!; [done | lia | | destruct (sn_expires sn); [lia | done]].
    destruct (is_global t); [by left | right; lia].
  - intros (sn & Hin & Hu & Hr & He). exists (t, sn). split; [by apply list_elem_of_In |]. cbn.
    rewrite bool_decide_true by done. destruct Hr as [-> | Hr]; destruct (sn_expires sn); lia.
Qed.

(** The user of the session may enter the room. *)
Definition admitted (w : world) (s : mts_session) (room : Z) : Prop :=
  ∃ r, room_of room w = Some r ∧
    (mts_is_sysop s = true ∨
     ¬ sanctioned w GLOBAL_BANS 0 (user_id s) ∧ ¬ sanctioned w ROOM_BANS room (user_id s) ∧
     (is_private r = true → owner r = user_id s ∨ (room, user_id s) ∈ t_invitations (db w))).

Lemma may_enter_iff w s room : may_enter w s room = true ↔ admitted w s room.
Proof.
  unfold may_enter, admitted. destruct (room_of room w) as [r |]; [| by split; [| intros (? & ? & _)]].
  setoid_rewrite <- is_sanctioned_iff. unfold mts_store_is_invited.
  rewrite orb_true_iff, !andb_true_iff, !negb_true_iff, !orb_true_iff, negb_true_iff, Z.eqb_eq, bool_decide_eq_true.
  split.
  - intros H. exists r. split; [done |]. destruct H as [? | [[H1 H2] H3]]; [by left | right].
    split_and!; [congruence | congruence |]. intros Hp. destruct H3 as [[? | ?] | ?]; [congruence | by left | by right].
  - intros (r' & [= <-] & H). destruct H as [? | (H1 & H2 & H3)]; [by left | right].
    split_and!; [by apply not_true_is_false | by apply not_true_is_false |].
    destruct (is_private r); [destruct (H3 eq_refl); [left; by right | by right] | left; by left].
Qed.

(** C11. Joining a room is authorized: it succeeds exactly when the room is in
    use and the user is a sysop, or is banned neither from the teleconference nor
    from the room and, where it is private, owns it or is invited. Then the
    session is in the room and nobody else has moved; otherwise nothing has
    changed at all. *)
Theorem joining_is_authorized w p s room :
  system_ok w → heap w !! p = Some s →
  ∃ ok w', mts_join p room w = Some (ok, w') ∧ (ok = true ↔ admitted w s room) ∧
    if ok : bool then (∃ s', heap w' !! p = Some s' ∧ session_key s' = (active s, mts_is_sysop s, room)) ∧
                      ∀ q, q ≠ p → session_key <$> heap w' !! q = session_key <$> heap w !! q
    else w' = w.
Proof.
  intros [ss Hw] Hs. destruct (join_runs _ ss [] p room s w Hw Hs) as (ok & w' & E & Hok & _ & Hj).
  exists ok, w'. split_and!; [done | subst ok; apply may_enter_iff |].
  destruct ok; [| done]. destruct Hj as ((s' & Hs' & Hk) & _ & _ & Hothers). split.
  - exists s'. split; [done | exact (f_equal fst Hk)].
  - intros q Hne. specialize (Hothers q Hne). destruct (heap w' !! q), (heap w !! q); try done.
    cbn [fmap option_fmap option_map] in *. apply (inj Some), full_key_session in Hothers as [E' _]. congruence.
Qed.

Lemma joining_is_authorized_witness :
  ∃ s, heap crowd !! 2%nat = Some s ∧
  ∃ ok w', mts_join 2 8 crowd = Some (ok, w') ∧ (ok = true ↔ admitted crowd s 8) ∧
    if ok : bool then (∃ s', heap w' !! 2%nat = Some s' ∧ session_key s' = (active s, mts_is_sysop s, 8)) ∧
                      ∀ q, q ≠ 2%nat → session_key <$> heap w' !! q = session_key <$> heap crowd !! q
    else w' = crowd.
Proof.
  destruct (heap crowd !! 2%nat) as [s |] eqn:E; [| vm_compute in E; discriminate].
  exists s. exact (conj eq_refl (joining_is_authorized crowd 2 s 8 crowd_ok E)).
Defined.

(** ** What the sysop says and what happens

    Lines typed by the sysop root (session 0) and the users ann (1) and bob (2),
    who are in the Lobby, room 1. *)

Definition typed (l : list (nat * cstr)) : option world :=
  snd <$> for_each (λ x, run_line sample_host x.1 x.2;; mret tt) l crowd.

(** The events that wait for a session, by type, sender and text. *)
Definition waiting (q : nat) (w : world) : option (list (mts_event_type * cstr * cstr)) :=
  fmap (λ e, (ev_type e, sender e, text e)) ∘ queue <$> heap w !! q.

Definition last_waiting (q : nat) (w : world) : option (mts_event_type * cstr * cstr) :=
  l ← waiting q w; last l.

Definition room_now (q : nat) (w : world) : option Z := room_id <$> heap w !! q.

(** The last thing that was written to a session. *)
Definition told (q : nat) (w : world) : option cstr := snd <$> last (filter (λ x, x.1 = q) (sent w)).

(** Moderation does not do what it says. A ban, even from the whole
    teleconference, leaves the user where he is, and what he goes on to say is
    heard: the move to the Lobby is refused to him because he is banned. A user
    who is muted is heard through actions and directed messages. A ban by number
    has no effect on a user who is online. Of a reason without a duration only
    the first word is kept. A user who is banned from the Lobby stays in a room
    that is closed. *)
Theorem moderation_has_gaps :
  (w ← typed [(0%nat, lit "/globalban bob spam"); (2%nat, lit "hello")];
   Some (room_now 2 w, last_waiting 1 w)) = Some (Some 1, Some (MTS_PUBLIC, lit "bob", lit "hello")) ∧
  (w ← typed [(0%nat, lit "/globalmute bob spam"); (2%nat, lit "/me shouts")]; last_waiting 1 w) =
    Some (MTS_ACTION, lit "bob", lit "shouts") ∧
  (w ← typed [(0%nat, lit "/globalmute bob spam"); (2%nat, lit ">ann hi")]; last_waiting 1 w) =
    Some (MTS_DIRECTED, lit "bob", lit "hi") ∧
  (w ← typed [(0%nat, lit "/globalban 3 spam"); (2%nat, lit "hello")]; last_waiting 1 w) =
    Some (MTS_PUBLIC, lit "bob", lit "hello") ∧
  (w ← typed [(0%nat, lit "/globalban bob being rude")]; sn_reason ∘ snd <$> hd_error (t_sanctions (db w))) =
    Some (lit "being") ∧
  (w ← typed [(0%nat, lit "/ban bob spam"); (2%nat, lit "/create den"); (0%nat, lit "/close den noise")];
   r ← room_now 2 w; Some (r, room_of r w)) = Some (9, None).
Proof. vm_compute. repeat split. Qed.

(** Rooms and messages are not kept to: a user who watches a room goes on
    seeing it when its owner makes it private; a room whose name has a sign that
    is neither a letter nor a digit cannot be joined by its name; and a private
    message that waits in an inbox is pushed out by later public ones, where it
    is counted as public. *)
Theorem rooms_and_messages_leak :
  (w ← typed [(1%nat, lit "/create den"); (2%nat, lit "/watch den"); (1%nat, lit "/private");
              (1%nat, lit "our secret")]; last_waiting 2 w) =
    Some (MTS_PUBLIC, lit "ann", lit "our secret") ∧
  (w ← typed [(1%nat, lit "/create my-room"); (2%nat, lit "/join my-room")]; told 2 w) =
    Some (lit "No such room." ++ CRLF) ∧
  (let e k t := MkEvent k 1 0 t 2 3 (lit "ann") (lit "bob") (lit "hi") in
   let private := Put (e 0 MTS_PRIVATE) true in
   let public := (λ k, Put (e (Z.of_nat k) MTS_PUBLIC) false) <$> seq 1 128 in
   let s := snd (queue_ops (private :: public) [] 0) in
   (bool_decide (MTS_PRIVATE ∈ ev_type <$> fst s), snd s) = (false, 1)).
Proof. vm_compute. repeat split. Qed.
