(* ===== verification/Telnet.v ===== *)
(** The telnet layer of a session (src/telnet.c): option negotiation, the
    in-band command parser and its sub-negotiation buffer, as explicit state
    passing over the parser state, the bytes sent back to the peer and the
    clean bytes handed to the session. The theorems relate the byte-at-a-time
    parser to the command grammar it decodes. *)

From S2P Require Import Prelude.

#[local] Open Scope Z_scope.

(** ** Protocol constants *)

(** src/telnet.c:7-7 (IAC) *)
Definition IAC : Z := 255.
Definition DONT : Z := 254.
Definition DO : Z := 253.
Definition WONT : Z := 252.
Definition WILL : Z := 251.
Definition SB : Z := 250.
Definition SE : Z := 240.

(** src/telnet.c:8-9 (TELOPT_ECHO) *)
Definition TELOPT_ECHO : Z := 1.
Definition TELOPT_SGA : Z := 3.
Definition TELOPT_TTYPE : Z := 24.
Definition TELOPT_NAWS : Z := 31.
Definition TTYPE_IS : Z := 0.
Definition TTYPE_SEND : Z := 1.

(** src/telnet.c:11-11 (ParserState) *)
Definition ST_DATA : Z := 0.
Definition ST_IAC : Z := 1.
Definition ST_IAC_CMD : Z := 2.
Definition ST_SB : Z := 3.
Definition ST_SB_IAC : Z := 4.

(** ** State *)

(** include/bbs_telnet.h:5-18 (TelnetState) *)
Record TelnetState : Type := MkTelnet {
  cols : Z;
  rows : Z;
  st : Z;
  cmd : Z;
  sb_buf : list Z;      (* 128 bytes *)
  sb_len : Z;
  term_type : list Z    (* 64 bytes *)
}.

Definition set_st (tn : TelnetState) (s : Z) : TelnetState :=
  MkTelnet (cols tn) (rows tn) s (cmd tn) (sb_buf tn) (sb_len tn) (term_type tn).
Definition set_cmd (tn : TelnetState) (c : Z) : TelnetState :=
  MkTelnet (cols tn) (rows tn) (st tn) c (sb_buf tn) (sb_len tn) (term_type tn).
Definition set_size (tn : TelnetState) (w h : Z) : TelnetState :=
  MkTelnet w h (st tn) (cmd tn) (sb_buf tn) (sb_len tn) (term_type tn).
Definition set_sb (tn : TelnetState) (buf : list Z) (n : Z) : TelnetState :=
  MkTelnet (cols tn) (rows tn) (st tn) (cmd tn) buf n (term_type tn).
Definition set_term (tn : TelnetState) (t : list Z) : TelnetState :=
  MkTelnet (cols tn) (rows tn) (st tn) (cmd tn) (sb_buf tn) (sb_len tn) t.

(** ** Replies

    A wire is the list of bytes handed to [fd_write_all] so far; the code never
    looks at its result. *)

Abbreviation wire := (list Z).

(** src/telnet.c:13-16 (tn_send3) *)
Definition tn_send3 (w : wire) (a b c : Z) : wire := w ++ [a; b; c].

(** src/telnet.c:18-21 (tn_send_ttype_send) *)
Definition tn_send_ttype_send (w : wire) : wire :=
  w ++ [IAC; SB; TELOPT_TTYPE; TTYPE_SEND; IAC; SE].

(** src/telnet.c:23-37 (telnet_send_initial) *)
Definition telnet_send_initial (w : wire) : wire :=
  let w := tn_send3 w IAC WILL TELOPT_SGA in
  let w := tn_send3 w IAC DO TELOPT_SGA in
  let w := tn_send3 w IAC DO TELOPT_NAWS in
  let w := tn_send3 w IAC DO TELOPT_TTYPE in
  let w := tn_send3 w IAC WILL TELOPT_ECHO in
  tn_send_ttype_send w.

(** src/telnet.c:39-42 (telnet_password_begin) *)
Definition telnet_password_begin (w : wire) : wire :=
  tn_send3 (tn_send3 w IAC WILL TELOPT_ECHO) IAC DO TELOPT_SGA.

(** src/telnet.c:44-50 (telnet_password_end) *)
Definition telnet_password_end (w : wire) : wire :=
  tn_send3 (tn_send3 w IAC WILL TELOPT_ECHO) IAC DO TELOPT_SGA.

(** src/telnet.c:52-81 (handle_iac_cmd) *)
Definition handle_iac_cmd (w : wire) (cmd opt : Z) : wire :=
  if cmd =? DO then
    if (opt =? TELOPT_SGA) || (opt =? TELOPT_ECHO) then tn_send3 w IAC WILL opt
    else tn_send3 w IAC WONT opt
  else if cmd =? WILL then
    if (opt =? TELOPT_SGA) || (opt =? TELOPT_NAWS) || (opt =? TELOPT_TTYPE)
    then tn_send3 w IAC DO opt
    else tn_send3 w IAC DONT opt
  else w.

(** ** Sub-negotiation *)

Definition buf_at (l : list Z) (i : Z) : Z := default 0 (nthZ l i).

Definition accept_size (old new : Z) : Z :=
  if (0 <? new) && (new <? 1000) then new else old.

(** src/telnet.c:83-105 (process_sb) *)
Definition process_sb (tn : TelnetState) : TelnetState :=
  if sb_len tn <? 1 then tn
  else
    let opt := buf_at (sb_buf tn) 0 in
    if opt =? TELOPT_NAWS then
      if 1 + 4 <=? sb_len tn then
        let w := Z.lor (Z.shiftl (buf_at (sb_buf tn) 1) 8) (buf_at (sb_buf tn) 2) in
        let h := Z.lor (Z.shiftl (buf_at (sb_buf tn) 3) 8) (buf_at (sb_buf tn) 4) in
        set_size tn (accept_size (cols tn) w) (accept_size (rows tn) h)
      else tn
    else if opt =? TELOPT_TTYPE then
      if (3 <=? sb_len tn) && (buf_at (sb_buf tn) 1 =? TTYPE_IS) then
        let n := sb_len tn - 2 in
        let n := if zlen (term_type tn) <=? n then zlen (term_type tn) - 1 else n in
        let t := list_inserts 0 (slice 2 n (sb_buf tn)) (term_type tn) in
        set_term tn (<[Z.to_nat n := 0]> t)
      else tn
    else tn.

(** [if (sb_len < sizeof(sb_buf)) sb_buf[sb_len++] = b], of ST_SB and ST_SB_IAC *)
Definition sb_push (tn : TelnetState) (b : Z) : TelnetState :=
  if sb_len tn <? zlen (sb_buf tn)
  then set_sb tn (<[Z.to_nat (sb_len tn) := b]> (sb_buf tn)) (sb_len tn + 1)
  else tn.

(** ** The parser *)

Record feed : Type := MkFeed { f_tn : TelnetState; f_wire : wire; f_out : list Z }.

(** [if (o < out_cap) out[o++] = b] *)
Definition put (out_cap : Z) (out : list Z) (b : Z) : list Z :=
  if zlen out <? out_cap then out ++ [b] else out.

(** src/telnet.c:112-167 (telnet_feed) *)
Definition telnet_step (out_cap : Z) (s : feed) (b : Z) : feed :=
  let '(MkFeed tn w out) := s in
  if st tn =? ST_DATA then
    if b =? IAC then MkFeed (set_st tn ST_IAC) w out
    else MkFeed tn w (put out_cap out b)
  else if st tn =? ST_IAC then
    if b =? IAC then MkFeed (set_st tn ST_DATA) w (put out_cap out IAC)
    else if (b =? DO) || (b =? DONT) || (b =? WILL) || (b =? WONT)
    then MkFeed (set_st (set_cmd tn b) ST_IAC_CMD) w out
    else if b =? SB then MkFeed (set_st (set_sb tn (sb_buf tn) 0) ST_SB) w out
    else MkFeed (set_st tn ST_DATA) w out
  else if st tn =? ST_IAC_CMD then
    MkFeed (set_st tn ST_DATA) (handle_iac_cmd w (cmd tn) b) out
  else if st tn =? ST_SB then
    if b =? IAC then MkFeed (set_st tn ST_SB_IAC) w out
    else MkFeed (sb_push tn b) w out
  else if st tn =? ST_SB_IAC then
    if b =? SE then MkFeed (set_st (process_sb tn) ST_DATA) w out
    else if b =? IAC then MkFeed (set_st (sb_push tn IAC) ST_SB) w out
    else MkFeed (set_st tn ST_SB) w out
  else MkFeed (set_st tn ST_DATA) w out.

(** src/telnet.c:107-171 (telnet_feed) *)
Definition telnet_feed (tn : TelnetState) (w : wire) (inp : list Z) (out_cap : Z) : feed :=
  foldl (telnet_step out_cap) (MkFeed tn w []) inp.

(** ** Invariant *)

Definition size_ok (z : Z) : Prop := 0 < z < 1000.

Definition telnet_wf (tn : TelnetState) : Prop :=
  length (sb_buf tn) = 128%nat ∧ bytes_ok (sb_buf tn) ∧ 0 <= sb_len tn <= 128 ∧
  length (term_type tn) = 64%nat ∧ 0 ∈ term_type tn ∧
  size_ok (cols tn) ∧ size_ok (rows tn) ∧
  ST_DATA <= st tn <= ST_SB_IAC.

(** ** The command grammar

    What a peer sends, item by item, and the bytes it sends for it. *)

Inductive tn_item : Type :=
  | TnData (b : Z)                   (* a data byte, 255 doubled *)
  | TnCommand (b : Z)                (* IAC b, b none of the bytes with a meaning *)
  | TnOption (cmd opt : Z)           (* IAC DO/DONT/WILL/WONT opt *)
  | TnSub (payload : list Z).        (* IAC SB payload IAC SE, 255 doubled *)

Definition escape (b : Z) : list Z := if b =? IAC then [IAC; IAC] else [b].

Definition tn_encode (i : tn_item) : list Z :=
  match i with
  | TnData b => escape b
  | TnCommand b => [IAC; b]
  | TnOption c o => [IAC; c; o]
  | TnSub p => [IAC; SB] ++ mjoin (escape <$> p) ++ [IAC; SE]
  end.

Definition is_nego (b : Z) : bool :=
  (b =? DO) || (b =? DONT) || (b =? WILL) || (b =? WONT).

Definition item_wf (i : tn_item) : Prop :=
  match i with
  | TnData b => in_u 8 b
  | TnCommand b => b ≠ IAC ∧ is_nego b = false ∧ b ≠ SB
  | TnOption c o => is_nego c = true
  | TnSub p => bytes_ok p
  end.

(** What a sub-negotiation says. *)
Definition naws_size (p : list Z) : option (Z * Z) :=
  match p with
  | o :: w1 :: w0 :: h1 :: h0 :: _ =>
      if o =? TELOPT_NAWS then Some (w1 * 256 + w0, h1 * 256 + h0) else None
  | _ => None
  end.

Definition ttype_name (p : list Z) : option (list Z) :=
  match p with
  | o :: i :: c :: t =>
      if (o =? TELOPT_TTYPE) && (i =? TTYPE_IS) then Some (take 63 (c :: t)) else None
  | _ => None
  end.

(** The C string in a buffer. *)
Fixpoint cstring (l : list Z) : list Z :=
  match l with
  | [] => []
  | c :: l => if c =? 0 then [] else c :: cstring l
  end.

(** What the session sees of the parser state: window size and terminal name. *)
Definition view : Type := (Z * Z) * list Z.

Definition visible (tn : TelnetState) : view :=
  ((cols tn, rows tn), cstring (term_type tn)).

Definition view_step (v : view) (i : tn_item) : view :=
  match i with
  | TnSub p =>
      match naws_size p, ttype_name p with
      | Some (w, h), _ => ((accept_size v.1.1 w, accept_size v.1.2 h), v.2)
      | None, Some t => (v.1, cstring t)
      | None, None => v
      end
  | _ => v
  end.

Definition reply_to (i : tn_item) : list Z :=
  match i with TnOption c o => handle_iac_cmd [] c o | _ => [] end.

Definition data_of (i : tn_item) : list Z :=
  match i with TnData b => [b] | _ => [] end.

Definition stream (l : list tn_item) : list Z := mjoin (tn_encode <$> l).
Definition replies (l : list tn_item) : list Z := mjoin (reply_to <$> l).
Definition clean (l : list tn_item) : list Z := mjoin (data_of <$> l).

(** ** Feeding *)

Lemma feed_app cap s a b :
  foldl (telnet_step cap) s (a ++ b) = foldl (telnet_step cap) (foldl (telnet_step cap) s a) b.
Proof. apply foldl_app. Qed.

(** The output capacity decides which bytes are kept and nothing else: with room
    for all of them, the output buffer is a plain accumulator. *)
Lemma put_room cap out b : zlen out < cap → put cap out b = out ++ [b].
Proof. unfold put. intros ?. destruct (Z.ltb_spec (zlen out) cap); [done | lia]. Qed.

Lemma step_prefix cap cap' pre tn w out b :
  zlen pre + zlen out < cap → zlen out < cap' →
  telnet_step cap (MkFeed tn w (pre ++ out)) b =
    let s := telnet_step cap' (MkFeed tn w out) b in
    MkFeed (f_tn s) (f_wire s) (pre ++ f_out s).
Proof.
  intros Hroom Hroom'.
  assert (Hput : ∀ x, put cap (pre ++ out) x = pre ++ put cap' out x).
  { intros x. rewrite !put_room by zl. by rewrite <- app_assoc. }
  cbn [telnet_step]. repeat case_match; cbn; rewrite ?Hput; done.
Qed.

Lemma step_out_le cap s b :
  zlen (f_out (telnet_step cap s b)) <= zlen (f_out s) + 1.
Proof.
  destruct s as [tn w out]. cbn [telnet_step f_out].
  assert (∀ x, zlen (put cap out x) <= zlen out + 1) as Hput.
  { intros x. unfold put. case_match; zl. }
  repeat case_match; cbn [f_out]; rewrite ?Hput; lia.
Qed.

Lemma feed_prefix cap cap' pre inp : ∀ tn w out,
  zlen pre + zlen out + zlen inp <= cap → zlen out + zlen inp <= cap' →
  foldl (telnet_step cap) (MkFeed tn w (pre ++ out)) inp =
    let s := foldl (telnet_step cap') (MkFeed tn w out) inp in
    MkFeed (f_tn s) (f_wire s) (pre ++ f_out s).
Proof.
  induction inp as [|b inp IH]; intros tn w out Hroom Hroom'; [done |]. cbn [foldl].
  rewrite (step_prefix cap cap') by zl. cbv zeta.
  pose proof (step_out_le cap' (MkFeed tn w out) b) as Hle.
  destruct (telnet_step cap' (MkFeed tn w out) b) as [tn' w' out'].
  cbn [f_tn f_wire f_out] in *. apply IH; zl.
Qed.

(** Output never exceeds the capacity or the input. *)
Lemma feed_out_le cap inp : ∀ s,
  zlen (f_out (foldl (telnet_step cap) s inp)) <= zlen (f_out s) + zlen inp.
Proof.
  induction inp as [|b inp IH]; intros s; cbn [foldl]; [zl |].
  pose proof (IH (telnet_step cap s b)). pose proof (step_out_le cap s b). zl.
Qed.

(** ** The sub-negotiation buffer *)

(** [sb_holds tn q]: the buffer's live part is [q]. *)
Definition sb_holds (tn : TelnetState) (q : list Z) : Prop :=
  sb_len tn = zlen q ∧ ∃ r, sb_buf tn = q ++ r ∧ length (q ++ r) = 128%nat.

Lemma sb_push_holds tn q b :
  sb_holds tn q → sb_holds (sb_push tn b) (take 128 (q ++ [b])).
Proof.
  intros (Hn & r & Hbuf & Hlen). unfold sb_push. rewrite Hbuf, Hn.
  unfold zlen in *. rewrite length_app in Hlen.
  destruct (Z.ltb_spec (Z.of_nat (length q)) (Z.of_nat (length (q ++ r)))) as [Hlt | Hge].
  - rewrite length_app in Hlt. destruct r as [|x r]; [cbn in Hlt; lia |].
    cbn in Hlen. split; cbn [set_sb sb_len sb_buf].
    + rewrite take_ge by (rewrite length_app; cbn; lia).
      unfold zlen. rewrite length_app. cbn. lia.
    + exists r. rewrite Nat2Z.id. rewrite take_ge by (rewrite length_app; cbn; lia).
      rewrite insert_app_r_alt by lia. rewrite Nat.sub_diag. cbn.
      rewrite <- app_assoc. split; [done |]. rewrite length_app. cbn. lia.
  - rewrite length_app in Hge. assert (length r = 0)%nat as ->%nil_length_inv by lia.
    cbn in Hlen. rewrite take_app_le by lia. rewrite take_ge by lia.
    split; [done |]. exists []. rewrite length_app. cbn. split; [done | lia].
Qed.

Lemma sb_push_frame tn b :
  visible (sb_push tn b) = visible tn ∧ st (sb_push tn b) = st tn ∧
  term_type (sb_push tn b) = term_type tn.
Proof. unfold sb_push. by case_match. Qed.

Lemma sb_push_wf tn b : telnet_wf tn → in_u 8 b → telnet_wf (sb_push tn b).
Proof.
  unfold telnet_wf, sb_push, zlen. intros (Hl & Hb & Hn & Ht & H0 & Hc & Hr & Hst) ?.
  case_match; [| tauto]. cbn. rewrite length_insert.
  assert (bytes_ok (<[Z.to_nat (sb_len tn):=b]> (sb_buf tn))) by by apply Forall_insert.
  split_and!; try (assumption || lia).
Qed.

Lemma feed_payload cap w p : ∀ tn out q,
  bytes_ok p → telnet_wf tn → st tn = ST_SB → sb_holds tn q →
  ∃ tn', foldl (telnet_step cap) (MkFeed tn w out) (mjoin (escape <$> p)) = MkFeed tn' w out ∧
    telnet_wf tn' ∧ st tn' = ST_SB ∧ sb_holds tn' (take 128 (q ++ p)) ∧ visible tn' = visible tn.
Proof.
  induction p as [|b p IH]; intros tn out q Hp Hwf Hst Hq.
  - exists tn. rewrite app_nil_r. destruct Hq as (Hn & r & Hbuf & Hl).
    rewrite length_app in Hl. rewrite take_ge by lia.
    split_and!; try done. split; [done |]. exists r. by rewrite length_app.
  - inversion Hp; subst. cbn [fmap list_fmap mjoin list_join].
    rewrite feed_app.
    assert (foldl (telnet_step cap) (MkFeed tn w out) (escape b) = MkFeed (set_st (sb_push tn b) ST_SB) w out) as ->.
    { unfold escape. destruct (Z.eqb_spec b IAC) as [-> | Hb].
      - cbn [foldl telnet_step]. rewrite Hst. cbn. unfold sb_push. cbn. by case_match.
      - cbn [foldl telnet_step]. rewrite Hst. cbn. apply Z.eqb_neq in Hb. rewrite Hb.
        f_equal. destruct (sb_push_frame tn b) as (_ & Hs & _).
        rewrite Hst in Hs. destruct (sb_push tn b); cbn in *; by subst. }
    destruct (IH (set_st (sb_push tn b) ST_SB) out (take 128 (q ++ [b]))) as (tn' & Hf & H').
    + done.
    + pose proof (sb_push_wf tn b Hwf ltac:(done)) as (?&?&?&?&?&?&?&?).
      unfold telnet_wf, ST_DATA, ST_SB_IAC, ST_SB in *; cbn in *; split_and!; try (done || lia).
    + done.
    + apply (sb_push_holds tn q b Hq).
    + exists tn'. split; [done |]. destruct H' as (? & ? & Hh & Hv). split_and!; try done.
      * by rewrite take_take_app, <- app_assoc in Hh.
      * rewrite Hv. apply (sb_push_frame tn b).
Qed.

(** ** Sub-negotiations *)

Lemma buf_at_live tn q i :
  sb_holds tn q → 0 <= i < zlen q → buf_at (sb_buf tn) i = buf_at q i.
Proof. intros (_ & r & -> & _) Hi. unfold buf_at. by rewrite nthZ_app_l by lia. Qed.

Lemma store_terminated (s t : list Z) :
  (length s < length t)%nat →
  ∃ r, <[length s := 0]> (list_inserts 0 s t) = s ++ 0 :: r.
Proof.
  intros Hlt. rewrite <- (take_drop (length s) t).
  rewrite list_inserts_0_r by (rewrite length_take; lia).
  destruct (drop (length s) t) as [|x r] eqn:E.
  { apply (f_equal length) in E. rewrite length_drop in E. cbn in E. lia. }
  exists r. rewrite insert_app_r_alt by lia. by rewrite Nat.sub_diag.
Qed.

Lemma cstring_app_nul s r : cstring (s ++ 0 :: r) = cstring s.
Proof. induction s as [|c s IH]; cbn; [done |]. by rewrite IH. Qed.

Lemma accept_size_ok old new : size_ok old → size_ok (accept_size old new).
Proof. unfold size_ok, accept_size. repeat case_match; lia. Qed.

Lemma store_nul_elem n (t : list Z) : (n < length t)%nat → 0 ∈ <[n := 0]> t.
Proof. intros Hn. apply list_elem_of_lookup. exists n. by apply list_lookup_insert_eq. Qed.

Lemma process_sb_wf tn : telnet_wf tn → telnet_wf (process_sb tn).
Proof.
  intros Hwf. pose proof Hwf as (Hl & Hb & Hn & Ht & H0 & Hc & Hr & Hst).
  unfold process_sb, zlen. rewrite Ht.
  repeat case_match; try done; unfold telnet_wf; cbn;
    split_and!; auto using accept_size_ok; try lia;
    rewrite ?length_insert, ?length_inserts; try done;
    apply store_nul_elem; rewrite length_inserts; lia.
Qed.

Lemma process_sb_st tn : st (process_sb tn) = st tn.
Proof. unfold process_sb. by repeat case_match. Qed.

Lemma naws_value b1 b0 : in_u 8 b0 → Z.lor (Z.shiftl b1 8) b0 = b1 * 256 + b0.
Proof. intros. apply (lor_shiftl_add b1 b0 8); [lia | done]. Qed.

(** A terminal name is stored as the C string of its first 63 bytes. *)
Lemma stored_name (t : list Z) (s buf r : list Z) n :
  length t = 64%nat → buf = s ++ r → n = Z.min (zlen s) 63 →
  cstring (<[Z.to_nat n := 0]> (list_inserts 0 (takeZ n buf) t)) = cstring (take 63 s).
Proof.
  unfold takeZ, zlen. intros Ht -> ->.
  replace (Z.to_nat (Z.min (Z.of_nat (length s)) 63)) with (length s `min` 63)%nat by lia.
  rewrite take_app_le by lia.
  replace (take (length s `min` 63) s) with (take 63 s).
  2:{ destruct (decide (length s <= 63)%nat); [by rewrite !take_ge by lia |]. f_equal. lia. }
  destruct (store_terminated (take 63 s) t) as [r' E]; [rewrite length_take; lia |].
  rewrite length_take, Nat.min_comm in E. rewrite E. apply cstring_app_nul.
Qed.

Lemma process_sb_view tn p :
  telnet_wf tn → bytes_ok p → sb_holds tn (take 128 p) →
  visible (process_sb tn) = view_step (visible tn) (TnSub p).
Proof.
  intros (Hl & Hb & Hn & Ht & _) Hp Hh.
  pose proof Hh as (Hlen & r & Hbuf & _).
  unfold process_sb. rewrite Hlen.
  destruct p as [|o p]; [done |].
  rewrite (buf_at_live _ _ 0 Hh) by (cbn [take]; zl).
  change (buf_at (take 128 (o :: p)) 0) with o.
  destruct (Z.ltb_spec (zlen (take 128 (o :: p))) 1) as [Hz | _]; [exfalso; cbn [take] in Hz; zl |].
  destruct (Z.eqb_spec o TELOPT_NAWS) as [-> | Hnaws].
  - destruct p as [|w1 [|w0 [|h1 [|h0 p]]]]; try done.
    rewrite !(buf_at_live _ _ _ Hh) by (cbn [take]; zl).
    replace (1 + 4 <=? zlen (take 128 (TELOPT_NAWS :: w1 :: w0 :: h1 :: h0 :: p))) with true
      by (symmetry; apply Z.leb_le; cbn [take]; zl).
    unfold bytes_ok in Hp. rewrite !Forall_cons in Hp. destruct Hp as (_ & ? & ? & ? & ? & _).
    set (q := take 128 _).
    change (buf_at q 1) with w1. change (buf_at q 2) with w0.
    change (buf_at q 3) with h1. change (buf_at q 4) with h0.
    by rewrite !naws_value by done.
  - unfold view_step.
    replace (naws_size (o :: p)) with (@None (Z * Z))
      by (apply Z.eqb_neq in Hnaws; cbn; rewrite Hnaws; by repeat case_match).
    destruct (Z.eqb_spec o TELOPT_TTYPE) as [-> | Htt].
    2:{ apply Z.eqb_neq in Htt. cbn. rewrite Htt. by repeat case_match. }
    destruct p as [|i [|c t]]; try done.
    rewrite (buf_at_live _ _ 1 Hh) by (cbn [take]; zl).
    change (buf_at _ 1) with i.
    set (q := take 128 _) in *.
    assert (Hq : q = TELOPT_TTYPE :: i :: take 126 (c :: t)) by done.
    assert (Hlq : zlen q = 2 + zlen (take 126 (c :: t))) by (rewrite Hq; zl).
    replace (3 <=? zlen q) with true by (cbn [take] in Hlq; zl).
    cbn [andb ttype_name]. rewrite Z.eqb_refl. cbn [andb].
    destruct (i =? TTYPE_IS); [| done]. unfold visible, set_term. cbn [cols rows term_type].
    f_equal. unfold slice.
    rewrite Hbuf, Hq. change (dropZ 2 (TELOPT_TTYPE :: i :: ?l ++ r)) with (l ++ r).
    replace (cstring (take 63 (c :: t))) with (cstring (take 63 (take 126 (c :: t))))
      by (rewrite take_take; done).
    cbn [app].
    change (dropZ 2 (TELOPT_TTYPE :: i :: take 126 (c :: t) ++ r)) with (take 126 (c :: t) ++ r).
    apply stored_name with (r := r); [done | done |].
    assert (zlen (term_type tn) = 64) as -> by (unfold zlen; lia).
    rewrite <- Hq, Hlq. case_match; lia.
Qed.

(** ** The grammar is decoded *)

Lemma set_st_wf tn s :
  s = ST_DATA ∨ s = ST_SB_IAC → telnet_wf tn → telnet_wf (set_st tn s).
Proof. unfold telnet_wf, ST_DATA, ST_SB_IAC. cbn. intuition (subst; lia). Qed.

Lemma put_data cap out b : zlen out + 1 <= cap → put cap out b = out ++ [b].
Proof. intros. apply put_room. lia. Qed.

Lemma set_st_data tn s : st tn = ST_DATA → set_st (set_st tn s) ST_DATA = tn.
Proof. intros <-. by destruct tn. Qed.

Lemma feed_item cap i tn w out :
  item_wf i → telnet_wf tn → st tn = ST_DATA → zlen out + zlen (data_of i) <= cap →
  ∃ tn', foldl (telnet_step cap) (MkFeed tn w out) (tn_encode i) =
      MkFeed tn' (w ++ reply_to i) (out ++ data_of i) ∧
    telnet_wf tn' ∧ st tn' = ST_DATA ∧ visible tn' = view_step (visible tn) i.
Proof.
  intros Hi Hwf Hst Hroom. destruct i as [b | b | c o | p]; cbn [tn_encode data_of reply_to] in *.
  - exists tn. rewrite app_nil_r. split; [| done].
    unfold escape. destruct (Z.eqb_spec b IAC) as [-> | Hb]; cbn [foldl telnet_step].
    + rewrite Hst. cbn. rewrite put_data by zl. by rewrite set_st_data.
    + rewrite Hst. cbn. apply Z.eqb_neq in Hb. rewrite Hb, put_data by zl. done.
  - exists tn. rewrite !app_nil_r. split; [| done].
    destruct Hi as (Hiac & Hn & Hsb). cbn [foldl telnet_step]. rewrite Hst. cbn.
    apply Z.eqb_neq in Hiac, Hsb. unfold is_nego in Hn. rewrite Hiac, Hn, Hsb.
    by rewrite set_st_data.
  - exists (set_st (set_cmd tn c) ST_DATA). rewrite app_nil_r.
    split; [| split_and!; [by apply (set_st_wf (set_cmd tn c)); [left |] | done | done]].
    cbn [foldl telnet_step]. rewrite Hst. cbn.
    assert ((c =? IAC) = false) as -> by (unfold item_wf, is_nego, DO, DONT, WILL, WONT, IAC in *; lia).
    unfold item_wf, is_nego in Hi. rewrite Hi. cbn. f_equal.
    unfold handle_iac_cmd, tn_send3. repeat case_match; cbn; by rewrite ?app_nil_r.
  - set (tn1 := set_st (set_sb tn (sb_buf tn) 0) ST_SB).
    assert (Hwf1 : telnet_wf tn1).
    { destruct Hwf as (?&?&?&?&?&?&?&?). unfold telnet_wf. subst tn1. cbn.
      split_and!; done || lia. }
    assert (Hh1 : sb_holds tn1 []) by (split; [done |]; exists (sb_buf tn); split; [done | apply Hwf]).
    destruct (feed_payload cap w p tn1 out [] Hi Hwf1 eq_refl Hh1) as (tn2 & Hf & Hwf2 & Hst2 & Hh2 & Hv2).
    set (tn3 := set_st tn2 ST_SB_IAC).
    assert (Hwf3 : telnet_wf tn3) by (apply set_st_wf; auto).
    exists (set_st (process_sb tn3) ST_DATA).
    rewrite !app_nil_r, !feed_app.
    replace (foldl (telnet_step cap) (MkFeed tn w out) [IAC; SB]) with (MkFeed tn1 w out)
      by (cbn [foldl telnet_step]; by rewrite Hst).
    rewrite Hf. cbn [foldl telnet_step]. rewrite Hst2. cbn.
    split; [done |]. split; [apply set_st_wf; [by left | by apply process_sb_wf] |].
    split; [done |]. change (visible (set_st ?t _)) with (visible t).
    trans (view_step (visible tn3) (TnSub p)); [by apply process_sb_view |].
    change (visible tn3) with (visible tn2). by rewrite Hv2.
Qed.

Lemma feed_stream cap l : ∀ tn w out,
  Forall item_wf l → telnet_wf tn → st tn = ST_DATA → zlen out + zlen (clean l) <= cap →
  ∃ tn', foldl (telnet_step cap) (MkFeed tn w out) (stream l) =
      MkFeed tn' (w ++ replies l) (out ++ clean l) ∧
    telnet_wf tn' ∧ st tn' = ST_DATA ∧ visible tn' = foldl view_step (visible tn) l.
Proof.
  induction l as [|i l IH]; intros tn w out Hl Hwf Hst Hroom.
  - exists tn. by rewrite !app_nil_r.
  - inversion Hl; subst. change (clean (i :: l)) with (data_of i ++ clean l) in *.
    change (stream (i :: l)) with (tn_encode i ++ stream l).
    change (replies (i :: l)) with (reply_to i ++ replies l).
    destruct (feed_item cap i tn w out) as (tn1 & Hf & Hwf1 & Hst1 & Hv1); [done.. | zl |].
    destruct (IH tn1 (w ++ reply_to i) (out ++ data_of i)) as (tn2 & Hf2 & Hend);
      [done.. | zl |].
    exists tn2. rewrite feed_app, Hf, Hf2, <- !app_assoc. cbn [foldl]. by rewrite <- Hv1.
Qed.

(** ** Every byte string is safe *)

Lemma st_in_wf tn s :
  telnet_wf tn → ST_DATA <= s <= ST_SB_IAC → telnet_wf (set_st tn s).
Proof. unfold telnet_wf. cbn. tauto. Qed.

Lemma step_wf cap s b :
  in_u 8 b → telnet_wf (f_tn s) → telnet_wf (f_tn (telnet_step cap s b)).
Proof.
  destruct s as [tn w out]. cbn [f_tn telnet_step]. intros Hb Hwf.
  assert (Hs : ∀ s, ST_DATA <= s <= ST_SB_IAC → telnet_wf (set_st tn s)) by auto using st_in_wf.
  unfold ST_DATA, ST_SB_IAC, ST_SB, ST_IAC, ST_IAC_CMD in *.
  repeat case_match; cbn [f_tn]; try done; try (apply Hs; lia).
  - apply (st_in_wf (set_sb tn (sb_buf tn) 0)); [| unfold ST_DATA, ST_SB_IAC; lia].
    destruct Hwf as (?&?&?&?&?&?&?&?). unfold telnet_wf. cbn. split_and!; done || lia.
  - by apply sb_push_wf.
  - apply st_in_wf; [by apply process_sb_wf | unfold ST_DATA, ST_SB_IAC; lia].
  - apply st_in_wf; [by apply sb_push_wf | unfold ST_DATA, ST_SB_IAC; lia].
Qed.

(** Bytes the parser may still answer with before it reads anything more. *)
Definition pending (tn : TelnetState) : Z :=
  if st tn =? ST_IAC then 1 else if st tn =? ST_IAC_CMD then 2 else 0.

Lemma handle_iac_cmd_len w c o : zlen (handle_iac_cmd w c o) <= zlen w + 3.
Proof. unfold handle_iac_cmd, tn_send3. repeat case_match; zl. Qed.

Lemma sb_push_pending tn b : pending (sb_push tn b) = pending tn.
Proof. unfold pending. by destruct (sb_push_frame tn b) as (_ & -> & _). Qed.

Lemma step_reply cap s b :
  let s' := telnet_step cap s b in
  zlen (f_wire s') + pending (f_tn s') <= zlen (f_wire s) + pending (f_tn s) + 1.
Proof.
  destruct s as [tn w out]. cbv zeta. unfold telnet_step, pending. cbn [f_tn f_wire].
  pose proof (handle_iac_cmd_len w (cmd tn) b).
  repeat (case_match; cbn [f_tn f_wire st set_st set_sb set_cmd] in *); try lia;
    unfold ST_DATA, ST_IAC, ST_IAC_CMD, ST_SB, ST_SB_IAC in *; try lia.
  all: unfold sb_push in *; case_match; cbn in *; lia.
Qed.

(** ** Properties *)

(** C32. Whatever a peer sends as a well-formed sequence of telnet items (data
    bytes with 255 doubled, two-byte commands, option requests, escaped
    sub-negotiations), [telnet_feed] decodes it exactly: the clean output is
    the data, the replies are the answers to the option requests in order, the
    window size and terminal name are those of the items, and the parser is
    back in its data state. *)
Theorem telnet_feed_decodes_items tn w l out_cap :
  Forall item_wf l → telnet_wf tn → st tn = ST_DATA → zlen (clean l) <= out_cap →
  let r := telnet_feed tn w (stream l) out_cap in
  f_out r = clean l ∧ f_wire r = w ++ replies l ∧
  visible (f_tn r) = foldl view_step (visible tn) l ∧
  telnet_wf (f_tn r) ∧ st (f_tn r) = ST_DATA.
Proof.
  intros Hl Hwf Hst Hroom r.
  destruct (feed_stream out_cap l tn w [] Hl Hwf Hst) as (tn' & Hf & ? & ? & ?); [zl |].
  subst r. unfold telnet_feed. by rewrite Hf.
Qed.

(** Feeding the reads of a socket one after the other, each into its own buffer. *)
Fixpoint feed_reads (tn : TelnetState) (w : wire) (reads : list (list Z)) (cap : Z) : feed :=
  match reads with
  | [] => MkFeed tn w []
  | r :: reads =>
      let s := telnet_feed tn w r cap in
      let s' := feed_reads (f_tn s) (f_wire s) reads cap in
      MkFeed (f_tn s') (f_wire s') (f_out s ++ f_out s')
  end.

(** How the network splits the stream is invisible: feeding any sequence of
    reads, each no longer than the output buffer, gives the state, the replies
    and the clean bytes of feeding their concatenation at once. *)
Theorem telnet_feed_split_invariant tn w reads cap :
  Forall (λ r, zlen r <= cap) reads →
  feed_reads tn w reads cap = telnet_feed tn w (mjoin reads) (zlen (mjoin reads)).
Proof.
  intros H. revert tn w. induction H as [|r reads Hr H IH]; intros tn w; [done |].
  cbn [feed_reads]. rewrite IH. change (mjoin (r :: reads)) with (r ++ mjoin reads).
  unfold telnet_feed. rewrite feed_app.
  replace (foldl (telnet_step cap) (MkFeed tn w []) r)
    with (foldl (telnet_step (zlen (r ++ mjoin reads))) (MkFeed tn w []) r).
  2:{ rewrite (feed_prefix _ cap [] r tn w []) by zl. by destruct (foldl _ _ _). }
  pose proof (feed_out_le (zlen (r ++ mjoin reads)) r (MkFeed tn w [])) as Hle.
  destruct (foldl (telnet_step (zlen (r ++ mjoin reads))) (MkFeed tn w []) r) as [tn1 w1 out1].
  cbn [f_tn f_wire f_out] in *.
  rewrite <- (app_nil_r out1) at 2. by rewrite (feed_prefix _ (zlen (mjoin reads))) by zl.
Qed.

(** No input, well-formed or not, drives the parser out of its invariant
    (the sub-negotiation buffer and the terminal name stay inside their arrays
    and the name stays terminated), the clean output fits the caller's buffer,
    and from the data state the replies are never longer than the input. *)
Theorem telnet_feed_safe tn w inp out_cap :
  bytes_ok inp → telnet_wf tn → 0 <= out_cap →
  let r := telnet_feed tn w inp out_cap in
  telnet_wf (f_tn r) ∧ zlen (f_out r) <= out_cap ∧ zlen (f_out r) <= zlen inp ∧
  zlen (f_wire r) <= zlen w + pending tn + zlen inp.
Proof.
  intros Hin Hwf Hcap. unfold telnet_feed. cbv zeta.
  assert (∀ s, telnet_wf (f_tn s) → zlen (f_out s) <= out_cap →
    let r := foldl (telnet_step out_cap) s inp in
    telnet_wf (f_tn r) ∧ zlen (f_out r) <= out_cap ∧
    zlen (f_wire r) <= zlen (f_wire s) + pending (f_tn s) + zlen inp) as H.
  - induction Hin as [|b inp Hb Hin IH]; intros s Hs Ho; cbv zeta; cbn [foldl].
    + unfold pending. split_and!; [done | done | repeat case_match; zl].
    + pose proof (step_reply out_cap s b) as Hr. cbv zeta in Hr.
      destruct (IH (telnet_step out_cap s b)) as (? & ? & ?); [by apply step_wf | |].
      * destruct s as [tn' w' out]. cbn [telnet_step f_out] in *.
        assert (∀ x, zlen (put out_cap out x) <= out_cap).
        { intros x. unfold put. clear -Ho. destruct (Z.ltb_spec (zlen out) out_cap); zl. }
        repeat case_match; cbn [f_out]; done.
      * split_and!; [done | done | zl].
  - destruct (H (MkFeed tn w []) Hwf) as (? & ? & ?); [zl |].
    pose proof (feed_out_le out_cap inp (MkFeed tn w [])) as Hle. cbn [f_tn f_wire f_out] in *.
    split_and!; [done | done | zl | done].
Qed.

(** ** Witnesses *)

Definition telnet_start : TelnetState :=
  MkTelnet 80 24 ST_DATA 0 (replicate 128 0) 0 (replicate 64 0).

Lemma telnet_start_wf : telnet_wf telnet_start.
Proof.
  unfold telnet_wf. split_and!; try done.
  - by apply Forall_replicate; vm_compute; intuition congruence.
  - apply list_elem_of_here.
Qed.

Definition telnet_items : list tn_item :=
  [TnOption WILL TELOPT_NAWS; TnData 72; TnSub [TELOPT_NAWS; 0; 100; 0; 40];
   TnData 255; TnSub [TELOPT_TTYPE; TTYPE_IS; 65; 78; 83; 73]; TnCommand 241; TnOption DO 34].

Lemma telnet_feed_decodes_items_witness :
  let r := telnet_feed telnet_start [] (stream telnet_items) 512 in
  f_out r = [72; 255] ∧ f_wire r = [IAC; DO; TELOPT_NAWS; IAC; WONT; 34] ∧
  visible (f_tn r) = ((100, 40), [65; 78; 83; 73]).
Proof.
  destruct (telnet_feed_decodes_items telnet_start [] telnet_items 512) as (H1 & H2 & H3 & _).
  - repeat constructor; vm_compute; intuition congruence.
  - apply telnet_start_wf.
  - reflexivity.
  - vm_compute; discriminate.
  - cbv zeta. rewrite H1, H2, H3. vm_compute. auto.
Defined.

Lemma telnet_feed_split_invariant_witness :
  feed_reads telnet_start [] [[72; 255]; [251]; [31; 105]] 4 =
  telnet_feed telnet_start [] [72; 255; 251; 31; 105] 5.
Proof.
  apply (telnet_feed_split_invariant telnet_start [] [[72; 255]; [251]; [31; 105]] 4).
  repeat constructor; vm_compute; discriminate.
Defined.

Lemma telnet_feed_safe_witness :
  let r := telnet_feed telnet_start [] [255; 250; 24; 0; 255; 7; 255; 240; 33] 16 in
  telnet_wf (f_tn r) ∧ zlen (f_out r) <= 9.
Proof.
  destruct (telnet_feed_safe telnet_start [] [255; 250; 24; 0; 255; 7; 255; 240; 33] 16)
    as (H & _ & H' & _).
  - repeat constructor; vm_compute; intuition congruence.
  - apply telnet_start_wf.
  - lia.
  - split; [exact H | exact H'].
Defined.
