(* ===== verification/Acs.v ===== *)
(** Access-control strings (src/acs.c): the recursive-descent evaluator over the
    characters of the string, one definition per parsing function, with the
    whole table of conditions, and the flat checker of the standalone tools.
    [None] is C's undefined behaviour (a signed overflow in a ratio or a date)
    or, for the recursive functions, an exhausted fuel; [acs_allows_total]
    shows the latter never happens. *)

From S2P Require Import Prelude CLib Float.

#[local] Open Scope Z_scope.

(** ** What a condition looks at *)

(** include/bbs_db.h:35-94 (DbUser) *)
Record DbUser : Type := MkUser {
  id : Z;
  sex : Z;
  birth_date : cstr;
  level : Z;
  dsl : Z;
  flags : Z;
  ac_flags : Z;
  credits : Z;
  uploads : Z;
  downloads : Z;
  logged_on : Z;
  msg_post : Z;
  expires_at : cstr;
  dl_ratio_num : Z;
  dl_ratio_den : Z;
  post_ratio_num : Z;
  post_ratio_den : Z
}.

(** The two queries the evaluator makes; [db_user_subscription_get] is the
    subscription's type, when there is an active one. *)
Record AcsDb : Type := MkAcsDb {
  db_conf_is_member : Z → Z → bool;
  db_user_subscription_get : Z → option Z
}.

Record Session : Type := MkSession {
  user : DbUser;
  current_conf : Z;
  node_num : Z;
  time_left_min : Z;
  db : option AcsDb
}.

(** The clock: [time], [localtime] of it, and [mktime] of a date. *)
Record Clock : Type := MkClock {
  clk_now : Z;
  tm_year : Z;
  tm_mon : Z;
  tm_mday : Z;
  tm_hour : Z;
  tm_wday : Z;
  clk_mktime : Z → Z → Z → Z
}.

(** Signed [int] arithmetic: [None] on overflow. *)
Definition int_ok (z : Z) : option Z := if decide (in_s 32 z) then Some z else None.

(** include/bbs_flags.h:70-88 (ac_flag_from_char) *)
Definition ac_flag_from_char (c : Z) : Z :=
  if c =? ch "L" then Z.shiftl 1 0
  else if c =? ch "C" then Z.shiftl 1 1
  else if c =? ch "V" then Z.shiftl 1 2
  else if c =? ch "U" then Z.shiftl 1 3
  else if c =? ch "A" then Z.shiftl 1 4
  else if c =? ch "*" then Z.shiftl 1 5
  else if c =? ch "P" then Z.shiftl 1 6
  else if c =? ch "E" then Z.shiftl 1 7
  else if c =? ch "K" then Z.shiftl 1 8
  else if c =? ch "M" then Z.shiftl 1 9
  else if c =? ch "1" then Z.shiftl 1 10
  else if c =? ch "2" then Z.shiftl 1 11
  else if c =? ch "3" then Z.shiftl 1 12
  else if c =? ch "4" then Z.shiftl 1 13
  else 0.

(** [flags & (1u << (c - 'A'))] *)
Definition has_flag (flags c : Z) : bool :=
  negb (Z.land flags (Z.shiftl 1 (c - ch "A")) =? 0).

(** [flags & mask] *)
Definition has_mask (flags mask : Z) : bool := negb (Z.land flags mask =? 0).

Section acs.
Context (clk : Clock).

(** src/acs.c:53-67 (calc_age) *)
Definition calc_age (birth_date : cstr) : option Z :=
  if bool_decide (birth_date = []) then Some 0
  else match scan_ds [ch "-"; ch "-"] birth_date with
  | ([by_; bm; bd], _) =>
      let cy := tm_year clk + 1900 in
      let cm := tm_mon clk + 1 in
      let cd := tm_mday clk in
      age ← int_ok (cy - by_);
      if (cm <? bm) || ((cm =? bm) && (cd <? bd)) then int_ok (age - 1) else Some age
  | _ => Some 0
  end.

(** src/acs.c:69-82 (days_until_expiration) *)
Definition days_until_expiration (expires_at : cstr) : option Z :=
  if bool_decide (expires_at = []) then Some 9999
  else match scan_ds [ch "-"; ch "-"] expires_at with
  | ([y; m; d], _) =>
      y ← int_ok (y - 1900);
      m ← int_ok (m - 1);
      let diff := clk_mktime clk y m d - clk_now clk in
      int_ok (Z.quot diff 86400)
  | _ => Some 9999
  end.

(** The legacy comparisons [C>=N], [R>=N], [T>=N]: the operator of a token and
    the text of its number. *)
Definition is_op (c : Z) : bool := (c =? ch ">") || (c =? ch "<") || (c =? ch "=").

Definition op_number (tok : cstr) : bool * cstr :=
  let op2 := char_at tok 2 =? ch "=" in (op2, drop (if op2 then 3 else 2) tok).

Definition compare_op {A} (le lt eq : A → A → bool) (op1 : Z) (op2 : bool) (have need : A) : bool :=
  if (op1 =? ch ">") && op2 then le need have
  else if (op1 =? ch "<") && op2 then le have need
  else if op1 =? ch ">" then lt need have
  else if op1 =? ch "<" then lt have need
  else eq have need.

(** [s && p(s)] *)
Definition with_session (s : option Session) (p : Session → bool) : option bool :=
  Some (match s with Some s => p s | None => false end).

(** [if (!s) return false; ...] *)
Definition need_session (s : option Session) (p : Session → option bool) : option bool :=
  match s with Some s => p s | None => Some false end.

(** The listed flags of [ARABC], stopping at the first that fails. *)
Fixpoint all_ar (s : option Session) (l : cstr) : bool :=
  match l with
  | [] => true
  | c :: l =>
      if negb (isupper c) then false
      else match s with
           | Some s => has_flag (flags (user s)) c && all_ar (Some s) l
           | None => false
           end
  end.

(** src/acs.c:98-334 (eval_term) *)
Definition eval_atom (s : option Session) (tok : cstr) : option bool :=
  let t0 := char_at tok 0 in
  let t1 := char_at tok 1 in
  let t2 := char_at tok 2 in
  let num := atoi (drop 1 tok) in
  if (t0 =? ch "S") && isdigit t1 then with_session s (λ s, num <=? level (user s))
  else if (t0 =? ch "S") && (t1 =? ch "L") then
    with_session s (λ s, atoi (drop 2 tok) <=? level (user s))
  else if (t0 =? ch "L") && isdigit t1 then with_session s (λ s, num <=? level (user s))
  else if (t0 =? ch "D") && isdigit t1 then with_session s (λ s, num <=? dsl (user s))
  else if (t0 =? ch "F") && isupper t1 && (t2 =? 0) then
    with_session s (λ s, has_flag (flags (user s)) t1)
  else if (t0 =? ch "R") && (t2 =? 0) then
    let mask := ac_flag_from_char t1 in
    if mask =? 0 then Some false
    else with_session s (λ s, has_mask (ac_flags (user s)) mask)
  else if (t0 =? ch "A") && isdigit t1 then
    age ← match s with Some s => calc_age (birth_date (user s)) | None => Some 0 end;
    Some (num <=? age)
  else if (t0 =? ch "B") && isdigit t1 then Some true
  else if (t0 =? ch "C") && isdigit t1 then with_session s (λ s, num <=? logged_on (user s))
  else if (t0 =? ch "C") && isupper t1 && (t2 =? 0) then
    with_session s (λ s, current_conf s =? t1 - ch "A")
  else if (t0 =? ch "G") && ((t1 =? ch "M") || (t1 =? ch "F")) && (t2 =? 0) then
    with_session s (λ s, sex (user s) =? t1)
  else if (t0 =? ch "H") && isdigit t1 then Some (tm_hour clk =? num)
  else if (t0 =? ch "N") && isdigit t1 then with_session s (λ s, node_num s =? num)
  else if (t0 =? ch "P") && isdigit t1 then with_session s (λ s, num <=? credits (user s))
  else if (t0 =? ch "T") && isdigit t1 then with_session s (λ s, num <=? time_left_min s)
  else if (t0 =? ch "U") && isdigit t1 then with_session s (λ s, id (user s) =? num)
  else if (t0 =? ch "V") && (t1 =? 0) then
    need_session s (λ s,
      if bool_decide (expires_at (user s) = []) then Some true
      else d ← days_until_expiration (expires_at (user s)); Some (0 <? d))
  else if (t0 =? ch "W") && isdigit t1 then Some (tm_wday clk =? num)
  else if (t0 =? ch "X") && isdigit t1 then
    need_session s (λ s, d ← days_until_expiration (expires_at (user s)); Some (d <=? num))
  else if (t0 =? ch "Z") && (t1 =? 0) then
    need_session s (λ s,
      if post_ratio_den (user s) =? 0 then Some true
      else required ← int_ok (Z.quot (logged_on (user s)) (post_ratio_den (user s)));
           Some (required <=? msg_post (user s)))
  else if (t0 =? ch "P") && (t1 =? ch "C") && (t2 =? 0) then
    need_session s (λ s,
      if (post_ratio_num (user s) =? 0) || (post_ratio_den (user s) =? 0) then Some true
      else if logged_on (user s) =? 0 then Some true
      else have ← int_ok (msg_post (user s) * post_ratio_den (user s));
           need ← int_ok (logged_on (user s) * post_ratio_num (user s));
           Some (need <=? have))
  else if (t0 =? ch "D") && (t1 =? ch "R") && (t2 =? 0) then
    need_session s (λ s,
      if (dl_ratio_num (user s) =? 0) || (dl_ratio_den (user s) =? 0) then Some true
      else if downloads (user s) =? 0 then Some true
      else have ← int_ok (uploads (user s) * dl_ratio_den (user s));
           need ← int_ok (downloads (user s) * dl_ratio_num (user s));
           Some (need <=? have))
  else if (t0 =? ch "J") && isdigit t1 then
    with_session s (λ s, match db s with
      | Some d => db_conf_is_member d (id (user s)) num
      | None => false end)
  else if (t0 =? ch "E") && isdigit t1 then
    with_session s (λ s, match db s with
      | Some d => match db_user_subscription_get d (id (user s)) with
                  | None => false
                  | Some ty => if num =? 0 then true else ty =? num
                  end
      | None => false end)
  else if t0 =? ch "+" then
    if negb (isupper t1) then Some false
    else with_session s (λ s, has_flag (flags (user s)) t1)
  else if has_prefix (lit "AR") tok then Some (all_ar s (drop 2 tok))
  else if (t0 =? ch "C") && is_op t1 then
    let '(op2, n) := op_number tok in
    let have := match s with Some s => credits (user s) | None => 0 end in
    Some (compare_op Z.leb Z.ltb Z.eqb t1 op2 have (atoi n))
  else if (t0 =? ch "R") && is_op t1 then
    let '(op2, n) := op_number tok in
    let ratio := match s with
      | Some s => if 0 <? dl_ratio_den (user s)
                  then fdiv (f64_of_Z (dl_ratio_num (user s))) (f64_of_Z (dl_ratio_den (user s)))
                  else f64_of_Z 999
      | None => f64_of_Z 999 end in
    Some (compare_op fleb fltb feqb t1 op2 ratio (atof n))
  else if (t0 =? ch "T") && is_op t1 then
    let '(op2, n) := op_number tok in
    let have := match s with Some s => time_left_min s | None => 0 end in
    Some (compare_op Z.leb Z.ltb Z.eqb t1 op2 have (atoi n))
  else Some false.

(** ** The parser

    The parser's position is the rest of the string; every function returns the
    value and the position. *)

Definition tok_end (c : Z) : bool :=
  isspace c || (c =? ch "&") || (c =? ch "|") || (c =? ch ")").

(** The longest token at the front and the rest. *)
Fixpoint span_tok (p : cstr) : cstr * cstr :=
  match p with
  | [] => ([], [])
  | c :: r => if tok_end c then ([], p) else let '(t, e) := span_tok r in (c :: t, e)
  end.

(** [char tok[64]; snprintf(tok, sizeof(tok), "%.*s", len, start)], in capitals *)
Definition tok_buffer (t : cstr) : cstr := map toupper (take 63 t).

(** src/acs.c:84-98 (eval_term) *)
Fixpoint eval_term (fuel : nat) (s : option Session) (p : cstr) : option (bool * cstr) :=
  match fuel with
  | O => None
  | S fuel =>
      match skip_space p with
      | c :: r =>
          if c =? ch "!" then
            '(v, p) ← eval_term fuel s r; Some (negb v, p)
          else if c =? ch "(" then
            '(v, p) ← eval_expr fuel s r;
            let p := skip_space p in
            Some (v, match p with
                     | d :: p' => if d =? ch ")" then p' else p
                     | [] => p end)
          else
            let '(t, e) := span_tok (c :: r) in
            if bool_decide (t = []) then Some (false, e)
            else v ← eval_atom s (tok_buffer t); Some (v, e)
      | [] => Some (false, [])
      end
  end

(** src/acs.c:337-347 (eval_factor) *)
with eval_factor (fuel : nat) (s : option Session) (p : cstr) : option (bool * cstr) :=
  match fuel with
  | O => None
  | S fuel => '(lhs, p) ← eval_term fuel s p; factor_loop fuel s lhs p
  end

with factor_loop (fuel : nat) (s : option Session) (lhs : bool) (p : cstr) : option (bool * cstr) :=
  match fuel with
  | O => None
  | S fuel =>
      match skip_space p with
      | c :: r =>
          if c =? ch "&" then
            '(rhs, p) ← eval_term fuel s r; factor_loop fuel s (lhs && rhs) p
          else Some (lhs, c :: r)
      | [] => Some (lhs, [])
      end
  end

(** src/acs.c:349-359 (eval_expr) *)
with eval_expr (fuel : nat) (s : option Session) (p : cstr) : option (bool * cstr) :=
  match fuel with
  | O => None
  | S fuel => '(lhs, p) ← eval_factor fuel s p; expr_loop fuel s lhs p
  end

with expr_loop (fuel : nat) (s : option Session) (lhs : bool) (p : cstr) : option (bool * cstr) :=
  match fuel with
  | O => None
  | S fuel =>
      match skip_space p with
      | c :: r =>
          if c =? ch "|" then
            '(rhs, p) ← eval_factor fuel s r; expr_loop fuel s (lhs || rhs) p
          else Some (lhs, c :: r)
      | [] => Some (lhs, [])
      end
  end.

(** Enough fuel for a string. *)
Definition acs_fuel (p : cstr) : nat := 4 * length p + 3.

(** src/acs.c:361-365 (acs_allows) *)
Definition acs_allows (s : option Session) (acs : cstr) : option bool :=
  if bool_decide (acs = []) then Some true
  else fst <$> eval_expr (acs_fuel acs) s acs.

End acs.

(** ** The standalone checker *)

(** The token loop's copy: at most 63 characters, capitalised. *)
Fixpoint check_tok (n : nat) (p : cstr) : cstr * cstr :=
  match n, p with
  | S n, c :: r =>
      if tok_end c then ([], p) else let '(t, e) := check_tok n r in (toupper c :: t, e)
  | _, _ => ([], p)
  end.

Definition check_sep (c : Z) : bool := isspace c || (c =? ch "&") || (c =? ch "|").

Fixpoint skip_sep (p : cstr) : cstr :=
  match p with
  | c :: r => if check_sep c then skip_sep r else p
  | [] => []
  end.

(** One token's test: [true] lets the loop [continue]. *)
Definition check_atom (level ar_flags ac_flags : Z) (tok : cstr) : bool :=
  let t0 := char_at tok 0 in
  let t1 := char_at tok 1 in
  let t2 := char_at tok 2 in
  if (t0 =? ch "S") && isdigit t1 then atoi (drop 1 tok) <=? level
  else if (t0 =? ch "S") && (t1 =? ch "L") then atoi (drop 2 tok) <=? level
  else if (t0 =? ch "F") && isupper t1 && (t2 =? 0) then has_flag ar_flags t1
  else if (t0 =? ch "+") && isupper t1 then has_flag ar_flags t1
  else if (t0 =? ch "R") && (t2 =? 0) then
    let mask := ac_flag_from_char t1 in
    (mask =? 0) || has_mask ac_flags mask
  else true.

(** src/acs.c:369-419 (acs_check) *)
Fixpoint check_loop (fuel : nat) (level ar_flags ac_flags : Z) (p : cstr) : option bool :=
  match fuel with
  | O => None
  | S fuel =>
      match skip_sep p with
      | [] => Some true
      | p =>
          let '(tok, e) := check_tok 63 p in
          if bool_decide (tok = []) then Some true
          else if check_atom level ar_flags ac_flags tok
               then check_loop fuel level ar_flags ac_flags e
               else Some false
      end
  end.

(** src/acs.c:367-419 (acs_check) *)
Definition acs_check (acs : cstr) (level ar_flags ac_flags : Z) : option bool :=
  check_loop (S (length acs)) level ar_flags ac_flags acs.
