(* ===== verification/AcsSpec.v ===== *)
(** Correctness of the access-control evaluator: it always finishes, it
    implements the precedence [!] over [&] over [|] of its documentation on
    every printed expression, and granting a user more rights never revokes
    access granted by a negation-free string. The standalone checker is
    characterised as a conjunction of its tokens, and told apart from the
    evaluator. *)

From S2P Require Import Prelude CLib Float Acs.

#[local] Open Scope Z_scope.

(** ** Conditions are defined *)

(** The checked computations of the conditions of a session do not overflow. *)
Definition session_defined (clk : Clock) (s : Session) : Prop :=
  is_Some (calc_age clk (birth_date (user s))) ∧
  is_Some (days_until_expiration clk (expires_at (user s))) ∧
  in_s 32 (Z.quot (logged_on (user s)) (post_ratio_den (user s))) ∧
  in_s 32 (msg_post (user s) * post_ratio_den (user s)) ∧
  in_s 32 (logged_on (user s) * post_ratio_num (user s)) ∧
  in_s 32 (uploads (user s) * dl_ratio_den (user s)) ∧
  in_s 32 (downloads (user s) * dl_ratio_num (user s)).

Definition defined (clk : Clock) (s : option Session) : Prop :=
  match s with Some s => session_defined clk s | None => True end.

Lemma int_ok_some z : in_s 32 z → int_ok z = Some z.
Proof. intros. unfold int_ok. by rewrite decide_True by done. Qed.

Lemma eval_atom_total clk s tok : defined clk s → is_Some (eval_atom clk s tok).
Proof.
  intros Hs. unfold eval_atom, with_session, need_session.
  destruct s as [s |].
  - destruct Hs as ([age Ha] & [d Hd] & H1 & H2 & H3 & H4 & H5).
    rewrite Ha, Hd, !int_ok_some by done. cbn.
    repeat (case_match; try (eexists; reflexivity)).
  - cbn. repeat (case_match; try (eexists; reflexivity)).
Qed.

(** ** Positions only move forward *)

Lemma skip_space_le p : (length (skip_space p) <= length p)%nat.
Proof. induction p as [|c p IH]; cbn; [done |]. case_match; cbn; lia. Qed.

Lemma span_tok_le p t e : span_tok p = (t, e) → (length e <= length p)%nat.
Proof.
  revert t e. induction p as [|c p IH]; intros t e; cbn; [by intros [= <- <-] |].
  case_match; [by intros [= <- <-] |].
  destruct (span_tok p) as [t' e']. intros [= <- <-].
  specialize (IH _ _ eq_refl). lia.
Qed.

(** ** The evaluator finishes *)

Section total.
Context (clk : Clock) (s : option Session) (Hs : defined clk s).

(** What a parsing function returns from [p]: a value and a later position. *)
Definition finishes (p : cstr) (r : option (bool * cstr)) : Prop :=
  ∃ v e, r = Some (v, e) ∧ (length e <= length p)%nat.

Lemma finishes_some p v e : (length e <= length p)%nat → finishes p (Some (v, e)).
Proof. intros. by exists v, e. Qed.

Lemma finishes_bind p q r (f : bool * cstr → option (bool * cstr)) :
  finishes q r → (length q <= length p)%nat →
  (∀ v e, (length e <= length q)%nat → finishes p (f (v, e))) →
  finishes p (r ≫= f).
Proof. intros (v & e & -> & He) Hq Hf. cbn. apply Hf. lia. Qed.

(** Fuel is enough for a position with [n] characters left. *)
Definition total_at (n : nat) : Prop :=
  ∀ fuel p, (length p <= n)%nat →
    (4 * length p + 1 <= fuel → finishes p (eval_term clk fuel s p))%nat ∧
    (4 * length p + 1 <= fuel → ∀ v, finishes p (factor_loop clk fuel s v p))%nat ∧
    (4 * length p + 2 <= fuel → finishes p (eval_factor clk fuel s p))%nat ∧
    (4 * length p + 1 <= fuel → ∀ v, finishes p (expr_loop clk fuel s v p))%nat ∧
    (4 * length p + 3 <= fuel → finishes p (eval_expr clk fuel s p))%nat.

Lemma term_total n fuel p :
  (∀ m, (m < n)%nat → total_at m) → (length p <= n)%nat → (4 * length p + 1 <= fuel)%nat →
  finishes p (eval_term clk fuel s p).
Proof.
  intros IH Hp Hf. destruct fuel as [|fuel]; [lia |]. cbn [eval_term].
  pose proof (skip_space_le p) as Hsk.
  destruct (skip_space p) as [|c r] eqn:E; [apply finishes_some; cbn; lia |]. cbn in Hsk.
  repeat case_match.
  - eapply finishes_bind; [apply (IH (length r)); lia | lia |].
    intros v e He. apply finishes_some. lia.
  - eapply finishes_bind; [apply (IH (length r)); lia | lia |].
    intros v e He. pose proof (skip_space_le e).
    destruct (skip_space e) as [|d p']; [apply finishes_some; cbn; lia |].
    cbn in *. case_match; apply finishes_some; cbn; lia.
  - apply finishes_some. eapply span_tok_le in H1. cbn in H1. lia.
  - destruct (eval_atom_total clk s (tok_buffer l) Hs) as [b ->]. cbn.
    apply finishes_some. eapply span_tok_le in H1. cbn in H1. lia.
Qed.

Lemma loops_total n fuel p v :
  (∀ m, (m < n)%nat → total_at m) → (length p <= n)%nat → (4 * length p + 1 <= fuel)%nat →
  finishes p (factor_loop clk fuel s v p) ∧ finishes p (expr_loop clk fuel s v p).
Proof.
  intros IH Hp Hf. destruct fuel as [|fuel]; [lia |]. cbn [factor_loop expr_loop].
  pose proof (skip_space_le p) as Hsk.
  destruct (skip_space p) as [|c r] eqn:E; [split; apply finishes_some; cbn; lia |].
  cbn in Hsk. split; (case_match; [| apply finishes_some; cbn; lia]).
  - eapply finishes_bind; [apply (IH (length r)); lia | lia |].
    intros v' e He. destruct (IH (length r) ltac:(lia) fuel e He) as (_ & HL & _).
    destruct (HL ltac:(lia) (v && v')) as (v2 & e2 & -> & ?). apply finishes_some. lia.
  - eapply finishes_bind; [apply (IH (length r)); lia | lia |].
    intros v' e He. destruct (IH (length r) ltac:(lia) fuel e He) as (_ & _ & _ & HL & _).
    destruct (HL ltac:(lia) (v || v')) as (v2 & e2 & -> & ?). apply finishes_some. lia.
Qed.

Lemma all_total n : total_at n.
Proof.
  induction n as [n IH] using lt_wf_ind. intros fuel p Hp.
  assert (HF : ∀ fuel, (4 * length p + 2 <= fuel)%nat → finishes p (eval_factor clk fuel s p)).
  { intros [|f] Hf; [lia |]. cbn [eval_factor].
    eapply finishes_bind; [apply (term_total n); [done | done | lia] | lia |].
    intros v e He. destruct (loops_total n f e v IH) as [(v2 & e2 & -> & ?) _]; [lia | lia |].
    apply finishes_some. lia. }
  split; [intros; by apply (term_total n) |].
  split; [intros; by apply (loops_total n) |].
  split; [apply HF |].
  split; [intros; by apply (loops_total n) |].
  intros Hf. destruct fuel as [|f]; [lia |]. cbn [eval_expr].
  eapply finishes_bind; [apply HF; lia | lia |].
  intros v e He. destruct (loops_total n f e v IH) as [_ (v2 & e2 & -> & ?)]; [lia | lia |].
  apply finishes_some. lia.
Qed.

End total.

(** Evaluating an access-control string always finishes with a verdict:
    whatever the string (unbalanced parentheses, dangling operators, unknown
    conditions), the recursive descent returns within a fuel linear in its
    length, for every session whose ratio products and dates do not overflow
    an [int], and without a session. *)
Theorem acs_allows_total clk s acs :
  defined clk s → is_Some (acs_allows clk s acs).
Proof.
  intros Hs. unfold acs_allows. case_bool_decide; [by eexists |].
  destruct (all_total clk s Hs (length acs) (acs_fuel acs) acs ltac:(lia)) as (_ & _ & _ & _ & H').
  destruct (H' ltac:(unfold acs_fuel; lia)) as (v & e & -> & _). by eexists.
Qed.

(** ** Fuel is irrelevant to the result *)

Section fuel.
Context (clk : Clock) (s : option Session).

Definition fuel_mono (n : nat) : Prop :=
  ∀ m p r, m = S n →
    (eval_term clk n s p = Some r → eval_term clk m s p = Some r) ∧
    (∀ v, factor_loop clk n s v p = Some r → factor_loop clk m s v p = Some r) ∧
    (eval_factor clk n s p = Some r → eval_factor clk m s p = Some r) ∧
    (∀ v, expr_loop clk n s v p = Some r → expr_loop clk m s v p = Some r) ∧
    (eval_expr clk n s p = Some r → eval_expr clk m s p = Some r).

(** One call of the function at hand, by the induction hypothesis. *)
Ltac mono_call IH Hm :=
  match goal with
  | H : (_ ≫= _) = Some _ |- _ =>
      apply bind_Some in H as ([? ?] & ?Hcall & H);
      apply (IH _ _ _ Hm) in Hcall; rewrite Hcall; cbn [mbind option_bind]
  end.

Lemma fuel_mono_all n : fuel_mono n.
Proof.
  induction n as [|n IH]; [intros m p r _; by split_and! |].
  intros m p r Hm. destruct m as [|m]; [lia |]. injection Hm as Hm.
  split_and!; [| intros v | | intros v |];
    (cbn [eval_term factor_loop eval_factor expr_loop eval_expr]; intros H).
  - destruct (skip_space p) as [|c q]; [done |].
    destruct (c =? ch "!"); [| destruct (c =? ch "("); [| done]]; by mono_call IH Hm.
  - destruct (skip_space p) as [|c q]; [done |]. destruct (c =? ch "&"); [| done].
    mono_call IH Hm. by apply (IH _ _ _ Hm).
  - mono_call IH Hm. by apply (IH _ _ _ Hm).
  - destruct (skip_space p) as [|c q]; [done |]. destruct (c =? ch "|"); [| done].
    mono_call IH Hm. by apply (IH _ _ _ Hm).
  - mono_call IH Hm. by apply (IH _ _ _ Hm).
Qed.

Definition Term p r := ∃ n, eval_term clk n s p = Some r.
Definition FLoop v p r := ∃ n, factor_loop clk n s v p = Some r.
Definition Factor p r := ∃ n, eval_factor clk n s p = Some r.
Definition ELoop v p r := ∃ n, expr_loop clk n s v p = Some r.
Definition Expr p r := ∃ n, eval_expr clk n s p = Some r.

Lemma more_fuel {A} (f : nat → option A) r n m :
  (∀ n, f n = Some r → f (S n) = Some r) → f n = Some r → (n <= m)%nat → f m = Some r.
Proof. intros Hs H. induction 1; auto. Qed.

Lemma term_more p r n m : eval_term clk n s p = Some r → (n <= m)%nat → eval_term clk m s p = Some r.
Proof. apply (more_fuel (λ n, eval_term clk n s p)). intros k H. by apply (fuel_mono_all k _ _ _ eq_refl). Qed.
Lemma floop_more v p r n m : factor_loop clk n s v p = Some r → (n <= m)%nat → factor_loop clk m s v p = Some r.
Proof. apply (more_fuel (λ n, factor_loop clk n s v p)). intros k H. by apply (fuel_mono_all k _ _ _ eq_refl). Qed.
Lemma factor_more p r n m : eval_factor clk n s p = Some r → (n <= m)%nat → eval_factor clk m s p = Some r.
Proof. apply (more_fuel (λ n, eval_factor clk n s p)). intros k H. by apply (fuel_mono_all k _ _ _ eq_refl). Qed.
Lemma eloop_more v p r n m : expr_loop clk n s v p = Some r → (n <= m)%nat → expr_loop clk m s v p = Some r.
Proof. apply (more_fuel (λ n, expr_loop clk n s v p)). intros k H. by apply (fuel_mono_all k _ _ _ eq_refl). Qed.
Lemma expr_more p r n m : eval_expr clk n s p = Some r → (n <= m)%nat → eval_expr clk m s p = Some r.
Proof. apply (more_fuel (λ n, eval_expr clk n s p)). intros k H. by apply (fuel_mono_all k _ _ _ eq_refl). Qed.

(** ** The grammar's rules *)

Lemma Term_not p q v e : skip_space p = ch "!" :: q → Term q (v, e) → Term p (negb v, e).
Proof. intros Hp [n Hn]. exists (S n). cbn. rewrite Hp. cbn. by rewrite Hn. Qed.

Lemma Term_group p q v e e' :
  skip_space p = ch "(" :: q → Expr q (v, e) → skip_space e = ch ")" :: e' → Term p (v, e').
Proof. intros Hp [n Hn] He. exists (S n). cbn. rewrite Hp. cbn. rewrite Hn. cbn. by rewrite He. Qed.

Lemma Factor_intro p v q r : Term p (v, q) → FLoop v q r → Factor p r.
Proof.
  intros [n Hn] [m Hm]. exists (S (n + m)). cbn.
  rewrite (term_more _ _ _ (n + m) Hn) by lia. cbn. eapply floop_more; [done | lia].
Qed.

Lemma FLoop_and v p q v' e r :
  skip_space p = ch "&" :: q → Term q (v', e) → FLoop (v && v') e r → FLoop v p r.
Proof.
  intros Hp [n Hn] [m Hm]. exists (S (n + m)). cbn. rewrite Hp. cbn.
  rewrite (term_more _ _ _ (n + m) Hn) by lia. cbn. eapply floop_more; [done | lia].
Qed.

Lemma Expr_intro p v q r : Factor p (v, q) → ELoop v q r → Expr p r.
Proof.
  intros [n Hn] [m Hm]. exists (S (n + m)). cbn.
  rewrite (factor_more _ _ _ (n + m) Hn) by lia. cbn. eapply eloop_more; [done | lia].
Qed.

Lemma ELoop_or v p q v' e r :
  skip_space p = ch "|" :: q → Factor q (v', e) → ELoop (v || v') e r → ELoop v p r.
Proof.
  intros Hp [n Hn] [m Hm]. exists (S (n + m)). cbn. rewrite Hp. cbn.
  rewrite (factor_more _ _ _ (n + m) Hn) by lia. cbn. eapply eloop_more; [done | lia].
Qed.

(** A loop stops at the end and at any other character. *)
Definition not_next (c : Z) (p : cstr) : Prop :=
  match skip_space p with d :: _ => d ≠ c | [] => True end.

Lemma FLoop_stop v p : not_next (ch "&") p → FLoop v p (v, skip_space p).
Proof.
  intros Hp. exists 1%nat. cbn. unfold not_next in Hp. destruct (skip_space p); [done |].
  apply Z.eqb_neq in Hp. by rewrite Hp.
Qed.

Lemma ELoop_stop v p : not_next (ch "|") p → ELoop v p (v, skip_space p).
Proof.
  intros Hp. exists 1%nat. cbn. unfold not_next in Hp. destruct (skip_space p); [done |].
  apply Z.eqb_neq in Hp. by rewrite Hp.
Qed.

End fuel.

(** ** Expressions and how they are written *)

Inductive expr : Type :=
  | Atom (tok : cstr)
  | Not (e : expr)
  | And (a b : expr)
  | Or (a b : expr).

(** A condition's text: no space, operator or closing parenthesis in it, and
    not taken for a negation or a group. *)
Definition atom_ok (t : cstr) : Prop :=
  Forall (λ c, tok_end c = false) t ∧
  match t with c :: _ => c ≠ ch "!" ∧ c ≠ ch "(" | [] => False end.

Fixpoint expr_ok (e : expr) : Prop :=
  match e with
  | Atom t => atom_ok t
  | Not e => expr_ok e
  | And a b | Or a b => expr_ok a ∧ expr_ok b
  end.

(** The three levels of the grammar, with the white space [sp] around every
    operator and parenthesis; parentheses only where the precedence needs them. *)
Inductive prec : Type := PExpr | PFactor | PTerm.

Section show.
Context (sp : cstr).

Definition paren (t : cstr) : cstr := sp ++ [ch "("] ++ t ++ sp ++ [ch ")"].

Fixpoint show (l : prec) (e : expr) : cstr :=
  match e with
  | Atom t => sp ++ t
  | Not e => sp ++ [ch "!"] ++ show PTerm e
  | And a b =>
      let t := show PFactor a ++ sp ++ [ch "&"] ++ show PTerm b in
      match l with PTerm => paren t | _ => t end
  | Or a b =>
      let t := show PExpr a ++ sp ++ [ch "|"] ++ show PFactor b in
      match l with PExpr => t | _ => paren t end
  end.
End show.

(** What an expression means: [!] negates, [&] and [|] are the connectives. *)
Fixpoint denote (clk : Clock) (s : option Session) (e : expr) : option bool :=
  match e with
  | Atom t => eval_atom clk s (tok_buffer t)
  | Not e => v ← denote clk s e; Some (negb v)
  | And a b => v ← denote clk s a; w ← denote clk s b; Some (v && w)
  | Or a b => v ← denote clk s a; w ← denote clk s b; Some (v || w)
  end.

(** ** The parser implements the precedence *)

Section grammar.
Context (clk : Clock) (s : option Session) (sp : cstr).
Context (Hsp : Forall (λ c, isspace c = true) sp).

Lemma skip_space_sp c p : isspace c = false → skip_space (sp ++ c :: p) = c :: p.
Proof.
  intros Hc. induction sp as [|x l IH]; cbn; [by rewrite Hc |].
  inversion Hsp as [|? ? Hx Hl]; subst. by rewrite Hx, IH.
Qed.

Lemma span_tok_atom t rest :
  Forall (λ c, tok_end c = false) t →
  match rest with c :: _ => tok_end c = true | [] => True end →
  span_tok (t ++ rest) = (t, rest).
Proof.
  intros Ht Hr. induction Ht as [|c t Hc Ht IH]; cbn.
  - destruct rest as [|c r]; [done |]. cbn. by rewrite Hr.
  - by rewrite Hc, IH.
Qed.

(** What may follow a term. *)
Definition closed (rest : cstr) : Prop :=
  match rest with c :: _ => tok_end c = true | [] => True end.

Lemma closed_sp c rest : tok_end c = true → closed (sp ++ c :: rest).
Proof.
  intros Hc. destruct Hsp as [|x l Hx _]; [done |]. cbn.
  unfold tok_end. by rewrite Hx.
Qed.

Lemma Term_atom t rest v :
  atom_ok t → closed rest → eval_atom clk s (tok_buffer t) = Some v →
  Term clk s (sp ++ t ++ rest) (v, rest).
Proof.
  intros [Hall Hhd] Hrest Hv. destruct t as [|c t]; [done |]. destruct Hhd as [Hn Hg].
  exists 1%nat. cbn [eval_term]. inversion Hall; subst.
  assert (Hsc : isspace c = false).
  { unfold tok_end in *. by destruct (isspace c). }
  change ((c :: t) ++ rest) with (c :: (t ++ rest)).
  rewrite skip_space_sp by done.
  apply Z.eqb_neq in Hn, Hg. rewrite Hn, Hg.
  change (c :: t ++ rest) with ((c :: t) ++ rest). rewrite span_tok_atom by done.
  rewrite bool_decide_eq_false_2 by done. by rewrite Hv.
Qed.

(** The three levels at once: a term is read whole; a factor and an expression
    are read up to the loop that continues them. *)
Definition reads (e : expr) : Prop :=
  ∀ v, denote clk s e = Some v →
    (∀ rest, closed rest → Term clk s (show sp PTerm e ++ rest) (v, rest)) ∧
    (∀ rest r, closed rest → FLoop clk s v rest r → Factor clk s (show sp PFactor e ++ rest) r) ∧
    (∀ rest r, closed rest → not_next (ch "&") rest →
       ELoop clk s v rest r → Expr clk s (show sp PExpr e ++ rest) r).

Lemma skip_space_idem p : skip_space (skip_space p) = skip_space p.
Proof.
  induction p as [|c p IH]; [done |]. cbn. destruct (isspace c) eqn:E; [done |].
  cbn. by rewrite E.
Qed.

(** Skipping space before a loop changes nothing. *)
Lemma ELoop_skip v p r : ELoop clk s v p r → ELoop clk s v (skip_space p) r.
Proof. intros [[|n] H]; [done |]. exists (S n). cbn in *. by rewrite skip_space_idem. Qed.

Lemma factor_of_term e v :
  (∀ rest, closed rest → Term clk s (show sp PTerm e ++ rest) (v, rest)) →
  ∀ rest r, closed rest → FLoop clk s v rest r → Factor clk s (show sp PTerm e ++ rest) r.
Proof. intros HT rest r Hc HL. eapply Factor_intro; [by apply HT | done]. Qed.

Lemma expr_of_factor t v :
  (∀ rest r, closed rest → FLoop clk s v rest r → Factor clk s (t ++ rest) r) →
  ∀ rest r, closed rest → not_next (ch "&") rest →
    ELoop clk s v rest r → Expr clk s (t ++ rest) r.
Proof.
  intros HF rest r Hc Hn HL. eapply Expr_intro; [apply HF; [done | by apply FLoop_stop] |].
  by apply ELoop_skip.
Qed.

(** A parenthesised expression is a term. *)
Lemma Term_paren t v rest :
  (∀ rest r, closed rest → not_next (ch "&") rest →
     ELoop clk s v rest r → Expr clk s (t ++ rest) r) →
  Term clk s (paren sp t ++ rest) (v, rest).
Proof.
  intros HE. unfold paren. rewrite <- !app_assoc.
  eapply Term_group; [by apply skip_space_sp | |].
  - apply HE; [by apply closed_sp | |].
    + unfold not_next. cbn [app]. by rewrite skip_space_sp.
    + apply ELoop_stop. unfold not_next. cbn [app]. by rewrite skip_space_sp.
  - rewrite skip_space_idem. by apply skip_space_sp.
Qed.

Lemma reads_all e : expr_ok e → reads e.
Proof.
  induction e as [t | e IH | a IHa b IHb | a IHa b IHb]; intros Hok v Hv.
  - assert (HT : ∀ rest, closed rest → Term clk s (show sp PTerm (Atom t) ++ rest) (v, rest)).
    { intros rest Hr. cbn [show]. rewrite <- app_assoc. by apply Term_atom. }
    split; [done |]. pose proof (factor_of_term (Atom t) v HT) as HF.
    split; [done |]. by apply expr_of_factor.
  - cbn [denote] in Hv. apply bind_Some in Hv as (w & Hw & [= <-]).
    assert (HT : ∀ rest, closed rest → Term clk s (show sp PTerm (Not e) ++ rest) (negb w, rest)).
    { intros rest Hr. cbn [show]. rewrite <- !app_assoc.
      eapply Term_not; [by apply skip_space_sp |]. by apply (IH Hok w Hw). }
    split; [done |]. pose proof (factor_of_term (Not e) (negb w) HT) as HF.
    split; [done |]. by apply expr_of_factor.
  - cbn [denote] in Hv. apply bind_Some in Hv as (x & Hx & Hv).
    apply bind_Some in Hv as (y & Hy & [= <-]). destruct Hok as [Ha Hb].
    destruct (IHa Ha x Hx) as (_ & HFa & _). destruct (IHb Hb y Hy) as (HTb & _ & _).
    assert (HF : ∀ rest r, closed rest → FLoop clk s (x && y) rest r →
      Factor clk s (show sp PFactor (And a b) ++ rest) r).
    { intros rest r Hr HL. cbn [show]. rewrite <- !app_assoc.
      apply HFa; [by apply closed_sp |].
      eapply FLoop_and; [by apply skip_space_sp | by apply HTb | done]. }
    pose proof (expr_of_factor _ _ HF) as HE.
    split; [| by split]. intros rest Hr. by apply (Term_paren (show sp PFactor (And a b))).
  - cbn [denote] in Hv. apply bind_Some in Hv as (x & Hx & Hv).
    apply bind_Some in Hv as (y & Hy & [= <-]). destruct Hok as [Ha Hb].
    destruct (IHa Ha x Hx) as (_ & _ & HEa). destruct (IHb Hb y Hy) as (_ & HFb & _).
    assert (HE : ∀ rest r, closed rest → not_next (ch "&") rest →
      ELoop clk s (x || y) rest r → Expr clk s (show sp PExpr (Or a b) ++ rest) r).
    { intros rest r Hr Hn HL. cbn [show]. rewrite <- !app_assoc.
      apply HEa; [by apply closed_sp | unfold not_next; cbn [app]; by rewrite skip_space_sp |].
      eapply ELoop_or; [by apply skip_space_sp | |].
      - apply HFb; [done |]. by apply FLoop_stop.
      - by apply ELoop_skip. }
    assert (HT : ∀ rest, closed rest → Term clk s (show sp PTerm (Or a b) ++ rest) (x || y, rest))
      by (intros rest Hr; by apply (Term_paren (show sp PExpr (Or a b)))).
    split; [done |]. split; [| done].
    intros rest r Hr HL. eapply Factor_intro; [by apply HT | done].
Qed.
End grammar.

Lemma skip_space_all sp : Forall (λ c, isspace c = true) sp → skip_space sp = [].
Proof. induction 1 as [|c l Hc _ IH]; cbn; [done |]. by rewrite Hc. Qed.

Lemma show_nonempty sp l e rest : expr_ok e → show sp l e ++ rest ≠ [].
Proof.
  intros He H. apply (f_equal length) in H. rewrite length_app in H.
  destruct e as [[|c t] | | |], l; try (by destruct He as [_ []]); cbn in H;
    unfold paren in H; rewrite ?length_app in H; cbn in H; rewrite ?length_app in H; cbn in H; lia.
Qed.

Lemma denote_defined clk s e : defined clk s → is_Some (denote clk s e).
Proof.
  intros Hs. induction e as [t | e [v IH] | a [v IHa] b [w IHb] | a [v IHa] b [w IHb]];
    cbn [denote]; [by apply eval_atom_total | rewrite IH | rewrite IHa, IHb ..]; by eexists.
Qed.

Lemma acs_allows_reads clk s sp e v :
  defined clk s → Forall (λ c, isspace c = true) sp → expr_ok e → denote clk s e = Some v →
  acs_allows clk s (show sp PExpr e ++ sp) = Some v.
Proof.
  intros Hs Hsp He Hv.
  destruct (reads_all clk s sp Hsp e He v Hv) as (_ & _ & HE).
  pose proof (skip_space_all sp Hsp) as Hsk.
  destruct (HE sp (v, skip_space sp)) as [n Hn].
  - destruct Hsp as [|c l Hc _]; [done |]. cbn. unfold tok_end. by rewrite Hc.
  - unfold not_next. by rewrite Hsk.
  - apply ELoop_stop. unfold not_next. by rewrite Hsk.
  - unfold acs_allows. rewrite bool_decide_eq_false_2 by by apply show_nonempty.
    set (str := show sp PExpr e ++ sp) in *.
    destruct (all_total clk s Hs (length str) (acs_fuel str) str ltac:(lia)) as (_ & _ & _ & _ & H').
    destruct (H' ltac:(unfold acs_fuel; lia)) as (v' & e' & E & _). rewrite E. cbn.
    apply (expr_more _ _ _ _ _ (n + acs_fuel str)) in E; [| lia].
    apply (expr_more _ _ _ _ _ (n + acs_fuel str)) in Hn; [| lia]. congruence.
Qed.

(** [acs_allows] implements its documented grammar: for every expression
    over conditions, negation, conjunction and disjunction, written with
    parentheses only where the precedence [!] over [&] over [|] requires them
    and with any white space around the operators and parentheses, the verdict
    is the expression's truth value under its conditions. *)
Theorem acs_allows_denotes clk s sp e :
  defined clk s → Forall (λ c, isspace c = true) sp → expr_ok e →
  ∃ v, denote clk s e = Some v ∧ acs_allows clk s (show sp PExpr e ++ sp) = Some v.
Proof.
  intros Hs Hsp He. destruct (denote_defined clk s e Hs) as [v Hv].
  exists v. split; [done |]. by apply acs_allows_reads.
Qed.

(** ** More rights never revoke access *)

(** [s'] is [s] with at least its levels and access-rights flags. *)
Definition rights_le (s s' : Session) : Prop :=
  level (user s) <= level (user s') ∧ dsl (user s) <= dsl (user s') ∧
  Z.land (flags (user s)) (flags (user s')) = flags (user s) ∧
  s' = MkSession
    (MkUser (id (user s)) (sex (user s)) (birth_date (user s))
       (level (user s')) (dsl (user s')) (flags (user s')) (Acs.ac_flags (user s))
       (credits (user s)) (uploads (user s)) (downloads (user s)) (logged_on (user s))
       (msg_post (user s)) (expires_at (user s)) (dl_ratio_num (user s))
       (dl_ratio_den (user s)) (post_ratio_num (user s)) (post_ratio_den (user s)))
    (current_conf s) (node_num s) (time_left_min s) (db s).

Lemma has_flag_mono f f' c :
  Z.land f f' = f → has_flag f c = true → has_flag f' c = true.
Proof.
  unfold has_flag. rewrite !negb_true_iff, !Z.eqb_neq. intros Hf Hn H. apply Hn.
  rewrite <- Hf, <- Z.land_assoc, H. apply Z.land_0_r.
Qed.

Lemma all_ar_mono s s' l :
  Z.land (flags (user s)) (flags (user s')) = flags (user s) →
  all_ar (Some s) l = true → all_ar (Some s') l = true.
Proof.
  intros Hf. induction l as [|c l IH]; cbn; [done |].
  case_match; [done |]. rewrite !andb_true_iff. intros [H1 H2].
  eauto using has_flag_mono.
Qed.

(** Verdicts ordered by implication, under definedness. *)
Definition verdict_le (a b : option bool) : Prop :=
  ∀ v, a = Some v → ∃ v', b = Some v' ∧ (v = true → v' = true).

Lemma verdict_le_refl a : verdict_le a a.
Proof. intros v H. by exists v. Qed.

Lemma with_session_mono s s' p :
  (p s = true → p s' = true) → verdict_le (with_session (Some s) p) (with_session (Some s') p).
Proof. intros H v [= <-]. by exists (p s'). Qed.

Lemma eval_atom_mono clk s s' tok :
  rights_le s s' → verdict_le (eval_atom clk (Some s) tok) (eval_atom clk (Some s') tok).
Proof.
  intros (Hl & Hd & Hf & Hs'). unfold eval_atom.
  repeat match goal with
  | |- verdict_le (if ?b then _ else _) (if ?b then _ else _) => destruct b
  end;
  try (apply with_session_mono; intros; first [lia | by eapply has_flag_mono]);
  try apply verdict_le_refl; try (rewrite Hs'; apply verdict_le_refl).
  intros v [= <-]. exists (all_ar (Some s') (drop 2 tok)). eauto using all_ar_mono.
Qed.

(** No negation in a string. *)
Definition no_not (p : cstr) : Prop := Forall (λ c, c ≠ ch "!") p.

Lemma no_not_skip p : no_not p → no_not (skip_space p).
Proof.
  induction 1 as [|c p Hc Hp IH]; cbn; [constructor |]. case_match; [done | by constructor].
Qed.

Lemma no_not_span p t e : span_tok p = (t, e) → no_not p → no_not e.
Proof.
  revert t e. induction p as [|c p IH]; intros t e; cbn; [by intros [= <- <-] |].
  case_match; [by intros [= <- <-] |].
  destruct (span_tok p) as [t' e'] eqn:E. intros [= <- <-] Hcp. inversion Hcp; subst. eauto.
Qed.

Section monotone.
Context (clk : Clock) (s s' : Session) (Hle : rights_le s s').

(** A parsing function run with more rights reaches the same position with a
    verdict at least as good. *)
Definition mono_result (r r' : option (bool * cstr)) : Prop :=
  ∀ v e, r = Some (v, e) → no_not e ∧ ∃ v', r' = Some (v', e) ∧ (v = true → v' = true).

Lemma mono_some v v' e :
  no_not e → (v = true → v' = true) → mono_result (Some (v, e)) (Some (v', e)).
Proof. intros He Hv x y [= <- <-]. split; [done |]. by exists v'. Qed.

Lemma mono_bind r r' f f' :
  mono_result r r' →
  (∀ v v' e, no_not e → (v = true → v' = true) → mono_result (f (v, e)) (f' (v', e))) →
  mono_result (r ≫= f) (r' ≫= f').
Proof.
  intros Hr Hf v e H. apply bind_Some in H as ([w q] & Hq & H).
  destruct (Hr _ _ Hq) as (Hn & w' & -> & Hw). cbn. by apply (Hf w w' q).
Qed.

Lemma mono_all fuel : ∀ p, no_not p →
  mono_result (eval_term clk fuel (Some s) p) (eval_term clk fuel (Some s') p) ∧
  (∀ v v' : bool, (v = true → v' = true) →
    mono_result (factor_loop clk fuel (Some s) v p) (factor_loop clk fuel (Some s') v' p)) ∧
  mono_result (eval_factor clk fuel (Some s) p) (eval_factor clk fuel (Some s') p) ∧
  (∀ v v' : bool, (v = true → v' = true) →
    mono_result (expr_loop clk fuel (Some s) v p) (expr_loop clk fuel (Some s') v' p)) ∧
  mono_result (eval_expr clk fuel (Some s) p) (eval_expr clk fuel (Some s') p).
Proof.
  induction fuel as [|fuel IH]; intros p Hp; [by split_and! |].
  pose proof (no_not_skip p Hp) as Hsk.
  split_and!; cbn [eval_term factor_loop eval_factor expr_loop eval_expr].
  - destruct (skip_space p) as [|c r]; [apply mono_some; [constructor | done] |].
    inversion Hsk as [|? ? Hc Hr]; subst. apply Z.eqb_neq in Hc. rewrite Hc.
    destruct (c =? ch "(").
    + apply mono_bind; [by apply IH |]. intros v v' e He Hv. apply mono_some; [| done].
      apply no_not_skip in He. destruct He as [|d q Hd Hq]; [constructor |].
      case_match; [done | by constructor].
    + destruct (span_tok (c :: r)) as [t e] eqn:E.
      assert (He : no_not e) by by eapply no_not_span.
      case_bool_decide; [by apply mono_some |].
      intros v q H'. apply bind_Some in H' as (w & Hw & [= <- <-]).
      split; [done |]. destruct (eval_atom_mono clk s s' _ Hle w Hw) as (w' & -> & Hww).
      by exists w'.
  - intros v v' Hv. destruct (skip_space p) as [|c r]; [apply mono_some; [constructor | done] |].
    inversion Hsk; subst. case_match; [| by apply mono_some].
    apply mono_bind; [by apply IH |]. intros w w' e He Hw. apply (IH e He).
    rewrite !andb_true_iff. tauto.
  - apply mono_bind; [by apply IH |]. intros w w' e He Hw. by apply (IH e He).
  - intros v v' Hv. destruct (skip_space p) as [|c r]; [apply mono_some; [constructor | done] |].
    inversion Hsk; subst. case_match; [| by apply mono_some].
    apply mono_bind; [by apply IH |]. intros w w' e He Hw. apply (IH e He).
    rewrite !orb_true_iff. tauto.
  - apply mono_bind; [by apply IH |]. intros w w' e He Hw. by apply (IH e He).
Qed.
End monotone.

(** Raising a user's rights never takes access away: if a string without
    [!] admits a session, it admits the same session with a higher security
    level, a higher download level and more access-rights flags. *)
Theorem acs_allows_monotone clk s s' acs :
  rights_le s s' → no_not acs →
  acs_allows clk (Some s) acs = Some true → acs_allows clk (Some s') acs = Some true.
Proof.
  intros Hle Hn. unfold acs_allows. case_bool_decide; [done |]. intros H'.
  apply fmap_Some in H' as ([v e] & E & Hv). cbn in Hv. subst v.
  destruct (mono_all clk s s' Hle (acs_fuel acs) acs Hn) as (_ & _ & _ & _ & HE).
  destruct (HE _ _ E) as (_ & v' & -> & Hv'). cbn. by rewrite Hv'.
Qed.

(** ** The standalone checker is a conjunction *)

Definition token_ok (t : cstr) : Prop :=
  t ≠ [] ∧ (length t <= 63)%nat ∧ Forall (λ c, tok_end c = false) t.

(** Tokens each preceded by separators: spaces, [&] and [|]. *)
Fixpoint seps_ok (first : bool) (l : list (cstr * cstr)) : Prop :=
  match l with
  | [] => True
  | (sep, t) :: l =>
      Forall (λ c, check_sep c = true) sep ∧ (first = false → sep ≠ []) ∧
      token_ok t ∧ seps_ok false l
  end.

Definition spell (l : list (cstr * cstr)) (tail : cstr) : cstr :=
  mjoin ((λ x, x.1 ++ x.2) <$> l) ++ tail.

Lemma skip_sep_app sep p : Forall (λ c, check_sep c = true) sep → skip_sep (sep ++ p) = skip_sep p.
Proof. induction 1 as [|c l Hc _ IH]; cbn; [done |]. by rewrite Hc. Qed.

Lemma check_sep_end c : check_sep c = true → tok_end c = true.
Proof. unfold check_sep, tok_end. intros ->. done. Qed.

Lemma check_tok_app n t p :
  (length t <= n)%nat → Forall (λ c, tok_end c = false) t →
  match p with c :: _ => tok_end c = true | [] => True end →
  check_tok n (t ++ p) = (map toupper t, p).
Proof.
  intros Hn Ht Hp. revert n Hn. induction Ht as [|c t Hc Ht IH]; intros n Hn; cbn.
  - destruct n, p as [|c p]; try done. cbn. by rewrite Hp.
  - cbn in Hn. destruct n as [|n]; [lia |]. cbn. by rewrite Hc, IH by lia.
Qed.

Lemma spell_closed l tail :
  seps_ok false l → Forall (λ c, check_sep c = true) tail →
  match spell l tail with c :: _ => tok_end c = true | [] => True end.
Proof.
  intros Hl Ht. destruct l as [|[sep t] l].
  - unfold spell. cbn. destruct Ht as [|c l Hc _]; [done | by apply check_sep_end].
  - destruct Hl as (Hs & Hne & _). unfold spell. cbn.
    destruct Hs as [|c sep Hc _]; [by destruct (Hne eq_refl) |]. cbn. by apply check_sep_end.
Qed.

Lemma check_loop_spell lv ar ac tail l : ∀ fuel first,
  Forall (λ c, check_sep c = true) tail → seps_ok first l →
  (length (spell l tail) < fuel)%nat →
  check_loop fuel lv ar ac (spell l tail) =
    Some (forallb (λ x, check_atom lv ar ac (map toupper x.2)) l).
Proof.
  induction l as [|[sep t] l IH]; intros fuel first Ht Hl Hf.
  - destruct fuel as [|fuel]; [lia |]. unfold spell. cbn.
    rewrite <- (app_nil_r tail). by rewrite skip_sep_app.
  - destruct Hl as (Hs & _ & (Hne & Hlen & Hall) & Hl).
    destruct fuel as [|fuel]; [lia |].
    assert (E : spell ((sep, t) :: l) tail = sep ++ t ++ spell l tail).
    { unfold spell. cbn. by rewrite <- !app_assoc. }
    rewrite E in *. rewrite !length_app in Hf. cbn [check_loop]. rewrite skip_sep_app by done.
    assert (Hsk : skip_sep (t ++ spell l tail) = t ++ spell l tail).
    { destruct Hall as [|c t Hc _]; [done |]. cbn. unfold tok_end in Hc. unfold check_sep.
      by destruct (isspace c || (c =? ch "&") || (c =? ch "|")). }
    rewrite Hsk. pose proof (check_tok_app 63 t (spell l tail) Hlen Hall) as Htok.
    destruct t as [|c t]; [done |]. cbn [app] in *.
    rewrite Htok by by apply spell_closed.
    cbn [map]. rewrite bool_decide_eq_false_2 by done.
    cbn [forallb snd map]. destruct (check_atom lv ar ac (toupper c :: map toupper t)); [| done].
    apply (IH fuel false Ht Hl). cbn in Hf. lia.
Qed.

(** [acs_check] is the conjunction of its tokens and nothing else: on any
    list of conditions separated by spaces, [&] or [|] the verdict is that every
    condition holds, so [|] does not disjoin. *)
Theorem acs_check_conjunction lv ar ac l tail :
  seps_ok true l → Forall (λ c, check_sep c = true) tail →
  acs_check (spell l tail) lv ar ac =
    Some (forallb (λ x, check_atom lv ar ac (map toupper x.2)) l).
Proof. intros Hl Ht. apply (check_loop_spell lv ar ac tail l _ true); [done | done | lia]. Qed.

(** ** Witnesses and counterexamples *)

Definition sample_user : DbUser :=
  MkUser 7 (ch "M") (lit "1980-05-17") 20 20 (Z.shiftl 1 0) 0 10 4 8 100 60 (lit "2030-01-01")
    1 3 1 2.
Definition sample_session : Session := MkSession sample_user 0 1 30 None.
Definition sample_clock : Clock :=
  MkClock 1750000000 125 5 15 14 0 (λ y m d, ((y - 70) * 365 + m * 30 + d) * 86400).

Lemma sample_defined : session_defined sample_clock sample_session.
Proof. unfold session_defined. split_and!; vm_compute; first [by eexists | intuition congruence]. Qed.

Lemma acs_allows_total_witness :
  is_Some (acs_allows sample_clock (Some sample_session) (lit "((S10&|!)X5|(")).
Proof. apply acs_allows_total. exact sample_defined. Defined.

Definition sample_expr : expr :=
  Or (And (Atom (lit "S50")) (Atom (lit "FA"))) (Not (Or (Atom (lit "GF")) (Atom (lit "V9")))).

Lemma acs_allows_denotes_witness :
  acs_allows sample_clock (Some sample_session) (lit " S50 & FA | ! ( GF | V9 ) ") = Some true.
Proof.
  destruct (acs_allows_denotes sample_clock (Some sample_session) (lit " ") sample_expr)
    as (v & Hv & H).
  - exact sample_defined.
  - repeat constructor.
  - cbn. unfold atom_ok. split_and!; repeat constructor; vm_compute; discriminate.
  - vm_compute in Hv. injection Hv as <-. exact H.
Defined.

Definition promoted_session : Session :=
  MkSession
    (MkUser 7 (ch "M") (lit "1980-05-17") 60 20 3 0 10 4 8 100 60 (lit "2030-01-01") 1 3 1 2)
    0 1 30 None.

Lemma acs_allows_monotone_witness :
  acs_allows sample_clock (Some promoted_session) (lit "S10&FA|CB") = Some true.
Proof.
  apply (acs_allows_monotone sample_clock sample_session promoted_session).
  - unfold rights_le. split_and!; vm_compute; congruence.
  - repeat constructor; discriminate.
  - vm_compute. reflexivity.
Defined.

Lemma acs_check_conjunction_witness :
  acs_check (lit "s100|fa & +B") 50 1 0 = Some false.
Proof.
  apply (acs_check_conjunction 50 1 0
    [([], lit "s100"); (lit "|", lit "fa"); (lit " & ", lit "+B")] []).
  - cbn. unfold token_ok. split_and!; repeat constructor; try discriminate; cbn; lia.
  - constructor.
Defined.

(** The standalone checker admits what the evaluator refuses: a group and a
    negation are unknown tokens to it, so a string asking for level 255 in
    parentheses, or for the absence of a flag the user has, passes for every
    user; and it refuses what the evaluator admits, a satisfied disjunction. *)
Theorem acs_check_disagrees :
  (∀ lv ar ac, acs_check (lit "(S255)") lv ar ac = Some true ∧
               acs_check (lit "!FA") lv ar ac = Some true) ∧
  acs_allows sample_clock (Some sample_session) (lit "(S255)") = Some false ∧
  acs_allows sample_clock (Some sample_session) (lit "!FA") = Some false ∧
  acs_check (lit "S255|FA") (level sample_user) (flags sample_user) 0 = Some false ∧
  acs_allows sample_clock (Some sample_session) (lit "S255|FA") = Some true.
Proof. split_and!; [intros lv ar ac; split; reflexivity | vm_compute; reflexivity ..]. Qed.
