(* ===== verification/AcsTable.v ===== *)
(** The table of access-control conditions: each documented condition as a
    constructor with its text and its meaning, and the theorem that the
    evaluator of src/acs.c gives every text its meaning, in every expression.
    The meanings are stated on the user's record, the session and the clock:
    ages as birthdays that have come, expirations as seconds left, flags as
    bits. *)

From S2P Require Import Prelude CLib Float Acs AcsSpec.

#[local] Open Scope Z_scope.

(** ** Conditions *)

(** Quantities compared with a number. *)
Inductive quantity : Type :=
  | QLevel | QLegacyLevel | QShortLevel | QDsl | QCalls | QCredits | QTime
  | QHour | QNode | QUser | QWeekday.

Inductive relop : Type := RGe | RLe | RGt | RLt | REq.

Inductive cond : Type :=
  | CNumber (q : quantity) (n : Z)           (* S50, SL50, L50, D10, ... *)
  | CBaud (n : Z)                            (* B96 *)
  | CFlag (c : Z)                            (* FA *)
  | CPlus (c : Z)                            (* +A *)
  | CFlags (l : cstr)                        (* ARABC *)
  | CRestriction (c : Z)                     (* RL *)
  | CConference (c : Z)                      (* CB *)
  | CSex (c : Z)                             (* GM, GF *)
  | CMember (n : Z)                          (* J3 *)
  | CSubscribed (n : Z)                      (* E2 *)
  | CPostCall                                (* PC *)
  | CDownload                                (* DR *)
  | COldCredits (r : relop) (n : Z)          (* C>=100 *)
  | COldTime (r : relop) (n : Z)             (* T>=10 *)
  | CAge (n : Z)                             (* A18 *)
  | CValid                                   (* V *)
  | CExpires (n : Z)                         (* X30 *)
  | CPosts                                   (* Z *)
  | COldRatio (r : relop) (t : cstr).        (* R>=0.5 *)

Definition quantity_text (q : quantity) : cstr :=
  match q with
  | QLevel => lit "S" | QLegacyLevel => lit "SL" | QShortLevel => lit "L" | QDsl => lit "D"
  | QCalls => lit "C" | QCredits => lit "P" | QTime => lit "T" | QHour => lit "H"
  | QNode => lit "N" | QUser => lit "U" | QWeekday => lit "W"
  end.

Definition relop_text (r : relop) : cstr :=
  match r with
  | RGe => lit ">=" | RLe => lit "<=" | RGt => lit ">" | RLt => lit "<" | REq => lit "="
  end.

Definition cond_text (c : cond) : cstr :=
  match c with
  | CNumber q n => quantity_text q ++ fmt_d n
  | CBaud n => lit "B" ++ fmt_d n
  | CFlag c => lit "F" ++ [c]
  | CPlus c => lit "+" ++ [c]
  | CFlags l => lit "AR" ++ l
  | CRestriction c => lit "R" ++ [c]
  | CConference c => lit "C" ++ [c]
  | CSex c => lit "G" ++ [c]
  | CMember n => lit "J" ++ fmt_d n
  | CSubscribed n => lit "E" ++ fmt_d n
  | CPostCall => lit "PC"
  | CDownload => lit "DR"
  | COldCredits r n => lit "C" ++ relop_text r ++ fmt_d n
  | COldTime r n => lit "T" ++ relop_text r ++ fmt_d n
  | CAge n => lit "A" ++ fmt_d n
  | CValid => lit "V"
  | CExpires n => lit "X" ++ fmt_d n
  | CPosts => lit "Z"
  | COldRatio r t => lit "R" ++ relop_text r ++ t
  end.

(** The restriction flags and their bits, include/bbs_flags.h. *)
Definition restrictions : list (Z * Z) :=
  [(ch "L", 0); (ch "C", 1); (ch "V", 2); (ch "U", 3); (ch "A", 4); (ch "*", 5); (ch "P", 6);
   (ch "E", 7); (ch "K", 8); (ch "M", 9); (ch "1", 10); (ch "2", 11); (ch "3", 12); (ch "4", 13)].

Definition letter (c : Z) : Prop := 65 <= c <= 90.
Definition number (n : Z) : Prop := 0 <= n < 2 ^ 31.

(** A decimal number of at most 30 characters. *)
Definition decimal (t : cstr) : Prop :=
  ∃ d r, t = d :: r ∧ isdigit d = true ∧ Forall (λ c, isdigit c = true ∨ c = ch ".") r ∧ zlen t <= 30.

Definition cond_ok (c : cond) : Prop :=
  match c with
  | CNumber _ n | CBaud n | CMember n | CSubscribed n | COldCredits _ n | COldTime _ n | CAge n
  | CExpires n => number n
  | CFlag c | CPlus c | CConference c => letter c
  | CFlags l => Forall letter l ∧ zlen l <= 26
  | CRestriction c => ∃ b, (c, b) ∈ restrictions
  | CSex c => c = ch "M" ∨ c = ch "F"
  | CPostCall | CDownload | CValid | CPosts => True
  | COldRatio _ t => decimal t
  end.

(** ** Their meaning *)

Section meaning.
Context (clk : Clock) (s : Session).

Definition quantity_holds (q : quantity) (n : Z) : Prop :=
  match q with
  | QLevel | QLegacyLevel | QShortLevel => level (user s) >= n
  | QDsl => dsl (user s) >= n
  | QCalls => logged_on (user s) >= n
  | QCredits => credits (user s) >= n
  | QTime => time_left_min s >= n
  | QHour => tm_hour clk = n
  | QNode => node_num s = n
  | QUser => id (user s) = n
  | QWeekday => tm_wday clk = n
  end.

Definition relop_holds (r : relop) (have need : Z) : Prop :=
  match r with
  | RGe => have >= need | RLe => have <= need | RGt => have > need | RLt => have < need
  | REq => have = need
  end.

(** The access-rights flag of a letter. *)
Definition has_ar (c : Z) : Prop := Z.testbit (flags (user s)) (c - 65) = true.

(** [a / b >= num / den], with no ratio asked when one of them is 0. *)
Definition ratio_met (a b num den : Z) : Prop :=
  num = 0 ∨ den = 0 ∨ b = 0 ∨ b * num <= a * den.

(** The date that a field holds, YYYY-MM-DD. *)
Definition dated (t : cstr) (y m d : Z) : Prop :=
  t ≠ [] ∧ ∃ r, scan_ds [ch "-"; ch "-"] t = ([y; m; d], r).

(** The birthday [m]-[d] of the year [y] has come. *)
Definition has_come (y m d : Z) : Prop :=
  let cy := tm_year clk + 1900 in
  let cm := tm_mon clk + 1 in
  y < cy ∨ y = cy ∧ (m < cm ∨ m = cm ∧ d <= tm_mday clk).

(** The seconds until the date (at midnight) of the expiration. *)
Definition seconds_left (y m d : Z) : Z := clk_mktime clk (y - 1900) (m - 1) d - clk_now clk.

Definition relop_holds_f (r : relop) (have need : f64) : bool :=
  match r with
  | RGe => fleb need have | RLe => fleb have need | RGt => fltb need have | RLt => fltb have need
  | REq => feqb have need
  end.

(** The download ratio of the user's level, as doubles; 999 without one. *)
Definition old_ratio : f64 :=
  if 0 <? dl_ratio_den (user s)
  then fdiv (f64_of_Z (dl_ratio_num (user s))) (f64_of_Z (dl_ratio_den (user s)))
  else f64_of_Z 999.

Definition cond_holds (c : cond) : Prop :=
  match c with
  | CNumber q n => quantity_holds q n
  | CBaud _ => True
  | CFlag c | CPlus c => has_ar c
  | CFlags l => Forall has_ar l
  | CRestriction c => ∃ b, (c, b) ∈ restrictions ∧ Z.testbit (ac_flags (user s)) b = true
  | CConference c => current_conf s = c - 65
  | CSex c => sex (user s) = c
  | CMember n => ∃ d, db s = Some d ∧ db_conf_is_member d (id (user s)) n = true
  | CSubscribed n =>
      ∃ d ty, db s = Some d ∧ db_user_subscription_get d (id (user s)) = Some ty ∧ (n = 0 ∨ ty = n)
  | CPostCall =>
      ratio_met (msg_post (user s)) (logged_on (user s))
        (post_ratio_num (user s)) (post_ratio_den (user s))
  | CDownload =>
      ratio_met (uploads (user s)) (downloads (user s))
        (dl_ratio_num (user s)) (dl_ratio_den (user s))
  | COldCredits r n => relop_holds r (credits (user s)) n
  | COldTime r n => relop_holds r (time_left_min s) n
  | CAge n =>
      (∃ y m d, dated (birth_date (user s)) y m d ∧ has_come (y + n) m d) ∨
      (¬ (∃ y m d, dated (birth_date (user s)) y m d) ∧ n = 0)
  | CValid =>
      ∀ y m d, dated (expires_at (user s)) y m d → 86400 <= seconds_left y m d
  | CExpires n =>
      (∃ y m d, dated (expires_at (user s)) y m d ∧ seconds_left y m d < (n + 1) * 86400) ∨
      (¬ (∃ y m d, dated (expires_at (user s)) y m d) ∧ 9999 <= n)
  | CPosts =>
      post_ratio_den (user s) = 0 ∨
      Z.quot (logged_on (user s)) (post_ratio_den (user s)) <= msg_post (user s)
  | COldRatio r t => relop_holds_f r old_ratio (atof t) = true
  end.
End meaning.

(** ** Reading a condition *)

Lemma fmt_d_nonneg n : 0 <= n → fmt_d n = dec_of_nonneg n.
Proof. intros. unfold fmt_d. by destruct (Z.ltb_spec n 0); [lia |]. Qed.

Lemma dec_digits_short fuel : ∀ z k, (length (dec_digits fuel z k) <= fuel + length k)%nat.
Proof.
  induction fuel as [|fuel IH]; intros z k; cbn [dec_digits]; [lia |].
  case_match; cbn; [lia |]. etrans; [apply IH |]. cbn. lia.
Qed.

Lemma number_text n :
  number n → ∃ d r, fmt_d n = d :: r ∧ isdigit d = true ∧ Forall (λ c, isdigit c = true) (d :: r) ∧
    (length (d :: r) <= 34)%nat ∧ atoi (d :: r) = n.
Proof.
  intros [H0 H1]. pose proof (fmt_d_nonneg n H0) as E.
  destruct (dec_of_nonneg_digits n H0) as [Hall Hne].
  assert (Hlen : (length (dec_of_nonneg n) <= 34)%nat).
  { unfold dec_of_nonneg. etrans; [apply dec_digits_short |]. cbn [length].
    assert (Z.log2_up (n + 1) <= 31) by (apply Z.log2_up_le_pow2; lia). lia. }
  assert (Hat : atoi (dec_of_nonneg n) = n).
  { unfold atoi. rewrite <- E, <- (app_nil_r (fmt_d n)).
    rewrite strtoll_fmt_d; [cbn [fst]; apply swrap_small | | done]; zred; lia. }
  destruct (dec_of_nonneg n) as [|d r] eqn:Ed; [done |].
  exists d, r. split_and!; [congruence | by inversion Hall | done | done | done].
Qed.

Lemma tok_buffer_plain t :
  (length t <= 63)%nat → Forall (λ c, islower c = false) t → tok_buffer t = t.
Proof.
  intros Hl Hall. unfold tok_buffer. rewrite take_ge by lia.
  induction Hall as [|c t Hc _ IH]; [done |]. cbn in *. unfold toupper at 1. rewrite Hc.
  by rewrite IH by lia.
Qed.

(** Facts that decide the tests of the table on a digit and on a letter. *)
Lemma digit_facts d :
  isdigit d = true → isupper d = false ∧ islower d = false ∧ is_op d = false ∧ 48 <= d <= 57.
Proof. unfold isdigit, isupper, islower, is_op. chars. intros. split_and!; lia. Qed.

Lemma letter_facts c :
  letter c → isdigit c = false ∧ isupper c = true ∧ islower c = false ∧ is_op c = false.
Proof. unfold letter, isdigit, isupper, islower, is_op. chars. intros. split_and!; lia. Qed.

(** A flag of a 26-bit set is a bit. *)
Lemma has_mask_bit fl b : 0 <= b → has_mask fl (Z.shiftl 1 b) = Z.testbit fl b.
Proof.
  intros Hb. unfold has_mask. rewrite Z.shiftl_1_l. destruct (Z.testbit fl b) eqn:E.
  - destruct (Z.eqb_spec (Z.land fl (2 ^ b)) 0) as [H0 |]; [| done].
    apply (f_equal (λ z, Z.testbit z b)) in H0.
    rewrite Z.land_spec, E, Z.pow2_bits_true, Z.bits_0 in H0 by done. done.
  - replace (Z.land fl (2 ^ b)) with 0; [done |]. symmetry. apply Z.bits_inj'. intros i Hi.
    rewrite Z.land_spec, Z.bits_0. destruct (Z.eq_dec i b) as [-> |]; [by rewrite E |].
    by rewrite Z.pow2_bits_false, andb_false_r by congruence.
Qed.

Lemma has_flag_bit fl c : letter c → has_flag fl c = Z.testbit fl (c - 65).
Proof. intros Hc. apply (has_mask_bit fl (c - 65)). unfold letter in Hc. lia. Qed.

(** Runs the table on a text whose first characters are known. *)
Ltac table_tests :=
  chars; unfold char_at; simpl;
  repeat match goal with
  | H : isdigit ?d = _ |- context [isdigit ?d] => rewrite H
  | H : isupper ?d = _ |- context [isupper ?d] => rewrite H
  | H : is_op ?d = _ |- context [is_op ?d] => rewrite H
  | |- context [?a =? ?b] =>
      first [replace (a =? b) with true by lia | replace (a =? b) with false by lia]
  end; simpl.

Section table.
Context (clk : Clock) (s : Session).

(** The evaluator reads [t] as a condition that means [P]. *)
Definition reads_as (t : cstr) (P : Prop) : Prop :=
  ∃ v, eval_atom clk (Some s) t = Some v ∧ (v = true ↔ P).

Lemma reads_as_intro t v P : eval_atom clk (Some s) t = Some v → (v = true ↔ P) → reads_as t P.
Proof. intros H1 H2. by exists v. Qed.

Lemma quantity_reads q d r n :
  isdigit d = true → atoi (d :: r) = n → reads_as (quantity_text q ++ d :: r) (quantity_holds clk s q n).
Proof.
  intros Hd <-. destruct (digit_facts d Hd) as (Hu & Hl & Ho & Hr).
  destruct q; (eapply reads_as_intro; [unfold eval_atom, with_session; table_tests; reflexivity |]);
    rewrite ?drop_0; cbn; lia.
Qed.

Lemma baud_reads d r : isdigit d = true → reads_as (lit "B" ++ d :: r) True.
Proof.
  intros Hd. eapply reads_as_intro; [unfold eval_atom, with_session; table_tests; reflexivity | done].
Qed.

Lemma flag_reads c : letter c → reads_as (lit "F" ++ [c]) (has_ar s c).
Proof.
  intros Hc. destruct (letter_facts c Hc) as (Hd & Hu & Hl & Ho).
  eapply reads_as_intro; [unfold eval_atom, with_session; table_tests; reflexivity |].
  by rewrite has_flag_bit.
Qed.

Lemma plus_reads c : letter c → reads_as (lit "+" ++ [c]) (has_ar s c).
Proof.
  intros Hc. destruct (letter_facts c Hc) as (Hd & Hu & Hl & Ho).
  eapply reads_as_intro; [unfold eval_atom, with_session; table_tests; reflexivity |].
  by rewrite has_flag_bit.
Qed.

Lemma all_ar_bits l : Forall letter l → all_ar (Some s) l = true ↔ Forall (has_ar s) l.
Proof.
  induction 1 as [|c l Hc _ IH]; cbn [all_ar]; [done |].
  destruct (letter_facts c Hc) as (_ & Hu & _). rewrite Hu. cbn [negb].
  rewrite has_flag_bit, andb_true_iff, IH, Forall_cons by done. done.
Qed.

Lemma flags_read l : Forall letter l → reads_as (lit "AR" ++ l) (Forall (has_ar s) l).
Proof.
  intros Hl. eapply reads_as_intro; [| by apply all_ar_bits].
  unfold eval_atom, with_session. table_tests. reflexivity.
Qed.

Lemma conference_reads c : letter c → reads_as (lit "C" ++ [c]) (current_conf s = c - 65).
Proof.
  intros Hc. destruct (letter_facts c Hc) as (Hd & Hu & Hl & Ho).
  eapply reads_as_intro; [unfold eval_atom, with_session; table_tests; reflexivity |]. lia.
Qed.

Lemma sex_reads c : c = ch "M" ∨ c = ch "F" → reads_as (lit "G" ++ [c]) (sex (user s) = c).
Proof.
  intros [-> | ->]; (eapply reads_as_intro;
    [unfold eval_atom, with_session; table_tests; reflexivity |]); chars; lia.
Qed.

(** The table of restriction flags is the one of [ac_flag_from_char], no flag
    listed twice. *)
Lemma restriction_mask c b :
  (c, b) ∈ restrictions → ac_flag_from_char c = Z.shiftl 1 b ∧ 0 <= b ∧ islower c = false.
Proof.
  intros H. assert (Hall : Forall (λ '(c, b),
    ac_flag_from_char c = Z.shiftl 1 b ∧ 0 <= b ∧ islower c = false) restrictions)
    by (repeat constructor; vm_compute; congruence).
  by apply (proj1 (Forall_forall _ _) Hall (c, b)).
Qed.

Lemma restriction_fun c b b' : (c, b) ∈ restrictions → (c, b') ∈ restrictions → b = b'.
Proof.
  intros H H'. destruct (restriction_mask c b H) as (E & Hb & _).
  destruct (restriction_mask c b' H') as (E' & Hb' & _).
  rewrite E, !Z.shiftl_1_l in E'. by apply (Z.pow_inj_r 2) in E'.
Qed.

Lemma restriction_reads c b :
  (c, b) ∈ restrictions →
  reads_as (lit "R" ++ [c])
    (∃ b, (c, b) ∈ restrictions ∧ Z.testbit (ac_flags (user s)) b = true).
Proof.
  intros Hin. destruct (restriction_mask c b Hin) as (E & Hb & _).
  assert (Hnz : (Z.shiftl 1 b =? 0) = false).
  { rewrite Z.shiftl_1_l. pose proof (Z.pow_pos_nonneg 2 b). lia. }
  eapply reads_as_intro.
  { unfold eval_atom, with_session. chars. unfold char_at. simpl. rewrite E, Hnz. reflexivity. }
  rewrite has_mask_bit by done. split; [by exists b |].
  intros (b' & Hin' & Hbit). by rewrite (restriction_fun c b b').
Qed.

Lemma member_reads d r n :
  isdigit d = true → atoi (d :: r) = n →
  reads_as (lit "J" ++ d :: r) (cond_holds clk s (CMember n)).
Proof.
  intros Hd <-. destruct (digit_facts d Hd) as (Hu & Hl & Ho & Hr).
  eapply reads_as_intro; [unfold eval_atom, with_session; table_tests; reflexivity |]. cbn.
  destruct (db s) as [x |]; [| by split; [| intros (? & ? & _)]].
  split; [by exists x | by intros (? & [= <-] & ?)].
Qed.

Lemma subscribed_reads d r n :
  isdigit d = true → atoi (d :: r) = n →
  reads_as (lit "E" ++ d :: r) (cond_holds clk s (CSubscribed n)).
Proof.
  intros Hd <-. destruct (digit_facts d Hd) as (Hu & Hl & Ho & Hr).
  eapply reads_as_intro; [unfold eval_atom, with_session; table_tests; reflexivity |]. cbn.
  destruct (db s) as [x |]; [| by split; [| intros (? & ? & ? & _)]].
  destruct (db_user_subscription_get x (id (user s))) as [ty |] eqn:E.
  - split.
    + intros H. exists x, ty. split_and!; [done | done |]. revert H. case_match; lia.
    + intros (? & ? & [= <-] & E' & H). rewrite E in E'. injection E' as <-. case_match; lia.
  - split; [done |]. intros (? & ? & [= <-] & E' & _). congruence.
Qed.

(** What the two ratios need to be computed without overflow. *)
Context (Hdef : session_defined clk s).

Lemma post_call_reads : reads_as (lit "PC") (cond_holds clk s CPostCall).
Proof.
  destruct Hdef as (_ & _ & _ & H1 & H2 & _).
  eapply reads_as_intro.
  { unfold eval_atom, with_session, need_session. table_tests.
    rewrite !int_ok_some by done. cbn.
    instantiate (1 := (post_ratio_num (user s) =? 0) || (post_ratio_den (user s) =? 0)
      || (logged_on (user s) =? 0)
      || (logged_on (user s) * post_ratio_num (user s) <=? msg_post (user s) * post_ratio_den (user s))).
    repeat (case_match; cbn in *; try congruence). }
  cbn. unfold ratio_met. lia.
Qed.

Lemma download_reads : reads_as (lit "DR") (cond_holds clk s CDownload).
Proof.
  destruct Hdef as (_ & _ & _ & _ & _ & H1 & H2).
  eapply reads_as_intro.
  { unfold eval_atom, with_session, need_session. table_tests.
    rewrite !int_ok_some by done. cbn.
    instantiate (1 := (dl_ratio_num (user s) =? 0) || (dl_ratio_den (user s) =? 0)
      || (downloads (user s) =? 0)
      || (downloads (user s) * dl_ratio_num (user s) <=? uploads (user s) * dl_ratio_den (user s))).
    repeat (case_match; cbn in *; try congruence). }
  cbn. unfold ratio_met. lia.
Qed.

Lemma old_credits_reads o d r n :
  isdigit d = true → atoi (d :: r) = n →
  reads_as (lit "C" ++ relop_text o ++ d :: r) (relop_holds o (credits (user s)) n).
Proof.
  intros Hd <-. destruct (digit_facts d Hd) as (Hu & Hl & Ho & Hr).
  destruct o; (eapply reads_as_intro;
    [unfold eval_atom, with_session, op_number, compare_op; table_tests; rewrite ?drop_0;
      reflexivity |]); cbn; lia.
Qed.

Lemma old_time_reads o d r n :
  isdigit d = true → atoi (d :: r) = n →
  reads_as (lit "T" ++ relop_text o ++ d :: r) (relop_holds o (time_left_min s) n).
Proof.
  intros Hd <-. destruct (digit_facts d Hd) as (Hu & Hl & Ho & Hr).
  destruct o; (eapply reads_as_intro;
    [unfold eval_atom, with_session, op_number, compare_op; table_tests; rewrite ?drop_0;
      reflexivity |]); cbn; lia.
Qed.

(** Dates are read or they are not. *)
Lemma dated_dec t : (∃ y m d, dated t y m d) ∨ ¬ (∃ y m d, dated t y m d).
Proof.
  destruct (decide (t = [])) as [-> | Ht]; [right; by intros (? & ? & ? & ? & _) |].
  destruct (scan_ds [ch "-"; ch "-"] t) as [[|y [|m [|d [|]]]] r] eqn:E.
  all: try (left; exists y, m, d; split; [done | by exists r]).
  all: right; intros (? & ? & ? & _ & ? & E'); congruence.
Qed.

Lemma dated_fun t y m d y' m' d' : dated t y m d → dated t y' m' d' → y = y' ∧ m = m' ∧ d = d'.
Proof. intros (_ & r & E) (_ & r' & E'). rewrite E in E'. by injection E' as -> -> ->. Qed.

Lemma int_ok_value z x : int_ok z = Some x → x = z.
Proof. unfold int_ok. by case_decide; intros [= <-]. Qed.

(** The age of someone who is born on a date: the last birthday that has come. *)
Lemma age_dated y m d age n :
  dated (birth_date (user s)) y m d → calc_age clk (birth_date (user s)) = Some age →
  n <= age ↔ has_come clk (y + n) m d.
Proof.
  intros (Hne & r & E) H. unfold calc_age in H. rewrite bool_decide_eq_false_2, E in H by done. cbv zeta in H.
  destruct (int_ok (tm_year clk + 1900 - y)) as [a |] eqn:Ea; [| done]. apply int_ok_value in Ea. cbn in H.
  unfold has_come. destruct ((tm_mon clk + 1 <? m) || ((tm_mon clk + 1 =? m) && (tm_mday clk <? d))) eqn:Eb.
  - apply int_ok_value in H. lia.
  - injection H as <-. lia.
Qed.

Lemma age_undated age :
  ¬ (∃ y m d, dated (birth_date (user s)) y m d) → calc_age clk (birth_date (user s)) = Some age → age = 0.
Proof.
  intros Hno H. unfold calc_age in H. case_bool_decide as Hne; [congruence |].
  destruct (scan_ds _ _) as [[|y [|m [|d [|]]]] r] eqn:E; try congruence.
  destruct Hno. exists y, m, d. split; [done | by exists r].
Qed.

Lemma age_reads d r n :
  isdigit d = true → atoi (d :: r) = n → 0 <= n → reads_as (lit "A" ++ d :: r) (cond_holds clk s (CAge n)).
Proof.
  intros Hd <- Hn. destruct (digit_facts d Hd) as (Hu & Hl & Ho & Hr).
  destruct Hdef as ([age Ha] & _).
  eapply reads_as_intro; [unfold eval_atom; table_tests; rewrite Ha; cbn; rewrite ?drop_0; reflexivity |].
  rewrite Z.leb_le. cbn [cond_holds].
  destruct (dated_dec (birth_date (user s))) as [(y & m & dd & H) | Hno].
  - rewrite (age_dated y m dd age) by done. split; [intros; left; by exists y, m, dd |].
    intros [(y' & m' & d' & H' & Hc) | [Hno _]]; [| destruct Hno; by exists y, m, dd].
    by destruct (dated_fun _ _ _ _ _ _ _ H H') as (-> & -> & ->).
  - rewrite (age_undated age) by done. split; [intros; right; split; [done | lia] |].
    intros [(y & m & dd & H & _) | [_ ->]]; [destruct Hno; by exists y, m, dd | done].
Qed.

(** Whole days until the expiration. *)
Lemma days_dated y m d days :
  dated (expires_at (user s)) y m d → days_until_expiration clk (expires_at (user s)) = Some days →
  days = Z.quot (seconds_left clk y m d) 86400.
Proof.
  intros (Hne & r & E) H. unfold days_until_expiration in H. rewrite bool_decide_eq_false_2, E in H by done.
  destruct (int_ok (y - 1900)) as [a |] eqn:Ea; [| done]. destruct (int_ok (m - 1)) as [b |] eqn:Eb; [| done].
  apply int_ok_value in Ea as ->. apply int_ok_value in Eb as ->. cbn in H. by apply int_ok_value in H.
Qed.

Lemma days_undated days :
  ¬ (∃ y m d, dated (expires_at (user s)) y m d) →
  days_until_expiration clk (expires_at (user s)) = Some days → days = 9999.
Proof.
  intros Hno H. unfold days_until_expiration in H. case_bool_decide as Hne; [congruence |].
  destruct (scan_ds _ _) as [[|y [|m [|d [|]]]] r] eqn:E; try congruence.
  destruct Hno. exists y, m, d. split; [done | by exists r].
Qed.

(** Quotients round to zero. *)
Lemma quot_le a b n : 0 < b → 0 <= n → Z.quot a b <= n ↔ a < (n + 1) * b.
Proof.
  intros Hb Hn. pose proof (Z.quot_rem' a b). destruct (Z.le_gt_cases 0 a).
  - pose proof (Z.rem_bound_pos a b ltac:(lia) ltac:(lia)). nia.
  - pose proof (Z.rem_bound_pos_neg a b ltac:(lia) ltac:(lia)). nia.
Qed.

Lemma expires_reads d r n :
  isdigit d = true → atoi (d :: r) = n → 0 <= n → reads_as (lit "X" ++ d :: r) (cond_holds clk s (CExpires n)).
Proof.
  intros Hd <- Hn. destruct (digit_facts d Hd) as (Hu & Hl & Ho & Hr).
  destruct Hdef as (_ & [days Hx] & _).
  eapply reads_as_intro;
    [unfold eval_atom, need_session; table_tests; rewrite Hx; cbn; rewrite ?drop_0; reflexivity |].
  rewrite Z.leb_le. cbn [cond_holds].
  destruct (dated_dec (expires_at (user s))) as [(y & m & dd & H) | Hno].
  - rewrite (days_dated y m dd days) by done.
    assert (Hq : Z.quot (seconds_left clk y m dd) 86400 <= atoi (d :: r) ↔
      seconds_left clk y m dd < (atoi (d :: r) + 1) * 86400) by (apply quot_le; lia).
    rewrite Hq. split; [intros; left; by exists y, m, dd |].
    intros [(y' & m' & d' & H' & Hc) | [Hno _]]; [| destruct Hno; by exists y, m, dd].
    by destruct (dated_fun _ _ _ _ _ _ _ H H') as (-> & -> & ->).
  - rewrite (days_undated days) by done. split; [intros; right; split; [done | lia] |].
    intros [(y & m & dd & H & _) | [_ ?]]; [destruct Hno; by exists y, m, dd | done].
Qed.

Lemma valid_reads : reads_as (lit "V") (cond_holds clk s CValid).
Proof.
  destruct Hdef as (_ & [days Hx] & _).
  eapply reads_as_intro.
  { unfold eval_atom, need_session; table_tests; rewrite Hx; cbn.
    instantiate (1 := bool_decide (expires_at (user s) = []) || (0 <? days)). by case_bool_decide. }
  cbn [cond_holds]. rewrite orb_true_iff, bool_decide_eq_true, Z.ltb_lt.
  destruct (dated_dec (expires_at (user s))) as [(y & m & dd & H) | Hno].
  - rewrite (days_dated y m dd days) by done.
    assert (Hq : 0 < Z.quot (seconds_left clk y m dd) 86400 ↔ 86400 <= seconds_left clk y m dd)
      by (pose proof (quot_le (seconds_left clk y m dd) 86400 0); lia).
    rewrite Hq. split.
    + intros [E | Hs] y' m' d' H'; [by destruct H as [H _] |].
      by destruct (dated_fun _ _ _ _ _ _ _ H H') as (-> & -> & ->).
    + intros Hall. right. by apply Hall.
  - rewrite (days_undated days) by done. split; [| by right].
    intros _ y m dd H. destruct Hno. by exists y, m, dd.
Qed.

Lemma posts_read : reads_as (lit "Z") (cond_holds clk s CPosts).
Proof.
  destruct Hdef as (_ & _ & H & _).
  eapply reads_as_intro.
  { unfold eval_atom, need_session; table_tests. rewrite int_ok_some by done. cbn.
    instantiate (1 := (post_ratio_den (user s) =? 0) ||
      (Z.quot (logged_on (user s)) (post_ratio_den (user s)) <=? msg_post (user s))). by case_match. }
  cbn [cond_holds]. lia.
Qed.

Lemma old_ratio_reads o t : decimal t → reads_as (lit "R" ++ relop_text o ++ t) (cond_holds clk s (COldRatio o t)).
Proof.
  intros (d & r & -> & Hd & _). destruct (digit_facts d Hd) as (Hu & Hl & Ho & Hr).
  destruct o; (eapply reads_as_intro;
    [unfold eval_atom, with_session, op_number, compare_op; table_tests; rewrite ?drop_0;
      reflexivity |]); done.
Qed.

End table.

(** ** Texts

    Every condition's text is plain: it fits the token buffer, it has no small
    letters and no character that ends a token, and starts like a condition. *)

Definition plain_char (c : Z) : Prop := islower c = false ∧ tok_end c = false.

Definition starts_plain (t : cstr) : Prop :=
  match t with c :: _ => c ≠ ch "!" ∧ c ≠ ch "(" | [] => False end.

Definition plain (t : cstr) : Prop :=
  (length t <= 63)%nat ∧ Forall plain_char t ∧ starts_plain t.

Lemma plain_atom t : plain t → atom_ok t ∧ tok_buffer t = t.
Proof.
  intros (Hl & Hall & Hs). split.
  - split; [| done]. eapply Forall_impl; [exact Hall |]. by intros c [_ ?].
  - apply tok_buffer_plain; [done |]. eapply Forall_impl; [exact Hall |]. by intros c [? _].
Qed.

Lemma plain_app p t :
  starts_plain p → Forall plain_char p → (length p <= 4)%nat → Forall plain_char t →
  (length t <= 34)%nat → plain (p ++ t).
Proof.
  intros Hs Hp Hl Ht Hlt. split; [rewrite length_app; lia |].
  split; [by apply Forall_app | by destruct p].
Qed.

Lemma digit_plain c : isdigit c = true → plain_char c.
Proof. unfold isdigit, plain_char, islower, tok_end, isspace. chars. intros. split; lia. Qed.

Lemma letter_plain c : letter c → plain_char c.
Proof. unfold letter, plain_char, islower, tok_end, isspace. chars. intros. split; lia. Qed.

Lemma restriction_plain c b : (c, b) ∈ restrictions → plain_char c.
Proof.
  intros H. assert (Hall : Forall (λ '(c, b), plain_char c) restrictions)
    by (repeat constructor; vm_compute; congruence).
  by apply (proj1 (Forall_forall _ _) Hall (c, b)).
Qed.

(** Literals are plain by computation. *)
Ltac plain_lit :=
  first [ repeat constructor; vm_compute; congruence | split; vm_compute; congruence ].

Lemma number_plain p n : starts_plain p → Forall plain_char p → (length p <= 4)%nat →
  number n → plain (p ++ fmt_d n).
Proof.
  intros Hs Hp Hl Hn. destruct (number_text n Hn) as (d & r & -> & _ & Hall & Hlen & _).
  apply plain_app; try done. eapply Forall_impl; [exact Hall | exact digit_plain].
Qed.

Lemma decimal_plain p t : starts_plain p → Forall plain_char p → (length p <= 4)%nat →
  decimal t → plain (p ++ t).
Proof.
  intros Hs Hp Hl (d & r & -> & Hd & Hr & Hlen). apply plain_app; [done | done | done | | unfold zlen in Hlen; lia].
  constructor; [by apply digit_plain |]. eapply Forall_impl; [exact Hr |].
  intros c [Hc | ->]; [by apply digit_plain | done].
Qed.

Lemma char_plain p c :
  starts_plain p → Forall plain_char p → (length p <= 4)%nat → plain_char c → plain (p ++ [c]).
Proof. intros. apply plain_app; cbn; [done | done | done | by constructor | lia]. Qed.

Lemma cond_plain c : cond_ok c → plain (cond_text c).
Proof.
  intros H. destruct c as [q n | n | c | c | l | c | c | c | n | n | | | o n | o n | n | | n | | o t]; cbn [cond_text].
  - apply number_plain; [destruct q; plain_lit .. | done].
  - apply number_plain; [plain_lit .. | done].
  - apply char_plain; [plain_lit .. | by apply letter_plain].
  - apply char_plain; [plain_lit .. | by apply letter_plain].
  - destruct H as [Hl Hlen]. apply plain_app; [plain_lit .. | | unfold zlen in Hlen; lia].
    eapply Forall_impl; [exact Hl | exact letter_plain].
  - destruct H as [b Hb]. apply char_plain; [plain_lit .. | by eapply restriction_plain].
  - apply char_plain; [plain_lit .. | by apply letter_plain].
  - apply char_plain; [plain_lit .. | by destruct H as [-> | ->]].
  - apply number_plain; [plain_lit .. | done].
  - apply number_plain; [plain_lit .. | done].
  - split; [cbn; lia | split; plain_lit].
  - split; [cbn; lia | split; plain_lit].
  - rewrite app_assoc. apply number_plain; [destruct o; plain_lit .. | done].
  - rewrite app_assoc. apply number_plain; [destruct o; plain_lit .. | done].
  - apply number_plain; [plain_lit .. | done].
  - split; [cbn; lia | split; plain_lit].
  - apply number_plain; [plain_lit .. | done].
  - split; [cbn; lia | split; plain_lit].
  - rewrite app_assoc. apply decimal_plain; [destruct o; plain_lit .. | done].
Qed.

Lemma cond_reads clk s c :
  session_defined clk s → cond_ok c → reads_as clk s (cond_text c) (cond_holds clk s c).
Proof.
  intros Hdef H.
  destruct c as [q n | n | c | c | l | c | c | c | n | n | | | o n | o n | n | | n | | o t];
    try (destruct (number_text n H) as (d & r & E & Hd & _ & _ & Hn); cbn [cond_text]; rewrite E).
  - by apply quantity_reads.
  - by apply baud_reads.
  - by apply flag_reads.
  - by apply plus_reads.
  - by apply flags_read, H.
  - destruct H as [b Hb]. by eapply restriction_reads.
  - by apply conference_reads.
  - by apply sex_reads.
  - by apply member_reads.
  - by apply subscribed_reads.
  - by apply post_call_reads.
  - by apply download_reads.
  - by apply old_credits_reads.
  - by apply old_time_reads.
  - apply age_reads; [done | done | done | apply H].
  - by apply valid_reads.
  - apply expires_reads; [done | done | done | apply H].
  - by apply posts_read.
  - by apply old_ratio_reads.
Qed.

(** ** Expressions over conditions *)

Inductive policy : Type :=
  | Cond (c : cond)
  | Neg (e : policy)
  | Both (a b : policy)
  | Either (a b : policy).

Fixpoint spell_policy (e : policy) : expr :=
  match e with
  | Cond c => Atom (cond_text c)
  | Neg e => Not (spell_policy e)
  | Both a b => And (spell_policy a) (spell_policy b)
  | Either a b => Or (spell_policy a) (spell_policy b)
  end.

Fixpoint policy_ok (e : policy) : Prop :=
  match e with
  | Cond c => cond_ok c
  | Neg e => policy_ok e
  | Both a b | Either a b => policy_ok a ∧ policy_ok b
  end.

Fixpoint permits (clk : Clock) (s : Session) (e : policy) : Prop :=
  match e with
  | Cond c => cond_holds clk s c
  | Neg e => ¬ permits clk s e
  | Both a b => permits clk s a ∧ permits clk s b
  | Either a b => permits clk s a ∨ permits clk s b
  end.

Lemma spell_policy_ok e : policy_ok e → expr_ok (spell_policy e).
Proof.
  induction e; cbn; [| done | intros []; auto | intros []; auto].
  intros H. by apply plain_atom, cond_plain.
Qed.

Lemma denote_policy clk s e :
  session_defined clk s → policy_ok e →
  ∃ v, denote clk (Some s) (spell_policy e) = Some v ∧ (v = true ↔ permits clk s e).
Proof.
  intros Hdef. induction e as [c | e IH | a IHa b IHb | a IHa b IHb]; cbn; intros Hok.
  - destruct (plain_atom _ (cond_plain c Hok)) as [_ ->]. by apply cond_reads.
  - destruct (IH Hok) as (v & -> & Hv). eexists. split; [reflexivity |]. rewrite <- Hv. by destruct v.
  - destruct Hok as [Ha Hb]. destruct (IHa Ha) as (v & -> & Hv), (IHb Hb) as (w & -> & Hw).
    eexists. split; [reflexivity |]. rewrite <- Hv, <- Hw. apply andb_true_iff.
  - destruct Hok as [Ha Hb]. destruct (IHa Ha) as (v & -> & Hv), (IHb Hb) as (w & -> & Hw).
    eexists. split; [reflexivity |]. rewrite <- Hv, <- Hw. apply orb_true_iff.
Qed.

(** C33. The evaluator implements its table of conditions: every expression over
    the conditions that the head of acs.c lists (R for the flags that there are),
    and J for the conferences, written out with the precedence of the operators and any white space, admits
    a user exactly when the meaning of the conditions makes it true. That is in
    terms of the user's record, the session and the clock: levels, counts and
    credits as numbers, flags as bits, the age as birthdays that have come, the
    expiration as days left (less than a whole one is none), the ratios as
    products, the old ratio as a quotient of doubles. Numbers are ints and
    decimals of up to 30 characters; and no product or quotient of the ratios,
    age or number of days overflows an int. *)
Theorem acs_allows_conditions clk s sp e :
  session_defined clk s → Forall (λ c, isspace c = true) sp → policy_ok e →
  ∃ v, acs_allows clk (Some s) (show sp PExpr (spell_policy e) ++ sp) = Some v ∧
    (v = true ↔ permits clk s e).
Proof.
  intros Hdef Hsp Hok. destruct (denote_policy clk s e Hdef Hok) as (v & Hv & Hiff).
  exists v. split; [| done].
  apply acs_allows_reads; [done | done | by apply spell_policy_ok | done].
Qed.

(** ** Witness *)

(** [S20 & FA | !(C>=100 | A99) & R<2.5] *)
Definition sample_policy : policy :=
  Either (Both (Cond (CNumber QLevel 20)) (Cond (CFlag (ch "A"))))
    (Both (Neg (Either (Cond (COldCredits RGe 100)) (Cond (CAge 99)))) (Cond (COldRatio RLt (lit "2.5")))).

Lemma acs_allows_conditions_witness :
  acs_allows sample_clock (Some sample_session) (lit " S20 & FA | ! ( C>=100 | A99 ) & R<2.5 ") = Some true
  ∧ permits sample_clock sample_session sample_policy.
Proof.
  destruct (acs_allows_conditions sample_clock sample_session (lit " ") sample_policy)
    as (v & Hv & Hiff).
  - exact sample_defined.
  - repeat constructor.
  - cbn. unfold number, letter, decimal. chars. split_and!; try (zred; lia).
    eexists 50, _. split_and!; [reflexivity | done | | done].
    constructor; [by right | constructor; [by left | constructor]].
  - vm_compute in Hv. injection Hv as <-. split; [vm_compute; reflexivity | by apply Hiff].
Defined.
