(* ===== verification/Lexer.v ===== *)
(** The lexer of the Buccaneer language (src/buccaneer/lexer.c), one definition
    per scanning function over an explicit lexer state: position, line and
    column, the reported errors, the current and the peeked token. *)

From S2P Require Import Prelude CLib Float.

#[local] Open Scope Z_scope.

(** ** Tokens *)

(** src/buccaneer/include/bucc_lexer.h:20-126 (bucc_token_kind) *)
Inductive token_kind : Type :=
  | TOK_EOF | TOK_NEWLINE | TOK_COMMENT | TOK_IDENT | TOK_INTEGER | TOK_DOUBLE | TOK_HEX
  | TOK_STRING | TOK_DATE | TOK_DATETIME | TOK_LPAREN | TOK_RPAREN | TOK_LBRACKET
  | TOK_RBRACKET | TOK_LBRACE | TOK_RBRACE | TOK_COMMA | TOK_COLON | TOK_DOT | TOK_HASH
  | TOK_PLUS | TOK_MINUS | TOK_STAR | TOK_SLASH | TOK_EQ | TOK_NE | TOK_LT | TOK_LE
  | TOK_GT | TOK_GE | TOK_KW_PROGRAM | TOK_KW_VERSION | TOK_KW_AUTHOR | TOK_KW_DESCRIPTION
  | TOK_KW_CAPABILITY | TOK_KW_OPTION | TOK_KW_DATASET | TOK_KW_DIM | TOK_KW_AS
  | TOK_KW_LET | TOK_KW_CONST | TOK_KW_SUB | TOK_KW_FUNCTION | TOK_KW_END | TOK_KW_CALL
  | TOK_KW_RETURN | TOK_KW_IF | TOK_KW_THEN | TOK_KW_ELSE | TOK_KW_ELSEIF | TOK_KW_SELECT
  | TOK_KW_CASE | TOK_KW_FOR | TOK_KW_TO | TOK_KW_STEP | TOK_KW_NEXT | TOK_KW_WHILE
  | TOK_KW_WEND | TOK_KW_DO | TOK_KW_LOOP | TOK_KW_UNTIL | TOK_KW_EXIT | TOK_KW_HALT
  | TOK_KW_CHAIN | TOK_KW_TRY | TOK_KW_CATCH | TOK_KW_THROW | TOK_KW_ON | TOK_KW_AND
  | TOK_KW_OR | TOK_KW_NOT | TOK_KW_MOD | TOK_KW_TRUE | TOK_KW_FALSE | TOK_KW_NULL
  | TOK_KW_INTEGER | TOK_KW_DOUBLE | TOK_KW_BOOLEAN | TOK_KW_STRING | TOK_KW_DATE
  | TOK_KW_DATETIME | TOK_KW_ARRAY | TOK_KW_MAP | TOK_KW_OF | TOK_KW_REM | TOK_ERROR.

#[export] Instance token_kind_eq_dec : EqDecision token_kind.
Proof. solve_decision. Defined.

(** src/buccaneer/lexer.c:20-77 (keywords) *)
Definition keywords : list (cstr * token_kind) := [
  (lit "PROGRAM", TOK_KW_PROGRAM); (lit "VERSION", TOK_KW_VERSION);
  (lit "AUTHOR", TOK_KW_AUTHOR); (lit "DESCRIPTION", TOK_KW_DESCRIPTION);
  (lit "CAPABILITY", TOK_KW_CAPABILITY); (lit "OPTION", TOK_KW_OPTION);
  (lit "DATASET", TOK_KW_DATASET); (lit "DIM", TOK_KW_DIM); (lit "AS", TOK_KW_AS);
  (lit "LET", TOK_KW_LET); (lit "CONST", TOK_KW_CONST); (lit "SUB", TOK_KW_SUB);
  (lit "FUNCTION", TOK_KW_FUNCTION); (lit "END", TOK_KW_END); (lit "CALL", TOK_KW_CALL);
  (lit "RETURN", TOK_KW_RETURN); (lit "IF", TOK_KW_IF); (lit "THEN", TOK_KW_THEN);
  (lit "ELSE", TOK_KW_ELSE); (lit "ELSEIF", TOK_KW_ELSEIF); (lit "SELECT", TOK_KW_SELECT);
  (lit "CASE", TOK_KW_CASE); (lit "FOR", TOK_KW_FOR); (lit "TO", TOK_KW_TO);
  (lit "STEP", TOK_KW_STEP); (lit "NEXT", TOK_KW_NEXT); (lit "WHILE", TOK_KW_WHILE);
  (lit "WEND", TOK_KW_WEND); (lit "DO", TOK_KW_DO); (lit "LOOP", TOK_KW_LOOP);
  (lit "UNTIL", TOK_KW_UNTIL); (lit "EXIT", TOK_KW_EXIT); (lit "HALT", TOK_KW_HALT);
  (lit "CHAIN", TOK_KW_CHAIN); (lit "TRY", TOK_KW_TRY); (lit "CATCH", TOK_KW_CATCH);
  (lit "THROW", TOK_KW_THROW); (lit "ON", TOK_KW_ON); (lit "AND", TOK_KW_AND);
  (lit "OR", TOK_KW_OR); (lit "NOT", TOK_KW_NOT); (lit "MOD", TOK_KW_MOD);
  (lit "TRUE", TOK_KW_TRUE); (lit "FALSE", TOK_KW_FALSE); (lit "NULL", TOK_KW_NULL);
  (lit "INTEGER", TOK_KW_INTEGER); (lit "DOUBLE", TOK_KW_DOUBLE);
  (lit "BOOLEAN", TOK_KW_BOOLEAN); (lit "STRING", TOK_KW_STRING);
  (lit "DATE", TOK_KW_DATE); (lit "DATETIME", TOK_KW_DATETIME);
  (lit "ARRAY", TOK_KW_ARRAY); (lit "MAP", TOK_KW_MAP); (lit "OF", TOK_KW_OF);
  (lit "REM", TOK_KW_REM)].

(** src/buccaneer/lexer.c:607-697 (bucc_token_kind_name) *)
Definition bucc_token_kind_name (kind : token_kind) : cstr :=
  match kind with
  | TOK_EOF => lit "EOF" | TOK_NEWLINE => lit "NEWLINE" | TOK_COMMENT => lit "COMMENT"
  | TOK_IDENT => lit "IDENTIFIER" | TOK_INTEGER => lit "INTEGER"
  | TOK_DOUBLE => lit "DOUBLE" | TOK_HEX => lit "HEX" | TOK_STRING => lit "STRING"
  | TOK_DATE => lit "DATE" | TOK_DATETIME => lit "DATETIME" | TOK_LPAREN => lit "("
  | TOK_RPAREN => lit ")" | TOK_LBRACKET => lit "[" | TOK_RBRACKET => lit "]"
  | TOK_LBRACE => lit "{" | TOK_RBRACE => lit "}" | TOK_COMMA => lit ","
  | TOK_COLON => lit ":" | TOK_DOT => lit "." | TOK_HASH => lit "#" | TOK_PLUS => lit "+"
  | TOK_MINUS => lit "-" | TOK_STAR => lit "*" | TOK_SLASH => lit "/" | TOK_EQ => lit "="
  | TOK_NE => lit "<>" | TOK_LT => lit "<" | TOK_LE => lit "<=" | TOK_GT => lit ">"
  | TOK_GE => lit ">=" | TOK_KW_PROGRAM => lit "PROGRAM" | TOK_KW_VERSION => lit "VERSION"
  | TOK_KW_AUTHOR => lit "AUTHOR" | TOK_KW_DESCRIPTION => lit "DESCRIPTION"
  | TOK_KW_CAPABILITY => lit "CAPABILITY" | TOK_KW_OPTION => lit "OPTION"
  | TOK_KW_DATASET => lit "DATASET" | TOK_KW_DIM => lit "DIM" | TOK_KW_AS => lit "AS"
  | TOK_KW_LET => lit "LET" | TOK_KW_CONST => lit "CONST" | TOK_KW_SUB => lit "SUB"
  | TOK_KW_FUNCTION => lit "FUNCTION" | TOK_KW_END => lit "END" | TOK_KW_CALL => lit "CALL"
  | TOK_KW_RETURN => lit "RETURN" | TOK_KW_IF => lit "IF" | TOK_KW_THEN => lit "THEN"
  | TOK_KW_ELSE => lit "ELSE" | TOK_KW_ELSEIF => lit "ELSEIF"
  | TOK_KW_SELECT => lit "SELECT" | TOK_KW_CASE => lit "CASE" | TOK_KW_FOR => lit "FOR"
  | TOK_KW_TO => lit "TO" | TOK_KW_STEP => lit "STEP" | TOK_KW_NEXT => lit "NEXT"
  | TOK_KW_WHILE => lit "WHILE" | TOK_KW_WEND => lit "WEND" | TOK_KW_DO => lit "DO"
  | TOK_KW_LOOP => lit "LOOP" | TOK_KW_UNTIL => lit "UNTIL" | TOK_KW_EXIT => lit "EXIT"
  | TOK_KW_HALT => lit "HALT" | TOK_KW_CHAIN => lit "CHAIN" | TOK_KW_TRY => lit "TRY"
  | TOK_KW_CATCH => lit "CATCH" | TOK_KW_THROW => lit "THROW" | TOK_KW_ON => lit "ON"
  | TOK_KW_AND => lit "AND" | TOK_KW_OR => lit "OR" | TOK_KW_NOT => lit "NOT"
  | TOK_KW_MOD => lit "MOD" | TOK_KW_TRUE => lit "TRUE" | TOK_KW_FALSE => lit "FALSE"
  | TOK_KW_NULL => lit "NULL" | TOK_KW_INTEGER => lit "INTEGER"
  | TOK_KW_DOUBLE => lit "DOUBLE" | TOK_KW_BOOLEAN => lit "BOOLEAN"
  | TOK_KW_STRING => lit "STRING" | TOK_KW_DATE => lit "DATE"
  | TOK_KW_DATETIME => lit "DATETIME" | TOK_KW_ARRAY => lit "ARRAY"
  | TOK_KW_MAP => lit "MAP" | TOK_KW_OF => lit "OF" | TOK_KW_REM => lit "REM"
  | TOK_ERROR => lit "ERROR"
  end.

(** src/buccaneer/lexer.c:711-725 (bucc_token_is_type_keyword) *)
Definition bucc_token_is_type_keyword (kind : token_kind) : bool :=
  match kind with
  | TOK_KW_INTEGER | TOK_KW_DOUBLE | TOK_KW_BOOLEAN | TOK_KW_STRING | TOK_KW_DATE
  | TOK_KW_DATETIME | TOK_KW_ARRAY | TOK_KW_MAP => true
  | _ => false
  end.

(** src/buccaneer/lexer.c:727-742 (bucc_token_is_literal) *)
Definition bucc_token_is_literal (kind : token_kind) : bool :=
  match kind with
  | TOK_INTEGER | TOK_DOUBLE | TOK_HEX | TOK_STRING | TOK_DATE | TOK_DATETIME
  | TOK_KW_TRUE | TOK_KW_FALSE | TOK_KW_NULL => true
  | _ => false
  end.

(** src/buccaneer/lexer.c:744-756 (bucc_token_is_comparison) *)
Definition bucc_token_is_comparison (kind : token_kind) : bool :=
  match kind with
  | TOK_EQ | TOK_NE | TOK_LT | TOK_LE | TOK_GT | TOK_GE => true
  | _ => false
  end.

(** src/buccaneer/lexer.c:758-760 (bucc_token_is_additive) *)
Definition bucc_token_is_additive (kind : token_kind) : bool :=
  bool_decide (kind = TOK_PLUS) || bool_decide (kind = TOK_MINUS).

(** src/buccaneer/lexer.c:762-764 (bucc_token_is_multiplicative) *)
Definition bucc_token_is_multiplicative (kind : token_kind) : bool :=
  bool_decide (kind = TOK_STAR) || bool_decide (kind = TOK_SLASH) ||
  bool_decide (kind = TOK_KW_MOD).

(** src/buccaneer/include/bucc_diag.h:28-34 (bucc_source_span) *)
Record span : Type := MkSpan {
  sp_file : Z; start_line : Z; start_col : Z; end_line : Z; end_col : Z
}.

(** The value of a numeric literal. *)
Inductive token_value : Type :=
  | VNone
  | VI64 (z : Z)
  | VF64 (f : f64).

(** src/buccaneer/include/bucc_lexer.h:128-138 (bucc_token) *)
Record token : Type := MkToken {
  kind : token_kind;
  tok_span : span;
  start : option nat;      (* offset in the source; [None] is a null pointer *)
  len : nat;
  value : token_value
}.

(** src/buccaneer/include/bucc_lexer.h:140-152 (bucc_lexer) *)
Record lexer : Type := MkLexer {
  source : cstr;
  pos : nat;
  line : Z;
  col : Z;
  file_id : Z;
  diag : list (span * cstr);    (* the errors reported, oldest first *)
  current : token;
  peek : token;
  has_peek : bool
}.

Definition null_token : token := MkToken TOK_EOF (MkSpan 0 0 0 0 0) None 0 VNone.

(** src/buccaneer/lexer.c:79-86 (strcasecmp_n) *)
Fixpoint strcasecmp_n (a b : cstr) (n : nat) : Z :=
  match n with
  | O => 0
  | S n =>
      let ca := toupper (char_at a 0) in
      let cb := toupper (char_at b 0) in
      if ca =? cb then strcasecmp_n (drop 1 a) (drop 1 b) n else ca - cb
  end.

Fixpoint find_keyword (kws : list (cstr * token_kind)) (text : cstr) (n : nat) : token_kind :=
  match kws with
  | [] => TOK_IDENT
  | (name, k) :: kws =>
      if bool_decide (length name = n) && (strcasecmp_n text name n =? 0) then k
      else find_keyword kws text n
  end.

(** src/buccaneer/lexer.c:88-95 (lookup_keyword) *)
Definition lookup_keyword (text : cstr) (n : nat) : token_kind := find_keyword keywords text n.

(** src/buccaneer/lexer.c:97-108 (bucc_lexer_init) *)
Definition bucc_lexer_init (source : cstr) (file_id : Z) (diag : list (span * cstr)) : lexer :=
  MkLexer source 0 1 1 file_id diag null_token null_token false.

(** ** Characters *)

(** src/buccaneer/lexer.c:110-113 (peek_char) *)
Definition peek_char (lex : lexer) : Z := char_at (source lex) (pos lex).

(** src/buccaneer/lexer.c:115-118 (peek_char_n) *)
Definition peek_char_n (lex : lexer) (n : nat) : Z := char_at (source lex) (pos lex + n).

(** src/buccaneer/lexer.c:120-130 (advance) *)
Definition advance (lex : lexer) : lexer :=
  match source lex !! pos lex with
  | None => lex
  | Some c =>
      let '(l, k) := if c =? 10 then (u32 (line lex + 1), 1) else (line lex, u32 (col lex + 1)) in
      MkLexer (source lex) (S (pos lex)) l k (file_id lex) (diag lex)
        (current lex) (peek lex) (has_peek lex)
  end.

Fixpoint advance_n (n : nat) (lex : lexer) : lexer :=
  match n with O => lex | S n => advance_n n (advance lex) end.

(** [while (p(peek_char(lex))) advance(lex);] with the bound on the number of
    rounds that the end of the source gives. *)
Fixpoint advance_while (p : Z → bool) (fuel : nat) (lex : lexer) : lexer :=
  match fuel with
  | O => lex
  | S fuel => if p (peek_char lex) then advance_while p fuel (advance lex) else lex
  end.

Definition remaining (lex : lexer) : nat := length (source lex) - pos lex.

Definition skip_while (p : Z → bool) (lex : lexer) : lexer :=
  advance_while p (remaining lex) lex.

(** src/buccaneer/lexer.c:132-143 (skip_whitespace) *)
Definition skip_whitespace (lex : lexer) : lexer :=
  skip_while (λ c, (c =? ch " ") || (c =? 9) || (c =? 13) || (c =? ch ":")) lex.

Definition span_to (lex : lexer) (line0 col0 : Z) : span :=
  MkSpan (file_id lex) line0 col0 (line lex) (col lex).

(** src/buccaneer/lexer.c:145-158 (make_token) *)
Definition make_token (lex : lexer) (k : token_kind) (st : option nat) (n : nat)
    (line0 col0 : Z) : token :=
  MkToken k (span_to lex line0 col0) st n VNone.

Definition with_diag (lex : lexer) (d : list (span * cstr)) : lexer :=
  MkLexer (source lex) (pos lex) (line lex) (col lex) (file_id lex) d
    (current lex) (peek lex) (has_peek lex).

(** src/buccaneer/lexer.c:160-175 (make_error) *)
Definition make_error (lex : lexer) (msg : cstr) (line0 col0 : Z) : token * lexer :=
  let sp := span_to lex line0 col0 in
  (MkToken TOK_ERROR sp None 0 VNone, with_diag lex (diag lex ++ [(sp, msg)])).

(** src/buccaneer/lexer.c:177-179 (is_ident_start) *)
Definition is_ident_start (c : Z) : bool :=
  ((ch "a" <=? c) && (c <=? ch "z")) || ((ch "A" <=? c) && (c <=? ch "Z")) || (c =? ch "_").

(** src/buccaneer/lexer.c:185-187 (is_digit) *)
Definition is_digit (c : Z) : bool := (ch "0" <=? c) && (c <=? ch "9").

(** src/buccaneer/lexer.c:181-183 (is_ident_char) *)
Definition is_ident_char (c : Z) : bool := is_ident_start c || is_digit c || (c =? ch "$").

(** src/buccaneer/lexer.c:189-191 (is_hex_digit) *)
Definition is_hex_digit (c : Z) : bool :=
  is_digit c || ((ch "a" <=? c) && (c <=? ch "f")) || ((ch "A" <=? c) && (c <=? ch "F")).

(** ** Scanning *)

(** The text between two positions, as the code's [start] and [len]. *)
Definition text_from (lex : lexer) (p0 : nat) : cstr :=
  take (pos lex - p0) (drop p0 (source lex)).

Definition token_from (lex0 lex : lexer) (k : token_kind) : token :=
  make_token lex k (Some (pos lex0)) (pos lex - pos lex0) (line lex0) (col lex0).

Definition set_value (t : token) (v : token_value) : token :=
  MkToken (kind t) (tok_span t) (start t) (len t) v.

(** src/buccaneer/lexer.c:193-206 (scan_identifier) *)
Definition scan_identifier (lex0 : lexer) : token * lexer :=
  let lex := skip_while is_ident_char lex0 in
  let n := (pos lex - pos lex0)%nat in
  (token_from lex0 lex (lookup_keyword (drop (pos lex0) (source lex0)) n), lex).

(** src/buccaneer/lexer.c:208-256 (scan_number) *)
Definition scan_number (lex0 : lexer) : token * lexer :=
  let lex := if peek_char lex0 =? ch "-" then advance lex0 else lex0 in
  let lex := skip_while is_digit lex in
  let '(is_double, lex) :=
    if (peek_char lex =? ch ".") && is_digit (peek_char_n lex 1)
    then (true, skip_while is_digit (advance lex)) else (false, lex) in
  let finish (is_double : bool) (lex : lexer) :=
    let tok := token_from lex0 lex (if is_double then TOK_DOUBLE else TOK_INTEGER) in
    let text := drop (pos lex0) (source lex0) in
    (set_value tok (if is_double then VF64 (fst (strtod text)) else VI64 (fst (strtoll 10 text))),
     lex) in
  if (peek_char lex =? ch "e") || (peek_char lex =? ch "E") then
    let lex := advance lex in
    let lex := if (peek_char lex =? ch "+") || (peek_char lex =? ch "-")
               then advance lex else lex in
    if negb (is_digit (peek_char lex)) then
      make_error lex (lit "invalid number: expected exponent digits") (line lex0) (col lex0)
    else finish true (skip_while is_digit lex)
  else finish is_double lex.

(** src/buccaneer/lexer.c:258-280 (scan_hex) *)
Definition scan_hex (lex0 : lexer) : token * lexer :=
  let lex := advance (advance lex0) in
  if negb (is_hex_digit (peek_char lex)) then
    make_error lex (lit "invalid hex literal: expected hex digits") (line lex0) (col lex0)
  else
    let lex := skip_while is_hex_digit lex in
    (set_value (token_from lex0 lex TOK_HEX)
       (VI64 (fst (strtoll 16 (drop (pos lex0 + 2) (source lex0))))), lex).

(** The body of a string literal: up to the quote, the end of the line or of
    the source, an escape taking the next character with it. *)
Fixpoint string_body (fuel : nat) (lex : lexer) : lexer :=
  match fuel with
  | O => lex
  | S fuel =>
      let c := peek_char lex in
      if (c =? 34) || (c =? 0) || (c =? 10) then lex
      else
        let lex := if (c =? 92) && negb (peek_char_n lex 1 =? 0) then advance lex else lex in
        string_body fuel (advance lex)
  end.

(** src/buccaneer/lexer.c:282-304 (scan_string) *)
Definition scan_string (lex0 : lexer) : token * lexer :=
  let lex := advance lex0 in
  let lex := string_body (remaining lex) lex in
  if negb (peek_char lex =? 34) then
    make_error lex (lit "unterminated string literal") (line lex0) (col lex0)
  else
    let lex := advance lex in (token_from lex0 lex TOK_STRING, lex).

(** The fixed-format literals: [sum] carries the error message to stop with. *)
Definition scan_step : Type := lexer → (cstr * lexer) + lexer.

Definition then_ (a b : scan_step) : scan_step :=
  λ lex, match a lex with inl e => inl e | inr lex => b lex end.

Fixpoint expect_digits (n : nat) (msg : cstr) : scan_step :=
  λ lex, match n with
  | O => inr lex
  | S n => if is_digit (peek_char lex) then expect_digits n msg (advance lex)
           else inl (msg, lex)
  end.

Definition expect_char (c : Z) (msg : cstr) : scan_step :=
  λ lex, if peek_char lex =? c then inr (advance lex) else inl (msg, lex).

Definition scan_time : scan_step :=
  then_ (expect_digits 2 (lit "invalid datetime literal: expected hour"))
  (then_ (expect_char (ch ":") (lit "invalid datetime literal: expected ':'"))
  (then_ (expect_digits 2 (lit "invalid datetime literal: expected minute"))
  (then_ (expect_char (ch ":") (lit "invalid datetime literal: expected ':'"))
         (expect_digits 2 (lit "invalid datetime literal: expected second"))))).

Definition scan_day : scan_step :=
  then_ (expect_digits 4 (lit "invalid date literal: expected year"))
  (then_ (expect_char (ch "-") (lit "invalid date literal: expected '-'"))
  (then_ (expect_digits 2 (lit "invalid date literal: expected month"))
  (then_ (expect_char (ch "-") (lit "invalid date literal: expected '-'"))
         (expect_digits 2 (lit "invalid date literal: expected day"))))).

(** src/buccaneer/lexer.c:306-389 (scan_date_or_datetime) *)
Definition scan_date_or_datetime (lex0 : lexer) : token * lexer :=
  let err '(msg, lex) := make_error lex msg (line lex0) (col lex0) in
  let finish (k : token_kind) (lex : lexer) :=
    match expect_char (ch "#") (lit "invalid date literal: expected closing '#'") lex with
    | inl e => err e
    | inr lex => (token_from lex0 lex k, lex)
    end in
  match scan_day (advance lex0) with
  | inl e => err e
  | inr lex =>
      if (peek_char lex =? ch "T") || (peek_char lex =? ch "t") then
        match scan_time (advance lex) with
        | inl e => err e
        | inr lex => finish TOK_DATETIME lex
        end
      else finish TOK_DATE lex
  end.

Definition not_eol (c : Z) : bool := negb (c =? 10) && negb (c =? 0).

(** src/buccaneer/lexer.c:391-404 (scan_comment) *)
Definition scan_comment (lex0 : lexer) : token * lexer :=
  let lex := skip_while not_eol (advance lex0) in
  (token_from lex0 lex TOK_COMMENT, lex).

(** src/buccaneer/lexer.c:406-421 (scan_rem_comment) *)
Definition scan_rem_comment (lex0 : lexer) : token * lexer :=
  let lex := skip_while not_eol (advance_n 3 lex0) in
  (token_from lex0 lex TOK_COMMENT, lex).

(** ** The next token *)

Definition is_rem (lex : lexer) : bool :=
  let c0 := peek_char lex in
  let c1 := peek_char_n lex 1 in
  let c2 := peek_char_n lex 2 in
  let next := peek_char_n lex 3 in
  ((c0 =? ch "R") || (c0 =? ch "r")) && ((c1 =? ch "E") || (c1 =? ch "e")) &&
  ((c2 =? ch "M") || (c2 =? ch "m")) && negb (is_ident_char next) &&
  ((next =? ch " ") || (next =? 9) || (next =? 10) || (next =? 0)).

(** The switch on punctuation: kind and length, or nothing. *)
Definition punctuation (c c1 : Z) : option (token_kind * nat) :=
  if c =? ch "(" then Some (TOK_LPAREN, 1%nat)
  else if c =? ch ")" then Some (TOK_RPAREN, 1%nat)
  else if c =? ch "[" then Some (TOK_LBRACKET, 1%nat)
  else if c =? ch "]" then Some (TOK_RBRACKET, 1%nat)
  else if c =? ch "{" then Some (TOK_LBRACE, 1%nat)
  else if c =? ch "}" then Some (TOK_RBRACE, 1%nat)
  else if c =? ch "," then Some (TOK_COMMA, 1%nat)
  else if c =? ch "." then Some (TOK_DOT, 1%nat)
  else if c =? ch "+" then Some (TOK_PLUS, 1%nat)
  else if c =? ch "-" then Some (TOK_MINUS, 1%nat)
  else if c =? ch "*" then Some (TOK_STAR, 1%nat)
  else if c =? ch "/" then Some (TOK_SLASH, 1%nat)
  else if c =? ch "=" then Some (TOK_EQ, 1%nat)
  else if c =? ch "<" then
    if c1 =? ch ">" then Some (TOK_NE, 2%nat)
    else if c1 =? ch "=" then Some (TOK_LE, 2%nat)
    else Some (TOK_LT, 1%nat)
  else if c =? ch ">" then
    if c1 =? ch "=" then Some (TOK_GE, 2%nat) else Some (TOK_GT, 1%nat)
  else None.

(** src/buccaneer/lexer.c:432-548 (bucc_lexer_next) *)
Definition scan_token (lex : lexer) : token * lexer :=
  if (length (source lex) <=? pos lex)%nat then
    (make_token lex TOK_EOF None 0 (line lex) (col lex), lex)
  else
    let c := peek_char lex in
    let single (k : token_kind) (n : nat) :=
      let lex' := advance_n n lex in (make_token lex' k (Some (pos lex)) n (line lex) (col lex), lex') in
    if c =? 10 then single TOK_NEWLINE 1%nat
    else if c =? 39 then scan_comment lex
    else if is_ident_start c then
      if is_rem lex then scan_rem_comment lex else scan_identifier lex
    else if is_digit c then scan_number lex
    else if (c =? ch "&") && ((peek_char_n lex 1 =? ch "H") || (peek_char_n lex 1 =? ch "h"))
    then scan_hex lex
    else if c =? 34 then scan_string lex
    else if c =? ch "#" then
      if is_digit (peek_char_n lex 1) then scan_date_or_datetime lex else single TOK_HASH 1%nat
    else if (c =? ch "-") && is_digit (peek_char_n lex 1) then scan_number lex
    else match punctuation c (peek_char_n lex 1) with
    | Some (k, n) => single k n
    | None => make_error (advance lex) (lit "unexpected character") (line lex) (col lex)
    end.

Definition set_current (lex : lexer) (t : token) : lexer :=
  MkLexer (source lex) (pos lex) (line lex) (col lex) (file_id lex) (diag lex)
    t (peek lex) (has_peek lex).

Definition set_peek (lex : lexer) (t : token) (b : bool) : lexer :=
  MkLexer (source lex) (pos lex) (line lex) (col lex) (file_id lex) (diag lex)
    (current lex) t b.

(** src/buccaneer/lexer.c:423-549 (bucc_lexer_next) *)
Definition bucc_lexer_next (lex : lexer) : token * lexer :=
  if has_peek lex then (peek lex, set_current (set_peek lex (peek lex) false) (peek lex))
  else let '(t, lex) := scan_token (skip_whitespace lex) in (t, set_current lex t).

(** src/buccaneer/lexer.c:551-562 (bucc_lexer_peek) *)
Definition bucc_lexer_peek (lex : lexer) : token * lexer :=
  if has_peek lex then (peek lex, lex)
  else
    let saved := current lex in
    let '(t, lex) := bucc_lexer_next lex in
    (t, set_peek (set_current lex saved) t true).

(** src/buccaneer/lexer.c:564-566 (bucc_lexer_at_end) *)
Definition bucc_lexer_at_end (lex : lexer) : bool := bool_decide (kind (current lex) = TOK_EOF).

(** src/buccaneer/lexer.c:568-574 (bucc_lexer_match) *)
Definition bucc_lexer_match (lex : lexer) (k : token_kind) : bool * lexer :=
  if bool_decide (kind (current lex) = k) then (true, snd (bucc_lexer_next lex))
  else (false, lex).

(** src/buccaneer/lexer.c:576-578 (bucc_lexer_check) *)
Definition bucc_lexer_check (lex : lexer) (k : token_kind) : bool :=
  bool_decide (kind (current lex) = k).

Definition is_blank (k : token_kind) : bool :=
  bool_decide (k = TOK_NEWLINE) || bool_decide (k = TOK_COMMENT).

Fixpoint skip_blank (fuel : nat) (lex : lexer) : lexer :=
  match fuel with
  | O => lex
  | S fuel => if is_blank (kind (current lex)) then skip_blank fuel (snd (bucc_lexer_next lex)) else lex
  end.

(** Rounds the newline loop can take: the peeked token and one per character. *)
Definition blank_fuel (lex : lexer) : nat := S (S (S (remaining lex))).

(** src/buccaneer/lexer.c:580-584 (bucc_lexer_skip_newlines) *)
Definition bucc_lexer_skip_newlines (lex : lexer) : lexer := skip_blank (blank_fuel lex) lex.

(** src/buccaneer/lexer.c:586-605 (bucc_lexer_expect_newline) *)
Definition bucc_lexer_expect_newline (lex : lexer) : bool * lexer :=
  let k := kind (current lex) in
  if bool_decide (k = TOK_NEWLINE) then (true, snd (bucc_lexer_next lex))
  else if bool_decide (k = TOK_EOF) then (true, lex)
  else if bool_decide (k = TOK_COMMENT) then
    let lex := snd (bucc_lexer_next lex) in
    if bool_decide (kind (current lex) = TOK_NEWLINE)
    then (true, snd (bucc_lexer_next lex)) else (true, lex)
  else
    (false, with_diag lex (diag lex ++
       [(tok_span (current lex), lit "expected newline, got " ++ bucc_token_kind_name k)])).

(** src/buccaneer/lexer.c:699-709 (bucc_token_text) *)
Definition bucc_token_text (src : cstr) (t : token) : cstr :=
  match start t with
  | Some p => take (len t) (drop p src)
  | None => []
  end.
