(* ===== verification/LexerSpec.v ===== *)
(** Correctness of the Buccaneer lexer: it is a lossless partition of the
    source into tokens and white space that always reaches the end, its spans
    are the source coordinates of its tokens, the keyword table is
    case-insensitive and inverse to the kind names, peeking does not disturb
    the stream, and integer literals read back what they print. *)

From S2P Require Import Prelude CLib Float Lexer.

#[local] Open Scope Z_scope.

(** ** Source coordinates *)

Fixpoint newlines (l : cstr) : Z :=
  match l with [] => 0 | c :: l => (if c =? 10 then 1 else 0) + newlines l end.

(** Characters after the last newline. *)
Definition column (l : cstr) : Z := foldl (λ k c, if c =? 10 then 0 else k + 1) 0 l.

Definition line_at (src : cstr) (p : nat) : Z := u32 (1 + newlines (take p src)).
Definition col_at (src : cstr) (p : nat) : Z := u32 (1 + column (take p src)).

Definition located (lex : lexer) : Prop :=
  (pos lex <= length (source lex))%nat ∧
  line lex = line_at (source lex) (pos lex) ∧ col lex = col_at (source lex) (pos lex).

Lemma newlines_app a b : newlines (a ++ b) = newlines a + newlines b.
Proof. induction a as [|c a IH]; cbn; [done |]. rewrite IH. lia. Qed.

Lemma advance_located lex : located lex → located (advance lex).
Proof.
  intros (Hp & Hl & Hc). unfold advance. destruct (source lex !! pos lex) as [c|] eqn:E; [| done].
  apply lookup_lt_Some in E as Hlt.
  assert (Hl' : line_at (source lex) (S (pos lex)) =
    if c =? 10 then u32 (line lex + 1) else line lex).
  { rewrite Hl. unfold line_at. rewrite (take_S_r _ _ _ E), newlines_app. cbn [newlines].
    case_match; [unfold wrap; rewrite Zplus_mod_idemp_l |]; f_equal; lia. }
  assert (Hc' : col_at (source lex) (S (pos lex)) =
    if c =? 10 then 1 else u32 (col lex + 1)).
  { rewrite Hc. unfold col_at, column. rewrite (take_S_r _ _ _ E), foldl_app. cbn [foldl].
    case_match; [done |]. unfold wrap. rewrite Zplus_mod_idemp_l. f_equal. lia. }
  unfold located. destruct (c =? 10); cbn; rewrite Hl', Hc'; split_and!; done || lia.
Qed.

(** ** Moving forward *)

Inductive reach : lexer → lexer → Prop :=
  | reach_here lex : reach lex lex
  | reach_step lex lex' : reach (advance lex) lex' → reach lex lex'.

Lemma reach_trans a b c : reach a b → reach b c → reach a c.
Proof. induction 1; [done |]. intros. constructor. auto. Qed.

Lemma reach_one lex : reach lex (advance lex).
Proof. constructor. constructor. Qed.

#[local] Hint Resolve reach_here reach_one reach_step : core.

(** What moving leaves alone. *)
Lemma advance_frame lex :
  source (advance lex) = source lex ∧ file_id (advance lex) = file_id lex ∧
  diag (advance lex) = diag lex ∧ current (advance lex) = current lex ∧
  peek (advance lex) = peek lex ∧ has_peek (advance lex) = has_peek lex ∧
  (pos lex <= pos (advance lex) <= S (pos lex))%nat.
Proof.
  unfold advance. destruct (_ !! _); [| split_and!; done || lia].
  destruct (_ =? 10); cbn; split_and!; done || lia.
Qed.

Lemma reach_frame lex lex' :
  reach lex lex' →
  source lex' = source lex ∧ file_id lex' = file_id lex ∧ diag lex' = diag lex ∧
  current lex' = current lex ∧ peek lex' = peek lex ∧ has_peek lex' = has_peek lex ∧
  (pos lex <= pos lex')%nat.
Proof.
  induction 1 as [| lex lex' _ IH]; [split_and!; done || lia |].
  pose proof (advance_frame lex) as (? & ? & ? & ? & ? & ? & ?).
  destruct IH as (? & ? & ? & ? & ? & ? & ?). split_and!; congruence || lia.
Qed.

Lemma reach_located lex lex' : reach lex lex' → located lex → located lex'.
Proof. induction 1; auto using advance_located. Qed.

Lemma advance_pos lex : (pos lex < length (source lex))%nat → pos (advance lex) = S (pos lex).
Proof.
  intros Hlt. unfold advance. destruct (lookup_lt_is_Some_2 _ _ Hlt) as [c ->].
  by destruct (c =? 10).
Qed.

Lemma peek_char_nonzero lex : peek_char lex ≠ 0 → (pos lex < length (source lex))%nat.
Proof.
  unfold peek_char, char_at. destruct (source lex !! pos lex) eqn:E; [| done].
  intros _. by eapply lookup_lt_Some.
Qed.

Lemma advance_n_reach n lex : reach lex (advance_n n lex).
Proof. revert lex. induction n; cbn; auto. Qed.

Lemma advance_while_reach p fuel lex : reach lex (advance_while p fuel lex).
Proof. revert lex. induction fuel; intros lex; cbn; [done |]. case_match; auto. Qed.

Lemma skip_while_reach p lex : reach lex (skip_while p lex).
Proof. apply advance_while_reach. Qed.

Lemma string_body_reach fuel lex : reach lex (string_body fuel lex).
Proof.
  revert lex. induction fuel; intros lex; cbn [string_body]; [done |].
  case_match; [done |]. eapply reach_trans; [| apply IHfuel].
  case_match; eauto using reach_trans.
Qed.

#[local] Hint Resolve advance_n_reach skip_while_reach string_body_reach : core.

(** [skip_while] has enough fuel: it stops where the predicate fails, and what
    it passed satisfies the predicate. *)
Lemma advance_while_spec p fuel lex :
  p 0 = false → (remaining lex <= fuel)%nat →
  let lex' := advance_while p fuel lex in
  p (peek_char lex') = false ∧
  Forall (λ c, p c = true) (take (pos lex' - pos lex) (drop (pos lex) (source lex))).
Proof.
  intros H0. revert lex. induction fuel as [|fuel IH]; intros lex Hf; cbn [advance_while].
  - rewrite Nat.sub_diag. split; [| constructor].
    unfold remaining in Hf. unfold peek_char, char_at.
    by rewrite lookup_ge_None_2 by lia.
  - destruct (p (peek_char lex)) eqn:Hp; [| rewrite Nat.sub_diag; by split].
    assert (Hlt : (pos lex < length (source lex))%nat).
    { apply peek_char_nonzero. intros E. congruence. }
    pose proof (advance_pos lex Hlt) as Hpos.
    pose proof (advance_frame lex) as (Hs & _).
    destruct (IH (advance lex)) as [IH1 IH2].
    { unfold remaining in *. rewrite Hs, Hpos. lia. }
    split; [done |]. rewrite Hs, Hpos in IH2.
    pose proof (reach_frame _ _ (advance_while_reach p fuel (advance lex))) as (_&_&_&_&_&_&Hle).
    rewrite Hpos in Hle.
    destruct (lookup_lt_is_Some_2 _ _ Hlt) as [c Hc].
    rewrite (drop_S _ _ _ Hc).
    replace (pos (advance_while p fuel (advance lex)) - pos lex)%nat
      with (S (pos (advance_while p fuel (advance lex)) - S (pos lex)))%nat by lia.
    cbn [take]. constructor; [| done]. unfold peek_char, char_at in Hp. by rewrite Hc in Hp.
Qed.

Lemma skip_while_spec p lex :
  p 0 = false →
  let lex' := skip_while p lex in
  p (peek_char lex') = false ∧
  Forall (λ c, p c = true) (take (pos lex' - pos lex) (drop (pos lex) (source lex))).
Proof. intros H0. by apply advance_while_spec. Qed.

(** ** Every scanning function moves, and reports what it read *)

(** The token [t] covers the source between [lex0] and [lex], or is an error
    reported once. *)
Definition covers (lex0 : lexer) (t : token) (lex : lexer) : Prop :=
  tok_span t = span_to lex (line lex0) (col lex0) ∧ kind t ≠ TOK_EOF ∧
  ((kind t ≠ TOK_ERROR ∧ start t = Some (pos lex0) ∧
      len t = (pos lex - pos lex0)%nat ∧ diag lex = diag lex0) ∨
   (kind t = TOK_ERROR ∧ start t = None ∧ ∃ msg, diag lex = diag lex0 ++ [(tok_span t, msg)])).

(** A scan from a position inside the source. *)
Definition scans (lex0 : lexer) (r : token * lexer) : Prop :=
  ∃ lex1, reach lex0 lex1 ∧ (pos lex0 < pos lex1)%nat ∧
    (∃ d, snd r = with_diag lex1 d) ∧ covers lex0 (fst r) (snd r).

Lemma with_diag_same lex : with_diag lex (diag lex) = lex.
Proof. by destruct lex. Qed.

Lemma scans_token lex0 lex t :
  reach lex0 lex → (pos lex0 < pos lex)%nat →
  tok_span t = span_to lex (line lex0) (col lex0) →
  kind t ≠ TOK_EOF → kind t ≠ TOK_ERROR →
  start t = Some (pos lex0) → len t = (pos lex - pos lex0)%nat →
  scans lex0 (t, lex).
Proof.
  intros Hr Hp Hsp H1 H2 Hst Hlen. exists lex. split; [done |]. split; [done |].
  split; [exists (diag lex); by rewrite with_diag_same |].
  split; [done |]. split; [done |]. left. split_and!; try done.
  by apply (reach_frame _ _ Hr).
Qed.

Lemma scans_error lex0 lex msg :
  reach lex0 lex → (pos lex0 < pos lex)%nat →
  scans lex0 (make_error lex msg (line lex0) (col lex0)).
Proof.
  intros Hr Hp. exists lex. split; [done |]. split; [done |].
  split; [by eexists |]. split; [done |]. split; [done |]. right.
  split; [done |]. split; [done |]. exists msg. cbn.
  by destruct (reach_frame _ _ Hr) as (_ & _ & -> & _).
Qed.

Lemma peek_char_same lex lex' :
  source lex' = source lex → pos lex' = pos lex → peek_char lex' = peek_char lex.
Proof. unfold peek_char. by intros -> ->. Qed.

Lemma skip_while_moves p lex :
  p 0 = false → p (peek_char lex) = true → (pos lex < pos (skip_while p lex))%nat.
Proof.
  intros H0 Hp. destruct (skip_while_spec p lex H0) as [Hstop _].
  destruct (reach_frame _ _ (skip_while_reach p lex)) as (Hs & _ & _ & _ & _ & _ & Hle).
  destruct (decide (pos (skip_while p lex) = pos lex)) as [E | E]; [| lia].
  rewrite (peek_char_same lex) in Hstop by done. congruence.
Qed.

Lemma advance_moves lex lex' :
  (pos lex < length (source lex))%nat → reach (advance lex) lex' → (pos lex < pos lex')%nat.
Proof.
  intros Hlt Hr. pose proof (advance_pos lex Hlt).
  destruct (reach_frame _ _ Hr) as (_ & _ & _ & _ & _ & _ & ?). lia.
Qed.

Lemma keyword_kinds_ok :
  Forall (λ x, x.2 ≠ TOK_EOF ∧ x.2 ≠ TOK_ERROR ∧ x.2 ≠ TOK_IDENT) keywords.
Proof. repeat constructor; discriminate. Qed.

Lemma find_keyword_in kws text n :
  find_keyword kws text n = TOK_IDENT ∨
  ∃ name, (name, find_keyword kws text n) ∈ kws ∧ length name = n ∧ strcasecmp_n text name n = 0.
Proof.
  induction kws as [|[name k] kws IH]; cbn [find_keyword]; [by left |].
  destruct (bool_decide (length name = n) && (strcasecmp_n text name n =? 0)) eqn:E.
  - right. exists name. apply andb_true_iff in E as [E1 E2].
    apply bool_decide_eq_true in E1. apply Z.eqb_eq in E2.
    split_and!; [apply list_elem_of_here | done | done].
  - destruct IH as [IH | (nm & ? & ?)]; [by left |]. right. exists nm.
    split; [by apply list_elem_of_further | done].
Qed.

Lemma lookup_keyword_kind text n :
  lookup_keyword text n ≠ TOK_EOF ∧ lookup_keyword text n ≠ TOK_ERROR.
Proof.
  unfold lookup_keyword. destruct (find_keyword_in keywords text n) as [-> | (nm & Hin & _)]; [done |].
  pose proof keyword_kinds_ok as H. rewrite Forall_forall in H. by destruct (H _ Hin) as (? & ? & ?).
Qed.

Lemma scan_identifier_scans lex :
  is_ident_start (peek_char lex) = true → scans lex (scan_identifier lex).
Proof.
  intros Hc. unfold scan_identifier.
  assert (is_ident_char (peek_char lex) = true) by (unfold is_ident_char; by rewrite Hc).
  apply scans_token; cbn; auto; try apply lookup_keyword_kind.
  by apply skip_while_moves.
Qed.

Lemma scan_number_scans lex :
  (pos lex < length (source lex))%nat →
  peek_char lex = ch "-" ∨ is_digit (peek_char lex) = true →
  scans lex (scan_number lex).
Proof.
  intros Hlt Hc. unfold scan_number.
  set (lex1 := if peek_char lex =? ch "-" then advance lex else lex).
  set (lex2 := skip_while is_digit lex1).
  assert (H12 : reach lex lex2 ∧ (pos lex < pos lex2)%nat).
  { subst lex2 lex1. destruct (Z.eqb_spec (peek_char lex) (ch "-")) as [E | E].
    - split; [eauto |]. by apply advance_moves.
    - destruct Hc as [Hc | Hc]; [done |]. split; [auto |]. by apply skip_while_moves. }
  destruct H12 as [Hr2 Hp2].
  assert (Hlater : ∀ l, reach lex2 l → reach lex l ∧ (pos lex < pos l)%nat).
  { intros l Hl. split; [by eapply reach_trans |]. pose proof (reach_frame _ _ Hl). lia. }
  destruct ((peek_char lex2 =? ch ".") && is_digit (peek_char_n lex2 1)) eqn:Hdot;
    [set (lex3 := skip_while is_digit (advance lex2)) | set (lex3 := lex2)].
  all: assert (Hr3 : reach lex2 lex3) by (subst lex3; eauto).
  all: destruct ((peek_char lex3 =? ch "e") || (peek_char lex3 =? ch "E")).
  all: try (destruct (Hlater lex3 Hr3); apply scans_token; cbn; done).
  all: set (lex4 := if (peek_char (advance lex3) =? ch "+") || (peek_char (advance lex3) =? ch "-")
               then advance (advance lex3) else advance lex3).
  all: assert (Hr4 : reach lex2 lex4)
    by (eapply reach_trans; [exact Hr3 | subst lex4; case_match; eauto]).
  all: destruct (negb (is_digit (peek_char lex4)));
    [destruct (Hlater lex4 Hr4); by apply scans_error |].
  all: assert (Hr5 : reach lex2 (skip_while is_digit lex4)) by (eapply reach_trans; eauto).
  all: destruct (Hlater _ Hr5); apply scans_token; cbn; done.
Qed.

Lemma scan_hex_scans lex :
  (pos lex < length (source lex))%nat → scans lex (scan_hex lex).
Proof.
  intros Hlt. unfold scan_hex.
  destruct (negb (is_hex_digit (peek_char (advance (advance lex))))).
  - apply scans_error; [eauto |]. apply advance_moves; eauto.
  - apply scans_token; cbn; eauto. apply advance_moves; eauto.
Qed.

Lemma scan_string_scans lex :
  (pos lex < length (source lex))%nat → scans lex (scan_string lex).
Proof.
  intros Hlt. unfold scan_string. set (lex1 := string_body _ _).
  assert (Hr : reach (advance lex) lex1) by apply string_body_reach.
  destruct (negb (peek_char lex1 =? 34)).
  - apply scans_error; [eauto |]. by apply advance_moves.
  - assert (reach (advance lex) (advance lex1)) by (eapply reach_trans; eauto).
    apply scans_token; cbn; eauto. by apply advance_moves.
Qed.

Definition step_reach (s : scan_step) : Prop :=
  ∀ lex, match s lex with inl (_, lex') => reach lex lex' | inr lex' => reach lex lex' end.

Lemma expect_digits_reach n msg : step_reach (expect_digits n msg).
Proof.
  induction n as [|n IH]; intros lex; cbn [expect_digits]; [auto |].
  destruct (is_digit (peek_char lex)); [| auto].
  specialize (IH (advance lex)). destruct (expect_digits n msg (advance lex)) as [[? ?] | ?]; eauto.
Qed.

Lemma expect_char_reach c msg : step_reach (expect_char c msg).
Proof. intros lex. unfold expect_char. destruct (_ =? _); auto. Qed.

Lemma then_reach a b : step_reach a → step_reach b → step_reach (then_ a b).
Proof.
  intros Ha Hb lex. unfold then_. specialize (Ha lex). destruct (a lex) as [[m l] | l]; [done |].
  specialize (Hb l). destruct (b l) as [[m' l'] | l']; eauto using reach_trans.
Qed.

#[local] Hint Resolve expect_digits_reach expect_char_reach then_reach : core.

Lemma scan_date_scans lex :
  (pos lex < length (source lex))%nat → scans lex (scan_date_or_datetime lex).
Proof.
  intros Hlt. unfold scan_date_or_datetime.
  assert (Herr : ∀ m l, reach (advance lex) l → scans lex (make_error l m (line lex) (col lex))).
  { intros m l Hl. apply scans_error; [by constructor | by apply advance_moves]. }
  assert (Hfin : ∀ k l, reach (advance lex) l → k ≠ TOK_EOF → k ≠ TOK_ERROR →
    scans lex (match expect_char (ch "#") (lit "invalid date literal: expected closing '#'") l with
      | inl (m, l') => make_error l' m (line lex) (col lex)
      | inr l' => (token_from lex l' k, l') end)).
  { intros k l Hl H1 H2.
    pose proof (expect_char_reach (ch "#") (lit "invalid date literal: expected closing '#'") l) as Hr.
    destruct (expect_char _ _ l) as [[m l'] | l']; [by apply Herr; eapply reach_trans |].
    apply scans_token; cbn; try done; [constructor; by eapply reach_trans |].
    apply advance_moves; [done | by eapply reach_trans]. }
  assert (Hday : step_reach scan_day) by (unfold scan_day; auto).
  assert (Htime : step_reach scan_time) by (unfold scan_time; auto 10).
  specialize (Hday (advance lex)).
  destruct (scan_day (advance lex)) as [[m l] | l]; [by apply Herr |].
  destruct (_ || _); [| by apply Hfin].
  specialize (Htime (advance l)). destruct (scan_time (advance l)) as [[m l'] | l'].
  - apply Herr. eapply reach_trans; [done |]. by constructor.
  - apply Hfin; [| done | done]. eapply reach_trans; [done |]. by constructor.
Qed.

Lemma comment_scans lex l :
  (pos lex < length (source lex))%nat → reach (advance lex) l →
  scans lex (token_from lex (skip_while not_eol l) TOK_COMMENT, skip_while not_eol l).
Proof.
  intros Hlt Hr. assert (reach (advance lex) (skip_while not_eol l)) by eauto using reach_trans.
  apply scans_token; cbn; eauto. by apply advance_moves.
Qed.

Lemma single_scans lex k n :
  (pos lex + n <= length (source lex))%nat → (0 < n)%nat → k ≠ TOK_EOF → k ≠ TOK_ERROR →
  scans lex (make_token (advance_n n lex) k (Some (pos lex)) n (line lex) (col lex), advance_n n lex).
Proof.
  intros Hn Hpos H1 H2.
  assert (Hp : pos (advance_n n lex) = (pos lex + n)%nat).
  { clear -Hn. revert lex Hn. induction n as [|n IH]; intros lex Hn; cbn [advance_n]; [lia |].
    pose proof (advance_frame lex) as (Hs & _).
    rewrite IH; rewrite advance_pos by lia; rewrite ?Hs; lia. }
  apply scans_token; cbn; auto; lia.
Qed.

Lemma punctuation_ok c c1 k n :
  punctuation c c1 = Some (k, n) →
  k ≠ TOK_EOF ∧ k ≠ TOK_ERROR ∧ (n = 1%nat ∨ n = 2%nat ∧ c1 ≠ 0).
Proof.
  unfold punctuation. repeat case_match; intros [= <- <-]; split_and!; try done; auto.
  all: right; split; [done |]; intros ->; done.
Qed.

Lemma scan_token_scans lex :
  (pos lex < length (source lex))%nat → scans lex (scan_token lex).
Proof.
  intros Hlt. unfold scan_token. rewrite (proj2 (Nat.leb_gt _ _)) by done.
  assert (Hone : ∀ k, k ≠ TOK_EOF → k ≠ TOK_ERROR →
    scans lex (make_token (advance_n 1 lex) k (Some (pos lex)) 1 (line lex) (col lex), advance_n 1 lex))
    by (intros; apply single_scans; done || lia).
  destruct (peek_char lex =? 10); [by apply Hone |].
  destruct (peek_char lex =? 39); [by apply comment_scans |].
  destruct (is_ident_start (peek_char lex)) eqn:Hid.
  { destruct (is_rem lex); [| by apply scan_identifier_scans].
    unfold scan_rem_comment. apply comment_scans; [done | apply (advance_n_reach 2)]. }
  destruct (is_digit (peek_char lex)) eqn:Hdig; [apply scan_number_scans; auto |].
  destruct (_ && _); [by apply scan_hex_scans |].
  destruct (peek_char lex =? 34); [by apply scan_string_scans |].
  destruct (peek_char lex =? ch "#").
  { destruct (is_digit (peek_char_n lex 1)); [by apply scan_date_scans | by apply Hone]. }
  destruct ((peek_char lex =? ch "-") && _) eqn:Hneg.
  { apply scan_number_scans; [done |]. left. apply andb_true_iff in Hneg as [E _].
    by apply Z.eqb_eq in E. }
  destruct (punctuation _ _) as [[k n] |] eqn:Hp.
  - apply punctuation_ok in Hp as (H1 & H2 & Hn). apply single_scans; [| lia | done | done].
    destruct Hn as [-> | [-> Hc1]]; [lia |].
    unfold peek_char_n, char_at in Hc1. destruct (source lex !! (pos lex + 1)%nat) eqn:E; [| done].
    apply lookup_lt_Some in E. lia.
  - apply scans_error; [auto |]. by apply advance_moves.
Qed.

(** ** One call of the lexer *)

Definition blank_char (c : Z) : bool :=
  (c =? ch " ") || (c =? 9) || (c =? 13) || (c =? ch ":").

(** [next_ok lex t lex' ws text]: from [lex] the call skipped [ws], read [text]
    as the token [t] and stopped at [lex']. *)
Record next_ok (lex : lexer) (t : token) (lex' : lexer) (ws text : cstr) : Prop := {
  no_split : drop (pos lex) (source lex) = ws ++ text ++ drop (pos lex') (source lex);
  no_pos : pos lex' = (pos lex + length ws + length text)%nat;
  no_ws : Forall (λ c, blank_char c = true) ws;
  no_eof : kind t = TOK_EOF ↔ text = [];
  no_end : text = [] → pos lex' = length (source lex);
  no_text : kind t ≠ TOK_ERROR → bucc_token_text (source lex) t = text ∧ diag lex' = diag lex;
  no_error : kind t = TOK_ERROR → ∃ msg, diag lex' = diag lex ++ [(tok_span t, msg)];
  no_span : tok_span t =
    let p0 := (pos lex + length ws)%nat in
    MkSpan (file_id lex) (line_at (source lex) p0) (col_at (source lex) p0)
      (line_at (source lex) (pos lex')) (col_at (source lex) (pos lex'));
  no_source : source lex' = source lex;
  no_file : file_id lex' = file_id lex;
  no_located : located lex';
  no_peek : has_peek lex' = false;
  no_current : current lex' = t
}.

Lemma split_at (l : cstr) p q :
  (p <= q <= length l)%nat → drop p l = take (q - p) (drop p l) ++ drop q l.
Proof.
  intros H. rewrite <- (take_drop (q - p) (drop p l)) at 1. f_equal.
  rewrite drop_drop. f_equal. lia.
Qed.

Lemma length_between (l : cstr) p q :
  (p <= q <= length l)%nat → length (take (q - p) (drop p l)) = (q - p)%nat.
Proof. intros. rewrite length_take, length_drop. lia. Qed.

Lemma bucc_lexer_next_ok lex :
  located lex → has_peek lex = false →
  ∃ ws text, next_ok lex (fst (bucc_lexer_next lex)) (snd (bucc_lexer_next lex)) ws text.
Proof.
  intros Hloc Hpk. unfold bucc_lexer_next. rewrite Hpk.
  set (lex1 := skip_whitespace lex).
  assert (Hr1 : reach lex lex1) by apply skip_while_reach.
  destruct (reach_frame _ _ Hr1) as (Hs1 & Hf1 & Hd1 & _ & _ & Hp1 & Hle1).
  pose proof (reach_located _ _ Hr1 Hloc) as Hloc1.
  destruct (skip_while_spec blank_char lex eq_refl) as [_ Hws].
  change (skip_while blank_char lex) with lex1 in Hws.
  pose proof Hloc1 as (Hb1 & Hl1 & Hc1).
  exists (take (pos lex1 - pos lex) (drop (pos lex) (source lex))).
  rewrite Hs1 in *.
  assert (Hwl := length_between (source lex) (pos lex) (pos lex1) ltac:(lia)).
  destruct (decide (pos lex1 = length (source lex))) as [Hend | Hend].
  - exists []. unfold scan_token. rewrite Hs1, (proj2 (Nat.leb_le _ _)) by lia. cbn.
    split; rewrite ?Hwl; cbn; try done; try (lia || by intros).
    + by apply split_at; lia.
    + unfold span_to. rewrite Hf1, Hl1, Hc1. do 2 f_equal; f_equal; lia.
  - destruct (scan_token_scans lex1) as (lex2 & Hr2 & Hp2 & [d Hd] & Hcov); [rewrite Hs1; lia |].
    destruct (reach_frame _ _ Hr2) as (Hs2 & Hf2 & Hd2 & _ & _ & Hpk2 & _).
    pose proof (reach_located _ _ Hr2 Hloc1) as Hloc2. pose proof Hloc2 as (Hb2 & Hl2 & Hc2).
    destruct (scan_token lex1) as [t lex3]. cbn [fst snd] in *. subst lex3.
    destruct Hcov as (Hspan & Hne & Hcase).
    change (diag (with_diag lex2 d)) with d in *. change (pos (with_diag lex2 d)) with (pos lex2) in *.
    rewrite Hs2, Hs1 in Hb2, Hl2, Hc2.
    assert (Htl := length_between (source lex) (pos lex1) (pos lex2) ltac:(lia)).
    exists (take (pos lex2 - pos lex1) (drop (pos lex1) (source lex))).
    split; cbn; rewrite ?Hwl, ?Htl; try done; try congruence.
    + rewrite <- split_at by lia. by apply split_at; lia.
    + lia.
    + split; [done |]. intros E. apply (f_equal length) in E. rewrite Htl in E. cbn in E. lia.
    + intros E. apply (f_equal length) in E. rewrite Htl in E. cbn in E. lia.
    + intros Hk. destruct Hcase as [(_ & Hst & Hlen & ->) | [? _]]; [| done].
      unfold bucc_token_text. rewrite Hst, Hlen. split; [done | congruence].
    + intros Hk. destruct Hcase as [[? _] | (_ & _ & msg & ->)]; [done |].
      exists msg. by rewrite Hd1.
    + rewrite Hspan. unfold span_to. cbn. rewrite Hf2, Hf1, Hl1, Hc1, Hl2, Hc2.
      replace (pos lex + (pos lex1 - pos lex))%nat with (pos lex1) by lia. done.
Qed.

(** C37. One call of the lexer, from any located state: it skips blanks, then
    reads a nonempty token, or reports the end exactly when nothing is left; a
    token's text is the source it covers, an error is reported once and still
    moves forward, and the span is the source coordinates of the token. *)
Theorem bucc_lexer_next_spec lex t lex' :
  located lex → has_peek lex = false → bucc_lexer_next lex = (t, lex') →
  ∃ ws text, next_ok lex t lex' ws text.
Proof.
  intros Hloc Hpk E. destruct (bucc_lexer_next_ok lex Hloc Hpk) as (ws & text & H).
  rewrite E in H. eauto.
Qed.

(** ** The whole source *)

(** The tokens before the end of the source; [None] when [fuel] calls do not
    reach it. *)
Fixpoint lex_all (fuel : nat) (lex : lexer) : option (list token) :=
  match fuel with
  | O => None
  | S fuel =>
      let '(t, lex) := bucc_lexer_next lex in
      if bool_decide (kind t = TOK_EOF) then Some []
      else cons t <$> lex_all fuel lex
  end.

(** A token and the piece of source it was read from. *)
Definition reads_piece (src : cstr) (t : token) (piece : cstr * cstr) : Prop :=
  Forall (λ c, blank_char c = true) piece.1 ∧ piece.2 ≠ [] ∧
  (kind t = TOK_ERROR ∨ bucc_token_text src t = piece.2).

Lemma lex_all_from src fuel : ∀ lex,
  located lex → has_peek lex = false → source lex = src →
  (length src - pos lex < fuel)%nat →
  ∃ ts pieces tail, lex_all fuel lex = Some ts ∧
    drop (pos lex) src = mjoin ((λ p, p.1 ++ p.2) <$> pieces) ++ tail ∧
    Forall (λ c, blank_char c = true) tail ∧ Forall2 (reads_piece src) ts pieces.
Proof.
  induction fuel as [|fuel IH]; intros lex Hloc Hpk Hsrc Hf; [lia |].
  cbn [lex_all]. destruct (bucc_lexer_next_ok lex Hloc Hpk) as (ws & text & Hok).
  destruct (bucc_lexer_next lex) as [t lex']. cbn in Hok.
  destruct Hok as [Hsp Hpos Hws Heof Hend Htext Herr Hspan Hs' Hf' Hloc' Hpk' Hcur].
  rewrite Hsrc in *. case_bool_decide as Hk.
  - exists [], [], ws. split_and!; [done | | done | constructor].
    apply Heof in Hk as ->. rewrite Hsp, Hend by done. by rewrite drop_all, !app_nil_r.
  - assert (Hne : text ≠ []) by tauto.
    destruct (IH lex' Hloc' Hpk' Hs') as (ts & pieces & tail & Hts & Hd & Ht & H2).
    { destruct text; [done |]. destruct Hloc' as [Hle _]. rewrite Hs' in Hle. cbn in Hpos. lia. }
    exists (t :: ts), ((ws, text) :: pieces), tail. rewrite Hts. split_and!; try done.
    + rewrite Hsp, Hd. cbn. by rewrite <- !app_assoc.
    + constructor; [| done]. split; [done |]. split; [done |].
      destruct (decide (kind t = TOK_ERROR)); [by left | right; by apply Htext].
Qed.

(** Tokenization is total and lossless: whatever the source, the lexer
    reaches the end within one call per character, and the source is exactly
    the blanks and the texts of its tokens in order (the piece an error covers
    included), with blanks at the end. *)
Theorem lexer_lossless src file d :
  ∃ ts pieces tail,
    lex_all (S (length src)) (bucc_lexer_init src file d) = Some ts ∧
    src = mjoin ((λ p, p.1 ++ p.2) <$> pieces) ++ tail ∧
    Forall (λ c, blank_char c = true) tail ∧ Forall2 (reads_piece src) ts pieces.
Proof.
  apply (lex_all_from src (S (length src)) (bucc_lexer_init src file d)); try done.
  - split_and!; [cbn; lia | done | done].
  - cbn. lia.
Qed.

(** ** Peeking *)

(** Peeking is invisible: after [bucc_lexer_peek] the current token is what
    it was, a second peek returns the same token, and the next call returns
    that token and leaves the lexer in the state an unpeeked call would have
    left it in. *)
Theorem bucc_lexer_peek_transparent lex t lex1 :
  has_peek lex = false → bucc_lexer_peek lex = (t, lex1) →
  current lex1 = current lex ∧
  bucc_lexer_peek lex1 = (t, lex1) ∧
  ∃ lex2, bucc_lexer_next lex = (t, lex2) ∧
    bucc_lexer_next lex1 = (t, set_peek lex2 t false).
Proof.
  unfold bucc_lexer_peek. intros Hpk. rewrite Hpk.
  destruct (bucc_lexer_next lex) as [t' lex'] eqn:E. intros [= -> <-]. cbn.
  split; [done |]. split; [done |]. exists lex'. split; [done |].
  unfold bucc_lexer_next in E. rewrite Hpk in E.
  destruct (scan_token (skip_whitespace lex)) as [t' l]. injection E as <- <-. done.
Qed.

(** ** Keywords *)

Lemma strcasecmp_n_eq n : ∀ a b,
  (n <= length a)%nat → length b = n →
  strcasecmp_n a b n = 0 ↔ map toupper (take n a) = map toupper b.
Proof.
  induction n as [|n IH]; intros a b Ha Hb.
  - by destruct b.
  - destruct a as [|x a]; [cbn in Ha; lia |]. destruct b as [|y b]; [done |].
    cbn in Ha, Hb. cbn [strcasecmp_n take map drop]. unfold char_at. cbn.
    destruct (Z.eqb_spec (toupper x) (toupper y)) as [E | E].
    + rewrite !drop_0, E, IH by lia. split; [by intros -> | by intros [= ->]].
    + split; [intros; exfalso; lia | by intros [=]].
Qed.

Lemma keyword_table_ok :
  Forall (λ x, map toupper x.1 = x.1 ∧ bucc_token_kind_name x.2 = x.1) keywords.
Proof. repeat (constructor; [split; reflexivity |]). constructor. Qed.

Lemma keyword_names_distinct : NoDup (fst <$> keywords).
Proof. apply (bool_decide_unpack _). vm_compute. exact I. Qed.

Lemma find_keyword_hit kws text n name k :
  NoDup (fst <$> kws) → Forall (λ x, map toupper x.1 = x.1) kws →
  (name, k) ∈ kws → (n <= length text)%nat → length name = n →
  map toupper (take n text) = name → find_keyword kws text n = k.
Proof.
  intros Hnd Hup Hin Hn Hlen Heq. induction kws as [|[nm kd] kws IH]; [by apply not_elem_of_nil in Hin |].
  cbn in Hnd. inversion Hnd as [| ? ? Hnot Hnd']; subst x l. inversion Hup as [|? ? Hu Hup']; subst.
  cbn [find_keyword]. apply elem_of_cons in Hin as [[= <- <-] | Hin].
  - rewrite bool_decide_eq_true_2 by done.
    rewrite (proj2 (strcasecmp_n_eq _ text _ ltac:(done) eq_refl)); [done |].
    rewrite Heq. by cbn in Hu.
  - destruct (bool_decide (length nm = _) && _) eqn:E; [| by apply IH].
    apply andb_true_iff in E as [E1 E2]. apply bool_decide_eq_true in E1. apply Z.eqb_eq in E2.
    apply strcasecmp_n_eq in E2; [| lia | done]. cbn in Hu. rewrite Hu in E2.
    exfalso. apply Hnot. apply list_elem_of_fmap. exists (name, k). split; [cbn; congruence | done].
Qed.

(** Keywords are recognised in any case and nothing else is: a text of
    [n] characters is given the keyword kind [k] exactly when it is, up to
    case, the name that kind prints as; otherwise it is an identifier. *)
Theorem lookup_keyword_spec text n k :
  (n <= length text)%nat → k ≠ TOK_IDENT →
  lookup_keyword text n = k ↔
  (map toupper (take n text), k) ∈ keywords ∧ bucc_token_kind_name k = map toupper (take n text).
Proof.
  intros Hn Hk. pose proof keyword_table_ok as Htab. split.
  - intros Hl. unfold lookup_keyword in Hl.
    destruct (find_keyword_in keywords text n) as [E | (name & Hin & Hlen & Hcmp)]; [congruence |].
    rewrite Hl in Hin. rewrite Forall_forall in Htab. destruct (Htab _ Hin) as [Hu Hname].
    apply strcasecmp_n_eq in Hcmp; [| done | done]. cbn in Hu, Hname.
    rewrite Hcmp, Hu. by split.
  - intros [Hin _].
    apply (find_keyword_hit keywords text n (map toupper (take n text)) k); try done.
    + exact keyword_names_distinct.
    + eapply Forall_impl; [exact Htab |]. by intros ? [? _].
    + rewrite length_map, length_take. lia.
Qed.

(** ** Integer literals *)

Lemma char_at_drop src p k : char_at src (p + k) = char_at (drop p src) k.
Proof. unfold char_at. by rewrite lookup_drop. Qed.

Lemma peek_drop lex : peek_char lex = char_at (drop (pos lex) (source lex)) 0.
Proof. unfold peek_char. by rewrite <- char_at_drop, Nat.add_0_r. Qed.

Lemma reach_bound lex lex' :
  reach lex lex' → (pos lex <= length (source lex))%nat → (pos lex' <= length (source lex))%nat.
Proof.
  induction 1 as [| lex lex' Hr IH]; [done |]. intros Hb.
  destruct (advance_frame lex) as (Hs & _). rewrite Hs in IH. apply IH.
  destruct (decide (pos lex = length (source lex))) as [E | E].
  - unfold advance. rewrite lookup_ge_None_2; lia.
  - rewrite advance_pos; lia.
Qed.

(** [skip_while] stops exactly after the longest prefix. *)
Lemma skip_while_prefix p lex a b :
  p 0 = false → drop (pos lex) (source lex) = a ++ b → (pos lex <= length (source lex))%nat →
  Forall (λ c, p c = true) a → p (char_at b 0) = false →
  pos (skip_while p lex) = (pos lex + length a)%nat.
Proof.
  intros H0 Hab Hbound Ha Hb. destruct (skip_while_spec p lex H0) as [Hstop Hall].
  pose proof (reach_bound _ _ (skip_while_reach p lex) Hbound) as Hq.
  destruct (reach_frame _ _ (skip_while_reach p lex)) as (Hs & _ & _ & _ & _ & _ & Hle).
  set (q := pos (skip_while p lex)) in *.
  rewrite peek_drop, Hs in Hstop. fold q in Hstop. rewrite Hab in Hall.
  replace q with (pos lex + (q - pos lex))%nat in Hstop by lia.
  rewrite <- drop_drop, Hab in Hstop.
  apply (f_equal length) in Hab. rewrite length_drop, length_app in Hab.
  destruct (lt_eq_lt_dec (q - pos lex) (length a)) as [[Hlt | Heq] | Hgt]; [exfalso | lia | exfalso].
  - destruct (lookup_lt_is_Some_2 a (q - pos lex)) as [c Hc]; [done |].
    rewrite drop_app_le, (drop_S _ _ _ Hc) in Hstop by lia.
    apply (Forall_lookup_1 _ _ _ _ Ha) in Hc. unfold char_at in Hstop. cbn in Hstop. congruence.
  - rewrite take_app_ge in Hall by lia. apply Forall_app in Hall as [_ Hall].
    destruct b as [|c b]; [cbn in Hab; lia |].
    destruct (q - pos lex - length a)%nat eqn:E; [lia |]. cbn [take] in Hall.
    inversion Hall; subst. unfold char_at in Hb. cbn in Hb. congruence.
Qed.

(** What may follow an integer literal without becoming part of a number. *)
Definition ends_integer (rest : cstr) : Prop :=
  let c := char_at rest 0 in
  is_digit c = false ∧ c ≠ ch "." ∧ c ≠ ch "e" ∧ c ≠ ch "E".

Lemma is_digit_isdigit c : is_digit c = isdigit c.
Proof. done. Qed.

Lemma not_digit_stops rest : is_digit (char_at rest 0) = false → stops 10 rest.
Proof.
  destruct rest as [|c r]; [done |]. unfold char_at. cbn. intros Hc. change (isdigit c = false) in Hc.
  unfold digit_of. rewrite Hc. unfold islower, isupper, isdigit in *.
  destruct ((97 <=? c) && (c <=? 122)) eqn:E1; [lia |].
  destruct ((65 <=? c) && (c <=? 90)) eqn:E2; lia.
Qed.

(** The sign and the digits of a printed integer. *)
Lemma fmt_d_shape z :
  ∃ s ds, fmt_d z = s ++ ds ∧ Forall (λ c, is_digit c = true) ds ∧ ds ≠ [] ∧
    (s = [] ∨ s = [ch "-"]).
Proof.
  unfold fmt_d. destruct (Z.ltb_spec z 0).
  - destruct (dec_of_nonneg_digits (- z)) as [? ?]; [lia |].
    exists [ch "-"], (dec_of_nonneg (- z)). auto.
  - destruct (dec_of_nonneg_digits z) as [? ?]; [lia |]. exists [], (dec_of_nonneg z). auto.
Qed.

Lemma scan_number_integer lex s ds rest :
  drop (pos lex) (source lex) = s ++ ds ++ rest → (pos lex <= length (source lex))%nat →
  Forall (λ c, is_digit c = true) ds → ds ≠ [] → s = [] ∨ s = [ch "-"] → ends_integer rest →
  ∃ lex', scan_number lex =
    (set_value (token_from lex lex' TOK_INTEGER) (VI64 (fst (strtoll 10 (s ++ ds ++ rest)))), lex') ∧
    pos lex' = (pos lex + length (s ++ ds))%nat ∧ source lex' = source lex.
Proof.
  intros Hdrop Hb Hds Hne Hs (Hr & Hdot & He & HE).
  unfold scan_number. rewrite Hdrop.
  set (lex1 := if peek_char lex =? ch "-" then advance lex else lex).
  assert (H1 : pos lex1 = (pos lex + length s)%nat ∧ reach lex lex1).
  { subst lex1. rewrite peek_drop, Hdrop. destruct Hs as [-> | ->]; cbn.
    - destruct Hds as [|c ds Hc _]; [done |]. unfold char_at. cbn.
      destruct (Z.eqb_spec c (ch "-")) as [-> |]; [done |]. split; [lia | auto].
    - assert (pos lex < length (source lex))%nat.
      { apply (f_equal length) in Hdrop. rewrite length_drop in Hdrop. cbn in Hdrop. lia. }
      unfold char_at. cbn [lookup list_lookup default]. rewrite Z.eqb_refl.
      rewrite advance_pos by done. split; [lia | auto]. }
  destruct H1 as [Hp1 Hr1]. destruct (reach_frame _ _ Hr1) as (Hs1 & _).
  pose proof (reach_bound _ _ Hr1 Hb) as Hb1.
  set (lex2 := skip_while is_digit lex1).
  assert (Hd1 : drop (pos lex1) (source lex1) = ds ++ rest).
  { rewrite Hs1, Hp1, <- drop_drop, Hdrop. by rewrite drop_app_length. }
  assert (Hp2 : pos lex2 = (pos lex1 + length ds)%nat)
    by (apply (skip_while_prefix _ _ ds rest); try done; by rewrite Hs1).
  destruct (reach_frame _ _ (skip_while_reach is_digit lex1)) as (Hs2 & _).
  assert (Hpk : peek_char lex2 = char_at rest 0).
  { rewrite peek_drop. fold lex2 in Hs2. rewrite Hs2, Hp2, <- drop_drop, Hd1.
    by rewrite drop_app_length. }
  rewrite Hpk, (proj2 (Z.eqb_neq _ _) Hdot). cbn [andb]. cbv beta iota zeta. rewrite Hpk.
  rewrite (proj2 (Z.eqb_neq _ _) He), (proj2 (Z.eqb_neq _ _) HE). cbn [orb].
  exists lex2. split; [done |]. rewrite length_app. fold lex2 in Hs2. split; [lia | congruence].
Qed.

(** A source position at a number: a digit, or a minus sign before one. *)
Definition number_head (l : cstr) : Prop :=
  match l with
  | c :: r => c = ch "-" ∧ is_digit (char_at (c :: r) 1) = true ∨ is_digit c = true
  | [] => False
  end.

Lemma skip_whitespace_stays lex :
  number_head (drop (pos lex) (source lex)) → skip_whitespace lex = lex.
Proof.
  intros Hh. unfold skip_whitespace, skip_while.
  assert (E : blank_char (peek_char lex) = false).
  { rewrite peek_drop. destruct (drop _ _) as [|c r]; [done |]. unfold char_at. cbn.
    destruct Hh as [[-> _] | Hc]; [done |]. unfold is_digit, blank_char in *. chars. lia. }
  unfold blank_char in E. destruct (remaining lex); [done |]. cbn [advance_while]. by rewrite E.
Qed.

Lemma scan_token_number lex :
  (pos lex < length (source lex))%nat → number_head (drop (pos lex) (source lex)) →
  scan_token lex = scan_number lex.
Proof.
  intros Hlt Hh. unfold scan_token. rewrite (proj2 (Nat.leb_gt _ _)) by done.
  assert (Hpk1 : peek_char_n lex 1 = char_at (drop (pos lex) (source lex)) 1)
    by apply char_at_drop.
  rewrite Hpk1, (peek_drop lex). destruct (drop _ _) as [|c r]; [done |].
  change (char_at (c :: r) 0) with c. destruct Hh as [[-> Hd] | Hd]; [by rewrite Hd |].
  unfold is_ident_start. rewrite Hd. unfold is_digit in Hd. chars.
  replace (c =? 10) with false by lia. replace (c =? 39) with false by lia.
  by replace (((97 <=? c) && (c <=? 122)) || ((65 <=? c) && (c <=? 90)) || (c =? 95))
    with false by lia.
Qed.

(** Integer literals read back what they print: at the start of a source
    that begins with the decimal text of a 64-bit integer [z] and continues
    with no digit, point or exponent, the first token is an integer literal
    whose text is that text and whose value is [z]. *)
Theorem lexer_integer_roundtrip z rest file d :
  in_s 64 z → ends_integer rest →
  ∃ t lex', bucc_lexer_next (bucc_lexer_init (fmt_d z ++ rest) file d) = (t, lex') ∧
    kind t = TOK_INTEGER ∧ value t = VI64 z ∧
    bucc_token_text (fmt_d z ++ rest) t = fmt_d z.
Proof.
  intros Hz Hrest. destruct (fmt_d_shape z) as (s & ds & Hf & Hds & Hne & Hs).
  set (lex := bucc_lexer_init (fmt_d z ++ rest) file d).
  assert (Hhead : ∃ c r, fmt_d z ++ rest = c :: r ∧
    (c = ch "-" ∧ is_digit (char_at (c :: r) 1) = true ∨ is_digit c = true)).
  { rewrite Hf. destruct Hds as [|c ds Hc _]; [done |]. destruct Hs as [-> | ->].
    - exists c, (ds ++ rest). auto.
    - exists (ch "-"), (c :: ds ++ rest). auto. }
  destruct Hhead as (c & r & Hsrc & Hc).
  assert (Hnum : number_head (drop (pos lex) (source lex)))
    by (change (number_head (fmt_d z ++ rest)); by rewrite Hsrc).
  assert (Hws : skip_whitespace lex = lex) by by apply skip_whitespace_stays.
  destruct (scan_number_integer lex s ds rest) as (lex' & Hscan & Hp & Hs'); try done.
  { change (fmt_d z ++ rest = s ++ ds ++ rest). by rewrite Hf, <- app_assoc. }
  { cbn. lia. }
  exists (fst (scan_number lex)), (set_current lex' (fst (scan_number lex))).
  rewrite Hscan. cbn [fst]. split.
  - unfold bucc_lexer_next. change (has_peek lex) with false. cbv beta iota.
    rewrite Hws, scan_token_number, Hscan; [done | | done].
    change (0 < length (fmt_d z ++ rest))%nat. rewrite Hsrc. cbn. lia.
  - split; [done |]. cbn [value set_value]. rewrite app_assoc, <- Hf.
    rewrite strtoll_fmt_d by (done || apply not_digit_stops; apply Hrest). split; [done |].
    unfold bucc_token_text. cbn [start len set_value token_from make_token].
    rewrite Hp, <- Hf, Nat.add_comm, Nat.add_sub.
    change (pos lex) with 0%nat. rewrite drop_0. apply take_app_length.
Qed.

(** Two literals the lexer misreads. A minus sign directly before a digit is
    always part of the number, so a subtraction written without spaces is an
    identifier followed by a negative literal and no operator. And a hexadecimal
    literal's value is read by [strtoll] past its own text: [&H0x1F] is the
    token [&H0] with the value 31, followed by the identifier [x1F]. *)
Theorem lexer_misreads :
  (∃ ts, lex_all 9 (bucc_lexer_init (lit "N-1") 0 []) = Some ts ∧
    (λ t, (kind t, value t)) <$> ts = [(TOK_IDENT, VNone); (TOK_INTEGER, VI64 (-1))]) ∧
  (∃ ts, lex_all 9 (bucc_lexer_init (lit "&H0x1F") 0 []) = Some ts ∧
    (λ t, (kind t, bucc_token_text (lit "&H0x1F") t, value t)) <$> ts =
      [(TOK_HEX, lit "&H0", VI64 31); (TOK_IDENT, lit "x1F", VNone)]).
Proof. split; (eexists; split; [vm_compute; reflexivity | reflexivity]). Qed.

(** ** Witnesses *)

Definition sample_source : cstr := lit "LET n = -42 : rem done".

Lemma bucc_lexer_next_spec_witness :
  let '(t, lex') := bucc_lexer_next (bucc_lexer_init sample_source 1 []) in
  kind t = TOK_KW_LET ∧ ∃ ws text, next_ok (bucc_lexer_init sample_source 1 []) t lex' ws text.
Proof.
  destruct (bucc_lexer_next (bucc_lexer_init sample_source 1 [])) as [t lex'] eqn:E.
  split; [vm_compute in E; injection E as <- _; reflexivity |].
  apply (bucc_lexer_next_spec _ t lex'); [| reflexivity | exact E].
  split; [cbn; lia | split; reflexivity].
Defined.

Lemma bucc_lexer_peek_transparent_witness :
  let lex := bucc_lexer_init sample_source 1 [] in
  let '(t, lex1) := bucc_lexer_peek lex in
  current lex1 = current lex ∧ fst (bucc_lexer_next lex1) = t.
Proof.
  destruct (bucc_lexer_peek (bucc_lexer_init sample_source 1 [])) as [t lex1] eqn:E.
  destruct (bucc_lexer_peek_transparent (bucc_lexer_init sample_source 1 []) t lex1 eq_refl E)
    as (H1 & _ & lex2 & _ & H3).
  cbv zeta. rewrite E. split; [exact H1 |]. rewrite H3. reflexivity.
Defined.

Lemma lookup_keyword_spec_witness :
  lookup_keyword (lit "Function foo") 8 = TOK_KW_FUNCTION.
Proof.
  apply (lookup_keyword_spec (lit "Function foo") 8 TOK_KW_FUNCTION);
    [cbn; lia | discriminate |].
  split; [| reflexivity]. apply list_elem_of_lookup. exists 12%nat. reflexivity.
Defined.

Lemma lexer_integer_roundtrip_witness :
  ∃ t lex', bucc_lexer_next (bucc_lexer_init (fmt_d (-42) ++ lit " : rem") 0 []) = (t, lex') ∧
    kind t = TOK_INTEGER ∧ value t = VI64 (-42).
Proof.
  destruct (lexer_integer_roundtrip (-42) (lit " : rem") 0 []) as (t & l & H1 & H2 & H3 & _).
  - zred. lia.
  - repeat split; try reflexivity; discriminate.
  - exists t, l. auto.
Defined.
