(* ===== verification/Value.v ===== *)
(** Runtime values of the Buccaneer language (src/buccaneer/value.c): tagged
    values, immutable strings, and arrays, maps and errors that live in an
    explicit store and are shared by reference. Allocation succeeds; reference
    counts and the growth of capacities, which no result depends on, are not
    modelled. *)

From S2P Require Import Prelude CLib Float.

#[local] Open Scope Z_scope.

(** ** Data *)

(** src/buccaneer/include/bucc_value.h:39-43 (bucc_date) *)
Record date : Type := MkDate { d_year : Z; d_month : Z; d_day : Z }.

(** src/buccaneer/include/bucc_value.h:45-53 (bucc_datetime) *)
Record datetime : Type := MkDatetime {
  dt_year : Z; dt_month : Z; dt_day : Z; dt_hour : Z; dt_minute : Z; dt_second : Z
}.

#[export] Instance date_eq_dec : EqDecision date.
Proof. solve_decision. Defined.
#[export] Instance datetime_eq_dec : EqDecision datetime.
Proof. solve_decision. Defined.

(** A reference to a cell of the store. *)
Abbreviation loc := nat.

(** src/buccaneer/include/bucc_value.h:86-99 (bucc_value) *)
Inductive value : Type :=
  | VNull
  | VBool (b : bool)
  | VI64 (z : Z)
  | VF64 (f : f64)
  | VString (s : cstr)
  | VDate (d : date)
  | VDatetime (d : datetime)
  | VArray (a : loc)
  | VMap (m : loc)
  | VError (e : loc).

(** src/buccaneer/include/bucc_value.h:55-84 (bucc_array) *)
Inductive cell : Type :=
  | CArray (items : list value)
  | CMap (entries : list (cstr * value))
  | CError (message code : option cstr) (line : Z).

Abbreviation heap := (list cell).

Definition alloc (h : heap) (c : cell) : heap * loc := (h ++ [c], length h).

Definition get_array (h : heap) (a : loc) : option (list value) :=
  match h !! a with Some (CArray l) => Some l | _ => None end.
Definition get_map (h : heap) (m : loc) : option (list (cstr * value)) :=
  match h !! m with Some (CMap l) => Some l | _ => None end.

(** src/buccaneer/include/bucc_value.h:22-33 (bucc_value_kind) *)
Definition value_kind (v : value) : Z :=
  match v with
  | VNull => 0 | VBool _ => 1 | VI64 _ => 2 | VF64 _ => 3 | VString _ => 4
  | VDate _ => 5 | VDatetime _ => 6 | VArray _ => 7 | VMap _ => 8 | VError _ => 9
  end.

(** src/buccaneer/value.c:14-28 (bucc_value_kind_name) *)
Definition bucc_value_kind_name (kind : Z) : cstr :=
  if kind =? 0 then lit "NULL"
  else if kind =? 1 then lit "BOOLEAN"
  else if kind =? 2 then lit "INTEGER"
  else if kind =? 3 then lit "DOUBLE"
  else if kind =? 4 then lit "STRING"
  else if kind =? 5 then lit "DATE"
  else if kind =? 6 then lit "DATETIME"
  else if kind =? 7 then lit "ARRAY"
  else if kind =? 8 then lit "MAP"
  else if kind =? 9 then lit "ERROR"
  else lit "UNKNOWN".

Definition is_numeric (v : value) : bool :=
  match v with VI64 _ | VF64 _ => true | _ => false end.

(** [k == BUCC_VAL_I64 ? (double)as.i64 : as.f64] of a numeric value *)
Definition as_double (v : value) : f64 :=
  match v with VI64 z => f64_of_Z z | VF64 f => f | _ => fzero end.

(** ** Strings *)

(** src/buccaneer/value.c:30-37 (hash_bytes) *)
Definition hash_bytes (data : cstr) : Z :=
  foldl (λ hash b, u32 (Z.lxor hash (u8 b) * 16777619)) 2166136261 data.

(** src/buccaneer/value.c:65-88 (bucc_string_concat) *)
Definition bucc_string_concat (a b : cstr) : cstr := a ++ b.

(** src/buccaneer/value.c:102-114 (bucc_string_cmp) *)
Definition bucc_string_cmp (a b : cstr) : Z :=
  let min_len := if zlen a <? zlen b then zlen a else zlen b in
  let cmp := memcmp (takeZ min_len a) (takeZ min_len b) in
  if negb (cmp =? 0) then cmp
  else if zlen a <? zlen b then -1
  else if zlen b <? zlen a then 1
  else 0.

(** ** Arrays *)

(** src/buccaneer/value.c:120-137 (bucc_array_new) *)
Definition bucc_array_new (h : heap) : heap * loc := alloc h (CArray []).

(** src/buccaneer/value.c:164-171 (bucc_array_push) *)
Definition bucc_array_push (h : heap) (a : loc) (v : value) : bool * heap :=
  match get_array h a with
  | Some items => (true, <[a := CArray (items ++ [v])]> h)
  | None => (false, h)
  end.

(** src/buccaneer/value.c:173-176 (bucc_array_pop) *)
Definition bucc_array_pop (h : heap) (a : loc) : value * heap :=
  match get_array h a with
  | Some items =>
      match last items with
      | Some v => (v, <[a := CArray (take (length items - 1) items)]> h)
      | None => (VNull, h)
      end
  | None => (VNull, h)
  end.

(** src/buccaneer/value.c:178-183 (bucc_array_get) *)
Definition bucc_array_get (h : heap) (a : loc) (idx : Z) : value :=
  match get_array h a with
  | Some items => default VNull (nthZ items idx)
  | None => VNull
  end.

(** src/buccaneer/value.c:185-191 (bucc_array_set) *)
Definition bucc_array_set (h : heap) (a : loc) (idx : Z) (v : value) : bool * heap :=
  match get_array h a with
  | Some items =>
      if zlen items <=? idx then (false, h)
      else (true, <[a := CArray (<[Z.to_nat idx := v]> items)]> h)
  | None => (false, h)
  end.

(** ** Maps *)

(** src/buccaneer/value.c:193-210 (bucc_map_new) *)
Definition bucc_map_new (h : heap) : heap * loc := alloc h (CMap []).

(** src/buccaneer/value.c:231-240 (map_find) *)
Fixpoint map_find (entries : list (cstr * value)) (key : cstr) : option nat :=
  match entries with
  | [] => None
  | (k, _) :: entries =>
      if (hash_bytes k =? hash_bytes key) && (bucc_string_cmp k key =? 0) then Some O
      else S <$> map_find entries key
  end.

(** src/buccaneer/value.c:242-248 (bucc_map_get) *)
Definition bucc_map_get (h : heap) (m : loc) (key : cstr) : value :=
  match get_map h m with
  | Some entries =>
      match map_find entries key with
      | Some i => default VNull (snd <$> entries !! i)
      | None => VNull
      end
  | None => VNull
  end.

Definition map_put (entries : list (cstr * value)) (key : cstr) (v : value) : list (cstr * value) :=
  match map_find entries key with
  | Some i => alter (λ e, (fst e, v)) i entries
  | None => entries ++ [(key, v)]
  end.

(** src/buccaneer/value.c:250-286 (bucc_map_set) *)
Definition bucc_map_set (h : heap) (m : loc) (key : cstr) (v : value) : bool * heap :=
  match get_map h m with
  | Some entries => (true, <[m := CMap (map_put entries key v)]> h)
  | None => (false, h)
  end.

(** src/buccaneer/value.c:288-290 (bucc_map_has) *)
Definition bucc_map_has (h : heap) (m : loc) (key : cstr) : bool :=
  match get_map h m with
  | Some entries => bool_decide (is_Some (map_find entries key))
  | None => false
  end.

(** src/buccaneer/value.c:292-309 (bucc_map_delete) *)
Definition bucc_map_delete (h : heap) (m : loc) (key : cstr) : bool * heap :=
  match get_map h m with
  | Some entries =>
      match map_find entries key with
      | Some i => (true, <[m := CMap (delete i entries)]> h)
      | None => (false, h)
      end
  | None => (false, h)
  end.

(** src/buccaneer/value.c:311-323 (bucc_map_keys) *)
Definition bucc_map_keys (h : heap) (m : loc) : heap * loc :=
  let keys := match get_map h m with Some entries => (λ e, VString (fst e)) <$> entries | None => [] end in
  alloc h (CArray keys).

(** ** Errors *)

(** src/buccaneer/value.c:325-335 (bucc_error_new) *)
Definition bucc_error_new (h : heap) (message code : option cstr) (line : Z) : heap * loc :=
  alloc h (CError message code line).

(** src/buccaneer/value.c:626-629 (bucc_make_error) *)
Definition bucc_make_error (h : heap) (msg : option cstr) : heap * value :=
  let '(h, e) := bucc_error_new h msg None 0 in (h, VError e).

(** src/buccaneer/value.c:621-624 (bucc_make_string) *)
Definition bucc_make_string (s : option cstr) : value := VString (default [] s).

(** ** Tests *)

(** src/buccaneer/value.c:378-391 (bucc_value_truthy) *)
Definition bucc_value_truthy (h : heap) (v : value) : bool :=
  match v with
  | VNull => false
  | VBool b => b
  | VI64 z => negb (z =? 0)
  | VF64 f => negb (feqb f fzero)
  | VString s => 0 <? zlen s
  | VArray a => match get_array h a with Some l => 0 <? zlen l | None => false end
  | VMap m => match get_map h m with Some l => 0 <? zlen l | None => false end
  | VError _ => false
  | VDate _ | VDatetime _ => true
  end.

Fixpoint forall2b {A B} (f : A → B → option bool) (l : list A) (k : list B) : option bool :=
  match l, k with
  | x :: l, y :: k => b ← f x y; if b : bool then forall2b f l k else Some false
  | _, _ => Some true
  end.

Fixpoint forallb_opt {A} (f : A → option bool) (l : list A) : option bool :=
  match l with
  | x :: l => b ← f x; if b : bool then forallb_opt f l else Some false
  | [] => Some true
  end.

(** The recursion follows references, so a cyclic array never ends; [None] is
    that, when no fuel suffices.
    src/buccaneer/value.c:393-447 (bucc_value_equal) *)
Fixpoint bucc_value_equal (fuel : nat) (h : heap) (a b : value) : option bool :=
  match fuel with
  | O => None
  | S fuel =>
      match a, b with
      | VNull, VNull => Some true
      | VBool x, VBool y => Some (Bool.eqb x y)
      | VI64 x, VI64 y => Some (x =? y)
      | VF64 x, VF64 y => Some (feqb x y)
      | VString x, VString y => Some (bucc_string_cmp x y =? 0)
      | VDate x, VDate y => Some (bool_decide (x = y))
      | VDatetime x, VDatetime y => Some (bool_decide (x = y))
      | VArray x, VArray y =>
          match get_array h x, get_array h y with
          | Some l, Some k =>
              if negb (zlen l =? zlen k) then Some false
              else forall2b (bucc_value_equal fuel h) l k
          | _, _ => Some false
          end
      | VMap x, VMap y =>
          match get_map h x, get_map h y with
          | Some l, Some k =>
              if negb (zlen l =? zlen k) then Some false
              else forallb_opt (λ e,
                let other := bucc_map_get h y (fst e) in
                let found := negb (value_kind other =? 0) || bucc_map_has h y (fst e) in
                if found then bucc_value_equal fuel h (snd e) other else Some false) l
          | _, _ => Some false
          end
      | VError x, VError y => Some (bool_decide (x = y))
      | _, _ =>
          if is_numeric a && is_numeric b then Some (feqb (as_double a) (as_double b))
          else Some false
      end
  end.

(** The first nonzero difference of two lists of fields. *)
Fixpoint first_diff (a b : list Z) : Z :=
  match a, b with
  | x :: a, y :: b => if x =? y then first_diff a b else x - y
  | _, _ => 0
  end.

Definition date_fields (d : date) : list Z := [d_year d; d_month d; d_day d].
Definition datetime_fields (d : datetime) : list Z :=
  [dt_year d; dt_month d; dt_day d; dt_hour d; dt_minute d; dt_second d].

(** src/buccaneer/value.c:449-490 (bucc_value_compare) *)
Definition bucc_value_compare (a b : value) : Z :=
  if is_numeric a && is_numeric b then
    let da := as_double a in
    let db := as_double b in
    if fltb da db then -1 else if fltb db da then 1 else 0
  else if negb (value_kind a =? value_kind b) then value_kind a - value_kind b
  else match a, b with
  | VString x, VString y => bucc_string_cmp x y
  | VDate x, VDate y => first_diff (date_fields x) (date_fields y)
  | VDatetime x, VDatetime y => first_diff (datetime_fields x) (datetime_fields y)
  | _, _ => 0
  end.

(** src/buccaneer/value.c:591-619 (bucc_value_equals) *)
Definition bucc_value_equals (a b : value) : bool :=
  match a, b with
  | VNull, VNull => true
  | VBool x, VBool y => Bool.eqb x y
  | VI64 x, VI64 y => x =? y
  | VF64 x, VF64 y => feqb x y
  | VString x, VString y => bucc_string_cmp x y =? 0
  | VDate x, VDate y => bool_decide (x = y)
  | VDatetime x, VDatetime y => bool_decide (x = y)
  | _, _ => false
  end.

(** ** Conversions *)

(** src/buccaneer/value.c:492-534 (bucc_value_to_string) *)
Definition bucc_value_to_string (h : heap) (v : value) : cstr :=
  match v with
  | VNull => lit "NULL"
  | VBool b => if b then lit "TRUE" else lit "FALSE"
  | VI64 z => fmt_d z
  | VF64 f => fmt_g f
  | VString s => s
  | VDate d =>
      lit "#" ++ fmt_0d 4 (d_year d) ++ lit "-" ++ fmt_0d 2 (d_month d) ++ lit "-" ++
      fmt_0d 2 (d_day d) ++ lit "#"
  | VDatetime d =>
      lit "#" ++ fmt_0d 4 (dt_year d) ++ lit "-" ++ fmt_0d 2 (dt_month d) ++ lit "-" ++
      fmt_0d 2 (dt_day d) ++ lit "T" ++ fmt_0d 2 (dt_hour d) ++ lit ":" ++
      fmt_0d 2 (dt_minute d) ++ lit ":" ++ fmt_0d 2 (dt_second d) ++ lit "#"
  | VArray a =>
      lit "[ARRAY len=" ++ fmt_d (match get_array h a with Some l => zlen l | None => 0 end) ++ lit "]"
  | VMap m =>
      lit "{MAP len=" ++ fmt_d (match get_map h m with Some l => zlen l | None => 0 end) ++ lit "}"
  | VError e =>
      match h !! e with
      | Some (CError (Some m) _ _) => m
      | _ => lit "[ERROR]"
      end
  end.

(** The number and the [ok] flag.
    src/buccaneer/value.c:536-563 (bucc_value_to_number) *)
Definition bucc_value_to_number (v : value) : f64 * bool :=
  match v with
  | VI64 z => (f64_of_Z z, true)
  | VF64 f => (f, true)
  | VBool b => (if b then fone else fzero, true)
  | VString s =>
      let t := c_string s in
      let '(d, e) := strtod t in
      if bool_decide (length e = length t) then (fzero, false) else (d, true)
  | _ => (fzero, false)
  end.

(** [None] when the conversion of a double is undefined.
    src/buccaneer/value.c:573-589 (bucc_value_to_int) *)
Definition bucc_value_to_int (v : value) : option Z :=
  match v with
  | VI64 z => Some z
  | VF64 f => f64_to_i64 f
  | VBool b => Some (if b then 1 else 0)
  | VString s => Some (fst (strtoll 10 (c_string s)))
  | _ => Some 0
  end.

(** src/buccaneer/value.c:565-571 (bucc_value_to_cstring) *)
Definition bucc_value_to_cstring (h : heap) (v : value) : cstr := c_string (bucc_value_to_string h v).

(** ** C-string keys *)

Fixpoint find_cstr (entries : list (cstr * value)) (key : cstr) : option value :=
  match entries with
  | [] => None
  | (k, v) :: entries =>
      if bool_decide (c_string k = key) then Some v else find_cstr entries key
  end.

(** The pointer returned, as the value it points at.
    src/buccaneer/value.c:631-645 (bucc_map_get_cstr) *)
Definition bucc_map_get_cstr (h : heap) (m : loc) (key : cstr) : option value :=
  match bucc_map_get h m key with
  | VNull => None
  | _ => match get_map h m with Some entries => find_cstr entries key | None => None end
  end.

(** src/buccaneer/value.c:647-653 (bucc_map_set_cstr) *)
Definition bucc_map_set_cstr (h : heap) (m : loc) (key : cstr) (v : value) : bool * heap :=
  bucc_map_set h m key v.

(** src/buccaneer/value.c:655-661 (bucc_map_has_cstr) *)
Definition bucc_map_has_cstr (h : heap) (m : loc) (key : cstr) : bool := bucc_map_has h m key.

(** src/buccaneer/value.c:663-669 (bucc_map_delete_cstr) *)
Definition bucc_map_delete_cstr (h : heap) (m : loc) (key : cstr) : bool * heap :=
  bucc_map_delete h m key.
