(* ===== verification/ValueSpec.v ===== *)
(** Correctness of the runtime values: maps refine finite maps and keep their
    insertion order, comparison is antisymmetric (and loses precision on large
    integers), integers survive the conversion to a string and back. *)

From S2P Require Import Prelude CLib Float Value.
From stdpp Require Import gmap.

#[local] Open Scope Z_scope.

(** ** Strings *)

Lemma takeZ_ge {A} (l : list A) n : zlen l <= n → takeZ n l = l.
Proof. unfold takeZ, zlen. intros. apply take_ge. lia. Qed.

Lemma zlen_takeZ {A} (l : list A) n : 0 <= n → zlen (takeZ n l) = Z.min n (zlen l).
Proof. unfold takeZ, zlen. intros. rewrite length_take. lia. Qed.

Lemma bucc_string_cmp_refl a : bucc_string_cmp a a = 0.
Proof.
  unfold bucc_string_cmp. rewrite Z.ltb_irrefl.
  pose proof (memcmp_sym (takeZ (zlen a) a) (takeZ (zlen a) a)).
  replace (memcmp _ _) with 0 by lia. done.
Qed.

Lemma bucc_string_cmp_eq a b : bucc_string_cmp a b = 0 ↔ a = b.
Proof.
  split; [| intros ->; apply bucc_string_cmp_refl].
  unfold bucc_string_cmp. pose proof (zlen_nonneg a). pose proof (zlen_nonneg b).
  destruct (Z.eqb_spec (memcmp (takeZ (if zlen a <? zlen b then zlen a else zlen b) a)
    (takeZ (if zlen a <? zlen b then zlen a else zlen b) b)) 0) as [E | E]; cbn [negb]; [| done].
  destruct (Z.ltb_spec (zlen a) (zlen b)); [lia |].
  destruct (Z.ltb_spec (zlen b) (zlen a)); [lia |].
  intros _. rewrite !takeZ_ge in E by lia. apply memcmp_eq; [lia | done].
Qed.

Lemma bucc_string_cmp_sym a b : bucc_string_cmp b a = - bucc_string_cmp a b.
Proof.
  unfold bucc_string_cmp.
  assert (E : (if zlen b <? zlen a then zlen b else zlen a) =
              (if zlen a <? zlen b then zlen a else zlen b))
    by (destruct (Z.ltb_spec (zlen a) (zlen b)), (Z.ltb_spec (zlen b) (zlen a)); lia).
  rewrite E, (memcmp_sym (takeZ _ a)). set (c := memcmp (takeZ _ a) _).
  destruct (Z.eqb_spec (- c) 0), (Z.eqb_spec c 0); cbn [negb]; try lia.
  destruct (Z.ltb_spec (zlen a) (zlen b)), (Z.ltb_spec (zlen b) (zlen a)); lia.
Qed.

(** ** Maps *)

Definition keys (entries : list (cstr * value)) : list cstr := fst <$> entries.

(** The finite map an entry table stands for. *)
Definition table (entries : list (cstr * value)) : gmap cstr value := list_to_map entries.

(** The hash comparison of [map_find] decides nothing. *)
Lemma key_test k key :
  ((hash_bytes k =? hash_bytes key) && (bucc_string_cmp k key =? 0)) = bool_decide (k = key).
Proof.
  destruct (decide (k = key)) as [-> | Hne].
  - rewrite Z.eqb_refl, bucc_string_cmp_refl, bool_decide_eq_true_2 by done. done.
  - rewrite bool_decide_eq_false_2 by done.
    destruct (Z.eqb_spec (bucc_string_cmp k key) 0) as [E | _]; [| apply andb_false_r].
    by apply bucc_string_cmp_eq in E.
Qed.

Lemma map_find_cons k v entries key :
  map_find ((k, v) :: entries) key =
    if decide (k = key) then Some O else S <$> map_find entries key.
Proof. cbn [map_find]. rewrite key_test. by rewrite bool_decide_decide; destruct (decide _). Qed.

Lemma map_find_None entries key : map_find entries key = None ↔ table entries !! key = None.
Proof.
  induction entries as [|[k v] entries IH]; [done |].
  rewrite map_find_cons. unfold table in *. cbn. destruct (decide (k = key)) as [-> | Hne].
  - rewrite lookup_insert_eq. by split.
  - rewrite lookup_insert_ne, <- IH by done. destruct (map_find entries key); by split.
Qed.

Lemma map_find_Some entries key i :
  map_find entries key = Some i →
  ∃ v, entries !! i = Some (key, v) ∧ table entries !! key = Some v.
Proof.
  revert i. induction entries as [|[k v] entries IH]; intros i; [done |].
  rewrite map_find_cons. unfold table in *. cbn. destruct (decide (k = key)) as [-> | Hne].
  - intros [= <-]. exists v. by rewrite lookup_insert_eq.
  - intros (j & Hj & ->)%fmap_Some. destruct (IH j Hj) as (w & ? & ?). exists w.
    by rewrite lookup_insert_ne.
Qed.

Lemma keys_alter entries i v : keys (alter (λ e, (fst e, v)) i entries) = keys entries.
Proof.
  unfold keys. revert i. induction entries as [|e entries IH]; intros [|i]; cbn; try done.
  f_equal. apply IH.
Qed.

Lemma keys_map_put entries key v :
  keys (map_put entries key v) =
    if decide (key ∈ keys entries) then keys entries else keys entries ++ [key].
Proof.
  unfold map_put. destruct (map_find entries key) as [i |] eqn:E.
  - rewrite keys_alter. destruct (map_find_Some _ _ _ E) as (w & Hw & _).
    rewrite decide_True; [done |]. apply list_elem_of_fmap. exists (key, w).
    split; [done |]. by eapply list_elem_of_lookup_2.
  - apply map_find_None in E. unfold table in E.
    apply not_elem_of_list_to_map in E. rewrite decide_False by done.
    unfold keys. by rewrite fmap_app.
Qed.

Lemma NoDup_map_put entries key v : NoDup (keys entries) → NoDup (keys (map_put entries key v)).
Proof.
  intros H. rewrite keys_map_put. destruct (decide _) as [|Hn]; [done |].
  apply NoDup_app. split; [done |].
  split; [by intros x Hx ->%list_elem_of_singleton | apply NoDup_singleton].
Qed.

Lemma table_map_put entries key v :
  NoDup (keys entries) → table (map_put entries key v) = <[key := v]> (table entries).
Proof.
  intros Hnd. unfold map_put. induction entries as [|[k w] entries IH]; [done |].
  inversion Hnd as [| ? ? Hnot Hnd']; subst. rewrite map_find_cons.
  destruct (decide (k = key)) as [-> | Hne].
  - unfold table. cbn. by rewrite insert_insert_eq.
  - destruct (map_find entries key) as [i |] eqn:E; unfold table in *; cbn in *;
      rewrite insert_insert_ne by done; f_equal; by apply IH.
Qed.

Lemma map_find_lookup entries key i :
  map_find entries key = Some i → keys entries !! i = Some key.
Proof.
  intros H. destruct (map_find_Some _ _ _ H) as (v & Hv & _).
  unfold keys. by rewrite list_lookup_fmap, Hv.
Qed.

Lemma keys_delete i entries : keys (delete i entries) = delete i (keys entries).
Proof. apply list_fmap_delete. Qed.

Lemma NoDup_delete (l : list cstr) i : NoDup l → NoDup (delete i l).
Proof. intros H. eapply sublist_NoDup; [done | apply sublist_delete]. Qed.

Lemma table_delete entries key i :
  NoDup (keys entries) → map_find entries key = Some i →
  table (delete i entries) = delete key (table entries).
Proof.
  revert i. induction entries as [|[k v] entries IH]; intros i Hnd; [done |].
  inversion Hnd as [| ? ? Hnot Hnd']; subst. rewrite map_find_cons.
  destruct (decide (k = key)) as [-> | Hne].
  - intros [= <-]. unfold table. cbn. rewrite delete_insert_id; [done |].
    by apply not_elem_of_list_to_map.
  - intros (j & Hj & ->)%fmap_Some. specialize (IH j Hnd' Hj).
    change (table (delete (S j) ((k, v) :: entries))) with (<[k := v]> (table (delete j entries))).
    change (table ((k, v) :: entries)) with (<[k := v]> (table entries)).
    by rewrite IH, delete_insert_ne.
Qed.

(** A map cell with distinct keys. *)
Definition is_map (h : heap) (m : loc) (entries : list (cstr * value)) : Prop :=
  get_map h m = Some entries ∧ NoDup (keys entries).

(** The store after an update of [m] alone. *)
Definition only_changes (h h' : heap) (m : loc) : Prop :=
  length h' = length h ∧ ∀ l, l ≠ m → h' !! l = h !! l.

Lemma get_map_lookup h m entries : get_map h m = Some entries → h !! m = Some (CMap entries).
Proof. unfold get_map. destruct (h !! m) as [[] |]; naive_solver. Qed.

Lemma store_map h m entries entries' :
  get_map h m = Some entries → NoDup (keys entries') →
  is_map (<[m := CMap entries']> h) m entries' ∧ only_changes h (<[m := CMap entries']> h) m.
Proof.
  intros Hm Hnd. apply get_map_lookup in Hm. apply lookup_lt_Some in Hm.
  split; [split; [| done] | split].
  - unfold get_map. by rewrite list_lookup_insert_eq by done.
  - apply length_insert.
  - intros l Hl. by apply list_lookup_insert_ne.
Qed.

Lemma is_map_get h m entries key :
  is_map h m entries → bucc_map_get h m key = default VNull (table entries !! key).
Proof.
  intros [Hm _]. unfold bucc_map_get. rewrite Hm.
  destruct (map_find entries key) as [i |] eqn:E.
  - destruct (map_find_Some _ _ _ E) as (v & -> & ->). done.
  - apply map_find_None in E. by rewrite E.
Qed.

Lemma is_map_has h m entries key :
  is_map h m entries → bucc_map_has h m key = bool_decide (is_Some (table entries !! key)).
Proof.
  intros [Hm _]. unfold bucc_map_has. rewrite Hm. apply bool_decide_ext.
  destruct (map_find entries key) as [i |] eqn:E.
  - destruct (map_find_Some _ _ _ E) as (v & _ & ->). by split.
  - apply map_find_None in E. rewrite E. by split; intros [].
Qed.

(** C38. The map operations implement a finite map from byte strings, and no
    other cell of the store changes: reading gives the bound value or NULL,
    membership is being bound, setting binds the key (in place if it was bound,
    else at the end of the key order), deleting unbinds it and reports whether
    it was bound; keys stay distinct, and the key list is the bound keys in
    order. *)
Theorem bucc_map_refines h m entries key v :
  is_map h m entries →
  bucc_map_get h m key = default VNull (table entries !! key) ∧
  bucc_map_has h m key = bool_decide (is_Some (table entries !! key)) ∧
  (∃ h' entries', bucc_map_set h m key v = (true, h') ∧ is_map h' m entries' ∧
     only_changes h h' m ∧ table entries' = <[key := v]> (table entries) ∧
     keys entries' = if decide (key ∈ keys entries) then keys entries else keys entries ++ [key]) ∧
  (∃ h' entries', bucc_map_delete h m key = (bool_decide (is_Some (table entries !! key)), h') ∧
     is_map h' m entries' ∧ only_changes h h' m ∧
     table entries' = delete key (table entries)) ∧
  (∃ h' a, bucc_map_keys h m = (h', a) ∧ get_array h' a = Some (VString <$> keys entries)).
Proof.
  intros Hmap. pose proof Hmap as [Hm Hnd]. split; [by apply is_map_get |].
  split; [by apply is_map_has |]. split; [| split].
  - unfold bucc_map_set. rewrite Hm. eexists _, (map_put entries key v). split; [done |].
    destruct (store_map h m entries (map_put entries key v) Hm) as [? ?];
      [by apply NoDup_map_put |].
    by rewrite table_map_put, keys_map_put.
  - unfold bucc_map_delete. rewrite Hm. destruct (map_find entries key) as [i |] eqn:E.
    + eexists _, (delete i entries).
      destruct (map_find_Some _ _ _ E) as (w & _ & Hw).
      rewrite bool_decide_eq_true_2 by by rewrite Hw. split; [done |].
      destruct (store_map h m entries (delete i entries) Hm) as [? ?];
        [rewrite keys_delete; by apply NoDup_delete |].
      by rewrite (table_delete entries key i).
    + apply map_find_None in E. exists h, entries.
      rewrite bool_decide_eq_false_2 by (rewrite E; by intros []).
      split; [done |]. split; [done |]. split; [by split |]. by rewrite delete_id.
  - unfold bucc_map_keys. rewrite Hm. eexists _, _. split; [done |].
    unfold get_array. rewrite lookup_app_r by done. rewrite Nat.sub_diag. cbn.
    unfold keys. by rewrite <- list_fmap_compose.
Qed.

(** ** Comparison *)

Lemma fcompare_sym x y c : SFcompare x y = Some c → SFcompare y x = Some (CompOpp c).
Proof.
  destruct x as [s | s | | s m e], y as [s' | s' | | s' m' e']; cbn; try discriminate;
    try (destruct s; intros [= <-]; reflexivity); try (destruct s'; intros [= <-]; reflexivity);
    try (intros [= <-]; reflexivity); try (destruct s, s'; intros [= <-]; reflexivity).
  intros [= <-]. f_equal. rewrite (Z.compare_antisym e e').
  change (Pos.compare_cont Eq m' m) with (Pos.compare m' m).
  change (Pos.compare_cont Eq m m') with (Pos.compare m m').
  rewrite (Pos.compare_antisym m m').
  destruct s, s'; try done; destruct (e ?= e'); cbn; by rewrite ?CompOpp_involutive.
Qed.

Lemma fltb_asym x y : fltb x y = true → fltb y x = false.
Proof.
  unfold fltb, SFltb. destruct (SFcompare x y) as [[] |] eqn:E; try discriminate.
  by rewrite (fcompare_sym _ _ _ E).
Qed.

Lemma first_diff_sym a b : first_diff b a = - first_diff a b.
Proof.
  revert b. induction a as [|x a IH]; intros [|y b]; cbn; try done.
  rewrite Z.eqb_sym. destruct (Z.eqb_spec x y); [apply IH | lia].
Qed.

(** Comparison is antisymmetric: swapping the operands of
    [bucc_value_compare] negates the result, for every pair of values of any
    kinds, NaN included; so [<] and [>], and [<=] and [>=], mirror each other. *)
Theorem bucc_value_compare_antisym a b : bucc_value_compare b a = - bucc_value_compare a b.
Proof.
  unfold bucc_value_compare. rewrite (andb_comm (is_numeric b)).
  destruct (is_numeric a && is_numeric b).
  - destruct (fltb (as_double a) (as_double b)) eqn:E1; [by rewrite (fltb_asym _ _ E1) |].
    by destruct (fltb (as_double b) (as_double a)).
  - rewrite Z.eqb_sym. destruct (value_kind a =? value_kind b); cbn [negb]; [| lia].
    destruct a, b; try done; auto using bucc_string_cmp_sym, first_diff_sym.
Qed.

(** Comparison goes through doubles even for two integers, so it does not
    agree with equality: 2^53 and 2^53 + 1 compare as equal ([<=] and [>=] both
    hold, [<] does not) while [bucc_value_equal] tells them apart. *)
Theorem bucc_value_compare_loses_precision h fuel :
  let a := VI64 (2 ^ 53) in
  let b := VI64 (2 ^ 53 + 1) in
  bucc_value_compare a b = 0 ∧ bucc_value_equal (S fuel) h a b = Some false.
Proof. split; reflexivity. Qed.

(** ** Integers and strings *)

Lemma fmt_d_no_nul z : Forall (λ c, c ≠ 0) (fmt_d z).
Proof.
  assert (H : ∀ y, 0 <= y → Forall (λ c, c ≠ 0) (dec_of_nonneg y)).
  { intros y Hy. eapply Forall_impl; [by apply dec_of_nonneg_digits |].
    cbn. unfold isdigit. lia. }
  unfold fmt_d. destruct (Z.ltb_spec z 0); [constructor; [done |] |]; apply H; lia.
Qed.

(** Integers survive their own text: converting a 64-bit integer to a string
    and that string back to an integer gives the integer. *)
Theorem bucc_value_int_roundtrip h z :
  in_s 64 z → bucc_value_to_int (VString (bucc_value_to_string h (VI64 z))) = Some z.
Proof.
  intros Hz. cbn. rewrite c_string_no_nul by apply fmt_d_no_nul.
  rewrite <- (app_nil_r (fmt_d z)). by rewrite strtoll_fmt_d.
Qed.

(** ** Witnesses *)

Definition sample_heap : heap := [CMap [(lit "port", VI64 23); (lit "host", VString (lit "bbs"))]].

Lemma bucc_map_refines_witness :
  bucc_map_get sample_heap 0 (lit "host") = VString (lit "bbs") ∧
  ∃ h', bucc_map_set sample_heap 0 (lit "port") (VI64 2323) = (true, h') ∧
    bucc_map_get h' 0 (lit "port") = VI64 2323.
Proof.
  destruct (bucc_map_refines sample_heap 0 [(lit "port", VI64 23); (lit "host", VString (lit "bbs"))]
    (lit "port") (VI64 2323)) as (_ & _ & (h' & entries' & Hset & Hm & _ & Ht & _) & _).
  - split; [reflexivity |]. apply (bool_decide_unpack _). vm_compute. exact I.
  - split; [vm_compute; reflexivity |]. exists h'. split; [exact Hset |].
    rewrite (is_map_get h' 0 entries' _ Hm), Ht. vm_compute. reflexivity.
Defined.

Lemma bucc_value_int_roundtrip_witness :
  bucc_value_to_int (VString (bucc_value_to_string [] (VI64 (-9223372036854775808)))) =
    Some (-9223372036854775808).
Proof. apply (bucc_value_int_roundtrip [] (-9223372036854775808)). zred. lia. Defined.
