(* ===== verification/Vm.v ===== *)
(** The Buccaneer virtual machine (src/buccaneer/vm.c): its state as a record,
    one definition per primitive and per opcode in a state monad, the step and
    run functions. [None] is C's undefined behaviour: a signed overflow, a
    conversion of a double out of range, a read of the stack array out of
    bounds, an endless comparison of cyclic values. *)

From S2P Require Import Prelude CLib Float Value.

#[local] Open Scope Z_scope.

(** ** Opcodes *)

(** src/buccaneer/include/bucc_emit.h:22-99 (bucc_opcode) *)
Inductive opcode : Type :=
  | OP_NOP | OP_HALT | OP_PUSH_NULL | OP_PUSH_TRUE | OP_PUSH_FALSE | OP_PUSH_I64
  | OP_PUSH_F64 | OP_PUSH_STR | OP_PUSH_DATE | OP_PUSH_DATETIME | OP_POP | OP_DUP | OP_SWAP
  | OP_LOAD_GLOBAL | OP_STORE_GLOBAL | OP_LOAD_LOCAL | OP_STORE_LOCAL | OP_LOAD_ARG
  | OP_ADD | OP_SUB | OP_MUL | OP_DIV | OP_MOD | OP_NEG | OP_EQ | OP_NE | OP_LT | OP_LE
  | OP_GT | OP_GE | OP_AND | OP_OR | OP_NOT | OP_CONCAT | OP_JMP | OP_JMP_FALSE
  | OP_JMP_TRUE | OP_CALL | OP_CALL_HOST | OP_RETURN | OP_RETURN_VALUE | OP_CHAIN
  | OP_YIELD | OP_ARRAY_NEW | OP_ARRAY_GET | OP_ARRAY_SET | OP_ARRAY_PUSH | OP_ARRAY_POP
  | OP_MAP_NEW | OP_MAP_GET | OP_MAP_SET | OP_MAP_HAS | OP_MAP_KEYS | OP_DISPATCH_CALL
  | OP_RANGE_TEST | OP_TRY_BEGIN | OP_TRY_END | OP_THROW | OP_RE_THROW | OP_CAST_I64
  | OP_CAST_F64 | OP_CAST_STRING | OP_CAST_BOOL | OP_CAST_DATE | OP_CAST_DATETIME
  | OP_TYPEOF | OP_DEBUG_LINE | OP_PROF_TICK.

Definition opcodes : list (Z * opcode) := [
  (0, OP_NOP); (1, OP_HALT); (2, OP_PUSH_NULL); (3, OP_PUSH_TRUE); (4, OP_PUSH_FALSE);
  (5, OP_PUSH_I64); (6, OP_PUSH_F64); (7, OP_PUSH_STR); (8, OP_PUSH_DATE);
  (9, OP_PUSH_DATETIME); (10, OP_POP); (11, OP_DUP); (12, OP_SWAP); (16, OP_LOAD_GLOBAL);
  (17, OP_STORE_GLOBAL); (18, OP_LOAD_LOCAL); (19, OP_STORE_LOCAL); (20, OP_LOAD_ARG);
  (32, OP_ADD); (33, OP_SUB); (34, OP_MUL); (35, OP_DIV); (36, OP_MOD); (37, OP_NEG);
  (38, OP_EQ); (39, OP_NE); (40, OP_LT); (41, OP_LE); (42, OP_GT); (43, OP_GE);
  (44, OP_AND); (45, OP_OR); (46, OP_NOT); (47, OP_CONCAT); (48, OP_JMP);
  (49, OP_JMP_FALSE); (50, OP_JMP_TRUE); (51, OP_CALL); (52, OP_CALL_HOST);
  (53, OP_RETURN); (54, OP_RETURN_VALUE); (55, OP_CHAIN); (56, OP_YIELD);
  (64, OP_ARRAY_NEW); (65, OP_ARRAY_GET); (66, OP_ARRAY_SET); (67, OP_ARRAY_PUSH);
  (68, OP_ARRAY_POP); (69, OP_MAP_NEW); (70, OP_MAP_GET); (71, OP_MAP_SET);
  (72, OP_MAP_HAS); (73, OP_MAP_KEYS); (80, OP_DISPATCH_CALL); (81, OP_RANGE_TEST);
  (96, OP_TRY_BEGIN); (97, OP_TRY_END); (98, OP_THROW); (99, OP_RE_THROW);
  (112, OP_CAST_I64); (113, OP_CAST_F64); (114, OP_CAST_STRING); (115, OP_CAST_BOOL);
  (116, OP_CAST_DATE); (117, OP_CAST_DATETIME); (118, OP_TYPEOF); (126, OP_DEBUG_LINE);
  (127, OP_PROF_TICK)].

Fixpoint assoc (l : list (Z * opcode)) (b : Z) : option opcode :=
  match l with
  | [] => None
  | (c, op) :: l => if b =? c then Some op else assoc l b
  end.

(** The opcode of a byte; [None] is the [default] of the interpreter's switch. *)
Definition decode_op (b : Z) : option opcode := assoc opcodes b.

(** ** State *)

Definition BUCC_STACK_MAX : Z := 1024.
Definition BUCC_FRAMES_MAX : Z := 256.
Definition BUCC_GLOBALS_MAX : Z := 256.
Definition BUCC_LOCALS_MAX : Z := 256.

(** src/buccaneer/include/bucc_module.h:48-56 (bucc_module_proc) *)
Record proc : Type := MkProc { proc_name : option cstr; code_offset : Z }.

(** src/buccaneer/include/bucc_module.h:58-63 (bucc_module_import) *)
Record import : Type := MkImport { imp_ns : option cstr; imp_fn : option cstr }.

(** src/buccaneer/include/bucc_module.h:77-101 (bucc_module) *)
Record module : Type := MkModule {
  strings : list cstr;
  constants : list value;
  procedures : list proc;
  imports : list import;
  bytecode : list Z
}.

(** src/buccaneer/include/bucc_vm.h:27-40 (bucc_vm_status) *)
Inductive status : Type :=
  | VM_OK | VM_HALT | VM_YIELD | VM_CHAIN | VM_ERROR | VM_STACK_OVERFLOW
  | VM_STACK_UNDERFLOW | VM_FRAME_OVERFLOW | VM_INVALID_OPCODE | VM_DIVISION_BY_ZERO
  | VM_TYPE_ERROR | VM_LIMIT_EXCEEDED.

#[export] Instance status_eq_dec : EqDecision status.
Proof. solve_decision. Defined.

(** src/buccaneer/include/bucc_vm.h:42-47 (bucc_frame) *)
Record frame : Type := MkFrame { fr_proc : Z; fr_ip : Z; fr_bp : Z; fr_local_base : Z }.

(** src/buccaneer/include/bucc_vm.h:49-54 (bucc_exception) *)
Record exception : Type := MkExc { ex_value : value; ex_frame_depth : Z; ex_active : bool }.

(** src/buccaneer/include/bucc_vm.h:56-63 (bucc_limits) *)
Record limits : Type := MkLimits {
  max_instructions : Z; max_stack_depth : Z; max_heap_bytes : Z;
  max_string_bytes : Z; max_host_calls : Z; timeslice_ms : Z
}.

(** src/buccaneer/include/bucc_vm.h:65-73 (bucc_counters) *)
Record counters : Type := MkCounters {
  instructions : Z; stack_depth : Z; host_calls : Z; profile_ticks : Z
}.

(** src/buccaneer/include/bucc_vm.h:75-80 (bucc_try_frame) *)
Record try_frame : Type := MkTry { tf_handler_ip : Z; tf_frame_depth : Z; tf_stack_depth : Z }.

(** The live part of each fixed array is a list: the stack and the frames top
    first, the globals and locals in index order; [sp], [fp], [global_count] and
    [local_count] are their lengths.
    src/buccaneer/include/bucc_vm.h:88-127 (bucc_vm) *)
Record vm : Type := MkVm {
  stack : list value;
  frames : list frame;
  globals : list value;
  locals : list value;
  ip : Z;
  exc : exception;
  try_stack : list try_frame;
  lim : limits;
  cnt : counters;
  stat : status;
  error_message : option cstr;
  chain_target : option cstr;
  chain_args : value;
  exit_code : Z;
  running : bool;
  store : heap
}.

Definition set_stack (x : list value) (m : vm) : vm :=
  MkVm x (frames m) (globals m) (locals m) (ip m) (exc m) (try_stack m) (lim m) (cnt m)
    (stat m) (error_message m) (chain_target m) (chain_args m) (exit_code m) (running m) (store m).
Definition set_frames (x : list frame) (m : vm) : vm :=
  MkVm (stack m) x (globals m) (locals m) (ip m) (exc m) (try_stack m) (lim m) (cnt m)
    (stat m) (error_message m) (chain_target m) (chain_args m) (exit_code m) (running m) (store m).
Definition set_globals (x : list value) (m : vm) : vm :=
  MkVm (stack m) (frames m) x (locals m) (ip m) (exc m) (try_stack m) (lim m) (cnt m)
    (stat m) (error_message m) (chain_target m) (chain_args m) (exit_code m) (running m) (store m).
Definition set_locals (x : list value) (m : vm) : vm :=
  MkVm (stack m) (frames m) (globals m) x (ip m) (exc m) (try_stack m) (lim m) (cnt m)
    (stat m) (error_message m) (chain_target m) (chain_args m) (exit_code m) (running m) (store m).
Definition set_ip (x : Z) (m : vm) : vm :=
  MkVm (stack m) (frames m) (globals m) (locals m) x (exc m) (try_stack m) (lim m) (cnt m)
    (stat m) (error_message m) (chain_target m) (chain_args m) (exit_code m) (running m) (store m).
Definition set_exc (x : exception) (m : vm) : vm :=
  MkVm (stack m) (frames m) (globals m) (locals m) (ip m) x (try_stack m) (lim m) (cnt m)
    (stat m) (error_message m) (chain_target m) (chain_args m) (exit_code m) (running m) (store m).
Definition set_try (x : list try_frame) (m : vm) : vm :=
  MkVm (stack m) (frames m) (globals m) (locals m) (ip m) (exc m) x (lim m) (cnt m)
    (stat m) (error_message m) (chain_target m) (chain_args m) (exit_code m) (running m) (store m).
Definition set_lim (x : limits) (m : vm) : vm :=
  MkVm (stack m) (frames m) (globals m) (locals m) (ip m) (exc m) (try_stack m) x (cnt m)
    (stat m) (error_message m) (chain_target m) (chain_args m) (exit_code m) (running m) (store m).
Definition set_cnt (x : counters) (m : vm) : vm :=
  MkVm (stack m) (frames m) (globals m) (locals m) (ip m) (exc m) (try_stack m) (lim m) x
    (stat m) (error_message m) (chain_target m) (chain_args m) (exit_code m) (running m) (store m).
Definition set_stat (x : status) (m : vm) : vm :=
  MkVm (stack m) (frames m) (globals m) (locals m) (ip m) (exc m) (try_stack m) (lim m) (cnt m)
    x (error_message m) (chain_target m) (chain_args m) (exit_code m) (running m) (store m).
Definition set_error (x : option cstr) (m : vm) : vm :=
  MkVm (stack m) (frames m) (globals m) (locals m) (ip m) (exc m) (try_stack m) (lim m) (cnt m)
    (stat m) x (chain_target m) (chain_args m) (exit_code m) (running m) (store m).
Definition set_chain (t : option cstr) (a : value) (m : vm) : vm :=
  MkVm (stack m) (frames m) (globals m) (locals m) (ip m) (exc m) (try_stack m) (lim m) (cnt m)
    (stat m) (error_message m) t a (exit_code m) (running m) (store m).
Definition set_running (x : bool) (m : vm) : vm :=
  MkVm (stack m) (frames m) (globals m) (locals m) (ip m) (exc m) (try_stack m) (lim m) (cnt m)
    (stat m) (error_message m) (chain_target m) (chain_args m) (exit_code m) x (store m).
Definition set_store (x : heap) (m : vm) : vm :=
  MkVm (stack m) (frames m) (globals m) (locals m) (ip m) (exc m) (try_stack m) (lim m) (cnt m)
    (stat m) (error_message m) (chain_target m) (chain_args m) (exit_code m) (running m) x.

Definition sp (m : vm) : Z := zlen (stack m).
Definition fp (m : vm) : Z := zlen (frames m).

Definition no_exc : exception := MkExc VNull 0 false.

(** src/buccaneer/vm.c:16-31 (bucc_vm_new) *)
Definition bucc_vm_new (h : heap) : vm :=
  MkVm [] [] [] [] 0 no_exc [] (MkLimits 1000000 BUCC_STACK_MAX 1048576 262144 10000 5000)
    (MkCounters 0 0 0 0) VM_OK None None VNull 0 false h.

(** src/buccaneer/vm.c:63-102 (bucc_vm_reset) *)
Definition bucc_vm_reset (m : vm) : vm :=
  MkVm [] [] (globals m) [] 0
    (MkExc (ex_value (exc m)) (ex_frame_depth (exc m)) false) [] (lim m)
    (MkCounters 0 0 0 0) VM_OK None None VNull (exit_code m) false (store m).

(** src/buccaneer/vm.c:110-113 (bucc_vm_set_limits) *)
Definition bucc_vm_set_limits (m : vm) (l : limits) : vm := set_lim l m.

(** ** The machine monad *)

Definition M (A : Type) : Type := vm → option (A * vm).

Definition ret {A} (x : A) : M A := λ m, Some (x, m).
Definition bind {A B} (c : M A) (k : A → M B) : M B :=
  λ m, match c m with Some (x, m') => k x m' | None => None end.
Definition undefined {A} : M A := λ _, None.
Definition gets {A} (f : vm → A) : M A := λ m, Some (f m, m).
Definition modify (f : vm → vm) : M unit := λ m, Some (tt, f m).
Definition lift {A} (o : option A) : M A :=
  match o with Some x => ret x | None => undefined end.

Declare Scope vm_scope.
Delimit Scope vm_scope with vm.
Notation "'let!' x := c 'in' k" := (bind c (λ x, k))
  (at level 10, x name, c at level 100, k at level 200) : vm_scope.
Notation "'do!' c 'in' k" := (bind c (λ _, k))
  (at level 10, c at level 100, k at level 200) : vm_scope.
Open Scope vm_scope.

(** ** Primitives *)

(** src/buccaneer/vm.c:115-126 (bucc_vm_push) *)
Definition bucc_vm_push (v : value) : M unit :=
  modify (λ m,
    if BUCC_STACK_MAX <=? sp m then set_stat VM_STACK_OVERFLOW m
    else
      let m := set_stack (v :: stack m) m in
      let c := cnt m in
      if stack_depth c <? sp m
      then set_cnt (MkCounters (instructions c) (sp m) (host_calls c) (profile_ticks c)) m
      else m).

(** src/buccaneer/vm.c:128-134 (bucc_vm_pop) *)
Definition bucc_vm_pop : M value :=
  λ m, match stack m with
  | [] => Some (VNull, set_stat VM_STACK_UNDERFLOW m)
  | v :: s => Some (v, set_stack s m)
  end.

(** src/buccaneer/vm.c:136-141 (bucc_vm_peek) *)
Definition bucc_vm_peek (m : vm) (offset : Z) : value :=
  if sp m =? 0 then VNull
  else
    let idx := u32 (sp m - 1 - offset) in
    if sp m <=? idx then VNull else default VNull (nthZ (stack m) (sp m - 1 - idx)).

(** [index] grown to by NULLs and overwritten *)
Definition store_at (l : list value) (index : Z) (v : value) : list value :=
  <[Z.to_nat index := v]> (l ++ replicate (Z.to_nat (index + 1) - length l) VNull).

(** src/buccaneer/vm.c:143-148 (bucc_vm_get_global) *)
Definition bucc_vm_get_global (m : vm) (index : Z) : value :=
  if zlen (globals m) <=? index then VNull else default VNull (nthZ (globals m) index).

(** src/buccaneer/vm.c:150-161 (bucc_vm_set_global) *)
Definition bucc_vm_set_global (index : Z) (v : value) (m : vm) : vm :=
  if BUCC_GLOBALS_MAX <=? index then m else set_globals (store_at (globals m) index v) m.

Definition local_base (m : vm) : Z :=
  match frames m with f :: _ => fr_local_base f | [] => 0 end.

(** src/buccaneer/vm.c:163-177 (bucc_vm_get_local) *)
Definition bucc_vm_get_local (m : vm) (index : Z) : value :=
  let actual := u32 (local_base m + index) in
  if zlen (locals m) <=? actual then VNull else default VNull (nthZ (locals m) actual).

(** src/buccaneer/vm.c:179-200 (bucc_vm_set_local) *)
Definition bucc_vm_set_local (index : Z) (v : value) (m : vm) : vm :=
  let actual := u32 (local_base m + index) in
  if BUCC_LOCALS_MAX <=? actual then m else set_locals (store_at (locals m) actual v) m.

(** src/buccaneer/vm.c:202-209 (bucc_vm_throw) *)
Definition bucc_vm_throw (err : value) (m : vm) : vm := set_exc (MkExc err (fp m) true) m.

(** src/buccaneer/vm.c:211-213 (bucc_vm_has_exception) *)
Definition bucc_vm_has_exception (m : vm) : bool := ex_active (exc m).

(** src/buccaneer/vm.c:215-220 (bucc_vm_get_exception) *)
Definition bucc_vm_get_exception (m : vm) : value :=
  if ex_active (exc m) then ex_value (exc m) else VNull.

(** src/buccaneer/vm.c:233-238 (vm_error) *)
Definition vm_error (s : status) (msg : cstr) : M unit :=
  modify (λ m, set_running false (set_error (Some msg) (set_stat s m))).

(** src/buccaneer/vm.c:272-298 (handle_exception) *)
Definition handle_exception : M bool :=
  let! m := gets id in
  if negb (ex_active (exc m)) then ret false
  else match try_stack m with
  | [] => ret false
  | tf :: rest =>
      do! modify (λ m, set_try rest m) in
      do! modify (λ m, set_frames (dropZ (fp m - tf_frame_depth tf) (frames m)) m) in
      do! modify (λ m, set_stack (dropZ (sp m - tf_stack_depth tf) (stack m)) m) in
      do! bucc_vm_push (ex_value (exc m)) in
      do! modify (λ m, set_exc (MkExc VNull (ex_frame_depth (exc m)) false) m) in
      do! modify (set_ip (tf_handler_ip tf)) in
      ret true
  end.

Section machine.
(** The module under execution; the integer read from the union of a value that
    holds neither an integer nor NULL; the host, if any. *)
Context (md : module).
Context (punned : value → Z).
Context (host_handler : option (vm → option cstr → option cstr → list value → value * vm)).

Definition bytecode_len : Z := zlen (bytecode md).
Definition byte_at (i : Z) : Z := default 0 (nthZ (bytecode md) i).

(** src/buccaneer/vm.c:240-246 (read_u8) *)
Definition read_u8 : M Z :=
  let! m := gets id in
  if bytecode_len <=? ip m then
    do! vm_error VM_ERROR (lit "read past end of bytecode") in ret 0
  else do! modify (set_ip (u32 (ip m + 1))) in ret (byte_at (ip m)).

(** A byte of the array; outside of it the read is undefined. *)
Definition code_byte (i : Z) : M Z := if bytecode_len <=? i then undefined else ret (byte_at i).

(** The offsets are of type [uint32_t], the sum that is compared too.
    src/buccaneer/vm.c:248-257 (read_u16) *)
Definition read_u16 : M Z :=
  let! m := gets id in
  if bytecode_len <? u32 (ip m + 2) then
    do! vm_error VM_ERROR (lit "read past end of bytecode") in ret 0
  else
    let! a := code_byte (ip m) in
    let! b := code_byte (u32 (ip m + 1)) in
    do! modify (set_ip (u32 (ip m + 2))) in
    ret (Z.lor (Z.shiftl a 8) b).

(** src/buccaneer/vm.c:259-270 (read_i32) *)
Definition read_i32 : M Z :=
  let! m := gets id in
  if bytecode_len <? u32 (ip m + 4) then
    do! vm_error VM_ERROR (lit "read past end of bytecode") in ret 0
  else
    let! a := code_byte (ip m) in
    let! b := code_byte (u32 (ip m + 1)) in
    let! c := code_byte (u32 (ip m + 2)) in
    let! d := code_byte (u32 (ip m + 3)) in
    do! modify (set_ip (u32 (ip m + 4))) in
    ret (s32 (Z.lor (Z.lor (Z.lor (Z.shiftl a 24) (Z.shiftl b 16)) (Z.shiftl c 8)) d)).

(** src/buccaneer/module.c:544-547 (bucc_module_get_string) *)
Definition bucc_module_get_string (i : Z) : option cstr :=
  if zlen (strings md) <=? i then None else nthZ (strings md) i.

(** src/buccaneer/module.c:549-552 (bucc_module_get_constant) *)
Definition bucc_module_get_constant (i : Z) : value :=
  if zlen (constants md) <=? i then VNull else default VNull (nthZ (constants md) i).

(** ** Operand helpers *)

(** [BUCC_AS_I64(v)] *)
Definition as_i64 (v : value) : Z :=
  match v with VI64 z => z | VNull => 0 | _ => punned v end.

(** [BUCC_IS_F64(v) ? BUCC_AS_F64(v) : (double)BUCC_AS_I64(v)] *)
Definition to_double (v : value) : f64 :=
  match v with VF64 f => f | _ => f64_of_Z (as_i64 v) end.

Definition is_f64 (v : value) : bool := match v with VF64 _ => true | _ => false end.
Definition is_string (v : value) : bool := match v with VString _ => true | _ => false end.

(** The result of a signed 64-bit operation. *)
Definition signed64 (z : Z) : M Z := if decide (in_s 64 z) then ret z else undefined.

Definition push_i64 (z : Z) : M unit := let! z := signed64 z in bucc_vm_push (VI64 z).

(** ** Opcodes: constants, stack, variables *)

(** src/buccaneer/vm.c:344-356 (bucc_vm_step) *)
Definition op_push_const : M unit :=
  let! idx := read_u16 in bucc_vm_push (bucc_module_get_constant idx).

(** src/buccaneer/vm.c:358-365 (bucc_vm_step) *)
Definition op_push_str : M unit :=
  let! idx := read_u16 in
  bucc_vm_push (VString (default [] (bucc_module_get_string idx))).

(** src/buccaneer/vm.c:381-385 (bucc_vm_step) *)
Definition op_dup : M unit := let! v := gets (λ m, bucc_vm_peek m 0) in bucc_vm_push v.

(** src/buccaneer/vm.c:387-397 (bucc_vm_step) *)
Definition op_swap : M unit :=
  let! m := gets id in
  match stack m with
  | a :: b :: s => modify (set_stack (b :: a :: s))
  | _ => vm_error VM_STACK_UNDERFLOW (lit "stack underflow on SWAP")
  end.

(** src/buccaneer/vm.c:399-405 (bucc_vm_step) *)
Definition op_load_global : M unit :=
  let! idx := read_u16 in
  let! v := gets (λ m, bucc_vm_get_global m idx) in bucc_vm_push v.

(** src/buccaneer/vm.c:407-413 (bucc_vm_step) *)
Definition op_store_global : M unit :=
  let! idx := read_u16 in
  let! v := bucc_vm_pop in modify (bucc_vm_set_global idx v).

(** src/buccaneer/vm.c:415-422 (bucc_vm_step) *)
Definition op_load_local : M unit :=
  let! idx := read_u16 in
  let! v := gets (λ m, bucc_vm_get_local m idx) in bucc_vm_push v.

(** src/buccaneer/vm.c:424-430 (bucc_vm_step) *)
Definition op_store_local : M unit :=
  let! idx := read_u16 in
  let! v := bucc_vm_pop in modify (bucc_vm_set_local idx v).

(** ** Opcodes: arithmetic *)

Definition concat_strings (a b : value) : M unit :=
  let! h := gets store in
  bucc_vm_push (VString (bucc_string_concat (bucc_value_to_string h a) (bucc_value_to_string h b))).

(** src/buccaneer/vm.c:432-455 (bucc_vm_step) *)
Definition op_add : M unit :=
  let! b := bucc_vm_pop in
  let! a := bucc_vm_pop in
  if is_string a || is_string b then concat_strings a b
  else if is_f64 a || is_f64 b then bucc_vm_push (VF64 (fadd (to_double a) (to_double b)))
  else push_i64 (as_i64 a + as_i64 b).

(** src/buccaneer/vm.c:457-472 (bucc_vm_step) *)
Definition op_sub : M unit :=
  let! b := bucc_vm_pop in
  let! a := bucc_vm_pop in
  if is_f64 a || is_f64 b then bucc_vm_push (VF64 (fsub (to_double a) (to_double b)))
  else push_i64 (as_i64 a - as_i64 b).

(** src/buccaneer/vm.c:474-489 (bucc_vm_step) *)
Definition op_mul : M unit :=
  let! b := bucc_vm_pop in
  let! a := bucc_vm_pop in
  if is_f64 a || is_f64 b then bucc_vm_push (VF64 (fmul (to_double a) (to_double b)))
  else push_i64 (as_i64 a * as_i64 b).

(** [bucc_vm_throw(vm, BUCC_ERROR_VAL(bucc_error_new("Division by zero", "DIV_ZERO", 0)));
    handle_exception(vm);] *)
Definition throw_div_zero : M unit :=
  let! h := gets store in
  let '(h, e) := bucc_error_new h (Some (lit "Division by zero")) (Some (lit "DIV_ZERO")) 0 in
  do! modify (set_store h) in
  do! modify (bucc_vm_throw (VError e)) in
  do! handle_exception in ret tt.

(** src/buccaneer/vm.c:491-516 (bucc_vm_step) *)
Definition op_div : M unit :=
  let! b := bucc_vm_pop in
  let! a := bucc_vm_pop in
  if is_f64 a || is_f64 b then
    if feqb (to_double b) fzero then throw_div_zero
    else bucc_vm_push (VF64 (fdiv (to_double a) (to_double b)))
  else if as_i64 b =? 0 then throw_div_zero
  else push_i64 (Z.quot (as_i64 a) (as_i64 b)).

(** [INT64_MIN % -1] overflows like the division it comes with.
    src/buccaneer/vm.c:518-532 (bucc_vm_step) *)
Definition op_mod : M unit :=
  let! b := bucc_vm_pop in
  let! a := bucc_vm_pop in
  if as_i64 b =? 0 then throw_div_zero
  else
    do! signed64 (Z.quot (as_i64 a) (as_i64 b)) in
    push_i64 (Z.rem (as_i64 a) (as_i64 b)).

(** src/buccaneer/vm.c:534-543 (bucc_vm_step) *)
Definition op_neg : M unit :=
  let! a := bucc_vm_pop in
  match a with
  | VF64 f => bucc_vm_push (VF64 (fneg f))
  | _ => push_i64 (- as_i64 a)
  end.

(** ** Opcodes: comparison, logic *)

(** Depth of the comparison of two values: enough for acyclic ones, whose
    references cannot be nested deeper than the store is long. *)
Definition equal_fuel (m : vm) : nat := S (S (length (store m))).

(** src/buccaneer/vm.c:545-552 (bucc_vm_step) *)
Definition op_eq : M unit :=
  let! b := bucc_vm_pop in
  let! a := bucc_vm_pop in
  let! m := gets id in
  let! r := lift (bucc_value_equal (equal_fuel m) (store m) a b) in
  bucc_vm_push (VBool r).

(** src/buccaneer/vm.c:554-561 (bucc_vm_step) *)
Definition op_ne : M unit :=
  let! b := bucc_vm_pop in
  let! a := bucc_vm_pop in
  let! m := gets id in
  let! r := lift (bucc_value_equal (equal_fuel m) (store m) a b) in
  bucc_vm_push (VBool (negb r)).

(** src/buccaneer/vm.c:563-597 (bucc_vm_step) *)
Definition op_compare (test : Z → bool) : M unit :=
  let! b := bucc_vm_pop in
  let! a := bucc_vm_pop in
  bucc_vm_push (VBool (test (bucc_value_compare a b))).

(** src/buccaneer/vm.c:599-615 (bucc_vm_step) *)
Definition op_logic (test : bool → bool → bool) : M unit :=
  let! b := bucc_vm_pop in
  let! a := bucc_vm_pop in
  let! h := gets store in
  bucc_vm_push (VBool (test (bucc_value_truthy h a) (bucc_value_truthy h b))).

(** src/buccaneer/vm.c:617-622 (bucc_vm_step) *)
Definition op_not : M unit :=
  let! a := bucc_vm_pop in
  let! h := gets store in
  bucc_vm_push (VBool (negb (bucc_value_truthy h a))).

(** src/buccaneer/vm.c:624-637 (bucc_vm_step) *)
Definition op_concat : M unit :=
  let! b := bucc_vm_pop in
  let! a := bucc_vm_pop in
  concat_strings a b.

(** ** Opcodes: control *)

Definition jump (offset : Z) : M unit := modify (λ m, set_ip (u32 (ip m + offset)) m).

(** src/buccaneer/vm.c:639-643 (bucc_vm_step) *)
Definition op_jmp : M unit := let! offset := read_i32 in jump offset.

(** src/buccaneer/vm.c:645-663 (bucc_vm_step) *)
Definition op_jmp_if (taken : bool) : M unit :=
  let! offset := read_i32 in
  let! cond := bucc_vm_pop in
  let! h := gets store in
  if Bool.eqb (bucc_value_truthy h cond) taken then jump offset else ret tt.

Fixpoint set_locals_from (i : Z) (args : list value) (m : vm) : vm :=
  match args with
  | [] => m
  | v :: args => set_locals_from (i + 1) args (bucc_vm_set_local i v m)
  end.

(** The arguments stay on the stack below the frame's base until the return.
    With fewer than [argc] values the base wraps around and the first argument
    is read outside the array.
    src/buccaneer/vm.c:665-694 (bucc_vm_step) *)
Definition op_call : M unit :=
  let! proc_id := read_u16 in
  let! argc := read_u8 in
  if zlen (procedures md) <=? proc_id then
    vm_error VM_ERROR (lit "invalid procedure id")
  else
    let! m := gets id in
    if BUCC_FRAMES_MAX <=? fp m then vm_error VM_FRAME_OVERFLOW (lit "call stack overflow")
    else
      let! pr := lift (nthZ (procedures md) proc_id) in
      let f := MkFrame proc_id (ip m) (u32 (sp m - argc)) (zlen (locals m)) in
      do! modify (set_frames (f :: frames m)) in
      if sp m <? argc then undefined
      else
        do! modify (set_locals_from 0 (rev (takeZ argc (stack m)))) in
        modify (set_ip (code_offset pr)).

(** [n] values popped, the last popped first in the result. *)
Fixpoint pop_n (n : nat) (acc : list value) : M (list value) :=
  match n with
  | O => ret acc
  | S n => let! v := bucc_vm_pop in pop_n n (v :: acc)
  end.

(** src/buccaneer/vm.c:696-735 (bucc_vm_step) *)
Definition op_call_host : M unit :=
  let! import_id := read_u16 in
  let! argc := read_u8 in
  if zlen (imports md) <=? import_id then vm_error VM_ERROR (lit "invalid import id")
  else
    let! imp := lift (nthZ (imports md) import_id) in
    match host_handler with
    | Some host =>
        if 16 <? argc then vm_error VM_ERROR (lit "host call has too many arguments")
        else
          let! args := pop_n (Z.to_nat argc) [] in
          do! modify (λ m, let c := cnt m in
            set_cnt (MkCounters (instructions c) (stack_depth c) (u32 (host_calls c + 1))
              (profile_ticks c)) m) in
          let! result := (λ m, Some (host m (imp_ns imp) (imp_fn imp) args)) in
          bucc_vm_push result
    | None =>
        do! pop_n (Z.to_nat argc) [] in bucc_vm_push VNull
    end.

Definition halt : M unit := modify (λ m, set_running false (set_stat VM_HALT m)).

(** The frame popped: locals above its base and stack above its base released. *)
Definition leave_frame (f : frame) (fs : list frame) (m : vm) : vm :=
  let m := set_frames fs m in
  let m := set_locals (takeZ (fr_local_base f) (locals m)) m in
  let m := set_stack (dropZ (sp m - fr_bp f) (stack m)) m in
  set_ip (fr_ip f) m.

(** src/buccaneer/vm.c:737-756 (bucc_vm_step) *)
Definition op_return : M unit :=
  let! m := gets id in
  match frames m with
  | [] => halt
  | f :: fs => modify (leave_frame f fs)
  end.

(** src/buccaneer/vm.c:758-782 (bucc_vm_step) *)
Definition op_return_value : M unit :=
  let! v := bucc_vm_pop in
  let! m := gets id in
  match frames m with
  | [] => do! bucc_vm_push v in halt
  | f :: fs => do! modify (leave_frame f fs) in bucc_vm_push v
  end.

(** src/buccaneer/vm.c:784-800 (bucc_vm_step) *)
Definition op_chain : M unit :=
  let! target_idx := read_u16 in
  let! has_args := read_u8 in
  let target := bucc_module_get_string target_idx in
  do! modify (λ m, set_chain target (chain_args m) m) in
  do! (if has_args =? 0 then ret tt
       else let! v := bucc_vm_pop in modify (λ m, set_chain (chain_target m) v m)) in
  modify (λ m, set_running false (set_stat VM_CHAIN m)).

(** src/buccaneer/vm.c:802-805 (bucc_vm_step) *)
Definition op_yield : M unit := modify (λ m, set_running false (set_stat VM_YIELD m)).

(** ** Opcodes: arrays and maps *)

Definition new_cell (c : cell) : M loc :=
  λ m, let '(h, l) := alloc (store m) c in Some (l, set_store h m).

Fixpoint push_all (a : loc) (items : list value) (h : heap) : heap :=
  match items with
  | [] => h
  | v :: items => push_all a items (snd (bucc_array_push h a v))
  end.

(** src/buccaneer/vm.c:807-829 (bucc_vm_step) *)
Definition op_array_new : M unit :=
  let! count := read_u16 in
  let! arr := new_cell (CArray []) in
  let! items := pop_n (Z.to_nat count) [] in
  do! modify (λ m, set_store (push_all arr items (store m)) m) in
  bucc_vm_push (VArray arr).

(** src/buccaneer/vm.c:831-846 (bucc_vm_step) *)
Definition op_array_get : M unit :=
  let! idx := bucc_vm_pop in
  let! arr := bucc_vm_pop in
  let! h := gets store in
  match arr, idx with
  | VArray a, VI64 i => bucc_vm_push (bucc_array_get h a (u64 i))
  | _, _ => bucc_vm_push VNull
  end.

(** src/buccaneer/vm.c:848-861 (bucc_vm_step) *)
Definition op_array_set : M unit :=
  let! v := bucc_vm_pop in
  let! idx := bucc_vm_pop in
  let! arr := bucc_vm_pop in
  match arr, idx with
  | VArray a, VI64 i => modify (λ m, set_store (snd (bucc_array_set (store m) a (u64 i) v)) m)
  | _, _ => ret tt
  end.

(** src/buccaneer/vm.c:863-874 (bucc_vm_step) *)
Definition op_array_push : M unit :=
  let! v := bucc_vm_pop in
  let! arr := bucc_vm_pop in
  match arr with
  | VArray a => modify (λ m, set_store (snd (bucc_array_push (store m) a v)) m)
  | _ => ret tt
  end.

(** src/buccaneer/vm.c:876-888 (bucc_vm_step) *)
Definition op_array_pop : M unit :=
  let! arr := bucc_vm_pop in
  match arr with
  | VArray a =>
      let! h := gets store in
      let '(v, h) := bucc_array_pop h a in
      do! modify (set_store h) in bucc_vm_push v
  | _ => bucc_vm_push VNull
  end.

Fixpoint map_pairs (n : nat) (map : loc) : M unit :=
  match n with
  | O => ret tt
  | S n =>
      let! v := bucc_vm_pop in
      let! key := bucc_vm_pop in
      do! (match key with
           | VString k => modify (λ m, set_store (snd (bucc_map_set (store m) map k v)) m)
           | _ => ret tt
           end) in
      map_pairs n map
  end.

(** src/buccaneer/vm.c:890-909 (bucc_vm_step) *)
Definition op_map_new : M unit :=
  let! count := read_u16 in
  let! map := new_cell (CMap []) in
  do! map_pairs (Z.to_nat count) map in
  bucc_vm_push (VMap map).

(** src/buccaneer/vm.c:911-926 (bucc_vm_step) *)
Definition op_map_get : M unit :=
  let! key := bucc_vm_pop in
  let! map := bucc_vm_pop in
  let! h := gets store in
  match map, key with
  | VMap a, VString k => bucc_vm_push (bucc_map_get h a k)
  | _, _ => bucc_vm_push VNull
  end.

(** src/buccaneer/vm.c:928-941 (bucc_vm_step) *)
Definition op_map_set : M unit :=
  let! v := bucc_vm_pop in
  let! key := bucc_vm_pop in
  let! map := bucc_vm_pop in
  match map, key with
  | VMap a, VString k => modify (λ m, set_store (snd (bucc_map_set (store m) a k v)) m)
  | _, _ => ret tt
  end.

(** src/buccaneer/vm.c:943-956 (bucc_vm_step) *)
Definition op_map_has : M unit :=
  let! key := bucc_vm_pop in
  let! map := bucc_vm_pop in
  let! h := gets store in
  bucc_vm_push (VBool (match map, key with
    | VMap a, VString k => bucc_map_has h a k
    | _, _ => false end)).

(** src/buccaneer/vm.c:958-971 (bucc_vm_step) *)
Definition op_map_keys : M unit :=
  let! map := bucc_vm_pop in
  let! h := gets store in
  let '(h, a) := match map with
    | VMap a => bucc_map_keys h a
    | _ => bucc_array_new h end in
  do! modify (set_store h) in bucc_vm_push (VArray a).

(** ** Opcodes: exceptions *)

(** src/buccaneer/vm.c:973-985 (bucc_vm_step) *)
Definition op_try_begin : M unit :=
  let! handler_offset := read_i32 in
  modify (λ m, set_try (MkTry (u32 (ip m + handler_offset)) (fp m) (sp m) :: try_stack m) m).

(** src/buccaneer/vm.c:987-994 (bucc_vm_step) *)
Definition op_try_end : M unit := modify (λ m, set_try (drop 1 (try_stack m)) m).

(** src/buccaneer/vm.c:996-1005 (bucc_vm_step) *)
Definition op_throw : M unit :=
  let! err := bucc_vm_pop in
  do! modify (bucc_vm_throw err) in
  let! handled := handle_exception in
  if handled : bool then ret tt else vm_error VM_ERROR (lit "unhandled exception").

(** src/buccaneer/vm.c:1007-1014 (bucc_vm_step) *)
Definition op_re_throw : M unit :=
  let! m := gets id in
  if ex_active (exc m) then
    let! handled := handle_exception in
    if handled : bool then ret tt else vm_error VM_ERROR (lit "unhandled exception")
  else ret tt.

(** ** Opcodes: conversions *)

(** src/buccaneer/vm.c:1016-1023 (bucc_vm_step) *)
Definition op_cast_i64 : M unit :=
  let! v := bucc_vm_pop in
  let! z := lift (f64_to_i64 (fst (bucc_value_to_number v))) in
  bucc_vm_push (VI64 z).

(** src/buccaneer/vm.c:1025-1032 (bucc_vm_step) *)
Definition op_cast_f64 : M unit :=
  let! v := bucc_vm_pop in
  bucc_vm_push (VF64 (fst (bucc_value_to_number v))).

(** src/buccaneer/vm.c:1034-1041 (bucc_vm_step) *)
Definition op_cast_string : M unit :=
  let! v := bucc_vm_pop in
  let! h := gets store in
  bucc_vm_push (VString (bucc_value_to_string h v)).

(** src/buccaneer/vm.c:1043-1048 (bucc_vm_step) *)
Definition op_cast_bool : M unit :=
  let! v := bucc_vm_pop in
  let! h := gets store in
  bucc_vm_push (VBool (bucc_value_truthy h v)).

(** src/buccaneer/vm.c:1050-1058 (bucc_vm_step) *)
Definition op_typeof : M unit :=
  let! v := bucc_vm_pop in
  bucc_vm_push (VString (bucc_value_kind_name (value_kind v))).

(** src/buccaneer/vm.c:1065-1067 (bucc_vm_step) *)
Definition op_prof_tick : M unit :=
  modify (λ m, let c := cnt m in
    set_cnt (MkCounters (instructions c) (stack_depth c) (host_calls c)
      (u32 (profile_ticks c + 1))) m).

(** src/buccaneer/vm.c:1069-1103 (bucc_vm_step) *)
Definition op_dispatch_call : M unit :=
  let! base_proc := read_u16 in
  let! target_count := read_u8 in
  let! selector := bucc_vm_pop in
  let! index := match selector with
    | VI64 z => ret z
    | VF64 f => lift (f64_to_i64 f)
    | _ => ret 0 end in
  if (1 <=? index) && (index <=? target_count) then
    let proc_id := u32 (base_proc + u32 (index - 1)) in
    if proc_id <? zlen (procedures md) then
      let! pr := lift (nthZ (procedures md) proc_id) in
      let! m := gets id in
      if BUCC_FRAMES_MAX <=? fp m then vm_error VM_FRAME_OVERFLOW (lit "call stack overflow")
      else
        do! modify (set_frames (MkFrame proc_id (ip m) (sp m) (zlen (locals m)) :: frames m)) in
        modify (set_ip (code_offset pr))
    else vm_error VM_ERROR (lit "dispatch target procedure out of range")
  else vm_error VM_ERROR (lit "invalid dispatch selector").

(** src/buccaneer/vm.c:1105-1131 (bucc_vm_step) *)
Definition op_range_test : M unit :=
  do! read_u16 in
  do! read_u8 in
  let! high := bucc_vm_pop in
  let! low := bucc_vm_pop in
  let! v := bucc_vm_pop in
  bucc_vm_push (VBool (match v, low, high with
    | VI64 v, VI64 l, VI64 h => (l <=? v) && (v <=? h)
    | VString v, VString l, VString h =>
        (0 <=? bucc_string_cmp v l) && (bucc_string_cmp v h <=? 0)
    | _, _, _ =>
        if is_numeric v && is_numeric low && is_numeric high
        then fleb (as_double low) (as_double v) && fleb (as_double v) (as_double high)
        else false
    end)).

(** ** Dates from day numbers *)

Definition leap (y : Z) : bool :=
  (Z.rem y 4 =? 0) && (negb (Z.rem y 100 =? 0) || (Z.rem y 400 =? 0)).

(** [while (days >= 365) ...]: the year and the days left in it.
    src/buccaneer/vm.c:1153-1162 (bucc_vm_step) *)
Fixpoint year_loop (fuel : nat) (days y : Z) : Z * Z :=
  match fuel with
  | O => (days, y)
  | S fuel =>
      if 365 <=? days then
        let days_in_year := if leap y then 366 else 365 in
        if days_in_year <=? days then year_loop fuel (days - days_in_year) (y + 1) else (days, y)
      else (days, y)
  end.

Definition days_in_month : list Z := [31; 28; 31; 30; 31; 30; 31; 31; 30; 31; 30; 31].

(** src/buccaneer/vm.c:1167-1173 (bucc_vm_step) *)
Fixpoint month_loop (fuel : nat) (lp : bool) (m days : Z) : Z * Z :=
  match fuel with
  | O => (m, days)
  | S fuel =>
      if m <? 12 then
        let dim := if (m =? 1) && lp then 29 else default 0 (nthZ days_in_month m) in
        if days <? dim then (m, days) else month_loop fuel lp (m + 1) (days - dim)
      else (m, days)
  end.

(** Year, month and day of a day number since 1970, before the conversions to
    the fields' types; each round of the year loop takes at least 365 days.
    src/buccaneer/vm.c:1150-1176 (bucc_vm_step) *)
Definition date_of_days (days : Z) : Z * Z * Z :=
  let '(days, y) := year_loop (S (Z.to_nat (days / 365))) days 1970 in
  let '(m, days) := month_loop 12 (leap y) 0 days in
  (y, m + 1, days + 1).

(** src/buccaneer/vm.c:1133-1181 (bucc_vm_step) *)
Definition cast_date (v : value) : date :=
  match v with
  | VDate d => d
  | VDatetime d => MkDate (dt_year d) (dt_month d) (dt_day d)
  | VString s =>
      match fst (scan_ds [ch "-"; ch "-"] (c_string s)) with
      | [y; m; d] => MkDate (s16 y) (u8 m) (u8 d)
      | _ => MkDate 0 0 0
      end
  | VI64 days => let '(y, m, d) := date_of_days days in MkDate (s16 y) (u8 m) (u8 d)
  | _ => MkDate 0 0 0
  end.

Definition op_cast_date : M unit :=
  let! v := bucc_vm_pop in bucc_vm_push (VDate (cast_date v)).

(** src/buccaneer/vm.c:1183-1241 (bucc_vm_step) *)
Definition cast_datetime (v : value) : datetime :=
  match v with
  | VDatetime d => d
  | VDate d => MkDatetime (d_year d) (d_month d) (d_day d) 0 0 0
  | VString s =>
      let vs := fst (scan_ds [ch "-"; ch "-"; 32; ch ":"; ch ":"] (c_string s)) in
      let at_ i := default 0 (vs !! i) in
      if 3 <=? zlen vs then
        MkDatetime (s16 (at_ 0%nat)) (u8 (at_ 1%nat)) (u8 (at_ 2%nat))
          (u8 (at_ 3%nat)) (u8 (at_ 4%nat)) (u8 (at_ 5%nat))
      else MkDatetime 0 0 0 0 0 0
  | VI64 ts =>
      let days := Z.quot ts 86400 in
      let secs := Z.rem ts 86400 in
      let '(secs, days) := if secs <? 0 then (secs + 86400, days - 1) else (secs, days) in
      let '(y, m, d) := date_of_days days in
      MkDatetime (s16 y) (u8 m) (u8 d)
        (u8 (Z.quot secs 3600)) (u8 (Z.quot (Z.rem secs 3600) 60)) (u8 (Z.rem secs 60))
  | _ => MkDatetime 0 0 0 0 0 0
  end.

Definition op_cast_datetime : M unit :=
  let! v := bucc_vm_pop in bucc_vm_push (VDatetime (cast_datetime v)).

(** ** The interpreter *)

(** The switch of the step function.
    src/buccaneer/vm.c:323-342 (bucc_vm_step) *)
Definition exec (op : opcode) : M unit :=
  match op with
  | OP_NOP => ret tt
  | OP_HALT => halt
  | OP_PUSH_NULL => bucc_vm_push VNull
  | OP_PUSH_TRUE => bucc_vm_push (VBool true)
  | OP_PUSH_FALSE => bucc_vm_push (VBool false)
  | OP_PUSH_I64 | OP_PUSH_F64 | OP_PUSH_DATE | OP_PUSH_DATETIME => op_push_const
  | OP_PUSH_STR => op_push_str
  | OP_POP => do! bucc_vm_pop in ret tt
  | OP_DUP => op_dup
  | OP_SWAP => op_swap
  | OP_LOAD_GLOBAL => op_load_global
  | OP_STORE_GLOBAL => op_store_global
  | OP_LOAD_LOCAL | OP_LOAD_ARG => op_load_local
  | OP_STORE_LOCAL => op_store_local
  | OP_ADD => op_add
  | OP_SUB => op_sub
  | OP_MUL => op_mul
  | OP_DIV => op_div
  | OP_MOD => op_mod
  | OP_NEG => op_neg
  | OP_EQ => op_eq
  | OP_NE => op_ne
  | OP_LT => op_compare (λ c, c <? 0)
  | OP_LE => op_compare (λ c, c <=? 0)
  | OP_GT => op_compare (λ c, 0 <? c)
  | OP_GE => op_compare (λ c, 0 <=? c)
  | OP_AND => op_logic andb
  | OP_OR => op_logic orb
  | OP_NOT => op_not
  | OP_CONCAT => op_concat
  | OP_JMP => op_jmp
  | OP_JMP_FALSE => op_jmp_if false
  | OP_JMP_TRUE => op_jmp_if true
  | OP_CALL => op_call
  | OP_CALL_HOST => op_call_host
  | OP_RETURN => op_return
  | OP_RETURN_VALUE => op_return_value
  | OP_CHAIN => op_chain
  | OP_YIELD => op_yield
  | OP_ARRAY_NEW => op_array_new
  | OP_ARRAY_GET => op_array_get
  | OP_ARRAY_SET => op_array_set
  | OP_ARRAY_PUSH => op_array_push
  | OP_ARRAY_POP => op_array_pop
  | OP_MAP_NEW => op_map_new
  | OP_MAP_GET => op_map_get
  | OP_MAP_SET => op_map_set
  | OP_MAP_HAS => op_map_has
  | OP_MAP_KEYS => op_map_keys
  | OP_DISPATCH_CALL => op_dispatch_call
  | OP_RANGE_TEST => op_range_test
  | OP_TRY_BEGIN => op_try_begin
  | OP_TRY_END => op_try_end
  | OP_THROW => op_throw
  | OP_RE_THROW => op_re_throw
  | OP_CAST_I64 => op_cast_i64
  | OP_CAST_F64 => op_cast_f64
  | OP_CAST_STRING => op_cast_string
  | OP_CAST_BOOL => op_cast_bool
  | OP_CAST_DATE => op_cast_date
  | OP_CAST_DATETIME => op_cast_datetime
  | OP_TYPEOF => op_typeof
  | OP_DEBUG_LINE => do! read_u16 in ret tt
  | OP_PROF_TICK => op_prof_tick
  end.

Definition tick : M unit :=
  modify (λ m, let c := cnt m in
    set_cnt (MkCounters (u64 (instructions c + 1)) (stack_depth c) (host_calls c)
      (profile_ticks c)) m).

(** src/buccaneer/vm.c:300-323 (bucc_vm_step) *)
Definition bucc_vm_step : M unit :=
  let! m := gets id in
  if negb (bool_decide (stat m = VM_OK)) then ret tt
  else if max_instructions (lim m) <=? instructions (cnt m) then
    vm_error VM_LIMIT_EXCEEDED (lit "instruction limit exceeded")
  else if bytecode_len <=? ip m then modify (set_stat VM_HALT)
  else
    do! tick in
    let! op := read_u8 in
    match decode_op op with
    | Some op => exec op
    | None => vm_error VM_INVALID_OPCODE (lit "invalid opcode")
    end.

(** How a run of at most [fuel] steps ends. *)
Inductive outcome : Type :=
  | Finished (m : vm)
  | Undefined
  | OutOfFuel.

Fixpoint run_loop (fuel : nat) (m : vm) : outcome :=
  if running m && bool_decide (stat m = VM_OK) then
    match fuel with
    | O => OutOfFuel
    | S fuel =>
        match bucc_vm_step m with
        | Some (_, m) => run_loop fuel m
        | None => Undefined
        end
    end
  else Finished m.

(** Steps a run can take: one per instruction the limit leaves, and the one
    that reports the limit. *)
Definition run_fuel (m : vm) : nat :=
  S (Z.to_nat (max_instructions (lim m) - instructions (cnt m))).

(** src/buccaneer/vm.c:1251-1261 (bucc_vm_run) *)
Definition bucc_vm_run (m : vm) : outcome := run_loop (run_fuel m) (set_running true m).

Fixpoint find_proc (ps : list proc) (name : cstr) : option proc :=
  match ps with
  | [] => None
  | p :: ps =>
      match proc_name p with
      | Some n => if bool_decide (map tolower n = map tolower name) then Some p else find_proc ps name
      | None => find_proc ps name
      end
  end.

(** src/buccaneer/module.c:529-538 (bucc_module_find_proc) *)
Definition bucc_module_find_proc (name : cstr) : option proc := find_proc (procedures md) name.

Fixpoint push_args (args : list value) : M unit :=
  match args with
  | [] => ret tt
  | v :: args => do! bucc_vm_push v in push_args args
  end.

(** src/buccaneer/vm.c:1263-1280 (bucc_vm_call) *)
Definition bucc_vm_call (name : cstr) (args : list value) (m : vm) : outcome :=
  match bucc_module_find_proc name with
  | None =>
      match vm_error VM_ERROR (lit "procedure not found") m with
      | Some (_, m) => Finished m
      | None => Undefined
      end
  | Some p =>
      match push_args args m with
      | Some (_, m) => bucc_vm_run (set_ip (code_offset p) m)
      | None => Undefined
      end
  end.

End machine.

(** src/buccaneer/vm.c:1282-1298 (bucc_vm_status_name) *)
Definition bucc_vm_status_name (s : status) : cstr :=
  match s with
  | VM_OK => lit "OK" | VM_HALT => lit "HALT" | VM_YIELD => lit "YIELD" | VM_CHAIN => lit "CHAIN"
  | VM_ERROR => lit "ERROR" | VM_STACK_OVERFLOW => lit "STACK_OVERFLOW"
  | VM_STACK_UNDERFLOW => lit "STACK_UNDERFLOW" | VM_FRAME_OVERFLOW => lit "FRAME_OVERFLOW"
  | VM_INVALID_OPCODE => lit "INVALID_OPCODE" | VM_DIVISION_BY_ZERO => lit "DIVISION_BY_ZERO"
  | VM_TYPE_ERROR => lit "TYPE_ERROR" | VM_LIMIT_EXCEEDED => lit "LIMIT_EXCEEDED"
  end.
