(* ===== verification/VmSpec.v ===== *)
(** Correctness of the Buccaneer virtual machine: bounds of its arrays under
    every opcode, termination within the instruction limit, the calling
    convention, exception unwinding, and the calendar arithmetic of the date
    conversions. *)

From stdpp Require Import relations.
From S2P Require Import Prelude CLib Float Value Vm.

#[local] Open Scope Z_scope.

Create HintDb vm discriminated.

(** ** Relating the states before and after a command *)

Section preserve.
Context (R : vm → vm → Prop) `{!Reflexive R, !Transitive R}.

Definition pres {A} (c : M A) : Prop := ∀ m x m', c m = Some (x, m') → R m m'.

Lemma pres_ret {A} (x : A) : pres (ret x).
Proof. by intros m y m' [= <- <-]. Qed.

Lemma pres_undefined {A} : pres (@undefined A).
Proof. by intros m x m'. Qed.

Lemma pres_gets {A} (f : vm → A) : pres (gets f).
Proof. by intros m x m' [= <- <-]. Qed.

Lemma pres_lift {A} (o : option A) : pres (lift o).
Proof. destruct o; [apply pres_ret | apply pres_undefined]. Qed.

Lemma pres_bind {A B} (c : M A) (k : A → M B) :
  pres c → (∀ x, pres (k x)) → pres (bind c k).
Proof.
  intros Hc Hk m x m'. unfold bind. destruct (c m) as [[y m1] |] eqn:E; [| done].
  intros Hrun. trans m1; [by eapply Hc | by eapply Hk].
Qed.

Lemma pres_modify f : (∀ m, R m (f m)) → pres (modify f).
Proof. intros Hf m x m' [= <- <-]. apply Hf. Qed.

(** A command that looks at the whole state first. *)
Lemma pres_look {A} (k : vm → M A) :
  (∀ m x m', k m m = Some (x, m') → R m m') → pres (bind (gets id) k).
Proof. intros Hk m x m' H. by apply (Hk m x m'). Qed.
End preserve.

#[export] Hint Resolve pres_ret pres_undefined pres_gets pres_lift : vm.
#[export] Hint Extern 0 (Reflexive _) => typeclasses eauto : vm.

(** Walks through a command: sequencing, branching, and the lemmas in [vm]. *)
Ltac pres_walk :=
  repeat first
    [ solve [eauto with vm]
    | apply pres_bind; [typeclasses eauto | | intros ?]
    | progress cbv beta iota zeta
    | match goal with
      | |- pres _ (match ?x with _ => _ end) => destruct x
      | |- pres _ (if ?x then _ else _) => destruct x
      end ].

(** ** The instruction count *)

(** Same limits, same instruction count. *)
Definition same_budget (m m' : vm) : Prop :=
  lim m' = lim m ∧ instructions (cnt m') = instructions (cnt m).

#[export] Instance same_budget_refl : Reflexive same_budget.
Proof. intros m. by split. Qed.
#[export] Instance same_budget_trans : Transitive same_budget.
Proof. intros a b c [H1 H2] [H3 H4]. split; congruence. Qed.

Section budget.
Context (md : module) (punned : value → Z)
  (host : option (vm → option cstr → option cstr → list value → value * vm)).

Abbreviation keeps := (pres same_budget).

(** A host that leaves the limits and the instruction count alone. *)
Definition host_keeps : Prop :=
  match host with
  | Some h => ∀ m ns fn args, same_budget m (snd (h m ns fn args))
  | None => True
  end.

Lemma push_keeps v : keeps (bucc_vm_push v).
Proof. apply pres_modify. intros m. cbv zeta. repeat case_match; by split. Qed.

Lemma pop_keeps : keeps bucc_vm_pop.
Proof. intros m x m'. unfold bucc_vm_pop. case_match; intros [= <- <-]; by split. Qed.

Lemma error_keeps s msg : keeps (vm_error s msg).
Proof. apply pres_modify. by split. Qed.

#[local] Hint Resolve push_keeps pop_keeps error_keeps : vm.

(** An update of one of the other fields. *)
#[local] Hint Extern 1 (pres same_budget (modify _)) =>
  (apply pres_modify; intros ?; by split) : vm.

Lemma read_u8_keeps : keeps (read_u8 md).
Proof. unfold read_u8. pres_walk. Qed.
Lemma code_byte_keeps i : keeps (code_byte md i).
Proof. unfold code_byte. pres_walk. Qed.
#[local] Hint Resolve code_byte_keeps : vm.
Lemma read_u16_keeps : keeps (read_u16 md).
Proof. unfold read_u16. pres_walk. Qed.
Lemma read_i32_keeps : keeps (read_i32 md).
Proof. unfold read_i32. pres_walk. Qed.
#[local] Hint Resolve read_u8_keeps read_u16_keeps read_i32_keeps : vm.

Lemma handle_exception_keeps : keeps handle_exception.
Proof. unfold handle_exception. pres_walk. Qed.
#[local] Hint Resolve handle_exception_keeps : vm.

Lemma throw_div_zero_keeps : keeps throw_div_zero.
Proof. unfold throw_div_zero. pres_walk. Qed.

Lemma pop_n_keeps n acc : keeps (pop_n n acc).
Proof. revert acc. induction n; intros acc; cbn [pop_n]; pres_walk. Qed.

Lemma map_pairs_keeps n a : keeps (map_pairs n a).
Proof. induction n; cbn [map_pairs]; pres_walk. Qed.

Lemma set_local_budget i v m : same_budget m (bucc_vm_set_local i v m).
Proof. unfold bucc_vm_set_local. case_match; by split. Qed.

Lemma set_locals_budget args : ∀ i m, same_budget m (set_locals_from i args m).
Proof.
  induction args as [|v args IH]; intros i m; cbn; [done |].
  etrans; [apply set_local_budget | apply IH].
Qed.

Lemma set_global_budget i v m : same_budget m (bucc_vm_set_global i v m).
Proof. unfold bucc_vm_set_global. case_match; by split. Qed.

Lemma new_cell_keeps c : keeps (new_cell c).
Proof. intros m x m' [= <- <-]. by split. Qed.

#[local] Hint Resolve throw_div_zero_keeps pop_n_keeps map_pairs_keeps new_cell_keeps : vm.
#[local] Hint Extern 1 (pres same_budget (modify _)) =>
  (apply pres_modify; intros ?; first [apply set_locals_budget | apply set_local_budget
    | apply set_global_budget]) : vm.

Lemma signed64_keeps z : keeps (signed64 z).
Proof. unfold signed64. pres_walk. Qed.
#[local] Hint Resolve signed64_keeps : vm.

Lemma halt_keeps : keeps halt.
Proof. apply pres_modify. by split. Qed.
#[local] Hint Resolve halt_keeps : vm.

Lemma call_host_keeps : host_keeps → keeps (op_call_host md host).
Proof.
  intros Hh. unfold op_call_host, host_keeps in *. destruct host as [h |]; [| pres_walk].
  assert (∀ ns fn args, keeps (λ m, Some (h m ns fn args))).
  { intros ns fn args m x m' [= E]. specialize (Hh m ns fn args). by rewrite E in Hh. }
  pres_walk.
Qed.

Lemma exec_keeps op : host_keeps → keeps (exec md punned host op).
Proof.
  intros Hh. pose proof (call_host_keeps Hh).
  destruct op; cbn [exec];
    unfold op_jmp, op_jmp_if, jump, op_return, op_return_value, op_yield, op_try_end,
      op_prof_tick; pres_walk.
Qed.

Lemma step_budget m m' :
  host_keeps → bucc_vm_step md punned host m = Some (tt, m') →
  stat m = VM_OK → 0 <= instructions (cnt m) → max_instructions (lim m) <= 2 ^ 32 →
  lim m' = lim m ∧
  (stat m' ≠ VM_OK ∧ instructions (cnt m') = instructions (cnt m) ∨
   instructions (cnt m) < max_instructions (lim m) ∧
   instructions (cnt m') = instructions (cnt m) + 1).
Proof.
  intros Hh Hstep Hok Hi Hmax. unfold bucc_vm_step, bind, gets, id in Hstep.
  rewrite bool_decide_eq_true_2 in Hstep by done. cbn [negb] in Hstep.
  destruct (Z.leb_spec (max_instructions (lim m)) (instructions (cnt m))).
  { injection Hstep as <-. split; [done |]. by left. }
  destruct (bytecode_len md <=? ip m).
  { injection Hstep as <-. split; [done |]. by left. }
  unfold tick, modify in Hstep. set (m1 := set_cnt _ m) in Hstep.
  assert (H1 : lim m1 = lim m ∧ instructions (cnt m1) = instructions (cnt m) + 1).
  { split; [done |]. subst m1. cbn. apply wrap_small. zred. lia. }
  destruct (read_u8 md m1) as [[op m2] |] eqn:E2; [| done].
  destruct (read_u8_keeps _ _ _ E2) as [Hl2 Hi2].
  assert (Hrest : same_budget m2 m').
  { destruct (decode_op op); [by eapply exec_keeps | by eapply error_keeps]. }
  destruct Hrest as [Hl3 Hi3], H1. split; [congruence |]. right. split; [done |]. congruence.
Qed.

Definition stopped (m : vm) : Prop := running m = false ∨ stat m ≠ VM_OK.

(** [m'] ends a run from [m]: stopped, with the instruction count grown by no
    more than the limit allows. *)
Definition ends_run (m m' : vm) : Prop :=
  stopped m' ∧ lim m' = lim m ∧ instructions (cnt m) <= instructions (cnt m') ∧
  (instructions (cnt m') = instructions (cnt m) ∨
   instructions (cnt m') <= max_instructions (lim m)).

Lemma ends_here m : running m && bool_decide (stat m = VM_OK) = false → ends_run m m.
Proof.
  intros E. unfold ends_run, stopped. split_and!; [| done | lia | by left].
  destruct (running m); [right; by apply bool_decide_eq_false in E | by left].
Qed.

Lemma run_loop_ends fuel : ∀ m,
  host_keeps → 0 <= instructions (cnt m) → max_instructions (lim m) <= 2 ^ 32 →
  (stat m = VM_OK →
     0 < Z.of_nat fuel ∧ max_instructions (lim m) - instructions (cnt m) < Z.of_nat fuel) →
  run_loop md punned host fuel m = Undefined ∨
  ∃ m', run_loop md punned host fuel m = Finished m' ∧ ends_run m m'.
Proof.
  induction fuel as [|fuel IH]; intros m Hh Hi Hmax Hf; cbn [run_loop];
    (destruct (running m && bool_decide (stat m = VM_OK)) eqn:E;
      [apply andb_true_iff in E as [_ E]; apply bool_decide_eq_true in E
      | right; exists m; split; [done | by apply ends_here]]).
  - specialize (Hf E). lia.
  - destruct (bucc_vm_step md punned host m) as [[[] m1] |] eqn:Hstep; [| by left].
    destruct (step_budget m m1 Hh Hstep E Hi Hmax) as (Hlim & Hcase).
    specialize (Hf E).
    destruct (IH m1 Hh) as [? | (m2 & -> & H1 & H2 & H3 & H4)]; rewrite ?Hlim in *;
      [lia | done | intros Hok; destruct Hcase as [[? _] | ?]; [done | lia] | by left |].
    right. exists m2. split; [done |]. unfold ends_run. split_and!; [done | congruence | lia | lia].
Qed.
End budget.

(** C39. A run always ends: from any state, whatever the module's bytecode,
    [bucc_vm_run] finishes within one step per instruction that the limit
    leaves (unless the program does something undefined), stopped and with the
    instruction count at most the limit. The host is only assumed not to touch
    the limits and the instruction count. *)
Theorem bucc_vm_run_terminates md punned host m :
  host_keeps host → 0 <= instructions (cnt m) → max_instructions (lim m) <= 2 ^ 32 →
  bucc_vm_run md punned host m = Undefined ∨
  ∃ m', bucc_vm_run md punned host m = Finished m' ∧ ends_run m m'.
Proof.
  intros Hh Hi Hmax. unfold bucc_vm_run, run_fuel.
  destruct (run_loop_ends md punned host
    (S (Z.to_nat (max_instructions (lim m) - instructions (cnt m)))) (set_running true m) Hh Hi Hmax)
    as [H | (m' & H & H')]; [cbn; lia | by left | right; by exists m'].
Qed.

(** ** Bounds *)

Definition frame_ok (f : frame) : Prop :=
  in_u 32 (fr_ip f) ∧ 0 <= fr_bp f <= BUCC_STACK_MAX ∧ 0 <= fr_local_base f <= BUCC_LOCALS_MAX.

Definition try_ok (t : try_frame) : Prop :=
  in_u 32 (tf_handler_ip t) ∧ 0 <= tf_frame_depth t <= BUCC_FRAMES_MAX ∧
  0 <= tf_stack_depth t <= BUCC_STACK_MAX.

(** Every array of the machine within its bounds, every saved index in range. *)
Record vm_ok (m : vm) : Prop := {
  ok_sp : sp m <= BUCC_STACK_MAX;
  ok_fp : fp m <= BUCC_FRAMES_MAX;
  ok_globals : zlen (globals m) <= BUCC_GLOBALS_MAX;
  ok_locals : zlen (locals m) <= BUCC_LOCALS_MAX;
  ok_ip : in_u 32 (ip m);
  ok_frames : Forall frame_ok (frames m);
  ok_try : Forall try_ok (try_stack m)
}.

Definition stays_ok (m m' : vm) : Prop := vm_ok m → vm_ok m'.

#[export] Instance stays_ok_refl : Reflexive stays_ok.
Proof. intros m H. exact H. Qed.
#[export] Instance stays_ok_trans : Transitive stays_ok.
Proof. intros a b c. unfold stays_ok. auto. Qed.

Section bounds.
Context (md : module) (punned : value → Z)
  (host : option (vm → option cstr → option cstr → list value → value * vm)).

Abbreviation safe := (pres stays_ok).

(** Code offsets are 32-bit, the bytecode is bytes. *)
Record module_ok : Prop := {
  ok_offsets : Forall (λ p, in_u 32 (code_offset p)) (procedures md);
  ok_bytes : Forall (in_u 8) (bytecode md)
}.

Definition host_safe : Prop :=
  match host with
  | Some h => ∀ m ns fn args, stays_ok m (snd (h m ns fn args))
  | None => True
  end.

(** Updates of a field the bounds do not mention. *)
#[local] Hint Extern 1 (pres stays_ok (modify _)) =>
  (apply pres_modify; intros ? []; by constructor) : vm.

Lemma push_safe v : safe (bucc_vm_push v).
Proof.
  apply pres_modify. intros m []. destruct (Z.leb_spec BUCC_STACK_MAX (sp m)); [by constructor |].
  cbv zeta. case_match; constructor; try done; unfold sp in *; cbn [set_stack set_cnt stack]; zl.
Qed.

Lemma pop_safe : safe bucc_vm_pop.
Proof.
  intros m x m'. unfold bucc_vm_pop. destruct (stack m) as [|v s] eqn:E; intros [= <- <-] [];
    constructor; try done. unfold sp in *. cbn. rewrite E in *. zl.
Qed.

Lemma error_safe s msg : safe (vm_error s msg).
Proof. apply pres_modify. intros m []. by constructor. Qed.

Lemma halt_safe : safe halt.
Proof. apply pres_modify. intros m []. by constructor. Qed.

Lemma set_ip_safe f : (∀ m, in_u 32 (ip m) → in_u 32 (f m)) → safe (modify (λ m, set_ip (f m) m)).
Proof. intros Hf. apply pres_modify. intros m []. constructor; try done. cbn. auto. Qed.

Lemma u32_range z : in_u 32 (u32 z).
Proof. by apply wrap_range. Qed.

#[local] Hint Resolve push_safe pop_safe error_safe halt_safe u32_range : vm.
#[local] Hint Extern 1 (pres stays_ok (modify (set_ip _))) =>
  (apply set_ip_safe; intros; apply u32_range) : vm.
#[local] Hint Extern 1 (pres stays_ok (modify (λ m, set_ip _ m))) =>
  (apply set_ip_safe; intros; apply u32_range) : vm.

Lemma read_u8_safe : safe (read_u8 md).
Proof. unfold read_u8. pres_walk. Qed.
Lemma code_byte_safe i : safe (code_byte md i).
Proof. unfold code_byte. pres_walk. Qed.
#[local] Hint Resolve code_byte_safe : vm.
Lemma read_u16_safe : safe (read_u16 md).
Proof. unfold read_u16. pres_walk. Qed.
Lemma read_i32_safe : safe (read_i32 md).
Proof. unfold read_i32. pres_walk. Qed.
#[local] Hint Resolve read_u8_safe read_u16_safe read_i32_safe : vm.

Lemma store_at_len l i v n :
  0 <= n → i < n → zlen l <= n → zlen (store_at l i v) <= n.
Proof. unfold store_at, zlen. intros. rewrite length_insert, length_app, length_replicate. lia. Qed.

Lemma set_local_ok i v m : stays_ok m (bucc_vm_set_local i v m).
Proof.
  intros []. unfold bucc_vm_set_local.
  destruct (Z.leb_spec BUCC_LOCALS_MAX (u32 (local_base m + i))); [by constructor |].
  constructor; try done. cbn. by apply store_at_len.
Qed.

Lemma set_locals_ok args : ∀ i m, stays_ok m (set_locals_from i args m).
Proof.
  induction args as [|v args IH]; intros i m; cbn; [done |].
  etrans; [apply set_local_ok | apply IH].
Qed.

Lemma set_global_safe i v : safe (modify (bucc_vm_set_global i v)).
Proof.
  apply pres_modify. intros m []. unfold bucc_vm_set_global.
  destruct (Z.leb_spec BUCC_GLOBALS_MAX i); [by constructor |].
  constructor; try done. cbn. by apply store_at_len.
Qed.

#[local] Hint Resolve set_global_safe : vm.
#[local] Hint Extern 1 (pres stays_ok (modify _)) =>
  (apply pres_modify; intros ?; first [apply set_locals_ok | apply set_local_ok]) : vm.

Lemma zlen_dropZ_le {A} i (l : list A) : zlen (dropZ i l) <= zlen l.
Proof. unfold zlen, dropZ. rewrite length_drop. lia. Qed.

Lemma zlen_takeZ_le {A} i (l : list A) : zlen (takeZ i l) <= zlen l.
Proof. unfold zlen, takeZ. rewrite length_take. lia. Qed.

Lemma drop_frames_safe f : safe (modify (λ m, set_frames (dropZ (f m) (frames m)) m)).
Proof.
  apply pres_modify. intros m []. constructor; try done.
  - unfold fp in *. cbn. pose proof (zlen_dropZ_le (f m) (frames m)). lia.
  - cbn. by apply Forall_drop.
Qed.

Lemma drop_stack_safe f : safe (modify (λ m, set_stack (dropZ (f m) (stack m)) m)).
Proof.
  apply pres_modify. intros m []. constructor; try done.
  unfold sp in *. cbn. pose proof (zlen_dropZ_le (f m) (stack m)). lia.
Qed.

Lemma set_try_safe l : Forall try_ok l → safe (modify (λ m, set_try l m)).
Proof. intros Hl. apply pres_modify. intros m []. by constructor. Qed.

Lemma set_ip_const_safe z : in_u 32 z → safe (modify (set_ip z)).
Proof. intros Hz. by apply (set_ip_safe (λ _, z)). Qed.

#[local] Hint Resolve drop_frames_safe drop_stack_safe set_try_safe set_ip_const_safe : vm.

(** A command run where it looked, with what the invariant says there. *)
Lemma safe_look {A} (k : vm → M A) :
  (∀ m, vm_ok m → ∀ x m', k m m = Some (x, m') → vm_ok m') → safe (bind (gets id) k).
Proof. intros Hk. apply pres_look. intros m x m' Hrun Hok. by apply (Hk m Hok x m'). Qed.

Lemma safe_at {A} (c : M A) m x m' : safe c → vm_ok m → c m = Some (x, m') → vm_ok m'.
Proof. intros Hc Hok Hrun. by apply (Hc m x m' Hrun). Qed.

Lemma handle_exception_safe : safe handle_exception.
Proof.
  apply safe_look. intros m Hok x m'. destruct (negb (ex_active (exc m))).
  { apply safe_at; [apply pres_ret; typeclasses eauto | done]. }
  destruct (ok_try m Hok) as [|tf rest (Hip & _) Hrest].
  { apply safe_at; [apply pres_ret; typeclasses eauto | done]. }
  apply safe_at; [| done]. pres_walk.
Qed.
#[local] Hint Resolve handle_exception_safe : vm.

Lemma throw_div_zero_safe : safe throw_div_zero.
Proof. unfold throw_div_zero. pres_walk. Qed.

Lemma pop_n_safe n acc : safe (pop_n n acc).
Proof. revert acc. induction n; intros acc; cbn [pop_n]; pres_walk. Qed.

Lemma map_pairs_safe n a : safe (map_pairs n a).
Proof. induction n; cbn [map_pairs]; pres_walk. Qed.

Lemma new_cell_safe c : safe (new_cell c).
Proof. intros m x m' [= <- <-] []. by constructor. Qed.

Lemma signed64_safe z : safe (signed64 z).
Proof. unfold signed64. pres_walk. Qed.
#[local] Hint Resolve throw_div_zero_safe pop_n_safe map_pairs_safe new_cell_safe signed64_safe : vm.

Lemma leave_frame_safe f fs :
  frame_ok f → Forall frame_ok fs → zlen fs <= BUCC_FRAMES_MAX → safe (modify (leave_frame f fs)).
Proof.
  intros (Hip & Hbp & Hlb) Hfs Hlen. apply pres_modify. intros m [].
  constructor; try done; unfold sp, fp in *; cbn.
  - match goal with |- context [dropZ ?i ?l] => pose proof (zlen_dropZ_le i l) end. lia.
  - pose proof (zlen_takeZ_le (fr_local_base f) (locals m)). lia.
Qed.

(** The frame on top, if any, and the invariant of the ones below. *)
Lemma ok_top m f fs :
  vm_ok m → frames m = f :: fs → frame_ok f ∧ Forall frame_ok fs ∧ zlen fs < BUCC_FRAMES_MAX.
Proof.
  intros [] E. unfold fp in *. rewrite E in *.
  pose proof (Forall_inv ok_frames0). pose proof (Forall_inv_tail ok_frames0).
  split_and!; [done | done | zl].
Qed.

Lemma return_safe : safe op_return.
Proof.
  apply safe_look. intros m Hok x m'.
  destruct (frames m) as [|f fs] eqn:E; (apply safe_at; [| done]); [apply halt_safe |].
  destruct (ok_top m f fs Hok E) as (? & ? & ?). apply leave_frame_safe; [done | done | lia].
Qed.

Lemma return_value_safe : safe op_return_value.
Proof.
  apply pres_bind; [typeclasses eauto | apply pop_safe | intros v].
  apply safe_look. intros m Hok x m'.
  destruct (frames m) as [|f fs] eqn:E; (apply safe_at; [| done]); [pres_walk |].
  destruct (ok_top m f fs Hok E) as (? & ? & ?).
  apply pres_bind; [typeclasses eauto | | intros _; apply push_safe].
  apply leave_frame_safe; [done | done | lia].
Qed.

(** Entering a frame. *)
Lemma enter_frame_ok f m :
  vm_ok m → fp m < BUCC_FRAMES_MAX → frame_ok f → vm_ok (set_frames (f :: frames m) m).
Proof.
  intros [] Hfp Hf. constructor; try done.
  - unfold fp in *. cbn. zl.
  - by constructor.
Qed.

Lemma proc_offset_ok i p :
  module_ok → nthZ (procedures md) i = Some p → in_u 32 (code_offset p).
Proof.
  intros [Hm _]. unfold nthZ. destruct (i <? 0); [done |]. intros H.
  by apply (Forall_lookup_1 _ _ _ _ Hm H).
Qed.

Lemma byte_at_range i : module_ok → in_u 8 (byte_at md i).
Proof.
  intros [_ Hb]. unfold byte_at, nthZ. destruct (i <? 0); cbn; [zred; lia |].
  destruct (bytecode md !! Z.to_nat i) as [b |] eqn:E; cbn; [| zred; lia].
  by apply (Forall_lookup_1 _ _ _ _ Hb E).
Qed.

Lemma read_u8_range m x m' : module_ok → read_u8 md m = Some (x, m') → in_u 8 x.
Proof.
  intros Hm. unfold read_u8, bind, gets, id, modify, ret, vm_error. case_match.
  - intros [= <- _]. zred; lia.
  - intros [= <- _]. by apply byte_at_range.
Qed.

(** A command that reads an operand byte first. *)
Lemma safe_read_u8 {A} (k : Z → M A) :
  module_ok → (∀ x, in_u 8 x → safe (k x)) → safe (bind (read_u8 md) k).
Proof.
  intros Hm Hk m x m' Hrun Hok. unfold bind in Hrun.
  destruct (read_u8 md m) as [[y m1] |] eqn:E; [| done].
  pose proof (read_u8_safe _ _ _ E Hok). eapply Hk; [by eapply read_u8_range | done | done].
Qed.

Lemma call_safe : module_ok → safe (op_call md).
Proof.
  intros Hm. unfold op_call.
  apply pres_bind; [typeclasses eauto | auto with vm | intros proc_id].
  apply safe_read_u8; [done | intros argc Hargc].
  destruct (zlen (procedures md) <=? proc_id); [auto with vm |].
  apply safe_look. intros m Hok x m'.
  destruct (Z.leb_spec BUCC_FRAMES_MAX (fp m)); [apply safe_at; auto with vm |].
  unfold lift, bind. destruct (nthZ (procedures md) proc_id) as [p |] eqn:Hp; [| done].
  cbn [ret modify]. destruct (Z.ltb_spec (sp m) argc); [done |].
  set (f := MkFrame _ _ _ _). intros [= _ <-].
  assert (Hf : frame_ok f).
  { pose proof (ok_sp m Hok). pose proof (ok_locals m Hok). pose proof (zlen_nonneg (locals m)).
    assert (Hbp : u32 (sp m - argc) = sp m - argc)
      by (apply wrap_small; unfold BUCC_STACK_MAX in *; zred; lia).
    subst f. rewrite Hbp. split; [apply Hok |]. cbn [fr_bp fr_local_base]. zred. lia. }
  pose proof (enter_frame_ok f m Hok ltac:(lia) Hf) as Hin.
  apply (set_locals_ok (rev (takeZ argc (stack m))) 0) in Hin.
  destruct Hin. constructor; try done. by eapply proc_offset_ok.
Qed.

Lemma dispatch_safe : module_ok → safe (op_dispatch_call md).
Proof.
  intros Hm. unfold op_dispatch_call.
  apply pres_bind; [typeclasses eauto | auto with vm | intros base].
  apply pres_bind; [typeclasses eauto | auto with vm | intros count].
  apply pres_bind; [typeclasses eauto | auto with vm | intros selector].
  apply pres_bind; [typeclasses eauto | pres_walk | intros index].
  destruct (_ && _); [| auto with vm]. destruct (_ <? _); [| auto with vm].
  destruct (nthZ _ _) as [p |] eqn:Hp; [| by intros ? ? ?].
  apply safe_look. intros m Hok x m'.
  destruct (Z.leb_spec BUCC_FRAMES_MAX (fp m)); [apply safe_at; auto with vm |].
  intros [= _ <-].
  assert (Hf : frame_ok (MkFrame (u32 (base + u32 (index - 1))) (ip m) (sp m) (zlen (locals m)))).
  { pose proof (ok_sp m Hok). pose proof (ok_locals m Hok). pose proof (zlen_nonneg (locals m)).
    pose proof (zlen_nonneg (stack m)). split; [apply Hok |]. cbn. unfold sp in *. lia. }
  pose proof (enter_frame_ok _ m Hok ltac:(lia) Hf) as [].
  constructor; try done. by eapply proc_offset_ok.
Qed.

Lemma try_begin_safe : safe (op_try_begin md).
Proof.
  apply pres_bind; [typeclasses eauto | auto with vm | intros off].
  apply pres_modify. intros m []. constructor; try done. cbn. constructor; [| done].
  unfold fp, sp in *. pose proof (zlen_nonneg (frames m)). pose proof (zlen_nonneg (stack m)).
  split; [apply u32_range | cbn; lia].
Qed.

Lemma try_end_safe : safe op_try_end.
Proof. apply pres_modify. intros m []. constructor; try done. cbn. by apply Forall_drop. Qed.

Lemma swap_safe : safe op_swap.
Proof.
  apply safe_look. intros m Hok x m'. destruct (stack m) as [|a [|b s]] eqn:E;
    [apply safe_at; auto with vm | apply safe_at; auto with vm |].
  intros [= _ <-]. destruct Hok. constructor; try done. unfold sp in *. rewrite E in *. cbn. zl.
Qed.

Lemma call_host_safe : host_safe → safe (op_call_host md host).
Proof.
  intros Hh. unfold op_call_host, host_safe in *. destruct host as [h |]; [| pres_walk].
  assert (∀ ns fn args, safe (λ m, Some (h m ns fn args))).
  { intros ns fn args m x m' [= E]. specialize (Hh m ns fn args). by rewrite E in Hh. }
  pres_walk.
Qed.

Lemma exec_safe op : module_ok → host_safe → safe (exec md punned host op).
Proof.
  intros Hm Hh. pose proof (call_host_safe Hh). pose proof (call_safe Hm).
  pose proof (dispatch_safe Hm). pose proof return_safe. pose proof return_value_safe.
  pose proof try_begin_safe. pose proof try_end_safe. pose proof swap_safe.
  destruct op; cbn [exec]; try assumption;
    unfold op_jmp, op_jmp_if, jump, op_yield, op_prof_tick; pres_walk.
Qed.

Lemma step_safe : module_ok → host_safe → safe (bucc_vm_step md punned host).
Proof.
  intros Hm Hh. assert (∀ op, safe (exec md punned host op)) by (intros; by apply exec_safe).
  unfold bucc_vm_step, tick. pres_walk.
Qed.

Lemma run_loop_safe fuel : ∀ m m',
  module_ok → host_safe → vm_ok m → run_loop md punned host fuel m = Finished m' → vm_ok m'.
Proof.
  induction fuel as [|fuel IH]; intros m m' Hm Hh Hok; cbn [run_loop]; case_match; try done;
    try (by intros [= <-]).
  destruct (bucc_vm_step md punned host m) as [[[] m1] |] eqn:E; [| done].
  apply IH; [done | done | by eapply step_safe].
Qed.
End bounds.

(** One step of the interpreter. *)
Definition steps md punned host (m m' : vm) : Prop :=
  bucc_vm_step md punned host m = Some (tt, m').

(** ** Reading code *)

Lemma read_u8_at md m :
  0 <= ip m → ip m < bytecode_len md → bytecode_len md < 2 ^ 32 →
  read_u8 md m = Some (byte_at md (ip m), set_ip (ip m + 1) m).
Proof.
  intros H0 H1 H2. unfold read_u8, bind, gets, id.
  destruct (Z.leb_spec (bytecode_len md) (ip m)); [lia |].
  assert (Hip : u32 (ip m + 1) = ip m + 1) by (apply wrap_small; zred; lia).
  unfold modify, ret. by rewrite Hip.
Qed.

Lemma code_byte_at md i m : i < bytecode_len md → code_byte md i m = Some (byte_at md i, m).
Proof. intros H. unfold code_byte. by rewrite (proj2 (Z.leb_gt _ _)). Qed.

(** The sums that stay below 4 GB. *)
Lemma ip_sum md m k n :
  0 <= ip m → 0 <= k <= n → ip m + n <= bytecode_len md → bytecode_len md < 2 ^ 32 → u32 (ip m + k) = ip m + k.
Proof. intros. apply wrap_small. zred. lia. Qed.

Lemma read_u16_at md m :
  0 <= ip m → ip m + 2 <= bytecode_len md → bytecode_len md < 2 ^ 32 →
  read_u16 md m =
    Some (Z.lor (Z.shiftl (byte_at md (ip m)) 8) (byte_at md (ip m + 1)), set_ip (ip m + 2) m).
Proof.
  intros H0 H1 H2. unfold read_u16, bind, gets, id, modify, ret.
  rewrite !(ip_sum md m _ 2) by lia. rewrite (proj2 (Z.ltb_ge _ _)), !code_byte_at by lia. done.
Qed.

Lemma read_i32_at md m :
  0 <= ip m → ip m + 4 <= bytecode_len md → bytecode_len md < 2 ^ 32 →
  read_i32 md m =
    Some (s32 (Z.lor (Z.lor (Z.lor (Z.shiftl (byte_at md (ip m)) 24) (Z.shiftl (byte_at md (ip m + 1)) 16))
                       (Z.shiftl (byte_at md (ip m + 2)) 8)) (byte_at md (ip m + 3))), set_ip (ip m + 4) m).
Proof.
  intros H0 H1 H2. unfold read_i32, bind, gets, id, modify, ret.
  rewrite !(ip_sum md m _ 4) by lia. rewrite (proj2 (Z.ltb_ge _ _)), !code_byte_at by lia. done.
Qed.

(** ** Where C leaves a step undefined *)

(** The [k]-th value from the top, as popping it gives it. *)
Definition top (m : vm) (k : nat) : value := default VNull (stack m !! k).

(** The instruction at [ip] computes what C does not define, or calls with more
    arguments than the stack has values. The array that the call reads is the only
    one of the machine that an instruction can leave; the operands behind the end of
    a module of 4 GB are its code. *)
Definition op_faults (punned : value → Z) (op : opcode) (argc : Z) (m : vm) : Prop :=
  let int k := as_i64 punned (top m k) in
  match op with
  | OP_CALL => sp m < argc
  | OP_ADD => ¬ in_s 64 (int 1%nat + int 0%nat)
  | OP_SUB => ¬ in_s 64 (int 1%nat - int 0%nat)
  | OP_MUL => ¬ in_s 64 (int 1%nat * int 0%nat)
  | OP_DIV => ¬ in_s 64 (Z.quot (int 1%nat) (int 0%nat))
  | OP_MOD => ¬ in_s 64 (Z.quot (int 1%nat) (int 0%nat)) ∨ ¬ in_s 64 (Z.rem (int 1%nat) (int 0%nat))
  | OP_NEG => ¬ in_s 64 (- int 0%nat)
  | OP_EQ | OP_NE => bucc_value_equal (equal_fuel m) (store m) (top m 1) (top m 0) = None
  | OP_CAST_I64 => f64_to_i64 (fst (bucc_value_to_number (top m 0))) = None
  | OP_DISPATCH_CALL => ∃ f, top m 0 = VF64 f ∧ f64_to_i64 f = None
  | _ => False
  end.

(** The number of arguments a call reads behind its opcode, when the procedure does
    not fit any more too. *)
Definition call_argc (md : module) (i : Z) : Z :=
  let i := if bytecode_len md <? i + 2 then i else i + 2 in
  if bytecode_len md <=? i then 0 else byte_at md i.

Definition faults (md : module) (punned : value → Z) (m : vm) : Prop :=
  2 ^ 32 - 4 <= bytecode_len md ∨
  ∃ op, decode_op (byte_at md (ip m)) = Some op ∧ op_faults punned op (call_argc md (ip m + 1)) m.

Create HintDb total discriminated.

Section defined.
Context (md : module) (punned : value → Z)
  (host : option (vm → option cstr → option cstr → list value → value * vm))
  (Hmd : module_ok md).

(** Defined in every state. *)
Definition total {A} (c : M A) : Prop := ∀ m, is_Some (c m).

Lemma total_at {A} (c : M A) m : total c → is_Some (c m).
Proof. done. Qed.

Lemma total_ret {A} (x : A) : total (ret x).
Proof. intros m. by eexists. Qed.

Lemma total_gets {A} (f : vm → A) : total (gets f).
Proof. intros m. by eexists. Qed.

Lemma total_modify f : total (modify f).
Proof. intros m. by eexists. Qed.

Lemma total_bind {A B} (c : M A) (k : A → M B) : total c → (∀ x, total (k x)) → total (bind c k).
Proof. intros Hc Hk m. unfold bind. destruct (Hc m) as [[x m'] ->]. apply Hk. Qed.

Lemma total_pop : total bucc_vm_pop.
Proof. intros m. unfold bucc_vm_pop. case_match; by eexists. Qed.

#[local] Hint Resolve total_ret total_gets total_modify total_pop : total.

Ltac total_walk :=
  repeat first
    [ solve [eauto with total]
    | apply total_bind; [| intros ?]
    | progress cbv beta iota zeta
    | match goal with
      | |- total (match ?x with _ => _ end) => destruct x
      | |- total (if ?x then _ else _) => destruct x
      end ].

Lemma total_push v : total (bucc_vm_push v).
Proof. apply total_modify. Qed.

Lemma total_error st msg : total (vm_error st msg).
Proof. apply total_modify. Qed.

Lemma total_read_u8 : total (read_u8 md).
Proof. unfold read_u8. pose proof total_error. total_walk. Qed.

#[local] Hint Resolve total_push total_error total_read_u8 : total.

Lemma total_handle : total handle_exception.
Proof. unfold handle_exception. total_walk. Qed.

#[local] Hint Resolve total_handle : total.

Lemma total_div_zero : total throw_div_zero.
Proof. unfold throw_div_zero. total_walk. Qed.

Lemma total_pop_n n : ∀ acc, total (pop_n n acc).
Proof. induction n as [|n IH]; intros acc; cbn [pop_n]; total_walk. Qed.

Lemma total_map_pairs n l : total (map_pairs n l).
Proof. induction n as [|n IH]; cbn [map_pairs]; total_walk. Qed.

Lemma total_cell c : total (new_cell c).
Proof. intros m. unfold new_cell. destruct (alloc _ _). by eexists. Qed.

#[local] Hint Resolve total_div_zero total_pop_n total_map_pairs total_cell : total.

(** The operands of an instruction of the module. *)
Definition in_code (m : vm) : Prop := 0 <= ip m <= bytecode_len md ∧ bytecode_len md < 2 ^ 32 - 4.

Lemma byte_nonneg i : 0 <= byte_at md i.
Proof.
  destruct (byte_at_range md i Hmd). done.
Qed.

Lemma defined_u16 {A} (k : Z → M A) m : in_code m → (∀ x, 0 <= x → total (k x)) → is_Some ((let! x := read_u16 md in k x) m).
Proof.
  intros [Hip Hlen] Hk. unfold bind at 1. destruct (Z.le_gt_cases (ip m + 2) (bytecode_len md)) as [H | H].
  - rewrite read_u16_at by lia. apply Hk. apply Z.lor_nonneg. split; [apply Z.shiftl_nonneg |]; apply byte_nonneg.
  - unfold read_u16, bind, gets, id. rewrite (wrap_small 32 (ip m + 2)) by (zred; lia).
    rewrite (proj2 (Z.ltb_lt _ _)) by lia. cbn. by apply Hk.
Qed.

Lemma defined_i32 {A} (k : Z → M A) m : in_code m → (∀ x, total (k x)) → is_Some ((let! x := read_i32 md in k x) m).
Proof.
  intros [Hip Hlen] Hk. unfold bind at 1. destruct (Z.le_gt_cases (ip m + 4) (bytecode_len md)) as [H | H].
  - rewrite read_i32_at by lia. apply Hk.
  - unfold read_i32, bind, gets, id. rewrite (wrap_small 32 (ip m + 4)) by (zred; lia).
    rewrite (proj2 (Z.ltb_lt _ _)) by lia. cbn. apply Hk.
Qed.

(** The instructions that are defined whatever the state. *)
Definition computes (op : opcode) : bool :=
  match op with
  | OP_CALL | OP_ADD | OP_SUB | OP_MUL | OP_DIV | OP_MOD | OP_NEG | OP_EQ | OP_NE | OP_CAST_I64 | OP_DISPATCH_CALL => true
  | _ => false
  end.

Lemma total_some {A} (f : vm → A * vm) : total (λ m, Some (f m)).
Proof. intros m. by eexists. Qed.

#[local] Hint Resolve total_some : total.

Lemma nth_some {A} (l : list A) i : 0 <= i → (zlen l <=? i) = false → is_Some (nthZ l i).
Proof. intros H0 H1%Z.leb_gt. destruct (nthZ_lookup l i) as [x ->]; [lia | by eexists]. Qed.

Lemma exec_defined op m : in_code m → computes op = false → is_Some (exec md punned host op m).
Proof.
  intros Hm Hc.
  destruct op; try discriminate; cbn [exec].
  all: try (apply total_at;
    unfold halt, op_dup, op_swap, op_compare, op_logic, op_not, op_concat, concat_strings, op_return, op_return_value, op_yield, op_array_get,
      op_array_set, op_array_push, op_array_pop, op_map_get, op_map_set, op_map_has, op_map_keys, op_try_end, op_throw, op_re_throw, op_cast_f64, op_cast_string, op_cast_bool, op_cast_date, op_cast_datetime, op_typeof, op_prof_tick, halt; total_walk; fail).
  all: try (unfold op_push_const, op_push_str, op_load_global, op_store_global, op_load_local, op_store_local, op_chain, op_array_new, op_map_new, op_range_test;
    apply defined_u16; [done | intros ? ?]; total_walk; fail).
  all: try (unfold op_jmp, op_jmp_if, op_try_begin, jump; apply defined_i32; [done | intros ?]; total_walk; fail).
  - unfold op_call_host. apply defined_u16; [done | intros i Hi]. apply total_bind; [apply total_read_u8 | intros argc].
    destruct (zlen (imports md) <=? i) eqn:E; [apply total_error |].
    destruct (nth_some (imports md) i Hi E) as [imp ->]. total_walk.
Qed.

(** The instructions that compute. *)
Lemma pop2_none {A} (k : value → value → M A) m :
  (let! b := bucc_vm_pop in let! a := bucc_vm_pop in k a b) m = None →
  ∃ m', store m' = store m ∧ k (top m 1) (top m 0) m' = None.
Proof.
  unfold bind, bucc_vm_pop, top. destruct (stack m) as [|b [|a s]] eqn:E; cbn; rewrite ?E; intros H; (eexists; split; [| exact H]); done.
Qed.

Lemma pop1_none {A} (k : value → M A) m :
  (let! a := bucc_vm_pop in k a) m = None → ∃ m', store m' = store m ∧ k (top m 0) m' = None.
Proof. unfold bind, bucc_vm_pop, top. destruct (stack m) as [|a s]; intros H; (eexists; split; [| exact H]); done. Qed.

Lemma push_i64_faults z m : push_i64 z m = None → ¬ in_s 64 z.
Proof. unfold push_i64, signed64, bind. case_decide; done. Qed.

Lemma total_none {A} (c : M A) m : total c → c m ≠ None.
Proof. intros H E. destruct (H m) as [x Hx]. congruence. Qed.

Lemma lift_faults {A B} (o : option A) (k : A → M B) m :
  (∀ x, total (k x)) → (let! x := lift o in k x) m = None → o = None.
Proof. intros Hk. destruct o as [x |]; [| done]. intros E. by destruct (total_none _ _ (Hk x) E). Qed.

Lemma compare_faults (k : bool → M unit) m :
  (∀ r, total (k r)) →
  (let! b := bucc_vm_pop in let! a := bucc_vm_pop in let! m := gets id in
   let! r := lift (bucc_value_equal (equal_fuel m) (store m) a b) in k r) m = None →
  bucc_value_equal (equal_fuel m) (store m) (top m 1) (top m 0) = None.
Proof.
  intros Hk (m' & Hs & E)%pop2_none. unfold bind at 1, gets at 1, id in E.
  apply (lift_faults _ k m' Hk) in E. unfold equal_fuel in *. by rewrite Hs in E.
Qed.

Lemma mod_faults a b m :
  (do! signed64 (Z.quot a b) in push_i64 (Z.rem a b)) m = None → ¬ in_s 64 (Z.quot a b) ∨ ¬ in_s 64 (Z.rem a b).
Proof.
  unfold signed64 at 1. case_decide; [| by left]. intros E. right. by apply (push_i64_faults _ m).
Qed.

(** The operands of a call. *)
Lemma call_operands {A} (k : Z → Z → M A) m :
  in_code m → ∃ pid m', 0 <= pid ∧ stack m' = stack m ∧
    (let! pid := read_u16 md in let! argc := read_u8 md in k pid argc) m = k pid (call_argc md (ip m)) m'.
Proof.
  intros [Hip Hlen].
  assert (∃ pid m1, 0 <= pid ∧ stack m1 = stack m ∧ read_u16 md m = Some (pid, m1) ∧
    ip m1 = (if bytecode_len md <? ip m + 2 then ip m else ip m + 2)) as (pid & m1 & Hp & Hs & E & Ei).
  { destruct (Z.ltb_spec (bytecode_len md) (ip m + 2)) as [H | H].
    - unfold read_u16, bind, gets, id. rewrite (wrap_small 32 (ip m + 2)) by (zred; lia).
      rewrite (proj2 (Z.ltb_lt _ _)) by lia.
      eexists 0, _. split; [done |]. split; [| split; [reflexivity |]]; done.
    - rewrite read_u16_at by lia. exists (Z.lor (Z.shiftl (byte_at md (ip m)) 8) (byte_at md (ip m + 1))), (set_ip (ip m + 2) m).
      split_and!; try done. apply Z.lor_nonneg.
      split; [apply Z.shiftl_nonneg |]; apply byte_nonneg. }
  assert (∃ m', stack m' = stack m1 ∧ read_u8 md m1 = Some (if bytecode_len md <=? ip m1 then 0 else byte_at md (ip m1), m'))
    as (m' & Hs' & E').
  { unfold read_u8, bind, gets, id. destruct (bytecode_len md <=? ip m1); (eexists; split; [| reflexivity]; done). }
  exists pid, m'. unfold bind. rewrite E, E', Ei. split_and!; [done | congruence | done].
Qed.

Lemma call_faults m : in_code m → op_call md m = None → sp m < call_argc md (ip m).
Proof.
  intros Hm. unfold op_call.
  match goal with |- context [let! p := read_u16 md in let! a := read_u8 md in @?k p a] =>
    destruct (call_operands k m Hm) as (pid & m' & Hp & Hs & ->) end.
  destruct (zlen (procedures md) <=? pid) eqn:E; [done |].
  unfold bind at 1, gets at 1, id. case_match; [done |]. destruct (nth_some (procedures md) pid Hp E) as [pr ->].
  unfold lift, bind, ret, modify, sp. cbn [stack set_frames]. rewrite Hs.
  destruct (Z.ltb_spec (zlen (stack m)) (call_argc md (ip m))); done.
Qed.

Lemma dispatch_faults m : in_code m → op_dispatch_call md m = None → ∃ f, top m 0 = VF64 f ∧ f64_to_i64 f = None.
Proof.
  intros Hm. unfold op_dispatch_call.
  match goal with |- context [let! p := read_u16 md in let! a := read_u8 md in @?k p a] =>
    destruct (call_operands k m Hm) as (pid & m' & Hp & Hs & ->) end.
  intros (m1 & _ & E)%pop1_none. unfold top in *. rewrite Hs in E.
  set (rest := λ index : Z, if (1 <=? index) && _ then _ else _) in E.
  assert (∀ index, total (rest index)) as Ht.
  { intros index. unfold rest. destruct (_ && _); [| apply total_error].
    destruct (u32 _ <? _) eqn:Hn; [| apply total_error].
    destruct (nth_some (procedures md) (u32 (pid + u32 (index - 1)))) as [pr ->];
      [apply u32_range | by apply Z.leb_gt, Z.ltb_lt |].
    apply total_bind; [apply total_ret | intros p]. total_walk. }
  destruct (default VNull (stack m !! 0%nat)) as [| | |f | | | | | |]; try (by destruct (total_none _ _ (Ht _) E)).
  exists f. split; [done |]. by apply lift_faults in E.
Qed.

Lemma exec_faults op m :
  in_code m → exec md punned host op m = None → op_faults punned op (call_argc md (ip m)) m.
Proof.
  intros Hm. destruct (computes op) eqn:Hc; last first.
  { intros E. destruct (exec_defined op m Hm Hc) as [x Hx]. congruence. }
  destruct op; try discriminate; cbn [exec op_faults].
  - unfold op_add. intros (m' & _ & E)%pop2_none. repeat case_match; try done. by apply push_i64_faults in E.
  - unfold op_sub. intros (m' & _ & E)%pop2_none. repeat case_match; try done. by apply push_i64_faults in E.
  - unfold op_mul. intros (m' & _ & E)%pop2_none. repeat case_match; try done. by apply push_i64_faults in E.
  - unfold op_div. intros (m' & _ & E)%pop2_none.
    repeat case_match; try done; try (by destruct (total_none _ _ total_div_zero E)). by apply push_i64_faults in E.
  - unfold op_mod. intros (m' & _ & E)%pop2_none.
    case_match; [by destruct (total_none _ _ total_div_zero E) | by apply (mod_faults _ _ m')].
  - unfold op_neg. intros (m' & _ & E)%pop1_none. case_match; try done; by apply push_i64_faults in E.
  - apply (compare_faults (λ r, bucc_vm_push (VBool r))). intros r. apply total_push.
  - apply (compare_faults (λ r, bucc_vm_push (VBool (negb r)))). intros r. apply total_push.
  - by apply call_faults.
  - by apply dispatch_faults.
  - unfold op_cast_i64. intros (m' & _ & E)%pop1_none. apply lift_faults in E; [done |]. intros z. apply total_push.
Qed.

(** A step that is not defined. *)
Lemma step_faults m : 0 <= ip m → bucc_vm_step md punned host m = None → faults md punned m.
Proof.
  intros Hip. unfold bucc_vm_step, bind at 1, gets at 1, id. case_match; [done |]. case_match; [done |].
  destruct (Z.leb_spec (bytecode_len md) (ip m)) as [Hend | Hend]; [done |].
  destruct (Z.le_gt_cases (2 ^ 32 - 4) (bytecode_len md)) as [Hbig | Hlen]; [by left |].
  unfold bind, tick, modify. rewrite read_u8_at by (cbn [ip set_cnt]; lia). cbn [ip set_cnt].
  destruct (decode_op (byte_at md (ip m))) as [op |] eqn:Hop; [| done].
  intros E. right. exists op. split; [done |].
  match type of E with exec _ _ _ _ ?m1 = None => pose proof (exec_faults op m1) as Hf end.
  apply Hf in E; [| split; cbn; lia]. exact E.
Qed.
End defined.

(** An undefined run gets to the step that is. *)
Lemma run_loop_undefined md punned host fuel : ∀ m,
  run_loop md punned host fuel m = Undefined →
  ∃ m', rtc (steps md punned host) m m' ∧ bucc_vm_step md punned host m' = None.
Proof.
  induction fuel as [|fuel IH]; intros m; cbn [run_loop]; case_match; try done.
  destruct (bucc_vm_step md punned host m) as [[[] m1] |] eqn:E; [| intros _; by exists m].
  intros (m' & Hs & E')%IH. exists m'. split; [| done]. by eapply rtc_l.
Qed.

(** C1. No step leaves the machine's fixed arrays, but for one instruction. From a
    machine within its bounds (such as a fresh one), with a module whose procedures
    start at 32-bit offsets and whose code is bytes, and a host that keeps the bounds,
    every machine that any sequence of steps reaches, and the one a run finishes in, has
    at most 1024 stack entries, 256 frames, 256 globals and 256 locals, and only saved
    depths, bases and offsets that are in range. A step from there is defined unless it
    is at a call with more arguments than the stack has values, which reads outside of
    the stack (src/buccaneer/vm.c:683), at a 64-bit computation or conversion that
    overflows, at a comparison of values that contain themselves, or in a module of
    4 GB; and a run is undefined only when it gets to such a step. *)
Theorem bucc_vm_stays_in_bounds md punned host m :
  module_ok md → host_safe host → vm_ok m →
  (∀ m', rtc (steps md punned host) m m' →
     vm_ok m' ∧ (bucc_vm_step md punned host m' = None → faults md punned m')) ∧
  (∀ m', bucc_vm_run md punned host m = Finished m' → vm_ok m') ∧
  (bucc_vm_run md punned host m = Undefined →
     ∃ m', rtc (steps md punned host) (set_running true m) m' ∧ vm_ok m' ∧ faults md punned m').
Proof.
  intros Hm Hh Hok. assert (∀ m m', vm_ok m → rtc (steps md punned host) m m' → vm_ok m') as Hr.
  { intros m1 m2 H1. induction 1 as [m1 | m1 m3 m2 Hstep _ IH]; [done |]. apply IH. by eapply step_safe. }
  assert (vm_ok (set_running true m)) as Hok' by (by destruct Hok). split_and!.
  - intros m' Hs. pose proof (Hr m m' Hok Hs) as H'. split; [done |]. apply (step_faults md punned host Hm), (ok_ip m' H').
  - intros m' Hrun. by eapply run_loop_safe.
  - intros (m' & Hs & E)%run_loop_undefined. pose proof (Hr _ m' Hok' Hs) as H'. exists m'. split_and!; try done.
    apply (step_faults md punned host Hm); [apply (ok_ip m' H') | done].
Qed.

(** ** Calls and returns *)

(** Writing just past the end of the locals of the running frame appends. *)
Lemma set_local_next v m :
  local_base m <= zlen (locals m) < BUCC_LOCALS_MAX → 0 <= local_base m →
  bucc_vm_set_local (zlen (locals m) - local_base m) v m = set_locals (locals m ++ [v]) m.
Proof.
  intros H1 H2. unfold bucc_vm_set_local, BUCC_LOCALS_MAX in *.
  replace (local_base m + (zlen (locals m) - local_base m)) with (zlen (locals m)) by lia.
  assert (Hu : u32 (zlen (locals m)) = zlen (locals m)) by (apply wrap_small; zred; lia).
  rewrite Hu. destruct (Z.leb_spec 256 (zlen (locals m))); [lia |]. f_equal.
  unfold store_at, zlen. rewrite Nat2Z.id.
  replace (Z.to_nat (Z.of_nat (length (locals m)) + 1) - length (locals m))%nat with 1%nat by lia.
  cbn [replicate]. replace (length (locals m)) with (length (locals m) + 0)%nat by lia.
  rewrite insert_app_r. done.
Qed.

Lemma set_locals_from_app args : ∀ m i,
  local_base m <= zlen (locals m) → 0 <= local_base m → i = zlen (locals m) - local_base m →
  zlen (locals m) + zlen args <= BUCC_LOCALS_MAX →
  set_locals_from i args m = set_locals (locals m ++ args) m.
Proof.
  induction args as [|v args IH]; intros m i H1 H2 -> Hlen; cbn [set_locals_from].
  { rewrite app_nil_r. by destruct m. }
  rewrite zlen_cons in Hlen. pose proof (zlen_nonneg args).
  rewrite set_local_next by lia.
  assert (Hb : local_base (set_locals (locals m ++ [v]) m) = local_base m) by done.
  rewrite IH; cbn [locals set_locals]; rewrite ?Hb, ?zlen_app, ?zlen_cons, ?zlen_nil; try lia.
  by rewrite <- app_assoc.
Qed.

(** The machine right after the operands of a call instruction at [ip m] were
    followed. *)
Definition called md (p : proc) (args : list value) (m : vm) : vm :=
  set_ip (code_offset p)
    (set_locals (locals m ++ args)
      (set_frames (MkFrame (Z.lor (Z.shiftl (byte_at md (ip m)) 8) (byte_at md (ip m + 1)))
        (ip m + 3) (sp m - zlen args) (zlen (locals m)) :: frames m) m)).

(** The two operands at [ip m] name the procedure [p] and the arguments [args],
    which are on top of the stack, first one deepest, over [s]; there is room
    for one more frame and for the arguments among the locals. *)
Record calls md (p : proc) (args s : list value) (m : vm) : Prop := {
  calls_code : 0 <= ip m ∧ ip m + 3 <= bytecode_len md ∧ bytecode_len md < 2 ^ 32;
  calls_proc : nthZ (procedures md)
    (Z.lor (Z.shiftl (byte_at md (ip m)) 8) (byte_at md (ip m + 1))) = Some p;
  calls_argc : byte_at md (ip m + 2) = zlen args;
  calls_stack : stack m = rev args ++ s;
  calls_frames : fp m < BUCC_FRAMES_MAX;
  calls_locals : zlen (locals m) + zlen args <= BUCC_LOCALS_MAX
}.

Lemma nthZ_bound {A} (l : list A) i x : nthZ l i = Some x → 0 <= i < zlen l.
Proof.
  unfold nthZ, zlen. destruct (Z.ltb_spec i 0); [done |]. intros H1%lookup_lt_Some. lia.
Qed.

Lemma op_call_called md p args s m :
  calls md p args s m → vm_ok m → op_call md m = Some (tt, called md p args m).
Proof.
  intros [(Hip & Hend & Hlen) Hp Hargc Hst Hfp Hloc] Hok. unfold op_call.
  unfold bind at 1. rewrite read_u16_at by lia.
  unfold bind at 1. rewrite read_u8_at by (cbn [ip set_ip]; lia). cbn [ip set_ip].
  rewrite Hargc. pose proof (nthZ_bound _ _ _ Hp) as Hpid.
  destruct (Z.leb_spec (zlen (procedures md))
    (Z.lor (Z.shiftl (byte_at md (ip m)) 8) (byte_at md (ip m + 1)))); [lia |].
  unfold bind at 1, gets, id.
  change (fp (set_ip ?a (set_ip ?b m))) with (fp m).
  destruct (Z.leb_spec BUCC_FRAMES_MAX (fp m)); [lia |].
  rewrite Hp. unfold bind, lift, ret, modify.
  change (sp (set_ip ?a (set_ip ?b m))) with (sp m). cbn [stack set_ip frames locals ip].
  assert (Hsp : sp m = zlen args + zlen s).
  { unfold sp. rewrite Hst, zlen_app. f_equal. unfold zlen. by rewrite length_rev. }
  pose proof (zlen_nonneg s). pose proof (zlen_nonneg args). pose proof (ok_sp m Hok).
  pose proof (zlen_nonneg (locals m)).
  destruct (Z.ltb_spec (sp m) (zlen args)); [lia |].
  assert (Hargs : rev (takeZ (zlen args) (stack m)) = args).
  { rewrite Hst. replace (zlen args) with (zlen (rev args)) by (unfold zlen; by rewrite length_rev).
    by rewrite takeZ_app, rev_involutive. }
  assert (Hbp : u32 (sp m - zlen args) = sp m - zlen args)
    by (apply wrap_small; unfold BUCC_STACK_MAX in *; zred; lia).
  rewrite Hargs, Hbp. replace (ip m + 2 + 1) with (ip m + 3) by lia.
  rewrite set_locals_from_app; [done | cbn; lia | done | cbn; lia | cbn; lia].
Qed.

Lemma sp_app l s m : stack m = l ++ s → sp m = zlen l + zlen s.
Proof. unfold sp. intros ->. apply zlen_app. Qed.

Lemma push_fits v m :
  sp m < BUCC_STACK_MAX → ∃ c, bucc_vm_push v m = Some (tt, set_cnt c (set_stack (v :: stack m) m)).
Proof.
  intros H. unfold bucc_vm_push, modify. destruct (Z.leb_spec BUCC_STACK_MAX (sp m)); [lia |].
  cbv zeta. case_match; eexists; [reflexivity | by destruct m].
Qed.

Lemma leave_frame_eq f fs junk s l ls m :
  stack m = junk ++ s → fr_bp f = zlen s → locals m = l ++ ls → fr_local_base f = zlen l →
  leave_frame f fs m = set_ip (fr_ip f) (set_stack s (set_locals l (set_frames fs m))).
Proof.
  intros Hst Hbp Hl Hlb. unfold leave_frame. cbv zeta. unfold sp.
  change (stack (set_locals ?a (set_frames ?b m))) with (stack m).
  change (locals (set_frames ?b m)) with (locals m).
  rewrite Hst, Hbp, Hl, Hlb, zlen_app, takeZ_app.
  replace (zlen junk + zlen s - zlen s) with (zlen junk) by lia. by rewrite dropZ_app.
Qed.

(** The calling convention. A call makes the arguments the first locals of
    the procedure, in order, and continues at its code. When the procedure
    executes a return with a value, having kept the frames and what lay below
    its arguments (whatever else it left on the stack or in its locals), the
    caller resumes after the call instruction with the arguments replaced by
    the returned value and with its own locals and frames as they were. *)
Theorem op_call_return md p args s m :
  calls md p args s m → vm_ok m →
  ∃ m1, op_call md m = Some (tt, m1) ∧
    ip m1 = code_offset p ∧
    (∀ i v, nthZ args i = Some v → bucc_vm_get_local m1 i = v) ∧
    ∀ m2 v junk ls,
      frames m2 = frames m1 → stack m2 = v :: junk ++ s → locals m2 = locals m ++ ls →
      zlen s < BUCC_STACK_MAX →
      ∃ m3, op_return_value m2 = Some (tt, m3) ∧
        stack m3 = v :: s ∧ locals m3 = locals m ∧ frames m3 = frames m ∧
        ip m3 = ip m + 3 ∧ stat m3 = stat m2.
Proof.
  intros Hc Hok. exists (called md p args m).
  split; [by eapply op_call_called |]. destruct Hc as [_ _ _ Hst _ Hloc].
  assert (Hbase : sp m - zlen args = zlen s).
  { rewrite (sp_app _ _ _ Hst). unfold zlen. rewrite length_rev. lia. }
  split; [done |]. split.
  - intros i v Hi. pose proof (nthZ_bound _ _ _ Hi). pose proof (zlen_nonneg (locals m)).
    unfold bucc_vm_get_local. cbn [called local_base frames set_ip set_locals set_frames
      fr_local_base locals].
    assert (Hu : u32 (zlen (locals m) + i) = zlen (locals m) + i)
      by (apply wrap_small; unfold BUCC_LOCALS_MAX in *; zred; lia).
    rewrite Hu, zlen_app. destruct (Z.leb_spec (zlen (locals m) + zlen args) (zlen (locals m) + i));
      [lia |].
    unfold nthZ in *. destruct (Z.ltb_spec i 0); [lia |].
    destruct (Z.ltb_spec (zlen (locals m) + i) 0); [lia |].
    rewrite lookup_app_r by (unfold zlen in *; lia).
    replace (Z.to_nat (zlen (locals m) + i) - length (locals m))%nat with (Z.to_nat i)
      by (unfold zlen in *; lia).
    by rewrite Hi.
  - intros m2 v junk ls Hfr Hst2 Hloc2 Hs.
    unfold op_return_value, bind, bucc_vm_pop. rewrite Hst2. unfold gets, id, modify.
    cbn [frames set_stack]. rewrite Hfr. cbn [called frames set_ip set_locals set_frames].
    match goal with |- context [leave_frame ?f ?fs ?m'] =>
      pose proof (leave_frame_eq f fs junk s (locals m) ls m' eq_refl Hbase Hloc2 eq_refl) as Hl
    end.
    rewrite Hl. match goal with
      |- context [bucc_vm_push v ?m] => destruct (push_fits v m) as [c Hc] end; [exact Hs |].
    rewrite Hc. eexists. split; [reflexivity |]. by split_and!.
Qed.

(** ** Exceptions *)

Lemma handle_exception_eq m tf rest fs junk s :
  ex_active (exc m) = true → try_stack m = tf :: rest → frames m = fs ++ dropZ (zlen fs) (frames m) →
  tf_frame_depth tf = fp m - zlen fs → stack m = junk ++ s → tf_stack_depth tf = zlen s →
  zlen s < BUCC_STACK_MAX →
  ∃ c, handle_exception m = Some (true,
    set_ip (tf_handler_ip tf) (set_exc (MkExc VNull (ex_frame_depth (exc m)) false)
      (set_cnt c (set_stack (ex_value (exc m) :: s)
        (set_frames (dropZ (zlen fs) (frames m)) (set_try rest m)))))).
Proof.
  intros Hex Htry Hfr Hfd Hst Hsd Hs. unfold handle_exception, bind, gets, id, modify.
  rewrite Hex. cbn [negb]. rewrite Htry.
  set (m1 := set_stack _ _).
  assert (E : m1 = set_stack s (set_frames (dropZ (zlen fs) (frames m)) (set_try rest m))).
  { subst m1. f_equal.
    - change (sp (set_frames ?a (set_try ?b m))) with (sp m).
      change (stack (set_frames ?a (set_try ?b m))) with (stack m).
      rewrite (sp_app _ _ _ Hst), Hst, Hsd.
      replace (zlen junk + zlen s - zlen s) with (zlen junk) by lia. apply dropZ_app.
    - f_equal. change (fp (set_try rest m)) with (fp m). rewrite Hfd.
      change (frames (set_try rest m)) with (frames m). f_equal. lia. }
  clearbody m1. subst m1.
  match goal with |- context [bucc_vm_push ?v ?m'] => destruct (push_fits v m') as [c Hc] end;
    [exact Hs |].
  exists c. by rewrite Hc.
Qed.

(** Exceptions unwind to their handler. After a try-begin at [m], a throw
    anywhere below it, in however many nested calls and with whatever was
    pushed since, resumes at the handler with the frames and the operand stack
    of the try-begin, the error on top, the handler used up and no exception
    pending. The locals of the abandoned calls are not released: the handler
    runs with them still counted. *)
Theorem op_throw_unwinds md m :
  0 <= ip m → ip m + 4 <= bytecode_len md → bytecode_len md < 2 ^ 32 →
  ∃ off m1, op_try_begin md m = Some (tt, m1) ∧
    ∀ m2 err fs junk,
      try_stack m2 = try_stack m1 → frames m2 = fs ++ frames m →
      stack m2 = err :: junk ++ stack m → sp m2 <= BUCC_STACK_MAX →
      ∃ m3, op_throw m2 = Some (tt, m3) ∧
        ip m3 = u32 (ip m + 4 + off) ∧ frames m3 = frames m ∧ stack m3 = err :: stack m ∧
        try_stack m3 = try_stack m ∧ bucc_vm_has_exception m3 = false ∧
        locals m3 = locals m2 ∧ stat m3 = stat m2.
Proof.
  intros H0 H1 H2. pose proof (read_i32_at md m H0 H1 H2) as Hoff. set (off := s32 _) in Hoff.
  exists off. eexists. split.
  { unfold op_try_begin, bind. rewrite Hoff. reflexivity. }
  intros m2 err fs junk Htry Hfr Hst Hsp. cbn [try_stack set_try set_ip] in Htry.
  unfold op_throw, bind at 1, bucc_vm_pop. rewrite Hst. unfold bind at 1, modify.
  set (m3 := bucc_vm_throw err _).
  assert (Hf3 : frames m3 = fs ++ frames m) by done.
  assert (Hd : dropZ (zlen fs) (frames m3) = frames m) by (rewrite Hf3; apply dropZ_app).
  unfold sp in Hsp. rewrite Hst in Hsp. autorewrite with zlen in Hsp.
  pose proof (zlen_nonneg junk).
  destruct (handle_exception_eq m3 _ _ fs junk (stack m) eq_refl Htry) as [c Hc].
  - by rewrite Hd.
  - cbn [tf_frame_depth]. unfold fp. rewrite Hf3, zlen_app.
    change (frames (set_ip ?a m)) with (frames m). lia.
  - done.
  - done.
  - lia.
  - unfold bind. rewrite Hc, Hd. cbn [tf_handler_ip ip set_ip]. eexists. split; [reflexivity |].
    by split_and!.
Qed.

(** A division by zero that no handler catches does not stop the program:
    the instruction succeeds, both operands are gone and no result is pushed,
    so what follows takes its operands one value too deep; the exception stays
    pending, while a throw of the program's own stops with an error. *)
Theorem op_div_unhandled punned a s m :
  try_stack m = [] → stack m = VI64 0 :: VI64 a :: s →
  ∃ m', op_div punned m = Some (tt, m') ∧
    stack m' = s ∧ stat m' = stat m ∧ running m' = running m ∧ ip m' = ip m ∧
    bucc_vm_has_exception m' = true ∧
    ∃ m'', op_throw m = Some (tt, m'') ∧ stat m'' = VM_ERROR ∧ running m'' = false.
Proof.
  intros Htry Hst. unfold op_div, bind, bucc_vm_pop. rewrite Hst. cbn [stack set_stack].
  cbn [is_f64 orb as_i64 Z.eqb]. unfold throw_div_zero, bind, gets, bucc_error_new, alloc.
  unfold handle_exception, bind, gets, id, modify.
  cbn [exc bucc_vm_throw set_exc ex_active negb try_stack set_store set_stack]. rewrite Htry.
  eexists. split; [reflexivity |]. repeat (split; [done |]).
  unfold op_throw, bind, bucc_vm_pop. rewrite Hst. unfold handle_exception, bind, gets, id, modify.
  cbn [exc bucc_vm_throw set_exc ex_active negb try_stack set_stack]. rewrite Htry.
  eexists. split; [reflexivity |]. done.
Qed.

(** ** The calendar *)

(** Days before the 1st of January of a year, since 1970, and days of the months
    before a month (from 0) within a year: the reference calendar, by
    definition of the Gregorian leap years. *)
Definition leap_days (y : Z) : Z := y / 4 - y / 100 + y / 400.
Definition year_start (y : Z) : Z := 365 * (y - 1970) + leap_days (y - 1) - leap_days 1969.
Definition month_len (lp : bool) (m : Z) : Z :=
  if (m =? 1) && lp then 29 else default 0 (nthZ days_in_month m).
Definition months_before (lp : bool) (m : nat) : Z :=
  foldr (λ i acc, month_len lp (Z.of_nat i) + acc) 0 (seq 0 m).

(** The day number of a date, months and days from 1. *)
Definition day_number (y m d : Z) : Z :=
  year_start y + months_before (leap y) (Z.to_nat (m - 1)) + (d - 1).

Definition valid_date (y m d : Z) : Prop :=
  1 <= m <= 12 ∧ 1 <= d <= month_len (leap y) (m - 1).

Definition year_len (y : Z) : Z := if leap y then 366 else 365.

Lemma leap_days_step y : 0 <= y → leap_days y - leap_days (y - 1) = if leap y then 1 else 0.
Proof.
  intros Hy. unfold leap, leap_days.
  assert (Hdiv : ∀ k, 0 < k → y / k - (y - 1) / k = if Z.rem y k =? 0 then 1 else 0).
  { intros k Hk. rewrite Z.rem_mod_nonneg by lia.
    pose proof (Z.div_mod y k ltac:(lia)). pose proof (Z.mod_pos_bound y k Hk).
    destruct (Z.eqb_spec (y mod k) 0) as [E | E].
    - assert ((y - 1) / k = y / k - 1); [| lia].
      symmetry. apply (Z.div_unique _ _ _ (k - 1)); lia.
    - assert ((y - 1) / k = y / k); [| lia].
      symmetry. apply (Z.div_unique _ _ _ (y mod k - 1)); lia. }
  pose proof (Hdiv 4 ltac:(lia)). pose proof (Hdiv 100 ltac:(lia)). pose proof (Hdiv 400 ltac:(lia)).
  rewrite !Z.rem_mod_nonneg in * by lia.
  assert (y mod 400 = 0 → y mod 100 = 0).
  { intros H400%Z.mod_divide; [| lia]. apply Z.mod_divide; [lia |].
    etrans; [| exact H400]. by exists 4. }
  assert (y mod 100 = 0 → y mod 4 = 0).
  { intros H100%Z.mod_divide; [| lia]. apply Z.mod_divide; [lia |].
    etrans; [| exact H100]. by exists 25. }
  destruct (Z.eqb_spec (y mod 4) 0), (Z.eqb_spec (y mod 100) 0), (Z.eqb_spec (y mod 400) 0);
    cbn [negb andb orb] in *; lia.
Qed.

Lemma year_start_step y : 0 <= y → year_start (y + 1) = year_start y + year_len y.
Proof.
  intros Hy. pose proof (leap_days_step y Hy). unfold year_start, year_len.
  replace (y + 1 - 1) with y by lia. destruct (leap y); lia.
Qed.

Lemma year_loop_spec fuel : ∀ days y,
  0 <= days → 0 <= y → days / 365 < Z.of_nat fuel →
  let '(d, y') := year_loop fuel days y in
  y <= y' ∧ 0 <= d < year_len y' ∧ year_start y' + d = year_start y + days.
Proof.
  induction fuel as [|fuel IH]; intros days y Hd Hy Hf; cbn [year_loop].
  { pose proof (Z.div_pos days 365 Hd ltac:(lia)). lia. }
  unfold year_len in *. destruct (Z.leb_spec 365 days).
  2: { split; [lia |]. split; [destruct (leap y); lia | done]. }
  cbv zeta. destruct (Z.leb_spec (if leap y then 366 else 365) days).
  2: { split; [lia |]. split; [lia | done]. }
  pose proof (year_start_step y Hy) as Hstep. unfold year_len in Hstep.
  set (n := if leap y then 366 else 365) in *.
  assert (Hn : 365 <= n) by (subst n; destruct (leap y); lia).
  specialize (IH (days - n) (y + 1)). destruct (year_loop fuel (days - n) (y + 1)) as [d y'].
  destruct IH as (H1 & H2 & H3); [lia | lia | | lia].
  assert ((days - n) / 365 <= (days - 365) / 365) by (apply Z.div_le_mono; lia).
  replace (days - 365) with (days + (-1) * 365) in * by lia. rewrite Z.div_add in * by lia. lia.
Qed.

Lemma months_before_S lp m :
  months_before lp (S m) = months_before lp m + month_len lp (Z.of_nat m).
Proof.
  unfold months_before. rewrite seq_S, foldr_app. cbn [foldr Nat.add].
  assert (H : ∀ l z, foldr (λ i acc, month_len lp (Z.of_nat i) + acc) z l =
    foldr (λ i acc, month_len lp (Z.of_nat i) + acc) 0 l + z).
  { induction l as [|i l IH]; intros z; cbn; [lia |]. rewrite (IH z). lia. }
  rewrite H. lia.
Qed.

Lemma month_loop_spec fuel : ∀ lp m days,
  0 <= days → (m + fuel = 12)%nat →
  days < months_before lp 12 - months_before lp m →
  let '(m', d) := month_loop fuel lp (Z.of_nat m) days in
  0 <= m' < 12 ∧ 0 <= d < month_len lp m' ∧
  months_before lp (Z.to_nat m') + d = months_before lp m + days.
Proof.
  induction fuel as [|fuel IH]; intros lp m days Hd Hm Hlt; cbn [month_loop].
  { replace m with 12%nat in Hlt by lia. lia. }
  destruct (Z.ltb_spec (Z.of_nat m) 12); [| lia]. cbv zeta. fold (month_len lp (Z.of_nat m)).
  destruct (Z.ltb_spec days (month_len lp (Z.of_nat m))).
  { rewrite Nat2Z.id. repeat split; lia. }
  specialize (IH lp (S m) (days - month_len lp (Z.of_nat m))).
  replace (Z.of_nat m + 1) with (Z.of_nat (S m)) by lia.
  destruct (month_loop _ _ _ _) as [m' d]. rewrite (months_before_S lp m) in IH.
  destruct IH as (H1 & H2 & H3); [lia | lia | lia |]. repeat split; lia.
Qed.

Lemma months_before_12 lp : months_before lp 12 = if lp then 366 else 365.
Proof. by destruct lp. Qed.

Lemma date_of_days_correct days :
  0 <= days →
  let '(y, m, d) := date_of_days days in
  1970 <= y ∧ valid_date y m d ∧ day_number y m d = days.
Proof.
  intros Hd. unfold date_of_days.
  pose proof (year_loop_spec (S (Z.to_nat (days / 365))) days 1970 Hd ltac:(lia)) as Hy.
  destruct (year_loop _ _ _) as [d y].
  pose proof (Z.div_pos days 365 Hd ltac:(lia)).
  destruct Hy as (H1 & H2 & H3); [lia |].
  pose proof (month_loop_spec 12 (leap y) 0 d ltac:(lia) eq_refl) as Hm.
  cbn [Z.of_nat] in Hm. destruct (month_loop _ _ _ _) as [m d'].
  rewrite months_before_12 in Hm. unfold year_len in H2.
  change (months_before (leap y) 0) with 0 in Hm.
  destruct Hm as (H4 & H5 & H6); [destruct (leap y); lia |].
  unfold valid_date, day_number. replace (m + 1 - 1) with m by lia.
  change (year_start 1970) with 0 in H3. split_and!; lia.
Qed.

Lemma year_start_mono y n : 0 <= y → year_start y <= year_start (y + Z.of_nat n).
Proof.
  intros Hy. induction n as [|n IH]; [rewrite Z.add_0_r; lia |].
  replace (y + Z.of_nat (S n)) with (y + Z.of_nat n + 1) by lia.
  rewrite year_start_step by lia. unfold year_len. case_match; lia.
Qed.

Lemma months_before_nonneg lp m : 0 <= m <= 12 → 0 <= months_before lp (Z.to_nat m).
Proof.
  intros Hm. assert (Hn : (Z.to_nat m <= 12)%nat) by lia. clear Hm.
  revert Hn. generalize (Z.to_nat m) as n. intros n Hn.
  do 13 (destruct n as [|n]; [destruct lp; vm_compute; congruence |]). lia.
Qed.

Lemma month_len_max lp m : 0 <= m < 12 → month_len lp m <= 31.
Proof.
  intros Hm. rewrite <- (Z2Nat.id m) by lia. assert (Hn : (Z.to_nat m < 12)%nat) by lia.
  clear Hm. revert Hn. generalize (Z.to_nat m) as n. intros n Hn.
  do 12 (destruct n as [|n]; [destruct lp; vm_compute; congruence |]). lia.
Qed.

(** Day numbers up to the end of the year 32767, the last one the field holds. *)
Definition representable_day (days : Z) : Prop := 0 <= days < year_start 32768.

Lemma date_of_days_fits days y m d :
  representable_day days → date_of_days days = (y, m, d) →
  valid_date y m d ∧ day_number y m d = days ∧ s16 y = y ∧ u8 m = m ∧ u8 d = d.
Proof.
  intros [H0 H1] E. pose proof (date_of_days_correct days H0) as H. rewrite E in H.
  destruct H as (Hy & [Hm Hd] & Hnum).
  pose proof (month_len_max (leap y) (m - 1) ltac:(lia)).
  assert (Hy' : y < 32768).
  { destruct (Z.lt_ge_cases y 32768) as [| Hge]; [done |].
    pose proof (year_start_mono 32768 (Z.to_nat (y - 32768)) ltac:(lia)) as Hmono.
    replace (32768 + Z.of_nat (Z.to_nat (y - 32768))) with y in Hmono by lia.
    unfold day_number in Hnum. pose proof (months_before_nonneg (leap y) (m - 1) ltac:(lia)). lia. }
  repeat split; try lia; [apply swrap_small; zred; lia | apply wrap_small; zred; lia
    | apply wrap_small; zred; lia].
Qed.

(** The conversion of a day count to a date is the Gregorian calendar: for
    every day from 1970-01-01 to the end of the year 32767 it yields the valid
    date with that day number, leap years included. *)
Theorem cast_date_correct days :
  representable_day days →
  let d := cast_date (VI64 days) in
  valid_date (d_year d) (d_month d) (d_day d) ∧
  day_number (d_year d) (d_month d) (d_day d) = days.
Proof.
  intros H. cbn [cast_date]. destruct (date_of_days days) as [[y m] d] eqn:E.
  destruct (date_of_days_fits days y m d H E) as (H1 & H2 & H3 & H4 & H5).
  cbn. by rewrite H3, H4, H5.
Qed.

(** The conversion of a count of seconds to a date and time: the date of
    the day it falls in, and hours, minutes and seconds in their ranges that
    add up to the rest. *)
Theorem cast_datetime_correct ts :
  0 <= ts → representable_day (ts / 86400) →
  let d := cast_datetime (VI64 ts) in
  valid_date (dt_year d) (dt_month d) (dt_day d) ∧
  0 <= dt_hour d < 24 ∧ 0 <= dt_minute d < 60 ∧ 0 <= dt_second d < 60 ∧
  day_number (dt_year d) (dt_month d) (dt_day d) * 86400
    + dt_hour d * 3600 + dt_minute d * 60 + dt_second d = ts.
Proof.
  intros Hts H. cbn [cast_datetime]. rewrite Z.quot_div_nonneg, Z.rem_mod_nonneg by lia.
  pose proof (Z.mod_pos_bound ts 86400 ltac:(lia)). pose proof (Z.div_mod ts 86400 ltac:(lia)).
  destruct (Z.ltb_spec (ts mod 86400) 0); [lia |].
  destruct (date_of_days (ts / 86400)) as [[y m] d] eqn:E.
  destruct (date_of_days_fits _ y m d H E) as (Hv & Hn & Hy & Hmo & Hdd).
  rewrite Hy, Hmo, Hdd. set (s := ts mod 86400) in *.
  pose proof (Z.mod_pos_bound s 3600 ltac:(lia)). pose proof (Z.div_mod s 3600 ltac:(lia)).
  pose proof (Z.mod_pos_bound s 60 ltac:(lia)). pose proof (Z.div_mod s 60 ltac:(lia)).
  pose proof (Z.div_mod (s mod 3600) 60 ltac:(lia)).
  pose proof (Z.mod_pos_bound (s mod 3600) 60 ltac:(lia)).
  assert (Hsec : (s mod 3600) mod 60 = s mod 60).
  { apply Z.mod_mod_divide. by exists 60. }
  assert (Hu : ∀ z, 0 <= z < 256 → u8 z = z) by (intros; apply wrap_small; zred; lia).
  rewrite (Z.rem_mod_nonneg s 3600), (Z.rem_mod_nonneg s 60) by lia.
  rewrite (Z.quot_div_nonneg s 3600), (Z.quot_div_nonneg (s mod 3600) 60) by lia.
  rewrite (Hu (s / 3600)), (Hu (s mod 3600 / 60)), (Hu (s mod 60)) by lia.
  cbn [dt_year dt_month dt_day dt_hour dt_minute dt_second].
  rewrite Hn. split_and!; first [apply Hv | lia].
Qed.

(** Days and times before 1970 are not converted: the year and month stay
    at January 1970 and the day is the negative count, cut to 8 bits. *)
Theorem cast_date_before_epoch days :
  days < 0 → cast_date (VI64 days) = MkDate 1970 1 (u8 (days + 1)).
Proof.
  intros H. cbn [cast_date]. unfold date_of_days. cbn [year_loop].
  destruct (Z.leb_spec 365 days); [lia |].
  assert (Hm : month_loop 12 (leap 1970) 0 days = (0, days)).
  { change (month_loop 12 (leap 1970) 0 days)
      with (if days <? 31 then (0, days) else month_loop 11 false 1 (days - 31)).
    by destruct (Z.ltb_spec days 31); [| lia]. }
  by rewrite Hm.
Qed.

(** The cast of an integer to an integer goes through a double: beyond 2^53
    it changes the number, and near the largest one the conversion back is out
    of range, which C leaves undefined. *)
Theorem op_cast_i64_through_double m :
  sp m < BUCC_STACK_MAX →
  (∃ c, op_cast_i64 (set_stack (VI64 (2 ^ 53 + 1) :: stack m) m) =
     Some (tt, set_cnt c (set_stack (VI64 (2 ^ 53) :: stack m) m))) ∧
  op_cast_i64 (set_stack (VI64 (2 ^ 63 - 1) :: stack m) m) = None.
Proof.
  intros Hsp. split; [| by vm_compute].
  destruct (push_fits (VI64 (2 ^ 53)) (set_stack (stack m) m) Hsp) as [c Hc].
  exists c. exact Hc.
Qed.

(** ** Witnesses *)

(** A module whose code calls its second procedure with one argument and halts;
    that procedure returns its argument. *)
Definition demo : module :=
  MkModule [] [VI64 7] [MkProc (Some (lit "main")) 0; MkProc (Some (lit "id")) 8] []
    [5; 0; 0; 51; 0; 1; 1; 1; 18; 0; 0; 54].

(** Any reading of the union. *)
Definition demo_punned (v : value) : Z := 0.

Definition demo_host (m : vm) (ns fn : option cstr) (args : list value) : value * vm :=
  (VI64 (zlen args), m).

Lemma demo_ok : module_ok demo.
Proof. split; repeat constructor; vm_compute; congruence. Qed.

Lemma new_ok h : vm_ok (bucc_vm_new h).
Proof. split; repeat constructor; vm_compute; congruence. Qed.

Lemma demo_runs :
  match bucc_vm_run demo demo_punned (Some demo_host) (bucc_vm_new []) with
  | Finished m => (stack m, stat m, instructions (cnt m)) = ([VI64 7], VM_HALT, 5)
  | _ => False
  end.
Proof. by vm_compute. Qed.

Lemma bucc_vm_run_terminates_witness :
  let m := bucc_vm_new [] in
  bucc_vm_run demo demo_punned (Some demo_host) m = Undefined ∨
  ∃ m', bucc_vm_run demo demo_punned (Some demo_host) m = Finished m' ∧ ends_run m m'.
Proof.
  intros m. apply bucc_vm_run_terminates; [by intros ? ? ? ? | vm_compute; congruence
    | vm_compute; congruence].
Defined.

Lemma bucc_vm_stays_in_bounds_witness :
  ∃ m', bucc_vm_run demo demo_punned (Some demo_host) (bucc_vm_new []) = Finished m' ∧
    stat m' = VM_HALT ∧ vm_ok m'.
Proof.
  eexists. split; [vm_compute; reflexivity |]. split; [reflexivity |].
  assert (host_safe (Some demo_host)) as Hh by (intros ? ? ? ? H; exact H).
  destruct (bucc_vm_stays_in_bounds demo demo_punned (Some demo_host) (bucc_vm_new []) demo_ok Hh (new_ok []))
    as (_ & Hrun & _).
  apply Hrun. vm_compute. reflexivity.
Defined.

(** The machine about to read the operands of the call, over one more value. *)
Definition demo_before_call : vm :=
  set_ip 4 (set_stack [VI64 7; VBool true] (bucc_vm_new [])).

Lemma op_call_return_witness :
  ∃ m1, op_call demo demo_before_call = Some (tt, m1) ∧ bucc_vm_get_local m1 0 = VI64 7 ∧
    ∀ m2, frames m2 = frames m1 → stack m2 = [VI64 9; VBool true] → locals m2 = [] →
      ∃ m3, op_return_value m2 = Some (tt, m3) ∧ stack m3 = [VI64 9; VBool true] ∧ ip m3 = 7.
Proof.
  destruct (op_call_return demo (MkProc (Some (lit "id")) 8) [VI64 7] [VBool true] demo_before_call)
    as (m1 & H1 & _ & H3 & H4).
  - split; vm_compute; repeat split; congruence.
  - split; repeat constructor; vm_compute; congruence.
  - exists m1. split; [exact H1 |]. split; [by apply H3 |]. intros m2 Hf Hs Hl.
    destruct (H4 m2 (VI64 9) [] [] Hf Hs Hl) as (m3 & ? & ? & _ & _ & ? & _); [done |].
    exists m3. by split.
Defined.

(** A try-begin with its handler 16 bytes on, over one value. *)
Definition demo_try : module := MkModule [] [] [] [] [96; 0; 0; 0; 16].
Definition demo_before_try : vm := set_ip 1 (set_stack [VNull] (bucc_vm_new [])).

Lemma op_throw_unwinds_witness :
  ∃ off m1, op_try_begin demo_try demo_before_try = Some (tt, m1) ∧
    ∀ m2 err f, try_stack m2 = try_stack m1 → frames m2 = [f] → stack m2 = [err; VI64 1; VNull] →
      ∃ m3, op_throw m2 = Some (tt, m3) ∧ ip m3 = u32 (5 + off) ∧ frames m3 = [] ∧
        stack m3 = [err; VNull].
Proof.
  destruct (op_throw_unwinds demo_try demo_before_try) as (off & m1 & H1 & H2);
    [vm_compute; congruence .. |].
  exists off, m1. split; [exact H1 |]. intros m2 err f Ht Hf Hs.
  destruct (H2 m2 err [f] [VI64 1] Ht Hf Hs) as (m3 & ? & ? & ? & ? & _).
  { unfold sp. rewrite Hs. vm_compute. congruence. }
  exists m3. by split_and!.
Defined.

Lemma op_div_unhandled_witness :
  ∃ m', op_div demo_punned (set_stack [VI64 0; VI64 3; VNull] (bucc_vm_new [])) = Some (tt, m') ∧
    stack m' = [VNull] ∧ stat m' = VM_OK.
Proof.
  destruct (op_div_unhandled demo_punned 3 [VNull]
    (set_stack [VI64 0; VI64 3; VNull] (bucc_vm_new []))) as (m' & ? & ? & ? & _); [done .. |].
  by exists m'.
Defined.

(** 2024-02-29. *)
Lemma cast_date_correct_witness :
  representable_day 19782 ∧ day_number 2024 2 29 = 19782 ∧
  let d := cast_date (VI64 19782) in
  valid_date (d_year d) (d_month d) (d_day d) ∧
  day_number (d_year d) (d_month d) (d_day d) = 19782.
Proof.
  assert (H : representable_day 19782) by (split; vm_compute; congruence).
  split; [exact H |]. split; [reflexivity | by apply cast_date_correct].
Defined.

Lemma cast_datetime_correct_witness :
  representable_day (1709209845 / 86400) ∧
  let d := cast_datetime (VI64 1709209845) in
  valid_date (dt_year d) (dt_month d) (dt_day d) ∧
  0 <= dt_hour d < 24 ∧ 0 <= dt_minute d < 60 ∧ 0 <= dt_second d < 60 ∧
  day_number (dt_year d) (dt_month d) (dt_day d) * 86400
    + dt_hour d * 3600 + dt_minute d * 60 + dt_second d = 1709209845.
Proof.
  assert (H : representable_day (1709209845 / 86400)) by (split; vm_compute; congruence).
  split; [exact H | apply cast_datetime_correct; [lia | exact H]].
Defined.

Lemma cast_date_before_epoch_witness : cast_date (VI64 (-1)) = MkDate 1970 1 0.
Proof. apply (cast_date_before_epoch (-1)). lia. Defined.

Lemma op_cast_i64_through_double_witness :
  op_cast_i64 (set_stack [VI64 (2 ^ 63 - 1)] (bucc_vm_new [])) = None.
Proof. apply (op_cast_i64_through_double (bucc_vm_new [])). vm_compute. reflexivity. Defined.
