(* ===== verification/Ast.v ===== *)
(** The syntax tree of the Buccaneer compiler (src/buccaneer/include/bucc_ast.h,
    src/buccaneer/ast.c), which the parser builds, the analysis checks and the
    code generator walks. Nodes keep the fields that these read; of their
    positions only the line and column of a statement, which the debug
    information uses. *)

From S2P Require Import Prelude CLib Float Value.

#[local] Open Scope Z_scope.

(** ** Types *)

(** src/buccaneer/include/bucc_ast.h:74-81 (bucc_scalar_type) *)
Inductive scalar_type : Type :=
  | SCALAR_INTEGER | SCALAR_DOUBLE | SCALAR_BOOLEAN | SCALAR_STRING | SCALAR_DATE
  | SCALAR_DATETIME.

(** A missing element type is a null pointer.
    src/buccaneer/include/bucc_ast.h:37-39 (bucc_node_kind) *)
Inductive type_ref : Type :=
  | TypeScalar (s : scalar_type)
  | TypeArray (element_type : option type_ref)
  | TypeMap (value_type : option type_ref).

(** ** Expressions *)

(** src/buccaneer/include/bucc_ast.h:83-86 (bucc_unary_op) *)
Inductive unary_op : Type := UNARY_NEG | UNARY_NOT.

(** src/buccaneer/include/bucc_ast.h:88-103 (bucc_binary_op) *)
Inductive binary_op : Type :=
  | BINARY_ADD | BINARY_SUB | BINARY_MUL | BINARY_DIV | BINARY_MOD | BINARY_EQ | BINARY_NE
  | BINARY_LT | BINARY_LE | BINARY_GT | BINARY_GE | BINARY_AND | BINARY_OR | BINARY_CONCAT.

(** Expression nodes. [NOther] is a node of any other kind, [NNull] the null
    pointer that the parser leaves where it found no expression.
    src/buccaneer/include/bucc_ast.h:59-69 (bucc_node_kind) *)
Inductive expr : Type :=
  | NIdent (name : cstr)
  | NLiteral (v : value)
  | NUnary (op : unary_op) (operand : expr)
  | NBinary (op : binary_op) (lhs rhs : expr)
  | NCall (callee : expr) (args : list expr)
  | NMember (object : expr) (member : cstr)
  | NIndex (object index : expr)
  | NArrayLit (elements : list expr)
  | NMapLit (pairs : list (cstr * expr))
  | NQualified (ns name : cstr)
  | NOther
  | NNull.

(** A child that may be missing. *)
Definition child (x : expr) : option expr := match x with NNull => None | _ => Some x end.

(** Induction over expressions, with the elements of literals and calls. *)
Lemma expr_ind' (P : expr → Prop) :
  (∀ name, P (NIdent name)) → (∀ v, P (NLiteral v)) → (∀ op a, P a → P (NUnary op a)) →
  (∀ op a b, P a → P b → P (NBinary op a b)) → (∀ c args, P c → Forall P args → P (NCall c args)) →
  (∀ a k, P a → P (NMember a k)) → (∀ a i, P a → P i → P (NIndex a i)) →
  (∀ l, Forall P l → P (NArrayLit l)) → (∀ l, Forall (λ p, P (snd p)) l → P (NMapLit l)) →
  (∀ ns name, P (NQualified ns name)) → P NOther → P NNull → ∀ x, P x.
Proof.
  intros H1 H2 H3 H4 H5 H6 H7 H8 H9 H10 H11 H12. fix IH 1.
  intros [name | v | op a | op a b | c args | a k | a i | l | l | ns name | |];
    [apply H1 | apply H2 | apply H3, IH | apply H4; apply IH | apply H5; [apply IH |]
    | apply H6, IH | apply H7; apply IH | apply H8 | apply H9 | apply H10 | apply H11 | apply H12].
  - induction args as [|x l IHl]; constructor; [apply IH | exact IHl].
  - induction l as [|x l IHl]; constructor; [apply IH | exact IHl].
  - induction l as [|[k x] l IHl]; constructor; [apply IH | exact IHl].
Qed.

(** ** Statements *)

(** A variable; everything is null when its declaration did not parse.
    src/buccaneer/include/bucc_ast.h:152-157 (var_decl) *)
Record var_decl : Type := MkVar {
  var_name : option cstr;
  var_type : option type_ref;
  initializer : option expr
}.

(** src/buccaneer/include/bucc_ast.h:105-110 (bucc_exit_kind) *)
Inductive exit_kind : Type := EXIT_FOR | EXIT_DO | EXIT_WHILE | EXIT_SELECT.

#[export] Instance exit_kind_eq_dec : EqDecision exit_kind.
Proof. solve_decision. Defined.

(** src/buccaneer/include/bucc_ast.h:112-116 (bucc_loop_kind) *)
Inductive loop_kind : Type := LOOP_PLAIN | LOOP_UNTIL | LOOP_WHILE.

(** Statement nodes, with the line and column the debug information uses. The
    step, the error variable, ... are absent when NULL; blocks are the lists of
    their statements.
    src/buccaneer/include/bucc_ast.h:42-57 (bucc_node_kind) *)
Inductive stmt : Type :=
  | Stmt (line col : Z) (k : stmt_kind)

with stmt_kind : Type :=
  | SVarDecl (decl : var_decl)
  | SAssign (target value : expr)
  | SExpr (e : expr)
  | SIf (condition : expr) (then_block : list stmt) (elseif_clauses : list (expr * list stmt))
      (else_block : option (list stmt))
  | SSelect (e : expr) (cases : list select_case) (else_case : option (list stmt))
  | SWhile (condition : expr) (body : list stmt)
  | SDoLoop (body : list stmt) (condition : option expr) (kind : loop_kind)
  | SFor (var_name : cstr) (start_expr end_expr : expr) (step_expr : option expr)
      (body : list stmt)
  | STryCatch (try_block : list stmt) (error_var : option cstr) (catch_block : list stmt)
  | SReturn (value : option expr)
  | SExit (kind : exit_kind)
  | SHalt
  | SThrow (e : expr)
  | SChain (target : cstr) (args : option expr)
  | SOnCall (selector : expr) (targets : list expr)
  | SOther

with select_case : Type :=
  | Case (values range_lows range_highs : list expr) (body : list stmt).

(** ** Declarations *)

(** src/buccaneer/include/bucc_ast.h:173-176 (param_decl) *)
Record param_decl : Type := MkParam { param_name : cstr; param_type : option type_ref }.

(** A procedure, or a function with its type.
    src/buccaneer/include/bucc_ast.h:159-171 (proc_decl, func_decl) *)
Record proc_decl : Type := MkDecl {
  decl_is_function : bool;
  decl_name : cstr;
  decl_params : list param_decl;
  decl_return : option type_ref;
  decl_body : list stmt
}.

(** src/buccaneer/include/bucc_ast.h:24-30 (bucc_node_kind) *)
Inductive metadata : Type :=
  | MetaProgram (s : cstr) | MetaVersion (s : cstr) | MetaAuthor (s : cstr)
  | MetaDescription (s : cstr) | MetaCapability (s : cstr)
  | MetaOption (name : cstr) (value : option cstr) | MetaDataset (name : cstr).

(** src/buccaneer/include/bucc_ast.h:132-136 (module) *)
Record module_node : Type := MkNode {
  meta : list metadata;
  global_vars : list var_decl;
  proc_nodes : list proc_decl
}.

(** A module with global variables and procedures, without metadata and types. *)
Definition program (vars : list cstr) (ps : list proc_decl) : module_node :=
  MkNode [] ((λ v, MkVar (Some v) None None) <$> vars) ps.

(** [Forall] as a fixpoint, for predicates on trees. *)
Fixpoint all {A} (P : A → Prop) (l : list A) : Prop :=
  match l with [] => True | x :: l => P x ∧ all P l end.

(** ** Induction over statements *)

Definition case_body (c : select_case) : list stmt := match c with Case _ _ _ b => b end.

Definition each {A} (P : A → Prop) (o : option (list A)) : Prop :=
  match o with Some l => Forall P l | None => True end.

Section stmt_induction.
Context (P : stmt → Prop) (Q : stmt_kind → Prop).
Context (Hstmt : ∀ line col k, Q k → P (Stmt line col k)).
Context (Hvar : ∀ d, Q (SVarDecl d)) (Hassign : ∀ t v, Q (SAssign t v)) (Hexpr : ∀ x, Q (SExpr x)).
Context (Hif : ∀ c b clauses eb, Forall P b → Forall (λ cl, Forall P (snd cl)) clauses → each P eb →
  Q (SIf c b clauses eb)).
Context (Hselect : ∀ x cases eb, Forall (λ c, Forall P (case_body c)) cases → each P eb →
  Q (SSelect x cases eb)).
Context (Hwhile : ∀ c b, Forall P b → Q (SWhile c b)).
Context (Hdo : ∀ b c k, Forall P b → Q (SDoLoop b c k)).
Context (Hfor : ∀ n x y z b, Forall P b → Q (SFor n x y z b)).
Context (Htry : ∀ b ev cb, Forall P b → Forall P cb → Q (STryCatch b ev cb)).
Context (Hreturn : ∀ x, Q (SReturn x)) (Hexit : ∀ k, Q (SExit k)) (Hhalt : Q SHalt).
Context (Hthrow : ∀ x, Q (SThrow x)) (Hchain : ∀ t a, Q (SChain t a)).
Context (Hon : ∀ x l, Q (SOnCall x l)) (Hother : Q SOther).

Lemma stmt_ind' : ∀ s, P s.
Proof.
  fix IH 1 with (IHk (k : stmt_kind) {struct k} : Q k).
  { intros [line col k]. apply Hstmt, IHk. }
  destruct k as [d | t v | x | c b clauses eb | x cases eb | c b | b c kd | n x y z b | b ev cb
    | x | kd | | x | t a | x l |];
    [apply Hvar | apply Hassign | apply Hexpr | apply Hif | apply Hselect | apply Hwhile | apply Hdo
    | apply Hfor | apply Htry | apply Hreturn | apply Hexit | apply Hhalt | apply Hthrow
    | apply Hchain | apply Hon | apply Hother];
    try (induction b as [|s b IHb]; constructor; [apply IH | exact IHb]).
  - induction clauses as [|[x b'] cl IHc]; constructor; [| exact IHc].
    induction b' as [|s b' IHb]; constructor; [apply IH | exact IHb].
  - destruct eb as [eb |]; [| exact I].
    induction eb as [|s eb IHb]; constructor; [apply IH | exact IHb].
  - induction cases as [|[vs ls hs b'] cl IHc]; constructor; [| exact IHc].
    induction b' as [|s b' IHb]; constructor; [apply IH | exact IHb].
  - destruct eb as [eb |]; [| exact I].
    induction eb as [|s eb IHb]; constructor; [apply IH | exact IHb].
  - induction cb as [|s cb IHb]; constructor; [apply IH | exact IHb].
Qed.
End stmt_induction.
