(* ===== verification/Parser.v ===== *)
(** The parser of the Buccaneer compiler (src/buccaneer/parser.c): a definition
    per parsing function, in a monad over the lexer and the two error flags. A
    null node is [NNull] or [None]. The loops and the recursion of the parser
    take fuel; running out of it is [None]. The parser and its lexer report to
    the same list of diagnostics. *)

From S2P Require Import Prelude CLib Float Lexer Value Ast.

#[local] Open Scope Z_scope.

(** ** State and monad *)

(** src/buccaneer/include/bucc_parser.h:19-24 (bucc_parser) *)
Record parser : Type := MkParser { lex : lexer; had_error : bool; panic_mode : bool }.

Definition parsing (A : Type) : Type := parser → option (A * parser).

#[export] Instance parsing_ret : MRet parsing := λ A x p, Some (x, p).
#[export] Instance parsing_bind : MBind parsing :=
  λ A B k m p, match m p with Some (x, p) => k x p | None => None end.

Definition out_of_fuel {A} : parsing A := λ _, None.

(** src/buccaneer/parser.c:21-23 (current) *)
Definition cur (p : parser) : token := current (lex p).

Definition cur_kind (p : parser) : token_kind := kind (cur p).

(** What [f] says of the parser. *)
Definition look {A} (f : parser → A) : parsing A := λ p, Some (f p, p).

Definition set_lex (l : lexer) (p : parser) : parser := MkParser l (had_error p) (panic_mode p).

Definition set_panic (b : bool) (p : parser) : parser := MkParser (lex p) (had_error p) b.

(** src/buccaneer/parser.c:25-27 (advance) *)
Definition step (p : parser) : parser := set_lex (snd (bucc_lexer_next (lex p))) p.

Definition advance : parsing unit := λ p, Some (tt, step p).

(** src/buccaneer/parser.c:13-19 (bucc_parser_init) *)
Definition bucc_parser_init (l : lexer) : parser := step (MkParser l false false).

(** src/buccaneer/parser.c:29-31 (check) *)
Definition check (k : token_kind) : parsing bool := look (λ p, bool_decide (cur_kind p = k)).

(** src/buccaneer/parser.c:33-39 (match) *)
Definition match_ (k : token_kind) : parsing bool :=
  b ← check k; if b : bool then advance;; mret true else mret false.

(** src/buccaneer/parser.c:41-46 (error) *)
Definition error (msg : cstr) : parsing unit := λ p,
  if panic_mode p then Some (tt, p)
  else Some (tt, MkParser (with_diag (lex p) (diag (lex p) ++ [(tok_span (cur p), msg)])) true true).

(** src/buccaneer/parser.c:56-63 (expect) *)
Definition expect (k : token_kind) (msg : cstr) : parsing bool :=
  b ← check k; if b : bool then advance;; mret true else error msg;; mret false.

(** src/buccaneer/parser.c:65-69 (skip_newlines) *)
Fixpoint skip_newlines (n : nat) : parsing unit :=
  match n with
  | O => out_of_fuel
  | S n =>
      k ← look cur_kind;
      if is_blank k then advance;; skip_newlines n else mret tt
  end.

(** src/buccaneer/parser.c:71-83 (expect_newline) *)
Definition expect_newline : parsing bool :=
  k ← look cur_kind;
  match k with
  | TOK_NEWLINE => advance;; mret true
  | TOK_EOF => mret true
  | TOK_COMMENT => advance;; _ ← match_ TOK_NEWLINE; mret true
  | _ => error (lit "expected newline");; mret false
  end.

(** The keywords that end the search for the next statement. *)
Definition starts_statement (k : token_kind) : bool :=
  match k with
  | TOK_KW_SUB | TOK_KW_FUNCTION | TOK_KW_DIM | TOK_KW_IF | TOK_KW_FOR | TOK_KW_WHILE | TOK_KW_DO
  | TOK_KW_SELECT | TOK_KW_TRY | TOK_KW_RETURN | TOK_KW_END => true
  | _ => false
  end.

(** The loop of [synchronize]. *)
Fixpoint skip_statement (n : nat) : parsing unit :=
  match n with
  | O => out_of_fuel
  | S n =>
      k ← look cur_kind;
      if bool_decide (k = TOK_EOF) then mret tt
      else if bool_decide (k = TOK_NEWLINE) then advance
      else if starts_statement k then mret tt
      else advance;; skip_statement n
  end.

(** src/buccaneer/parser.c:85-111 (synchronize) *)
Definition synchronize (n : nat) : parsing unit :=
  λ p, skip_statement n (set_panic false p).

(** ** Literals *)

Definition escape_char (c : Z) : Z :=
  if c =? ch "n" then 10 else if c =? ch "r" then 13 else if c =? ch "t" then 9 else c.

(** The characters between the quotes. *)
Fixpoint unescape (s : cstr) : cstr :=
  match s with
  | [] => []
  | c :: s =>
      match s with
      | d :: r => if c =? 92 then escape_char d :: unescape r else c :: unescape s
      | [] => [c]
      end
  end.

(** The result as the C string that its callers take it for.
    src/buccaneer/parser.c:113-139 (extract_string_content) *)
Definition extract_string_content (s : cstr) : cstr :=
  if (length s <? 2)%nat then [] else c_string (unescape (take (length s - 2) (drop 1 s))).

(** Digits [i], [i + 1], ... of a literal as a number. *)
Definition digit_at (s : cstr) (i : nat) : Z := char_at s i - ch "0".
Definition two_digits (s : cstr) (i : nat) : Z := u8 (digit_at s i * 10 + digit_at s (S i)).
Definition year_of (s : cstr) : Z :=
  s16 (digit_at s 1 * 1000 + digit_at s 2 * 100 + digit_at s 3 * 10 + digit_at s 4).

(** src/buccaneer/parser.c:141-155 (parse_date_literal) *)
Definition parse_date_literal (s : cstr) : date :=
  if (length s <? 12)%nat then MkDate 0 0 0
  else MkDate (year_of s) (two_digits s 6) (two_digits s 9).

(** src/buccaneer/parser.c:157-174 (parse_datetime_literal) *)
Definition parse_datetime_literal (s : cstr) : datetime :=
  if (length s <? 21)%nat then MkDatetime 0 0 0 0 0 0
  else MkDatetime (year_of s) (two_digits s 6) (two_digits s 9) (two_digits s 12)
         (two_digits s 15) (two_digits s 18).

(** [bucc_token_text(current(p))] *)
Definition cur_text (p : parser) : cstr := bucc_token_text (source (lex p)) (cur p).

(** The text of the token, which is then stepped over. *)
Definition take_text : parsing cstr := s ← look cur_text; advance;; mret s.

(** The content of the string token, which is then stepped over. *)
Definition take_string : parsing cstr := s ← take_text; mret (extract_string_content s).

(** ** Types *)

(** src/buccaneer/parser.c:176-207 (bucc_parse_type_ref) *)
Fixpoint bucc_parse_type_ref (n : nat) : parsing (option type_ref) :=
  match n with
  | O => out_of_fuel
  | S n =>
      b ← match_ TOK_KW_ARRAY;
      if b : bool then
        _ ← expect TOK_KW_OF (lit "expected 'OF' after 'ARRAY'");
        elem ← bucc_parse_type_ref n;
        mret (Some (TypeArray elem))
      else
      b ← match_ TOK_KW_MAP;
      if b : bool then
        _ ← expect TOK_KW_OF (lit "expected 'OF' after 'MAP'");
        _ ← expect TOK_KW_STRING (lit "expected 'STRING' after 'MAP OF'");
        _ ← expect TOK_KW_TO (lit "expected 'TO' after 'MAP OF STRING'");
        val ← bucc_parse_type_ref n;
        mret (Some (TypeMap val))
      else
        let scalar s := advance;; mret (Some (TypeScalar s)) in
        k ← look cur_kind;
        match k with
        | TOK_KW_INTEGER => scalar SCALAR_INTEGER
        | TOK_KW_DOUBLE => scalar SCALAR_DOUBLE
        | TOK_KW_BOOLEAN => scalar SCALAR_BOOLEAN
        | TOK_KW_STRING => scalar SCALAR_STRING
        | TOK_KW_DATE => scalar SCALAR_DATE
        | TOK_KW_DATETIME => scalar SCALAR_DATETIME
        | _ => error (lit "expected type name");; mret None
        end
  end.

(** The parameters up to the first one without a name.
    src/buccaneer/parser.c:209-232 (bucc_parse_param_list) *)
Fixpoint params_loop (n : nat) : parsing (list param_decl) :=
  match n with
  | O => out_of_fuel
  | S n =>
      b ← check TOK_IDENT;
      if b : bool then
        name ← take_text;
        _ ← expect TOK_KW_AS (lit "expected 'AS' after parameter name");
        type ← bucc_parse_type_ref n;
        more ← match_ TOK_COMMA;
        if more : bool then rest ← params_loop n; mret (MkParam name type :: rest)
        else mret [MkParam name type]
      else error (lit "expected parameter name");; mret []
  end.

(** src/buccaneer/parser.c:209-232 (bucc_parse_param_list) *)
Definition bucc_parse_param_list (n : nat) : parsing (list param_decl) :=
  b ← check TOK_RPAREN; if b : bool then mret [] else params_loop n.

(** ** Expressions *)

Section expressions.
(** The fuel of the loops, and the parser of nested expressions. *)
Context (n : nat) (expression : parsing expr).

(** [do ... while (match(p, TOK_COMMA))] over expressions. *)
Fixpoint comma_list (n : nat) : parsing (list expr) :=
  match n with
  | O => out_of_fuel
  | S n =>
      x ← expression;
      more ← match_ TOK_COMMA;
      if more : bool then rest ← comma_list n; mret (x :: rest) else mret [x]
  end.

(** Expressions up to a closing bracket, which may follow at once. *)
Definition list_until (close : token_kind) : parsing (list expr) :=
  b ← check close; if b : bool then mret [] else comma_list n.

(** src/buccaneer/parser.c:312-327 (bucc_parse_primary_expr) *)
Fixpoint map_pairs (n : nat) : parsing (list (cstr * expr)) :=
  match n with
  | O => out_of_fuel
  | S n =>
      b ← check TOK_STRING;
      if b : bool then
        key ← take_string;
        _ ← expect TOK_COLON (lit "expected ':' after map key");
        val ← expression;
        more ← match_ TOK_COMMA;
        if more : bool then rest ← map_pairs n; mret ((key, val) :: rest) else mret [(key, val)]
      else error (lit "expected string key in map literal");; mret []
  end.

Definition i64_of (v : token_value) : Z := match v with Lexer.VI64 z => z | _ => 0 end.
Definition f64_of (v : token_value) : f64 := match v with Lexer.VF64 f => f | _ => fzero end.

Definition literal (v : value) : parsing expr := advance;; mret (NLiteral v).

(** src/buccaneer/parser.c:236-335 (bucc_parse_primary_expr) *)
Definition bucc_parse_primary_expr : parsing expr :=
  k ← look cur_kind;
  t ← look cur;
  s ← look cur_text;
  match k with
  | TOK_KW_NULL => literal VNull
  | TOK_KW_TRUE => literal (VBool true)
  | TOK_KW_FALSE => literal (VBool false)
  | TOK_INTEGER | TOK_HEX => literal (VI64 (i64_of (Lexer.value t)))
  | TOK_DOUBLE => literal (VF64 (f64_of (Lexer.value t)))
  | TOK_STRING => literal (VString (extract_string_content s))
  | TOK_DATE => literal (VDate (parse_date_literal s))
  | TOK_DATETIME => literal (VDatetime (parse_datetime_literal s))
  | TOK_IDENT => advance;; mret (NIdent s)
  | TOK_LPAREN =>
      advance;;
      x ← expression;
      _ ← expect TOK_RPAREN (lit "expected ')' after expression");
      mret x
  | TOK_LBRACKET =>
      advance;;
      l ← list_until TOK_RBRACKET;
      _ ← expect TOK_RBRACKET (lit "expected ']' after array elements");
      mret (NArrayLit l)
  | TOK_LBRACE =>
      advance;;
      b ← check TOK_RBRACE;
      l ← (if b : bool then mret [] else map_pairs n);
      _ ← expect TOK_RBRACE (lit "expected '}' after map pairs");
      mret (NMapLit l)
  | _ => error (lit "expected expression");; mret NNull
  end.

(** What a name after a dot makes of the node before it.
    src/buccaneer/parser.c:372-381 (bucc_parse_postfix_expr) *)
Definition member_of (x : expr) (member : cstr) : expr :=
  match x with NIdent name => NQualified name member | _ => NMember x member end.

(** src/buccaneer/parser.c:341-386 (bucc_parse_postfix_expr) *)
Fixpoint postfix_loop (m : nat) (x : expr) : parsing expr :=
  match m with
  | O => out_of_fuel
  | S m =>
      k ← look cur_kind;
      match k with
      | TOK_LPAREN =>
          advance;;
          args ← list_until TOK_RPAREN;
          _ ← expect TOK_RPAREN (lit "expected ')' after arguments");
          postfix_loop m (NCall x args)
      | TOK_LBRACKET =>
          advance;;
          idx ← expression;
          _ ← expect TOK_RBRACKET (lit "expected ']' after index");
          postfix_loop m (NIndex x idx)
      | TOK_DOT =>
          advance;;
          b ← check TOK_IDENT;
          if b : bool then member ← take_text; postfix_loop m (member_of x member)
          else error (lit "expected member name after '.'");; mret x
      | _ => mret x
      end
  end.

(** src/buccaneer/parser.c:337-389 (bucc_parse_postfix_expr) *)
Definition bucc_parse_postfix_expr : parsing expr :=
  x ← bucc_parse_primary_expr;
  match x with NNull => mret NNull | _ => postfix_loop n x end.

(** src/buccaneer/parser.c:391-405 (bucc_parse_unary_expr) *)
Fixpoint unary_loop (m : nat) : parsing expr :=
  match m with
  | O => out_of_fuel
  | S m =>
      k ← look cur_kind;
      match k with
      | TOK_MINUS => advance;; x ← unary_loop m; mret (NUnary UNARY_NEG x)
      | TOK_KW_NOT => advance;; x ← unary_loop m; mret (NUnary UNARY_NOT x)
      | _ => bucc_parse_postfix_expr
      end
  end.

Definition bucc_parse_unary_expr : parsing expr := unary_loop n.

(** One level of binary operators, associating to the left: while the token is
    an operator of the level, step over it and parse another operand. *)
Fixpoint left_loop (op_of : token_kind → option binary_op) (operand : parsing expr) (m : nat)
    (left : expr) : parsing expr :=
  match m with
  | O => out_of_fuel
  | S m =>
      k ← look cur_kind;
      match op_of k with
      | Some op => advance;; right ← operand; left_loop op_of operand m (NBinary op left right)
      | None => mret left
      end
  end.

Definition left_level (op_of : token_kind → option binary_op) (operand : parsing expr) : parsing expr :=
  left ← operand; left_loop op_of operand n left.

Definition mul_op (k : token_kind) : option binary_op :=
  match k with
  | TOK_STAR => Some BINARY_MUL | TOK_SLASH => Some BINARY_DIV | TOK_KW_MOD => Some BINARY_MOD
  | _ => None
  end.
Definition add_op (k : token_kind) : option binary_op :=
  match k with TOK_PLUS => Some BINARY_ADD | TOK_MINUS => Some BINARY_SUB | _ => None end.
Definition rel_op (k : token_kind) : option binary_op :=
  match k with
  | TOK_LT => Some BINARY_LT | TOK_LE => Some BINARY_LE | TOK_GT => Some BINARY_GT
  | TOK_GE => Some BINARY_GE | _ => None
  end.
Definition eq_op (k : token_kind) : option binary_op :=
  match k with TOK_EQ => Some BINARY_EQ | TOK_NE => Some BINARY_NE | _ => None end.
Definition and_op (k : token_kind) : option binary_op :=
  match k with TOK_KW_AND => Some BINARY_AND | _ => None end.
Definition or_op (k : token_kind) : option binary_op :=
  match k with TOK_KW_OR => Some BINARY_OR | _ => None end.

(** src/buccaneer/parser.c:407-423 (bucc_parse_multiplicative_expr) *)
Definition bucc_parse_multiplicative_expr : parsing expr := left_level mul_op bucc_parse_unary_expr.

(** src/buccaneer/parser.c:425-438 (bucc_parse_additive_expr) *)
Definition bucc_parse_additive_expr : parsing expr :=
  left_level add_op bucc_parse_multiplicative_expr.

(** src/buccaneer/parser.c:440-457 (bucc_parse_relational_expr) *)
Definition bucc_parse_relational_expr : parsing expr := left_level rel_op bucc_parse_additive_expr.

(** src/buccaneer/parser.c:459-472 (bucc_parse_equality_expr) *)
Definition bucc_parse_equality_expr : parsing expr := left_level eq_op bucc_parse_relational_expr.

(** src/buccaneer/parser.c:474-484 (bucc_parse_and_expr) *)
Definition bucc_parse_and_expr : parsing expr := left_level and_op bucc_parse_equality_expr.

(** src/buccaneer/parser.c:486-496 (bucc_parse_or_expr) *)
Definition bucc_parse_or_expr : parsing expr := left_level or_op bucc_parse_and_expr.
End expressions.

(** src/buccaneer/parser.c:498-500 (bucc_parse_expression) *)
Fixpoint bucc_parse_expression (n : nat) : parsing expr :=
  match n with
  | O => out_of_fuel
  | S n => bucc_parse_or_expr n (bucc_parse_expression n)
  end.

(** ** Statements *)

(** src/buccaneer/parser.c:502-525 (bucc_parse_var_decl) *)
Definition bucc_parse_var_decl (n : nat) : parsing (option var_decl) :=
  _ ← expect TOK_KW_DIM (lit "expected 'DIM'");
  b ← check TOK_IDENT;
  if b : bool then
    name ← take_text;
    _ ← expect TOK_KW_AS (lit "expected 'AS' after variable name");
    type ← bucc_parse_type_ref n;
    b ← match_ TOK_EQ;
    init ← (if b : bool then x ← bucc_parse_expression n; mret (child x) else mret None);
    mret (Some (MkVar (Some name) type init))
  else error (lit "expected variable name");; mret None.

(** The statement node of a possibly missing declaration.
    src/buccaneer/ast.c:390-401 (bucc_ast_stmt_var_decl) *)
Definition bucc_ast_stmt_var_decl (d : option var_decl) : stmt_kind :=
  SVarDecl (default (MkVar None None None) d).

Section statements.
(** The fuel of the loops and of expressions, and the parser of statements. *)
Context (n : nat) (statement : parsing (option stmt)).

(** The statements up to a token that [stop]s the block, which stays the current
    one, or the end of the source: the loop that every block but a procedure's
    has, here at WHILE.
    src/buccaneer/parser.c:653-658 (bucc_parse_while_stmt) *)
Fixpoint stmts_until (stop : token_kind → bool) (m : nat) : parsing (list stmt) :=
  match m with
  | O => out_of_fuel
  | S m =>
      k ← look cur_kind;
      if stop k || bool_decide (k = TOK_EOF) then mret [] else
      skip_newlines n;;
      k ← look cur_kind;
      if stop k then mret [] else
      s ← statement;
      rest ← stmts_until stop m;
      mret (option_list s ++ rest)
  end.

Definition block_until (stop : token_kind → bool) : parsing (list stmt) := stmts_until stop n.

Definition is_kind (a k : token_kind) : bool := bool_decide (k = a).

Definition ends_clause (k : token_kind) : bool :=
  match k with TOK_KW_ELSEIF | TOK_KW_ELSE | TOK_KW_END => true | _ => false end.

(** The ELSEIF clauses of an IF.
    src/buccaneer/parser.c:546-562 (bucc_parse_if_stmt) *)
Fixpoint elseif_loop (m : nat) : parsing (list (expr * list stmt)) :=
  match m with
  | O => out_of_fuel
  | S m =>
      b ← match_ TOK_KW_ELSEIF;
      if b : bool then
        c ← bucc_parse_expression n;
        _ ← expect TOK_KW_THEN (lit "expected 'THEN' after ELSEIF condition");
        _ ← expect_newline;
        body ← block_until ends_clause;
        rest ← elseif_loop m;
        mret ((c, body) :: rest)
      else mret []
  end.

(** src/buccaneer/parser.c:527-581 (bucc_parse_if_stmt) *)
Definition bucc_parse_if_stmt : parsing stmt_kind :=
  _ ← expect TOK_KW_IF (lit "expected 'IF'");
  c ← bucc_parse_expression n;
  _ ← expect TOK_KW_THEN (lit "expected 'THEN' after condition");
  _ ← expect_newline;
  then_block ← block_until ends_clause;
  clauses ← elseif_loop n;
  b ← match_ TOK_KW_ELSE;
  else_block ← (if b : bool then
      _ ← expect_newline; body ← block_until (is_kind TOK_KW_END); mret (Some body)
    else mret None);
  _ ← expect TOK_KW_END (lit "expected 'END IF'");
  _ ← expect TOK_KW_IF (lit "expected 'IF' after 'END'");
  _ ← expect_newline;
  mret (SIf c then_block clauses else_block).

(** The values and ranges of a CASE.
    src/buccaneer/parser.c:612-621 (bucc_parse_select_stmt) *)
Fixpoint case_values (m : nat) : parsing (list expr * list expr * list expr) :=
  match m with
  | O => out_of_fuel
  | S m =>
      val ← bucc_parse_expression n;
      b ← match_ TOK_KW_TO;
      high ← (if b : bool then x ← bucc_parse_expression n; mret (Some x) else mret None);
      more ← match_ TOK_COMMA;
      '(vs, ls, hs) ← (if more : bool then case_values m else mret ([], [], []));
      mret match high with
        | Some x => (vs, val :: ls, x :: hs)
        | None => (val :: vs, ls, hs)
        end
  end.

Definition ends_case (k : token_kind) : bool :=
  match k with TOK_KW_CASE | TOK_KW_END => true | _ => false end.

(** The cases of a SELECT; CASE ELSE is the last one.
    src/buccaneer/parser.c:594-636 (bucc_parse_select_stmt) *)
Fixpoint cases_loop (m : nat) : parsing (list select_case * option (list stmt)) :=
  match m with
  | O => out_of_fuel
  | S m =>
      b ← match_ TOK_KW_CASE;
      if b : bool then
        b ← match_ TOK_KW_ELSE;
        if b : bool then
          _ ← expect_newline;
          body ← block_until (is_kind TOK_KW_END);
          mret ([], Some body)
        else
          '(vs, ls, hs) ← case_values n;
          _ ← expect_newline;
          body ← block_until ends_case;
          skip_newlines n;;
          '(cases, else_case) ← cases_loop m;
          mret (Case vs ls hs body :: cases, else_case)
      else mret ([], None)
  end.

(** src/buccaneer/parser.c:583-643 (bucc_parse_select_stmt) *)
Definition bucc_parse_select_stmt : parsing stmt_kind :=
  _ ← expect TOK_KW_SELECT (lit "expected 'SELECT'");
  _ ← expect TOK_KW_CASE (lit "expected 'CASE' after 'SELECT'");
  x ← bucc_parse_expression n;
  _ ← expect_newline;
  skip_newlines n;;
  '(cases, else_case) ← cases_loop n;
  _ ← expect TOK_KW_END (lit "expected 'END SELECT'");
  _ ← expect TOK_KW_SELECT (lit "expected 'SELECT' after 'END'");
  _ ← expect_newline;
  mret (SSelect x cases else_case).

(** src/buccaneer/parser.c:645-664 (bucc_parse_while_stmt) *)
Definition bucc_parse_while_stmt : parsing stmt_kind :=
  _ ← expect TOK_KW_WHILE (lit "expected 'WHILE'");
  c ← bucc_parse_expression n;
  _ ← expect_newline;
  body ← block_until (is_kind TOK_KW_WEND);
  _ ← expect TOK_KW_WEND (lit "expected 'WEND'");
  _ ← expect_newline;
  mret (SWhile c body).

(** src/buccaneer/parser.c:666-696 (bucc_parse_do_loop_stmt) *)
Definition bucc_parse_do_loop_stmt : parsing stmt_kind :=
  _ ← expect TOK_KW_DO (lit "expected 'DO'");
  _ ← expect_newline;
  body ← block_until (is_kind TOK_KW_LOOP);
  _ ← expect TOK_KW_LOOP (lit "expected 'LOOP'");
  b ← match_ TOK_KW_UNTIL;
  '(kind, c) ← (if b : bool then x ← bucc_parse_expression n; mret (LOOP_UNTIL, child x) else
    b ← match_ TOK_KW_WHILE;
    if b : bool then x ← bucc_parse_expression n; mret (LOOP_WHILE, child x)
    else mret (LOOP_PLAIN, None));
  _ ← expect_newline;
  mret (SDoLoop body c kind).

(** src/buccaneer/parser.c:698-740 (bucc_parse_for_stmt) *)
Definition bucc_parse_for_stmt : parsing (option stmt_kind) :=
  _ ← expect TOK_KW_FOR (lit "expected 'FOR'");
  b ← check TOK_IDENT;
  if b : bool then
    var ← take_text;
    _ ← expect TOK_EQ (lit "expected '=' after loop variable");
    start_expr ← bucc_parse_expression n;
    _ ← expect TOK_KW_TO (lit "expected 'TO'");
    end_expr ← bucc_parse_expression n;
    b ← match_ TOK_KW_STEP;
    step_expr ← (if b : bool then x ← bucc_parse_expression n; mret (child x) else mret None);
    _ ← expect_newline;
    body ← block_until (is_kind TOK_KW_NEXT);
    _ ← expect TOK_KW_NEXT (lit "expected 'NEXT'");
    _ ← match_ TOK_IDENT;
    _ ← expect_newline;
    mret (Some (SFor var start_expr end_expr step_expr body))
  else error (lit "expected loop variable");; mret None.

(** src/buccaneer/parser.c:742-780 (bucc_parse_try_catch_stmt) *)
Definition bucc_parse_try_catch_stmt : parsing stmt_kind :=
  _ ← expect TOK_KW_TRY (lit "expected 'TRY'");
  _ ← expect_newline;
  try_block ← block_until (is_kind TOK_KW_CATCH);
  _ ← expect TOK_KW_CATCH (lit "expected 'CATCH'");
  b ← check TOK_IDENT;
  error_var ← (if b : bool then name ← take_text; mret (Some name) else mret None);
  _ ← expect_newline;
  catch_block ← block_until (is_kind TOK_KW_END);
  _ ← expect TOK_KW_END (lit "expected 'END TRY'");
  _ ← expect TOK_KW_TRY (lit "expected 'TRY' after 'END'");
  _ ← expect_newline;
  mret (STryCatch try_block error_var catch_block).

(** src/buccaneer/parser.c:819-826 (bucc_parse_statement) *)
Definition parse_return : parsing stmt_kind :=
  k ← look cur_kind;
  v ← (if is_blank k || bool_decide (k = TOK_EOF) then mret None
       else x ← bucc_parse_expression n; mret (child x));
  _ ← expect_newline;
  mret (SReturn v).

(** src/buccaneer/parser.c:828-840 (bucc_parse_statement) *)
Definition parse_exit : parsing (option stmt_kind) :=
  k ← look cur_kind;
  let exit kind := advance;; _ ← expect_newline; mret (Some (SExit kind)) in
  match k with
  | TOK_KW_FOR => exit EXIT_FOR
  | TOK_KW_DO => exit EXIT_DO
  | TOK_KW_WHILE => exit EXIT_WHILE
  | TOK_KW_SELECT => exit EXIT_SELECT
  | _ => error (lit "expected FOR, DO, WHILE, or SELECT after EXIT");; mret None
  end.

(** src/buccaneer/parser.c:853-870 (bucc_parse_statement) *)
Definition parse_chain : parsing (option stmt_kind) :=
  b ← check TOK_STRING;
  if b : bool then
    target ← take_string;
    b ← match_ TOK_COMMA;
    args ← (if b : bool then x ← bucc_parse_expression n; mret (child x) else mret None);
    _ ← expect_newline;
    mret (Some (SChain target args))
  else error (lit "expected string literal after CHAIN");; mret None.

(** src/buccaneer/parser.c:877-887 (bucc_parse_statement) *)
Fixpoint targets_loop (m : nat) : parsing (list expr) :=
  match m with
  | O => out_of_fuel
  | S m =>
      b ← check TOK_IDENT;
      if b : bool then
        name ← take_text;
        more ← match_ TOK_COMMA;
        if more : bool then rest ← targets_loop m; mret (NIdent name :: rest)
        else mret [NIdent name]
      else error (lit "expected procedure name");; mret []
  end.

(** src/buccaneer/parser.c:872-891 (bucc_parse_statement) *)
Definition parse_on_call : parsing stmt_kind :=
  selector ← bucc_parse_expression n;
  _ ← expect TOK_KW_CALL (lit "expected 'CALL' after ON expression");
  targets ← targets_loop n;
  _ ← expect_newline;
  mret (SOnCall selector targets).

(** A statement that starts with an expression.
    src/buccaneer/parser.c:893-912 (bucc_parse_statement) *)
Definition parse_simple : parsing (option stmt_kind) :=
  _ ← match_ TOK_KW_LET;
  _ ← match_ TOK_KW_CALL;
  x ← bucc_parse_expression n;
  match x with
  | NNull => synchronize n;; mret None
  | _ =>
      b ← match_ TOK_EQ;
      if b : bool then
        v ← bucc_parse_expression n; _ ← expect_newline; mret (Some (SAssign x v))
      else _ ← expect_newline; mret (Some (SExpr x))
  end.

Definition some_kind (k : parsing stmt_kind) : parsing (option stmt_kind) := x ← k; mret (Some x).

(** The statement that starts at the current token.
    src/buccaneer/parser.c:789-912 (bucc_parse_statement) *)
Definition parse_kind : parsing (option stmt_kind) :=
  k ← look cur_kind;
  match k with
  | TOK_KW_DIM =>
      d ← bucc_parse_var_decl n; _ ← expect_newline; mret (Some (bucc_ast_stmt_var_decl d))
  | TOK_KW_IF => some_kind bucc_parse_if_stmt
  | TOK_KW_SELECT => some_kind bucc_parse_select_stmt
  | TOK_KW_WHILE => some_kind bucc_parse_while_stmt
  | TOK_KW_DO => some_kind bucc_parse_do_loop_stmt
  | TOK_KW_FOR => bucc_parse_for_stmt
  | TOK_KW_TRY => some_kind bucc_parse_try_catch_stmt
  | TOK_KW_RETURN => advance;; some_kind parse_return
  | TOK_KW_EXIT => advance;; parse_exit
  | TOK_KW_HALT => advance;; _ ← expect_newline; mret (Some SHalt)
  | TOK_KW_THROW =>
      advance;; x ← bucc_parse_expression n; _ ← expect_newline; mret (Some (SThrow x))
  | TOK_KW_CHAIN => advance;; parse_chain
  | TOK_KW_ON => advance;; some_kind parse_on_call
  | _ => parse_simple
  end.

(** src/buccaneer/parser.c:782-913 (bucc_parse_statement) *)
Definition statement_body : parsing (option stmt) :=
  skip_newlines n;;
  b ← check TOK_EOF;
  if b : bool then mret None else
  t ← look cur;
  k ← parse_kind;
  mret (Stmt (start_line (tok_span t)) (start_col (tok_span t)) <$> k).
End statements.

(** src/buccaneer/parser.c:782-913 (bucc_parse_statement) *)
Fixpoint bucc_parse_statement (n : nat) : parsing (option stmt) :=
  match n with
  | O => out_of_fuel
  | S n => statement_body n (bucc_parse_statement n)
  end.

(** src/buccaneer/parser.c:915-933 (bucc_parse_block) *)
Fixpoint block_loop (n m : nat) : parsing (list stmt) :=
  match m with
  | O => out_of_fuel
  | S m =>
      k ← look cur_kind;
      if bool_decide (k = TOK_KW_END) || bool_decide (k = TOK_EOF) then mret [] else
      skip_newlines n;;
      b ← check TOK_KW_END;
      if b : bool then mret [] else
      s ← bucc_parse_statement n;
      panic ← look panic_mode;
      (if panic : bool then synchronize n else mret tt);;
      rest ← block_loop n m;
      mret (option_list s ++ rest)
  end.

Definition bucc_parse_block (n : nat) : parsing (list stmt) := block_loop n n.

(** ** Declarations *)

(** src/buccaneer/parser.c:935-963 (bucc_parse_procedure) *)
Definition bucc_parse_procedure (n : nat) : parsing (option proc_decl) :=
  _ ← expect TOK_KW_SUB (lit "expected 'SUB'");
  b ← check TOK_IDENT;
  if b : bool then
    name ← take_text;
    _ ← expect TOK_LPAREN (lit "expected '(' after procedure name");
    params ← bucc_parse_param_list n;
    _ ← expect TOK_RPAREN (lit "expected ')' after parameters");
    _ ← expect_newline;
    body ← bucc_parse_block n;
    _ ← expect TOK_KW_END (lit "expected 'END SUB'");
    _ ← expect TOK_KW_SUB (lit "expected 'SUB' after 'END'");
    _ ← expect_newline;
    mret (Some (MkDecl false name params None body))
  else error (lit "expected procedure name");; mret None.

(** src/buccaneer/parser.c:965-996 (bucc_parse_function) *)
Definition bucc_parse_function (n : nat) : parsing (option proc_decl) :=
  _ ← expect TOK_KW_FUNCTION (lit "expected 'FUNCTION'");
  b ← check TOK_IDENT;
  if b : bool then
    name ← take_text;
    _ ← expect TOK_LPAREN (lit "expected '(' after function name");
    params ← bucc_parse_param_list n;
    _ ← expect TOK_RPAREN (lit "expected ')' after parameters");
    _ ← expect TOK_KW_AS (lit "expected 'AS' after parameters");
    type ← bucc_parse_type_ref n;
    _ ← expect_newline;
    body ← bucc_parse_block n;
    _ ← expect TOK_KW_END (lit "expected 'END FUNCTION'");
    _ ← expect TOK_KW_FUNCTION (lit "expected 'FUNCTION' after 'END'");
    _ ← expect_newline;
    mret (Some (MkDecl true name params type body))
  else error (lit "expected function name");; mret None.

(** The metadata declared by a string. *)
Definition meta_string (make : cstr → metadata) (msg : cstr) : parsing (option metadata) :=
  advance;;
  b ← check TOK_STRING;
  if b : bool then s ← take_string; _ ← expect_newline; mret (Some (make s))
  else error msg;; mret None.

(** src/buccaneer/parser.c:998-1102 (bucc_parse_metadata) *)
Definition bucc_parse_metadata : parsing (option metadata) :=
  k ← look cur_kind;
  match k with
  | TOK_KW_PROGRAM => meta_string MetaProgram (lit "expected string after PROGRAM")
  | TOK_KW_VERSION => meta_string MetaVersion (lit "expected string after VERSION")
  | TOK_KW_AUTHOR => meta_string MetaAuthor (lit "expected string after AUTHOR")
  | TOK_KW_DESCRIPTION => meta_string MetaDescription (lit "expected string after DESCRIPTION")
  | TOK_KW_CAPABILITY => meta_string MetaCapability (lit "expected string after CAPABILITY")
  | TOK_KW_OPTION =>
      advance;;
      b ← check TOK_IDENT;
      if b : bool then
        name ← take_text;
        b ← check TOK_STRING;
        v ← (if b : bool then s ← take_string; mret (Some s) else mret None);
        _ ← expect_newline;
        mret (Some (MetaOption name v))
      else error (lit "expected option name");; mret None
  | TOK_KW_DATASET =>
      advance;;
      b ← check TOK_IDENT;
      if b : bool then name ← take_text; _ ← expect_newline; mret (Some (MetaDataset name))
      else error (lit "expected dataset name");; mret None
  | _ => mret None
  end.

Definition starts_metadata (k : token_kind) : bool :=
  match k with
  | TOK_KW_PROGRAM | TOK_KW_VERSION | TOK_KW_AUTHOR | TOK_KW_DESCRIPTION | TOK_KW_CAPABILITY
  | TOK_KW_OPTION | TOK_KW_DATASET => true
  | _ => false
  end.

(** The three loops of a module.
    src/buccaneer/parser.c:1113-1122 (bucc_parse_module) *)
Fixpoint metadata_loop (n m : nat) : parsing (list metadata) :=
  match m with
  | O => out_of_fuel
  | S m =>
      k ← look cur_kind;
      if starts_metadata k then
        d ← bucc_parse_metadata; skip_newlines n;; rest ← metadata_loop n m;
        mret (option_list d ++ rest)
      else mret []
  end.

(** src/buccaneer/parser.c:1124-1131 (bucc_parse_module) *)
Fixpoint globals_loop (n m : nat) : parsing (list var_decl) :=
  match m with
  | O => out_of_fuel
  | S m =>
      b ← check TOK_KW_DIM;
      if b : bool then
        d ← bucc_parse_var_decl n; _ ← expect_newline; skip_newlines n;;
        rest ← globals_loop n m; mret (option_list d ++ rest)
      else mret []
  end.

(** src/buccaneer/parser.c:1133-1151 (bucc_parse_module) *)
Fixpoint procedures_loop (n m : nat) : parsing (list proc_decl) :=
  match m with
  | O => out_of_fuel
  | S m =>
      b ← check TOK_EOF;
      if b : bool then mret [] else
      skip_newlines n;;
      k ← look cur_kind;
      if bool_decide (k = TOK_EOF) then mret [] else
      d ← match k with
        | TOK_KW_SUB => bucc_parse_procedure n
        | TOK_KW_FUNCTION => bucc_parse_function n
        | _ => error (lit "expected SUB or FUNCTION declaration");; synchronize n;; mret None
        end;
      rest ← procedures_loop n m;
      mret (option_list d ++ rest)
  end.

(** src/buccaneer/parser.c:1108-1154 (bucc_parse_module) *)
Definition bucc_parse_module (n : nat) : parsing module_node :=
  skip_newlines n;;
  ms ← metadata_loop n n;
  vs ← globals_loop n n;
  ps ← procedures_loop n n;
  mret (MkNode ms vs ps).

(** src/buccaneer/parser.c:1156-1158 (bucc_parser_had_error) *)
Definition bucc_parser_had_error (p : parser) : bool := had_error p.
