(* ===== verification/ParserSpec.v ===== *)
(** The expression parser of [Parser]: it always returns, having read every
    operator it can, and it reports an error for every node it leaves out. The
    statements: what no source is parsed to, where the parser does not return, and
    what the tree of a source is in which it found no error. *)

From S2P Require Import Prelude CLib Float Lexer LexerSpec Value Ast Parser.

#[local] Open Scope Z_scope.

(** ** Parsers that return *)

(** [m] returns at [p], with a result and a state that satisfy [Q]. *)
Definition returns {A} (m : parsing A) (p : parser) (Q : A → parser → Prop) : Prop :=
  ∃ x p', m p = Some (x, p') ∧ Q x p'.

Section rules.
Context {A B : Type}.
Implicit Types (m : parsing A) (k : A → parsing B).

Lemma returns_ret x p (Q : A → parser → Prop) : Q x p → returns (mret x) p Q.
Proof. intros H. by exists x, p. Qed.

Lemma returns_bind m k p Q :
  returns m p (λ x p', returns (k x) p' Q) → returns (m ≫= k) p Q.
Proof.
  intros (x & p' & E & y & p'' & E' & HQ). exists y, p''. split; [| done].
  unfold mbind, parsing_bind. by rewrite E.
Qed.

Lemma returns_mono m p (Q Q' : A → parser → Prop) :
  returns m p Q → (∀ x p', Q x p' → Q' x p') → returns m p Q'.
Proof. intros (x & p' & E & HQ) H. exists x, p'. auto. Qed.

Lemma returns_look (f : parser → A) p (Q : A → parser → Prop) : Q (f p) p → returns (look f) p Q.
Proof. intros H. by exists (f p), p. Qed.
End rules.

(** ** The tokens left *)

(** The lexer at a source position, without a peeked token, and errors
    remembered. *)
Definition wf (p : parser) : Prop :=
  located (lex p) ∧ has_peek (lex p) = false ∧ (panic_mode p = true → had_error p = true).

(** Zero at the end of the source, which is never stepped over. *)
Definition left_over (p : parser) : nat :=
  if bool_decide (cur_kind p = TOK_EOF) then 0%nat
  else S (length (source (lex p)) - pos (lex p)).

Lemma left_over_zero p : cur_kind p = TOK_EOF → left_over p = 0%nat.
Proof. intros H. unfold left_over. by rewrite bool_decide_eq_true_2. Qed.

Lemma left_over_pos p :
  cur_kind p ≠ TOK_EOF → left_over p = S (length (source (lex p)) - pos (lex p)).
Proof. intros H. unfold left_over. by rewrite bool_decide_eq_false_2. Qed.

Lemma step_ok p : wf p → cur_kind p ≠ TOK_EOF →
  wf (step p) ∧ (left_over (step p) < left_over p)%nat ∧ had_error (step p) = had_error p.
Proof.
  intros (Hloc & Hpk & Herr) Hk.
  destruct (bucc_lexer_next_ok (lex p) Hloc Hpk) as (ws & text & H).
  split; [split; [apply (no_located _ _ _ _ _ H) | split; [apply (no_peek _ _ _ _ _ H) | exact Herr]] |].
  split; [| done]. rewrite (left_over_pos p Hk).
  destruct (decide (cur_kind (step p) = TOK_EOF)) as [E | E]; [rewrite left_over_zero by done; lia |].
  rewrite left_over_pos by done. unfold step. cbn [lex set_lex].
  rewrite (no_source _ _ _ _ _ H), (no_pos _ _ _ _ _ H).
  assert (Ht : text ≠ []).
  { intros Et. apply E. unfold cur_kind, cur, step. cbn [lex set_lex].
    rewrite (no_current _ _ _ _ _ H). by apply (no_eof _ _ _ _ _ H). }
  destruct Hloc as [Hb _]. pose proof (no_located _ _ _ _ _ H) as [Hb' _].
  rewrite (no_source _ _ _ _ _ H), (no_pos _ _ _ _ _ H) in Hb'.
  destruct text; [done |]. cbn [length] in *. lia.
Qed.

(** What every part of the parser keeps: [p'] comes after [p]. *)
Record after (p p' : parser) : Prop := {
  after_wf : wf p';
  after_left : (left_over p' <= left_over p)%nat;
  after_error : had_error p = true → had_error p' = true
}.

Lemma after_refl p : wf p → after p p.
Proof. by split. Qed.

Lemma after_trans p q r : after p q → after q r → after p r.
Proof. intros [? ? ?] [? ? ?]. split; [done | lia | auto]. Qed.

Lemma step_after_ok p : wf p → cur_kind p ≠ TOK_EOF → after p (step p) ∧ (left_over (step p) < left_over p)%nat.
Proof.
  intros Hw Hk. destruct (step_ok p Hw Hk) as (H1 & H2 & H3). split; [| done].
  split; [done | lia | congruence].
Qed.

Lemma returns_advance p (Q : unit → parser → Prop) : Q tt (step p) → returns advance p Q.
Proof. intros H. by exists tt, (step p). Qed.

(** An error is remembered; nothing is read. *)
Lemma error_ok msg p : wf p →
  ∃ p', error msg p = Some (tt, p') ∧ after p p' ∧ had_error p' = true ∧
    left_over p' = left_over p ∧ cur_kind p' = cur_kind p.
Proof.
  intros Hw. pose proof Hw as (Hl & Hpk & Herr). unfold error. destruct (panic_mode p) eqn:E.
  - exists p. split; [done |]. split; [by apply after_refl | auto].
  - eexists. split; [reflexivity |]. split; [| done]. by split.
Qed.

Lemma match_ok k p : wf p → k ≠ TOK_EOF →
  ∃ b p', match_ k p = Some (b, p') ∧ after p p' ∧
    (if b : bool then cur_kind p = k ∧ (left_over p' < left_over p)%nat ∧ p' = step p
     else cur_kind p ≠ k ∧ p' = p).
Proof.
  intros Hw Hk. unfold match_, check, look, mbind, parsing_bind.
  case_bool_decide as E; cbn.
  - exists true, (step p). split; [done |].
    destruct (step_after_ok p Hw) as [H1 H2]; [congruence |]. auto.
  - exists false, p. split; [done |]. split; [by apply after_refl | done].
Qed.

Lemma expect_ok k msg p : wf p → k ≠ TOK_EOF →
  ∃ b p', expect k msg p = Some (b, p') ∧ after p p' ∧ (b = true ∨ had_error p' = true).
Proof.
  intros Hw Hk. unfold expect, check, look, mbind, parsing_bind. case_bool_decide as E; cbn.
  - exists true, (step p). split; [done |]. split; [apply step_after_ok; congruence | by left].
  - destruct (error_ok msg p Hw) as (p' & -> & H1 & H2 & _). cbn. eauto 6.
Qed.

(** ** Expressions *)

(** No node is missing. *)
Fixpoint complete (x : expr) : Prop :=
  match x with
  | NNull => False
  | NUnary _ a | NMember a _ => complete a
  | NBinary _ a b | NIndex a b => complete a ∧ complete b
  | NCall c args => complete c ∧ all complete args
  | NArrayLit l => all complete l
  | NMapLit l => all (λ p, complete (snd p)) l
  | _ => True
  end.

(** The result [x] of an expression parser from [p], stopped at [p'] before a
    token that is none of [ops]: it has read something if it found anything, and
    reported an error if a node is missing. *)
Record parsed (ops : token_kind → bool) (p : parser) (x : expr) (p' : parser) : Prop := {
  parsed_after : after p p';
  parsed_progress : x ≠ NNull → (left_over p' < left_over p)%nat;
  parsed_complete : complete x ∨ had_error p' = true;
  parsed_stop : ops (cur_kind p') = false
}.

Definition no_ops (k : token_kind) : bool := false.

Definition is_op (op_of : token_kind → option binary_op) (k : token_kind) : bool :=
  match op_of k with Some _ => true | None => false end.

Lemma complete_after (P : Prop) p p' : after p p' → P ∨ had_error p = true → P ∨ had_error p' = true.
Proof. intros H [? | ?]; [by left | right; by apply (after_error _ _ H)]. Qed.

Section expressions.
Context (n : nat) (expression : parsing expr).

(** Nested expressions, which start further on. *)
Context (Hexpr : ∀ p, wf p → (S (left_over p) < n)%nat → returns expression p (parsed no_ops p)).

Lemma comma_list_ok m : ∀ p,
  wf p → (S (left_over p) < n)%nat → (left_over p < m)%nat →
  returns (comma_list expression m) p (λ l p', after p p' ∧ (all complete l ∨ had_error p' = true)).
Proof.
  induction m as [|m IH]; intros p Hw Hn Hm; [lia |]. cbn [comma_list].
  apply returns_bind. eapply returns_mono; [by apply Hexpr |]. intros x p1 [H1 Hp1 Hc1 _].
  apply returns_bind. destruct (match_ok TOK_COMMA p1 (after_wf _ _ H1)) as (b & p2 & E & H2 & Hb); [done |].
  exists b, p2. split; [done |]. pose proof (after_left _ _ H1). pose proof (after_left _ _ H2).
  destruct b.
  - destruct Hb as (_ & Hlt & _). apply returns_bind.
    eapply returns_mono; [apply IH; [apply H2 | lia | lia] |]. intros l p3 [H3 Hl]. apply returns_ret.
    split; [by eapply after_trans; [exact H1 |]; eapply after_trans |].
    apply (complete_after _ _ p3 (after_trans _ _ _ H2 H3)) in Hc1. cbn. tauto.
  - destruct Hb as [_ ->]. apply returns_ret. split; [done |]. cbn. tauto.
Qed.

Lemma list_until_ok close p :
  wf p → (S (left_over p) < n)%nat →
  returns (list_until n expression close) p
    (λ l p', after p p' ∧ (all complete l ∨ had_error p' = true)).
Proof.
  intros Hw Hn. unfold list_until. apply returns_bind, returns_look. case_bool_decide.
  - apply returns_ret. split; [by apply after_refl | by left].
  - apply comma_list_ok; [done | done | lia].
Qed.

Lemma take_string_ok p : wf p → cur_kind p ≠ TOK_EOF →
  returns take_string p (λ _ p', after p p' ∧ (left_over p' < left_over p)%nat).
Proof.
  intros Hw Hk. unfold take_string, take_text. repeat apply returns_bind. apply returns_look.
  apply returns_bind, returns_advance, returns_ret, returns_ret. by apply step_after_ok.
Qed.

Lemma take_text_ok p : wf p → cur_kind p ≠ TOK_EOF →
  returns take_text p (λ _ p', after p p' ∧ (left_over p' < left_over p)%nat).
Proof.
  intros Hw Hk. unfold take_text. apply returns_bind, returns_look.
  apply returns_bind, returns_advance, returns_ret. by apply step_after_ok.
Qed.

Lemma map_pairs_ok m : ∀ p,
  wf p → (S (left_over p) < n)%nat → (left_over p < m)%nat →
  returns (map_pairs expression m) p
    (λ l p', after p p' ∧ (all (λ q, complete (snd q)) l ∨ had_error p' = true)).
Proof.
  induction m as [|m IH]; intros p Hw Hn Hm; [lia |]. cbn [map_pairs].
  apply returns_bind, returns_look. case_bool_decide as E.
  - apply returns_bind. eapply returns_mono; [apply take_string_ok; [done | by rewrite E] |].
    intros key p1 [H1 Hlt1]. apply returns_bind.
    destruct (expect_ok TOK_COLON (lit "expected ':' after map key") p1 (after_wf _ _ H1))
      as (b & p2 & Eb & H2 & _); [done |].
    exists b, p2. split; [done |]. clear b Eb. pose proof (after_left _ _ H2).
    apply returns_bind. eapply returns_mono; [apply Hexpr; [apply H2 | lia] |]. intros x p3 [H3 _ Hc3 _].
    pose proof (after_left _ _ H3). pose proof (after_trans _ _ _ H1 (after_trans _ _ _ H2 H3)) as H13.
    apply returns_bind. destruct (match_ok TOK_COMMA p3 (after_wf _ _ H3)) as (b & p4 & Eb & H4 & Hb); [done |].
    exists b, p4. split; [done |]. destruct b.
    + destruct Hb as (_ & Hlt & _). apply returns_bind.
      eapply returns_mono; [apply IH; [apply H4 | lia | lia] |]. intros l p5 [H5 Hl]. apply returns_ret.
      split; [by eapply after_trans; [exact H13 |]; eapply after_trans |].
      apply (complete_after _ _ p5 (after_trans _ _ _ H4 H5)) in Hc3. cbn. tauto.
    + destruct Hb as [_ ->]. apply returns_ret. split; [done |]. cbn. tauto.
  - apply returns_bind. destruct (error_ok (lit "expected string key in map literal") p Hw)
      as (p1 & E1 & H1 & He & _). exists tt, p1. split; [done |]. apply returns_ret. auto.
Qed.

Lemma literal_ok v p :
  wf p → cur_kind p ≠ TOK_EOF → returns (literal v) p (parsed no_ops p).
Proof.
  intros Hw Hk. unfold literal. apply returns_bind, returns_advance, returns_ret.
  destruct (step_after_ok p Hw Hk). split; try done. by left.
Qed.

(** After an opening bracket: something, then the closing one. *)
Lemma bracket_ok {A} (m : parsing A) close msg (ok : A → Prop) (make : A → expr) p :
  wf p → cur_kind p ≠ TOK_EOF → close ≠ TOK_EOF → (left_over p < n)%nat →
  (∀ q, wf q → (S (left_over q) < n)%nat →
    returns m q (λ x p', after q p' ∧ (ok x ∨ had_error p' = true))) →
  (∀ x, ok x → complete (make x)) →
  returns (advance;; x ← m; _ ← expect close msg; mret (make x)) p (parsed no_ops p).
Proof.
  intros Hw Hk Hclose Hn Hm Hok. destruct (step_after_ok p Hw Hk) as [H1 Hlt].
  apply returns_bind, returns_advance, returns_bind.
  eapply returns_mono; [apply Hm; [apply H1 | lia] |]. intros x p2 [H2 Hx].
  apply returns_bind. destruct (expect_ok close msg p2 (after_wf _ _ H2) Hclose) as (b & p3 & E & H3 & _).
  exists b, p3. split; [done |]. apply returns_ret.
  pose proof (after_left _ _ H2). pose proof (after_left _ _ H3).
  split; [by do 2 (eapply after_trans; [eassumption |]) | lia | | done].
  apply (complete_after _ _ p3 H3) in Hx. destruct Hx; [left; auto | by right].
Qed.

Lemma primary_ok p : wf p → (left_over p < n)%nat →
  returns (bucc_parse_primary_expr n expression) p (parsed no_ops p).
Proof.
  intros Hw Hn. unfold bucc_parse_primary_expr. do 3 apply returns_bind, returns_look.
  assert (Hnone : returns (error (lit "expected expression");; mret NNull) p (parsed no_ops p)).
  { apply returns_bind. destruct (error_ok (lit "expected expression") p Hw) as (p1 & E & H1 & He & _).
    exists tt, p1. split; [done |]. apply returns_ret. split; try done. by right. }
  assert (Hnested : ∀ q, wf q → (S (left_over q) < n)%nat →
    returns expression q (λ x p', after q p' ∧ (complete x ∨ had_error p' = true))).
  { intros q Hq Hqn. eapply returns_mono; [by apply Hexpr |]. by intros x p' []. }
  destruct (cur_kind p) eqn:Ek; try exact Hnone; try (apply literal_ok; [done | by rewrite Ek]).
  - apply returns_bind, returns_advance, returns_ret.
    destruct (step_after_ok p Hw) as [H1 Hlt]; [by rewrite Ek |]. split; try done. by left.
  - apply (bracket_ok expression TOK_RPAREN _ complete id); try done; by rewrite Ek.
  - apply (bracket_ok (list_until n expression TOK_RBRACKET) TOK_RBRACKET _ (all complete) NArrayLit);
      try done; [by rewrite Ek | apply list_until_ok].
  - destruct (step_after_ok p Hw) as [H1 Hlt]; [by rewrite Ek |].
    apply returns_bind, returns_advance, returns_bind, returns_look, returns_bind.
    assert (Hpairs : returns (if bool_decide (cur_kind (step p) = TOK_RBRACE) then mret []
        else map_pairs expression n) (step p)
      (λ l p', after (step p) p' ∧ (all (λ q, complete (snd q)) l ∨ had_error p' = true))).
    { case_bool_decide; [apply returns_ret; split; [by apply after_refl, H1 | by left] |].
      apply map_pairs_ok; [apply H1 | lia | lia]. }
    eapply returns_mono; [exact Hpairs |]. intros l p2 [H2 Hl]. apply returns_bind.
    destruct (expect_ok TOK_RBRACE (lit "expected '}' after map pairs") p2 (after_wf _ _ H2))
      as (b & p3 & E & H3 & _); [done |].
    exists b, p3. split; [done |]. apply returns_ret.
    pose proof (after_left _ _ H2). pose proof (after_left _ _ H3).
    split; [by do 2 (eapply after_trans; [eassumption |]) | lia | | done].
    by apply (complete_after _ _ p3 H3) in Hl.
Qed.

Lemma error_parsed msg x p q :
  after p q → complete x ∨ had_error q = true → (left_over q < left_over p)%nat →
  returns (error msg;; mret x) q (parsed no_ops p).
Proof.
  intros H Hx Hlt. apply returns_bind.
  destruct (error_ok msg q (after_wf _ _ H)) as (q' & E & H1 & He & Hl & _). exists tt, q'. split; [done |].
  apply returns_ret. split; [by eapply after_trans | lia | by right | done].
Qed.

(** A state of the postfix loop: [x] was read since [p0]. *)
Lemma postfix_loop_ok m : ∀ x p0 p,
  after p0 p → (left_over p < left_over p0)%nat → complete x ∨ had_error p = true →
  (S (left_over p) < n)%nat → (left_over p < m)%nat →
  returns (postfix_loop n expression m x) p (parsed no_ops p0).
Proof.
  induction m as [|m IH]; intros x p0 p H0 Hlt0 Hx Hn Hm; [lia |]. cbn [postfix_loop].
  apply returns_bind, returns_look. pose proof (after_wf _ _ H0) as Hw.
  assert (Hstop : returns (mret x) p (parsed no_ops p0)) by (apply returns_ret; by split).
  destruct (cur_kind p) eqn:Ek; try exact Hstop;
    (destruct (step_after_ok p Hw) as [H1 Hlt]; [by rewrite Ek |]);
    pose proof (after_trans _ _ _ H0 H1) as H01; apply returns_bind, returns_advance, returns_bind.
  - eapply returns_mono; [apply list_until_ok; [apply H1 | lia] |]. intros l p2 [H2 Hl].
    apply returns_bind. destruct (expect_ok TOK_RPAREN (lit "expected ')' after arguments") p2
      (after_wf _ _ H2)) as (b & p3 & E & H3 & _); [done |].
    exists b, p3. split; [done |]. pose proof (after_left _ _ H2). pose proof (after_left _ _ H3).
    apply IH; try lia.
    + by do 2 (eapply after_trans; [eassumption |]).
    + apply (complete_after _ _ p3 (after_trans _ _ _ H1 (after_trans _ _ _ H2 H3))) in Hx.
      apply (complete_after _ _ p3 H3) in Hl. cbn. tauto.
  - eapply returns_mono; [apply Hexpr; [apply H1 | lia] |]. intros i p2 [H2 _ Hi _].
    apply returns_bind. destruct (expect_ok TOK_RBRACKET (lit "expected ']' after index") p2
      (after_wf _ _ H2)) as (b & p3 & E & H3 & _); [done |].
    exists b, p3. split; [done |]. pose proof (after_left _ _ H2). pose proof (after_left _ _ H3).
    apply IH; try lia.
    + by do 2 (eapply after_trans; [eassumption |]).
    + apply (complete_after _ _ p3 (after_trans _ _ _ H1 (after_trans _ _ _ H2 H3))) in Hx.
      apply (complete_after _ _ p3 H3) in Hi. cbn. tauto.
  - apply returns_look. case_bool_decide as Ei.
    + apply returns_bind. eapply returns_mono; [apply take_text_ok; [apply H1 | by rewrite Ei] |].
      intros name p2 [H2 Hlt2]. apply IH; try lia; [by eapply after_trans |].
      apply (complete_after _ _ p2 (after_trans _ _ _ H1 H2)) in Hx. destruct x; cbn in *; tauto.
    + apply error_parsed; [done | by apply (complete_after _ _ _ H1) | lia].
Qed.

Lemma postfix_ok p : wf p → (left_over p < n)%nat →
  returns (bucc_parse_postfix_expr n expression) p (parsed no_ops p).
Proof.
  intros Hw Hn. unfold bucc_parse_postfix_expr. apply returns_bind.
  eapply returns_mono; [by apply primary_ok |]. intros x p1 H1. pose proof H1 as [Ha Hp Hc _].
  assert (Hloop : x ≠ NNull → returns (postfix_loop n expression n x) p1 (parsed no_ops p))
    by (intros Hx; specialize (Hp Hx); apply postfix_loop_ok; done || lia).
  destruct x; try (by apply Hloop). by apply returns_ret.
Qed.

Lemma unary_loop_ok m : ∀ p, wf p → (left_over p < n)%nat → (left_over p < m)%nat →
  returns (unary_loop n expression m) p (parsed no_ops p).
Proof.
  induction m as [|m IH]; intros p Hw Hn Hm; [lia |]. cbn [unary_loop].
  apply returns_bind, returns_look.
  assert (Hop : cur_kind p ≠ TOK_EOF → ∀ op,
    returns (advance;; x ← unary_loop n expression m; mret (NUnary op x)) p (parsed no_ops p)).
  { intros Hk op. destruct (step_after_ok p Hw Hk) as [H1 Hlt].
    apply returns_bind, returns_advance, returns_bind.
    eapply returns_mono; [apply IH; [apply H1 | lia | lia] |]. intros x p2 [H2 _ Hc _].
    pose proof (after_left _ _ H2). apply returns_ret.
    split; [by eapply after_trans | lia | exact Hc | done]. }
  destruct (cur_kind p); try (by apply postfix_ok); by apply Hop.
Qed.

(** The operators of two levels. *)
Definition or_ops (a b : token_kind → bool) (k : token_kind) : bool := a k || b k.

Lemma left_loop_ok op_of operand ops m : ∀ left p0 p,
  op_of TOK_EOF = None →
  (∀ q, wf q → (left_over q < n)%nat → returns operand q (parsed ops q)) →
  parsed ops p0 left p → (left_over p < n)%nat → (left_over p < m)%nat →
  returns (left_loop op_of operand m left) p (parsed (or_ops ops (is_op op_of)) p0).
Proof.
  induction m as [|m IH]; intros left p0 p Heof Hop H0 Hn Hm; [lia |]. cbn [left_loop].
  apply returns_bind, returns_look. pose proof H0 as [Ha Hp Hc Hs].
  destruct (op_of (cur_kind p)) as [op |] eqn:Eop.
  - destruct (step_after_ok p (after_wf _ _ Ha)) as [H1 Hlt]; [congruence |].
    apply returns_bind, returns_advance, returns_bind.
    eapply returns_mono; [apply Hop; [apply H1 | lia] |]. intros right p2 [H2 _ Hc2 Hs2].
    pose proof (after_left _ _ H2). pose proof (after_left _ _ Ha).
    apply IH; try done; try lia. split.
    + by do 2 (eapply after_trans; [eassumption |]).
    + lia.
    + apply (complete_after _ _ p2 (after_trans _ _ _ H1 H2)) in Hc. cbn. tauto.
    + exact Hs2.
  - apply returns_ret. split; try done. unfold or_ops, is_op. by rewrite Hs, Eop.
Qed.

Lemma left_level_ok op_of operand ops :
  op_of TOK_EOF = None →
  (∀ q, wf q → (left_over q < n)%nat → returns operand q (parsed ops q)) →
  ∀ p, wf p → (left_over p < n)%nat →
  returns (left_level n op_of operand) p (parsed (or_ops ops (is_op op_of)) p).
Proof.
  intros Heof Hop p Hw Hn. unfold left_level. apply returns_bind.
  eapply returns_mono; [by apply Hop |]. intros x p1 H1. pose proof (after_left _ _ (parsed_after _ _ _ _ H1)).
  apply left_loop_ok; done || lia.
Qed.

(** The binary operators of the language. *)
Definition operators : token_kind → bool :=
  or_ops (or_ops (or_ops (or_ops (or_ops (or_ops no_ops (is_op mul_op)) (is_op add_op)) (is_op rel_op))
    (is_op eq_op)) (is_op and_op)) (is_op or_op).

Lemma or_expr_ok p : wf p → (left_over p < n)%nat →
  returns (bucc_parse_or_expr n expression) p (parsed operators p).
Proof.
  revert p. do 6 (apply left_level_ok; [done |]).
  intros p Hw Hn. by apply unary_loop_ok.
Qed.
End expressions.

Lemma expression_ok n : ∀ p, wf p → (S (left_over p) < n)%nat →
  returns (bucc_parse_expression n) p (parsed operators p).
Proof.
  induction n as [|n IH]; intros p Hw Hn; [lia |]. cbn [bucc_parse_expression].
  apply or_expr_ok; [| done | lia]. intros q Hq Hqn.
  eapply returns_mono; [by apply IH |]. intros x q' [? ? ? ?]. by split.
Qed.

(** C8. Expressions are always parsed to the end. From any position of any source,
    with fuel for the characters left, the expression parser returns: it stops
    before a token that is no binary operator, it never moves backwards, it has
    read something if it returns an expression, errors stay remembered, and if
    any node of the tree is missing an error was reported. *)
Theorem bucc_parse_expression_terminates n p :
  wf p → (S (left_over p) < n)%nat →
  ∃ x p', bucc_parse_expression n p = Some (x, p') ∧ wf p' ∧
    (left_over p' <= left_over p)%nat ∧ (x ≠ NNull → (left_over p' < left_over p)%nat) ∧
    operators (cur_kind p') = false ∧ (had_error p = true → had_error p' = true) ∧
    (complete x ∨ had_error p' = true).
Proof.
  intros Hw Hn. destruct (expression_ok n p Hw Hn) as (x & p' & E & [[H1 H2 H3] H4 H5 H6]).
  exists x, p'. auto 10.
Qed.

(** ** What no source is parsed to *)

(** When [m] returns, the current token is none of [ops]. *)
Definition stops_at {A} (m : parsing A) (ops : token_kind → bool) : Prop :=
  ∀ p x p', m p = Some (x, p') → ops (cur_kind p') = false.

Lemma left_loop_stops op_of operand ops m :
  stops_at operand ops → ∀ left p x p', ops (cur_kind p) = false →
  left_loop op_of operand m left p = Some (x, p') → or_ops ops (is_op op_of) (cur_kind p') = false.
Proof.
  intros Hop. induction m as [|m IH]; intros left p x p' Hp E; [done |].
  cbn in E. unfold look, advance, mbind, parsing_bind in E. cbn in E.
  destruct (op_of (cur_kind p)) as [op |] eqn:Eop.
  - destruct (operand (step p)) as [[y q] |] eqn:Ey; [| done].
    apply IH in E; [done |]. by apply Hop in Ey.
  - injection E as _ <-. unfold or_ops, is_op. by rewrite Hp, Eop.
Qed.

Lemma left_level_stops n op_of operand ops :
  stops_at operand ops → stops_at (left_level n op_of operand) (or_ops ops (is_op op_of)).
Proof.
  intros Hop p x p' E. unfold left_level, mbind, parsing_bind in E.
  destruct (operand p) as [[y q] |] eqn:Ey; [| done].
  apply (left_loop_stops _ _ _ _ Hop _ _ _ _ (Hop _ _ _ Ey) E).
Qed.

Lemma expression_stops n : stops_at (bucc_parse_expression n) operators.
Proof. destruct n; [done |]. do 6 apply left_level_stops. by intros p x p' _. Qed.

(** The results of [m] satisfy [Q]. *)
Definition ensures {A} (m : parsing A) (Q : A → Prop) : Prop :=
  ∀ p x p', m p = Some (x, p') → Q x.

Lemma ensures_ret {A} (x : A) (Q : A → Prop) : Q x → ensures (mret x) Q.
Proof. by intros H p y p' [= <- _]. Qed.

Lemma ensures_bind {A B} (m : parsing A) (k : A → parsing B) (P : A → Prop) (Q : B → Prop) :
  ensures m P → (∀ x, P x → ensures (k x) Q) → ensures (m ≫= k) Q.
Proof.
  intros Hm Hk p y p' E. unfold mbind, parsing_bind in E.
  destruct (m p) as [[x q] |] eqn:Em; [| done]. by apply (Hk x (Hm _ _ _ Em) q y p').
Qed.

Lemma ensures_any {A} (m : parsing A) : ensures m (λ _, True).
Proof. done. Qed.

Lemma ensures_fuel {A} (Q : A → Prop) : ensures out_of_fuel Q.
Proof. done. Qed.

Lemma ensures_assoc {A B C} (m : parsing A) (k : A → parsing B) (k' : B → parsing C) Q :
  ensures (m ≫= λ x, k x ≫= k') Q → ensures ((m ≫= k) ≫= k') Q.
Proof.
  intros H p z p' E. apply (H p z p'). unfold mbind, parsing_bind in *. destruct (m p) as [[x q] |]; done.
Qed.

Lemma ensures_ret_bind {A B} (x : A) (k : A → parsing B) Q :
  ensures (k x) Q → ensures (mret x ≫= k) Q.
Proof. done. Qed.

(** Takes a parser apart; [tac] says what the parts of interest ensure. *)
Ltac ensure tac :=
  repeat first
    [ apply ensures_fuel
    | tac
    | match goal with
      | |- ensures (mret _) _ => apply ensures_ret
      | |- ensures (mbind _ (match ?b with _ => _ end)) _ => destruct b
      | |- ensures (mbind _ (mbind _ _)) _ => apply ensures_assoc
      | |- ensures (mbind _ (mret _)) _ => apply ensures_ret_bind
      | |- ensures (mbind ?k ?m) ?Q =>
          first [ refine (ensures_bind m k _ Q _ _); [solve [tac] |]; cbv beta; intros ? ?
                | refine (ensures_bind m k _ Q (ensures_any _) _); intros ? _ ]
      | |- ensures (match ?b with _ => _ end) _ => destruct b
      | |- ensures (let '(_, _) := ?r in _) _ => destruct r
      end ].

(** No assignment anywhere in a statement. *)
Fixpoint no_assign (s : stmt) : Prop :=
  match s with Stmt _ _ k => no_assign_kind k end

with no_assign_kind (k : stmt_kind) : Prop :=
  match k with
  | SAssign _ _ => False
  | SIf _ b clauses eb =>
      all no_assign b ∧ all (λ cl, all no_assign (snd cl)) clauses ∧
      match eb with Some b => all no_assign b | None => True end
  | SSelect _ cases eb =>
      all (λ c, match c with Case _ _ _ b => all no_assign b end) cases ∧
      match eb with Some b => all no_assign b | None => True end
  | SWhile _ b | SDoLoop b _ _ | SFor _ _ _ _ b => all no_assign b
  | STryCatch b _ cb => all no_assign b ∧ all no_assign cb
  | _ => True
  end.

Definition opt_all {A} (P : A → Prop) (o : option A) : Prop :=
  match o with Some x => P x | None => True end.

Lemma all_option_list {A} (P : A → Prop) o l : opt_all P o → all P l → all P (option_list o ++ l).
Proof. by destruct o. Qed.

(** After an expression there is no [=] left to match. *)
Lemma parse_simple_no_assign n : ensures (parse_simple n) (opt_all no_assign_kind).
Proof.
  intros p x p' E. unfold parse_simple in E.
  unfold mbind at 1, parsing_bind at 1 in E. destruct (match_ TOK_KW_LET p) as [[b1 p1] |]; [| done].
  unfold mbind at 1, parsing_bind at 1 in E. destruct (match_ TOK_KW_CALL p1) as [[b2 p2] |]; [| done].
  unfold mbind at 1, parsing_bind at 1 in E.
  destruct (bucc_parse_expression n p2) as [[y p3] |] eqn:Ey; [| done]. cbv beta iota in E.
  apply expression_stops in Ey.
  assert (Hm : match_ TOK_EQ p3 = Some (false, p3)).
  { unfold match_, check, look, mbind, parsing_bind. case_bool_decide as Ek; [| done].
    by rewrite Ek in Ey. }
  destruct y; unfold mbind at 1, parsing_bind at 1 in E; try rewrite Hm in E; cbv beta iota in E;
    (unfold mbind at 1, parsing_bind at 1 in E; destruct (expect_newline p3) as [[b4 p4] |]; [| done];
       by injection E as <- _) ||
    (destruct (synchronize n p3) as [[[] p4] |]; [| done]; by injection E as <- _).
Qed.

Section no_assignment.
Context (n : nat) (statement : parsing (option stmt)).
Context (Hstmt : ensures statement (opt_all no_assign)).

Lemma stmts_until_no_assign stop m : ensures (stmts_until n statement stop m) (all no_assign).
Proof.
  induction m as [|m IH]; cbn [stmts_until]; [done |].
  ensure ltac:(exact Hstmt || exact IH); try done. by apply all_option_list.
Qed.

Lemma elseif_no_assign m :
  ensures (elseif_loop n statement m) (all (λ cl, all no_assign (snd cl))).
Proof.
  induction m as [|m IH]; cbn [elseif_loop]; [done |].
  ensure ltac:(apply stmts_until_no_assign || exact IH); done.
Qed.

Lemma if_no_assign : ensures (bucc_parse_if_stmt n statement) no_assign_kind.
Proof.
  unfold bucc_parse_if_stmt.
  ensure ltac:(apply stmts_until_no_assign || apply elseif_no_assign); done.
Qed.

Lemma cases_no_assign m :
  ensures (cases_loop n statement m) (λ r,
    all (λ c, match c with Case _ _ _ b => all no_assign b end) (fst r) ∧ opt_all (all no_assign) (snd r)).
Proof.
  induction m as [|m IH]; cbn [cases_loop]; [done |].
  ensure ltac:(apply stmts_until_no_assign || exact IH); cbn in *; tauto.
Qed.

Lemma select_no_assign : ensures (bucc_parse_select_stmt n statement) no_assign_kind.
Proof. unfold bucc_parse_select_stmt. ensure ltac:(apply cases_no_assign). cbn in *. tauto. Qed.

Lemma while_no_assign : ensures (bucc_parse_while_stmt n statement) no_assign_kind.
Proof. unfold bucc_parse_while_stmt. ensure ltac:(apply stmts_until_no_assign). done. Qed.

Lemma do_no_assign : ensures (bucc_parse_do_loop_stmt n statement) no_assign_kind.
Proof. unfold bucc_parse_do_loop_stmt. ensure ltac:(apply stmts_until_no_assign); done. Qed.

Lemma for_no_assign : ensures (bucc_parse_for_stmt n statement) (opt_all no_assign_kind).
Proof. unfold bucc_parse_for_stmt. ensure ltac:(apply stmts_until_no_assign); done. Qed.

Lemma try_no_assign : ensures (bucc_parse_try_catch_stmt n statement) no_assign_kind.
Proof. unfold bucc_parse_try_catch_stmt. ensure ltac:(apply stmts_until_no_assign); done. Qed.

Lemma some_kind_no_assign k : ensures k no_assign_kind → ensures (some_kind k) (opt_all no_assign_kind).
Proof. intros H. unfold some_kind. ensure ltac:(exact H). done. Qed.

Lemma kind_no_assign : ensures (parse_kind n statement) (opt_all no_assign_kind).
Proof.
  unfold parse_kind. refine (ensures_bind _ _ _ _ (ensures_any _) _). intros k _.
  destruct k; try apply parse_simple_no_assign; try apply for_no_assign;
    try (apply some_kind_no_assign; first
      [apply if_no_assign | apply select_no_assign | apply while_no_assign | apply do_no_assign
      | apply try_no_assign]);
    refine (ensures_bind _ _ _ _ (ensures_any _) _); intros ? _;
    unfold parse_return, parse_exit, parse_chain, parse_on_call, some_kind; by ensure fail.
Qed.

Lemma body_no_assign : ensures (statement_body n statement) (opt_all no_assign).
Proof. unfold statement_body. ensure ltac:(apply kind_no_assign); [done |].
  by match goal with k : option stmt_kind |- _ => destruct k end.
Qed.
End no_assignment.

Lemma statement_no_assign n : ensures (bucc_parse_statement n) (opt_all no_assign).
Proof. induction n as [|n IH]; [done |]. by apply body_no_assign. Qed.


Lemma block_no_assign n m : ensures (block_loop n m) (all no_assign).
Proof.
  induction m as [|m IH]; cbn [block_loop]; [done |].
  ensure ltac:(apply statement_no_assign || exact IH); try done; by apply all_option_list.
Qed.

(** No assignment in the body of a declaration. *)
Definition decl_no_assign (d : proc_decl) : Prop := all no_assign (decl_body d).

Lemma declaration_no_assign n :
  ensures (bucc_parse_procedure n) (opt_all decl_no_assign) ∧
  ensures (bucc_parse_function n) (opt_all decl_no_assign).
Proof.
  split; unfold bucc_parse_procedure, bucc_parse_function, bucc_parse_block;
    ensure ltac:(apply block_no_assign); done.
Qed.

Lemma procedures_no_assign n m : ensures (procedures_loop n m) (all decl_no_assign).
Proof.
  induction m as [|m IH]; cbn [procedures_loop]; [done |].
  destruct (declaration_no_assign n) as [Hs Hf].
  ensure ltac:(exact IH || exact Hs || exact Hf); try done; by apply all_option_list.
Qed.

Lemma module_no_assign n : ensures (bucc_parse_module n) (λ m, all decl_no_assign (proc_nodes m)).
Proof. unfold bucc_parse_module. ensure ltac:(apply procedures_no_assign). done. Qed.

(** No source text is parsed to an assignment: [=] after the left-hand side has
    been taken as the equality operator by then, so [x = 5] is an expression
    statement that compares. The code generator's case for assignments is
    reached by no program. *)
Theorem bucc_parse_module_no_assignment n p m p' :
  bucc_parse_module n p = Some (m, p') → all decl_no_assign (proc_nodes m).
Proof. apply module_no_assign. Qed.

(** ** Sources *)

(** The parser at the start of a source, the first file of its diagnostics. *)
Definition parser_of (source : cstr) : parser := bucc_parser_init (bucc_lexer_init source 1 []).

(** Lines of a source. *)
Definition lines (l : list cstr) : cstr := flat_map (λ s, s ++ [10]) l.

Lemma parser_of_wf source : wf (parser_of source).
Proof.
  destruct (bucc_lexer_next_ok (bucc_lexer_init source 1 [])) as (ws & text & H); [| done |].
  - split; [cbn; lia | done].
  - split; [apply (no_located _ _ _ _ _ H) | split; [apply (no_peek _ _ _ _ _ H) | done]].
Qed.

(** A number and a sum are read; the line ends. *)
Definition sum_source : cstr := lit "1 + 2 * x".

Lemma bucc_parse_expression_terminates_witness :
  wf (parser_of sum_source) ∧ (S (left_over (parser_of sum_source)) < 20)%nat ∧
  ∃ x p', bucc_parse_expression 20 (parser_of sum_source) = Some (x, p') ∧ wf p' ∧
    (left_over p' <= left_over (parser_of sum_source))%nat ∧
    (x ≠ NNull → (left_over p' < left_over (parser_of sum_source))%nat) ∧
    operators (cur_kind p') = false ∧
    (had_error (parser_of sum_source) = true → had_error p' = true) ∧
    (complete x ∨ had_error p' = true).
Proof.
  assert (H1 : wf (parser_of sum_source)) by apply parser_of_wf.
  assert (H2 : (S (left_over (parser_of sum_source)) < 20)%nat)
    by (apply Nat.ltb_lt; vm_compute; reflexivity).
  split; [exact H1 |]. split; [exact H2 |].
  exact (bucc_parse_expression_terminates 20 (parser_of sum_source) H1 H2).
Defined.

(** [g = 5] in a procedure: accepted, as a comparison. *)
Definition assignment_source : cstr := lines [lit "DIM g AS INTEGER"; lit "SUB Main()"; lit "g = 5"; lit "END SUB"].

Definition assignment_module : module_node :=
  MkNode [] [MkVar (Some (lit "g")) (Some (TypeScalar SCALAR_INTEGER)) None]
    [MkDecl false (lit "Main") [] None
      [Stmt 3 1 (SExpr (NBinary BINARY_EQ (NIdent (lit "g")) (NLiteral (VI64 5))))]].

(** The parser after it. *)
Definition assignment_end : parser :=
  match bucc_parse_module 50 (parser_of assignment_source) with Some (_, p) => p | None => parser_of [] end.

Lemma bucc_parse_module_no_assignment_witness :
  bucc_parse_module 50 (parser_of assignment_source) = Some (assignment_module, assignment_end) ∧
  bucc_parser_had_error assignment_end = false ∧ all decl_no_assign (proc_nodes assignment_module).
Proof.
  assert (E : bucc_parse_module 50 (parser_of assignment_source) = Some (assignment_module, assignment_end))
    by (vm_compute; reflexivity).
  split; [exact E |]. split; [vm_compute; reflexivity |].
  exact (bucc_parse_module_no_assignment 50 (parser_of assignment_source) assignment_module assignment_end E).
Defined.

(** * Sources with mistakes *)

(** ** What the parser does not return from *)

(** A keyword that no statement starts with and no recovery steps over. *)
Definition is_stuck (k : token_kind) : bool :=
  match k with TOK_KW_SUB | TOK_KW_FUNCTION | TOK_KW_END => true | _ => false end.

(** [m] reads nothing at a stuck token: it runs out of fuel, or stays at it
    with a result in [Q]. *)
Definition stays {A} (m : parsing A) (Q : A → Prop) : Prop :=
  ∀ p x p', is_stuck (cur_kind p) = true → m p = Some (x, p') → cur_kind p' = cur_kind p ∧ Q x.

Lemma stays_bind {A B} (m : parsing A) (k : A → parsing B) P Q :
  stays m P → (∀ x, P x → stays (k x) Q) → stays (m ≫= k) Q.
Proof.
  intros Hm Hk p y p' Hp E. unfold mbind, parsing_bind in E.
  destruct (m p) as [[x q] |] eqn:Em; [| done]. destruct (Hm _ _ _ Hp Em) as [Hq Hx].
  apply (Hk x Hx) in E as [Hp' Hy]; [by rewrite <- Hq | by rewrite Hq].
Qed.

Lemma stays_ret {A} (x : A) (Q : A → Prop) : Q x → stays (mret x) Q.
Proof. by intros HQ p y p' _ [= <- <-]. Qed.

(** A look at the kind of the token, which is stuck. *)
Lemma stays_look {A} (f : token_kind → parsing A) Q :
  (∀ k, is_stuck k = true → stays (f k) Q) → stays (look cur_kind ≫= f) Q.
Proof. intros H p x p' Hp E. by apply (H (cur_kind p) Hp p x p'). Qed.

Lemma stays_any {A} (f : parser → A) : stays (look f) (λ _, True).
Proof. by intros p x p' _ [= <- <-]. Qed.

Lemma stays_error msg : stays (error msg) (λ _, True).
Proof. intros p x p' _ E. unfold error in E. destruct (panic_mode p); injection E as <- <-; done. Qed.

Lemma stays_match k : is_stuck k = false → stays (match_ k) (λ b, b = false).
Proof.
  intros Hk p b p' Hp E. unfold match_, check, look, mbind, parsing_bind in E.
  case_bool_decide as Ek; [by rewrite Ek, Hk in Hp |]. by injection E as <- <-.
Qed.

Lemma stays_left_level n op_of operand :
  (∀ k, is_stuck k = true → op_of k = None) → stays operand (λ x, x = NNull) →
  stays (left_level n op_of operand) (λ x, x = NNull).
Proof.
  intros Hop Ho. apply (stays_bind _ _ _ _ Ho). intros x ->. destruct n as [|n]; [done |]. cbn [left_loop].
  apply stays_look. intros k Hk. rewrite (Hop k Hk). by apply stays_ret.
Qed.

Lemma stays_expression n : stays (bucc_parse_expression n) (λ x, x = NNull).
Proof.
  destruct n as [|n]; [done |]. cbn [bucc_parse_expression].
  do 6 (apply stays_left_level; [by intros [] |]).
  unfold bucc_parse_unary_expr. destruct n as [|n]; [done |]. cbn [unary_loop].
  apply stays_look. intros k Hk.
  assert (Hp : stays (bucc_parse_postfix_expr (S n) (bucc_parse_expression (S n))) (λ x, x = NNull)).
  { apply (stays_bind _ _ (λ x, x = NNull)); [| intros x ->; by apply stays_ret].
    idtac.
    unfold bucc_parse_primary_expr. apply stays_look. intros k' Hk'.
    do 2 (eapply (stays_bind (look _)); [apply stays_any | intros ? _]).
    destruct k'; try done; (eapply stays_bind; [apply stays_error | intros _ _; by apply stays_ret]). }
  by destruct k.
Qed.

Lemma stays_synchronize n : stays (synchronize n) (λ _, True).
Proof.
  destruct n as [|n]; [done |]. intros p x p' Hp E. unfold synchronize in E. cbn [skip_statement] in E.
  unfold mbind, parsing_bind, look in E. change (cur_kind (set_panic false p)) with (cur_kind p) in E.
  rewrite !bool_decide_eq_false_2 in E by (intros Ek; by rewrite Ek in Hp).
  destruct (cur_kind p) eqn:Ek; try done; by injection E as <- <-.
Qed.

Lemma stays_skip n : stays (skip_newlines n) (λ _, True).
Proof.
  destruct n as [|n]; [done |]. cbn [skip_newlines]. apply stays_look. intros k Hk.
  destruct k; try done; by apply stays_ret.
Qed.

Lemma stays_statement n : stays (bucc_parse_statement n) (λ x, x = None).
Proof.
  destruct n as [|n]; [done |]. cbn [bucc_parse_statement]. unfold statement_body.
  eapply stays_bind; [apply stays_skip | intros _ _].
  eapply stays_bind; [apply stays_any | intros b _]. destruct b; [by apply stays_ret |].
  eapply stays_bind; [apply stays_any | intros t _].
  apply (stays_bind _ _ (λ x, x = None)); [| intros x ->; by apply stays_ret].
  unfold parse_kind. apply stays_look. intros k Hk.
  assert (Hs : stays (parse_simple n) (λ x, x = None)).
  { unfold parse_simple. do 2 (eapply stays_bind; [by apply stays_match | intros ? _]).
    eapply stays_bind; [apply stays_expression | intros ? ->].
    eapply stays_bind; [apply stays_synchronize | intros _ _]. by apply stays_ret. }
  by destruct k.
Qed.

(** A parser that stays and then repeats never returns. *)
Lemma never_bind {A B} (m : parsing A) (k : A → parsing B) P p :
  stays m P → is_stuck (cur_kind p) = true →
  (∀ x q, P x → cur_kind q = cur_kind p → k x q = None) → (m ≫= k) p = None.
Proof.
  intros Hm Hp Hk. unfold mbind, parsing_bind. destruct (m p) as [[x q] |] eqn:E; [| done].
  destruct (Hm _ _ _ Hp E). by apply Hk.
Qed.

Lemma block_loop_stuck n m p :
  is_stuck (cur_kind p) = true → cur_kind p ≠ TOK_KW_END → block_loop n m p = None.
Proof.
  revert p. induction m as [|m IH]; intros p Hp He; [done |]. cbn [block_loop].
  unfold mbind at 1, parsing_bind at 1, look at 1.
  rewrite bool_decide_eq_false_2 by done. rewrite bool_decide_eq_false_2 by (by intros E; rewrite E in Hp).
  cbn [orb]. apply (never_bind _ _ _ _ (stays_skip n) Hp). intros _ q1 _ E1.
  unfold mbind at 1, parsing_bind at 1, check at 1, look at 1. rewrite bool_decide_eq_false_2 by congruence.
  apply (never_bind _ _ _ _ (stays_statement n)); [congruence |]. intros s q2 _ E2.
  unfold mbind at 1, parsing_bind at 1, look at 1.
  assert (Hsync : stays (if panic_mode q2 then synchronize n else mret tt) (λ _, True)).
  { destruct (panic_mode q2); [apply stays_synchronize | by apply stays_ret]. }
  apply (never_bind _ _ _ _ Hsync); [congruence |]. intros _ q3 _ E3.
  unfold mbind, parsing_bind. by rewrite IH by congruence.
Qed.

Lemma stmts_until_stuck n stop m p :
  is_stuck (cur_kind p) = true → stop (cur_kind p) = false →
  stmts_until n (bucc_parse_statement n) stop m p = None.
Proof.
  revert p. induction m as [|m IH]; intros p Hp Hs; [done |]. cbn [stmts_until].
  unfold mbind at 1, parsing_bind at 1, look at 1. rewrite Hs.
  rewrite bool_decide_eq_false_2 by (by intros E; rewrite E in Hp). cbn [orb].
  apply (never_bind _ _ _ _ (stays_skip n) Hp). intros _ q1 _ E1.
  unfold mbind at 1, parsing_bind at 1, look at 1. rewrite E1, Hs.
  apply (never_bind _ _ _ _ (stays_statement n)); [congruence |]. intros s q2 _ E2.
  unfold mbind, parsing_bind. by rewrite IH by congruence.
Qed.

Lemma run_step {A B} (m : parsing A) (k : A → parsing B) x p q :
  m p = Some (x, q) → k x q = None → (m ≫= k) p = None.
Proof. intros E H. unfold mbind, parsing_bind. by rewrite E. Qed.

Lemma run_stuck {A B} (m : parsing A) (k : A → parsing B) p : m p = None → (m ≫= k) p = None.
Proof. intros E. unfold mbind, parsing_bind. by rewrite E. Qed.

(** Runs the first part of a parser. *)
Ltac run := eapply run_step; [vm_compute; reflexivity | cbv beta iota].

Lemma statement_unfold n : bucc_parse_statement (S n) = statement_body n (bucc_parse_statement n).
Proof. done. Qed.

(** A missing END hangs the compiler. The recovery after an error stops before
    SUB, FUNCTION and END without stepping over them, and no statement starts
    there either: in a procedure the loop over its statements does not return at a
    SUB or FUNCTION, whatever the fuel, and a block inside it does not at an END
    that is not its own. So neither of the two sources is parsed. *)
Theorem missing_end_hangs n :
  (∀ m p, cur_kind p = TOK_KW_SUB ∨ cur_kind p = TOK_KW_FUNCTION → block_loop n m p = None) ∧
  (∀ stop m p, is_stuck (cur_kind p) = true → stop (cur_kind p) = false →
    stmts_until n (bucc_parse_statement n) stop m p = None) ∧
  bucc_parse_module n (parser_of (lines [lit "SUB Main()"; lit "SUB Other()"; lit "END SUB"])) = None ∧
  bucc_parse_module n (parser_of (lines [lit "SUB Main()"; lit "WHILE TRUE"; lit "END SUB"])) = None.
Proof.
  split; [intros m p [E | E]; apply block_loop_stuck; by rewrite E |].
  split; [intros stop m p; apply stmts_until_stuck |].
  split; unfold bucc_parse_module.
  - destruct n as [|n]; [done |].
    do 3 run. apply run_stuck. cbn [procedures_loop]. do 3 run. rewrite bool_decide_eq_false_2 by done.
    apply run_stuck. unfold bucc_parse_procedure. do 7 run.
    apply run_stuck. by apply block_loop_stuck.
  - do 4 (destruct n as [|n]; [done |]).
    do 3 run. apply run_stuck. cbn [procedures_loop]. do 3 run. rewrite bool_decide_eq_false_2 by done.
    apply run_stuck. unfold bucc_parse_procedure. do 7 run.
    apply run_stuck. unfold bucc_parse_block. cbn [block_loop]. run. rewrite !bool_decide_eq_false_2 by done.
    cbn [orb].
    do 2 run. apply run_stuck. rewrite statement_unfold. unfold statement_body.
    do 3 run. apply run_stuck. unfold parse_kind. run. unfold some_kind. apply run_stuck.
    unfold bucc_parse_while_stmt. do 3 run. apply run_stuck. by apply stmts_until_stuck.
Qed.
