(* ===== verification/ParserTrees.v ===== *)
(** The trees that the parser of [Parser] leaves when it finds no error: every
    node is there. An invariant of all the parsing functions, relative to the
    errors reported. *)

From S2P Require Import Prelude CLib Float Lexer LexerSpec Value Ast Parser ParserSpec.

#[local] Open Scope Z_scope.

(** ** A source without errors *)

(** The lexer reads a colon as a blank, so there is no token for it. *)
Lemma lookup_keyword_no_colon text n : lookup_keyword text n ≠ TOK_COLON.
Proof.
  assert (H : Forall (λ x, x.2 ≠ TOK_COLON) keywords) by (repeat constructor; discriminate).
  unfold lookup_keyword. destruct (find_keyword_in keywords text n) as [-> | (nm & Hin & _)]; [done |].
  rewrite Forall_forall in H. apply (H _ Hin).
Qed.

Lemma scan_identifier_no_colon lex : kind (fst (scan_identifier lex)) ≠ TOK_COLON.
Proof. apply lookup_keyword_no_colon. Qed.

Lemma scan_number_no_colon lex : kind (fst (scan_number lex)) ≠ TOK_COLON.
Proof.
  unfold scan_number. destruct (_ && _); (destruct (_ || _); [destruct (negb _); [done |] |]); cbn;
    try case_match; done.
Qed.

Lemma scan_date_no_colon lex : kind (fst (scan_date_or_datetime lex)) ≠ TOK_COLON.
Proof.
  unfold scan_date_or_datetime. destruct (scan_day _) as [[] |]; [done |].
  destruct (_ || _); [destruct (scan_time _) as [[] |]; [done |] |];
    destruct (expect_char _ _ _) as [[] |]; done.
Qed.

Lemma punctuation_no_colon c c1 k n : punctuation c c1 = Some (k, n) → k ≠ TOK_COLON.
Proof. unfold punctuation. repeat case_match; by intros [= <- <-]. Qed.

Lemma scan_token_no_colon lex : kind (fst (scan_token lex)) ≠ TOK_COLON.
Proof.
  unfold scan_token. destruct (_ <=? _)%nat; [done |]. destruct (_ =? 10); [done |].
  destruct (_ =? 39); [done |].
  destruct (is_ident_start _); [destruct (is_rem lex); [done | apply scan_identifier_no_colon] |].
  destruct (is_digit _); [apply scan_number_no_colon |].
  destruct (_ && _); [unfold scan_hex; by destruct (negb _) |].
  destruct (_ =? 34); [unfold scan_string; by destruct (negb _) |].
  destruct (_ =? ch "#"); [destruct (is_digit _); [apply scan_date_no_colon | done] |].
  destruct (_ && _); [apply scan_number_no_colon |].
  destruct (punctuation _ _) as [[k n] |] eqn:E; [by eapply punctuation_no_colon | done].
Qed.

Lemma bucc_lexer_next_no_colon lex :
  has_peek lex = false → kind (current (snd (bucc_lexer_next lex))) ≠ TOK_COLON.
Proof.
  intros Hp. unfold bucc_lexer_next. rewrite Hp. pose proof (scan_token_no_colon (skip_whitespace lex)) as H.
  by destruct (scan_token _).
Qed.

(** What every state of the parser is: its token is no colon, and an error that
    it remembers is among the diagnostics. *)
Record running (p : parser) : Prop := {
  run_wf : wf p;
  run_token : cur_kind p ≠ TOK_COLON;
  run_diag : had_error p = true → diag (lex p) ≠ []
}.

(** When [m] returns, either an error has been reported or the result is in [Q]. *)
Definition leaves {A} (m : parsing A) (Q : A → Prop) : Prop :=
  ∀ p x p', running p → m p = Some (x, p') →
  running p' ∧ (had_error p = true → had_error p' = true) ∧ (had_error p' = true ∨ Q x).

Lemma leaves_bind {A B} (m : parsing A) (k : A → parsing B) (P : A → Prop) (Q : B → Prop) :
  leaves m P → (∀ x, leaves (k x) (λ y, P x → Q y)) → leaves (m ≫= k) Q.
Proof.
  intros Hm Hk p y p' Hp E. unfold mbind, parsing_bind in E.
  destruct (m p) as [[x q] |] eqn:Em; [| done]. destruct (Hm _ _ _ Hp Em) as (Hq & He & Hx).
  destruct (Hk x _ _ _ Hq E) as (Hp' & He' & Hy). split; [done |]. split; [auto |].
  destruct Hx as [Hx | Hx]; [auto |]. destruct Hy as [Hy | Hy]; auto.
Qed.

Lemma leaves_weaken {A} (m : parsing A) (P Q : A → Prop) :
  leaves m P → (∀ x, P x → Q x) → leaves m Q.
Proof. intros H HPQ p x p' Hp E. destruct (H _ _ _ Hp E) as (? & ? & [? | ?]); auto. Qed.

Lemma leaves_ret {A} (x : A) (Q : A → Prop) : Q x → leaves (mret x) Q.
Proof. intros HQ p y p' Hp [= <- <-]. auto. Qed.

Lemma leaves_look {A} (f : parser → A) : leaves (look f) (λ _, True).
Proof. intros p x p' Hp [= <- <-]. auto. Qed.

Lemma leaves_fuel {A} (Q : A → Prop) : leaves out_of_fuel Q.
Proof. done. Qed.

Lemma leaves_advance : leaves Parser.advance (λ _, True).
Proof.
  intros p x p' [Hw Hk Hd] [= <- <-]. split; [| auto]. destruct Hw as (Hl & Hp & He).
  destruct (bucc_lexer_next_ok (lex p) Hl Hp) as (ws & text & H).
  split; [| by apply bucc_lexer_next_no_colon |].
  - split; [apply (no_located _ _ _ _ _ H) | split; [apply (no_peek _ _ _ _ _ H) | done]].
  - intros E. specialize (Hd E). unfold step. cbn [lex set_lex].
    destruct (decide (kind (fst (bucc_lexer_next (lex p))) = TOK_ERROR)) as [Ek | Ek].
    + destruct (no_error _ _ _ _ _ H Ek) as [msg ->]. by destruct (diag (lex p)).
    + destruct (no_text _ _ _ _ _ H Ek) as [_ ->]. exact Hd.
Qed.

Lemma leaves_error msg : leaves (error msg) (λ _, False).
Proof.
  intros p x p' [Hw Hk Hd] E. destruct (error_ok msg p Hw) as (q & Eq & Ha & He & _ & Hq).
  rewrite Eq in E. injection E as _ <-. split; [| auto]. split; [apply Ha | congruence |]. intros _.
  unfold error in Eq. destruct (panic_mode p) eqn:Epm; injection Eq as <-; [apply Hd, Hw, Epm |].
  cbn. by destruct (diag (lex p)).
Qed.

Lemma leaves_match k : leaves (match_ k) (λ _, True).
Proof.
  unfold match_, check. eapply leaves_bind; [apply leaves_look |]. intros [].
  - eapply leaves_bind; [apply leaves_advance |]. intros ?. by apply leaves_ret.
  - by apply leaves_ret.
Qed.

Lemma leaves_expect k msg : leaves (expect k msg) (λ _, k ≠ TOK_COLON).
Proof.
  intros p b p' Hp E. unfold expect, check, look in E. unfold mbind at 1, parsing_bind at 1 in E.
  case_bool_decide as Ek.
  - destruct (leaves_advance p tt (step p) Hp eq_refl) as (H1 & H2 & _).
    injection E as <- <-. split; [done |]. split; [done |]. right. intros ->. by destruct Hp.
  - unfold mbind, parsing_bind in E. destruct (error msg p) as [[[] q] |] eqn:Ee; [| done].
    destruct (leaves_error msg _ _ _ Hp Ee) as (H1 & H2 & [H3 | []]). injection E as _ <-. auto.
Qed.

Lemma leaves_assoc {A B C} (m : parsing A) (k : A → parsing B) (k' : B → parsing C) Q :
  leaves (m ≫= λ x, k x ≫= k') Q → leaves ((m ≫= k) ≫= k') Q.
Proof.
  intros H p z p' Hp E. apply (H p z p' Hp). unfold mbind, parsing_bind in *. by destruct (m p) as [[x q] |].
Qed.

Lemma leaves_ret_bind {A B} (x : A) (k : A → parsing B) Q :
  leaves (k x) Q → leaves (mret x ≫= k) Q.
Proof. done. Qed.

Lemma leaves_expect_newline : leaves expect_newline (λ _, True).
Proof.
  unfold expect_newline. eapply leaves_bind; [apply leaves_look |]. intros k.
  destruct k; first
    [ by apply leaves_ret
    | eapply leaves_bind; [first [apply leaves_advance | apply leaves_error] |]; intros ?; cbv beta;
      first [by apply leaves_ret | eapply leaves_bind; [apply leaves_match | intros ?; by apply leaves_ret]] ].
Qed.

Lemma leaves_skip_newlines n : leaves (skip_newlines n) (λ _, True).
Proof.
  induction n as [|n IH]; cbn [skip_newlines]; [apply leaves_fuel |].
  eapply leaves_bind; [apply leaves_look |]. intros k. destruct (is_blank k); [| by apply leaves_ret].
  eapply leaves_bind; [apply leaves_advance |]. intros ?. by eapply leaves_weaken.
Qed.

Lemma leaves_skip_statement n : leaves (skip_statement n) (λ _, True).
Proof.
  induction n as [|n IH]; cbn [skip_statement]; [apply leaves_fuel |].
  eapply leaves_bind; [apply leaves_look |]. intros k.
  destruct (bool_decide _); [by apply leaves_ret |].
  destruct (bool_decide _); [by eapply leaves_weaken; [apply leaves_advance |] |].
  destruct (starts_statement k); [by apply leaves_ret |].
  eapply leaves_bind; [apply leaves_advance |]. intros ?. by eapply leaves_weaken.
Qed.

Lemma leaves_synchronize n : leaves (synchronize n) (λ _, True).
Proof.
  intros p x p' [(Hl & Hp & He) Hk Hd] E. unfold synchronize in E.
  assert (Hr : running (set_panic false p)) by (split; [split; [done | by split] | done | done]).
  by apply (leaves_skip_statement n _ _ _ Hr E).
Qed.

Lemma leaves_text : leaves take_text (λ _, True).
Proof.
  unfold take_text. eapply leaves_bind; [apply leaves_look |]. intros s.
  eapply leaves_bind; [apply leaves_advance |]. intros ?. by apply leaves_ret.
Qed.

Lemma leaves_string : leaves take_string (λ _, True).
Proof. unfold take_string. eapply leaves_bind; [apply leaves_text |]. intros s. by apply leaves_ret. Qed.

(** Takes a parser apart; [tac] says what the parts of interest leave. *)
Ltac leave_part :=
  first [ apply leaves_look | apply leaves_advance | apply leaves_match | apply leaves_expect
        | apply leaves_error | apply leaves_expect_newline | apply leaves_skip_newlines
        | apply leaves_synchronize | apply leaves_text | apply leaves_string ].

Ltac leave tac :=
  repeat first
    [ apply leaves_fuel
    | match goal with
      | |- leaves (mret _) _ => apply leaves_ret
      | |- leaves (mbind _ (match ?b with _ => _ end)) _ => destruct b
      | |- leaves (mbind _ (mbind _ _)) _ => apply leaves_assoc
      | |- leaves (mbind _ (mret _)) _ => apply leaves_ret_bind
      | |- leaves (mbind _ _) _ =>
          eapply leaves_bind; [solve [tac | leave_part] | cbv beta; intros ?]
      | |- leaves (match ?b with _ => _ end) _ => destruct b
      | |- leaves (let '(_, _) := ?r in _) _ => destruct r
      end
    | eapply leaves_weaken; [solve [tac | leave_part] | cbv beta] ].


(** ** The tree of a source without errors *)

(** Every node of an expression is there, and no map literal has a pair. *)
Fixpoint whole (x : expr) : Prop :=
  match x with
  | NNull => False
  | NUnary _ a | NMember a _ => whole a
  | NBinary _ a b | NIndex a b => whole a ∧ whole b
  | NCall c args => whole c ∧ all whole args
  | NArrayLit l => all whole l
  | NMapLit l => l = []
  | _ => True
  end.

Section expressions.
Context (n : nat) (expression : parsing expr) (Hexpr : leaves expression whole).

Lemma comma_list_whole m : leaves (comma_list expression m) (all whole).
Proof.
  induction m as [|m IH]; cbn [comma_list]; leave ltac:(exact Hexpr || exact IH); cbn; tauto.
Qed.

Lemma list_until_whole close : leaves (list_until n expression close) (all whole).
Proof. unfold list_until, check. leave ltac:(apply comma_list_whole); cbn; tauto. Qed.

Lemma map_pairs_whole m : leaves (map_pairs expression m) (λ _, False).
Proof.
  induction m as [|m IH]; cbn [map_pairs]; unfold check; leave ltac:(exact Hexpr || exact IH); cbn; tauto.
Qed.

Lemma primary_whole : leaves (bucc_parse_primary_expr n expression) whole.
Proof.
  unfold bucc_parse_primary_expr, literal, check.
  leave ltac:(exact Hexpr || apply list_until_whole || apply map_pairs_whole); cbn; tauto.
Qed.

Lemma postfix_whole m x : leaves (postfix_loop n expression m x) (λ y, whole x → whole y).
Proof.
  revert x. induction m as [|m IH]; intros x; cbn [postfix_loop]; [apply leaves_fuel |].
  unfold check; leave ltac:(exact Hexpr || apply list_until_whole || apply IH); cbn; try tauto.
  destruct x; cbn in *; tauto.
Qed.

Lemma unary_whole m : leaves (unary_loop n expression m) whole.
Proof.
  assert (Hp : leaves (bucc_parse_postfix_expr n expression) whole).
  { unfold bucc_parse_postfix_expr. eapply leaves_bind; [apply primary_whole |]. intros x.
    destruct x; try apply postfix_whole. by apply leaves_ret. }
  induction m as [|m IH]; cbn [unary_loop]; [apply leaves_fuel |].
  eapply leaves_bind; [apply leaves_look |]. intros k.
  apply (leaves_weaken _ whole); [| done]. destruct k; first [exact Hp | leave ltac:(exact IH); cbn; tauto].
Qed.

Lemma left_loop_whole op_of operand m left :
  leaves operand whole → leaves (left_loop op_of operand m left) (λ y, whole left → whole y).
Proof.
  intros Ho. revert left. induction m as [|m IH]; intros left; cbn [left_loop]; [apply leaves_fuel |].
  leave ltac:(exact Ho || apply IH); cbn; tauto.
Qed.

Lemma left_level_whole op_of operand : leaves operand whole → leaves (left_level n op_of operand) whole.
Proof.
  intros Ho. unfold left_level. leave ltac:(exact Ho || apply (left_loop_whole _ _ _ _ Ho)). tauto.
Qed.
End expressions.

Lemma expression_whole n : leaves (bucc_parse_expression n) whole.
Proof.
  induction n as [|n IH]; [apply leaves_fuel |]. cbn [bucc_parse_expression].
  do 6 apply left_level_whole. unfold bucc_parse_unary_expr. apply unary_whole, IH.
Qed.

Fixpoint whole_type (t : type_ref) : Prop :=
  match t with
  | TypeScalar _ => True
  | TypeArray (Some t) | TypeMap (Some t) => whole_type t
  | _ => False
  end.

(** There is a value, and it is in [P]. *)
Definition some_in {A} (P : A → Prop) (o : option A) : Prop :=
  match o with Some x => P x | None => False end.

Definition whole_var (d : var_decl) : Prop :=
  some_in (λ _, True) (var_name d) ∧ some_in whole_type (var_type d) ∧ opt_all whole (initializer d).

(** Every node of a statement is there. *)
Fixpoint whole_stmt (s : stmt) : Prop :=
  match s with Stmt _ _ k => whole_kind k end

with whole_kind (k : stmt_kind) : Prop :=
  match k with
  | SVarDecl d => whole_var d
  | SAssign t v => whole t ∧ whole v
  | SExpr x | SThrow x => whole x
  | SIf c b clauses eb =>
      whole c ∧ all whole_stmt b ∧ all (λ cl, whole (fst cl) ∧ all whole_stmt (snd cl)) clauses ∧
      match eb with Some b => all whole_stmt b | None => True end
  | SSelect x cases eb =>
      whole x ∧
      all (λ c, match c with Case vs ls hs b =>
        all whole vs ∧ all whole ls ∧ all whole hs ∧ length ls = length hs ∧ all whole_stmt b end) cases ∧
      match eb with Some b => all whole_stmt b | None => True end
  | SWhile c b => whole c ∧ all whole_stmt b
  | SDoLoop b c kind =>
      all whole_stmt b ∧
      match kind with LOOP_PLAIN => c = None | _ => some_in whole c end
  | SFor _ a z st b => whole a ∧ whole z ∧ opt_all whole st ∧ all whole_stmt b
  | STryCatch b _ cb => all whole_stmt b ∧ all whole_stmt cb
  | SReturn x | SChain _ x => opt_all whole x
  | SOnCall x l => whole x ∧ all whole l
  | _ => True
  end.

Lemma child_whole x : whole x → some_in whole (child x).
Proof. by destruct x. Qed.

Lemma some_opt {A} (P : A → Prop) o : some_in P o → opt_all P o.
Proof. by destruct o. Qed.

Create HintDb whole.
#[local] Hint Resolve child_whole some_opt all_option_list : whole.

(** Closes what is left when a parser has been taken apart. *)
Ltac tree := unfold whole_var; cbn in *; intros; destruct_and?; split_and?; eauto 6 with whole; try done; try tauto.

Lemma type_ref_whole n : leaves (bucc_parse_type_ref n) (some_in whole_type).
Proof.
  induction n as [|n IH]; cbn [bucc_parse_type_ref]; [apply leaves_fuel |].
  leave ltac:(exact IH); tree; repeat case_match; tree.
Qed.

Lemma var_decl_whole n : leaves (bucc_parse_var_decl n) (some_in whole_var).
Proof.
  unfold bucc_parse_var_decl, check. leave ltac:(apply type_ref_whole || apply expression_whole); tree.
Qed.

Section statements.
Context (n : nat) (statement : parsing (option stmt)).
Context (Hstmt : leaves statement (opt_all whole_stmt)).

Lemma stmts_until_whole stop m : leaves (stmts_until n statement stop m) (all whole_stmt).
Proof.
  induction m as [|m IH]; cbn [stmts_until]; [apply leaves_fuel |].
  leave ltac:(exact Hstmt || exact IH); tree.
Qed.

Lemma elseif_whole m :
  leaves (elseif_loop n statement m) (all (λ cl, whole (fst cl) ∧ all whole_stmt (snd cl))).
Proof.
  induction m as [|m IH]; cbn [elseif_loop]; [apply leaves_fuel |].
  leave ltac:(apply expression_whole || apply stmts_until_whole || exact IH); tree.
Qed.

Lemma if_whole : leaves (bucc_parse_if_stmt n statement) whole_kind.
Proof.
  unfold bucc_parse_if_stmt.
  leave ltac:(apply expression_whole || apply stmts_until_whole || apply elseif_whole); tree.
Qed.

Lemma case_values_whole m : leaves (case_values n m) (λ r,
  all whole (fst (fst r)) ∧ all whole (snd (fst r)) ∧ all whole (snd r) ∧
  length (snd (fst r)) = length (snd r)).
Proof.
  induction m as [|m IH]; cbn [case_values]; [apply leaves_fuel |].
  leave ltac:(apply expression_whole || exact IH); tree.
Qed.

Lemma cases_whole m : leaves (cases_loop n statement m) (λ r,
  all (λ c, match c with Case vs ls hs b =>
    all whole vs ∧ all whole ls ∧ all whole hs ∧ length ls = length hs ∧ all whole_stmt b end) (fst r) ∧
  opt_all (all whole_stmt) (snd r)).
Proof.
  induction m as [|m IH]; cbn [cases_loop]; [apply leaves_fuel |].
  leave ltac:(apply case_values_whole || apply stmts_until_whole || exact IH); tree.
Qed.

Lemma select_whole : leaves (bucc_parse_select_stmt n statement) whole_kind.
Proof.
  unfold bucc_parse_select_stmt. leave ltac:(apply expression_whole || apply cases_whole); tree.
Qed.

Lemma loops_whole :
  leaves (bucc_parse_while_stmt n statement) whole_kind ∧
  leaves (bucc_parse_do_loop_stmt n statement) whole_kind ∧
  leaves (bucc_parse_for_stmt n statement) (some_in whole_kind).
Proof.
  unfold bucc_parse_while_stmt, bucc_parse_do_loop_stmt, bucc_parse_for_stmt, check.
  split_and!; leave ltac:(apply expression_whole || apply stmts_until_whole); tree.
Qed.

Lemma try_whole : leaves (bucc_parse_try_catch_stmt n statement) whole_kind.
Proof. unfold bucc_parse_try_catch_stmt, check. leave ltac:(apply stmts_until_whole); tree. Qed.

Lemma targets_whole m : leaves (targets_loop m) (all whole).
Proof. induction m as [|m IH]; cbn [targets_loop]; [apply leaves_fuel |]. unfold check. leave ltac:(exact IH); tree. Qed.

Lemma simple_whole : leaves (parse_simple n) (opt_all whole_kind).
Proof.
  unfold parse_simple. eapply leaves_bind; [apply leaves_match | intros b1]. eapply leaves_bind; [apply leaves_match | intros b2].
  eapply leaves_bind; [apply expression_whole | intros x].
  set (r := λ x y, whole x → opt_all whole_kind y).
  assert (Hx : ∀ x, leaves (b ← match_ TOK_EQ;
      if b : bool then v ← bucc_parse_expression n; _ ← expect_newline; mret (Some (SAssign x v))
      else _ ← expect_newline; mret (Some (SExpr x))) (r x)).
  { intros y. leave ltac:(apply expression_whole); unfold r; tree. }
  apply (leaves_weaken _ (r x)); [| by intros y Hy H _ _; apply Hy].
  destruct x; try apply Hx. leave fail; done.
Qed.

Lemma some_kind_whole k : leaves k whole_kind → leaves (some_kind k) (opt_all whole_kind).
Proof. intros H. unfold some_kind. leave ltac:(exact H). tree. Qed.

(** A statement that begins with a keyword that is stepped over. *)
Lemma after_keyword {A} (m : parsing A) Q : leaves m Q → leaves (Parser.advance;; m) Q.
Proof. intros H. eapply leaves_bind; [apply leaves_advance | intros ?]. by eapply leaves_weaken. Qed.

Lemma kind_whole : leaves (parse_kind n statement) (opt_all whole_kind).
Proof.
  unfold parse_kind. eapply leaves_bind; [apply leaves_look | intros k].
  apply (leaves_weaken _ (opt_all whole_kind)); [| done].
  destruct (loops_whole) as (Hw & Hd & Hf).
  destruct k; try exact simple_whole;
    try (apply some_kind_whole; first [exact if_whole | exact select_whole | exact Hw | exact Hd | exact try_whole]);
    try apply after_keyword; try apply some_kind_whole;
    try (eapply leaves_weaken; [exact Hf | intros []; done]);
    unfold parse_return, parse_exit, parse_chain, parse_on_call, check, bucc_ast_stmt_var_decl.
  all: leave ltac:(apply expression_whole || apply var_decl_whole || apply targets_whole); tree.
  all: match goal with d : option var_decl |- _ => destruct d; tree | _ => repeat case_match; tree end.
Qed.

Lemma body_whole : leaves (statement_body n statement) (opt_all whole_stmt).
Proof.
  unfold statement_body, check. leave ltac:(apply kind_whole); tree.
  by match goal with k : option stmt_kind |- _ => destruct k end.
Qed.
End statements.

Lemma statement_whole n : leaves (bucc_parse_statement n) (opt_all whole_stmt).
Proof. induction n as [|n IH]; [apply leaves_fuel |]. rewrite statement_unfold. by apply body_whole. Qed.

Lemma block_whole n m : leaves (block_loop n m) (all whole_stmt).
Proof.
  induction m as [|m IH]; cbn [block_loop]; [apply leaves_fuel |]. unfold check.
  leave ltac:(apply statement_whole || exact IH); tree.
Qed.

(** ** Declarations *)

Definition whole_param (p : param_decl) : Prop := some_in whole_type (param_type p).

Definition whole_decl (d : proc_decl) : Prop :=
  all whole_param (decl_params d) ∧ all whole_stmt (decl_body d) ∧
  if decl_is_function d then some_in whole_type (decl_return d) else decl_return d = None.

Definition whole_module (m : module_node) : Prop :=
  all whole_var (global_vars m) ∧ all whole_decl (proc_nodes m).

Lemma params_whole n : leaves (params_loop n) (all whole_param).
Proof.
  induction n as [|n IH]; cbn [params_loop]; [apply leaves_fuel |]. unfold check.
  leave ltac:(apply type_ref_whole || exact IH); tree.
Qed.

Lemma procedure_whole n :
  leaves (bucc_parse_procedure n) (some_in whole_decl) ∧ leaves (bucc_parse_function n) (some_in whole_decl).
Proof.
  unfold bucc_parse_procedure, bucc_parse_function, bucc_parse_param_list, bucc_parse_block, check.
  split; leave ltac:(apply params_whole || apply type_ref_whole || apply block_whole);
    unfold whole_decl; tree.
Qed.

Lemma metadata_whole n m : leaves (metadata_loop n m) (λ _, True).
Proof.
  induction m as [|m IH]; cbn [metadata_loop]; [apply leaves_fuel |].
  unfold bucc_parse_metadata, meta_string, check. leave ltac:(exact IH); done.
Qed.

Lemma globals_whole n m : leaves (globals_loop n m) (all whole_var).
Proof.
  induction m as [|m IH]; cbn [globals_loop]; [apply leaves_fuel |]. unfold check.
  leave ltac:(apply var_decl_whole || exact IH); tree.
Qed.

Lemma procedures_whole n m : leaves (procedures_loop n m) (all whole_decl).
Proof.
  destruct (procedure_whole n) as [Hs Hf].
  induction m as [|m IH]; cbn [procedures_loop]; [apply leaves_fuel |]. unfold check.
  leave ltac:(exact Hs || exact Hf || exact IH); tree.
Qed.

Lemma module_whole n : leaves (bucc_parse_module n) whole_module.
Proof.
  unfold bucc_parse_module. leave ltac:(apply metadata_whole || apply globals_whole || apply procedures_whole).
  unfold whole_module. tree.
Qed.

Lemma parser_of_running source : running (parser_of source).
Proof. split; [apply parser_of_wf | by apply bucc_lexer_next_no_colon | done]. Qed.

(** A parse without diagnostics is one without errors. *)
Lemma parsed_without_diag n source m p' :
  bucc_parse_module n (parser_of source) = Some (m, p') → diag (lex p') = [] →
  bucc_parser_had_error p' = false.
Proof.
  intros E Hd. destruct (module_whole n _ _ _ (parser_of_running source) E) as (Hr & _).
  unfold bucc_parser_had_error. destruct (had_error p') eqn:He; [| done]. by destruct (run_diag _ Hr He).
Qed.

(** C5. The tree of a source that is parsed without an error has everything: no
    node, type, name or initializer is missing where the later passes look for
    one, ranges have both bounds, loops the condition that their kind says. And
    all its map literals are empty: the lexer reads the colon that a pair needs as
    a blank, so a map literal with a pair is always an error. *)
Theorem parsed_modules_whole n source m p' :
  bucc_parse_module n (parser_of source) = Some (m, p') → bucc_parser_had_error p' = false →
  whole_module m.
Proof.
  intros E He. destruct (module_whole n _ _ _ (parser_of_running source) E) as (_ & _ & [H | H]); [| done].
  unfold bucc_parser_had_error in He. congruence.
Qed.

(** A source with most of the statements. *)
Definition tour_source : cstr := lines [
  lit "OPTION strict"; lit "DIM total AS INTEGER = 1";
  lit "FUNCTION Pick(n AS INTEGER, names AS ARRAY OF STRING) AS STRING";
  lit "IF n > 0 AND n <= 9 THEN"; lit "RETURN names[n]"; lit "ELSE"; lit "THROW n"; lit "END IF";
  lit "END FUNCTION";
  lit "SUB Main()";
  lit "DIM t AS MAP OF STRING TO INTEGER = {}";
  lit "FOR i = 1 TO 3 STEP 1"; lit "EXIT FOR"; lit "NEXT";
  lit "SELECT CASE total"; lit "CASE 1, 2 TO 4"; lit "Pick(total, [1, -2])"; lit "CASE ELSE"; lit "HALT"; lit "END SELECT";
  lit "DO"; lit "LOOP UNTIL NOT TRUE"; lit "TRY"; lit "ON total CALL Main"; lit "CATCH e"; lit "END TRY";
  lit "END SUB"].

Definition tour_parsed : module_node * parser :=
  match bucc_parse_module 60 (parser_of tour_source) with
  | Some r => r
  | None => (program [] [], parser_of [])
  end.

Lemma parsed_modules_whole_witness :
  length (proc_nodes (fst tour_parsed)) = 2%nat ∧ whole_module (fst tour_parsed).
Proof.
  split; [vm_compute; reflexivity |].
  assert (E : bucc_parse_module 60 (parser_of tour_source) = Some (fst tour_parsed, snd tour_parsed))
    by (vm_compute; reflexivity).
  assert (He : bucc_parser_had_error (snd tour_parsed) = false) by (vm_compute; reflexivity).
  exact (parsed_modules_whole 60 tour_source (fst tour_parsed) (snd tour_parsed) E He).
Defined.
