(* ===== verification/Semantic.v ===== *)
(** The semantic analysis of the Buccaneer compiler (src/buccaneer/semantic.c):
    types, scopes and symbols, the table of host functions and the capabilities
    they need, and the checks of expressions, statements and procedures. Null
    pointers to types are [None]; a diagnostic keeps its level and its text. *)

From S2P Require Import Prelude CLib Float Value Ast.

#[local] Open Scope Z_scope.

(** ** Types *)

(** src/buccaneer/include/bucc_semantic.h:35-51 (bucc_type) *)
Inductive btype : Type :=
  | TYPE_VOID | TYPE_INTEGER | TYPE_DOUBLE | TYPE_BOOLEAN | TYPE_STRING | TYPE_DATE
  | TYPE_DATETIME | TYPE_NULL
  | TYPE_ARRAY (element_type : option btype)
  | TYPE_MAP (element_type : option btype)
  | TYPE_ERROR | TYPE_ANY.

(** src/buccaneer/semantic.c:57-65 (bucc_type_equal) *)
Fixpoint type_equal (a b : btype) {struct a} : bool :=
  let equal_ptr x y :=
    match x, y with
    | None, None => true
    | Some x, Some y => type_equal x y
    | _, _ => false
    end in
  match a, b with
  | TYPE_VOID, TYPE_VOID | TYPE_INTEGER, TYPE_INTEGER | TYPE_DOUBLE, TYPE_DOUBLE
  | TYPE_BOOLEAN, TYPE_BOOLEAN | TYPE_STRING, TYPE_STRING | TYPE_DATE, TYPE_DATE
  | TYPE_DATETIME, TYPE_DATETIME | TYPE_NULL, TYPE_NULL | TYPE_ERROR, TYPE_ERROR
  | TYPE_ANY, TYPE_ANY => true
  | TYPE_ARRAY x, TYPE_ARRAY y | TYPE_MAP x, TYPE_MAP y => equal_ptr x y
  | _, _ => false
  end.

(** src/buccaneer/semantic.c:57-65 (bucc_type_equal) *)
Definition bucc_type_equal (a b : option btype) : bool :=
  match a, b with
  | None, None => true
  | Some a, Some b => type_equal a b
  | _, _ => false
  end.

(** src/buccaneer/semantic.c:67-79 (bucc_type_assignable) *)
Definition bucc_type_assignable (target source : option btype) : bool :=
  match target, source with
  | Some TYPE_ANY, Some _ => true
  | Some _, Some TYPE_ANY | Some _, Some TYPE_NULL => true
  | Some t, Some s =>
      if type_equal t s then true
      else match t, s with TYPE_DOUBLE, TYPE_INTEGER => true | _, _ => false end
  | _, _ => false
  end.

(** src/buccaneer/semantic.c:81-84 (bucc_type_is_numeric) *)
Definition bucc_type_is_numeric (t : option btype) : bool :=
  match t with Some TYPE_INTEGER | Some TYPE_DOUBLE => true | _ => false end.

(** src/buccaneer/semantic.c:86-103 (bucc_type_name) *)
Definition bucc_type_name (t : option btype) : cstr :=
  match t with
  | None => lit "UNKNOWN"
  | Some TYPE_VOID => lit "VOID"
  | Some TYPE_INTEGER => lit "INTEGER"
  | Some TYPE_DOUBLE => lit "DOUBLE"
  | Some TYPE_BOOLEAN => lit "BOOLEAN"
  | Some TYPE_STRING => lit "STRING"
  | Some TYPE_DATE => lit "DATE"
  | Some TYPE_DATETIME => lit "DATETIME"
  | Some TYPE_NULL => lit "NULL"
  | Some (TYPE_ARRAY _) => lit "ARRAY"
  | Some (TYPE_MAP _) => lit "MAP"
  | Some TYPE_ERROR => lit "ERROR"
  | Some TYPE_ANY => lit "ANY"
  end.

(** src/buccaneer/semantic.c:105-126 (bucc_type_from_ast) *)
Fixpoint type_from_ast (t : type_ref) : btype :=
  match t with
  | TypeScalar SCALAR_INTEGER => TYPE_INTEGER
  | TypeScalar SCALAR_DOUBLE => TYPE_DOUBLE
  | TypeScalar SCALAR_BOOLEAN => TYPE_BOOLEAN
  | TypeScalar SCALAR_STRING => TYPE_STRING
  | TypeScalar SCALAR_DATE => TYPE_DATE
  | TypeScalar SCALAR_DATETIME => TYPE_DATETIME
  | TypeArray e => TYPE_ARRAY (match e with Some e => Some (type_from_ast e) | None => None end)
  | TypeMap v => TYPE_MAP (match v with Some v => Some (type_from_ast v) | None => None end)
  end.

Definition bucc_type_from_ast (t : option type_ref) : option btype := type_from_ast <$> t.

(** ** Scopes *)

(** src/buccaneer/include/bucc_semantic.h:21-31 (bucc_symbol_kind) *)
Inductive symbol_kind : Type :=
  | SYM_GLOBAL | SYM_LOCAL | SYM_PARAM | SYM_PROCEDURE | SYM_FUNCTION | SYM_DATASET
  | SYM_BUILTIN | SYM_HOST_NS | SYM_HOST_FN.

(** src/buccaneer/include/bucc_semantic.h:53-63 (bucc_symbol) *)
Record symbol : Type := MkSymbol {
  sym_kind : symbol_kind; sym_name : cstr; sym_type : option btype; slot : Z
}.

(** A scope's symbols, newest first, its slot counter and its flags. The parent
    is the next scope of a list.
    src/buccaneer/include/bucc_semantic.h:69-82 (bucc_scope) *)
Record scope : Type := MkScope {
  symbols : list symbol; local_count : Z; in_loop : bool; in_try : bool; loop_depth : Z
}.

(** [strcasecmp_local(a, b) == 0]
    src/buccaneer/semantic.c:13-22 (strcasecmp_local) *)
Definition same_name (a b : cstr) : bool := bool_decide (map tolower a = map tolower b).

(** src/buccaneer/semantic.c:128-139 (bucc_scope_new) *)
Definition bucc_scope_new (parents : list scope) : scope :=
  match parents with
  | [] => MkScope [] 0 false false 0
  | p :: _ => MkScope [] 0 (in_loop p) (in_try p) (loop_depth p)
  end.

(** src/buccaneer/semantic.c:155-172 (bucc_scope_define) *)
Definition bucc_scope_define (s : scope) (name : cstr) (k : symbol_kind) (t : option btype)
  : scope :=
  MkScope (MkSymbol k name t (local_count s) :: symbols s) (u32 (local_count s + 1))
    (in_loop s) (in_try s) (loop_depth s).

(** src/buccaneer/semantic.c:174-183 (bucc_scope_lookup_local) *)
Fixpoint find_symbol (l : list symbol) (name : cstr) : option symbol :=
  match l with
  | [] => None
  | s :: l => if same_name (sym_name s) name then Some s else find_symbol l name
  end.

(** From the innermost scope outwards.
    src/buccaneer/semantic.c:185-192 (bucc_scope_lookup) *)
Fixpoint bucc_scope_lookup (scopes : list scope) (name : cstr) : option symbol :=
  match scopes with
  | [] => None
  | s :: scopes =>
      match find_symbol (symbols s) name with
      | Some sym => Some sym
      | None => bucc_scope_lookup scopes name
      end
  end.

(** ** The host functions *)

(** src/buccaneer/semantic.c:277-282 (host_fn_def_t) *)
Record host_fn : Type := HostFn {
  fn_name : cstr; capability : option cstr; return_type : btype; param_count : Z
}.

Definition fn (name : cstr) (cap : cstr) (t : btype) (n : Z) : host_fn := HostFn name (Some cap) t n.
Definition free_fn (name : cstr) (t : btype) (n : Z) : host_fn := HostFn name None t n.

(** src/buccaneer/semantic.c:290-310 (term_functions) *)
Definition term_functions : list host_fn := [
  fn (lit "PRINT") (lit "term.io") TYPE_VOID (-1);
  fn (lit "PRINTLN") (lit "term.io") TYPE_VOID (-1);
  fn (lit "CLS") (lit "term.io") TYPE_VOID 0;
  fn (lit "COLOR") (lit "term.io") TYPE_VOID (-1);
  fn (lit "PRINTAT") (lit "term.io") TYPE_VOID 3;
  fn (lit "GETKEY") (lit "term.io") TYPE_STRING 0;
  fn (lit "INPUT") (lit "term.io") TYPE_STRING (-1);
  fn (lit "INPUT_PASSWORD") (lit "term.io") TYPE_STRING 1;
  fn (lit "PAUSE") (lit "term.io") TYPE_VOID (-1);
  fn (lit "WIDTH") (lit "term.io") TYPE_INTEGER 0;
  fn (lit "HEIGHT") (lit "term.io") TYPE_INTEGER 0;
  fn (lit "SUPPORTS_ANSI") (lit "term.io") TYPE_BOOLEAN 0;
  fn (lit "BOX") (lit "term.io") TYPE_VOID 4;
  fn (lit "SAVE_ATTR") (lit "term.io") TYPE_VOID 0;
  fn (lit "RESTORE_ATTR") (lit "term.io") TYPE_VOID 0;
  fn (lit "PRINT_PAGED") (lit "term.io") TYPE_VOID 1;
  fn (lit "PAGER_BEGIN") (lit "term.io") TYPE_VOID 0;
  fn (lit "PAGER_LINE") (lit "term.io") TYPE_BOOLEAN 1;
  fn (lit "PAGER_END") (lit "term.io") TYPE_VOID 0].

(** src/buccaneer/semantic.c:312-319 (user_functions) *)
Definition user_functions : list host_fn := [
  fn (lit "NAME") (lit "user.read") TYPE_STRING 0;
  fn (lit "ALIAS") (lit "user.read") TYPE_STRING 0;
  fn (lit "ID") (lit "user.read") TYPE_INTEGER 0;
  fn (lit "SECURITY") (lit "user.read") TYPE_INTEGER 0;
  fn (lit "TIME_LEFT") (lit "user.read") TYPE_INTEGER 0;
  fn (lit "FLAGS") (lit "user.read") TYPE_INTEGER 0].

(** src/buccaneer/semantic.c:321-325 (users_functions) *)
Definition users_functions : list host_fn := [
  fn (lit "FIND_BY_HANDLE") (lit "users.read") (TYPE_MAP None) 1;
  fn (lit "FIND_BY_ID") (lit "users.read") (TYPE_MAP None) 1;
  fn (lit "COUNT") (lit "users.read") TYPE_INTEGER 0].

(** src/buccaneer/semantic.c:327-341 (data_functions) *)
Definition data_functions : list host_fn := [
  fn (lit "INSERT") (lit "data.write") TYPE_INTEGER 2;
  fn (lit "UPDATE") (lit "data.write") TYPE_INTEGER 3;
  fn (lit "DELETE") (lit "data.write") TYPE_INTEGER 2;
  fn (lit "GET") (lit "data.read") (TYPE_MAP None) 2;
  fn (lit "FIND") (lit "data.read") (TYPE_ARRAY None) (-1);
  fn (lit "FIND_PAGED") (lit "data.read") (TYPE_ARRAY None) (-1);
  fn (lit "COUNT") (lit "data.read") TYPE_INTEGER (-1);
  fn (lit "SUM") (lit "data.read") TYPE_DOUBLE (-1);
  fn (lit "MIN") (lit "data.read") TYPE_ANY (-1);
  fn (lit "MAX") (lit "data.read") TYPE_ANY (-1);
  fn (lit "BEGIN") (lit "data.write") TYPE_VOID 0;
  fn (lit "COMMIT") (lit "data.write") TYPE_VOID 0;
  fn (lit "ROLLBACK") (lit "data.write") TYPE_VOID 0].

(** src/buccaneer/semantic.c:343-348 (kv_functions) *)
Definition kv_functions : list host_fn := [
  fn (lit "GET") (lit "kv.read") TYPE_STRING 2;
  fn (lit "SET") (lit "kv.write") TYPE_VOID 2;
  fn (lit "DELETE") (lit "kv.write") TYPE_VOID 1;
  fn (lit "EXISTS") (lit "kv.read") TYPE_BOOLEAN 1].

(** src/buccaneer/semantic.c:350-353 (leaderboard_functions) *)
Definition leaderboard_functions : list host_fn := [
  fn (lit "ENABLED") (lit "leaderboard.write") TYPE_BOOLEAN 0;
  fn (lit "SUBMIT") (lit "leaderboard.write") TYPE_BOOLEAN (-1)].

(** src/buccaneer/semantic.c:355-358 (app_functions) *)
Definition app_functions : list host_fn := [
  fn (lit "GET") (lit "app.state") TYPE_ANY 2;
  fn (lit "SET") (lit "app.state") TYPE_VOID 2].

(** src/buccaneer/semantic.c:360-366 (shared_functions) *)
Definition shared_functions : list host_fn := [
  fn (lit "GET") (lit "shared.read") TYPE_ANY 2;
  fn (lit "SET") (lit "shared.write") TYPE_VOID 2;
  fn (lit "DELETE") (lit "shared.write") TYPE_VOID 1;
  fn (lit "CAS") (lit "shared.write") TYPE_BOOLEAN 3;
  fn (lit "LIST_KEYS") (lit "shared.read") (TYPE_ARRAY None) 0].

(** src/buccaneer/semantic.c:368-374 (text_functions) *)
Definition text_functions : list host_fn := [
  fn (lit "READ_ALL") (lit "file.read") TYPE_STRING 1;
  fn (lit "READ_LINES") (lit "file.read") (TYPE_ARRAY None) 1;
  fn (lit "WRITE_ALL") (lit "file.write") TYPE_VOID 2;
  fn (lit "APPEND_LINE") (lit "file.write") TYPE_VOID 2;
  fn (lit "EXISTS") (lit "file.read") TYPE_BOOLEAN 1].

(** src/buccaneer/semantic.c:376-379 (bbs_functions) *)
Definition bbs_functions : list host_fn := [
  fn (lit "SEND_NODE_MSG") (lit "bbs.node_msg") TYPE_VOID 2;
  fn (lit "ONLINE_NODES") (lit "bbs.node_msg") (TYPE_ARRAY None) 0].

(** src/buccaneer/semantic.c:381-384 (sys_functions) *)
Definition sys_functions : list host_fn := [
  free_fn (lit "NOW") TYPE_DATETIME 0; free_fn (lit "TODAY") TYPE_DATE 0].

(** src/buccaneer/semantic.c:386-389 (session_functions) *)
Definition session_functions : list host_fn := [
  free_fn (lit "NODE") TYPE_INTEGER 0; free_fn (lit "ELAPSED_MS") TYPE_INTEGER 0].

(** src/buccaneer/semantic.c:391-393 (door_functions) *)
Definition door_functions : list host_fn := [free_fn (lit "EXIT") TYPE_VOID 1].

(** src/buccaneer/semantic.c:395-409 (host_namespaces) *)
Definition host_namespaces : list (cstr * list host_fn) := [
  (lit "TERM", term_functions); (lit "USER", user_functions);
  (lit "USERS", users_functions); (lit "DATA", data_functions);
  (lit "KV", kv_functions); (lit "APP", app_functions);
  (lit "SHARED", shared_functions); (lit "TEXT", text_functions);
  (lit "BBS", bbs_functions); (lit "LEADERBOARD", leaderboard_functions);
  (lit "SYS", sys_functions); (lit "SESSION", session_functions);
  (lit "DOOR", door_functions)].

(** The symbol of a host function: its name, its type and its throttled flag. *)
Record host_symbol : Type := MkHost { host_name : cstr; host_type : btype; throttled : bool }.

(** The symbols of a namespace, the last function of the table first.
    src/buccaneer/semantic.c:411-439 (bucc_semantic_register_host_api) *)
Definition bucc_semantic_register_host_api : list (cstr * list host_symbol) :=
  (λ ns, (fst ns,
    rev ((λ f, MkHost (fn_name f) (return_type f)
      (bool_decide (capability f ≠ None) && same_name (fst ns) (lit "USERS"))) <$> snd ns)))
  <$> host_namespaces.

(** The first entry called [f] in a table called [ns]; a table without one is
    passed over. *)
Fixpoint find_in_ns {A} (name_of : A → cstr) (tables : list (cstr * list A)) (ns f : cstr)
  : option A :=
  match tables with
  | [] => None
  | (n, fns) :: tables =>
      if same_name n ns then
        match find (λ x, same_name (name_of x) f) fns with
        | Some x => Some x
        | None => find_in_ns name_of tables ns f
        end
      else find_in_ns name_of tables ns f
  end.

(** src/buccaneer/semantic.c:441-456 (bucc_semantic_resolve_host_call) *)
Definition bucc_semantic_resolve_host_call (ns f : cstr) : option host_symbol :=
  find_in_ns host_name bucc_semantic_register_host_api ns f.

(** src/buccaneer/semantic.c:458-470 (get_host_capability) *)
Definition get_host_capability (ns f : cstr) : option cstr :=
  match find_in_ns fn_name host_namespaces ns f with Some d => capability d | None => None end.

(** ** The state of the analysis *)

Inductive level : Type := BUCC_DIAG_WARNING | BUCC_DIAG_ERROR.

#[export] Instance level_eq_dec : EqDecision level.
Proof. solve_decision. Defined.

(** [scopes] is the chain from [current_scope] to [global_scope]; a capability is
    its name and its [declared] flag.
    src/buccaneer/include/bucc_semantic.h:91-110 (bucc_semantic) *)
Record semantic : Type := MkSem {
  scopes : list scope;
  capabilities : list (cstr * bool);
  sem_diag : list (level * cstr);
  program_name : option cstr;
  program_version : option cstr;
  has_main : bool;
  in_function : bool;
  current_return_type : option btype;
  global_count : Z;
  proc_count : Z
}.

(** src/buccaneer/semantic.c:194-205 (bucc_semantic_new) *)
Definition bucc_semantic_new (diag : list (level * cstr)) : semantic :=
  MkSem [bucc_scope_new []] [] diag None None false false None 0 0.

Definition set_scopes (x : list scope) (s : semantic) : semantic :=
  MkSem x (capabilities s) (sem_diag s) (program_name s) (program_version s) (has_main s)
    (in_function s) (current_return_type s) (global_count s) (proc_count s).

Definition set_capabilities (x : list (cstr * bool)) (s : semantic) : semantic :=
  MkSem (scopes s) x (sem_diag s) (program_name s) (program_version s) (has_main s)
    (in_function s) (current_return_type s) (global_count s) (proc_count s).

Definition set_program (name version : option cstr) (s : semantic) : semantic :=
  MkSem (scopes s) (capabilities s) (sem_diag s) name version (has_main s)
    (in_function s) (current_return_type s) (global_count s) (proc_count s).

Definition set_counts (main : bool) (globals procs : Z) (s : semantic) : semantic :=
  MkSem (scopes s) (capabilities s) (sem_diag s) (program_name s) (program_version s) main
    (in_function s) (current_return_type s) globals procs.

Definition set_function (b : bool) (t : option btype) (s : semantic) : semantic :=
  MkSem (scopes s) (capabilities s) (sem_diag s) (program_name s) (program_version s)
    (has_main s) b t (global_count s) (proc_count s).

Definition report (l : level) (msg : cstr) (s : semantic) : semantic :=
  MkSem (scopes s) (capabilities s) (sem_diag s ++ [(l, msg)]) (program_name s)
    (program_version s) (has_main s) (in_function s) (current_return_type s) (global_count s)
    (proc_count s).

Definition err (msg : cstr) (s : semantic) : semantic := report BUCC_DIAG_ERROR msg s.

(** [if (bad) bucc_diag_error(...)] *)
Definition err_if (bad : bool) (msg : cstr) (s : semantic) : semantic :=
  if bad then err msg s else s.

(** [bucc_diag_has_errors] *)
Definition has_errors (s : semantic) : bool :=
  existsb (λ d, bool_decide (fst d = BUCC_DIAG_ERROR)) (sem_diag s).

Definition set_top (f : scope → scope) (s : semantic) : semantic :=
  match scopes s with [] => s | t :: l => set_scopes (f t :: l) s end.

(** The declaration of a symbol in the current scope; a null name declares
    nothing. *)
Definition define (name : option cstr) (k : symbol_kind) (t : option btype) (s : semantic)
  : semantic :=
  match name with
  | Some n => set_top (λ sc, bucc_scope_define sc n k t) s
  | None => s
  end.

Definition lookup_local (name : option cstr) (s : semantic) : option symbol :=
  match name, scopes s with
  | Some n, t :: _ => find_symbol (symbols t) n
  | _, _ => None
  end.

(** ** Capabilities *)

(** src/buccaneer/semantic.c:237-254 (bucc_semantic_declare_capability) *)
Definition bucc_semantic_declare_capability (cap : cstr) (s : semantic) : semantic :=
  let fix declare l :=
    match l with
    | [] => None
    | (n, d) :: l =>
        if same_name n cap then Some ((n, true) :: l)
        else match declare l with Some l => Some ((n, d) :: l) | None => None end
    end in
  match declare (capabilities s) with
  | Some l => set_capabilities l s
  | None => set_capabilities ((cap, true) :: capabilities s) s
  end.

(** src/buccaneer/semantic.c:256-275 (bucc_semantic_check_capability) *)
Definition bucc_semantic_check_capability (cap : cstr) (s : semantic) : semantic :=
  let declared := match find (λ c, same_name (fst c) cap) (capabilities s) with
    | Some (_, d) => d
    | None => false
    end in
  err_if (negb declared) (lit "capability '" ++ cap ++ lit "' not declared") s.

(** ** Expressions *)

(** src/buccaneer/semantic.c:480-491 (analyze_expr) *)
Definition literal_type (v : value) : btype :=
  match v with
  | VNull => TYPE_NULL
  | VBool _ => TYPE_BOOLEAN
  | VI64 _ => TYPE_INTEGER
  | VF64 _ => TYPE_DOUBLE
  | VString _ => TYPE_STRING
  | VDate _ => TYPE_DATE
  | VDatetime _ => TYPE_DATETIME
  | _ => TYPE_ERROR
  end.

Definition is_type (t : option btype) (k : btype) : bool :=
  match t with Some t => type_equal t k | None => false end.

(** [t && t->kind != k], for the kinds without an element type *)
Definition is_not (t : option btype) (k : btype) : bool :=
  match t with Some t => negb (type_equal t k) | None => false end.

(** src/buccaneer/semantic.c:493-502 (analyze_expr) *)
Definition analyze_ident (name : cstr) (s : semantic) : option btype * semantic :=
  match bucc_scope_lookup (scopes s) name with
  | None => (Some TYPE_ERROR, err (lit "undefined identifier '" ++ name ++ lit "'") s)
  | Some sym => (sym_type sym, s)
  end.

(** src/buccaneer/semantic.c:504-530 (analyze_expr) *)
Definition analyze_qualified (ns name : cstr) (s : semantic) : option btype * semantic :=
  match bucc_semantic_resolve_host_call ns name with
  | None =>
      (Some TYPE_ERROR, err (lit "unknown host function '" ++ ns ++ lit "." ++ name ++ lit "'") s)
  | Some f =>
      let s := match get_host_capability ns name with
        | Some cap => bucc_semantic_check_capability cap s
        | None => s
        end in
      let depth := match scopes s with [] => 0 | t :: _ => loop_depth t end in
      let s :=
        if throttled f && (0 <? depth) then
          report BUCC_DIAG_WARNING (lit "throttled function '" ++ ns ++ lit "." ++ name ++
            lit "' called inside loop") s
        else s in
      (Some (host_type f), s)
  end.

(** src/buccaneer/semantic.c:542-562 (analyze_expr) *)
Definition analyze_unary (op : unary_op) (t : option btype) (s : semantic)
  : option btype * semantic :=
  match op with
  | UNARY_NEG =>
      (t, err_if (negb (bucc_type_is_numeric t))
            (lit "unary minus requires numeric operand, got " ++ bucc_type_name t) s)
  | UNARY_NOT =>
      (Some TYPE_BOOLEAN, err_if (is_not t TYPE_BOOLEAN)
         (lit "NOT requires boolean operand, got " ++ bucc_type_name t) s)
  end.

Definition analyze_arith (a b : option btype) (s : semantic) : option btype * semantic :=
  let s := err_if (negb (bucc_type_is_numeric a) || negb (bucc_type_is_numeric b))
    (lit "arithmetic operator requires numeric operands") s in
  (Some (if is_type a TYPE_DOUBLE || is_type b TYPE_DOUBLE then TYPE_DOUBLE else TYPE_INTEGER), s).

(** src/buccaneer/semantic.c:568-623 (analyze_expr) *)
Definition analyze_binary (op : binary_op) (a b : option btype) (s : semantic)
  : option btype * semantic :=
  match op with
  | BINARY_ADD => if is_type a TYPE_STRING then (Some TYPE_STRING, s) else analyze_arith a b s
  | BINARY_SUB | BINARY_MUL | BINARY_DIV | BINARY_MOD => analyze_arith a b s
  | BINARY_EQ | BINARY_NE | BINARY_LT | BINARY_LE | BINARY_GT | BINARY_GE =>
      (Some TYPE_BOOLEAN, s)
  | BINARY_AND | BINARY_OR =>
      (Some TYPE_BOOLEAN, err_if (is_not a TYPE_BOOLEAN || is_not b TYPE_BOOLEAN)
         (lit "logical operator requires boolean operands") s)
  | BINARY_CONCAT => (Some TYPE_STRING, s)
  end.

(** src/buccaneer/semantic.c:625-652 (analyze_expr) *)
Definition analyze_index (obj idx : option btype) (s : semantic) : option btype * semantic :=
  match obj with
  | Some (TYPE_ARRAY e) =>
      (Some (default TYPE_ANY e), err_if (is_not idx TYPE_INTEGER)
         (lit "array index must be integer") s)
  | Some (TYPE_MAP e) =>
      (Some (default TYPE_ANY e), err_if (is_not idx TYPE_STRING)
         (lit "map key must be string") s)
  | _ => (Some TYPE_ERROR, s)
  end.

(** The type of the first element that has one. *)
Definition first_type (a b : option btype) : option btype :=
  match a with Some _ => a | None => b end.

(** src/buccaneer/semantic.c:476-692 (analyze_expr) *)
Fixpoint analyze_expr (x : expr) (s : semantic) : option btype * semantic :=
  match x with
  | NNull => (None, s)
  | NLiteral v => (Some (literal_type v), s)
  | NIdent name => analyze_ident name s
  | NQualified ns name => analyze_qualified ns name s
  | NCall callee args =>
      let '(t, s) := analyze_expr callee s in
      (t, fold_left (λ s a, snd (analyze_expr a s)) args s)
  | NUnary op a => let '(t, s) := analyze_expr a s in analyze_unary op t s
  | NBinary op a b =>
      let '(t, s) := analyze_expr a s in
      let '(u, s) := analyze_expr b s in
      analyze_binary op t u s
  | NIndex a i =>
      let '(t, s) := analyze_expr a s in
      let '(u, s) := analyze_expr i s in
      analyze_index t u s
  | NMember a _ => let '(_, s) := analyze_expr a s in (Some TYPE_ANY, s)
  | NArrayLit l =>
      let '(t, s) := fold_left (λ r a,
        let '(t, s) := analyze_expr a (snd r) in (first_type (fst r) t, s)) l (None, s) in
      (Some (TYPE_ARRAY (Some (default TYPE_ANY t))), s)
  | NMapLit l =>
      let '(t, s) := fold_left (λ r p,
        let '(t, s) := analyze_expr (snd p) (snd r) in (first_type (fst r) t, s)) l (None, s) in
      (Some (TYPE_MAP (Some (default TYPE_ANY t))), s)
  | NOther => (Some TYPE_ERROR, s)
  end.

(** src/buccaneer/semantic.c:694-705 (is_lvalue) *)
Definition is_lvalue (x : expr) : bool :=
  match x with NIdent _ | NIndex _ _ | NMember _ _ => true | _ => false end.

(** ** Statements *)

Definition analyze (x : expr) (s : semantic) : semantic := snd (analyze_expr x s).

Definition analyze_opt (x : option expr) (s : semantic) : semantic :=
  match x with Some x => analyze x s | None => s end.

(** An expression whose type is reported unless it satisfies [ok]. *)
Definition analyze_want (bad : option btype → bool) (msg : cstr) (x : expr) (s : semantic)
  : semantic :=
  let '(t, s) := analyze_expr x s in err_if (bad t) msg s.

Definition not_boolean (t : option btype) : bool := is_not t TYPE_BOOLEAN.

(** [cannot assign %s to %s] *)
Definition cannot_assign (source target : option btype) : cstr :=
  lit "cannot assign " ++ bucc_type_name source ++ lit " to " ++ bucc_type_name target.

(** src/buccaneer/semantic.c:711-735 (analyze_stmt) *)
Definition analyze_var_decl (d : var_decl) (s : semantic) : semantic :=
  match lookup_local (var_name d) s with
  | Some _ =>
      err (lit "variable '" ++ default [] (var_name d) ++ lit "' already declared") s
  | None =>
      let t := bucc_type_from_ast (var_type d) in
      let s := match initializer d with
        | Some x =>
            let '(u, s) := analyze_expr x s in
            err_if (negb (bucc_type_assignable t u)) (cannot_assign u t) s
        | None => s
        end in
      define (var_name d) SYM_LOCAL t s
  end.

(** src/buccaneer/semantic.c:737-756 (analyze_stmt) *)
Definition analyze_assign (target v : expr) (s : semantic) : semantic :=
  if negb (is_lvalue target) then err (lit "invalid assignment target") s
  else
    let '(t, s) := analyze_expr target s in
    let '(u, s) := analyze_expr v s in
    err_if (negb (bucc_type_assignable t u)) (cannot_assign u t) s.

(** src/buccaneer/semantic.c:896-913 (analyze_stmt) *)
Definition analyze_return (v : option expr) (s : semantic) : semantic :=
  match v with
  | Some x =>
      let '(t, s) := analyze_expr x s in
      match in_function s, current_return_type s with
      | true, Some want =>
          err_if (negb (bucc_type_assignable (Some want) t))
            (lit "return type mismatch: expected " ++ bucc_type_name (Some want) ++
             lit ", got " ++ bucc_type_name t) s
      | _, _ => s
      end
  | None => err_if (in_function s) (lit "function must return a value") s
  end.

(** src/buccaneer/semantic.c:950-959 (analyze_stmt) *)
Definition analyze_target (target : expr) (s : semantic) : semantic :=
  match target with
  | NIdent name =>
      let ok := match bucc_scope_lookup (scopes s) name with
        | Some sym => match sym_kind sym with SYM_PROCEDURE | SYM_FUNCTION => true | _ => false end
        | None => false
        end in
      err_if (negb ok) (lit "ON CALL target '" ++ name ++ lit "' is not a procedure") s
  | _ => s
  end.

(** The flags of the current scope around the body of a loop. *)
Definition enter_loop (s : semantic) : semantic :=
  set_top (λ t, MkScope (symbols t) (local_count t) true (in_try t) (loop_depth t + 1)) s.

Definition leave_loop (s : semantic) : semantic :=
  set_top (λ t, let d := loop_depth t - 1 in
    MkScope (symbols t) (local_count t) (0 <? d) (in_try t) d) s.

Definition set_in_try (b : bool) (s : semantic) : semantic :=
  set_top (λ t, MkScope (symbols t) (local_count t) (in_loop t) b (loop_depth t)) s.

(** A new scope inside the current one, gone afterwards. *)
Definition in_scope (sc : scope) (body : semantic → semantic) (s : semantic) : semantic :=
  let s := body (set_scopes (sc :: scopes s) s) in set_scopes (tail (scopes s)) s.

(** src/buccaneer/semantic.c:863-868 (analyze_stmt) *)
Definition for_scope (parents : list scope) (var : cstr) : scope :=
  let sc := bucc_scope_new parents in
  let sc := MkScope (symbols sc) (local_count sc) true (in_try sc) (loop_depth sc + 1) in
  bucc_scope_define sc var SYM_LOCAL (Some TYPE_INTEGER).

(** src/buccaneer/semantic.c:883-887 (analyze_stmt) *)
Definition catch_scope (parents : list scope) (error_var : option cstr) : scope :=
  let sc := bucc_scope_new parents in
  match error_var with
  | Some n => bucc_scope_define sc n SYM_LOCAL (Some (TYPE_MAP None))
  | None => sc
  end.

(** src/buccaneer/semantic.c:707-968 (analyze_stmt) *)
Fixpoint analyze_stmt (st : stmt) (s : semantic) : semantic :=
  match st with Stmt _ _ k => analyze_kind k s end

with analyze_kind (k : stmt_kind) (s : semantic) : semantic :=
  let block b s := fold_left (λ s st, analyze_stmt st s) b s in
  let block_opt b s := match b with Some b => block b s | None => s end in
  match k with
  | SVarDecl d => analyze_var_decl d s
  | SAssign target v => analyze_assign target v s
  | SExpr x => analyze x s
  | SIf c then_block clauses else_block =>
      let s := analyze_want not_boolean (lit "IF condition must be boolean") c s in
      let s := block then_block s in
      let s := fold_left (λ s cl,
        fold_left (λ s st, analyze_stmt st s) (snd cl) (analyze (fst cl) s)) clauses s in
      block_opt else_block s
  | SSelect x cases else_case =>
      let s := analyze x s in
      let s := fold_left (λ s c,
        match c with
        | Case values _ _ body =>
            fold_left (λ s st, analyze_stmt st s) body (fold_left (λ s v, analyze v s) values s)
        end) cases s in
      block_opt else_case s
  | SWhile c body =>
      let s := analyze_want not_boolean (lit "WHILE condition must be boolean") c s in
      leave_loop (block body (enter_loop s))
  | SDoLoop body c _ =>
      let s := leave_loop (block body (enter_loop s)) in
      match c with
      | Some c => analyze_want not_boolean (lit "LOOP condition must be boolean") c s
      | None => s
      end
  | SFor var start_expr end_expr step_expr body =>
      let '(t, s) := analyze_expr start_expr s in
      let '(u, s) := analyze_expr end_expr s in
      let s := err_if (negb (bucc_type_is_numeric t) || negb (bucc_type_is_numeric u))
        (lit "FOR bounds must be numeric") s in
      let s := match step_expr with
        | Some x => analyze_want (λ t, negb (bucc_type_is_numeric t))
                      (lit "FOR STEP must be numeric") x s
        | None => s
        end in
      in_scope (for_scope (scopes s) var) (block body) s
  | STryCatch try_block error_var catch_block =>
      let s := set_in_try false (block try_block (set_in_try true s)) in
      in_scope (catch_scope (scopes s) error_var) (block catch_block) s
  | SReturn v => analyze_return v s
  | SExit kind =>
      let inside := match scopes s with [] => false | t :: _ => in_loop t end in
      err_if (negb inside && bool_decide (kind ≠ EXIT_SELECT)) (lit "EXIT outside of loop") s
  | SHalt => s
  | SThrow x => analyze x s
  | SChain _ args => analyze_opt args (bucc_semantic_check_capability (lit "door.chain") s)
  | SOnCall selector targets =>
      let s := analyze_want (λ t, is_not t TYPE_INTEGER) (lit "ON selector must be integer")
                 selector s in
      fold_left (λ s t, analyze_target t s) targets s
  | SOther => s
  end.

(** src/buccaneer/semantic.c:970-977 (analyze_block) *)
Definition analyze_block (b : list stmt) (s : semantic) : semantic :=
  fold_left (λ s st, analyze_stmt st s) b s.

(** ** Procedures and modules *)

(** The two kinds of procedure differ in [in_function] and the return type. The
    new scope's parent is the global one.
    src/buccaneer/semantic.c:979-1022 (analyze_procedure, analyze_function) *)
Definition analyze_procedure (p : proc_decl) (s : semantic) : semantic :=
  let globals := scopes s in
  let ret := if decl_is_function p then bucc_type_from_ast (decl_return p) else None in
  let s := set_function (decl_is_function p) ret
    (set_scopes (bucc_scope_new globals :: globals) s) in
  let s := fold_left (λ s q,
    define (Some (param_name q)) SYM_PARAM (bucc_type_from_ast (param_type q)) s)
    (decl_params p) s in
  let s := analyze_block (decl_body p) s in
  let s := set_scopes (tail (scopes s)) s in
  if decl_is_function p then set_function false None s else s.

(** src/buccaneer/semantic.c:1029-1045 (bucc_semantic_analyze) *)
Definition declare_meta (m : metadata) (s : semantic) : semantic :=
  match m with
  | MetaProgram v => set_program (Some v) (program_version s) s
  | MetaVersion v => set_program (program_name s) (Some v) s
  | MetaCapability c => bucc_semantic_declare_capability c s
  | _ => s
  end.

(** src/buccaneer/semantic.c:1047-1055 (bucc_semantic_analyze) *)
Definition declare_global (d : var_decl) (s : semantic) : semantic :=
  let s := define (var_name d) SYM_GLOBAL (bucc_type_from_ast (var_type d)) s in
  set_counts (has_main s) (u32 (global_count s + 1)) (proc_count s) s.

(** src/buccaneer/semantic.c:1057-1090 (bucc_semantic_analyze) *)
Definition declare_procedure (p : proc_decl) (s : semantic) : semantic :=
  let main := has_main s ||
    (negb (decl_is_function p) && same_name (decl_name p) (lit "Main")) in
  let s := set_counts main (global_count s) (proc_count s) s in
  match lookup_local (Some (decl_name p)) s with
  | Some _ => err (lit "procedure '" ++ decl_name p ++ lit "' already declared") s
  | None =>
      let s := if decl_is_function p
        then define (Some (decl_name p)) SYM_FUNCTION (bucc_type_from_ast (decl_return p)) s
        else define (Some (decl_name p)) SYM_PROCEDURE (Some TYPE_VOID) s in
      set_counts (has_main s) (global_count s) (u32 (proc_count s + 1)) s
  end.

(** src/buccaneer/semantic.c:1024-1107 (bucc_semantic_analyze) *)
Definition bucc_semantic_analyze (m : module_node) (s : semantic) : bool * semantic :=
  let s := fold_left (λ s d, declare_meta d s) (meta m) s in
  let s := fold_left (λ s d, declare_global d s) (global_vars m) s in
  let s := fold_left (λ s p, declare_procedure p s) (proc_nodes m) s in
  let s := err_if (negb (has_main s)) (lit "module must have a Main procedure") s in
  let s := fold_left (λ s p, analyze_procedure p s) (proc_nodes m) s in
  (negb (has_errors s), s).

(** The state that the analysis of a module ends in. *)
Definition analyzed (m : module_node) : semantic :=
  snd (bucc_semantic_analyze m (bucc_semantic_new [])).
