(* ===== verification/SemanticSpec.v ===== *)
(** What the analysis of [Semantic] leaves and guarantees: the scopes that the
    code generator gets, the diagnostics, and the capabilities of an accepted
    module. *)

From S2P Require Import Prelude CLib Float Value Ast Semantic.

#[local] Open Scope Z_scope.

Create HintDb sem discriminated.

(** ** The effect of the analysis *)

(** Diagnostics are appended, capabilities and the kind of procedure stay, and of
    the scopes only the innermost changes. *)
Record analysis_step (s s' : semantic) : Prop := {
  step_parents : tail (scopes s') = tail (scopes s);
  step_scoped : scopes s = [] ↔ scopes s' = [];
  step_caps : capabilities s' = capabilities s;
  step_main : has_main s' = has_main s;
  step_diag : ∃ d, sem_diag s' = sem_diag s ++ d
}.

#[export] Instance analysis_step_preorder : PreOrder analysis_step.
Proof.
  split.
  - intros s. split; try done. exists []. by rewrite app_nil_r.
  - intros s1 s2 s3 [H1 H2 H3 H4 [d1 H5]] [K1 K2 K3 K4 [d2 K5]]. split; try congruence.
    + by rewrite H2.
    + exists (d1 ++ d2). by rewrite K5, H5, app_assoc.
Qed.

(** A part of the analysis is a step. *)
Definition steps_to (f : semantic → semantic) : Prop := ∀ s, analysis_step s (f s).

Lemma step_frame s s' :
  scopes s' = scopes s → capabilities s' = capabilities s → has_main s' = has_main s →
  sem_diag s' = sem_diag s → analysis_step s s'.
Proof.
  intros H1 H2 H3 H4. split; try congruence; [by rewrite H1 |]. exists []. by rewrite H4, app_nil_r.
Qed.

Lemma step_report l msg : steps_to (report l msg).
Proof. intros s. split; try done. by eexists. Qed.

Lemma step_err_if b msg : steps_to (err_if b msg).
Proof. intros s. destruct b; [apply step_report | done]. Qed.

Lemma step_set_top f : steps_to (set_top f).
Proof.
  intros s. unfold set_top. destruct (scopes s) as [|t l] eqn:E; [done |].
  split; cbn; try done; try (by rewrite E). exists []. by rewrite app_nil_r.
Qed.

Lemma step_define n k t : steps_to (define n k t).
Proof. intros s. destruct n; [apply step_set_top | done]. Qed.

Lemma step_check_capability cap : steps_to (bucc_semantic_check_capability cap).
Proof. intros s. apply step_err_if. Qed.

Lemma step_fold {A} (f : semantic → A → semantic) l :
  Forall (λ x, steps_to (λ s, f s x)) l → steps_to (λ s, fold_left f l s).
Proof.
  induction 1 as [|x l Hx _ IH]; intros s; cbn; [done |]. etrans; [apply (Hx s) | apply IH].
Qed.

Lemma step_in_scope sc body s : steps_to body → analysis_step s (in_scope sc body s).
Proof.
  intros Hb. pose proof (Hb (set_scopes (sc :: scopes s) s)) as [H1 H2 H3 H4 H5].
  unfold in_scope. cbn in *. by split; cbn; rewrite ?H1.
Qed.

#[local] Hint Resolve step_report step_err_if step_set_top step_define step_check_capability : sem.


(** ** Expressions *)

(** The analysis of an expression only reports. *)
Definition log (d : list (level * cstr)) (s : semantic) : semantic :=
  MkSem (scopes s) (capabilities s) (sem_diag s ++ d) (program_name s) (program_version s)
    (has_main s) (in_function s) (current_return_type s) (global_count s) (proc_count s).

Definition logs (s s' : semantic) : Prop := ∃ d, s' = log d s.

#[export] Instance logs_preorder : PreOrder logs.
Proof.
  split.
  - intros []. exists []. unfold log. cbn. by rewrite app_nil_r.
  - intros s1 s2 s3 [d1 ->] [d2 ->]. exists (d1 ++ d2). unfold log. cbn. by rewrite app_assoc.
Qed.

Lemma logs_report l msg s : logs s (report l msg s).
Proof. by eexists. Qed.

Lemma logs_err_if b msg s : logs s (err_if b msg s).
Proof. destruct b; [apply logs_report | done]. Qed.

Lemma logs_fold {A} (f : semantic → A → semantic) l :
  Forall (λ x, ∀ s, logs s (f s x)) l → ∀ s, logs s (fold_left f l s).
Proof.
  induction 1 as [|x l Hx _ IH]; intros s; cbn; [done |]. etrans; [apply (Hx s) | apply IH].
Qed.

Lemma logs_fold_types {A} (f : A → semantic → option btype * semantic) l :
  Forall (λ x, ∀ s, logs s (snd (f x s))) l → ∀ r, logs (snd r)
    (snd (fold_left (λ r a, let '(t, s) := f a (snd r) in (first_type (fst r) t, s)) l r)).
Proof.
  induction 1 as [|x l Hx _ IH]; intros r; cbn [fold_left]; [done |].
  etrans; [| apply IH]. specialize (Hx (snd r)). destruct (f x (snd r)). exact Hx.
Qed.

Lemma logs_qualified ns name s : logs s (snd (analyze_qualified ns name s)).
Proof.
  unfold analyze_qualified. destruct (bucc_semantic_resolve_host_call ns name) as [f |]; cbn [snd];
    [| apply logs_report].
  etrans; [| destruct (_ && _); [apply logs_report | done]].
  destruct (get_host_capability ns name); [apply logs_err_if | done].
Qed.

Lemma logs_binary op a b s : logs s (snd (analyze_binary op a b s)).
Proof.
  destruct op; cbn [analyze_binary]; try (apply logs_err_if || done).
  destruct (is_type a TYPE_STRING); [done | apply logs_err_if].
Qed.

Lemma logs_index a b s : logs s (snd (analyze_index a b s)).
Proof. destruct a as [[] |]; cbn [analyze_index snd]; (apply logs_err_if || done). Qed.

Lemma analyze_expr_logs x : ∀ s, logs s (snd (analyze_expr x s)).
Proof.
  induction x as [name | v | op a IH | op a b IHa IHb | c args IHc IHargs | a k IH | a i IHa IHi
    | l IHl | l IHl | ns name | |] using expr_ind'; intros s; cbn [analyze_expr]; try done.
  - unfold analyze_ident. destruct (bucc_scope_lookup _ _); [done | apply logs_report].
  - specialize (IH s). destruct (analyze_expr a s) as [t s1]. etrans; [exact IH |].
    destruct op; apply logs_err_if.
  - specialize (IHa s). destruct (analyze_expr a s) as [t s1]. specialize (IHb s1).
    destruct (analyze_expr b s1) as [u s2]. etrans; [exact IHa |]. etrans; [exact IHb |].
    apply logs_binary.
  - specialize (IHc s). destruct (analyze_expr c s) as [t s1]. etrans; [exact IHc |]. cbn [snd].
    by apply (logs_fold (λ s a, snd (analyze_expr a s))).
  - specialize (IH s). by destruct (analyze_expr a s) as [t s1].
  - specialize (IHa s). destruct (analyze_expr a s) as [t s1]. specialize (IHi s1).
    destruct (analyze_expr i s1) as [u s2]. etrans; [exact IHa |]. etrans; [exact IHi |].
    apply logs_index.
  - pose proof (logs_fold_types analyze_expr l IHl (None, s)) as H. by destruct (fold_left _ l _).
  - pose proof (logs_fold_types (λ p, analyze_expr (snd p)) l IHl (None, s)) as H.
    by destruct (fold_left _ l _).
  - apply logs_qualified.
Qed.

Lemma logs_step s s' : logs s s' → analysis_step s s'.
Proof. intros [d ->]. split; try done. by exists d. Qed.

Lemma step_expr x : steps_to (analyze x).
Proof. intros s. apply logs_step, analyze_expr_logs. Qed.

(** An expression, then something that looks at its type. *)
Lemma step_after x (f : option btype → semantic → semantic) :
  (∀ t, steps_to (f t)) → steps_to (λ s, let '(t, s) := analyze_expr x s in f t s).
Proof.
  intros Hf s. pose proof (step_expr x s) as H. unfold analyze in H.
  destruct (analyze_expr x s) as [t s1]. etrans; [exact H | apply Hf].
Qed.

Lemma step_opt {A} (f : A → semantic → semantic) (o : option A) :
  (∀ x, o = Some x → steps_to (f x)) →
  steps_to (λ s, match o with Some x => f x s | None => s end).
Proof. intros Hf s. destruct o; [by apply Hf | done]. Qed.

Lemma step_want bad msg x : steps_to (analyze_want bad msg x).
Proof. apply (step_after x (λ t, err_if (bad t) msg)). intros t. apply step_err_if. Qed.

(** ** Statements *)

Lemma step_comp f g : steps_to f → steps_to g → steps_to (λ s, g (f s)).
Proof. intros Hf Hg s. etrans; [apply Hf | apply Hg]. Qed.

Lemma step_var_decl d : steps_to (analyze_var_decl d).
Proof.
  intros s. unfold analyze_var_decl. destruct (lookup_local _ s); [apply step_report |].
  cbv zeta. etrans; [| apply step_define]. destruct (initializer d) as [x |]; [| done].
  apply (step_after x (λ u, err_if (negb (bucc_type_assignable (bucc_type_from_ast (var_type d)) u))
    (cannot_assign u (bucc_type_from_ast (var_type d))))). intros u. apply step_err_if.
Qed.

Lemma step_assign x v : steps_to (analyze_assign x v).
Proof.
  intros s. unfold analyze_assign. destruct (negb _); [apply step_report |].
  apply (step_after x (λ t s, let '(u, s) := analyze_expr v s in
    err_if (negb (bucc_type_assignable t u)) (cannot_assign u t) s)).
  intros t. apply (step_after v (λ u, err_if (negb (bucc_type_assignable t u)) (cannot_assign u t))).
  intros u. apply step_err_if.
Qed.

Lemma step_return v : steps_to (analyze_return v).
Proof.
  intros s. unfold analyze_return. destruct v as [x |]; [| apply step_err_if].
  pose proof (step_expr x s) as H. unfold analyze in H. destruct (analyze_expr x s) as [t s1].
  etrans; [exact H |]. destruct (in_function s1), (current_return_type s1); try done.
  apply step_err_if.
Qed.

Lemma step_target x : steps_to (analyze_target x).
Proof. intros s. destruct x; try done. apply step_err_if. Qed.

Lemma analyze_stmt_step st : steps_to (analyze_stmt st).
Proof.
  revert st. apply (stmt_ind' _ (λ k, steps_to (analyze_kind k)));
    [intros line col k IH | intros d | intros x v | intros x | intros c b clauses eb Hb Hc He
    | intros x cases eb Hc He | intros c b Hb | intros b c k Hb | intros n x y z b Hb
    | intros b ev cb Hb Hcb | intros x | intros k | | intros x | intros t a | intros x l |];
    intros s; cbn [analyze_stmt analyze_kind].
  - apply IH.
  - apply step_var_decl.
  - apply step_assign.
  - apply step_expr.
  - etrans; [apply step_want |].
    etrans; [by apply (step_fold (λ s st, analyze_stmt st s) b) |].
    etrans; [apply (step_fold (λ s cl, fold_left (λ s st, analyze_stmt st s) (snd cl) (analyze (fst cl) s)) clauses) |].
    { eapply Forall_impl; [exact Hc |]. intros cl Hcl.
      apply (step_comp (analyze (fst cl))); [apply step_expr |].
      by apply (step_fold (λ s st, analyze_stmt st s)). }
    destruct eb as [eb |]; [| done]. by apply (step_fold (λ s st, analyze_stmt st s) eb).
  - etrans; [apply step_expr |].
    etrans; [apply (step_fold (λ s c, match c with Case values _ _ body =>
      fold_left (λ s st, analyze_stmt st s) body (fold_left (λ s v, analyze v s) values s) end) cases) |].
    { eapply Forall_impl; [exact Hc |]. intros [vs ls hs body] Hcl. cbn [case_body] in Hcl.
      apply (step_comp (fold_left (λ s v, analyze v s) vs)).
      - apply (step_fold (λ s v, analyze v s)). apply Forall_forall. intros v _. apply step_expr.
      - by apply (step_fold (λ s st, analyze_stmt st s)). }
    destruct eb as [eb |]; [| done]. by apply (step_fold (λ s st, analyze_stmt st s) eb).
  - etrans; [apply step_want |]. etrans; [| apply step_set_top].
    etrans; [apply step_set_top |]. by apply (step_fold (λ s st, analyze_stmt st s) b).
  - etrans; [apply step_set_top |]. etrans; [by apply (step_fold (λ s st, analyze_stmt st s) b) |].
    etrans; [apply step_set_top |]. destruct c; [apply step_want | done].
  - pose proof (step_expr x s) as H1. unfold analyze in H1. destruct (analyze_expr x s) as [t s1].
    pose proof (step_expr y s1) as H2. unfold analyze in H2. destruct (analyze_expr y s1) as [u s2].
    etrans; [exact H1 |]. etrans; [exact H2 |]. etrans; [apply step_err_if |].
    etrans; [| apply step_in_scope; by apply (step_fold (λ s st, analyze_stmt st s) b)].
    destruct z; [apply step_want | done].
  - etrans; [| apply step_in_scope; by apply (step_fold (λ s st, analyze_stmt st s) cb)].
    etrans; [| apply step_set_top]. etrans; [apply step_set_top |].
    by apply (step_fold (λ s st, analyze_stmt st s) b).
  - apply step_return.
  - apply step_err_if.
  - done.
  - apply step_expr.
  - etrans; [apply step_check_capability |]. destruct a; [apply step_expr | done].
  - etrans; [apply step_want |]. apply (step_fold (λ s t, analyze_target t s)).
    apply Forall_forall. intros t _. apply step_target.
  - done.
Qed.

Lemma analyze_block_step b : steps_to (analyze_block b).
Proof.
  apply (step_fold (λ s st, analyze_stmt st s)). apply Forall_forall. intros st _.
  apply analyze_stmt_step.
Qed.

(** ** Procedures and modules *)

Lemma step_scopes_nil s s' : analysis_step s s' → scopes s = [] → scopes s' = [].
Proof. intros H. apply (step_scoped _ _ H). Qed.

(** A procedure leaves the scopes as they were. *)
Lemma analyze_procedure_step p s :
  analysis_step s (analyze_procedure p s) ∧ scopes (analyze_procedure p s) = scopes s.
Proof.
  unfold analyze_procedure. cbv zeta.
  match goal with |- context [fold_left _ (decl_params p) ?s] => set (s1 := s) end.
  set (s2 := fold_left _ (decl_params p) s1).
  assert (H : analysis_step s1 (analyze_block (decl_body p) s2)).
  { etrans; [| apply analyze_block_step]. subst s2.
    apply (step_fold (λ s q, define (Some (param_name q)) SYM_PARAM
      (bucc_type_from_ast (param_type q)) s)).
    apply Forall_forall. intros q _. apply step_define. }
  destruct H as [H1 _ H3 H4 H5]. cbn in H1, H3, H4, H5.
  destruct (decl_is_function p); cbn; (split; [| exact H1]); split; cbn; try done; by rewrite H1.
Qed.

(** The global scope as a function of the declarations. *)
Definition declare_in (name : option cstr) (k : symbol_kind) (t : option btype) (sc : scope) : scope :=
  match name with Some n => bucc_scope_define sc n k t | None => sc end.

Definition var_in (sc : scope) (d : var_decl) : scope :=
  declare_in (var_name d) SYM_GLOBAL (bucc_type_from_ast (var_type d)) sc.

Definition procedure_in (sc : scope) (p : proc_decl) : scope :=
  match find_symbol (symbols sc) (decl_name p) with
  | Some _ => sc
  | None =>
      if decl_is_function p
      then bucc_scope_define sc (decl_name p) SYM_FUNCTION (bucc_type_from_ast (decl_return p))
      else bucc_scope_define sc (decl_name p) SYM_PROCEDURE (Some TYPE_VOID)
  end.

Definition module_scope (m : module_node) : scope :=
  foldl procedure_in (foldl var_in (bucc_scope_new []) (global_vars m)) (proc_nodes m).

Lemma declare_global_scopes ds : ∀ s sc,
  scopes s = [sc] → scopes (fold_left (λ s d, declare_global d s) ds s) = [foldl var_in sc ds].
Proof.
  induction ds as [|d ds IH]; intros s sc H; cbn [fold_left foldl]; [done |]. apply IH.
  unfold declare_global, var_in. cbn [scopes set_counts].
  destruct (var_name d); cbn [define declare_in]; [unfold set_top |]; by rewrite H.
Qed.

Lemma declare_procedure_scopes ps : ∀ s sc,
  scopes s = [sc] →
  scopes (fold_left (λ s p, declare_procedure p s) ps s) = [foldl procedure_in sc ps].
Proof.
  induction ps as [|p ps IH]; intros s sc H; cbn [fold_left foldl]; [done |]. apply IH.
  unfold declare_procedure, procedure_in, lookup_local. cbn [scopes set_counts]. rewrite H.
  destruct (find_symbol (symbols sc) (decl_name p)); [exact H |].
  destruct (decl_is_function p); cbn [scopes set_counts define]; unfold set_top; cbn [scopes set_counts];
    by rewrite H.
Qed.

Lemma declare_meta_scopes ms : ∀ s, scopes (fold_left (λ s d, declare_meta d s) ms s) = scopes s.
Proof.
  induction ms as [|d ms IH]; intros s; cbn [fold_left]; [done |]. rewrite IH.
  destruct d; try done. cbn [declare_meta]. unfold bucc_semantic_declare_capability.
  by case_match.
Qed.

Lemma analyze_procedures_step ps : ∀ s,
  let s' := fold_left (λ s p, analyze_procedure p s) ps s in
  analysis_step s s' ∧ scopes s' = scopes s.
Proof.
  induction ps as [|p ps IH]; intros s; cbn [fold_left]; [done |].
  destruct (analyze_procedure_step p s) as [H1 H2]. destruct (IH (analyze_procedure p s)) as [H3 H4].
  split; [by etrans | congruence].
Qed.

(** The scopes of the procedures are gone when the analysis returns. *)
Lemma analyzed_scopes m : scopes (analyzed m) = [module_scope m].
Proof.
  unfold analyzed, bucc_semantic_analyze. cbn [snd].
  rewrite (proj2 (analyze_procedures_step _ _)). unfold module_scope.
  erewrite <- declare_procedure_scopes; [by destruct (has_main _) |].
  apply declare_global_scopes. by rewrite declare_meta_scopes.
Qed.

(** The names a module declares. *)
Definition declared (m : module_node) (name : cstr) : Prop :=
  ∃ n, ((∃ d, d ∈ global_vars m ∧ var_name d = Some n) ∨ ∃ p, p ∈ proc_nodes m ∧ n = decl_name p) ∧
    same_name n name = true.

Lemma define_lookup s n k t name :
  find_symbol (symbols (bucc_scope_define s n k t)) name ≠ None →
  same_name n name = true ∨ find_symbol (symbols s) name ≠ None.
Proof. cbn. destruct (same_name n name); [by left | by right]. Qed.

Lemma fold_vars_lookup ds : ∀ s name,
  find_symbol (symbols (foldl var_in s ds)) name ≠ None →
  find_symbol (symbols s) name ≠ None ∨
  ∃ d n, d ∈ ds ∧ var_name d = Some n ∧ same_name n name = true.
Proof.
  induction ds as [|d ds IH]; intros s name H; cbn [foldl] in H; [by left |].
  apply IH in H as [H | (e & n & He & Hn & Hs)]; [| right; exists e, n; split; [by right | done]].
  unfold var_in in H. destruct (var_name d) as [n |] eqn:E; cbn [declare_in] in H; [| by left].
  apply define_lookup in H as [H |]; [| by left]. right. exists d, n. split; [by left | done].
Qed.

Lemma fold_procs_lookup ps : ∀ s name,
  find_symbol (symbols (foldl procedure_in s ps)) name ≠ None →
  find_symbol (symbols s) name ≠ None ∨ ∃ p, p ∈ ps ∧ same_name (decl_name p) name = true.
Proof.
  induction ps as [|p ps IH]; intros s name H; cbn [foldl] in H; [by left |].
  apply IH in H as [H | (q & Hq & Hs)]; [| right; exists q; split; [by right | done]].
  unfold procedure_in in H. destruct (find_symbol (symbols s) (decl_name p)); [by left |].
  assert (Hd : same_name (decl_name p) name = true ∨ find_symbol (symbols s) name ≠ None)
    by (destruct (decl_is_function p); by apply define_lookup in H).
  destruct Hd; [| by left]. right. exists p. split; [by left | done].
Qed.

Lemma undeclared_lookup m name :
  ¬ declared m name → bucc_scope_lookup (scopes (analyzed m)) name = None.
Proof.
  intros Hn. rewrite analyzed_scopes. cbn [bucc_scope_lookup].
  destruct (find_symbol (symbols (module_scope m)) name) eqn:E; [| done]. exfalso. apply Hn.
  destruct (fold_procs_lookup (proc_nodes m) (foldl var_in (bucc_scope_new []) (global_vars m)) name)
    as [H | (p & Hp & Hs)].
  - unfold module_scope in E. by rewrite E.
  - apply fold_vars_lookup in H as [H | (d & n & Hd & Hv & Hs)]; [done |]. exists n. eauto.
  - exists (decl_name p). eauto.
Qed.

(** ** Capabilities *)

(** The capabilities that the host calls of an expression need. *)
Fixpoint expr_needs (x : expr) : list cstr :=
  match x with
  | NQualified ns name => option_list (get_host_capability ns name)
  | NUnary _ a | NMember a _ => expr_needs a
  | NBinary _ a b | NIndex a b => expr_needs a ++ expr_needs b
  | NCall c args => expr_needs c ++ concat (map expr_needs args)
  | NArrayLit l => concat (map expr_needs l)
  | NMapLit l => concat (map (λ p, expr_needs (snd p)) l)
  | _ => []
  end.

Definition opt_needs (x : option expr) : list cstr := from_option expr_needs [] x.

(** Those of the statements, without the bounds of the ranges of a CASE. *)
Fixpoint stmt_needs (s : stmt) : list cstr :=
  match s with Stmt _ _ k => kind_needs k end

with kind_needs (k : stmt_kind) : list cstr :=
  let block b := concat (map stmt_needs b) in
  match k with
  | SVarDecl d => opt_needs (initializer d)
  | SAssign t v => expr_needs t ++ expr_needs v
  | SExpr x | SThrow x => expr_needs x
  | SIf c b clauses eb =>
      expr_needs c ++ block b ++
      concat (map (λ cl, expr_needs (fst cl) ++ concat (map stmt_needs (snd cl))) clauses) ++
      (match eb with Some b => block b | None => [] end)
  | SSelect x cases eb =>
      expr_needs x ++
      concat (map (λ c, match c with Case values _ _ body =>
        concat (map expr_needs values) ++ concat (map stmt_needs body) end) cases) ++
      (match eb with Some b => block b | None => [] end)
  | SWhile c b => expr_needs c ++ block b
  | SDoLoop b c _ => block b ++ opt_needs c
  | SFor _ a b step body => expr_needs a ++ expr_needs b ++ opt_needs step ++ block body
  | STryCatch b _ cb => block b ++ block cb
  | SReturn x => opt_needs x
  | SChain _ args => lit "door.chain" :: opt_needs args
  | SOnCall x _ => expr_needs x
  | SExit _ | SHalt | SOther => []
  end.

Definition module_needs (m : module_node) : list cstr :=
  concat (map (λ p, concat (map stmt_needs (decl_body p))) (proc_nodes m)).

(** Something is declared under that name. *)
Definition declared_in (caps : list (cstr * bool)) (cap : cstr) : Prop :=
  ∃ n, (n, true) ∈ caps ∧ same_name n cap = true.

(** A part of the analysis reports when a capability it needs is not declared. *)
Definition guards (needs : list cstr) (f : semantic → semantic) : Prop :=
  steps_to f ∧
  ∀ s, has_errors (f s) = false → Forall (declared_in (capabilities s)) needs.

Lemma errors_grow s s' : analysis_step s s' → has_errors s' = false → has_errors s = false.
Proof.
  intros [_ _ _ _ [d H]]. unfold has_errors. rewrite H, existsb_app.
  intros [H1 _]%orb_false_elim. exact H1.
Qed.

Lemma guards_nil f : steps_to f → guards [] f.
Proof. intros Hf. by split. Qed.

Lemma guards_comp n1 n2 f g : guards n1 f → guards n2 g → guards (n1 ++ n2) (λ s, g (f s)).
Proof.
  intros [Hf1 Hf2] [Hg1 Hg2]. split; [by apply step_comp |]. intros s Hs. apply Forall_app. split.
  - apply Hf2. by apply (errors_grow _ _ (Hg1 (f s))).
  - specialize (Hg2 (f s) Hs). by rewrite (step_caps _ _ (Hf1 s)) in Hg2.
Qed.

(** A step without needs after or before one with needs. *)
Lemma guards_then n f g : guards n f → steps_to g → guards n (λ s, g (f s)).
Proof. intros Hf Hg. rewrite <- (app_nil_r n). apply guards_comp; [done | by apply guards_nil]. Qed.

Lemma guards_after n f g : steps_to f → guards n g → guards n (λ s, g (f s)).
Proof. intros Hf Hg. apply (guards_comp [] n f g); [by apply guards_nil | done]. Qed.

Lemma guards_fold {A} (f : semantic → A → semantic) (needs : A → list cstr) l :
  Forall (λ x, guards (needs x) (λ s, f s x)) l →
  guards (concat (map needs l)) (λ s, fold_left f l s).
Proof.
  induction 1 as [|x l Hx _ IH]; [apply guards_nil; by intros s |].
  exact (guards_comp _ _ (λ s, f s x) (λ s, fold_left f l s) Hx IH).
Qed.

Lemma guards_check cap : guards [cap] (bucc_semantic_check_capability cap).
Proof.
  split; [apply step_check_capability |]. intros s Hs. constructor; [| done].
  unfold bucc_semantic_check_capability in Hs. destruct (find _ _) as [[n b] |] eqn:E.
  - apply List.find_some in E as [Hin Hn]. exists n. split; [| exact Hn].
    apply list_elem_of_In. destruct b; [done |]. cbn in Hs. unfold has_errors in Hs. cbn in Hs.
    rewrite existsb_app in Hs. cbn in Hs. by rewrite orb_true_r in Hs.
  - cbn in Hs. unfold has_errors in Hs. cbn in Hs.
    rewrite existsb_app in Hs. cbn in Hs. by rewrite orb_true_r in Hs.
Qed.

(** An expression followed by something that looks at its type. *)
Lemma guards_typed n m x (f : option btype → semantic → semantic) :
  guards n (analyze x) → (∀ t, guards m (f t)) →
  guards (n ++ m) (λ s, let '(t, s) := analyze_expr x s in f t s).
Proof.
  intros [Hx1 Hx2] Hf. split; [apply step_after; intros t; apply Hf |]. intros s Hs.
  pose proof (Hx1 s) as H1. specialize (Hx2 s). unfold analyze in *.
  destruct (analyze_expr x s) as [t s1]. cbn [snd] in *. destruct (Hf t) as [Hf1 Hf2].
  specialize (Hf2 s1 Hs). rewrite (step_caps _ _ H1) in Hf2.
  apply Forall_app. split; [| exact Hf2]. apply Hx2. by apply (errors_grow _ _ (Hf1 s1)).
Qed.

Lemma guards_typed_step n x (f : option btype → semantic → semantic) :
  guards n (analyze x) → (∀ t, steps_to (f t)) →
  guards n (λ s, let '(t, s) := analyze_expr x s in f t s).
Proof.
  intros Hx Hf. rewrite <- (app_nil_r n). apply guards_typed; [done |].
  intros t. by apply guards_nil.
Qed.

Lemma guards_want bad msg n x : guards n (analyze x) → guards n (analyze_want bad msg x).
Proof.
  intros Hx. apply (guards_typed_step n x (λ t, err_if (bad t) msg)); [done |].
  intros t. apply step_err_if.
Qed.

Lemma snd_let {A B C} (r : A * B) (f : A → B → C * B) :
  snd (let '(a, b) := r in f a b) = let '(a, b) := r in snd (f a b).
Proof. by destruct r. Qed.

Lemma guards_ext n f g : (∀ s, f s = g s) → guards n f → guards n g.
Proof.
  intros E [H1 H2]. split; [intros s; rewrite <- E; apply H1 |].
  intros s Hs. apply H2. by rewrite E.
Qed.

Lemma guards_fold_types {A} (x_of : A → expr) l :
  Forall (λ a, guards (expr_needs (x_of a)) (analyze (x_of a))) l →
  ∀ t, guards (concat (map (λ a, expr_needs (x_of a)) l)) (λ s,
    snd (fold_left (λ r a, let '(t, s) := analyze_expr (x_of a) (snd r) in (first_type (fst r) t, s))
      l (t, s))).
Proof.
  induction 1 as [|a l Ha _ IH]; intros t; [apply guards_nil; by intros s |].
  apply (guards_ext _ (λ s, let '(u, s) := analyze_expr (x_of a) s in
    snd (fold_left (λ r a, let '(t, s) := analyze_expr (x_of a) (snd r) in (first_type (fst r) t, s))
      l (first_type t u, s)))).
  - intros s. cbn [fold_left fst snd]. by destruct (analyze_expr (x_of a) s).
  - apply (guards_typed _ _ (x_of a) (λ u s, snd (fold_left (λ r a,
      let '(t, s) := analyze_expr (x_of a) (snd r) in (first_type (fst r) t, s)) l
      (first_type t u, s)))); [done |]. intros u. apply IH.
Qed.

Lemma steps_snd (f : semantic → option btype * semantic) :
  (∀ s, logs s (snd (f s))) → steps_to (λ s, snd (f s)).
Proof. intros H s. by apply logs_step. Qed.

Lemma guards_qualified ns name :
  guards (option_list (get_host_capability ns name)) (λ s, snd (analyze_qualified ns name s)).
Proof.
  unfold analyze_qualified. destruct (bucc_semantic_resolve_host_call ns name) as [f |].
  - cbn [snd].
    apply (guards_then _ (λ s, match get_host_capability ns name with
      | Some cap => bucc_semantic_check_capability cap s | None => s end)
      (λ s, if throttled f && (0 <? match scopes s with [] => 0 | t :: _ => loop_depth t end)
        then report BUCC_DIAG_WARNING (lit "throttled function '" ++ ns ++ lit "." ++ name ++
          lit "' called inside loop") s else s)).
    + destruct (get_host_capability ns name); [apply guards_check | apply guards_nil; by intros s].
    + intros s. destruct (_ && _); [apply step_report | done].
  - cbn [snd]. split; [intros s; apply step_report |]. intros s Hs. exfalso.
    unfold err, report, has_errors in Hs. cbn [sem_diag] in Hs. rewrite existsb_app in Hs. cbn in Hs.
    by rewrite orb_true_r in Hs.
Qed.

Lemma analyze_expr_guards x : guards (expr_needs x) (analyze x).
Proof.
  induction x as [name | v | op a IH | op a b IHa IHb | c args IHc IHargs | a k IH | a i IHa IHi
    | l IHl | l IHl | ns name | |] using expr_ind'; cbn [expr_needs];
    try (apply guards_nil, step_expr).
  - apply (guards_ext _ (λ s, let '(t, s) := analyze_expr a s in snd (analyze_unary op t s)));
      [intros s; unfold analyze; cbn [analyze_expr]; by rewrite snd_let |].
    apply guards_typed_step; [done |]. intros t s. destruct op; apply step_err_if.
  - apply (guards_ext _ (λ s, let '(t, s) := analyze_expr a s in
      let '(u, s) := analyze_expr b s in snd (analyze_binary op t u s)));
      [intros s; unfold analyze; cbn [analyze_expr]; rewrite snd_let; destruct (analyze_expr a s);
       by rewrite snd_let |].
    apply (guards_typed _ _ a (λ t s, let '(u, s) := analyze_expr b s in snd (analyze_binary op t u s)));
      [done |]. intros t.
    apply (guards_typed_step _ b (λ u s, snd (analyze_binary op t u s))); [done |].
    intros u. apply steps_snd. intros s. apply logs_binary.
  - apply (guards_ext _ (λ s, fold_left (λ s a, analyze a s) args (analyze c s)));
      [intros s; unfold analyze at 2 3; cbn [analyze_expr]; by rewrite snd_let; destruct (analyze_expr c s) |].
    apply guards_comp; [done |]. by apply (guards_fold (λ s a, analyze a s)).
  - apply (guards_ext _ (analyze a)); [| done].
    intros s. unfold analyze. cbn [analyze_expr]. by destruct (analyze_expr a s).
  - apply (guards_ext _ (λ s, let '(t, s) := analyze_expr a s in
      let '(u, s) := analyze_expr i s in snd (analyze_index t u s)));
      [intros s; unfold analyze; cbn [analyze_expr]; rewrite snd_let; destruct (analyze_expr a s);
       by rewrite snd_let |].
    apply (guards_typed _ _ a (λ t s, let '(u, s) := analyze_expr i s in snd (analyze_index t u s)));
      [done |]. intros t.
    apply (guards_typed_step _ i (λ u s, snd (analyze_index t u s))); [done |].
    intros u. apply steps_snd. intros s. apply logs_index.
  - eapply guards_ext; [| exact (guards_fold_types id l IHl None)].
    intros s. unfold analyze. cbn [analyze_expr]. by destruct (fold_left _ l _).
  - eapply guards_ext; [| exact (guards_fold_types snd l IHl None)].
    intros s. unfold analyze. cbn [analyze_expr]. by destruct (fold_left _ l _).
  - apply guards_qualified.
Qed.

Lemma guards_opt x : guards (opt_needs x) (analyze_opt x).
Proof. destruct x; [apply analyze_expr_guards | apply guards_nil; by intros s]. Qed.

Lemma guards_in_scope n (sc : semantic → scope) body :
  guards n body → guards n (λ s, in_scope (sc s) body s).
Proof.
  intros [Hb1 Hb2]. split; [intros s; by apply step_in_scope |]. intros s Hs.
  apply (Hb2 (set_scopes (sc s :: scopes s) s)). exact Hs.
Qed.

Lemma guards_block b :
  Forall (λ st, guards (stmt_needs st) (analyze_stmt st)) b →
  guards (concat (map stmt_needs b)) (λ s, fold_left (λ s st, analyze_stmt st s) b s).
Proof. apply (guards_fold (λ s st, analyze_stmt st s)). Qed.

Lemma guards_else eb :
  each (λ st, guards (stmt_needs st) (analyze_stmt st)) eb →
  guards (match eb with Some b => concat (map stmt_needs b) | None => [] end)
    (λ s, match eb with Some b => fold_left (λ s st, analyze_stmt st s) b s | None => s end).
Proof. destruct eb; [apply guards_block | intros _; apply guards_nil; by intros s]. Qed.

Lemma analyze_stmt_guards st : guards (stmt_needs st) (analyze_stmt st).
Proof.
  revert st. apply (stmt_ind' _ (λ k, guards (kind_needs k) (analyze_kind k)));
    [intros line col k IH | intros d | intros x v | intros x | intros c b clauses eb Hb Hc He
    | intros x cases eb Hc He | intros c b Hb | intros b c k Hb | intros n x y z b Hb
    | intros b ev cb Hb Hcb | intros x | intros k | | intros x | intros t a | intros x l |];
    cbn [stmt_needs kind_needs analyze_kind]; cbv zeta.
  - exact IH.
  - split; [apply step_var_decl |]. intros s. cbn [analyze_kind]. unfold analyze_var_decl.
    destruct (lookup_local _ s).
    { unfold has_errors. cbn. rewrite existsb_app. cbn. by rewrite orb_true_r. }
    cbv zeta. intros Hs. apply (errors_grow _ _ (step_define _ _ _ _)) in Hs. revert s Hs.
    destruct (initializer d) as [x |]; [| by constructor].
    apply (guards_typed_step (expr_needs x) x (λ u, err_if _ _));
      [apply analyze_expr_guards | intros u; apply step_err_if].
  - split; [apply step_assign |]. intros s. cbn [analyze_kind]. unfold analyze_assign.
    destruct (negb _).
    { unfold has_errors. cbn. rewrite existsb_app. cbn. by rewrite orb_true_r. }
    revert s. apply (guards_typed _ _ x (λ t s, let '(u, s) := analyze_expr v s in
      err_if (negb (bucc_type_assignable t u)) (cannot_assign u t) s)); [apply analyze_expr_guards |].
    intros t. apply (guards_typed_step _ v (λ u, err_if _ _)); [apply analyze_expr_guards |].
    intros u. apply step_err_if.
  - apply analyze_expr_guards.
  - set (rest := λ s, match eb with Some b => fold_left (λ s st, analyze_stmt st s) b s | None => s end).
    set (clause := λ s, fold_left (λ s cl, fold_left (λ s st, analyze_stmt st s) (snd cl)
      (analyze (fst cl) s)) clauses s).
    apply (guards_comp _ _ (analyze_want not_boolean (lit "IF condition must be boolean") c)
      (λ s, rest (clause (fold_left (λ s st, analyze_stmt st s) b s))));
      [apply guards_want, analyze_expr_guards |].
    apply (guards_comp _ _ (λ s, fold_left (λ s st, analyze_stmt st s) b s) (λ s, rest (clause s)));
      [by apply guards_block |].
    apply (guards_comp _ _ clause rest); [| by apply guards_else].
    apply (guards_fold (λ s cl, fold_left (λ s st, analyze_stmt st s) (snd cl) (analyze (fst cl) s))).
    eapply Forall_impl; [exact Hc |]. intros cl Hcl.
    apply (guards_comp _ _ (analyze (fst cl)) (λ s, fold_left (λ s st, analyze_stmt st s) (snd cl) s));
      [apply analyze_expr_guards | by apply guards_block].
  - set (rest := λ s, match eb with Some b => fold_left (λ s st, analyze_stmt st s) b s | None => s end).
    set (clause := λ s, fold_left (λ s c, match c with Case values _ _ body =>
      fold_left (λ s st, analyze_stmt st s) body (fold_left (λ s v, analyze v s) values s) end) cases s).
    apply (guards_comp _ _ (analyze x) (λ s, rest (clause s))); [apply analyze_expr_guards |].
    apply (guards_comp _ _ clause rest); [| by apply guards_else].
    apply (guards_fold (λ s c, match c with Case values _ _ body =>
      fold_left (λ s st, analyze_stmt st s) body (fold_left (λ s v, analyze v s) values s) end)).
    eapply Forall_impl; [exact Hc |]. intros [vs ls hs body] Hcl. cbn [case_body] in Hcl.
    apply (guards_comp _ _ (λ s, fold_left (λ s v, analyze v s) vs s)
      (λ s, fold_left (λ s st, analyze_stmt st s) body s)); [| by apply guards_block].
    apply (guards_fold (λ s v, analyze v s)). apply Forall_forall. intros v _. apply analyze_expr_guards.
  - apply (guards_comp _ _ (analyze_want not_boolean (lit "WHILE condition must be boolean") c)
      (λ s, leave_loop (fold_left (λ s st, analyze_stmt st s) b (enter_loop s))));
      [apply guards_want, analyze_expr_guards |].
    apply (guards_then _ (λ s, fold_left (λ s st, analyze_stmt st s) b (enter_loop s)) leave_loop);
      [| apply step_set_top].
    apply (guards_after _ enter_loop (λ s, fold_left (λ s st, analyze_stmt st s) b s)); [apply step_set_top | by apply guards_block].
  - apply (guards_comp _ _ (λ s, leave_loop (fold_left (λ s st, analyze_stmt st s) b (enter_loop s)))
      (λ s, match c with Some c => analyze_want not_boolean (lit "LOOP condition must be boolean") c s
        | None => s end)).
    + apply (guards_then _ (λ s, fold_left (λ s st, analyze_stmt st s) b (enter_loop s)) leave_loop);
        [| apply step_set_top].
      apply (guards_after _ enter_loop (λ s, fold_left (λ s st, analyze_stmt st s) b s)); [apply step_set_top | by apply guards_block].
    + destruct c as [c |]; [apply guards_want, analyze_expr_guards | apply guards_nil; by intros s].
  - apply (guards_typed _ _ x (λ t s, let '(u, s) := analyze_expr y s in
      in_scope (for_scope (scopes _) n) (λ s, fold_left (λ s st, analyze_stmt st s) b s) _));
      [apply analyze_expr_guards |]. intros t.
    apply (guards_typed _ _ y (λ u s, in_scope _ _ _)); [apply analyze_expr_guards |]. intros u.
    apply (guards_after _ (err_if (negb (bucc_type_is_numeric t) || negb (bucc_type_is_numeric u))
        (lit "FOR bounds must be numeric"))
      (λ s, let s := match z with Some x => analyze_want (λ t, negb (bucc_type_is_numeric t))
          (lit "FOR STEP must be numeric") x s | None => s end in
        in_scope (for_scope (scopes s) n) (λ s, fold_left (λ s st, analyze_stmt st s) b s) s));
      [apply step_err_if |].
    apply (guards_comp _ _ (λ s, match z with Some x => analyze_want (λ t, negb (bucc_type_is_numeric t))
          (lit "FOR STEP must be numeric") x s | None => s end)
      (λ s, in_scope (for_scope (scopes s) n) (λ s, fold_left (λ s st, analyze_stmt st s) b s) s)).
    + destruct z; [apply guards_want, analyze_expr_guards | apply guards_nil; by intros s].
    + apply (guards_in_scope _ (λ s, for_scope (scopes s) n)). by apply guards_block.
  - apply (guards_comp _ _
      (λ s, set_in_try false (fold_left (λ s st, analyze_stmt st s) b (set_in_try true s)))
      (λ s, in_scope (catch_scope (scopes s) ev) (λ s, fold_left (λ s st, analyze_stmt st s) cb s) s)).
    + apply (guards_then _ (λ s, fold_left (λ s st, analyze_stmt st s) b (set_in_try true s)));
        [| apply step_set_top].
      apply (guards_after _ (set_in_try true) (λ s, fold_left (λ s st, analyze_stmt st s) b s)); [apply step_set_top | by apply guards_block].
    + apply (guards_in_scope _ (λ s, catch_scope (scopes s) ev)). by apply guards_block.
  - split; [apply step_return |]. intros s. cbn [analyze_kind]. unfold analyze_return.
    destruct x as [x |]; [| by constructor]. revert s.
    apply (guards_typed_step _ x (λ t s, match in_function s, current_return_type s with
      | true, Some want => err_if _ _ s | _, _ => s end)); [apply analyze_expr_guards |].
    intros t s. destruct (in_function s), (current_return_type s); try done. apply step_err_if.
  - apply guards_nil. intros s. apply step_err_if.
  - apply guards_nil. by intros s.
  - apply analyze_expr_guards.
  - apply (guards_comp [lit "door.chain"] _ (bucc_semantic_check_capability (lit "door.chain"))
      (analyze_opt a));
      [apply guards_check | apply guards_opt].
  - apply (guards_then _ (analyze_want (λ t, is_not t TYPE_INTEGER) (lit "ON selector must be integer") x)
      (λ s, fold_left (λ s t, analyze_target t s) l s)); [apply guards_want, analyze_expr_guards |].
    apply (step_fold (λ s t, analyze_target t s)). apply Forall_forall. intros t _. apply step_target.
  - apply guards_nil. by intros s.
Qed.

Lemma analyze_procedure_guards p :
  guards (concat (map stmt_needs (decl_body p))) (analyze_procedure p).
Proof.
  split; [intros s; apply analyze_procedure_step |]. intros s Hs.
  revert Hs. unfold analyze_procedure. cbv zeta.
  match goal with |- context [fold_left _ (decl_params p) ?s] => set (s1 := s) end.
  set (s2 := fold_left _ (decl_params p) s1). intros Hs.
  assert (Hb : has_errors (analyze_block (decl_body p) s2) = false)
    by (destruct (decl_is_function p); exact Hs).
  apply guards_block in Hb; [| apply Forall_forall; intros st _; apply analyze_stmt_guards].
  assert (Hc : analysis_step s1 s2).
  { apply (step_fold (λ s q, define (Some (param_name q)) SYM_PARAM
      (bucc_type_from_ast (param_type q)) s)). apply Forall_forall. intros q _. apply step_define. }
  by rewrite (step_caps _ _ Hc) in Hb.
Qed.

Lemma declare_capability_in cap s c d :
  (c, d) ∈ capabilities (bucc_semantic_declare_capability cap s) →
  c = cap ∨ ∃ d', (c, d') ∈ capabilities s.
Proof.
  unfold bucc_semantic_declare_capability.
  set (declare := fix declare l := match l with [] => None | _ => _ end).
  assert (H : ∀ l l', declare l = Some l' → (c, d) ∈ l' → ∃ d', (c, d') ∈ l).
  { induction l as [|[n e] l IH]; intros l' E Hin; [done |]. cbn in E.
    destruct (same_name n cap).
    - injection E as <-. apply elem_of_cons in Hin as [[= -> ->] | Hin];
        [exists e; by left | exists d; by right].
    - destruct (declare l) as [l1 |] eqn:E1; [| done]. injection E as <-.
      apply elem_of_cons in Hin as [[= -> ->] | Hin]; [exists e; by left |].
      destruct (IH l1 eq_refl Hin) as [d' Hd]. exists d'. by right. }
  destruct (declare (capabilities s)) as [l |] eqn:E; cbn [capabilities set_capabilities].
  - intros Hin. right. eauto.
  - intros [[= -> _] | Hin]%elem_of_cons; [by left | right; eauto].
Qed.

Lemma declare_meta_in ms c d : ∀ s,
  (c, d) ∈ capabilities (fold_left (λ s m, declare_meta m s) ms s) →
  MetaCapability c ∈ ms ∨ ∃ d', (c, d') ∈ capabilities s.
Proof.
  induction ms as [|m ms IH]; intros s H; cbn [fold_left] in H; [eauto |].
  apply IH in H as [H | [d' H]]; [left; by right |].
  destruct m as [| | | | cap | |]; cbn [declare_meta] in H; eauto.
  apply declare_capability_in in H as [-> | H]; [left; by left | eauto].
Qed.

Lemma declare_globals_caps ds : ∀ s,
  capabilities (fold_left (λ s d, declare_global d s) ds s) = capabilities s.
Proof.
  induction ds as [|d ds IH]; intros s; cbn [fold_left]; [done |]. rewrite IH.
  unfold declare_global. cbn. apply (step_define (var_name d)).
Qed.

Lemma declare_procedures_caps ps : ∀ s,
  capabilities (fold_left (λ s p, declare_procedure p s) ps s) = capabilities s.
Proof.
  induction ps as [|p ps IH]; intros s; cbn [fold_left]; [done |]. rewrite IH.
  unfold declare_procedure. destruct (lookup_local _ _); [done |].
  destruct (decl_is_function p); cbn; unfold set_top; cbn; by destruct (scopes s).
Qed.

Lemma module_needs_declared m cap :
  fst (bucc_semantic_analyze m (bucc_semantic_new [])) = true → cap ∈ module_needs m →
  ∃ c, MetaCapability c ∈ meta m ∧ same_name c cap = true.
Proof.
  unfold bucc_semantic_analyze. cbn [fst]. intros Hs%negb_true_iff Hin.
  pose proof (guards_fold (λ s p, analyze_procedure p s) (λ p, concat (map stmt_needs (decl_body p)))
    (proc_nodes m)) as [_ H].
  { apply Forall_forall. intros p _. apply analyze_procedure_guards. }
  specialize (H _ Hs).
  destruct (proj1 (Forall_forall _ _) H cap Hin) as (n & Hn & Hname).
  rewrite (step_caps _ _ (step_err_if _ _ _)), declare_procedures_caps, declare_globals_caps in Hn.
  exists n. split; [| exact Hname]. apply declare_meta_in in Hn as [Hn | [d Hn]]; [exact Hn |].
  by apply not_elem_of_nil in Hn.
Qed.

(** C6. An accepted module declares what it uses. When the analysis of a module
    reports no error, every capability that a host call needs, anywhere in the
    statements and expressions of its procedures except in the bounds of a range
    of a CASE, and the one that CHAIN needs, is the name of a CAPABILITY
    declaration of the module, in some case of letters. *)
Theorem capabilities_enforced m cap :
  fst (bucc_semantic_analyze m (bucc_semantic_new [])) = true → cap ∈ module_needs m →
  ∃ c, MetaCapability c ∈ meta m ∧ same_name c cap = true.
Proof. apply module_needs_declared. Qed.

(** [CAPABILITY TERM.IO], and Main calls TERM.CLS. *)
Definition screen_module : module_node :=
  MkNode [MetaCapability (lit "TERM.IO")] []
    [MkDecl false (lit "Main") [] None
      [Stmt 1 1 (SExpr (NCall (NQualified (lit "Term") (lit "Cls")) []))]].

Lemma capabilities_enforced_witness :
  fst (bucc_semantic_analyze screen_module (bucc_semantic_new [])) = true ∧
  lit "term.io" ∈ module_needs screen_module ∧
  ∃ c, MetaCapability c ∈ meta screen_module ∧ same_name c (lit "term.io") = true.
Proof.
  assert (H1 : fst (bucc_semantic_analyze screen_module (bucc_semantic_new [])) = true)
    by (vm_compute; reflexivity).
  assert (H2 : lit "term.io" ∈ module_needs screen_module) by (vm_compute; left).
  split; [exact H1 |]. split; [exact H2 |].
  exact (capabilities_enforced screen_module (lit "term.io") H1 H2).
Defined.
