(* ===== verification/Emit.v ===== *)
(** The code generator of the Buccaneer compiler (src/buccaneer/emit.c): it walks
    the tree of [Ast] and looks names up in the scopes that the analysis of
    [Semantic] left. The emitter's linked lists are lists, newest entry first;
    allocation succeeds. *)

From S2P Require Import Prelude CLib Float Value Vm Ast Semantic.

#[local] Open Scope Z_scope.

(** ** The emitter *)

(** src/buccaneer/include/bucc_emit.h:113-122 (bucc_proc_entry) *)
Record proc_entry : Type := MkEntry {
  pe_name : cstr; pe_id : Z; pe_offset : Z; pe_len : Z; pe_params : Z; pe_locals : Z;
  pe_function : bool
}.

(** src/buccaneer/include/bucc_emit.h:149-186 (bucc_emitter) *)
Record emitter : Type := MkEmitter {
  code : list Z;
  consts : list value;
  strs : list cstr;
  procs : list proc_entry;
  imps : list (cstr * cstr);
  current_local_count : Z;
  next_label : Z;
  labels : list (Z * Z);
  patches : list (Z * Z);
  loop_start_label : Z;
  loop_end_label : Z;
  debug_lines : list (Z * Z * Z);
  last_debug_line : Z;
  emit_debug_info : bool;
  diags : list cstr
}.

(** src/buccaneer/emit.c:25-43 (bucc_emitter_new) *)
Definition bucc_emitter_new (errors : list cstr) : emitter :=
  MkEmitter [] [] [] [] [] 0 0 [] [] 0 0 [] 0 false errors.

Definition set_code (x : list Z) (e : emitter) : emitter :=
  MkEmitter x (consts e) (strs e) (procs e) (imps e) (current_local_count e) (next_label e)
    (labels e) (patches e) (loop_start_label e) (loop_end_label e) (debug_lines e)
    (last_debug_line e) (emit_debug_info e) (diags e).
Definition set_consts (x : list value) (e : emitter) : emitter :=
  MkEmitter (code e) x (strs e) (procs e) (imps e) (current_local_count e) (next_label e)
    (labels e) (patches e) (loop_start_label e) (loop_end_label e) (debug_lines e)
    (last_debug_line e) (emit_debug_info e) (diags e).
Definition set_strs (x : list cstr) (e : emitter) : emitter :=
  MkEmitter (code e) (consts e) x (procs e) (imps e) (current_local_count e) (next_label e)
    (labels e) (patches e) (loop_start_label e) (loop_end_label e) (debug_lines e)
    (last_debug_line e) (emit_debug_info e) (diags e).
Definition set_procs (x : list proc_entry) (e : emitter) : emitter :=
  MkEmitter (code e) (consts e) (strs e) x (imps e) (current_local_count e) (next_label e)
    (labels e) (patches e) (loop_start_label e) (loop_end_label e) (debug_lines e)
    (last_debug_line e) (emit_debug_info e) (diags e).
Definition set_imps (x : list (cstr * cstr)) (e : emitter) : emitter :=
  MkEmitter (code e) (consts e) (strs e) (procs e) x (current_local_count e) (next_label e)
    (labels e) (patches e) (loop_start_label e) (loop_end_label e) (debug_lines e)
    (last_debug_line e) (emit_debug_info e) (diags e).
Definition set_local_count (x : Z) (e : emitter) : emitter :=
  MkEmitter (code e) (consts e) (strs e) (procs e) (imps e) x (next_label e)
    (labels e) (patches e) (loop_start_label e) (loop_end_label e) (debug_lines e)
    (last_debug_line e) (emit_debug_info e) (diags e).
Definition set_labels (n : Z) (l : list (Z * Z)) (e : emitter) : emitter :=
  MkEmitter (code e) (consts e) (strs e) (procs e) (imps e) (current_local_count e) n
    l (patches e) (loop_start_label e) (loop_end_label e) (debug_lines e)
    (last_debug_line e) (emit_debug_info e) (diags e).
Definition set_patches (x : list (Z * Z)) (e : emitter) : emitter :=
  MkEmitter (code e) (consts e) (strs e) (procs e) (imps e) (current_local_count e) (next_label e)
    (labels e) x (loop_start_label e) (loop_end_label e) (debug_lines e)
    (last_debug_line e) (emit_debug_info e) (diags e).
Definition set_loop (s t : Z) (e : emitter) : emitter :=
  MkEmitter (code e) (consts e) (strs e) (procs e) (imps e) (current_local_count e) (next_label e)
    (labels e) (patches e) s t (debug_lines e)
    (last_debug_line e) (emit_debug_info e) (diags e).
Definition set_debug (x : list (Z * Z * Z)) (n : Z) (on : bool) (e : emitter) : emitter :=
  MkEmitter (code e) (consts e) (strs e) (procs e) (imps e) (current_local_count e) (next_label e)
    (labels e) (patches e) (loop_start_label e) (loop_end_label e) x n on (diags e).
Definition set_diags (x : list cstr) (e : emitter) : emitter :=
  MkEmitter (code e) (consts e) (strs e) (procs e) (imps e) (current_local_count e) (next_label e)
    (labels e) (patches e) (loop_start_label e) (loop_end_label e) (debug_lines e)
    (last_debug_line e) (emit_debug_info e) x.

(** ** Bytes *)

(** src/buccaneer/include/bucc_emit.h:22-99 (bucc_opcode) *)
Definition opcode_byte (op : opcode) : Z :=
  match op with
  | OP_NOP => 0 | OP_HALT => 1 | OP_PUSH_NULL => 2 | OP_PUSH_TRUE => 3 | OP_PUSH_FALSE => 4
  | OP_PUSH_I64 => 5 | OP_PUSH_F64 => 6 | OP_PUSH_STR => 7 | OP_PUSH_DATE => 8
  | OP_PUSH_DATETIME => 9 | OP_POP => 10 | OP_DUP => 11 | OP_SWAP => 12
  | OP_LOAD_GLOBAL => 16 | OP_STORE_GLOBAL => 17 | OP_LOAD_LOCAL => 18 | OP_STORE_LOCAL => 19
  | OP_LOAD_ARG => 20 | OP_ADD => 32 | OP_SUB => 33 | OP_MUL => 34 | OP_DIV => 35
  | OP_MOD => 36 | OP_NEG => 37 | OP_EQ => 38 | OP_NE => 39 | OP_LT => 40 | OP_LE => 41
  | OP_GT => 42 | OP_GE => 43 | OP_AND => 44 | OP_OR => 45 | OP_NOT => 46 | OP_CONCAT => 47
  | OP_JMP => 48 | OP_JMP_FALSE => 49 | OP_JMP_TRUE => 50 | OP_CALL => 51
  | OP_CALL_HOST => 52 | OP_RETURN => 53 | OP_RETURN_VALUE => 54 | OP_CHAIN => 55
  | OP_YIELD => 56 | OP_ARRAY_NEW => 64 | OP_ARRAY_GET => 65 | OP_ARRAY_SET => 66
  | OP_ARRAY_PUSH => 67 | OP_ARRAY_POP => 68 | OP_MAP_NEW => 69 | OP_MAP_GET => 70
  | OP_MAP_SET => 71 | OP_MAP_HAS => 72 | OP_MAP_KEYS => 73 | OP_DISPATCH_CALL => 80
  | OP_RANGE_TEST => 81 | OP_TRY_BEGIN => 96 | OP_TRY_END => 97 | OP_THROW => 98
  | OP_RE_THROW => 99 | OP_CAST_I64 => 112 | OP_CAST_F64 => 113 | OP_CAST_STRING => 114
  | OP_CAST_BOOL => 115 | OP_CAST_DATE => 116 | OP_CAST_DATETIME => 117 | OP_TYPEOF => 118
  | OP_DEBUG_LINE => 126 | OP_PROF_TICK => 127
  end.

Definition append (bs : list Z) (e : emitter) : emitter := set_code (code e ++ bs) e.

(** src/buccaneer/emit.c:126-129 (bucc_emit_byte) *)
Definition bucc_emit_byte (b : Z) (e : emitter) : emitter := append [u8 b] e.

Definition u16_bytes (v : Z) : list Z := [Z.land (Z.shiftr v 8) 0xFF; Z.land v 0xFF].

Definition u32_bytes (v : Z) : list Z :=
  [Z.land (Z.shiftr v 24) 0xFF; Z.land (Z.shiftr v 16) 0xFF; Z.land (Z.shiftr v 8) 0xFF;
   Z.land v 0xFF].

(** src/buccaneer/emit.c:131-135 (bucc_emit_u16) *)
Definition bucc_emit_u16 (v : Z) (e : emitter) : emitter := append (u16_bytes (u16 v)) e.

(** src/buccaneer/emit.c:137-143 (bucc_emit_u32) *)
Definition bucc_emit_u32 (v : Z) (e : emitter) : emitter := append (u32_bytes (u32 v)) e.

(** src/buccaneer/emit.c:145-147 (bucc_emit_i32) *)
Definition bucc_emit_i32 (v : Z) (e : emitter) : emitter := bucc_emit_u32 (u32 v) e.

(** src/buccaneer/emit.c:149-151 (bucc_emit_op) *)
Definition bucc_emit_op (op : opcode) (e : emitter) : emitter := bucc_emit_byte (opcode_byte op) e.

(** src/buccaneer/emit.c:153-156 (bucc_emit_op_u8) *)
Definition bucc_emit_op_u8 (op : opcode) (arg : Z) (e : emitter) : emitter :=
  bucc_emit_byte arg (bucc_emit_byte (opcode_byte op) e).

(** src/buccaneer/emit.c:158-161 (bucc_emit_op_u16) *)
Definition bucc_emit_op_u16 (op : opcode) (arg : Z) (e : emitter) : emitter :=
  bucc_emit_u16 arg (bucc_emit_byte (opcode_byte op) e).

(** ** Pools *)

(** The index of the newest entry that satisfies [p]: entries are numbered in
    the order they were added. *)
Fixpoint pool_find {A} (p : A → bool) (l : list A) : option Z :=
  match l with
  | [] => None
  | x :: l => if p x then Some (zlen l) else pool_find p l
  end.

(** The index of an entry like [x], added when there is none. *)
Definition pool_add {A} (p : A → bool) (x : A) (l : list A) : Z * list A :=
  match pool_find p l with Some i => (i, l) | None => (zlen l, x :: l) end.

(** src/buccaneer/emit.c:168-186 (bucc_emit_string) *)
Definition bucc_emit_string (str : cstr) (e : emitter) : Z * emitter :=
  let '(i, l) := pool_add (λ s, bool_decide (s = str)) str (strs e) in (i, set_strs l e).

(** src/buccaneer/emit.c:188-204 (bucc_emit_constant_i64) *)
Definition bucc_emit_constant_i64 (val : Z) (e : emitter) : Z * emitter :=
  let same c := match c with VI64 z => z =? val | _ => false end in
  let '(i, l) := pool_add same (VI64 val) (consts e) in (i, set_consts l e).

(** src/buccaneer/emit.c:206-222 (bucc_emit_constant_f64) *)
Definition bucc_emit_constant_f64 (val : f64) (e : emitter) : Z * emitter :=
  let same c := match c with VF64 f => feqb f val | _ => false end in
  let '(i, l) := pool_add same (VF64 val) (consts e) in (i, set_consts l e).

(** src/buccaneer/emit.c:275-292 (bucc_emit_host_import) *)
Definition bucc_emit_host_import (ns fn : cstr) (e : emitter) : Z * emitter :=
  let same i := same_name (fst i) ns && same_name (snd i) fn in
  let '(i, l) := pool_add same (ns, fn) (imps e) in (i, set_imps l e).

(** ** Labels *)

(** src/buccaneer/emit.c:224-234 (bucc_emit_label) *)
Definition bucc_emit_label (e : emitter) : Z * emitter :=
  (next_label e, set_labels (u32 (next_label e + 1)) (labels e) e).

(** src/buccaneer/emit.c:236-245 (bucc_emit_label_here) *)
Definition bucc_emit_label_here (label : Z) (e : emitter) : emitter :=
  set_labels (next_label e) ((label, u32 (zlen (code e))) :: labels e) e.

(** src/buccaneer/emit.c:247-259 (bucc_emit_jump) *)
Definition bucc_emit_jump (op : opcode) (label : Z) (e : emitter) : emitter :=
  let e := bucc_emit_byte (opcode_byte op) e in
  bucc_emit_i32 0 (set_patches ((u32 (zlen (code e)), label) :: patches e) e).

(** The newest offset of a label. *)
Fixpoint find_label (l : list (Z * Z)) (label : Z) : option Z :=
  match l with
  | [] => None
  | (i, off) :: l => if i =? label then Some off else find_label l label
  end.

(** Four bytes of the code overwritten. *)
Definition patch_code (c : list Z) (off : Z) (bs : list Z) : list Z :=
  takeZ off c ++ bs ++ dropZ (off + zlen bs) c.

(** src/buccaneer/emit.c:261-273 (bucc_emit_resolve_patches) *)
Definition bucc_emit_resolve_patches (e : emitter) : emitter :=
  set_code (foldl (λ c '(off, label),
    match find_label (labels e) label with
    | Some target => patch_code c off (u32_bytes (u32 (s32 target - s32 (u32 (off + 4)))))
    | None => c
    end) (code e) (patches e)) e.

(** src/buccaneer/emit.c:1137-1161 (bucc_emit_debug_line) *)
Definition bucc_emit_debug_line (line col : Z) (e : emitter) : emitter :=
  if negb (emit_debug_info e) then e
  else if line =? last_debug_line e then e
  else
    bucc_emit_op_u16 OP_DEBUG_LINE line
      (set_debug (debug_lines e ++ [(u32 (zlen (code e)), line, col)]) line true e).

(** src/buccaneer/emit.c:1163-1169 (bucc_emitter_set_debug) *)
Definition bucc_emitter_set_debug (enable : bool) (e : emitter) : emitter :=
  set_debug (debug_lines e) (last_debug_line e) enable e.

(** ** Expressions *)

Section codegen.
(** The scopes a name is looked up in, innermost first. *)
Context (scopes : list scope).

(** src/buccaneer/emit.c:298-300 (lookup_symbol) *)
Definition lookup_symbol (name : cstr) : option symbol := bucc_scope_lookup scopes name.

(** An instruction with the index of a pool entry. *)
Definition emit_pooled (op : opcode) (r : Z * emitter) : emitter :=
  let '(i, e) := r in bucc_emit_op_u16 op i e.

(** A constant that is not looked for in the pool. *)
Definition add_constant (v : value) (e : emitter) : Z * emitter :=
  (zlen (consts e), set_consts (v :: consts e) e).

(** src/buccaneer/emit.c:352-403 (emit_expr) *)
Definition emit_literal (v : value) (e : emitter) : emitter :=
  match v with
  | VNull => bucc_emit_op OP_PUSH_NULL e
  | VBool b => bucc_emit_op (if b then OP_PUSH_TRUE else OP_PUSH_FALSE) e
  | VI64 z => emit_pooled OP_PUSH_I64 (bucc_emit_constant_i64 z e)
  | VF64 f => emit_pooled OP_PUSH_F64 (bucc_emit_constant_f64 f e)
  | VString s => emit_pooled OP_PUSH_STR (bucc_emit_string (c_string s) e)
  | VDate _ => emit_pooled OP_PUSH_DATE (add_constant v e)
  | VDatetime _ => emit_pooled OP_PUSH_DATETIME (add_constant v e)
  | _ => bucc_emit_op OP_PUSH_NULL e
  end.

(** src/buccaneer/emit.c:405-426 (emit_expr) *)
Definition emit_ident (name : cstr) (e : emitter) : emitter :=
  match lookup_symbol name with
  | Some sym =>
      match sym_kind sym with
      | SYM_GLOBAL => bucc_emit_op_u16 OP_LOAD_GLOBAL (slot sym) e
      | SYM_LOCAL => bucc_emit_op_u16 OP_LOAD_LOCAL (slot sym) e
      | SYM_PARAM => bucc_emit_op_u16 OP_LOAD_ARG (slot sym) e
      | _ => bucc_emit_op OP_PUSH_NULL e
      end
  | None => bucc_emit_op OP_PUSH_NULL e
  end.

(** src/buccaneer/emit.c:428-434 (emit_expr) *)
Definition emit_host_call (ns name : cstr) (argc : Z) (e : emitter) : emitter :=
  bucc_emit_byte argc (emit_pooled OP_CALL_HOST (bucc_emit_host_import ns name e)).

(** The instruction of a call, after the arguments.
    src/buccaneer/emit.c:441-459 (emit_expr) *)
Definition emit_call (callee : expr) (emit_callee : emitter → emitter) (argc : Z) (e : emitter)
  : emitter :=
  match callee with
  | NQualified ns name => emit_host_call ns name argc e
  | NIdent name =>
      match lookup_symbol name with
      | Some sym =>
          match sym_kind sym with
          | SYM_PROCEDURE | SYM_FUNCTION =>
              bucc_emit_byte argc (bucc_emit_op_u16 OP_CALL (slot sym) e)
          | _ => bucc_emit_op OP_PUSH_NULL e
          end
      | None => bucc_emit_op OP_PUSH_NULL e
      end
  | _ => emit_callee e
  end.

(** src/buccaneer/emit.c:463-470 (emit_expr) *)
Definition unary_opcode (op : unary_op) : opcode :=
  match op with UNARY_NEG => OP_NEG | UNARY_NOT => OP_NOT end.

(** src/buccaneer/emit.c:476-491 (emit_expr) *)
Definition binary_opcode (op : binary_op) : opcode :=
  match op with
  | BINARY_ADD => OP_ADD | BINARY_SUB => OP_SUB | BINARY_MUL => OP_MUL | BINARY_DIV => OP_DIV
  | BINARY_MOD => OP_MOD | BINARY_EQ => OP_EQ | BINARY_NE => OP_NE | BINARY_LT => OP_LT
  | BINARY_LE => OP_LE | BINARY_GT => OP_GT | BINARY_GE => OP_GE | BINARY_AND => OP_AND
  | BINARY_OR => OP_OR | BINARY_CONCAT => OP_CONCAT
  end.

(** src/buccaneer/emit.c:349-536 (emit_expr) *)
Fixpoint emit_expr (x : expr) (e : emitter) : emitter :=
  match x with
  | NLiteral v => emit_literal v e
  | NIdent name => emit_ident name e
  | NQualified ns name => emit_host_call ns name 0 e
  | NCall callee args =>
      emit_call callee (emit_expr callee) (zlen args) (fold_left (λ e a, emit_expr a e) args e)
  | NUnary op a => bucc_emit_op (unary_opcode op) (emit_expr a e)
  | NBinary op a b => bucc_emit_op (binary_opcode op) (emit_expr b (emit_expr a e))
  | NIndex object index => bucc_emit_op OP_ARRAY_GET (emit_expr index (emit_expr object e))
  | NMember object member =>
      bucc_emit_op OP_MAP_GET (emit_pooled OP_PUSH_STR (bucc_emit_string member (emit_expr object e)))
  | NArrayLit elements =>
      bucc_emit_op_u16 OP_ARRAY_NEW (zlen elements) (fold_left (λ e a, emit_expr a e) elements e)
  | NMapLit pairs =>
      bucc_emit_op_u16 OP_MAP_NEW (zlen pairs)
        (fold_left (λ e p,
          emit_expr (snd p) (emit_pooled OP_PUSH_STR (bucc_emit_string (fst p) e))) pairs e)
  | NOther => bucc_emit_op OP_PUSH_NULL e
  | NNull => e
  end.

(** The store of the value on the stack; nothing is emitted for a name that is
    not a variable.
    src/buccaneer/emit.c:538-578 (emit_lvalue_store) *)
Definition emit_lvalue_store (target : expr) (e : emitter) : emitter :=
  match target with
  | NIdent name =>
      match lookup_symbol name with
      | Some sym =>
          match sym_kind sym with
          | SYM_GLOBAL => bucc_emit_op_u16 OP_STORE_GLOBAL (slot sym) e
          | SYM_LOCAL | SYM_PARAM => bucc_emit_op_u16 OP_STORE_LOCAL (slot sym) e
          | _ => e
          end
      | None => e
      end
  | NIndex object index => bucc_emit_op OP_ARRAY_SET (emit_expr index (emit_expr object e))
  | NMember object member =>
      bucc_emit_op OP_MAP_SET (emit_pooled OP_PUSH_STR (bucc_emit_string member (emit_expr object e)))
  | _ => e
  end.

(** ** Statements *)

Definition emit_error (msg : cstr) (e : emitter) : emitter := set_diags (diags e ++ [msg]) e.

(** [ON CALL target '%s' is not a procedure] *)
Definition not_a_procedure (name : cstr) : cstr :=
  lit "ON CALL target '" ++ c_string name ++ lit "' is not a procedure".

(** The procedure ids of the targets, or the error reported. *)
Fixpoint target_ids (targets : list expr) : list Z + cstr :=
  match targets with
  | [] => inl []
  | NIdent name :: targets =>
      match lookup_symbol name with
      | Some sym =>
          match sym_kind sym with
          | SYM_PROCEDURE | SYM_FUNCTION =>
              match target_ids targets with
              | inl ids => inl (slot sym :: ids)
              | inr m => inr m
              end
          | _ => inr (not_a_procedure name)
          end
      | None => inr (not_a_procedure name)
      end
  | _ :: _ => inr (lit "ON CALL target must be a procedure name")
  end.

(** [ids[i] == base + i] for every [i] *)
Fixpoint contiguous (base : Z) (ids : list Z) : bool :=
  match ids with
  | [] => true
  | i :: ids => (i =? base) && contiguous (base + 1) ids
  end.

(** The base id and the count, or the error reported.
    src/buccaneer/emit.c:302-347 (resolve_on_call_base) *)
Definition resolve_on_call_base (targets : list expr) : (Z * Z) + cstr :=
  let count := zlen targets in
  if (count =? 0) || (255 <? count) then inr (lit "ON CALL requires 1 to 255 targets")
  else
    match target_ids targets with
    | inr m => inr m
    | inl ids =>
        let base := default 0 (head ids) in
        if negb (contiguous base ids)
        then inr (lit "ON CALL targets must be contiguous procedures in declaration order")
        else if 65535 <? base
        then inr (lit "ON CALL target base is out of bytecode range")
        else inl (u16 base, u8 count)
    end.

(** A store to the next local slot, which it uses up. *)
Definition store_next_local (e : emitter) : emitter :=
  let n := current_local_count e in
  set_local_count (u32 (n + 1)) (bucc_emit_op_u16 OP_STORE_LOCAL n e).

Definition emit_exprs (l : list expr) (e : emitter) : emitter :=
  fold_left (λ e a, emit_expr a e) l e.

(** The tests of a case's values and ranges, jumping to its body. *)
Definition emit_case_values (values : list expr) (body : Z) (e : emitter) : emitter :=
  fold_left (λ e v,
    bucc_emit_jump OP_JMP_TRUE body
      (bucc_emit_op OP_EQ (emit_expr v (bucc_emit_op OP_DUP e)))) values e.

Definition emit_case_ranges (ranges : list (expr * expr)) (body : Z) (e : emitter) : emitter :=
  fold_left (λ e r,
    bucc_emit_jump OP_JMP_TRUE body
      (bucc_emit_byte 0 (bucc_emit_op_u16 OP_RANGE_TEST 0
        (emit_expr (snd r) (emit_expr (fst r) (bucc_emit_op OP_DUP e)))))) ranges e.

(** The code between a loop's labels, with the loop's labels in force. *)
Definition with_loop (start end_ : Z) (body : emitter → emitter) (e : emitter) : emitter :=
  let s := loop_start_label e in
  let t := loop_end_label e in
  set_loop s t (body (set_loop start end_ e)).

(** src/buccaneer/emit.c:580-729 (emit_stmt) *)
Fixpoint emit_stmt (s : stmt) (e : emitter) : emitter :=
  match s with
  | Stmt line col k =>
      let e := if emit_debug_info e && (0 <? line) then bucc_emit_debug_line line col e else e in
      emit_kind k e
  end

(** src/buccaneer/emit.c:587-862 (emit_stmt) *)
with emit_kind (k : stmt_kind) (e : emitter) : emitter :=
  let emit_block b e := fold_left (λ e s, emit_stmt s e) b e in
  match k with
  | SVarDecl d =>
      store_next_local
        (match initializer d with Some x => emit_expr x e | None => bucc_emit_op OP_PUSH_NULL e end)
  | SAssign target v => emit_lvalue_store target (emit_expr v e)
  | SExpr x => bucc_emit_op OP_POP (emit_expr x e)
  | SIf c then_block clauses else_block =>
      let '(else_label, e) := bucc_emit_label e in
      let '(end_label, e) := bucc_emit_label e in
      let e := bucc_emit_jump OP_JMP_FALSE else_label (emit_expr c e) in
      let e := bucc_emit_jump OP_JMP end_label (emit_block then_block e) in
      let e := bucc_emit_label_here else_label e in
      let e := fold_left (λ e clause,
        let '(next_label, e) := bucc_emit_label e in
        let e := bucc_emit_jump OP_JMP_FALSE next_label (emit_expr (fst clause) e) in
        let e := bucc_emit_jump OP_JMP end_label
          (fold_left (λ e s, emit_stmt s e) (snd clause) e) in
        bucc_emit_label_here next_label e) clauses e in
      let e := match else_block with Some b => emit_block b e | None => e end in
      bucc_emit_label_here end_label e
  | SSelect x cases else_case =>
      let '(end_label, e) := bucc_emit_label e in
      let e := emit_expr x e in
      let e := fold_left (λ e c,
        match c with
        | Case values lows highs body =>
            let '(next_case, e) := bucc_emit_label e in
            let '(case_body, e) := bucc_emit_label e in
            let e := emit_case_values values case_body e in
            let e := emit_case_ranges (zip lows highs) case_body e in
            let e := bucc_emit_jump OP_JMP next_case e in
            let e := bucc_emit_op OP_POP (bucc_emit_label_here case_body e) in
            let e := bucc_emit_jump OP_JMP end_label
              (fold_left (λ e s, emit_stmt s e) body e) in
            bucc_emit_label_here next_case e
        end) cases e in
      let e := bucc_emit_op OP_POP e in
      let e := match else_case with Some b => emit_block b e | None => e end in
      bucc_emit_label_here end_label e
  | SWhile c body =>
      let '(start_label, e) := bucc_emit_label e in
      let '(end_label, e) := bucc_emit_label e in
      with_loop start_label end_label (λ e,
        let e := emit_expr c (bucc_emit_label_here start_label e) in
        let e := emit_block body (bucc_emit_jump OP_JMP_FALSE end_label e) in
        bucc_emit_label_here end_label (bucc_emit_jump OP_JMP start_label e)) e
  | SDoLoop body c kind =>
      let '(start_label, e) := bucc_emit_label e in
      let '(end_label, e) := bucc_emit_label e in
      with_loop start_label end_label (λ e,
        let e := emit_block body (bucc_emit_label_here start_label e) in
        let e := match c with
          | Some x =>
              bucc_emit_jump (match kind with LOOP_UNTIL => OP_JMP_FALSE | _ => OP_JMP_TRUE end)
                start_label (emit_expr x e)
          | None => bucc_emit_jump OP_JMP start_label e
          end in
        bucc_emit_label_here end_label e) e
  | SFor _ start_expr end_expr step_expr body =>
      let '(start_label, e) := bucc_emit_label e in
      let '(end_label, e) := bucc_emit_label e in
      with_loop start_label end_label (λ e,
        let e := emit_expr start_expr e in
        let var_slot := u16 (current_local_count e) in
        let e := bucc_emit_label_here start_label (store_next_local e) in
        let e := emit_expr end_expr (bucc_emit_op_u16 OP_LOAD_LOCAL var_slot e) in
        let e := bucc_emit_jump OP_JMP_FALSE end_label (bucc_emit_op OP_LE e) in
        let e := bucc_emit_op_u16 OP_LOAD_LOCAL var_slot (emit_block body e) in
        let e := match step_expr with
          | Some x => emit_expr x e
          | None => emit_pooled OP_PUSH_I64 (bucc_emit_constant_i64 1 e)
          end in
        let e := bucc_emit_op_u16 OP_STORE_LOCAL var_slot (bucc_emit_op OP_ADD e) in
        bucc_emit_label_here end_label (bucc_emit_jump OP_JMP start_label e)) e
  | STryCatch try_block error_var catch_block =>
      let '(catch_label, e) := bucc_emit_label e in
      let '(end_label, e) := bucc_emit_label e in
      let e := emit_block try_block (bucc_emit_jump OP_TRY_BEGIN catch_label e) in
      let e := bucc_emit_jump OP_JMP end_label (bucc_emit_op OP_TRY_END e) in
      let e := bucc_emit_label_here catch_label e in
      let e := match error_var with
        | Some _ => store_next_local e
        | None => bucc_emit_op OP_POP e
        end in
      bucc_emit_label_here end_label (emit_block catch_block e)
  | SReturn (Some x) => bucc_emit_op OP_RETURN_VALUE (emit_expr x e)
  | SReturn None => bucc_emit_op OP_RETURN e
  | SExit _ => bucc_emit_jump OP_JMP (loop_end_label e) e
  | SHalt => bucc_emit_op OP_HALT e
  | SThrow x => bucc_emit_op OP_THROW (emit_expr x e)
  | SChain target args =>
      let '(i, e) := bucc_emit_string target e in
      match args with
      | Some x => bucc_emit_byte 1 (bucc_emit_op_u16 OP_CHAIN i (emit_expr x e))
      | None => bucc_emit_byte 0 (bucc_emit_op_u16 OP_CHAIN i e)
      end
  | SOnCall selector targets =>
      match resolve_on_call_base targets with
      | inl (base, count) =>
          bucc_emit_byte count (bucc_emit_op_u16 OP_DISPATCH_CALL base (emit_expr selector e))
      | inr msg => emit_error msg e
      end
  | SOther => e
  end.

(** src/buccaneer/emit.c:864-870 (emit_block) *)
Definition emit_block (b : list stmt) (e : emitter) : emitter :=
  fold_left (λ e s, emit_stmt s e) b e.

(** The two kinds of procedure differ in the return they end with.
    src/buccaneer/emit.c:872-921 (emit_procedure) *)
Definition emit_procedure (p : proc_decl) (e : emitter) : emitter :=
  let params := u32 (zlen (decl_params p)) in
  let offset := u32 (zlen (code e)) in
  let id := zlen (procs e) in
  let e := emit_block (decl_body p) (set_local_count params e) in
  let e := if decl_is_function p
           then bucc_emit_op OP_RETURN_VALUE (bucc_emit_op OP_PUSH_NULL e)
           else bucc_emit_op OP_RETURN e in
  set_procs (MkEntry (decl_name p) id offset (u32 (u32 (zlen (code e)) - offset)) params
    (current_local_count e) (decl_is_function p) :: procs e) e.

(** src/buccaneer/emit.c:923-938 (bucc_emit_module) *)
Definition bucc_emit_module (ps : list proc_decl) (e : emitter) : bool * emitter :=
  let e := bucc_emit_resolve_patches (fold_left (λ e p, emit_procedure p e) ps e) in
  (bool_decide (diags e = []), e).

End codegen.

(** The pools in index order.
    src/buccaneer/emit.c:940-1061 (bucc_emitter_to_module) *)
Definition bucc_emitter_to_module (e : emitter) : module :=
  MkModule (rev (strs e)) (rev (consts e))
    ((λ p, MkProc (Some (pe_name p)) (pe_offset p)) <$> rev (procs e))
    ((λ i, MkImport (Some (fst i)) (Some (snd i))) <$> rev (imps e))
    (code e).

(** Code generation in the scopes that the analysis left, and the module. *)
Definition compile (m : module_node) : module :=
  bucc_emitter_to_module
    (snd (bucc_emit_module (scopes (analyzed m)) (proc_nodes m) (bucc_emitter_new []))).
