(* ===== verification/EmitSpec.v ===== *)
(** Correctness of the code generator of the Buccaneer compiler against the
    virtual machine: the code of an expression leaves its value on the stack. *)

From stdpp Require Import relations.
From S2P Require Import Prelude CLib Float Value Vm VmSpec Ast Semantic Emit.

#[local] Open Scope Z_scope.

(** ** The meaning of expressions *)

Section meaning.
(** The value of a variable; NULL for any other name. *)
Context (env : cstr → value).

Definition literal_value (v : value) : value :=
  match v with
  | VString s => VString (c_string s)
  | VArray _ | VMap _ | VError _ => VNull
  | _ => v
  end.

(** A 64-bit result; none when the operation overflows. *)
Definition int_value (z : Z) : option value := if decide (in_s 64 z) then Some (VI64 z) else None.

Definition unop (op : unary_op) (h : heap) (a : value) : option value :=
  match op, a with
  | UNARY_NOT, _ => Some (VBool (negb (bucc_value_truthy h a)))
  | UNARY_NEG, VI64 z => int_value (- z)
  | UNARY_NEG, VF64 f => Some (VF64 (fneg f))
  | UNARY_NEG, _ => None
  end.

(** Arithmetic on two integers, or on two numbers as doubles. *)
Definition arith (on_int : Z → Z → option value) (on_f64 : f64 → f64 → option value) (a b : value)
  : option value :=
  match a, b with
  | VI64 x, VI64 y => on_int x y
  | _, _ =>
      if is_numeric a && is_numeric b then on_f64 (as_double a) (as_double b) else None
  end.

Definition concat_text (h : heap) (a b : value) : value :=
  VString (bucc_value_to_string h a ++ bucc_value_to_string h b).

Definition is_text (v : value) : bool := match v with VString _ => true | _ => false end.

Definition compare (test : Z → bool) (a b : value) : option value :=
  Some (VBool (test (bucc_value_compare a b))).

(** The depth to which two values are compared. *)
Definition equal_depth (h : heap) : nat := S (S (length h)).

(** The value of an operation; none for operands of the wrong types, an
    overflow, a division by zero, or a comparison of cyclic values. *)
Definition binop (op : binary_op) (h : heap) (a b : value) : option value :=
  match op with
  | BINARY_ADD =>
      if is_text a || is_text b then Some (concat_text h a b)
      else arith (λ x y, int_value (x + y)) (λ x y, Some (VF64 (fadd x y))) a b
  | BINARY_SUB => arith (λ x y, int_value (x - y)) (λ x y, Some (VF64 (fsub x y))) a b
  | BINARY_MUL => arith (λ x y, int_value (x * y)) (λ x y, Some (VF64 (fmul x y))) a b
  | BINARY_DIV =>
      arith (λ x y, if y =? 0 then None else int_value (Z.quot x y))
        (λ x y, if feqb y fzero then None else Some (VF64 (fdiv x y))) a b
  | BINARY_MOD =>
      arith (λ x y, if y =? 0 then None
                    else if decide (in_s 64 (Z.quot x y)) then int_value (Z.rem x y) else None)
        (λ _ _, None) a b
  | BINARY_EQ => VBool <$> bucc_value_equal (equal_depth h) h a b
  | BINARY_NE => (λ r, VBool (negb r)) <$> bucc_value_equal (equal_depth h) h a b
  | BINARY_LT => compare (λ c, c <? 0) a b
  | BINARY_LE => compare (λ c, c <=? 0) a b
  | BINARY_GT => compare (λ c, 0 <? c) a b
  | BINARY_GE => compare (λ c, 0 <=? c) a b
  | BINARY_AND => Some (VBool (bucc_value_truthy h a && bucc_value_truthy h b))
  | BINARY_OR => Some (VBool (bucc_value_truthy h a || bucc_value_truthy h b))
  | BINARY_CONCAT => Some (concat_text h a b)
  end.

Definition index_value (h : heap) (a i : value) : value :=
  match a, i with VArray a, VI64 i => bucc_array_get h a (u64 i) | _, _ => VNull end.

Definition member_value (h : heap) (a : value) (k : cstr) : value :=
  match a with VMap a => bucc_map_get h a k | _ => VNull end.

(** The value of an expression and the store after it; operands left to right,
    both of AND and OR. None for what the theorem leaves out: calls, and
    operations without a value. *)
Fixpoint eval (x : expr) (h : heap) : option (value * heap) :=
  match x with
  | NLiteral v => Some (literal_value v, h)
  | NIdent name => Some (env name, h)
  | NUnary op a => '(v, h) ← eval a h; r ← unop op h v; Some (r, h)
  | NBinary op a b =>
      '(v, h) ← eval a h; '(w, h) ← eval b h; r ← binop op h v w; Some (r, h)
  | NIndex a i => '(v, h) ← eval a h; '(w, h) ← eval i h; Some (index_value h v w, h)
  | NMember a k => '(v, h) ← eval a h; Some (member_value h v k, h)
  | NArrayLit l =>
      '(vs, h) ← (fix evals l h := match l with
        | [] => Some ([], h)
        | x :: l => '(v, h) ← eval x h; '(vs, h) ← evals l h; Some (v :: vs, h)
        end) l h;
      Some (VArray (length h), h ++ [CArray vs])
  | NMapLit l =>
      '(kvs, h) ← (fix evals l h := match l with
        | [] => Some ([], h)
        | (k, x) :: l => '(v, h) ← eval x h; '(kvs, h) ← evals l h; Some ((k, v) :: kvs, h)
        end) l h;
      Some (VMap (length h),
        h ++ [CMap (foldr (λ kv entries, map_put entries (fst kv) (snd kv)) [] kvs)])
  | NOther => Some (VNull, h)
  | NCall _ _ | NQualified _ _ | NNull => None
  end.

Fixpoint evals (l : list expr) (h : heap) : option (list value * heap) :=
  match l with
  | [] => Some ([], h)
  | x :: l => '(v, h) ← eval x h; '(vs, h) ← evals l h; Some (v :: vs, h)
  end.

Fixpoint eval_pairs (l : list (cstr * expr)) (h : heap) : option (list (cstr * value) * heap) :=
  match l with
  | [] => Some ([], h)
  | (k, x) :: l => '(v, h) ← eval x h; '(kvs, h) ← eval_pairs l h; Some ((k, v) :: kvs, h)
  end.

Lemma eval_array l h :
  eval (NArrayLit l) h = '(vs, h) ← evals l h; Some (VArray (length h), h ++ [CArray vs]).
Proof. reflexivity. Qed.

Lemma eval_map l h :
  eval (NMapLit l) h = '(kvs, h) ← eval_pairs l h;
    Some (VMap (length h),
      h ++ [CMap (foldr (λ kv entries, map_put entries (fst kv) (snd kv)) [] kvs)]).
Proof. reflexivity. Qed.
End meaning.

(** ** Running straight-line code *)

(** The parts of the machine that the code of an expression leaves alone. *)
Definition rest (m : vm) :=
  (frames m, globals m, locals m, exc m, (try_stack m, lim m, stat m, running m),
   (error_message m, chain_target m, chain_args m, exit_code m)).

(** [m'] is [m] but for its offset, stack and store. *)
Record settled (m m' : vm) (i : Z) (stk : list value) (h : heap) : Prop := {
  settled_ip : ip m' = i;
  settled_stack : stack m' = stk;
  settled_store : store m' = h;
  settled_rest : rest m' = rest m;
  settled_count : instructions (cnt m') = instructions (cnt m)
}.

Lemma push_settled v m :
  sp m < BUCC_STACK_MAX →
  ∃ m', bucc_vm_push v m = Some (tt, m') ∧ settled m m' (ip m) (v :: stack m) (store m).
Proof.
  intros H. unfold bucc_vm_push, modify. destruct (Z.leb_spec BUCC_STACK_MAX (sp m)); [lia |].
  cbv zeta. eexists. split; [reflexivity |]. case_match; by split.
Qed.

(** The bytes [bs] are the module's code at offset [i]. *)
Definition code_at (md : module) (i : Z) (bs : list Z) : Prop :=
  ∃ pre post, bytecode md = pre ++ bs ++ post ∧ zlen pre = i.

Lemma code_at_cons md i b bs :
  code_at md i (b :: bs) → byte_at md i = b ∧ 0 <= i < bytecode_len md ∧ code_at md (i + 1) bs.
Proof.
  intros (pre & post & E & <-). unfold byte_at, bytecode_len. rewrite E. cbn [app].
  rewrite nthZ_mid. split; [done |]. split; [zl |].
  exists (pre ++ [b]), post. rewrite <- app_assoc. split; [exact E | zl].
Qed.

Lemma code_at_app md i b1 b2 :
  code_at md i (b1 ++ b2) → code_at md i b1 ∧ code_at md (i + zlen b1) b2.
Proof.
  intros (pre & post & E & <-). split.
  - exists pre, (b2 ++ post). by rewrite E, <- app_assoc.
  - exists (pre ++ b1), post. rewrite E, <- !app_assoc. split; [done | zl].
Qed.

Lemma opcode_byte_decode op : decode_op (opcode_byte op) = Some op.
Proof. by destruct op. Qed.

Lemma opcode_byte_u8 op : u8 (opcode_byte op) = opcode_byte op.
Proof. by destruct op. Qed.

Lemma u16_bytes_value v :
  in_u 16 v → ∃ hi lo, u16_bytes v = [hi; lo] ∧ Z.lor (Z.shiftl hi 8) lo = v.
Proof.
  intros Hv. eexists _, _. split; [reflexivity |]. change 0xFF with (Z.ones 8).
  rewrite !land_low by lia. zred.
  pose proof (Z.mod_pos_bound v 256 ltac:(lia)).
  rewrite lor_shiftl_add by lia. rewrite Z.shiftr_div_pow2 by lia. change (2 ^ 8) with 256.
  rewrite (Z.mod_small (v / 256)).
  - pose proof (Z.div_mod v 256 ltac:(lia)). lia.
  - split; [apply Z.div_pos; lia | apply Z.div_lt_upper_bound; lia].
Qed.

Lemma u32_bytes_lor w :
  in_u 32 w → ∃ a b c d, u32_bytes w = [a; b; c; d] ∧
    Z.lor (Z.lor (Z.lor (Z.shiftl a 24) (Z.shiftl b 16)) (Z.shiftl c 8)) d = w.
Proof.
  intros Hw.
  eexists _, _, _, _. split; [reflexivity |]. change 0xFF with (Z.ones 8).
  rewrite !land_low by lia. rewrite !Z.shiftr_div_pow2 by lia. zred.
  pose proof (Z.mod_pos_bound w 256 ltac:(lia)). pose proof (Z.div_mod w 256 ltac:(lia)).
  pose proof (Z.mod_pos_bound (w / 256) 256 ltac:(lia)). pose proof (Z.div_mod (w / 256) 256 ltac:(lia)).
  pose proof (Z.mod_pos_bound (w / 65536) 256 ltac:(lia)).
  pose proof (Z.div_mod (w / 65536) 256 ltac:(lia)).
  assert (E2 : w / 256 / 256 = w / 65536) by (by rewrite Z.div_div by lia).
  assert (E3 : w / 65536 / 256 = w / 16777216) by (by rewrite Z.div_div by lia).
  assert (Htop : 0 <= w / 16777216 < 256).
  { split; [apply Z.div_pos; lia | apply Z.div_lt_upper_bound; lia]. }
  rewrite (Z.mod_small (w / 16777216)) by lia.
  set (a := w / 16777216) in *. set (b := (w / 65536) mod 256) in *.
  set (c := (w / 256) mod 256) in *. set (d := w mod 256) in *.
  replace (Z.shiftl a 24) with (Z.shiftl (Z.shiftl a 8) 16) by (by rewrite Z.shiftl_shiftl by lia).
  rewrite <- (Z.shiftl_lor (Z.shiftl a 8) b 16).
  rewrite (lor_shiftl_add a b 8) by (zred; lia).
  replace (Z.shiftl (a * 2 ^ 8 + b) 16) with (Z.shiftl (Z.shiftl (a * 2 ^ 8 + b) 8) 8)
    by (by rewrite Z.shiftl_shiftl by lia).
  rewrite <- (Z.shiftl_lor (Z.shiftl (a * 2 ^ 8 + b) 8) c 8).
  rewrite (lor_shiftl_add (a * 2 ^ 8 + b) c 8) by (zred; lia).
  rewrite lor_shiftl_add by (zred; lia).
  assert (Ew : ((a * 2 ^ 8 + b) * 2 ^ 8 + c) * 2 ^ 8 + d = w) by (zred; lia).
  zred. lia.
Qed.

Section run.
Context (md : module) (punned : value → Z)
  (host : option (vm → option cstr → option cstr → list value → value * vm)).
Context (Hlen : bytecode_len md < 2 ^ 32).

(** Room for [n] more instructions and pushes. *)
Definition ready (m : vm) (n : Z) : Prop :=
  stat m = VM_OK ∧ 0 <= instructions (cnt m) ∧ instructions (cnt m) + n <= max_instructions (lim m) ∧
  max_instructions (lim m) <= 2 ^ 32 ∧ sp m + n <= BUCC_STACK_MAX.

Definition fetched (m : vm) : vm :=
  set_ip (ip m + 1)
    (set_cnt (MkCounters (instructions (cnt m) + 1) (stack_depth (cnt m)) (host_calls (cnt m))
      (profile_ticks (cnt m))) m).

Lemma fetch op m bs n :
  code_at md (ip m) (opcode_byte op :: bs) → ready m n → 0 < n →
  bucc_vm_step md punned host m = exec md punned host op (fetched m).
Proof.
  intros (Hb & [H0 H1] & _)%code_at_cons (Hst & Hi & Hmax & Hmax' & _) Hn.
  unfold bucc_vm_step, bind, gets, id. rewrite bool_decide_eq_true_2 by done. cbn [negb].
  destruct (Z.leb_spec (max_instructions (lim m)) (instructions (cnt m))); [lia |].
  destruct (Z.leb_spec (bytecode_len md) (ip m)); [lia |].
  unfold tick, modify. rewrite read_u8_at by (cbn [ip set_cnt]; lia). cbn [ip set_cnt].
  rewrite Hb, opcode_byte_decode.
  replace (u64 (instructions (cnt m) + 1)) with (instructions (cnt m) + 1)
    by (symmetry; apply wrap_small; zred; lia). done.
Qed.

(** A run from [m] of [n] instructions, ending at offset [i] with the given
    stack and store and everything else as before. *)
Record goes (m m' : vm) (n i : Z) (stk : list value) (h : heap) : Prop := {
  goes_steps : rtc (steps md punned host) m m';
  goes_ip : ip m' = i;
  goes_stack : stack m' = stk;
  goes_store : store m' = h;
  goes_rest : rest m' = rest m;
  goes_count : instructions (cnt m') = instructions (cnt m) + n
}.

Definition gets_to (m : vm) (n i : Z) (stk : list value) (h : heap) : Prop :=
  ∃ m', goes m m' n i stk h.

Lemma goes_trans m m1 m2 n1 n2 i1 i2 s1 s2 h1 h2 :
  goes m m1 n1 i1 s1 h1 → goes m1 m2 n2 i2 s2 h2 → goes m m2 (n1 + n2) i2 s2 h2.
Proof. intros [] []. split; [by etrans | done | done | done | congruence | lia]. Qed.

Lemma goes_ready m m1 n1 i1 s1 h1 n :
  goes m m1 n1 i1 s1 h1 → 0 <= n1 → ready m (n1 + n) → zlen s1 + n <= BUCC_STACK_MAX →
  ready m1 n.
Proof.
  intros [_ _ Hs _ Hr Hc] Hn1 (Hst & Hi & Hmax & Hmax' & _) Hsp. unfold rest in Hr.
  injection Hr as ? ? ? ? ? El Es ? ? ? ? ?. unfold ready, sp. rewrite El, Es, Hs, Hc.
  split_and!; done || lia.
Qed.

(** One instruction, from what its handler does after the fetch. *)
Lemma one_instruction op m bs n i stk h :
  code_at md (ip m) (opcode_byte op :: bs) → ready m n → 0 < n →
  (∃ m', exec md punned host op (fetched m) = Some (tt, m') ∧ settled (fetched m) m' i stk h) →
  gets_to m 1 i stk h.
Proof.
  intros Hc Hr Hn (m' & He & []). exists m'. split; try done.
  apply rtc_once. unfold steps. by erewrite fetch.
Qed.

Lemma fetched_operand op m bs v :
  code_at md (ip m) (opcode_byte op :: u16_bytes v ++ bs) → in_u 16 v →
  read_u16 md (fetched m) = Some (v, set_ip (ip m + 3) (fetched m)).
Proof.
  intros (_ & _ & Hc)%code_at_cons Hv. destruct (u16_bytes_value v Hv) as (hi & lo & E & Hval).
  rewrite E in Hc. cbn [app] in Hc.
  apply code_at_cons in Hc as (Hhi & Hb & Hc). apply code_at_cons in Hc as (Hlo & Hb' & _).
  rewrite read_u16_at by (cbn [ip fetched set_ip]; lia). cbn [ip fetched set_ip].
  rewrite Hhi, Hlo, Hval. by replace (ip m + 1 + 2) with (ip m + 3) by lia.
Qed.

(** *** Instructions that push *)

Lemma fetched_settled m m' i stk h :
  settled (set_ip (ip m + 3) (fetched m)) m' i stk h → settled (fetched m) m' i stk h.
Proof. intros []. by split. Qed.

(** A handler that reads an index and pushes what [k] finds there. *)
Lemma push_operand op m bs n v idx :
  code_at md (ip m) (opcode_byte op :: u16_bytes idx ++ bs) → in_u 16 idx → ready m n → 0 < n →
  exec md punned host op (fetched m) = bucc_vm_push v (set_ip (ip m + 3) (fetched m)) →
  gets_to m 1 (ip m + 3) (v :: stack m) (store m).
Proof.
  intros Hc Hi Hr Hn He. eapply one_instruction; [exact Hc | exact Hr | done |].
  destruct Hr as (_ & _ & _ & _ & Hsp).
  destruct (push_settled v (set_ip (ip m + 3) (fetched m))) as (m' & Hm' & Hs); [cbn; unfold sp in *; cbn; lia |].
  exists m'. split; [congruence |]. by apply fetched_settled.
Qed.

Lemma run_const op m bs n v idx :
  exec md punned host op = op_push_const md →
  code_at md (ip m) (opcode_byte op :: u16_bytes idx ++ bs) → in_u 16 idx → ready m n → 0 < n →
  nthZ (constants md) idx = Some v →
  gets_to m 1 (ip m + 3) (v :: stack m) (store m).
Proof.
  intros Hop Hc Hi Hr Hn Hv. eapply push_operand; try done. rewrite Hop.
  unfold op_push_const, bind. erewrite fetched_operand by done.
  unfold bucc_module_get_constant. pose proof (nthZ_bound _ _ _ Hv).
  destruct (Z.leb_spec (zlen (constants md)) idx); [lia |]. by rewrite Hv.
Qed.

Lemma run_str m bs n s idx :
  code_at md (ip m) (opcode_byte OP_PUSH_STR :: u16_bytes idx ++ bs) → in_u 16 idx →
  ready m n → 0 < n → nthZ (strings md) idx = Some s →
  gets_to m 1 (ip m + 3) (VString s :: stack m) (store m).
Proof.
  intros Hc Hi Hr Hn Hv. eapply push_operand; try done. cbn [exec].
  unfold op_push_str, bind. erewrite fetched_operand by done.
  unfold bucc_module_get_string. pose proof (nthZ_bound _ _ _ Hv).
  destruct (Z.leb_spec (zlen (strings md)) idx); [lia |]. by rewrite Hv.
Qed.

Lemma run_global m bs n idx :
  code_at md (ip m) (opcode_byte OP_LOAD_GLOBAL :: u16_bytes idx ++ bs) → in_u 16 idx →
  ready m n → 0 < n →
  gets_to m 1 (ip m + 3) (bucc_vm_get_global m idx :: stack m) (store m).
Proof.
  intros Hc Hi Hr Hn. eapply push_operand; try done. cbn [exec].
  unfold op_load_global, bind. by erewrite fetched_operand by done.
Qed.

Lemma run_local op m bs n idx :
  exec md punned host op = op_load_local md →
  code_at md (ip m) (opcode_byte op :: u16_bytes idx ++ bs) → in_u 16 idx →
  ready m n → 0 < n →
  gets_to m 1 (ip m + 3) (bucc_vm_get_local m idx :: stack m) (store m).
Proof.
  intros Hop Hc Hi Hr Hn. eapply push_operand; try done. rewrite Hop.
  unfold op_load_local, bind. by erewrite fetched_operand by done.
Qed.

(** An instruction without operand that leaves [stk] and pushes [v]. *)
Lemma run_plain op m bs n v stk :
  code_at md (ip m) (opcode_byte op :: bs) → ready m n → 0 < n →
  exec md punned host op (fetched m) = bucc_vm_push v (set_stack stk (fetched m)) →
  zlen stk < BUCC_STACK_MAX →
  gets_to m 1 (ip m + 1) (v :: stk) (store m).
Proof.
  intros Hc Hr Hn He Hs. eapply one_instruction; [exact Hc | exact Hr | done |].
  destruct (push_settled v (set_stack stk (fetched m))) as (m' & Hm' & []); [exact Hs |].
  exists m'. split; [congruence |]. by split.
Qed.

(** *** Operations *)

Lemma signed64_ok z : in_s 64 z → push_i64 z = bucc_vm_push (VI64 z).
Proof. intros H. unfold push_i64, bind, signed64. rewrite decide_True by done. done. Qed.

Lemma unop_exec op h a r m :
  unop op h a = Some r → store m = h →
  exec md punned host (unary_opcode op) (set_stack (a :: stack m) m) = bucc_vm_push r m.
Proof.
  intros Hr Hh. destruct op; cbn [unary_opcode exec]; unfold op_neg, op_not, bind, bucc_vm_pop, gets;
    cbn [stack set_stack store].
  - replace (set_stack (stack m) (set_stack (a :: stack m) m)) with m by (by destruct m).
    destruct a; try discriminate Hr; cbn in Hr; [| by injection Hr as <-].
    unfold int_value in Hr. case_decide; [| done]. injection Hr as <-. cbn [as_i64].
    by rewrite signed64_ok.
  - replace (set_stack (stack m) (set_stack (a :: stack m) m)) with m by (by destruct m).
    cbn in Hr. injection Hr as <-. by rewrite Hh.
Qed.

Lemma int_value_push z r m : int_value z = Some r → push_i64 z m = bucc_vm_push r m.
Proof.
  unfold int_value. case_decide; [| done]. intros [= <-]. by rewrite signed64_ok.
Qed.

(** Two operands popped, the right one first. *)
Lemma pop2 {A} (k : value → value → M A) a b m :
  (let! y := bucc_vm_pop in let! x := bucc_vm_pop in k x y)%vm (set_stack (b :: a :: stack m) m)
  = k a b m.
Proof.
  unfold bind, bucc_vm_pop. cbn [stack set_stack].
  by replace (set_stack (stack m) (set_stack (a :: stack m) (set_stack (b :: a :: stack m) m)))
    with m by (by destruct m).
Qed.

Lemma arith_cases fi ff a b r :
  arith fi ff a b = Some r →
  is_string a || is_string b = false ∧
  ((∃ x y, a = VI64 x ∧ b = VI64 y ∧ fi x y = Some r) ∨
   (is_f64 a || is_f64 b = true ∧ ff (to_double punned a) (to_double punned b) = Some r)).
Proof.
  destruct a, b; try discriminate; cbn; intros H;
    (split; [done |]; first [left; by eauto | right; by split]).
Qed.

Lemma binop_exec op h a b r m :
  binop op h a b = Some r → store m = h →
  exec md punned host (binary_opcode op) (set_stack (b :: a :: stack m) m) = bucc_vm_push r m.
Proof.
  intros Hr <-. destruct op; cbn [binary_opcode exec binop] in *; (etrans; [apply pop2 |]);
    cbv beta; try (injection Hr as <-; reflexivity).
  - change is_text with is_string in Hr. destruct (is_string a || is_string b) eqn:Es.
    { injection Hr as <-. reflexivity. }
    destruct (arith_cases _ _ _ _ _ Hr) as [_ [(x & y & -> & -> & H) | (E & H)]].
    + by apply int_value_push.
    + rewrite E. by injection H as <-.
  - destruct (arith_cases _ _ _ _ _ Hr) as [_ [(x & y & -> & -> & H) | (E & H)]].
    + by apply int_value_push.
    + rewrite E. by injection H as <-.
  - destruct (arith_cases _ _ _ _ _ Hr) as [_ [(x & y & -> & -> & H) | (E & H)]].
    + by apply int_value_push.
    + rewrite E. by injection H as <-.
  - destruct (arith_cases _ _ _ _ _ Hr) as [_ [(x & y & -> & -> & H) | (E & H)]].
    + cbn [is_f64 orb as_i64]. destruct (y =? 0); [done |]. by apply int_value_push.
    + rewrite E. destruct (feqb _ fzero); [done |]. by injection H as <-.
  - destruct (arith_cases _ _ _ _ _ Hr) as [_ [(x & y & -> & -> & H) | (E & H)]]; [| done].
    cbn [as_i64]. destruct (y =? 0); [done |]. case_decide; [| done].
    unfold bind at 1, signed64. rewrite decide_True by done. by apply int_value_push.
  - apply fmap_Some in Hr as (x & Hx & ->). unfold bind, gets, id, equal_depth, equal_fuel in *.
    by rewrite Hx.
  - apply fmap_Some in Hr as (x & Hx & ->). unfold bind, gets, id, equal_depth, equal_fuel in *.
    by rewrite Hx.
Qed.

(** *** Arrays and maps *)

Lemma array_get_exec a i m :
  exec md punned host OP_ARRAY_GET (set_stack (i :: a :: stack m) m)
  = bucc_vm_push (index_value (store m) a i) m.
Proof. cbn [exec]. etrans; [apply pop2 |]. cbv beta. by destruct a, i. Qed.

Lemma map_get_exec a k m :
  exec md punned host OP_MAP_GET (set_stack (VString k :: a :: stack m) m)
  = bucc_vm_push (member_value (store m) a k) m.
Proof. cbn [exec]. etrans; [apply pop2 |]. cbv beta. by destruct a. Qed.

Lemma set_stack_stack m : set_stack (stack m) m = m.
Proof. by destruct m. Qed.

Lemma pop_n_values vs : ∀ acc m s,
  stack m = rev vs ++ s → pop_n (length vs) acc m = Some (vs ++ acc, set_stack s m).
Proof.
  induction vs as [|v vs IH] using rev_ind; intros acc m s Hs.
  { cbn in *. by rewrite <- Hs, set_stack_stack. }
  rewrite length_app, Nat.add_comm. cbn [length Nat.add pop_n]. rewrite rev_app_distr in Hs.
  cbn in Hs. unfold bind, bucc_vm_pop. rewrite Hs. rewrite (IH _ _ s) by done.
  by rewrite <- app_assoc.
Qed.

Lemma push_all_values items : ∀ a h l,
  h !! a = Some (CArray l) → push_all a items h = <[a := CArray (l ++ items)]> h.
Proof.
  induction items as [|v items IH]; intros a h l Hl; cbn [push_all].
  { by rewrite app_nil_r, list_insert_id. }
  unfold bucc_array_push, get_array. rewrite Hl. cbn [snd].
  rewrite (IH a _ (l ++ [v])); [by rewrite list_insert_insert_eq, <- app_assoc |].
  apply list_lookup_insert_eq. by eapply lookup_lt_Some.
Qed.

Lemma insert_last {A} (h : list A) x y : <[length h := y]> (h ++ [x]) = h ++ [y].
Proof. by rewrite insert_app_r_alt, Nat.sub_diag by lia. Qed.

Lemma run_array m bs n vs s :
  code_at md (ip m) (opcode_byte OP_ARRAY_NEW :: u16_bytes (zlen vs) ++ bs) → in_u 16 (zlen vs) →
  ready m n → 0 < n → stack m = rev vs ++ s → zlen s < BUCC_STACK_MAX →
  gets_to m 1 (ip m + 3) (VArray (length (store m)) :: s) (store m ++ [CArray vs]).
Proof.
  intros Hc Hi Hr Hn Hs Hsp. eapply one_instruction; [exact Hc | exact Hr | done |].
  set (m1 := set_stack s (set_store (store m ++ [CArray vs]) (set_ip (ip m + 3) (fetched m)))).
  destruct (push_settled (VArray (length (store m))) m1 Hsp) as (m' & Hm' & []).
  exists m'. split; [| by split]. cbn [exec]. unfold op_array_new, bind at 1.
  erewrite fetched_operand by done. unfold bind at 1, new_cell, alloc.
  unfold bind at 1, zlen. rewrite Nat2Z.id. rewrite (pop_n_values vs [] _ s) by done.
  rewrite app_nil_r. unfold bind, modify. rewrite <- Hm'. f_equal. subst m1.
  cbn [store set_store set_stack set_ip fetched set_cnt].
  rewrite (push_all_values _ _ _ []).
  - by rewrite insert_last.
  - rewrite lookup_app_r, Nat.sub_diag by lia. done.
Qed.

(** The operands of a map literal, last pair on top. *)
Definition pair_operands (kvs : list (cstr * value)) : list value :=
  rev (mjoin ((λ kv, [VString (fst kv); snd kv]) <$> kvs)).

Lemma pair_operands_last kvs k v :
  pair_operands (kvs ++ [(k, v)]) = v :: VString k :: pair_operands kvs.
Proof.
  unfold pair_operands. rewrite fmap_app, join_app, rev_app_distr. done.
Qed.

Definition put_pairs (entries kvs : list (cstr * value)) : list (cstr * value) :=
  foldr (λ kv entries, map_put entries (fst kv) (snd kv)) entries kvs.

Lemma map_pairs_values kvs : ∀ m s a entries,
  stack m = pair_operands kvs ++ s → store m !! a = Some (CMap entries) →
  map_pairs (length kvs) a m =
    Some (tt, set_store (<[a := CMap (put_pairs entries kvs)]> (store m)) (set_stack s m)).
Proof.
  induction kvs as [|[k v] kvs IH] using rev_ind; intros m s a entries Hs Ha.
  { cbn in *. rewrite <- Hs, list_insert_id, set_stack_stack by done. by destruct m. }
  rewrite length_app, Nat.add_comm. cbn [length Nat.add map_pairs].
  rewrite pair_operands_last in Hs. unfold bind, bucc_vm_pop. rewrite Hs.
  cbn [app stack set_stack store]. unfold modify, bucc_map_set, get_map.
  cbn [store set_stack]. rewrite Ha. cbn [snd].
  rewrite (IH _ s a (map_put entries k v)); cbn [stack set_stack set_store store].
  - f_equal. f_equal. rewrite list_insert_insert_eq. unfold put_pairs. rewrite foldr_app. done.
  - done.
  - apply list_lookup_insert_eq. by eapply lookup_lt_Some.
Qed.

Lemma run_map m bs n kvs s :
  code_at md (ip m) (opcode_byte OP_MAP_NEW :: u16_bytes (zlen kvs) ++ bs) → in_u 16 (zlen kvs) →
  ready m n → 0 < n → stack m = pair_operands kvs ++ s → zlen s < BUCC_STACK_MAX →
  gets_to m 1 (ip m + 3) (VMap (length (store m)) :: s) (store m ++ [CMap (put_pairs [] kvs)]).
Proof.
  intros Hc Hi Hr Hn Hs Hsp. eapply one_instruction; [exact Hc | exact Hr | done |].
  set (m1 := set_stack s
    (set_store (store m ++ [CMap (put_pairs [] kvs)]) (set_ip (ip m + 3) (fetched m)))).
  destruct (push_settled (VMap (length (store m))) m1 Hsp) as (m' & Hm' & []).
  exists m'. split; [| by split]. cbn [exec]. unfold op_map_new, bind at 1.
  erewrite fetched_operand by done. unfold bind at 1, new_cell, alloc.
  unfold bind at 1, zlen. rewrite Nat2Z.id. rewrite (map_pairs_values kvs _ s _ []).
  - rewrite <- Hm'. f_equal. subst m1.
    cbn [store set_store set_stack set_ip fetched set_cnt]. by rewrite insert_last.
  - done.
  - cbn [store set_store set_ip fetched set_cnt].
    rewrite lookup_app_r, Nat.sub_diag by lia. done.
Qed.
End run.

(** ** What the emitter adds *)

(** Code and pools only grow. *)
Definition extends (e e' : emitter) : Prop :=
  (∃ bs, code e' = code e ++ bs) ∧ (∃ cs, consts e' = cs ++ consts e) ∧
  (∃ ss, strs e' = ss ++ strs e).

#[export] Instance extends_refl : Reflexive extends.
Proof. intros e. split_and!; [exists [] | by exists [] | by exists []]. by rewrite app_nil_r. Qed.

#[export] Instance extends_trans : Transitive extends.
Proof.
  intros a b c ((bs & E1) & (cs & E2) & (ss & E3)) ((bs' & E4) & (cs' & E5) & (ss' & E6)).
  split_and!.
  - exists (bs ++ bs'). by rewrite E4, E1, app_assoc.
  - exists (cs' ++ cs). by rewrite E5, E2, app_assoc.
  - exists (ss' ++ ss). by rewrite E6, E3, app_assoc.
Qed.

(** The module holds the code and the pools of the emitter, and more. *)
Definition loaded (md : module) (e : emitter) : Prop :=
  (∃ bs, bytecode md = code e ++ bs) ∧ (∃ cs, constants md = rev (consts e) ++ cs) ∧
  (∃ ss, strings md = rev (strs e) ++ ss).

Lemma loaded_extends md e e' : extends e e' → loaded md e' → loaded md e.
Proof.
  intros ((bs & E1) & (cs & E2) & (ss & E3)) ((bs' & E4) & (cs' & E5) & (ss' & E6)). split_and!.
  - exists (bs ++ bs'). by rewrite E4, E1, app_assoc.
  - exists (rev cs ++ cs'). by rewrite E5, E2, rev_app_distr, app_assoc.
  - exists (rev ss ++ ss'). by rewrite E6, E3, rev_app_distr, app_assoc.
Qed.

Lemma loaded_code md e bs : loaded md (append bs e) → code_at md (zlen (code e)) bs.
Proof. intros ((post & E) & _). exists (code e), post. cbn in E. by rewrite app_assoc. Qed.

Lemma append_extends bs e : extends e (append bs e).
Proof. split_and!; [by exists bs | by exists [] | by exists []]. Qed.

Lemma emit_op_append op e : bucc_emit_op op e = append [opcode_byte op] e.
Proof. unfold bucc_emit_op, bucc_emit_byte. by rewrite opcode_byte_u8. Qed.

Lemma emit_op_u16_append op arg e :
  bucc_emit_op_u16 op arg e = append (opcode_byte op :: u16_bytes (u16 arg)) e.
Proof.
  unfold bucc_emit_op_u16, bucc_emit_u16, bucc_emit_byte. rewrite opcode_byte_u8.
  unfold append. cbn [code set_code]. rewrite <- app_assoc. by destruct e.
Qed.

Lemma emit_op_u16_extends op arg e : extends e (bucc_emit_op_u16 op arg e).
Proof. rewrite emit_op_u16_append. apply append_extends. Qed.

(** ** Pools *)

Lemma zlen_rev {A} (l : list A) : zlen (rev l) = zlen l.
Proof. unfold zlen. by rewrite length_rev. Qed.

Lemma pool_find_sound {A} (p : A → bool) l i :
  pool_find p l = Some i → ∃ y, nthZ (rev l) i = Some y ∧ p y = true ∧ y ∈ l.
Proof.
  induction l as [|x l IH]; cbn [pool_find rev]; [done |]. destruct (p x) eqn:Hp.
  - intros [= <-]. exists x. rewrite <- (zlen_rev l), nthZ_mid.
    split_and!; [done | done | by left].
  - intros (y & Hy & Hpy & Hin)%IH. exists y. pose proof (nthZ_bound _ _ _ Hy).
    rewrite nthZ_app_l by lia. split_and!; [done | done | by right].
Qed.

(** The index given is that of an entry that is [x] or passes for it. *)
Lemma pool_add_sound {A} (p : A → bool) x l i l' :
  pool_add p x l = (i, l') →
  (∃ k, l' = k ++ l) ∧ (∀ P : A → Prop, Forall P l → P x → Forall P l') ∧
  ∃ y, nthZ (rev l') i = Some y ∧ (y = x ∨ p y = true ∧ y ∈ l).
Proof.
  unfold pool_add. destruct (pool_find p l) as [j |] eqn:E; intros [= <- <-].
  - split; [by exists [] |]. split; [done |].
    destruct (pool_find_sound _ _ _ E) as (y & ? & ? & ?). exists y. auto.
  - split; [by exists [x] |]. split; [by constructor |]. exists x.
    cbn [rev]. rewrite <- (zlen_rev l), nthZ_mid. auto.
Qed.

Lemma nthZ_prefix {A} (l k : list A) i y : nthZ l i = Some y → nthZ (l ++ k) i = Some y.
Proof. intros H. pose proof (nthZ_bound _ _ _ H). by rewrite nthZ_app_l by lia. Qed.

(** Floats that are equal are the same, zeros apart. *)
Definition neg_zero : f64 := S754_zero true.

Lemma feqb_same f g : feqb f g = true → f ≠ neg_zero → g ≠ neg_zero → f = g.
Proof.
  unfold feqb, SFeqb, SFcompare, neg_zero.
  destruct f as [[] | [] | | [] mf ef], g as [[] | [] | | [] mg eg]; try done;
    destruct (Z.compare_spec ef eg) as [-> | |]; try done;
    change (Pos.compare_cont Eq mf mg) with (mf ?= mg)%positive;
    destruct (Pos.compare_spec mf mg) as [-> | |]; done.
Qed.

(** No constant of the pool is the negative zero, which the pool confuses with
    zero. *)
Definition floats_ok (e : emitter) : Prop := Forall (λ c, c ≠ VF64 neg_zero) (consts e).

(** What the theorem asks of an expression's literals. *)
Fixpoint literals_ok (x : expr) : Prop :=
  match x with
  | NLiteral v => v ≠ VF64 neg_zero
  | NUnary _ a | NMember a _ => literals_ok a
  | NBinary _ a b | NIndex a b => literals_ok a ∧ literals_ok b
  | NArrayLit l => zlen l < 2 ^ 16 ∧ all literals_ok l
  | NMapLit l => zlen l < 2 ^ 16 ∧ all (λ p, literals_ok (snd p)) l
  | _ => True
  end.

(** Instructions of an expression's code. *)
Fixpoint size (x : expr) : Z :=
  match x with
  | NUnary _ a => 1 + size a
  | NBinary _ a b | NIndex a b => 1 + size a + size b
  | NMember a _ => 2 + size a
  | NArrayLit l => 1 + foldr (λ x n, size x + n) 0 l
  | NMapLit l => 1 + foldr (λ p n, 1 + size (snd p) + n) 0 l
  | _ => 1
  end.

(** ** Pooled operands *)

(** [r] gives an index for [x] in the pool [get] of the emitter, which it may
    extend. *)
Definition pooled {A} (get : emitter → list A) (x : A) (e : emitter) (r : Z * emitter) : Prop :=
  extends e (snd r) ∧ code (snd r) = code e ∧ (floats_ok e → floats_ok (snd r)) ∧
  nthZ (rev (get (snd r))) (fst r) = Some x.

Lemma extends_consts e l k : l = k ++ consts e → extends e (set_consts l e).
Proof. intros ->. split_and!; [exists []; by rewrite app_nil_r | by exists k | by exists []]. Qed.

Lemma i64_pooled z e : pooled consts (VI64 z) e (bucc_emit_constant_i64 z e).
Proof.
  unfold bucc_emit_constant_i64. destruct (pool_add _ _ _) as [i l] eqn:E.
  destruct (pool_add_sound _ _ _ _ _ E) as ((k & Hk) & HP & y & Hy & Hcase).
  split_and!; [by eapply extends_consts | done | intros Hf; by apply HP |]. cbn. rewrite Hy. f_equal.
  destruct Hcase as [-> | [Hp _]]; [done |]. destruct y; try done. apply Z.eqb_eq in Hp. congruence.
Qed.

Lemma f64_pooled f e :
  f ≠ neg_zero → floats_ok e → pooled consts (VF64 f) e (bucc_emit_constant_f64 f e).
Proof.
  intros Hf He. unfold bucc_emit_constant_f64. destruct (pool_add _ _ _) as [i l] eqn:E.
  destruct (pool_add_sound _ _ _ _ _ E) as ((k & Hk) & HP & y & Hy & Hcase).
  split_and!; [by eapply extends_consts | done | intros _; apply HP; [done | congruence] |].
  cbn. rewrite Hy. f_equal. destruct Hcase as [-> | [Hp Hin]]; [done |]. destruct y; try done.
  f_equal. apply feqb_same; [done | | done]. intros ->.
  by apply (proj1 (Forall_forall _ _) He _ Hin).
Qed.

Lemma constant_pooled v e :
  v ≠ VF64 neg_zero → pooled consts v e (add_constant v e).
Proof.
  intros Hv. split_and!; [by apply (extends_consts e _ [v]) | done | by constructor |].
  cbn. by rewrite <- (zlen_rev (consts e)), nthZ_mid.
Qed.

Lemma string_pooled s e : pooled strs s e (bucc_emit_string s e).
Proof.
  unfold bucc_emit_string. destruct (pool_add _ _ _) as [i l] eqn:E.
  destruct (pool_add_sound _ _ _ _ _ E) as ((k & Hk) & _ & y & Hy & Hcase).
  split_and!; [| done | done |].
  - split_and!; [exists []; by rewrite app_nil_r | by exists [] | by exists k].
  - cbn. rewrite Hy. f_equal. destruct Hcase as [-> | [Hp _]]; [done |].
    by apply bool_decide_eq_true in Hp.
Qed.

Lemma import_extends ns fn e :
  extends e (snd (bucc_emit_host_import ns fn e)) ∧
  consts (snd (bucc_emit_host_import ns fn e)) = consts e.
Proof.
  unfold bucc_emit_host_import. destruct (pool_add _ _ _) as [i l]. cbn.
  split; [| done]. split_and!; [exists []; by rewrite app_nil_r | by exists [] | by exists []].
Qed.

Lemma emit_pooled_append op r :
  emit_pooled op r = append (opcode_byte op :: u16_bytes (u16 (fst r))) (snd r).
Proof. destruct r as [i e]. apply emit_op_u16_append. Qed.

Lemma emit_pooled_extends op e r : extends e (snd r) → extends e (emit_pooled op r).
Proof. intros H. rewrite emit_pooled_append. etrans; [exact H | apply append_extends]. Qed.

Section extension.
Context (scopes : list scope).

Lemma emit_op_extends op e : extends e (bucc_emit_op op e).
Proof. rewrite emit_op_append. apply append_extends. Qed.

Lemma emit_byte_extends b e : extends e (bucc_emit_byte b e).
Proof. apply append_extends. Qed.

Lemma literal_extends v e : extends e (emit_literal v e).
Proof.
  destruct v; cbn [emit_literal]; try apply emit_op_extends; apply emit_pooled_extends.
  - apply i64_pooled.
  - unfold bucc_emit_constant_f64. destruct (pool_add _ _ _) as [i l] eqn:E.
    destruct (pool_add_sound _ _ _ _ _ E) as ((k & Hk) & _). by eapply extends_consts.
  - apply string_pooled.
  - by apply (extends_consts e _ [VDate d]).
  - by apply (extends_consts e _ [VDatetime d]).
Qed.

Lemma ident_extends name e : extends e (emit_ident scopes name e).
Proof.
  unfold emit_ident. destruct (lookup_symbol scopes name) as [[[] n t s] |];
    first [apply emit_op_extends | apply emit_op_u16_extends].
Qed.

Lemma host_call_extends ns name argc e : extends e (emit_host_call ns name argc e).
Proof.
  unfold emit_host_call. etrans; [| apply emit_byte_extends].
  apply emit_pooled_extends, import_extends.
Qed.

Lemma call_extends c emit_callee argc e :
  (∀ e, extends e (emit_callee e)) → extends e (emit_call scopes c emit_callee argc e).
Proof.
  intros Hc. destruct c; cbn [emit_call]; try apply Hc; [| apply host_call_extends].
  destruct (lookup_symbol scopes name) as [[[] n t s] |]; try apply emit_op_extends;
    (etrans; [apply emit_op_u16_extends | apply emit_byte_extends]).
Qed.

Lemma fold_extends {A} (f : emitter → A → emitter) l : ∀ e,
  Forall (λ x, ∀ e, extends e (f e x)) l → extends e (fold_left f l e).
Proof.
  induction l as [|x l IH]; intros e Hl; cbn; [done |]. inversion Hl; subst.
  etrans; [| by apply IH]. auto.
Qed.

Lemma emit_expr_extends x : ∀ e, extends e (emit_expr scopes x e).
Proof.
  induction x using expr_ind'; intros e; cbn [emit_expr].
  - apply ident_extends.
  - apply literal_extends.
  - etrans; [apply IHx | apply emit_op_extends].
  - etrans; [apply IHx1 |]. etrans; [apply IHx2 | apply emit_op_extends].
  - etrans; [by apply (fold_extends (λ e a, emit_expr scopes a e) args) | by apply call_extends].
  - etrans; [apply IHx |]. etrans; [| apply emit_op_extends].
    apply emit_pooled_extends, string_pooled.
  - etrans; [apply IHx1 |]. etrans; [apply IHx2 | apply emit_op_extends].
  - etrans; [by apply (fold_extends (λ e a, emit_expr scopes a e) l) | apply emit_op_u16_extends].
  - etrans; [| apply emit_op_u16_extends]. apply fold_extends.
    eapply Forall_impl; [eassumption |]. intros p Hp e'.
    etrans; [| apply Hp]. apply emit_pooled_extends, string_pooled.
  - apply host_call_extends.
  - apply emit_op_extends.
  - done.
Qed.
End extension.

(** ** The code of an expression computes its value *)

Section correct.
Context (md : module) (punned : value → Z)
  (host : option (vm → option cstr → option cstr → list value → value * vm)).
Context (scopes : list scope) (env : cstr → value).
Context (Hlen : bytecode_len md < 2 ^ 32).
Context (Hconsts : zlen (constants md) <= 2 ^ 16) (Hstrs : zlen (strings md) <= 2 ^ 16).

Abbreviation gets_to := (gets_to md punned host).
Abbreviation emit_expr := (emit_expr scopes).

(** The variables the scopes know are where the machine holds them. *)
Definition env_ok (m : vm) : Prop :=
  ∀ name, env name =
    match lookup_symbol scopes name with
    | Some sym =>
        match sym_kind sym with
        | SYM_GLOBAL => bucc_vm_get_global m (u16 (slot sym))
        | SYM_LOCAL | SYM_PARAM => bucc_vm_get_local m (u16 (slot sym))
        | _ => VNull
        end
    | None => VNull
    end.

Lemma env_ok_rest m m' : rest m' = rest m → env_ok m → env_ok m'.
Proof.
  unfold rest, env_ok, bucc_vm_get_global, bucc_vm_get_local, local_base.
  intros [= Ef Eg El _ _ _ _ _ _ _ _ _] H name. by rewrite Ef, Eg, El.
Qed.

Lemma ready_le m n k : k <= n → ready m n → ready m k.
Proof. intros Hk (? & ? & ? & ? & ?). unfold ready. split_and!; done || lia. Qed.

Lemma ready_sp m n : 0 < n → ready m n → zlen (stack m) < BUCC_STACK_MAX.
Proof. intros Hn (_ & _ & _ & _ & H). unfold sp in H. lia. Qed.

Lemma replace_stack m s t : stack m = t → set_stack t (set_stack s m) = m.
Proof. intros <-. by destruct m. Qed.

(** One more instruction after the code of the operands. *)
Lemma then_plain op m m1 n i1 s1 h v stk (e : emitter) :
  goes md punned host m m1 n i1 s1 h → 0 <= n → ready m (n + 1) → zlen s1 < BUCC_STACK_MAX →
  loaded md (append [opcode_byte op] e) → i1 = zlen (code e) →
  exec md punned host op (fetched m1) = bucc_vm_push v (set_stack stk (fetched m1)) →
  zlen stk < BUCC_STACK_MAX →
  gets_to m (n + 1) (zlen (code (append [opcode_byte op] e))) (v :: stk) h.
Proof.
  intros Hg Hn Hr Hs1 Hl -> He Hs. pose proof (loaded_code _ _ _ Hl) as Hc.
  assert (Hr1 : ready m1 1) by (eapply goes_ready; [exact Hg | done | exact Hr | lia]).
  pose proof (goes_ip _ _ _ _ _ _ _ _ _ Hg) as Hip. rewrite <- Hip in Hc.
  destruct (run_plain md punned host Hlen op m1 [] 1 v stk Hc Hr1 ltac:(lia) He Hs) as [m2 Hg2].
  pose proof (goes_store _ _ _ _ _ _ _ _ _ Hg) as Hh. rewrite Hh in Hg2.
  exists m2. cbn [code append set_code]. rewrite zlen_app, zlen_cons, zlen_nil, <- Hip.
  replace (ip m1 + (1 + 0)) with (ip m1 + 1) by lia. by eapply goes_trans.
Qed.

Lemma zlen_u16_bytes v : zlen (u16_bytes v) = 2.
Proof. done. Qed.

Lemma operand_end op e v : zlen (code (append (opcode_byte op :: u16_bytes v) e)) = zlen (code e) + 3.
Proof. cbn [code append set_code]. rewrite zlen_app, zlen_cons, zlen_u16_bytes. lia. Qed.

Lemma operand_code op e v :
  loaded md (append (opcode_byte op :: u16_bytes v) e) →
  code_at md (zlen (code e)) (opcode_byte op :: u16_bytes v ++ []).
Proof. intros H. rewrite app_nil_r. by apply loaded_code. Qed.

(** A pooled constant, loaded. *)
Lemma pooled_const op v e r m n :
  exec md punned host op = op_push_const md →
  pooled consts v e r → loaded md (emit_pooled op r) → ip m = zlen (code e) → ready m n → 0 < n →
  gets_to m 1 (zlen (code (emit_pooled op r))) (v :: stack m) (store m).
Proof.
  intros Hop (Hext & Hcode & _ & Hv) Hl Hip Hr Hn. rewrite emit_pooled_append in *.
  assert (Hc : nthZ (constants md) (fst r) = Some v).
  { destruct (loaded_extends _ _ _ (append_extends _ _) Hl) as (_ & (cs & ->) & _).
    by apply nthZ_prefix. }
  pose proof (nthZ_bound _ _ _ Hc). zred.
  assert (Hu : u16 (fst r) = fst r) by (apply wrap_small; zred; lia). rewrite Hu in *.
  rewrite operand_end, Hcode, <- Hip. apply operand_code in Hl. rewrite Hcode, <- Hip in Hl.
  eapply run_const; try done. zred; lia.
Qed.

Lemma pooled_str s e r m n :
  pooled strs s e r → loaded md (emit_pooled OP_PUSH_STR r) → ip m = zlen (code e) →
  ready m n → 0 < n →
  gets_to m 1 (zlen (code (emit_pooled OP_PUSH_STR r))) (VString s :: stack m) (store m).
Proof.
  intros (Hext & Hcode & _ & Hv) Hl Hip Hr Hn. rewrite emit_pooled_append in *.
  assert (Hc : nthZ (strings md) (fst r) = Some s).
  { destruct (loaded_extends _ _ _ (append_extends _ _) Hl) as (_ & _ & (ss & ->)).
    by apply nthZ_prefix. }
  pose proof (nthZ_bound _ _ _ Hc). zred.
  assert (Hu : u16 (fst r) = fst r) by (apply wrap_small; zred; lia). rewrite Hu in *.
  rewrite operand_end, Hcode, <- Hip. apply operand_code in Hl. rewrite Hcode, <- Hip in Hl.
  eapply run_str; try done. zred; lia.
Qed.

Lemma plain_push op e m n v :
  loaded md (bucc_emit_op op e) → ip m = zlen (code e) → ready m n → 0 < n →
  (∀ m, exec md punned host op m = bucc_vm_push v m) →
  gets_to m 1 (zlen (code (bucc_emit_op op e))) (v :: stack m) (store m).
Proof.
  intros Hl Hip Hr Hn He. rewrite emit_op_append in *. apply loaded_code in Hl.
  rewrite <- Hip in Hl. cbn [code append set_code]. rewrite zlen_app, zlen_cons, zlen_nil, <- Hip.
  replace (ip m + (1 + 0)) with (ip m + 1) by lia.
  eapply run_plain; [done | exact Hl | done | done | | by eapply ready_sp].
  rewrite He. by rewrite (replace_stack (fetched m) (stack m)).
Qed.

Lemma literal_runs v e m n :
  v ≠ VF64 neg_zero → floats_ok e → loaded md (emit_literal v e) → ip m = zlen (code e) →
  ready m n → 0 < n →
  gets_to m 1 (zlen (code (emit_literal v e))) (literal_value v :: stack m) (store m) ∧
  floats_ok (emit_literal v e).
Proof.
  intros Hv Hf Hl Hip Hr Hn.
  assert (Hop : ∀ op, floats_ok (bucc_emit_op op e)) by (intros; exact Hf).
  assert (Hpool : ∀ op r, floats_ok (snd r) → floats_ok (emit_pooled op r))
    by (intros op r H; rewrite emit_pooled_append; exact H).
  destruct v; cbn [emit_literal literal_value] in *;
    try (split; [| done]; eapply plain_push; try done; by destruct b).
  - destruct (i64_pooled z e) as (? & ? & ? & ?). split; [| auto].
    by eapply pooled_const.
  - assert (Hp : pooled consts (VF64 f) e (bucc_emit_constant_f64 f e))
      by (apply f64_pooled; congruence).
    split; [by eapply pooled_const | apply Hpool, Hp, Hf].
  - split; [by eapply pooled_str; [apply string_pooled | ..] | apply Hpool, string_pooled, Hf].
  - assert (Hp : pooled consts (VDate d) e (add_constant (VDate d) e)) by by apply constant_pooled.
    split; [by eapply pooled_const | apply Hpool, Hp, Hf].
  - assert (Hp : pooled consts (VDatetime d) e (add_constant (VDatetime d) e))
      by by apply constant_pooled.
    split; [by eapply pooled_const | apply Hpool, Hp, Hf].
Qed.

Lemma u16_range z : in_u 16 (u16 z).
Proof. by apply wrap_range. Qed.

Lemma ident_runs name e m n :
  env_ok m → loaded md (emit_ident scopes name e) → ip m = zlen (code e) → ready m n → 0 < n →
  gets_to m 1 (zlen (code (emit_ident scopes name e))) (env name :: stack m) (store m).
Proof.
  intros Henv Hl Hip Hr Hn. rewrite (Henv name). unfold emit_ident in *.
  destruct (lookup_symbol scopes name) as [[[] sn st sl] |]; cbn [sym_kind slot] in *;
    try (eapply plain_push; done);
    rewrite emit_op_u16_append in Hl; rewrite emit_op_u16_append, operand_end, <- Hip;
    apply operand_code in Hl; rewrite <- Hip in Hl.
  - eapply run_global; [exact Hlen | exact Hl | apply u16_range | exact Hr | done].
  - eapply (run_local md punned host Hlen OP_LOAD_LOCAL);
      [done | exact Hl | apply u16_range | exact Hr | done].
  - eapply (run_local md punned host Hlen OP_LOAD_ARG);
      [done | exact Hl | apply u16_range | exact Hr | done].
Qed.

(** The statement of the theorem for one expression. *)
Definition computes (x : expr) : Prop :=
  ∀ e m v h, literals_ok x → floats_ok e → loaded md (emit_expr x e) → ip m = zlen (code e) →
    ready m (size x) → env_ok m → eval env x (store m) = Some (v, h) →
    floats_ok (emit_expr x e) ∧
    gets_to m (size x) (zlen (code (emit_expr x e))) (v :: stack m) h.

Lemma size_pos x : 0 < size x.
Proof.
  assert (Hsum : ∀ l, Forall (λ x, 0 < size x) l → 0 <= foldr (λ x n, size x + n) 0 l)
    by (induction 1; cbn; lia).
  assert (Hsum' : ∀ l : list (cstr * expr), Forall (λ p, 0 < size (snd p)) l →
    0 <= foldr (λ p n, 1 + size (snd p) + n) 0 l) by (induction 1; cbn; lia).
  induction x using expr_ind'; cbn [size]; try lia.
  - match goal with H : Forall _ l |- _ => apply Hsum in H end. lia.
  - match goal with H : Forall _ l |- _ => apply Hsum' in H end. lia.
Qed.

(** After the operand [a]: the machine, ready for the rest. *)
Lemma after_operand a e m v h n :
  computes a → literals_ok a → floats_ok e → loaded md (emit_expr a e) → ip m = zlen (code e) →
  ready m (size a + n) → 0 <= n → env_ok m → eval env a (store m) = Some (v, h) →
  ∃ m1, goes md punned host m m1 (size a) (zlen (code (emit_expr a e))) (v :: stack m) h ∧
    floats_ok (emit_expr a e) ∧ env_ok m1 ∧ ready m1 n.
Proof.
  intros Ha Hlit Hf Hl Hip Hr Hn Henv Hev. pose proof (size_pos a).
  destruct (Ha e m v h Hlit Hf Hl Hip ltac:(eapply ready_le; [| exact Hr]; lia) Henv Hev)
    as (Hf1 & m1 & Hg). exists m1. split; [exact Hg |]. split; [done |].
  split; [by eapply env_ok_rest; [apply Hg |] |].
  eapply goes_ready; [exact Hg | lia | exact Hr |].
  destruct Hr as (_ & _ & _ & _ & Hsp). unfold sp in Hsp. zl.
Qed.

Lemma goes_exec m m1 n i s h stk :
  goes md punned host m m1 n i s h → set_stack stk (fetched m1) = set_stack stk (fetched m1) ∧
  stack (fetched m1) = s ∧ store (fetched m1) = h.
Proof. intros []. done. Qed.

Lemma unary_computes op a : computes a → computes (NUnary op a).
Proof.
  intros Ha e m v h Hlit Hf Hl Hip Hr Henv Hev. cbn [Emit.emit_expr size eval literals_ok] in *.
  apply bind_Some in Hev as ([w h1] & Hev & Hv). apply bind_Some in Hv as (r & Hop & [= -> ->]).
  rewrite emit_op_append in *. pose proof (size_pos a).
  pose proof (loaded_extends _ _ _ (append_extends _ _) Hl) as Hl1.
  destruct (after_operand a e m w h 1 Ha Hlit Hf Hl1 Hip) as (m1 & Hg & Hf1 & _ & Hr1);
    [by rewrite Z.add_comm | lia | done | done |].
  split; [exact Hf1 |]. rewrite (Z.add_comm 1).
  pose proof (ready_sp m (1 + size a) ltac:(lia) Hr) as Hsp.
  pose proof (ready_sp _ _ Z.lt_0_1 Hr1) as Hsp1. rewrite (goes_stack _ _ _ _ _ _ _ _ _ Hg) in Hsp1.
  eapply then_plain; [exact Hg | lia | by rewrite Z.add_comm | done | exact Hl | done | | exact Hsp].
  destruct (goes_exec _ _ _ _ _ _ [] Hg) as (_ & Hs1 & Hh1).
  rewrite <- (unop_exec md punned host op h w v (set_stack (stack m) (fetched m1)) Hop Hh1).
  cbn [stack set_stack]. f_equal. by rewrite replace_stack.
Qed.

Lemma operands_compute op a b e m v w h1 h2 r :
  (∀ m0, store m0 = h2 →
    exec md punned host op (set_stack (w :: v :: stack m0) m0) = bucc_vm_push r m0) →
  computes a → computes b → literals_ok a → literals_ok b → floats_ok e →
  loaded md (append [opcode_byte op] (emit_expr b (emit_expr a e))) → ip m = zlen (code e) →
  ready m (1 + size a + size b) → env_ok m →
  eval env a (store m) = Some (v, h1) → eval env b h1 = Some (w, h2) →
  floats_ok (emit_expr b (emit_expr a e)) ∧
  gets_to m (1 + size a + size b)
    (zlen (code (append [opcode_byte op] (emit_expr b (emit_expr a e))))) (r :: stack m) h2.
Proof.
  intros Hop Ha Hb Hla Hlb Hf Hl Hip Hr Henv Hva Hvb. pose proof (size_pos a). pose proof (size_pos b).
  pose proof (loaded_extends _ _ _ (append_extends _ _) Hl) as Hl2.
  pose proof (loaded_extends _ _ _ (emit_expr_extends _ _ _) Hl2) as Hl1.
  pose proof (ready_sp m (1 + size a + size b) ltac:(lia) Hr) as Hsp.
  destruct (after_operand a e m v h1 (size b + 1) Ha Hla Hf Hl1 Hip) as (m1 & Hg1 & Hf1 & Henv1 & Hr1);
    [by replace (size a + (size b + 1)) with (1 + size a + size b) by lia | lia | done | done |].
  destruct (after_operand b (emit_expr a e) m1 w h2 1 Hb Hlb Hf1 Hl2) as (m2 & Hg2 & Hf2 & _ & Hr2);
    [apply Hg1 | done | lia | done | |].
  { by rewrite (goes_store _ _ _ _ _ _ _ _ _ Hg1). }
  split; [exact Hf2 |].
  rewrite (goes_stack _ _ _ _ _ _ _ _ _ Hg1) in Hg2.
  pose proof (ready_sp _ _ Z.lt_0_1 Hr2) as Hsp2. rewrite (goes_stack _ _ _ _ _ _ _ _ _ Hg2) in Hsp2.
  pose proof (goes_trans _ _ _ _ _ _ _ _ _ _ _ _ _ _ Hg1 Hg2) as Hg.
  replace (1 + size a + size b) with (size a + size b + 1) in * by lia.
  eapply then_plain; [exact Hg | lia | exact Hr | done | exact Hl | done | | exact Hsp].
  destruct (goes_exec _ _ _ _ _ _ [] Hg) as (_ & Hs2 & Hh2).
  rewrite <- (Hop (set_stack (stack m) (fetched m2)) Hh2).
  cbn [stack set_stack]. f_equal. by rewrite replace_stack.
Qed.

Lemma binary_computes op a b : computes a → computes b → computes (NBinary op a b).
Proof.
  intros Ha Hb e m v h [Hla Hlb] Hf Hl Hip Hr Henv Hev. cbn [Emit.emit_expr size eval] in *.
  apply bind_Some in Hev as ([x h1] & Hx & Hev). apply bind_Some in Hev as ([y h2] & Hy & Hev).
  apply bind_Some in Hev as (r & Hop & [= -> ->]). rewrite emit_op_append in *.
  eapply operands_compute; try done. intros m0 Hm0. by eapply binop_exec.
Qed.

Lemma index_computes a i : computes a → computes i → computes (NIndex a i).
Proof.
  intros Ha Hb e m v h [Hla Hlb] Hf Hl Hip Hr Henv Hev. cbn [Emit.emit_expr size eval] in *.
  apply bind_Some in Hev as ([x h1] & Hx & Hev). apply bind_Some in Hev as ([y h2] & Hy & [= <- ->]).
  rewrite emit_op_append in *.
  eapply operands_compute; try done. intros m0 <-. apply array_get_exec.
Qed.

Lemma member_computes a k : computes a → computes (NMember a k).
Proof.
  intros Ha e m v h Hla Hf Hl Hip Hr Henv Hev. cbn [Emit.emit_expr size eval literals_ok] in *.
  apply bind_Some in Hev as ([w h1] & Hev & [= <- ->]). rewrite emit_op_append in *.
  set (e1 := emit_expr a e) in *. pose proof (size_pos a).
  pose proof (string_pooled k e1) as Hp.
  pose proof (loaded_extends _ _ _ (append_extends _ _) Hl) as Hl2.
  pose proof (loaded_extends _ _ _ (emit_pooled_extends OP_PUSH_STR _ _ (proj1 Hp)) Hl2) as Hl1.
  pose proof (ready_sp m (2 + size a) ltac:(lia) Hr) as Hsp.
  destruct (after_operand a e m w h 2 Ha Hla Hf Hl1 Hip) as (m1 & Hg1 & Hf1 & _ & Hr1);
    [by rewrite Z.add_comm | lia | done | done |].
  destruct (pooled_str k e1 _ m1 2 Hp Hl2 (goes_ip _ _ _ _ _ _ _ _ _ Hg1) Hr1 ltac:(lia))
    as [m2 Hg2].
  split; [rewrite emit_pooled_append; by apply (proj1 (proj2 (proj2 Hp))) |].
  assert (Hs2 : zlen (stack m1) + 1 < BUCC_STACK_MAX).
  { destruct Hr1 as (_ & _ & _ & _ & H2). unfold sp in H2.
    destruct Hr as (_ & _ & _ & _ & H3). unfold sp in H3.
    rewrite (goes_stack _ _ _ _ _ _ _ _ _ Hg1) in *. zl. }
  rewrite (goes_store _ _ _ _ _ _ _ _ _ Hg1) in Hg2.
  pose proof (goes_trans _ _ _ _ _ _ _ _ _ _ _ _ _ _ Hg1 Hg2) as Hg.
  replace (2 + size a) with (size a + 1 + 1) in * by lia.
  eapply then_plain; [exact Hg | lia | exact Hr | rewrite zlen_cons; lia | exact Hl | done | | exact Hsp].
  destruct (goes_exec _ _ _ _ _ _ [] Hg) as (_ & Hstk & Hh2). rewrite <- Hh2.
  change (store (fetched m2)) with (store (set_stack (stack m) (fetched m2))).
  rewrite <- (map_get_exec md punned host w k (set_stack (stack m) (fetched m2))).
  cbn [stack set_stack]. f_equal. rewrite replace_stack; [done |].
  by rewrite Hstk, (goes_stack _ _ _ _ _ _ _ _ _ Hg1).
Qed.

(** One more instruction with an index operand. *)
Lemma then_operand op v m m1 n i1 s1 h stk h' (e : emitter) :
  goes md punned host m m1 n i1 s1 h → in_u 16 v →
  loaded md (append (opcode_byte op :: u16_bytes v) e) → i1 = zlen (code e) →
  (code_at md (ip m1) (opcode_byte op :: u16_bytes v ++ []) → gets_to m1 1 (ip m1 + 3) stk h') →
  gets_to m (n + 1) (zlen (code (append (opcode_byte op :: u16_bytes v) e))) stk h'.
Proof.
  intros Hg Hv Hl -> Hrun. pose proof (operand_code _ _ _ Hl) as Hc.
  pose proof (goes_ip _ _ _ _ _ _ _ _ _ Hg) as Hip. rewrite <- Hip in Hc.
  destruct (Hrun Hc) as [m2 Hg2]. exists m2. rewrite operand_end, <- Hip. by eapply goes_trans.
Qed.

Definition sizes (l : list expr) : Z := foldr (λ x n, size x + n) 0 l.

Lemma sizes_nonneg l : zlen l <= sizes l.
Proof.
  induction l as [|x l IH]; cbn; [done |]. rewrite zlen_cons. pose proof (size_pos x).
  unfold sizes in IH. lia.
Qed.

Lemma elements_compute l : ∀ e m vs h n,
  Forall computes l → all literals_ok l → floats_ok e →
  loaded md (fold_left (λ e a, emit_expr a e) l e) → ip m = zlen (code e) →
  ready m (sizes l + n) → 0 <= n → env_ok m → evals env l (store m) = Some (vs, h) →
  floats_ok (fold_left (λ e a, emit_expr a e) l e) ∧ length vs = length l ∧
  ∃ m1, goes md punned host m m1 (sizes l)
      (zlen (code (fold_left (λ e a, emit_expr a e) l e))) (rev vs ++ stack m) h ∧
    env_ok m1 ∧ ready m1 n.
Proof.
  induction l as [|x l IH]; intros e m vs h n Hall Hlit Hf Hl Hip Hr Hn Henv Hev;
    cbn [fold_left evals all] in *.
  { injection Hev as <- <-. split; [done |]. split; [done |]. exists m.
    split; [split; done || (cbn; lia) | by split]. }
  apply bind_Some in Hev as ([v h1] & Hv & Hev). apply bind_Some in Hev as ([ws h2] & Hws & [= <- ->]).
  inversion Hall as [| ? ? Hx Hall']; subst. destruct Hlit as [Hlx Hlit].
  pose proof (loaded_extends _ _ _ (fold_extends (λ e a, emit_expr a e) l _
    ltac:(apply Forall_forall; intros; apply emit_expr_extends)) Hl) as Hl1.
  pose proof (sizes_nonneg l). pose proof (zlen_nonneg l).
  change (sizes (x :: l)) with (size x + sizes l) in *.
  destruct (after_operand x e m v h1 (sizes l + n) Hx Hlx Hf Hl1 Hip) as (m1 & Hg1 & Hf1 & Henv1 & Hr1);
    [by rewrite Z.add_assoc | lia | done | done |].
  destruct (IH (emit_expr x e) m1 ws h n Hall' Hlit Hf1 Hl) as (Hf2 & Hlen2 & m2 & Hg2 & Henv2 & Hr2);
    [apply Hg1 | done | done | done | by rewrite (goes_store _ _ _ _ _ _ _ _ _ Hg1) |].
  split; [done |]. split; [cbn; lia |]. exists m2. split; [| done].
  cbn [rev]. rewrite <- app_assoc. cbn [app].
  rewrite (goes_stack _ _ _ _ _ _ _ _ _ Hg1) in Hg2. by eapply goes_trans.
Qed.

Lemma array_computes l : Forall computes l → computes (NArrayLit l).
Proof.
  intros Hall e m v h Hlit Hf Hl Hip Hr Henv Hev. rewrite eval_array in Hev.
  apply bind_Some in Hev as ([vs h1] & Hev & [= <- <-]).
  destruct Hlit as [Hcount Hlit]. cbn [Emit.emit_expr size] in *.
  rewrite emit_op_u16_append in *. fold (sizes l) in *. pose proof (zlen_nonneg l).
  assert (Hu : u16 (zlen l) = zlen l) by (apply wrap_small; zred; lia). rewrite Hu in *.
  pose proof (loaded_extends _ _ _ (append_extends _ _) Hl) as Hl1.
  pose proof (sizes_nonneg l). pose proof (ready_sp m (1 + sizes l) ltac:(lia) Hr) as Hsp.
  destruct (elements_compute l e m vs h1 1 Hall Hlit Hf Hl1 Hip) as (Hf1 & Hn & m1 & Hg & _ & Hr1);
    [by rewrite Z.add_comm | lia | done | done |].
  split; [exact Hf1 |]. rewrite (Z.add_comm 1).
  assert (Hz : zlen l = zlen vs) by (unfold zlen; lia). rewrite Hz in *.
  assert (Hin : in_u 16 (zlen vs)) by (zred; lia).
  eapply then_operand; [exact Hg | exact Hin | exact Hl | done |]. intros Hc.
  pose proof (goes_store _ _ _ _ _ _ _ _ _ Hg) as Hh. rewrite <- Hh.
  eapply run_array; [exact Hlen | exact Hc | exact Hin | exact Hr1 | done | by apply Hg | done].
Qed.

Definition pair_sizes (l : list (cstr * expr)) : Z := foldr (λ p n, 1 + size (snd p) + n) 0 l.

Lemma pair_sizes_nonneg l : 2 * zlen l <= pair_sizes l.
Proof.
  induction l as [|[k x] l IH]; cbn; [done |]. rewrite zlen_cons. pose proof (size_pos x).
  unfold pair_sizes in IH. lia.
Qed.

Abbreviation emit_pair := (λ e p,
  emit_expr (snd p) (emit_pooled OP_PUSH_STR (bucc_emit_string (fst p) e))).

Lemma emit_pair_extends p e : extends e (emit_pair e p).
Proof.
  etrans; [| apply emit_expr_extends]. apply emit_pooled_extends, string_pooled.
Qed.

Lemma pair_operands_cons k v kvs :
  pair_operands ((k, v) :: kvs) = pair_operands kvs ++ [v; VString k].
Proof. apply (rev_app_distr [VString k; v]). Qed.

Lemma pairs_compute l : ∀ e m kvs h n,
  Forall (λ p, computes (snd p)) l → all (λ p, literals_ok (snd p)) l → floats_ok e →
  loaded md (fold_left emit_pair l e) → ip m = zlen (code e) →
  ready m (pair_sizes l + n) → 0 <= n → env_ok m → eval_pairs env l (store m) = Some (kvs, h) →
  floats_ok (fold_left emit_pair l e) ∧ length kvs = length l ∧
  ∃ m1, goes md punned host m m1 (pair_sizes l)
      (zlen (code (fold_left emit_pair l e))) (pair_operands kvs ++ stack m) h ∧
    env_ok m1 ∧ ready m1 n.
Proof.
  induction l as [|[k x] l IH]; intros e m kvs h n Hall Hlit Hf Hl Hip Hr Hn Henv Hev.
  { injection Hev as <- <-. split; [done |]. split; [done |]. exists m.
    split; [split; done || (cbn; lia) | by split]. }
  cbn [eval_pairs] in Hev.
  apply bind_Some in Hev as ([v h1] & Hv & Hev). apply bind_Some in Hev as ([ws h2] & Hws & [= <- ->]).
  inversion Hall as [| ? ? Hx Hall']; subst. destruct Hlit as [Hlx Hlit]. cbn [snd] in Hx, Hlx.
  cbn [fold_left] in *.
  pose proof (loaded_extends _ _ _ (fold_extends emit_pair l _
    ltac:(apply Forall_forall; intros; apply emit_pair_extends)) Hl) as Hl2.
  cbn [fst snd] in *. set (r := bucc_emit_string k e) in *.
  pose proof (loaded_extends _ _ _ (emit_expr_extends _ _ _) Hl2) as Hl1.
  pose proof (string_pooled k e) as Hp. fold r in Hp.
  pose proof (pair_sizes_nonneg l). pose proof (zlen_nonneg l). pose proof (size_pos x).
  change (pair_sizes ((k, x) :: l)) with (1 + size x + pair_sizes l) in *.
  destruct (pooled_str k e r m _ Hp Hl1 Hip Hr ltac:(lia)) as [m1 Hg1].
  assert (Hr1 : ready m1 (size x + (pair_sizes l + n))).
  { eapply goes_ready; [exact Hg1 | lia | |].
    - by replace (1 + (size x + (pair_sizes l + n))) with (1 + size x + pair_sizes l + n) by lia.
    - destruct Hr as (_ & _ & _ & _ & Hsp). unfold sp in Hsp. rewrite zlen_cons. lia. }
  destruct (after_operand x (emit_pooled OP_PUSH_STR r) m1 v h1 (pair_sizes l + n) Hx Hlx)
    as (m2 & Hg2 & Hf2 & Henv2 & Hr2).
  { rewrite emit_pooled_append. by apply (proj1 (proj2 (proj2 Hp))). }
  { exact Hl2. } { apply Hg1. } { exact Hr1. } { lia. }
  { eapply env_ok_rest; [apply Hg1 | done]. }
  { by rewrite (goes_store _ _ _ _ _ _ _ _ _ Hg1). }
  destruct (IH (emit_expr x (emit_pooled OP_PUSH_STR r)) m2 ws h n Hall' Hlit Hf2 Hl)
    as (Hf3 & Hlen3 & m3 & Hg3 & Henv3 & Hr3);
    [apply Hg2 | done | done | done | by rewrite (goes_store _ _ _ _ _ _ _ _ _ Hg2) |].
  split; [done |]. split; [cbn; lia |]. exists m3. split; [| done].
  rewrite pair_operands_cons, <- app_assoc. cbn [app].
  rewrite (goes_stack _ _ _ _ _ _ _ _ _ Hg1) in Hg2.
  rewrite (goes_stack _ _ _ _ _ _ _ _ _ Hg2) in Hg3.
  eapply goes_trans; [eapply goes_trans; [exact Hg1 | exact Hg2] | exact Hg3].
Qed.

Lemma map_computes l : Forall (λ p, computes (snd p)) l → computes (NMapLit l).
Proof.
  intros Hall e m v h Hlit Hf Hl Hip Hr Henv Hev. rewrite eval_map in Hev.
  apply bind_Some in Hev as ([kvs h1] & Hev & [= <- <-]).
  destruct Hlit as [Hcount Hlit]. cbn [Emit.emit_expr size] in *.
  rewrite emit_op_u16_append in *. fold (pair_sizes l) in *. pose proof (zlen_nonneg l).
  assert (Hu : u16 (zlen l) = zlen l) by (apply wrap_small; zred; lia). rewrite Hu in *.
  pose proof (loaded_extends _ _ _ (append_extends _ _) Hl) as Hl1.
  pose proof (pair_sizes_nonneg l). pose proof (ready_sp m (1 + pair_sizes l) ltac:(lia) Hr) as Hsp.
  destruct (pairs_compute l e m kvs h1 1 Hall Hlit Hf Hl1 Hip) as (Hf1 & Hn & m1 & Hg & _ & Hr1);
    [by rewrite Z.add_comm | lia | done | done |].
  split; [exact Hf1 |]. rewrite (Z.add_comm 1).
  assert (Hz : zlen l = zlen kvs) by (unfold zlen; lia). rewrite Hz in *.
  assert (Hin : in_u 16 (zlen kvs)) by (zred; lia).
  eapply then_operand; [exact Hg | exact Hin | exact Hl | done |]. intros Hc.
  pose proof (goes_store _ _ _ _ _ _ _ _ _ Hg) as Hh. rewrite <- Hh.
  eapply run_map; [exact Hlen | exact Hc | exact Hin | exact Hr1 | done | by apply Hg | done].
Qed.

Lemma all_compute x : computes x.
Proof.
  induction x using expr_ind'.
  - intros e m v h _ Hf Hl Hip Hr Henv [= <- <-]. split.
    + unfold Emit.emit_expr, emit_ident. destruct (lookup_symbol scopes name) as [[[] ? ? ?] |];
        rewrite ?emit_op_u16_append; exact Hf.
    + eapply ident_runs; done.
  - intros e m w h Hlit Hf Hl Hip Hr Henv [= <- <-].
    destruct (literal_runs v e m 1 Hlit Hf Hl Hip Hr Z.lt_0_1). by split.
  - by apply unary_computes.
  - by apply binary_computes.
  - by intros e m v h _ _ _ _ _ _ [=].
  - by apply member_computes.
  - by apply index_computes.
  - by apply array_computes.
  - by apply map_computes.
  - by intros e m v h _ _ _ _ _ _ [=].
  - intros e m v h _ Hf Hl Hip Hr Henv [= <- <-]. split; [exact Hf |]. by eapply plain_push.
  - by intros e m v h _ _ _ _ _ _ [=].
Qed.
End correct.

(** C2. The code generated for an expression computes its value. Let [x] be an
    expression without calls, with no literal -0.0 and at most 65535 elements in
    each array and map literal, whose value is [v], with the store [h] after it
    (operands left to right, exact 64-bit integers with no overflow, doubles,
    texts, fresh arrays and maps, null for the index of what is no array). Emit
    it after any code that has not put -0.0 in the pool of constants, where the
    generator confuses it with 0.0 (emit.c:208), and load the result, with
    whatever is emitted later, as a module of less than 4 GB of code and at most
    65536 constants and texts. From the start of that code, a machine whose
    variables have the values of the names and that has a stack entry and an
    instruction left for each instruction reaches the end of it in one step per
    instruction, with [v] pushed, the store [h], and its variables, frames,
    handlers, limits and status as they were. *)
Theorem emit_expr_correct md punned host scopes env x e m v h :
  bytecode_len md < 2 ^ 32 → zlen (constants md) <= 2 ^ 16 → zlen (strings md) <= 2 ^ 16 →
  literals_ok x → floats_ok e → loaded md (emit_expr scopes x e) →
  ip m = zlen (code e) → ready m (size x) → env_ok scopes env m →
  eval env x (store m) = Some (v, h) →
  ∃ m', rtc (steps md punned host) m m' ∧
    ip m' = zlen (code (emit_expr scopes x e)) ∧ stack m' = v :: stack m ∧ store m' = h ∧
    rest m' = rest m ∧ instructions (cnt m') = instructions (cnt m) + size x.
Proof.
  intros H1 H2 H3 H4 H5 H6 H7 H8 H9 H10.
  destruct (all_compute md punned host scopes env H1 H2 H3 x e m v h H4 H5 H6 H7 H8 H9 H10)
    as (_ & m' & []). by exists m'.
Qed.

(** ** Witness *)

(** [g * 3 + \[1, 2\]\[1\]], with a global [g] that holds 4. *)
Definition sample_expr : expr :=
  NBinary BINARY_ADD (NBinary BINARY_MUL (NIdent (lit "g")) (NLiteral (VI64 3)))
    (NIndex (NArrayLit [NLiteral (VI64 1); NLiteral (VI64 2)]) (NLiteral (VI64 1))).

Definition sample_scopes : list scope :=
  scopes (analyzed (MkNode [] [MkVar (Some (lit "g")) None None] [])).

Definition sample_env (name : cstr) : value :=
  if same_name (lit "g") name then VI64 4 else VNull.

Definition sample_module : module :=
  bucc_emitter_to_module (emit_expr sample_scopes sample_expr (bucc_emitter_new [])).

Definition sample_vm : vm := set_globals [VI64 4] (bucc_vm_new []).

Lemma emit_expr_correct_witness :
  ∃ m', rtc (steps sample_module (λ _, 0) None) sample_vm m' ∧
    ip m' = zlen (code (emit_expr sample_scopes sample_expr (bucc_emitter_new []))) ∧
    stack m' = [VI64 14] ∧ store m' = [CArray [VI64 1; VI64 2]] ∧
    rest m' = rest sample_vm ∧ instructions (cnt m') = 9.
Proof.
  apply (emit_expr_correct sample_module (λ _, 0) None sample_scopes sample_env sample_expr
    (bucc_emitter_new []) sample_vm (VI64 14) [CArray [VI64 1; VI64 2]]).
  - vm_compute; reflexivity.
  - vm_compute; discriminate.
  - vm_compute; discriminate.
  - cbn. split_and!; by vm_compute.
  - constructor.
  - split_and!; exists []; by vm_compute.
  - by vm_compute.
  - split_and!; by vm_compute.
  - intros name. unfold lookup_symbol, sample_scopes, sample_env.
    set (l := scopes _). vm_compute in l. subst l. cbn [bucc_scope_lookup symbols find_symbol sym_name].
    change [103] with (lit "g"). destruct (same_name (lit "g") name); by vm_compute.
  - by vm_compute.
Defined.
