(* ===== verification/EmitInv.v ===== *)
(** What every step of the Buccaneer code generator preserves. An invariant of
    the emitter is given by a class with one law for each elementary step: an
    instruction appended, a jump with its forward reference, a label placed, an
    entry added to a pool, bookkeeping. Whatever satisfies the laws is preserved
    by expressions, statements and blocks. *)

From S2P Require Import Prelude CLib Float Value Vm VmSpec Ast Semantic Emit EmitSpec.

#[local] Open Scope Z_scope.

Create HintDb emits discriminated.

(** ** The interface *)

(** The bytes of operands that the machine reads after an opcode. *)
Definition operand_len (op : opcode) : Z :=
  match op with
  | OP_PUSH_I64 | OP_PUSH_F64 | OP_PUSH_STR | OP_PUSH_DATE | OP_PUSH_DATETIME | OP_LOAD_GLOBAL
  | OP_STORE_GLOBAL | OP_LOAD_LOCAL | OP_STORE_LOCAL | OP_LOAD_ARG | OP_ARRAY_NEW | OP_MAP_NEW
  | OP_DEBUG_LINE => 2
  | OP_CALL | OP_CALL_HOST | OP_CHAIN | OP_DISPATCH_CALL | OP_RANGE_TEST => 3
  | OP_JMP | OP_JMP_FALSE | OP_JMP_TRUE | OP_TRY_BEGIN => 4
  | _ => 0
  end.

(** Programs without the three instructions that the verifier of modules sees
    with other operands than the machine, and whose host calls have names. *)
Definition plain_op (op : opcode) : Prop :=
  match op with OP_ARRAY_NEW | OP_MAP_NEW | OP_CHAIN => False | _ => True end.

Definition named (imp : cstr * cstr) : Prop := fst imp ≠ [] ∧ snd imp ≠ [].

Fixpoint plain_expr (x : expr) : Prop :=
  match x with
  | NUnary _ a | NMember a _ => plain_expr a
  | NBinary _ a b | NIndex a b => plain_expr a ∧ plain_expr b
  | NCall c args => plain_expr c ∧ all plain_expr args
  | NArrayLit _ | NMapLit _ => False
  | NQualified ns name => named (ns, name)
  | NIdent _ | NLiteral _ | NOther | NNull => True
  end.

Definition plain_option {A} (P : A → Prop) (o : option A) : Prop :=
  match o with Some x => P x | None => True end.

Fixpoint plain_stmt (s : stmt) : Prop :=
  match s with Stmt _ _ k => plain_kind k end

with plain_kind (k : stmt_kind) : Prop :=
  match k with
  | SVarDecl d => plain_option plain_expr (initializer d)
  | SAssign target v => plain_expr target ∧ plain_expr v
  | SExpr x | SThrow x => plain_expr x
  | SIf c b clauses eb =>
      plain_expr c ∧ all plain_stmt b ∧
      all (λ cl, plain_expr (fst cl) ∧ all plain_stmt (snd cl)) clauses ∧
      plain_option (all plain_stmt) eb
  | SSelect x cases eb =>
      plain_expr x ∧ all plain_case cases ∧ plain_option (all plain_stmt) eb
  | SWhile c b => plain_expr c ∧ all plain_stmt b
  | SDoLoop b c _ => all plain_stmt b ∧ plain_option plain_expr c
  | SFor _ a b step body =>
      plain_expr a ∧ plain_expr b ∧ plain_option plain_expr step ∧ all plain_stmt body
  | STryCatch b _ cb => all plain_stmt b ∧ all plain_stmt cb
  | SReturn x => plain_option plain_expr x
  | SChain _ _ => False
  | SOnCall sel _ => plain_expr sel
  | SExit _ | SHalt | SOther => True
  end

with plain_case (c : select_case) : Prop :=
  match c with
  | Case values lows highs body =>
      all plain_expr values ∧ all plain_expr lows ∧ all plain_expr highs ∧ all plain_stmt body
  end.

Definition plain_proc (p : proc_decl) : Prop := all plain_stmt (decl_body p).

(** Constants that the code generator makes. *)
Definition emitted_constant (v : value) : Prop :=
  match v with VI64 _ | VF64 _ | VDate _ | VDatetime _ => True | _ => False end.

(** An invariant of the emitter; with [strict], of plain programs only. *)
Class EmitInvariant (strict : bool) (I : emitter → Prop) : Prop := {
  inv_code op args e :
    (strict = true → plain_op op) → operand_len op = zlen args → I e →
    I (append (opcode_byte op :: args) e);
  inv_jump op label e : operand_len op = 4 → I e → I (bucc_emit_jump op label e);
  inv_label label e : I e → I (bucc_emit_label_here label e);
  inv_string s e : s ∉ strs e → I e → I (set_strs (s :: strs e) e);
  inv_constant v e : emitted_constant v → I e → I (set_consts (v :: consts e) e);
  inv_import imp e : (strict = true → named imp) → I e → I (set_imps (imp :: imps e) e);
  inv_frame e e' :
    (code e', strs e', consts e', procs e', imps e', labels e', patches e')
    = (code e, strs e, consts e, procs e, imps e, labels e, patches e) → I e → I e'
}.

Section preserved.
Context {strict : bool} {I : emitter → Prop} {HI : EmitInvariant strict I}.

(** A step of emission keeps the invariant. *)
Definition emits (f : emitter → emitter) : Prop := ∀ e, I e → I (f e).

Lemma emits_id : emits (λ e, e).
Proof. by intros e He. Qed.

Lemma emits_comp f g : emits f → emits g → emits (λ e, g (f e)).
Proof. intros Hf Hg e He. by apply Hg, Hf. Qed.

Lemma emits_fold {A} (f : emitter → A → emitter) l :
  Forall (λ x, emits (λ e, f e x)) l → emits (λ e, fold_left f l e).
Proof.
  induction 1 as [|x l Hx _ IH]; [apply emits_id |]. exact (emits_comp _ _ Hx IH).
Qed.

Lemma emits_op op : (strict = true → plain_op op) → operand_len op = 0 → emits (bucc_emit_op op).
Proof. intros H H0 e He. rewrite emit_op_append. by apply inv_code. Qed.

Lemma emits_op_u16 op v :
  (strict = true → plain_op op) → operand_len op = 2 → emits (bucc_emit_op_u16 op v).
Proof. intros H H0 e He. rewrite emit_op_u16_append. by apply inv_code. Qed.

Lemma emits_op_u16_byte op v b :
  (strict = true → plain_op op) → operand_len op = 3 →
  emits (λ e, bucc_emit_byte b (bucc_emit_op_u16 op v e)).
Proof.
  intros H H0 e He. rewrite emit_op_u16_append. unfold bucc_emit_byte, append.
  cbn [code set_code]. rewrite <- app_assoc, <- app_comm_cons.
  apply (inv_code (strict := strict) op (u16_bytes (u16 v) ++ [u8 b]) e); done.
Qed.

Lemma emits_jump op l : operand_len op = 4 → emits (bucc_emit_jump op l).
Proof. intros H e He. by apply (inv_jump (strict := strict)). Qed.

Lemma emits_label_here l : emits (bucc_emit_label_here l).
Proof. intros e He. by apply (inv_label (strict := strict)). Qed.

Lemma emits_frame f :
  (∀ e, (code (f e), strs (f e), consts (f e), procs (f e), imps (f e), labels (f e), patches (f e))
        = (code e, strs e, consts e, procs e, imps e, labels e, patches e)) →
  emits f.
Proof. intros Hf e He. by apply (inv_frame (strict := strict) e). Qed.

(** A label allocated for the rest of the emission. *)
Lemma emits_label (k : Z → emitter → emitter) :
  (∀ l, emits (k l)) → emits (λ e, let '(l, e) := bucc_emit_label e in k l e).
Proof.
  intros Hk e He. cbn. apply Hk. by apply (inv_frame (strict := strict) e).
Qed.

Lemma pool_add_cases {A} (p : A → bool) x l :
  snd (pool_add p x l) = l ∨ pool_find p l = None ∧ snd (pool_add p x l) = x :: l.
Proof. unfold pool_add. destruct (pool_find p l); [by left | by right]. Qed.

Lemma pool_find_none {A} (p : A → bool) l x : pool_find p l = None → x ∈ l → p x = false.
Proof.
  intros H Hx. induction Hx as [x l | x y l Hx IH]; cbn in H; [by destruct (p x) |].
  destruct (p y); [done | by apply IH].
Qed.

Lemma emits_string s : emits (λ e, snd (bucc_emit_string s e)).
Proof.
  intros e He. unfold bucc_emit_string.
  pose proof (pool_add_cases (λ t, bool_decide (t = s)) s (strs e)) as Hc.
  destruct (pool_add _ _ _) as [i l]. cbn [snd] in *. destruct Hc as [-> | [Hn ->]].
  - by apply (inv_frame (strict := strict) e).
  - apply (inv_string (strict := strict)); [| done]. intros Hin.
    apply (pool_find_none _ _ _ Hn) in Hin. by rewrite bool_decide_eq_true_2 in Hin.
Qed.

Lemma emits_i64 z : emits (λ e, snd (bucc_emit_constant_i64 z e)).
Proof.
  intros e He. unfold bucc_emit_constant_i64.
  pose proof (pool_add_cases (λ c, match c with VI64 y => y =? z | _ => false end) (VI64 z) (consts e)) as Hc.
  destruct (pool_add _ _ _) as [i l]. cbn [snd] in *. destruct Hc as [-> | [Hn ->]].
  - by apply (inv_frame (strict := strict) e).
  - by apply (inv_constant (strict := strict)).
Qed.

Lemma emits_f64 f : emits (λ e, snd (bucc_emit_constant_f64 f e)).
Proof.
  intros e He. unfold bucc_emit_constant_f64.
  pose proof (pool_add_cases (λ c, match c with VF64 y => feqb y f | _ => false end) (VF64 f) (consts e)) as Hc.
  destruct (pool_add _ _ _) as [i l]. cbn [snd] in *. destruct Hc as [-> | [Hn ->]].
  - by apply (inv_frame (strict := strict) e).
  - by apply (inv_constant (strict := strict)).
Qed.

Lemma emits_import ns fn :
  (strict = true → named (ns, fn)) → emits (λ e, snd (bucc_emit_host_import ns fn e)).
Proof.
  intros Hnamed e He. unfold bucc_emit_host_import.
  pose proof (pool_add_cases (λ i, same_name (fst i) ns && same_name (snd i) fn) (ns, fn) (imps e)) as Hc.
  destruct (pool_add _ _ _) as [i l]. cbn [snd] in *. destruct Hc as [-> | [Hn ->]].
  - by apply (inv_frame (strict := strict) e).
  - by apply (inv_import (strict := strict)).
Qed.

Lemma emits_add_constant v : emitted_constant v → emits (λ e, snd (add_constant v e)).
Proof. intros Hv e He. by apply (inv_constant (strict := strict)). Qed.

Lemma emits_pooled op (get : emitter → Z * emitter) :
  (strict = true → plain_op op) → operand_len op = 2 →
  emits (λ e, snd (get e)) → emits (λ e, emit_pooled op (get e)).
Proof.
  intros H H0 Hg e He. specialize (Hg e He). cbn beta in Hg. destruct (get e) as [i e1].
  by apply emits_op_u16.
Qed.

Lemma emits_debug_line line col : emits (bucc_emit_debug_line line col).
Proof.
  intros e He. unfold bucc_emit_debug_line. destruct (negb _); [done |]. destruct (_ =? _); [done |].
  apply emits_op_u16; [done | done |]. by apply (inv_frame (strict := strict) e).
Qed.

Lemma emits_store_next : emits store_next_local.
Proof.
  intros e He. apply (inv_frame (strict := strict) (bucc_emit_op_u16 OP_STORE_LOCAL (current_local_count e) e));
    [done |]. by apply emits_op_u16.
Qed.

Lemma emits_error m : emits (emit_error m).
Proof. by apply emits_frame. Qed.

Lemma emits_with_loop s t f : emits f → emits (with_loop s t f).
Proof.
  intros Hf e He. unfold with_loop. apply (inv_frame (strict := strict) (f (set_loop s t e))); [done |].
  apply Hf. by apply (inv_frame (strict := strict) e).
Qed.

(** A step that looks at the emitter to choose what it does. *)
Lemma emits_look {A} (g : emitter → A) (k : A → emitter → emitter) :
  (∀ x, emits (k x)) → emits (λ e, k (g e) e).
Proof. intros Hk e He. by apply Hk. Qed.

#[local] Hint Extern 0 (strict = true → plain_op _) => (intros _; exact Logic.I) : emits.
#[local] Hint Extern 0 (operand_len _ = _) => reflexivity : emits.
#[local] Hint Extern 0 (emitted_constant _) => exact Logic.I : emits.
#[local] Hint Resolve emits_id emits_op emits_op_u16 emits_op_u16_byte emits_label_here emits_jump
  emits_string emits_i64 emits_f64 emits_import emits_add_constant emits_debug_line
  emits_store_next emits_error : emits.

(** ** Every step of the code generator *)

(** The step as a function of the emitter. *)
Ltac emits_eta := match goal with |- emits ?f => change (emits (λ e, f e)) end.

Lemma emits_pooled_byte op (get : emitter → Z * emitter) b :
  (strict = true → plain_op op) → operand_len op = 3 →
  emits (λ e, snd (get e)) → emits (λ e, bucc_emit_byte b (emit_pooled op (get e))).
Proof.
  intros H H0 Hg e He. specialize (Hg e He). cbn beta in Hg. destruct (get e) as [i e1].
  by apply (emits_op_u16_byte op i b).
Qed.

Lemma emits_optional {A} (f : A → emitter → emitter) (g : emitter → emitter) (o : option A) :
  (∀ x, o = Some x → emits (f x)) → emits g →
  emits (λ e, match o with Some x => f x e | None => g e end).
Proof. intros Hf Hg. destruct o; [by apply Hf | done]. Qed.

(** A step [F] after another one, [f]. *)
Ltac emits_after f F :=
  lazymatch f with (λ e, e) => fail | _ => apply (emits_comp f F) end.

(** Splits a step into elementary ones. *)
Ltac emits_seq :=
  repeat first
    [ solve [auto 4 with emits nocore]
    | match goal with
      | |- emits (λ e, bucc_emit_byte ?b (emit_pooled ?op (bucc_emit_host_import ?s ?t (@?f e)))) =>
          emits_after f (λ e, bucc_emit_byte b (emit_pooled op (bucc_emit_host_import s t e)))
      | |- emits (λ e, bucc_emit_byte ?b (emit_pooled ?op (?get e))) =>
          apply (emits_pooled_byte op get b)
      | |- emits (λ e, bucc_emit_byte ?b (bucc_emit_op_u16 ?op ?v (@?f e))) =>
          emits_after f (λ e, bucc_emit_byte b (bucc_emit_op_u16 op v e))
      | |- emits (λ e, emit_pooled ?op (bucc_emit_string ?s (@?f e))) =>
          emits_after f (λ e, emit_pooled op (bucc_emit_string s e))
      | |- emits (λ e, emit_pooled ?op (bucc_emit_constant_i64 ?s (@?f e))) =>
          emits_after f (λ e, emit_pooled op (bucc_emit_constant_i64 s e))
      | |- emits (λ e, emit_pooled _ (_ e)) => apply emits_pooled
      | |- emits (λ e, match ?o with Some x => @?f x e | None => @?g e end) =>
          apply (emits_optional f g o); [intros ? -> |]
      | |- emits (λ e, let '(l, e') := bucc_emit_label e in @?k l e') =>
          apply (emits_label k); intros ?
      | |- emits (with_loop _ _ _) => apply emits_with_loop
      | |- emits (λ e, ?F (@?f e)) =>
          emits_after f F
      | |- emits (λ e, ?F e) => change (emits F)
      end ].

Section steps.
Context (scopes : list scope).

Lemma strict_all {A} (P : A → Prop) l :
  (strict = true → all P l) → Forall (λ x, strict = true → P x) l.
Proof.
  induction l as [|x l IH]; intros H; constructor.
  - intros Hs. by apply H.
  - apply IH. intros Hs. by apply H.
Qed.

Lemma Forall_mp {A} (P Q : A → Prop) l :
  Forall (λ x, P x → Q x) l → Forall P l → Forall Q l.
Proof. induction 1; inversion 1; constructor; auto. Qed.

Lemma emits_literal v : emits (emit_literal v).
Proof. destruct v as [| [] | | | | | | | |]; emits_eta; cbn [emit_literal]; emits_seq. Qed.

Lemma emits_ident name : emits (emit_ident scopes name).
Proof.
  emits_eta. unfold emit_ident.
  destruct (lookup_symbol scopes name) as [[[] ? ? ?] |]; cbn [sym_kind Semantic.slot]; emits_seq.
Qed.

Lemma emits_host_call ns name argc :
  (strict = true → named (ns, name)) → emits (emit_host_call ns name argc).
Proof. intros Hn. emits_eta. unfold emit_host_call. emits_seq. Qed.

Lemma emits_call c f argc :
  (strict = true → plain_expr c) → emits f → emits (emit_call scopes c f argc).
Proof.
  intros Hc Hf. destruct c; emits_eta; cbn [emit_call]; try exact Hf; [| by apply emits_host_call].
  destruct (lookup_symbol scopes name) as [[[] ? ? ?] |]; cbn [sym_kind Semantic.slot]; emits_seq.
Qed.

(** Splits a condition on a program into those on its parts. *)
Ltac plain := cbn in *; tauto.

Lemma emits_exprs l :
  Forall (λ x, (strict = true → plain_expr x) → emits (emit_expr scopes x)) l →
  (strict = true → all plain_expr l) → emits (λ e, fold_left (λ e a, emit_expr scopes a e) l e).
Proof.
  intros Hl Hp%strict_all. apply (emits_fold (λ e a, emit_expr scopes a e)).
  by apply (Forall_mp (λ x, strict = true → plain_expr x)).
Qed.

Lemma emits_expr x : (strict = true → plain_expr x) → emits (emit_expr scopes x).
Proof.
  induction x using expr_ind'; intros Hp; emits_eta; cbn [emit_expr].
  - apply emits_ident.
  - apply emits_literal.
  - apply (emits_comp (emit_expr scopes x)); [apply IHx; plain |]. destruct op; emits_seq.
  - apply (emits_comp (λ e, emit_expr scopes x2 (emit_expr scopes x1 e))).
    + apply (emits_comp (emit_expr scopes x1)); [apply IHx1 | apply IHx2]; plain.
    + destruct op; emits_seq.
  - apply (emits_comp (λ e, fold_left (λ e a, emit_expr scopes a e) args e)).
    + apply emits_exprs; [done | plain].
    + apply emits_call; [plain |]. apply IHx. plain.
  - emits_seq; apply IHx; plain.
  - apply (emits_comp (λ e, emit_expr scopes x2 (emit_expr scopes x1 e))); [| emits_seq].
    apply (emits_comp (emit_expr scopes x1)); [apply IHx1 | apply IHx2]; plain.
  - apply (emits_comp (λ e, fold_left (λ e a, emit_expr scopes a e) l e)).
    + apply emits_exprs; [done | plain].
    + apply emits_op_u16; [plain | done].
  - apply (emits_comp (λ e, fold_left (λ e p,
      emit_expr scopes (snd p) (emit_pooled OP_PUSH_STR (bucc_emit_string (fst p) e))) l e)).
    + apply (emits_fold (λ e p,
        emit_expr scopes (snd p) (emit_pooled OP_PUSH_STR (bucc_emit_string (fst p) e)))).
      eapply Forall_impl; [eassumption |]. intros p Hx. emits_seq. apply Hx. plain.
    + apply emits_op_u16; [plain | done].
  - apply emits_host_call. plain.
  - emits_seq.
  - apply emits_id.
Qed.

#[local] Hint Extern 1 (emits (emit_expr _ _)) => (apply emits_expr; plain) : emits.

Lemma emits_lvalue_store x :
  (strict = true → plain_expr x) → emits (emit_lvalue_store scopes x).
Proof.
  intros Hp. destruct x; emits_eta; cbn [emit_lvalue_store]; try apply emits_id.
  - destruct (lookup_symbol scopes name) as [[[] ? ? ?] |]; cbn [sym_kind Semantic.slot]; emits_seq.
  - emits_seq.
  - emits_seq.
Qed.

Lemma emits_case_values values body :
  (strict = true → all plain_expr values) → emits (emit_case_values scopes values body).
Proof.
  intros Hp%strict_all. apply emits_fold. eapply Forall_impl; [exact Hp |]. intros v Hv. emits_seq.
Qed.

Lemma strict_zip {A B} (P : A → Prop) (Q : B → Prop) l : ∀ k,
  (strict = true → all P l) → (strict = true → all Q k) →
  Forall (λ r, (strict = true → P (fst r)) ∧ (strict = true → Q (snd r))) (zip l k).
Proof.
  induction l as [|x l IH]; intros [|y k] Hl Hk; constructor; [split; plain |].
  apply IH; plain.
Qed.

Lemma emits_case_ranges lows highs body :
  (strict = true → all plain_expr lows) → (strict = true → all plain_expr highs) →
  emits (emit_case_ranges scopes (zip lows highs) body).
Proof.
  intros Hl Hh. apply emits_fold. eapply Forall_impl; [exact (strict_zip _ _ _ _ Hl Hh) |].
  intros r [H1 H2]. emits_seq.
Qed.

(** The loop of a FOR, whose slot is the one its start was stored in. *)
Lemma emits_for a b step body start_label end_label :
  (strict = true → plain_expr a) → (strict = true → plain_expr b) → emits step → emits body →
  emits (λ e,
    let e := emit_expr scopes a e in
    let var_slot := u16 (current_local_count e) in
    let e := bucc_emit_label_here start_label (store_next_local e) in
    let e := emit_expr scopes b (bucc_emit_op_u16 OP_LOAD_LOCAL var_slot e) in
    let e := bucc_emit_jump OP_JMP_FALSE end_label (bucc_emit_op OP_LE e) in
    let e := bucc_emit_op_u16 OP_LOAD_LOCAL var_slot (body e) in
    let e := bucc_emit_op_u16 OP_STORE_LOCAL var_slot (bucc_emit_op OP_ADD (step e)) in
    bucc_emit_label_here end_label (bucc_emit_jump OP_JMP start_label e)).
Proof.
  intros Ha Hb Hs Hbody e He. cbv zeta. pose proof (emits_expr a Ha e He) as Ha'.
  revert Ha'. generalize (emit_expr scopes a e) as e1. intros e1.
  generalize (u16 (current_local_count e1)) as n. intros n. revert e1.
  match goal with |- ∀ e1, I e1 → I (@?f e1) => change (emits f) end. emits_seq.
Qed.

(** A step with the index of a pooled string. *)
Lemma emits_string_then s (k : Z → emitter → emitter) :
  (∀ i, emits (k i)) → emits (λ e, let '(i, e) := bucc_emit_string s e in k i e).
Proof.
  intros Hk e He. pose proof (emits_string s e He) as H. cbn beta in H.
  destruct (bucc_emit_string s e) as [i e1]. by apply Hk.
Qed.

Ltac strict_part P := let H := fresh "H" in assert (H : strict = true → P) by plain.

(** A block, the clauses of an IF and the cases of a SELECT, each with the
    induction hypothesis of the statements in it. *)
Ltac emits_block IH H :=
  apply emits_fold; revert H;
  match goal with
  | |- _ → Forall _ ?b =>
      induction b as [|? ? ?IHb]; intros H; constructor; [apply IH; plain | apply IHb; plain]
  end.

Ltac emits_clauses IH H :=
  apply emits_fold; revert H;
  match goal with
  | |- _ → Forall _ ?l => induction l as [|[? ?cb] ? IHl]; intros H; constructor; [| apply IHl; plain]
  end;
  cbn [fst snd]; emits_seq;
  match goal with cb : list stmt |- _ => strict_part (all plain_stmt cb) end;
  match goal with H : strict = true → all plain_stmt _ |- _ => emits_block IH H end.

Ltac emits_cases IH H :=
  apply emits_fold; revert H;
  match goal with
  | |- _ → Forall _ ?l =>
      induction l as [|[vs ls hs cb] ? IHl]; intros H; constructor; [| apply IHl; plain]
  end;
  emits_seq;
  [apply emits_case_values; plain | apply emits_case_ranges; plain |
   match goal with cb : list stmt |- _ => strict_part (all plain_stmt cb) end;
   match goal with H : strict = true → all plain_stmt _ |- _ => emits_block IH H end].


Lemma emits_stmt : ∀ s, (strict = true → plain_stmt s) → emits (emit_stmt scopes s).
Proof.
  fix IH 1 with (IHk (k : stmt_kind) {struct k} :
    (strict = true → plain_kind k) → emits (emit_kind scopes k)).
  { intros [line col k] Hp. emits_eta. cbn [emit_stmt].
    apply (emits_comp (λ e, if emit_debug_info e && (0 <? line) then bucc_emit_debug_line line col e else e)
      (emit_kind scopes k)); [| by apply IHk].
    apply (emits_look (λ e, emit_debug_info e && (0 <? line))
      (λ b e, if b then bucc_emit_debug_line line col e else e)).
    intros []; eauto with emits. }
  intros k Hp. destruct k as [d | target v | x | c b clauses eb | x cases eb | c body
    | body c kind | var a b step body | b ev cb | x | ek | | x | target args | sel targets |];
    emits_eta; cbn [emit_kind].
  - destruct d as [? ? init]. cbn [initializer plain_kind] in *. emits_seq.
  - emits_seq. apply emits_lvalue_store. plain.
  - emits_seq.
  - strict_part (all plain_stmt b).
    strict_part (all (λ cl, plain_expr (fst cl) ∧ all plain_stmt (snd cl)) clauses).
    destruct eb as [eb |]; emits_seq.
    + emits_block IH H.
    + emits_clauses IH H0.
    + strict_part (all plain_stmt eb). emits_block IH H1.
    + emits_block IH H.
    + emits_clauses IH H0.
  - strict_part (all plain_case cases). destruct eb as [eb |]; emits_seq.
    + emits_cases IH H.
    + strict_part (all plain_stmt eb). emits_block IH H0.
    + emits_cases IH H.
  - strict_part (all plain_stmt body). emits_seq. emits_block IH H.
  - strict_part (all plain_stmt body). destruct c, kind; emits_seq; emits_block IH H.
  - strict_part (all plain_stmt body). do 2 (apply emits_label; intros ?). apply emits_with_loop.
    destruct step as [step |].
    + apply (emits_for a b (emit_expr scopes step)
        (λ e, fold_left (λ e s, emit_stmt scopes s e) body e)); [plain | plain | emits_seq |].
      emits_block IH H.
    + apply (emits_for a b (λ e, emit_pooled OP_PUSH_I64 (bucc_emit_constant_i64 1 e))
        (λ e, fold_left (λ e s, emit_stmt scopes s e) body e)); [plain | plain | emits_seq |]. emits_block IH H.
  - strict_part (all plain_stmt b). strict_part (all plain_stmt cb).
    destruct ev; emits_seq; first [emits_block IH H | emits_block IH H0].
  - destruct x; emits_seq.
  - apply (emits_look loop_end_label (λ l, bucc_emit_jump OP_JMP l)). auto with emits.
  - emits_seq.
  - emits_seq.
  - destruct args; apply emits_string_then; intros i.
    + apply (emits_comp (emit_expr scopes e)
        (λ e, bucc_emit_byte 1 (bucc_emit_op_u16 OP_CHAIN i e))).
      * apply emits_expr. plain.
      * apply emits_op_u16_byte; [plain | done].
    + apply emits_op_u16_byte; [plain | done].
  - destruct (resolve_on_call_base scopes targets) as [[base count] | msg]; emits_seq.
  - emits_seq.
Qed.

Lemma emits_body b :
  (strict = true → all plain_stmt b) → emits (emit_block scopes b).
Proof.
  intros Hp%strict_all. apply emits_fold.
  eapply Forall_impl; [exact Hp |]. intros s. apply emits_stmt.
Qed.
End steps.

End preserved.

Arguments emits I f : assert.
