(* ===== verification/EmitJumps.v ===== *)
(** The jumps of compiled Buccaneer programs: whatever is compiled, the patches
    of the forward references never overlap, each names a label that is placed,
    and once they are resolved every jump instruction continues at its label. *)

From S2P Require Import Prelude CLib Float Value Vm VmSpec Ast Semantic Emit EmitSpec EmitInv.

#[local] Open Scope Z_scope.

(** ** Patches and labels stay inside the code *)

(** Patches, newest first: each within [bound], and the older ones before it. *)
Fixpoint patches_ok (bound : Z) (l : list (Z * Z)) : Prop :=
  match l with
  | [] => True
  | (off, _) :: l => 0 <= off ∧ off + 4 <= bound ∧ patches_ok off l
  end.

(** The invariant of emission, for code of less than 2 GB. *)
Definition jumps_ok (e : emitter) : Prop :=
  zlen (code e) < 2 ^ 31 →
  patches_ok (zlen (code e)) (patches e) ∧
  Forall (λ p, 0 <= snd p <= zlen (code e)) (labels e).

Lemma patches_ok_le l b b' : b <= b' → patches_ok b l → patches_ok b' l.
Proof. destruct l as [|[off lab] l]; cbn; [done |]. intros ? (? & ? & ?). split_and!; [lia | lia | done]. Qed.

Lemma jumps_ok_frame e e' :
  patches e' = patches e → labels e' = labels e → zlen (code e) <= zlen (code e') →
  jumps_ok e → jumps_ok e'.
Proof.
  intros Hp Hl Hc He Hlt. destruct (He ltac:(lia)) as [H1 H2]. rewrite Hp, Hl.
  split; [by eapply patches_ok_le |]. eapply Forall_impl; [exact H2 |]. cbn. intros. lia.
Qed.

Lemma jumps_ok_jump op l e : jumps_ok e → jumps_ok (bucc_emit_jump op l e).
Proof.
  intros He. unfold bucc_emit_jump, bucc_emit_i32, bucc_emit_u32, bucc_emit_byte, append.
  intros Hlt. cbn [code set_code set_patches patches labels] in *.
  assert (Hz : ∀ v, zlen ((code e ++ [u8 (opcode_byte op)]) ++ u32_bytes v) = zlen (code e) + 5).
  { intros v. rewrite !zlen_app, zlen_cons, zlen_nil. change (zlen (u32_bytes v)) with 4. lia. }
  rewrite Hz in *. destruct (He ltac:(lia)) as [H1 H2]. pose proof (zlen_nonneg (code e)).
  assert (Hoff : u32 (zlen (code e ++ [u8 (opcode_byte op)])) = zlen (code e) + 1).
  { rewrite zlen_app, zlen_cons, zlen_nil. rewrite wrap_small by (zred; lia). lia. }
  split.
  - cbn [patches_ok]. rewrite Hoff. split_and!; [lia | lia |].
    eapply patches_ok_le; [| exact H1]. lia.
  - eapply Forall_impl; [exact H2 |]. cbn. intros. lia.
Qed.

#[export] Instance jumps_invariant : EmitInvariant false jumps_ok.
Proof.
  split.
  - intros op args e _ _. apply jumps_ok_frame; [done | done |]. cbn. zl.
  - intros op l e _. apply jumps_ok_jump.
  - intros l e He Hlt. destruct (He Hlt) as [H1 H2]. split; [exact H1 |].
    constructor; [| exact H2]. cbn. pose proof (zlen_nonneg (code e)). cbn in Hlt.
    rewrite wrap_small by (zred; lia). lia.
  - intros s e _ He. exact He.
  - intros v e _ He. exact He.
  - intros imp e _ He. exact He.
  - intros e e' [= Hc _ _ _ _ Hl Hp]. apply jumps_ok_frame; [done | done |]. rewrite Hc. lia.
Qed.

Lemma emits_procedure scopes p e : jumps_ok e → jumps_ok (emit_procedure scopes p e).
Proof.
  intros He. unfold emit_procedure. cbv zeta. set (n := u32 (zlen (decl_params p))).
  assert (H1 : jumps_ok (emit_block scopes (decl_body p) (set_local_count n e)))
    by (by apply (emits_body (strict := false) (I := jumps_ok))).
  set (e1 := emit_block _ _ _) in *. change (jumps_ok (
    if decl_is_function p then bucc_emit_op OP_RETURN_VALUE (bucc_emit_op OP_PUSH_NULL e1)
    else bucc_emit_op OP_RETURN e1)).
  destruct (decl_is_function p); repeat apply (emits_op (strict := false) (I := jumps_ok)); done.
Qed.

(** ** Resolving the patches *)

Lemma u32_bytes_value v :
  in_s 32 v → ∃ a b c d, u32_bytes (u32 v) = [a; b; c; d] ∧
    s32 (Z.lor (Z.lor (Z.lor (Z.shiftl a 24) (Z.shiftl b 16)) (Z.shiftl c 8)) d) = v.
Proof.
  intros Hv. destruct (u32_bytes_lor (u32 v)) as (a & b & c & d & E & Hval); [by apply wrap_range |].
  exists a, b, c, d. split; [exact E |]. rewrite Hval, swrap_wrap. by apply swrap_small.
Qed.

Lemma zlen_patch c off bs :
  0 <= off → off + zlen bs <= zlen c → zlen (patch_code c off bs) = zlen c.
Proof.
  intros H0 H1. unfold patch_code, takeZ, dropZ, zlen in *.
  rewrite !length_app, length_take, length_drop. lia.
Qed.

Lemma nthZ_patch c off bs i :
  0 <= off → off + zlen bs <= zlen c →
  nthZ (patch_code c off bs) i =
    if (off <=? i) && (i <? off + zlen bs) then nthZ bs (i - off) else nthZ c i.
Proof.
  intros H0 H1. unfold patch_code, nthZ, takeZ, dropZ, zlen in *.
  destruct (Z.ltb_spec i 0).
  { destruct (Z.leb_spec off i); [lia |]. done. }
  destruct (Z.leb_spec off i); cbn [andb].
  - rewrite lookup_app_r by (rewrite length_take; lia). rewrite length_take.
    destruct (Z.ltb_spec i (off + Z.of_nat (length bs))).
    + rewrite lookup_app_l by lia. destruct (Z.ltb_spec (i - off) 0); [lia |]. f_equal. lia.
    + rewrite lookup_app_r by lia. rewrite lookup_drop. f_equal. lia.
  - rewrite lookup_app_l by (rewrite length_take; lia). rewrite lookup_take_lt by lia. done.
Qed.

(** The bytes a patch writes, if its label is known. *)
Definition resolve_one (lbls : list (Z * Z)) (c : list Z) (p : Z * Z) : list Z :=
  match find_label lbls (snd p) with
  | Some target => patch_code c (fst p) (u32_bytes (u32 (s32 target - s32 (u32 (fst p + 4)))))
  | None => c
  end.

Lemma resolve_patches_eq e :
  code (bucc_emit_resolve_patches e) = foldl (resolve_one (labels e)) (code e) (patches e).
Proof.
  unfold bucc_emit_resolve_patches. cbn [code set_code]. generalize (code e) as c.
  induction (patches e) as [|[off lab] l IH]; intros c; [done |]. cbn [foldl]. by rewrite IH.
Qed.

(** Older patches write before the bound and leave the rest of the code. *)
Lemma resolve_below lbls l : ∀ c b i,
  patches_ok b l → b <= zlen c →
  zlen (foldl (resolve_one lbls) c l) = zlen c ∧
  (b <= i → nthZ (foldl (resolve_one lbls) c l) i = nthZ c i).
Proof.
  induction l as [|[off lab] l IH]; intros c b i Hl Hb; cbn [foldl]; [by split |].
  destruct Hl as (H0 & H1 & Hl).
  assert (Hc : zlen (resolve_one lbls c (off, lab)) = zlen c ∧
    (b <= i → nthZ (resolve_one lbls c (off, lab)) i = nthZ c i)).
  { unfold resolve_one. cbn [fst snd]. destruct (find_label lbls lab); [| by split].
    split; [apply zlen_patch; [lia |]; change (zlen (u32_bytes _)) with 4; lia |]. intros Hi.
    rewrite nthZ_patch; [| lia |]; change (zlen (u32_bytes _)) with 4; [| lia].
    destruct (Z.ltb_spec i (off + 4)); [lia |]. by rewrite andb_false_r. }
  destruct Hc as [Hz Hn].
  destruct (IH (resolve_one lbls c (off, lab)) off i Hl ltac:(lia)) as [H2 H3].
  split; [lia |]. intros Hi. rewrite H3 by lia. auto.
Qed.

(** Every patch with a known label holds the distance to it. *)
Lemma resolve_patch lbls l : ∀ c b off lab target i,
  patches_ok b l → b <= zlen c → (off, lab) ∈ l → find_label lbls lab = Some target →
  off <= i < off + 4 →
  0 <= off ∧ off + 4 <= b ∧
  nthZ (foldl (resolve_one lbls) c l) i =
    nthZ (u32_bytes (u32 (s32 target - s32 (u32 (off + 4))))) (i - off).
Proof.
  induction l as [|[off' lab'] l IH]; intros c b off lab target i Hl Hb Hin Ht Hi; cbn [foldl].
  { by apply not_elem_of_nil in Hin. }
  destruct Hl as (H0 & H1 & Hl).
  assert (Hz : zlen (resolve_one lbls c (off', lab')) = zlen c).
  { unfold resolve_one. cbn [fst snd]. destruct (find_label lbls lab'); [| done].
    apply zlen_patch; [lia |]; change (zlen (u32_bytes _)) with 4; lia. }
  apply elem_of_cons in Hin as [[= <- <-] | Hin].
  - split; [lia |]. split; [lia |].
    destruct (resolve_below lbls l (resolve_one lbls c (off, lab)) off i Hl ltac:(lia)) as [_ H3].
    rewrite H3 by lia. unfold resolve_one. cbn [fst snd]. rewrite Ht.
    rewrite nthZ_patch; [| lia |]; change (zlen (u32_bytes _)) with 4; [| lia].
    destruct (Z.leb_spec off i), (Z.ltb_spec i (off + 4)); lia || done.
  - destruct (IH (resolve_one lbls c (off', lab')) off' off lab target i Hl ltac:(lia) Hin Ht Hi)
      as (? & ? & ?). split; [lia |]. split; [lia | done].
Qed.

(** The bytes of no patch stay as emitted. *)
Lemma resolve_outside lbls l : ∀ c b i,
  patches_ok b l → b <= zlen c → (∀ off lab, (off, lab) ∈ l → ¬ (off <= i < off + 4)) →
  nthZ (foldl (resolve_one lbls) c l) i = nthZ c i.
Proof.
  induction l as [|[off lab] l IH]; intros c b i Hl Hb Hi; cbn [foldl]; [done |].
  destruct Hl as (H0 & H1 & Hl).
  assert (Hz : zlen (resolve_one lbls c (off, lab)) = zlen c ∧
    nthZ (resolve_one lbls c (off, lab)) i = nthZ c i).
  { unfold resolve_one. cbn [fst snd]. destruct (find_label lbls lab); [| done].
    split; [apply zlen_patch; [lia |]; change (zlen (u32_bytes _)) with 4; lia |].
    rewrite nthZ_patch; [| lia |]; change (zlen (u32_bytes _)) with 4; [| lia].
    pose proof (Hi off lab ltac:(by left)).
    destruct (Z.leb_spec off i), (Z.ltb_spec i (off + 4)); done || lia. }
  destruct Hz as [Hz Hn]. rewrite (IH _ off); [exact Hn | done | lia |].
  intros off' lab' Hin. apply (Hi off' lab'). by right.
Qed.

Lemma find_label_in l lab t : find_label l lab = Some t → (lab, t) ∈ l.
Proof.
  induction l as [|[i off] l IH]; cbn; [done |].
  destruct (Z.eqb_spec i lab) as [-> |]; [intros [= ->]; by left | intros; right; auto].
Qed.


(** ** Every label is placed *)

(** EXIT stands in a loop of its procedure. The analysis reports one that does not,
    but for EXIT SELECT, which jumps to the end of a loop as well. *)
Fixpoint exits_in (b : bool) (s : stmt) : Prop :=
  match s with Stmt _ _ k => exits_in_kind b k end

with exits_in_kind (b : bool) (k : stmt_kind) : Prop :=
  match k with
  | SIf _ then_block clauses else_block =>
      all (exits_in b) then_block ∧ all (λ cl, all (exits_in b) (snd cl)) clauses ∧
      plain_option (all (exits_in b)) else_block
  | SSelect _ cases else_case => all (exits_in_case b) cases ∧ plain_option (all (exits_in b)) else_case
  | SWhile _ body | SDoLoop body _ _ | SFor _ _ _ _ body => all (exits_in true) body
  | STryCatch try_block _ catch_block => all (exits_in b) try_block ∧ all (exits_in b) catch_block
  | SExit _ => b = true
  | _ => True
  end

with exits_in_case (b : bool) (c : select_case) : Prop :=
  match c with Case _ _ _ body => all (exits_in b) body end.

Definition exits_in_loops (m : module_node) : Prop := all (λ p, all (exits_in false) (decl_body p)) (proc_nodes m).

Definition placed (e : emitter) (lab : Z) : Prop := is_Some (find_label (labels e) lab).

(** Every jump goes to a label that is placed or is one of [O], which are to be. *)
Definition open_ok (O : list Z) (e : emitter) : Prop := Forall (λ p, snd p ∈ O ∨ placed e (snd p)) (patches e).

(** What an emission does to the open labels, in a loop that ends at [L] and
    where the labels [P] have their places. *)
Definition closes (L : Z) (P O O' : list Z) (f : emitter → emitter) : Prop :=
  ∀ e, loop_end_label e = L → Forall (placed e) P → open_ok O e →
  open_ok O' (f e) ∧ loop_end_label (f e) = L ∧ ∀ l, placed e l → placed (f e) l.

(** No jump, no label. *)
Definition quiet (f : emitter → emitter) : Prop :=
  ∀ e, patches (f e) = patches e ∧ labels (f e) = labels e ∧ loop_end_label (f e) = loop_end_label e.

Lemma quiet_id : quiet (λ e, e).
Proof. done. Qed.

Lemma quiet_comp f g : quiet f → quiet g → quiet (λ e, g (f e)).
Proof. intros Hf Hg e. destruct (Hf e) as (? & ? & ?), (Hg (f e)) as (? & ? & ?). split_and!; congruence. Qed.

Lemma quiet_fold {A} (f : emitter → A → emitter) l :
  Forall (λ x, quiet (λ e, f e x)) l → quiet (λ e, fold_left f l e).
Proof. induction 1 as [|x l Hx _ IH]; [apply quiet_id |]. exact (quiet_comp _ _ Hx IH). Qed.

Lemma quiet_op op : quiet (bucc_emit_op op).
Proof. done. Qed.
Lemma quiet_op_u16 op v : quiet (bucc_emit_op_u16 op v).
Proof. done. Qed.
Lemma quiet_byte b : quiet (bucc_emit_byte b).
Proof. done. Qed.

Lemma quiet_pooled op (get : emitter → Z * emitter) :
  quiet (λ e, snd (get e)) → quiet (λ e, emit_pooled op (get e)).
Proof. intros Hg e. specialize (Hg e). cbn in Hg. by destruct (get e). Qed.

Lemma quiet_string s : quiet (λ e, snd (bucc_emit_string s e)).
Proof. intros e. unfold bucc_emit_string. by destruct (pool_add _ _ _). Qed.
Lemma quiet_i64 z : quiet (λ e, snd (bucc_emit_constant_i64 z e)).
Proof. intros e. unfold bucc_emit_constant_i64. by destruct (pool_add _ _ _). Qed.
Lemma quiet_f64 z : quiet (λ e, snd (bucc_emit_constant_f64 z e)).
Proof. intros e. unfold bucc_emit_constant_f64. by destruct (pool_add _ _ _). Qed.
Lemma quiet_import ns fn : quiet (λ e, snd (bucc_emit_host_import ns fn e)).
Proof. intros e. unfold bucc_emit_host_import. by destruct (pool_add _ _ _). Qed.
Lemma quiet_add_constant v : quiet (λ e, snd (add_constant v e)).
Proof. done. Qed.
Lemma quiet_store_next : quiet store_next_local.
Proof. done. Qed.
Lemma quiet_error m : quiet (emit_error m).
Proof. done. Qed.
Lemma quiet_debug_line line col : quiet (bucc_emit_debug_line line col).
Proof. intros e. unfold bucc_emit_debug_line. by destruct (negb (emit_debug_info e)), (line =? last_debug_line e). Qed.

Create HintDb quiet discriminated.
#[local] Hint Constants Opaque : quiet.
#[local] Hint Resolve quiet_id quiet_op quiet_op_u16 quiet_byte quiet_pooled quiet_string quiet_i64 quiet_f64
  quiet_import quiet_add_constant quiet_store_next quiet_error quiet_debug_line : quiet.

(** A chain of steps, the last one first. *)
Ltac quiet_seq :=
  repeat first
    [ solve [auto 4 with quiet nocore]
    | match goal with
      | |- quiet (λ e, emit_pooled ?op (bucc_emit_string ?s (@?f e))) =>
          apply (quiet_comp f (λ e, emit_pooled op (bucc_emit_string s e)))
      | |- quiet (λ e, emit_pooled ?op (bucc_emit_host_import ?s ?t (@?f e))) =>
          apply (quiet_comp f (λ e, emit_pooled op (bucc_emit_host_import s t e)))
      | |- quiet (λ e, emit_pooled _ (_ e)) => apply quiet_pooled
      | |- quiet (λ e, ?F (@?f e)) => lazymatch f with (λ e, e) => fail | _ => apply (quiet_comp f F) end
      | |- quiet (λ e, ?F e) => change (quiet F)
      end ].

Ltac quiet_eta := match goal with |- quiet ?f => change (quiet (λ e, f e)) end.

(** A step with the index of a pooled string. *)
Lemma quiet_string_then s (k : Z → emitter → emitter) :
  (∀ i, quiet (k i)) → quiet (λ e, let '(i, e) := bucc_emit_string s e in k i e).
Proof.
  intros Hk e. pose proof (quiet_string s e) as (H1 & H2 & H3). destruct (bucc_emit_string s e) as [i e1].
  destruct (Hk i e1) as (? & ? & ?). cbn [snd] in *. split_and!; congruence.
Qed.

Section quiet.
Context (scopes : list scope).

Lemma quiet_literal v : quiet (emit_literal v).
Proof. destruct v as [| [] | | | | | | | |]; quiet_eta; cbn [emit_literal]; quiet_seq. Qed.

Lemma quiet_ident name : quiet (emit_ident scopes name).
Proof. unfold emit_ident. destruct (lookup_symbol scopes name) as [[[] ? ? ?] |]; done. Qed.

Lemma quiet_host_call ns name argc : quiet (emit_host_call ns name argc).
Proof. quiet_eta. unfold emit_host_call. quiet_seq. Qed.

Lemma quiet_call c f argc : quiet f → quiet (emit_call scopes c f argc).
Proof.
  intros Hf. destruct c; quiet_eta; cbn [emit_call]; try exact Hf; [| apply quiet_host_call].
  destruct (lookup_symbol scopes name) as [[[] ? ? ?] |]; done.
Qed.

Lemma quiet_exprs l :
  Forall (λ x, quiet (emit_expr scopes x)) l → quiet (λ e, fold_left (λ e a, emit_expr scopes a e) l e).
Proof. apply (quiet_fold (λ e a, emit_expr scopes a e)). Qed.

Lemma quiet_expr x : quiet (emit_expr scopes x).
Proof.
  induction x using expr_ind'; quiet_eta; cbn [emit_expr].
  - apply quiet_ident.
  - apply quiet_literal.
  - apply (quiet_comp (emit_expr scopes x)); [done | apply quiet_op].
  - apply (quiet_comp (λ e, emit_expr scopes x2 (emit_expr scopes x1 e))); [by apply quiet_comp | apply quiet_op].
  - apply (quiet_comp (λ e, fold_left (λ e a, emit_expr scopes a e) args e)); [by apply quiet_exprs | by apply quiet_call].
  - apply (quiet_comp (λ e, emit_pooled OP_PUSH_STR (bucc_emit_string k (emit_expr scopes x e)))); [| apply quiet_op].
    apply (quiet_comp (emit_expr scopes x) (λ e, emit_pooled OP_PUSH_STR (bucc_emit_string k e))); [done | quiet_seq].
  - apply (quiet_comp (λ e, emit_expr scopes x2 (emit_expr scopes x1 e))); [by apply quiet_comp | apply quiet_op].
  - apply (quiet_comp (λ e, fold_left (λ e a, emit_expr scopes a e) l e)); [by apply quiet_exprs | apply quiet_op_u16].
  - apply (quiet_comp (λ e, fold_left (λ e p,
      emit_expr scopes (snd p) (emit_pooled OP_PUSH_STR (bucc_emit_string (fst p) e))) l e)); [| apply quiet_op_u16].
    apply (quiet_fold (λ e p, emit_expr scopes (snd p) (emit_pooled OP_PUSH_STR (bucc_emit_string (fst p) e)))).
    eapply Forall_impl; [eassumption |]. intros p Hp.
    apply (quiet_comp (λ e, emit_pooled OP_PUSH_STR (bucc_emit_string (fst p) e))); [quiet_seq | done].
  - apply quiet_host_call.
  - apply quiet_op.
  - apply quiet_id.
Qed.

Lemma quiet_lvalue_store x : quiet (emit_lvalue_store scopes x).
Proof.
  destruct x; quiet_eta; cbn [emit_lvalue_store]; try apply quiet_id.
  - destruct (lookup_symbol scopes name) as [[[] ? ? ?] |]; done.
  - apply (quiet_comp (emit_expr scopes x) (λ e, bucc_emit_op OP_MAP_SET (emit_pooled OP_PUSH_STR (bucc_emit_string member e))));
      [apply quiet_expr | quiet_seq].
  - apply (quiet_comp (λ e, emit_expr scopes x2 (emit_expr scopes x1 e))); [| apply quiet_op].
    apply quiet_comp; apply quiet_expr.
Qed.
End quiet.

(** ** Steps that leave no jump open *)

Section closes.
Context (L : Z) (P : list Z).

Lemma closes_subset O1 O2 O' f : O1 ⊆ O2 → closes L P O2 O' f → closes L P O1 O' f.
Proof.
  intros Hs Hf e HL HP He. apply Hf; [done | done |]. eapply Forall_impl; [exact He |].
  intros p [Hp | Hp]; [left; by apply Hs | by right].
Qed.

Lemma closes_comp O O' O'' f g : closes L P O O' f → closes L P O' O'' g → closes L P O O'' (λ e, g (f e)).
Proof.
  intros Hf Hg e HL HP He. destruct (Hf e HL HP He) as (H1 & H2 & H3).
  destruct (Hg (f e)) as (H4 & H5 & H6); [done | | done |]; [eapply Forall_impl; eauto |]. auto.
Qed.

Lemma closes_quiet O f : quiet f → closes L P O O f.
Proof.
  intros Hf e HL HP He. destruct (Hf e) as (Hp & Hl & He').
  unfold open_ok, placed. by rewrite Hp, Hl, He'.
Qed.

Lemma closes_open O O' f : quiet f → O ⊆ O' → closes L P O O' f.
Proof. intros Hf Hs. apply (closes_subset _ O'); [done | by apply closes_quiet]. Qed.

Lemma closes_fold {A} O (f : emitter → A → emitter) l :
  Forall (λ x, closes L P O O (λ e, f e x)) l → closes L P O O (λ e, fold_left f l e).
Proof. induction 1 as [|x l Hx _ IH]; [by apply closes_quiet, quiet_id |]. exact (closes_comp _ _ _ _ _ Hx IH). Qed.

Lemma closes_jump O op l : l ∈ O → closes L P O O (bucc_emit_jump op l).
Proof. intros Hl e HL HP He. split; [| by split]. constructor; [by left | exact He]. Qed.

Lemma closes_jump_back O op l : l ∈ P → closes L P O O (bucc_emit_jump op l).
Proof.
  intros Hl e HL HP He. split; [| by split]. constructor; [| exact He]. right. by eapply Forall_forall in HP.
Qed.

Lemma placed_here l x e : placed (bucc_emit_label_here l e) x ↔ l = x ∨ placed e x.
Proof.
  unfold placed. cbn [labels bucc_emit_label_here set_labels find_label].
  destruct (Z.eqb_spec l x) as [-> | E]; [| tauto]. split; [by left | by intros _; eexists].
Qed.

(** A label in its place is open no more. *)
Lemma closes_here O l : closes L P (l :: O) O (bucc_emit_label_here l).
Proof.
  intros e HL HP He. split; [| split; [exact HL | intros x Hx; apply placed_here; by right]].
  eapply Forall_impl; [exact He |]. intros p Hp. rewrite placed_here.
  destruct Hp as [[Hp | Hp]%elem_of_cons | Hp]; auto.
Qed.

Lemma closes_label O O' (k : Z → emitter → emitter) :
  (∀ l, closes L P O O' (k l)) → closes L P O O' (λ e, let '(l, e) := bucc_emit_label e in k l e).
Proof. intros Hk e HL HP He. exact (Hk (next_label e) (snd (bucc_emit_label e)) HL HP He). Qed.

Lemma closes_look {A} O O' (g : emitter → A) (k : A → emitter → emitter) :
  (∀ x, closes L P O O' (k x)) → closes L P O O' (λ e, k (g e) e).
Proof. intros Hk e. apply Hk. Qed.

Lemma closes_optional {A} O O' (f : A → emitter → emitter) g (o : option A) :
  (∀ x, o = Some x → closes L P O O' (f x)) → closes L P O O' g →
  closes L P O O' (λ e, match o with Some x => f x e | None => g e end).
Proof. intros Hf Hg. destruct o; [by apply Hf | done]. Qed.
End closes.

(** What follows a label may jump back to it. *)
Lemma closes_from L P O O' l f :
  closes L (l :: P) O O' f → closes L P O O' (λ e, f (bucc_emit_label_here l e)).
Proof.
  intros Hf e HL HP He. destruct (closes_here L P O l e HL HP) as (H1 & H2 & H3).
  { eapply Forall_impl; [exact He |]. intros p []; [left; by right | by right]. }
  destruct (Hf (bucc_emit_label_here l e)) as (H4 & H5 & H6); [done | | done | auto].
  constructor; [apply placed_here; by left |]. eapply Forall_impl; [exact HP |]. exact H3.
Qed.

Lemma closes_after_from L P O O' l h f :
  closes L P O O h → closes L (l :: P) O O' f → closes L P O O' (λ e, f (bucc_emit_label_here l (h e))).
Proof. intros Hh Hf. apply (closes_comp _ _ _ O _ h (λ e, f (bucc_emit_label_here l e))); [done | by apply closes_from]. Qed.

(** Inside a loop its own end is the label of EXIT. *)
Lemma closes_with_loop L P O O' s t f : closes t P O O' f → closes L P O O' (with_loop s t f).
Proof.
  intros Hf e HL HP He. destruct (Hf (set_loop s t e) eq_refl HP He) as (H1 & _ & H2). split; [exact H1 | by split].
Qed.

#[local] Hint Resolve quiet_expr quiet_lvalue_store : quiet.

Ltac closes_eta := match goal with |- closes ?L ?P ?O ?O' ?f => change (closes L P O O' (λ e, f e)) end.

(** Splits a step from its end: what is left are the blocks, with the labels
    that are open around them. *)
Ltac closes_after f F :=
  lazymatch f with
  | (λ e, e) => fail
  | _ =>
      lazymatch F with
      | bucc_emit_label_here ?l =>
          match goal with |- closes ?L ?P ?O ?O' _ => apply (closes_comp L P O (l :: O') O' f F); [| apply closes_here] end
      | _ => match goal with |- closes ?L ?P ?O ?O' _ => apply (closes_comp L P O O' O' f F) end
      end
  end.

Ltac listed := first [assumption | left; reflexivity | right; listed].

Ltac closes_seq :=
  repeat first
    [ match goal with |- closes _ _ _ _ _ => solve [apply closes_open; [auto 4 with quiet nocore | intros ? ?; listed]] end
    | match goal with |- closes _ _ _ _ (bucc_emit_jump _ _) =>
        solve [apply closes_jump; listed | apply closes_jump_back; listed] end
    | match goal with
      | |- closes _ _ _ _ (λ e, let '(l, e') := bucc_emit_label e in @?k l e') => apply (closes_label _ _ _ _ k); intros ?
      | |- closes _ _ _ _ (λ e, match ?o with Some x => @?f x e | None => @?g e end) =>
          apply (closes_optional _ _ _ _ f g o); [intros ? -> |]
      | |- closes _ _ _ _ (with_loop _ _ _) => apply closes_with_loop
      | |- closes _ _ _ _ (λ e, emit_pooled ?op (bucc_emit_constant_i64 ?s (@?f e))) =>
          closes_after f (λ e, emit_pooled op (bucc_emit_constant_i64 s e))
      | |- closes _ _ _ _ (λ e, ?F (@?f e)) => closes_after f F
      | |- closes _ _ _ _ (λ e, ?F e) => progress change (closes _ _ _ _ F)
      end ].

Section placed.
Context (scopes : list scope).

(** Statements in a loop, if [b], that ends at an open label. *)
Definition settled (b : bool) (f : emitter → emitter) : Prop :=
  ∀ L P O, (b = true → L ∈ O) → closes L P O O f.

Lemma settled_body b l :
  all (exits_in b) l → Forall (λ s, ∀ b, exits_in b s → settled b (emit_stmt scopes s)) l →
  settled b (λ e, fold_left (λ e s, emit_stmt scopes s e) l e).
Proof.
  intros He Hl L P O HL. apply (closes_fold L P O (λ e s, emit_stmt scopes s e)).
  induction Hl as [|s l Hs _ IH]; constructor; [apply (Hs b); [apply He | done] | apply IH, He].
Qed.

Lemma closes_case_values L P O values body :
  body ∈ O → closes L P O O (emit_case_values scopes values body).
Proof.
  intros Hb. apply (closes_fold L P O (λ e v, bucc_emit_jump OP_JMP_TRUE body
    (bucc_emit_op OP_EQ (emit_expr scopes v (bucc_emit_op OP_DUP e))))).
  apply Forall_forall. intros v _. closes_seq.
Qed.

Lemma closes_case_ranges L P O ranges body :
  body ∈ O → closes L P O O (emit_case_ranges scopes ranges body).
Proof.
  intros Hb. apply (closes_fold L P O (λ e r, bucc_emit_jump OP_JMP_TRUE body
      (bucc_emit_byte 0 (bucc_emit_op_u16 OP_RANGE_TEST 0
        (emit_expr scopes (snd r) (emit_expr scopes (fst r) (bucc_emit_op OP_DUP e))))))).
  apply Forall_forall. intros v _. closes_seq.
Qed.

(** The clauses of an IF and the cases of a SELECT, which jump to its end. *)
Lemma settled_clauses b clauses L P O end_label :
  all (λ cl, all (exits_in b) (snd cl)) clauses →
  Forall (λ cl, Forall (λ s, ∀ b, exits_in b s → settled b (emit_stmt scopes s)) (snd cl)) clauses →
  (b = true → L ∈ O) →
  closes L P (end_label :: O) (end_label :: O) (fold_left (λ e (clause : expr * list stmt),
    let '(next_label, e) := bucc_emit_label e in
    bucc_emit_label_here next_label (bucc_emit_jump OP_JMP end_label
      (fold_left (λ e s, emit_stmt scopes s e) (snd clause)
        (bucc_emit_jump OP_JMP_FALSE next_label (emit_expr scopes (fst clause) e))))) clauses).
Proof.
  intros He Hl HL. apply closes_fold. induction Hl as [|[x body] l Hs _ IH]; constructor; [| apply IH, He].
  cbn [fst snd]. closes_seq. apply (settled_body b); [apply He | done | intros Hb%HL; listed].
Qed.

Lemma settled_cases b cases L P O end_label :
  all (exits_in_case b) cases →
  Forall (λ c, Forall (λ s, ∀ b, exits_in b s → settled b (emit_stmt scopes s)) (case_body c)) cases →
  (b = true → L ∈ O) →
  closes L P (end_label :: O) (end_label :: O) (fold_left (λ e c,
    match c with
    | Case values lows highs body =>
        let '(next_case, e) := bucc_emit_label e in
        let '(case_body, e) := bucc_emit_label e in
        bucc_emit_label_here next_case (bucc_emit_jump OP_JMP end_label
          (fold_left (λ e s, emit_stmt scopes s e) body
            (bucc_emit_op OP_POP (bucc_emit_label_here case_body (bucc_emit_jump OP_JMP next_case
              (emit_case_ranges scopes (zip lows highs) case_body
                (emit_case_values scopes values case_body e)))))))
    end) cases).
Proof.
  intros He Hl HL. apply closes_fold. induction Hl as [|[vs ls hs body] l Hs _ IH]; constructor; [| apply IH, He].
  cbv beta iota. closes_seq.
  - apply (closes_subset _ _ _ (l1 :: l0 :: end_label :: O)); [intros ? ?; listed |]. apply closes_case_values. listed.
  - apply closes_case_ranges. listed.
  - apply (settled_body b); [apply He | done | intros Hb%HL; listed].
Qed.

Lemma settled_stmt s : ∀ b, exits_in b s → settled b (emit_stmt scopes s).
Proof.
  apply (stmt_ind' (λ s, ∀ b, exits_in b s → settled b (emit_stmt scopes s))
    (λ k, ∀ b, exits_in_kind b k → settled b (emit_kind scopes k))); clear s.
  - intros line col k Hk b Hb L P O HL. closes_eta. cbn [emit_stmt].
    apply (closes_comp L P O O O (λ e, if emit_debug_info e && (0 <? line) then bucc_emit_debug_line line col e else e)
      (emit_kind scopes k)); [| by apply (Hk b)].
    intros e. destruct (emit_debug_info e && (0 <? line)); [apply closes_quiet, quiet_debug_line | done].
  - intros [? ? init] b _ L P O _. closes_eta. cbn [emit_kind initializer]. closes_seq.
  - intros t v b _ L P O _. closes_eta. cbn [emit_kind]. closes_seq.
  - intros x b _ L P O _. closes_eta. cbn [emit_kind]. closes_seq.
  - intros c bl clauses eb Hbl Hcl Heb b (H1 & H2 & H3) L P O HL. closes_eta. cbn [emit_kind].
    destruct eb as [eb |]; closes_seq; try (apply (settled_body b); [done | done | intros Hb%HL; listed]);
      by apply (settled_clauses b).
  - intros x cases eb Hcs Heb b (H1 & H2) L P O HL. closes_eta. cbn [emit_kind].
    destruct eb as [eb |]; closes_seq; try (apply (settled_body b); [done | done | intros Hb%HL; listed]);
      by apply (settled_cases b).
  - intros c bl Hbl b H1 L P O HL. closes_eta. cbn [emit_kind].
    do 2 (apply closes_label; intros ?). apply closes_with_loop.
    apply (closes_from _ _ _ _ l (λ e, bucc_emit_label_here l0 (bucc_emit_jump OP_JMP l
      (fold_left (λ e s, emit_stmt scopes s e) bl (bucc_emit_jump OP_JMP_FALSE l0 (emit_expr scopes c e)))))).
    closes_seq. apply (settled_body true); [done | done | intros _; listed].
  - intros bl c k Hbl b H1 L P O HL. closes_eta. cbn [emit_kind].
    do 2 (apply closes_label; intros ?). apply closes_with_loop.
    apply (closes_from _ _ _ _ l (λ e, bucc_emit_label_here l0
      (match c with
       | Some x => bucc_emit_jump (match k with LOOP_UNTIL => OP_JMP_FALSE | _ => OP_JMP_TRUE end) l
           (emit_expr scopes x (fold_left (λ e s, emit_stmt scopes s e) bl e))
       | None => bucc_emit_jump OP_JMP l (fold_left (λ e s, emit_stmt scopes s e) bl e)
       end))).
    destruct c; closes_seq; apply (closes_subset _ _ _ (l0 :: O));
      solve [intros ? ?; listed | apply (settled_body true); [done | done | intros _; listed]].
  - intros n x y z bl Hbl b H1 L P O HL. closes_eta. cbn [emit_kind].
    do 2 (apply closes_label; intros ?). apply closes_with_loop.
    apply (closes_look _ _ _ _ (λ e, u16 (current_local_count (emit_expr scopes x e))) (λ slot e,
      let e := bucc_emit_label_here l (store_next_local (emit_expr scopes x e)) in
      let e := emit_expr scopes y (bucc_emit_op_u16 OP_LOAD_LOCAL slot e) in
      let e := bucc_emit_jump OP_JMP_FALSE l0 (bucc_emit_op OP_LE e) in
      let e := bucc_emit_op_u16 OP_LOAD_LOCAL slot (fold_left (λ e s, emit_stmt scopes s e) bl e) in
      let e := match z with
          | Some x => emit_expr scopes x e
          | None => emit_pooled OP_PUSH_I64 (bucc_emit_constant_i64 1 e)
          end in
      let e := bucc_emit_op_u16 OP_STORE_LOCAL slot (bucc_emit_op OP_ADD e) in
      bucc_emit_label_here l0 (bucc_emit_jump OP_JMP l e))). intros slot. cbv zeta.
    apply (closes_after_from _ _ _ _ l (λ e, store_next_local (emit_expr scopes x e)) (λ e, bucc_emit_label_here l0 (bucc_emit_jump OP_JMP l
      (bucc_emit_op_u16 OP_STORE_LOCAL slot (bucc_emit_op OP_ADD
        match z with
        | Some x => emit_expr scopes x (bucc_emit_op_u16 OP_LOAD_LOCAL slot (fold_left (λ e s, emit_stmt scopes s e) bl
            (bucc_emit_jump OP_JMP_FALSE l0 (bucc_emit_op OP_LE (emit_expr scopes y (bucc_emit_op_u16 OP_LOAD_LOCAL slot e))))))
        | None => emit_pooled OP_PUSH_I64 (bucc_emit_constant_i64 1
            (bucc_emit_op_u16 OP_LOAD_LOCAL slot (fold_left (λ e s, emit_stmt scopes s e) bl
            (bucc_emit_jump OP_JMP_FALSE l0 (bucc_emit_op OP_LE (emit_expr scopes y (bucc_emit_op_u16 OP_LOAD_LOCAL slot e)))))))
        end))))); [closes_seq |].
    destruct z; closes_seq; apply (settled_body true); [done | done | intros _; listed | done | done | intros _; listed].
  - intros bl ev cb Hbl Hcb b (H1 & H2) L P O HL. closes_eta. cbn [emit_kind]. destruct ev; closes_seq;
      first [ apply (settled_body b); [done | done | intros Hb%HL; listed]
            | eapply closes_subset; [| apply closes_jump; left; reflexivity]; intros ? ?; listed ].
  - intros [x |] b _ L P O _; closes_eta; cbn [emit_kind]; closes_seq.
  - intros k b -> L P O HL e <- HP He.
    exact (closes_jump _ P O OP_JMP _ (HL eq_refl) e eq_refl HP He).
  - intros b _ L P O _. closes_eta. cbn [emit_kind]. closes_seq.
  - intros x b _ L P O _. closes_eta. cbn [emit_kind]. closes_seq.
  - intros t [x |] b _ L P O _; apply closes_quiet, quiet_string_then; intros i. 
    + apply (quiet_comp (emit_expr scopes x)); [apply quiet_expr | done].
    + done.
  - intros x l b _ L P O _. closes_eta. cbn [emit_kind].
    destruct (resolve_on_call_base scopes l) as [[base count] | msg]; closes_seq.
  - intros b _ L P O _. closes_eta. cbn [emit_kind]. closes_seq.
Qed.
End placed.

Lemma quiet_end p n offset params id e :
  let e1 := if decl_is_function p then bucc_emit_op OP_RETURN_VALUE (bucc_emit_op OP_PUSH_NULL e)
            else bucc_emit_op OP_RETURN e in
  open_ok [] e → open_ok [] (set_procs (MkEntry (decl_name p) id offset (u32 (u32 (zlen (code e1)) - offset)) params n
    (decl_is_function p) :: procs e1) e1).
Proof. cbv zeta. by destruct (decl_is_function p). Qed.

Lemma procedure_closed scopes p e :
  all (exits_in false) (decl_body p) → open_ok [] e → open_ok [] (emit_procedure scopes p e).
Proof.
  intros Hp He. apply quiet_end.
  assert (Hs : Forall (λ s, ∀ b, exits_in b s → settled b (emit_stmt scopes s)) (decl_body p))
    by (apply Forall_forall; intros s _; apply settled_stmt).
  refine (proj1 (settled_body scopes false _ Hp Hs (loop_end_label e) [] [] _
    (set_local_count (u32 (zlen (decl_params p))) e) eq_refl _ He)); [done | constructor].
Qed.

(** What the emitter holds when the procedures were emitted. *)
Definition emitted (m : module_node) : emitter :=
  fold_left (λ e p, emit_procedure (scopes (analyzed m)) p e) (proc_nodes m) (bucc_emitter_new []).

Lemma emitted_jumps_ok m : jumps_ok (emitted m).
Proof.
  apply (emits_fold (λ e p, emit_procedure (scopes (analyzed m)) p e) (proc_nodes m)).
  - apply Forall_forall. intros p _ e. apply emits_procedure.
  - intros _. by split.
Qed.

Lemma compile_code m :
  bytecode (compile m) = code (bucc_emit_resolve_patches (emitted m)).
Proof. reflexivity. Qed.

Lemma emitted_closed m : exits_in_loops m → open_ok [] (emitted m).
Proof.
  unfold exits_in_loops, emitted. intros Hm. assert (H0 : open_ok [] (bucc_emitter_new [])) by constructor.
  revert H0. generalize (bucc_emitter_new []) as e.
  induction (proc_nodes m) as [|p l IH]; intros e He; [done |]. destruct Hm as [Hp Hm].
  apply IH; [done |]. by apply procedure_closed.
Qed.


(** The jump to a label that is placed. *)
Lemma jump_lands m off lab target :
  zlen (code (emitted m)) < 2 ^ 31 →
  (off, lab) ∈ patches (emitted m) →
  find_label (labels (emitted m)) lab = Some target →
  0 <= target <= bytecode_len (compile m) ∧
  (∀ v, ip v = off → ∃ d,
    read_i32 (compile m) v = Some (d, set_ip (off + 4) v) ∧ u32 (off + 4 + d) = target) ∧
  ∀ i, (∀ off' lab', (off', lab') ∈ patches (emitted m) → ¬ (off' <= i < off' + 4)) →
    nthZ (bytecode (compile m)) i = nthZ (code (emitted m)) i.
Proof.
  intros Hlen Hin Ht. destruct (emitted_jumps_ok m Hlen) as [Hp Hl].
  unfold bytecode_len. rewrite compile_code, resolve_patches_eq.
  destruct (resolve_below (labels (emitted m)) _ _ _ 0 Hp (Z.le_refl _)) as [Hz _].
  pose proof (proj1 (Forall_forall _ _) Hl _ (find_label_in _ _ _ Ht)) as Hb. cbn in Hb.
  pose proof (λ i, resolve_patch (labels (emitted m)) _ _ _ off lab target i Hp (Z.le_refl _) Hin Ht)
    as Hbyte.
  destruct (Hbyte off ltac:(lia)) as (H0 & H1 & _).
  split; [lia |]. split; [| intros i Hi; by eapply resolve_outside].
  intros w Hm. set (v := target - (off + 4)).
  assert (Hv : s32 target - s32 (u32 (off + 4)) = v).
  { assert (Hs : ∀ z, 0 <= z <= zlen (code (emitted m)) → u32 z = z ∧ s32 z = z)
      by (intros; split; [apply wrap_small | apply swrap_small]; zred; lia).
    rewrite (proj1 (Hs (off + 4) ltac:(lia))), (proj2 (Hs (off + 4) ltac:(lia))).
    rewrite (proj2 (Hs target ltac:(lia))). done. }
  destruct (u32_bytes_value v) as (a & b & c & d & E & Hval); [subst v; zred; lia |].
  rewrite Hv, E in Hbyte. exists v. split.
  - rewrite read_i32_at, Hm; unfold bytecode_len; rewrite ?compile_code, ?resolve_patches_eq, ?Hz, ?Hm; [| lia | lia | zred; lia].
    unfold byte_at. rewrite compile_code, resolve_patches_eq.
    destruct (Hbyte off ltac:(lia)) as (_ & _ & ->). destruct (Hbyte (off + 1) ltac:(lia)) as (_ & _ & ->).
    destruct (Hbyte (off + 2) ltac:(lia)) as (_ & _ & ->).
    destruct (Hbyte (off + 3) ltac:(lia)) as (_ & _ & ->).
    replace (off - off) with 0 by lia. replace (off + 1 - off) with 1 by lia.
    replace (off + 2 - off) with 2 by lia. replace (off + 3 - off) with 3 by lia.
    change (default 0 (nthZ [a; b; c; d] 0)) with a. change (default 0 (nthZ [a; b; c; d] 1)) with b.
    change (default 0 (nthZ [a; b; c; d] 2)) with c. change (default 0 (nthZ [a; b; c; d] 3)) with d.
    by rewrite Hval.
  - subst v. replace (off + 4 + (target - (off + 4))) with target by lia.
    apply wrap_small. zred. lia.
Qed.

(** C3. Every jump of a compiled program goes to its label. Let a program have
    its EXITs in loops of their procedures, which the analysis checks of every
    EXIT but EXIT SELECT, and less than 2 GB of code. Then each forward
    reference that the emitter left (of a condition, a loop, a SELECT, an EXIT,
    a TRY) names a label that the emitter placed; the machine that reads the
    operand there continues at the offset where that label was placed last,
    which is inside the code; and resolving the references changes no other
    byte. *)
Theorem compiled_jumps_land m off lab :
  exits_in_loops m →
  zlen (code (emitted m)) < 2 ^ 31 →
  (off, lab) ∈ patches (emitted m) →
  ∃ target, find_label (labels (emitted m)) lab = Some target ∧
  0 <= target <= bytecode_len (compile m) ∧
  (∀ v, ip v = off → ∃ d,
    read_i32 (compile m) v = Some (d, set_ip (off + 4) v) ∧ u32 (off + 4 + d) = target) ∧
  ∀ i, (∀ off' lab', (off', lab') ∈ patches (emitted m) → ¬ (off' <= i < off' + 4)) →
    nthZ (bytecode (compile m)) i = nthZ (code (emitted m)) i.
Proof.
  intros Hm Hlen Hin.
  pose proof (proj1 (Forall_forall _ _) (emitted_closed m Hm) _ Hin) as [Hn | [target Ht]];
    [by apply not_elem_of_nil in Hn |].
  exists target. split; [exact Ht |]. by apply (jump_lands m off lab).
Qed.

(** ** Witness *)


(** [SUB Main: WHILE g < 3: g = g + 1 (... EXIT) : WEND] over a global [g]. *)
Definition loop_program : module_node :=
  program [lit "g"] [MkDecl false (lit "Main") [] None
    [Stmt 1 1 (SWhile (NBinary BINARY_LT (NIdent (lit "g")) (NLiteral (VI64 3)))
      [Stmt 2 1 (SAssign (NIdent (lit "g"))
        (NBinary BINARY_ADD (NIdent (lit "g")) (NLiteral (VI64 1))));
       Stmt 3 1 (SIf (NBinary BINARY_EQ (NIdent (lit "g")) (NLiteral (VI64 3)))
         [Stmt 3 9 (SExit EXIT_WHILE)] [] None)])]].

Lemma loop_runs :
  match bucc_vm_run (compile loop_program) (λ _, 0) None (bucc_vm_new []) with
  | Finished m => (stack m, stat m, globals m) = ([], VM_HALT, [VI64 3])
  | _ => False
  end.
Proof. by vm_compute. Qed.

(** The jump that leaves the loop. *)
Lemma compiled_jumps_land_witness :
  ∃ off lab target, (off, lab) ∈ patches (emitted loop_program) ∧
    find_label (labels (emitted loop_program)) lab = Some target ∧
    ∀ m, ip m = off → ∃ d,
      read_i32 (compile loop_program) m = Some (d, set_ip (off + 4) m) ∧
      u32 (off + 4 + d) = target.
Proof.
  destruct (patches (emitted loop_program)) as [|[off lab] l] eqn:Ep;
    [vm_compute in Ep; discriminate |].
  destruct (compiled_jumps_land loop_program off lab) as (target & Ht & _ & H & _);
    [by vm_compute; split_and! | by vm_compute | rewrite Ep; by left |].
  exists off, lab, target. split; [left | by split].
Defined.
