(* ===== verification/EmitDefects.v ===== *)
(** Where compiled Buccaneer programs do not do what they say: names of local
    variables, procedure numbers, assignments to elements, calls as statements,
    zeros of either sign, and loops that count down. Each is shown on the code generator and by
    running a compiled program. *)

From S2P Require Import Prelude CLib Float Value Vm VmSpec Ast Semantic SemanticSpec Emit EmitSpec.

#[local] Open Scope Z_scope.

(** ** Programs *)

(** How a compiled program ends: its stack, its status and its globals. *)
Definition result_of (m : module_node) : option (list value * status * list value) :=
  match bucc_vm_call (compile m) (λ _, 0) None (lit "Main") [] (bucc_vm_new []) with
  | Finished m => Some (stack m, stat m, globals m)
  | _ => None
  end.

Definition int (z : Z) : expr := NLiteral (VI64 z).
Definition at_line (k : stmt_kind) : stmt := Stmt 1 1 k.

(** [FUNCTION Main: DIM n AS INTEGER = 41 : RETURN n + 1] *)
Definition local_program : module_node := program []
  [MkDecl true (lit "Main") [] None
    [at_line (SVarDecl (MkVar (Some (lit "n")) (Some (TypeScalar SCALAR_INTEGER)) (Some (int 41))));
     at_line (SReturn (Some (NBinary BINARY_ADD (NIdent (lit "n")) (int 1))))]].

(** Code is generated when the scopes of the procedures are gone: the name of
    a local variable or a parameter compiles to NULL, and an assignment to it
    compiles to no store at all, leaving the value on the stack. A function that
    stores 41 in a variable and returns it plus one returns 1. *)
Theorem locals_are_not_compiled :
  (∀ m name e, ¬ declared m name →
     emit_expr (scopes (analyzed m)) (NIdent name) e = bucc_emit_op OP_PUSH_NULL e ∧
     emit_lvalue_store (scopes (analyzed m)) (NIdent name) e = e) ∧
  result_of local_program = Some ([VI64 1], VM_HALT, []).
Proof.
  split; [| by vm_compute]. intros m name e Hn. cbn [emit_expr emit_lvalue_store].
  unfold emit_ident, lookup_symbol. by rewrite undeclared_lookup.
Qed.

(** [SUB Main: r = 1 : r = Helper()], [FUNCTION Helper: RETURN 5], with [r] global *)
Definition call_program : module_node := program [lit "r"]
  [MkDecl false (lit "Main") [] None
    [at_line (SAssign (NIdent (lit "r")) (NCall (NIdent (lit "Helper")) []))];
   MkDecl true (lit "Helper") [] None [at_line (SReturn (Some (int 5)))]].

(** [SUB Main: a = \[10, 20\] : a\[0\] = 7 : r = a\[0\]], with [a] and [r] global *)
Definition element_program : module_node := program [lit "a"; lit "r"]
  [MkDecl false (lit "Main") [] None
    [at_line (SAssign (NIdent (lit "a")) (NArrayLit [int 10; int 20]));
     at_line (SAssign (NIndex (NIdent (lit "a")) (int 0)) (int 7));
     at_line (SAssign (NIdent (lit "r")) (NIndex (NIdent (lit "a")) (int 0)))]].

(** [SUB Main: Helper() : r = 1], [SUB Helper: ...] *)
Definition statement_program : module_node := program []
  [MkDecl false (lit "Main") [] None [at_line (SExpr (NCall (NIdent (lit "Helper")) []))];
   MkDecl false (lit "Helper") [] None []].

(** [SUB Main: FOR i = 3 TO 1 STEP -1 : r = r + 1 : NEXT], with [r] global *)
Definition countdown_program : module_node := program [lit "r"]
  [MkDecl false (lit "Main") [] None
    [at_line (SAssign (NIdent (lit "r")) (int 0));
     at_line (SFor (lit "i") (int 3) (int 1) (Some (int (-1)))
       [at_line (SAssign (NIdent (lit "r")) (NBinary BINARY_ADD (NIdent (lit "r")) (int 1)))])]].

(** Four constructs compile to code that does something else. A call uses the
    symbol's slot, which counts the global variables too, as the procedure's
    number: with one global, a call of the second procedure is a call of the
    third, an invalid one here. An assignment to an element pushes the value
    first, where the instruction expects the array: the array is not changed. A
    call of a SUB as a statement pops a value that a SUB does not return: the
    program stops with a stack underflow. A loop with a negative step tests as if
    it counted up: its body never runs. *)
Theorem constructs_are_miscompiled :
  result_of call_program = Some ([], VM_ERROR, []) ∧
  result_of element_program =
    Some ([], VM_HALT, [VArray 0; VI64 10]) ∧
  result_of statement_program = Some ([], VM_STACK_UNDERFLOW, []) ∧
  result_of countdown_program = Some ([], VM_HALT, [VI64 0]).
Proof. split_and!; vm_compute; reflexivity. Qed.

(** [SUB Main: p = 0.0 : n = -0.0], with [p] and [n] global *)
Definition zeros_program : module_node := program [lit "p"; lit "n"]
  [MkDecl false (lit "Main") [] None
    [at_line (SAssign (NIdent (lit "p")) (NLiteral (VF64 (S754_zero false))));
     at_line (SAssign (NIdent (lit "n")) (NLiteral (VF64 (S754_zero true))))]].

(** The two zeros share one constant: the second has the sign of the first. *)
Theorem zeros_share_a_constant :
  result_of zeros_program =
    Some ([], VM_HALT, [VF64 (S754_zero false); VF64 (S754_zero false)]).
Proof. vm_compute; reflexivity. Qed.
