(* ===== verification/TypeSpec.v ===== *)
(** Soundness of the types that the analysis of [Semantic] gives to expressions,
    against the meaning of expressions of [EmitSpec], and where the types are not
    what the machine computes. *)

From S2P Require Import Prelude CLib Float Value ValueSpec Vm VmSpec Ast Semantic SemanticSpec.
From S2P Require Import Emit EmitSpec EmitDefects.

#[local] Open Scope Z_scope.

(** ** Values of a type *)

(** NULL is a value of every type, an integer is a double; an expression with the
    type ERROR, ANY or VOID may have any value. Of a map the entries are left
    open: no operation reads them at their type. *)
Fixpoint typed (h : heap) (t : btype) (v : value) : Prop :=
  match v with
  | VNull => True
  | _ =>
      match t with
      | TYPE_VOID | TYPE_ERROR | TYPE_ANY => True
      | TYPE_NULL => False
      | TYPE_INTEGER => match v with VI64 _ => True | _ => False end
      | TYPE_DOUBLE => match v with VI64 _ | VF64 _ => True | _ => False end
      | TYPE_BOOLEAN => match v with VBool _ => True | _ => False end
      | TYPE_STRING => match v with VString _ => True | _ => False end
      | TYPE_DATE => match v with VDate _ => True | _ => False end
      | TYPE_DATETIME => match v with VDatetime _ => True | _ => False end
      | TYPE_ARRAY e =>
          match v with
          | VArray a =>
              ∃ items, get_array h a = Some items ∧
                match e with Some e => Forall (typed h e) items | None => True end
          | _ => False
          end
      | TYPE_MAP _ => match v with VMap _ => True | _ => False end
      end
  end.

Definition typed_opt (h : heap) (t : option btype) (v : value) : Prop :=
  match t with Some t => typed h t v | None => True end.

Lemma typed_null h t : typed h t VNull.
Proof. by destruct t. Qed.

Lemma get_array_app h ext a items : get_array h a = Some items → get_array (h ++ ext) a = Some items.
Proof.
  unfold get_array. destruct (h !! a) as [c |] eqn:E; [| done]. by rewrite (lookup_app_l_Some _ _ _ _ E).
Qed.

Lemma typed_app h ext : ∀ t v, typed h t v → typed (h ++ ext) t v.
Proof.
  fix IH 1. intros t v. destruct t as [| | | | | | | | e | e | |]; destruct v; cbn [typed]; try done.
  intros (items & Hg & Hi). exists items. split; [by apply get_array_app |].
  destruct e as [e |]; [| done]. pose proof (IH e) as IHe. clear IH.
  eapply Forall_impl; [exact Hi | exact IHe].
Qed.

Lemma typed_opt_app h ext t v : typed_opt h t v → typed_opt (h ++ ext) t v.
Proof. destruct t; [apply typed_app | done]. Qed.

(** ** Canonical forms *)

Lemma numeric_typed h t v :
  bucc_type_is_numeric t = true → typed_opt h t v →
  v = VNull ∨ (∃ z, v = VI64 z) ∨ t = Some TYPE_DOUBLE ∧ ∃ f, v = VF64 f.
Proof.
  destruct t as [[] |]; cbn; intros H Ht; try done; destruct v; try done; eauto 6.
Qed.

(** ** Types depend on the scopes only *)

Definition at_scopes (l : list scope) : semantic := set_scopes l (bucc_semantic_new []).

(** The type the analysis gives to an expression. *)
Definition type_of (l : list scope) (x : expr) : option btype := fst (analyze_expr x (at_scopes l)).

Lemma logs_scopes s s' : logs s s' → scopes s' = scopes s.
Proof. by intros [d ->]. Qed.

Lemma analyze_scopes x s : scopes (snd (analyze_expr x s)) = scopes s.
Proof. apply logs_scopes, analyze_expr_logs. Qed.

Lemma fold_types_scopes {A} (x_of : A → expr) l :
  Forall (λ a, ∀ s s', scopes s = scopes s' →
    fst (analyze_expr (x_of a) s) = fst (analyze_expr (x_of a) s')) l →
  ∀ t s s', scopes s = scopes s' →
    let f r a := let '(t, s) := analyze_expr (x_of a) (snd r) in (first_type (fst r) t, s) in
    fst (fold_left f l (t, s)) = fst (fold_left f l (t, s')).
Proof.
  induction 1 as [|a l Ha _ IH]; intros t s s' E f; cbn [fold_left]; [done |].
  specialize (Ha s s' E). pose proof (analyze_scopes (x_of a) s) as H1.
  pose proof (analyze_scopes (x_of a) s') as H2. unfold f at 2 4. cbn [fst snd].
  destruct (analyze_expr (x_of a) s) as [u s1], (analyze_expr (x_of a) s') as [u' s1'].
  cbn [fst snd] in *. subst u'. apply IH. congruence.
Qed.

Lemma analyze_types x : ∀ s s', scopes s = scopes s' →
  fst (analyze_expr x s) = fst (analyze_expr x s').
Proof.
  induction x as [name | v | op a IH | op a b IHa IHb | c args IHc IHargs | a k IH | a i IHa IHi
    | l IHl | l IHl | ns name | |] using expr_ind'; intros s s' E; cbn [analyze_expr]; try done.
  - unfold analyze_ident. rewrite E. by destruct (bucc_scope_lookup _ _).
  - specialize (IH s s' E). destruct (analyze_expr a s) as [t s1], (analyze_expr a s') as [t' s1'].
    cbn [fst] in IH. subst t'. by destruct op.
  - specialize (IHa s s' E). pose proof (analyze_scopes a s) as H1. pose proof (analyze_scopes a s') as H2.
    destruct (analyze_expr a s) as [t s1], (analyze_expr a s') as [t' s1']. cbn [fst snd] in *. subst t'.
    specialize (IHb s1 s1' ltac:(congruence)).
    destruct (analyze_expr b s1) as [u s2], (analyze_expr b s1') as [u' s2']. cbn [fst] in *. subst u'.
    destruct op; cbn; try done. by destruct (is_type t TYPE_STRING).
  - specialize (IHc s s' E). by destruct (analyze_expr c s), (analyze_expr c s').
  - by destruct (analyze_expr a s), (analyze_expr a s').
  - specialize (IHa s s' E). pose proof (analyze_scopes a s) as H1. pose proof (analyze_scopes a s') as H2.
    destruct (analyze_expr a s) as [t s1], (analyze_expr a s') as [t' s1']. cbn [fst snd] in *. subst t'.
    specialize (IHi s1 s1' ltac:(congruence)).
    destruct (analyze_expr i s1) as [u s2], (analyze_expr i s1') as [u' s2']. cbn [fst] in *. subst u'.
    by destruct t as [[] |].
  - pose proof (fold_types_scopes id l IHl None s s' E) as H. unfold id in H. cbv zeta in H.
    destruct (fold_left _ l (None, s)), (fold_left _ l (None, s')). cbn in *. by subst.
  - pose proof (fold_types_scopes snd l IHl None s s' E) as H. cbv zeta in H.
    destruct (fold_left _ l (None, s)), (fold_left _ l (None, s')). cbn in *. by subst.
  - unfold analyze_qualified. by destruct (bucc_semantic_resolve_host_call ns name).
Qed.

Lemma analyze_type_of x s : fst (analyze_expr x s) = type_of (scopes s) x.
Proof. by apply analyze_types. Qed.

(** ** The store grows *)

Lemma evals_grow env l :
  Forall (λ x, ∀ h v h', eval env x h = Some (v, h') → ∃ ext, h' = h ++ ext) l →
  ∀ h vs h', evals env l h = Some (vs, h') → ∃ ext, h' = h ++ ext.
Proof.
  induction 1 as [|x l Hx _ IH]; intros h vs h' E; cbn in E.
  - injection E as _ <-. exists []. by rewrite app_nil_r.
  - apply bind_Some in E as ([v h1] & E1 & E). apply bind_Some in E as ([ws h2] & E2 & [= _ <-]).
    destruct (Hx _ _ _ E1) as [e1 ->], (IH _ _ _ E2) as [e2 ->]. exists (e1 ++ e2). by rewrite app_assoc.
Qed.

Lemma eval_pairs_grow env l :
  Forall (λ p, ∀ h v h', eval env (snd p) h = Some (v, h') → ∃ ext, h' = h ++ ext) l →
  ∀ h vs h', eval_pairs env l h = Some (vs, h') → ∃ ext, h' = h ++ ext.
Proof.
  induction 1 as [|[k x] l Hx _ IH]; intros h vs h' E; cbn in E.
  - injection E as _ <-. exists []. by rewrite app_nil_r.
  - apply bind_Some in E as ([v h1] & E1 & E). apply bind_Some in E as ([ws h2] & E2 & [= _ <-]).
    destruct (Hx _ _ _ E1) as [e1 ->], (IH _ _ _ E2) as [e2 ->]. exists (e1 ++ e2). by rewrite app_assoc.
Qed.

Lemma eval_grow env x : ∀ h v h', eval env x h = Some (v, h') → ∃ ext, h' = h ++ ext.
Proof.
  induction x as [name | w | op a IH | op a b IHa IHb | c args IHc IHargs | a k IH | a i IHa IHi
    | l IHl | l IHl | ns name | |] using expr_ind'; intros h v h' E; try done;
    try (injection E as _ <-; exists []; by rewrite app_nil_r).
  - apply bind_Some in E as ([w h1] & E1 & E). apply bind_Some in E as (r & _ & [= _ <-]). eauto.
  - apply bind_Some in E as ([w h1] & E1 & E). apply bind_Some in E as ([u h2] & E2 & E).
    apply bind_Some in E as (r & _ & [= _ <-]).
    destruct (IHa _ _ _ E1) as [e1 ->], (IHb _ _ _ E2) as [e2 ->]. exists (e1 ++ e2). by rewrite app_assoc.
  - apply bind_Some in E as ([w h1] & E1 & [= _ <-]). eauto.
  - apply bind_Some in E as ([w h1] & E1 & E). apply bind_Some in E as ([u h2] & E2 & [= _ <-]).
    destruct (IHa _ _ _ E1) as [e1 ->], (IHi _ _ _ E2) as [e2 ->]. exists (e1 ++ e2). by rewrite app_assoc.
  - rewrite eval_array in E. apply bind_Some in E as ([vs h1] & E1 & [= _ <-]).
    destruct (evals_grow env l IHl _ _ _ E1) as [e1 ->]. eexists. by rewrite <- app_assoc.
  - rewrite eval_map in E. apply bind_Some in E as ([vs h1] & E1 & [= _ <-]).
    destruct (eval_pairs_grow env l IHl _ _ _ E1) as [e1 ->]. eexists. by rewrite <- app_assoc.
Qed.

(** ** Soundness *)

(** Array literals whose elements have the type of the first one. *)
Fixpoint uniform (l : list scope) (x : expr) : Prop :=
  match x with
  | NUnary _ a | NMember a _ => uniform l a
  | NBinary _ a b | NIndex a b => uniform l a ∧ uniform l b
  | NArrayLit xs =>
      all (uniform l) xs ∧ ∃ t, all (λ x, type_of l x = t) xs
  | NMapLit ps => all (λ p, uniform l (snd p)) ps
  | _ => True
  end.

(** The variables hold values of their types. *)
Definition env_typed (l : list scope) (env : cstr → value) (h : heap) : Prop :=
  ∀ name sym, bucc_scope_lookup l name = Some sym → typed_opt h (sym_type sym) (env name).

Lemma env_typed_app l env h ext : env_typed l env h → env_typed l env (h ++ ext).
Proof. intros H name sym E. by apply typed_opt_app, H. Qed.

Lemma err_if_clean b msg s : has_errors (err_if b msg s) = false → b = false ∧ has_errors s = false.
Proof.
  destruct b; cbn; [| done]. unfold has_errors. cbn. rewrite existsb_app. cbn. by rewrite orb_true_r.
Qed.

Lemma literal_typed h v : typed h (literal_type v) (literal_value v).
Proof. by destruct v. Qed.

Lemma int_value_some z v : int_value z = Some v → v = VI64 z.
Proof. unfold int_value. case_decide; [by intros [= <-] | done]. Qed.

Lemma unop_typed op h a t s v :
  has_errors (snd (analyze_unary op t s)) = false → typed_opt h t a → unop op h a = Some v →
  typed_opt h (fst (analyze_unary op t s)) v.
Proof.
  destruct op; cbn [analyze_unary fst snd unop]; intros Hs Ha E.
  - apply err_if_clean in Hs as [Hn%negb_false_iff _].
    destruct (numeric_typed h t a Hn Ha) as [-> | [[z ->] | [-> [f ->]]]]; [done | |].
    + apply int_value_some in E as ->. by destruct t as [[] |].
    + by injection E as <-.
  - by injection E as <-.
Qed.

Lemma arith_typed on_int on_f64 h a b t u s v :
  (∀ x y v, on_int x y = Some v → ∃ z, v = VI64 z) → (∀ x y v, on_f64 x y = Some v → ∃ f, v = VF64 f) →
  has_errors (snd (analyze_arith t u s)) = false → typed_opt h t a → typed_opt h u b →
  arith on_int on_f64 a b = Some v → typed_opt h (fst (analyze_arith t u s)) v.
Proof.
  intros Hint Hf64 Hs Ha Hb E. unfold analyze_arith in *. cbn [fst snd] in *.
  apply err_if_clean in Hs as [[Ht%negb_false_iff Hu%negb_false_iff]%orb_false_iff _].
  destruct (numeric_typed h t a Ht Ha) as [-> | [[x ->] | [-> [x ->]]]]; [done | |].
  - destruct (numeric_typed h u b Hu Hb) as [-> | [[y ->] | [-> [y ->]]]]; [done | |].
    + apply Hint in E as [z ->]. cbn. by destruct (_ || _).
    + apply Hf64 in E as [f ->]. cbn. by rewrite orb_true_r.
  - assert (Hv : ∃ f, v = VF64 f).
    { destruct (numeric_typed h u b Hu Hb) as [-> | [[y ->] | [-> [y ->]]]]; [done | |];
        by apply Hf64 in E. }
    by destruct Hv as [f ->].
Qed.

Lemma not_text h t v : bucc_type_is_numeric t = true → typed_opt h t v → is_text v = false.
Proof. intros Ht Hv. by destruct (numeric_typed h t v Ht Hv) as [-> | [[z ->] | [_ [f ->]]]]. Qed.

Lemma f64_some (o : f64) v : Some (VF64 o) = Some v → ∃ f, v = VF64 f.
Proof. intros [= <-]. eauto. Qed.

Lemma binop_typed op h a b t u s v :
  has_errors (snd (analyze_binary op t u s)) = false → typed_opt h t a → typed_opt h u b →
  binop op h a b = Some v → typed_opt h (fst (analyze_binary op t u s)) v.
Proof.
  intros Hs Ha Hb E.
  assert (Hi : ∀ z v, int_value z = Some v → ∃ z, v = VI64 z) by (intros z w Hw; apply int_value_some in Hw; eauto).
  destruct op; cbn [analyze_binary binop] in *;
    try (by injection E as <-);
    try (by apply fmap_Some in E as (r & _ & ->));
    try (refine (arith_typed _ _ h a b t u s v _ _ Hs Ha Hb E); intros x y w; eauto using f64_some).
  - destruct (is_type t TYPE_STRING) eqn:Et.
    + cbn [fst]. destruct t as [[] |]; try done. cbn in Ha.
      destruct (is_text a || is_text b) eqn:Ex; [by injection E as <- |].
      destruct a; done.
    + pose proof Hs as Hs'. unfold analyze_arith in Hs'. cbn [snd] in Hs'.
      apply err_if_clean in Hs' as [[Ht%negb_false_iff Hu%negb_false_iff]%orb_false_iff _].
      rewrite (not_text h t a Ht Ha), (not_text h u b Hu Hb) in E.
      refine (arith_typed _ _ h a b t u s v _ _ Hs Ha Hb E); intros x y w; eauto using f64_some.
  - destruct (y =? 0); [done |]. eauto.
  - destruct (feqb y fzero); [done |]. apply f64_some.
  - destruct (y =? 0); [done |]. case_decide; [eauto | done].
  - done.
Qed.

Lemma index_typed h a i t u s :
  has_errors (snd (analyze_index t u s)) = false → typed_opt h t a → typed_opt h u i →
  typed_opt h (fst (analyze_index t u s)) (index_value h a i).
Proof.
  intros Hs Ha Hi.
  destruct t as [[| | | | | | | | e | e | |] |]; cbn [analyze_index fst snd typed_opt] in *;
    try (by destruct (index_value h a i)).
  - destruct a as [| | | | | | | a | |]; try (by destruct Ha); [apply typed_null |].
    cbn [index_value]. destruct i; try apply typed_null. cbn [typed] in Ha.
    destruct Ha as (items & Hg & Hall). unfold bucc_array_get. rewrite Hg.
    destruct (nthZ items (u64 z)) as [w |] eqn:En; [| apply typed_null]. cbn [default].
    destruct e as [e |]; [| by destruct w].
    unfold nthZ in En. destruct (u64 z <? 0); [done |].
    exact (Forall_lookup_1 _ _ _ _ Hall En).
  - destruct a; try (by destruct Ha); apply typed_null.
Qed.

(** The statement for one expression. *)
Definition sound (env : cstr → value) (x : expr) : Prop :=
  ∀ s h v h', has_errors (analyze x s) = false → uniform (scopes s) x →
    env_typed (scopes s) env h → eval env x h = Some (v, h') →
    typed_opt h' (fst (analyze_expr x s)) v.

(** Two operands, one after the other. *)
Lemma sound_operands env a b (k : option btype → option btype → semantic → option btype * semantic)
    s h v1 h1 v2 h2 :
  sound env a → sound env b → (∀ t u s, logs s (snd (k t u s))) →
  has_errors (snd (let '(t, s) := analyze_expr a s in let '(u, s) := analyze_expr b s in k t u s)) = false →
  uniform (scopes s) a → uniform (scopes s) b → env_typed (scopes s) env h →
  eval env a h = Some (v1, h1) → eval env b h1 = Some (v2, h2) →
  ∃ t u s', has_errors (snd (k t u s')) = false ∧ typed_opt h2 t v1 ∧ typed_opt h2 u v2 ∧
    (let '(t, s) := analyze_expr a s in let '(u, s) := analyze_expr b s in k t u s) = k t u s'.
Proof.
  intros Ha Hb Hk Hs Hua Hub Henv E1 E2.
  specialize (Ha s h v1 h1). pose proof (analyze_scopes a s) as Hsc. unfold analyze in Ha.
  destruct (analyze_expr a s) as [t s1] eqn:Et. cbn [fst snd] in *.
  specialize (Hb s1 h1 v2 h2). pose proof (analyze_expr_logs b s1) as Hl. unfold analyze in Hb.
  destruct (analyze_expr b s1) as [u s2] eqn:Eu. cbn [fst snd] in *.
  destruct (eval_grow _ _ _ _ _ E1) as [e1 He1], (eval_grow _ _ _ _ _ E2) as [e2 He2].
  pose proof (errors_grow _ _ (logs_step _ _ (Hk t u s2)) Hs) as Hs2.
  pose proof (errors_grow _ _ (logs_step _ _ Hl) Hs2) as Hs1.
  exists t, u, s2. split_and!; try done.
  - rewrite He2. apply typed_opt_app. by apply Ha.
  - apply Hb; rewrite ?Hsc; try done. rewrite He1. by apply env_typed_app.
Qed.

(** The elements of an array literal, all of the type [t]. *)
Lemma sound_elements env t l :
  Forall (sound env) l →
  ∀ s h vs h' u, has_errors (snd (fold_left (λ r a,
      let '(t, s) := analyze_expr a (snd r) in (first_type (fst r) t, s)) l (u, s))) = false →
    all (uniform (scopes s)) l → all (λ x, type_of (scopes s) x = t) l → env_typed (scopes s) env h →
    evals env l h = Some (vs, h') →
    Forall (typed_opt h' t) vs ∧
    fst (fold_left (λ r a, let '(t, s) := analyze_expr a (snd r) in (first_type (fst r) t, s)) l (u, s))
      = match u, l with Some _, _ | _, [] => u | None, _ :: _ => t end.
Proof.
  induction 1 as [|x l Hx _ IH]; intros s h vs h' u Hs Hu Ht Henv E; cbn in E.
  { injection E as <- _. split; [done | by destruct u]. }
  apply bind_Some in E as ([v h1] & E1 & E). apply bind_Some in E as ([ws h2] & E2 & [= <- <-]).
  destruct Hu as [Hu1 Hu], Ht as [Ht1 Ht]. cbn [fold_left fst snd] in *.
  specialize (Hx s h v h1). pose proof (analyze_scopes x s) as Hsc. unfold analyze in Hx.
  rewrite <- analyze_type_of in Ht1.
  destruct (analyze_expr x s) as [t' s1]. cbn [fst snd] in *. subst t'.
  destruct (eval_grow _ _ _ _ _ E1) as [e1 He1].
  pose proof (logs_fold_types analyze_expr l ltac:(apply Forall_forall; intros; apply analyze_expr_logs)
    (first_type u t, s1)) as Hl. cbn [snd] in Hl.
  specialize (IH s1 h1 ws h2 (first_type u t) Hs). rewrite Hsc in IH.
  destruct IH as [IH1 IH2]; try done. { rewrite He1. by apply env_typed_app. }
  split.
  - constructor; [| done].
    assert (Hg : ∃ e2, h2 = h1 ++ e2) by (eapply evals_grow; [apply Forall_forall; intros; by eapply eval_grow | done]).
    destruct Hg as [e2 ->]. apply typed_opt_app. apply Hx; try done.
    by apply (errors_grow _ _ (logs_step _ _ Hl)).
  - rewrite IH2. destruct u, t, l; done.
Qed.

Lemma expr_sound env x : sound env x.
Proof.
  induction x as [name | w | op a IH | op a b IHa IHb | c args IHc IHargs | a k IH | a i IHa IHi
    | l IHl | l IHl | ns name | |] using expr_ind'; intros s h v h' Hs Hu Henv E; try done.
  - injection E as <- <-. cbn [analyze_expr]. unfold analyze_ident.
    destruct (bucc_scope_lookup (scopes s) name) as [sym |] eqn:El; [by apply Henv |].
    cbn. by destruct (env name).
  - injection E as <- <-. apply literal_typed.
  - apply bind_Some in E as ([w h1] & E1 & E). apply bind_Some in E as (r & Er & [= <- <-]).
    unfold analyze in Hs. cbn [analyze_expr] in *. specialize (IH s h w h1). unfold analyze in IH.
    destruct (analyze_expr a s) as [t s1]. cbn [fst snd] in *.
    apply (unop_typed op h1 w); try done. apply IH; try done.
    refine (errors_grow _ _ (logs_step _ _ _) Hs). destruct op; apply logs_err_if.
  - apply bind_Some in E as ([v1 h1] & E1 & E). apply bind_Some in E as ([v2 h2] & E2 & E).
    apply bind_Some in E as (r & Er & [= <- <-]). destruct Hu as [Hua Hub].
    destruct (sound_operands env a b (analyze_binary op) s h v1 h1 v2 h2) as (t & u & s' & Hs' & H1 & H2 & Eq);
      try done; [intros; apply logs_binary |].
    cbn [analyze_expr]. rewrite Eq. by apply (binop_typed op h2 v1 v2).
  - apply bind_Some in E as ([w h1] & E1 & [= <- <-]). cbn [analyze_expr].
    destruct (analyze_expr a s) as [t s1]. cbn. by destruct (member_value h1 w k).
  - apply bind_Some in E as ([v1 h1] & E1 & E). apply bind_Some in E as ([v2 h2] & E2 & [= <- <-]).
    destruct Hu as [Hua Hub].
    destruct (sound_operands env a i analyze_index s h v1 h1 v2 h2) as (t & u & s' & Hs' & H1 & H2 & Eq);
      try done; [intros; apply logs_index |].
    cbn [analyze_expr]. rewrite Eq. by apply index_typed.
  - rewrite eval_array in E. apply bind_Some in E as ([vs h1] & E1 & [= <- <-]).
    destruct Hu as [Hu [t Ht]]. unfold analyze in Hs. cbn [analyze_expr] in *.
    destruct (sound_elements env t l IHl s h vs h1 None) as [Hall Hty]; try done.
    { by destruct (fold_left _ l (None, s)). }
    destruct (fold_left _ l (None, s)) as [t' s1]. cbn [fst] in *. subst t'.
    cbn [typed_opt typed]. exists vs. split.
    { unfold get_array. by rewrite lookup_app_r, Nat.sub_diag by lia. }
    eapply Forall_impl; [exact Hall |]. intros w Hw. apply typed_app.
    destruct l as [|x l]; cbn; [by destruct w |]. destruct t; [exact Hw |]. cbn. by destruct w.
  - rewrite eval_map in E. apply bind_Some in E as ([vs h1] & E1 & [= <- <-]).
    cbn [analyze_expr]. by destruct (fold_left _ l (None, s)).
  - by injection E as <- <-.
Qed.

(** C7. Types of expressions are sound. When the analysis accepts an expression
    with the type [t], the array literals in it are uniform and the variables
    hold values of their declared types (NULL, or an integer in a DOUBLE,
    included), then the value the expression computes, by the meaning its
    compiled code implements, is one of type [t]; and it leaves every value of the
    store as it was. *)
Theorem analyze_expr_sound env x s t s' h v h' :
  analyze_expr x s = (t, s') → has_errors s' = false → uniform (scopes s) x →
  env_typed (scopes s) env h → eval env x h = Some (v, h') →
  typed_opt h' t v ∧ ∃ ext, h' = h ++ ext.
Proof.
  intros Ea Hs Hu Henv E. split; [| by eapply eval_grow].
  pose proof (expr_sound env x s h v h') as H. unfold analyze in H. rewrite Ea in H. by apply H.
Qed.

(** ** Where the types are not what is computed *)

Definition int_type : option type_ref := Some (TypeScalar SCALAR_INTEGER).

Definition accepted (m : module_node) : Prop :=
  fst (bucc_semantic_analyze m (bucc_semantic_new [])) = true.

(** [FUNCTION Main() AS INTEGER: RETURN x] and an empty [SUB Main]. *)
Definition returning (x : expr) : module_node := program []
  [MkDecl true (lit "Value") [] int_type [at_line (SReturn (Some x))];
   MkDecl false (lit "Main") [] None []].

(** How the function [Value] of a module ends. *)
Definition value_of (m : module_node) : option (list value * status) :=
  match bucc_vm_call (compile m) (λ _, 0) None (lit "Value") [] (bucc_vm_new []) with
  | Finished v => Some (stack v, stat v)
  | _ => None
  end.

(** [\[1, "a"\]\[1\] + 1] *)
Definition mixed_element : expr :=
  NBinary BINARY_ADD
    (NIndex (NArrayLit [int 1; NLiteral (VString (lit "a"))]) (int 1)) (int 1).

(** [{"k": 7}\["k"\]] *)
Definition map_element : expr :=
  NIndex (NMapLit [(lit "k", int 7)]) (NLiteral (VString (lit "k"))).

(** Two accepted INTEGER functions that do not return an integer. The type of
    an array literal is that of its first element, whatever the others are: the
    second element of [1, "a"], plus one, is a text. And an index into a map is
    checked as a map access but compiled to the array instruction: the element
    of {"k": 7} under "k" is NULL. *)
Theorem typing_gaps :
  accepted (returning mixed_element) ∧
  value_of (returning mixed_element) = Some ([VString (lit "a1")], VM_HALT) ∧
  accepted (returning map_element) ∧
  value_of (returning map_element) = Some ([VNull], VM_HALT).
Proof. split_and!; vm_compute; reflexivity. Qed.

(** ** Witness *)

Definition sample_types : list scope :=
  scopes (analyzed (MkNode [] [MkVar (Some (lit "n")) int_type None;
    MkVar (Some (lit "a")) (Some (TypeArray (Some (TypeScalar SCALAR_STRING)))) None] [])).

Definition sample_values (name : cstr) : value :=
  if same_name (lit "a") name then VArray 0 else if same_name (lit "n") name then VI64 5 else VNull.

(** [a\[n MOD 2\] + "x"] *)
Definition sample_typed : expr :=
  NBinary BINARY_ADD
    (NIndex (NIdent (lit "a")) (NBinary BINARY_MOD (NIdent (lit "n")) (int 2)))
    (NLiteral (VString (lit "x"))).

Definition sample_store : heap := [CArray [VString (lit "p"); VString (lit "q")]].

Lemma analyze_expr_sound_witness :
  type_of sample_types sample_typed = Some TYPE_STRING ∧
  typed_opt sample_store (Some TYPE_STRING) (VString (lit "qx")).
Proof.
  split; [by vm_compute |].
  refine (proj1 (analyze_expr_sound sample_values sample_typed (at_scopes sample_types)
    (Some TYPE_STRING) (at_scopes sample_types) sample_store (VString (lit "qx")) sample_store _ _ _ _ _)).
  - by vm_compute.
  - by vm_compute.
  - cbn. tauto.
  - intros name sym. unfold at_scopes, sample_types, sample_values.
    set (l := scopes _). vm_compute in l. subst l. cbn [bucc_scope_lookup symbols find_symbol sym_name].
    change [110] with (lit "n"). change [97] with (lit "a").
    destruct (same_name (lit "n") name), (same_name (lit "a") name);
      try (intros [= <-]); try done; cbn; try (eexists; split; [reflexivity | by repeat constructor]).
  - by vm_compute.
Defined.
