(* ===== verification/ModuleFile.v ===== *)
(** Compiled Buccaneer modules and the files they are saved in
    (src/buccaneer/module.c): the saver, the loader, the verifier and the debug
    map. A file is the list of its bytes; opening and writing it succeed, as
    does allocation. Reading outside the loaded bytes, and copying a NULL name,
    is undefined: [None]. *)

From S2P Require Import Prelude CLib Float Value Vm Emit.

#[local] Open Scope Z_scope.

(** ** Data *)

(** src/buccaneer/include/bucc_module.h:20-20 (BUCC_MAGIC) *)
Definition BUCC_MAGIC : cstr := lit "BUCC".

(** src/buccaneer/include/bucc_module.h:21-21 (BUCC_FORMAT_MAJOR) *)
Definition BUCC_FORMAT_MAJOR : Z := 1.

(** src/buccaneer/include/bucc_module.h:22-22 (BUCC_FORMAT_MINOR) *)
Definition BUCC_FORMAT_MINOR : Z := 0.

(** src/buccaneer/include/bucc_module.h:28-45 (bucc_module_header) *)
Record bucc_module_header : Type := MkHeader {
  h_magic : list Z; format_major : Z; format_minor : Z; h_flags : Z; header_size : Z;
  metadata_offset : Z; string_pool_offset : Z; const_pool_offset : Z; symbol_table_offset : Z;
  proc_table_offset : Z; dataset_table_offset : Z; import_table_offset : Z;
  bytecode_offset : Z; debug_map_offset : Z; file_length : Z; h_crc32 : Z
}.

(** [sizeof(bucc_module_header_t)], which is packed. *)
Definition header_len : Z := 60.

(** src/buccaneer/include/bucc_module.h:48-56 (bucc_module_proc) *)
Record bucc_module_proc : Type := MkMProc {
  mp_name : option cstr; mp_id : Z; mp_code_offset : Z; mp_code_len : Z; mp_param_count : Z;
  mp_local_count : Z; mp_is_function : bool
}.

(** src/buccaneer/include/bucc_module.h:58-63 (bucc_module_import) *)
Record bucc_module_import : Type := MkMImport {
  mi_ns : option cstr; mi_fn : option cstr; mi_id : Z
}.

(** src/buccaneer/include/bucc_module.h:77-101 (bucc_module) *)
Record bucc_module : Type := MkFile {
  header : bucc_module_header;
  m_strings : list (option cstr);
  m_constants : list value;
  m_procedures : list bucc_module_proc;
  m_imports : list bucc_module_import;
  m_bytecode : list Z
}.

(** What the machine reads of a module. *)
Definition image (m : bucc_module) : module :=
  MkModule (default [] <$> m_strings m) (m_constants m)
    ((λ p, MkProc (mp_name p) (mp_code_offset p)) <$> m_procedures m)
    ((λ i, MkImport (mi_ns i) (mi_fn i)) <$> m_imports m)
    (m_bytecode m).

(** The whole of what the code generator hands over.
    src/buccaneer/emit.c:940-1061 (bucc_emitter_to_module) *)
Definition emitter_module (e : emitter) : bucc_module :=
  MkFile (MkHeader BUCC_MAGIC BUCC_FORMAT_MAJOR BUCC_FORMAT_MINOR 0 header_len 0 0 0 0 0 0 0 0 0 0 0)
    (Some <$> rev (strs e)) (rev (consts e))
    ((λ p, MkMProc (Some (pe_name p)) (pe_id p) (pe_offset p) (pe_len p) (pe_params p)
       (pe_locals p) (pe_function p)) <$> rev (procs e))
    (imap (λ i imp, MkMImport (Some (fst imp)) (Some (snd imp)) (Z.of_nat i)) (rev (imps e)))
    (code e).

(** ** Checksum *)

(** src/buccaneer/module.c:29-39 (init_crc32_table) *)
Definition crc32_entry (i : Z) : Z :=
  Nat.iter 8 (λ c, Z.lxor (Z.shiftr c 1) (if Z.land c 1 =? 0 then 0 else 0xEDB88320)) i.

(** src/buccaneer/module.c:41-48 (compute_crc32) *)
Definition compute_crc32 (data : list Z) : Z :=
  Z.lxor (foldl (λ crc b, Z.lxor (crc32_entry (Z.land (Z.lxor crc b) 0xFF)) (Z.shiftr crc 8))
    0xFFFFFFFF data) 0xFFFFFFFF.

(** ** Doubles as bytes *)

(** The 64 bits of a double; a NaN is the quiet one. *)
Definition f64_bits (f : f64) : Z :=
  match f with
  | S754_zero s => if s then 2 ^ 63 else 0
  | S754_infinity s => (if s then 2 ^ 63 else 0) + 2047 * 2 ^ 52
  | S754_nan => 2047 * 2 ^ 52 + 2 ^ 51
  | S754_finite s m e =>
      (if s : bool then 2 ^ 63 else 0) +
      (if Zpos m <? 2 ^ 52 then Zpos m else (e + 1075) * 2 ^ 52 + (Zpos m - 2 ^ 52))
  end.

Definition f64_of_bits (u : Z) : f64 :=
  let s := 2 ^ 63 <=? u in
  let u := u mod 2 ^ 63 in
  let e := u / 2 ^ 52 in
  let m := u mod 2 ^ 52 in
  if e =? 2047 then (if m =? 0 then S754_infinity s else S754_nan)
  else if e =? 0 then match m with Zpos p => S754_finite s p (-1074) | _ => S754_zero s end
  else match m + 2 ^ 52 with Zpos p => S754_finite s p (e - 1075) | _ => S754_zero s end.

(** The eight bytes of a 64-bit integer, highest first. *)
Definition u64_bytes (v : Z) : list Z :=
  (λ j, Z.land (Z.shiftr v (j * 8)) 0xFF) <$> [7; 6; 5; 4; 3; 2; 1; 0].

(** ** Saving *)

Fixpoint string_index (pool : list cstr) (s : cstr) (i : Z) : option Z :=
  match pool with
  | [] => None
  | t :: pool => if bool_decide (t = s) then Some i else string_index pool s (i + 1)
  end.

(** src/buccaneer/module.c:285-301 (add_string_to_pool) *)
Definition add_string_to_pool (pool : list cstr) (s : cstr) : Z * list cstr :=
  match string_index pool s 0 with
  | Some i => (i, pool)
  | None => (zlen pool, pool ++ [s])
  end.

(** Every string of a list added, with the indices. *)
Fixpoint add_strings (l : list cstr) (pool : list cstr) : list Z * list cstr :=
  match l with
  | [] => ([], pool)
  | s :: l =>
      let '(i, pool) := add_string_to_pool pool s in
      let '(ids, pool) := add_strings l pool in (i :: ids, pool)
  end.

(** The pairs of indices of the imports.
    src/buccaneer/module.c:324-329 (bucc_module_save_file) *)
Fixpoint add_imports (l : list bucc_module_import) (pool : list cstr) : list (Z * Z) * list cstr :=
  match l with
  | [] => ([], pool)
  | imp :: l =>
      let '(i, pool) := add_string_to_pool pool (default [] (mi_ns imp)) in
      let '(j, pool) := add_string_to_pool pool (default [] (mi_fn imp)) in
      let '(ids, pool) := add_imports l pool in ((i, j) :: ids, pool)
  end.

(** src/buccaneer/module.c:379-387 (bucc_module_save_file) *)
Definition string_bytes (s : cstr) : list Z := u16_bytes (u16 (zlen s)) ++ s.

(** src/buccaneer/module.c:394-424 (bucc_module_save_file) *)
Definition constant_bytes (v : value) : list Z :=
  match v with
  | VNull => [0]
  | VBool b => [1; if b then 1 else 0]
  | VI64 z => 2 :: u64_bytes z
  | VF64 f => 3 :: u64_bytes (f64_bits f)
  | _ => [0]
  end.

(** A row of 24 bytes, the last three of them padding.
    src/buccaneer/module.c:433-442 (bucc_module_save_file) *)
Definition proc_bytes (r : Z * bucc_module_proc) : list Z :=
  let '(name, p) := r in
  u32_bytes name ++ u32_bytes (mp_id p) ++ u32_bytes (mp_code_offset p) ++
  u32_bytes (mp_code_len p) ++ u16_bytes (u16 (mp_param_count p)) ++
  u16_bytes (u16 (mp_local_count p)) ++ [if mp_is_function p then 1 else 0; 0; 0; 0].

(** src/buccaneer/module.c:451-456 (bucc_module_save_file) *)
Definition import_bytes (r : (Z * Z) * bucc_module_import) : list Z :=
  let '(i, j, imp) := r in u32_bytes i ++ u32_bytes j ++ u32_bytes (mi_id imp).

(** A count and the rows. *)
Definition table_bytes {A} (row : A → list Z) (l : list A) : list Z :=
  u32_bytes (zlen l) ++ concat (row <$> l).

(** src/buccaneer/module.c:365-374 (bucc_module_save_file) *)
Definition header_bytes (h : bucc_module_header) : list Z :=
  h_magic h ++ u16_bytes (format_major h) ++ u16_bytes (format_minor h) ++
  concat (u32_bytes <$> [h_flags h; header_size h; metadata_offset h; string_pool_offset h;
    const_pool_offset h; symbol_table_offset h; proc_table_offset h; dataset_table_offset h;
    import_table_offset h; bytecode_offset h; debug_map_offset h; file_length h; h_crc32 h]).

(** The pool of a saved module and the indices of the names in it.
    src/buccaneer/module.c:307-329 (bucc_module_save_file) *)
Definition saved_names (m : bucc_module) : list Z * list (Z * Z) * list cstr :=
  let '(_, pool) := add_strings (default [] <$> m_strings m) [] in
  let '(names, pool) := add_strings ((λ p, default [] (mp_name p)) <$> m_procedures m) pool in
  let '(pairs, pool) := add_imports (m_imports m) pool in
  (names, pairs, pool).

(** The sections after the header.
    src/buccaneer/module.c:376-457 (bucc_module_save_file) *)
Definition saved_sections (m : bucc_module) : list Z * list Z * list Z * list Z :=
  let '(names, pairs, pool) := saved_names m in
  (table_bytes string_bytes pool, table_bytes constant_bytes (m_constants m),
   table_bytes proc_bytes (zip names (m_procedures m)),
   table_bytes import_bytes (zip pairs (m_imports m))).

(** src/buccaneer/module.c:363-469 (bucc_module_save_file) *)
Definition saved_header (m : bucc_module) (crc : Z) : bucc_module_header :=
  let '(strs, consts, procs, imps) := saved_sections m in
  let at_consts := header_len + zlen strs in
  let at_procs := at_consts + zlen consts in
  let at_imports := at_procs + zlen procs in
  let at_code := at_imports + zlen imps in
  MkHeader BUCC_MAGIC BUCC_FORMAT_MAJOR BUCC_FORMAT_MINOR (h_flags (header m)) header_len 0
    header_len (u32 at_consts) 0 (u32 at_procs) 0 (u32 at_imports) (u32 at_code) 0
    (u32 (at_code + zlen (m_bytecode m))) crc.

(** The bytes of the file; the checksum is taken while its own field is zero.
    src/buccaneer/module.c:303-490 (bucc_module_save_file) *)
Definition bucc_module_save_file (m : bucc_module) : list Z :=
  let '(strs, consts, procs, imps) := saved_sections m in
  let body := strs ++ consts ++ procs ++ imps ++ m_bytecode m in
  let crc := compute_crc32 (header_bytes (saved_header m 0) ++ body) in
  header_bytes (saved_header m crc) ++ body.

(** ** Loading *)

Inductive load_error : Type :=
  | EMPTY_FILE
  | MODULE_TOO_SMALL
  | INVALID_MAGIC
  | UNSUPPORTED_VERSION (major minor : Z).

(** The rows of a table: [n] rounds of the loop, each with the guard of the code
    on the position. Rows that are not read stay as [calloc] left them. *)
Fixpoint load_rows {A} (guard : Z → bool) (row : Z → option (A * Z)) (zero : A) (n : nat) (p : Z)
  : option (list A) :=
  match n with
  | O => Some []
  | S n =>
      if guard p then '(x, p) ← row p; l ← load_rows guard row zero n p; Some (x :: l)
      else Some (replicate (S n) zero)
  end.

Section load.
(** The bytes of the file. *)
Context (data : list Z).

(** src/buccaneer/module.c:55-57 (read_u16) *)
Definition read_u16 (p : Z) : option Z :=
  a ← nthZ data p; b ← nthZ data (p + 1); Some (Z.lor (Z.shiftl a 8) b).

(** src/buccaneer/module.c:50-53 (read_u32) *)
Definition read_u32 (p : Z) : option Z :=
  a ← nthZ data p; b ← nthZ data (p + 1); c ← nthZ data (p + 2); d ← nthZ data (p + 3);
  Some (Z.lor (Z.lor (Z.lor (Z.shiftl a 24) (Z.shiftl b 16)) (Z.shiftl c 8)) d).

(** [n] bytes. *)
Fixpoint read_bytes (n : nat) (p : Z) : option (list Z) :=
  match n with
  | O => Some []
  | S n => b ← nthZ data p; l ← read_bytes n (p + 1); Some (b :: l)
  end.

Definition in_data (n p : Z) : bool := p + n <=? zlen data.

(** src/buccaneer/module.c:123-134 (bucc_module_load_memory) *)
Definition load_string (p : Z) : option (option cstr * Z) :=
  slen ← read_u16 p;
  if p + 2 + slen <=? zlen data
  then s ← read_bytes (Z.to_nat slen) (p + 2); Some (Some (c_string s), p + 2 + slen)
  else Some (None, p + 2).

(** Shifting a negative [int64_t] left wraps, as compilers have it.
    src/buccaneer/module.c:145-175 (bucc_module_load_memory) *)
Definition load_constant (p : Z) : option (value * Z) :=
  type ← nthZ data p;
  if type =? 1 then b ← nthZ data (p + 1); Some (VBool (negb (b =? 0)), p + 2)
  else if type =? 2 then
    bs ← read_bytes 8 (p + 1);
    Some (VI64 (foldl (λ val b, s64 (Z.lor (Z.shiftl val 8) b)) 0 bs), p + 9)
  else if type =? 3 then
    bs ← read_bytes 8 (p + 1);
    Some (VF64 (f64_of_bits (foldl (λ u b, u64 (Z.lor (Z.shiftl u 8) b)) 0 bs)), p + 9)
  else Some (VNull, p + 1).

(** [strdup(mod->strings[i])] when [i] is in the pool. *)
Definition pool_name (strs : list (option cstr)) (i : Z) : option (option cstr) :=
  if i <? zlen strs then (match nthZ strs i with Some (Some s) => Some (Some s) | _ => None end)
  else Some None.

(** src/buccaneer/module.c:186-199 (bucc_module_load_memory) *)
Definition load_proc (strs : list (option cstr)) (p : Z) : option (bucc_module_proc * Z) :=
  name_idx ← read_u32 p; id ← read_u32 (p + 4); off ← read_u32 (p + 8); len ← read_u32 (p + 12);
  params ← read_u16 (p + 16); locals ← read_u16 (p + 18); f ← nthZ data (p + 20);
  name ← pool_name strs name_idx;
  Some (MkMProc name id off len params locals (negb (f =? 0)), p + 24).

(** src/buccaneer/module.c:210-222 (bucc_module_load_memory) *)
Definition load_import (strs : list (option cstr)) (p : Z) : option (bucc_module_import * Z) :=
  ns_idx ← read_u32 p; fn_idx ← read_u32 (p + 4); id ← read_u32 (p + 8);
  ns ← pool_name strs ns_idx; fn ← pool_name strs fn_idx;
  Some (MkMImport ns fn id, p + 12).

(** The table at an offset of the header; nothing when the offset is zero or
    past the end. *)
Definition load_table {A} (off : Z) (guard : Z → bool) (row : Z → option (A * Z)) (zero : A)
  : option (list A) :=
  if (0 <? off) && (off <? zlen data)
  then n ← read_u32 off; load_rows guard row zero (Z.to_nat n) (off + 4)
  else Some [].

(** src/buccaneer/module.c:226-237 (bucc_module_load_memory) *)
Definition load_bytecode (h : bucc_module_header) : option (list Z) :=
  let off := bytecode_offset h in
  if (0 <? off) && (off <? zlen data) then
    let bc_len := if off <? debug_map_offset h then debug_map_offset h - off
                  else u32 (zlen data - off) in
    read_bytes (Z.to_nat bc_len) off
  else Some [].

(** src/buccaneer/module.c:91-106 (bucc_module_load_memory) *)
Definition load_header : option bucc_module_header :=
  magic ← read_bytes 4 0; major ← read_u16 4; minor ← read_u16 6; flags ← read_u32 8;
  size ← read_u32 12; meta ← read_u32 16; strs ← read_u32 20; consts ← read_u32 24;
  syms ← read_u32 28; procs ← read_u32 32; sets ← read_u32 36; imps ← read_u32 40;
  code ← read_u32 44; dbg ← read_u32 48; len ← read_u32 52; crc ← read_u32 56;
  Some (MkHeader magic major minor flags size meta strs consts syms procs sets imps code dbg len crc).

(** src/buccaneer/module.c:71-242 (bucc_module_load_memory) *)
Definition bucc_module_load_memory : option (load_error + bucc_module) :=
  if zlen data <? header_len then Some (inl MODULE_TOO_SMALL)
  else if negb (bool_decide (takeZ 4 data = BUCC_MAGIC)) then Some (inl INVALID_MAGIC)
  else
    h ← load_header;
    if negb (format_major h =? BUCC_FORMAT_MAJOR)
    then Some (inl (UNSUPPORTED_VERSION (format_major h) (format_minor h)))
    else
      strs ← load_table (string_pool_offset h) (in_data 1) load_string None;
      consts ← load_table (const_pool_offset h) (in_data 1) load_constant VNull;
      procs ← load_table (proc_table_offset h) (in_data 16) (load_proc strs)
                (MkMProc None 0 0 0 0 0 false);
      imps ← load_table (import_table_offset h) (in_data 12) (load_import strs)
               (MkMImport None None 0);
      bc ← load_bytecode h;
      Some (inr (MkFile h strs consts procs imps bc)).

(** src/buccaneer/module.c:244-283 (bucc_module_load_file) *)
Definition bucc_module_load_file : option (load_error + bucc_module) :=
  if zlen data <=? 0 then Some (inl EMPTY_FILE) else bucc_module_load_memory.
End load.

(** ** Verification *)

Inductive verify_error : Type :=
  | VERIFY_MAGIC
  | VERIFY_VERSION (major minor : Z)
  | MISSING_MAIN
  | INVALID_CODE_OFFSET (p : bucc_module_proc)
  | CODE_BEYOND_BYTECODE (p : bucc_module_proc)
  | EMPTY_NAMESPACE (i : Z)
  | EMPTY_FUNCTION_NAME (i : Z)
  | UNSUPPORTED_CONSTANT (i : Z) (kind : Z)
  | BYTECODE_TRUNCATED (at_ : Z)
  | UNKNOWN_OPCODE (op : Z) (at_ : Z).

(** The operand bytes that the verifier skips after an opcode.
    src/buccaneer/module.c:561-611 (verify_bytecode_bounds) *)
Definition verify_operands (op : Z) : option Z :=
  if bool_decide (op ∈ [0; 1; 2; 3; 4; 0x0A; 0x0B; 0x0C; 0x20; 0x21; 0x22; 0x23; 0x24; 0x25; 0x26;
    0x27; 0x28; 0x29; 0x2A; 0x2B; 0x2C; 0x2D; 0x2E; 0x2F; 0x35; 0x36; 0x38; 0x40; 0x41; 0x42;
    0x43; 0x44; 0x45; 0x46; 0x47; 0x48; 0x49; 0x61; 0x62; 0x63; 0x70; 0x71; 0x72; 0x73; 0x74;
    0x75; 0x76; 0x7F]) then Some 0
  else if bool_decide (op ∈ [5; 6; 7; 8; 9; 0x10; 0x11; 0x12; 0x13; 0x14; 0x7E]) then Some 2
  else if bool_decide (op ∈ [0x33; 0x34; 0x50; 0x51]) then Some 3
  else if bool_decide (op ∈ [0x30; 0x31; 0x32; 0x37; 0x60]) then Some 4
  else None.

(** The loop over the bytecode, from [ip]. Each round advances, so that as many
    rounds as there are bytes end it unless the offset wraps around, which takes
    a module of 4 GB. [None] would be that.
    src/buccaneer/module.c:554-615 (verify_bytecode_bounds) *)
Fixpoint verify_code (fuel : nat) (code : list Z) (ip : Z) : option (verify_error + unit) :=
  if zlen code <=? ip then Some (inr tt)
  else
    match fuel with
    | O => None
    | S fuel =>
        op ← nthZ code ip;
        let ip := u32 (ip + 1) in
        match verify_operands op with
        | None => Some (inl (UNKNOWN_OPCODE op (u32 (ip - 1))))
        | Some n =>
            if zlen code <? u32 (ip + n) then Some (inl (BYTECODE_TRUNCATED (u32 (ip - 1))))
            else verify_code fuel code (u32 (ip + n))
        end
    end.

Definition verify_bytecode_bounds (m : bucc_module) : option (verify_error + unit) :=
  verify_code (length (m_bytecode m)) (m_bytecode m) 0.

(** src/buccaneer/module.c:617-638 (verify_procedure_offsets) *)
Fixpoint verify_procedure_offsets (bytecode_len : Z) (l : list bucc_module_proc) : verify_error + unit :=
  match l with
  | [] => inr tt
  | p :: l =>
      if bytecode_len <? mp_code_offset p then inl (INVALID_CODE_OFFSET p)
      else if bytecode_len <? u32 (mp_code_offset p + mp_code_len p)
      then inl (CODE_BEYOND_BYTECODE p)
      else verify_procedure_offsets bytecode_len l
  end.

Definition empty_name (s : option cstr) : bool :=
  match s with None | Some [] => true | _ => false end.

(** src/buccaneer/module.c:640-657 (verify_import_table) *)
Fixpoint verify_import_table (i : Z) (l : list bucc_module_import) : verify_error + unit :=
  match l with
  | [] => inr tt
  | imp :: l =>
      if empty_name (mi_ns imp) then inl (EMPTY_NAMESPACE i)
      else if empty_name (mi_fn imp) then inl (EMPTY_FUNCTION_NAME i)
      else verify_import_table (i + 1) l
  end.

(** src/buccaneer/module.c:659-687 (verify_constant_pool) *)
Fixpoint verify_constant_pool (i : Z) (l : list value) : verify_error + unit :=
  match l with
  | [] => inr tt
  | v :: l =>
      match v with
      | VNull | VBool _ | VI64 _ | VF64 _ | VDate _ | VDatetime _ => verify_constant_pool (i + 1) l
      | _ => inl (UNSUPPORTED_CONSTANT i (value_kind v))
      end
  end.

(** src/buccaneer/module.c:540-542 (bucc_module_get_main) *)
Definition bucc_module_get_main (m : bucc_module) : option proc :=
  bucc_module_find_proc (image m) (lit "Main").

(** src/buccaneer/module.c:689-729 (bucc_module_verify) *)
Definition bucc_module_verify (m : bucc_module) : option (verify_error + unit) :=
  let h := header m in
  if negb (bool_decide (h_magic h = BUCC_MAGIC)) then Some (inl VERIFY_MAGIC)
  else if negb (format_major h =? BUCC_FORMAT_MAJOR)
  then Some (inl (VERIFY_VERSION (format_major h) (format_minor h)))
  else
    match bucc_module_get_main m with
    | None => Some (inl MISSING_MAIN)
    | Some _ =>
        match verify_procedure_offsets (zlen (m_bytecode m)) (m_procedures m),
              verify_import_table 0 (m_imports m), verify_constant_pool 0 (m_constants m) with
        | inl e, _, _ | inr _, inl e, _ | inr _, inr _, inl e => Some (inl e)
        | inr _, inr _, inr _ => verify_bytecode_bounds m
        end
    end.

(** ** Debug maps *)

(** src/buccaneer/include/bucc_module.h:65-75 (bucc_debug_map) *)
Record bucc_debug_map : Type := MkDebugMap {
  source_file : option cstr;
  entries : list (Z * Z * Z)
}.

(** src/buccaneer/emit.c:1171-1182 (bucc_emitter_get_debug_map) *)
Definition bucc_emitter_get_debug_map (file : option cstr) (e : emitter) : option bucc_debug_map :=
  match emit_debug_info e, debug_lines e with
  | true, _ :: _ => Some (MkDebugMap file (debug_lines e))
  | _, _ => None
  end.

(** A [uint32_t] as the processor stores it, lowest byte first. *)
Definition native_u32 (v : Z) : list Z := rev (u32_bytes v).

(** src/buccaneer/module.c:897-924 (bucc_debug_map_save) *)
Definition bucc_debug_map_save (map : bucc_debug_map) : list Z :=
  let name := default [] (source_file map) in
  lit "BMAP" ++ native_u32 1 ++ native_u32 (u32 (zlen name)) ++ name ++
  native_u32 (zlen (entries map)) ++
  concat ((λ '(off, line, col), native_u32 off ++ native_u32 line ++ native_u32 col) <$> entries map).

(** [fread] of [n] bytes, and the rest of the file. *)
Definition fread (n : Z) (f : list Z) : option (list Z * list Z) :=
  if zlen f <? n then None else Some (takeZ n f, dropZ n f).

Definition fread_u32 (f : list Z) : option (Z * list Z) :=
  '(bs, f) ← fread 4 f; Some (be_value (rev bs), f).

Fixpoint fread_entries (n : nat) (f : list Z) : option (list (Z * Z * Z)) :=
  match n with
  | O => Some []
  | S n =>
      '(off, f) ← fread_u32 f; '(line, f) ← fread_u32 f; '(col, f) ← fread_u32 f;
      l ← fread_entries n f; Some ((off, line, col) :: l)
  end.

(** src/buccaneer/module.c:926-999 (bucc_debug_map_load) *)
Definition bucc_debug_map_load (f : list Z) : option bucc_debug_map :=
  '(magic, f) ← fread 4 f;
  if negb (bool_decide (magic = lit "BMAP")) then None else
  '(version, f) ← fread_u32 f;
  if negb (version =? 1) then None else
  '(source_len, f) ← fread_u32 f;
  '(name, f) ← (if 0 <? source_len
                then '(bs, f) ← fread source_len f; Some (Some (c_string bs), f)
                else Some (None, f));
  '(n, f) ← fread_u32 f;
  l ← fread_entries (Z.to_nat n) f;
  Some (MkDebugMap name l).

(** src/buccaneer/module.c:1001-1014 (bucc_debug_map_get_line) *)
Definition bucc_debug_map_get_line (map : bucc_debug_map) (offset : Z) : Z :=
  (fix go (result : Z) (l : list (Z * Z * Z)) : Z :=
     match l with
     | (off, line, _) :: l => if off <=? offset then go (s32 line) l else result
     | [] => result
     end) (-1) (entries map).
