(* ===== verification/ModuleVerify.v ===== *)
(** The verifier of compiled modules against the code generator: every program
    without array literals, map literals and CHAIN compiles to a module that
    the verifier accepts; with them, some do not. *)

From S2P Require Import Prelude CLib Float Value Vm VmSpec Ast Semantic SemanticSpec Emit EmitSpec EmitInv EmitJumps EmitDefects ModuleFile.

#[local] Open Scope Z_scope.

(** ** Code as instructions *)

(** An instruction: the byte of the opcode and its operands. *)
Abbreviation instr := (Z * list Z)%type.

Definition flat (is_ : list instr) : list Z := concat ((λ i, fst i :: snd i) <$> is_).

Definition instr_ok (i : instr) : Prop := verify_operands (fst i) = Some (zlen (snd i)).

Lemma flat_app l k : flat (l ++ k) = flat l ++ flat k.
Proof. unfold flat. by rewrite fmap_app, concat_app. Qed.

Lemma flat_cons i l : flat (i :: l) = fst i :: snd i ++ flat l.
Proof. reflexivity. Qed.

(** A patch is the operand of an instruction that has four bytes of operands.
    Only the opcodes and the numbers of operands matter. *)
Definition shape (l : list instr) : list (Z * Z) := (λ i, (fst i, zlen (snd i))) <$> l.

Definition sizes (sh : list (Z * Z)) : Z := foldr (λ s n, 1 + snd s + n) 0 sh.

Definition patch_in (sh : list (Z * Z)) (off : Z) : Prop :=
  ∃ s1 op s2, sh = s1 ++ (op, 4) :: s2 ∧ off = sizes s1 + 1.

Lemma sizes_flat l : sizes (shape l) = zlen (flat l).
Proof.
  induction l as [|i l IH]; [done |]. rewrite flat_cons. cbn. rewrite zlen_cons, zlen_app.
  unfold sizes, shape in IH. rewrite IH. lia.
Qed.

Lemma shape_app l k : shape (l ++ k) = shape l ++ shape k.
Proof. apply fmap_app. Qed.

Lemma patch_in_app sh sh' off : patch_in sh off → patch_in (sh ++ sh') off.
Proof. intros (s1 & op & s2 & -> & ->). exists s1, op, (s2 ++ sh'). by rewrite <- app_assoc. Qed.

(** Patching an operand leaves the instructions what they are. *)
Lemma patch_flat l off bs :
  patch_in (shape l) off → zlen bs = 4 →
  ∃ l', patch_code (flat l) off bs = flat l' ∧ shape l' = shape l.
Proof.
  intros (s1 & op & s2 & Hs & ->) Hbs. unfold shape in Hs.
  apply fmap_app_inv in Hs as (l1 & l2 & -> & Hs & ->).
  destruct l2 as [|[op' args] l3]; [discriminate |]. cbn [fmap list_fmap fst snd] in Hs.
  injection Hs as -> Hargs ->.
  exists (l1 ++ (op', bs) :: l3). fold (shape l1). rewrite sizes_flat.
  rewrite !flat_app, !flat_cons, !shape_app. cbn [fst snd]. split.
  - unfold patch_code.
    replace (flat l1 ++ op' :: args ++ flat l3) with ((flat l1 ++ [op']) ++ args ++ flat l3)
      by (by rewrite <- app_assoc).
    assert (Hz : zlen (flat l1) + 1 = zlen (flat l1 ++ [op'])) by zl.
    rewrite Hz, takeZ_app. replace (zlen (flat l1 ++ [op']) + zlen bs)
      with (zlen ((flat l1 ++ [op']) ++ args)) by (rewrite (zlen_app _ args); lia).
    rewrite (app_assoc _ args), dropZ_app. by rewrite <- !app_assoc.
  - cbn [shape fmap list_fmap fst snd]. by rewrite Hbs, Hargs.
Qed.

(** ** The invariant of emission *)

Definition constant_ok (v : value) : Prop :=
  match v with VString _ | VArray _ | VMap _ | VError _ => False | _ => True end.

Definition entry_ok (len : Z) (p : proc_entry) : Prop :=
  0 <= pe_offset p ∧ 0 <= pe_len p ∧ pe_offset p + pe_len p <= len.

Record verifiable (e : emitter) : Prop := {
  ver_code : zlen (code e) < 2 ^ 31 → ∃ l, code e = flat l ∧ Forall instr_ok l ∧
    Forall (λ p, patch_in (shape l) (fst p)) (patches e);
  ver_consts : Forall constant_ok (consts e);
  ver_imports : Forall named (imps e);
  ver_procs : zlen (code e) < 2 ^ 31 → Forall (entry_ok (zlen (code e))) (procs e)
}.

Lemma entries_le b b' l : b <= b' → Forall (entry_ok b) l → Forall (entry_ok b') l.
Proof. intros Hb H. eapply Forall_impl; [exact H |]. intros p (? & ? & ?). split_and!; lia. Qed.

Lemma plain_verified op :
  plain_op op → verify_operands (opcode_byte op) = Some (operand_len op).
Proof. by destruct op. Qed.

Lemma verifiable_instr i e ps :
  instr_ok i → verifiable e →
  (zlen (code e) < 2 ^ 31 → ∀ l, code e = flat l →
    Forall (λ p, patch_in (shape l) (fst p)) (patches e) →
    Forall (λ p, patch_in (shape (l ++ [i])) (fst p)) ps) →
  verifiable (append (fst i :: snd i) (set_patches ps e)).
Proof.
  intros Hi [Hc Hk Hm Hp] Hps. split; [| exact Hk | exact Hm |].
  - cbn. intros Hlt. rewrite zlen_app in Hlt. pose proof (zlen_nonneg (fst i :: snd i)).
    destruct (Hc ltac:(lia)) as (l & E & Hl & Hpatch). exists (l ++ [i]).
    rewrite flat_app, E, flat_cons. cbn [flat fmap list_fmap concat]. rewrite app_nil_r.
    split; [done |]. split; [apply Forall_app; auto |]. apply Hps; auto. lia.
  - cbn. intros Hlt. rewrite zlen_app in *. pose proof (zlen_nonneg (fst i :: snd i)).
    eapply entries_le; [| apply Hp; lia]. lia.
Qed.

#[export] Instance verifiable_invariant : EmitInvariant true verifiable.
Proof.
  split.
  - intros op args e Hop Hlen He.
    replace e with (set_patches (patches e) e) by (by destruct e).
    apply (verifiable_instr (opcode_byte op, args)); [| done |].
    + unfold instr_ok. cbn. rewrite plain_verified by auto. by rewrite Hlen.
    + intros _ l _ Hl. eapply Forall_impl; [exact Hl |]. intros p Hp.
      rewrite shape_app. by apply patch_in_app.
  - intros op label e Hop He.
    assert (E : bucc_emit_jump op label e = append (opcode_byte op :: u32_bytes 0)
      (set_patches ((u32 (zlen (code e) + 1), label) :: patches e) e)).
    { unfold bucc_emit_jump, bucc_emit_i32, bucc_emit_u32, bucc_emit_byte, append.
      rewrite opcode_byte_u8. cbn [code set_code set_patches].
      rewrite zlen_app, <- app_assoc. reflexivity. }
    rewrite E. apply (verifiable_instr (opcode_byte op, u32_bytes 0)); [| done |].
    + unfold instr_ok. by destruct op.
    + intros Hlt l El Hl. constructor.
      * cbn [fst]. exists (shape l), (opcode_byte op), []. rewrite shape_app. split; [done |].
        rewrite sizes_flat, <- El. pose proof (zlen_nonneg (code e)).
        apply wrap_small. zred. lia.
      * eapply Forall_impl; [exact Hl |]. intros p Hp. rewrite shape_app. by apply patch_in_app.
  - by intros l e [].
  - by intros s e _ [].
  - intros v e Hv []. split; try done. constructor; [| done]. by destruct v.
  - intros imp e Hn []. split; try done. constructor; [| done]. by apply Hn.
  - intros e e' [= Hc _ Hk Hp Hi _ Hpa] []. split; congruence || rewrite ?Hc, ?Hk, ?Hp, ?Hi, ?Hpa; done.
Qed.

(** Code only grows, and statements leave the table of procedures alone. *)
#[export] Instance grows_invariant n : EmitInvariant false (λ e, n <= zlen (code e)).
Proof.
  split; try done.
  - intros op args e _ _ H. cbn. zl.
  - intros op l e _ H. unfold bucc_emit_jump, bucc_emit_i32, bucc_emit_u32, bucc_emit_byte. cbn. zl.
  - by intros e e' [= -> _ _ _ _ _ _].
Qed.

#[export] Instance procs_invariant l : EmitInvariant false (λ e, procs e = l).
Proof. split; try done. by intros e e' [= _ _ _ -> _ _ _]. Qed.

Definition end_procedure (is_function : bool) (e : emitter) : emitter :=
  if is_function then bucc_emit_op OP_RETURN_VALUE (bucc_emit_op OP_PUSH_NULL e)
  else bucc_emit_op OP_RETURN e.

Section procedure.
Context {strict : bool} {I : emitter → Prop} {HI : EmitInvariant strict I}.

Lemma emits_code_of_procedure scopes p e :
  (strict = true → plain_proc p) → I e →
  I (end_procedure (decl_is_function p)
      (emit_block scopes (decl_body p) (set_local_count (u32 (zlen (decl_params p))) e))).
Proof.
  intros Hp He. unfold end_procedure.
  assert (H : I (emit_block scopes (decl_body p) (set_local_count (u32 (zlen (decl_params p))) e))).
  { apply (emits_body (strict := strict) (I := I)); [done |].
    by apply (inv_frame (strict := strict) e). }
  destruct (decl_is_function p); repeat apply (emits_op (strict := strict) (I := I)); done.
Qed.
End procedure.

Lemma verifiable_procedure scopes p e :
  plain_proc p → verifiable e → verifiable (emit_procedure scopes p e).
Proof.
  intros Hp He.
  pose proof (emits_code_of_procedure (strict := true) (I := verifiable) scopes p e (λ _, Hp) He) as H1.
  pose proof (emits_code_of_procedure (strict := false) (I := λ e', zlen (code e) <= zlen (code e'))
    scopes p e ltac:(done) (Z.le_refl _)) as H2.
  cbn beta in H1, H2. unfold emit_procedure. cbv zeta.
  set (e2 := end_procedure _ _) in *.
  change (if decl_is_function p then _ else _) with e2.
  destruct H1 as [Hc Hk Hm Hprocs]. split; [exact Hc | exact Hk | exact Hm |].
  cbn. intros Hlt. specialize (Hprocs Hlt). constructor; [| exact Hprocs].
  pose proof (zlen_nonneg (code e)).
  assert (E1 : u32 (zlen (code e)) = zlen (code e)) by (apply wrap_small; zred; lia).
  assert (E2 : u32 (zlen (code e2)) = zlen (code e2)) by (apply wrap_small; zred; lia).
  unfold entry_ok. cbn [pe_offset pe_len]. rewrite E1, E2, wrap_small by (zred; lia). lia.
Qed.

Lemma procedure_names scopes p e :
  pe_name <$> procs (emit_procedure scopes p e) = decl_name p :: (pe_name <$> procs e).
Proof.
  pose proof (emits_code_of_procedure (strict := false) (I := λ e', procs e' = procs e)
    scopes p e ltac:(done) eq_refl) as H.
  unfold emit_procedure. cbv zeta. cbn [procs set_procs fmap list_fmap pe_name]. f_equal.
  unfold end_procedure in H. by rewrite H.
Qed.

Lemma fmap_rev {A B} (f : A → B) l : f <$> rev l = rev (f <$> l).
Proof. exact (List.map_rev f l). Qed.

Lemma module_names scopes ps : ∀ e,
  pe_name <$> rev (procs (fold_left (λ e p, emit_procedure scopes p e) ps e))
  = (pe_name <$> rev (procs e)) ++ (decl_name <$> ps).
Proof.
  induction ps as [|p ps IH]; intros e; cbn [fold_left fmap list_fmap]; [by rewrite app_nil_r |].
  rewrite IH, !fmap_rev, procedure_names. cbn [rev]. by rewrite <- app_assoc.
Qed.

Lemma emitted_verifiable m : all plain_proc (proc_nodes m) → verifiable (emitted m).
Proof.
  unfold emitted. generalize (scopes (analyzed m)) as scopes. intros scopes.
  generalize (proc_nodes m) as ps. intros ps Hps.
  assert (H0 : verifiable (bucc_emitter_new [])).
  { split; try done; cbn; try constructor. intros _. exists []. split_and!; by try constructor. }
  revert Hps H0. generalize (bucc_emitter_new []) as e.
  induction ps as [|p ps IH]; intros e Hps He; [exact He |]. destruct Hps as [Hp Hps].
  apply IH; [exact Hps |]. by apply verifiable_procedure.
Qed.

(** ** The verifier on such modules *)

Lemma shape_instr_ok l :
  Forall instr_ok l ↔ Forall (λ s, verify_operands (fst s) = Some (snd s)) (shape l).
Proof. unfold shape. rewrite Forall_fmap. reflexivity. Qed.

Lemma resolve_flat lbls ps : ∀ l,
  Forall (λ p, patch_in (shape l) (fst p)) ps →
  ∃ l', foldl (resolve_one lbls) (flat l) ps = flat l' ∧ shape l' = shape l.
Proof.
  induction ps as [|[off lab] ps IH]; intros l Hps; [by exists l |].
  inversion Hps as [| ? ? Hp Hps']; subst. cbn [foldl]. unfold resolve_one at 2. cbn [fst snd].
  destruct (find_label lbls lab) as [t |]; [| by apply IH].
  destruct (patch_flat l off (u32_bytes (u32 (s32 t - s32 (u32 (off + 4)))))) as (l1 & -> & Hs);
    [exact Hp | done |].
  destruct (IH l1) as (l2 & -> & Hs2); [by rewrite Hs |]. exists l2. split; [done | congruence].
Qed.

Lemma verify_flat l2 : ∀ l1 fuel,
  Forall instr_ok l2 → zlen (flat (l1 ++ l2)) < 2 ^ 31 → (length l2 <= fuel)%nat →
  verify_code fuel (flat (l1 ++ l2)) (zlen (flat l1)) = Some (inr tt).
Proof.
  induction l2 as [|[op args] l2 IH]; intros l1 fuel Hok Hlt Hf.
  { rewrite app_nil_r. destruct fuel; cbn; by rewrite Z.leb_refl. }
  inversion Hok as [| ? ? Hi Hok']; subst. unfold instr_ok in Hi. cbn [fst snd] in Hi.
  destruct fuel as [|fuel]; [cbn in Hf; lia |]. cbn [length] in Hf.
  pose proof Hlt as Hlt'. rewrite flat_app, flat_cons in Hlt. cbn [fst snd] in Hlt.
  rewrite zlen_app, zlen_cons, zlen_app in Hlt.
  pose proof (zlen_nonneg (flat l1)). pose proof (zlen_nonneg args). pose proof (zlen_nonneg (flat l2)).
  assert (Hz : zlen (flat (l1 ++ (op, args) :: l2)) = zlen (flat l1) + (1 + (zlen args + zlen (flat l2)))).
  { rewrite flat_app, flat_cons, zlen_app, zlen_cons, zlen_app. done. }
  assert (Hn : nthZ (flat (l1 ++ (op, args) :: l2)) (zlen (flat l1)) = Some op).
  { rewrite flat_app, flat_cons. apply nthZ_mid. }
  cbn [verify_code]. rewrite Hz. destruct (Z.leb_spec (zlen (flat l1) + (1 + (zlen args + zlen (flat l2)))) (zlen (flat l1)));
    [lia |].
  rewrite Hn. cbn [mbind option_bind]. rewrite Hi.
  assert (U : ∀ z, 0 <= z < 2 ^ 31 → u32 z = z) by (intros; apply wrap_small; zred; lia).
  rewrite (U (zlen (flat l1) + 1)), (U (zlen (flat l1) + 1 + zlen args)) by (zred; lia).
  destruct (Z.ltb_spec (zlen (flat l1) + (1 + (zlen args + zlen (flat l2)))) (zlen (flat l1) + 1 + zlen args)); [lia |].
  replace (l1 ++ (op, args) :: l2) with ((l1 ++ [(op, args)]) ++ l2) in * by (by rewrite <- app_assoc).
  replace (zlen (flat l1) + 1 + zlen args) with (zlen (flat (l1 ++ [(op, args)]))).
  - apply IH; [exact Hok' | exact Hlt' | lia].
  - rewrite flat_app, flat_cons. cbn [fst snd flat fmap list_fmap concat].
    rewrite zlen_app, zlen_cons, zlen_app, zlen_nil. lia.
Qed.

Lemma length_flat l : (length l <= length (flat l))%nat.
Proof.
  induction l as [|i l IH]; [done |]. rewrite flat_cons. cbn. rewrite length_app. lia.
Qed.

Lemma verify_code_ok l :
  Forall instr_ok l → zlen (flat l) < 2 ^ 31 →
  verify_code (length (flat l)) (flat l) 0 = Some (inr tt).
Proof. intros H1 H2. apply (verify_flat l []); [done | done | apply length_flat]. Qed.

Lemma verify_procs_ok len l :
  len < 2 ^ 31 → Forall (entry_ok len) l →
  verify_procedure_offsets len ((λ p, MkMProc (Some (pe_name p)) (pe_id p) (pe_offset p) (pe_len p)
    (pe_params p) (pe_locals p) (pe_function p)) <$> l) = inr tt.
Proof.
  intros Hlen. induction 1 as [|p l (H1 & H2 & H3) _ IH]; [done |].
  cbn [fmap list_fmap verify_procedure_offsets mp_code_offset mp_code_len].
  destruct (Z.ltb_spec len (pe_offset p)); [lia |].
  rewrite wrap_small by (zred; lia). destruct (Z.ltb_spec len (pe_offset p + pe_len p)); [lia |].
  exact IH.
Qed.

Lemma verify_imports_ok l : ∀ i (g : nat → Z),
  Forall named l →
  verify_import_table i (imap (λ j imp, MkMImport (Some (fst imp)) (Some (snd imp)) (g j)) l) = inr tt.
Proof.
  induction l as [|[ns fn] l IH]; intros i g Hl; [done |]. inversion Hl as [| ? ? [H1 H2] Hl']; subst.
  rewrite imap_cons. cbn [verify_import_table mi_ns mi_fn fst snd] in *.
  destruct ns; [done |]. destruct fn; [done |]. cbn [empty_name]. by apply (IH (i + 1) (g ∘ S)).
Qed.

Lemma verify_constants_ok l : ∀ i, Forall constant_ok l → verify_constant_pool i l = inr tt.
Proof.
  induction l as [|v l IH]; intros i Hl; [done |]. inversion Hl as [| ? ? Hv Hl']; subst.
  destruct v; try destruct Hv; by apply IH.
Qed.

Lemma find_proc_some l name :
  (∃ n, n ∈ l ∧ same_name n name = true) →
  ∀ ps, proc_name <$> ps = Some <$> l → find_proc ps name ≠ None.
Proof.
  intros (n & Hn & Hs). induction Hn as [n l | n m l Hn IH]; intros [|p ps] [= E Eps]; cbn; rewrite E.
  - unfold same_name in Hs. by rewrite Hs.
  - case_bool_decide; [done |]. by apply IH.
Qed.

(** The module of a program. *)
Definition compiled (m : module_node) : bucc_module :=
  emitter_module (snd (bucc_emit_module (scopes (analyzed m)) (proc_nodes m) (bucc_emitter_new []))).

Lemma compiled_image m : image (compiled m) = compile m.
Proof.
  unfold compiled, compile. generalize (snd (bucc_emit_module (scopes (analyzed m)) (proc_nodes m)
    (bucc_emitter_new []))) as e. intros e.
  unfold image, emitter_module, bucc_emitter_to_module. cbn. f_equal.
  - rewrite <- list_fmap_compose. by rewrite list_fmap_id.
  - by rewrite <- list_fmap_compose.
  - generalize Z.of_nat as g. induction (rev _) as [|imp l IH]; intros g; [done |].
    rewrite imap_cons. cbn. f_equal. apply (IH (g ∘ S)).
Qed.

Lemma compiled_main m :
  (∃ p, p ∈ proc_nodes m ∧ same_name (decl_name p) (lit "Main") = true) →
  bucc_module_get_main (compiled m) ≠ None.
Proof.
  intros (p & Hp & Hname). apply (find_proc_some (decl_name <$> proc_nodes m)).
  - exists (decl_name p). split; [| done]. apply list_elem_of_fmap. by exists p.
  - rewrite compiled_image. unfold compile, bucc_emitter_to_module. cbn [procedures].
    pose proof (module_names (scopes (analyzed m)) (proc_nodes m) (bucc_emitter_new [])) as E.
    cbn [bucc_emitter_new procs rev fmap list_fmap app] in E. rewrite <- E, <- !list_fmap_compose. done.
Qed.

Lemma compiled_code_verified m :
  all plain_proc (proc_nodes m) → zlen (code (emitted m)) < 2 ^ 31 →
  zlen (m_bytecode (compiled m)) = zlen (code (emitted m)) ∧
  verify_bytecode_bounds (compiled m) = Some (inr tt).
Proof.
  intros Hps Hlt. destruct (ver_code _ (emitted_verifiable m Hps) Hlt) as (l & E & Hl & Hp).
  destruct (resolve_flat (labels (emitted m)) _ l Hp) as (l' & E' & Hs).
  assert (Ec : m_bytecode (compiled m) = flat l').
  { change (code (bucc_emit_resolve_patches (emitted m)) = flat l').
    by rewrite resolve_patches_eq, E. }
  assert (Hz : zlen (flat l') = zlen (code (emitted m))) by (rewrite E, <- !sizes_flat; congruence).
  unfold verify_bytecode_bounds. rewrite Ec, Hz. split; [done |].
  apply verify_code_ok; [| congruence]. apply shape_instr_ok. rewrite Hs. by apply shape_instr_ok.
Qed.

Lemma compiled_verified m :
  (∃ p, p ∈ proc_nodes m ∧ same_name (decl_name p) (lit "Main") = true) → all plain_proc (proc_nodes m) →
  zlen (code (emitted m)) < 2 ^ 31 →
  bucc_module_verify (compiled m) = Some (inr tt).
Proof.
  intros Hmain Hps Hlt. destruct (compiled_code_verified m Hps Hlt) as [Hz Hcode].
  destruct (emitted_verifiable m Hps) as [_ Hk Hm Hprocs]. specialize (Hprocs Hlt).
  pose proof (compiled_main m Hmain) as Hfind.
  unfold bucc_module_verify. rewrite Hz.
  change (h_magic (header (compiled m))) with BUCC_MAGIC.
  change (format_major (header (compiled m))) with BUCC_FORMAT_MAJOR.
  rewrite bool_decide_eq_true_2 by done. cbn [negb Z.eqb BUCC_FORMAT_MAJOR Pos.eqb].
  destruct (bucc_module_get_main (compiled m)); [| done].
  unfold compiled at 1 2 3, emitter_module. cbn [m_procedures m_imports m_constants].
  change (snd (bucc_emit_module _ _ _)) with (bucc_emit_resolve_patches (emitted m)).
  cbn [bucc_emit_resolve_patches set_code procs imps consts].
  rewrite verify_procs_ok, verify_imports_ok, verify_constants_ok; [done | | | done |];
    by apply Forall_rev.
Qed.

(** C36. The verifier accepts what the compiler makes. A program with a procedure
    Main, without array and map literals and without CHAIN, whose host calls
    name a namespace and a function, and whose code stays under 2 GB, compiles
    to a module that passes [bucc_module_verify]: the sweep over the code meets
    every instruction exactly at its opcode, whatever jumps were patched in. *)
Theorem compiled_modules_verify m :
  (∃ p, p ∈ proc_nodes m ∧ same_name (decl_name p) (lit "Main") = true) → all plain_proc (proc_nodes m) →
  zlen (code (emitted m)) < 2 ^ 31 →
  bucc_module_verify (compiled m) = Some (inr tt).
Proof. apply compiled_verified. Qed.

Lemma compiled_modules_verify_witness :
  bucc_module_verify (compiled loop_program) = Some (inr tt).
Proof.
  apply (compiled_modules_verify loop_program).
  - eexists. split; [by left | by vm_compute].
  - cbn. tauto.
  - by vm_compute.
Defined.

(** ** Where they disagree *)

(** [FUNCTION Main: RETURN \[1, 1, ..., 1\]] with [n] elements. *)
Definition array_program (n : nat) : module_node := program []
  [MkDecl true (lit "Main") [] None
    [at_line (SReturn (Some (NIndex (NArrayLit (replicate n (int 1))) (int 0))))]].

(** Three instructions have operands that the verifier does not know of: it
    takes ARRAY_NEW and MAP_NEW for instructions without operands and CHAIN for
    one with four bytes, where the code generator writes, and the machine reads,
    two and three. It then reads operands as opcodes: the module of a function
    that returns the first element of an array literal runs and returns 1, but
    is refused when the array has 15 elements, 15 being no opcode. *)
Theorem verifier_misreads_operands :
  (∀ op, verify_operands (opcode_byte op) = Some (operand_len op) ↔ plain_op op) ∧
  result_of (array_program 15) = Some ([VI64 1], VM_HALT, []) ∧
  (∃ at_, bucc_module_verify (compiled (array_program 15)) = Some (inl (UNKNOWN_OPCODE 15 at_))).
Proof.
  split; [intros []; vm_compute; split; congruence || done |]. split; [by vm_compute |].
  eexists. by vm_compute.
Qed.
