(* ===== verification/ModuleSpec.v ===== *)
(** Files of compiled modules: what the saver writes, the loader reads back.
    The format is a sequence of tables of rows; each kind of row has a law that
    its reader undoes its writer wherever the bytes lie in the file. *)

From S2P Require Import Prelude CLib Float Value Vm VmSpec Ast Semantic Emit EmitSpec EmitInv EmitJumps ModuleFile ModuleVerify.
From Stdlib Require Import Sorted.

#[local] Open Scope Z_scope.

(** ** Bytes at an offset of a file *)

Definition at_ (data : list Z) (p : Z) (bs : list Z) : Prop :=
  ∃ pre post, data = pre ++ bs ++ post ∧ zlen pre = p.

Section at_offset.
Context (data : list Z).

Lemma at_app p a b : at_ data p (a ++ b) → at_ data p a ∧ at_ data (p + zlen a) b.
Proof.
  intros (pre & post & E & <-). split.
  - exists pre, (b ++ post). by rewrite E, <- app_assoc.
  - exists (pre ++ a), post. rewrite E, <- !app_assoc. split; [done | zl].
Qed.

Lemma at_cons p b bs : at_ data p (b :: bs) → nthZ data p = Some b ∧ at_ data (p + 1) bs.
Proof.
  intros (pre & post & E & <-). split.
  - rewrite E. apply nthZ_mid.
  - exists (pre ++ [b]), post. rewrite E, <- app_assoc. split; [done | zl].
Qed.

Lemma at_range p bs : at_ data p bs → 0 <= p ∧ p + zlen bs <= zlen data.
Proof. intros (pre & post & -> & <-). zl. Qed.

Lemma at_u16 p v bs :
  in_u 16 v → at_ data p (u16_bytes v ++ bs) → read_u16 data p = Some v ∧ at_ data (p + 2) bs.
Proof.
  intros Hv [H Hr]%at_app. destruct (u16_bytes_value v Hv) as (a & b & E & <-).
  rewrite E in H. apply at_cons in H as [Ha [Hb _]%at_cons].
  unfold read_u16. rewrite Ha, Hb. split; [done | exact Hr].
Qed.

Lemma at_u32 p v bs :
  in_u 32 v → at_ data p (u32_bytes v ++ bs) → read_u32 data p = Some v ∧ at_ data (p + 4) bs.
Proof.
  intros Hv [H Hr]%at_app. destruct (u32_bytes_lor v Hv) as (a & b & c & d & E & <-).
  rewrite E in H. apply at_cons in H as [Ha [Hb [Hc [Hd _]%at_cons]%at_cons]%at_cons].
  replace (p + 1 + 1) with (p + 2) in * by lia. replace (p + 2 + 1) with (p + 3) in * by lia.
  unfold read_u32. rewrite Ha, Hb, Hc, Hd. split; [done | exact Hr].
Qed.

Lemma at_bytes bs : ∀ p k,
  at_ data p (bs ++ k) → read_bytes data (length bs) p = Some bs ∧ at_ data (p + zlen bs) k.
Proof.
  induction bs as [|b bs IH]; intros p k H.
  - rewrite Z.add_0_r. by split.
  - cbn [app length read_bytes] in *. apply at_cons in H as [-> H]. cbn [mbind option_bind].
    destruct (IH _ _ H) as [-> H']. split; [done |]. rewrite zlen_cons.
    by replace (p + (1 + zlen bs)) with (p + 1 + zlen bs) by lia.
Qed.
End at_offset.

(** ** Tables *)

(** The reader of a row undoes its writer, from wherever the row lies. *)
Definition reads_back {A B} (data : list Z) (row : Z → option (A * Z)) (write : B → list Z) (v : A)
  (b : B) : Prop :=
  ∀ p, at_ data p (write b) → row p = Some (v, p + zlen (write b)).

Lemma load_rows_back {A B} data (row : Z → option (A * Z)) zero (write : B → list Z) n l vs :
  Forall2 (reads_back data row write) vs l → Forall (λ b, n <= zlen (write b)) l →
  ∀ p k, at_ data p (concat (write <$> l) ++ k) →
  load_rows (in_data data n) row zero (length l) p = Some vs.
Proof.
  induction 1 as [|v b vs l Hb _ IH]; intros Hn p k H; [done |].
  inversion Hn as [| ? ? Hnb Hn']; subst. cbn [fmap list_fmap concat length load_rows] in *.
  rewrite <- app_assoc in H. apply at_app in H as [Hw H]. pose proof (at_range _ _ _ Hw).
  assert (Hin : in_data data n p = true) by (unfold in_data; lia). rewrite Hin.
  rewrite (Hb _ Hw). cbn [mbind option_bind]. by rewrite (IH Hn' _ _ H).
Qed.

Lemma concat_length {B} (write : B → list Z) l :
  Forall (λ b, 1 <= zlen (write b)) l → zlen l <= zlen (concat (write <$> l)).
Proof.
  induction 1 as [|b l Hb _ IH]; [done |]. cbn [fmap list_fmap concat]. zlen_facts. lia.
Qed.

Lemma table_length {B} (write : B → list Z) l :
  Forall (λ b, 1 <= zlen (write b)) l → 4 + zlen l <= zlen (table_bytes write l).
Proof.
  intros H%concat_length. unfold table_bytes. rewrite zlen_app. change (zlen (u32_bytes _)) with 4. lia.
Qed.

Lemma load_table_back {A B} data off (row : Z → option (A * Z)) zero (write : B → list Z) n l vs k :
  Forall2 (reads_back data row write) vs l → 1 <= n → Forall (λ b, n <= zlen (write b)) l →
  zlen data < 2 ^ 32 → 0 < off → at_ data off (table_bytes write l ++ k) →
  load_table data off (in_data data n) row zero = Some vs.
Proof.
  intros Hl H1 Hn Hz Hoff H. unfold load_table. pose proof (at_range _ _ _ H) as Hr.
  assert (Hlen : 4 + zlen l <= zlen (table_bytes write l))
    by (apply table_length; eapply Forall_impl; [exact Hn |]; cbn; intros; lia).
  rewrite zlen_app in Hr. pose proof (zlen_nonneg k). pose proof (zlen_nonneg l).
  destruct (Z.ltb_spec 0 off); [| lia]. destruct (Z.ltb_spec off (zlen data)); [| lia].
  unfold table_bytes in H. rewrite <- app_assoc in H.
  cbn [andb]. apply at_u32 in H as [-> H]; [| zred; lia]. cbn [mbind option_bind].
  unfold zlen. rewrite Nat2Z.id. by eapply load_rows_back.
Qed.

(** ** Rows *)

Lemma c_string_id s : 0 ∉ s → c_string s = s.
Proof. intros H. apply c_string_no_nul, Forall_forall. by intros c Hc ->. Qed.

Lemma string_back data s :
  zlen s < 2 ^ 16 → 0 ∉ s → reads_back data (load_string data) string_bytes (Some s) s.
Proof.
  intros Hs H0 p H. pose proof (at_range _ _ _ H) as Hr. unfold string_bytes in *.
  assert (Hu : u16 (zlen s) = zlen s) by (apply wrap_small; zred; pose proof (zlen_nonneg s); lia).
  rewrite Hu in *. rewrite zlen_app in *. change (zlen (u16_bytes (zlen s))) with 2 in *.
  apply at_u16 in H as [E H]; [| zred; pose proof (zlen_nonneg s); lia].
  unfold load_string. rewrite E. cbn [mbind option_bind].
  destruct (Z.leb_spec (p + 2 + zlen s) (zlen data)); [| lia].
  rewrite <- (app_nil_r s) in H. apply at_bytes in H as [E' _]. unfold zlen. rewrite Nat2Z.id, E'.
  cbn [mbind option_bind]. f_equal. f_equal; [| lia]. f_equal.
  by apply c_string_id.
Qed.

(** *** Constants *)

Lemma u64_bytes_be v : u64_bytes v = be_bytes 8 v.
Proof.
  unfold u64_bytes. cbn [fmap list_fmap be_bytes]. change 0xFF with (Z.ones 8).
  rewrite !land_low by lia. rewrite !Z.shiftr_div_pow2 by lia. reflexivity.
Qed.

Lemma fold_u64 bs : ∀ a, bytes_ok bs →
  foldl (λ u b, u64 (Z.lor (Z.shiftl u 8) b)) (u64 a) bs = u64 (a * 256 ^ zlen bs + be_value bs).
Proof.
  induction bs as [|b bs IH]; intros a Hb.
  - cbn [foldl]. rewrite zlen_nil. change (be_value []) with 0. f_equal. lia.
  - inversion Hb as [| ? ? H1 H2]; subst. cbn [foldl].
    rewrite lor_shiftl_add by (zred; lia).
    assert (E : u64 (u64 a * 2 ^ 8 + b) = u64 (a * 256 + b)).
    { unfold wrap. by rewrite <- Zplus_mod_idemp_l, Zmult_mod_idemp_l, Zplus_mod_idemp_l. }
    rewrite E, IH by done. rewrite be_value_cons, zlen_cons, Z.pow_add_r by auto with bbs lia.
    f_equal. lia.
Qed.

Lemma fold_s64 bs : ∀ a, bytes_ok bs →
  foldl (λ u b, s64 (Z.lor (Z.shiftl u 8) b)) (s64 a) bs =
  s64 (foldl (λ u b, u64 (Z.lor (Z.shiftl u 8) b)) (u64 a) bs).
Proof.
  induction bs as [|b bs IH]; intros a Hb; [cbn [foldl]; by rewrite swrap_wrap |].
  inversion Hb as [| ? ? H1 H2]; subst. cbn [foldl].
  rewrite !lor_shiftl_add by (zred; lia).
  assert (E : s64 (s64 a * 2 ^ 8 + b) = s64 (a * 2 ^ 8 + b)).
  { rewrite <- swrap_wrap, <- (swrap_wrap _ (a * _ + b)). f_equal. unfold wrap.
    rewrite <- (Zplus_mod_idemp_l (s64 a * 2 ^ 8)), <- (Zmult_mod_idemp_l (s64 a)).
    change (s64 a mod 2 ^ 64) with (u64 (s64 a)). rewrite wrap_swrap. unfold wrap.
    by rewrite Zmult_mod_idemp_l, Zplus_mod_idemp_l. }
  assert (E' : u64 (u64 a * 2 ^ 8 + b) = u64 (a * 2 ^ 8 + b)).
  { unfold wrap. by rewrite <- Zplus_mod_idemp_l, Zmult_mod_idemp_l, Zplus_mod_idemp_l. }
  rewrite E, E'. by apply IH.
Qed.

Lemma read_u64 v :
  foldl (λ u b, u64 (Z.lor (Z.shiftl u 8) b)) 0 (u64_bytes v) = u64 v ∧
  foldl (λ u b, s64 (Z.lor (Z.shiftl u 8) b)) 0 (u64_bytes v) = s64 v.
Proof.
  assert (E : foldl (λ u b, u64 (Z.lor (Z.shiftl u 8) b)) 0 (u64_bytes v) = u64 v).
  { rewrite u64_bytes_be. change 0 with (u64 0) at 1. rewrite fold_u64 by apply be_bytes_ok.
    rewrite be_value_bytes. cbn [Z.mul]. rewrite Z.add_0_l. unfold wrap. by rewrite Zmod_mod. }
  split; [exact E |]. change 0 with (s64 0) at 1.
  rewrite fold_s64 by (rewrite u64_bytes_be; apply be_bytes_ok).
  change (u64 0) with 0. rewrite E. apply swrap_wrap.
Qed.

Lemma digits2_log2 m : Zpos (digits2_pos m) = Z.log2 (Zpos m) + 1.
Proof.
  induction m as [m IH | m IH |]; cbn [digits2_pos]; rewrite ?Pos2Z.inj_succ, ?IH; [| | done].
  - rewrite Pos2Z.inj_xI, Z.log2_succ_double by lia. lia.
  - rewrite Pos2Z.inj_xO, Z.log2_double by lia. lia.
Qed.

(** The shape of a finite double: subnormal, or with the 53rd bit set. *)
Lemma valid_cases m e :
  bounded 53 1024 m e = true →
  (Zpos m < 2 ^ 52 ∧ e = -1074) ∨ (2 ^ 52 <= Zpos m < 2 ^ 53 ∧ -1074 <= e <= 971).
Proof.
  unfold bounded, canonical_mantissa, fexp, emin. rewrite digits2_log2.
  intros [H1%Z.eqb_eq H2%Z.leb_le]%andb_prop.
  pose proof (Z.log2_spec (Zpos m) ltac:(lia)) as [Hlo Hhi]. set (k := Z.log2 (Zpos m)) in *.
  destruct (Z.lt_ge_cases (Zpos m) (2 ^ 52)) as [Hs | Hb].
  - left. split; [done |]. assert (k < 52) by (apply Z.log2_lt_pow2; lia). lia.
  - right. assert (52 <= k) by (apply Z.log2_le_pow2; lia).
    assert (k = 52 ∨ 52 < k) as [Hk | Hk] by lia.
    + rewrite Hk in Hhi. split; [split; [done |]; exact Hhi | lia].
    + exfalso. lia.
Qed.

Lemma f64_bits_back f :
  valid_binary 53 1024 f = true → in_u 64 (f64_bits f) ∧ f64_of_bits (f64_bits f) = f.
Proof.
  intros Hf. destruct f as [[] | [] | | s m e];
    [by vm_compute | by vm_compute | by vm_compute | by vm_compute | by vm_compute |].
  assert (Hsplit : ∀ x, 0 <= x < 2 ^ 63 →
    in_u 64 ((if s then 2 ^ 63 else 0) + x) ∧
    (2 ^ 63 <=? (if s then 2 ^ 63 else 0) + x) = s ∧
    ((if s then 2 ^ 63 else 0) + x) mod 2 ^ 63 = x).
  { intros x Hx. assert (Em : (2 ^ 63 + x) mod 2 ^ 63 = x).
    { rewrite <- (Z.mul_1_l (2 ^ 63)) at 1. rewrite Z.add_comm, Z_mod_plus_full. by apply Z.mod_small. }
    destruct s; (split; [zlia | split; [zlia |]]); [exact Em | by apply Z.mod_small]. }
  cbn [f64_bits]. apply valid_cases in Hf as [[Hm ->] | [Hm He]].
  - destruct (Z.ltb_spec (Zpos m) (2 ^ 52)); [| lia].
    destruct (Hsplit (Zpos m)) as (H1 & H2 & H3); [zlia |]. split; [done |].
    unfold f64_of_bits. rewrite H2, H3. rewrite Z.div_small, Z.mod_small by lia. done.
  - destruct (Z.ltb_spec (Zpos m) (2 ^ 52)); [lia |].
    destruct (Hsplit ((e + 1075) * 2 ^ 52 + (Zpos m - 2 ^ 52))) as (H1 & H2 & H3); [zlia |].
    split; [done |]. unfold f64_of_bits. rewrite H2, H3.
    rewrite (Z.add_comm ((e + 1075) * _)), Z.div_add, Z_mod_plus_full by lia.
    rewrite Z.div_small, Z.mod_small by zlia.
    destruct (Z.eqb_spec (0 + (e + 1075)) 2047); [lia |].
    destruct (Z.eqb_spec (0 + (e + 1075)) 0); [lia |].
    replace (Zpos m - 2 ^ 52 + 2 ^ 52) with (Zpos m) by lia. f_equal. lia.
Qed.

(** Constants that a file can hold. *)
Definition storable (v : value) : Prop :=
  match v with
  | VNull | VBool _ => True
  | VI64 z => in_s 64 z
  | VF64 f => valid_binary 53 1024 f = true
  | _ => False
  end.

Lemma constant_back data v :
  storable v → reads_back data (load_constant data) constant_bytes v v.
Proof.
  intros Hv p H. destruct v as [| b | z | f | | | | | |]; try done; cbn [constant_bytes] in *;
    apply at_cons in H as [E H]; unfold load_constant; rewrite E; cbn [mbind option_bind Z.eqb Pos.eqb].
  - done.
  - apply at_cons in H as [-> _]. by destruct b.
  - rewrite <- (app_nil_r (u64_bytes z)) in H. apply at_bytes in H as [E' _].
    change (length (u64_bytes z)) with 8%nat in E'. rewrite E'. cbn [mbind option_bind].
    by rewrite (proj2 (read_u64 z)), swrap_small by done.
  - rewrite <- (app_nil_r (u64_bytes (f64_bits f))) in H. apply at_bytes in H as [E' _].
    change (length (u64_bytes (f64_bits f))) with 8%nat in E'. rewrite E'. cbn [mbind option_bind].
    destruct (f64_bits_back f Hv) as [Hr Hb].
    by rewrite (proj1 (read_u64 _)), wrap_small, Hb by done.
Qed.

(** *** Names in the pool *)

Lemma string_index_some pool s : ∀ i j,
  string_index pool s i = Some j → i <= j ∧ nthZ pool (j - i) = Some s.
Proof.
  induction pool as [|t pool IH]; intros i j H; cbn in H; [done |]. case_bool_decide.
  - injection H as ->. subst t. rewrite Z.sub_diag. split; [lia | done].
  - apply IH in H as [H1 H2]. split; [lia |].
    change (t :: pool) with ([t] ++ pool). rewrite nthZ_app_r by zl.
    change (zlen [t]) with 1. by replace (j - i - 1) with (j - (i + 1)) by lia.
Qed.

Lemma string_index_none pool s : ∀ i, string_index pool s i = None → s ∉ pool.
Proof.
  induction pool as [|t pool IH]; intros i H; cbn in H; [apply not_elem_of_nil |].
  case_bool_decide; [done |]. apply not_elem_of_cons. split; [congruence | by eapply IH].
Qed.

(** A later pool still has the strings where they were, and nothing that was
    not there or added. *)
Definition pool_grows (pool : list cstr) (added : list cstr) (pool' : list cstr) : Prop :=
  (∃ k, pool' = pool ++ k) ∧ (∀ s, s ∈ pool' → s ∈ pool ∨ s ∈ added).

Lemma nthZ_grows pool added pool' i s :
  pool_grows pool added pool' → nthZ pool i = Some s → nthZ pool' i = Some s.
Proof.
  intros [[k ->] _] H. pose proof (nthZ_Some _ _ _ H). by rewrite nthZ_app_l by lia.
Qed.

Lemma pool_grows_trans p1 a p2 b p3 :
  pool_grows p1 a p2 → pool_grows p2 b p3 → pool_grows p1 (a ++ b) p3.
Proof.
  intros [[k ->] H1] [[k' ->] H2]. split; [exists (k ++ k'); by rewrite app_assoc |].
  intros s Hs. rewrite elem_of_app. destruct (H2 s Hs) as [H | H]; [apply H1 in H |]; tauto.
Qed.

Lemma add_string_spec pool s i pool' :
  add_string_to_pool pool s = (i, pool') →
  pool_grows pool [s] pool' ∧ nthZ pool' i = Some s.
Proof.
  unfold add_string_to_pool. destruct (string_index pool s 0) as [j |] eqn:E; intros [= <- <-].
  - apply string_index_some in E as [_ E]. rewrite Z.sub_0_r in E. split; [| done].
    split; [exists []; by rewrite app_nil_r | auto].
  - split; [| apply nthZ_mid]. split; [by exists [s] |]. intros t [? | ?]%elem_of_app; auto.
Qed.

Lemma add_strings_spec l : ∀ pool ids pool',
  add_strings l pool = (ids, pool') →
  pool_grows pool l pool' ∧ Forall2 (λ i s, nthZ pool' i = Some s) ids l.
Proof.
  induction l as [|s l IH]; intros pool ids pool' H; cbn in H.
  - injection H as <- <-. split; [split; [exists []; by rewrite app_nil_r | auto] | constructor].
  - destruct (add_string_to_pool pool s) as [i p1] eqn:E1.
    destruct (add_strings l p1) as [js p2] eqn:E2. injection H as <- <-.
    apply add_string_spec in E1 as [G1 N1]. apply IH in E2 as [G2 N2].
    split; [exact (pool_grows_trans _ _ _ _ _ G1 G2) |]. constructor; [| done].
    by eapply nthZ_grows.
Qed.

Definition import_names (imp : bucc_module_import) : list cstr :=
  [default [] (mi_ns imp); default [] (mi_fn imp)].

Lemma add_imports_spec l : ∀ pool ids pool',
  add_imports l pool = (ids, pool') →
  pool_grows pool (concat (import_names <$> l)) pool' ∧
  Forall2 (λ ij imp, nthZ pool' (fst ij) = Some (default [] (mi_ns imp)) ∧
                     nthZ pool' (snd ij) = Some (default [] (mi_fn imp))) ids l.
Proof.
  induction l as [|imp l IH]; intros pool ids pool' H; cbn in H.
  - injection H as <- <-. split; [split; [exists []; by rewrite app_nil_r | auto] | constructor].
  - destruct (add_string_to_pool pool _) as [i p1] eqn:E1.
    destruct (add_string_to_pool p1 _) as [j p2] eqn:E2.
    destruct (add_imports l p2) as [js p3] eqn:E3. injection H as <- <-.
    apply add_string_spec in E1 as [G1 N1]. apply add_string_spec in E2 as [G2 N2].
    apply IH in E3 as [G3 N3].
    split; [exact (pool_grows_trans _ _ _ _ _ (pool_grows_trans _ _ _ _ _ G1 G2) G3) |].
    constructor; [| done]. cbn [fst snd].
    split; eapply nthZ_grows; try eassumption. by eapply nthZ_grows.
Qed.

(** Strings without repetition are added in order. *)
Lemma add_strings_nodup l : ∀ pool,
  NoDup (pool ++ l) → snd (add_strings l pool) = pool ++ l.
Proof.
  induction l as [|s l IH]; intros pool H; cbn [add_strings]; [by rewrite app_nil_r |].
  unfold add_string_to_pool. destruct (string_index pool s 0) as [j |] eqn:E.
  - apply string_index_some in E as [_ E]. unfold nthZ in E. destruct (_ <? 0); [done |].
    apply list_elem_of_lookup_2 in E. apply NoDup_app in H as (_ & H & _).
    destruct (H s E). by left.
  - specialize (IH (pool ++ [s])). destruct (add_strings l (pool ++ [s])) as [js p2]. cbn [snd] in *.
    rewrite <- app_assoc in IH. by apply IH.
Qed.

(** *** Procedures and imports *)

Lemma nthZ_fmap {A B} (f : A → B) l i : nthZ (f <$> l) i = f <$> nthZ l i.
Proof. unfold nthZ. destruct (i <? 0); [done |]. apply list_lookup_fmap. Qed.

Lemma pool_name_some pool i s :
  nthZ pool i = Some s → pool_name (Some <$> pool) i = Some (Some s).
Proof.
  intros H. unfold pool_name. rewrite zlen_map, nthZ_fmap, H. pose proof (nthZ_Some _ _ _ H).
  by destruct (Z.ltb_spec i (zlen pool)); [| lia].
Qed.

Definition proc_ok (p : bucc_module_proc) : Prop :=
  in_u 32 (mp_id p) ∧ in_u 32 (mp_code_offset p) ∧ in_u 32 (mp_code_len p) ∧
  in_u 16 (mp_param_count p) ∧ in_u 16 (mp_local_count p).

(** A missing name is stored as the empty one. *)
Definition stored_proc (p : bucc_module_proc) : bucc_module_proc :=
  MkMProc (Some (default [] (mp_name p))) (mp_id p) (mp_code_offset p) (mp_code_len p)
    (mp_param_count p) (mp_local_count p) (mp_is_function p).

Definition stored_import (i : bucc_module_import) : bucc_module_import :=
  MkMImport (Some (default [] (mi_ns i))) (Some (default [] (mi_fn i))) (mi_id i).

(** Reads the field at the front of the bytes in [H]. *)
Ltac read_field H :=
  let E := fresh "E" in
  lazymatch type of H with
  | at_ _ _ (u32_bytes _ ++ _) => apply at_u32 in H as [E H]; [| done]
  | at_ _ _ (u16_bytes _ ++ _) => apply at_u16 in H as [E H]; [| done]
  end;
  rewrite E; cbn [mbind option_bind].

Lemma proc_back data pool i p :
  zlen pool < 2 ^ 32 → nthZ pool i = Some (default [] (mp_name p)) → proc_ok p →
  reads_back data (load_proc data (Some <$> pool)) proc_bytes (stored_proc p) (i, p).
Proof.
  intros Hpool Hi (H1 & H2 & H3 & H4 & H5) q H.
  assert (Hiu : in_u 32 i) by (apply nthZ_Some in Hi as ?; zred; lia).
  unfold proc_bytes in H. rewrite !(wrap_small 16) in H by (done || lia).
  unfold load_proc. read_field H. read_field H.
  replace (q + 4 + 4) with (q + 8) in H by lia. read_field H.
  replace (q + 8 + 4) with (q + 12) in H by lia. read_field H.
  replace (q + 12 + 4) with (q + 16) in H by lia. read_field H.
  replace (q + 16 + 2) with (q + 18) in H by lia. read_field H.
  replace (q + 18 + 2) with (q + 20) in H by lia.
  apply at_cons in H as [-> _]. cbn [mbind option_bind].
  rewrite (pool_name_some _ _ _ Hi). cbn [mbind option_bind].
  change (zlen (proc_bytes (i, p))) with 24. unfold stored_proc. by destruct (mp_is_function p).
Qed.

Lemma import_back data pool ij imp :
  zlen pool < 2 ^ 32 → nthZ pool (fst ij) = Some (default [] (mi_ns imp)) →
  nthZ pool (snd ij) = Some (default [] (mi_fn imp)) → in_u 32 (mi_id imp) →
  reads_back data (load_import data (Some <$> pool)) import_bytes (stored_import imp) (ij, imp).
Proof.
  destruct ij as [i j]. cbn [fst snd]. intros Hpool Hi Hj Hid q H.
  assert (Hiu : in_u 32 i) by (apply nthZ_Some in Hi as ?; zred; lia).
  assert (Hju : in_u 32 j) by (apply nthZ_Some in Hj as ?; zred; lia).
  unfold import_bytes in H. rewrite <- (app_nil_r (u32_bytes (mi_id imp))) in H.
  unfold load_import. read_field H. read_field H.
  replace (q + 4 + 4) with (q + 8) in H by lia. read_field H.
  by rewrite (pool_name_some _ _ _ Hi), (pool_name_some _ _ _ Hj).
Qed.

(** *** Header *)

Definition header_ok (h : bucc_module_header) : Prop :=
  h_magic h = BUCC_MAGIC ∧ in_u 16 (format_major h) ∧ in_u 16 (format_minor h) ∧
  Forall (in_u 32) [h_flags h; header_size h; metadata_offset h; string_pool_offset h;
    const_pool_offset h; symbol_table_offset h; proc_table_offset h; dataset_table_offset h;
    import_table_offset h; bytecode_offset h; debug_map_offset h; file_length h; h_crc32 h].

Lemma header_bytes_length h : h_magic h = BUCC_MAGIC → zlen (header_bytes h) = header_len.
Proof. destruct h. cbn. by intros ->. Qed.

(** The offset as a number. *)
Ltac norm_at H :=
  lazymatch type of H with
  | at_ _ ?p _ => let p' := eval vm_compute in p in change p with p' in H
  end.

Lemma header_back data h k :
  header_ok h → at_ data 0 (header_bytes h ++ k) →
  load_header data = Some h ∧ takeZ 4 data = BUCC_MAGIC.
Proof.
  intros (Hm & H1 & H2 & H3) H. split.
  - unfold header_bytes in H. rewrite Hm, <- !app_assoc in H.
    unfold load_header. apply at_bytes in H as [E H]. change (length BUCC_MAGIC) with 4%nat in E.
    rewrite E. cbn [mbind option_bind]. norm_at H.
    destruct h as [f0 f1 f2 f3 f4 f5 f6 f7 f8 f9 f10 f11 f12 f13 f14 f15]. cbn [h_magic format_major format_minor h_flags header_size metadata_offset
      string_pool_offset const_pool_offset symbol_table_offset proc_table_offset
      dataset_table_offset import_table_offset bytecode_offset debug_map_offset file_length h_crc32] in *.
    repeat match goal with H : Forall _ (_ :: _) |- _ => apply Forall_cons in H as [? H] end.
    do 2 (read_field H; norm_at H). cbn [fmap list_fmap concat] in H. rewrite <- !app_assoc in H.
    do 13 (read_field H; norm_at H). by rewrite Hm.
  - destruct H as (pre & post & -> & Hpre). destruct pre; [| zl].
    unfold header_bytes. by rewrite Hm.
Qed.

(** ** Checksum *)

Lemma lxor_u32 a b : in_u 32 a → in_u 32 b → in_u 32 (Z.lxor a b).
Proof.
  intros [Ha Ha'] [Hb Hb']. split; [by apply Z.lxor_nonneg; split |].
  destruct (Z.eq_dec (Z.lxor a b) 0) as [-> | Hn]; [done |].
  apply Z.log2_lt_pow2; [pose proof (proj2 (Z.lxor_nonneg a b)); lia |].
  assert (Hl : ∀ x, 0 <= x < 2 ^ 32 → Z.log2 x < 32).
  { intros x Hx. destruct (Z.eq_dec x 0) as [-> |]; [done |]. apply Z.log2_lt_pow2; lia. }
  pose proof (Z.log2_lxor a b Ha Hb). pose proof (Hl a ltac:(lia)). pose proof (Hl b ltac:(lia)). lia.
Qed.

Lemma crc32_entry_range i : 0 <= i < 256 → in_u 32 (crc32_entry i).
Proof.
  intros Hi.
  assert (H : forallb (λ n, let c := crc32_entry (Z.of_nat n) in (0 <=? c) && (c <? 2 ^ 32))
    (seq 0 256) = true) by (by vm_compute).
  rewrite forallb_forall in H. specialize (H (Z.to_nat i)). rewrite in_seq, Z2Nat.id in H by lia.
  specialize (H ltac:(lia)). apply andb_prop in H as [? ?]. split; lia.
Qed.

Lemma compute_crc32_range data : in_u 32 (compute_crc32 data).
Proof.
  unfold compute_crc32. apply lxor_u32; [| by vm_compute].
  assert (H : in_u 32 0xFFFFFFFF) by (by vm_compute). revert H. generalize 0xFFFFFFFF as a.
  induction data as [|b data IH]; intros a Ha; [done |]. cbn [foldl]. apply IH. apply lxor_u32.
  - apply crc32_entry_range. change 0xFF with (Z.ones 8). rewrite Z.land_ones by lia.
    apply Z.mod_pos_bound. lia.
  - rewrite Z.shiftr_div_pow2 by lia. destruct Ha. split; [apply Z.div_pos; lia |].
    apply Z.div_lt_upper_bound; zlia.
Qed.

(** ** Files *)

Definition text_ok (s : cstr) : Prop := zlen s < 2 ^ 16 ∧ 0 ∉ s.

#[export] Instance text_ok_dec s : Decision (text_ok s).
Proof. unfold text_ok. apply _. Defined.
#[export] Instance storable_dec v : Decision (storable v).
Proof. destruct v; unfold storable; apply _. Defined.
#[export] Instance proc_ok_dec p : Decision (proc_ok p).
Proof. unfold proc_ok. apply _. Defined.

(** Modules that a file can hold: the pool without repetitions, as the code
    generator builds it, texts of C with a 16-bit length, constants other than
    dates, fields in their range, less than 4 GB. *)
Record file_ok (m : bucc_module) : Prop := {
  ok_strings : ∃ l, m_strings m = Some <$> l ∧ NoDup l ∧ Forall text_ok l;
  ok_constants : Forall storable (m_constants m);
  ok_procs : Forall proc_ok (m_procedures m);
  ok_proc_names : Forall (λ p, text_ok (default [] (mp_name p))) (m_procedures m);
  ok_imports : Forall (λ i, in_u 32 (mi_id i)) (m_imports m);
  ok_import_names : Forall (λ i, Forall text_ok (import_names i)) (m_imports m);
  ok_flags : in_u 32 (h_flags (header m));
  ok_size : zlen (bucc_module_save_file m) < 2 ^ 32
}.

Lemma constant_bytes_length v : 1 <= zlen (constant_bytes v).
Proof. destruct v; cbn; try lia; rewrite zlen_cons; zl. Qed.

Lemma zip_Forall2 {A B C} (P : A → B → Prop) (Q : C → A * B → Prop) (f : B → C) l k :
  Forall2 P l k → Forall (λ b, ∀ a, P a b → Q (f b) (a, b)) k → Forall2 Q (f <$> k) (zip l k).
Proof.
  induction 1 as [|a b l k Hab _ IH]; intros H; [constructor |].
  inversion H; subst. cbn. constructor; auto.
Qed.

Lemma saved_names_spec m l :
  m_strings m = Some <$> l → NoDup l → 
  ∃ names pairs pool, saved_names m = (names, pairs, pool) ∧ (∃ k, pool = l ++ k) ∧
    (∀ s, s ∈ pool → s ∈ l ∨ s ∈ ((λ p, default [] (mp_name p)) <$> m_procedures m) ∨
                     s ∈ concat (import_names <$> m_imports m)) ∧
    Forall2 (λ i p, nthZ pool i = Some (default [] (mp_name p))) names (m_procedures m) ∧
    Forall2 (λ ij imp, nthZ pool (fst ij) = Some (default [] (mi_ns imp)) ∧
                       nthZ pool (snd ij) = Some (default [] (mi_fn imp))) pairs (m_imports m).
Proof.
  intros Hl Hnd. unfold saved_names.
  assert (El : default [] <$> m_strings m = l).
  { rewrite Hl, <- list_fmap_compose. apply list_fmap_id. }
  rewrite El. pose proof (add_strings_nodup l [] Hnd) as E1.
  destruct (add_strings l []) as [ids p1]. cbn [snd app] in E1. subst p1.
  destruct (add_strings _ l) as [names p2] eqn:E2. destruct (add_imports (m_imports m) p2) as [pairs p3] eqn:E3.
  apply add_strings_spec in E2 as [G2 N2]. apply add_imports_spec in E3 as [G3 N3].
  exists names, pairs, p3. split; [done |].
  pose proof (pool_grows_trans _ _ _ _ _ G2 G3) as [Hk Hin].
  split; [exact Hk |]. split; [intros s Hs; specialize (Hin s Hs); rewrite elem_of_app in Hin; tauto |].
  split; [| exact N3]. apply Forall2_fmap_r in N2. eapply Forall2_impl; [exact N2 |].
  intros i p H. by eapply nthZ_grows.
Qed.

(** The names of a well-formed module are texts, wherever they come from. *)
Lemma pool_texts m l pool :
  file_ok m → m_strings m = Some <$> l →
  (∀ s, s ∈ pool → s ∈ l ∨ s ∈ ((λ p, default [] (mp_name p)) <$> m_procedures m) ∨
                   s ∈ concat (import_names <$> m_imports m)) →
  Forall text_ok pool.
Proof.
  intros [(l' & Hl' & _ & Htl) _ _ Hpn _ Hin _ _] Hl Hpool. rewrite Hl in Hl'.
  apply list_fmap_eq_inj in Hl' as <-; [| by intros ? ? [=]].
  apply Forall_forall. intros s Hs. destruct (Hpool s Hs) as [H | [H | H]].
  - exact (proj1 (Forall_forall _ _) Htl s H).
  - apply list_elem_of_fmap in H as (p & -> & H). exact (proj1 (Forall_forall _ _) Hpn p H).
  - apply list_elem_of_In, in_concat in H as (x & Hx & H). apply list_elem_of_In in H, Hx.
    apply list_elem_of_fmap in Hx as (imp & -> & Hx).
    pose proof (proj1 (Forall_forall _ _) Hin imp Hx) as Hi.
    exact (proj1 (Forall_forall _ _) Hi s H).
Qed.

(** The sections of a file, at the offsets of its header. *)
Record laid_out (data : list Z) (h : bucc_module_header) (S C P Q B : list Z) : Prop := {
  lo_data : data = header_bytes h ++ S ++ C ++ P ++ Q ++ B;
  lo_header : header_ok h;
  lo_major : format_major h = BUCC_FORMAT_MAJOR;
  lo_strings : string_pool_offset h = header_len;
  lo_consts : const_pool_offset h = header_len + zlen S;
  lo_procs : proc_table_offset h = header_len + zlen S + zlen C;
  lo_imports : import_table_offset h = header_len + zlen S + zlen C + zlen P;
  lo_code : bytecode_offset h = header_len + zlen S + zlen C + zlen P + zlen Q;
  lo_debug : debug_map_offset h = 0;
  lo_size : zlen data < 2 ^ 32
}.

Lemma laid_out_at data h S C P Q B :
  laid_out data h S C P Q B →
  at_ data (string_pool_offset h) (S ++ C ++ P ++ Q ++ B) ∧
  at_ data (const_pool_offset h) (C ++ P ++ Q ++ B) ∧
  at_ data (proc_table_offset h) (P ++ Q ++ B) ∧
  at_ data (import_table_offset h) (Q ++ B) ∧ at_ data (bytecode_offset h) B.
Proof.
  intros [E [Hm _] _ -> -> -> -> -> _ _].
  assert (H : at_ data header_len (S ++ C ++ P ++ Q ++ B)).
  { exists (header_bytes h), []. rewrite app_nil_r. split; [done |]. by apply header_bytes_length. }
  split; [exact H |]. apply at_app in H as [_ H]. split; [exact H |].
  apply at_app in H as [_ H]. split; [exact H |].
  apply at_app in H as [_ H]. split; [exact H |]. by apply at_app in H as [_ H].
Qed.

Lemma code_back data h S C P Q B :
  laid_out data h S C P Q B → load_bytecode data h = Some B.
Proof.
  intros Hlo. destruct (laid_out_at _ _ _ _ _ _ _ Hlo) as (_ & _ & _ & _ & H).
  pose proof (at_range _ _ _ H) as Hr. pose proof (lo_code _ _ _ _ _ _ _ Hlo) as Hoff.
  pose proof (lo_size _ _ _ _ _ _ _ Hlo) as Hsize.
  unfold load_bytecode. rewrite (lo_debug _ _ _ _ _ _ _ Hlo).
  assert (Hz : zlen data = bytecode_offset h + zlen B).
  { rewrite Hoff, (lo_data _ _ _ _ _ _ _ Hlo), !zlen_app.
    rewrite header_bytes_length by apply Hlo. lia. }
  unfold header_len in *. pose proof (zlen_nonneg S). pose proof (zlen_nonneg C).
  pose proof (zlen_nonneg P). pose proof (zlen_nonneg Q). pose proof (zlen_nonneg B).
  destruct (Z.ltb_spec 0 (bytecode_offset h)); [| lia]. cbn [andb].
  destruct (Z.ltb_spec (bytecode_offset h) (zlen data)).
  - destruct (Z.ltb_spec (bytecode_offset h) 0); [lia |].
    rewrite wrap_small by (zred; lia). replace (zlen data - bytecode_offset h) with (zlen B) by lia.
    unfold zlen. rewrite Nat2Z.id. rewrite <- (app_nil_r B) in H. by apply at_bytes in H as [E _].
  - assert (zlen B = 0) as HB by lia. destruct B; [done |]. clear -HB. zl.
Qed.

Section tables.
Context (data : list Z) (off : Z) (k : list Z) (Hsize : zlen data < 2 ^ 32) (Hoff : 0 < off).

Lemma strings_back pool :
  Forall text_ok pool → at_ data off (table_bytes string_bytes pool ++ k) →
  load_table data off (in_data data 1) (load_string data) None = Some (Some <$> pool).
Proof.
  intros Ht. apply load_table_back; [| done | | done | done].
  - apply Forall2_fmap_l, Forall_Forall2_diag. eapply Forall_impl; [exact Ht |].
    intros s [? ?]. by apply string_back.
  - apply Forall_forall. intros s _. unfold string_bytes. rewrite zlen_app.
    change (zlen (u16_bytes _)) with 2. zl.
Qed.

Lemma constants_back l :
  Forall storable l → at_ data off (table_bytes constant_bytes l ++ k) →
  load_table data off (in_data data 1) (load_constant data) VNull = Some l.
Proof.
  intros Hl. apply load_table_back; [| done | | done | done].
  - apply Forall_Forall2_diag. eapply Forall_impl; [exact Hl |]. intros v. apply constant_back.
  - apply Forall_forall. intros. apply constant_bytes_length.
Qed.

Lemma procs_back pool names l :
  zlen pool < 2 ^ 32 → Forall2 (λ i p, nthZ pool i = Some (default [] (mp_name p))) names l →
  Forall proc_ok l → at_ data off (table_bytes proc_bytes (zip names l) ++ k) →
  load_table data off (in_data data 16) (load_proc data (Some <$> pool))
    (MkMProc None 0 0 0 0 0 false) = Some (stored_proc <$> l).
Proof.
  intros Hp Hn Hl. apply load_table_back; [| done | | done | done].
  - eapply zip_Forall2; [exact Hn |]. eapply Forall_impl; [exact Hl |].
    intros p Hok i Hi. by apply proc_back.
  - apply Forall_forall. by intros [] _.
Qed.

Lemma imports_back pool pairs l :
  zlen pool < 2 ^ 32 →
  Forall2 (λ ij imp, nthZ pool (fst ij) = Some (default [] (mi_ns imp)) ∧
                     nthZ pool (snd ij) = Some (default [] (mi_fn imp))) pairs l →
  Forall (λ i, in_u 32 (mi_id i)) l → at_ data off (table_bytes import_bytes (zip pairs l) ++ k) →
  load_table data off (in_data data 12) (load_import data (Some <$> pool))
    (MkMImport None None 0) = Some (stored_import <$> l).
Proof.
  intros Hp Hn Hl. apply load_table_back; [| done | | done | done].
  - eapply zip_Forall2; [exact Hn |]. eapply Forall_impl; [exact Hl |].
    intros imp Hok ij [H1 H2]. by apply import_back.
  - apply Forall_forall. by intros [[]] _.
Qed.
End tables.

Lemma string_bytes_length s : 2 <= zlen (string_bytes s).
Proof. unfold string_bytes. rewrite zlen_app. change (zlen (u16_bytes _)) with 2. zl. Qed.

Lemma sections_back m data h l names pairs pool :
  file_ok m → m_strings m = Some <$> l → Forall text_ok pool →
  Forall2 (λ i p, nthZ pool i = Some (default [] (mp_name p))) names (m_procedures m) →
  Forall2 (λ ij imp, nthZ pool (fst ij) = Some (default [] (mi_ns imp)) ∧
                     nthZ pool (snd ij) = Some (default [] (mi_fn imp))) pairs (m_imports m) →
  laid_out data h (table_bytes string_bytes pool) (table_bytes constant_bytes (m_constants m))
    (table_bytes proc_bytes (zip names (m_procedures m)))
    (table_bytes import_bytes (zip pairs (m_imports m))) (m_bytecode m) →
  bucc_module_load_memory data =
    Some (inr (MkFile h (Some <$> pool) (m_constants m) (stored_proc <$> m_procedures m)
      (stored_import <$> m_imports m) (m_bytecode m))).
Proof.
  intros [_ Hc Hp _ Hi _ _ _] _ Ht Hnames Hpairs Hlo.
  destruct (laid_out_at _ _ _ _ _ _ _ Hlo) as (HS & HC & HP & HQ & HB).
  pose proof (code_back _ _ _ _ _ _ _ Hlo) as Hcode.
  destruct Hlo as [Hdata Hok Hmajor O1 O2 O3 O4 O5 _ Hsize].
  edestruct (header_back data h) as [Hh Hmagic]; [exact Hok | |].
  { exists [], []. rewrite app_nil_r. split; [exact Hdata | done]. }
  pose proof (at_range _ _ _ HS) as Hr. rewrite zlen_app in Hr.
  assert (Hpool : 4 + zlen pool <= zlen (table_bytes string_bytes pool)).
  { apply table_length, Forall_forall. intros s _. pose proof (string_bytes_length s). lia. }
  unfold header_len in *. zlen_facts.
  unfold bucc_module_load_memory, header_len. destruct (Z.ltb_spec (zlen data) 60); [lia |].
  rewrite Hmagic, bool_decide_eq_true_2 by done. cbn [negb]. rewrite Hh. cbn [mbind option_bind].
  rewrite Hmajor, Z.eqb_refl. cbn [negb].
  erewrite strings_back by (exact HS || done || lia). cbn [mbind option_bind].
  erewrite constants_back by (exact HC || done || lia). cbn [mbind option_bind].
  erewrite procs_back by (exact HP || done || lia). cbn [mbind option_bind].
  erewrite imports_back by (exact HQ || done || lia). cbn [mbind option_bind]. by rewrite Hcode.
Qed.

Lemma saved_header_length m crc : zlen (header_bytes (saved_header m crc)) = header_len.
Proof. apply header_bytes_length. unfold saved_header. by destruct (saved_sections m) as [[[] ] ]. Qed.

(** What the saver writes is laid out as its header says. *)
Lemma saved_laid_out m S C P Q :
  saved_sections m = (S, C, P, Q) → in_u 32 (h_flags (header m)) →
  zlen (bucc_module_save_file m) < 2 ^ 32 →
  ∃ h, laid_out (bucc_module_save_file m) h S C P Q (m_bytecode m) ∧
    h_flags h = h_flags (header m) ∧ file_length h = zlen (bucc_module_save_file m).
Proof.
  intros Es Hf Hsize. set (B := m_bytecode m).
  set (crc := compute_crc32 (header_bytes (saved_header m 0) ++ S ++ C ++ P ++ Q ++ B)).
  assert (Esave : bucc_module_save_file m = header_bytes (saved_header m crc) ++ S ++ C ++ P ++ Q ++ B)
    by (unfold bucc_module_save_file; by rewrite Es).
  exists (saved_header m crc).
  assert (Hz : zlen (bucc_module_save_file m) = 60 + zlen S + zlen C + zlen P + zlen Q + zlen B).
  { rewrite Esave, !zlen_app, saved_header_length. unfold header_len. lia. }
  assert (Hcrc : in_u 32 crc) by apply compute_crc32_range. clearbody crc.
  pose proof (zlen_nonneg S). pose proof (zlen_nonneg C). pose proof (zlen_nonneg P).
  pose proof (zlen_nonneg Q). pose proof (zlen_nonneg B).
  unfold saved_header. rewrite Es. fold B. unfold header_len.
  rewrite !(wrap_small 32) by (zred; lia).
  split; [| split; [done | cbn; lia]]. split; try done; cbn; try (unfold header_len; lia).
  - rewrite Esave. unfold saved_header. rewrite Es. fold B. unfold header_len.
    by rewrite !(wrap_small 32) by (zred; lia).
  - split; [done |]. split; [done |]. split; [done |].
    cbn. repeat constructor; try (zred; lia); try done; apply Hcrc || apply Hf.
Qed.

(** C35. A saved module is loaded back. For any module that a file can hold, the
    loader reads the file that the saver wrote without leaving it, and the
    module it builds has the same constants, doubles included, the same code,
    procedures and imports, the same flags, and the strings at the same indices,
    followed only by names of procedures and imports. *)
Theorem module_file_roundtrip m :
  file_ok m →
  ∃ m', bucc_module_load_file (bucc_module_save_file m) = Some (inr m') ∧
    (∃ k, m_strings m' = m_strings m ++ k) ∧ m_constants m' = m_constants m ∧
    m_procedures m' = stored_proc <$> m_procedures m ∧
    m_imports m' = stored_import <$> m_imports m ∧ m_bytecode m' = m_bytecode m ∧
    h_flags (header m') = h_flags (header m) ∧
    file_length (header m') = zlen (bucc_module_save_file m).
Proof.
  intros Hok. pose proof Hok as [(l & Hl & Hnd & _) _ _ _ _ _ Hf Hsize].
  destruct (saved_names_spec m l Hl Hnd) as (names & pairs & pool & En & [k Hk] & Hpool & Hnames & Hpairs).
  pose proof (pool_texts m l pool Hok Hl Hpool) as Ht.
  destruct (saved_laid_out m (table_bytes string_bytes pool) (table_bytes constant_bytes (m_constants m))
    (table_bytes proc_bytes (zip names (m_procedures m)))
    (table_bytes import_bytes (zip pairs (m_imports m)))) as (h & Hlo & Hhf & Hlen);
    [unfold saved_sections; by rewrite En | done | done |].
  exists (MkFile h (Some <$> pool) (m_constants m) (stored_proc <$> m_procedures m)
    (stored_import <$> m_imports m) (m_bytecode m)). split.
  - unfold bucc_module_load_file. destruct (Z.leb_spec (zlen (bucc_module_save_file m)) 0) as [H0 |].
    + destruct (laid_out_at _ _ _ _ _ _ _ Hlo) as (H & _). apply at_range in H.
      rewrite (lo_strings _ _ _ _ _ _ _ Hlo) in H. unfold header_len in H. zlen_facts. lia.
    + by eapply sections_back.
  - cbn. split; [exists (Some <$> k); by rewrite Hl, Hk, fmap_app |]. by split_and!.
Qed.

(** [SUB Main] that calls [Bbs.Print], with a text, a double and a negative
    integer. *)
Definition saved_program : module_node := program []
  [MkDecl false (lit "Main") [] None
    [Stmt 1 1 (SExpr (NCall (NQualified (lit "Bbs") (lit "Print"))
      [NLiteral (VString (lit "hello")); NLiteral (VF64 (f64_of_Z 12345)); NLiteral (VI64 (-7))]))]].

Lemma module_file_roundtrip_witness :
  file_ok (compiled saved_program) ∧
  ∃ m', bucc_module_load_file (bucc_module_save_file (compiled saved_program)) = Some (inr m') ∧
    m_constants m' = [VF64 (f64_of_Z 12345); VI64 (-7)].
Proof.
  assert (H : file_ok (compiled saved_program)).
  { split; try (apply (bool_decide_unpack _); by vm_compute).
    exists [lit "hello"]. split; [by vm_compute |].
    split; apply (bool_decide_unpack _); by vm_compute. }
  split; [exact H |].
  destruct (module_file_roundtrip (compiled saved_program) H) as (m' & Hm & _ & Hc & _).
  exists m'. split; [exact Hm |]. rewrite Hc. by vm_compute.
Defined.

(** [SUB Main: d = DATE(2024, 2, 29)] over a global [d]. *)
Definition date_program : module_node := program [lit "d"]
  [MkDecl false (lit "Main") [] None
    [Stmt 1 1 (SAssign (NIdent (lit "d")) (NLiteral (VDate (MkDate 2024 2 29))))]].

(** Three things the module format does not do. A date constant, which the
    verifier accepts, is saved as NULL. The checksum is written but never
    checked: a file with a bit of its code flipped is loaded. And the loader does
    not check that the tables lie in the file: a file cut off in its string table
    is read past its end. *)
Theorem module_file_flaws :
  (∃ m, bucc_module_verify (compiled date_program) = Some (inr tt) ∧
     m_constants (compiled date_program) = [VDate (MkDate 2024 2 29)] ∧
     bucc_module_load_file (bucc_module_save_file (compiled date_program)) = Some (inr m) ∧
     m_constants m = [VNull]) ∧
  (∃ data m, data ≠ bucc_module_save_file (compiled saved_program) ∧
     bucc_module_load_file data = Some (inr m) ∧
     h_crc32 (header m) = compute_crc32
       (takeZ 56 (bucc_module_save_file (compiled saved_program)) ++ [0; 0; 0; 0] ++
        dropZ 60 (bucc_module_save_file (compiled saved_program)))) ∧
  bucc_module_load_file (takeZ 61 (bucc_module_save_file (compiled saved_program))) = None.
Proof.
  split; [eexists; split_and!; vm_compute; reflexivity |]. split; [| by vm_compute].
  exists (removelast (bucc_module_save_file (compiled saved_program)) ++ [0xFF]).
  eexists. split; [by vm_compute |]. split; vm_compute; reflexivity.
Qed.

(** ** Debug maps *)

Lemma u32_bytes_be v : u32_bytes v = be_bytes 4 v.
Proof.
  unfold u32_bytes. cbn [be_bytes]. change 0xFF with (Z.ones 8).
  rewrite !land_low by lia. rewrite !Z.shiftr_div_pow2 by lia. unfold wrap.
  change (256 ^ Z.of_nat 3) with (2 ^ 24). change (256 ^ Z.of_nat 2) with (2 ^ 16).
  change (256 ^ Z.of_nat 1) with (2 ^ 8). change (256 ^ Z.of_nat 0) with 1. by rewrite Z.div_1_r.
Qed.

Lemma fread_app n bs f : zlen bs = n → fread n (bs ++ f) = Some (bs, f).
Proof.
  intros <-. unfold fread. destruct (Z.ltb_spec (zlen (bs ++ f)) (zlen bs)); [zl |].
  by rewrite takeZ_app, dropZ_app.
Qed.

Lemma fread_native v f : in_u 32 v → fread_u32 (native_u32 v ++ f) = Some (v, f).
Proof.
  intros Hv. unfold fread_u32. rewrite fread_app by done. cbn [mbind option_bind].
  unfold native_u32. rewrite rev_involutive, u32_bytes_be, be_value_bytes. rewrite Z.mod_small; [done |].
  exact Hv.
Qed.

Definition entry_in_range (x : Z * Z * Z) : Prop :=
  in_u 32 (fst (fst x)) ∧ in_u 32 (snd (fst x)) ∧ in_u 32 (snd x).

Lemma fread_entries_back l : ∀ f,
  Forall entry_in_range l →
  fread_entries (length l)
    (concat ((λ '(off, line, col), native_u32 off ++ native_u32 line ++ native_u32 col) <$> l) ++ f) = Some l.
Proof.
  induction l as [|[[off line] col] l IH]; intros f Hl; [done |].
  inversion Hl as [| ? ? (H1 & H2 & H3) Hl']; subst. cbn [fst snd] in *.
  cbn [fmap list_fmap concat length fread_entries]. rewrite <- !app_assoc.
  rewrite fread_native by done. cbn [mbind option_bind]. rewrite fread_native by done. cbn [mbind option_bind].
  rewrite fread_native by done. cbn [mbind option_bind]. unfold fmap in IH. by rewrite IH.
Qed.

(** The line of the last entry at or before an offset. *)
Definition last_line (l : list (Z * Z * Z)) (offset : Z) : Z :=
  match last (filter (λ x, fst (fst x) <= offset) l) with
  | Some x => s32 (snd (fst x))
  | None => -1
  end.

Definition ascending (l : list (Z * Z * Z)) : Prop := Sorted (λ x y, fst (fst x) <= fst (fst y)) l.

Lemma get_line_spec file l offset :
  ascending l → bucc_debug_map_get_line (MkDebugMap file l) offset = last_line l offset.
Proof.
  intros Hl%Sorted_StronglySorted; [| intros ? ? ?; lia].
  unfold bucc_debug_map_get_line, last_line. cbn [entries]. generalize (-1) as r.
  induction Hl as [|[[off line] col] l _ IH Hlt]; intros r; [done |].
  rewrite filter_cons. cbn [fst snd]. destruct (Z.leb_spec off offset).
  - rewrite decide_True by done. rewrite IH.
    rewrite last_cons. by destruct (last _) as [[[] ]|].
  - rewrite decide_False by lia.
    assert (E : filter (λ x : Z * Z * Z, fst (fst x) <= offset) l = []).
    { clear IH. induction Hlt as [|x l Hx _ IHl]; [done |]. rewrite filter_cons. cbn in Hx.
      by rewrite decide_False by lia. }
    by rewrite E.
Qed.

(** Debug maps. A saved map of 32-bit entries is loaded back, with its file
    name; and the line found for an offset in a map with ascending offsets is
    that of the last entry at or before it, -1 before the first. *)
Theorem debug_map_roundtrip file l :
  (∀ s, file = Some s → s ≠ [] ∧ (0 ∉ s) ∧ zlen s < 2 ^ 32) → Forall entry_in_range l →
  zlen l < 2 ^ 32 → ascending l →
  bucc_debug_map_load (bucc_debug_map_save (MkDebugMap file l)) = Some (MkDebugMap file l) ∧
  ∀ offset, bucc_debug_map_get_line (MkDebugMap file l) offset = last_line l offset.
Proof.
  intros Hf Hl Hn Hasc. split; [| intros; by apply get_line_spec].
  unfold bucc_debug_map_load, bucc_debug_map_save. cbn [source_file entries].
  rewrite fread_app by done. cbn [mbind option_bind]. rewrite bool_decide_eq_true_2 by done. cbn [negb].
  rewrite fread_native by done. cbn [mbind option_bind Z.eqb Pos.eqb negb].
  assert (Hz : in_u 32 (zlen (default [] file)) ∧ (zlen (default [] file) = 0 ↔ file = None)).
  { destruct file as [s |]; cbn; [| by split]. destruct (Hf s eq_refl) as (H1 & _ & H3).
    split; [split; [zl | zlia] |]. split; [| done]. destruct s; [done |]. intros H. exfalso. clear -H. zl. }
  destruct Hz as [Hz Hz0]. rewrite wrap_small by done. rewrite fread_native by done. cbn [mbind option_bind].
  assert (Hnn : in_u 32 (zlen l)) by (split; [apply zlen_nonneg | zlia]).
  destruct (Z.ltb_spec 0 (zlen (default [] file))) as [Hlt | Hle].
  - destruct file as [s |]; [| done]. cbn [default] in *.
    rewrite fread_app by done. cbn [mbind option_bind]. rewrite fread_native by done. cbn [mbind option_bind].
    unfold zlen at 1. rewrite Nat2Z.id, <- (app_nil_r (concat _)), fread_entries_back by done.
    cbn [mbind option_bind]. rewrite c_string_id; [done |]. by apply Hf.
  - assert (zlen (default [] file) = 0) as H0 by (destruct Hz; lia).
    rewrite (proj1 Hz0 H0). cbn [default mbind option_bind app].
    rewrite fread_native by done. cbn [mbind option_bind].
    unfold zlen at 1. by rewrite Nat2Z.id, <- (app_nil_r (concat _)), fread_entries_back by done.
Qed.

Lemma debug_map_roundtrip_witness :
  bucc_debug_map_load (bucc_debug_map_save (MkDebugMap (Some (lit "a.bucc")) [(0, 1, 5); (7, 3, 2)]))
    = Some (MkDebugMap (Some (lit "a.bucc")) [(0, 1, 5); (7, 3, 2)]) ∧
  bucc_debug_map_get_line (MkDebugMap (Some (lit "a.bucc")) [(0, 1, 5); (7, 3, 2)]) 9 = 3.
Proof.
  destruct (debug_map_roundtrip (Some (lit "a.bucc")) [(0, 1, 5); (7, 3, 2)]) as [H1 H2].
  - intros s [= <-]. split; [done |]. split; [by apply (bool_decide_unpack _); vm_compute | done].
  - repeat constructor; cbn; done.
  - done.
  - repeat constructor; cbn; lia.
  - split; [exact H1 | rewrite H2; by vm_compute].
Defined.
