(* ===== verification/Compiler.v ===== *)
(** The compiler of Buccaneer sources (src/buccaneer/tools/bucc.c): the passes of
    [Parser], [Semantic] and [Emit] in a row. What the module of a source is, what
    it can do, and what the capability check does not see. *)

From S2P Require Import Prelude CLib Float Lexer Value Vm VmSpec Ast Semantic SemanticSpec.
From S2P Require Import Emit EmitSpec EmitInv EmitJumps EmitDefects ModuleFile ModuleVerify.
From S2P Require Import Parser ParserSpec ParserTrees.

#[local] Open Scope Z_scope.

(** What the compiler makes of a source with [n] fuel for the parser: nothing
    when it runs out, [inl] the diagnostics of the first pass with errors, [inr]
    the module. The lexer and the parser report errors only, so there are none
    when the analysis starts. The file gets the number that a fresh list of
    diagnostics gives it.
    src/buccaneer/tools/bucc.c:100-194 (compile_source) *)
Definition compile_source (n : nat) (source : cstr) : option (list cstr + bucc_module) :=
  match bucc_parse_module n (bucc_parser_init (bucc_lexer_init source 1 [])) with
  | None => None
  | Some (ast, p) => Some (
      if bool_decide (diag (lex p) ≠ []) then inl (snd <$> diag (lex p)) else
      let '(_, sem) := bucc_semantic_analyze ast (bucc_semantic_new []) in
      if has_errors sem then inl (snd <$> sem_diag sem) else
      let '(_, e) := bucc_emit_module (scopes sem) (proc_nodes ast) (bucc_emitter_new []) in
      if bool_decide (diags e ≠ []) then inl (diags e) else inr (emitter_module e))
  end.

(** ** Sources that compile *)

(** [m] is the tree of a source whose module is [md]. *)
Record compiles_to (n : nat) (source : cstr) (m : module_node) (md : bucc_module) : Prop := {
  ct_parsed : ∃ p, bucc_parse_module n (bucc_parser_init (bucc_lexer_init source 1 [])) = Some (m, p) ∧
    diag (lex p) = [];
  ct_accepted : fst (bucc_semantic_analyze m (bucc_semantic_new [])) = true;
  ct_module : md = compiled m
}.

Lemma compile_source_inr n source md :
  compile_source n source = Some (inr md) → ∃ m, compiles_to n source m md.
Proof.
  unfold compile_source. destruct (bucc_parse_module _ _) as [[m p] |] eqn:Ep; [| done].
  intros E%(inj Some). exists m. case_bool_decide as Ed; [done |].
  destruct (bucc_semantic_analyze m (bucc_semantic_new [])) as [ok sem] eqn:Es.
  assert (Hs : sem = analyzed m) by (unfold analyzed; by rewrite Es).
  cbv beta iota in E. destruct (has_errors sem) eqn:He; [done |].
  destruct (bucc_emit_module _ _ _) as [b e] eqn:Ee. case_bool_decide; [done |]. injection E as <-.
  split.
  - exists p. split; [done |]. destruct (diag (lex p)); [done |]. by destruct Ed.
  - change (fst (bucc_semantic_analyze m (bucc_semantic_new []))) with (negb (has_errors (analyzed m))).
    by rewrite <- Hs, He.
  - unfold compiled. by rewrite <- Hs, Ee.
Qed.

Lemma define_main name k t s : has_main (define name k t s) = has_main s.
Proof. unfold define, set_top. destruct name; [| done]. by destruct (scopes s). Qed.

Lemma main_declared ps : ∀ s,
  has_main (fold_left (λ s p, declare_procedure p s) ps s) = true →
  has_main s = true ∨ ∃ p, p ∈ ps ∧ same_name (decl_name p) (lit "Main") = true.
Proof.
  induction ps as [|p ps IH]; intros s H; cbn [fold_left] in H; [by left |].
  apply IH in H as [H | (q & Hq & Hn)]; [| right; exists q; split; [by right | done]].
  assert (E : has_main (declare_procedure p s) =
    has_main s || (negb (decl_is_function p) && same_name (decl_name p) (lit "Main"))).
  { unfold declare_procedure. destruct (lookup_local _ _); [done |].
    destruct (decl_is_function p); cbn [set_counts has_main]; by rewrite define_main. }
  rewrite E in H. apply orb_true_iff in H as [H | [_ H]%andb_true_iff]; [by left |].
  right. exists p. split; [by left | done].
Qed.

Lemma accepted_main m : fst (bucc_semantic_analyze m (bucc_semantic_new [])) = true →
  ∃ p, p ∈ proc_nodes m ∧ same_name (decl_name p) (lit "Main") = true.
Proof.
  unfold bucc_semantic_analyze. cbn [fst]. intros Hs%negb_true_iff.
  assert (He : steps_to (λ s, fold_left (λ s p, analyze_procedure p s) (proc_nodes m) s)).
  { apply (step_fold (λ s p, analyze_procedure p s)). apply Forall_forall. intros p _ s. apply analyze_procedure_step. }
  apply (errors_grow _ _ (He _)) in Hs.
  match type of Hs with has_errors (err_if _ _ ?s) = false => set (s1 := s) in Hs end.
  destruct (has_main s1) eqn:Hm.
  - apply main_declared in Hm as [Hm | Hm]; [| exact Hm]. exfalso.
    clear -Hm. revert Hm.
    assert (Hg : ∀ ds s, has_main (fold_left (λ s d, declare_global d s) ds s) = has_main s).
    { induction ds as [|d ds IH]; intros s; cbn [fold_left]; [done |]. rewrite IH. apply define_main. }
    rewrite Hg.
    assert (Hd : ∀ ms s, has_main (fold_left (λ s d, declare_meta d s) ms s) = has_main s).
    { induction ms as [|d ms IH]; intros s; cbn [fold_left]; [done |]. rewrite IH.
      destruct d; try done. cbn. unfold bucc_semantic_declare_capability. cbn. by case_match. }
    by rewrite Hd.
  - cbn [negb err_if] in Hs. unfold has_errors, err, report in Hs. cbn in Hs.
    rewrite existsb_app, orb_true_r in Hs. done.
Qed.

(** C4. What a source that compiles is. Its module is the one of a tree in which
    every node is there and no assignment occurs; it has a procedure Main; the
    source declares every capability that it needs, but for the bounds of ranges;
    and if it has no array or map literal, no CHAIN and no odd host call, and
    under 2 GB of code, the module passes the verifier. *)
Theorem compiled_sources n source md :
  compile_source n source = Some (inr md) →
  ∃ m, compiles_to n source m md ∧ whole_module m ∧ all decl_no_assign (proc_nodes m) ∧
    bucc_module_get_main md ≠ None ∧
    (∀ cap, cap ∈ module_needs m → ∃ c, MetaCapability c ∈ meta m ∧ same_name c cap = true) ∧
    (all plain_proc (proc_nodes m) → zlen (code (emitted m)) < 2 ^ 31 →
      bucc_module_verify md = Some (inr tt)).
Proof.
  intros H. apply compile_source_inr in H as (m & H). pose proof H as [(p & Ep & Ed) Ha ->].
  pose proof (accepted_main m Ha) as Hmain. exists m. split; [exact H |].
  split.
  { destruct (module_whole n _ _ _ (parser_of_running source) Ep) as (_ & _ & [He | Hw]); [| exact Hw].
    by rewrite (parsed_without_diag n source m p Ep Ed : had_error p = false) in He. }
  split; [by eapply module_no_assign |]. split; [by apply compiled_main |].
  split; [intros cap; by apply module_needs_declared |]. by apply compiled_verified.
Qed.

(** ** Sources, compiled and run *)

(** The module that a source compiles to, if it does. *)
Definition module_of (source : cstr) : option bucc_module :=
  match compile_source 60 source with Some (inr md) => Some md | _ => None end.

(** How the call of a procedure of the module of a source ends. *)
Definition run_source (source name : cstr) : option (list value * status * list value) :=
  md ← module_of source;
  match bucc_vm_call (image md) (λ _, 0) None name [] (bucc_vm_new []) with
  | Finished m => Some (stack m, stat m, globals m)
  | _ => None
  end.

Definition answer_source : cstr := lines [
  lit "FUNCTION Answer() AS INTEGER"; lit "IF 2 * 3 = 6 THEN"; lit "RETURN (2 + 4) * 7"; lit "END IF";
  lit "END FUNCTION"; lit "SUB Main()"; lit "END SUB"].

Definition answer_tree : module_node :=
  match bucc_parse_module 60 (parser_of answer_source) with Some (m, _) => m | None => program [] [] end.

Lemma compiled_sources_witness :
  run_source answer_source (lit "Answer") = Some ([VI64 42], VM_HALT, []) ∧
  ∃ md, module_of answer_source = Some md ∧
    ∃ m, compiles_to 60 answer_source m md ∧ whole_module m ∧ all decl_no_assign (proc_nodes m) ∧
      bucc_module_get_main md ≠ None ∧
      (∀ cap, cap ∈ module_needs m → ∃ c, MetaCapability c ∈ meta m ∧ same_name c cap = true) ∧
      (all plain_proc (proc_nodes m) → zlen (code (emitted m)) < 2 ^ 31 →
        bucc_module_verify md = Some (inr tt)).
Proof.
  split; [vm_compute; reflexivity |]. exists (compiled answer_tree).
  split; [vm_compute; reflexivity |].
  apply (compiled_sources 60 answer_source (compiled answer_tree)). vm_compute. reflexivity.
Defined.

(** [SELECT CASE 1 : CASE TERM.GETKEY() TO 5] in Main. *)
Definition range_call_source : cstr := lines [
  lit "SUB Main()"; lit "SELECT CASE 1"; lit "CASE TERM.GETKEY() TO 5"; lit "END SELECT"; lit "END SUB"].

Definition plain_call_source : cstr := lines [lit "SUB Main()"; lit "TERM.GETKEY()"; lit "END SUB"].

Definition range_call_module : bucc_module :=
  match module_of range_call_source with Some md => md | None => compiled (program [] []) end.

(** The capability check can be passed by. The bounds of a range of a CASE are
    not analysed: a source without any CAPABILITY that calls TERM.GETKEY there
    compiles to a module that the verifier accepts and that imports the host
    function, which needs the capability term.io. The same call as a statement is
    refused. *)
Theorem capability_bypass :
  compile_source 60 range_call_source = Some (inr range_call_module) ∧
  (∃ m, compiles_to 60 range_call_source m range_call_module ∧ meta m = []) ∧
  bucc_module_verify range_call_module = Some (inr tt) ∧
  ((λ i, (mi_ns i, mi_fn i)) <$> m_imports range_call_module) =
    [(Some (lit "TERM"), Some (lit "GETKEY"))] ∧
  get_host_capability (lit "TERM") (lit "GETKEY") = Some (lit "term.io") ∧
  compile_source 60 plain_call_source = Some (inl [lit "capability 'term.io' not declared"]).
Proof.
  assert (E : compile_source 60 range_call_source = Some (inr range_call_module))
    by (vm_compute; reflexivity).
  split; [exact E |]. split; [| split_and!; vm_compute; reflexivity].
  apply compile_source_inr in E as (m & H). exists m. split; [exact H |].
  destruct H as [(p & Ep & _) _ _].
  assert (Em : meta ∘ fst <$> bucc_parse_module 60 (parser_of range_call_source) = Some [])
    by (vm_compute; reflexivity).
  unfold parser_of in Em. rewrite Ep in Em. by injection Em.
Qed.

(** [DIM g AS INTEGER = 41], and Main assigns 5 to it. *)
Definition store_source : cstr := lines [
  lit "DIM g AS INTEGER = 41"; lit "FUNCTION Get() AS INTEGER"; lit "RETURN g"; lit "END FUNCTION";
  lit "SUB Main()"; lit "g = 5"; lit "END SUB"].

(** Global variables keep nothing. A source that initializes a global variable
    and assigns to it compiles without an error; the assignment is a comparison
    whose result is dropped, and no code is made for the initializer: when Main
    returns no variable has been stored, and a function that returns the variable
    returns null. *)
Theorem globals_are_not_stored :
  run_source store_source (lit "Main") = Some ([], VM_HALT, []) ∧
  run_source store_source (lit "Get") = Some ([VNull], VM_HALT, []).
Proof. split; vm_compute; reflexivity. Qed.
