(* ===== verification/Mci.v ===== *)
(** The MCI codes of menus, prompts and bulletins (src/mci.c): colours, user and
    system codes, the percent codes and conditionals. A code is looked up at the
    front of the text; the loop of [mci_expand] appends what it stands for when
    the buffer has room. [Undefined] is C's undefined behaviour, in an age or a
    condition. Texts are shorter than [INT_MAX], so that the precisions of
    [snprintf] are the lengths. *)

From S2P Require Import Prelude CLib Acs.

#[local] Open Scope Z_scope.

(** ** What codes show *)

(** The counts and names the codes ask the database for; an area is its name. *)
Record MciDb : Type := MkMciDb {
  db_stats_get_val : cstr → Z;
  db_count_users : Z;
  db_count_files : Z;
  db_count_messages : Z;
  db_node_list : Z → Z;
  db_msg_area_get : Z → option cstr;
  db_file_area_get : Z → option cstr;
  db_count_messages_area : Z → Z;
  db_count_files_area : Z → Z
}.

(** The user's fields that access control does not look at.
    include/bbs_db.h:35-94 (DbUser) *)
Record Profile : Type := MkProfile {
  handle : cstr;
  real_name : cstr;
  city_state : cstr;
  street : cstr;
  zip_code : cstr;
  phone : cstr;
  first_on : cstr;
  last_login_at : cstr;
  t_time_on : Z;
  timebank : Z;
  dk : Z;
  uk : Z;
  email_sent : Z;
  feedback : Z;
  file_points : Z;
  color_scheme : Z
}.

(** A session: the part that conditions look at, the rest of its user, its areas
    and the board's names. *)
Record MciSession : Type := MkMciSession {
  acs_part : Session;
  profile : Profile;
  current_msg_area : Z;
  current_file_area : Z;
  cfg_bbs_name : cstr;
  cfg_sysop_name : cstr;
  mci_db : MciDb
}.

(** ** Colours *)

(** An escape sequence [ESC \[ ...]. *)
Definition esc (t : cstr) : cstr := 27 :: ch "[" :: t.

(** src/mci.c:9-26 (ansi_colors) *)
Definition ansi_colors : list cstr :=
  map esc
    [lit "0;30m"; lit "0;34m"; lit "0;32m"; lit "0;36m"; lit "0;31m"; lit "0;35m"; lit "0;33m"; lit "0;37m";
     lit "1;30m"; lit "1;34m"; lit "1;32m"; lit "1;36m"; lit "1;31m"; lit "1;35m"; lit "1;33m"; lit "1;37m"].

(** src/mci.c:41-58 (color_scheme_table) *)
Definition color_scheme_table : list (list Z) :=
  [[10; 2; 7; 8; 14; 12; 10; 15; 2; 11];
   [9; 1; 7; 8; 14; 12; 2; 15; 1; 11];
   [14; 6; 7; 8; 15; 12; 14; 15; 6; 14];
   [11; 3; 7; 8; 15; 12; 10; 15; 3; 11];
   [12; 4; 7; 8; 14; 5; 10; 15; 4; 12];
   [13; 5; 7; 8; 15; 12; 10; 15; 5; 13];
   [7; 8; 7; 8; 15; 15; 7; 15; 8; 7];
   [15; 7; 15; 8; 14; 12; 10; 15; 8; 11]].

Definition NUM_COLOR_SCHEMES : Z := 8.

(** src/mci.c:60-63 (color_scheme_names) *)
Definition color_scheme_names : list cstr :=
  [lit "Mutineer Green"; lit "Classic Blue"; lit "Amber"; lit "Cyan";
   lit "Red Sunset"; lit "Magenta"; lit "Monochrome"; lit "Bright White"].

(** Reading a table at an [int] index; out of range the C program reads outside
    the array. *)
Definition at_index {A} (l : list A) (i : Z) : option A :=
  if i <? 0 then None else l !! Z.to_nat i.

(** The sequence of an accent of a scheme. *)
Definition scheme_color (scheme_id color_idx : Z) : option cstr :=
  row ← at_index color_scheme_table scheme_id;
  actual_color ← at_index row color_idx;
  at_index ansi_colors actual_color.

(** ** Codes *)

(** What a code stands for. *)
Inductive code : Type :=
  | NoCode
  | Put (t : cstr)
  | Undefined.

Definition put_opt (t : option cstr) : code :=
  match t with Some t => Put t | None => Undefined end.

Definition put_int (z : Z) : code := Put (fmt_d z).

(** The code's two letters are these. *)
Definition is_code (c1 c2 : Z) (a b : ascii) : bool := (c1 =? ch a) && (c2 =? ch b).
Arguments is_code _ _ a%_char b%_char.

Section mci.
Context (clk : Clock) (tm_min : Z).

(** The same function as [calc_age] of acs.c, of which this file has a copy.
    src/mci.c:81-95 (calc_user_age) *)
Definition calc_user_age (birth_date : cstr) : option Z :=
  if bool_decide (birth_date = []) then Some 0
  else match scan_ds [ch "-"; ch "-"] birth_date with
  | ([by_; bm; bd], _) =>
      let cy := tm_year clk + 1900 in
      let cm := tm_mon clk + 1 in
      let cd := tm_mday clk in
      age ← int_ok (cy - by_);
      if (cm <? bm) || ((cm =? bm) && (cd <? bd)) then int_ok (age - 1) else Some age
  | _ => Some 0
  end.

(** [strftime] into [char buf[16]]: what does not fit leaves the buffer
    undefined. *)
Definition strftime16 (t : cstr) : option cstr :=
  if (length t <? 16)%nat then Some t else None.

(** [%Y-%m-%d] and [%H:%M]; src/mci.c:318-324 (mci_expand) *)
Definition date_text : option cstr :=
  strftime16 (fmt_d (tm_year clk + 1900) ++ ch "-" :: fmt_0d 2 (tm_mon clk + 1)
    ++ ch "-" :: fmt_0d 2 (tm_mday clk)).

(** src/mci.c:325-331 (mci_expand) *)
Definition time_text : option cstr :=
  strftime16 (fmt_0d 2 (tm_hour clk) ++ ch ":" :: fmt_0d 2 tm_min).

(** The letters of the flags that are set; 26 letters fit the buffer of 32.
    src/mci.c:348-358 (mci_expand) *)
Definition flags_text (flags : Z) : cstr :=
  filter (λ c, has_flag flags c) (seqZ (ch "A") 26).

Context (s : option MciSession).

(** [s ? f(s) : d] *)
Definition of_session {A} (d : A) (f : MciSession → A) : A :=
  match s with Some s => f s | None => d end.

Definition str_of (f : Profile → cstr) : code := Put (of_session [] (λ s, f (profile s))).
Definition int_of (f : MciSession → Z) : code := put_int (of_session 0 f).
Definition user_int (f : DbUser → Z) : code := int_of (λ s, f (user (acs_part s))).
Definition profile_int (f : Profile → Z) : code := int_of (λ s, f (profile s)).
Definition db_int (f : MciDb → Z) : code := int_of (λ s, f (mci_db s)).

(** src/mci.c:334-347 (mci_expand) *)
Definition area_name : cstr :=
  match s with
  | Some s =>
      if 0 <? current_msg_area s then default [] (db_msg_area_get (mci_db s) (current_msg_area s))
      else if 0 <? current_file_area s then
        default [] (db_file_area_get (mci_db s) (current_file_area s))
      else []
  | None => []
  end.

(** src/mci.c:159-359 (mci_expand) *)
Definition tilde_code (c1 c2 : Z) : code :=
  if is_code c1 c2 "U" "N" then str_of handle
  else if is_code c1 c2 "R" "N" then str_of real_name
  else if is_code c1 c2 "U" "#" then user_int id
  else if is_code c1 c2 "A" "G" then
    match of_session (Some 0) (λ s, calc_user_age (birth_date (user (acs_part s)))) with
    | Some age => put_int age
    | None => Undefined
    end
  else if is_code c1 c2 "B" "D" then Put (of_session [] (λ s, birth_date (user (acs_part s))))
  else if is_code c1 c2 "S" "X" then
    Put (c_string [of_session (ch "U") (λ s, sex (user (acs_part s)))])
  else if is_code c1 c2 "C" "T" then str_of city_state
  else if is_code c1 c2 "S" "T" then str_of street
  else if is_code c1 c2 "Z" "P" then str_of zip_code
  else if is_code c1 c2 "P" "H" then str_of phone
  else if is_code c1 c2 "F" "O" then str_of first_on
  else if is_code c1 c2 "L" "O" then str_of last_login_at
  else if is_code c1 c2 "T" "T" then profile_int t_time_on
  else if is_code c1 c2 "T" "L" then int_of (λ s, time_left_min (acs_part s))
  else if is_code c1 c2 "T" "B" then profile_int timebank
  else if is_code c1 c2 "S" "L" then user_int level
  else if is_code c1 c2 "D" "L" then user_int downloads
  else if is_code c1 c2 "U" "L" then user_int uploads
  else if is_code c1 c2 "D" "K" then profile_int dk
  else if is_code c1 c2 "U" "K" then profile_int uk
  else if is_code c1 c2 "M" "P" then user_int msg_post
  else if is_code c1 c2 "E" "S" then profile_int email_sent
  else if is_code c1 c2 "F" "B" then profile_int feedback
  else if is_code c1 c2 "C" "R" then user_int credits
  else if is_code c1 c2 "F" "P" then profile_int file_points
  else if is_code c1 c2 "L" "G" then user_int logged_on
  else if is_code c1 c2 "N" "N" then int_of (λ s, node_num (acs_part s))
  else if is_code c1 c2 "B" "N" then Put (of_session (lit "Mutineer BBS") cfg_bbs_name)
  else if is_code c1 c2 "S" "N" then Put (of_session (lit "Sysop") cfg_sysop_name)
  else if is_code c1 c2 "B" "P" then Put (lit "N/A")
  else if is_code c1 c2 "T" "C" then db_int (λ d, db_stats_get_val d (lit "calls"))
  else if is_code c1 c2 "N" "U" then db_int db_count_users
  else if is_code c1 c2 "N" "F" then db_int db_count_files
  else if is_code c1 c2 "N" "M" then db_int db_count_messages
  else if is_code c1 c2 "N" "O" then db_int (λ d, db_node_list d 64)
  else if is_code c1 c2 "V" "R" then Put (lit "Mutineer 1.0")
  else if is_code c1 c2 "D" "A" then put_opt date_text
  else if is_code c1 c2 "T" "M" then put_opt time_text
  else if is_code c1 c2 "A" "N" then Put area_name
  else if is_code c1 c2 "A" "R" then Put (of_session [] (λ s, flags_text (flags (user (acs_part s)))))
  else NoCode.

(** The percent codes of two letters.
    src/mci.c:361-464 (mci_expand) *)
Definition percent_code (c1 c2 : Z) : code :=
  if is_code c1 c2 "N" "L" then Put []
  else if is_code c1 c2 "P" "E" then Put ([13; 10] ++ lit "(press ENTER)" ++ [13; 10])
  else if is_code c1 c2 "U" "N" then str_of handle
  else if is_code c1 c2 "T" "I" then int_of (λ s, time_left_min (acs_part s))
  else if is_code c1 c2 "N" "N" then int_of (λ s, node_num (acs_part s))
  else if is_code c1 c2 "D" "A" then put_opt date_text
  else if is_code c1 c2 "T" "M" then put_opt time_text
  else if is_code c1 c2 "P" "O" then user_int msg_post
  else if is_code c1 c2 "M" "T" then db_int db_count_messages
  else if is_code c1 c2 "F" "T" then db_int db_count_files
  else if is_code c1 c2 "T" "L" then int_of (λ s, time_left_min (acs_part s))
  else if is_code c1 c2 "C" "R" then user_int credits
  else if is_code c1 c2 "F" "P" then profile_int file_points
  else if is_code c1 c2 "S" "L" then user_int level
  else if is_code c1 c2 "M" "A" then
    int_of (λ s, if 0 <? current_msg_area s
                 then db_count_messages_area (mci_db s) (current_msg_area s)
                 else db_count_messages (mci_db s))
  else if is_code c1 c2 "F" "A" then
    int_of (λ s, if 0 <? current_file_area s
                 then db_count_files_area (mci_db s) (current_file_area s)
                 else db_count_files (mci_db s))
  else if is_code c1 c2 "N" "O" then db_int (λ d, db_node_list d 64)
  else if is_code c1 c2 "A" "R" then Put (of_session [] (λ s, flags_text (flags (user (acs_part s)))))
  else NoCode.

(** One round of the loop: a text for [append_str] or a character, and where the
    loop goes on. *)
Inductive step : Type :=
  | Piece (t : cstr) (rest : cstr)
  | Char (c : Z) (rest : cstr)
  | Fault.

Definition step_code (k : code) (rest : cstr) (otherwise : step) : step :=
  match k with Put t => Piece t rest | Undefined => Fault | NoCode => otherwise end.

(** The two alternatives of a conditional's body.
    src/mci.c:474-481 (mci_expand) *)
Definition branches (body : cstr) : cstr * cstr :=
  match cut (ch "|") body with
  | Some (t, e) => (take 127 t, take 127 e)
  | None => (take 127 body, [])
  end.

(** [%?ACS{then|else}]; [start] is the text after the question mark.
    src/mci.c:465-487 (mci_expand) *)
Definition conditional (start : cstr) (otherwise : step) : step :=
  match cut (ch "{") start with
  | None => otherwise
  | Some (expr, b) =>
      match cut (ch "}") b with
      | None => otherwise
      | Some (body, rest) =>
          let '(thenp, elsep) := branches (take 255 body) in
          match acs_allows clk (acs_part <$> s) (take 127 expr) with
          | Some cond => Piece (if cond then thenp else elsep) rest
          | None => Fault
          end
      end
  end.

(** [~L#]: one or two digits, and the text after them.
    src/mci.c:113-126 (mci_expand) *)
Definition foreground (d : Z) (p : cstr) : step :=
  let '(color, rest) :=
    if isdigit (char_at p 0) then ((d - 48) * 10 + (char_at p 0 - 48), drop 1 p) else (d - 48, p) in
  Piece (default [] (at_index ansi_colors color)) rest.

(** [~B#]; src/mci.c:128-138 (mci_expand) *)
Definition background (d : Z) (rest : cstr) : step :=
  let color := d - 48 in
  Piece (if color <=? 7 then esc (fmt_d (40 + color) ++ lit "m") else []) rest.

(** Codes that begin with a tilde; [r] is what follows the tilde.
    src/mci.c:113-162 (mci_expand) *)
Definition tilde (r : cstr) (otherwise : step) : step :=
  let c1 := char_at r 0 in
  let c2 := char_at r 1 in
  let rest := drop 2 r in
  if (c1 =? ch "L") && isdigit c2 then foreground c2 rest
  else if (c1 =? ch "B") && isdigit c2 then background c2 rest
  else if (c1 =? ch "K") && ((c2 =? ch "0") || (c2 =? ch "1")) then
    Piece (esc (if c2 =? ch "1" then lit "5m" else lit "25m")) rest
  else if (c1 =? ch "R") && (c2 =? ch "S") then Piece (esc (lit "0m")) rest
  else if (c1 =? 0) || (c2 =? 0) then otherwise
  else step_code (tilde_code c1 c2) rest otherwise.

(** Codes that begin with a percent sign.
    src/mci.c:361-365 (mci_expand) *)
Definition percent (r : cstr) (otherwise : step) : step :=
  let c1 := char_at r 0 in
  let c2 := char_at r 1 in
  if c1 =? 0 then otherwise
  else if c1 =? ch "?" then conditional (drop 1 r) otherwise
  else step_code (percent_code c1 c2) (drop 2 r) otherwise.

(** [^0] to [^9]; src/mci.c:102-111 (mci_expand) *)
Definition caret (r : cstr) (otherwise : step) : step :=
  let d := char_at r 0 in
  if (ch "0" <=? d) && (d <=? ch "9") then
    let scheme_id := of_session 0 (λ s, color_scheme (profile s)) in
    let scheme_id := if (scheme_id <? 0) || (NUM_COLOR_SCHEMES <=? scheme_id) then 0 else scheme_id in
    match scheme_color scheme_id (d - 48) with
    | Some t => Piece t (drop 1 r)
    | None => Fault
    end
  else otherwise.

(** The body of the loop at a character and what follows it.
    src/mci.c:102-490 (mci_expand) *)
Definition mci_step (c : Z) (r : cstr) : step :=
  let copy := Char c r in
  if c =? ch "^" then caret r copy
  else if c =? ch "~" then tilde r copy
  else if c =? ch "%" then percent r copy
  else copy.

(** src/mci.c:65-73 (append_str) *)
Definition append_str (out : cstr) (cap : nat) (str : cstr) : cstr :=
  if (length out + length str <? cap)%nat then out ++ str else out.

(** src/mci.c:97-494 (mci_expand) *)
Fixpoint expand_loop (fuel : nat) (cap : nat) (out p : cstr) : option cstr :=
  match fuel, p with
  | O, _ => None
  | S _, [] => Some out
  | S fuel, c :: r =>
      if (length out + 1 <? cap)%nat then
        match mci_step c r with
        | Piece t rest => expand_loop fuel cap (append_str out cap t) rest
        | Char c rest => expand_loop fuel cap (out ++ [c]) rest
        | Fault => None
        end
      else Some out
  end.

(** The text left in the buffer, whose length is returned.
    src/mci.c:97-494 (mci_expand) *)
Definition mci_expand (p : cstr) (cap : nat) : option cstr :=
  match cap with
  | O => Some []
  | S _ => expand_loop (S (length p)) cap [] p
  end.

End mci.

(** ** Colour schemes *)

(** src/mci.c:496-499 (mci_scheme_name) *)
Definition mci_scheme_name (scheme_id : Z) : option cstr :=
  if (scheme_id <? 0) || (NUM_COLOR_SCHEMES <=? scheme_id) then None
  else at_index color_scheme_names scheme_id.

(** [%-16s] *)
Definition pad_right (n : nat) (t : cstr) : cstr := t ++ replicate (n - length t) 32.

(** The buffer after the call: [None] is an unchanged buffer.
    src/mci.c:501-512 (mci_scheme_preview) *)
Definition mci_scheme_preview (label : cstr) (scheme_id : Z) (cap : nat) : option cstr :=
  if (scheme_id <? 0) || (NUM_COLOR_SCHEMES <=? scheme_id) || (cap <? 64)%nat then None
  else
    let reset := esc (lit "0m") in
    let color i := default [] (scheme_color scheme_id i) in
    let sample i := color i ++ ch "^" :: fmt_d i ++ reset in
    Some (take (cap - 1)
      (color 8 ++ label ++ ch "[" :: fmt_d scheme_id ++ lit "] "
       ++ pad_right 16 (default [] (at_index color_scheme_names scheme_id)) ++ reset ++ lit " "
       ++ sample 0 ++ lit " " ++ sample 1 ++ lit " " ++ sample 2 ++ lit " "
       ++ sample 4 ++ lit " " ++ sample 6 ++ reset)).
