(* ===== verification/MciSpec.v ===== *)
(** What [mci_expand] makes of a text: it always finishes within the buffer and
    appends the meanings of the codes whole; a template of documented codes is
    rendered as the concatenation of their meanings, conditionals by the truth
    of their access-control expressions. And a condition longer than its buffer
    is evaluated without its end. *)

From S2P Require Import Prelude CLib Acs AcsSpec Mci.

#[local] Open Scope Z_scope.

(** ** Codes are defined *)

(** What [localtime] gives in the years 0 to 9999. *)
Definition civil (clk : Clock) (tm_min : Z) : Prop :=
  0 <= tm_year clk + 1900 < 10000 ∧ 0 <= tm_mon clk < 12 ∧ 1 <= tm_mday clk <= 31 ∧
  0 <= tm_hour clk < 24 ∧ 0 <= tm_min < 60.

Lemma forall_below (P : Z → bool) n z :
  forallb P (seqZ 0 n) = true → 0 <= z < n → P z = true.
Proof.
  rewrite forallb_forall. intros H Hz. apply H, list_elem_of_In, elem_of_seqZ. lia.
Qed.

Lemma two_digits z : 0 <= z < 100 → length (fmt_0d 2 z) = 2%nat.
Proof.
  intros Hz. apply Nat.eqb_eq.
  by apply (forall_below (λ z, (length (fmt_0d 2 z) =? 2)%nat) 100).
Qed.

Lemma four_digits z : 0 <= z < 10000 → (length (fmt_d z) <= 4)%nat.
Proof.
  intros Hz. apply Nat.leb_le.
  apply (forall_below (λ z, (length (fmt_d z) <=? 4)%nat) 10000); [by vm_compute | done].
Qed.

Lemma strftime16_short t : (length t < 16)%nat → strftime16 t = Some t.
Proof. intros H. unfold strftime16. by apply Nat.ltb_lt in H as ->. Qed.

Lemma date_text_some clk m : civil clk m → is_Some (date_text clk).
Proof.
  intros (Hy & Hm & Hd & _). unfold date_text. rewrite strftime16_short; [by eexists |].
  rewrite !length_app. cbn [length]. rewrite length_app. cbn [length].
  rewrite !two_digits by lia. pose proof (four_digits _ Hy). lia.
Qed.

Lemma time_text_some clk m : civil clk m → is_Some (time_text clk m).
Proof.
  intros (_ & _ & _ & Hh & Hm). unfold time_text. rewrite strftime16_short; [by eexists |].
  rewrite !length_app. cbn [length]. rewrite !two_digits by lia. lia.
Qed.

Section spec.
Context (clk : Clock) (tm_min : Z) (s : option MciSession).

Abbreviation step_at := (mci_step clk tm_min s).
Abbreviation expand := (mci_expand clk tm_min s).

(** Nothing a code computes is undefined. *)
Definition mci_defined : Prop := defined clk (acs_part <$> s) ∧ civil clk tm_min.

Lemma calc_user_age_calc_age b : calc_user_age clk b = calc_age clk b.
Proof. reflexivity. Qed.

Lemma tilde_code_defined c1 c2 : mci_defined → tilde_code clk tm_min s c1 c2 ≠ Undefined.
Proof.
  intros [Hs Hc]. unfold tilde_code, str_of, user_int, profile_int, db_int, int_of, put_int.
  destruct (date_text_some _ _ Hc) as [? ->], (time_text_some _ _ Hc) as [? ->].
  assert (is_Some (of_session s (Some 0) (λ s, calc_user_age clk (birth_date (user (acs_part s))))))
    as [age ->].
  { destruct s as [s' |]; cbn in *; [apply Hs | by eexists]. }
  repeat case_match; discriminate.
Qed.

Lemma percent_code_defined c1 c2 : mci_defined → percent_code clk tm_min s c1 c2 ≠ Undefined.
Proof.
  intros [Hs Hc]. unfold percent_code, str_of, user_int, profile_int, db_int, int_of, put_int.
  destruct (date_text_some _ _ Hc) as [? ->], (time_text_some _ _ Hc) as [? ->].
  repeat case_match; discriminate.
Qed.

(** ** Every round goes on, further down the text *)

Definition advances (p : cstr) (st : step) : Prop :=
  match st with
  | Piece _ rest | Char _ rest => (length rest < length p)%nat
  | Fault => False
  end.

Lemma step_code_advances p k rest otherwise :
  k ≠ Undefined → (length rest < length p)%nat → advances p otherwise →
  advances p (step_code k rest otherwise).
Proof. by destruct k. Qed.

Lemma char_at_length p i : char_at p i ≠ 0 → (i < length p)%nat.
Proof.
  unfold char_at. intros H. apply lookup_lt_is_Some.
  destruct (p !! i); [by eexists | done].
Qed.

Lemma scheme_color_some id i :
  0 <= id < 8 → 0 <= i <= 9 → is_Some (scheme_color id i).
Proof.
  intros Hid Hi.
  assert (forallb (λ id, forallb (λ i, bool_decide (is_Some (scheme_color id i))) (seqZ 0 10))
            (seqZ 0 8) = true) as H by by vm_compute.
  apply (forall_below _ _ id) in H; [| lia].
  apply (forall_below _ _ i) in H; [| lia]. by apply bool_decide_eq_true in H.
Qed.

Lemma conditional_advances p start otherwise :
  mci_defined → (length start < length p)%nat → advances p otherwise →
  advances p (conditional clk s start otherwise).
Proof.
  intros [Hs _] Hp Ho. unfold conditional.
  destruct (cut (ch "{") start) as [[e b] |] eqn:E1; [| done].
  destruct (cut (ch "}") b) as [[body rest] |] eqn:E2; [| done].
  apply cut_sound in E1 as [-> _], E2 as [-> _].
  destruct (branches (take 255 body)) as [t e'].
  destruct (acs_allows_total clk (acs_part <$> s) (take 127 e) Hs) as [v ->]. cbn.
  rewrite !length_app in Hp. cbn [length] in Hp. rewrite length_app in Hp. cbn [length] in Hp. lia.
Qed.

Lemma foreground_advances p d q :
  (length q < length p)%nat → advances p (foreground d q).
Proof. unfold foreground. destruct (isdigit _); cbn [advances]; rewrite ?length_drop; lia. Qed.

Lemma tilde_advances p r otherwise :
  mci_defined → p = ch "~" :: r → advances p otherwise → advances p (tilde clk tm_min s r otherwise).
Proof.
  intros Hd -> Ho. unfold tilde.
  assert (length (drop 2 r) < length (ch "~" :: r))%nat by (cbn; rewrite length_drop; lia).
  repeat case_match; try done; first [by apply foreground_advances | apply step_code_advances];
    auto using tilde_code_defined.
Qed.

Lemma percent_advances p r otherwise :
  mci_defined → p = ch "%" :: r → advances p otherwise → advances p (percent clk tm_min s r otherwise).
Proof.
  intros Hd -> Ho. unfold percent.
  assert (∀ n, length (drop n r) < length (ch "%" :: r))%nat by (cbn; intros; rewrite length_drop; lia).
  repeat case_match; try done;
    [apply conditional_advances | apply step_code_advances]; auto using percent_code_defined.
Qed.

Lemma caret_advances p r otherwise :
  p = ch "^" :: r → advances p otherwise → advances p (caret s r otherwise).
Proof.
  intros -> Ho. unfold caret. chars. set (sid := of_session s 0 _). cbn zeta.
  destruct ((48 <=? char_at r 0) && (char_at r 0 <=? 57)) eqn:Hd; [| done].
  destruct (scheme_color_some
    (if (sid <? 0) || (NUM_COLOR_SCHEMES <=? sid) then 0 else sid) (char_at r 0 - 48)) as [t ->].
  - unfold NUM_COLOR_SCHEMES. destruct ((sid <? 0) || (8 <=? sid)) eqn:?; lia.
  - lia.
  - cbn [advances length]. rewrite length_drop. lia.
Qed.

Lemma mci_step_advances c r : mci_defined → advances (c :: r) (step_at c r).
Proof.
  intros Hd. assert (advances (c :: r) (Char c r)) by (cbn; lia). unfold mci_step.
  destruct (Z.eqb_spec c (ch "^")) as [-> |]; [by apply caret_advances |].
  destruct (Z.eqb_spec c (ch "~")) as [-> |]; [by apply tilde_advances |].
  destruct (Z.eqb_spec c (ch "%")) as [-> |]; [by apply percent_advances | done].
Qed.

(** ** The texts a text stands for *)

(** What a round appends when there is room. *)
Definition piece (st : step) : cstr :=
  match st with Piece t _ => t | Char c _ => [c] | Fault => [] end.

Definition after (st : step) : cstr :=
  match st with Piece _ rest | Char _ rest => rest | Fault => [] end.

(** [expands p l]: the rounds at [p] stand for the texts [l]. *)
Inductive expands : cstr → list cstr → Prop :=
  | expands_nil : expands [] []
  | expands_step c r l :
      step_at c r ≠ Fault → expands (after (step_at c r)) l →
      expands (c :: r) (piece (step_at c r) :: l).

Lemma expands_exists p : mci_defined → ∃ l, expands p l.
Proof.
  intros Hd. remember (length p) as n eqn:Hn. revert p Hn.
  induction n as [n IH] using lt_wf_ind. intros [|c r] ->; [eexists; constructor |].
  pose proof (mci_step_advances c r Hd) as Ha.
  destruct (IH (length (after (step_at c r)))) with (p := after (step_at c r)) as [l Hl];
    [by destruct (step_at c r) | done |].
  eexists. constructor; [by destruct (step_at c r) | exact Hl].
Qed.

(** ** The buffer *)

(** What a buffer of [cap] bytes with [out] in it keeps of texts that are to come:
    each as a whole, or nothing of it, when it leaves no room for the terminator. *)
Fixpoint fill (cap : nat) (out : cstr) (l : list cstr) : cstr :=
  match l with
  | [] => out
  | t :: l => fill cap (if (length out + length t <? cap)%nat then out ++ t else out) l
  end.

Lemma fill_fits cap l : ∀ out, (length out < cap)%nat → (length (fill cap out l) < cap)%nat.
Proof.
  induction l as [|t l IH]; intros out Ho; cbn [fill]; [done |]. apply IH.
  destruct (Nat.ltb_spec (length out + length t) cap); [rewrite length_app |]; lia.
Qed.

Lemma fill_all cap l : ∀ out, (length (out ++ concat l) < cap)%nat → fill cap out l = out ++ concat l.
Proof.
  induction l as [|t l IH]; intros out Ho; cbn [fill concat] in *; [by rewrite app_nil_r |].
  rewrite app_assoc in *. rewrite !length_app in Ho. rewrite (proj2 (Nat.ltb_lt _ _)) by lia.
  apply IH. rewrite !length_app. lia.
Qed.

(** A buffer with room for the terminator only keeps what it has. *)
Lemma fill_stop cap l : ∀ out, (cap <= length out + 1)%nat → fill cap out l = out.
Proof.
  induction l as [|t l IH]; intros out Ho; cbn [fill]; [done |].
  destruct (Nat.ltb_spec (length out + length t) cap); [| by apply IH].
  destruct t as [|c t]; [rewrite app_nil_r; by apply IH | cbn in *; lia].
Qed.

Lemma expand_loop_fill p l : mci_defined → expands p l → ∀ fuel cap out,
  (length p < fuel)%nat → expand_loop clk tm_min s fuel cap out p = Some (fill cap out l).
Proof.
  intros Hd. induction 1 as [| c r l Hf Hx IH]; intros [| fuel] cap out Hp; try (cbn in Hp; lia); [done |].
  cbn [expand_loop]. pose proof (mci_step_advances c r Hd) as Ha. cbn [length] in Hp.
  destruct (Nat.ltb_spec (length out + 1) cap) as [Hroom |]; [| by rewrite fill_stop by lia].
  destruct (step_at c r) as [t rest | c' rest |]; cbn in Ha, IH; cbn [after piece fill length]; [| | done].
  - apply IH. lia.
  - rewrite IH by lia. by rewrite (proj2 (Nat.ltb_lt _ _)) by lia.
Qed.

Lemma mci_expand_fill p l cap :
  mci_defined → expands p l → (0 < cap)%nat → expand p cap = Some (fill cap [] l).
Proof.
  intros Hd Hx Hc. destruct cap as [| cap]; [lia |]. apply expand_loop_fill; [done | done | lia].
Qed.

(** ** Templates *)

(** The documented forms. A condition is an expression of access control. *)
Inductive item : Type :=
  | Plain (t : cstr)
  | Accent (i : Z)
  | Fore1 (n : Z)
  | Fore2 (n : Z)
  | Back (n : Z)
  | Blink (on : bool)
  | ResetAll
  | Tilde (c1 c2 : Z)
  | Percent (c1 c2 : Z)
  | Cond (e : expr) (yes no : cstr).

(** How an item is written. *)
Definition write (i : item) : cstr :=
  match i with
  | Plain t => t
  | Accent i => [ch "^"; 48 + i]
  | Fore1 n => [ch "~"; ch "L"; 48 + n]
  | Fore2 n => [ch "~"; ch "L"; 48 + n / 10; 48 + n mod 10]
  | Back n => [ch "~"; ch "B"; 48 + n]
  | Blink on => [ch "~"; ch "K"; if on then ch "1" else ch "0"]
  | ResetAll => [ch "~"; ch "R"; ch "S"]
  | Tilde c1 c2 => [ch "~"; c1; c2]
  | Percent c1 c2 => [ch "%"; c1; c2]
  | Cond e yes no => [ch "%"; ch "?"] ++ show [] PExpr e ++ [ch "{"] ++ yes ++ [ch "|"] ++ no ++ [ch "}"]
  end.

Definition write_all (l : list item) : cstr := concat (map write l).

(** The scheme of the session; the first, when it has no valid one. *)
Definition scheme : Z :=
  let sid := of_session s 0 (λ s, color_scheme (profile s)) in
  if bool_decide (0 <= sid < NUM_COLOR_SCHEMES) then sid else 0.

Definition code_text (k : code) : cstr := match k with Put t => t | _ => [] end.

(** What an item stands for, as it is documented. *)
Definition meaning (i : item) : cstr :=
  match i with
  | Plain t => t
  | Accent i => default [] (scheme_color scheme i)
  | Fore1 n | Fore2 n => default [] (at_index ansi_colors n)
  | Back n => esc (fmt_d (40 + n) ++ lit "m")
  | Blink on => esc (if on then lit "5m" else lit "25m")
  | ResetAll => esc (lit "0m")
  | Tilde c1 c2 => code_text (tilde_code clk tm_min s c1 c2)
  | Percent c1 c2 => code_text (percent_code clk tm_min s c1 c2)
  | Cond e yes no => if default false (denote clk (acs_part <$> s) e) then yes else no
  end.

Definition plain_char (c : Z) : Prop := c ≠ ch "^" ∧ c ≠ ch "~" ∧ c ≠ ch "%".

(** A documented item: numbers in their ranges, codes of the tables, and
    conditionals that fit the buffers of the code. *)
Definition item_ok (i : item) : Prop :=
  match i with
  | Plain t => Forall plain_char t
  | Accent i => 0 <= i <= 9
  | Fore1 n => 0 <= n <= 9
  | Fore2 n => 0 <= n < 16
  | Back n => 0 <= n <= 7
  | Blink _ | ResetAll => True
  | Tilde c1 c2 => tilde_code clk tm_min s c1 c2 ≠ NoCode
  | Percent c1 c2 => percent_code clk tm_min s c1 c2 ≠ NoCode
  | Cond e yes no =>
      expr_ok e ∧ (ch "{" ∉ show [] PExpr e) ∧ (length (show [] PExpr e) <= 127)%nat ∧
      (ch "|" ∉ yes) ∧ (ch "}" ∉ yes) ∧ (ch "}" ∉ no) ∧
      (length yes <= 127)%nat ∧ (length no <= 127)%nat
  end.

(** A colour of one digit is not followed by a digit. *)
Fixpoint template_ok (l : list item) : Prop :=
  match l with
  | [] => True
  | i :: l =>
      item_ok i ∧ template_ok l ∧
      match i with Fore1 _ => isdigit (char_at (write_all l) 0) = false | _ => True end
  end.

(** The item at the front of a text is one round, for its meaning. *)
Definition reads_item (i : item) (rest : cstr) : Prop :=
  ∃ c r, write i ++ rest = c :: r ∧ step_at c r = Piece (meaning i) rest.

(** A code of a table is not read as anything else. *)
Lemma step_code_table k rest otherwise :
  k ≠ NoCode → k ≠ Undefined → step_code k rest otherwise = Piece (code_text k) rest.
Proof. by destruct k. Qed.

(** One row of a table of codes. *)
Ltac table_row H :=
  match type of H with
  | context [if ?b then _ else _] =>
      let E := fresh "E" in
      destruct b eqn:E in H;
      [apply andb_true_iff in E as [->%Z.eqb_eq ->%Z.eqb_eq]; by vm_compute | clear E]
  end.

(** A code of the table: its first character is not one of those of the colours
    with their parameters, and neither is the terminator. *)
Lemma tilde_code_table c1 c2 :
  tilde_code clk tm_min s c1 c2 ≠ NoCode →
  ((c1 =? ch "L") && isdigit c2) = false ∧ ((c1 =? ch "B") && isdigit c2) = false ∧
  ((c1 =? ch "K") && ((c2 =? ch "0") || (c2 =? ch "1"))) = false ∧
  ((c1 =? ch "R") && (c2 =? ch "S")) = false ∧ ((c1 =? 0) || (c2 =? 0)) = false.
Proof.
  unfold tilde_code, is_code. intros H.
  by repeat table_row H.
Qed.

Lemma percent_code_table c1 c2 :
  percent_code clk tm_min s c1 c2 ≠ NoCode → (c1 =? 0) = false ∧ (c1 =? ch "?") = false.
Proof.
  unfold percent_code, is_code. intros H.
  by repeat table_row H.
Qed.

Lemma digit_char_at d r : 0 <= d <= 9 → isdigit (char_at (48 + d :: r) 0) = true.
Proof. intros. unfold isdigit, char_at. cbn. lia. Qed.

Lemma ansi_color_some n : 0 <= n < 16 → is_Some (at_index ansi_colors n).
Proof.
  intros Hn. unfold at_index. rewrite (proj2 (Z.ltb_ge n 0)) by lia.
  apply lookup_lt_is_Some. cbn. lia.
Qed.

Lemma reads_accent i rest : item_ok (Accent i) → reads_item (Accent i) rest.
Proof.
  cbn. intros Hi. exists (ch "^"), (48 + i :: rest). split; [done |].
  unfold mci_step. cbn [Z.eqb]. rewrite Z.eqb_refl. unfold caret. cbn zeta.
  change (char_at (48 + i :: rest) 0) with (48 + i). chars.
  rewrite (proj2 (andb_true_iff _ _)) by (split; lia).
  replace (48 + i - 48) with i by lia. unfold meaning, scheme.
  set (sid := of_session s 0 _). case_bool_decide as Hs.
  - rewrite (proj2 (orb_false_iff _ _)) by (split; lia).
    destruct (scheme_color_some sid i) as [t ->]; [unfold NUM_COLOR_SCHEMES in Hs; lia | done | done].
  - replace ((sid <? 0) || (NUM_COLOR_SCHEMES <=? sid)) with true by lia.
    by destruct (scheme_color_some 0 i) as [t ->].
Qed.

(** A round at a tilde. *)
Lemma step_tilde r : step_at (ch "~") r = tilde clk tm_min s r (Char (ch "~") r).
Proof. reflexivity. Qed.

Lemma step_percent r : step_at (ch "%") r = percent clk tm_min s r (Char (ch "%") r).
Proof. reflexivity. Qed.

Lemma tilde_color d r otherwise :
  0 <= d <= 9 → tilde clk tm_min s (ch "L" :: 48 + d :: r) otherwise = foreground (48 + d) r.
Proof.
  intros Hd. unfold tilde. change (char_at (ch "L" :: 48 + d :: r) 1) with (48 + d).
  replace (isdigit (48 + d)) with true by (unfold isdigit; lia). done.
Qed.

Lemma reads_fore1 n rest :
  item_ok (Fore1 n) → isdigit (char_at rest 0) = false → reads_item (Fore1 n) rest.
Proof.
  cbn. intros Hn Hr. exists (ch "~"), (ch "L" :: 48 + n :: rest). split; [done |].
  rewrite step_tilde, tilde_color by done. unfold foreground. rewrite Hr.
  by replace (48 + n - 48) with n by lia.
Qed.

Lemma reads_fore2 n rest : item_ok (Fore2 n) → reads_item (Fore2 n) rest.
Proof.
  cbn. intros Hn. exists (ch "~"), (ch "L" :: 48 + n / 10 :: 48 + n mod 10 :: rest). split; [done |].
  assert (0 <= n / 10 <= 9 ∧ 0 <= n mod 10 <= 9) as [Hq Hm] by (split; Z.div_mod_to_equations; lia).
  rewrite step_tilde, tilde_color by done. unfold foreground. rewrite digit_char_at by done.
  change (char_at (48 + n mod 10 :: rest) 0) with (48 + n mod 10).
  replace ((48 + n / 10 - 48) * 10 + (48 + n mod 10 - 48)) with n by (Z.div_mod_to_equations; lia). done.
Qed.

Lemma reads_back n rest : item_ok (Back n) → reads_item (Back n) rest.
Proof.
  cbn. intros Hn. exists (ch "~"), (ch "B" :: 48 + n :: rest). split; [done |].
  rewrite step_tilde. unfold tilde. change (char_at (ch "B" :: 48 + n :: rest) 1) with (48 + n).
  replace (isdigit (48 + n)) with true by (unfold isdigit; lia). cbn [andb Z.eqb].
  unfold background. replace (48 + n - 48) with n by lia.
  by rewrite (proj2 (Z.leb_le n 7)) by lia.
Qed.

Lemma reads_tilde c1 c2 rest : mci_defined → item_ok (Tilde c1 c2) → reads_item (Tilde c1 c2) rest.
Proof.
  cbn. intros Hd Hn. exists (ch "~"), (c1 :: c2 :: rest). split; [done |].
  destruct (tilde_code_table c1 c2 Hn) as (E1 & E2 & E3 & E4 & E5).
  rewrite step_tilde. unfold tilde.
  change (char_at (c1 :: c2 :: rest) 0) with c1. change (char_at (c1 :: c2 :: rest) 1) with c2.
  rewrite E1, E2, E3, E4, E5. apply step_code_table; [done | by apply tilde_code_defined].
Qed.

Lemma reads_percent c1 c2 rest :
  mci_defined → item_ok (Percent c1 c2) → reads_item (Percent c1 c2) rest.
Proof.
  cbn. intros Hd Hn. exists (ch "%"), (c1 :: c2 :: rest). split; [done |].
  destruct (percent_code_table c1 c2 Hn) as (E1 & E2). rewrite step_percent. unfold percent.
  change (char_at (c1 :: c2 :: rest) 0) with c1. change (char_at (c1 :: c2 :: rest) 1) with c2.
  rewrite E1, E2. apply step_code_table; [done | by apply percent_code_defined].
Qed.

Lemma step_cond r :
  step_at (ch "%") (ch "?" :: r) = conditional clk s r (Char (ch "%") (ch "?" :: r)).
Proof. reflexivity. Qed.

(** The condition, the alternatives and the text after them are told apart. *)
Lemma conditional_parts acs yes no rest otherwise v :
  (ch "{" ∉ acs) → (ch "|" ∉ yes) → (ch "}" ∉ yes) → (ch "}" ∉ no) →
  (length acs <= 127)%nat → (length yes <= 127)%nat → (length no <= 127)%nat →
  acs_allows clk (acs_part <$> s) acs = Some v →
  conditional clk s (acs ++ ch "{" :: (yes ++ ch "|" :: no) ++ ch "}" :: rest) otherwise
  = Piece (if v then yes else no) rest.
Proof.
  intros Hb Hy Hy' Hn Hal Hyl Hnl Hv. unfold conditional.
  rewrite cut_app by done. rewrite cut_app by (rewrite not_elem_of_app, not_elem_of_cons; done).
  rewrite !take_ge by (rewrite ?length_app; cbn [length]; lia). rewrite Hv.
  unfold branches. rewrite cut_app by done. by rewrite !take_ge by lia.
Qed.

Lemma reads_cond e yes no rest :
  mci_defined → item_ok (Cond e yes no) → reads_item (Cond e yes no) rest.
Proof.
  intros [Hs _] (He & Hb & Hel & Hy & Hy' & Hn & Hyl & Hnl).
  destruct (denote_defined clk _ e Hs) as [v Hv].
  pose proof (acs_allows_reads clk _ [] e v Hs (Forall_nil_2 _) He Hv) as Hr. rewrite app_nil_r in Hr.
  eexists _, _. split; [cbn; reflexivity |].
  rewrite step_cond. cbn [meaning]. rewrite Hv. rewrite <- app_assoc. cbn [app].
  replace ((yes ++ ch "|" :: no ++ [ch "}"]) ++ rest) with ((yes ++ ch "|" :: no) ++ ch "}" :: rest)
    by (rewrite <- !app_assoc; cbn [app]; by rewrite <- !app_assoc). by apply conditional_parts.
Qed.

(** ** Rendering *)

Lemma reads_expands i rest l :
  reads_item i rest → expands rest l → expands (write i ++ rest) (meaning i :: l).
Proof.
  intros (c & r & -> & Hr) Hl.
  rewrite <- (eq_refl : piece (Piece (meaning i) rest) = meaning i), <- Hr.
  constructor; rewrite Hr; done.
Qed.

Lemma plain_expands t rest l :
  Forall plain_char t → expands rest l → expands (t ++ rest) (map (λ c, [c]) t ++ l).
Proof.
  induction 1 as [|c t (H1 & H2 & H3) _ IH]; intros Hl; [done |]. cbn.
  assert (step_at c (t ++ rest) = Char c (t ++ rest)) as E.
  { unfold mci_step. by rewrite !(proj2 (Z.eqb_neq c _)) by done. }
  change ([c] : cstr) with (piece (Char c (t ++ rest))). rewrite <- E.
  constructor; rewrite E; [done | by apply IH].
Qed.

Lemma concat_chars (t : cstr) : concat (map (λ c, [c]) t) = t.
Proof. induction t as [|c t IH]; cbn; congruence. Qed.

(** What an item is written to the buffer as: a text by its characters, the
    expansion of a code or a conditional as one piece. *)
Definition pieces (i : item) : list cstr :=
  match i with Plain t => map (λ c, [c]) t | _ => [meaning i] end.

Lemma concat_pieces i : concat (pieces i) = meaning i.
Proof. destruct i; cbn; rewrite ?app_nil_r; [apply concat_chars | done ..]. Qed.

Lemma item_expands i rest l :
  mci_defined → item_ok i →
  match i with Fore1 _ => isdigit (char_at rest 0) = false | _ => True end →
  expands rest l → expands (write i ++ rest) (pieces i ++ l).
Proof.
  intros Hd Hi Hr Hl. destruct i as [t | | | | | | | | |]; [by apply plain_expands | ..];
    (apply reads_expands; [| done]).
  - by apply reads_accent.
  - by apply reads_fore1.
  - by apply reads_fore2.
  - by apply reads_back.
  - by exists (ch "~"), (ch "K" :: (if on then ch "1" else ch "0") :: rest); destruct on.
  - by exists (ch "~"), (ch "R" :: ch "S" :: rest).
  - by apply reads_tilde.
  - by apply reads_percent.
  - by apply reads_cond.
Qed.

Lemma template_expands l :
  mci_defined → template_ok l → expands (write_all l) (concat (map pieces l)).
Proof.
  intros Hd. induction l as [|i l IH]; cbn [template_ok]; [by constructor |].
  intros (Hi & Hl & Hf). by apply item_expands; [| | | apply IH].
Qed.

(** C16. A template of documented codes - text, the accents of the user's scheme,
    colours, blinking, user, system and percent codes, and conditionals whose
    condition and alternatives have at most 127 bytes each and none of their own
    delimiters - is rendered, when the rendering fits the buffer, as the
    concatenation of what its items stand for: a conditional as the alternative
    that the truth of its access-control expression selects, a user's text as it
    is, without codes in it being expanded again. When it does not fit, the buffer
    keeps, item by item, the whole expansion of a code, or nothing of it if it
    leaves no room for the terminator, and texts by their characters: no escape
    sequence is cut. A colour of one digit has no digit behind it; the user's
    conditions compute no number that overflows an int, and the clock gives a
    calendar date. *)
Theorem templates_are_rendered l cap :
  mci_defined → template_ok l → (0 < cap)%nat →
  let out := fill cap [] (concat (map pieces l)) in
  expand (write_all l) cap = Some out ∧ (length out < cap)%nat ∧
  ((length (concat (map meaning l)) < cap)%nat → out = concat (map meaning l)).
Proof.
  intros Hd Hl Hc out. split; [by apply mci_expand_fill; [| apply template_expands |] |].
  split; [by apply fill_fits |]. intros Hfit.
  assert (E : concat (concat (map pieces l)) = concat (map meaning l)).
  { clear. induction l as [|i l IH]; [done |]. cbn [map concat]. by rewrite concat_app, concat_pieces, IH. }
  unfold out. rewrite fill_all; [done | by rewrite E].
Qed.

(** Whatever the text, expansion finishes, and what it leaves in the buffer
    leaves room for the terminator. *)
Theorem mci_expand_bounded p cap :
  mci_defined → (0 < cap)%nat →
  ∃ out, expand p cap = Some out ∧ (length out < cap)%nat.
Proof.
  intros Hd Hc. destruct (expands_exists p Hd) as [l Hx].
  rewrite (mci_expand_fill p l cap Hd Hx Hc). eexists. split; [done | by apply fill_fits].
Qed.

End spec.

(** ** Conditions longer than their buffer *)

(** A level everyone has, blanks up to the end of the buffer of 128 bytes, and
    the level the text is meant for. *)
Definition long_condition : cstr := lit "S0" ++ replicate 125 32 ++ lit "&S255".

(** Access control refuses the condition to everyone below level 255; the
    expansion, which evaluates the first 127 characters, shows the text to all
    of them. *)
Theorem long_conditions_are_cut clk tm_min s :
  0 <= level (user (acs_part s)) < 255 →
  acs_allows clk (Some (acs_part s)) long_condition = Some false ∧
  mci_expand clk tm_min (Some s) (lit "%?" ++ long_condition ++ lit "{the sysop's key|-}") 80
  = Some (lit "the sysop's key").
Proof.
  destruct s as [[u conf nn tl d] pr ma fa bn sn md]. cbn [acs_part user]. intros [H0 H1].
  apply Z.leb_le in H0. apply Z.leb_gt in H1. split.
  - transitivity (Some ((0 <=? level u) && (255 <=? level u))); [by vm_compute |]. by rewrite H0, H1.
  - transitivity (if 0 <=? level u then Some (lit "the sysop's key") else Some (lit "-"));
      [vm_compute; by repeat case_match | by rewrite H0].
Qed.

(** The documented codes are those of the tables. *)
Definition documented_tilde : list (ascii * ascii) :=
  [("U", "N"); ("R", "N"); ("U", "#"); ("A", "G"); ("B", "D"); ("S", "X"); ("C", "T"); ("S", "T");
   ("Z", "P"); ("P", "H"); ("F", "O"); ("L", "O"); ("T", "T"); ("T", "L"); ("T", "B"); ("S", "L");
   ("D", "L"); ("U", "L"); ("D", "K"); ("U", "K"); ("M", "P"); ("E", "S"); ("F", "B"); ("C", "R");
   ("F", "P"); ("L", "G"); ("N", "N"); ("A", "R"); ("B", "N"); ("S", "N"); ("B", "P"); ("T", "C");
   ("N", "U"); ("N", "F"); ("N", "M"); ("N", "O"); ("V", "R"); ("D", "A"); ("T", "M"); ("A", "N")]%char.

Definition documented_percent : list (ascii * ascii) :=
  [("N", "L"); ("P", "E"); ("U", "N"); ("T", "I"); ("T", "L"); ("N", "N"); ("D", "A"); ("T", "M");
   ("P", "O"); ("M", "T"); ("F", "T"); ("S", "L"); ("C", "R"); ("F", "P"); ("M", "A"); ("F", "A");
   ("N", "O"); ("A", "R")]%char.

Lemma documented_codes_known clk tm_min s :
  mci_defined clk tm_min s →
  Forall (λ '(a, b), tilde_code clk tm_min s (ch a) (ch b) ≠ NoCode) documented_tilde ∧
  Forall (λ '(a, b), percent_code clk tm_min s (ch a) (ch b) ≠ NoCode) documented_percent.
Proof.
  intros [_ Hc]. destruct (date_text_some _ _ Hc) as [d Hd], (time_text_some _ _ Hc) as [t Ht].
  split; repeat constructor; unfold tilde_code, percent_code; rewrite ?Hd, ?Ht; cbn; try discriminate.
  all: unfold is_code; cbn; by repeat case_match.
Qed.

(** ** Concrete inputs *)

Definition sample_profile : Profile :=
  MkProfile (lit "Anne%UN") (lit "Anne Bonny") (lit "Nassau") (lit "1 Shore") (lit "N1") (lit "555-1")
    (lit "2025-01-02") (lit "2025-06-14") 120 5 40 50 6 1 9 2.

Definition sample_db : MciDb :=
  MkMciDb (λ _, 17) 4 250 981 (λ n, Z.min 3 n) (λ _, Some (lit "General")) (λ _, None) (λ _, 40) (λ _, 12).

Definition sample_mci : MciSession :=
  MkMciSession sample_session sample_profile 1 0 (lit "Port Royal") (lit "Calico Jack") sample_db.

Lemma sample_mci_defined : mci_defined sample_clock 5 (Some sample_mci).
Proof. split; [exact sample_defined | unfold civil; cbn; lia]. Qed.

Definition sample_template : list item :=
  [Accent 0; Plain (lit "Hi "); Percent (ch "U") (ch "N"); Plain (lit " at "); Tilde (ch "T") (ch "M");
   Fore1 9; Cond sample_expr (lit "staff") (lit "guest"); ResetAll].

Lemma templates_are_rendered_witness :
  mci_expand sample_clock 5 (Some sample_mci) (lit "^0Hi %UN at ~TM~L9%?S50&FA|!(GF|V9){staff|guest}~RS") 80
  = Some (concat (map (meaning sample_clock 5 (Some sample_mci)) sample_template)).
Proof.
  destruct (templates_are_rendered sample_clock 5 (Some sample_mci) sample_template 80)
    as (E & _ & H).
  - exact sample_mci_defined.
  - cbn. unfold atom_ok.
    split_and!; first [done | lia | by apply (bool_decide_unpack _); vm_compute
                      | by repeat constructor; vm_compute].
  - lia.
  - rewrite <- H by (vm_compute; lia). exact E.
Defined.

Lemma mci_expand_bounded_witness :
  ∃ out, mci_expand sample_clock 5 (Some sample_mci) (lit "~RN %?{ ~L99 ~AG%") 12 = Some out ∧
    (length out < 12)%nat.
Proof. apply mci_expand_bounded; [exact sample_mci_defined | lia]. Defined.

Lemma long_conditions_are_cut_witness :
  mci_expand sample_clock 5 (Some sample_mci) (lit "%?" ++ long_condition ++ lit "{the sysop's key|-}") 80
  = Some (lit "the sysop's key").
Proof. apply (long_conditions_are_cut sample_clock 5 sample_mci). vm_compute. split; congruence. Defined.
