(* ===== verification/Process.v ===== *)
(** Running other programs (src/process.c): the commands of doors, protocols,
    events and the console as templates that are split into arguments without a
    shell, and the parent's watch over the process it started. Memory is taken to
    be available. *)

From S2P Require Import Prelude CLib.

#[local] Open Scope Z_scope.

(** ** Command templates *)

(** Why a template is refused. *)
Inductive parse_error : Type :=
  | EmptyCommand
  | MetaCharacter (c : Z)
  | OrOperator
  | CommandSubstitution
  | AndOperator
  | ArgumentTooLong
  | UnterminatedQuote.

(** src/process.c:17-41 (command_contains_shell_meta) *)
Fixpoint command_contains_shell_meta (p : cstr) : option parse_error :=
  match p with
  | [] => None
  | c :: r =>
      let go := command_contains_shell_meta r in
      if c =? ch "\" then
        match r with
        | [] => go
        | _ :: r' => command_contains_shell_meta r'
        end
      else if (c =? ch "`") || (c =? ch ";") || (c =? ch "<") || (c =? ch ">") then
        Some (MetaCharacter c)
      else if c =? ch "|" then
        Some (if char_at r 0 =? ch "|" then OrOperator else MetaCharacter c)
      else if (c =? ch "$") && (char_at r 0 =? ch "(") then Some CommandSubstitution
      else if (c =? ch "&") && (char_at r 0 =? ch "&") then Some AndOperator
      else go
  end.

(** [strstr(s, m) != NULL] *)
Fixpoint contains (m s : cstr) : bool :=
  has_prefix m s || match s with [] => false | _ :: s => contains m s end.

(** The first occurrence of the marker is replaced by the value.
    src/process.c:77-92 (replace_marker) *)
Fixpoint replace_marker (token marker_text value : cstr) : cstr :=
  if has_prefix marker_text token then value ++ drop (length marker_text) token
  else match token with [] => [] | c :: token => c :: replace_marker token marker_text value end.

(** src/process.c:62-75 (replace_percent_f) *)
Definition replace_percent_f (token filepath : cstr) : cstr :=
  replace_marker token (lit "%f") filepath.

(** [char token[1024]] *)
Definition TOKEN_CAP : nat := 1024.

Definition push_char (tok : cstr) (c : Z) (k : cstr → parse_error + cstr * Z * cstr) :
  parse_error + cstr * Z * cstr :=
  if (TOKEN_CAP <=? length tok + 1)%nat then inl ArgumentTooLong else k (tok ++ [c]).

(** The characters of one token: the token, the quote it ends in ([0] outside of
    quotes) and the rest.
    src/process.c:113-133 (bbs_argv_parse_template) *)
Fixpoint scan_argument (p : cstr) (quote : Z) (tok : cstr) : parse_error + cstr * Z * cstr :=
  match p with
  | [] => inr (tok, quote, [])
  | c :: r =>
      if (quote =? 0) && isspace c then inr (tok, quote, p)
      else if (quote =? 0) && ((c =? ch "'") || (c =? 34)) then scan_argument r c tok
      else if negb (quote =? 0) && (c =? quote) then scan_argument r 0 tok
      else match r with
           | d :: r' =>
               if c =? ch "\" then push_char tok d (scan_argument r' quote)
               else push_char tok c (scan_argument r quote)
           | [] => push_char tok c (scan_argument r quote)
           end
  end.

(** The loop over the tokens.
    src/process.c:109-139 (bbs_argv_parse_template) *)
Fixpoint tokens (fuel : nat) (p : cstr) : option (parse_error + list cstr) :=
  match fuel with
  | O => None
  | S fuel =>
      match skip_space p with
      | [] => Some (inr [])
      | p =>
          match scan_argument p 0 [] with
          | inl e => Some (inl e)
          | inr (tok, quote, rest) =>
              if negb (quote =? 0) then Some (inl UnterminatedQuote)
              else l ← tokens fuel rest;
                   Some (match l with inl e => inl e | inr l => inr (tok :: l) end)
          end
      end
  end.

(** Checks before the loop, and the loop.
    src/process.c:94-139 (bbs_argv_parse_template) *)
Definition split_command (command : cstr) : option (parse_error + list cstr) :=
  if bool_decide (command = []) then Some (inl EmptyCommand)
  else match command_contains_shell_meta command with
       | Some e => Some (inl e)
       | None => tokens (S (length command)) command
       end.

(** An argument list of no arguments is refused. *)
Definition some_arguments (argv : list cstr) : parse_error + list cstr :=
  match argv with [] => inl EmptyCommand | _ => inr argv end.

(** src/process.c:94-173 (bbs_argv_parse_template) *)
Definition bbs_argv_parse_template (command : cstr) (filepath : option cstr) :
  option (parse_error + list cstr) :=
  l ← split_command command;
  Some (match l with
        | inl e => inl e
        | inr toks =>
            match filepath with
            | None => some_arguments toks
            | Some f =>
                let saw_file_marker := existsb (contains (lit "%f")) toks in
                let argv := map (λ t, if contains (lit "%f") t then replace_percent_f t f else t) toks in
                some_arguments (if saw_file_marker then argv else argv ++ [f])
            end
        end).

(** src/process.c:175-239 (bbs_argv_parse_door_template) *)
Definition bbs_argv_parse_door_template (command : cstr) (dropdir : option cstr) :
  option (parse_error + list cstr) :=
  l ← split_command command;
  Some (match l with
        | inl e => inl e
        | inr toks =>
            some_arguments
              (match dropdir with
               | None => toks
               | Some d => map (λ t, if contains (lit "%D") t then replace_marker t (lit "%D") d else t) toks
               end)
        end).

(** ** The watch over a process *)

(** include/bbs_process.h:6-13 (BbsProcessResult) *)
Record BbsProcessResult : Type := MkResult {
  exit_code : Z;
  term_signal : Z;
  exited : bool;
  signaled : bool;
  timed_out : bool;
  cancelled : bool
}.

(** The result that the call starts from. *)
Definition no_result : BbsProcessResult := MkResult 0 0 false false false false.

(** How the process ended, by the macros of [waitpid]. *)
Inductive status : Type :=
  | Exited (rc : Z)
  | Signaled (sig : Z)
  | OtherStatus.

(** What [waitpid(pid, &status, WNOHANG)] returned. *)
Inductive waited : Type :=
  | Ended (st : status)
  | Running
  | Interrupted
  | WaitFailed.

(** One round of the loop: the answer of [waitpid], the seconds since the start,
    whether the caller has hung up ([cancel_fd_closed]), the answer of the
    [waitpid] after [SIGTERM] and its grace period, and the status the process
    has after [SIGKILL]. *)
Record poll : Type := MkPoll {
  wait : waited;
  elapsed : Z;
  closed : bool;
  after_term : waited;
  after_kill : status
}.

(** Signals sent to the process group. *)
Inductive signal : Type := SIGTERM | SIGKILL.

(** How the call ends: its return value, the result and the signals sent. *)
Record outcome : Type := MkOutcome {
  ok : bool;
  result : BbsProcessResult;
  signals : list signal
}.

(** The answer after the loop; [r] has what the loop recorded.
    src/process.c:326-350 (bbs_exec_argv_cancel) *)
Definition report (r : BbsProcessResult) (st : status) (sent : list signal) : outcome :=
  match st with
  | Exited rc =>
      MkOutcome ((rc =? 0) && negb (timed_out r))
        (MkResult rc (term_signal r) true (signaled r) (timed_out r) (cancelled r)) sent
  | Signaled sig =>
      MkOutcome false (MkResult (exit_code r) sig (exited r) true (timed_out r) (cancelled r)) sent
  | OtherStatus => MkOutcome false r sent
  end.

(** Ending the process group: [SIGTERM], the grace period, and [SIGKILL] unless
    the process was reaped.
    src/process.c:296-319 (bbs_exec_argv_cancel) *)
Definition terminate (r : BbsProcessResult) (p : poll) : outcome :=
  match after_term p with
  | Ended st => report r st [SIGTERM]
  | _ => report r (after_kill p) [SIGTERM; SIGKILL]
  end.

(** The loop over the rounds; [None] when it still waits after them.
    src/process.c:288-324 (bbs_exec_argv_cancel) *)
Fixpoint watch (timeout_sec : Z) (polls : list poll) : option outcome :=
  match polls with
  | [] => None
  | p :: polls =>
      match wait p with
      | Ended st => Some (report no_result st [])
      | Interrupted => watch timeout_sec polls
      | WaitFailed => Some (MkOutcome false no_result [])
      | Running =>
          if (0 <? timeout_sec) && (timeout_sec <=? elapsed p) then
            Some (terminate (MkResult 0 0 false false true false) p)
          else if closed p then Some (terminate (MkResult 0 0 false false false true) p)
          else watch timeout_sec polls
      end
  end.

(** The parent's side of a call: [forked] is false when [fork] failed.
    src/process.c:250-351 (bbs_exec_argv_cancel) *)
Definition bbs_exec_argv_cancel (argv : list cstr) (forked : bool) (timeout_sec : Z)
    (polls : list poll) : option outcome :=
  match argv with
  | [] => Some (MkOutcome false no_result [])
  | _ =>
      if forked then watch timeout_sec polls
      else Some (MkOutcome false no_result [])
  end.

(** A descriptor of -1 is never closed.
    src/process.c:353-359 (bbs_exec_argv) *)
Definition bbs_exec_argv (argv : list cstr) (forked : bool) (timeout_sec : Z) (polls : list poll) :
  option outcome :=
  bbs_exec_argv_cancel argv forked timeout_sec
    (map (λ p, MkPoll (wait p) (elapsed p) false (after_term p) (after_kill p)) polls).
