(* ===== verification/ProcessSpec.v ===== *)
(** What command templates mean: words of bare, escaped and quoted characters are
    the arguments of the program, with the file in its place; an operator of the
    shell is refused wherever it stands. And how the watch over a process ends. *)

From S2P Require Import Prelude CLib Process.

#[local] Open Scope Z_scope.

(** ** Words and how they are written *)

(** Characters and operators that the check looks for. *)
Definition meta (c : Z) : bool :=
  (c =? ch "`") || (c =? ch ";") || (c =? ch "<") || (c =? ch ">") || (c =? ch "|")
  || (c =? ch "$") || (c =? ch "&").

Definition quote_char (c : Z) : bool := (c =? ch "'") || (c =? 34).

Inductive letter : Type :=
  | Bare (c : Z)
  | Escaped (c : Z).

(** A part of a word: a character outside of quotes or a quoted text. *)
Inductive part : Type :=
  | Single (l : letter)
  | Quoted (q : Z) (t : list letter).

Definition write_letter (l : letter) : cstr :=
  match l with Bare c => [c] | Escaped c => [ch "\"; c] end.

Definition write_letters (t : list letter) : cstr := concat (map write_letter t).

Definition write_part (p : part) : cstr :=
  match p with Single l => write_letter l | Quoted q t => q :: write_letters t ++ [q] end.

Definition write_word (w : list part) : cstr := concat (map write_part w).

Definition letter_value (l : letter) : Z := match l with Bare c | Escaped c => c end.

Definition part_value (p : part) : cstr :=
  match p with Single l => [letter_value l] | Quoted _ t => map letter_value t end.

Definition word_value (w : list part) : cstr := concat (map part_value w).

(** A bare character is not an escape, not one that the check refuses, and not
    one that ends the context it stands in. *)
Definition letter_ok (ends : Z → bool) (l : letter) : Prop :=
  match l with
  | Bare c => c ≠ ch "\" ∧ meta c = false ∧ ends c = false
  | Escaped _ => True
  end.

Definition part_ok (p : part) : Prop :=
  match p with
  | Single l => letter_ok (λ c, isspace c || quote_char c) l
  | Quoted q t => quote_char q = true ∧ Forall (letter_ok (Z.eqb q)) t
  end.

Definition word_ok (w : list part) : Prop :=
  w ≠ [] ∧ Forall part_ok w ∧ (length (word_value w) < TOKEN_CAP)%nat.

(** ** The check passes what is quoted and escaped *)

(** A text whose escapes are complete. *)
Inductive whole : cstr → Prop :=
  | whole_nil : whole []
  | whole_bare c p : c ≠ ch "\" → whole p → whole (c :: p)
  | whole_escape c p : whole p → whole (ch "\" :: c :: p).

Lemma whole_app p q : whole p → whole q → whole (p ++ q).
Proof. intros Hp Hq. induction Hp; cbn; auto using whole. Qed.

(** The operators of two characters begin with a character of [meta]. *)
Lemma check_bare c r :
  c ≠ ch "\" → meta c = false →
  command_contains_shell_meta (c :: r) = command_contains_shell_meta r.
Proof.
  intros Hc Hm. unfold meta in Hm.
  repeat match type of Hm with (_ || _) = false => apply orb_false_iff in Hm as [Hm ?] end.
  cbn [command_contains_shell_meta].
  repeat match goal with H : (c =? _) = false |- _ => rewrite H; clear H end.
  by rewrite (proj2 (Z.eqb_neq c (ch "\"))) by done.
Qed.

Lemma check_escaped c r :
  command_contains_shell_meta (ch "\" :: c :: r) = command_contains_shell_meta r.
Proof. reflexivity. Qed.

Lemma check_letters t ends r :
  Forall (letter_ok ends) t →
  command_contains_shell_meta (write_letters t ++ r) = command_contains_shell_meta r.
Proof.
  induction 1 as [|[c | c] t Hl _ IH]; [done | |]; cbn [write_letters map concat write_letter].
  - destruct Hl as (Hc & Hm & _). cbn [app]. by rewrite check_bare.
  - apply IH.
Qed.

Lemma quote_is_bare q : quote_char q = true → q ≠ ch "\" ∧ meta q = false ∧ isspace q = false.
Proof.
  unfold quote_char. intros [->%Z.eqb_eq | ->%Z.eqb_eq]%orb_true_iff; by vm_compute.
Qed.

Lemma check_word w r :
  Forall part_ok w → command_contains_shell_meta (write_word w ++ r) = command_contains_shell_meta r.
Proof.
  induction 1 as [|[l | q t] w Hp _ IH]; [done | |];
    unfold write_word; cbn [map concat write_part]; rewrite <- app_assoc; fold (write_word w).
  - rewrite <- IH. rewrite <- (check_letters [l] _ (write_word w ++ r) ltac:(by repeat constructor)).
    cbn. by rewrite app_nil_r.
  - destruct Hp as [Hq Ht]. destruct (quote_is_bare q Hq) as (Hc & Hm & _).
    cbn [app]. rewrite check_bare by done. rewrite <- app_assoc, (check_letters t _ _ Ht).
    cbn [app]. by rewrite check_bare.
Qed.

Lemma check_space sp r :
  Forall (λ c, isspace c = true) sp →
  command_contains_shell_meta (sp ++ r) = command_contains_shell_meta r.
Proof.
  induction 1 as [|c sp Hc _ IH]; [done |]. cbn [app].
  rewrite check_bare; [done | intros ->; done |]. unfold meta, isspace in *. chars. lia.
Qed.

(** What the check refuses, it refuses after any complete escapes. *)
Lemma check_after p r :
  whole p → is_Some (command_contains_shell_meta r) → is_Some (command_contains_shell_meta (p ++ r)).
Proof.
  intros Hp Hr. induction Hp as [| c p Hc _ IH | c p _ IH]; [exact Hr | | exact IH].
  cbn [app command_contains_shell_meta]. rewrite (proj2 (Z.eqb_neq c (ch "\"))) by done.
  repeat case_match; first [done | by eexists].
Qed.

(** The shell's operators. *)
Definition operators : list cstr :=
  [lit "`"; lit ";"; lit "<"; lit ">"; lit "|"; lit "$("; lit "&&"; lit "||"].

Lemma check_operator op r : In op operators → is_Some (command_contains_shell_meta (op ++ r)).
Proof.
  intros H. cbn in H. decompose [or] H; try done; subst; cbn; try by eexists.
Qed.

(** ** The tokens of written words *)

Lemma push_char_room tok c k : (length tok + 1 < TOKEN_CAP)%nat → push_char tok c k = k (tok ++ [c]).
Proof. intros H. unfold push_char. by apply Nat.leb_gt in H as ->. Qed.

(** The characters that end the context [quote]. *)
Definition ends_in (quote c : Z) : bool :=
  if quote =? 0 then isspace c || quote_char c else quote =? c.

Lemma scan_bare c r quote tok :
  c ≠ ch "\" → ends_in quote c = false →
  scan_argument (c :: r) quote tok = push_char tok c (scan_argument r quote).
Proof.
  unfold ends_in, quote_char. intros Hc He. cbn [scan_argument].
  destruct (Z.eqb_spec quote 0) as [-> | Hq]; cbn [andb negb].
  - apply orb_false_iff in He as [-> ->].
    rewrite (proj2 (Z.eqb_neq c (ch "\"))) by done. by destruct r.
  - rewrite (Z.eqb_sym c quote), He, (proj2 (Z.eqb_neq c (ch "\"))) by done. by destruct r.
Qed.

Lemma scan_escaped c r quote tok :
  (quote =? ch "\") = false →
  scan_argument (ch "\" :: c :: r) quote tok = push_char tok c (scan_argument r quote).
Proof.
  intros Hq. cbn [scan_argument]. rewrite Z.eqb_sym in Hq. rewrite Hq.
  rewrite andb_false_r. by destruct (quote =? 0).
Qed.

Lemma scan_letters t r quote tok :
  (quote =? ch "\") = false → Forall (letter_ok (ends_in quote)) t →
  (length (tok ++ map letter_value t) < TOKEN_CAP)%nat →
  scan_argument (write_letters t ++ r) quote tok = scan_argument r quote (tok ++ map letter_value t).
Proof.
  intros Hq Ht. revert tok. induction Ht as [|l t Hl _ IH]; intros tok Hlen.
  { cbn. by rewrite app_nil_r. }
  rewrite length_app in Hlen. cbn [map length] in Hlen.
  assert (∀ c, letter_value l = c → scan_argument (write_letter l ++ write_letters t ++ r) quote tok
    = scan_argument (write_letters t ++ r) quote (tok ++ [c])) as E.
  { destruct l as [c | c]; intros ? <-; cbn [write_letter app letter_value].
    - destruct Hl as (Hc & _ & He). rewrite scan_bare by done. apply push_char_room. lia.
    - rewrite scan_escaped by done. apply push_char_room. lia. }
  change (write_letters (l :: t)) with (write_letter l ++ write_letters t).
  rewrite <- app_assoc, (E _ eq_refl). rewrite IH by (rewrite !length_app; cbn [length]; lia).
  by rewrite <- app_assoc.
Qed.

Lemma scan_written_word w r tok :
  Forall part_ok w → (length (tok ++ word_value w) < TOKEN_CAP)%nat →
  scan_argument (write_word w ++ r) 0 tok = scan_argument r 0 (tok ++ word_value w).
Proof.
  intros Hw. revert tok. induction Hw as [|p w Hp _ IH]; intros tok Hlen.
  { cbn. by rewrite app_nil_r. }
  unfold write_word, word_value in *. cbn [map concat] in *.
  rewrite <- app_assoc. rewrite (app_assoc tok) in *. rewrite <- (IH (tok ++ part_value p)) by done.
  rewrite !length_app in Hlen.
  destruct p as [l | q t]; cbn [write_part part_value] in *.
  - rewrite <- (scan_letters [l] _ 0 tok); [| done | by repeat constructor |].
    + unfold write_letters. cbn [map concat]. by rewrite app_nil_r.
    + rewrite length_app. cbn [map]. lia.
  - destruct Hp as [Hq Ht]. destruct (quote_is_bare q Hq) as (Hb & _ & Hs).
    cbn [app]. cbn [scan_argument]. fold (quote_char q). rewrite Hs, Hq. cbn [andb Z.eqb].
    assert (Hb0 : (q =? 0) = false) by (unfold quote_char in Hq; chars; lia).
    rewrite <- app_assoc, scan_letters; [| by apply Z.eqb_neq | | rewrite length_app; lia].
    + cbn [app scan_argument]. by rewrite Hb0, Z.eqb_refl.
    + unfold ends_in. by rewrite Hb0.
Qed.

(** ** Commands *)

(** A word and the blanks before it. *)
Abbreviation spaced_word := (cstr * list part)%type.

Definition write_spaced (sw : spaced_word) : cstr := sw.1 ++ write_word sw.2.

(** A command: its words with the blanks before them, and the blanks at the end. *)
Definition write_command (l : list spaced_word) (tail : cstr) : cstr :=
  concat (map write_spaced l) ++ tail.

Definition blank (sp : cstr) : Prop := Forall (λ c, isspace c = true) sp.

(** Words are separated. *)
Definition command_ok (l : list spaced_word) : Prop :=
  Forall (λ sw, blank sw.1 ∧ word_ok sw.2) l ∧ Forall (λ sw, sw.1 ≠ []) (tail l).

Definition values (l : list spaced_word) : list cstr := map (word_value ∘ snd) l.

Lemma skip_blank sp r : blank sp → skip_space (sp ++ r) = skip_space r.
Proof. induction 1 as [|c sp Hc _ IH]; [done |]. cbn. by rewrite Hc. Qed.

(** The text after a word: nothing, or a blank. *)
Definition word_ends (r : cstr) : Prop := match r with [] => True | c :: _ => isspace c = true end.

Lemma scan_stop r tok : word_ends r → scan_argument r 0 tok = inr (tok, 0, r).
Proof. destruct r as [|c r]; cbn; [done | by intros ->]. Qed.

(** A word begins with a character that is not blank. *)
Lemma word_head w : word_ok w → ∃ c r, write_word w = c :: r ∧ isspace c = false.
Proof.
  intros (Hn & Hw & _). destruct Hw as [|p w Hp Hw]; [done |]. unfold write_word. cbn [map concat].
  destruct p as [[c | c] | q t]; cbn [write_part write_letter app].
  - destruct Hp as (_ & _ & He%orb_false_iff). destruct He. eauto.
  - exists (ch "\"). eauto.
  - destruct Hp as [Hq _]. destruct (quote_is_bare q Hq) as (_ & _ & Hs). eauto.
Qed.

Lemma tail_ends l tail : command_ok l → blank tail → Forall (λ sw, sw.1 ≠ []) l →
  word_ends (write_command l tail).
Proof.
  intros [Hl _] Ht Hs. destruct l as [|[sp w] l]; unfold write_command; cbn.
  - destruct Ht as [|c r Hc _]; done.
  - apply Forall_cons in Hl as [[Hsp _] _], Hs as [Hne _].
    cbn in Hsp, Hne. unfold write_spaced. cbn. by destruct Hsp.
Qed.

Lemma tokens_words l tail fuel :
  command_ok l → blank tail → (length (write_command l tail) < fuel)%nat →
  tokens fuel (write_command l tail) = Some (inr (values l)).
Proof.
  revert fuel. induction l as [|[sp w] l IH]; intros fuel Hok Ht Hf; (destruct fuel as [|fuel]; [lia |]).
  { cbn. by rewrite <- (app_nil_r tail), skip_blank. }
  assert (command_ok l ∧ Forall (λ sw, sw.1 ≠ []) l) as [Hok' Hs].
  { destruct Hok as [Hl Hs]. apply Forall_cons in Hl as [_ Hl]. cbn in Hs.
    split; [split; [done |] | done]. by destruct Hs. }
  destruct Hok as [[[Hsp Hw] _]%Forall_cons _]. cbn in Hsp, Hw.
  destruct (word_head w Hw) as (c & r & Ec & Hc). destruct Hw as (_ & Hw & Hlen).
  assert (write_command ((sp, w) :: l) tail = sp ++ write_word w ++ write_command l tail) as E.
  { unfold write_command. cbn. unfold write_spaced. cbn. by rewrite <- !app_assoc. }
  rewrite E in *. cbn [tokens]. rewrite skip_blank by done.
  assert (skip_space (write_word w ++ write_command l tail) = c :: r ++ write_command l tail) as ->.
  { rewrite Ec. cbn. by rewrite Hc. }
  rewrite app_comm_cons, <- Ec. rewrite scan_written_word by done. cbn [app].
  rewrite scan_stop by by apply tail_ends. cbn [Z.eqb negb].
  rewrite !length_app in Hf. rewrite Ec in Hf. cbn in Hf. by rewrite IH by (done || lia).
Qed.

Lemma check_command l tail :
  command_ok l → blank tail → command_contains_shell_meta (write_command l tail) = None.
Proof.
  intros [Hl _] Ht. induction Hl as [|[sp w] l [Hsp (_ & Hw & _)] _ IH].
  - unfold write_command. cbn. by rewrite <- (app_nil_r tail), check_space.
  - unfold write_command. cbn [map concat]. unfold write_spaced at 1. cbn [fst snd] in *.
    rewrite <- !app_assoc, check_space by done.
    rewrite (check_word w) by done. apply IH.
Qed.

Lemma split_command_words l tail :
  command_ok l → blank tail → l ≠ [] →
  split_command (write_command l tail) = Some (inr (values l)).
Proof.
  intros Hok Ht Hn. unfold split_command. rewrite bool_decide_eq_false_2.
  - rewrite check_command by done. apply tokens_words; [done | done | lia].
  - destruct l as [|[sp w] l]; [done |]. destruct Hok as [[[_ Hw] _]%Forall_cons _].
    destruct (word_head w Hw) as (c & r & Ec & _). unfold write_command.
    cbn [map concat]. unfold write_spaced at 1. cbn [fst snd] in *. rewrite Ec. by destruct sp.
Qed.

(** ** Templates *)

(** The first [m] in [s] is [pre] away from the front. *)
Definition first_at (m s pre post : cstr) : Prop :=
  s = pre ++ m ++ post ∧ ∀ p q, s = p ++ m ++ q → (length pre <= length p)%nat.

(** An argument with the file in the place of the marker's first occurrence. *)
Definition substituted (m f s a : cstr) : Prop :=
  (∃ pre post, first_at m s pre post ∧ a = pre ++ f ++ post) ∨
  ((∀ p q, s ≠ p ++ m ++ q) ∧ a = s).

Lemma contains_false m s : contains m s = false → ∀ p q, s ≠ p ++ m ++ q.
Proof.
  induction s as [|c s IH]; cbn [contains]; intros [Hp Hs]%orb_false_iff p q E.
  - destruct p; [|done]. assert (has_prefix m [] = true) by (apply has_prefix_app; eauto). congruence.
  - destruct p as [|d p]; cbn in E.
    + assert (has_prefix m (c :: s) = true) by (apply has_prefix_app; eauto). congruence.
    + injection E as -> E. by apply (IH Hs p q).
Qed.

Lemma replace_marker_first s m v :
  contains m s = true → ∃ pre post, first_at m s pre post ∧ replace_marker s m v = pre ++ v ++ post.
Proof.
  induction s as [|c s IH]; cbn [contains]; intros H.
  - rewrite orb_false_r in H. cbn [replace_marker]. rewrite H. apply has_prefix_app in H as [q H].
    symmetry in H. apply app_nil in H as [-> ->]. exists [], [].
    split; [split; [done | intros; cbn; lia] | done].
  - cbn [replace_marker]. destruct (has_prefix m (c :: s)) eqn:Hm.
    + apply has_prefix_app in Hm as [q Hq]. exists [], q. rewrite Hq, drop_app_length.
      split; [split; [done | cbn; lia] | done].
    + destruct (IH H) as (pre & post & [-> Hf] & ->). exists (c :: pre), post.
      split; [split; [done |] | done]. intros [|d p] q E.
      * assert (has_prefix m (c :: pre ++ m ++ post) = true) by (apply has_prefix_app; eauto). congruence.
      * injection E as _ E. apply Hf in E. cbn. lia.
Qed.

Lemma substitute_substituted m f s :
  substituted m f s (if contains m s then replace_marker s m f else s).
Proof.
  destruct (contains m s) eqn:H.
  - left. destruct (replace_marker_first s m f H) as (pre & post & Hf & ->). eauto.
  - right. split; [by apply contains_false | done].
Qed.

Lemma substitute_all m f l :
  Forall2 (substituted m f) l (map (λ t, if contains m t then replace_marker t m f else t) l).
Proof. induction l; constructor; [apply substitute_substituted | done]. Qed.

Lemma substitute_none m f l :
  existsb (contains m) l = false → map (λ t, if contains m t then replace_marker t m f else t) l = l.
Proof.
  induction l as [|t l IH]; cbn; [done |]. intros [-> Hl]%orb_false_iff. by rewrite IH.
Qed.

(** C17. Command templates are split as they are documented: a command of words -
    made of bare characters, of characters after a backslash and of texts in
    quotes - separated by blanks gives one argument per word, the characters
    without their quotes and backslashes; with a file, its path takes the place
    of the first marker of each argument that has one, and is an argument of its
    own at the end when none has; whatever the characters of the path, it is
    never split. And a command with one of the shell's operators, outside of
    quotes or in them, is refused. *)
Theorem templates_are_split l tail :
  command_ok l → blank tail → l ≠ [] →
  bbs_argv_parse_template (write_command l tail) None = Some (inr (values l)) ∧
  (∀ f, ∃ argv, bbs_argv_parse_template (write_command l tail) (Some f) = Some (inr argv) ∧
    if existsb (contains (lit "%f")) (values l) then Forall2 (substituted (lit "%f") f) (values l) argv
    else argv = values l ++ [f]) ∧
  (∀ d, ∃ argv, bbs_argv_parse_door_template (write_command l tail) (Some d) = Some (inr argv) ∧
    Forall2 (substituted (lit "%D") d) (values l) argv) ∧
  (∀ p op r f, whole p → In op operators →
    ∃ e, bbs_argv_parse_template (p ++ op ++ r) f = Some (inl e)).
Proof.
  intros Hok Ht Hn. pose proof (split_command_words l tail Hok Ht Hn) as E.
  unfold bbs_argv_parse_template, bbs_argv_parse_door_template. rewrite E. cbn [mbind option_bind].
  assert (∀ x y, some_arguments (x :: y) = inr (x :: y)) as Hs by done.
  destruct l as [|[sp w] l]; [done |]. set (vs := values _).
  split_and!.
  - done.
  - intros f. unfold replace_percent_f.
    destruct (existsb (contains (lit "%f")) vs) eqn:Hx; eexists; (split; [by apply f_equal, Hs |]).
    + apply (substitute_all _ _ vs).
    + exact (f_equal (λ l, l ++ [f]) (substitute_none _ f vs Hx)).
  - intros d. eexists. split; [by apply f_equal, Hs |]. apply (substitute_all _ _ vs).
  - intros p op r f Hp Ho. unfold split_command.
    destruct (check_after p (op ++ r) Hp (check_operator op r Ho)) as [e He].
    rewrite bool_decide_eq_false_2 by (intros H; by rewrite H in He). rewrite He. by eexists.
Qed.

(** ** The watch *)

(** What the answer after the loop keeps of what the loop recorded. *)
Lemma report_facts r st sent :
  (ok (report r st sent) = true →
   exited (result (report r st sent)) = true ∧ exit_code (result (report r st sent)) = 0 ∧
   timed_out r = false) ∧
  signals (report r st sent) = sent ∧
  timed_out (result (report r st sent)) = timed_out r ∧
  cancelled (result (report r st sent)) = cancelled r.
Proof.
  destruct st as [rc | sig |]; cbn; split_and!; try done.
  intros [->%Z.eqb_eq H]%andb_true_iff. apply negb_true_iff in H. by rewrite H.
Qed.

(** What ends a watch early: the time, or the caller. *)
Definition stopped (timeout_sec : Z) (polls : list poll) (r : BbsProcessResult) : Prop :=
  ∃ p, In p polls ∧
    (0 < timeout_sec <= elapsed p ∧ timed_out r = true ∨ closed p = true ∧ cancelled r = true).

(** The outcomes of a watch. *)
Definition fair (timeout_sec : Z) (polls : list poll) (o : outcome) : Prop :=
  (ok o = true → exited (result o) = true ∧ exit_code (result o) = 0 ∧ timed_out (result o) = false) ∧
  (signals o = [] ∨ signals o = [SIGTERM] ∨ signals o = [SIGTERM; SIGKILL]) ∧
  (signals o ≠ [] → stopped timeout_sec polls (result o)).

Lemma report_fair timeout_sec polls r st sent :
  (sent = [] ∨ sent = [SIGTERM] ∨ sent = [SIGTERM; SIGKILL]) →
  (sent ≠ [] → stopped timeout_sec polls r) → fair timeout_sec polls (report r st sent).
Proof.
  intros Hs Hst. destruct (report_facts r st sent) as (Hok & Hsig & Hto & Hca).
  unfold fair, stopped. rewrite Hsig, Hto, Hca. split_and!; [| done | done].
  intros H. by destruct (Hok H) as (? & ? & ->).
Qed.

Lemma terminate_fair timeout_sec polls r p :
  stopped timeout_sec polls r → fair timeout_sec polls (terminate r p).
Proof. intros H. unfold terminate. destruct (after_term p); apply report_fair; auto. Qed.

Lemma fair_cons timeout_sec p polls o : fair timeout_sec polls o → fair timeout_sec (p :: polls) o.
Proof.
  intros (Hok & Hs & Hst). split_and!; [done | done |]. intros H.
  destruct (Hst H) as (q & Hq & Hr). exists q. split; [by right | done].
Qed.

Lemma watch_fair timeout_sec polls o : watch timeout_sec polls = Some o → fair timeout_sec polls o.
Proof.
  induction polls as [|p polls IH]; cbn [watch]; [done |].
  destruct (wait p) as [st | | |].
  - intros [= <-]. by apply report_fair; [left |].
  - destruct ((0 <? timeout_sec) && (timeout_sec <=? elapsed p)) eqn:Ht.
    + intros [= <-]. apply terminate_fair. exists p. split; [by left |]. left. cbn. lia.
    + destruct (closed p) eqn:Hc; [| by intros H; apply fair_cons, IH].
      intros [= <-]. apply terminate_fair. exists p. split; [by left |]. by right.
  - intros H. by apply fair_cons, IH.
  - intros [= <-]. split_and!; [discriminate | by left | done].
Qed.

Lemma watch_ends timeout_sec polls p :
  0 < timeout_sec → In p polls → timeout_sec <= elapsed p → wait p ≠ Interrupted →
  is_Some (watch timeout_sec polls).
Proof.
  intros Ht Hp He Hw. induction polls as [|q polls IH]; [done |]. cbn [watch].
  destruct (wait q) eqn:Hq; try by eexists.
  - destruct ((0 <? timeout_sec) && (timeout_sec <=? elapsed q)) eqn:Hto; [by eexists |].
    destruct (closed q); [by eexists |]. destruct Hp as [-> | Hp]; [lia | auto].
  - destruct Hp as [-> | Hp]; [congruence | auto].
Qed.

(** However the answers of [waitpid] come, a call reports success only for a
    program that exited with 0 and was not stopped for its time; a process is told
    to stop only when its time is up or its caller is gone, and is killed only
    after it was told to stop; and with a time limit the watch ends at the latest
    at the first round after it, whatever the process does. *)
Theorem watched_processes_end argv timeout_sec polls :
  (∀ o, bbs_exec_argv_cancel argv true timeout_sec polls = Some o →
     (ok o = true → exited (result o) = true ∧ exit_code (result o) = 0 ∧ timed_out (result o) = false) ∧
     (signals o = [] ∨ signals o = [SIGTERM] ∨ signals o = [SIGTERM; SIGKILL]) ∧
     (signals o ≠ [] → stopped timeout_sec polls (result o))) ∧
  (∀ p, 0 < timeout_sec → In p polls → timeout_sec <= elapsed p → wait p ≠ Interrupted →
     is_Some (bbs_exec_argv_cancel argv true timeout_sec polls)).
Proof.
  unfold bbs_exec_argv_cancel. destruct argv as [|a argv].
  - split; [| by eexists]. intros o [= <-]. split_and!; [discriminate | by left | done].
  - split; [exact (watch_fair timeout_sec polls) | exact (watch_ends timeout_sec polls)].
Qed.

(** Without a time limit, as events and console commands are run, a process that
    does not end is waited for without end. *)
Theorem unlimited_watch_waits argv polls :
  argv ≠ [] → Forall (λ p, wait p = Running) polls → bbs_exec_argv argv true 0 polls = None.
Proof.
  intros Ha Hp. unfold bbs_exec_argv, bbs_exec_argv_cancel. destruct argv as [|a argv]; [done |].
  induction Hp as [|p polls Hw _ IH]; [done |]. cbn. by rewrite Hw.
Qed.

(** ** Concrete inputs *)

Definition bare (s : cstr) : list part := map (Single ∘ Bare) s.

Definition sample_command : list spaced_word :=
  [([], bare (lit "sz")); (lit " ", bare (lit "-n") ++ [Quoted 34 (map Bare (lit "a b"))]);
   (lit "  ", Single (Escaped (ch ";")) :: bare (lit "%f"))].

Lemma templates_are_split_witness :
  bbs_argv_parse_template (lit "sz -n" ++ 34 :: lit "a b" ++ 34 :: lit "  \;%f ") (Some (lit "/up/x y"))
  = Some (inr [lit "sz"; lit "-na b"; lit ";/up/x y"]).
Proof.
  destruct (templates_are_split sample_command (lit " ")) as (_ & H & _).
  - unfold command_ok, blank, word_ok. split; repeat constructor; vm_compute; try done; try lia.
  - repeat constructor.
  - done.
  - destruct (H (lit "/up/x y")) as (argv & E & _). refine (eq_trans E _).
    vm_compute in E. by injection E as <-.
Defined.

Definition stuck : poll := MkPoll Running 5 false Running (Signaled 9).

Lemma watched_processes_end_witness :
  bbs_exec_argv_cancel [lit "sz"] true 5 [stuck] =
    Some (MkOutcome false (MkResult 0 9 false true true false) [SIGTERM; SIGKILL]) ∧
  is_Some (bbs_exec_argv_cancel [lit "sz"] true 5 [stuck]).
Proof.
  split; [reflexivity |].
  apply (proj2 (watched_processes_end [lit "sz"] 5 [stuck]) stuck); [done | by left | done | done].
Defined.

Lemma unlimited_watch_waits_witness : bbs_exec_argv [lit "sleep"] true 0 [stuck; stuck] = None.
Proof. apply unlimited_watch_waits; [done | by repeat constructor]. Defined.
