(* ===== verification/Calendar.v ===== *)
(** Broken-down time, as [localtime_r] and [mktime] give and take it: the struct,
    a time zone as the pair of these functions, and the Gregorian calendar with
    the zones of a fixed offset and of a permanent daylight-saving time, which
    the scheduler's theorems are about. *)

From S2P Require Import Prelude CLib.

#[local] Open Scope Z_scope.

(** [struct tm] *)
Record tm : Type := MkTm {
  sec : Z;
  minute : Z;
  hour : Z;
  mday : Z;
  mon : Z;
  year : Z;
  wday : Z;
  isdst : Z
}.

(** [struct tm tm = {0}] *)
Definition zero_tm : tm := MkTm 0 0 0 0 0 0 0 0.

(** A time zone: [localtime_r], and [mktime] with the struct it leaves. *)
Record timezone : Type := MkZone {
  localtime_r : Z → tm;
  mktime : tm → Z * tm
}.

(** ** The Gregorian calendar

    Months are counted from January of the year 0, days from 1 January 1970. *)

Definition is_leap (y : Z) : bool :=
  (y mod 4 =? 0) && (negb (y mod 100 =? 0) || (y mod 400 =? 0)).

(** Days of a common year before a month. *)
Definition days_before : list Z := [0; 31; 59; 90; 120; 151; 181; 212; 243; 273; 304; 334].

(** The day that begins the year. *)
Definition year_start (y : Z) : Z :=
  365 * y + (y + 3) / 4 - (y + 99) / 100 + (y + 399) / 400 - 719528.

(** The day that begins the month. *)
Definition month_start (k : Z) : Z :=
  let y := k / 12 in
  let m := k mod 12 in
  year_start y + nth (Z.to_nat m) days_before 0 + (if (2 <=? m) && is_leap y then 1 else 0).

Fixpoint month_from (fuel : nat) (k day : Z) : Z :=
  match fuel with
  | O => k
  | S fuel => if month_start (k + 1) <=? day then month_from fuel (k + 1) day else k
  end.

(** The month of a day: from an estimate that is early by less than two years. *)
Definition month_of (day : Z) : Z :=
  month_from 30 (12 * ((400 * (day + 719528)) / 146097 - 1)) day.

(** The day of the week: 1 January 1970 was a Thursday. *)
Definition weekday (day : Z) : Z := (day + 4) mod 7.

(** ** Lemmas *)

Lemma month_cases k :
  ∃ y m, k = 12 * y + m ∧ 0 <= m < 12 ∧ k / 12 = y ∧ k mod 12 = m.
Proof. exists (k / 12), (k mod 12). Z.div_mod_to_equations. lia. Qed.

Lemma leap_year_step y : year_start (y + 1) = year_start y + (if is_leap y then 366 else 365).
Proof.
  unfold year_start, is_leap.
  destruct (Z.eqb_spec (y mod 4) 0), (Z.eqb_spec (y mod 100) 0), (Z.eqb_spec (y mod 400) 0);
    cbn; Z.div_mod_to_equations; lia.
Qed.

(** The days before months that are numerals. *)
Ltac eval_before :=
  repeat match goal with
  | |- context [nth (Z.to_nat ?m) days_before 0] =>
      let v := eval vm_compute in (nth (Z.to_nat m) days_before 0) in
      change (nth (Z.to_nat m) days_before 0) with v
  end;
  repeat match goal with
  | |- context [2 <=? ?m] => let v := eval vm_compute in (2 <=? m) in change (2 <=? m) with v
  end.

(** A month has 28 to 31 days. *)
Lemma month_length k : month_start k + 28 <= month_start (k + 1) <= month_start k + 31.
Proof.
  destruct (month_cases k) as (y & m & -> & Hm & Hy & Hmod). unfold month_start. rewrite Hy, Hmod.
  destruct (Z.eq_dec m 11) as [-> | Hne].
  - replace (12 * y + 11 + 1) with ((y + 1) * 12) by lia.
    rewrite Z.div_mul, Z.mod_mul by lia. rewrite leap_year_step.
    eval_before. destruct (is_leap y); cbn [andb]; lia.
  - assert ((12 * y + m + 1) / 12 = y ∧ (12 * y + m + 1) mod 12 = m + 1) as [-> ->]
      by (Z.div_mod_to_equations; lia).
    assert (m = 0 ∨ m = 1 ∨ m = 2 ∨ m = 3 ∨ m = 4 ∨ m = 5 ∨ m = 6 ∨ m = 7 ∨ m = 8 ∨ m = 9 ∨ m = 10)
      as Hc by lia.
    decompose [or] Hc; subst; eval_before; destruct (is_leap y); cbn [andb]; lia.
Qed.

Lemma month_start_lt j k : j < k → month_start j + 28 <= month_start k.
Proof.
  intros Hjk. replace k with (j + 1 + Z.of_nat (Z.to_nat (k - j - 1))) by lia.
  induction (Z.to_nat (k - j - 1)) as [|n IH].
  - rewrite Z.add_0_r. apply month_length.
  - pose proof (month_length (j + 1 + Z.of_nat n)).
    replace (j + 1 + Z.of_nat (S n)) with (j + 1 + Z.of_nat n + 1) by lia. lia.
Qed.

Lemma month_start_le j k : month_start j <= month_start k → j <= k.
Proof. intros H. destruct (Z.le_gt_cases j k) as [? | Hlt]; [done |]. apply month_start_lt in Hlt. lia. Qed.

(** The days of the month [k]. *)
Definition in_month (k day : Z) : Prop := month_start k <= day < month_start (k + 1).

Lemma in_month_unique j k day : in_month j day → in_month k day → j = k.
Proof.
  intros [H1 H2] [H3 H4]. destruct (Z.lt_trichotomy j k) as [H | [-> | H]]; [| done |].
  - assert (month_start (j + 1) <= month_start k); [| lia].
    destruct (Z.eq_dec (j + 1) k) as [-> |]; [lia |]. pose proof (month_start_lt (j + 1) k). lia.
  - assert (month_start (k + 1) <= month_start j); [| lia].
    destruct (Z.eq_dec (k + 1) j) as [-> |]; [lia |]. pose proof (month_start_lt (k + 1) j). lia.
Qed.

(** [year_start] is within two days of the mean year. *)
Lemma year_start_mean y :
  146097 * y - 800 <= 400 * (year_start y + 719528) <= 146097 * y + 800.
Proof. unfold year_start. Z.div_mod_to_equations. lia. Qed.

Lemma month_start_year y : month_start (12 * y) = year_start y.
Proof.
  unfold month_start. rewrite Z.mul_comm, Z.div_mul, Z.mod_mul by lia. eval_before. cbn [andb]. lia.
Qed.

Lemma month_from_spec fuel k day :
  month_start k <= day < month_start (k + Z.of_nat fuel + 1) → in_month (month_from fuel k day) day.
Proof.
  revert k. induction fuel as [|fuel IH]; intros k H; cbn [month_from].
  - rewrite Z.add_0_r in H. exact H.
  - destruct (Z.leb_spec (month_start (k + 1)) day); [| split; [apply H | lia]].
    apply IH. split; [done |].
    replace (k + 1 + Z.of_nat fuel + 1) with (k + Z.of_nat (S fuel) + 1) by lia. apply H.
Qed.

Lemma month_of_spec day : in_month (month_of day) day.
Proof.
  unfold month_of. apply month_from_spec. set (y := 400 * (day + 719528) / 146097 - 1).
  rewrite month_start_year. pose proof (year_start_mean y).
  pose proof (year_start_mean (y + 1 + 1)) as Hm. rewrite <- (month_start_year (y + 1 + 1)) in Hm.
  pose proof (month_start_lt (12 * (y + 1 + 1)) (12 * y + Z.of_nat 30 + 1)).
  subst y. Z.div_mod_to_equations. lia.
Qed.

Lemma month_of_in k day : in_month k day → month_of day = k.
Proof. intros H. eapply in_month_unique; [apply month_of_spec | done]. Qed.

(** ** Zones *)

Definition DAY : Z := 86400.

(** The struct of a number of seconds of local time. *)
Definition civil (dst l : Z) : tm :=
  let day := l / DAY in
  let s := l mod DAY in
  let k := month_of day in
  MkTm (s mod 60) (s / 60 mod 60) (s / 3600) (day - month_start k + 1) (k mod 12) (k / 12 - 1900)
    (weekday day) dst.

(** The seconds of local time of a struct whose fields may be out of their
    ranges. *)
Definition local_seconds (t : tm) : Z :=
  (month_start (12 * (year t + 1900) + mon t) + mday t - 1) * DAY
  + hour t * 3600 + minute t * 60 + sec t.

(** A zone [off] seconds ahead of UTC all year. *)
Definition fixed (off : Z) : timezone :=
  MkZone (λ t, civil 0 (t + off)) (λ t, let l := local_seconds t in (l - off, civil 0 l)).

(** A zone in its daylight-saving time, an hour ahead of its standard time: a
    struct with [isdst] 0 is taken to be in standard time. *)
Definition summer (off : Z) : timezone :=
  let at_ t := civil 1 (t + off + 3600) in
  MkZone at_
    (λ t, let u := local_seconds t - off - (if 0 <? isdst t then 3600 else 0) in (u, at_ u)).

Lemma month_index k : 12 * (k / 12 - 1900 + 1900) + k mod 12 = k.
Proof. Z.div_mod_to_equations. lia. Qed.

(** The struct of a time denotes it. *)
Lemma local_seconds_civil dst l : local_seconds (civil dst l) = l.
Proof.
  unfold local_seconds, civil, DAY. cbn [sec minute hour mday mon year]. rewrite month_index.
  Z.div_mod_to_equations. lia.
Qed.

Lemma mktime_localtime off t : mktime (fixed off) (localtime_r (fixed off) t) = (t, localtime_r (fixed off) t).
Proof.
  cbn [fixed mktime localtime_r]. rewrite local_seconds_civil. f_equal. lia.
Qed.

(** The time of day [h:m:00] of the day [d]. *)
Definition at_time (d h m : Z) : Z := d * DAY + h * 3600 + m * 60.

Definition clock_time (h m : Z) : Prop := 0 <= h < 24 ∧ 0 <= m < 60.

Lemma at_time_day d h m : clock_time h m → at_time d h m / DAY = d ∧ at_time d h m mod DAY = h * 3600 + m * 60.
Proof. unfold clock_time, at_time, DAY. intros. Z.div_mod_to_equations. lia. Qed.

(** Times of day of the calendar. *)
Definition shows (t : tm) (h m : Z) : Prop := hour t = h ∧ minute t = m ∧ sec t = 0.

Lemma civil_shows dst l h m :
  clock_time h m → shows (civil dst l) h m ↔ ∃ d, l = at_time d h m.
Proof.
  intros Hc. unfold shows, civil. cbn [hour minute sec]. split.
  - intros (H1 & H2 & H3). exists (l / DAY). unfold at_time, DAY in *. Z.div_mod_to_equations. lia.
  - intros [d ->]. destruct (at_time_day d h m Hc) as [_ ->]. unfold clock_time in Hc.
    Z.div_mod_to_equations. lia.
Qed.
