(* ===== verification/Scheduler.v ===== *)
(** The event scheduler (src/scheduler.c): schedules and the time they ask for,
    one round of the thread over the table of events, and the events of logging
    on. The table is the list of its rows, with the statements of src/db.c that
    the scheduler uses; the clock and the time zone are parameters. A round's
    effects are the list of its actions; [None] is an overflow of C's [int]. *)

From S2P Require Import Prelude CLib Acs Process Calendar.

#[local] Open Scope Z_scope.

(** ** Schedules *)

(** [strncasecmp(p, name, 3) == 0] for a name of three characters. *)
Definition is_day (name p : cstr) : bool := has_prefix (map tolower name) (map tolower p).

(** src/scheduler.c:29-39 (parse_day_of_week) *)
Definition parse_day_of_week (day : cstr) : Z :=
  if is_day (lit "Sun") day then 0
  else if is_day (lit "Mon") day then 1
  else if is_day (lit "Tue") day then 2
  else if is_day (lit "Wed") day then 3
  else if is_day (lit "Thu") day then 4
  else if is_day (lit "Fri") day then 5
  else if is_day (lit "Sat") day then 6
  else -1.

(** [HH:MM]: the numbers at the front and after the first colon. *)
Definition hours_minutes (p : cstr) : Z * Z :=
  (atoi p, match cut (ch ":") p with Some (_, r) => atoi r | None => 0 end).

Definition set_time (t : tm) (hh mm : Z) : tm :=
  MkTm 0 mm hh (mday t) (mon t) (year t) (wday t) (isdst t).

Definition set_mday (t : tm) (d : Z) : tm :=
  MkTm (sec t) (minute t) (hour t) d (mon t) (year t) (wday t) (isdst t).

Definition next_month (t : tm) : tm :=
  MkTm (sec t) (minute t) (hour t) (mday t) (mon t + 1) (year t) (wday t) (isdst t).

Section schedules.
Context (zone : timezone).

(** src/scheduler.c:44-54 (parse_schedule) *)
Definition schedule_daily (p : cstr) (now : Z) : Z :=
  let '(hh, mm) := hours_minutes p in
  let target := fst (mktime zone (set_time (localtime_r zone now) hh mm)) in
  if target <? now then target + 86400 else target.

(** src/scheduler.c:56-82 (parse_schedule) *)
Definition schedule_weekly (p : cstr) (now : Z) : Z :=
  match cut (ch "@") p with
  | None => now + 3600
  | Some (day_str, r) =>
      let target_dow := parse_day_of_week (take 7 day_str) in
      if target_dow <? 0 then now + 3600
      else
        let '(hh, mm) := hours_minutes r in
        let t := localtime_r zone now in
        let days_until := Z.rem (target_dow - wday t + 7) 7 in
        let '(days_until, t) :=
          if days_until =? 0 then
            let '(target, t) := mktime zone (set_time t hh mm) in
            (if target <=? now then 7 else 0, t)
          else (days_until, t) in
        let t := set_time t hh mm in
        fst (mktime zone (set_mday t (mday t + days_until)))
  end.

(** src/scheduler.c:84-104 (parse_schedule) *)
Definition schedule_monthly (p : cstr) (now : Z) : Z :=
  match cut (ch "@") p with
  | None => now + 3600
  | Some (_, r) =>
      let target_day := atoi p in
      if (target_day <? 1) || (31 <? target_day) then now + 3600
      else
        let '(hh, mm) := hours_minutes r in
        let '(target, t) :=
          mktime zone (set_time (set_mday (localtime_r zone now) target_day) hh mm) in
        if target <=? now then fst (mktime zone (next_month t)) else target
  end.

(** src/scheduler.c:106-111 (parse_schedule) *)
Definition schedule_every (p : cstr) (now : Z) : Z :=
  let n := atoi p in now + (if n <=? 0 then 300 else n).

(** src/scheduler.c:41-115 (parse_schedule) *)
Definition parse_schedule (sched : cstr) (now : Z) : Z :=
  if bool_decide (sched = []) then now + 3600
  else if has_prefix (lit "daily@") sched then schedule_daily (drop 6 sched) now
  else if has_prefix (lit "weekly:") sched then schedule_weekly (drop 7 sched) now
  else if has_prefix (lit "monthly:") sched then schedule_monthly (drop 8 sched) now
  else if has_prefix (lit "every:") sched then schedule_every (drop 6 sched) now
  else now + 3600.

(** ** Times as texts *)

(** [%Y-%m-%d %H:%M:%S] of [strftime] *)
Definition time_string (t : tm) : cstr :=
  fmt_d (year t + 1900) ++ ch "-" :: fmt_0d 2 (mon t + 1) ++ ch "-" :: fmt_0d 2 (mday t)
  ++ ch " " :: fmt_0d 2 (hour t) ++ ch ":" :: fmt_0d 2 (minute t) ++ ch ":" :: fmt_0d 2 (sec t).

(** One number of [strptime]: blanks, then up to [n] digits while the number can
    still be in its range. *)
Fixpoint more_digits (n : nat) (hi val : Z) (p : cstr) : Z * cstr :=
  match n, p with
  | S n, c :: r =>
      if (val * 10 <=? hi) && isdigit c then more_digits n hi (val * 10 + (c - 48)) r else (val, p)
  | _, _ => (val, p)
  end.

Definition get_number (lo hi : Z) (n : nat) (p : cstr) : option (Z * cstr) :=
  match skip_space p with
  | c :: r =>
      if isdigit c then
        let '(v, rest) := more_digits (n - 1) hi (c - 48) r in
        if (lo <=? v) && (v <=? hi) then Some (v, rest) else None
      else None
  | [] => None
  end.

(** A character of the format; a blank stands for any blanks. *)
Definition get_char (c : Z) (p : cstr) : option cstr :=
  if isspace c then Some (skip_space p)
  else match p with d :: r => if d =? c then Some r else None | [] => None end.

(** [strptime(s, "%Y-%m-%d %H:%M:%S", &tm)]: the fields that were read before the
    first mismatch, from the left. *)
Fixpoint scan_fields (fields : list (Z * (Z * Z * nat))) (p : cstr) : list Z :=
  match fields with
  | [] => []
  | (sep, (lo, hi, n)) :: fields =>
      let here := if sep =? 0 then Some p else get_char sep p in
      match here ≫= get_number lo hi n with
      | Some (v, r) => v :: scan_fields fields r
      | None => []
      end
  end.

Definition time_fields : list (Z * (Z * Z * nat)) :=
  [(0, (0, 9999, 4%nat)); (ch "-", (1, 12, 2%nat)); (ch "-", (1, 31, 2%nat));
   (ch " ", (0, 23, 2%nat)); (ch ":", (0, 59, 2%nat)); (ch ":", (0, 61, 2%nat))].

(** The struct that was zeroed before. *)
Definition strptime (p : cstr) : tm :=
  let l := scan_fields time_fields p in
  let field i d f := match l !! i with Some v => f v | None => d end in
  MkTm (field 5%nat 0 (λ v, v)) (field 4%nat 0 (λ v, v)) (field 3%nat 0 (λ v, v)) (field 2%nat 0 (λ v, v))
    (field 1%nat 0 (λ v, v - 1)) (field 0%nat 0 (λ v, v - 1900)) 0 0.

End schedules.

(** ** The table of events *)

(** A row; [None] is NULL. *)
Record event_row : Type := MkRow {
  row_id : Z;
  row_name : cstr;
  row_schedule : cstr;
  row_command : cstr;
  row_next_run : option cstr;
  row_event_type : option cstr;
  row_acs : option cstr;
  row_warning_min : option Z;
  row_enabled : option Z
}.

(** include/bbs_db.h:348-358 (DbEvent) *)
Record DbEvent : Type := MkEvent {
  ev_id : Z;
  ev_name : cstr;
  ev_schedule : cstr;
  ev_command : cstr;
  ev_next_run : cstr;
  event_type : cstr;
  ev_acs : cstr;
  warning_min : Z;
  enabled : Z
}.

(** src/db.c:567-575 (safe_copy) *)
Definition safe_copy (cap : nat) (t : cstr) : cstr := take (cap - 1) t.

(** One row as the list copies it.
    src/db.c:5367-5383 (db_events_list) *)
Definition fetch (r : event_row) : DbEvent :=
  MkEvent (row_id r) (safe_copy 64 (row_name r)) (safe_copy 64 (row_schedule r))
    (safe_copy 256 (row_command r)) (safe_copy 32 (default [] (row_next_run r)))
    (safe_copy 16 (default (lit "scheduled") (row_event_type r)))
    (safe_copy 64 (default [] (row_acs r))) (default 0 (row_warning_min r))
    (default 1 (row_enabled r)).

(** src/db.c:5353-5393 (db_events_list) *)
Definition db_events_list (rows : list event_row) (max : nat) : list DbEvent :=
  take max (map fetch rows).

Definition set_next (next : option cstr) (r : event_row) : event_row :=
  MkRow (row_id r) (row_name r) (row_schedule r) (row_command r) next (row_event_type r)
    (row_acs r) (row_warning_min r) (row_enabled r).

(** [UPDATE events SET ... WHERE id = ?] *)
Definition update_where (id : Z) (f : event_row → event_row) (rows : list event_row) : list event_row :=
  map (λ r, if row_id r =? id then f r else r) rows.

(** src/db.c:5395-5416 (db_event_update_next) *)
Definition db_event_update_next (id : Z) (next_run : cstr) (rows : list event_row) : list event_row :=
  update_where id (set_next (Some next_run)) rows.

(** src/db.c:5418-5437 (db_event_mark_ran) *)
Definition db_event_mark_ran (id : Z) (rows : list event_row) : list event_row :=
  update_where id (set_next None) rows.

Definition set_enabled (e : Z) (r : event_row) : event_row :=
  MkRow (row_id r) (row_name r) (row_schedule r) (row_command r) (row_next_run r) (row_event_type r)
    (row_acs r) (row_warning_min r) (Some e).

(** A new row, with the identifier SQLite gives it.
    src/db.c:4322-4350 (db_event_add) *)
Definition db_event_add (new_id : Z) (name schedule command : cstr) (etype acs : option cstr)
    (rows : list event_row) : list event_row :=
  rows ++ [MkRow new_id name schedule command None
             (Some (default (lit "scheduled") etype)) (Some (default [] acs)) (Some 0) (Some 1)].

(** src/db.c:4352-4368 (db_event_delete) *)
Definition db_event_delete (event_id : Z) (rows : list event_row) : list event_row :=
  filter (λ r, row_id r ≠ event_id) rows.

(** src/db.c:4370-4388 (db_event_toggle) *)
Definition db_event_toggle (event_id e : Z) (rows : list event_row) : list event_row :=
  update_where event_id (set_enabled e) rows.

(** ** A round of the thread *)

(** src/scheduler.c:17-23 (SchedCtx) *)
Record SchedCtx : Type := MkCtx {
  warned_ids : list Z;
  warned_next : list cstr
}.

(** [calloc] *)
Definition new_ctx : SchedCtx := MkCtx (replicate 64 0) (replicate 64 []).

(** What a round does: texts to everyone, programs that are run to their end,
    commands that are refused. *)
Inductive action : Type :=
  | Broadcast (msg : cstr)
  | Execute (label : cstr) (argv : list cstr)
  | Refused (label : cstr).

(** src/scheduler.c:136-141 (warning_already_sent) *)
Definition warning_already_sent (ctx : SchedCtx) (ev : DbEvent) : bool :=
  existsb (λ '(i, n), (i =? ev_id ev) && bool_decide (n = ev_next_run ev))
    (zip (warned_ids ctx) (warned_next ctx)).

(** The first slot that is free or the event's; the first of all when there is
    none. *)
Fixpoint find_slot (id : Z) (ids : list Z) : option nat :=
  match ids with
  | [] => None
  | x :: ids => if (x =? 0) || (x =? id) then Some O else S <$> find_slot id ids
  end.

(** src/scheduler.c:143-153 (warning_mark_sent) *)
Definition warning_mark_sent (ctx : SchedCtx) (ev : DbEvent) : SchedCtx :=
  let slot := default O (find_slot (ev_id ev) (warned_ids ctx)) in
  MkCtx (<[slot := ev_id ev]> (warned_ids ctx)) (<[slot := safe_copy 32 (ev_next_run ev)]> (warned_next ctx)).

(** A command is run when its template is accepted. *)
Definition run_command (label command : cstr) : option (list action) :=
  if bool_decide (command = []) then Some []
  else r ← bbs_argv_parse_template command None;
       Some (match r with inl _ => [Refused label] | inr argv => [Execute label argv] end).

(** src/scheduler.c:117-134 (run_event) *)
Definition run_event (rows : list event_row) (ev : DbEvent) : option (list event_row * list action) :=
  acts ← run_command (ev_name ev) (ev_command ev);
  Some (db_event_mark_ran (ev_id ev) rows, acts).

(** src/scheduler.c:183-187 (sched_thread) *)
Definition warning_text (ev : DbEvent) (diff : Z) : cstr :=
  take 255 ([13; 10] ++ lit "*** Event '" ++ ev_name ev ++ lit "' will run in " ++ fmt_d (diff / 60)
    ++ lit " minute(s) ***" ++ [13; 10]).

Section rounds.
Context (zone : timezone) (now : Z).

(** The time of an event, and the table with the time it did not have yet.
    src/scheduler.c:166-177 (sched_thread) *)
Definition next_time (rows : list event_row) (ev : DbEvent) : Z * list event_row :=
  let next_ts :=
    if bool_decide (ev_next_run ev = []) then 0
    else fst (mktime zone (strptime (ev_next_run ev))) in
  if next_ts =? 0 then
    let next_ts := parse_schedule zone (ev_schedule ev) now in
    (next_ts, db_event_update_next (ev_id ev) (time_string (localtime_r zone next_ts)) rows)
  else (next_ts, rows).

(** src/scheduler.c:179-190 (sched_thread) *)
Definition warn (ctx : SchedCtx) (ev : DbEvent) (next_ts : Z) : option (SchedCtx * list action) :=
  if 0 <? warning_min ev then
    window ← int_ok (warning_min ev * 60);
    let diff := next_ts - now in
    Some (if (0 <? diff) && (diff <=? window) && negb (warning_already_sent ctx ev)
          then (warning_mark_sent ctx ev, [Broadcast (warning_text ev diff)])
          else (ctx, []))
  else Some (ctx, []).

(** Events of the thread. *)
Definition is_scheduled (ev : DbEvent) : bool :=
  negb (enabled ev =? 0) && bool_decide (event_type ev = lit "scheduled").

(** The body of the loop over the events.
    src/scheduler.c:161-195 (sched_thread) *)
Definition visit (ctx : SchedCtx) (rows : list event_row) (ev : DbEvent) :
  option (SchedCtx * list event_row * list action) :=
  if negb (is_scheduled ev) then Some (ctx, rows, [])
  else
    let '(next_ts, rows) := next_time rows ev in
    '(ctx, warned) ← warn ctx ev next_ts;
    if next_ts <=? now then
      '(rows, acts) ← run_event rows ev;
      Some (ctx, rows, warned ++ acts)
    else Some (ctx, rows, warned).

Fixpoint visit_all (ctx : SchedCtx) (rows : list event_row) (evs : list DbEvent) :
  option (SchedCtx * list event_row * list action) :=
  match evs with
  | [] => Some (ctx, rows, [])
  | ev :: evs =>
      '(ctx, rows, acts) ← visit ctx rows ev;
      '(ctx, rows, acts') ← visit_all ctx rows evs;
      Some (ctx, rows, acts ++ acts')
  end.

(** src/scheduler.c:157-195 (sched_thread) *)
Definition sched_round (ctx : SchedCtx) (rows : list event_row) :
  option (SchedCtx * list event_row * list action) :=
  visit_all ctx rows (db_events_list rows 32).

End rounds.

(** The rounds of the thread at the times they begin, the table changing only by
    them; each round's actions. *)
Fixpoint sched_rounds (zone : timezone) (ctx : SchedCtx) (rows : list event_row) (times : list Z) :
  option (SchedCtx * list event_row * list (list action)) :=
  match times with
  | [] => Some (ctx, rows, [])
  | now :: times =>
      '(ctx, rows, acts) ← sched_round zone now ctx rows;
      '(ctx, rows, l) ← sched_rounds zone ctx rows times;
      Some (ctx, rows, acts :: l)
  end.

(** ** Logging on *)

(** The environment variables around a program. *)
Inductive env_action : Type :=
  | SetEnv (name value : cstr)
  | UnsetEnv (name : cstr)
  | RunWith (label : cstr) (argv : list cstr).

(** src/scheduler.c:249-271 (scheduler_run_logon_events) *)
Definition logon_command (user_id : Z) (handle : cstr) (ev : DbEvent) : option (list env_action) :=
  if bool_decide (ev_command ev = []) then Some []
  else
    r ← bbs_argv_parse_template (ev_command ev) None;
    Some (SetEnv (lit "BBS_USER_ID") (fmt_d user_id) :: SetEnv (lit "BBS_USER_HANDLE") handle ::
          match r with inl _ => [] | inr argv => [RunWith (ev_name ev) argv] end
          ++ [UnsetEnv (lit "BBS_USER_ID"); UnsetEnv (lit "BBS_USER_HANDLE")]).

(** The actions for a user who has logged on.
    src/scheduler.c:240-272 (scheduler_run_logon_events) *)
Fixpoint logon_events (clk : Clock) (s : Session) (handle : cstr) (evs : list DbEvent) :
  option (list env_action) :=
  match evs with
  | [] => Some []
  | ev :: evs =>
      let is_logon := bool_decide (event_type ev = lit "logon") in
      let is_permission := bool_decide (event_type ev = lit "permission") in
      allowed ← (if negb (enabled ev =? 0) && (is_logon || is_permission) then
                   if is_permission then acs_allows clk (Some s) (ev_acs ev) else Some true
                 else Some false);
      here ← (if allowed : bool then logon_command (Acs.id (user s)) handle ev else Some []);
      rest ← logon_events clk s handle evs;
      Some (here ++ rest)
  end.

(** src/scheduler.c:236-273 (scheduler_run_logon_events) *)
Definition scheduler_run_logon_events (clk : Clock) (s : Session) (handle : cstr)
    (rows : list event_row) : option (list env_action) :=
  logon_events clk s handle (db_events_list rows 32).
