(* ===== verification/ScheduleSpec.v ===== *)
(** The times that schedules ask for, in a zone of a fixed offset: the next time
    of a day, of a day of the week or of a day of the month, and nothing in
    between; and the texts in which the scheduler keeps its times. *)

From S2P Require Import Prelude CLib Calendar Scheduler.

#[local] Open Scope Z_scope.

(** ** Schedules *)

Inductive schedule : Type :=
  | Daily (h m : Z)
  | Weekly (d h m : Z)
  | Monthly (d h m : Z)
  | Every (n : Z).

Definition day_names : list cstr :=
  [lit "Sun"; lit "Mon"; lit "Tue"; lit "Wed"; lit "Thu"; lit "Fri"; lit "Sat"].

Definition write_time (h m : Z) : cstr := fmt_0d 2 h ++ ch ":" :: fmt_0d 2 m.

(** How a schedule is written. *)
Definition write_schedule (s : schedule) : cstr :=
  match s with
  | Daily h m => lit "daily@" ++ write_time h m
  | Weekly d h m => lit "weekly:" ++ nth (Z.to_nat d) day_names [] ++ ch "@" :: write_time h m
  | Monthly d h m => lit "monthly:" ++ fmt_d d ++ ch "@" :: write_time h m
  | Every n => lit "every:" ++ fmt_d n
  end.

(** A day of the month that every month has. *)
Definition schedule_ok (s : schedule) : Prop :=
  match s with
  | Daily h m => clock_time h m
  | Weekly d h m => 0 <= d < 7 ∧ clock_time h m
  | Monthly d h m => 1 <= d <= 28 ∧ clock_time h m
  | Every n => 0 < n < 2 ^ 31
  end.

(** The times a schedule names, in local time. *)
Definition due (s : schedule) (t : tm) : Prop :=
  match s with
  | Daily h m => shows t h m
  | Weekly d h m => shows t h m ∧ wday t = d
  | Monthly d h m => shows t h m ∧ mday t = d
  | Every _ => False
  end.

(** ** Reading them *)

Lemma forall_upto (P : Z → bool) n z : forallb P (seqZ 0 n) = true → 0 <= z < n → P z = true.
Proof. rewrite forallb_forall. intros H Hz. apply H, list_elem_of_In, elem_of_seqZ. lia. Qed.

Lemma read_time h m : clock_time h m → hours_minutes (write_time h m) = (h, m).
Proof.
  intros [Hh Hm]. apply (bool_decide_unpack (hours_minutes (write_time h m) = (h, m))), Is_true_true.
  refine (forall_upto (λ m, bool_decide (hours_minutes (write_time h m) = (h, m))) 60 m _ Hm).
  refine (forall_upto (λ h, forallb (λ m, bool_decide (hours_minutes (write_time h m) = (h, m)))
    (seqZ 0 60)) 24 h _ Hh).
  by vm_compute.
Qed.

Lemma read_day d h m :
  0 <= d < 7 →
  cut (ch "@") (nth (Z.to_nat d) day_names [] ++ ch "@" :: write_time h m)
  = Some (nth (Z.to_nat d) day_names [], write_time h m) ∧
  parse_day_of_week (take 7 (nth (Z.to_nat d) day_names [])) = d.
Proof.
  intros Hd. generalize (write_time h m). intros r.
  assert (d = 0 ∨ d = 1 ∨ d = 2 ∨ d = 3 ∨ d = 4 ∨ d = 5 ∨ d = 6) as Hc by lia.
  decompose [or] Hc; subst; split; by vm_compute.
Qed.

(** Reading a written number. *)
Lemma atoi_fmt_d z rest : in_s 32 z → stops 10 rest → atoi (fmt_d z ++ rest) = z.
Proof.
  intros Hz Hr. unfold atoi. rewrite strtoll_fmt_d; [cbn [fst]; by apply swrap_small | zlia | done].
Qed.

Lemma read_mday d rest :
  1 <= d <= 28 →
  cut (ch "@") (fmt_d d ++ ch "@" :: rest) = Some (fmt_d d, rest) ∧ atoi (fmt_d d ++ ch "@" :: rest) = d.
Proof.
  intros Hd. split.
  - apply cut_app, (bool_decide_eq_true_1 _).
    refine (forall_upto (λ d, bool_decide (ch "@" ∉ fmt_d d)) 29 d _ _); [by vm_compute | lia].
  - apply atoi_fmt_d; [zlia | done].
Qed.

(** ** The next time of a schedule *)

Section fixed_zone.
Context (off : Z).

Abbreviation zone := (fixed off).
Abbreviation local := (localtime_r zone).

(** Times by the day and the time of day. *)
Definition at_local (d h m : Z) : Z := at_time d h m - off.

Lemma shows_at h m t : clock_time h m → shows (local t) h m ↔ ∃ d, t = at_local d h m.
Proof.
  intros Hc. cbn [fixed localtime_r]. rewrite (civil_shows 0 (t + off) h m Hc). unfold at_local.
  split; intros [d Hd]; exists d; lia.
Qed.

Definition today (t : Z) : Z := (t + off) / DAY.

(** [mktime] of today's struct with another time of day. *)
Lemma mktime_set_time t h m :
  mktime zone (set_time (local t) h m) = (at_local (today t) h m, civil 0 (at_time (today t) h m)).
Proof.
  cbn [fixed mktime localtime_r].
  assert (local_seconds (set_time (civil 0 (t + off)) h m) = at_time (today t) h m) as ->.
  { unfold local_seconds, set_time, civil, today, at_time.
    cbn [sec minute hour mday mon year]. rewrite month_index. lia. }
  done.
Qed.

(** Two days apart, the same time is a day or more apart. *)
Lemma at_local_lt d e h m : d < e → at_local d h m + DAY <= at_local e h m.
Proof. unfold at_local, at_time, DAY. lia. Qed.

Lemma at_local_today t h m :
  clock_time h m → at_local (today t) h m - DAY < t < at_local (today t) h m + DAY.
Proof.
  unfold at_local, at_time, today, DAY, clock_time. intros. Z.div_mod_to_equations. lia.
Qed.

(** The first time that [P] holds of, from [lo] on. *)
Definition first_time (P : Z → Prop) (lo t : Z) : Prop :=
  lo <= t ∧ P t ∧ ∀ u, lo <= u → P u → t <= u.

(** The first of the times [h:m] of some days: that of the day [d0], when it is not
    before [lo] and those of earlier days are. *)
Lemma first_on_day (D : Z → Prop) (P : Z → Prop) lo d0 h m :
  (∀ t, P t ↔ ∃ d, D d ∧ t = at_local d h m) → D d0 → lo <= at_local d0 h m →
  (∀ d, D d → d < d0 → at_local d h m < lo) → first_time P lo (at_local d0 h m).
Proof.
  intros HP H0 Hlo Hbefore. split_and!; [done | apply HP; by exists d0 |].
  intros u Hu (d & Hd & ->)%HP. destruct (Z.lt_trichotomy d d0) as [Hlt | [-> | Hgt]]; [| done |].
  - specialize (Hbefore d Hd Hlt). lia.
  - apply (at_local_lt _ _ h m) in Hgt. unfold DAY in Hgt. lia.
Qed.

Lemma daily_first h m now :
  clock_time h m →
  first_time (λ t, due (Daily h m) (local t)) now (schedule_daily zone (write_time h m) now).
Proof.
  intros Hc. unfold schedule_daily. rewrite read_time by done. rewrite mktime_set_time. cbn [fst].
  pose proof (at_local_today now h m Hc) as Ht. unfold DAY in Ht.
  assert (∀ t, due (Daily h m) (local t) ↔ ∃ d, True ∧ t = at_local d h m) as HP.
  { intros t. cbn [due]. rewrite shows_at by done.
    split; [intros [d Hd]; by exists d | intros (d & _ & Hd); by exists d]. }
  assert (∀ d e, d < e → at_local d h m + 86400 <= at_local e h m) as Hlt by (intros; by apply at_local_lt).
  destruct (Z.ltb_spec (at_local (today now) h m) now) as [Hn | Hn].
  - replace (at_local (today now) h m + 86400) with (at_local (today now + 1) h m)
      by (unfold at_local, at_time, DAY; lia).
    apply (first_on_day _ _ _ _ _ _ HP); [done | |].
    + specialize (Hlt (today now) (today now + 1) ltac:(lia)). lia.
    + intros d _ Hd. destruct (Z.eq_dec d (today now)) as [-> |]; [done |].
      specialize (Hlt d (today now) ltac:(lia)). lia.
  - apply (first_on_day _ _ _ _ _ _ HP); [done | done |].
    intros d _ Hd. specialize (Hlt d (today now) Hd). lia.
Qed.

(** Moving the struct of a day by whole days. *)
Lemma mktime_add_days l h m n :
  let t := set_time (civil 0 l) h m in
  fst (mktime zone (set_mday t (mday t + n))) = at_local (l / DAY + n) h m.
Proof.
  cbn [fixed mktime fst]. unfold local_seconds, set_mday, set_time, civil, at_local, at_time.
  cbn [sec minute hour mday mon year]. rewrite month_index. lia.
Qed.

Lemma wday_local t : wday (local t) = weekday (today t).
Proof. reflexivity. Qed.

(** A time of day before today is over; and so is today's, once it was. *)
Lemma before_today d h m now : clock_time h m → d < today now → at_local d h m < now + 1.
Proof.
  intros Hc Hd. pose proof (at_local_today now h m Hc). apply (at_local_lt _ _ h m) in Hd.
  unfold DAY in *. lia.
Qed.

Lemma after_today d h m now : clock_time h m → today now < d → now + 1 <= at_local d h m.
Proof.
  intros Hc Hd. pose proof (at_local_today now h m Hc). apply (at_local_lt _ _ h m) in Hd.
  unfold DAY in *. lia.
Qed.

(** Days of the week come back after seven days. *)
Lemma weekday_between d e : weekday d = weekday e → d < e → d <= e - 7.
Proof. unfold weekday. intros. Z.div_mod_to_equations. lia. Qed.

Lemma weekly_first d h m now :
  0 <= d < 7 → clock_time h m →
  first_time (λ t, due (Weekly d h m) (local t)) (now + 1)
    (schedule_weekly zone (nth (Z.to_nat d) day_names [] ++ ch "@" :: write_time h m) now).
Proof.
  intros Hd Hc. unfold schedule_weekly. destruct (read_day d h m Hd) as [-> ->].
  rewrite read_time by done. rewrite (proj2 (Z.ltb_ge d 0)) by lia.
  rewrite mktime_set_time, wday_local. set (T := at_local (today now) h m).
  set (n := Z.rem (d - weekday (today now) + 7) 7).
  assert (∀ t, due (Weekly d h m) (local t) ↔ ∃ e, weekday e = d ∧ t = at_local e h m) as HP.
  { intros t. cbn [due]. rewrite shows_at, wday_local by done. split.
    - intros [[e ->] Hw]. exists e. split; [| done]. revert Hw. unfold today, at_local.
      replace (at_time e h m - off + off) with (at_time e h m) by lia.
      by destruct (at_time_day e h m Hc) as [-> _].
    - intros (e & Hw & ->). split; [by exists e |]. unfold today, at_local.
      replace (at_time e h m - off + off) with (at_time e h m) by lia.
      by destruct (at_time_day e h m Hc) as [-> _]. }
  assert (0 <= n < 7 ∧ weekday (today now + n) = d) as [Hn Hw].
  { unfold n. rewrite Z.rem_mod_nonneg by (unfold weekday; Z.div_mod_to_equations; lia).
    unfold weekday. Z.div_mod_to_equations. lia. }
  assert (∀ k l, l / DAY = today now → weekday (today now + k) = d →
    (k = 0 ∧ now < T ∨ 0 < k < 7 ∨ k = 7 ∧ T <= now) →
    first_time (λ t, due (Weekly d h m) (local t)) (now + 1)
      (fst (mktime zone (set_mday (set_time (civil 0 l) h m) (mday (set_time (civil 0 l) h m) + k))))) as Hfirst.
  { intros k l Hl Hk Hcase. rewrite mktime_add_days, Hl. apply (first_on_day _ _ _ _ _ _ HP); [done | |].
    - destruct Hcase as [[-> ?] | ?]; [rewrite Z.add_0_r; fold T; lia | apply after_today; [done | lia]].
    - intros e He Hlt. apply weekday_between in Hlt; [| congruence].
      destruct (Z.eq_dec e (today now)) as [-> |]; [fold T; lia | apply before_today; [done | lia]]. }
  destruct (at_time_day (today now) h m Hc) as [Hday _].
  destruct (Z.eqb_spec n 0) as [H0 | H0].
  - rewrite H0, Z.add_0_r in Hw. destruct (Z.leb_spec T now); apply Hfirst; auto; try lia.
    + rewrite <- Hw. unfold weekday. Z.div_mod_to_equations. lia.
    + by rewrite Z.add_0_r.
  - apply Hfirst; [done | done | lia].
Qed.

(** The day [d] of the month [k], and the days of the month with that number. *)
Definition month_day (k d : Z) : Z := month_start k + d - 1.

Definition day_number (day : Z) : Z := day - month_start (month_of day) + 1.

Lemma month_of_month_day k d : 1 <= d <= 28 → month_of (month_day k d) = k.
Proof. intros Hd. apply month_of_in. pose proof (month_length k). unfold in_month, month_day. lia. Qed.

Lemma mday_local t : mday (local t) = day_number (today t).
Proof. reflexivity. Qed.

(** The days with a number that every month has are one in each month. *)
Lemma day_number_spec e d : 1 <= d <= 28 → day_number e = d ↔ ∃ j, e = month_day j d.
Proof.
  intros Hd. split.
  - intros <-. exists (month_of e). unfold month_day, day_number.
    generalize (month_start (month_of e)). intros. lia.
  - intros [j ->]. unfold day_number. rewrite month_of_month_day by done. unfold month_day.
    generalize (month_start j). intros. lia.
Qed.

(** Months keep their order on their days. *)
Lemma month_day_lt j k d : 1 <= d <= 28 → month_day j d < month_day k d → j < k.
Proof.
  unfold month_day. intros Hd H. destruct (Z.lt_ge_cases j k) as [? | Hge]; [done |].
  destruct (Z.eq_dec j k) as [-> | Hne]; [lia |]. pose proof (month_start_lt k j). lia.
Qed.

Lemma month_day_past j k d day : 1 <= d <= 28 → in_month k day → j < k → month_day j d < day.
Proof. intros Hd [Hlo _] Hk. apply month_start_lt in Hk. unfold month_day. lia. Qed.

Lemma mktime_month_day t d h m :
  1 <= d <= 28 →
  mktime zone (set_time (set_mday (local t) d) h m)
  = (at_local (month_day (month_of (today t)) d) h m, civil 0 (at_time (month_day (month_of (today t)) d) h m)).
Proof.
  intros Hd.
  assert (local_seconds (set_time (set_mday (local t) d) h m)
    = at_time (month_day (month_of (today t)) d) h m) as E.
  { unfold local_seconds, today, at_time, month_day.
    cbn [fixed localtime_r set_time set_mday civil sec minute hour mday mon year].
    rewrite month_index. lia. }
  unfold at_local. cbn [fixed mktime]. by rewrite E.
Qed.

Lemma mktime_next_month k d h m :
  1 <= d <= 28 → clock_time h m →
  fst (mktime zone (next_month (civil 0 (at_time (month_day k d) h m)))) = at_local (month_day (k + 1) d) h m.
Proof.
  intros Hd Hc. cbn [fixed mktime fst]. destruct (at_time_day (month_day k d) h m Hc) as [Hq Hr].
  unfold local_seconds, next_month, civil. cbn [sec minute hour mday mon year].
  rewrite Hq, Hr, month_of_month_day by done. clear Hq Hr.
  replace (12 * (k / 12 - 1900 + 1900) + (k mod 12 + 1)) with (k + 1) by (pose proof (month_index k); lia).
  unfold at_local, at_time, month_day, clock_time in *.
  assert ((h * 3600 + m * 60) / 3600 = h ∧ (h * 3600 + m * 60) / 60 mod 60 = m
    ∧ (h * 3600 + m * 60) mod 60 = 0) as (-> & -> & ->) by (Z.div_mod_to_equations; lia).
  lia.
Qed.

Lemma today_at_local e h m : clock_time h m → today (at_local e h m) = e.
Proof.
  intros Hc. unfold today, at_local. replace (at_time e h m - off + off) with (at_time e h m) by lia.
  by destruct (at_time_day e h m Hc).
Qed.

(** The times of a monthly schedule. *)
Lemma monthly_due d h m t :
  1 <= d <= 28 → clock_time h m →
  due (Monthly d h m) (local t) ↔ ∃ e, (∃ j, e = month_day j d) ∧ t = at_local e h m.
Proof.
  intros Hd Hc. cbn [due]. rewrite shows_at, mday_local by done. rewrite day_number_spec by done. split.
  - intros [[e ->] Hw]. rewrite today_at_local in Hw by done. by exists e.
  - intros (e & Hw & ->). rewrite today_at_local by done. split; [by exists e | done].
Qed.

Lemma monthly_first d h m now :
  1 <= d <= 28 → clock_time h m →
  first_time (λ t, due (Monthly d h m) (local t)) (now + 1)
    (schedule_monthly zone (fmt_d d ++ ch "@" :: write_time h m) now).
Proof.
  intros Hd Hc. unfold schedule_monthly. destruct (read_mday d (write_time h m) Hd) as [-> ->].
  rewrite (proj2 (orb_false_iff _ _)) by (split; lia). rewrite read_time, mktime_month_day by done.
  generalize (month_of_spec (today now)). generalize (month_of (today now)). intros k Hin.
  pose proof (λ t, monthly_due d h m t Hd Hc) as HP.
  assert (∀ j, j < k → at_local (month_day j d) h m < now + 1) as Hpast.
  { intros j Hj. apply before_today; [done |]. by apply (month_day_past j k). }
  destruct (Z.leb_spec (at_local (month_day k d) h m) now) as [Hn | Hn].
  - rewrite mktime_next_month by done. apply (first_on_day _ _ _ _ _ _ HP); [by eexists | |].
    + apply after_today; [done |]. destruct Hin as [_ Hhi]. unfold month_day. lia.
    + intros e [j ->] Hlt. apply month_day_lt in Hlt; [| done].
      destruct (Z.eq_dec j k) as [-> | Hne]; [lia | apply Hpast; lia].
  - apply (first_on_day _ _ _ _ _ _ HP); [by eexists | lia |].
    intros e [j ->] Hlt. apply Hpast. by apply (month_day_lt j k d).
Qed.

Lemma every_next n now : 0 < n < 2 ^ 31 → schedule_every (fmt_d n) now = now + n.
Proof.
  intros Hn. unfold schedule_every. rewrite <- (app_nil_r (fmt_d n)), atoi_fmt_d by (done || zlia).
  by rewrite (proj2 (Z.leb_gt n 0)) by lia.
Qed.

(** The form of a schedule decides which of the functions reads it. *)
Lemma parse_written s now :
  parse_schedule zone (write_schedule s) now =
  match s with
  | Daily h m => schedule_daily zone (write_time h m) now
  | Weekly d h m => schedule_weekly zone (nth (Z.to_nat d) day_names [] ++ ch "@" :: write_time h m) now
  | Monthly d h m => schedule_monthly zone (fmt_d d ++ ch "@" :: write_time h m) now
  | Every n => schedule_every (fmt_d n) now
  end.
Proof. by destruct s. Qed.

(** C15. A schedule is followed: in a zone of a fixed offset, the time computed for
    a daily schedule is the first one from now on, for a weekly schedule or for a
    monthly one on a day that every month has, the first one after now, at which
    the local clock shows the hour and minute, on the day of the week or of the
    month that was asked for; and an interval is counted from now. *)
Theorem next_run_is_the_first s now :
  schedule_ok s →
  match s with
  | Daily _ _ => first_time (λ t, due s (local t)) now (parse_schedule zone (write_schedule s) now)
  | Weekly _ _ _ | Monthly _ _ _ =>
      first_time (λ t, due s (local t)) (now + 1) (parse_schedule zone (write_schedule s) now)
  | Every n => parse_schedule zone (write_schedule s) now = now + n
  end.
Proof.
  rewrite parse_written. destruct s as [h m | d h m | d h m | n]; cbn [schedule_ok].
  - apply daily_first.
  - intros [Hd Hc]. by apply weekly_first.
  - intros [Hd Hc]. by apply monthly_first.
  - apply every_next.
Qed.

(** The time computed is not in the past. *)
Lemma parse_schedule_future s now :
  schedule_ok s → now <= parse_schedule zone (write_schedule s) now.
Proof.
  rewrite parse_written. destruct s as [h m | d h m | d h m | n]; cbn [schedule_ok].
  - intros Hc. apply (daily_first h m now Hc).
  - intros [Hd Hc]. destruct (weekly_first d h m now Hd Hc). lia.
  - intros [Hd Hc]. destruct (monthly_first d h m now Hd Hc). lia.
  - intros Hn. rewrite every_next by done. lia.
Qed.

(** ** Times kept as texts *)

(** Times of the years of four digits. *)
Definition readable (t : Z) : Prop := 1000 <= year (local t) + 1900 < 10000.

(** The fields of a struct of local time are in their ranges. *)
Lemma civil_ranges l :
  0 <= sec (civil 0 l) < 60 ∧ 0 <= minute (civil 0 l) < 60 ∧ 0 <= hour (civil 0 l) < 24 ∧
  1 <= mday (civil 0 l) <= 31 ∧ 0 <= mon (civil 0 l) < 12.
Proof.
  cbn [civil sec minute hour mday mon]. generalize (month_of_spec (l / DAY)).
  generalize (month_of (l / DAY)). intros k [Hlo Hhi]. pose proof (month_length k).
  unfold DAY in *. split_and!; Z.div_mod_to_equations; lia.
Qed.

(** Two digits, and four. *)
Lemma two_digits_text v : 0 <= v < 100 → fmt_0d 2 v = [48 + v / 10; 48 + v mod 10].
Proof.
  intros Hv. apply (bool_decide_eq_true_1 _).
  refine (forall_upto (λ v, bool_decide (fmt_0d 2 v = [48 + v / 10; 48 + v mod 10])) 100 v _ Hv).
  by vm_compute.
Qed.

Lemma four_digits_text v :
  1000 <= v < 10000 → fmt_d v = [48 + v / 1000; 48 + v / 100 mod 10; 48 + v / 10 mod 10; 48 + v mod 10].
Proof.
  intros Hv.
  assert ((v <? 1000) || bool_decide
    (fmt_d v = [48 + v / 1000; 48 + v / 100 mod 10; 48 + v / 10 mod 10; 48 + v mod 10]) = true) as H.
  { refine (forall_upto (λ v, (v <? 1000) || bool_decide
      (fmt_d v = [48 + v / 1000; 48 + v / 100 mod 10; 48 + v / 10 mod 10; 48 + v mod 10])) 10000 v _ _);
      [by vm_compute | lia]. }
  apply orb_true_iff in H as [H | H]; [lia | by apply bool_decide_eq_true_1 in H].
Qed.

Lemma decimal_digit d : 0 <= d <= 9 → isdigit (48 + d) = true ∧ isspace (48 + d) = false ∧ 48 + d - 48 = d.
Proof. intros. unfold isdigit, isspace. lia. Qed.

Lemma get_two lo hi v r :
  lo <= v <= hi → 0 <= v < 100 → get_number lo hi 2 (fmt_0d 2 v ++ r) = Some (v, r).
Proof.
  intros Hr Hv. rewrite two_digits_text by done.
  assert (0 <= v / 10 <= 9 ∧ 0 <= v mod 10 <= 9) as [Hq Hm] by (Z.div_mod_to_equations; lia).
  destruct (decimal_digit _ Hq) as (D1 & S1 & E1), (decimal_digit _ Hm) as (D2 & S2 & E2).
  unfold get_number. cbn [app skip_space Nat.sub]. rewrite S1, D1, E1. cbn [more_digits].
  rewrite (proj2 (Z.leb_le _ hi)) by (Z.div_mod_to_equations; lia). rewrite D2, E2. cbn [andb].
  replace (v / 10 * 10 + v mod 10) with v by (Z.div_mod_to_equations; lia).
  by rewrite (proj2 (andb_true_iff _ _)) by (split; lia).
Qed.

Lemma get_four v r : 1000 <= v < 10000 → get_number 0 9999 4 (fmt_d v ++ r) = Some (v, r).
Proof.
  intros Hv. rewrite four_digits_text by done.
  assert (0 <= v / 1000 <= 9 ∧ 0 <= v / 100 mod 10 <= 9 ∧ 0 <= v / 10 mod 10 <= 9 ∧ 0 <= v mod 10 <= 9)
    as (H1 & H2 & H3 & H4) by (Z.div_mod_to_equations; lia).
  destruct (decimal_digit _ H1) as (D1 & S1 & E1), (decimal_digit _ H2) as (D2 & S2 & E2),
    (decimal_digit _ H3) as (D3 & S3 & E3), (decimal_digit _ H4) as (D4 & S4 & E4).
  assert (v = ((v / 1000 * 10 + v / 100 mod 10) * 10 + v / 10 mod 10) * 10 + v mod 10) as Hsum
    by (Z.div_mod_to_equations; lia).
  unfold get_number. cbn [app skip_space Nat.sub]. rewrite S1, D1, E1. cbn [more_digits].
  rewrite D2, E2, D3, E3, D4, E4, <- Hsum.
  rewrite !(proj2 (Z.leb_le _ 9999)) by lia. cbn [andb].
  clear Hsum. by rewrite (proj2 (Z.leb_le 0 v)), (proj2 (Z.leb_le v 9999)) by lia.
Qed.

Lemma scan_four fields v r :
  1000 <= v < 10000 →
  scan_fields ((0, (0, 9999, 4%nat)) :: fields) (fmt_d v ++ r) = v :: scan_fields fields r.
Proof.
  intros Hv. cbn [scan_fields]. change (0 =? 0) with true. cbv beta iota. cbn [mbind option_bind].
  by rewrite get_four.
Qed.

(** A separator of the format and a number of two digits. *)
Lemma scan_two sep lo hi fields v r :
  sep ≠ 0 → lo <= v <= hi → 0 <= v < 100 →
  scan_fields ((sep, (lo, hi, 2%nat)) :: fields) (sep :: fmt_0d 2 v ++ r) = v :: scan_fields fields r.
Proof.
  intros Hs Hr Hv. cbn [scan_fields]. rewrite (proj2 (Z.eqb_neq sep 0)) by done.
  assert (get_char sep (sep :: fmt_0d 2 v ++ r) = Some (fmt_0d 2 v ++ r)) as ->.
  { unfold get_char. destruct (isspace sep) eqn:Hsp; [| by rewrite Z.eqb_refl].
    f_equal. cbn [skip_space]. rewrite Hsp, two_digits_text by done. cbn [app skip_space].
    assert (0 <= v / 10 <= 9) as Hq by (Z.div_mod_to_equations; lia).
    by destruct (decimal_digit _ Hq) as (_ & -> & _). }
  cbn [mbind option_bind]. by rewrite get_two.
Qed.

Lemma scan_two_last sep lo hi fields v :
  sep ≠ 0 → lo <= v <= hi → 0 <= v < 100 →
  scan_fields ((sep, (lo, hi, 2%nat)) :: fields) (sep :: fmt_0d 2 v) = v :: scan_fields fields [].
Proof. rewrite <- (app_nil_r (fmt_0d 2 v)). apply scan_two. Qed.

(** A struct's text is read back, but for the day of the week. *)
Lemma strptime_time_string t :
  1000 <= year t + 1900 < 10000 → 0 <= sec t < 60 → 0 <= minute t < 60 → 0 <= hour t < 24 →
  1 <= mday t <= 31 → 0 <= mon t < 12 →
  strptime (time_string t) = MkTm (sec t) (minute t) (hour t) (mday t) (mon t) (year t) 0 0.
Proof.
  intros Hy Hs Hm Hh Hd Hmo. unfold strptime.
  assert (scan_fields time_fields (time_string t)
    = [year t + 1900; mon t + 1; mday t; hour t; minute t; sec t]) as ->.
  { unfold time_fields, time_string. rewrite scan_four by lia.
    by rewrite !scan_two, scan_two_last by (done || lia). }
  cbn. f_equal; lia.
Qed.

Lemma local_seconds_fields c w d :
  local_seconds (MkTm (sec c) (minute c) (hour c) (mday c) (mon c) (year c) w d) = local_seconds c.
Proof. unfold local_seconds. cbn [sec minute hour mday mon year]. done. Qed.

(** A time that the scheduler has written down is the time it reads. *)
Lemma stored_time_reads_back t :
  readable t → fst (mktime zone (strptime (time_string (local t)))) = t.
Proof.
  intros Hy. destruct (civil_ranges (t + off)) as (Hs & Hm & Hh & Hd & Hmo).
  rewrite strptime_time_string by done. cbn [fixed mktime fst]. rewrite local_seconds_fields.
  cbn [fixed localtime_r]. rewrite local_seconds_civil. lia.
Qed.

(** Its text fits the field that the table's list has for it. *)
Lemma time_string_length t : readable t → length (time_string (local t)) = 19%nat.
Proof.
  intros Hy. destruct (civil_ranges (t + off)) as (Hs & Hm & Hh & Hd & Hmo).
  unfold time_string, readable in *. cbn [fixed localtime_r] in *.
  rewrite four_digits_text, !two_digits_text by lia. done.
Qed.

End fixed_zone.

(** ** Concrete inputs *)

(** Monday at three, from a Sunday morning. *)
Lemma next_run_is_the_first_witness :
  first_time (λ t, due (Weekly 1 3 0) (localtime_r (fixed 0) t)) (1749956400 + 1)
    (parse_schedule (fixed 0) (lit "weekly:Mon@03:00") 1749956400) ∧
  parse_schedule (fixed 0) (lit "weekly:Mon@03:00") 1749956400 = 1750042800.
Proof.
  split; [| by vm_compute].
  apply (next_run_is_the_first 0 (Weekly 1 3 0)). unfold schedule_ok, clock_time. lia.
Defined.
