(* ===== verification/SchedulerSpec.v ===== *)
(** The scheduler's rounds: a round treats every event of the first 32 rows on its
    own, an event runs at the first round at which its time has come and at no
    other, and what the scheduler does with the rest. *)

From S2P Require Import Prelude CLib Acs AcsSpec Process Calendar Scheduler ScheduleSpec.

#[local] Open Scope Z_scope.

(** ** Commands are always read *)

Lemma scan_argument_shorter p : ∀ quote tok t q rest,
  scan_argument p quote tok = inr (t, q, rest) → (length rest <= length p)%nat.
Proof.
  induction p as [p IH] using (well_founded_induction (well_founded_ltof _ (@length Z))).
  intros quote tok t q rest. destruct p as [|c r]; cbn [scan_argument]; [by intros [= <- <- <-] |].
  assert (Hr : ∀ q' k, scan_argument r q' k = inr (t, q, rest) → (length rest <= S (length r))%nat).
  { intros q' k H. apply IH in H; [lia | unfold ltof; cbn; lia]. }
  destruct ((quote =? 0) && isspace c); [by intros [= <- <- <-]; cbn |].
  destruct ((quote =? 0) && ((c =? ch "'") || (c =? 34))); [by intros H; apply Hr in H |].
  destruct (negb (quote =? 0) && (c =? quote)); [by intros H; apply Hr in H |].
  destruct r as [|d r'].
  - unfold push_char. case_match; [done |]. apply Hr.
  - unfold push_char. destruct (c =? ch "\"); (case_match; [done |]); [| apply Hr].
    intros E. apply IH in E; [cbn; lia | unfold ltof; cbn; lia].
Qed.

(** A token takes a character. *)
Lemma scan_argument_first c r t q rest :
  isspace c = false → scan_argument (c :: r) 0 [] = inr (t, q, rest) → (length rest <= length r)%nat.
Proof.
  intros Hc. cbn [scan_argument]. rewrite Hc. cbn [andb].
  destruct (((c =? ch "'") || (c =? 34))); [apply scan_argument_shorter |].
  change (negb (0 =? 0)) with false. cbn [andb]. destruct r as [|d r'].
  - unfold push_char. case_match; [done |]. apply scan_argument_shorter.
  - unfold push_char. destruct (c =? ch "\"); (case_match; [done |]); intros E;
      apply scan_argument_shorter in E; cbn in *; lia.
Qed.

Lemma tokens_total fuel p : (length p < fuel)%nat → is_Some (tokens fuel p).
Proof.
  revert p. induction fuel as [|fuel IH]; intros p Hp; [lia |]. cbn [tokens].
  pose proof (skip_space_le p) as Hle.
  assert (match skip_space p with c :: _ => isspace c = false | [] => True end) as Hc.
  { clear. induction p as [|c p IH]; cbn; [done |]. destruct (isspace c) eqn:E; done. }
  destruct (skip_space p) as [|c r]; [by eexists |].
  destruct (scan_argument (c :: r) 0 []) as [e | [[t q] rest]] eqn:E; [by eexists |].
  destruct (negb (q =? 0)); [by eexists |]. apply scan_argument_first in E; [| done].
  cbn in Hle. destruct (IH rest ltac:(lia)) as [l ->]. by eexists.
Qed.

Lemma template_total command f : is_Some (bbs_argv_parse_template command f).
Proof.
  unfold bbs_argv_parse_template.
  assert (is_Some (split_command command)) as [l ->]; [| by eexists].
  unfold split_command. case_bool_decide; [by eexists |]. case_match; [by eexists |].
  apply tokens_total. lia.
Qed.

Lemma run_command_total label command : is_Some (run_command label command).
Proof.
  unfold run_command. case_bool_decide; [by eexists |].
  destruct (template_total command None) as [r ->]. by eexists.
Qed.

(** ** What a round does to a row *)

Section one_round.
Context (zone : timezone) (now : Z).

(** The time of a row's event, and whether it is computed in this round. *)
Definition event_time (ev : DbEvent) : Z * bool :=
  let ts := if bool_decide (ev_next_run ev = []) then 0
            else fst (mktime zone (strptime (ev_next_run ev))) in
  if ts =? 0 then (parse_schedule zone (ev_schedule ev) now, true) else (ts, false).

(** The row after the round. *)
Definition after_round (r : event_row) : event_row :=
  if is_scheduled (fetch r) then
    let '(ts, fresh) := event_time (fetch r) in
    if ts <=? now then set_next None r
    else if fresh : bool then set_next (Some (time_string (localtime_r zone ts))) r
    else r
  else r.

(** The programs the round runs for the row. *)
Definition programs (r : event_row) : list action :=
  if is_scheduled (fetch r) && (fst (event_time (fetch r)) <=? now) then
    default [] (run_command (ev_name (fetch r)) (ev_command (fetch r)))
  else [].

Definition is_broadcast (a : action) : Prop := match a with Broadcast _ => True | _ => False end.

#[local] Instance is_broadcast_dec a : Decision (is_broadcast a).
Proof. destruct a; apply _. Defined.

(** A round's actions but for the warnings. *)
Definition without_warnings (acts : list action) : list action :=
  filter (λ a, ¬ is_broadcast a) acts.

(** The warning window of a row is an [int]. *)
Definition window_ok (r : event_row) : Prop := in_s 32 (default 0 (row_warning_min r) * 60).

Definition table_ok (rows : list event_row) : Prop :=
  NoDup (map row_id rows) ∧ Forall window_ok rows.

Lemma update_where_one f pre r post :
  NoDup (map row_id (pre ++ r :: post)) → update_where (row_id r) f (pre ++ r :: post) = pre ++ f r :: post.
Proof.
  intros Hnd. unfold update_where. rewrite map_app. cbn [map]. rewrite Z.eqb_refl.
  rewrite map_app in Hnd. cbn [map] in Hnd.
  apply NoDup_app in Hnd as (_ & Hpre & Hpost). apply NoDup_cons in Hpost as [Hpost _].
  assert (∀ l, row_id r ∉ map row_id l → map (λ x, if row_id x =? row_id r then f x else x) l = l) as Hid.
  { induction l as [|x l IH]; cbn; [done |]. intros [Hx Hl]%not_elem_of_cons.
    rewrite (proj2 (Z.eqb_neq _ _)) by done. by rewrite IH. }
  rewrite !Hid; [done | done |]. intros Hin. apply (Hpre _ Hin). by left.
Qed.

Lemma set_next_id n r : row_id (set_next n r) = row_id r.
Proof. reflexivity. Qed.

Lemma after_round_id r : row_id (after_round r) = row_id r.
Proof. unfold after_round. repeat case_match; done. Qed.

Lemma same_ids pre r r' post :
  row_id r' = row_id r → map row_id (pre ++ r :: post) = map row_id (pre ++ r' :: post).
Proof. intros H. rewrite !map_app. cbn. by rewrite H. Qed.

Lemma warn_shape ctx r ts :
  window_ok r → ∃ ctx' acts, warn now ctx (fetch r) ts = Some (ctx', acts) ∧ without_warnings acts = [].
Proof.
  intros Hw. unfold warn. destruct (0 <? warning_min (fetch r)); [| by eexists _, []].
  rewrite int_ok_some by done. cbn [mbind option_bind]. case_match; by eexists _, _.
Qed.

Lemma run_command_warnings label command acts :
  run_command label command = Some acts → without_warnings acts = acts.
Proof.
  unfold run_command. case_bool_decide; [by intros [= <-] |].
  destruct (bbs_argv_parse_template command None) as [[e | argv] |]; cbn; [by intros [= <-].. | done].
Qed.

(** One event of a round. *)
Lemma visit_row ctx pre r post :
  table_ok (pre ++ r :: post) →
  ∃ ctx' acts, visit zone now ctx (pre ++ r :: post) (fetch r) = Some (ctx', pre ++ after_round r :: post, acts) ∧
    without_warnings acts = programs r.
Proof.
  intros [Hnd Hw]. assert (window_ok r) as Hr.
  { rewrite Forall_app, Forall_cons in Hw. apply Hw. }
  unfold visit, after_round, programs. destruct (is_scheduled (fetch r)) eqn:Hs; cbn [negb andb];
    [| by eexists _, _].
  assert (next_time zone now (pre ++ r :: post) (fetch r) =
    let '(ts, fresh) := event_time (fetch r) in
    (ts, pre ++ (if fresh then set_next (Some (time_string (localtime_r zone ts))) r else r) :: post)) as ->.
  { unfold next_time, event_time. set (ts := if bool_decide _ then 0 else _). destruct (ts =? 0); [| done].
    unfold db_event_update_next. by rewrite (update_where_one _ pre r post). }
  destruct (event_time (fetch r)) as [ts fresh]. cbn [fst].
  destruct (warn_shape ctx r ts Hr) as (ctx1 & warned & -> & Hwarned). cbn [mbind option_bind].
  destruct (ts <=? now); [| exists ctx1, warned; by destruct fresh].
  unfold run_event.
  destruct (run_command_total (ev_name (fetch r)) (ev_command (fetch r))) as [acts Ha]. rewrite Ha.
  cbn [mbind option_bind default].
  exists ctx1, (warned ++ acts). split.
  - do 3 f_equal. unfold db_event_mark_ran. change (ev_id (fetch r)) with (row_id r).
    destruct fresh; [| by rewrite update_where_one].
    rewrite <- (set_next_id (Some (time_string (localtime_r zone ts))) r).
    rewrite update_where_one; [done |]. by rewrite <- (same_ids pre r).
  - unfold without_warnings in *. rewrite filter_app, Hwarned. by apply run_command_warnings in Ha.
Qed.

Lemma table_ok_after pre r post :
  table_ok (pre ++ r :: post) → table_ok (pre ++ after_round r :: post).
Proof.
  intros [Hnd Hw]. split; [by rewrite <- (same_ids pre r) by apply after_round_id |].
  rewrite Forall_app, Forall_cons in *. destruct Hw as (Hp & Hr & Hq). split_and!; [done | | done].
  unfold after_round, window_ok in *. repeat case_match; done.
Qed.

Lemma visit_all_rows todo : ∀ ctx pre post,
  table_ok (pre ++ todo ++ post) →
  ∃ ctx' acts, visit_all zone now ctx (pre ++ todo ++ post) (map fetch todo)
      = Some (ctx', pre ++ map after_round todo ++ post, acts) ∧
    without_warnings acts = concat (map programs todo) ∧
    table_ok (pre ++ map after_round todo ++ post).
Proof.
  induction todo as [|r todo IH]; intros ctx pre post Hok; [by eexists _, [] |].
  cbn [map visit_all app] in *.
  destruct (visit_row ctx pre r (todo ++ post) Hok) as (ctx1 & acts & -> & Ha). cbn [mbind option_bind].
  apply table_ok_after in Hok.
  rewrite (cons_middle (after_round r) pre), app_assoc in Hok |- *.
  destruct (IH ctx1 (pre ++ [after_round r]) post Hok) as (ctx2 & acts2 & E & Ha2 & Hok2).
  rewrite E. cbn [mbind option_bind]. exists ctx2, (acts ++ acts2).
  rewrite <- !app_assoc in *. cbn [app] in *. split_and!; [done | | done].
  unfold without_warnings in *. by rewrite filter_app, Ha, Ha2.
Qed.

(** A round treats the first 32 rows, each on its own. *)
Definition after_rows (rows : list event_row) : list event_row :=
  map after_round (take 32 rows) ++ drop 32 rows.

Lemma sched_round_rows ctx rows :
  table_ok rows →
  ∃ ctx' acts, sched_round zone now ctx rows = Some (ctx', after_rows rows, acts) ∧
    without_warnings acts = concat (map programs (take 32 rows)) ∧ table_ok (after_rows rows).
Proof.
  intros Hok. unfold sched_round, db_events_list. rewrite <- fmap_take.
  rewrite <- (take_drop 32 rows) in Hok.
  destruct (visit_all_rows (take 32 rows) ctx [] (drop 32 rows) Hok) as (ctx' & acts & E & Ha & Hok').
  cbn [app] in E. rewrite take_drop in E. by exists ctx', acts.
Qed.

End one_round.

(** ** An event through the rounds *)

(** The actions that carry an event's name. *)
Definition carries (name : cstr) (a : action) : Prop :=
  match a with Execute l _ | Refused l => l = name | Broadcast _ => False end.

#[export] Instance carries_dec name a : Decision (carries name a).
Proof. destruct a; cbn; apply _. Defined.

Definition of_event (name : cstr) (acts : list action) : list action := filter (carries name) acts.

Lemma of_event_programs name acts : of_event name (without_warnings acts) = of_event name acts.
Proof.
  unfold of_event, without_warnings. induction acts as [|a acts IH]; [done |].
  rewrite (filter_cons (λ a, ¬ is_broadcast a)). destruct (decide (¬ is_broadcast a)) as [H | H].
  - rewrite !filter_cons. by rewrite IH.
  - rewrite filter_cons, decide_False; [done |]. destruct a; cbn in *; tauto.
Qed.

(** The name of a row's event, as the actions carry it. *)
Definition name_of (r : event_row) : cstr := safe_copy 64 (row_name r).

Lemma programs_of_event zone now name r :
  of_event name (programs zone now r) = if bool_decide (name_of r = name) then programs zone now r else [].
Proof.
  unfold programs. destruct (is_scheduled (fetch r) && _); [| by case_bool_decide].
  unfold run_command. change (ev_name (fetch r)) with (name_of r).
  case_bool_decide as Hc; [by case_bool_decide |].
  destruct (bbs_argv_parse_template _ None) as [[e | argv] |]; cbn [mbind option_bind from_option];
    [| | by case_bool_decide];
    (unfold of_event, Datatypes.id; rewrite filter_cons, filter_nil; cbn [carries];
     case_bool_decide; by rewrite ?decide_True, ?decide_False by done).
Qed.

Lemma of_event_app name l1 l2 : of_event name (l1 ++ l2) = of_event name l1 ++ of_event name l2.
Proof. apply filter_app. Qed.

Lemma of_event_none zone now name l :
  (∀ r, r ∈ l → name_of r ≠ name) → of_event name (concat (map (programs zone now) l)) = [].
Proof.
  induction l as [|r l IH]; intros Hl; [done |]. cbn [map concat]. rewrite of_event_app.
  rewrite IH by (intros; apply Hl; by right). rewrite programs_of_event, bool_decide_eq_false_2; [done |].
  apply Hl. by left.
Qed.

(** No other row has the event's name. *)
Definition own_name (i : nat) (r : event_row) (rows : list event_row) : Prop :=
  rows !! i = Some r ∧ ∀ j r', rows !! j = Some r' → name_of r' = name_of r → j = i.

Lemma of_event_row zone now i r rows :
  own_name i r rows → (i < 32)%nat →
  of_event (name_of r) (concat (map (programs zone now) (take 32 rows))) = programs zone now r.
Proof.
  intros [Hi Hown] Hlt.
  assert (take 32 rows !! i = Some r) as Ht by by rewrite lookup_take_lt.
  pose proof (take_drop_middle _ _ _ Ht) as E.
  pose proof (lookup_lt_Some _ _ _ Ht) as Hti.
  set (l1 := take i (take 32 rows)) in *. set (l2 := drop (S i) (take 32 rows)) in *.
  assert (length l1 = i) as Hl by (unfold l1; rewrite length_take; lia).
  clearbody l1 l2. rewrite <- E. rewrite <- E in Hti.
  assert (∀ j r', (l1 ++ r :: l2) !! j = Some r' → name_of r' = name_of r → j = i) as Hun.
  { intros j r' Hj. rewrite E in Hj. apply lookup_take_Some in Hj as [Hj _]. by apply Hown. }
  rewrite map_app, concat_app. cbn [map concat]. rewrite !of_event_app.
  rewrite !(of_event_none zone now (name_of r)).
  - rewrite app_nil_l, app_nil_r.
    by rewrite programs_of_event, bool_decide_eq_true_2.
  - intros r' Hr Hn. apply list_elem_of_lookup in Hr as [j Hj].
    specialize (Hun (length l1 + S j)%nat r'). rewrite lookup_app_r in Hun by lia.
    replace (length l1 + S j - length l1)%nat with (S j) in Hun by lia. specialize (Hun Hj Hn). lia.
  - intros r' Hr Hn. apply list_elem_of_lookup in Hr as [j Hj].
    specialize (Hun j r'). pose proof (lookup_lt_Some _ _ _ Hj).
    rewrite lookup_app_l in Hun by done. specialize (Hun Hj Hn). lia.
Qed.

Lemma after_round_name zone now r : name_of (after_round zone now r) = name_of r.
Proof. unfold after_round. repeat case_match; done. Qed.

Lemma after_rows_lookup zone now rows j :
  after_rows zone now rows !! j = (λ r, if decide (j < 32)%nat then after_round zone now r else r) <$> rows !! j.
Proof.
  unfold after_rows. destruct (decide (j < 32)%nat) as [Hj | Hj].
  - destruct (decide (j < length rows)%nat) as [Hl | Hl].
    + rewrite lookup_app_l by (rewrite length_map, length_take; lia).
      rewrite list_lookup_fmap, lookup_take_lt by lia. done.
    + rewrite !lookup_ge_None_2; [done | lia |].
      rewrite length_app, length_map, length_take, length_drop. lia.
  - destruct (decide (32 <= length rows)%nat) as [Hl | Hl].
    + rewrite lookup_app_r by (rewrite length_map, length_take; lia).
      rewrite length_map, length_take, lookup_drop.
      replace (32 + (j - 32 `min` length rows))%nat with j by lia. by destruct (rows !! j).
    + rewrite !lookup_ge_None_2; [done | lia |].
      rewrite length_app, length_map, length_take, length_drop. lia.
Qed.

Lemma own_name_after zone now i r rows :
  own_name i r rows → (i < 32)%nat → own_name i (after_round zone now r) (after_rows zone now rows).
Proof.
  intros [Hi Hown] Hlt. split.
  - rewrite after_rows_lookup, Hi. cbn [fmap option_fmap option_map]. by rewrite decide_True.
  - intros j r' Hj Hn. rewrite after_rows_lookup in Hj. rewrite after_round_name in Hn.
    destruct (rows !! j) as [x|] eqn:Hx; [| done]. cbn in Hj. injection Hj as <-.
    apply (Hown j x Hx). rewrite <- Hn. case_decide; by rewrite ?after_round_name.
Qed.

(** A round, for one event. *)
Lemma round_of_event zone now ctx rows i r :
  table_ok rows → own_name i r rows → (i < 32)%nat →
  ∃ ctx' rows' acts, sched_round zone now ctx rows = Some (ctx', rows', acts) ∧
    of_event (name_of r) acts = programs zone now r ∧
    table_ok rows' ∧ own_name i (after_round zone now r) rows'.
Proof.
  intros Hok Hown Hi. destruct (sched_round_rows zone now ctx rows Hok) as (ctx' & acts & E & Ha & Hok').
  exists ctx', (after_rows zone now rows), acts. split_and!; [done | | done | by apply own_name_after].
  rewrite <- of_event_programs, Ha. by apply of_event_row with i.
Qed.

(** A round that leaves an event as it is. *)
Definition idle (zone : timezone) (r : event_row) (now : Z) : Prop :=
  after_round zone now r = r ∧ programs zone now r = [].

Lemma idle_rounds zone r i ns : ∀ ctx rows,
  table_ok rows → own_name i r rows → (i < 32)%nat → Forall (idle zone r) ns →
  ∃ ctx' rows' logs, sched_rounds zone ctx rows ns = Some (ctx', rows', logs) ∧
    map (of_event (name_of r)) logs = replicate (length ns) [] ∧ table_ok rows' ∧ own_name i r rows'.
Proof.
  induction ns as [|n ns IH]; intros ctx rows Hok Hown Hi Hidle; [by eexists _, _, [] |].
  apply Forall_cons in Hidle as [[Hafter Hnone] Hidle]. cbn [sched_rounds].
  destruct (round_of_event zone n ctx rows i r Hok Hown Hi) as (c1 & r1 & acts & -> & Ha & Hok1 & Hown1).
  rewrite Hafter in Hown1. cbn [mbind option_bind].
  destruct (IH c1 r1 Hok1 Hown1 Hi Hidle) as (c2 & r2 & logs & -> & Hl & Hok2 & Hown2).
  cbn [mbind option_bind]. eexists _, _, (acts :: logs). split_and!; [done | | done | done].
  cbn [map length replicate]. by rewrite Ha, Hnone, Hl.
Qed.

Lemma sched_rounds_app zone times1 times2 : ∀ ctx rows,
  sched_rounds zone ctx rows (times1 ++ times2) =
  ('(ctx, rows, l1) ← sched_rounds zone ctx rows times1;
   '(ctx, rows, l2) ← sched_rounds zone ctx rows times2;
   Some (ctx, rows, l1 ++ l2)).
Proof.
  induction times1 as [|t times1 IH]; intros ctx rows; cbn [sched_rounds app].
  - cbn. by destruct (sched_rounds zone ctx rows times2) as [[[? ?] ?] |].
  - destruct (sched_round zone t ctx rows) as [[[c1 r1] acts] |]; [| done]. cbn [mbind option_bind].
    rewrite IH. destruct (sched_rounds zone c1 r1 times1) as [[[c2 r2] l1] |]; [| done].
    cbn [mbind option_bind]. by destruct (sched_rounds zone c2 r2 times2) as [[[? ?] ?] |].
Qed.

(** ** Events run when they are due *)

Section due_events.
Context (off : Z).

Abbreviation zone := (fixed off).

(** A row of the scheduler's, with its schedule and the arguments of its command. *)
Record follows (s : schedule) (argv : list cstr) (r : event_row) : Prop := {
  follows_ok : schedule_ok s;
  follows_scheduled : is_scheduled (fetch r) = true;
  follows_schedule : ev_schedule (fetch r) = write_schedule s;
  follows_command : ev_command (fetch r) ≠ [] ∧
    bbs_argv_parse_template (ev_command (fetch r)) None = Some (inr argv)
}.

Definition stored (t : Z) : cstr := time_string (localtime_r zone t).

Lemma follows_set_next s argv r n : follows s argv r → follows s argv (set_next n r).
Proof. by intros []; constructor. Qed.

(** The time of an event that has none, and of one that has. *)
Lemma fresh_time s argv now r :
  follows s argv r → row_next_run r = None →
  event_time zone now (fetch r) = (parse_schedule zone (write_schedule s) now, true).
Proof.
  intros H Hn. unfold event_time. cbn [fetch ev_next_run]. rewrite Hn. cbn.
  by rewrite <- (follows_schedule _ _ _ H).
Qed.

Lemma stored_time now t r :
  readable off t → t ≠ 0 → row_next_run r = Some (stored t) → event_time zone now (fetch r) = (t, false).
Proof.
  intros Hr Ht Hn. assert (length (stored t) = 19%nat) as Hlen by exact (time_string_length off t Hr).
  assert (ev_next_run (fetch r) = stored t) as E.
  { unfold fetch. cbn [ev_next_run]. rewrite Hn. apply take_ge. change (length (stored t) <= 31)%nat. lia. }
  unfold event_time. rewrite E. rewrite bool_decide_eq_false_2 by (intros E'; by rewrite E' in Hlen).
  unfold stored. rewrite stored_time_reads_back by done. by rewrite (proj2 (Z.eqb_neq t 0)).
Qed.

(** The rounds of an event whose time is stored. *)
Lemma waits s argv now t r :
  follows s argv r → readable off t → t ≠ 0 → row_next_run r = Some (stored t) → now < t →
  idle zone r now.
Proof.
  intros H Hr Ht Hn Hlt. unfold idle, after_round, programs.
  rewrite (follows_scheduled _ _ _ H), (stored_time now t) by done. cbn [fst].
  by rewrite (proj2 (Z.leb_gt t now)).
Qed.

Lemma runs_at s argv now r :
  follows s argv r → fst (event_time zone now (fetch r)) <= now →
  programs zone now r = [Execute (name_of r) argv] ∧ after_round zone now r = set_next None r.
Proof.
  intros H Hle. unfold programs, after_round. rewrite (follows_scheduled _ _ _ H).
  destruct (event_time zone now (fetch r)) as [ts fresh]. cbn [fst] in *.
  rewrite (proj2 (Z.leb_le ts now)) by done. split; [| done]. cbn [andb].
  destruct (follows_command _ _ _ H) as [Hne Hp]. unfold run_command.
  rewrite bool_decide_eq_false_2 by done. by rewrite Hp.
Qed.

(** An event whose time [t] is computed in the round at [n0]. *)
Lemma runs_once s argv ctx rows i r t n0 ns last :
  table_ok rows → own_name i r rows → (i < 32)%nat → follows s argv r →
  event_time zone n0 (fetch r) = (t, true) →
  readable off t → t ≠ 0 → n0 < t → Forall (λ n, n < t) ns → t <= last →
  ∃ ctx' rows' logs,
    sched_rounds zone ctx rows (n0 :: ns ++ [last]) = Some (ctx', rows', logs) ∧
    map (of_event (name_of r)) logs = replicate (S (length ns)) [] ++ [[Execute (name_of r) argv]] ∧
    ∃ r', rows' !! i = Some r' ∧ follows s argv r' ∧ row_next_run r' = None.
Proof.
  intros Hok Hown Hi Hf Hfresh Hr Hpos Hlt Hns Hlast. cbn [sched_rounds].
  assert (programs zone n0 r = [] ∧ after_round zone n0 r = set_next (Some (stored t)) r) as [Hp0 Ha0].
  { unfold programs, after_round. rewrite (follows_scheduled _ _ _ Hf), Hfresh.
    cbn [fst]. rewrite (proj2 (Z.leb_gt t n0)) by done. rewrite andb_false_r. unfold stored.
    split; reflexivity. }
  destruct (round_of_event zone n0 ctx rows i r Hok Hown Hi) as (c1 & r1 & acts & -> & Ha & Hok1 & Hown1).
  rewrite Ha0 in Hown1. cbn [mbind option_bind]. set (w := set_next (Some (stored t)) r) in *.
  assert (Hw : follows s argv w) by by apply follows_set_next.
  assert (Hname : name_of w = name_of r) by done.
  destruct (idle_rounds zone w i ns c1 r1 Hok1 Hown1 Hi) as (c2 & r2 & logs & E & Hl & Hok2 & Hown2).
  { eapply Forall_impl; [exact Hns |]. cbn. intros n Hn. by apply (waits s argv n t). }
  rewrite sched_rounds_app, E. cbn [mbind option_bind sched_rounds].
  destruct (round_of_event zone last c2 r2 i w Hok2 Hown2 Hi) as (c3 & r3 & acts' & -> & Ha' & _ & Hown3).
  cbn [mbind option_bind]. destruct (runs_at s argv last w Hw) as [Hp Hafter].
  { by rewrite (stored_time last t). }
  eexists _, _, (acts :: logs ++ [acts']). split; [done |]. rewrite Hname in *. split.
  - cbn [map replicate]. rewrite map_app. cbn [map]. by rewrite Ha, Hp0, Hl, Ha', Hp.
  - rewrite Hafter in Hown3. destruct Hown3 as [H3 _]. eexists. split; [exact H3 |].
    split; [by repeat apply follows_set_next | done].
Qed.

(** C14. A scheduled event runs at its time, once, in a time zone of fixed offset: for
    every table of events with distinct identifiers and warning windows whose
    seconds are ints, and every event with a name of its own among its first 32
    rows, whose schedule is well formed (a day of the month is at most 28), whose
    command splits into arguments and which waits for its time to be computed, the rounds
    up to the first one at or after the time its schedule asks for finish; none of
    them but the last runs the event's command, the last one runs it once, with
    the arguments of its template, and the event then waits for its next time.
    The time has a year of four digits. Where clocks change to daylight-saving
    time this fails: the stored time is read as one of standard time and the event
    is late by an hour while it lasts (scheduler.c:168). *)
Theorem scheduled_events_run_once s argv ctx rows i r n0 ns last :
  table_ok rows → own_name i r rows → (i < 32)%nat → follows s argv r → row_next_run r = None →
  let t := parse_schedule zone (write_schedule s) n0 in
  readable off t → 0 < n0 → n0 < t → Forall (λ n, n < t) ns → t <= last →
  ∃ ctx' rows' logs,
    sched_rounds zone ctx rows (n0 :: ns ++ [last]) = Some (ctx', rows', logs) ∧
    map (of_event (name_of r)) logs = replicate (S (length ns)) [] ++ [[Execute (name_of r) argv]] ∧
    ∃ r', rows' !! i = Some r' ∧ follows s argv r' ∧ row_next_run r' = None.
Proof.
  intros Hok Hown Hi Hf Hnone t Hr Hpos Hlt. pose proof (fresh_time s argv n0 r Hf Hnone) as Hfresh.
  subst t. apply (runs_once s argv ctx rows i r _ n0 ns last Hok Hown Hi Hf Hfresh Hr); [lia | done].
Qed.

End due_events.

(** ** What the scheduler does not do *)

(** An event below the first 32 rows of the table is never run. *)
Lemma later_rows_never_run zone now ctx rows ctx' rows' acts name :
  table_ok rows → Forall (λ r, name_of r ≠ name) (take 32 rows) →
  sched_round zone now ctx rows = Some (ctx', rows', acts) →
  of_event name acts = [] ∧ drop 32 rows' = drop 32 rows.
Proof.
  intros Hok Hnames E. destruct (sched_round_rows zone now ctx rows Hok) as (c & a & E' & Ha & _).
  rewrite E' in E. injection E as <- <- <-. split.
  - rewrite <- of_event_programs, Ha. apply of_event_none. by apply Forall_forall.
  - unfold after_rows. destruct (decide (32 <= length rows)%nat) as [Hl | Hl].
    + rewrite drop_app_length'; [done |]. rewrite length_map, length_take. lia.
    + rewrite !drop_ge; [done | lia |]. rewrite length_app, length_map, length_take, length_drop. lia.
Qed.

(** In daylight-saving time a stored time is read as one of standard time, an hour
    later. *)
Lemma summer_times_are_late off t :
  readable (off + 3600) t →
  fst (mktime (summer off) (strptime (time_string (localtime_r (summer off) t)))) = t + 3600.
Proof.
  unfold readable. cbn [summer fixed mktime localtime_r fst].
  replace (t + (off + 3600)) with (t + off + 3600) by lia. intros Hy.
  destruct (civil_ranges (t + off + 3600)) as (Hs & Hm & Hh & Hd & Hmo).
  assert (time_string (civil 1 (t + off + 3600)) = time_string (civil 0 (t + off + 3600))) as ->.
  { unfold time_string. cbn [civil year mon mday hour minute sec]. reflexivity. }
  rewrite strptime_time_string by done. rewrite local_seconds_fields, local_seconds_civil.
  cbn [isdst]. change (0 <? 0) with false. cbv iota. lia.
Qed.

(** The access of an event of logging on is not looked at. *)
Lemma logon_events_ignore_acs clk s handle ev :
  enabled ev ≠ 0 → event_type ev = lit "logon" →
  logon_events clk s handle [ev] = (here ← logon_command (Acs.id (user s)) handle ev; Some (here ++ [])).
Proof.
  intros He Ht. cbn [logon_events]. rewrite Ht, (proj2 (Z.eqb_neq (enabled ev) 0)) by done.
  rewrite bool_decide_eq_true_2 by done. rewrite bool_decide_eq_false_2 by (by vm_compute). done.
Qed.

(** *** The environment of programs *)

(** The environment is the process's, shared by the threads of all sessions. *)
Definition environment : Type := cstr → option cstr.

Definition set_env (name : cstr) (v : option cstr) (e : environment) : environment :=
  λ n, if bool_decide (n = name) then v else e n.

(** The programs that are run, each with the user it is told. *)
Fixpoint run_env (e : environment) (acts : list env_action) : list (cstr * option cstr) :=
  match acts with
  | [] => []
  | SetEnv n v :: acts => run_env (set_env n (Some v) e) acts
  | UnsetEnv n :: acts => run_env (set_env n None e) acts
  | RunWith label _ :: acts => (label, e (lit "BBS_USER_ID")) :: run_env e acts
  end.

(** The environment that actions leave. *)
Fixpoint env_after (e : environment) (acts : list env_action) : environment :=
  match acts with
  | [] => e
  | SetEnv n v :: acts => env_after (set_env n (Some v) e) acts
  | UnsetEnv n :: acts => env_after (set_env n None e) acts
  | RunWith _ _ :: acts => env_after e acts
  end.

Lemma run_env_app e l1 l2 : run_env e (l1 ++ l2) = run_env e l1 ++ run_env (env_after e l1) l2.
Proof. revert e. induction l1 as [|[n v | n | l a] l1 IH]; intros e; cbn; [done | apply IH.. |]. by rewrite IH. Qed.

(** The programs of a session that is alone are told its user. *)
Lemma logon_programs_alone clk s handle evs : ∀ acts e,
  logon_events clk s handle evs = Some acts →
  Forall (λ p, snd p = Some (fmt_d (Acs.id (user s)))) (run_env e acts).
Proof.
  induction evs as [|ev evs IH]; intros acts e; cbn [logon_events]; [by intros [= <-]; constructor |].
  intros (allowed & _ & H)%bind_Some. apply bind_Some in H as (here & Hh & H).
  apply bind_Some in H as (rest & Hr & [= <-]). rewrite run_env_app, Forall_app.
  split; [| by apply IH]. destruct allowed; [| by injection Hh as <-; constructor].
  revert Hh. unfold logon_command. case_bool_decide; [by intros [= <-]; constructor |].
  intros (r & _ & [= <-])%bind_Some. destruct r as [err | argv]; cbn [app run_env]; [by constructor |].
  constructor; [| constructor]. done.
Qed.

(** The actions of two threads, in any order that keeps each one's. *)
Inductive shuffle {A} : list A → list A → list A → Prop :=
  | shuffle_nil : shuffle [] [] []
  | shuffle_left x l1 l2 l : shuffle l1 l2 l → shuffle (x :: l1) l2 (x :: l)
  | shuffle_right x l1 l2 l : shuffle l1 l2 l → shuffle l1 (x :: l2) (x :: l).

(** ** Concrete inputs *)

Definition qwk_row : event_row :=
  MkRow 1 (lit "QWK") (lit "daily@03:00") (lit "mutineer-qwkgen --all-users") None None None (Some 60) None.

Definition logon_row : event_row :=
  MkRow 2 (lit "Greet") (lit "logon") (lit "greet") None (Some (lit "logon")) (Some (lit "S255")) None None.

Definition sample_rows : list event_row := [logon_row; qwk_row].

(** 02:30 of a day. *)
Definition half_past_two : Z := 1750041000.

Lemma qwk_follows :
  follows (Daily 3 0) [lit "mutineer-qwkgen"; lit "--all-users"] qwk_row.
Proof. constructor; [unfold schedule_ok, clock_time; lia | by vm_compute.. |]. by split; vm_compute. Qed.

Lemma sample_table_ok : table_ok sample_rows.
Proof.
  split; [by apply (bool_decide_unpack _); vm_compute |].
  by repeat constructor; vm_compute.
Qed.

Lemma scheduled_events_run_once_witness :
  ∃ ctx' rows' logs,
    sched_rounds (fixed 0) new_ctx sample_rows [half_past_two; half_past_two + 30; half_past_two + 1810]
      = Some (ctx', rows', logs) ∧
    map (of_event (lit "QWK")) logs =
      [[]; []; [Execute (lit "QWK") [lit "mutineer-qwkgen"; lit "--all-users"]]].
Proof.
  destruct (scheduled_events_run_once 0 (Daily 3 0) [lit "mutineer-qwkgen"; lit "--all-users"] new_ctx
    sample_rows 1 qwk_row half_past_two [half_past_two + 30] (half_past_two + 1810))
    as (ctx' & rows' & logs & E & H & _).
  - exact sample_table_ok.
  - split; [done |]. intros [|[|j]] r' Hj Hn; [| done | done]. injection Hj as <-. by vm_compute in Hn.
  - lia.
  - exact qwk_follows.
  - done.
  - vm_compute. split; congruence.
  - done.
  - by vm_compute.
  - by repeat constructor; vm_compute.
  - by vm_compute.
  - exists ctx', rows', logs. split; [exact E | exact H].
Defined.

(** ** Gaps *)

(** The session of another user. *)
Definition other_session : Session :=
  MkSession (MkUser 8 (ch "F") [] 20 20 0 0 10 4 8 100 60 [] 1 3 1 2) 0 2 30 None.

Definition greet_actions (id : cstr) (handle : cstr) : list env_action :=
  [SetEnv (lit "BBS_USER_ID") id; SetEnv (lit "BBS_USER_HANDLE") handle;
   RunWith (lit "Greet") [lit "greet"];
   UnsetEnv (lit "BBS_USER_ID"); UnsetEnv (lit "BBS_USER_HANDLE")].

(** One thread sets the variables, then the other, and then both programs run. *)
Definition mixed_actions : list env_action :=
  take 2 (greet_actions (lit "7") (lit "Anne")) ++ take 3 (greet_actions (lit "8") (lit "Mary"))
  ++ drop 2 (greet_actions (lit "7") (lit "Anne")) ++ drop 3 (greet_actions (lit "8") (lit "Mary")).

Lemma mixed_shuffle :
  shuffle (greet_actions (lit "7") (lit "Anne")) (greet_actions (lit "8") (lit "Mary")) mixed_actions.
Proof.
  do 2 apply shuffle_left. do 3 apply shuffle_right. do 3 apply shuffle_left. do 2 apply shuffle_right.
  constructor.
Qed.

(** 10 April 2025, 12:00 UTC. *)
Definition april : Z := 1744286400.

(** What the scheduler does other than it means to: a monthly event on the 31st
    runs on the 1st of the month after a short month; a schedule without a time of
    day, such as the [daily] the event editor offers, runs every hour; while
    daylight-saving time is in effect, the time it stored for an event is read
    back as an hour later; an event below the first 32 rows is never run; a
    warning is sent twice, in the round that computes an event's time and in the
    next; the access string of an event of logging on is not looked at; and of two
    users who log on at the same time, the program of the one may be told that it
    runs for the other. *)
Theorem scheduler_gaps :
  (let t := localtime_r (fixed 0) (parse_schedule (fixed 0) (lit "monthly:31@12:00") april) in
   mday t = 1 ∧ mon t = 4) ∧
  (∀ zone now, parse_schedule zone (lit "daily") now = now + 3600) ∧
  (∀ off t, readable (off + 3600) t →
     fst (mktime (summer off) (strptime (time_string (localtime_r (summer off) t)))) = t + 3600) ∧
  (∀ zone now ctx rows ctx' rows' acts name,
     table_ok rows → Forall (λ r, name_of r ≠ name) (take 32 rows) →
     sched_round zone now ctx rows = Some (ctx', rows', acts) → of_event name acts = []) ∧
  (∃ ctx rows m1 m2,
     sched_rounds (fixed 0) new_ctx sample_rows [half_past_two; half_past_two + 30; half_past_two + 60]
     = Some (ctx, rows, [[Broadcast m1]; [Broadcast m2]; []])) ∧
  (acs_allows sample_clock (Some sample_session) (default [] (row_acs logon_row)) = Some false ∧
   scheduler_run_logon_events sample_clock sample_session (lit "Anne") sample_rows
   = Some (greet_actions (lit "7") (lit "Anne"))) ∧
  (scheduler_run_logon_events sample_clock other_session (lit "Mary") sample_rows
     = Some (greet_actions (lit "8") (lit "Mary")) ∧
   ∃ l, shuffle (greet_actions (lit "7") (lit "Anne")) (greet_actions (lit "8") (lit "Mary")) l ∧
     run_env (λ _, None) l = [(lit "Greet", Some (lit "8")); (lit "Greet", Some (lit "8"))]).
Proof.
  split; [by vm_compute |]. split; [reflexivity |].
  split; [| split; [| split; [| split; [by split; vm_compute | split; [by vm_compute |]]]]].
  - intros off t. apply summer_times_are_late.
  - intros zone now ctx rows ctx' rows' acts name Hok Hn E.
    by apply (later_rows_never_run zone now ctx rows ctx' rows' acts name).
  - eexists _, _, _, _. vm_compute. reflexivity.
  - exists mixed_actions. split; [exact mixed_shuffle | by vm_compute].
Qed.
