(* ===== verification/Menu.v ===== *)
(** Menus (src/menu.c): their files, read and written, the lookup of a key, what a
    user sees, and the choice of a command in the session's loop (src/session.c).
    [menu_render] keeps the offset of the code: [None] is a write outside of the
    buffer, or an undefined MCI code or condition. *)

From S2P Require Import Prelude CLib Acs Mci.

#[local] Open Scope Z_scope.

(** ** Data *)

(** include/bbs_menu.h:21-30 (MenuItem) *)
Record MenuItem : Type := MkItem {
  key : Z;
  key_str : cstr;
  label : cstr;
  action : cstr;
  data : cstr;
  item_acs : cstr;
  item_flags : Z;
  password : cstr
}.

(** include/bbs_menu.h:32-42 (Menu) *)
Record Menu : Type := MkMenu {
  name : cstr;
  title : cstr;
  prompt : cstr;
  art_file : cstr;
  fallback : cstr;
  menu_flags : Z;
  gen_cols : Z;
  items : list MenuItem
}.

(** Flags with their names, in the order of the code.
    include/bbs_menu.h:6-13 (MENU_FLAG_CLRSCR_BEFORE) *)
Definition menu_flag_names : list (Z * cstr) :=
  [(1, lit "clrscr"); (2, lit "nocenter"); (4, lit "notitle"); (8, lit "pause");
   (16, lit "autotime"); (32, lit "noprompt"); (64, lit "lightbar"); (128, lit "hotkeys")].

(** include/bbs_menu.h:16-19 (CMD_FLAG_HIDDEN) *)
Definition cmd_flag_names : list (Z * cstr) :=
  [(1, lit "hidden"); (2, lit "unhidden"); (4, lit "password"); (8, lit "sysoplog")].

Definition flag_set (flags bit : Z) : bool := negb (Z.land flags bit =? 0).

(** ** Texts *)

Definition trim_end (s : cstr) : cstr := rev (skip_space (rev s)).

(** src/util.c:14-22 (str_trim) *)
Definition str_trim (s : cstr) : cstr := skip_space (trim_end s).

(** [snprintf(dst, cap, "%s", s)] *)
Definition copy (cap : nat) (s : cstr) : cstr := take (cap - 1) s.

(** [strcasecmp(a, b) == 0] *)
Definition same_word (a b : cstr) : bool := bool_decide (map tolower a = map tolower b).

(** [strtok(s, ",")]: the parts that are not empty. *)
Fixpoint comma_tokens (cur s : cstr) : list cstr :=
  let flush := match cur with [] => [] | _ => [cur] end in
  match s with
  | [] => flush
  | c :: s => if c =? ch "," then flush ++ comma_tokens [] s else comma_tokens (cur ++ [c]) s
  end.

(** The bit of a word; the first name that is the word. *)
Fixpoint flag_of (names : list (Z * cstr)) (tok : cstr) : Z :=
  match names with
  | [] => 0
  | (bit, n) :: names => if same_word tok n then bit else flag_of names tok
  end.

Definition parse_flags (names : list (Z * cstr)) (str : cstr) : Z :=
  fold_left (λ flags tok, Z.lor flags (flag_of names (str_trim tok)))
    (comma_tokens [] (copy 256 str)) 0.

(** src/menu.c:19-42 (parse_menu_flags) *)
Definition parse_menu_flags : cstr → Z := parse_flags menu_flag_names.

(** src/menu.c:44-63 (parse_cmd_flags) *)
Definition parse_cmd_flags : cstr → Z := parse_flags cmd_flag_names.

(** [strncat(out, s, cap - strlen(out) - 1)] *)
Definition strncat (cap : nat) (out s : cstr) : cstr := out ++ take (cap - length out - 1) s.

(** src/menu.c:65-70 (append_flag) *)
Definition append_flag (cap : nat) (st : cstr * bool) (n : cstr) : cstr * bool :=
  let '(out, first) := st in
  (strncat cap (if first : bool then out else strncat cap out (lit ",")) n, false).

Definition format_flags (names : list (Z * cstr)) (flags : Z) (cap : nat) : cstr :=
  fst (fold_left (λ st '(bit, n), if flag_set flags bit then append_flag cap st n else st)
    names ([], true)).

(** src/menu.c:72-84 (format_menu_flags) *)
Definition format_menu_flags (flags : Z) (cap : nat) : cstr := format_flags menu_flag_names flags cap.

(** src/menu.c:86-94 (format_cmd_flags) *)
Definition format_cmd_flags (flags : Z) (cap : nat) : cstr := format_flags cmd_flag_names flags cap.

(** ** Reading a file *)

(** At most [n] bars split the text. *)
Fixpoint split_bars (n : nat) (s : cstr) : list cstr :=
  match n with
  | O => [s]
  | S n => match cut (ch "|") s with Some (l, r) => l :: split_bars n r | None => [s] end
  end.

(** src/menu.c:96-164 (parse_line) *)
Definition parse_line (line : cstr) : option MenuItem :=
  let parts := split_bars 7 (copy 512 line) in
  let nparts := length parts in
  if (nparts <? 3)%nat then None
  else
    let part i := str_trim (nth i parts []) in
    let k := part 0%nat in
    let dat := if (5 <=? nparts)%nat then copy 256 (part 3%nat) else [] in
    let acs := if (nparts =? 4)%nat then part 3%nat
               else if (5 <=? nparts)%nat then part 4%nat else [] in
    let cmdflags := if (6 <=? nparts)%nat then part 5%nat else [] in
    let pw := if (7 <=? nparts)%nat then part 6%nat else [] in
    if bool_decide (k = []) then None
    else
      let multi := (1 <? length k)%nat in
      Some (MkItem (if multi then 0 else toupper (char_at k 0))
              (if multi then map toupper (copy 8 k) else [])
              (copy 128 (part 1%nat)) (copy 64 (part 2%nat)) dat (copy 64 acs)
              (parse_cmd_flags cmdflags) (copy 32 pw)).

(** The characters after the last [c]; the text when there is none. *)
Fixpoint after_last (c : Z) (s : cstr) : cstr :=
  match s with
  | [] => []
  | x :: r => if bool_decide (c ∈ r) then after_last c r else if x =? c then r else x :: r
  end.

(** The characters before the last [c]. *)
Definition before_last (c : Z) (s : cstr) : cstr :=
  if bool_decide (c ∈ s) then take (length s - length (after_last c s) - 1) s else s.

(** src/menu.c:172-177 (menu_load) *)
Definition name_of_path (path : cstr) : cstr :=
  before_last (ch ".") (copy 32 (after_last (ch "/") path)).

Definition set_title (v : cstr) (m : Menu) : Menu :=
  MkMenu (name m) v (prompt m) (art_file m) (fallback m) (menu_flags m) (gen_cols m) (items m).
Definition set_flags (v : Z) (m : Menu) : Menu :=
  MkMenu (name m) (title m) (prompt m) (art_file m) (fallback m) v (gen_cols m) (items m).
Definition set_prompt (v : cstr) (m : Menu) : Menu :=
  MkMenu (name m) (title m) v (art_file m) (fallback m) (menu_flags m) (gen_cols m) (items m).
Definition set_art (v : cstr) (m : Menu) : Menu :=
  MkMenu (name m) (title m) (prompt m) v (fallback m) (menu_flags m) (gen_cols m) (items m).
Definition set_fallback (v : cstr) (m : Menu) : Menu :=
  MkMenu (name m) (title m) (prompt m) (art_file m) v (menu_flags m) (gen_cols m) (items m).
Definition set_cols (v : Z) (m : Menu) : Menu :=
  MkMenu (name m) (title m) (prompt m) (art_file m) (fallback m) (menu_flags m) v (items m).
Definition add_item (it : MenuItem) (m : Menu) : Menu :=
  MkMenu (name m) (title m) (prompt m) (art_file m) (fallback m) (menu_flags m) (gen_cols m)
    (items m ++ [it]).

(** A line that begins with an at sign; [line] is what follows it.
    src/menu.c:193-218 (menu_load) *)
Definition directive (line : cstr) (m : Menu) : Menu :=
  let '(word, val) := match cut (ch " ") line with
                      | Some (w, v) => (w, str_trim v)
                      | None => (line, []) end in
  if same_word word (lit "TITLE") then set_title (copy 128 val) m
  else if same_word word (lit "FLAGS") then set_flags (parse_menu_flags val) m
  else if same_word word (lit "PROMPT") then set_prompt (copy 64 val) m
  else if same_word word (lit "ART") then set_art (copy 64 val) m
  else if same_word word (lit "FALLBACK") then set_fallback (copy 32 val) m
  else if same_word word (lit "COLS") then set_cols (Z.min 4 (Z.max 1 (atoi val))) m
  else m.

(** src/menu.c:186-228 (menu_load) *)
Definition load_line (m : Menu) (line : cstr) : Menu :=
  match str_trim line with
  | [] => m
  | c :: r =>
      if c =? ch "#" then m
      else if c =? ch "@" then directive r m
      else match parse_line (c :: r) with Some it => add_item it m | None => m end
  end.

(** The menu of a file's content; [None] when the file could not be opened.
    src/menu.c:166-234 (menu_load) *)
Definition menu_load (path : cstr) (content : option cstr) : option Menu :=
  file ← content;
  Some (fold_left load_line (read_lines 511 [] file)
    (MkMenu (name_of_path path) (lit "Mutineer Menu") (lit "Selection: ") [] [] 0 1 [])).

(** ** Writing a file *)

(** src/menu.c:258-259 (menu_save) *)
Definition key_disp (it : MenuItem) : cstr :=
  if key it =? 0 then copy 16 (key_str it) else [key it].

(** src/menu.c:254-269 (menu_save) *)
Definition item_line (it : MenuItem) : cstr :=
  key_disp it ++ ch "|" :: label it ++ ch "|" :: action it ++ ch "|" :: data it ++ ch "|" :: item_acs it
  ++ ch "|" :: format_cmd_flags (item_flags it) 128 ++ ch "|" :: password it ++ [10].

(** The content that is written.
    src/menu.c:236-273 (menu_save) *)
Definition menu_save (m : Menu) : cstr :=
  let flags := format_menu_flags (menu_flags m) 256 in
  lit "# Menu: " ++ (if bool_decide (name m = []) then lit "menu" else name m) ++ [10]
  ++ lit "@TITLE " ++ title m ++ [10]
  ++ (if bool_decide (flags = []) then [] else lit "@FLAGS " ++ flags ++ [10])
  ++ lit "@PROMPT " ++ prompt m ++ [10]
  ++ (if bool_decide (art_file m = []) then [] else lit "@ART " ++ art_file m ++ [10])
  ++ (if bool_decide (fallback m = []) then [] else lit "@FALLBACK " ++ fallback m ++ [10])
  ++ lit "@COLS " ++ fmt_d (if 0 <? gen_cols m then gen_cols m else 1) ++ [10]
  ++ lit "# key|label|action|data|acs|cmdflags|password" ++ [10]
  ++ concat (map item_line (items m)).

(** ** Using a menu *)

(** src/menu.c:286-295 (menu_find) *)
Definition menu_find (m : Menu) (k : Z) : option MenuItem :=
  List.find (λ it, (key it =? toupper k) && negb (key it =? 0)) (items m).

(** src/menu.c:297-312 (menu_find_str) *)
Definition menu_find_str (m : Menu) (k : cstr) : option MenuItem :=
  let upper := map toupper (copy 16 k) in
  List.find (λ it, negb (bool_decide (key_str it = [])) && bool_decide (key_str it = upper)) (items m).

Section menus.
Context (clk : Clock) (tm_min : Z) (s : option MciSession).

(** src/menu.c:314-327 (menu_item_visible) *)
Definition menu_item_visible (it : MenuItem) : option bool :=
  if flag_set (item_flags it) 1 then Some false
  else if flag_set (item_flags it) 2 then Some true
  else if bool_decide (item_acs it = []) then Some true
  else acs_allows clk (acs_part <$> s) (item_acs it).

(** A text with its codes expanded, or copied when nobody is logged on. *)
Definition expanded (cap : nat) (t : cstr) : option cstr :=
  match s with
  | Some _ => mci_expand clk tm_min s t cap
  | None => Some (copy cap t)
  end.

(** [o += snprintf(buf + o, cap - o, ...)]: the text so far is what was asked to be
    written, its length the offset [o]; the buffer has its first [cap - 1]
    characters. Past the end, [cap - o] wraps and the text is written outside. *)
Definition put (cap : nat) (t out : cstr) : option cstr :=
  if (length out <=? cap)%nat then Some (out ++ t) else None.

Definition crlf : cstr := [13; 10].

(** Blanks one by one, while there is room.
    src/menu.c:356 (menu_render) *)
Fixpoint pad (cap : nat) (n : nat) (out : cstr) : cstr :=
  match n with
  | O => out
  | S n => if (length out + 1 <? cap)%nat then pad cap n (out ++ [32]) else out
  end.

(** src/menu.c:340-360 (menu_render) *)
Definition render_title (cap : nat) (m : Menu) (out : cstr) : option cstr :=
  if flag_set (menu_flags m) 4 then Some out
  else
    t ← expanded 256 (title m);
    out ← put cap crlf out;
    let out :=
      if flag_set (menu_flags m) 2 then out
      else pad cap (Z.to_nat (Z.quot (80 - (Z.of_nat (length t) + 8)) 2)) out in
    out ← put cap (lit "=== " ++ t ++ lit " ===" ++ crlf) out;
    put cap crlf out.

(** One item, in the column [col]; the text and the next column.
    src/menu.c:370-392 (menu_render) *)
Definition render_item (cap : nat) (cols col : Z) (it : MenuItem) (out : cstr) : option (cstr * Z) :=
  lbl ← expanded 256 (label it);
  if 1 <? cols then
    out ← put cap (lit "  [" ++ key_disp it ++ lit "] "
                   ++ pad_right (Z.to_nat (Z.abs (Z.quot 80 cols - 8))) lbl) out;
    if cols <=? col + 1 then out ← put cap crlf out; Some (out, 0) else Some (out, col + 1)
  else
    out ← put cap (lit "  [" ++ key_disp it ++ lit "] " ++ lbl ++ crlf) out; Some (out, col).

(** src/menu.c:367-395 (menu_render) *)
Fixpoint render_items (cap : nat) (cols col : Z) (l : list MenuItem) (out : cstr) : option (cstr * Z) :=
  match l with
  | [] => Some (out, col)
  | it :: l =>
      v ← menu_item_visible it;
      if v : bool then
        '(out, col) ← render_item cap cols col it out;
        if (cap <=? length out)%nat then Some (out, col) else render_items cap cols col l out
      else render_items cap cols col l out
  end.

(** The offset is the length of the result; the buffer has its first [cap - 1]
    characters.
    src/menu.c:329-421 (menu_render) *)
Definition menu_render (m : Menu) (cap : nat) : option cstr :=
  match cap with
  | O => Some []
  | S _ =>
      out ← (if flag_set (menu_flags m) 1 then put cap (27 :: lit "[2J" ++ 27 :: lit "[H") [] else Some []);
      out ← render_title cap m out;
      let cols := if 0 <? gen_cols m then gen_cols m else 1 in
      '(out, col) ← render_items cap cols 0 (items m) out;
      out ← (if (1 <? cols) && (0 <? col) then put cap crlf out else Some out);
      out ← (if flag_set (menu_flags m) 16 then
               match s with
               | Some s => put cap (crlf ++ lit "[Time left: " ++ fmt_d (time_left_min (acs_part s))
                                    ++ lit " min]" ++ crlf) out
               | None => Some out
               end
             else Some out);
      if flag_set (menu_flags m) 32 then Some out
      else p ← expanded 128 (prompt m); put cap (crlf ++ p) out
  end.

End menus.

(** ** The choice of a command *)

Inductive choice : Type :=
  | FunctionKey
  | Invalid
  | Denied
  | BadPassword
  | Run (action : cstr).

(** A line the user typed; [pw] is the answer to the question for a password, when
    one is asked, [None] when there was none.
    src/session.c:4499-4531 (session_thread_main) *)
Definition choose (clk : Clock) (s : Session) (m : Menu) (line : cstr) (pw : option cstr) : option choice :=
  if char_at line 0 =? 27 then Some FunctionKey
  else
    match menu_find m (char_at line 0) with
    | None => Some Invalid
    | Some it =>
        allowed ← acs_allows clk (Some s) (item_acs it);
        Some (if negb allowed then Denied
              else if flag_set (item_flags it) 4
                      && negb (match pw with
                               | Some (c :: p) => bool_decide (c :: p = password it)
                               | _ => false end) then BadPassword
              else Run (action it))
    end.
