(* ===== verification/MenuSpec.v ===== *)
(** What menus promise (src/menu.c): a saved menu loads again, a page that fits its
    buffer is its heading, its rows and its prompt, and the loop of a session runs
    a command only for those its conditions and its password let in. *)

From S2P Require Import Prelude CLib Acs AcsSpec Mci MciSpec Menu.

#[local] Open Scope Z_scope.

(** ** Blanks at the ends *)

(** Neither end is blank. *)
Definition trimmed (s : cstr) : Prop :=
  ∀ c, head s = Some c ∨ last s = Some c → isspace c = false.

Definition blank (s : cstr) : Prop := Forall (λ c, isspace c = true) s.

Lemma skip_space_stop s : (∀ c, head s = Some c → isspace c = false) → skip_space s = s.
Proof. destruct s as [|c s]; [done |]. intros H. cbn. by rewrite (H c eq_refl). Qed.

Lemma skip_space_blank a b : blank a → skip_space (a ++ b) = skip_space b.
Proof. induction 1 as [|c a Hc _ IH]; [done |]. cbn. by rewrite Hc. Qed.

Lemma skip_space_blanks s : skip_space s = [] → blank s.
Proof.
  induction s as [|c s IH]; [by constructor |]. cbn. destruct (isspace c) eqn:E; [| done].
  intros H. apply Forall_cons. split; [done | by apply IH].
Qed.

Lemma skip_space_app a b : skip_space a ≠ [] → skip_space (a ++ b) = skip_space a ++ b.
Proof.
  induction a as [|c a IH]; [done |]. cbn. destruct (isspace c); [| done]. apply IH.
Qed.

Lemma skip_space_front s : ∃ a, blank a ∧ s = a ++ skip_space s.
Proof.
  induction s as [|c s (a & Ha & E)].
  { exists []. by split; [constructor |]. }
  cbn. destruct (isspace c) eqn:Ec.
  - exists (c :: a). split; [by constructor |]. cbn. by f_equal.
  - exists []. by split; [constructor |].
Qed.

Lemma blank_rev s : blank (rev s) → blank s.
Proof. intros H%Forall_rev. by rewrite rev_involutive in H. Qed.

Lemma head_rev (s : cstr) : head (rev s) = last s.
Proof. rewrite rev_alt. apply head_reverse. Qed.

Lemma trim_end_stop s : (∀ c, last s = Some c → isspace c = false) → trim_end s = s.
Proof.
  intros H. unfold trim_end. rewrite skip_space_stop; [by rewrite rev_involutive |].
  intros c. rewrite head_rev. apply H.
Qed.

Lemma trim_end_blank a b : blank b → trim_end (a ++ b) = trim_end a.
Proof.
  intros H. unfold trim_end. rewrite rev_app_distr, skip_space_blank; [done |].
  apply blank_rev. by rewrite rev_involutive.
Qed.

Lemma trim_end_front a b : trim_end b ≠ [] → trim_end (a ++ b) = a ++ trim_end b.
Proof.
  unfold trim_end. intros H. rewrite rev_app_distr, skip_space_app.
  - by rewrite rev_app_distr, rev_involutive.
  - intros E. by rewrite E in H.
Qed.

Lemma trim_end_all s : trim_end s = [] → blank s.
Proof.
  unfold trim_end. intros H%(f_equal (@rev Z)). rewrite rev_involutive in H.
  by apply blank_rev, skip_space_blanks.
Qed.

Lemma trim_end_back s : ∃ b, blank b ∧ s = trim_end s ++ b.
Proof.
  destruct (skip_space_front (rev s)) as (a & Ha & E). exists (rev a). split.
  - apply blank_rev. by rewrite rev_involutive.
  - unfold trim_end. by rewrite <- rev_app_distr, <- E, rev_involutive.
Qed.

Lemma trim_trimmed s : trimmed s → str_trim s = s.
Proof.
  intros H. unfold str_trim. rewrite trim_end_stop by auto. apply skip_space_stop. auto.
Qed.

Lemma trim_blank s b : blank b → str_trim (s ++ b) = str_trim s.
Proof. intros H. unfold str_trim. by rewrite trim_end_blank. Qed.

Lemma trim_keeps (P : Z → Prop) s : Forall P s → Forall P (str_trim s).
Proof.
  intros H. unfold str_trim.
  destruct (trim_end_back s) as (b & _ & E). rewrite E in H. apply Forall_app in H as [H _].
  destruct (skip_space_front (trim_end s)) as (a & _ & E'). rewrite E' in H.
  by apply Forall_app in H as [_ H].
Qed.

Lemma trim_length s : (length (str_trim s) <= length s)%nat.
Proof.
  unfold str_trim. destruct (trim_end_back s) as (b & _ & E). rewrite E at 2.
  destruct (skip_space_front (trim_end s)) as (a & _ & E'). rewrite E' at 2.
  rewrite !length_app. lia.
Qed.

Lemma trimmed_app a b : trimmed a → trimmed b → a ≠ [] → b ≠ [] → trimmed (a ++ b).
Proof.
  intros Ha Hb Na Nb c [H | H].
  - apply Ha. left. by destruct a.
  - apply Hb. right. rewrite last_app in H. destruct (last b) eqn:E; [done |].
    by apply last_None in E.
Qed.

Lemma copy_short cap s : (length s < cap)%nat → copy cap s = s.
Proof. intros H. apply take_ge. lia. Qed.

(** ** Lines of a file *)

Lemma load_line_end m l : load_line m (l ++ [10]) = load_line m l.
Proof. unfold load_line. by rewrite trim_blank by by repeat constructor. Qed.

Lemma load_lines ls m :
  fold_left load_line (map (λ l, l ++ [10]) ls) m = fold_left load_line ls m.
Proof.
  revert m. induction ls as [|l ls IH]; intros m; [done |]. cbn [map fold_left].
  by rewrite load_line_end, IH.
Qed.

(** Trimming a text with a first character. *)
Lemma trim_head c r : isspace c = false → str_trim (c :: r) = c :: trim_end r.
Proof.
  intros Hc. unfold str_trim. destruct (decide (trim_end r = [])) as [E | E].
  - rewrite E. assert (c :: r = [c] ++ r) as -> by done.
    rewrite trim_end_blank by by apply trim_end_all. cbn. rewrite Hc. cbn. by rewrite Hc.
  - change (c :: r) with ([c] ++ r). rewrite (trim_end_front [c] r E). cbn. by rewrite Hc.
Qed.

Lemma trim_trim_end v : str_trim (trim_end v) = str_trim v.
Proof.
  destruct (trim_end_back v) as (b & Hb & E). rewrite E at 2. by rewrite trim_blank.
Qed.

Lemma load_comment m r : load_line m (ch "#" :: r) = m.
Proof. unfold load_line. by rewrite trim_head. Qed.

Lemma directive_line m word v :
  trimmed word → word ≠ [] → ch " " ∉ word →
  load_line m (ch "@" :: word ++ ch " " :: v) = directive (word ++ ch " " :: v) m.
Proof.
  intros Hw Nw Hs. unfold load_line. rewrite trim_head by done.
  change (ch "@" =? ch "#") with false. rewrite Z.eqb_refl. cbn iota.
  destruct (decide (trim_end v = [])) as [E%trim_end_all | E].
  - rewrite trim_end_blank by by constructor.
    rewrite trim_end_stop by auto. unfold directive. rewrite cut_app, cut_none by done.
    by rewrite <- (app_nil_l v), trim_blank.
  - change (ch " " :: v) with ([ch " "] ++ v) at 1. rewrite app_assoc, trim_end_front by done.
    rewrite <- app_assoc. cbn [app]. unfold directive. rewrite !cut_app by done.
    by rewrite trim_trim_end.
Qed.

(** The directive lines [menu_save] writes. *)
Lemma load_directive m (w : String.string) v set :
  trimmed (lit w) → lit w ≠ [] → ch " " ∉ lit w →
  (∀ v m, directive (lit w ++ ch " " :: v) m = set (str_trim v) m) →
  load_line m (ch "@" :: lit w ++ ch " " :: v) = set (str_trim v) m.
Proof. intros H1 H2 H3 H. by rewrite directive_line, H. Qed.

Ltac directive_of w set :=
  apply (load_directive _ w _ set);
  [ intros ?; cbn; intros [[= <-] | [= <-]]; reflexivity | done | by apply (bool_decide_unpack _); vm_compute
  | intros v0 m0; unfold directive; rewrite cut_app by (by apply (bool_decide_unpack _); vm_compute);
    reflexivity ].

Lemma load_title m v :
  load_line m (lit "@TITLE " ++ v) = set_title (copy 128 (str_trim v)) m.
Proof. directive_of "TITLE"%string (λ v, set_title (copy 128 v)). Qed.

Lemma load_flags m v :
  load_line m (lit "@FLAGS " ++ v) = set_flags (parse_menu_flags (str_trim v)) m.
Proof. directive_of "FLAGS"%string (λ v, set_flags (parse_menu_flags v)). Qed.

Lemma load_prompt m v :
  load_line m (lit "@PROMPT " ++ v) = set_prompt (copy 64 (str_trim v)) m.
Proof. directive_of "PROMPT"%string (λ v, set_prompt (copy 64 v)). Qed.

Lemma load_art m v :
  load_line m (lit "@ART " ++ v) = set_art (copy 64 (str_trim v)) m.
Proof. directive_of "ART"%string (λ v, set_art (copy 64 v)). Qed.

Lemma load_fallback m v :
  load_line m (lit "@FALLBACK " ++ v) = set_fallback (copy 32 (str_trim v)) m.
Proof. directive_of "FALLBACK"%string (λ v, set_fallback (copy 32 v)). Qed.

Lemma load_cols m v :
  load_line m (lit "@COLS " ++ v) = set_cols (Z.min 4 (Z.max 1 (atoi (str_trim v)))) m.
Proof. directive_of "COLS"%string (λ v, set_cols (Z.min 4 (Z.max 1 (atoi v)))). Qed.

(** Flags, computed for all of their values. *)
Lemma menu_flags_read f :
  0 <= f < 256 →
  let t := format_menu_flags f 256 in
  parse_menu_flags (str_trim t) = f ∧ file_line (lit "@FLAGS " ++ t) ∧ (t = [] → f = 0).
Proof.
  intros H. cbn zeta. pose proof (forall_below (λ f, let t := format_menu_flags f 256 in
    (parse_menu_flags (str_trim t) =? f) && bool_decide (file_line (lit "@FLAGS " ++ t))
    && (negb (bool_decide (t = [])) || (f =? 0))) 256 f) as K.
  cbn zeta in K. specialize (K ltac:(vm_compute; reflexivity) H).
  apply andb_prop in K as [[->%Z.eqb_eq ?%bool_decide_eq_true]%andb_prop K].
  split; [done | split; [done |]]. intros E. apply orb_prop in K as [K | K].
  - by rewrite E in K.
  - by apply Z.eqb_eq in K.
Qed.

(** ** Lines of items *)

(** What a field of an item can hold. *)
Definition field (cap : nat) (s : cstr) : Prop :=
  Forall line_char s ∧ (ch "|" ∉ s) ∧ trimmed s ∧ (length s < cap)%nat.

(** A key the program gives: one character, or a word of two to seven. *)
Definition key_ok (it : MenuItem) : Prop :=
  let t := key_disp it in
  field 8 t ∧ map toupper t = t ∧ head t ≠ Some (ch "#") ∧ head t ≠ Some (ch "@") ∧
  (if key it =? 0 then (2 <= length (key_str it))%nat ∧ key_disp it = key_str it else key_str it = []).

Record item_ok (it : MenuItem) : Prop := {
  item_key : key_ok it;
  item_label : field 128 (label it);
  item_action : field 64 (action it);
  item_data : field 256 (data it);
  item_conditions : field 64 (item_acs it);
  item_password : field 32 (password it);
  item_bits : 0 <= item_flags it < 16;
  item_short : (length (item_line it) <= 511)%nat
}.

Lemma cmd_flags_read f :
  0 <= f < 16 →
  let t := format_cmd_flags f 128 in parse_cmd_flags t = f ∧ field 128 t.
Proof.
  intros H. cbn zeta. pose proof (forall_below (λ f, let t := format_cmd_flags f 128 in
    (parse_cmd_flags t =? f) && bool_decide (Forall line_char t) && bool_decide (ch "|" ∉ t)
    && (bool_decide (t = []) || negb (isspace (char_at t 0)) && negb (isspace (List.last t 0)))
    && (length t <? 128)%nat) 16 f) as K.
  cbn zeta in K. specialize (K ltac:(vm_compute; reflexivity) H).
  cbv beta in K. revert K. generalize (format_cmd_flags f 128). intros t K.
  rewrite !andb_true_iff, !bool_decide_eq_true, Z.eqb_eq, Nat.ltb_lt, orb_true_iff, andb_true_iff,
    !negb_true_iff, bool_decide_eq_true in K.
  destruct K as [[[[? ?] ?] K] ?]. split; [done |]. split; [done |]. split; [done |]. split; [| done].
  destruct K as [-> | [K1 K2]]; [by intros c [? | ?] |].
  intros c [E | E].
  - destruct t; [done |]. cbn in *. by simplify_eq.
  - apply last_Some in E as [l ->]. by rewrite List.last_last in K2.
Qed.

Lemma split_field n s r : ch "|" ∉ s → split_bars (S n) (s ++ ch "|" :: r) = s :: split_bars n r.
Proof. intros H. cbn [split_bars]. by rewrite cut_app. Qed.

Lemma split_end n s : ch "|" ∉ s → split_bars n s = [s].
Proof. intros H. destruct n; [done |]. cbn [split_bars]. by rewrite cut_none. Qed.

Lemma copy_field cap s : field cap s → copy cap (str_trim s) = s.
Proof. intros (_ & _ & Ht & Hl). rewrite trim_trimmed by done. by apply copy_short. Qed.

(** The line without its end. *)
Definition item_text (it : MenuItem) : cstr :=
  key_disp it ++ ch "|" :: label it ++ ch "|" :: action it ++ ch "|" :: data it ++ ch "|" :: item_acs it
  ++ ch "|" :: format_cmd_flags (item_flags it) 128 ++ ch "|" :: password it.

Lemma item_line_text it : item_line it = item_text it ++ [10].
Proof. unfold item_line, item_text. by repeat (rewrite <- app_assoc; cbn [app]). Qed.

Lemma key_nonempty it : key_ok it → key_disp it ≠ [].
Proof.
  intros (_ & _ & _ & _ & K) E. destruct (key it =? 0) eqn:Ek.
  - destruct K as [H Ed]. rewrite <- Ed, E in H. cbn in H. lia.
  - unfold key_disp in E. by rewrite Ek in E.
Qed.

Lemma trimmed_bar s : trimmed s → trimmed (ch "|" :: s).
Proof.
  intros H c [E | E]; [cbn in E; by injection E as <- |].
  destruct s as [|d s]; [cbn in E; by injection E as <- |]. apply H. by right.
Qed.

Lemma item_text_fits it : item_ok it → file_line (item_text it) ∧ trimmed (item_text it).
Proof.
  intros [Hk Hl Ha Hd Hc Hp Hf Hn]. pose proof (key_nonempty it Hk) as Nk.
  destruct Hk as ((Ck & _ & Tk & _) & _), (cmd_flags_read _ Hf) as (_ & Cf & _).
  destruct Hl as (? & _ & ? & _), Ha as (? & _), Hd as (? & _), Hc as (? & _), Hp as (? & _ & Tp & _).
  split.
  - split.
    + unfold item_text. repeat (apply Forall_app; split; [done |]; apply Forall_cons; split; [done |]). done.
    + rewrite item_line_text, length_app in Hn. cbn in Hn. lia.
  - intros c [E | E].
    + apply Tk. left. unfold item_text in E. by destruct (key_disp it).
    + unfold item_text in E. rewrite !app_comm_cons, !app_assoc in E.
      rewrite last_app in E.
      destruct (last (ch "|" :: password it)) eqn:E'; [| by apply last_None in E'].
      apply (trimmed_bar _ Tp). right. by rewrite E'.
Qed.

Lemma parse_item it : item_ok it → parse_line (item_text it) = Some it.
Proof.
  intros Hi. destruct (item_text_fits it Hi) as [[_ Hn] _].
  destruct Hi as [Hk Hl Ha Hd Hc Hp Hf _]. pose proof (key_nonempty it Hk) as Nk.
  unfold parse_line. rewrite copy_short by lia.
  destruct (cmd_flags_read _ Hf) as (Ef & Ff).
  assert (split_bars 7 (item_text it) =
    [key_disp it; label it; action it; data it; item_acs it; format_cmd_flags (item_flags it) 128; password it]) as ->.
  { unfold item_text. destruct Hk as ((_ & ? & _) & _), Ff as (_ & ? & _).
    destruct Hl as (_ & ? & _), Ha as (_ & ? & _), Hd as (_ & ? & _), Hc as (_ & ? & _), Hp as (_ & ? & _).
    rewrite !split_field by done. by rewrite split_end. }
  cbn [length nth Nat.ltb Nat.leb Nat.eqb].
  destruct Hk as ((_ & _ & Tk & Lk) & Ku & _ & _ & Hkey).
  rewrite (trim_trimmed (key_disp it)) by done. rewrite !copy_field by done.
  rewrite (trim_trimmed (format_cmd_flags _ _)) by apply Ff. rewrite Ef. rewrite bool_decide_eq_false_2 by done.
  unfold key_disp in *. destruct it as [k ks lb ac dt cs fl pw]; cbn in *.
  destruct (Z.eqb_spec k 0) as [-> | Nz].
  - destruct Hkey as [Hlen E]. rewrite !E in *.
    rewrite (take_ge ks 7) by lia.
    destruct ks as [|a [|b ks]]; [cbn in Hlen; lia.. |]. by rewrite Ku.
  - injection Ku as Ku. subst ks. cbn. unfold char_at. cbn. by rewrite Ku.
Qed.
Lemma load_item m it : item_ok it → load_line m (item_text it) = add_item it m.
Proof.
  intros Hi. pose proof (parse_item it Hi) as E. destruct (item_text_fits it Hi) as [_ Ht].
  unfold load_line. rewrite trim_trimmed by done.
  destruct Hi as [Hk _ _ _ _ _ _ _]. pose proof (key_nonempty it Hk) as Nk.
  destruct Hk as (_ & _ & H1 & H2 & _).
  assert (head (item_text it) = head (key_disp it)) as Eh
    by (unfold item_text; by destruct (key_disp it)).
  destruct (item_text it) as [|c r]; [by destruct (key_disp it) |]. cbn in Eh.
  rewrite <- Eh in H1, H2.
  rewrite (proj2 (Z.eqb_neq c (ch "#"))), (proj2 (Z.eqb_neq c (ch "@"))) by congruence. by rewrite E.
Qed.

Lemma load_items l : ∀ m,
  Forall item_ok l →
  fold_left load_line (map item_text l) m =
  MkMenu (name m) (title m) (prompt m) (art_file m) (fallback m) (menu_flags m) (gen_cols m) (items m ++ l).
Proof.
  induction l as [|it l IH]; intros m H.
  - cbn. rewrite app_nil_r. by destruct m.
  - apply Forall_cons in H as [Hi Hl]. cbn [map fold_left]. rewrite load_item, IH by done.
    cbn. by rewrite <- app_assoc.
Qed.

(** ** A saved menu loads again *)

(** A text of the heading. *)
Definition text (cap : nat) (s : cstr) : Prop :=
  Forall line_char s ∧ trimmed s ∧ (length s < cap)%nat.

Record menu_ok (m : Menu) : Prop := {
  menu_name : Forall line_char (name m) ∧ (ch "/" ∉ name m) ∧ (ch "." ∉ name m) ∧
              (1 <= length (name m) <= 27)%nat;
  menu_title : text 128 (title m);
  menu_prompt : Forall line_char (prompt m) ∧ (length (prompt m) < 64)%nat;
  menu_art : text 64 (art_file m);
  menu_fallback : text 32 (fallback m);
  menu_bits : 0 <= menu_flags m < 256;
  menu_cols : 1 <= gen_cols m <= 4;
  menu_items : Forall item_ok (items m)
}.

Lemma after_last_app c a b : c ∉ b → after_last c (a ++ c :: b) = b.
Proof.
  intros Hb. induction a as [|x a IH]; cbn.
  - by rewrite bool_decide_eq_false_2, Z.eqb_refl.
  - rewrite bool_decide_eq_true_2; [done |]. apply list_elem_of_In, in_or_app. right. by left.
Qed.

Lemma name_of_file dir n :
  ch "/" ∉ n → ch "." ∉ n → (length n <= 27)%nat →
  name_of_path (dir ++ lit "/" ++ n ++ lit ".mnu") = n.
Proof.
  intros H1 H2 H3. unfold name_of_path.
  change (lit "/" ++ n ++ lit ".mnu") with (ch "/" :: n ++ lit ".mnu"). rewrite after_last_app.
  - rewrite copy_short by (rewrite length_app; cbn; lia). unfold before_last.
    rewrite bool_decide_eq_true_2 by (apply list_elem_of_In, in_or_app; right; by left).
    change (lit ".mnu") with (ch "." :: lit "mnu"). 
    rewrite after_last_app by (by apply (bool_decide_unpack _); vm_compute).
    rewrite length_app. cbn [length lit]. rewrite take_app_le by lia. apply take_ge. lia.
  - intros [H | H]%elem_of_app; [done |]. revert H. by apply (bool_decide_unpack _); vm_compute.
Qed.

(** The lines of the file of a menu. *)
Definition save_lines (m : Menu) : list cstr :=
  let flags := format_menu_flags (menu_flags m) 256 in
  [ch "#" :: lit " Menu: " ++ name m; lit "@TITLE " ++ title m]
  ++ (if bool_decide (flags = []) then [] else [lit "@FLAGS " ++ flags])
  ++ [lit "@PROMPT " ++ prompt m]
  ++ (if bool_decide (art_file m = []) then [] else [lit "@ART " ++ art_file m])
  ++ (if bool_decide (fallback m = []) then [] else [lit "@FALLBACK " ++ fallback m])
  ++ [lit "@COLS " ++ fmt_d (gen_cols m); ch "#" :: lit " key|label|action|data|acs|cmdflags|password"]
  ++ map item_text (items m).

Lemma file_of_app a b : file_of (a ++ b) = file_of a ++ file_of b.
Proof. unfold file_of. by rewrite map_app, concat_app. Qed.

Lemma file_of_one l r : file_of [l] ++ r = l ++ [10] ++ r.
Proof. unfold file_of. cbn. by rewrite app_nil_r, <- app_assoc. Qed.

Lemma file_of_items l : file_of (map item_text l) = concat (map item_line l).
Proof.
  induction l as [|it l IH]; [done |]. unfold file_of in *. cbn [map concat].
  by rewrite IH, item_line_text.
Qed.

Lemma file_of_if (b : bool) l r :
  file_of (if b then [] else [l]) ++ r = (if b then [] else l ++ [10]) ++ r.
Proof. destruct b; [done |]. rewrite file_of_one. by rewrite <- app_assoc. Qed.

Lemma file_of_two a b r : file_of [a; b] ++ r = a ++ [10] ++ b ++ [10] ++ r.
Proof. change [a; b] with ([a] ++ [b]). by rewrite file_of_app, <- app_assoc, !file_of_one. Qed.

Lemma menu_save_lines m : menu_ok m → menu_save m = file_of (save_lines m).
Proof.
  intros [Hn _ _ _ _ _ Hc _]. unfold menu_save, save_lines. cbn zeta.
  rewrite bool_decide_eq_false_2 by (destruct (name m); [cbn in Hn; lia | done]).
  rewrite (proj2 (Z.ltb_lt 0 _)) by lia.
  rewrite !file_of_app, file_of_items, !file_of_two, !file_of_if, file_of_one.
  change (ch "#" :: lit " Menu: " ++ name m) with (lit "# Menu: " ++ name m).
  change (ch "#" :: lit " key|label|action|data|acs|cmdflags|password")
    with (lit "# key|label|action|data|acs|cmdflags|password").
  repeat (destruct (bool_decide _)); by rewrite <- !app_assoc.
Qed.

Lemma file_line_app (w : String.string) v :
  file_line (lit w) → Forall line_char v → (length (lit w) + length v <= 510)%nat → file_line (lit w ++ v).
Proof. intros [Hw _] Hv Hl. split; [by apply Forall_app | by rewrite length_app]. Qed.

Lemma closed_line s : bool_decide (file_line s) = true → file_line s.
Proof. apply bool_decide_eq_true. Qed.

Ltac line_of := apply file_line_app; [by apply closed_line; vm_compute | done | cbn [lit length]; lia].

Lemma save_lines_fit m : menu_ok m → Forall file_line (save_lines m).
Proof.
  intros [(Hn & _ & _ & Ln) (Ht & _ & Lt) (Hp & Lp) (Ha & _ & La) (Hf & _ & Lf) Hb Hc Hi].
  pose proof (menu_flags_read _ Hb) as (_ & Hfl & _). unfold save_lines. cbn zeta.
  repeat (apply Forall_app; split).
  - apply Forall_cons. split; [| apply Forall_cons; split; [line_of | done]].
    change (ch "#" :: lit " Menu: " ++ name m) with (lit "# Menu: " ++ name m). line_of.
  - case_bool_decide; [done | by apply Forall_cons].
  - apply Forall_cons. split; [line_of | done].
  - case_bool_decide; [done |]. apply Forall_cons. split; [line_of | done].
  - case_bool_decide; [done |]. apply Forall_cons. split; [line_of | done].
  - assert (gen_cols m = 1 ∨ gen_cols m = 2 ∨ gen_cols m = 3 ∨ gen_cols m = 4) as K by lia.
    apply Forall_cons. split.
    + destruct K as [-> | [-> | [-> | ->]]]; by apply closed_line; vm_compute.
    + apply Forall_cons. split; [by apply closed_line; vm_compute | done].
  - apply Forall_map. eapply Forall_impl; [exact Hi |]. intros it H. by apply item_text_fits.
Qed.

Lemma copy_text cap s : text cap s → copy cap (str_trim s) = s.
Proof. intros (_ & Ht & Hl). rewrite trim_trimmed by done. by apply copy_short. Qed.

Lemma cols_read c :
  1 <= c <= 4 → Z.min 4 (Z.max 1 (atoi (str_trim (fmt_d c)))) = c.
Proof.
  intros H. assert (c = 1 ∨ c = 2 ∨ c = 3 ∨ c = 4) as K by lia.
  by destruct K as [-> | [-> | [-> | ->]]]; vm_compute.
Qed.

Lemma load_save_lines m path :
  menu_ok m → name_of_path path = name m →
  fold_left load_line (save_lines m)
    (MkMenu (name_of_path path) (lit "Mutineer Menu") (lit "Selection: ") [] [] 0 1 [])
  = set_prompt (str_trim (prompt m)) m.
Proof.
  intros [_ Ht (_ & Lp) Ha Hf Hb Hc Hi] ->. pose proof (menu_flags_read _ Hb) as (Efl & _ & Nfl).
  unfold save_lines. cbn zeta. rewrite !fold_left_app. cbn [fold_left].
  rewrite load_comment, load_title, copy_text by done.
  rewrite load_items by done.
  rewrite load_comment, load_cols, cols_read by done.
  assert (copy 64 (str_trim (prompt m)) = str_trim (prompt m)) as Ep
    by (apply copy_short; pose proof (trim_length (prompt m)); lia).
  destruct m as [n t p a f fl c l]; cbn [name title prompt art_file fallback menu_flags gen_cols items] in *.
  repeat case_bool_decide;
  repeat match goal with E : format_menu_flags _ _ = [] |- _ => apply Nfl in E end; subst;
  cbn [fold_left]; rewrite ?load_flags, ?Efl, load_prompt, Ep, ?load_art, ?load_fallback, ?copy_text by done;
  reflexivity.
Qed.

(** C26. A saved menu loads again: for a well-formed menu whose file lines fit the
    reader's buffer, [menu_load] gives from what [menu_save] wrote the menu itself
    (name, title, art, fallback, flags, columns and every item with its key, its
    data, its conditions, its flags and its password), except that blanks at the
    ends of the prompt are lost. *)
Theorem saved_menus_load m dir :
  menu_ok m →
  menu_load (dir ++ lit "/" ++ name m ++ lit ".mnu") (Some (menu_save m))
  = Some (set_prompt (str_trim (prompt m)) m).
Proof.
  intros Hm. unfold menu_load. cbn [mbind option_bind]. f_equal.
  rewrite menu_save_lines, read_file, load_lines by (done || by apply save_lines_fit).
  apply load_save_lines; [done |]. destruct (menu_name _ Hm) as (_ & ? & ? & ?). apply name_of_file; [done.. | lia].
Qed.


(** ** What a save loses *)

Definition simple_item (k : Z) (lb dt cs : cstr) : MenuItem := MkItem k [] lb (lit "sysop") dt cs 0 [].
Definition simple_menu (its : list MenuItem) : Menu :=
  MkMenu (lit "m") (lit "Main") (lit "Selection: ") [] [] 0 1 its.
Definition reloaded (its : list MenuItem) : option Menu :=
  menu_load (lit "menus/m.mnu") (Some (menu_save (simple_menu its))).

(** A condition with an "or", which a field of a file cannot hold. *)
Definition or_condition : cstr := lit "(S10|FA)&S200".

(** Menus that are not well-formed change when they are saved. The bar of an "or"
    ends the field: an item for users of level 200 with level 10 or flag A loads
    with the condition ["(S10"], which lets users of level 10 in. The default
    prompt loses its blank, items with the keys "#" and "@" are gone, and the line
    of an item of full fields is read in two parts, the second as another item. *)
Theorem saves_lose clk s :
  let a := simple_item (ch "A") (lit "Sysop") [] or_condition in
  10 <= level (user s) < 200 →
  acs_allows clk (Some s) (item_acs a) = Some false ∧
  (∃ it, items <$> reloaded [a] = Some [it] ∧ key it = key a ∧ action it = action a ∧
         acs_allows clk (Some s) (item_acs it) = Some true) ∧
  prompt <$> reloaded [a] = Some (lit "Selection:") ∧
  items <$> reloaded [simple_item (ch "#") (lit "Users") [] []; simple_item (ch "@") (lit "Mail") [] []]
  = Some [] ∧
  (length ∘ items) <$> reloaded [MkItem (ch "B") [] (replicate 127 (ch "l")) (replicate 63 (ch "a"))
    (replicate 255 (ch "d")) (replicate 62 (ch "(") ++ lit "S") 0 []] = Some 2%nat.
Proof.
  intros a [H1 H2]. apply Z.leb_le in H1. apply Z.leb_gt in H2.
  destruct s as [u cf nn tl d]. cbn [user] in *. split; [| split; [| split; [| split]]].
  - transitivity (Some (((10 <=? level u) || has_flag (flags u) (ch "A")) && (200 <=? level u))); [by vm_compute |].
    by rewrite H2, andb_false_r.
  - exists (simple_item (ch "A") (lit "Sysop") [] (lit "(S10")).
    split; [by vm_compute |]. split; [done |]. split; [done |].
    transitivity (Some (10 <=? level u)); [by vm_compute |]. by rewrite H1.
  - by vm_compute.
  - by vm_compute.
  - by vm_compute.
Qed.

(** ** What a user sees *)

(** The cells of the items in rows of [n], [cur] being the row that is begun. *)
Fixpoint rows_of {A} (n : nat) (cur l : list A) : list (list A) :=
  match l with
  | [] => match cur with [] => [] | _ => [cur] end
  | x :: l =>
      if (S (length cur) <? n)%nat then rows_of n (cur ++ [x]) l
      else (cur ++ [x]) :: rows_of n [] l
  end.

Section page.
Context (clk : Clock) (tm_min : Z) (s : option MciSession).

Definition shown (it : MenuItem) : bool := default false (menu_item_visible clk s it).
Definition meaning_of (cap : nat) (t : cstr) : cstr := default [] (expanded clk tm_min s cap t).

Definition heading (m : Menu) : cstr :=
  if flag_set (menu_flags m) 4 then []
  else
    let t := meaning_of 256 (title m) in
    crlf
    ++ (if flag_set (menu_flags m) 2 then [] else replicate ((80 - (length t + 8)) / 2) 32)
    ++ lit "=== " ++ t ++ lit " ===" ++ crlf ++ crlf.

Definition item_row (it : MenuItem) : cstr :=
  lit "  [" ++ key_disp it ++ lit "] " ++ meaning_of 256 (label it) ++ crlf.

Definition cell (cols : Z) (it : MenuItem) : cstr :=
  lit "  [" ++ key_disp it ++ lit "] "
  ++ pad_right (Z.to_nat (Z.abs (Z.quot 80 cols - 8))) (meaning_of 256 (label it)).

Definition row (cols : Z) (r : list MenuItem) : cstr := concat (map (cell cols) r) ++ crlf.

(** The items a user sees, in rows of [gen_cols]. *)
Definition body (m : Menu) : cstr :=
  let l := filter (λ it, shown it = true) (items m) in
  if 1 <? gen_cols m then concat (map (row (gen_cols m)) (rows_of (Z.to_nat (gen_cols m)) [] l))
  else concat (map item_row l).

Definition footer (m : Menu) : cstr :=
  (if flag_set (menu_flags m) 16 then
     match s with
     | Some s => crlf ++ lit "[Time left: " ++ fmt_d (time_left_min (acs_part s)) ++ lit " min]" ++ crlf
     | None => [] end
   else [])
  ++ (if flag_set (menu_flags m) 32 then [] else crlf ++ meaning_of 128 (prompt m)).

Definition page (m : Menu) : cstr :=
  (if flag_set (menu_flags m) 1 then 27 :: lit "[2J" ++ 27 :: lit "[H" else [])
  ++ heading m ++ body m ++ footer m.

Lemma put_fits cap t out : (length (out ++ t) <= cap)%nat → put cap t out = Some (out ++ t).
Proof. intros H. unfold put. rewrite (proj2 (Nat.leb_le _ _)); [done |]. rewrite length_app in H. lia. Qed.

Lemma pad_fits cap n : ∀ out, (length out + n < cap)%nat → pad cap n out = out ++ replicate n 32.
Proof.
  induction n as [|n IH]; intros out H; [by rewrite app_nil_r |].
  cbn [pad]. rewrite (proj2 (Nat.ltb_lt _ _)) by lia.
  rewrite IH by (rewrite length_app; cbn; lia). by rewrite <- app_assoc.
Qed.

Context (Hd : mci_defined clk tm_min s).

Lemma visible_shown it : menu_item_visible clk s it = Some (shown it).
Proof.
  unfold shown. assert (is_Some (menu_item_visible clk s it)) as [v ->]; [| done].
  unfold menu_item_visible. repeat case_match; try by eexists. apply acs_allows_total, Hd.
Qed.

Lemma expanded_meaning cap t : (0 < cap)%nat → expanded clk tm_min s cap t = Some (meaning_of cap t).
Proof.
  intros Hc. unfold meaning_of. assert (is_Some (expanded clk tm_min s cap t)) as [v ->]; [| done].
  unfold expanded. destruct s; [| by eexists].
  destruct (mci_expand_bounded clk tm_min _ t cap Hd Hc) as (out & -> & _). by eexists.
Qed.

Lemma center_width n : Z.to_nat (Z.quot (80 - (Z.of_nat n + 8)) 2) = ((80 - (n + 8)) / 2)%nat.
Proof.
  destruct (decide (n + 8 <= 80)%nat) as [H | H].
  - rewrite Z.quot_div_nonneg by lia. rewrite <- (Nat2Z.id ((80 - (n + 8)) / 2)). f_equal.
    rewrite Nat2Z.inj_div, Nat2Z.inj_sub by lia. f_equal. lia.
  - replace (80 - (n + 8))%nat with 0%nat by lia. cbn.
    rewrite <- (Z.opp_involutive (80 - _)), Z.quot_opp_l by lia.
    assert (0 <= Z.quot (- (80 - (Z.of_nat n + 8))) 2) by (apply Z.quot_pos; lia). lia.
Qed.

Lemma title_fits cap m out :
  (length (out ++ heading m) < cap)%nat →
  render_title clk tm_min s cap m out = Some (out ++ heading m).
Proof.
  unfold render_title, heading. destruct (flag_set (menu_flags m) 4); [by rewrite app_nil_r |].
  rewrite expanded_meaning by lia. cbn zeta. generalize (meaning_of 256 (title m)). intros t.
  cbn [mbind option_bind]. rewrite !length_app. intros H.
  rewrite put_fits by (rewrite length_app; lia). cbn [mbind option_bind].
  destruct (flag_set (menu_flags m) 2).
  - cbn [length] in H. rewrite !put_fits by (rewrite !length_app; lia). cbn [mbind option_bind].
    rewrite !put_fits by (rewrite !length_app; lia). by rewrite <- !app_assoc.
  - rewrite center_width. rewrite length_replicate in H.
    rewrite pad_fits by (rewrite !length_app; lia).
    rewrite put_fits by (rewrite !length_app, length_replicate; lia). cbn [mbind option_bind].
    rewrite put_fits by (rewrite !length_app, length_replicate; lia). by rewrite <- !app_assoc.
Qed.

Lemma row_fits cap cols col it out :
  cols <= 1 → (length (out ++ item_row it) < cap)%nat →
  render_item clk tm_min s cap cols col it out = Some (out ++ item_row it, col).
Proof.
  intros Hc. unfold render_item, item_row. rewrite expanded_meaning by lia.
  rewrite (proj2 (Z.ltb_ge _ _)) by lia. cbn [mbind option_bind]. intros H.
  rewrite put_fits by (lia || exact (Nat.lt_le_incl _ _ H)). done.
Qed.

Lemma items_fit cap cols col l : ∀ out,
  cols <= 1 →
  (length (out ++ concat (map item_row (filter (λ it, shown it = true) l))) < cap)%nat →
  render_items clk tm_min s cap cols col l out
  = Some (out ++ concat (map item_row (filter (λ it, shown it = true) l)), col).
Proof.
  induction l as [|it l IH]; intros out Hc H; [by rewrite app_nil_r |].
  cbn [render_items]. rewrite visible_shown. cbn [mbind option_bind].
  destruct (shown it) eqn:E.
  - rewrite filter_cons_True in * by done. cbn [map concat] in *. rewrite app_assoc in H.
    assert (length (out ++ item_row it) < cap)%nat
      by (rewrite length_app in H |- *; rewrite length_app in H; lia).
    rewrite row_fits by done. cbn [mbind option_bind]. rewrite (proj2 (Nat.leb_gt _ _)) by lia.
    rewrite IH by done. by rewrite <- app_assoc.
  - rewrite filter_cons_False in * by congruence. by apply IH.
Qed.

(** A cell, and the end of its row when it is the last one. *)
Lemma cell_fits cap cols cur it out :
  1 < cols → (length (out ++ cell cols it ++ crlf) < cap)%nat →
  render_item clk tm_min s cap cols (Z.of_nat (length (cur : list MenuItem))) it out
  = Some (if (S (length cur) <? Z.to_nat cols)%nat
          then (out ++ cell cols it, Z.of_nat (length (cur ++ [it])))
          else (out ++ cell cols it ++ crlf, 0)).
Proof.
  intros Hc H. unfold render_item. rewrite expanded_meaning by lia. cbn [mbind option_bind].
  rewrite (proj2 (Z.ltb_lt _ _)) by lia. fold (cell cols it).
  rewrite put_fits by (rewrite !length_app in *; lia). cbn [mbind option_bind].
  rewrite length_app. cbn [length].
  destruct (Nat.ltb_spec (S (length cur)) (Z.to_nat cols)).
  - rewrite (proj2 (Z.leb_gt _ _)) by lia. do 2 f_equal. lia.
  - rewrite (proj2 (Z.leb_le _ _)) by lia.
    rewrite put_fits by (rewrite <- app_assoc; lia). cbn [mbind option_bind]. by rewrite <- app_assoc.
Qed.

Lemma rows_begin cols l : ∀ cur,
  cur ≠ [] →
  (length (row cols cur) <= length (concat (map (row cols) (rows_of (Z.to_nat cols) cur l))))%nat.
Proof.
  induction l as [|it l IH]; intros cur Nc; cbn [rows_of].
  - destruct cur; [done |]. cbn [map concat]. rewrite length_app. lia.
  - assert (length (row cols cur) <= length (row cols (cur ++ [it])))%nat
      by (unfold row; rewrite map_app, concat_app, !length_app; lia).
    destruct (_ <? _)%nat.
    + etransitivity; [done | apply IH]. by destruct cur.
    + cbn [map concat]. rewrite length_app. lia.
Qed.

(** The rows, and the end of the last one. *)
Lemma cells_fit cap cols base l : ∀ cur prev,
  1 < cols → (length cur < Z.to_nat cols)%nat →
  let seen := filter (λ it, shown it = true) l in
  let done_rows := concat (map (row cols) prev) in
  let text := base ++ done_rows ++ concat (map (row cols) (rows_of (Z.to_nat cols) cur seen)) in
  (length text < cap)%nat →
  ∃ out col,
    render_items clk tm_min s cap cols (Z.of_nat (length cur)) l
      (base ++ done_rows ++ concat (map (cell cols) cur)) = Some (out, col) ∧
    (if 0 <? col then out ++ crlf else out) = text.
Proof.
  induction l as [|it l IH]; intros cur prev Hc Hcur; cbn zeta.
  - intros _. cbn. do 2 eexists. split; [done |]. destruct cur as [|c cur]; [done |].
    cbn [length]. rewrite (proj2 (Z.ltb_lt _ _)) by lia.
    cbn [map concat]. unfold row. cbn [map concat]. by rewrite !app_nil_r, <- !app_assoc.
  - cbn [render_items]. rewrite visible_shown. cbn [mbind option_bind].
    destruct (shown it) eqn:E; [| rewrite filter_cons_False by congruence; by apply IH].
    rewrite filter_cons_True by done. cbn [rows_of]. intros H.
    assert (concat (map (cell cols) cur) ++ cell cols it = concat (map (cell cols) (cur ++ [it]))) as Ec
      by (rewrite map_app, concat_app; cbn; by rewrite app_nil_r).
    assert (base ++ concat (map (row cols) prev) ++ row cols (cur ++ [it])
      = (base ++ concat (map (row cols) prev) ++ concat (map (cell cols) cur)) ++ cell cols it ++ crlf) as Er
      by (unfold row; by rewrite <- Ec, <- !app_assoc).
    destruct (Nat.ltb_spec (S (length cur)) (Z.to_nat cols)) as [Hlt | Hge].
    + pose proof (rows_begin cols (filter (λ it, shown it = true) l) (cur ++ [it]) ltac:(by destruct cur)) as Hb.
      rewrite cell_fits by (try done; rewrite <- Er, !length_app in *; lia).
      rewrite (proj2 (Nat.ltb_lt _ _)) by lia. cbn [mbind option_bind].
      assert (length (base ++ concat (map (row cols) prev) ++ row cols (cur ++ [it])) < cap)%nat as Hr
        by (rewrite !length_app in *; lia).
      rewrite Er, !length_app in Hr. rewrite (proj2 (Nat.leb_gt _ _)) by (rewrite !length_app; lia).
      rewrite <- !app_assoc, Ec. apply IH; [done | rewrite length_app; cbn; lia | done].
    + cbn [map concat] in H.
      rewrite cell_fits by (try done; rewrite <- Er, !length_app in *; lia).
      rewrite (proj2 (Nat.ltb_ge _ _)) by lia. cbn [mbind option_bind]. rewrite <- Er.
      rewrite (proj2 (Nat.leb_gt _ _)) by (rewrite !length_app in *; lia).
      destruct (IH [] (prev ++ [cur ++ [it]]) Hc ltac:(cbn; lia)) as (out & col & Eo & Et).
      * rewrite map_app, concat_app. cbn [map concat]. by rewrite app_nil_r, <- !app_assoc.
      * exists out, col. rewrite map_app, concat_app in Eo, Et. cbn [map concat] in *.
        rewrite !app_nil_r in Eo. rewrite app_nil_r, <- !app_assoc in Et. by rewrite Et.
Qed.

Lemma body_fits cap m out :
  (length (out ++ body m) < cap)%nat →
  ∃ out' col,
    let cols := if 0 <? gen_cols m then gen_cols m else 1 in
    render_items clk tm_min s cap cols 0 (items m) out = Some (out', col) ∧
    (if (1 <? cols) && (0 <? col) then out' ++ crlf else out') = out ++ body m.
Proof.
  unfold body. cbn zeta. intros H. destruct (Z.ltb_spec 1 (gen_cols m)).
  - rewrite (proj2 (Z.ltb_lt 0 _)) by lia. rewrite (proj2 (Z.ltb_lt 1 _)) by lia.
    destruct (cells_fit cap (gen_cols m) out (items m) [] []) as (out' & col & E & Et); [done | cbn; lia | done |].
    cbn in E, Et. rewrite app_nil_r in E. exists out', col. by split.
  - exists (out ++ concat (map item_row (filter (λ it, shown it = true) (items m)))), 0.
    destruct (0 <? gen_cols m); (rewrite items_fit by (done || lia)); (split; [done |]);
      by rewrite andb_false_r.
Qed.

End page.

(** The page of a menu is its heading, the items its user may see in rows of
    [gen_cols], and its footer: when nothing the codes compute is undefined and the
    page is shorter than the buffer, [menu_render] writes exactly that page. *)
Theorem pages_are_rendered clk tm_min s m cap :
  mci_defined clk tm_min s → (length (page clk tm_min s m) < cap)%nat →
  menu_render clk tm_min s m cap = Some (page clk tm_min s m).
Proof.
  intros Hd H. destruct cap as [|cap]; [lia |]. unfold menu_render.
  set (N := S cap) in *. set (clear := 27 :: lit "[2J" ++ 27 :: lit "[H").
  unfold page in *. fold clear in H |- *. set (a := if flag_set (menu_flags m) 1 then clear else []) in *.
  assert ((if flag_set (menu_flags m) 1 then put N clear [] else Some []) = Some a) as ->.
  { subst a. destruct (flag_set _ _); [| done]. apply (put_fits N clear []). rewrite length_app in H. cbn in *. lia. }
  cbn [mbind option_bind]. rewrite !length_app in H.
  rewrite title_fits by (done || rewrite length_app; lia). cbn [mbind option_bind].
  destruct (body_fits clk tm_min s Hd N m (a ++ heading clk tm_min s m)) as (out & col & E & Et).
  { rewrite !length_app. lia. }
  cbn zeta in *. rewrite E. cbn [mbind option_bind]. clear E.
  set (cols := if 0 <? gen_cols m then gen_cols m else 1) in *.
  assert ((if (1 <? cols) && (0 <? col) then put N crlf out else Some out)
    = Some (a ++ heading clk tm_min s m ++ body clk tm_min s m)) as ->.
  { rewrite app_assoc, <- Et. destruct (_ && _); [| done]. apply put_fits. rewrite Et, !length_app. lia. }
  cbn [mbind option_bind]. unfold footer in *. rewrite length_app in H.
  rewrite !app_assoc. set (b := (a ++ heading clk tm_min s m) ++ body clk tm_min s m) in *.
  assert (length b = length a + length (heading clk tm_min s m) + length (body clk tm_min s m))%nat as Hb
    by (subst b; rewrite !length_app; lia).
  clearbody b.
  set (time := if flag_set (menu_flags m) 16 then _ else []) in *.
  assert ((if flag_set (menu_flags m) 16 then
             match s with
             | Some s => put N (crlf ++ lit "[Time left: " ++ fmt_d (time_left_min (acs_part s)) ++ lit " min]" ++ crlf) b
             | None => Some b end
           else Some b) = Some (b ++ time)) as ->.
  { subst time. destruct (flag_set (menu_flags m) 16); [| by rewrite app_nil_r].
    destruct s; [| by rewrite app_nil_r]. apply put_fits. rewrite length_app. lia. }
  cbn [mbind option_bind]. revert H.
  destruct (flag_set (menu_flags m) 32); intros H; [by rewrite app_nil_r |].
  rewrite expanded_meaning by (done || lia). cbn [mbind option_bind].
  apply put_fits. rewrite !length_app in *. lia.
Qed.

(** A menu of 31 items with labels of 127 characters. *)
Definition full_menu : Menu :=
  MkMenu (lit "full") (lit "Full") (lit "Selection: ") [] [] 0 1
    (replicate 31 (MkItem (ch "A") [] (replicate 127 (ch "x")) (lit "logoff") [] [] 0 [])).

(** The page of a menu can be longer than the buffer of a session; the code then
    goes on writing behind its end, whoever looks at it. *)
Theorem long_pages_overflow clk tm_min s :
  menu_render clk tm_min s full_menu 4096 = None.
Proof. destruct s; vm_compute; reflexivity. Qed.

(** ** Who runs a command *)

Lemma find_first {A} (f : A → bool) l x :
  List.find f l = Some x →
  ∃ before after, l = before ++ x :: after ∧ f x = true ∧ Forall (λ y, f y = false) before.
Proof.
  induction l as [|y l IH]; [done |]. cbn. destruct (f y) eqn:E.
  - intros [= <-]. exists [], l. by repeat split.
  - intros (before & after & -> & Hx & Hb)%IH. exists (y :: before), after. by repeat split; [| constructor].
Qed.

Lemma find_app_first {A} (f : A → bool) before x after :
  f x = true → Forall (λ y, f y = false) before → List.find f (before ++ x :: after) = Some x.
Proof. intros Hx. induction 1 as [|y before Hy _ IH]; cbn; [by rewrite Hx | by rewrite Hy]. Qed.

(** C24. A command runs exactly when its item is the first one with the key, whatever
    its case, the user meets the item's conditions and, for a protected item, gave
    its password, which is not empty. *)
Theorem commands_are_guarded clk s m line pw a :
  choose clk s m line pw = Some (Run a) ↔
  char_at line 0 ≠ 27 ∧
  ∃ before it after,
    items m = before ++ it :: after ∧ action it = a ∧
    key it = toupper (char_at line 0) ∧ key it ≠ 0 ∧ Forall (λ i, key i ≠ key it) before ∧
    acs_allows clk (Some s) (item_acs it) = Some true ∧
    (flag_set (item_flags it) 4 = true → pw = Some (password it) ∧ password it ≠ []).
Proof.
  unfold choose, menu_find. destruct (Z.eqb_spec (char_at line 0) 27) as [-> | Ne]; [by split; [| intros [? _]] |].
  set (k := toupper (char_at line 0)).
  split.
  - intros H. split; [done |]. destruct (List.find _ _) as [it |] eqn:E; [| done].
    apply find_first in E as (before & after & -> & [Ek%Z.eqb_eq Nk%negb_true_iff]%andb_prop & Hb).
    destruct (acs_allows _ _ _) as [[] |] eqn:Ea; [| done..]. cbn [mbind option_bind negb] in H.
    destruct (flag_set (item_flags it) 4 && _) eqn:Ep; [done |]. injection H as <-.
    apply Z.eqb_neq in Nk. exists before, it, after. do 4 (split; [done |]). split; [| split; [done |]].
    + eapply Forall_impl; [exact Hb |]. intros i Hi E. cbn beta in Hi.
      rewrite E in Hi. apply andb_false_iff in Hi as [Hi | Hi].
      * by apply Z.eqb_neq in Hi.
      * by apply negb_false_iff, Z.eqb_eq in Hi.
    + intros Ef. rewrite Ef in Ep. apply negb_false_iff in Ep. destruct pw as [[| c p] |]; [done | | done].
      apply bool_decide_eq_true in Ep as <-. done.
  - intros (_ & before & it & after & -> & <- & Ek & Nk & Hb & Ha & Hp).
    assert (List.find (λ i, (key i =? k) && negb (key i =? 0)) (before ++ it :: after) = Some it) as ->.
    { apply find_app_first; [by rewrite Ek, Z.eqb_refl, <- Ek, (proj2 (Z.eqb_neq _ _) Nk) |].
      eapply Forall_impl; [exact Hb |]. intros i Hi. rewrite (proj2 (Z.eqb_neq _ _)); [done | congruence]. }
    rewrite Ha. cbn [mbind option_bind negb].
    destruct (flag_set (item_flags it) 4); [| done]. destruct (Hp eq_refl) as [-> Np].
    destruct (password it) as [|c p] eqn:E; [done |]. by rewrite bool_decide_eq_true_2.
Qed.

(** ** Witnesses *)

(** A main menu in two columns, with a protected item for sysops. *)
Definition main_menu : Menu :=
  MkMenu (lit "main") (lit "Main Menu") (lit "Selection: ") (lit "main.ans") [] 21 2
    [MkItem (ch "M") [] (lit "Messages") (lit "messages") [] [] 0 [];
     MkItem 0 (lit "QUIT") (lit "Log off") (lit "logoff") [] [] 2 [];
     MkItem (ch "S") [] (lit "Sysop ~UN") (lit "sysop") (lit "x y") (lit "S200") 12 (lit "swordfish");
     MkItem (ch "L") [] (lit "Last callers") (lit "lastcallers") [] (lit "S10&!FX") 0 []].

Lemma trimmed_closed s :
  forallb (λ c, negb (isspace c)) (option_list (head s) ++ option_list (last s)) = true → trimmed s.
Proof.
  rewrite forallb_forall. intros H c E. apply negb_true_iff, H, in_or_app.
  destruct E as [-> | ->]; [left | right]; by left.
Qed.

Lemma field_closed cap s :
  forallb (λ c, negb (c =? 0) && negb (c =? 10) && negb (c =? ch "|")) s = true →
  trimmed s → (length s < cap)%nat → field cap s.
Proof.
  intros H Ht Hl. repeat split; [| | done..].
  - apply Forall_forall. intros c Hc. rewrite forallb_forall in H.
    apply list_elem_of_In, H in Hc. rewrite !andb_true_iff, !negb_true_iff, !Z.eqb_neq in Hc. by destruct Hc as [[] _].
  - intros Hc. rewrite forallb_forall in H. apply list_elem_of_In, H in Hc.
    by rewrite Z.eqb_refl, andb_false_r in Hc.
Qed.

Lemma text_closed cap s :
  forallb (λ c, negb (c =? 0) && negb (c =? 10) && negb (c =? ch "|")) s = true →
  trimmed s → (length s < cap)%nat → text cap s.
Proof. intros H Ht Hl. by destruct (field_closed cap s H Ht Hl) as (? & _ & ?). Qed.

Ltac closed_field := apply field_closed; [by vm_compute | by apply trimmed_closed; vm_compute | by apply Nat.ltb_lt; vm_compute].
Ltac closed_text := apply text_closed; [by vm_compute | by apply trimmed_closed; vm_compute | by apply Nat.ltb_lt; vm_compute].

Lemma main_menu_ok : menu_ok main_menu.
Proof.
  constructor; [| closed_text | | closed_text.. | cbn; lia | cbn; lia |].
  - split; [by apply (field_closed 32); [by vm_compute | by apply trimmed_closed; vm_compute | cbn; lia] |].
    split; [by apply (bool_decide_unpack _); vm_compute |].
    split; [by apply (bool_decide_unpack _); vm_compute | cbn; lia].
  - split; [by apply (bool_decide_unpack _); vm_compute | cbn; lia].
  - repeat (apply Forall_cons; split); [| | | | done];
      (constructor; [| closed_field.. | cbn; lia | by apply Nat.leb_le; vm_compute]);
      (split; [closed_field | split; [by vm_compute | split; [by vm_compute | split; [by vm_compute |]]]]);
      cbn; (done || (split; [lia | done])).
Qed.

Lemma saved_menus_load_witness :
  menu_load (lit "menus/main.mnu") (Some (menu_save main_menu)) = Some (set_prompt (lit "Selection:") main_menu).
Proof. apply (saved_menus_load main_menu (lit "menus") main_menu_ok). Defined.

Lemma saves_lose_witness :
  acs_allows sample_clock (Some sample_session) or_condition = Some false.
Proof. apply (saves_lose sample_clock sample_session). vm_compute. split; congruence. Defined.

(** What its user, who is no sysop, sees of the main menu. *)
Lemma pages_are_rendered_witness :
  menu_render sample_clock 5 (Some sample_mci) main_menu 4096
  = Some (page sample_clock 5 (Some sample_mci) main_menu) ∧
  rows_of 2 [] (key_disp <$> filter (λ it, shown sample_clock (Some sample_mci) it = true) (items main_menu))
  = [[lit "M"; lit "QUIT"]; [lit "L"]].
Proof.
  split; [| by vm_compute].
  apply pages_are_rendered; [exact sample_mci_defined | by apply Nat.ltb_lt; vm_compute].
Defined.
