(* ===== verification/MenuTemplate.v ===== *)
(** The templates of menus (src/menu_template.c): their validation, the checks of a
    menu's keys, and the page they make of a menu, with the session's choice between
    a template and the classic page (src/session.c). Buffers keep the sizes of the
    code; [None] is a write outside of one, or an undefined MCI code or condition. *)

From S2P Require Import Prelude CLib Acs Mci Menu.

#[local] Open Scope Z_scope.

(** include/bbs_menu_template.h:9-21 (TemplateError) *)
Inductive TemplateError : Type :=
  | TMPL_OK
  | TMPL_ERR_FILE_NOT_FOUND
  | TMPL_ERR_FILE_READ
  | TMPL_ERR_NO_MENU_ITEMS
  | TMPL_ERR_MULTIPLE_MENU_ITEMS
  | TMPL_ERR_NO_PROMPT
  | TMPL_ERR_UNKNOWN_PLACEHOLDER
  | TMPL_ERR_LINE_OVERFLOW
  | TMPL_ERR_BODY_WIDTH_INVALID
  | TMPL_ERR_ANSI_IN_ASC
  | TMPL_ERR_MALFORMED.

(** include/bbs_menu_template.h:24-28 (TemplateValidation) *)
Record TemplateValidation : Type := MkValidation {
  code : TemplateError;
  line_num : Z;
  detail : cstr
}.

(** include/bbs_menu_template.h:31-36 (MenuKeyValidation) *)
Record MenuKeyValidation : Type := MkKeyValidation {
  valid : bool;
  dup_key : cstr;
  label1 : cstr;
  label2 : cstr
}.

Definition TERMINAL_WIDTH : Z := 80.
Definition MIN_CELL_WIDTH : Z := 10.
Definition MAX_MENU_COLS : Z := 3.

(** src/menu_template.c:22-28 (TOKEN_MENU_ITEMS) *)
Definition TOKEN_MENU_ITEMS : cstr := lit "%%MENU_ITEMS%%".
Definition TOKEN_PROMPT : cstr := lit "%%PROMPT%%".

(** src/menu_template.c:44-59 (template_error_str) *)
Definition template_error_str (err : TemplateError) : cstr :=
  match err with
  | TMPL_OK => lit "OK"
  | TMPL_ERR_FILE_NOT_FOUND => lit "template file not found"
  | TMPL_ERR_FILE_READ => lit "failed to read template file"
  | TMPL_ERR_NO_MENU_ITEMS => lit "missing %%MENU_ITEMS%% token"
  | TMPL_ERR_MULTIPLE_MENU_ITEMS => lit "multiple %%MENU_ITEMS%% lines found"
  | TMPL_ERR_NO_PROMPT => lit "missing %%PROMPT%% token (required for stock templates)"
  | TMPL_ERR_UNKNOWN_PLACEHOLDER => lit "unknown placeholder found"
  | TMPL_ERR_LINE_OVERFLOW => lit "line exceeds 80 visible columns"
  | TMPL_ERR_BODY_WIDTH_INVALID => lit "body width too small for safe rendering"
  | TMPL_ERR_ANSI_IN_ASC => lit "ANSI escape sequences in .asc file"
  | TMPL_ERR_MALFORMED => lit "malformed template structure"
  end.

(** ** Visible text *)

(** The visible characters; [csi] when an escape sequence is being skipped. *)
Fixpoint visible_from (csi : bool) (s : cstr) : nat :=
  match s with
  | [] => 0
  | c :: r =>
      if csi then visible_from (negb (isalpha c)) r
      else
        match r with
        | d :: r' =>
            if (c =? 27) && (d =? ch "[") then visible_from true r'
            else if (c <? 32) && negb (c =? 9) then visible_from false r
            else S (visible_from false r)
        | [] => if (c <? 32) && negb (c =? 9) then 0 else 1
        end
  end.

(** src/menu_template.c:65-89 (visible_len) *)
Definition visible_len (s : cstr) : nat := visible_from false s.

(** src/menu_template.c:198-205 (contains_ansi_escape) *)
Definition contains_ansi_escape (s : cstr) : bool := has_str [27; ch "["] s.

Definition eol (c : Z) : bool := (c =? 10) || (c =? 13).

(** The lines of a text; [None] while the characters between two lines are
    skipped. *)
Fixpoint lines_from (line : option cstr) (s : cstr) : list cstr :=
  match s with
  | [] => match line with Some l => [l] | None => [] end
  | c :: r =>
      if eol c then
        match line with Some l => l :: lines_from None r | None => lines_from None r end
      else lines_from (Some (default [] line ++ [c])) r
  end.

(** src/menu_template.c:227-290 (validate_menu_template) *)
Definition lines (s : cstr) : list cstr := match s with [] => [] | _ => lines_from (Some []) s end.

(** ** Validation of a template *)

(** src/menu_template.c:183-196 (is_known_placeholder) *)
Definition is_known_placeholder (n : cstr) : bool :=
  bool_decide (n ∈ [lit "MENU_ITEMS"; lit "MENU_TITLE"; lit "MENU_NAME"; lit "PROMPT";
                    lit "USERNAME"; lit "NODE"; lit "TIME_LEFT"]).

(** The first unknown placeholder of a line.
    src/menu_template.c:267-285 (validate_menu_template) *)
Fixpoint unknown_placeholder (fuel : nat) (p : cstr) : option cstr :=
  match fuel with
  | O => None
  | S fuel =>
      '(_, start) ← find_str (lit "%%") p;
      '(n, rest) ← find_str (lit "%%") start;
      if bool_decide (n ≠ []) && (length n <? 32)%nat && negb (is_known_placeholder n) then Some n
      else unknown_placeholder fuel rest
  end.

(** The error of one line.
    src/menu_template.c:245-285 (validate_menu_template) *)
Definition check_line (n : Z) (line : cstr) : option TemplateValidation :=
  let vis := Z.of_nat (visible_len line) in
  if TERMINAL_WIDTH <? vis then
    Some (MkValidation TMPL_ERR_LINE_OVERFLOW n
      (copy 128 (lit "line " ++ fmt_d n ++ lit " has " ++ fmt_d vis ++ lit " visible columns (max "
                 ++ fmt_d TERMINAL_WIDTH ++ lit ")")))
  else
    name ← unknown_placeholder (S (length line)) line;
    Some (MkValidation TMPL_ERR_UNKNOWN_PLACEHOLDER n
      (copy 128 (lit "unknown placeholder %" ++ name ++ lit "% on line " ++ fmt_d n))).

(** The first error of the lines, or the number of them with the items and whether
    one has the prompt.
    src/menu_template.c:230-291 (validate_menu_template) *)
Fixpoint check_lines (n count : Z) (has_prompt : bool) (ls : list cstr) : TemplateValidation + Z * bool :=
  match ls with
  | [] => inr (count, has_prompt)
  | l :: ls =>
      let line := take 511 l in
      match check_line n line with
      | Some e => inl e
      | None =>
          check_lines (n + 1) (if has_str TOKEN_MENU_ITEMS line then count + 1 else count)
            (has_prompt || has_str TOKEN_PROMPT line) ls
      end
  end.

(** src/menu_template.c:207-315 (validate_menu_template) *)
Definition validate_menu_template (content : cstr) (is_stock is_asc : bool) : TemplateValidation :=
  if bool_decide (content = []) then MkValidation TMPL_ERR_MALFORMED 0 (lit "empty template")
  else if is_asc && contains_ansi_escape content then
    MkValidation TMPL_ERR_ANSI_IN_ASC 0 (lit "ANSI escape sequences not allowed in .asc files")
  else
    match check_lines 1 0 false (lines content) with
    | inl e => e
    | inr (count, has_prompt) =>
        if count =? 0 then
          MkValidation TMPL_ERR_NO_MENU_ITEMS 0 (lit "template must contain exactly one %%MENU_ITEMS%% line")
        else if 1 <? count then
          MkValidation TMPL_ERR_MULTIPLE_MENU_ITEMS 0
            (copy 128 (lit "template has " ++ fmt_d count ++ lit " %%MENU_ITEMS%% lines (must have exactly 1)"))
        else if is_stock && negb has_prompt then
          MkValidation TMPL_ERR_NO_PROMPT 0 (lit "stock templates must include %%PROMPT%%")
        else MkValidation TMPL_OK 0 []
    end.

(** ** Validation of keys *)

Definition key_clash (k : cstr) (a b : MenuItem) : MenuKeyValidation :=
  MkKeyValidation false k (copy 64 (label a)) (copy 64 (label b)).

(** src/menu_template.c:323-348 (validate_menu_keys) *)
Fixpoint single_key_clash (before l : list MenuItem) : option MenuKeyValidation :=
  match l with
  | [] => None
  | it :: after =>
      let next := single_key_clash (before ++ [it]) after in
      if key it =? 0 then next
      else
        match List.find (λ j, key j =? key it) after with
        | Some j => Some (key_clash [key it] it j)
        | None =>
            match List.find (λ j, bool_decide (key_str j = [key it])) (before ++ after) with
            | Some j => Some (key_clash [key it] it j)
            | None => next
            end
        end
  end.

(** src/menu_template.c:351-364 (validate_menu_keys) *)
Fixpoint word_key_clash (l : list MenuItem) : option MenuKeyValidation :=
  match l with
  | [] => None
  | it :: after =>
      if bool_decide (key_str it = []) then word_key_clash after
      else
        match List.find (λ j, bool_decide (key_str j = key_str it)) after with
        | Some j => Some (key_clash (key_str it) it j)
        | None => word_key_clash after
        end
  end.

(** src/menu_template.c:317-367 (validate_menu_keys) *)
Definition validate_menu_keys (m : Menu) : MenuKeyValidation :=
  match single_key_clash [] (items m) with
  | Some c => c
  | None => default (MkKeyValidation true [] [] []) (word_key_clash (items m))
  end.

(** ** Cells *)

(** An escape sequence, while there is room for one more byte; what was written
    and the rest.
    src/menu_template.c:432-437 (fit_cell) *)
Fixpoint copy_escape (cap : nat) (cell out : cstr) : cstr * cstr :=
  match cell with
  | c :: r =>
      if (length out + 1 <? cap)%nat then
        if isalpha c then (out ++ [c], r) else copy_escape cap r (out ++ [c])
      else (out, cell)
  | [] => (out, cell)
  end.

(** The first [trunc_at] visible characters. Each round takes a character.
    src/menu_template.c:427-442 (fit_cell) *)
Fixpoint truncate (fuel cap trunc_at vis_count : nat) (cell out : cstr) : cstr :=
  match fuel, cell with
  | S fuel, c :: r =>
      if (vis_count <? trunc_at)%nat && (length out + 4 <? cap)%nat then
        if (c =? 27) && (char_at r 0 =? ch "[") then
          let '(out, r) := copy_escape cap (drop 1 r) (out ++ [c; char_at r 0]) in
          truncate fuel cap trunc_at vis_count r out
        else truncate fuel cap trunc_at (S vis_count) r (out ++ [c])
      else out
  | _, _ => out
  end.

(** src/menu_template.c:397-454 (fit_cell) *)
Definition fit_cell (cell : cstr) (target_width cap : nat) : cstr :=
  let vis := visible_len cell in
  if (vis <=? target_width)%nat then
    pad cap (target_width - vis) (if (length cell <? cap)%nat then cell else [])
  else
    let trunc_at := if (3 <? target_width)%nat then (target_width - 3)%nat else target_width in
    let out := truncate (length cell) cap trunc_at 0 cell [] in
    if (3 <? target_width)%nat && (length out + 4 <? cap)%nat then out ++ lit "..." else out.

(** ** The page *)

Section rendering.
Context (clk : Clock) (tm_min : Z) (s : option MciSession).

(** [char cell[128]]
    src/menu_template.c:374-394 (format_menu_cell) *)
Definition format_menu_cell (it : MenuItem) : option cstr :=
  lbl ← expanded clk tm_min s 256 (label it);
  Some (copy 128 (lit "[" ++ take 15 (key_disp it) ++ lit "] " ++ take 108 lbl)).

(** What a placeholder stands for.
    src/menu_template.c:488-502 (expand_template_placeholders) *)
Definition replacement (m : Menu) (n : cstr) : option cstr :=
  if bool_decide (n = lit "MENU_TITLE") then Some (title m)
  else if bool_decide (n = lit "MENU_NAME") then Some (name m)
  else if bool_decide (n = lit "PROMPT") then Some (prompt m)
  else if bool_decide (n = lit "USERNAME") then
    Some (match s with Some s => handle (profile s) | None => [] end)
  else if bool_decide (n = lit "NODE") then
    Some (fmt_d (match s with Some s => node_num (acs_part s) | None => 0 end))
  else if bool_decide (n = lit "TIME_LEFT") then
    Some (fmt_d (match s with Some s => time_left_min (acs_part s) | None => 0 end))
  else None.

(** The text a placeholder at [p] is replaced by and what follows it; [None] when
    there is none.
    src/menu_template.c:465-515 (expand_template_placeholders) *)
Definition placeholder_at (m : Menu) (p : cstr) : option (cstr * cstr) :=
  if has_prefix (lit "%%") p then
    '(n, rest) ← find_str (lit "%%") (drop 2 p);
    if (length n <? 32)%nat then
      if bool_decide (n = lit "MENU_ITEMS") then Some (TOKEN_MENU_ITEMS, rest)
      else t ← replacement m n; Some (t, rest)
    else None
  else None.

(** Each round takes a character.
    src/menu_template.c:457-522 (expand_template_placeholders) *)
Fixpoint expand_placeholders (fuel cap : nat) (m : Menu) (p out : cstr) : cstr :=
  match fuel, p with
  | S fuel, c :: r =>
      if (length out + 1 <? cap)%nat then
        match placeholder_at m p with
        | Some (t, rest) =>
            expand_placeholders fuel cap m rest (if (length out + length t <? cap)%nat then out ++ t else out)
        | None => expand_placeholders fuel cap m r (out ++ [c])
        end
      else out
  | _, _ => out
  end.

Definition expand_template_placeholders (tmpl : cstr) (m : Menu) (cap : nat) : cstr :=
  expand_placeholders (length tmpl) cap m tmpl [].

(** src/menu_template.c:525-545 (calc_body_width) *)
Definition calc_body_width (body_line : cstr) : Z :=
  match find_str TOKEN_MENU_ITEMS body_line with
  | None => 0
  | Some (lft, rgt) =>
      Z.max 0 (TERMINAL_WIDTH - Z.of_nat (visible_len (take 255 lft)) - Z.of_nat (visible_len rgt))
  end.

(** [cols] columns or fewer, as wide as is allowed; 1 when there is no such number. *)
Fixpoint columns_from (cols : nat) (body_width : Z) : Z :=
  match cols with
  | O => 1
  | S n => if MIN_CELL_WIDTH <=? Z.quot body_width (Z.of_nat cols) then Z.of_nat cols else columns_from n body_width
  end.

(** src/menu_template.c:548-562 (compute_columns) *)
Definition compute_columns (body_width requested_max item_count : Z) : Z :=
  if item_count =? 0 then 1
  else columns_from (Z.to_nat (Z.min MAX_MENU_COLS (Z.max 1 requested_max))) body_width.

(** The items that are visible, at most [cap].
    src/menu_template.c:165-177 (collect_visible_menu_items) *)
Fixpoint collect_visible (cap : nat) (l : list MenuItem) : option (list MenuItem) :=
  match cap, l with
  | S n, it :: l =>
      v ← menu_item_visible clk s it;
      if v : bool then r ← collect_visible n l; Some (it :: r) else collect_visible cap l
  | _, _ => Some []
  end.

(** The cells of one row, and the items that are left.
    src/menu_template.c:720-740 (menu_render_template) *)
Fixpoint row_cells (c width : nat) (l : list MenuItem) (row : cstr) : option (cstr * list MenuItem) :=
  match c with
  | O => Some (row, l)
  | S c =>
      if (length row + width + 1 <? 256)%nat then
        '(cell, l) ← match l with
                     | it :: l => t ← format_menu_cell it; Some (t, l)
                     | [] => Some ([], [])
                     end;
        let fitted := fit_cell cell width 128 in
        row_cells c width l (if (length row + length fitted <? 256)%nat then row ++ fitted else row)
      else Some (row, l)
  end.

(** A row in the place of the token; [None] when it is written behind the end.
    src/menu_template.c:743-763 (menu_render_template) *)
Definition put_row (cap : nat) (body row out : cstr) : option cstr :=
  match find_str TOKEN_MENU_ITEMS body with
  | Some (lft, rgt) =>
      if (length out + 256 <? cap)%nat then
        let out := out ++ lft ++ row ++ rgt ++ crlf in
        if (length out <=? cap)%nat then Some out else None
      else Some out
  | None => Some out
  end.

(** One row without items, or rows until there are no items left. Each round takes
    an item.
    src/menu_template.c:718-767 (menu_render_template) *)
Fixpoint body_rows (fuel cap cols width : nat) (body : cstr) (l : list MenuItem) (out : cstr) : option cstr :=
  match fuel with
  | O => Some out
  | S fuel =>
      '(row, rest) ← row_cells cols width l [];
      out ← put_row cap body row out;
      match rest with [] => Some out | _ => body_rows fuel cap cols width body rest out end
  end.

(** A line of the header or the footer, when there is room for it.
    src/menu_template.c:703-714 (menu_render_template) *)
Definition put_line (cap : nat) (out line : cstr) : cstr :=
  if (length out + length line + 2 <? cap)%nat then out ++ line ++ crlf else out.

(** The last occurrence: what is before it, what follows it. *)
Fixpoint find_last (p s : cstr) : option (cstr * cstr) :=
  match s with
  | [] => None
  | c :: r =>
      match find_last p r with
      | Some (before, after) => Some (c :: before, after)
      | None => if has_prefix p s then Some ([], dropZ (zlen p) s) else None
      end
  end.

(** The characters after the last line feed. *)
Definition last_line (s : cstr) : cstr := if bool_decide (10 ∈ s) then after_last 10 s else s.

(** Back to the end of the prompt, when lines follow it.
    src/menu_template.c:567-594 (append_prompt_cursor) *)
Definition append_prompt_cursor (ansi : bool) (m : Menu) (out : cstr) (cap : nat) : cstr :=
  if negb ansi || bool_decide (prompt m = []) then out
  else
    match find_last (prompt m) out with
    | None => out
    | Some (before, after) =>
        let rows_up := count_occ Z.eq_dec after 10 in
        let prefix := last_line before ++ prompt m in
        if (rows_up =? 0)%nat || (512 <=? length prefix)%nat then out
        else
          let move := 27 :: lit "[" ++ fmt_d (Z.of_nat rows_up) ++ lit "A" ++ 27 :: lit "["
                      ++ fmt_d (Z.of_nat (visible_len prefix + 1)) ++ lit "G" in
          if (length move <? cap - length out)%nat then out ++ move else out
    end.

(** The header and the footer of the lines, and the line with the items, the last
    one when there are several. *)
Fixpoint split_body (ls : list cstr) : option (list cstr * cstr * list cstr) :=
  match ls with
  | [] => None
  | l :: ls =>
      match split_body ls with
      | Some (header, body, footer) => Some (l :: header, body, footer)
      | None => if has_str TOKEN_MENU_ITEMS l then Some ([], l, ls) else None
      end
  end.

(** The page of an expanded template; the empty text when there is none.
    src/menu_template.c:633-788 (menu_render_template) *)
Definition render_lines (ansi : bool) (m : Menu) (ls : list cstr) (cap : nat) : option cstr :=
  match split_body (take 256 ls) with
  | None => Some []
  | Some (header, body, footer) =>
      visible ← collect_visible 128 (items m);
      let body := take 511 body in
      let body_width := calc_body_width body in
      if body_width <? MIN_CELL_WIDTH then Some []
      else
        let cols := compute_columns body_width (if 0 <? gen_cols m then gen_cols m else 3)
                      (Z.of_nat (length visible)) in
        let width := Z.to_nat (Z.quot body_width cols) in
        out ← (if flag_set (menu_flags m) 1 then put cap (27 :: lit "[2J" ++ 27 :: lit "[H") [] else Some []);
        let out := fold_left (put_line cap) header out in
        out ← body_rows (S (length visible)) cap (Z.to_nat cols) width body visible out;
        let out := fold_left (put_line cap) footer out in
        if (length out <? cap)%nat then Some (append_prompt_cursor ansi m out cap) else None
  end.

(** ** Files *)

(** A text ends with one of the two extensions, from its last dot on. *)
Definition has_extension (art : cstr) : bool :=
  bool_decide (ch "." ∈ art) &&
  (bool_decide (after_last (ch ".") art = lit "ans") || bool_decide (after_last (ch ".") art = lit "asc")).

(** [file] is the content of a path, [None] when there is no regular file there.
    The path, and whether the file exists.
    src/menu_template.c:127-163 (resolve_menu_template_path) *)
Definition resolve_menu_template_path (file : cstr → option cstr) (ansi : bool) (m : Menu) : option cstr :=
  let ext := if ansi then lit ".ans" else lit ".asc" in
  let exists_at p := match file p with Some _ => Some p | None => None end in
  let art := if has_extension (art_file m) then art_file m else art_file m ++ ext in
  let named :=
    if bool_decide (art_file m = []) then None
    else match exists_at (copy 256 (lit "menus/" ++ art)) with
         | Some p => Some p
         | None => exists_at (copy 256 art)
         end in
  match named with
  | Some p => Some p
  | None => exists_at (copy 256 (lit "menus/" ++ name m ++ ext))
  end.

(** At most 1 MB.
    src/menu_template.c:97-125 (slurp_file) *)
Definition slurp_file (file : cstr → option cstr) (path : cstr) : option cstr :=
  content ← file path;
  if 1024 * 1024 <? zlen content then None else Some content.

(** The empty text asks for the classic page.
    src/menu_template.c:596-789 (menu_render_template) *)
Definition menu_render_template (file : cstr → option cstr) (ansi : bool) (m : Menu) (cap : nat) : option cstr :=
  match resolve_menu_template_path file ansi m with
  | None => Some []
  | Some path =>
      match slurp_file file path with
      | None => Some []
      | Some content =>
          let raw := c_string content in
          match code (validate_menu_template raw true (has_str (lit ".asc") path)) with
          | TMPL_OK =>
              render_lines ansi m (lines (expand_template_placeholders raw m (length content * 2 + 1024))) cap
          | _ => Some []
          end
      end
  end.

(** The page of a session.
    src/session.c:4477-4484 (session_thread_main) *)
Definition menu_page (file : cstr → option cstr) (ansi : bool) (m : Menu) : option cstr :=
  t ← menu_render_template file ansi m 4096;
  if bool_decide (t = []) then menu_render clk tm_min s m 4096 else Some t.

End rendering.
