(* ===== verification/MenuTemplateSpec.v ===== *)
(** What the templates of menus promise (src/menu_template.c): which templates are
    valid, which menus have clear keys, and the page a valid template makes of a
    menu, every row of it as wide as the terminal up to the division of the columns.
    And a valid template whose page is written behind the session's buffer. *)

From S2P Require Import Prelude CLib Acs AcsSpec Mci MciSpec Menu MenuSpec MenuTemplate.

#[local] Open Scope Z_scope.

(** ** Valid templates *)

(** The texts between one pair of percent signs and the next, pairwise. *)
Inductive placeholder : cstr → cstr → Prop :=
  | placeholder_here p l start n rest :
      find_str (lit "%%") p = Some (l, start) → find_str (lit "%%") start = Some (n, rest) → placeholder p n
  | placeholder_later p l start n rest n' :
      find_str (lit "%%") p = Some (l, start) → find_str (lit "%%") start = Some (n, rest) →
      placeholder rest n' → placeholder p n'.

(** A text that has at most 31 characters, at least one, and is no known name. *)
Definition unknown (n : cstr) : Prop :=
  n ≠ [] ∧ (length n < 32)%nat ∧ is_known_placeholder n = false.

Lemma find_pair_shorter p l r : find_str (lit "%%") p = Some (l, r) → (length r < length p)%nat.
Proof. by apply find_str_shorter. Qed.

Lemma unknown_placeholder_none fuel : ∀ p,
  (length p < fuel)%nat →
  unknown_placeholder fuel p = None ↔ ∀ n, placeholder p n → ¬ unknown n.
Proof.
  induction fuel as [|fuel IH]; intros p Hf; [lia |]. cbn [unknown_placeholder].
  destruct (find_str _ p) as [[l start] |] eqn:E1; cbn [mbind option_bind].
  2: { split; [intros _ n Hn; by inversion Hn; simplify_eq | done]. }
  destruct (find_str _ start) as [[n rest] |] eqn:E2; cbn [mbind option_bind].
  2: { split; [intros _ n' Hn; by inversion Hn; simplify_eq | done]. }
  pose proof (find_pair_shorter _ _ _ E1). pose proof (find_pair_shorter _ _ _ E2).
  destruct (bool_decide (n ≠ []) && (length n <? 32)%nat && negb (is_known_placeholder n)) eqn:E3.
  - split; [done |]. intros K. exfalso. apply (K n); [by econstructor |].
    rewrite !andb_true_iff, bool_decide_eq_true, Nat.ltb_lt, negb_true_iff in E3. by destruct E3 as [[] ].
  - rewrite IH by lia. split.
    + intros K n' Hn'. inversion Hn'; simplify_eq; [| by apply K].
      intros (N1 & N2 & N3). rewrite bool_decide_eq_true_2, (proj2 (Nat.ltb_lt _ _)), N3 in E3 by done. done.
    + intros K n' Hn'. apply K. by eapply placeholder_later.
Qed.

(** A line that fits the terminal and whose placeholders are known. *)
Definition good_line (l : cstr) : Prop :=
  Z.of_nat (visible_len l) <= TERMINAL_WIDTH ∧ ∀ n, placeholder l n → ¬ unknown n.

Lemma check_line_none n l : check_line n l = None ↔ good_line l.
Proof.
  unfold check_line, good_line. destruct (Z.ltb_spec TERMINAL_WIDTH (Z.of_nat (visible_len l))) as [H | H].
  - split; [done | intros [? _]; lia].
  - rewrite <- (unknown_placeholder_none (S (length l)) l) by lia.
    destruct (unknown_placeholder _ _); cbn; [by split; [| intros []] | by split].
Qed.

(** The lines the validation sees: their first 511 bytes. *)
Definition seen_lines (content : cstr) : list cstr := map (take 511) (lines content).

Definition with_items (ls : list cstr) : list cstr := filter (λ l, has_str TOKEN_MENU_ITEMS l = true) ls.

Lemma check_lines_good n count hp ls v :
  check_lines n count hp ls = inr v ↔
  Forall good_line (map (take 511) ls) ∧
  v = (count + zlen (with_items (map (take 511) ls)),
       hp || existsb (has_str TOKEN_PROMPT) (map (take 511) ls)).
Proof.
  revert n count hp. induction ls as [|l ls IH]; intros n count hp; cbn [check_lines map existsb].
  - rewrite orb_false_r. unfold zlen. cbn. rewrite Z.add_0_r. split; [by intros [= <-] | by intros [_ ->]].
  - pose proof (check_line_none n (take 511 l)) as K. destruct (check_line _ _).
    + split; [done |]. intros [[Hl _]%Forall_cons _]. by apply K in Hl.
    + rewrite IH, Forall_cons, orb_assoc. unfold with_items, zlen.
      destruct (has_str TOKEN_MENU_ITEMS (take 511 l)) eqn:E;
        [rewrite filter_cons_True by done | rewrite filter_cons_False by congruence];
        cbn [length]; rewrite ?Nat2Z.inj_succ, <- ?Z.add_1_l, ?Z.add_assoc; intuition.
Qed.

Lemma existsb_Exists {A} (f : A → bool) l : existsb f l = true ↔ Exists (λ x, f x = true) l.
Proof. rewrite existsb_exists, Exists_exists. by setoid_rewrite list_elem_of_In. Qed.

Lemma check_lines_error n count hp ls e : check_lines n count hp ls = inl e → code e ≠ TMPL_OK.
Proof.
  revert n count hp. induction ls as [|l ls IH]; intros n count hp; cbn [check_lines]; [done |].
  destruct (check_line n (take 511 l)) as [e' |] eqn:E; [| by apply IH]. intros [= ->].
  unfold check_line in E. case_match; [by injection E as <- |].
  destruct (unknown_placeholder _ _); [by injection E as <- | done].
Qed.

(** A template is valid exactly when it is not empty, an ASCII one has no escape
    sequence, every line (its first 511 bytes) fits the 80 columns of the terminal
    and has only known placeholders, exactly one line has the items and, for a
    stock template, one has the prompt. *)
Theorem valid_templates content is_stock is_asc :
  code (validate_menu_template content is_stock is_asc) = TMPL_OK ↔
  content ≠ [] ∧
  (is_asc = true → contains_ansi_escape content = false) ∧
  Forall good_line (seen_lines content) ∧
  length (with_items (seen_lines content)) = 1%nat ∧
  (is_stock = true → Exists (λ l, has_str TOKEN_PROMPT l = true) (seen_lines content)).
Proof.
  unfold validate_menu_template. case_bool_decide as E1; [by split; [| intros []] |].
  destruct (is_asc && contains_ansi_escape content) eqn:E2.
  { apply andb_prop in E2 as [-> E2]. split; [done |]. intros (_ & H & _). by rewrite H in E2. }
  assert (is_asc = true → contains_ansi_escape content = false) as Ha by (intros ->; exact E2).
  pose proof (check_lines_good 1 0 false (lines content)) as K. fold (seen_lines content) in K.
  destruct (check_lines 1 0 false (lines content)) as [e | [count hp]] eqn:E3.
  { apply check_lines_error in E3. split; [done |]. intros (_ & _ & Hg & _).
    discriminate (proj2 (K _) (conj Hg eq_refl)). }
  destruct (proj1 (K (count, hp)) eq_refl) as (Hg & [= -> ->]). cbn [orb]. clear K E3 E2.
  rewrite Z.add_0_l. unfold zlen. rewrite <- existsb_Exists.
  generalize (length (with_items (seen_lines content))). intros k.
  destruct (Z.eqb_spec (Z.of_nat k) 0); [split; [done | lia] |].
  destruct (Z.ltb_spec 1 (Z.of_nat k)); [split; [done | lia] |].
  destruct (is_stock && negb _) eqn:E4.
  - apply andb_prop in E4 as [-> E4%negb_true_iff]. split; [done |].
    intros (_ & _ & _ & _ & E). rewrite (E eq_refl) in E4. done.
  - split; [intros _ | done]. repeat (split; [done || lia |]). intros ->.
    by apply andb_false_iff in E4 as [? | E4%negb_false_iff].
Qed.

(** ** Clear keys *)

(** No two items have the same key, of one character or of several. *)
Definition clear_keys (l : list MenuItem) : Prop :=
  ∀ l1 a l2 b, l = l1 ++ a :: l2 → b ∈ l1 ++ l2 →
    (key a ≠ 0 → key b ≠ key a ∧ key_str b ≠ [key a]) ∧ (key_str a ≠ [] → key_str b ≠ key_str a).

Lemma find_none {A} (f : A → bool) l : List.find f l = None ↔ ∀ x, x ∈ l → f x = false.
Proof.
  split; [intros H x Hx%list_elem_of_In; by apply (find_none f l) |].
  intros H. destruct (List.find f l) eqn:E; [| done].
  apply find_some in E as [Hi Hf]. rewrite H in Hf; [done | by apply list_elem_of_In].
Qed.

(** A property of every item with what is before it and what is after it. *)
Definition each (before l : list MenuItem) (P : list MenuItem → MenuItem → list MenuItem → Prop) : Prop :=
  ∀ l1 a l2, l = l1 ++ a :: l2 → P (before ++ l1) a l2.

Lemma each_nil before P : each before [] P.
Proof. intros l1 a l2 E. by destruct l1. Qed.

Lemma each_cons before a l P : each before (a :: l) P ↔ P before a l ∧ each (before ++ [a]) l P.
Proof.
  split.
  - intros H. split; [rewrite <- (app_nil_r before); by apply (H [] a l) |].
    intros l1 b l2 ->. rewrite <- app_assoc. by apply (H (a :: l1) b l2).
  - intros [Ha H] [|c l1] b l2 E; cbn in E; simplify_eq; [by rewrite app_nil_r |].
    replace (before ++ c :: l1) with ((before ++ [c]) ++ l1) by (by rewrite <- app_assoc). by apply H.
Qed.

Lemma single_key_clear l : ∀ before,
  single_key_clash before l = None ↔
  each before l (λ l1 a l2, key a ≠ 0 →
    (∀ b, b ∈ l2 → key b ≠ key a) ∧ (∀ b, b ∈ l1 ++ l2 → key_str b ≠ [key a])).
Proof.
  induction l as [|it l IH]; intros before; cbn [single_key_clash]; [by split; [intros; apply each_nil |] |].
  rewrite each_cons, <- IH. destruct (Z.eqb_spec (key it) 0) as [E | E]; [tauto |].
  destruct (List.find _ l) as [j |] eqn:E1.
  { split; [done |]. intros [H _]. apply find_some in E1 as [Hj Ej%Z.eqb_eq].
    by apply list_elem_of_In, (proj1 (H E)) in Hj. }
  destruct (List.find _ (before ++ l)) as [j |] eqn:E2.
  { split; [done |]. intros [H _]. apply find_some in E2 as [Hj Ej%bool_decide_eq_true].
    by apply list_elem_of_In, (proj2 (H E)) in Hj. }
  rewrite find_none in E1, E2. split; [| tauto]. intros H. split; [| done]. intros _. split; intros b Hb.
  - by apply Z.eqb_neq, E1.
  - by eapply bool_decide_eq_false, E2.
Qed.

Lemma word_key_clear l : ∀ before,
  word_key_clash l = None ↔
  each before l (λ l1 a l2, key_str a ≠ [] → ∀ b, b ∈ l2 → key_str b ≠ key_str a).
Proof.
  induction l as [|it l IH]; intros before; cbn [word_key_clash]; [by split; [intros; apply each_nil |] |].
  rewrite each_cons, <- (IH (before ++ [it])). case_bool_decide as E; [tauto |].
  destruct (List.find _ l) as [j |] eqn:E1.
  { split; [done |]. intros [H _]. apply find_some in E1 as [Hj Ej%bool_decide_eq_true].
    by apply list_elem_of_In, (H E) in Hj. }
  rewrite find_none in E1. split; [| tauto]. intros H. split; [| done]. intros _ b Hb.
  by eapply bool_decide_eq_false, E1.
Qed.

(** The items after [b] of a list that has [b] before [a]. *)
Lemma split_before (l1 : list MenuItem) a l2 b :
  b ∈ l1 → ∃ k1 k2, l1 ++ a :: l2 = k1 ++ b :: k2 ∧ a ∈ k2.
Proof.
  intros (k1 & k2 & ->)%list_elem_of_split. exists k1, (k2 ++ a :: l2).
  split; [by rewrite <- app_assoc |]. apply list_elem_of_In, in_or_app. right. by left.
Qed.

(** The check of a menu's keys finds a clash exactly when there is one. *)
Theorem keys_are_checked m : valid (validate_menu_keys m) = true ↔ clear_keys (items m).
Proof.
  unfold validate_menu_keys. pose proof (single_key_clear (items m) []) as K1.
  pose proof (word_key_clear (items m) []) as K2. generalize (items m) K1 K2. clear. intros l K1 K2.
  assert (single_key_clash [] l = None ∧ word_key_clash l = None ↔ clear_keys l) as K.
  { rewrite K1, K2. unfold each, clear_keys. cbn [app]. split.
    - intros [H1 H2] l1 a l2 b E Hb. split; intros Na.
      + destruct (H1 l1 a l2 E Na) as [H3 H4]. split; [| by apply H4].
        apply elem_of_app in Hb as [Hb | Hb]; [| by apply H3].
        destruct (split_before l1 a l2 b Hb) as (k1 & k2 & Ek & Ha). intros Eb.
        destruct (H1 k1 b k2) as [H5 _]; [congruence.. |]. by apply (H5 a Ha).
      + apply elem_of_app in Hb as [Hb | Hb]; [| by apply (H2 l1 a l2)].
        destruct (split_before l1 a l2 b Hb) as (k1 & k2 & Ek & Ha). intros Eb.
        apply (H2 k1 b k2) in Ha; congruence.
    - intros H. split; intros l1 a l2 E Na.
      + split; intros b Hb; [| by apply (H l1 a l2 b E Hb)].
        apply (H l1 a l2 b E); [apply elem_of_app; by right | done].
      + intros b Hb. apply (H l1 a l2 b E); [apply elem_of_app; by right | done]. }
  rewrite <- K. destruct (single_key_clash [] l) as [c |] eqn:E1.
  - assert (valid c = false) as ->; [| by split; [| intros []]].
    revert E1. clear. generalize (@nil MenuItem). induction l as [|it l IH]; intros before; cbn; [done |].
    repeat case_match; try done; try (by intros [= <-]); by apply IH.
  - destruct (word_key_clash l) as [c |] eqn:E2; [| by split]. cbn.
    assert (valid c = false) as ->; [| by split; [| intros []]].
    revert E2. clear. induction l as [|it l IH]; cbn; [done |].
    repeat case_match; try done; by intros [= <-].
Qed.

(** ** Cells of plain text *)

Definition plain (s : cstr) : Prop := Forall (λ c, 32 <= c) s.

Lemma visible_plain a b : plain a → visible_len (a ++ b) = (length a + visible_len b)%nat.
Proof.
  unfold visible_len. induction 1 as [|c a Hc _ IH]; [done |].
  cbn [app visible_from length]. rewrite (proj2 (Z.eqb_neq c 27)), (proj2 (Z.ltb_ge c 32)) by lia. cbn [andb].
  rewrite Nat.add_succ_l, <- IH. by destruct (a ++ b).
Qed.

Lemma visible_plain_all a : plain a → visible_len a = length a.
Proof. intros H. rewrite <- (app_nil_r a) at 1. rewrite visible_plain by done. unfold visible_len. cbn. lia. Qed.

Lemma truncate_plain cap n cell : ∀ fuel k out,
  plain cell → (length cell <= fuel)%nat → (k <= n)%nat → (length out + (n - k) + 4 < cap)%nat →
  truncate fuel cap n k cell out = out ++ take (n - k) cell.
Proof.
  induction cell as [|c cell IH]; intros [|fuel] k out Hp Hf Hk Hc; cbn in Hf; try lia; cbn [truncate].
  - by rewrite take_nil, app_nil_r.
  - by rewrite take_nil, app_nil_r.
  - apply Forall_cons in Hp as [Hc0 Hp]. rewrite (proj2 (Nat.ltb_lt (length out + 4) cap)) by lia.
    rewrite andb_true_r. destruct (Nat.ltb_spec k n).
    + rewrite (proj2 (Z.eqb_neq c 27)) by lia. cbn [andb].
      rewrite IH by (rewrite ?length_app; cbn; done || lia).
      rewrite <- app_assoc. f_equal. replace (n - k)%nat with (S (n - S k)) by lia. done.
    + replace (n - k)%nat with 0%nat by lia. cbn. by rewrite app_nil_r.
Qed.

(** A text in a cell of [w] characters. *)
Definition fitted (w : nat) (t : cstr) : cstr :=
  if (length t <=? w)%nat then t ++ replicate (w - length t) 32 else take (w - 3) t ++ lit "...".

Lemma fitted_length w t : (4 <= w)%nat → length (fitted w t) = w.
Proof.
  intros Hw. unfold fitted. destruct (Nat.leb_spec (length t) w).
  - rewrite length_app, length_replicate. lia.
  - rewrite length_app, length_take. cbn. lia.
Qed.

Lemma fitted_plain w t : plain t → plain (fitted w t).
Proof.
  intros H. unfold fitted. case_match; apply Forall_app; split; [done | | by apply Forall_take |].
  - apply Forall_replicate. lia.
  - by repeat (constructor; [done |]); constructor.
Qed.

Lemma fit_cell_plain t w :
  plain t → (length t <= 126)%nat → (4 <= w <= 80)%nat → fit_cell t w 128 = fitted w t.
Proof.
  intros Hp Hl Hw. unfold fit_cell, fitted. rewrite visible_plain_all by done. cbn zeta.
  destruct (Nat.leb_spec (length t) w).
  - rewrite (proj2 (Nat.ltb_lt _ _)) by lia. by rewrite pad_fits by lia.
  - rewrite (proj2 (Nat.ltb_lt 3 w)) by lia. cbn [andb].
    rewrite truncate_plain by (cbn; done || lia). cbn [app]. rewrite Nat.sub_0_r.
    by rewrite (proj2 (Nat.ltb_lt _ _)) by (rewrite length_take; lia).
Qed.

(** ** Rows *)

(** At least ten characters in each of the columns, which fit the body. *)
Lemma columns_fit n W :
  10 <= W → let c := columns_from n W in 1 <= c <= Z.max 1 (Z.of_nat n) ∧ 10 <= W / c.
Proof.
  intros HW. induction n as [|n IH]; cbn [columns_from]; [rewrite Z.div_1_r; lia |].
  rewrite Z.quot_div_nonneg by lia. unfold MIN_CELL_WIDTH.
  destruct (Z.leb_spec 10 (W / Z.of_nat (S n))); cbn zeta in *; lia.
Qed.

Lemma compute_columns_fit W req n :
  10 <= W <= 80 →
  let c := compute_columns W req n in
  1 <= c <= 3 ∧ 10 <= W / c <= 80 ∧ c * (W / c) <= W < c * (W / c) + c.
Proof.
  intros HW. cbn zeta. unfold compute_columns, MAX_MENU_COLS.
  assert (let c := if n =? 0 then 1 else columns_from (Z.to_nat (Z.min 3 (Z.max 1 req))) W in
          1 <= c <= 3 ∧ 10 <= W / c) as [Hc Hw].
  { cbn zeta. destruct (n =? 0); [rewrite Z.div_1_r; lia |].
    destruct (columns_fit (Z.to_nat (Z.min 3 (Z.max 1 req))) W) as [H1 H2]; lia. }
  cbn zeta in *. revert Hc Hw. generalize (if n =? 0 then 1 else columns_from (Z.to_nat (Z.min 3 (Z.max 1 req))) W).
  intros c Hc Hw. pose proof (Z.div_mod W c). pose proof (Z.mod_pos_bound W c).
  assert (W / c <= 80) by (apply Z.div_le_upper_bound; nia). lia.
Qed.

Lemma rows_of_take {A} n (l : list A) : ∀ cur,
  (length cur < n)%nat →
  rows_of n cur l = match cur ++ l with [] => [] | _ => take n (cur ++ l) :: rows_of n [] (drop n (cur ++ l)) end.
Proof.
  induction l as [|x l IH]; intros cur Hn; cbn [rows_of].
  - rewrite app_nil_r. destruct cur; [done |]. by rewrite take_ge, drop_ge by lia.
  - destruct (Nat.ltb_spec (S (length cur)) n).
    + rewrite IH by (rewrite length_app; cbn; lia). by rewrite <- app_assoc.
    + replace (cur ++ x :: l) with ((cur ++ [x]) ++ l) by (by rewrite <- app_assoc).
      assert (n = length (cur ++ [x])) as -> by (rewrite length_app; cbn; lia).
      rewrite take_app_length, drop_app_length. by destruct cur.
Qed.

Lemma rows_of_length {A} n (l : list A) r :
  (0 < n)%nat → r ∈ rows_of n [] l → (length r <= n)%nat.
Proof.
  intros Hn. remember (length l) as k eqn:Ek. revert l Ek.
  induction (lt_wf k) as [k _ IH]. intros l ->. rewrite rows_of_take by done. cbn [app].
  destruct l as [|x l]; [by intros ?%elem_of_nil |]. intros [-> | H]%elem_of_cons.
  - rewrite length_take. lia.
  - eapply IH; [| done | exact H]. rewrite length_drop. cbn. lia.
Qed.

(** The items that are in the rows: one empty row when there are none. *)
Definition item_rows (cols : nat) (l : list MenuItem) : list (list MenuItem) :=
  match l with [] => [[]] | _ => rows_of cols [] l end.

Lemma item_rows_take cols l :
  (0 < cols)%nat → l ≠ [] →
  item_rows cols l = take cols l :: match drop cols l with [] => [] | r => item_rows cols r end.
Proof.
  intros Hc Hl. unfold item_rows at 1. destruct l as [|x l]; [done |].
  rewrite rows_of_take by done. cbn [app]. f_equal.
  destruct (drop cols (x :: l)) eqn:E; [done |]. done.
Qed.

Section page.
Context (clk : Clock) (tm_min : Z) (s : option MciSession).

Abbreviation label_text it := (meaning_of clk tm_min s 256 (label it)).

(** The text of a cell. *)
Definition cell_text (it : MenuItem) : cstr :=
  lit "[" ++ take 15 (key_disp it) ++ lit "] " ++ take 108 (label_text it).

Definition cell_row (w : nat) (r : list MenuItem) : cstr := concat (map (λ it, fitted w (cell_text it)) r).

(** A row without its end. *)
Definition row_text (cols w : nat) (lft rgt : cstr) (r : list MenuItem) : cstr :=
  lft ++ cell_row w r ++ replicate ((cols - length r) * w) 32 ++ rgt.

(** Its keys and labels are plain text. *)
Definition plain_item (it : MenuItem) : Prop := plain (key_disp it) ∧ plain (label_text it).

Lemma cell_text_plain it : plain_item it → plain (cell_text it) ∧ (length (cell_text it) <= 126)%nat.
Proof.
  intros [Hk Hl]. unfold cell_text. split.
  - repeat (apply Forall_app; split); try by apply Forall_take.
    all: repeat (constructor; [done |]); constructor.
  - rewrite !length_app, !length_take. cbn [lit length]. lia.
Qed.

Lemma cells_length w r : (4 <= w)%nat → length (cell_row w r) = (length r * w)%nat.
Proof.
  intros Hw. induction r as [|it r IH]; [done |]. unfold cell_row in *. cbn [map concat length].
  rewrite length_app, IH, fitted_length by done. lia.
Qed.

Context (Hd : mci_defined clk tm_min s).

Lemma format_cell it : format_menu_cell clk tm_min s it = Some (cell_text it).
Proof.
  unfold format_menu_cell. rewrite expanded_meaning by (done || lia). cbn [mbind option_bind].
  f_equal. apply copy_short. unfold cell_text. rewrite !length_app, !length_take. cbn [lit length]. lia.
Qed.

Lemma row_cells_take w c : ∀ l row,
  (4 <= w <= 80)%nat → Forall plain_item l → (length row + c * w + 1 < 256)%nat →
  row_cells clk tm_min s c w l row
  = Some (row ++ cell_row w (take c l) ++ replicate ((c - length (take c l)) * w) 32, drop c l).
Proof.
  induction c as [|c IH]; intros l row Hw Hp Hr; cbn [row_cells].
  - by rewrite !drop_0, !app_nil_r.
  - rewrite (proj2 (Nat.ltb_lt (length row + w + 1) 256)) by lia. destruct l as [|it l].
    + cbn [mbind option_bind]. rewrite fit_cell_plain by (try constructor; cbn; lia).
      rewrite (proj2 (Nat.ltb_lt _ _)) by (rewrite fitted_length; lia).
      rewrite IH by (try done; rewrite length_app, fitted_length; lia).
      rewrite !take_nil, !drop_nil. cbn [length cell_row map concat app]. rewrite !Nat.sub_0_r.
      unfold fitted. cbn [length]. rewrite Nat.sub_0_r. cbn [Nat.leb app].
      by rewrite <- app_assoc, <- replicate_add.
    + apply Forall_cons in Hp as [Hi Hp]. rewrite format_cell. cbn [mbind option_bind].
      destruct (cell_text_plain it Hi). rewrite fit_cell_plain by done.
      rewrite (proj2 (Nat.ltb_lt _ _)) by (rewrite fitted_length; lia).
      rewrite IH by (try done; rewrite length_app, fitted_length; lia).
      cbn [take drop length Nat.sub]. unfold cell_row. cbn [map concat]. by rewrite <- !app_assoc.
Qed.

Definition ended (l : cstr) : cstr := l ++ crlf.

Lemma put_row_fits cap body lft rgt row out :
  find_str TOKEN_MENU_ITEMS body = Some (lft, rgt) →
  (length (out ++ ended (lft ++ row ++ rgt)) + 256 < cap)%nat →
  put_row cap body row out = Some (out ++ ended (lft ++ row ++ rgt)).
Proof.
  intros E H. unfold put_row, ended in *. rewrite E. rewrite <- !app_assoc in *.
  rewrite (proj2 (Nat.ltb_lt _ _)) by (rewrite length_app in H; lia).
  by rewrite (proj2 (Nat.leb_le _ _)) by lia.
Qed.

Lemma body_rows_fit cap cols w body lft rgt :
  find_str TOKEN_MENU_ITEMS body = Some (lft, rgt) →
  (1 <= cols)%nat → (4 <= w <= 80)%nat → (cols * w <= 80)%nat →
  ∀ fuel l out,
  Forall plain_item l → (length l < fuel)%nat →
  let text := out ++ concat (map (λ r, ended (row_text cols w lft rgt r)) (item_rows cols l)) in
  (length text + 256 < cap)%nat →
  body_rows clk tm_min s fuel cap cols w body l out = Some text.
Proof.
  intros Eb Hc Hw Hcw. induction fuel as [|fuel IH]; intros l out Hp Hf; [lia |]. cbn zeta. intros H.
  cbn [body_rows]. rewrite row_cells_take by (done || cbn; lia). cbn [mbind option_bind app].
  assert (ended (lft ++ (cell_row w (take cols l) ++ replicate ((cols - length (take cols l)) * w) 32) ++ rgt)
    = ended (row_text cols w lft rgt (take cols l))) as Er
    by (unfold row_text, ended; by rewrite <- !app_assoc).
  destruct l as [|it l].
  - rewrite !take_nil, drop_nil in *. cbn [item_rows map concat] in *. rewrite app_nil_r in *.
    rewrite (put_row_fits _ _ lft rgt) by (done || rewrite Er; lia). by rewrite Er.
  - rewrite item_rows_take in * by (done || lia). cbn [map concat] in H |- *. rewrite app_assoc in H |- *.
    rewrite (put_row_fits _ _ lft rgt) by (done || rewrite Er; rewrite length_app in H; lia).
    cbn [mbind option_bind]. rewrite Er.
    destruct (drop cols (it :: l)) as [|it' l'] eqn:Ed; [cbn; by rewrite app_nil_r |].
    apply IH; [| | done].
    + rewrite <- Ed. by apply Forall_drop.
    + rewrite <- Ed, length_drop. cbn in *. lia.
Qed.

Lemma put_lines cap ls : ∀ out,
  (length (out ++ concat (map ended ls)) < cap)%nat →
  fold_left (put_line cap) ls out = out ++ concat (map ended ls).
Proof.
  induction ls as [|l ls IH]; intros out H; [by rewrite app_nil_r |]. cbn [fold_left map concat] in *.
  unfold put_line at 2. rewrite (proj2 (Nat.ltb_lt _ _)).
  - rewrite IH; [by rewrite <- app_assoc | by rewrite <- app_assoc].
  - unfold ended in H at 1. rewrite !length_app in H. cbn in H. lia.
Qed.

Lemma split_body_app header body footer :
  has_str TOKEN_MENU_ITEMS body = true → Forall (λ l, has_str TOKEN_MENU_ITEMS l = false) footer →
  split_body (header ++ body :: footer) = Some (header, body, footer).
Proof.
  intros Hb Hf. induction header as [|l header IH]; cbn [split_body app]; [| by rewrite IH].
  assert (split_body footer = None) as ->; [| by rewrite Hb].
  induction Hf as [|l footer Hl _ IH]; [done |]. cbn [split_body]. by rewrite IH, Hl.
Qed.

Definition seen (m : Menu) : list MenuItem := filter (λ it, shown clk s it = true) (items m).

Lemma collect_seen cap l :
  (length (filter (λ it, shown clk s it = true) l) <= cap)%nat →
  collect_visible clk s cap l = Some (filter (λ it, shown clk s it = true) l).
Proof.
  revert cap. induction l as [|it l IH]; intros cap H; [by destruct cap |]. cbn [collect_visible].
  destruct cap as [|cap].
  - by destruct (filter _ (it :: l)); [| cbn in H; lia].
  - rewrite (visible_shown clk tm_min s Hd). cbn [mbind option_bind]. destruct (shown clk s it) eqn:E.
    + rewrite filter_cons_True in * by done. rewrite IH by (cbn in H; lia). done.
    + rewrite filter_cons_False in * by congruence. by apply IH.
Qed.

(** The page: the screen cleared when the menu says so, the lines of the header,
    the rows of items between the borders of the body, the lines of the footer. *)
Definition template_text (m : Menu) (cols w : nat) (header : list cstr) (lft rgt : cstr) (footer : list cstr) : cstr :=
  (if flag_set (menu_flags m) 1 then 27 :: lit "[2J" ++ 27 :: lit "[H" else [])
  ++ concat (map ended (header ++ map (row_text cols w lft rgt) (item_rows cols (seen m)) ++ footer)).

Lemma render_lines_text ansi m header lft rgt body footer cap :
  let W := TERMINAL_WIDTH - Z.of_nat (visible_len lft) - Z.of_nat (visible_len rgt) in
  let cols := compute_columns W (if 0 <? gen_cols m then gen_cols m else 3) (zlen (seen m)) in
  let text := template_text m (Z.to_nat cols) (Z.to_nat (W / cols)) header lft rgt footer in
  find_str TOKEN_MENU_ITEMS body = Some (lft, rgt) →
  Forall (λ l, has_str TOKEN_MENU_ITEMS l = false) footer →
  (length (header ++ body :: footer) <= 256)%nat → (length body <= 511)%nat → (length lft <= 255)%nat →
  (length (seen m) <= 128)%nat → MIN_CELL_WIDTH <= W → Forall plain_item (seen m) →
  (length text + 256 < cap)%nat →
  render_lines clk tm_min s ansi m (header ++ body :: footer) cap = Some (append_prompt_cursor ansi m text cap).
Proof.
  cbn zeta. intros Eb Hf Hn Hb Hl Hs HW Hp. set (W := TERMINAL_WIDTH - _ - _) in *.
  unfold MIN_CELL_WIDTH in HW. assert (W <= 80) as HW2 by (unfold W, TERMINAL_WIDTH; lia).
  set (req := if 0 <? gen_cols m then gen_cols m else 3).
  pose proof (compute_columns_fit W req (zlen (seen m)) ltac:(lia)) as Hc. cbn zeta in Hc.
  unfold render_lines. rewrite (take_ge (header ++ _)) by done.
  rewrite split_body_app; [| by unfold has_str; rewrite Eb | done].
  rewrite collect_seen by done. cbn [mbind option_bind]. fold (seen m).
  rewrite (take_ge body) by done.
  assert (calc_body_width body = W) as ->
    by (unfold calc_body_width; rewrite Eb, take_ge by done; fold W; lia).
  rewrite (proj2 (Z.ltb_ge _ _)) by (unfold MIN_CELL_WIDTH; lia). cbn zeta. fold req.
  change (Z.of_nat (length (seen m))) with (zlen (seen m)).
  revert Hc. generalize (compute_columns W req (zlen (seen m))). intros cols (Hc1 & Hc2 & Hc3).
  rewrite Z.quot_div_nonneg by lia. unfold template_text.
  set (clear := 27 :: lit "[2J" ++ 27 :: lit "[H"). rewrite !map_app, !concat_app, map_map.
  set (a := if flag_set (menu_flags m) 1 then clear else []). intros H. rewrite !length_app in H.
  assert ((if flag_set (menu_flags m) 1 then put cap clear [] else Some []) = Some a) as ->.
  { subst a. destruct (flag_set _ _); [| done]. apply (put_fits cap clear []). cbn [app]. lia. }
  cbn [mbind option_bind].
  rewrite put_lines by (rewrite length_app; lia).
  rewrite (body_rows_fit cap (Z.to_nat cols) (Z.to_nat (W / cols)) body lft rgt);
    [| done | lia | lia | | done | lia | rewrite !length_app; lia].
  2: { rewrite <- Z2Nat.inj_mul by lia. lia. }
  cbn [mbind option_bind]. rewrite put_lines by (rewrite !length_app; lia).
  rewrite <- !app_assoc. rewrite (proj2 (Nat.ltb_lt _ _)) by (rewrite !length_app; lia). done.
Qed.

(** No escape sequence straddles the end of the text. *)
Definition complete (l : cstr) : Prop := ∀ x, visible_len (l ++ x) = (visible_len l + visible_len x)%nat.

Lemma row_width W cols lft rgt r :
  complete lft → W = TERMINAL_WIDTH - Z.of_nat (visible_len lft) - Z.of_nat (visible_len rgt) →
  1 <= cols <= 3 → 10 <= W / cols <= 80 → Forall plain_item r → (length r <= Z.to_nat cols)%nat →
  cols * (W / cols) <= W < cols * (W / cols) + cols →
  let vis := Z.of_nat (visible_len (row_text (Z.to_nat cols) (Z.to_nat (W / cols)) lft rgt r)) in
  TERMINAL_WIDTH - cols < vis <= TERMINAL_WIDTH.
Proof.
  intros Hl HW Hc Hw Hp Hr Hcw. cbn zeta. unfold row_text. rewrite Hl, app_assoc, visible_plain.
  - rewrite length_app, cells_length, length_replicate by lia.
    rewrite <- Nat.mul_add_distr_r.
    replace (length r + (Z.to_nat cols - length r))%nat with (Z.to_nat cols) by lia.
    rewrite <- Z2Nat.inj_mul by lia. lia.
  - apply Forall_app. split; [| apply Forall_replicate; lia].
    unfold cell_row. induction Hp as [|it r Hi _ IH]; [constructor |]. cbn [map concat length] in *.
    apply Forall_app. split; [by apply fitted_plain, cell_text_plain | apply IH; lia].
Qed.

Lemma cursor_nonempty ansi m out cap : out ≠ [] → append_prompt_cursor ansi m out cap ≠ [].
Proof.
  intros H. unfold append_prompt_cursor. case_match; [done |]. destruct (find_last _ _) as [[??] |]; [| done].
  cbn zeta. repeat case_match; try done. by destruct out.
Qed.

Lemma text_nonempty m cols w header lft rgt footer : template_text m cols w header lft rgt footer ≠ [].
Proof.
  unfold template_text. intros E%(f_equal length). revert E. rewrite length_app, !map_app, !concat_app, !length_app.
  assert (0 < length (concat (map ended (map (row_text cols w lft rgt) (item_rows cols (seen m))))))%nat; [| cbn; lia].
  destruct (item_rows cols (seen m)) as [|r rs] eqn:E.
  - unfold item_rows in E. destruct (seen m) as [|it l]; [done |]. exfalso.
    assert (∀ n (cur l : list MenuItem), cur ++ l ≠ [] → rows_of n cur l ≠ []) as K; [| by apply (K cols [] (it :: l)) in E].
    clear. intros n cur l. revert cur. induction l as [|x l IH]; intros cur; cbn.
    { intros H. by destruct cur. }
    intros _. case_match; [apply IH; by destruct cur | done].
  - cbn [map concat]. unfold ended at 1. rewrite !length_app. cbn. lia.
Qed.

End page.

Lemma item_rows_bounded cols l r :
  (0 < cols)%nat → r ∈ item_rows cols l → (length r <= cols)%nat ∧ ∀ x, x ∈ r → x ∈ l.
Proof.
  intros Hc. unfold item_rows. destruct l as [|it l].
  { intros ->%list_elem_of_singleton. split; [cbn; lia | by intros x ?%elem_of_nil]. }
  intros H. split; [by eapply rows_of_length |]. revert H. generalize (it :: l). clear it l. intros l.
  remember (length l) as k eqn:Ek. revert l Ek. induction (lt_wf k) as [k _ IH]. intros l ->.
  rewrite rows_of_take by done. cbn [app]. destruct l as [|x l]; [by intros ?%elem_of_nil |].
  intros [-> | H]%elem_of_cons y Hy.
  - by eapply subseteq_take.
  - apply (subseteq_drop cols). eapply IH; [| done | exact H | done]. rewrite length_drop. cbn. lia.
Qed.

(** C25. The page of a session for a menu with a template that passes validation: the
    lines of the expanded template, its one line with the items repeated for every
    row of the items the user may see, in the number of columns the menu asks for
    as far as the body is wide enough, each cell in an equal share of the body; if
    the escape sequences of the left border end in it, every row takes the 80
    columns of the terminal but for the remainder of that division. The theorem is
    about pages that fit the buffers: a text of less than 3840 bytes (the buffer
    has 4096, and behind 3840 rows are dropped or written past it,
    menu_template.c:744), a template of at most 1 MB and 256 lines, whose line with
    the items has 511 bytes and 255 before them, at most 128 items that the user
    may see, a body at least as wide as the narrowest cell, and labels and keys
    without control characters. *)
Theorem templates_make_pages clk tm_min s file ansi m path content header lft body rgt footer :
  let raw := c_string content in
  let W := TERMINAL_WIDTH - Z.of_nat (visible_len lft) - Z.of_nat (visible_len rgt) in
  let cols := compute_columns W (if 0 <? gen_cols m then gen_cols m else 3) (zlen (seen clk s m)) in
  let w := Z.to_nat (W / cols) in
  let text := template_text clk tm_min s m (Z.to_nat cols) w header lft rgt footer in
  mci_defined clk tm_min s →
  resolve_menu_template_path file ansi m = Some path → file path = Some content → zlen content <= 1024 * 1024 →
  code (validate_menu_template raw true (has_str (lit ".asc") path)) = TMPL_OK →
  lines (expand_template_placeholders s raw m (length content * 2 + 1024)) = header ++ body :: footer →
  find_str TOKEN_MENU_ITEMS body = Some (lft, rgt) →
  Forall (λ l, has_str TOKEN_MENU_ITEMS l = false) footer →
  (length (header ++ body :: footer) <= 256)%nat → (length body <= 511)%nat → (length lft <= 255)%nat →
  (length (seen clk s m) <= 128)%nat → MIN_CELL_WIDTH <= W →
  Forall (plain_item clk tm_min s) (seen clk s m) → (length text + 256 < 4096)%nat →
  menu_page clk tm_min s file ansi m = Some (append_prompt_cursor ansi m text 4096) ∧
  (complete lft → ∀ r, r ∈ item_rows (Z.to_nat cols) (seen clk s m) →
   TERMINAL_WIDTH - cols < Z.of_nat (visible_len (row_text clk tm_min s (Z.to_nat cols) w lft rgt r)) <= TERMINAL_WIDTH).
Proof.
  cbn zeta. intros Hd Hr Hfile Hsize Hv Hls Eb Hf Hn Hb Hl Hs HW Hp Hlen. split.
  - unfold menu_page, menu_render_template. rewrite Hr. unfold slurp_file. rewrite Hfile. cbn [mbind option_bind].
    rewrite (proj2 (Z.ltb_ge _ _)) by lia. rewrite Hv, Hls.
    rewrite (render_lines_text clk tm_min s Hd ansi m header lft rgt body footer) by done. cbn [mbind option_bind].
    by rewrite bool_decide_eq_false_2 by apply cursor_nonempty, text_nonempty.
  - intros Hc r Hin. set (W := TERMINAL_WIDTH - _ - _) in *.
    unfold MIN_CELL_WIDTH in HW. assert (W <= 80) as HW2 by (unfold W, TERMINAL_WIDTH; lia).
    pose proof (compute_columns_fit W (if 0 <? gen_cols m then gen_cols m else 3)
      (zlen (seen clk s m)) ltac:(lia)) as K. cbn zeta in K.
    revert K Hin. generalize (compute_columns W (if 0 <? gen_cols m then gen_cols m else 3) (zlen (seen clk s m))).
    intros cols (K1 & K2 & K3) Hin. apply item_rows_bounded in Hin as [Hrl Hrm]; [| lia].
    apply row_width; try done. apply Forall_forall. intros x Hx. rewrite Forall_forall in Hp. by apply Hp, Hrm.
Qed.

(** ** A template of the repository, and one that overflows *)

(** menus/main.mnu *)
Definition main_mnu : cstr := file_of
  [lit "# key|label|action|acs";
   lit "W|Who's Online|who|";
   lit "M|Messages|messages|L10";
   lit "F|Files|files|L10";
   lit "C|Teleconference (MTS)|plugin:com.mutineer.chat|L10";
   lit "B|Bulletins|bulletins|L10";
   lit "P|Page Sysop|page|+A";
   lit "O|Doors|doors|L20";
   lit "L|Wall Post|wall|L10";
   lit "S|Whisper|whisper|L10";
   lit "E|User Editor|useredit|+A";
   lit "V|Vote Booth|vote|L10";
   lit "T|Time Bank|timebank|L10";
   lit "Y|Change Password|changepassword|L10";
   lit "N|Netmail/QWK|netmail|L20";
   lit "A|Area Admin|areaadmin|+A";
   lit "R|File Admin|fileadmin|+A";
   lit "X|Batch Queue|batchrun|L10";
   lit "D|Maintenance|maintenance|+A";
   lit "1|Hello Plugin|plugin:com.mutineer.hello|L10";
   lit "3|List Plugins|plugins|+A";
   lit "H|Help|help|";
   lit "Q|Logoff|logout|"].

(** menus/main.asc *)
Definition main_asc : cstr := file_of
  [lit "`  Mutineer BBS  ~~  Mutineer BBS";
   lit "+------------------------------------------------------------------------------+";
   lit "|  Main Deck                                                                 |";
   lit "| Crew: %%USERNAME%%   Node: %%NODE%%   Time: %%TIME_LEFT%% min|";
   lit "+------------------------------------------------------------------------------+";
   lit "| %%MENU_ITEMS%% |";
   lit "+------------------------------------------------------------------------------+";
   lit "| %%PROMPT%%";
   lit "+------------------------------------------------------------------------------+"].

Definition repository (p : cstr) : option cstr :=
  if bool_decide (p = lit "menus/main.asc") then Some main_asc else None.

Definition stock_main : Menu :=
  default (simple_menu []) (menu_load (lit "menus/main.mnu") (Some main_mnu)).

(** The lines of the template of the main menu for the sample session. *)
Definition stock_lines : list cstr := Eval vm_compute in
  lines (expand_template_placeholders (Some sample_mci) main_asc stock_main (length main_asc * 2 + 1024)).

(** The file of the main menu gives no number of columns: it is laid out in one,
    although its template has room for the three of a menu without a number. *)
Example default_columns :
  gen_cols stock_main = 1 ∧ compute_columns 76 (gen_cols stock_main) 22 = 1 ∧ compute_columns 76 3 22 = 3.
Proof. split; [| split]; vm_compute; reflexivity. Qed.

(** Forty-six lines of header, and a body with 100 escape sequences. *)
Definition wide_template : cstr := file_of
  (replicate 46 (replicate 78 (ch "x"))
   ++ [concat (replicate 100 (27 :: lit "[0m")) ++ TOKEN_MENU_ITEMS; TOKEN_PROMPT]).

Definition wide_file (p : cstr) : option cstr :=
  if bool_decide (p = lit "menus/m.ans") then Some wide_template else None.

(** A valid template can make a page that is longer than the buffer of a session;
    the room that is kept for a row does not count its borders. *)
Theorem wide_templates_overflow clk tm_min s :
  code (validate_menu_template wide_template true false) = TMPL_OK ∧
  menu_page clk tm_min s wide_file true (simple_menu []) = None.
Proof. split; vm_compute; reflexivity. Qed.

(** ** Witnesses *)

Lemma plain_closed t : forallb (λ c, 32 <=? c) t = true → plain t.
Proof.
  rewrite forallb_forall. intros H. apply Forall_forall. intros c Hc%list_elem_of_In. by apply Z.leb_le, H.
Qed.

Lemma templates_make_pages_witness :
  let text := template_text sample_clock 5 (Some sample_mci) stock_main 1 76 (take 5 stock_lines)
                (lit "| ") (lit " |") (drop 6 stock_lines) in
  menu_page sample_clock 5 (Some sample_mci) repository false stock_main = Some text ∧
  length (seen sample_clock (Some sample_mci) stock_main) = 22%nat.
Proof.
  cbn zeta. split; [| by vm_compute].
  destruct (templates_make_pages sample_clock 5 (Some sample_mci) repository false stock_main
    (lit "menus/main.asc") main_asc (take 5 stock_lines) (lit "| ") (lit "| %%MENU_ITEMS%% |") (lit " |")
    (drop 6 stock_lines)) as [H _].
  - exact sample_mci_defined.
  - by vm_compute.
  - by vm_compute.
  - by vm_compute.
  - by vm_compute.
  - by vm_compute.
  - by vm_compute.
  - apply (bool_decide_unpack _). by vm_compute.
  - apply Nat.leb_le. by vm_compute.
  - apply Nat.leb_le. by vm_compute.
  - apply Nat.leb_le. by vm_compute.
  - apply Nat.leb_le. by vm_compute.
  - apply Z.leb_le. by vm_compute.
  - apply Forall_forall. intros it Hit. split; apply plain_closed.
    + revert it Hit. apply Forall_forall. apply (bool_decide_unpack _). by vm_compute.
    + revert it Hit. apply Forall_forall. apply (bool_decide_unpack _). by vm_compute.
  - apply Nat.ltb_lt. by vm_compute.
  - exact H.
Defined.
