(* ===== verification/MailDb.v ===== *)
(** The tables of messages and FidoNet mail (src/db.c over sql/schema.sql): users, as far
    as mail refers to them, message areas, messages, AKAs, echolinks, the netmail queue, the echomail queue and the
    registered packets, with the statements of src/db.c on them. The connection has
    foreign keys enabled, as [db_open] sets them: a statement that breaks a foreign
    key or a unique key fails and changes nothing. *)

From S2P Require Import Prelude CLib.

#[local] Open Scope Z_scope.

(** ** Tables *)

(** The rows in the order they were inserted, and the next identifier of an
    AUTOINCREMENT key. *)
Record table (A : Type) : Type := MkTable { rows : list A; next_id : Z }.
Arguments MkTable {A} _ _.
Arguments rows {A} _.
Arguments next_id {A} _.

Definition insert_row {A} (make : Z → A) (t : table A) : table A :=
  MkTable (rows t ++ [make (next_id t)]) (next_id t + 1).
Definition update_rows {A} (f : A → A) (t : table A) : table A := MkTable (map f (rows t)) (next_id t).
Definition delete_where {A} (p : A → bool) (t : table A) : table A :=
  MkTable (filter (λ r, p r = false) (rows t)) (next_id t).

(** [WHERE id = ?] *)
Definition with_id {A} (id_of : A → Z) (id : Z) (f : A → A) (r : A) : A := if id_of r =? id then f r else r.
Definition row_of {A} (id_of : A → Z) (id : Z) (t : table A) : option A :=
  List.find (λ r, id_of r =? id) (rows t).

(** [ORDER BY]: equal rows stay in their order. *)
Fixpoint insert_by {A} (le : A → A → bool) (x : A) (l : list A) : list A :=
  match l with
  | [] => [x]
  | y :: r => if le x y then x :: l else y :: insert_by le x r
  end.
Definition order_by {A} (le : A → A → bool) (l : list A) : list A := fold_right (insert_by le) [] l.

(** The order of texts, byte by byte. *)
Fixpoint text_le (a b : cstr) : bool :=
  match a, b with
  | [], _ => true
  | _, [] => false
  | x :: a, y :: b => if x <? y then true else if y <? x then false else text_le a b
  end.

(** A text into a field of [cap] bytes; NULL as the empty text. *)
Definition column (cap : nat) (t : cstr) : cstr := take (cap - 1) t.
Definition nullable (cap : nat) (t : option cstr) : cstr := column cap (default [] t).

(** ** Rows *)

(** include/bbs_db.h:149-162 (DbMsgArea) *)
Record DbMsgArea : Type := MkArea {
  area_id : Z;
  area_name : cstr;
  area_filename : cstr;
  area_acs : cstr;
  acs_read : cstr;
  acs_post : cstr;
  acs_sysop : cstr;
  anon_policy : Z;
  area_flags : Z;
  area_password : cstr;
  area_origin : cstr;
  max_msgs : Z
}.

(** A row of message_areas; the nullable columns. *)
Record area_row : Type := MkAreaRow {
  ar_id : Z;
  ar_name : cstr;
  ar_filename : option cstr;
  ar_acs : option cstr;
  ar_acs_read : option cstr;
  ar_acs_post : option cstr;
  ar_acs_sysop : option cstr;
  ar_anon_policy : Z;
  ar_flags : Z;
  ar_password : option cstr;
  ar_origin : option cstr;
  ar_max_msgs : Z
}.

(** include/bbs_db.h:164-181 (DbMessage) *)
Record DbMessage : Type := MkMessage {
  msg_id : Z;
  msg_area_id : Z;
  msg_user_id : Z;
  to_user : Z;
  reply_to : Z;
  thread_root : Z;
  user_handle : cstr;
  from_name : cstr;
  to_name : cstr;
  subject : cstr;
  body : cstr;
  created_at : cstr;
  attr : Z;
  net_attr : Z;
  file_attached : cstr;
  origin : cstr
}.

(** A row of messages. *)
Record message_row : Type := MkMessageRow {
  mr_id : Z;
  mr_area : Z;
  mr_user : option Z;
  mr_to : option Z;
  mr_reply : option Z;
  mr_root : option Z;
  mr_posted : cstr;
  mr_subject : cstr;
  mr_body : cstr;
  mr_from : option cstr;
  mr_to_name : option cstr;
  mr_attr : Z;
  mr_net_attr : Z;
  mr_file : option cstr;
  mr_origin : option cstr
}.

(** The domain is a nullable column.
    include/bbs_db.h:670-678 (DbFidoAka) *)
Record DbFidoAka : Type := MkAka {
  aka_id : Z;
  zone : Z;
  net : Z;
  node : Z;
  point : Z;
  domain : cstr;
  is_primary : Z
}.

(** include/bbs_db.h:681-688 (DbFidoEcholink) *)
Record DbFidoEcholink : Type := MkLink {
  link_id : Z;
  link_area : Z;
  echotag : cstr;
  link_aka : Z;
  link_origin : cstr;
  high_water : Z
}.

(** include/bbs_db.h:691-709 (DbFidoNetmail) *)
Record DbFidoNetmail : Type := MkNetmail {
  nm_id : Z;
  from_zone : Z;
  from_net : Z;
  from_node : Z;
  from_point : Z;
  nm_from : cstr;
  to_zone : Z;
  to_net : Z;
  to_node : Z;
  to_point : Z;
  nm_to : cstr;
  nm_subject : cstr;
  nm_body : cstr;
  nm_attr : Z;
  nm_created : cstr;
  sent_at : cstr;
  nm_status : cstr
}.

(** A row of fido_echomail_queue. *)
Record queue_row : Type := MkQueueRow {
  q_id : Z;
  q_link : Z;
  q_message : Z;
  q_status : cstr;
  queued_at : cstr;
  exported_at : option cstr
}.

(** A row of mail_packets. *)
Record packet_row : Type := MkPacketRow {
  p_id : Z;
  p_user : Z;
  p_kind : cstr;
  p_path : cstr
}.

(** The tables; of the users, their identifiers and handles. The sequences of the
    tables of users and areas are not kept: a new identifier is an argument. A row of fido_akas,
    fido_echolinks and fido_netmail is the struct it is read into, with the texts
    of any length; NULL is the empty text, which the readers do not tell apart. *)
Record MailDb : Type := MkDb {
  users : list (Z * cstr);
  areas : list area_row;
  messages : table message_row;
  akas : table DbFidoAka;
  links : table DbFidoEcholink;
  netmail : table DbFidoNetmail;
  queue : table queue_row;
  packets : table packet_row
}.

Definition set_users (l : list (Z * cstr)) (db : MailDb) : MailDb :=
  MkDb l (areas db) (messages db) (akas db) (links db) (netmail db) (queue db) (packets db).
Definition set_areas (l : list area_row) (db : MailDb) : MailDb :=
  MkDb (users db) l (messages db) (akas db) (links db) (netmail db) (queue db) (packets db).
Definition set_messages (t : table message_row) (db : MailDb) : MailDb :=
  MkDb (users db) (areas db) t (akas db) (links db) (netmail db) (queue db) (packets db).
Definition set_akas (t : table DbFidoAka) (db : MailDb) : MailDb :=
  MkDb (users db) (areas db) (messages db) t (links db) (netmail db) (queue db) (packets db).
Definition set_links (t : table DbFidoEcholink) (db : MailDb) : MailDb :=
  MkDb (users db) (areas db) (messages db) (akas db) t (netmail db) (queue db) (packets db).
Definition set_netmail (t : table DbFidoNetmail) (db : MailDb) : MailDb :=
  MkDb (users db) (areas db) (messages db) (akas db) (links db) t (queue db) (packets db).
Definition set_queue (t : table queue_row) (db : MailDb) : MailDb :=
  MkDb (users db) (areas db) (messages db) (akas db) (links db) (netmail db) t (packets db).
Definition set_packets (t : table packet_row) (db : MailDb) : MailDb :=
  MkDb (users db) (areas db) (messages db) (akas db) (links db) (netmail db) (queue db) t.

(** ** Foreign keys *)

Definition has_user (db : MailDb) (id : Z) : bool := bool_decide (id ∈ map fst (users db)).
Definition has_area (db : MailDb) (id : Z) : bool := bool_decide (id ∈ map ar_id (areas db)).
Definition has_message (db : MailDb) (id : Z) : bool := bool_decide (id ∈ map mr_id (rows (messages db))).
Definition has_aka (db : MailDb) (id : Z) : bool := bool_decide (id ∈ map aka_id (rows (akas db))).
Definition has_link (db : MailDb) (id : Z) : bool := bool_decide (id ∈ map link_id (rows (links db))).
(** NULL refers to nothing. *)
Definition refers (has : Z → bool) (id : option Z) : bool := match id with Some id => has id | None => true end.

(** ** Users *)

(** The handle is unique. SQLite has given the row the identifier [new]; [level_ok] tells
    which security levels there are. *)
Definition insert_user (new : Z) (handle : cstr) (level_ok : bool) (db : MailDb) : bool * MailDb :=
  if bool_decide (handle ∈ map snd (users db)) || negb level_ok then (false, db)
  else (true, set_users (users db ++ [(new, handle)]) db).

(** src/db.c:773-803 (db_user_create) *)
Definition db_user_create (new : Z) (handle : cstr) (level : Z) (level_ok : Z → bool) (db : MailDb) : bool * MailDb :=
  insert_user new handle (level_ok level) db.

(** The email address and the city are required.
    src/db.c:806-853 (db_user_create_ex) *)
Definition db_user_create_ex (new : Z) (handle : cstr) (level : Z) (email city : option cstr)
    (level_ok : Z → bool) (db : MailDb) : bool * MailDb :=
  match email, city with
  | Some _, Some _ => insert_user new handle (level_ok (if 0 <? level then level else 1)) db
  | _, _ => (false, db)
  end.

(** The user sysop, when there is none and a password is given; its level has just been
    seeded.
    src/db.c:5488-5505 (db_seed_defaults) *)
Definition db_seed_sysop (new : Z) (password : cstr) (db : MailDb) : bool * MailDb :=
  if bool_decide (password = []) then (true, db) else (true, snd (insert_user new (lit "sysop") true db)).

(** DELETE FROM users: the statement fails as a whole when a row that would go is
    referred to, by a message or a packet or, by [elsewhere], from another table. *)
Definition user_referred (db : MailDb) (id : Z) : bool :=
  existsb (λ r, bool_decide (mr_user r = Some id) || bool_decide (mr_to r = Some id)) (rows (messages db))
  || existsb (λ p, p_user p =? id) (rows (packets db)).
Definition delete_users (gone elsewhere : Z → bool) (db : MailDb) : bool * MailDb :=
  if existsb (λ u, gone (fst u) && (user_referred db (fst u) || elsewhere (fst u))) (users db) then (false, db)
  else (true, set_users (filter (λ u, gone (fst u) = false) (users db)) db).

(** The users that are marked as deleted.
    src/maint.c:39-40 (cmd_user_pack) *)
Definition pack_users (status_flags : Z → Z) (elsewhere : Z → bool) (db : MailDb) : bool * MailDb :=
  delete_users (λ id, negb (Z.land (status_flags id) 2 =? 0)) elsewhere db.

(** ** Areas *)

(** src/db.c:3096-3117 (db_msg_area_get) *)
Definition area_of (r : area_row) : DbMsgArea :=
  MkArea (ar_id r) (column 64 (ar_name r)) (nullable 32 (ar_filename r)) (nullable 64 (ar_acs r))
    (nullable 64 (ar_acs_read r)) (nullable 64 (ar_acs_post r)) (nullable 64 (ar_acs_sysop r))
    (ar_anon_policy r) (ar_flags r) (nullable 32 (ar_password r)) (nullable 80 (ar_origin r)) (ar_max_msgs r).

(** src/db.c:2085-2135 (db_msg_area_list) *)
Definition db_msg_area_list (max_areas : nat) (db : MailDb) : list DbMsgArea :=
  map area_of (take max_areas (order_by (λ a b, ar_id a <=? ar_id b) (areas db))).

(** src/db.c:3085-3135 (db_msg_area_get) *)
Definition db_msg_area_get (id : Z) (db : MailDb) : option DbMsgArea :=
  area_of <$> List.find (λ r, ar_id r =? id) (areas db).

(** A new row with the identifier [new] that SQLite has given it. *)
Definition insert_area (new : Z) (name : cstr) (acs : option cstr) (db : MailDb) : MailDb :=
  set_areas (areas db ++ [MkAreaRow new name None acs None None None 0 0 None None 500]) db.

(** src/db.c:2137-2161 (db_msg_area_seed) *)
Definition db_msg_area_seed (new : Z) (name : cstr) (db : MailDb) : bool * MailDb :=
  (true, if bool_decide (name ∈ map ar_name (areas db)) then db else insert_area new name None db).

Definition set_area_acs (acs : cstr) (r : area_row) : area_row :=
  MkAreaRow (ar_id r) (ar_name r) (ar_filename r) (Some acs) (ar_acs_read r) (ar_acs_post r) (ar_acs_sysop r)
    (ar_anon_policy r) (ar_flags r) (ar_password r) (ar_origin r) (ar_max_msgs r).

(** An area that a message or a link refers to stays; [elsewhere] tells of the rows of
    qwk_area_links. *)
Definition area_referred (db : MailDb) (id : Z) : bool :=
  existsb (λ r, mr_area r =? id) (rows (messages db)) || existsb (λ l, link_area l =? id) (rows (links db)).

(** Adding, changing the access string, and deleting an area by its name.
    src/db.c:3306-3357 (db_message_area_manage) *)
Definition db_message_area_manage (new : Z) (name : cstr) (acs : option cstr) (delete_flag : bool)
    (elsewhere : Z → bool) (db : MailDb) : bool * MailDb :=
  if delete_flag then
    if existsb (λ r, bool_decide (ar_name r = name) && (area_referred db (ar_id r) || elsewhere (ar_id r))) (areas db)
    then (false, db)
    else (true, set_areas (filter (λ r, ar_name r ≠ name) (areas db)) db)
  else if bool_decide (name ∈ map ar_name (areas db)) then
    (true, set_areas (map (λ r, if bool_decide (ar_name r = name) then set_area_acs (default [] acs) r else r)
                       (areas db)) db)
  else (true, insert_area new name (Some (default [] acs)) db).

(** ** Messages *)

(** A row joined with the handle of its user.
    src/db.c:2502-2529 (db_message_get) *)
Definition message_of (db : MailDb) (r : message_row) : DbMessage :=
  MkMessage (mr_id r) (mr_area r) (default 0 (mr_user r)) (default 0 (mr_to r)) (default 0 (mr_reply r))
    (default 0 (mr_root r))
    (column 64 (default [] (u ← mr_user r; snd <$> List.find (λ p, fst p =? u) (users db))))
    (nullable 64 (mr_from r)) (nullable 64 (mr_to_name r)) (column 80 (mr_subject r)) (column 2048 (mr_body r))
    (column 32 (mr_posted r)) (mr_attr r) (mr_net_attr r) (nullable 64 (mr_file r)) (nullable 80 (mr_origin r)).

(** src/db.c:2483-2542 (db_message_get) *)
Definition db_message_get (id : Z) (db : MailDb) : option DbMessage :=
  message_of db <$> row_of mr_id id (messages db).

(** src/db.c:2163-2223 (db_messages_list) *)
Definition db_messages_list (area : Z) (max : nat) (db : MailDb) : list DbMessage :=
  map (message_of db) (take max (order_by (λ a b, mr_id b <=? mr_id a)
    (filter (λ r, mr_area r = area) (rows (messages db))))).

(** [since] empty or NULL: all of them.
    src/db.c:2225-2316 (db_messages_since) *)
Definition db_messages_since (area : Z) (since : cstr) (max : nat) (db : MailDb) : list DbMessage :=
  map (message_of db) (take max (order_by (λ a b, mr_id a <=? mr_id b)
    (filter (λ r, mr_area r = area ∧ (since = [] ∨ text_le (mr_posted r) since = false)) (rows (messages db))))).

(** The root of a thread: that of the message that is answered, or this message. *)
Definition root_of (db : MailDb) (reply : option Z) : option Z :=
  match reply with
  | None => None
  | Some id =>
      match r ← row_of mr_id id (messages db); mr_root r with
      | Some root => Some root
      | None => if 0 <? id then Some id else None
      end
  end.

(** A new message whose references hold. *)
Definition post_row (make : Z → message_row) (db : MailDb) : bool * MailDb :=
  let r := make (next_id (messages db)) in
  let new := insert_row make (messages db) in
  let after := set_messages new db in
  if has_area db (mr_area r) && refers (has_user db) (mr_user r) && refers (has_user db) (mr_to r)
     && refers (has_message after) (mr_reply r) && refers (has_message after) (mr_root r)
  then (true, after) else (false, db).

(** src/db.c:2341-2383 (db_message_post) *)
Definition db_message_post (now : cstr) (area user : Z) (subj text : cstr) (reply : Z) (db : MailDb) : bool * MailDb :=
  let reply := if 0 <? reply then Some reply else None in
  post_row (λ id, MkMessageRow id area (Some user) None reply (root_of db reply) now subj text None None 0 0 None None) db.

(** Every number is bound as it is, zero included.
    src/db.c:2385-2423 (db_message_post_ex) *)
Definition db_message_post_ex (now : cstr) (m : DbMessage) (db : MailDb) : bool * MailDb :=
  post_row (λ id, MkMessageRow id (msg_area_id m) (Some (msg_user_id m)) (Some (to_user m)) (Some (reply_to m))
    (root_of db (Some (reply_to m))) now (subject m) (body m) (Some (from_name m)) (Some (to_name m))
    (attr m) (net_attr m) (Some (file_attached m)) (Some (origin m))) db.

(** include/bbs_msg_defs.h:27-27 (MSG_ATTR_FORWARDED) *)
Definition MSG_ATTR_FORWARDED : Z := Z.shiftl 1 6.

(** The struct of a mail to a user: area 0, and zero where there is nothing. *)
Definition mail_struct (from user : Z) (subj text : cstr) (a : Z) : DbMessage :=
  MkMessage 0 0 from user 0 0 [] [] [] subj text [] a 0 [] [].

(** src/db.c:2425-2451 (db_message_forward) *)
Definition db_message_forward (now : cstr) (msg user : Z) (db : MailDb) : bool * MailDb :=
  match db_message_get msg db with
  | None => (false, db)
  | Some orig =>
      db_message_post_ex now (mail_struct (msg_user_id orig) user
        (column 80 (lit "Fwd: " ++ take 74 (subject orig)))
        (column 2048 (lit "--- Forwarded message ---" ++ [13; 10] ++ take 2020 (body orig))) MSG_ATTR_FORWARDED) db
  end.

(** src/db.c:2459-2471 (db_message_mass_mail) *)
Fixpoint mass_mail_loop (now : cstr) (from : Z) (subj text : cstr) (to_users : list Z) (db : MailDb) : bool * MailDb :=
  match to_users with
  | [] => (true, db)
  | user :: to_users =>
      let '(ok, db) := db_message_post_ex now (mail_struct from user (column 80 subj) (column 2048 text) 0) db in
      if ok then mass_mail_loop now from subj text to_users db else (false, db)
  end.

(** The flag of a waiting message is a column of users that the model does not have.
    src/db.c:2452-2481 (db_message_mass_mail) *)
Definition db_message_mass_mail (now : cstr) (from : Z) (subj text : cstr) (to_users : list Z) (db : MailDb) : bool * MailDb :=
  if bool_decide (to_users = []) then (false, db) else mass_mail_loop now from subj text to_users db.

Definition set_body (text : cstr) (r : message_row) : message_row :=
  MkMessageRow (mr_id r) (mr_area r) (mr_user r) (mr_to r) (mr_reply r) (mr_root r) (mr_posted r) (mr_subject r) text
    (mr_from r) (mr_to_name r) (mr_attr r) (mr_net_attr r) (mr_file r) (mr_origin r).

(** src/db.c:2544-2564 (db_message_update_body) *)
Definition db_message_update_body (id : Z) (text : cstr) (db : MailDb) : bool * MailDb :=
  (true, set_messages (update_rows (with_id mr_id id (set_body text)) (messages db)) db).

Definition set_recipient (user : Z) (r : message_row) : message_row :=
  MkMessageRow (mr_id r) (mr_area r) (mr_user r) (Some user) (mr_reply r) (mr_root r) (mr_posted r) (mr_subject r)
    (mr_body r) (mr_from r) (mr_to_name r) (mr_attr r) (mr_net_attr r) (mr_file r) (mr_origin r).

(** The recipient of a row that is there has to be a user. The count of waiting
    messages that goes up is a column of users that the model does not have.
    src/db.c:3359-3391 (db_message_set_to_user) *)
Definition db_message_set_to_user (id user : Z) (db : MailDb) : bool * MailDb :=
  if has_message db id && negb (has_user db user) then (false, db)
  else (true, set_messages (update_rows (with_id mr_id id (set_recipient user)) (messages db)) db).

(** DELETE FROM messages: the statement fails as a whole when a message that stays
    answers one that would go, or a row of the queue has it. *)
Definition delete_messages (gone : message_row → bool) (db : MailDb) : bool * MailDb :=
  let ids := map mr_id (filter (λ r, gone r = true) (rows (messages db))) in
  let refers_to (id : option Z) := match id with Some id => bool_decide (id ∈ ids) | None => false end in
  if existsb (λ r, negb (gone r) && (refers_to (mr_reply r) || refers_to (mr_root r))) (rows (messages db))
     || existsb (λ q, bool_decide (q_message q ∈ ids)) (rows (queue db))
  then (false, db)
  else (true, set_messages (delete_where gone (messages db)) db).

(** The columns of messages in sql/schema.sql; the migrations of src/db.c add no other. *)
Definition message_columns : list cstr :=
  [lit "id"; lit "area_id"; lit "user_id"; lit "to_user"; lit "reply_to"; lit "thread_root"; lit "posted_at";
   lit "subject"; lit "body"; lit "from_name"; lit "to_name"; lit "attr"; lit "net_attr"; lit "file_attached";
   lit "origin"].

(** A statement that names a column that the table does not have is not prepared. *)
Definition prepared (columns named : list cstr) (statement : MailDb → bool * MailDb) (db : MailDb) : bool * MailDb :=
  if forallb (λ c, bool_decide (c ∈ columns)) named then statement db else (false, db).

(** DELETE FROM messages WHERE created_at < ...: also in session.c:3364 and in the tool
    that packs the messages.
    src/maint.c:84-87 (cmd_message_pack) *)
Definition pack_messages (old : message_row → bool) (db : MailDb) : bool * MailDb :=
  prepared message_columns [lit "created_at"] (delete_messages old) db.

(** ** AKAs *)

Definition fetch_aka (r : DbFidoAka) : DbFidoAka :=
  MkAka (aka_id r) (zone r) (net r) (node r) (point r) (column 64 (domain r)) (is_primary r).

(** Primary first, then by number. *)
Definition aka_le (a b : DbFidoAka) : bool :=
  if is_primary b <? is_primary a then true else if is_primary a <? is_primary b then false
  else if zone a <? zone b then true else if zone b <? zone a then false
  else if net a <? net b then true else if net b <? net a then false
  else if node a <? node b then true else if node b <? node a then false
  else point a <=? point b.

(** src/db.c:5803-5835 (db_fido_aka_list) *)
Definition db_fido_aka_list (max : nat) (db : MailDb) : list DbFidoAka :=
  map fetch_aka (take max (order_by aka_le (rows (akas db)))).

Definition aka_address (a : DbFidoAka) : Z * Z * Z * Z := (zone a, net a, node a, point a).

Definition clear_primary (a : DbFidoAka) : DbFidoAka :=
  MkAka (aka_id a) (zone a) (net a) (node a) (point a) (domain a) 0.

(** The statement that clears the flag of the others is committed on its own.
    src/db.c:5842-5844 (db_fido_aka_add) *)
Definition only_primary (primary : Z) (db : MailDb) : MailDb :=
  if primary =? 0 then db else set_akas (update_rows clear_primary (akas db)) db.

(** src/db.c:5837-5875 (db_fido_aka_add) *)
Definition db_fido_aka_add (z n nd p : Z) (dom : cstr) (primary : Z) (db : MailDb) : bool * MailDb :=
  let db := only_primary primary db in
  if bool_decide ((z, n, nd, p) ∈ map aka_address (rows (akas db))) then (false, db)
  else (true, set_akas (insert_row (λ id, MkAka id z n nd p dom primary) (akas db)) db).

(** src/db.c:5877-5910 (db_fido_aka_get) *)
Definition db_fido_aka_get (id : Z) (db : MailDb) : option DbFidoAka := fetch_aka <$> row_of aka_id id (akas db).

(** src/db.c:5912-5943 (db_fido_aka_get_primary) *)
Definition db_fido_aka_get_primary (db : MailDb) : option DbFidoAka :=
  fetch_aka <$> List.find (λ a, is_primary a =? 1) (rows (akas db)).

(** src/db.c:5945-5985 (db_fido_aka_update) *)
Definition db_fido_aka_update (id z n nd p : Z) (dom : cstr) (primary : Z) (db : MailDb) : bool * MailDb :=
  let db := only_primary primary db in
  let others := filter (λ a, aka_id a ≠ id) (rows (akas db)) in
  if bool_decide (id ∈ map aka_id (rows (akas db))) && bool_decide ((z, n, nd, p) ∈ map aka_address others)
  then (false, db)
  else (true, set_akas (update_rows (with_id aka_id id (λ _, MkAka id z n nd p dom primary)) (akas db)) db).

(** An AKA that a link uses stays.
    src/db.c:5987-6006 (db_fido_aka_delete) *)
Definition db_fido_aka_delete (id : Z) (db : MailDb) : bool * MailDb :=
  if has_aka db id && existsb (λ l, link_aka l =? id) (rows (links db)) then (false, db)
  else (true, set_akas (delete_where (λ a, aka_id a =? id) (akas db)) db).

(** ** Echolinks *)

Definition fetch_link (l : DbFidoEcholink) : DbFidoEcholink :=
  MkLink (link_id l) (link_area l) (column 64 (echotag l)) (link_aka l) (column 80 (link_origin l)) (high_water l).

(** src/db.c:6010-6042 (db_fido_echolink_list) *)
Definition db_fido_echolink_list (max : nat) (db : MailDb) : list DbFidoEcholink :=
  map fetch_link (take max (order_by (λ a b, text_le (echotag a) (echotag b)) (rows (links db)))).

(** src/db.c:6044-6075 (db_fido_echolink_add) *)
Definition db_fido_echolink_add (area : Z) (tag : cstr) (aka : Z) (org : cstr) (db : MailDb) : bool * MailDb :=
  if bool_decide (tag ∈ map echotag (rows (links db))) || negb (has_area db area) || negb (has_aka db aka)
  then (false, db)
  else (true, set_links (insert_row (λ id, MkLink id area tag aka org 0) (links db)) db).

(** src/db.c:6077-6110 (db_fido_echolink_get) *)
Definition db_fido_echolink_get (id : Z) (db : MailDb) : option DbFidoEcholink :=
  fetch_link <$> row_of link_id id (links db).

(** src/db.c:6112-6145 (db_fido_echolink_get_by_area) *)
Definition db_fido_echolink_get_by_area (area : Z) (db : MailDb) : option DbFidoEcholink :=
  fetch_link <$> List.find (λ l, link_area l =? area) (rows (links db)).

(** src/db.c:6147-6178 (db_fido_echolink_update) *)
Definition db_fido_echolink_update (id : Z) (tag : cstr) (aka : Z) (org : cstr) (db : MailDb) : bool * MailDb :=
  let others := filter (λ l, link_id l ≠ id) (rows (links db)) in
  if has_link db id && (bool_decide (tag ∈ map echotag others) || negb (has_aka db aka)) then (false, db)
  else (true, set_links (update_rows (with_id link_id id
                (λ l, MkLink id (link_area l) tag aka org (high_water l))) (links db)) db).

(** The rows of the queue go first.
    src/db.c:6180-6212 (db_fido_echolink_delete) *)
Definition db_fido_echolink_delete (id : Z) (db : MailDb) : bool * MailDb :=
  let db := set_queue (delete_where (λ q, q_link q =? id) (queue db)) db in
  (true, set_links (delete_where (λ l, link_id l =? id) (links db)) db).

(** src/db.c:6214-6235 (db_fido_echolink_update_highwater) *)
Definition db_fido_echolink_update_highwater (id hw : Z) (db : MailDb) : bool * MailDb :=
  (true, set_links (update_rows (with_id link_id id
           (λ l, MkLink (link_id l) (link_area l) (echotag l) (link_aka l) (link_origin l) hw)) (links db)) db).

(** ** Netmail *)

Definition fetch_netmail (m : DbFidoNetmail) : DbFidoNetmail :=
  MkNetmail (nm_id m) (from_zone m) (from_net m) (from_node m) (from_point m) (column 64 (nm_from m))
    (to_zone m) (to_net m) (to_node m) (to_point m) (column 64 (nm_to m)) (column 80 (nm_subject m))
    (column 2048 (nm_body m)) (nm_attr m) (column 32 (nm_created m)) (column 32 (sent_at m)) (column 16 (nm_status m)).

(** An empty [status] lists all of them.
    src/db.c:6239-6299 (db_fido_netmail_list) *)
Definition db_fido_netmail_list (status : cstr) (max : nat) (db : MailDb) : list DbFidoNetmail :=
  map fetch_netmail (take max (order_by (λ a b, text_le (nm_created a) (nm_created b))
    (filter (λ m, status = [] ∨ nm_status m = status) (rows (netmail db))))).

(** src/db.c:6301-6336 (db_fido_netmail_add) *)
Definition db_fido_netmail_add (now : cstr) (m : DbFidoNetmail) (db : MailDb) : bool * MailDb :=
  (true, set_netmail (insert_row (λ id,
     MkNetmail id (from_zone m) (from_net m) (from_node m) (from_point m) (nm_from m) (to_zone m) (to_net m)
       (to_node m) (to_point m) (nm_to m) (nm_subject m) (nm_body m) (nm_attr m) now [] (lit "pending"))
     (netmail db)) db).

(** src/db.c:6338-6389 (db_fido_netmail_get) *)
Definition db_fido_netmail_get (id : Z) (db : MailDb) : option DbFidoNetmail :=
  fetch_netmail <$> row_of nm_id id (netmail db).

Definition set_sent (now : cstr) (m : DbFidoNetmail) : DbFidoNetmail :=
  MkNetmail (nm_id m) (from_zone m) (from_net m) (from_node m) (from_point m) (nm_from m) (to_zone m) (to_net m)
    (to_node m) (to_point m) (nm_to m) (nm_subject m) (nm_body m) (nm_attr m) (nm_created m) now (lit "sent").

(** src/db.c:6391-6411 (db_fido_netmail_mark_sent) *)
Definition db_fido_netmail_mark_sent (now : cstr) (id : Z) (db : MailDb) : bool * MailDb :=
  (true, set_netmail (update_rows (with_id nm_id id (set_sent now)) (netmail db)) db).

(** src/db.c:6413-6432 (db_fido_netmail_delete) *)
Definition db_fido_netmail_delete (id : Z) (db : MailDb) : bool * MailDb :=
  (true, set_netmail (delete_where (λ m, nm_id m =? id) (netmail db)) db).

(** ** The queue of echomail *)

(** No key of the table is unique but the identifier: nothing is ignored.
    src/db.c:6436-6458 (db_fido_echo_queue_add) *)
Definition db_fido_echo_queue_add (now : cstr) (link message : Z) (db : MailDb) : bool * MailDb :=
  if has_link db link && has_message db message then
    (true, set_queue (insert_row (λ id, MkQueueRow id link message (lit "pending") now None) (queue db)) db)
  else (false, db).

Definition is_pending (link : Z) (q : queue_row) : bool :=
  (q_link q =? link) && bool_decide (q_status q = lit "pending").

(** src/db.c:6460-6488 (db_fido_echo_queue_pending) *)
Definition db_fido_echo_queue_pending (link : Z) (max : nat) (db : MailDb) : list Z :=
  map q_message (take max (order_by (λ a b, text_le (queued_at a) (queued_at b))
    (filter (λ q, is_pending link q = true) (rows (queue db))))).

Definition set_exported (now : cstr) (q : queue_row) : queue_row :=
  MkQueueRow (q_id q) (q_link q) (q_message q) (lit "exported") (queued_at q) (Some now).

(** src/db.c:6490-6514 (db_fido_echo_queue_mark_exported) *)
Definition db_fido_echo_queue_mark_exported (now : cstr) (link message : Z) (db : MailDb) : bool * MailDb :=
  (true, set_queue (update_rows (λ q, if (q_link q =? link) && (q_message q =? message) then set_exported now q else q)
                      (queue db)) db).

(** src/msg_cmds.c:169-174 (maybe_queue_echomail) *)
Definition maybe_queue_echomail (now : cstr) (area message : Z) (db : MailDb) : MailDb :=
  match db_fido_echolink_get_by_area area db with
  | Some el => snd (db_fido_echo_queue_add now (link_id el) message db)
  | None => db
  end.

(** ** Packets *)

(** src/db.c:5060-5087 (db_mail_packet_add) *)
Definition db_mail_packet_add (user : Z) (kind path : cstr) (db : MailDb) : bool * MailDb :=
  if has_user db user then
    (true, set_packets (insert_row (λ id, MkPacketRow id user kind path) (packets db)) db)
  else (false, db).

(** ** Addresses *)

(** [None] when the buffer is smaller than 16 bytes.
    src/db.c:6518-6528 (fido_format_address) *)
Definition fido_format_address (a : DbFidoAka) (cap : nat) : option cstr :=
  if (cap <? 16)%nat then None
  else
    let short := fmt_d (zone a) ++ lit ":" ++ fmt_d (net a) ++ lit "/" ++ fmt_d (node a) in
    Some (take (cap - 1) (if 0 <? point a then short ++ lit "." ++ fmt_d (point a) else short)).

(** src/db.c:6530-6544 (fido_parse_address) *)
Definition fido_parse_address (str : cstr) : option (Z * Z * Z * Z) :=
  match fst (scan_ds [ch ":"; ch "/"; ch "."] str) with
  | [z; n; nd] => Some (z, n, nd, 0)
  | [z; n; nd; p] => Some (z, n, nd, p)
  | _ => None
  end.
