(* ===== verification/MailDbSpec.v ===== *)
(** The tables of mail keep their integrity (src/db.c over sql/schema.sql): keys are
    unique and given out once, references hold, at most one AKA is the primary one,
    whatever operations run in whatever order. And what follows for posting: the
    statement that binds zero for "none" is refused. *)

From S2P Require Import Prelude CLib MailDb.
From stdpp Require Import relations.

#[local] Open Scope Z_scope.

(** ** Keys *)

(** Identifiers are positive, different, and below the next one. *)
Definition keyed {A} (id_of : A → Z) (t : table A) : Prop :=
  NoDup (map id_of (rows t)) ∧ Forall (λ r, 0 < id_of r < next_id t) (rows t) ∧ 0 < next_id t.

Lemma keyed_insert {A} (id_of : A → Z) make t :
  (∀ id, id_of (make id) = id) → keyed id_of t → keyed id_of (insert_row make t).
Proof.
  intros Hm (Hn & Hb & Hp). unfold keyed, insert_row. cbn [rows next_id]. rewrite map_app. cbn [map].
  rewrite Hm. split; [| split].
  - apply NoDup_app. split; [done |]. split; [| by apply NoDup_singleton].
    intros x Hx ->%list_elem_of_singleton. apply list_elem_of_fmap in Hx as (r & E & Hr).
    rewrite Forall_forall in Hb. apply Hb in Hr. lia.
  - apply Forall_app. split; [| constructor; [rewrite Hm; lia | done]].
    eapply Forall_impl; [exact Hb |]. cbn. lia.
  - lia.
Qed.

Lemma keyed_update {A} (id_of : A → Z) f t :
  (∀ r, id_of (f r) = id_of r) → keyed id_of t → keyed id_of (update_rows f t).
Proof.
  intros Hf (Hn & Hb & Hp). unfold keyed, update_rows. cbn [rows next_id].
  assert (map id_of (map f (rows t)) = map id_of (rows t)) as -> by (rewrite map_map; by apply map_ext).
  split; [done |]. split; [| done]. apply Forall_map. eapply Forall_impl; [exact Hb |]. intros r. cbn. by rewrite Hf.
Qed.

Lemma keyed_with {A} (id_of : A → Z) id f t :
  (∀ r, id_of r = id → id_of (f r) = id) → keyed id_of t → keyed id_of (update_rows (with_id id_of id f) t).
Proof.
  intros Hf. apply keyed_update. intros r. unfold with_id. destruct (Z.eqb_spec (id_of r) id) as [E | E]; [| done].
  by rewrite E, Hf.
Qed.

Lemma Forall_kept {A} (P Q : A → Prop) `{∀ x, Decision (Q x)} l : Forall P l → Forall P (filter Q l).
Proof.
  rewrite !Forall_forall. intros H' x [_ Hx]%list_elem_of_filter. by apply H'.
Qed.

Lemma keyed_delete {A} (id_of : A → Z) p t : keyed id_of t → keyed id_of (delete_where p t).
Proof.
  intros (Hn & Hb & Hp). unfold keyed, delete_where. cbn [rows next_id]. split; [| split; [| done]].
  - eapply sublist_NoDup; [exact Hn |]. apply (fmap_sublist id_of), sublist_filter.
  - by apply Forall_kept.
Qed.

(** ** Integrity *)

Record db_ok (db : MailDb) : Prop := {
  ok_users : Forall (λ u, 0 < fst u) (users db);
  ok_user_keys : NoDup (map fst (users db)) ∧ NoDup (map snd (users db));
  ok_areas : Forall (λ r, 0 < ar_id r) (areas db);
  ok_area_keys : NoDup (map ar_id (areas db)) ∧ NoDup (map ar_name (areas db));
  ok_messages : keyed mr_id (messages db);
  ok_akas : keyed aka_id (akas db);
  ok_links : keyed link_id (links db);
  ok_netmail : keyed nm_id (netmail db);
  ok_queue : keyed q_id (queue db);
  ok_packets : keyed p_id (packets db);
  ok_message_refs : Forall (λ r, has_area db (mr_area r) = true ∧ refers (has_user db) (mr_user r) = true ∧
    refers (has_user db) (mr_to r) = true ∧ refers (has_message db) (mr_reply r) = true ∧
    refers (has_message db) (mr_root r) = true) (rows (messages db));
  ok_addresses : NoDup (map aka_address (rows (akas db)));
  ok_primary : zlen (filter (λ a, is_primary a ≠ 0) (rows (akas db))) <= 1;
  ok_tags : NoDup (map echotag (rows (links db)));
  ok_link_refs : Forall (λ l, has_area db (link_area l) = true ∧ has_aka db (link_aka l) = true) (rows (links db));
  ok_queue_refs : Forall (λ q, has_link db (q_link q) = true ∧ has_message db (q_message q) = true) (rows (queue db));
  ok_packet_refs : Forall (λ p, has_user db (p_user p) = true) (rows (packets db))
}.

Lemma in_ids {A} (id_of : A → Z) id l : bool_decide (id ∈ map id_of l) = true ↔ ∃ r, r ∈ l ∧ id_of r = id.
Proof.
  rewrite bool_decide_eq_true. split.
  - intros (r & E & Hr)%list_elem_of_fmap. by exists r.
  - intros (r & Hr & <-). by apply list_elem_of_fmap_2.
Qed.

(** Two rows with one identifier are one. *)
Lemma keyed_same {A} (id_of : A → Z) t a b :
  keyed id_of t → a ∈ rows t → b ∈ rows t → id_of a = id_of b → a = b.
Proof.
  intros (Hn & _) Ha Hb E. apply list_elem_of_lookup in Ha as [i Hi], Hb as [j Hj].
  assert (i = j) as ->; [| congruence].
  eapply NoDup_lookup; [exact Hn | |]; rewrite list_lookup_fmap; [by rewrite Hi | rewrite Hj; cbn; by rewrite E].
Qed.

(** Nothing has the identifier zero, which stands for "none" in the structs. *)
Lemma no_zero {A} (id_of : A → Z) t : keyed id_of t → bool_decide (0 ∈ map id_of (rows t)) = false.
Proof.
  intros (_ & Hb & _). apply bool_decide_eq_false. intros (r & E & Hr)%list_elem_of_fmap.
  rewrite Forall_forall in Hb. apply Hb in Hr. lia.
Qed.

(** ** The operations *)

(** What SQLite gives a new row as its identifier. *)
Definition fresh (id : Z) (ids : list Z) : Prop := 0 < id ∧ id ∉ ids.

Inductive db_step (db : MailDb) : MailDb → Prop :=
  | step_user_create new handle level level_ok : fresh new (map fst (users db)) →
      db_step db (snd (db_user_create new handle level level_ok db))
  | step_user_create_ex new handle level email city level_ok : fresh new (map fst (users db)) →
      db_step db (snd (db_user_create_ex new handle level email city level_ok db))
  | step_seed_sysop new password : fresh new (map fst (users db)) → db_step db (snd (db_seed_sysop new password db))
  | step_delete_users gone elsewhere : db_step db (snd (delete_users gone elsewhere db))
  | step_pack_users status elsewhere : db_step db (snd (pack_users status elsewhere db))
  | step_area_seed new name : fresh new (map ar_id (areas db)) → db_step db (snd (db_msg_area_seed new name db))
  | step_area_manage new name acs delete_flag elsewhere : fresh new (map ar_id (areas db)) →
      db_step db (snd (db_message_area_manage new name acs delete_flag elsewhere db))
  | step_forward now msg user : db_step db (snd (db_message_forward now msg user db))
  | step_mass_mail now from subj text to_users : db_step db (snd (db_message_mass_mail now from subj text to_users db))
  | step_update_body id text : db_step db (snd (db_message_update_body id text db))
  | step_set_to_user id user : db_step db (snd (db_message_set_to_user id user db))
  | step_delete_messages gone : db_step db (snd (delete_messages gone db))
  | step_pack_messages old : db_step db (snd (pack_messages old db))
  | step_post now area user subj text reply : db_step db (snd (db_message_post now area user subj text reply db))
  | step_post_ex now m : db_step db (snd (db_message_post_ex now m db))
  | step_aka_add z n nd p dom primary : db_step db (snd (db_fido_aka_add z n nd p dom primary db))
  | step_aka_update id z n nd p dom primary : db_step db (snd (db_fido_aka_update id z n nd p dom primary db))
  | step_aka_delete id : db_step db (snd (db_fido_aka_delete id db))
  | step_link_add area tag aka org : db_step db (snd (db_fido_echolink_add area tag aka org db))
  | step_link_update id tag aka org : db_step db (snd (db_fido_echolink_update id tag aka org db))
  | step_link_delete id : db_step db (snd (db_fido_echolink_delete id db))
  | step_high_water id hw : db_step db (snd (db_fido_echolink_update_highwater id hw db))
  | step_netmail_add now m : db_step db (snd (db_fido_netmail_add now m db))
  | step_netmail_sent now id : db_step db (snd (db_fido_netmail_mark_sent now id db))
  | step_netmail_delete id : db_step db (snd (db_fido_netmail_delete id db))
  | step_queue_add now link message : db_step db (snd (db_fido_echo_queue_add now link message db))
  | step_queue_exported now link message : db_step db (snd (db_fido_echo_queue_mark_exported now link message db))
  | step_packet_add user kind path : db_step db (snd (db_mail_packet_add user kind path db)).

Lemma refers_mono (f g : Z → bool) id : (∀ x, f x = true → g x = true) → refers f id = true → refers g id = true.
Proof. destruct id; cbn; auto. Qed.

Lemma has_message_insert make db id :
  has_message db id = true → has_message (set_messages (insert_row make (messages db)) db) id = true.
Proof.
  unfold has_message. cbn. rewrite !in_ids. intros (r & Hr & E). exists r. split; [| done].
  apply elem_of_app. by left.
Qed.

Lemma post_row_ok make db :
  (∀ id, mr_id (make id) = id) → db_ok db → db_ok (snd (post_row make db)).
Proof.
  intros Hm Hok. unfold post_row. destruct (_ && _) eqn:E; cbn [snd]; [| done].
  rewrite !andb_true_iff in E. destruct E as [[[[E1 E2] E3] E4] E5].
  pose proof (has_message_insert make db) as Hi. destruct Hok.
  set (db' := set_messages _ db) in *.
  constructor; try done.
  - by apply keyed_insert.
  - apply Forall_app. split; [| by repeat constructor].
    eapply Forall_impl; [exact ok_message_refs0 |]. intros r (H1 & H2 & H3 & H4 & H5).
    split; [done |]. split; [done |]. split; [done |].
    split; eapply refers_mono; try done; apply Hi.
  - eapply Forall_impl; [exact ok_queue_refs0 |]. intros q [H1 H2]. split; [done | by apply Hi].
Qed.

Lemma ids_update {A} (id_of : A → Z) f t :
  (∀ r, id_of (f r) = id_of r) → map id_of (rows (update_rows f t)) = map id_of (rows t).
Proof. intros Hf. cbn. rewrite map_map. by apply map_ext. Qed.

Lemma ids_with {A} (id_of : A → Z) id f t :
  (∀ r, id_of r = id → id_of (f r) = id) →
  map id_of (rows (update_rows (with_id id_of id f) t)) = map id_of (rows t).
Proof.
  intros Hf. apply ids_update. intros r. unfold with_id.
  destruct (Z.eqb_spec (id_of r) id) as [E | E]; [by rewrite E, Hf | done].
Qed.

Lemma in_insert {A} (id_of : A → Z) make t id :
  bool_decide (id ∈ map id_of (rows t)) = true → bool_decide (id ∈ map id_of (rows (insert_row make t))) = true.
Proof.
  rewrite !in_ids. intros (r & Hr & E). exists r. split; [| done]. apply elem_of_app. by left.
Qed.

Lemma in_deleted {A} (id_of : A → Z) p t id :
  (∀ r, r ∈ rows t → id_of r = id → p r = false) →
  bool_decide (id ∈ map id_of (rows t)) = true → bool_decide (id ∈ map id_of (rows (delete_where p t))) = true.
Proof.
  rewrite !in_ids. intros Hp (r & Hr & E). exists r. split; [| done]. apply list_elem_of_filter. by split; [apply Hp |].
Qed.

(** A unique column after one row got the value [v], which no other row has. *)
Lemma nodup_replace {A B} (id_of : A → Z) (g : A → B) `{EqDecision B} id f v l :
  NoDup (map id_of l) → NoDup (map g l) → (∀ r, g (f r) = v) →
  (id ∈ map id_of l → v ∉ map g (filter (λ r, id_of r ≠ id) l)) →
  NoDup (map g (map (with_id id_of id f) l)).
Proof.
  intros Hi Hg Hf Hv. induction l as [|x l IH]; [constructor |]. cbn [map] in *.
  apply NoDup_cons in Hi as [Nx Hi], Hg as [Ng Hg].
  unfold with_id at 1. destruct (Z.eqb_spec (id_of x) id) as [E | E].
  - rewrite Hf. assert (map (with_id id_of id f) l = l) as ->.
    { rewrite <- (map_id l) at 2. apply map_ext_in. intros r Hr. unfold with_id.
      destruct (Z.eqb_spec (id_of r) id) as [E' | E']; [| done].
      destruct Nx. rewrite E, <- E'. by apply list_elem_of_fmap_2, list_elem_of_In. }
    constructor; [| done]. rewrite filter_cons_False in Hv by (intros H; by apply H).
    assert (filter (λ r, id_of r ≠ id) l = l) as Ef; [| rewrite Ef in Hv; apply Hv; rewrite E; by left].
    clear -Nx E. induction l as [|y l IH]; [done |]. apply not_elem_of_cons in Nx as [N1 N2].
    rewrite filter_cons_True by congruence. f_equal. by apply IH.
  - rewrite filter_cons_True in Hv by done. constructor.
    + intros (r' & Er & Hr')%list_elem_of_fmap. apply list_elem_of_fmap in Hr' as (r & -> & Hr).
      unfold with_id in Er. destruct (Z.eqb_spec (id_of r) id) as [E' | E'].
      * rewrite Hf in Er. apply Hv; [right; rewrite <- E'; by apply list_elem_of_fmap_2 |]. cbn. rewrite Er. by left.
      * destruct Ng. rewrite Er. by apply list_elem_of_fmap_2.
    + apply IH; [done | done |]. intros Hin Hv'. apply Hv; [by right | by right].
Qed.

Lemma nodup_update {A B} (g : A → B) f (l : list A) : (∀ r, g (f r) = g r) → NoDup (map g l) → NoDup (map g (map f l)).
Proof. intros H. assert (map g (map f l) = map g l) as -> by (rewrite map_map; by apply map_ext). done. Qed.

Lemma nodup_kept {A B} (g : A → B) (p : A → bool) l : NoDup (map g l) → NoDup (map g (filter (λ r, p r = false) l)).
Proof. intros H. eapply sublist_NoDup; [exact H |]. apply (fmap_sublist g), sublist_filter. Qed.

(** Rows with one identifier are at most one. *)
Lemma one_row {A} (id_of : A → Z) id l : NoDup (map id_of l) → zlen (filter (λ r, id_of r = id) l) <= 1.
Proof.
  unfold zlen. induction l as [|x l IH]; [cbn; lia |]. cbn [map]. intros [Nx Hl]%NoDup_cons.
  destruct (decide (id_of x = id)) as [E | E].
  - rewrite filter_cons_True by done. assert (filter (λ r, id_of r = id) l = []) as ->; [| cbn; lia].
    clear -Nx E. induction l as [|y l IH]; [done |]. apply not_elem_of_cons in Nx as [N1 N2].
    rewrite filter_cons_False by congruence. by apply IH.
  - rewrite filter_cons_False by done. by apply IH.
Qed.

Lemma filter_map_le {A B} (f : A → B) (P : B → Prop) (Q : A → Prop) `{∀ x, Decision (P x), ∀ x, Decision (Q x)} l :
  (∀ x, x ∈ l → P (f x) → Q x) → zlen (filter P (map f l)) <= zlen (filter Q l).
Proof.
  unfold zlen. induction l as [|x l IH]; [cbn; lia |]. intros HPQ. cbn [map].
  assert (length (filter P (map f l)) <= length (filter Q l))%nat
    by (apply Nat2Z.inj_le, IH; intros y Hy; apply HPQ; by right).
  rewrite !filter_cons. repeat case_decide; cbn [length]; try lia.
  exfalso. by eauto using list_elem_of_here.
Qed.

Lemma filter_none {A} (P : A → Prop) `{∀ x, Decision (P x)} l : Forall (λ x, ¬ P x) l → filter P l = [].
Proof. induction 1 as [|x l Hx _ IH]; [done |]. by rewrite filter_cons_False. Qed.

Lemma only_primary_ok primary db :
  db_ok db → db_ok (only_primary primary db) ∧
  (primary ≠ 0 → Forall (λ a, is_primary a = 0) (rows (akas (only_primary primary db)))) ∧
  map aka_id (rows (akas (only_primary primary db))) = map aka_id (rows (akas db)).
Proof.
  intros Hok. unfold only_primary. destruct (Z.eqb_spec primary 0) as [E | E]; [by split; [| split] |].
  assert (map aka_id (rows (update_rows clear_primary (akas db))) = map aka_id (rows (akas db))) as Ei by by apply ids_update.
  assert (Forall (λ a, is_primary a = 0) (map clear_primary (rows (akas db)))) as Ez
    by (apply Forall_map, Forall_forall; done).
  split; [| done]. destruct Hok. constructor; try done.
  - by apply keyed_update.
  - by apply nodup_update.
  - cbn [akas set_akas update_rows rows]. rewrite filter_none; [done |]. eapply Forall_impl; [exact Ez |]. tauto.
  - eapply Forall_impl; [exact ok_link_refs0 |]. intros l [H1 H2]. split; [done |].
    unfold has_aka in *. cbn [akas set_akas]. by rewrite Ei.
Qed.

Lemma aka_add_ok z n nd p dom primary db : db_ok db → db_ok (snd (db_fido_aka_add z n nd p dom primary db)).
Proof.
  intros Hok. unfold db_fido_aka_add. destruct (only_primary_ok primary db Hok) as (Hok' & Hz & _).
  generalize dependent (only_primary primary db). intros db' Hok' Hz. case_bool_decide as E; [done |]. cbn [snd].
  destruct Hok'. constructor; try done.
  - by apply keyed_insert.
  - cbn [akas set_akas insert_row rows]. rewrite map_app. apply NoDup_app. split; [done |].
    split; [by intros x Hx ->%list_elem_of_singleton | by apply NoDup_singleton].
  - cbn [akas set_akas insert_row rows]. unfold zlen in *. rewrite filter_app, length_app.
    destruct (decide (primary = 0)) as [-> | Np].
    + rewrite filter_cons_False by (intros H; by apply H). cbn. lia.
    + specialize (Hz Np). rewrite (filter_none _ (rows _)); [by rewrite filter_cons_True |].
      eapply Forall_impl; [exact Hz |]. tauto.
  - eapply Forall_impl; [exact ok_link_refs0 |]. intros l [H1 H2]. split; [done |]. by apply in_insert.
Qed.

Lemma aka_update_ok id z n nd p dom primary db : db_ok db → db_ok (snd (db_fido_aka_update id z n nd p dom primary db)).
Proof.
  intros Hok. unfold db_fido_aka_update. destruct (only_primary_ok primary db Hok) as (Hok' & Hz & _).
  generalize dependent (only_primary primary db). intros db' Hok' Hz. cbn zeta.
  destruct (_ && _) eqn:E; [done |]. cbn [snd].
  assert (map aka_id (rows (update_rows (with_id aka_id id (λ _, MkAka id z n nd p dom primary)) (akas db')))
    = map aka_id (rows (akas db'))) as Ei by by apply ids_with.
  destruct Hok'. constructor; try done.
  - by apply keyed_with.
  - cbn [akas set_akas update_rows rows].
    apply (nodup_replace aka_id aka_address id _ (z, n, nd, p)); [apply ok_akas0 | done | done |].
    intros Hin Hv. rewrite !bool_decide_eq_true_2 in E by done. done.
  - cbn [akas set_akas update_rows rows]. destruct (decide (primary = 0)) as [-> | Np].
    + etransitivity; [| exact ok_primary0]. apply filter_map_le. intros a _. unfold with_id.
      case_match; [by cbn | done].
    + specialize (Hz Np). etransitivity; [| apply (one_row aka_id id), ok_akas0]. apply filter_map_le.
      intros a Hin. unfold with_id. destruct (Z.eqb_spec (aka_id a) id); [done |]. intros Ha.
      rewrite Forall_forall in Hz. by apply Hz in Hin.
  - eapply Forall_impl; [exact ok_link_refs0 |]. intros l [H1 H2]. split; [done |].
    unfold has_aka in *. cbn [akas set_akas]. by rewrite Ei.
Qed.

Lemma filter_of_kept {A} (P Q : A → Prop) `{∀ x, Decision (P x), ∀ x, Decision (Q x)} l :
  zlen (filter P (filter Q l)) <= zlen (filter P l).
Proof.
  unfold zlen. induction l as [|x l IH]; [done |]. rewrite (filter_cons Q), (filter_cons P x l).
  repeat case_decide; rewrite ?filter_cons_True, ?filter_cons_False by done; cbn [length]; lia.
Qed.

Lemma aka_delete_ok id db : db_ok db → db_ok (snd (db_fido_aka_delete id db)).
Proof.
  intros Hok. unfold db_fido_aka_delete. destruct (_ && _) eqn:E; [done |]. cbn [snd].
  destruct Hok. constructor; try done.
  - by apply keyed_delete.
  - by apply nodup_kept.
  - etransitivity; [| exact ok_primary0]. cbn [akas set_akas delete_where rows].
    apply filter_of_kept.
  - apply Forall_forall. intros l Hl. rewrite Forall_forall in ok_link_refs0.
    destruct (ok_link_refs0 l Hl) as [H1 H2]. split; [done |]. apply in_deleted; [| done].
    intros r Hr Er. apply Z.eqb_neq. intros Eid. apply andb_false_iff in E as [E | E].
    + rewrite <- Eid, Er in E. by rewrite H2 in E.
    + assert (existsb (λ l, link_aka l =? id) (rows (links db)) = true); [| congruence].
      apply existsb_exists. exists l. split; [by apply list_elem_of_In | apply Z.eqb_eq; congruence].
Qed.

Lemma link_add_ok area tag aka org db : db_ok db → db_ok (snd (db_fido_echolink_add area tag aka org db)).
Proof.
  intros Hok. unfold db_fido_echolink_add. destruct (_ || _) eqn:E; [done |]. cbn [snd].
  rewrite !orb_false_iff, !negb_false_iff in E. destruct E as [[Et Ea] Ek]. apply bool_decide_eq_false in Et.
  destruct Hok. constructor; try done.
  - by apply keyed_insert.
  - cbn [links set_links insert_row rows]. rewrite map_app. apply NoDup_app. split; [done |].
    split; [by intros x Hx ->%list_elem_of_singleton | by apply NoDup_singleton].
  - apply Forall_app. by repeat constructor.
  - eapply Forall_impl; [exact ok_queue_refs0 |]. intros q [H1 H2]. split; [by apply in_insert | done].
Qed.

(** A change of the rows of links that keeps their identifiers. *)
Lemma links_changed f db :
  db_ok db → (∀ l, link_id (f l) = link_id l) → NoDup (map echotag (map f (rows (links db)))) →
  Forall (λ l, has_area db (link_area l) = true ∧ has_aka db (link_aka l) = true) (map f (rows (links db))) →
  db_ok (set_links (update_rows f (links db)) db).
Proof.
  intros Hok Hf Ht Hr. pose proof (ids_update link_id f (links db) Hf) as Ei. destruct Hok. constructor; try done.
  - by apply keyed_update.
  - eapply Forall_impl; [exact ok_queue_refs0 |]. intros q [H1 H2]. split; [| done].
    unfold has_link in *. cbn [links set_links]. by rewrite Ei.
Qed.

Lemma link_update_ok id tag aka org db : db_ok db → db_ok (snd (db_fido_echolink_update id tag aka org db)).
Proof.
  intros Hok. unfold db_fido_echolink_update. cbn zeta. destruct (has_link db id && _) eqn:E; [done |]. cbn [snd].
  assert (∀ l, link_id (with_id link_id id (λ l, MkLink id (link_area l) tag aka org (high_water l)) l) = link_id l) as Hid.
  { intros l. unfold with_id. by destruct (Z.eqb_spec (link_id l) id). }
  apply links_changed; [done | done | |].
  - apply (nodup_replace link_id echotag id _ tag); [apply ok_links, Hok | apply ok_tags, Hok | done |].
    intros Hin Hv. assert (has_link db id = true) as Hl by by apply bool_decide_eq_true.
    rewrite Hl, (bool_decide_eq_true_2 _ Hv) in E. done.
  - apply Forall_map, Forall_forall. intros l Hl. pose proof (ok_link_refs db Hok) as Hr.
    rewrite Forall_forall in Hr. destruct (Hr l Hl) as [H1 H2]. unfold with_id.
    destruct (Z.eqb_spec (link_id l) id) as [El | El]; [| done]. cbn. split; [done |].
    assert (has_link db id = true) as Hi by (apply in_ids; by exists l).
    rewrite Hi in E. cbn in E. apply orb_false_iff in E as [_ E%negb_false_iff]. done.
Qed.

Lemma high_water_ok id hw db : db_ok db → db_ok (snd (db_fido_echolink_update_highwater id hw db)).
Proof.
  intros Hok. apply links_changed; [done | | |].
  - intros l. unfold with_id. by case_match.
  - apply nodup_update; [| apply ok_tags, Hok]. intros l. unfold with_id. by case_match.
  - apply Forall_map. eapply Forall_impl; [apply ok_link_refs, Hok |]. intros l H. unfold with_id. by case_match.
Qed.

Lemma link_delete_ok id db : db_ok db → db_ok (snd (db_fido_echolink_delete id db)).
Proof.
  intros []. unfold db_fido_echolink_delete. cbn [snd]. constructor; try done.
  - by apply keyed_delete.
  - by apply keyed_delete.
  - by apply nodup_kept.
  - by apply Forall_kept.
  - cbn [queue set_queue set_links delete_where rows]. apply Forall_forall.
    intros q [Hq Hin]%list_elem_of_filter. rewrite Forall_forall in ok_queue_refs0.
    destruct (ok_queue_refs0 q Hin) as [H1 H2]. split; [| done]. apply in_deleted; [| done].
    intros r _ Er. rewrite Er. exact Hq.
Qed.

Lemma queue_add_ok now link message db : db_ok db → db_ok (snd (db_fido_echo_queue_add now link message db)).
Proof.
  intros Hok. unfold db_fido_echo_queue_add. destruct (_ && _) eqn:E; [| done]. cbn [snd].
  apply andb_prop in E as [E1 E2]. destruct Hok. constructor; try done.
  - by apply keyed_insert.
  - apply Forall_app. by repeat constructor.
Qed.

Lemma queue_exported_ok now link message db :
  db_ok db → db_ok (snd (db_fido_echo_queue_mark_exported now link message db)).
Proof.
  intros []. constructor; try done.
  - apply keyed_update; [| done]. intros q. by case_match.
  - apply Forall_map. eapply Forall_impl; [exact ok_queue_refs0 |]. intros q H. by case_match.
Qed.

Lemma packet_add_ok user kind path db : db_ok db → db_ok (snd (db_mail_packet_add user kind path db)).
Proof.
  intros Hok. unfold db_mail_packet_add. destruct (has_user db user) eqn:E; [| done]. destruct Hok.
  constructor; try done.
  - by apply keyed_insert.
  - apply Forall_app. by repeat constructor.
Qed.

Lemma netmail_ok t db : db_ok db → keyed nm_id t → db_ok (set_netmail t db).
Proof. intros [] H. by constructor. Qed.

(** *** Users and areas *)

Lemma insert_user_ok new handle level_ok db :
  fresh new (map fst (users db)) → db_ok db → db_ok (snd (insert_user new handle level_ok db)).
Proof.
  intros [Hp Hn] Hok. unfold insert_user. destruct (_ || _) eqn:E; [done |]. cbn [snd].
  apply orb_false_iff in E as [Eh%bool_decide_eq_false _].
  assert (∀ id, has_user db id = true → has_user (set_users (users db ++ [(new, handle)]) db) id = true) as Hi.
  { unfold has_user. cbn [users set_users]. intros id. rewrite !in_ids. intros (r & Hr & Er).
    exists r. split; [apply elem_of_app; by left | done]. }
  destruct Hok as [Hu [Hk Hh] ? ? ? ? ? ? ? ? Hm ? ? ? ? ? Hpk]. constructor; try done.
  - apply Forall_app. by repeat constructor.
  - cbn [users set_users]. rewrite !map_app. split; apply NoDup_app; (split; [done |]);
      (split; [by intros x Hx ->%list_elem_of_singleton | by apply NoDup_singleton]).
  - eapply Forall_impl; [exact Hm |]. intros r (H1 & H2 & H3 & H4 & H5).
    split_and!; try done; eapply refers_mono; try done; apply Hi.
  - eapply Forall_impl; [exact Hpk |]. intros p. apply Hi.
Qed.

Lemma existsb_none {A} (p : A → bool) l x : existsb p l = false → x ∈ l → p x = false.
Proof.
  intros E Hx. destruct (p x) eqn:Ep; [| done]. rewrite <- E. symmetry. apply existsb_exists.
  exists x. by split; [apply list_elem_of_In |].
Qed.

(** A row that nothing refers to may go. *)
Lemma in_rest {A} (id_of : A → Z) (p : A → Prop) `{∀ x, Decision (p x)} l id :
  bool_decide (id ∈ map id_of l) = true → (∀ r, r ∈ l → id_of r = id → p r) →
  bool_decide (id ∈ map id_of (filter p l)) = true.
Proof.
  rewrite !in_ids. intros (r & Hr & E) Hp. exists r. split; [| done]. apply list_elem_of_filter. by split; [apply Hp |].
Qed.

Lemma delete_users_ok gone elsewhere db : db_ok db → db_ok (snd (delete_users gone elsewhere db)).
Proof.
  intros Hok. unfold delete_users. destruct (existsb _ (users db)) eqn:E; [done |]. cbn [snd].
  assert (∀ id, has_user db id = true → user_referred db id = true →
    has_user (set_users (filter (λ u, gone (fst u) = false) (users db)) db) id = true) as Hi.
  { intros id Hu Hr. apply in_rest; [exact Hu |]. intros u Hin Eu. pose proof (existsb_none _ _ u E Hin) as Hg.
    cbn in Hg. rewrite Eu, Hr in Hg. rewrite Eu. by destruct (gone id). }
  assert (∀ r id, r ∈ rows (messages db) → mr_user r = Some id ∨ mr_to r = Some id → user_referred db id = true) as Hm'.
  { intros r id Hin H. apply orb_true_iff. left. apply existsb_exists. exists r. split; [by apply list_elem_of_In |].
    apply orb_true_iff. rewrite !bool_decide_eq_true. done. }
  destruct Hok as [Hu [Hk Hh] ? ? ? ? ? ? ? ? Hm ? ? ? ? ? Hpk]. constructor; try done.
  - by apply Forall_kept.
  - split; [eapply sublist_NoDup; [exact Hk |]; apply (fmap_sublist fst) |
            eapply sublist_NoDup; [exact Hh |]; apply (fmap_sublist snd)]; apply sublist_filter.
  - rewrite Forall_forall in *. intros r Hin. destruct (Hm r Hin) as (H1 & H2 & H3 & H4 & H5).
    split_and!; try done.
    + destruct (mr_user r) as [u|] eqn:Er; [| done]. apply Hi; [done |]. eapply Hm'; [exact Hin | by left].
    + destruct (mr_to r) as [u|] eqn:Er; [| done]. apply Hi; [done |]. eapply Hm'; [exact Hin | by right].
  - rewrite Forall_forall in *. intros p Hin. apply Hi; [by apply Hpk |]. apply orb_true_iff. right.
    apply existsb_exists. exists p. by split; [apply list_elem_of_In | apply Z.eqb_refl].
Qed.

(** The areas change and those that are referred to stay. *)
Lemma areas_changed l db :
  db_ok db → Forall (λ r, 0 < ar_id r) l → NoDup (map ar_id l) → NoDup (map ar_name l) →
  (∀ id, has_area db id = true → area_referred db id = true → has_area (set_areas l db) id = true) →
  db_ok (set_areas l db).
Proof.
  intros Hok Hl Hi Hn Hr. destruct Hok as [? ? ? ? ? ? ? ? ? ? Hm ? ? ? Hk ? ?]. constructor; try done.
  - rewrite Forall_forall in *. intros r Hin. destruct (Hm r Hin) as (H1 & H2). split; [| done].
    apply Hr; [done |]. apply orb_true_iff. left. apply existsb_exists. exists r.
    by split; [apply list_elem_of_In | apply Z.eqb_refl].
  - rewrite Forall_forall in *. intros k Hin. destruct (Hk k Hin) as (H1 & H2). split; [| done].
    apply Hr; [done |]. apply orb_true_iff. right. apply existsb_exists. exists k.
    by split; [apply list_elem_of_In | apply Z.eqb_refl].
Qed.

Lemma insert_area_ok new name acs db :
  fresh new (map ar_id (areas db)) → name ∉ map ar_name (areas db) → db_ok db → db_ok (insert_area new name acs db).
Proof.
  intros [Hp Hf] Hn Hok. destruct (ok_area_keys db Hok) as [Hk Ht]. apply areas_changed; [done | | | |].
  - apply Forall_app. split; [apply Hok | by repeat constructor].
  - rewrite map_app. apply NoDup_app. split; [done |].
    split; [by intros x Hx ->%list_elem_of_singleton | by apply NoDup_singleton].
  - rewrite map_app. apply NoDup_app. split; [done |].
    split; [by intros x Hx ->%list_elem_of_singleton | by apply NoDup_singleton].
  - unfold has_area. cbn [areas set_areas]. intros id. rewrite !in_ids. intros (r & Hr & Er).
    exists r. split; [apply elem_of_app; by left | done].
Qed.

Lemma area_manage_ok new name acs delete_flag elsewhere db :
  fresh new (map ar_id (areas db)) → db_ok db →
  db_ok (snd (db_message_area_manage new name acs delete_flag elsewhere db)).
Proof.
  intros Hf Hok. unfold db_message_area_manage. destruct (ok_area_keys db Hok) as [Hk Ht]. destruct delete_flag.
  - destruct (existsb _ (areas db)) eqn:E; [done |]. cbn [snd]. apply areas_changed; [done | | | |].
    + apply Forall_kept, Hok.
    + eapply sublist_NoDup; [exact Hk |]. apply (fmap_sublist ar_id), sublist_filter.
    + eapply sublist_NoDup; [exact Ht |]. apply (fmap_sublist ar_name), sublist_filter.
    + intros id Ha Hr. apply in_rest; [exact Ha |]. intros r Hin Er En. pose proof (existsb_none _ _ r E Hin) as Hg.
      cbn in Hg. by rewrite bool_decide_eq_true_2, Er, Hr in Hg.
  - case_bool_decide as E; [| by apply insert_area_ok]. cbn [snd].
    set (f r := if bool_decide (ar_name r = name) then set_area_acs (default [] acs) r else r).
    assert (∀ r, ar_id (f r) = ar_id r ∧ ar_name (f r) = ar_name r) as Hfr by (intros r; unfold f; by case_match).
    assert (map ar_id (map f (areas db)) = map ar_id (areas db)) as Ei
      by (rewrite map_map; apply map_ext; intros r; apply Hfr).
    apply areas_changed; [done | | | |].
    + apply Forall_map. eapply Forall_impl; [apply ok_areas, Hok |]. intros r H. cbn. by rewrite (proj1 (Hfr r)).
    + by rewrite Ei.
    + apply nodup_update; [apply Hfr | done].
    + intros id Ha _. unfold has_area in *. cbn [areas set_areas]. by rewrite Ei.
Qed.

(** *** Messages that change and go *)

(** The rows of messages are changed in place: keys stay, and references hold. *)
Lemma messages_changed id f db :
  db_ok db → (∀ r, mr_id (f r) = mr_id r ∧ mr_area (f r) = mr_area r ∧ mr_user (f r) = mr_user r ∧
    mr_reply (f r) = mr_reply r ∧ mr_root (f r) = mr_root r) →
  (∀ r, r ∈ rows (messages db) → mr_id r = id → refers (has_user db) (mr_to (f r)) = true) →
  db_ok (set_messages (update_rows (with_id mr_id id f) (messages db)) db).
Proof.
  intros Hok Hf Hto.
  assert (map mr_id (rows (update_rows (with_id mr_id id f) (messages db))) = map mr_id (rows (messages db))) as Ei
    by (apply ids_with; intros r <-; apply Hf).
  assert (∀ x, has_message (set_messages (update_rows (with_id mr_id id f) (messages db)) db) x = has_message db x) as Hx
    by (intros x; unfold has_message; cbn [messages set_messages]; by rewrite Ei).
  assert (∀ o, refers (has_message db) o = true →
    refers (has_message (set_messages (update_rows (with_id mr_id id f) (messages db)) db)) o = true) as Ho
    by (intros o; apply refers_mono; intros x; by rewrite Hx).
  destruct Hok as [? ? ? ? Hk ? ? ? ? ? Hm ? ? ? ? Hq ?]. constructor; try done.
  - apply keyed_with; [| done]. intros r <-. apply Hf.
  - apply Forall_map. rewrite Forall_forall in *. intros r Hin. destruct (Hm r Hin) as (H1 & H2 & H3 & H4 & H5).
    destruct (Hf r) as (_ & Ea & Eu & Er & Eo). pose proof (Hto r Hin) as Ht. unfold with_id.
    destruct (Z.eqb_spec (mr_id r) id) as [E | E]; rewrite ?Ea, ?Eu, ?Er, ?Eo; split_and!; try done;
      first [by apply Ht | by apply Ho].
  - eapply Forall_impl; [exact Hq |]. intros q [H1 H2]. split; [done |]. by rewrite Hx.
Qed.

Lemma update_body_ok id text db : db_ok db → db_ok (snd (db_message_update_body id text db)).
Proof.
  intros Hok. apply messages_changed; [done | done |]. intros r Hin _.
  pose proof (ok_message_refs db Hok) as H. rewrite Forall_forall in H. by destruct (H r Hin) as (_ & _ & Ht & _).
Qed.

Lemma set_to_user_ok id user db : db_ok db → db_ok (snd (db_message_set_to_user id user db)).
Proof.
  intros Hok. unfold db_message_set_to_user. destruct (_ && _) eqn:E; [done |]. apply messages_changed; [done | done |].
  intros r Hin Er. cbn. apply andb_false_iff in E as [E | E%negb_false_iff]; [| done].
  unfold has_message in E. apply bool_decide_eq_false in E. destruct E. rewrite <- Er. by apply list_elem_of_fmap_2.
Qed.

Lemma delete_messages_ok gone db : db_ok db → db_ok (snd (delete_messages gone db)).
Proof.
  intros Hok. unfold delete_messages. cbn zeta. set (ids := map mr_id _). destruct (_ || _) eqn:E; [done |]. cbn [snd].
  apply orb_false_iff in E as [E1 E2].
  assert (∀ id, has_message db id = true → id ∉ ids →
    has_message (set_messages (delete_where gone (messages db)) db) id = true) as Hi.
  { intros id Hm Hn. apply in_deleted; [| done]. intros r Hin Er. destruct (gone r) eqn:Eg; [| done].
    destruct Hn. rewrite <- Er. apply list_elem_of_fmap_2, list_elem_of_filter. done. }
  assert (∀ o, refers (has_message db) o = true → (match o with Some id => bool_decide (id ∈ ids) | None => false end) = false →
    refers (has_message (set_messages (delete_where gone (messages db)) db)) o = true) as Hr.
  { intros [id|] H Hb; [| done]. apply Hi; [done |]. by apply bool_decide_eq_false in Hb. }
  destruct Hok as [? ? ? ? Hk ? ? ? ? ? Hm ? ? ? ? Hq ?]. constructor; try done.
  - by apply keyed_delete.
  - rewrite Forall_forall in *. intros r [Hg Hin]%list_elem_of_filter. destruct (Hm r Hin) as (H1 & H2 & H3 & H4 & H5).
    pose proof (existsb_none _ _ r E1 Hin) as Hd. cbn in Hd. rewrite Hg in Hd. apply orb_false_iff in Hd as [Hd1 Hd2].
    split_and!; try done; by apply Hr.
  - rewrite Forall_forall in *. intros q Hin. destruct (Hq q Hin) as [H1 H2]. split; [done |]. apply Hi; [done |].
    pose proof (existsb_none _ _ q E2 Hin) as Hd. by apply bool_decide_eq_false in Hd.
Qed.

Lemma mass_mail_ok now from subj text to_users : ∀ db, db_ok db → db_ok (snd (mass_mail_loop now from subj text to_users db)).
Proof.
  induction to_users as [|user l IH]; intros db Hok; [done |]. cbn [mass_mail_loop].
  pose proof (post_row_ok (λ id, MkMessageRow id 0 (Some from) (Some user) (Some 0) (root_of db (Some 0)) now
    (column 80 subj) (column 2048 text) (Some []) (Some []) 0 0 (Some []) (Some [])) db ltac:(done) Hok) as H.
  unfold db_message_post_ex. cbn [mail_struct msg_area_id msg_user_id to_user reply_to subject body from_name to_name attr
    net_attr file_attached origin]. destruct (post_row _ db) as [[] db']; [by apply IH | done].
Qed.


(** ** Posting *)

Lemma has_user_zero db : db_ok db → has_user db 0 = false.
Proof.
  intros Hok. apply bool_decide_eq_false. intros (u & E & Hu)%list_elem_of_fmap.
  pose proof (ok_users db Hok) as H. rewrite Forall_forall in H. apply H in Hu. lia.
Qed.

(** A struct has zero where it has no user, no recipient or no message it answers.
    Bound as it is, the zero is a reference to a row that no table has: with the
    foreign keys enabled such a message is never stored. *)
Theorem zero_is_no_reference now m db :
  db_ok db → msg_user_id m = 0 ∨ to_user m = 0 ∨ reply_to m = 0 →
  db_message_post_ex now m db = (false, db).
Proof.
  intros Hok Hz. unfold db_message_post_ex, post_row. cbn [mr_area mr_user mr_to mr_reply mr_root refers].
  set (after := set_messages _ db).
  assert (has_message after 0 = false) as Hm.
  { apply (no_zero mr_id (messages after)). apply keyed_insert; [done | apply Hok]. }
  destruct Hz as [-> | [-> | ->]].
  - by rewrite has_user_zero, andb_false_r by done.
  - by rewrite has_user_zero, andb_false_r by done.
  - by rewrite Hm, andb_false_r.
Qed.

Lemma has_area_zero db : db_ok db → has_area db 0 = false.
Proof.
  intros Hok. apply bool_decide_eq_false. intros (r & E & Hr)%list_elem_of_fmap.
  pose proof (ok_areas db Hok) as H. rewrite Forall_forall in H. apply H in Hr. lia.
Qed.

Lemma area_zero_refused make db : db_ok db → mr_area (make (next_id (messages db))) = 0 → post_row make db = (false, db).
Proof. intros Hok E. unfold post_row. by rewrite E, has_area_zero. Qed.

(** The area of private mail is number 0, which no area has: neither is a mail to a user
    stored (msg_cmds.c:426 and 461), nor is a message forwarded, nor does mass mail
    get anywhere. *)
Theorem mail_is_refused now user subj text reply msg to_users db :
  db_ok db →
  db_message_post now 0 user subj text reply db = (false, db) ∧
  db_message_forward now msg user db = (false, db) ∧
  db_message_mass_mail now user subj text to_users db = (false, db).
Proof.
  intros Hok. split; [by apply area_zero_refused |]. split.
  - unfold db_message_forward. case_match; [by apply area_zero_refused | done].
  - unfold db_message_mass_mail. case_bool_decide; [done |]. destruct to_users as [|u l]; [done |].
    cbn [mass_mail_loop]. unfold db_message_post_ex. by rewrite area_zero_refused.
Qed.

(** The packing of messages names a column of other tables: it deletes none. *)
Theorem packing_deletes_nothing old db : pack_messages old db = (false, db).
Proof. reflexivity. Qed.

Lemma row_of_last {A} (id_of : A → Z) make t :
  (∀ id, id_of (make id) = id) → keyed id_of t →
  row_of id_of (next_id t) (insert_row make t) = Some (make (next_id t)).
Proof.
  intros Hm (_ & Hb & _). unfold row_of, insert_row. cbn [rows].
  induction Hb as [|r l Hr _ IH]; cbn [app List.find].
  - by rewrite Hm, Z.eqb_refl.
  - by rewrite (proj2 (Z.eqb_neq (id_of r) _)) by lia.
Qed.

(** The statement that binds NULL instead stores the message of a user in an area,
    and reading it gives what was posted. *)
Theorem posted_messages_read now area user handle subj text db :
  db_ok db → has_area db area = true → List.find (λ p, fst p =? user) (users db) = Some (user, handle) →
  ∃ db', db_message_post now area user subj text 0 db = (true, db') ∧
    db_message_get (next_id (messages db)) db' =
    Some (MkMessage (next_id (messages db)) area user 0 0 0 (column 64 handle) [] [] (column 80 subj)
            (column 2048 text) (column 32 now) 0 0 [] []).
Proof.
  intros Hok Ha Hu. assert (has_user db user = true) as Hh.
  { apply find_some in Hu as [Hu _]. apply bool_decide_eq_true.
    apply (list_elem_of_fmap_2 fst _ (user, handle)). by apply list_elem_of_In. }
  unfold db_message_post. change (0 <? 0) with false. cbn [root_of]. unfold post_row.
  cbn [mr_area mr_user mr_to mr_reply mr_root refers]. rewrite Ha, Hh. cbn [andb].
  eexists. split; [reflexivity |]. unfold db_message_get. cbn [messages set_messages].
  rewrite row_of_last by (done || apply Hok). unfold message_of.
  cbn [fmap option_fmap option_map mr_user mbind option_bind users set_messages]. by rewrite Hu.
Qed.

(** ** Two statements that are not one *)

(** Adding a primary AKA clears the flag of the others before it adds: when the
    address is taken, the board is left without a primary AKA. *)
Theorem failed_add_loses_primary dom primary db a :
  a ∈ rows (akas db) → primary ≠ 0 →
  ∃ db', db_fido_aka_add (zone a) (net a) (node a) (point a) dom primary db = (false, db') ∧
    db_fido_aka_get_primary db' = None.
Proof.
  intros Ha Np. unfold db_fido_aka_add, only_primary. rewrite (proj2 (Z.eqb_neq primary 0)) by done.
  cbn [akas set_akas update_rows rows]. rewrite bool_decide_eq_true_2.
  - eexists. split; [reflexivity |]. unfold db_fido_aka_get_primary. cbn [akas set_akas update_rows rows].
    induction (rows (akas db)) as [|b l IH] in |- *; [done |]. exact IH.
  - rewrite map_map. by apply (list_elem_of_fmap_2 (λ x, aka_address (clear_primary x))).
Qed.

(** The table of the queue has no key that would let the insertion be ignored: a
    message that is queued twice is pending twice. *)
Theorem queued_twice_pending_twice now link message db :
  has_link db link = true → has_message db message = true →
  Forall (λ q, q_link q ≠ link) (rows (queue db)) →
  let db' := snd (db_fido_echo_queue_add now link message (snd (db_fido_echo_queue_add now link message db))) in
  db_fido_echo_queue_pending link 200 db' = [message; message].
Proof.
  intros Hl Hm Hq. cbn zeta. unfold db_fido_echo_queue_add. rewrite Hl, Hm. cbn [andb snd].
  change (has_link (set_queue _ db) link) with (has_link db link).
  change (has_message (set_queue _ db) message) with (has_message db message). rewrite Hl, Hm. cbn [andb snd].
  unfold db_fido_echo_queue_pending. cbn [queue set_queue insert_row rows].
  rewrite <- app_assoc, filter_app, filter_none.
  - unfold is_pending. cbn [app]. rewrite !filter_cons_True by (cbn [q_link q_status]; by rewrite Z.eqb_refl, bool_decide_eq_true_2).
    cbn. by destruct (text_le now now).
  - eapply Forall_impl; [exact Hq |]. intros q Hn. unfold is_pending. by rewrite (proj2 (Z.eqb_neq _ _)).
Qed.

(** ** Addresses *)

Lemma scan_d_fmt z rest : 0 <= z < 2 ^ 31 → stops 10 rest → scan_d (fmt_d z ++ rest) = Some (z, rest).
Proof.
  intros Hz Hr. unfold scan_d, fmt_d. rewrite (proj2 (Z.ltb_ge z 0)) by lia.
  destruct (dec_head z ltac:(lia)) as (c & r & E & Hc). pose proof (digit_not_special c Hc) as (H1 & H2 & H3).
  assert (skip_space (dec_of_nonneg z ++ rest) = dec_of_nonneg z ++ rest) as -> by (rewrite E; cbn; by rewrite H1).
  assert (read_sign (dec_of_nonneg z ++ rest) = (false, dec_of_nonneg z ++ rest)) as -> by (rewrite E; cbn; by rewrite H2, H3).
  destruct (read_dec z 0 0 rest ltac:(lia) Hr) as (L & HL & ->). destruct L as [|L]; [lia |].
  cbn [Nat.add]. rewrite Z.mul_0_l, Z.add_0_l. unfold clamp64, s32, swrap. rewrite Z.max_r, Z.min_r by lia.
  rewrite Z.mod_small by lia. by rewrite Z.add_simpl_r.
Qed.

Lemma dec_digits_length d : ∀ fuel z k,
  0 <= z < 10 ^ Z.of_nat (S d) → (length (dec_digits fuel z k) <= length k + S d)%nat.
Proof.
  induction d as [|d IH]; intros [|fuel] z k Hz; cbn [dec_digits]; try lia.
  - rewrite (proj2 (Z.ltb_lt z 10)) by (cbn in Hz; lia). cbn. lia.
  - destruct (Z.ltb_spec z 10); [cbn; lia |]. etransitivity; [apply IH | cbn; lia].
    rewrite Nat2Z.inj_succ, Z.pow_succ_r in Hz by lia. split; [apply Z.div_pos; lia | apply Z.div_lt_upper_bound; lia].
Qed.

Lemma fmt_d_length z : 0 <= z < 2 ^ 31 → (length (fmt_d z) <= 10)%nat.
Proof.
  intros Hz. unfold fmt_d, dec_of_nonneg. rewrite (proj2 (Z.ltb_ge z 0)) by lia.
  apply (dec_digits_length 9 _ z []). change (10 ^ Z.of_nat 10) with 10000000000. lia.
Qed.

(** The text of an address reads as the address. *)
Theorem addresses_read_back a :
  Forall (λ x, 0 <= x < 2 ^ 31) [zone a; net a; node a; point a] →
  ∃ t, fido_format_address a 64 = Some t ∧ fido_parse_address t = Some (aka_address a).
Proof.
  intros H. rewrite !Forall_cons in H. destruct H as (Hz & Hn & Hd & Hp & _).
  unfold fido_format_address. change (64 <? 16)%nat with false. cbn iota zeta. eexists. split; [reflexivity |].
  rewrite take_ge by (case_match; rewrite !length_app; cbn [lit length];
    pose proof (fmt_d_length _ Hz); pose proof (fmt_d_length _ Hn); pose proof (fmt_d_length _ Hd);
    pose proof (fmt_d_length _ Hp); lia).
  unfold fido_parse_address, aka_address. rewrite <- !app_assoc.
  destruct (Z.ltb_spec 0 (point a)) as [H0 | H0]; rewrite ?app_nil_r; rewrite <- ?app_assoc; cbn [scan_ds].
  - rewrite scan_d_fmt by done. cbn [lit app]. change (ch ":" =? 32) with false. cbn iota.
    rewrite Z.eqb_refl, scan_d_fmt by done. change (ch "/" =? 32) with false. cbn iota.
    rewrite Z.eqb_refl, scan_d_fmt by done. change (ch "." =? 32) with false. cbn iota.
    rewrite Z.eqb_refl. rewrite <- (app_nil_r (fmt_d (point a))), scan_d_fmt by done. done.
  - rewrite scan_d_fmt by done. cbn [lit app]. change (ch ":" =? 32) with false. cbn iota.
    rewrite Z.eqb_refl, scan_d_fmt by done. change (ch "/" =? 32) with false. cbn iota.
    rewrite Z.eqb_refl. rewrite <- (app_nil_r (fmt_d (node a))), scan_d_fmt by done. cbn.
    by replace (point a) with 0 by lia.
Qed.

(** ** Witnesses *)

(** Two users and an area; and what a few operations make of them. *)
Definition base_db : MailDb :=
  MkDb [(1, lit "Ann"); (2, lit "Bob")] [MkAreaRow 1 (lit "General") None None None None None 0 0 None None 500]
    (MkTable [] 1) (MkTable [] 1) (MkTable [] 1) (MkTable [] 1) (MkTable [] 1) (MkTable [] 1).

Definition linked_db : MailDb :=
  snd (db_fido_echolink_add 1 (lit "GENERAL") 1 [] (snd (db_fido_aka_add 1 100 5 0 [] 1 base_db))).

Definition posted_db : MailDb :=
  maybe_queue_echomail (lit "2026-03-01 10:00:01") 1 1
    (snd (db_message_post (lit "2026-03-01 10:00:00") 1 2 (lit "Hello") (lit "Is anyone here?") 0 linked_db)).

Lemma base_db_ok : db_ok base_db.
Proof.
  constructor; cbn; try by constructor.
  all: try by (split; [constructor | split; [constructor | cbn; lia]]).
  all: try by repeat constructor.
  all: try by vm_compute.
  all: split; apply (bool_decide_unpack _); by vm_compute.
Qed.

Lemma posted_db_ok : db_ok posted_db.
Proof.
  assert (db_ok linked_db) as H by (apply link_add_ok, aka_add_ok, base_db_ok).
  apply (queue_add_ok _ 1 1). by apply post_row_ok.
Qed.

Lemma posted_db_steps : rtc db_step base_db posted_db.
Proof.
  eapply rtc_l; [apply (step_aka_add _ 1 100 5 0 [] 1) |].
  eapply rtc_l; [apply (step_link_add _ 1 (lit "GENERAL") 1 []) |].
  eapply rtc_l; [apply (step_post _ (lit "2026-03-01 10:00:00") 1 2 (lit "Hello") (lit "Is anyone here?") 0) |].
  eapply rtc_l; [apply (step_queue_add _ (lit "2026-03-01 10:00:01") 1 1) |].
  assert (∀ x y : MailDb, x = y → rtc db_step x y) as E by (intros x y ->; constructor).
  apply E. vm_compute. reflexivity.
Qed.


Lemma zero_is_no_reference_witness :
  db_message_post_ex [] (MkMessage 0 1 1 0 0 0 [] (lit "Ann") (lit "Bob") (lit "Re") (lit "Yes") [] 0 0 [] []) base_db
  = (false, base_db).
Proof. apply zero_is_no_reference; [exact base_db_ok | right; left; reflexivity]. Defined.

Lemma posted_messages_read_witness :
  ∃ db', db_message_post (lit "now") 1 2 (lit "Hello") (lit "Text") 0 base_db = (true, db') ∧
    db_message_get 1 db' =
    Some (MkMessage 1 1 2 0 0 0 (lit "Bob") [] [] (lit "Hello") (lit "Text") (lit "now") 0 0 [] []).
Proof. apply (posted_messages_read (lit "now") 1 2 (lit "Bob")); [exact base_db_ok | reflexivity..]. Defined.

Lemma failed_add_loses_primary_witness :
  ∃ db', db_fido_aka_add 1 100 5 0 [] 1 linked_db = (false, db') ∧ db_fido_aka_get_primary db' = None.
Proof. apply (failed_add_loses_primary [] 1 linked_db (MkAka 1 1 100 5 0 [] 1)); [left | lia]. Defined.

Lemma queued_twice_pending_twice_witness :
  db_fido_echo_queue_pending 1 200
    (snd (db_fido_echo_queue_add [] 1 1 (snd (db_fido_echo_queue_add [] 1 1
       (set_queue (MkTable [] 1) posted_db))))) = [1; 1].
Proof. apply queued_twice_pending_twice; [reflexivity | reflexivity | constructor]. Defined.

Lemma addresses_read_back_witness :
  ∃ t, fido_format_address (MkAka 1 2 280 1208 7 [] 0) 64 = Some t ∧ fido_parse_address t = Some (2, 280, 1208, 7).
Proof. apply addresses_read_back. repeat constructor; vm_compute; congruence. Defined.
