(* ===== verification/Fido.v ===== *)
(** FidoNet mail (src/fido_netmail.c): the files netmail and echomail are exported
    to, the queues they are taken from, and the import of echomail. The effects on
    files are the list of what is done to them in order; the answers of the file
    system, of the database's locks and of the clock are an environment. *)

From S2P Require Import Prelude CLib MailDb.

#[local] Open Scope Z_scope.

(** ** Environment *)

(** What becomes of a file that is opened for writing. *)
Inductive write_result : Type := NotOpened | NotClosed | Written.

(** [dir_ok]: a directory is there or can be made; [writes]: by path; [updates]: an
    UPDATE for this row is carried out, as no other connection holds the database;
    [clock]: [time(NULL)] for the n-th path of a run; [now]: [datetime('now')]. *)
Record Env : Type := MkEnv {
  dir_ok : cstr → bool;
  writes : cstr → write_result;
  updates : Z → bool;
  clock : nat → Z;
  now : cstr
}.

Inductive file_op : Type :=
  | Write (path text : cstr)
  | Unlink (path : cstr)
  | Rename (from to : cstr).

(** ** Texts *)

(** src/fido_netmail.c:23-30 (fido_copy) *)
Definition fido_copy (cap : nat) (src : cstr) : cstr := take (cap - 1) src.

Definition no_returns (t : cstr) : cstr := filter (λ c, c ≠ 13) t.

(** src/fido_netmail.c:32-41 (write_body) *)
Definition write_body (b : cstr) : cstr := no_returns b ++ [10].

(** [%d:%d/%d.%d] *)
Definition address_text (z n nd p : Z) : cstr :=
  fmt_d z ++ lit ":" ++ fmt_d n ++ lit "/" ++ fmt_d nd ++ lit "." ++ fmt_d p.

Definition header (field value : cstr) : cstr := field ++ value ++ [10].

(** include/bbs_msg_defs.h:34-34 (NET_ATTR_SENT) *)
Definition NET_ATTR_SENT : Z := 8.

(** src/fido_netmail.c:43-60 (write_netmail_file) *)
Definition netmail_text (m : DbFidoNetmail) : cstr :=
  lit "MUTINEER-FTN-NETMAIL 1" ++ [10]
  ++ header (lit "Message-ID: ") (fmt_d (nm_id m))
  ++ header (lit "From: ") (nm_from m ++ lit " <" ++ address_text (from_zone m) (from_net m) (from_node m) (from_point m) ++ lit ">")
  ++ header (lit "To: ") (nm_to m ++ lit " <" ++ address_text (to_zone m) (to_net m) (to_node m) (to_point m) ++ lit ">")
  ++ header (lit "Subject: ") (nm_subject m)
  ++ header (lit "Attr: ") (fmt_d (Z.lor (nm_attr m) NET_ATTR_SENT))
  ++ header (lit "Created: ") (nm_created m)
  ++ [10] ++ write_body (nm_body m).

(** src/fido_netmail.c:122-149 (write_echomail_file) *)
Definition echomail_text (el : DbFidoEcholink) (aka : DbFidoAka) (m : DbMessage) : cstr :=
  lit "MUTINEER-FTN-ECHOMAIL 1" ++ [10]
  ++ header (lit "Message-ID: ") (fmt_d (msg_id m))
  ++ header (lit "Area: ") (echotag el)
  ++ header (lit "From: ")
       ((if bool_decide (from_name m = []) then user_handle m else from_name m) ++ lit " <"
        ++ address_text (zone aka) (net aka) (node aka) (point aka) ++ lit ">")
  ++ header (lit "To: ") (if bool_decide (to_name m = []) then lit "All" else to_name m)
  ++ header (lit "Subject: ") (subject m)
  ++ (if bool_decide (link_origin el = []) then [] else header (lit "Origin: ") (link_origin el))
  ++ header (lit "Created: ") (created_at m)
  ++ [10] ++ no_returns (body m) ++ [10] ++ lit "--- Mutineer BBS" ++ [10].

(** ** Export of netmail *)

(** include/bbs_fido_netmail.h:5-11 (FidoNetmailExportResult) *)
Record FidoNetmailExportResult : Type := MkNetmailResult {
  nr_scanned : Z;
  nr_exported : Z;
  nr_failed : Z;
  last_path : cstr
}.

(** One message; the database, what was done to files, exported or failed.
    src/fido_netmail.c:80-110 (fido_netmail_export_pending) *)
Definition export_netmail (env : Env) (out_dir : cstr) (dry_run : bool) (i : nat) (m : DbFidoNetmail)
    (st : MailDb * list file_op * FidoNetmailExportResult) : MailDb * list file_op * FidoNetmailExportResult :=
  let '(db, ops, r) := st in
  let leaf := take 95 (lit "netmail_" ++ fmt_0d 8 (nm_id m) ++ lit "_" ++ fmt_d (clock env i) ++ lit ".pkt") in
  let path := path_join out_dir leaf 256 in
  let exported := MkNetmailResult (nr_scanned r) (nr_exported r + 1) (nr_failed r) (fido_copy 256 path) in
  let failed := MkNetmailResult (nr_scanned r) (nr_exported r) (nr_failed r + 1) (last_path r) in
  if dry_run then (db, ops, exported)
  else
    match writes env path with
    | NotOpened => (db, ops ++ [Unlink path], failed)
    | NotClosed => (db, ops ++ [Write path (netmail_text m); Unlink path], failed)
    | Written =>
        let ops := ops ++ [Write path (netmail_text m)] in
        let '(added, db) := db_mail_packet_add 1 (lit "fido-netmail") path db in
        if negb added then (db, ops ++ [Unlink path], failed)
        else
          let '(sent, db) := if updates env (nm_id m) then db_fido_netmail_mark_sent (now env) (nm_id m) db else (false, db) in
          if sent : bool then (db, ops, exported) else (db, ops ++ [Unlink path], failed)
    end.

Fixpoint export_netmails (env : Env) (out_dir : cstr) (dry_run : bool) (i : nat) (l : list DbFidoNetmail)
    (st : MailDb * list file_op * FidoNetmailExportResult) : MailDb * list file_op * FidoNetmailExportResult :=
  match l with
  | [] => st
  | m :: l => export_netmails env out_dir dry_run (S i) l (export_netmail env out_dir dry_run i m st)
  end.

(** [None] when the directory cannot be used; at most 100 messages. The answer of
    the function is whether none failed.
    src/fido_netmail.c:62-113 (fido_netmail_export_pending) *)
Definition fido_netmail_export_pending (env : Env) (out_dir : cstr) (limit : Z) (dry_run : bool) (db : MailDb) :
    option (MailDb * list file_op * FidoNetmailExportResult) :=
  let limit := if limit <=? 0 then 100 else limit in
  if negb dry_run && (bool_decide (out_dir = []) || negb (dir_ok env out_dir)) then None
  else
    let mails := db_fido_netmail_list (lit "pending") (Z.to_nat (Z.min limit 100)) db in
    Some (export_netmails env out_dir dry_run 0 mails (db, [], MkNetmailResult (zlen mails) 0 0 [])).

(** ** Export of echomail *)

(** include/bbs_fido_netmail.h:13-18 (FidoEchomailExportResult) *)
Record FidoEchomailExportResult : Type := MkEchoResult {
  scanned : Z;
  exported : Z;
  failed : Z
}.

(** The database, what was done to files, the result, and the number of paths. *)
Record export_state : Type := MkExport {
  ex_db : MailDb;
  ex_ops : list file_op;
  ex_result : FidoEchomailExportResult;
  ex_paths : nat
}.

Definition one_exported (r : FidoEchomailExportResult) := MkEchoResult (scanned r) (exported r + 1) (failed r).
Definition one_failed (r : FidoEchomailExportResult) := MkEchoResult (scanned r) (exported r) (failed r + 1).

(** src/fido_netmail.c:181-185 (fido_echomail_export_pending) *)
Definition echomail_path (env : Env) (out_dir tag : cstr) (id : Z) (i : nat) : cstr :=
  path_join out_dir
    (take 159 (lit "echo_" ++ take 64 tag ++ lit "_" ++ fmt_0d 8 id ++ lit "_" ++ fmt_d (clock env i) ++ lit ".pkt")) 512.

(** One message of a link. A file that cannot be closed stays.
    src/fido_netmail.c:174-208 (fido_echomail_export_pending) *)
Definition export_message (env : Env) (out_dir : cstr) (dry_run : bool) (el : DbFidoEcholink) (aka : DbFidoAka)
    (st : export_state) (id : Z) : export_state :=
  let '(MkExport db ops r n) := st in
  match db_message_get id db with
  | None => MkExport db ops (one_failed r) n
  | Some m =>
      let path := echomail_path env out_dir (echotag el) (msg_id m) n in
      if dry_run then MkExport db ops (one_exported r) (S n)
      else
        match writes env path with
        | NotOpened => MkExport db ops (one_failed r) (S n)
        | NotClosed => MkExport db (ops ++ [Write path (echomail_text el aka m)]) (one_failed r) (S n)
        | Written =>
            let ops := ops ++ [Write path (echomail_text el aka m)] in
            if updates env (msg_id m) then
              let db := snd (db_fido_echo_queue_mark_exported (now env) (link_id el) (msg_id m) db) in
              let db := if high_water el <? msg_id m then
                          snd (db_fido_echolink_update_highwater (link_id el) (msg_id m) db) else db in
              MkExport db ops (one_exported r) (S n)
            else MkExport db (ops ++ [Unlink path]) (one_failed r) (S n)
        end
  end.

Definition no_aka : DbFidoAka := MkAka 0 0 0 0 0 [] 0.

(** The links in turn, while fewer than [limit] messages were tried.
    src/fido_netmail.c:163-209 (fido_echomail_export_pending) *)
Fixpoint export_links (env : Env) (out_dir : cstr) (limit : Z) (dry_run : bool) (l : list DbFidoEcholink)
    (st : export_state) : export_state :=
  match l with
  | [] => st
  | el :: l =>
      let r := ex_result st in
      if exported r + failed r <? limit then
        let aka := default no_aka (db_fido_aka_get (link_aka el) (ex_db st)) in
        let remaining := Z.min 200 (limit - exported r - failed r) in
        let ids := db_fido_echo_queue_pending (link_id el) (Z.to_nat remaining) (ex_db st) in
        let st := MkExport (ex_db st) (ex_ops st) (MkEchoResult (scanned r + zlen ids) (exported r) (failed r)) (ex_paths st) in
        export_links env out_dir limit dry_run l (fold_left (export_message env out_dir dry_run el aka) ids st)
      else st
  end.

(** src/fido_netmail.c:151-212 (fido_echomail_export_pending) *)
Definition fido_echomail_export_pending (env : Env) (out_dir : cstr) (limit : Z) (dry_run : bool) (db : MailDb) :
    option export_state :=
  let limit := if limit <=? 0 then 200 else limit in
  if negb dry_run && (bool_decide (out_dir = []) || negb (dir_ok env out_dir)) then None
  else Some (export_links env out_dir limit dry_run (db_fido_echolink_list 32 db)
               (MkExport db [] (MkEchoResult 0 0 0) 0)).

(** ** Import of echomail *)

(** src/fido_netmail.c:222-227 (trim_nl) *)
Fixpoint trim_nl (s : cstr) : cstr :=
  match s with
  | [] => []
  | c :: s => match trim_nl s with
              | [] => if (c =? 10) || (c =? 13) then [] else [c]
              | t => c :: t
              end
  end.

(** The headers of a packet and its body. *)
Record echo_packet : Type := MkPacket {
  pk_tag : cstr;
  pk_from : cstr;
  pk_to : cstr;
  pk_subject : cstr;
  pk_created : cstr;
  pk_body : cstr
}.

(** Blanks at the end.
    src/fido_netmail.c:284-285 (fido_echomail_import) *)
Fixpoint trim_blanks (s : cstr) : cstr :=
  match s with
  | [] => []
  | c :: s => match trim_blanks s with [] => if c =? 32 then [] else [c] | t => c :: t end
  end.

Definition after_prefix (p s : cstr) : option cstr := if has_prefix p s then Some (drop (length p) s) else None.

(** src/fido_netmail.c:276-292 (fido_echomail_import) *)
Definition read_header (line : cstr) (p : echo_packet) : echo_packet :=
  match after_prefix (lit "Area: ") line with
  | Some v => MkPacket (fido_copy 64 v) (pk_from p) (pk_to p) (pk_subject p) (pk_created p) (pk_body p)
  | None =>
  match after_prefix (lit "From: ") line with
  | Some v =>
      let n := match cut (ch "<") v with Some (n, _) => n | None => v end in
      MkPacket (pk_tag p) (trim_blanks (fido_copy 64 n)) (pk_to p) (pk_subject p) (pk_created p) (pk_body p)
  | None =>
  match after_prefix (lit "To: ") line with
  | Some v => MkPacket (pk_tag p) (pk_from p) (fido_copy 64 v) (pk_subject p) (pk_created p) (pk_body p)
  | None =>
  match after_prefix (lit "Subject: ") line with
  | Some v => MkPacket (pk_tag p) (pk_from p) (pk_to p) (fido_copy 80 v) (pk_created p) (pk_body p)
  | None =>
  match after_prefix (lit "Created: ") line with
  | Some v => MkPacket (pk_tag p) (pk_from p) (pk_to p) (pk_subject p) (fido_copy 32 v) (pk_body p)
  | None => p
  end end end end end.

(** The lines up to the first empty one; the rest.
    src/fido_netmail.c:273-293 (fido_echomail_import) *)
Fixpoint read_headers (ls : list cstr) (p : echo_packet) : echo_packet * list cstr :=
  match ls with
  | [] => (p, [])
  | l :: ls => match trim_nl l with [] => (p, ls) | t => read_headers ls (read_header t p) end
  end.

(** Tearline, SEEN-BY and PATH.
    src/fido_netmail.c:299-302 (fido_echomail_import) *)
Definition is_control_line (l : cstr) : bool :=
  has_prefix (lit "---") l || has_prefix (lit "SEEN-BY:") l || has_prefix (1 :: lit "PATH:") l.

(** Lines as far as they fit; a line that does not fit is left out, a later one may
    fit again.
    src/fido_netmail.c:296-309 (fido_echomail_import) *)
Fixpoint read_body (ls : list cstr) (b : cstr) : cstr :=
  match ls with
  | [] => b
  | l :: ls =>
      if (length b <? 2046)%nat then
        if is_control_line l then read_body ls b
        else read_body ls (if (length b + length l <? 2047)%nat then b ++ l else b)
      else b
  end.

(** [None] for a file without the first line of an echomail packet.
    src/fido_netmail.c:258-310 (fido_echomail_import) *)
Definition parse_packet (content : cstr) : option echo_packet :=
  match read_lines 511 [] content with
  | first :: ls =>
      if has_prefix (lit "MUTINEER-FTN-ECHOMAIL 1") first then
        let '(p, ls) := read_headers ls (MkPacket [] [] [] [] [] []) in
        Some (MkPacket (pk_tag p) (pk_from p) (pk_to p) (pk_subject p) (pk_created p) (read_body ls []))
      else None
  | [] => None
  end.

(** The area of the link with the tag, whatever its case; 0 when there is none.
    src/fido_netmail.c:321-329 (fido_echomail_import) *)
Definition linked_area (tag : cstr) (l : list DbFidoEcholink) : Z :=
  match List.find (λ el, bool_decide (map tolower (echotag el) = map tolower tag)) l with
  | Some el => link_area el
  | None => 0
  end.

(** src/fido_netmail.c:341-349 (fido_echomail_import) *)
Definition packet_message (area : Z) (p : echo_packet) : DbMessage :=
  MkMessage 0 area 0 0 0 0 (lit "FidoNet")
    (fido_copy 64 (if bool_decide (pk_from p = []) then lit "FidoNet" else pk_from p))
    (fido_copy 64 (if bool_decide (pk_to p = []) then lit "All" else pk_to p))
    (fido_copy 80 (pk_subject p)) (fido_copy 2048 (pk_body p)) [] 0 0 [] [].

(** include/bbs_fido_netmail.h:20-26 (FidoEchomailImportResult) *)
Record FidoEchomailImportResult : Type := MkImportResult {
  im_scanned : Z;
  imported : Z;
  im_failed : Z;
  duplicate : Z
}.

(** echo_....pkt *)
Definition is_echo_file (n : cstr) : bool :=
  has_prefix (lit "echo_") n && bool_decide (drop (length n - 4) n = lit ".pkt").

(** The message of one file is posted or not.
    src/fido_netmail.c:258-361 (fido_echomail_import) *)
Definition post_packet (now : cstr) (content : cstr) (db : MailDb) : bool * MailDb :=
  match parse_packet content with
  | None => (false, db)
  | Some p =>
      if bool_decide (pk_tag p = []) || bool_decide (pk_subject p = []) then (false, db)
      else
        let area := linked_area (pk_tag p) (db_fido_echolink_list 32 db) in
        if area =? 0 then (false, db) else db_message_post_ex now (packet_message area p) db
  end.

(** One entry of the directory. The file goes to done/ or to bad/.
    src/fido_netmail.c:244-362 (fido_echomail_import) *)
Definition import_file (now in_dir : cstr) (file : cstr → option cstr)
    (st : MailDb * list file_op * FidoEchomailImportResult) (n : cstr) :
    MailDb * list file_op * FidoEchomailImportResult :=
  let '(db, ops, r) := st in
  let path := path_join in_dir n 512 in
  if negb (is_echo_file n) then st
  else
    match file path with
    | None => st
    | Some content =>
        let '(posted, db) := post_packet now content db in
        if posted : bool then
          (db, ops ++ [Rename path (path_join (path_join in_dir (lit "done") 512) n 512)],
           MkImportResult (im_scanned r + 1) (imported r + 1) (im_failed r) (duplicate r))
        else
          (db, ops ++ [Rename path (path_join (path_join in_dir (lit "bad") 512) n 512)],
           MkImportResult (im_scanned r + 1) (imported r) (im_failed r + 1) (duplicate r))
    end.

(** [entries] are the names in the order [readdir] gives them, [file] their
    contents.
    src/fido_netmail.c:229-366 (fido_echomail_import) *)
Definition fido_echomail_import (now in_dir : cstr) (entries : list cstr) (file : cstr → option cstr) (db : MailDb) :
    MailDb * list file_op * FidoEchomailImportResult :=
  fold_left (import_file now in_dir file) entries (db, [], MkImportResult 0 0 0 0).
