(* ===== verification/FidoSpec.v ===== *)
(** What the exchange of FidoNet mail promises (src/fido_netmail.c): a packet reads
    as the message it was written from, a run of the export writes every queued
    message once and rounds of it empty the queue. And what it does not do: with
    the database's foreign keys no import succeeds. *)

From S2P Require Import Prelude CLib MailDb MailDbSpec Fido.
From stdpp Require Import relations.

#[local] Open Scope Z_scope.

(** ** Packets read back *)

(** A character of a header. *)
Definition header_char (c : Z) : Prop := c ≠ 0 ∧ c ≠ 10 ∧ c ≠ 13.
Definition value (cap : nat) (v : cstr) : Prop := Forall header_char v ∧ (length v < cap)%nat.

Lemma trim_nl_end v : trim_nl (v ++ [10]) = trim_nl v.
Proof. induction v as [|c v IH]; [done |]. cbn. by rewrite IH. Qed.

Lemma trim_nl_value v : Forall header_char v → trim_nl v = v.
Proof.
  induction 1 as [|c v (_ & H1 & H2) _ IH]; [done |]. cbn. rewrite IH.
  rewrite (proj2 (Z.eqb_neq c 10)), (proj2 (Z.eqb_neq c 13)) by done. by destruct v.
Qed.

Lemma trim_blanks_end v : last v ≠ Some 32 → trim_blanks v = v.
Proof.
  induction v as [|c v IH]; [done |]. intros H. cbn. destruct v as [|d v].
  - cbn. rewrite (proj2 (Z.eqb_neq c 32)); [done |]. cbn in H. congruence.
  - by rewrite IH.
Qed.

Lemma trim_blanks_blank v : last v ≠ Some 32 → trim_blanks (v ++ [32]) = v.
Proof.
  induction v as [|c v IH]; [done |]. intros H. cbn [app trim_blanks]. destruct v as [|d v].
  - cbn. rewrite (proj2 (Z.eqb_neq c 32)); [done |]. cbn in H. congruence.
  - by rewrite IH.
Qed.

Lemma after_prefix_app p v : after_prefix p (p ++ v) = Some v.
Proof. unfold after_prefix. rewrite (proj2 (has_prefix_app p (p ++ v))) by by eexists. by rewrite drop_app_length. Qed.

Lemma fido_copy_value cap v : value cap v → fido_copy cap v = v.
Proof. intros [_ H]. apply take_ge. lia. Qed.

(** The pieces between line feeds. *)
Fixpoint pieces (t : cstr) : list cstr :=
  match t with
  | [] => [[]]
  | c :: t => if c =? 10 then [] :: pieces t
              else match pieces t with p :: ps => (c :: p) :: ps | [] => [[c]] end
  end.

Lemma pieces_cons t : ∃ p ps, pieces t = p :: ps.
Proof.
  induction t as [|c t (p & ps & E)]; [by do 2 eexists |]. cbn. destruct (c =? 10); [by do 2 eexists |].
  rewrite E. by do 2 eexists.
Qed.

Lemma pieces_file t : t ++ [10] = file_of (pieces t).
Proof.
  induction t as [|c t IH]; [done |]. cbn [app pieces]. rewrite IH.
  destruct (Z.eqb_spec c 10) as [-> | Nc]; [done |].
  destruct (pieces_cons t) as (p & ps & ->). done.
Qed.

(** A body that survives: no NUL, lines of the reader's size, none of them one of
    those a gateway strips, and not longer than a message can be. *)
Definition body_ok (t : cstr) : Prop :=
  Forall (λ p, file_line p ∧ is_control_line (p ++ [10]) = false) (pieces t) ∧ (length t <= 2045)%nat.

Lemma read_body_pieces ps : ∀ b rest,
  Forall (λ p, is_control_line (p ++ [10]) = false) ps →
  (length b + length (file_of ps) <= 2046)%nat →
  read_body (map (λ l, l ++ [10]) ps ++ rest) b = read_body rest (b ++ file_of ps).
Proof.
  unfold file_of. induction ps as [|p ps IH]; intros b rest Hc Hl; [cbn; by rewrite app_nil_r |].
  apply Forall_cons in Hc as [Hp Hc]. cbn [map app concat read_body] in *. rewrite !length_app in Hl. cbn [length] in Hl.
  rewrite (proj2 (Nat.ltb_lt (length b) 2046)), Hp by lia.
  rewrite (proj2 (Nat.ltb_lt _ 2047)) by (rewrite length_app; cbn; lia).
  rewrite IH by (done || rewrite !length_app; cbn; lia). by rewrite <- app_assoc.
Qed.

Definition sender (m : DbMessage) : cstr := if bool_decide (from_name m = []) then user_handle m else from_name m.
Definition recipient (m : DbMessage) : cstr := if bool_decide (to_name m = []) then lit "All" else to_name m.

(** Texts a packet can carry. *)
Record packet_ok (el : DbFidoEcholink) (aka : DbFidoAka) (m : DbMessage) : Prop := {
  packet_numbers : Forall (λ x, 0 <= x < 2 ^ 31) [msg_id m; zone aka; net aka; node aka; point aka];
  packet_tag : value 64 (echotag el);
  packet_from : value 64 (sender m) ∧ (ch "<" ∉ sender m) ∧ last (sender m) ≠ Some 32;
  packet_to : value 64 (recipient m);
  packet_subject : value 80 (subject m);
  packet_origin : value 80 (link_origin el);
  packet_created : value 32 (created_at m);
  packet_body : body_ok (no_returns (body m))
}.

Lemma digits_header z : 0 <= z < 2 ^ 31 → Forall header_char (fmt_d z).
Proof.
  intros Hz. unfold fmt_d. rewrite (proj2 (Z.ltb_ge z 0)) by lia.
  eapply Forall_impl; [apply dec_of_nonneg_digits; lia |]. intros c Hc. unfold isdigit in Hc. unfold header_char. lia.
Qed.

Lemma closed_header s : forallb (λ c, negb (c =? 0) && negb (c =? 10) && negb (c =? 13)) s = true → Forall header_char s.
Proof.
  rewrite forallb_forall. intros H. apply Forall_forall. intros c Hc%list_elem_of_In.
  apply H in Hc. unfold header_char. lia.
Qed.

Definition sender_line (aka : DbFidoAka) (m : DbMessage) : cstr :=
  sender m ++ lit " <" ++ address_text (zone aka) (net aka) (node aka) (point aka) ++ lit ">".

(** The lines of a packet. *)
Definition packet_lines (el : DbFidoEcholink) (aka : DbFidoAka) (m : DbMessage) : list cstr :=
  [lit "Message-ID: " ++ fmt_d (msg_id m); lit "Area: " ++ echotag el; lit "From: " ++ sender_line aka m;
   lit "To: " ++ recipient m; lit "Subject: " ++ subject m]
  ++ (if bool_decide (link_origin el = []) then [] else [lit "Origin: " ++ link_origin el])
  ++ [lit "Created: " ++ created_at m].

Definition tearline : cstr := lit "--- Mutineer BBS".

Lemma echomail_lines el aka m :
  echomail_text el aka m
  = file_of ((lit "MUTINEER-FTN-ECHOMAIL 1" :: packet_lines el aka m) ++ [] :: pieces (no_returns (body m)) ++ [tearline]).
Proof.
  assert (∀ a b, file_of (a ++ b) = file_of a ++ file_of b) as Happ
    by (intros a b; unfold file_of; by rewrite map_app, concat_app).
  assert (∀ l r, file_of (l :: r) = l ++ [10] ++ file_of r) as Hcons
    by (intros l r; unfold file_of; cbn [map concat]; by rewrite <- app_assoc).
  unfold packet_lines. cbn [app]. repeat first [rewrite Happ | rewrite Hcons]. rewrite <- pieces_file.
  assert (file_of (if bool_decide (link_origin el = []) then [] else [lit "Origin: " ++ link_origin el])
    = (if bool_decide (link_origin el = []) then [] else header (lit "Origin: ") (link_origin el))) as ->.
  { case_bool_decide; [done |]. unfold file_of, header. cbn [map concat]. by rewrite app_nil_r, <- app_assoc. }
  unfold echomail_text, header, sender_line, sender, recipient, tearline.
  cbn [app]. rewrite <- !app_assoc. reflexivity.
Qed.

Ltac header_text :=
  first [done | apply Forall_app; split; [by apply closed_header | first [done | by apply digits_header]]].

(** Reading one header line. *)
Lemma read_headers_line l rest p :
  Forall header_char l → l ≠ [] → read_headers ((l ++ [10]) :: rest) p = read_headers rest (read_header l p).
Proof.
  intros Hl Nl. cbn [read_headers]. rewrite trim_nl_end, trim_nl_value by done. by destruct l.
Qed.

Lemma sender_line_chars aka m :
  Forall header_char (sender m) → Forall (λ x, 0 <= x < 2 ^ 31) [zone aka; net aka; node aka; point aka] →
  Forall header_char (sender_line aka m) ∧ (length (sender_line aka m) <= length (sender m) + 50)%nat.
Proof.
  intros Hs Hn. rewrite !Forall_cons in Hn. destruct Hn as (Hz & Hn & Hd & Hp & _). unfold sender_line, address_text. split.
  - repeat (apply Forall_app; split); try done; try by apply digits_header. all: by apply closed_header.
  - rewrite !length_app. pose proof (fmt_d_length _ Hz). pose proof (fmt_d_length _ Hn).
    pose proof (fmt_d_length _ Hd). pose proof (fmt_d_length _ Hp). cbn [lit length]. lia.
Qed.

(** A prefix that is not the one of the line. *)
Lemma read_sender aka m p :
  Forall header_char (sender m) → (length (sender m) < 64)%nat → (ch "<" ∉ sender m) → last (sender m) ≠ Some 32 →
  read_header (lit "From: " ++ sender_line aka m) p
  = MkPacket (pk_tag p) (sender m) (pk_to p) (pk_subject p) (pk_created p) (pk_body p).
Proof.
  intros Hs Hl Hc Hb. unfold read_header.
  change (after_prefix (lit "Area: ") (lit "From: " ++ sender_line aka m)) with (@None cstr). cbn iota.
  rewrite after_prefix_app. unfold sender_line at 1.
  assert (sender m ++ lit " <" ++ address_text (zone aka) (net aka) (node aka) (point aka) ++ lit ">"
    = (sender m ++ [32]) ++ ch "<" :: address_text (zone aka) (net aka) (node aka) (point aka) ++ lit ">") as ->
    by by rewrite <- app_assoc.
  rewrite cut_app.
  - f_equal. unfold fido_copy. destruct (decide (length (sender m) = 63%nat)) as [E | E].
    + change (64 - 1)%nat with 63%nat. rewrite <- E, take_app_length. by apply trim_blanks_end.
    + rewrite take_ge by (rewrite length_app; cbn; lia). by apply trim_blanks_blank.
  - intros [H | H]%elem_of_app; [done |]. by apply list_elem_of_singleton in H.
Qed.

Lemma packet_headers el aka m rest :
  packet_ok el aka m →
  read_headers (map (λ l, l ++ [10]) (packet_lines el aka m ++ [[]]) ++ rest) (MkPacket [] [] [] [] [] [])
  = (MkPacket (echotag el) (sender m) (recipient m) (subject m) (created_at m) [], rest).
Proof.
  intros [Hn [Ht1 Ht2] ([Hf1 Hf2] & Hf3 & Hf4) [Hr1 Hr2] [Hs1 Hs2] [Ho1 Ho2] [Hc1 Hc2] _].
  apply Forall_cons in Hn as [Hid Hn]. destruct (sender_line_chars aka m Hf1 Hn) as [Hsl _].
  unfold packet_lines. rewrite !map_app, <- !app_assoc. cbn [map app].
  rewrite read_headers_line by header_text.
  change (read_header (lit "Message-ID: " ++ fmt_d (msg_id m)) (MkPacket [] [] [] [] [] [])) with (MkPacket [] [] [] [] [] []).
  rewrite read_headers_line by header_text.
  unfold read_header at 1. rewrite after_prefix_app, fido_copy_value by done.
  rewrite read_headers_line by header_text.
  rewrite read_sender by done.
  rewrite read_headers_line by header_text.
  unfold read_header at 1.
  change (after_prefix (lit "Area: ") (lit "To: " ++ recipient m)) with (@None cstr).
  change (after_prefix (lit "From: ") (lit "To: " ++ recipient m)) with (@None cstr). cbn iota.
  rewrite after_prefix_app, fido_copy_value by done.
  rewrite read_headers_line by header_text.
  unfold read_header at 1.
  change (after_prefix (lit "Area: ") (lit "Subject: " ++ subject m)) with (@None cstr).
  change (after_prefix (lit "From: ") (lit "Subject: " ++ subject m)) with (@None cstr).
  change (after_prefix (lit "To: ") (lit "Subject: " ++ subject m)) with (@None cstr). cbn iota.
  rewrite after_prefix_app, fido_copy_value by done. cbn [pk_tag pk_from pk_to pk_subject pk_created pk_body].
  set (p := MkPacket (echotag el) (sender m) (recipient m) (subject m) [] []).
  assert (∀ rest', read_headers (map (λ l, l ++ [10]) (if bool_decide (link_origin el = []) then [] else [lit "Origin: " ++ link_origin el]) ++ rest') p
    = read_headers rest' p) as ->.
  { intros rest'. case_bool_decide; [done |]. cbn [map app].
    rewrite read_headers_line by header_text. reflexivity. }
  rewrite read_headers_line by header_text.
  unfold read_header at 1.
  change (after_prefix (lit "Area: ") (lit "Created: " ++ created_at m)) with (@None cstr).
  change (after_prefix (lit "From: ") (lit "Created: " ++ created_at m)) with (@None cstr).
  change (after_prefix (lit "To: ") (lit "Created: " ++ created_at m)) with (@None cstr).
  change (after_prefix (lit "Subject: ") (lit "Created: " ++ created_at m)) with (@None cstr). cbn iota.
  rewrite after_prefix_app, fido_copy_value by done. reflexivity.
Qed.

Lemma header_line l : Forall header_char l → (length l <= 510)%nat → file_line l.
Proof. intros Hl Hn. split; [| done]. eapply Forall_impl; [exact Hl |]. intros c (? & ? & _). done. Qed.

Lemma packet_file_lines el aka m :
  packet_ok el aka m →
  Forall file_line ((lit "MUTINEER-FTN-ECHOMAIL 1" :: packet_lines el aka m) ++ [] :: pieces (no_returns (body m)) ++ [tearline]).
Proof.
  intros [Hn [Ht1 Ht2] ([Hf1 Hf2] & Hf3 & Hf4) [Hr1 Hr2] [Hs1 Hs2] [Ho1 Ho2] [Hc1 Hc2] [Hb _]].
  apply Forall_cons in Hn as [Hid Hn]. destruct (sender_line_chars aka m Hf1 Hn) as [Hsl Hsn].
  pose proof (fmt_d_length _ Hid) as Hidn.
  assert (∀ (w : String.string) v, Forall header_char (lit w) → Forall header_char v → (length (lit w) <= 12)%nat →
    (length v <= 498)%nat → file_line (lit w ++ v)) as Hw.
  { intros w v ? ? ? ?. apply header_line; [by apply Forall_app | rewrite length_app; lia]. }
  unfold packet_lines. rewrite !Forall_app, !Forall_cons, !Forall_app, !Forall_cons. repeat split; try apply Forall_nil_2.
  all: try (apply Hw; [by apply closed_header | first [done | by apply digits_header] | cbn; lia | lia]).
  all: try (apply header_line; [by apply closed_header | cbn; lia]).
  - case_bool_decide; [constructor |]. apply Forall_singleton.
    apply Hw; [by apply closed_header | done | cbn; lia | lia].
  - eapply Forall_impl; [exact Hb |]. by intros ? [].
Qed.

(** C21. A packet that the export writes reads back as its message: tag, sender,
    recipient (All for none), subject, date, and the text without carriage returns
    and with a line feed at its end. This is for messages that the format can carry
    ([packet_ok]): header fields have no NUL, line feed or carriage return and fit
    the fields of the reader (63 bytes for the tag and the names, 79 for the subject
    and the origin, 31 for the date), the sender has no [<] and no blank at its end,
    numbers are not negative ints; lines of the text have at most 510 bytes, none
    begins with ---, SEEN-BY: or PATH: behind a control-A, which the reader drops as
    it does in quoted text (fido_netmail.c:299), and the whole has at most 2045
    bytes, behind which the reader cuts (fido_netmail.c:296). *)
Theorem packets_read_back (el : DbFidoEcholink) (aka : DbFidoAka) (m : DbMessage) :
  packet_ok el aka m →
  parse_packet (echomail_text el aka m)
  = Some (MkPacket (echotag el) (sender m) (recipient m) (subject m) (created_at m) (no_returns (body m) ++ [10])).
Proof.
  intros Hok. unfold parse_packet. rewrite echomail_lines, read_file by by apply packet_file_lines.
  rewrite map_app. cbn [map app]. rewrite (proj2 (has_prefix_app (lit "MUTINEER-FTN-ECHOMAIL 1") _)) by by eexists.
  rewrite (cons_middle [10]), app_assoc.
  change ([[10]] : list cstr) with (map (λ l : cstr, l ++ [10]) [[]]).
  rewrite <- map_app, packet_headers, map_app by done. destruct (packet_body el aka m Hok) as [Hb Hl].
  assert (file_of (pieces (no_returns (body m))) = no_returns (body m) ++ [10]) as E by by rewrite pieces_file.
  rewrite read_body_pieces.
  - cbn. rewrite E. by case_match.
  - eapply Forall_impl; [exact Hb | by intros ? []].
  - rewrite E, length_app. cbn. lia.
Qed.

(** ** Import *)

(** What the import does with a file it accepts. *)
Definition to_bad (in_dir n : cstr) : file_op :=
  Rename (path_join in_dir n 512) (path_join (path_join in_dir (lit "bad") 512) n 512).

(** The message of a packet has no user, no recipient and answers nothing. *)
Lemma packets_are_refused now content db : db_ok db → post_packet now content db = (false, db).
Proof.
  intros Hok. unfold post_packet. destruct (parse_packet content) as [p |]; [| done].
  case_match; [done |]. case_match; [done |]. apply zero_is_no_reference; [done | by left].
Qed.

(** The names the import takes up: packets that can be read. *)
Definition taken (in_dir : cstr) (file : cstr → option cstr) (n : cstr) : Prop :=
  is_echo_file n = true ∧ is_Some (file (path_join in_dir n 512)).

#[global] Instance taken_dec in_dir file n : Decision (taken in_dir file n).
Proof. unfold taken. apply _. Defined.

Lemma import_one now in_dir file db n ops k :
  db_ok db →
  import_file now in_dir file (db, ops, MkImportResult k 0 k 0) n
  = if decide (taken in_dir file n) then (db, ops ++ [to_bad in_dir n], MkImportResult (k + 1) 0 (k + 1) 0)
    else (db, ops, MkImportResult k 0 k 0).
Proof.
  intros Hok. unfold import_file. case_decide as H.
  - destruct H as [-> [content ->]]. by rewrite packets_are_refused.
  - destruct (is_echo_file n) eqn:E; cbn [negb]; [| done].
    destruct (file _) eqn:F; [| done]. destruct H. split; [done | by rewrite F].
Qed.

(** C22. No echomail is ever imported: the database stays as it is, and every packet that
    can be read is moved to bad/. *)
Theorem nothing_is_imported (now in_dir : cstr) (entries : list cstr) (file : cstr → option cstr) (db : MailDb) :
  db_ok db →
  let l := filter (taken in_dir file) entries in
  fido_echomail_import now in_dir entries file db = (db, map (to_bad in_dir) l, MkImportResult (zlen l) 0 (zlen l) 0).
Proof.
  intros Hok. cbn zeta. unfold fido_echomail_import. set (P := taken in_dir file).
  assert (∀ l ops k, fold_left (import_file now in_dir file) l (db, ops, MkImportResult k 0 k 0)
    = (db, ops ++ map (to_bad in_dir) (filter P l), MkImportResult (k + zlen (filter P l)) 0 (k + zlen (filter P l)) 0)) as H.
  { induction l as [|n l IH]; intros ops k; cbn [fold_left]; [cbn; by rewrite app_nil_r, Z.add_0_r |].
    rewrite import_one, filter_cons by done. subst P. case_decide; rewrite IH; [| done].
    cbn [map]. rewrite <- app_assoc. unfold zlen. cbn [length app]. do 2 f_equal; lia. }
  apply (H entries [] 0).
Qed.

Lemma insert_by_perm {A} le (x : A) l : insert_by le x l ≡ₚ x :: l.
Proof. induction l as [|y l IH]; [done |]. cbn. case_match; [done |]. rewrite IH. apply perm_swap. Qed.

Lemma order_by_perm {A} le (l : list A) : order_by le l ≡ₚ l.
Proof. induction l as [|x l IH]; [done |]. cbn. by rewrite insert_by_perm, IH. Qed.

Lemma pending_in link n db id :
  id ∈ db_fido_echo_queue_pending link n db →
  ∃ q, q ∈ rows (queue db) ∧ q_link q = link ∧ q_message q = id ∧ q_status q = lit "pending".
Proof.
  intros (q & -> & Hq)%list_elem_of_fmap. apply (subseteq_take n) in Hq. rewrite order_by_perm in Hq.
  apply list_elem_of_filter in Hq as [Hp Hq]. unfold is_pending in Hp. apply andb_prop in Hp as [H1 H2%bool_decide_eq_true].
  exists q. split_and!; try done. lia.
Qed.

(** ** Export *)

(** The rows that wait for an export. *)
Definition pending_row (q : queue_row) : Prop := q_status q = lit "pending".
Definition waiting (db : MailDb) : nat := length (filter pending_row (rows (queue db))).

(** What one export of a message does to the tables. *)
Definition marked (env : Env) (el : DbFidoEcholink) (db : MailDb) (id : Z) : MailDb :=
  let db := snd (db_fido_echo_queue_mark_exported (now env) (link_id el) id db) in
  if high_water el <? id then snd (db_fido_echolink_update_highwater (link_id el) id db) else db.

(** Directories and files can be written and the database is not locked. *)
Definition fine (env : Env) : Prop :=
  (∀ d, dir_ok env d = true) ∧ (∀ p, writes env p = Written) ∧ (∀ id, updates env id = true).

Lemma marked_ok env el db id : db_ok db → db_ok (marked env el db id).
Proof. intros Hok. unfold marked. case_match; [apply high_water_ok |]; by apply queue_exported_ok. Qed.

(** The queue after it, and what it leaves alone. *)
Lemma marked_queue env el db id :
  rows (queue (marked env el db id))
  = map (λ q, if (q_link q =? link_id el) && (q_message q =? id) then set_exported (now env) q else q) (rows (queue db)).
Proof. unfold marked. by case_match. Qed.

Lemma marked_rest env el db id :
  users (marked env el db id) = users db ∧ messages (marked env el db id) = messages db ∧
  akas (marked env el db id) = akas db ∧ map link_id (rows (links (marked env el db id))) = map link_id (rows (links db)).
Proof.
  unfold marked. case_match; cbn; repeat split. rewrite map_map. apply map_ext. intros l. unfold with_id. by case_match.
Qed.

Lemma marked_message env el db id id' : db_message_get id' (marked env el db id) = db_message_get id' db.
Proof.
  destruct (marked_rest env el db id) as (Eu & Em & _). unfold db_message_get, message_of. by rewrite Eu, Em.
Qed.

Lemma exported_not_pending now q : ¬ pending_row (set_exported now q).
Proof. done. Qed.

Lemma length_filter_map_le (f : queue_row → queue_row) l :
  (∀ q, pending_row (f q) → pending_row q) → (length (filter pending_row (map f l)) <= length (filter pending_row l))%nat.
Proof.
  intros Hf. induction l as [|q l IH]; [done |]. cbn [map]. rewrite !filter_cons.
  repeat case_decide; cbn [length]; try lia. by destruct H0; apply Hf.
Qed.

Lemma length_filter_map_lt (f : queue_row → queue_row) l q :
  (∀ q, pending_row (f q) → pending_row q) → q ∈ l → pending_row q → ¬ pending_row (f q) →
  (length (filter pending_row (map f l)) < length (filter pending_row l))%nat.
Proof.
  intros Hf Hq Hp Hn. induction l as [|r l IH]; [by apply not_elem_of_nil in Hq |].
  cbn [map]. rewrite !filter_cons. pose proof (length_filter_map_le f l Hf). apply elem_of_cons in Hq as [-> | Hq].
  - rewrite (decide_False (P := pending_row (f r))), decide_True by done. cbn [length]. lia.
  - specialize (IH Hq). repeat case_decide; cbn [length]; try lia. by destruct H1; apply Hf.
Qed.

Lemma marked_waiting env el db id : (waiting (marked env el db id) <= waiting db)%nat.
Proof. unfold waiting. rewrite marked_queue. apply length_filter_map_le. intros q. by case_match. Qed.

(** A message the queue holds for the link does not wait any more. *)
Lemma marked_waits_less env el db n id ids :
  db_fido_echo_queue_pending (link_id el) n db = id :: ids → (waiting (marked env el db id) < waiting db)%nat.
Proof.
  intros E. assert (id ∈ db_fido_echo_queue_pending (link_id el) n db) as Hin by (rewrite E; by left).
  apply pending_in in Hin as (q & Hq & Hl & Hm & Hp). unfold waiting. rewrite marked_queue.
  apply (length_filter_map_lt _ _ q); try done.
  - intros r. by case_match.
  - by rewrite Hl, Hm, !Z.eqb_refl.
Qed.

(** What holds of every run: the tables stay whole, nothing is added to the queue and
    no link goes. *)
Definition kept (db db' : MailDb) : Prop :=
  (db_ok db → db_ok db') ∧ (waiting db' <= waiting db)%nat ∧ length (rows (links db')) = length (rows (links db)).

#[export] Instance kept_preorder : PreOrder kept.
Proof.
  split.
  - intros db. split; [done |]. by split.
  - intros a b c (H1 & H2 & H3) (H4 & H5 & H6). split; [tauto |]. split; [lia | congruence].
Qed.

Lemma export_message_kept env out_dir dry_run el aka st id :
  kept (ex_db st) (ex_db (export_message env out_dir dry_run el aka st id)).
Proof.
  destruct st as [db ops r n]. unfold export_message.
  destruct (db_message_get id db) as [m |]; [| done]. destruct dry_run; [done |].
  destruct (writes env _); [done | done |]. destruct (updates env _); [| done].
  change (kept db (marked env el db (msg_id m))). split; [by apply marked_ok |]. split; [by apply marked_waiting |].
  destruct (marked_rest env el db (msg_id m)) as (_ & _ & _ & E%(f_equal length)). by rewrite !length_map in E.
Qed.

Lemma export_messages_kept env out_dir dry_run el aka ids : ∀ st,
  kept (ex_db st) (ex_db (fold_left (export_message env out_dir dry_run el aka) ids st)).
Proof.
  induction ids as [|id ids IH]; intros st; cbn [fold_left]; [done |].
  etrans; [apply (export_message_kept env out_dir dry_run el aka st id) | apply IH].
Qed.

Lemma export_links_kept env out_dir limit dry_run l : ∀ st,
  kept (ex_db st) (ex_db (export_links env out_dir limit dry_run l st)).
Proof.
  induction l as [|el l IH]; intros st; cbn [export_links]; [done |].
  case_match; [| done]. etrans; [| apply IH].
  match goal with |- context [fold_left (export_message _ _ _ _ ?aka) ?ids ?s] =>
    apply (export_messages_kept env out_dir dry_run el aka ids s) end.
Qed.

Lemma message_id db id m : db_message_get id db = Some m → msg_id m = id.
Proof.
  unfold db_message_get, row_of. destruct (List.find _ _) as [r |] eqn:E; [| done]. intros [= <-].
  apply find_some in E as [_ E]. cbn. lia.
Qed.

(** A message that is there, when nothing fails. *)
Lemma export_message_fine env out_dir el aka db ops r n id m :
  fine env → db_message_get id db = Some m →
  export_message env out_dir false el aka (MkExport db ops r n) id
  = MkExport (marked env el db id)
      (ops ++ [Write (echomail_path env out_dir (echotag el) id n) (echomail_text el aka m)]) (one_exported r) (S n).
Proof.
  intros (_ & Hw & Hu) Hm. unfold export_message. rewrite Hm, Hw, Hu.
  pose proof (message_id db id m Hm) as <-. done.
Qed.

(** One write for each message. *)
Fixpoint packet_writes (env : Env) (out_dir : cstr) (db : MailDb) (n : nat)
    (l : list (DbFidoEcholink * DbFidoAka * Z)) : list file_op :=
  match l with
  | [] => []
  | (el, aka, id) :: l =>
      match db_message_get id db with
      | Some m => Write (echomail_path env out_dir (echotag el) id n) (echomail_text el aka m)
                    :: packet_writes env out_dir db (S n) l
      | None => []
      end
  end.

Lemma packet_writes_same env out_dir db db' l : ∀ n,
  (∀ id, db_message_get id db' = db_message_get id db) →
  packet_writes env out_dir db' n l = packet_writes env out_dir db n l.
Proof. induction l as [|[[el aka] id] l IH]; intros n H; [done |]. cbn. rewrite H. case_match; [by rewrite IH | done]. Qed.

Lemma export_messages_fine env out_dir el aka ids : ∀ db ops r n,
  fine env → Forall (λ id, is_Some (db_message_get id db)) ids →
  fold_left (export_message env out_dir false el aka) ids (MkExport db ops r n)
  = MkExport (fold_left (marked env el) ids db)
      (ops ++ packet_writes env out_dir db n (map (λ id, (el, aka, id)) ids))
      (MkEchoResult (scanned r) (exported r + zlen ids) (failed r)) (n + length ids).
Proof.
  induction ids as [|id ids IH]; intros db ops r n Hf Hm; cbn [fold_left map packet_writes].
  - rewrite app_nil_r, Nat.add_0_r. unfold zlen. cbn. rewrite Z.add_0_r. by destruct r.
  - apply Forall_cons in Hm as [[m Hm] Hms]. rewrite (export_message_fine _ _ _ _ _ _ _ _ _ m) by done.
    rewrite IH; [| done |]; last (eapply Forall_impl; [exact Hms |]; intros i H; by rewrite marked_message).
    rewrite Hm, <- app_assoc. unfold zlen, one_exported. cbn [scanned exported failed length app].
    f_equal; [| f_equal; lia | lia]. do 2 f_equal.
    apply packet_writes_same. intros i. apply marked_message.
Qed.

Lemma nothing_pending link n db q :
  db_fido_echo_queue_pending link n db = [] → (0 < n)%nat → q ∈ rows (queue db) → pending_row q → q_link q ≠ link.
Proof.
  intros E Hn Hq Hp Hl. unfold db_fido_echo_queue_pending in E. apply map_eq_nil in E.
  set (l := filter _ _) in E. assert (q ∈ order_by (λ a b, text_le (queued_at a) (queued_at b)) l) as Hin.
  { rewrite order_by_perm. apply list_elem_of_filter. split; [| done]. unfold is_pending.
    rewrite Hl, Z.eqb_refl. by rewrite bool_decide_eq_true_2. }
  destruct (order_by _ l); [by apply not_elem_of_nil in Hin |]. by destruct n; [lia |].
Qed.

(** The queue refers to messages that are there. *)
Lemma pending_messages db link n :
  db_ok db → Forall (λ id, is_Some (db_message_get id db)) (db_fido_echo_queue_pending link n db).
Proof.
  intros Hok. apply Forall_forall. intros id (q & Hq & _ & <- & _)%pending_in.
  pose proof (ok_queue_refs db Hok) as H. rewrite Forall_forall in H. destruct (H q Hq) as [_ Hm].
  apply in_ids in Hm as (r & Hr & Er). unfold db_message_get, row_of.
  destruct (List.find _ _) as [m |] eqn:F; [by eexists |].
  apply list_elem_of_In in Hr. pose proof (find_none _ _ F r Hr) as Hno. cbn in Hno. lia.
Qed.

(** The database of a run stays whole, and one that has something to export exports it. *)
Lemma links_progress env out_dir limit l : ∀ st el q,
  fine env → db_ok (ex_db st) → exported (ex_result st) + failed (ex_result st) < limit →
  el ∈ l → q ∈ rows (queue (ex_db st)) → q_link q = link_id el → pending_row q →
  (waiting (ex_db (export_links env out_dir limit false l st)) < waiting (ex_db st))%nat.
Proof.
  induction l as [|e l IH]; intros st el q Hf Hok Hlim Hel Hq Hl Hp; [by apply not_elem_of_nil in Hel |].
  cbn [export_links]. rewrite (proj2 (Z.ltb_lt _ _) Hlim).
  set (aka := default no_aka _). set (n := Z.to_nat _). set (st1 := MkExport _ _ _ _).
  destruct (db_fido_echo_queue_pending (link_id e) n (ex_db st)) as [|id ids] eqn:E.
  - cbn [fold_left]. apply elem_of_cons in Hel as [-> | Hel].
    + exfalso. apply (nothing_pending (link_id e) n (ex_db st) q); try done. lia.
    + by apply (IH st1 el q).
  - destruct (export_links_kept env out_dir limit false l
      (fold_left (export_message env out_dir false e aka) (id :: ids) st1)) as (_ & H1 & _).
    assert (waiting (ex_db (fold_left (export_message env out_dir false e aka) (id :: ids) st1)) < waiting (ex_db st))%nat; [| lia].
    cbn [fold_left].
    destruct (export_messages_kept env out_dir false e aka ids (export_message env out_dir false e aka st1 id)) as (_ & H2 & _).
    pose proof (pending_messages (ex_db st) (link_id e) n Hok) as Hm. rewrite E in Hm.
    apply Forall_cons in Hm as [[m Hm] _].
    unfold st1 in *. rewrite (export_message_fine _ _ _ _ _ _ _ _ _ m) in * by done. cbn [ex_db] in *.
    pose proof (marked_waits_less env e (ex_db st) n id ids E). lia.
Qed.

Lemma filter_map_same {A} (P Q : A → Prop) `{∀ x, Decision (P x), ∀ x, Decision (Q x)} (f : A → A) l :
  (∀ x, x ∈ l → P (f x) ↔ Q x) → (∀ x, x ∈ l → Q x → f x = x) → filter P (map f l) = filter Q l.
Proof.
  induction l as [|x l IH]; intros H1 H2; [done |]. cbn [map]. rewrite !filter_cons, IH.
  2: { intros y Hy. apply H1. by right. }
  2: { intros y Hy. apply H2. by right. }
  assert (x ∈ x :: l) as Hx by left. specialize (H1 x Hx). specialize (H2 x Hx).
  repeat case_decide; try tauto. f_equal. tauto.
Qed.

(** ** Rounds *)

(** One run of the export, as the program the scheduler starts makes it. *)
Definition round (env : Env) (out_dir : cstr) (limit : Z) (db : MailDb) : MailDb :=
  match fido_echomail_export_pending env out_dir limit false db with Some st => ex_db st | None => db end.

Fixpoint rounds (envs : nat → Env) (out_dir : cstr) (limit : Z) (n : nat) (db : MailDb) : MailDb :=
  match n with
  | O => db
  | S n => rounds (λ i, envs (S i)) out_dir limit n (round (envs O) out_dir limit db)
  end.

(** The links that a run serves: the first 32 in the order of their tags. *)
Definition served (db : MailDb) : list Z := map link_id (db_fido_echolink_list 32 db).

(** The rows that wait for one of them, and those that wait for another link. *)
Definition due (db : MailDb) : nat := length (filter (λ q, pending_row q ∧ q_link q ∈ served db) (rows (queue db))).
Definition left_out (ids : list Z) (db : MailDb) : list queue_row :=
  filter (λ q, pending_row q ∧ q_link q ∉ ids) (rows (queue db)).

Lemma insert_by_map {A} (le : A → A → bool) f x l :
  (∀ a b, le (f a) (f b) = le a b) → insert_by le (f x) (map f l) = map f (insert_by le x l).
Proof. intros Hf. induction l as [|y l IH]; [done |]. cbn. rewrite Hf. case_match; [done |]. cbn. by rewrite IH. Qed.

Lemma order_by_map {A} (le : A → A → bool) f l :
  (∀ a b, le (f a) (f b) = le a b) → order_by le (map f l) = map f (order_by le l).
Proof. intros Hf. induction l as [|x l IH]; [done |]. unfold order_by in *. cbn. by rewrite IH, insert_by_map. Qed.

Lemma listed_map f n l :
  (∀ x, echotag (f x) = echotag x) → (∀ x, link_id (f x) = link_id x) →
  map link_id (map fetch_link (take n (order_by (λ a b, text_le (echotag a) (echotag b)) (map f l))))
  = map link_id (map fetch_link (take n (order_by (λ a b, text_le (echotag a) (echotag b)) l))).
Proof.
  intros Ht Hi. rewrite order_by_map by (intros; by rewrite !Ht). rewrite firstn_map, !map_map.
  apply map_ext. intros x. apply (Hi x).
Qed.

Lemma served_marked env el db id : served (marked env el db id) = served db.
Proof.
  unfold marked. case_match; [| done].
  apply (listed_map (with_id link_id (link_id el) _)); intros x; unfold with_id; by case_match.
Qed.

(** A run leaves the rows of other links alone. *)
Definition steady (ids : list Z) (db db' : MailDb) : Prop := served db' = served db ∧ left_out ids db' = left_out ids db.

#[export] Instance steady_preorder ids : PreOrder (steady ids).
Proof.
  split; [done |]. intros a b c [H1 H2] [H3 H4]. split; congruence.
Qed.

Lemma marked_steady env el db id ids : link_id el ∈ ids → steady ids db (marked env el db id).
Proof.
  intros Hel. split; [apply served_marked |]. unfold left_out. rewrite marked_queue. apply filter_map_same.
  - intros q _. destruct (Z.eqb_spec (q_link q) (link_id el)) as [E | E]; cbn [andb]; [| done].
    case_match; [| done]. cbn. split; intros [H1 H2]; [by destruct H2; rewrite E | by destruct H2; rewrite E].
  - intros q _ [_ Hl]. destruct (Z.eqb_spec (q_link q) (link_id el)) as [E | E]; [by destruct Hl; rewrite E | done].
Qed.

Lemma export_messages_steady env out_dir dry_run el aka ids l : ∀ st,
  link_id el ∈ ids → steady ids (ex_db st) (ex_db (fold_left (export_message env out_dir dry_run el aka) l st)).
Proof.
  induction l as [|id l IH]; intros st Hel; cbn [fold_left]; [done |]. etrans; [| by apply IH].
  destruct st as [db ops r n]. unfold export_message.
  destruct (db_message_get id db) as [m |]; [| done]. destruct dry_run; [done |].
  destruct (writes env _); [done | done |]. destruct (updates env _); [| done]. by apply marked_steady.
Qed.

Lemma export_links_steady env out_dir limit dry_run ids l : ∀ st,
  Forall (λ el, link_id el ∈ ids) l → steady ids (ex_db st) (ex_db (export_links env out_dir limit dry_run l st)).
Proof.
  induction l as [|el l IH]; intros st Hl; cbn [export_links]; [done |]. apply Forall_cons in Hl as [Hel Hl].
  case_match; [| done]. etrans; [| by apply IH].
  match goal with |- context [fold_left (export_message _ _ _ _ ?aka) ?msgs ?s] =>
    apply (export_messages_steady env out_dir dry_run el aka ids msgs s Hel) end.
Qed.

Lemma round_steady env out_dir limit db : steady (served db) db (round env out_dir limit db).
Proof.
  unfold round, fido_echomail_export_pending. case_match; [| done].
  match goal with H : _ = Some _ |- _ => revert H end. case_match; [done |]. intros [= <-].
  apply (export_links_steady env out_dir _ false _ _ (MkExport db [] (MkEchoResult 0 0 0) 0)).
  apply Forall_forall. intros el Hel. by apply list_elem_of_fmap_2.
Qed.

Lemma round_kept env out_dir limit db : kept db (round env out_dir limit db).
Proof.
  unfold round, fido_echomail_export_pending. case_match; [| done].
  match goal with H : _ = Some _ |- _ => revert H end. case_match; [done |]. intros [= <-].
  apply (export_links_kept env out_dir _ false _ (MkExport db [] (MkEchoResult 0 0 0) 0)).
Qed.

Lemma due_left_out db : (due db + length (left_out (served db) db) = waiting db)%nat.
Proof.
  unfold due, left_out, waiting. induction (rows (queue db)) as [|q l IH]; [done |]. rewrite !filter_cons.
  repeat case_decide; cbn [length]; try lia; tauto.
Qed.

Lemma round_progress env out_dir limit db :
  fine env → out_dir ≠ [] → db_ok db → (0 < due db)%nat → (due (round env out_dir limit db) < due db)%nat.
Proof.
  intros Hf Ho Hok Hd. destruct (round_steady env out_dir limit db) as [H1 H2].
  pose proof (due_left_out db) as E. pose proof (due_left_out (round env out_dir limit db)) as E'. rewrite H1, H2 in E'.
  assert (waiting (round env out_dir limit db) < waiting db)%nat; [| lia]. clear E E' H1 H2.
  unfold due in Hd. destruct (filter _ (rows (queue db))) as [|q r] eqn:F; [cbn in Hd; lia |].
  assert (q ∈ q :: r) as Hin by left. rewrite <- F in Hin. apply list_elem_of_filter in Hin as [[Hp Hl] Hq].
  apply list_elem_of_fmap in Hl as (el & El & Hel).
  unfold round, fido_echomail_export_pending. destruct Hf as [Hdir Hf]. rewrite bool_decide_eq_false_2, Hdir by done.
  cbn [negb orb andb].
  apply (links_progress env out_dir _ _ (MkExport db [] (MkEchoResult 0 0 0) 0) el q); try done.
  cbn. case_match; lia.
Qed.

Lemma nothing_due db : due db = 0%nat → filter pending_row (rows (queue db)) = left_out (served db) db.
Proof.
  unfold due, left_out. induction (rows (queue db)) as [|q l IH]; [done |]. rewrite !filter_cons.
  repeat case_decide; cbn [length]; intros H'; try lia; try tauto; f_equal; by apply IH.
Qed.

(** C20. Whatever is queued for a link that is served is exported in the end: while
    files can be written and the database is not locked, rounds of the export leave
    in the queue exactly the rows of the links behind the first 32 in the order of
    their tags, whatever the limit of one round; there are at most as many such
    rounds as rows. With 32 links or fewer, nothing waits then; of more links, the
    others are never served (fido_netmail.c:161). The tables are whole
    ([db_ok]: ids are unique, references are to rows that are there). *)
Theorem queue_is_emptied (envs : nat → Env) (out_dir : cstr) (limit : Z) (db : MailDb) :
  (∀ i, fine (envs i)) → out_dir ≠ [] → db_ok db →
  let db' := rounds envs out_dir limit (waiting db) db in
  filter pending_row (rows (queue db'))
  = filter (λ q, pending_row q ∧ q_link q ∉ map link_id (db_fido_echolink_list 32 db)) (rows (queue db)) ∧
  ((length (rows (links db)) <= 32)%nat → waiting db' = 0%nat).
Proof.
  intros Hf Ho Hdb.
  assert (∀ n envs db, (∀ i, fine (envs i)) → db_ok db → (due db <= n)%nat →
    let db' := rounds envs out_dir limit n db in filter pending_row (rows (queue db')) = left_out (served db) db) as H.
  { clear - Ho. induction n as [|n IH]; intros envs db Hf Hok Hn; cbn [rounds]; cbv zeta; [apply nothing_due; lia |].
    destruct (round_kept (envs 0%nat) out_dir limit db) as (H1 & _).
    destruct (round_steady (envs 0%nat) out_dir limit db) as [H2 H3].
    rewrite IH; [by rewrite H2, H3 | done | tauto |].
    destruct (decide (due db = 0%nat)) as [E | E].
    - pose proof (round_kept (envs 0%nat) out_dir limit db) as (_ & Hw & _).
      pose proof (due_left_out db). pose proof (due_left_out (round (envs 0%nat) out_dir limit db)) as E'.
      rewrite H2, H3 in E'. lia.
    - pose proof (round_progress (envs 0%nat) out_dir limit db (Hf _) Ho Hok). lia. }
  cbv zeta. pose proof (due_left_out db) as Hdue.
  assert (E : filter pending_row (rows (queue (rounds envs out_dir limit (waiting db) db))) = left_out (served db) db)
    by (apply H; [done | done | lia]).
  split; [exact E |]. intros H32. unfold waiting at 1. rewrite E. unfold left_out.
  apply length_zero_iff_nil, filter_none, Forall_forall. intros q Hq [_ Hl]. apply Hl.
  pose proof (ok_queue_refs db Hdb) as Hr. rewrite Forall_forall in Hr. destruct (Hr q Hq) as [Hx _].
  apply in_ids in Hx as (l & Hin & El). rewrite <- El. unfold served, db_fido_echolink_list.
  rewrite take_ge by by rewrite order_by_perm. rewrite map_map. change (link_id l) with (link_id (fetch_link l)).
  apply (list_elem_of_fmap_2 (λ x, link_id (fetch_link x))). by rewrite order_by_perm.
Qed.

(** ** One run *)

(** The rows of a link after its messages were exported. *)
Lemma marked_all env el ids : ∀ db,
  rows (queue (fold_left (marked env el) ids db))
  = map (λ q, if (q_link q =? link_id el) && bool_decide (q_message q ∈ ids) then set_exported (now env) q else q)
      (rows (queue db)).
Proof.
  induction ids as [|id ids IH]; intros db; cbn [fold_left].
  - rewrite <- (map_id (rows (queue db))) at 1. apply map_ext. intros q.
    rewrite bool_decide_eq_false_2 by apply not_elem_of_nil. by rewrite andb_false_r.
  - rewrite IH, marked_queue, map_map. apply map_ext. intros q.
    rewrite (bool_decide_ext (q_message q ∈ id :: ids) (q_message q = id ∨ q_message q ∈ ids)) by apply elem_of_cons.
    rewrite bool_decide_or. destruct (q_link q =? link_id el) eqn:El; cbn [andb]; [| by rewrite El].
    destruct (Z.eqb_spec (q_message q) id) as [E | E].
    + rewrite (bool_decide_eq_true_2 (_ = _)) by done. cbn [set_exported q_link q_message orb]. rewrite El.
      cbn [andb]. by case_match.
    + rewrite (bool_decide_eq_false_2 (_ = _)), El by done. done.
Qed.

Lemma marked_all_rest env el ids : ∀ db,
  (∀ id, db_message_get id (fold_left (marked env el) ids db) = db_message_get id db) ∧
  akas (fold_left (marked env el) ids db) = akas db ∧
  (db_ok db → db_ok (fold_left (marked env el) ids db)).
Proof.
  induction ids as [|id ids IH]; intros db; cbn [fold_left]; [done |].
  destruct (IH (marked env el db id)) as (H1 & H2 & H3). destruct (marked_rest env el db id) as (_ & _ & E & _).
  split; [intros i; by rewrite H1, marked_message |]. split; [congruence |]. intros Hok. by apply H3, marked_ok.
Qed.

(** The rows of a link that wait, and all of them when the list is long enough. *)
Definition link_rows (link : Z) (db : MailDb) : list queue_row :=
  order_by (λ a b, text_le (queued_at a) (queued_at b)) (filter (λ q, is_pending link q = true) (rows (queue db))).

Lemma is_pending_true link q : is_pending link q = true ↔ q_link q = link ∧ pending_row q.
Proof. unfold is_pending. rewrite andb_true_iff, bool_decide_eq_true, Z.eqb_eq. done. Qed.

Lemma filter_split l link :
  (length (filter pending_row l)
   = length (filter (λ q, is_pending link q = true) l) + length (filter (λ q, pending_row q ∧ q_link q ≠ link) l))%nat.
Proof.
  induction l as [|q l IH]; [done |]. rewrite !filter_cons.
  pose proof (is_pending_true link q) as E. repeat case_decide; cbn [length]; try lia; tauto.
Qed.

Lemma link_rows_count link db : (length (link_rows link db) <= waiting db)%nat.
Proof. unfold link_rows, waiting. rewrite order_by_perm, (filter_split _ link). lia. Qed.

Lemma pending_all link n db :
  (waiting db <= n)%nat → db_fido_echo_queue_pending link n db = map q_message (link_rows link db).
Proof. intros Hn. unfold db_fido_echo_queue_pending. rewrite take_ge; [done |]. pose proof (link_rows_count link db). unfold link_rows in *. lia. Qed.

Section after_link.
Context (env : Env) (el : DbFidoEcholink) (db : MailDb).
Let after := fold_left (marked env el) (map q_message (link_rows (link_id el) db)) db.

Lemma in_link_rows q : q ∈ rows (queue db) → q_link q = link_id el → pending_row q →
  q_message q ∈ map q_message (link_rows (link_id el) db).
Proof.
  intros Hq Hl Hp. apply list_elem_of_fmap_2. unfold link_rows. rewrite order_by_perm.
  apply list_elem_of_filter. split; [by apply is_pending_true | done].
Qed.

(** What still waits is what waits for other links. *)
Lemma after_link_waits :
  filter pending_row (rows (queue after)) = filter (λ q, pending_row q ∧ q_link q ≠ link_id el) (rows (queue db)).
Proof.
  unfold after. rewrite marked_all. apply filter_map_same.
  - intros q Hq. pose proof (in_link_rows q Hq) as Hin.
    destruct (Z.eqb_spec (q_link q) (link_id el)) as [E | E]; cbn [andb]; [| tauto].
    case_bool_decide as Hd; [split; [by intros ?%exported_not_pending | tauto] | tauto].
  - intros q _ [_ Hl]. by rewrite (proj2 (Z.eqb_neq _ _) Hl).
Qed.

Lemma after_link_count : (waiting after + length (link_rows (link_id el) db) = waiting db)%nat.
Proof.
  unfold waiting, link_rows. rewrite after_link_waits, order_by_perm, (filter_split _ (link_id el)). lia.
Qed.

Lemma after_link_others link : link ≠ link_id el → link_rows link after = link_rows link db.
Proof.
  intros Hn. unfold link_rows, after. f_equal. rewrite marked_all. apply filter_map_same.
  - intros q _. rewrite !is_pending_true. destruct (Z.eqb_spec (q_link q) (link_id el)) as [E | E]; cbn [andb]; [| done].
    case_bool_decide; [| done]. cbn. split; intros [? ?]; congruence.
  - intros q _ [Hl _]%is_pending_true. by rewrite (proj2 (Z.eqb_neq _ _)) by congruence.
Qed.
End after_link.

(** The messages a run exports: link by link, those that wait for it. *)
Definition jobs (db : MailDb) (l : list DbFidoEcholink) : list (DbFidoEcholink * DbFidoAka * Z) :=
  concat (map (λ el, map (λ q, (el, default no_aka (db_fido_aka_get (link_aka el) db), q_message q))
                       (link_rows (link_id el) db)) l).

Lemma packet_writes_app env out_dir db l l' : ∀ n,
  Forall (λ p, is_Some (db_message_get (snd p) db)) l →
  packet_writes env out_dir db n (l ++ l') = packet_writes env out_dir db n l ++ packet_writes env out_dir db (n + length l) l'.
Proof.
  induction l as [|[[el aka] id] l IH]; intros n H; cbn [app packet_writes length]; [by rewrite Nat.add_0_r |].
  apply Forall_cons in H as [[m Hm] H]. cbn in Hm. rewrite Hm, IH by done. cbn [app]. do 3 f_equal. lia.
Qed.

Lemma jobs_after env el l db :
  link_id el ∉ map link_id l →
  jobs (fold_left (marked env el) (map q_message (link_rows (link_id el) db)) db) l = jobs db l.
Proof.
  intros Hn. destruct (marked_all_rest env el (map q_message (link_rows (link_id el) db)) db) as (_ & Ha & _).
  unfold jobs. f_equal. apply map_ext_in. intros e He%list_elem_of_In. rewrite after_link_others.
  - unfold db_fido_aka_get. by rewrite Ha.
  - intros E. apply Hn. rewrite <- E. by apply list_elem_of_fmap_2.
Qed.

Lemma jobs_none db l : waiting db = 0%nat → jobs db l = [].
Proof.
  intros Hw. unfold jobs. induction l as [|el l IH]; [done |]. cbn [map concat]. rewrite IH.
  pose proof (link_rows_count (link_id el) db). destruct (link_rows (link_id el) db); [done | cbn in *; lia].
Qed.

Lemma filter_waiting (P : queue_row → Prop) `{∀ x, Decision (P x)} (l : list queue_row) :
  filter (λ q, pending_row q ∧ P q) l = filter P (filter pending_row l).
Proof. rewrite list_filter_filter. apply list_filter_iff. tauto. Qed.

(** The links in turn, with room for whatever waits. *)
Lemma export_links_fine env out_dir limit l : ∀ db ops s e n,
  fine env → db_ok db → NoDup (map link_id l) → (waiting db <= 200)%nat → e + Z.of_nat (waiting db) <= limit →
  let k := length (jobs db l) in
  ∃ db', export_links env out_dir limit false l (MkExport db ops (MkEchoResult s e 0) n)
         = MkExport db' (ops ++ packet_writes env out_dir db n (jobs db l))
             (MkEchoResult (s + Z.of_nat k) (e + Z.of_nat k) 0) (n + k) ∧
    filter pending_row (rows (queue db')) = filter (λ q, pending_row q ∧ q_link q ∉ map link_id l) (rows (queue db)).
Proof.
  induction l as [|el l IH]; intros db ops s e n Hf Hok Hnd Hw He k.
  { exists db. cbn [export_links jobs map concat packet_writes] in *. subst k. split.
    - cbn. by rewrite app_nil_r, !Z.add_0_r, Nat.add_0_r.
    - apply list_filter_iff. intros q. split; [| tauto]. intros H. split; [done | apply not_elem_of_nil]. }
  apply NoDup_cons in Hnd as [Hel Hnd]. cbn [export_links ex_result ex_db ex_ops ex_paths exported failed scanned].
  destruct (Z.ltb_spec (e + 0) limit) as [Hlim | Hlim].
  - rewrite (pending_all (link_id el)) by lia.
    set (aka := default no_aka _). set (ids := map q_message _).
    assert (Forall (λ id, is_Some (db_message_get id db)) ids) as Hids.
    { unfold ids. rewrite <- (pending_all (link_id el) (waiting db)) by lia. by apply pending_messages. }
    assert (length ids = length (link_rows (link_id el) db)) as Hlen by apply length_map.
    pose proof (after_link_count env el db) as Hcount. fold ids in Hcount.
    destruct (marked_all_rest env el ids db) as (Hm & _ & Hok'). rewrite export_messages_fine by done.
    unfold zlen. cbn [scanned exported failed].
    destruct (IH (fold_left (marked env el) ids db) (ops ++ packet_writes env out_dir db n (map (λ id, (el, aka, id)) ids))
      (s + Z.of_nat (length ids)) (e + Z.of_nat (length ids)) (n + length ids)%nat) as (db' & E & F); [done | tauto | done | lia | lia |].
    exists db'. rewrite E. unfold ids in F. rewrite F. subst k. fold ids.
    assert (jobs db (el :: l) = map (λ id, (el, aka, id)) ids ++ jobs db l) as Ej
      by (unfold jobs, ids; cbn [map concat]; by rewrite map_map).
    rewrite Ej. unfold ids. rewrite jobs_after by done. fold ids. rewrite !length_app, !length_map. split.
    + rewrite packet_writes_app, length_map; last first.
      { apply Forall_map. eapply Forall_impl; [exact Hids | done]. }
      rewrite (packet_writes_same _ _ db (fold_left _ _ _)) by exact Hm. rewrite app_assoc.
      f_equal; [f_equal; lia | lia].
    + rewrite filter_waiting. unfold ids. rewrite after_link_waits, list_filter_filter. apply list_filter_iff.
      intros q. cbn [map]. rewrite not_elem_of_cons. tauto.
  - assert (waiting db = 0%nat) as Hz by lia. subst k. rewrite jobs_none by done. exists db. split.
    + cbn. by rewrite app_nil_r, !Z.add_0_r, Nat.add_0_r.
    + unfold waiting in Hz. apply nil_length_inv in Hz. by rewrite filter_waiting, Hz.
Qed.

Lemma served_distinct db : db_ok db → NoDup (map link_id (db_fido_echolink_list 32 db)).
Proof.
  intros Hok. unfold db_fido_echolink_list. rewrite map_map. change (λ x, link_id (fetch_link x)) with link_id.
  apply (sublist_NoDup _ (map link_id (order_by (λ a b, text_le (echotag a) (echotag b)) (rows (links db))))).
  - rewrite order_by_perm. apply Hok.
  - rewrite fmap_take. apply sublist_take.
Qed.

(** C19. One run, while files can be written and the database is not locked, its
    tables are whole ([db_ok]) and no more messages wait than it may take (its limit,
    and 200): each of those that wait for one of the first 32 links, in the order of
    their tags, is written once, in the order of the links and of the queue, none
    fails, and what still waits is exactly what waits for other links: nothing,
    with 32 links or fewer. *)
Theorem run_exports_the_queue (env : Env) (out_dir : cstr) (limit : Z) (db : MailDb) :
  fine env → out_dir ≠ [] → db_ok db →
  Z.of_nat (waiting db) <= (if limit <=? 0 then 200 else Z.min 200 limit) →
  let served_links := db_fido_echolink_list 32 db in
  let l := jobs db served_links in
  ∃ st, fido_echomail_export_pending env out_dir limit false db = Some st ∧
    ex_ops st = packet_writes env out_dir db 0 l ∧ ex_result st = MkEchoResult (zlen l) (zlen l) 0 ∧
    filter pending_row (rows (queue (ex_db st)))
    = filter (λ q, pending_row q ∧ q_link q ∉ map link_id served_links) (rows (queue db)).
Proof.
  intros Hf Ho Hok Hw served_links l. unfold fido_echomail_export_pending. pose proof Hf as [Hd _].
  rewrite bool_decide_eq_false_2, Hd by done. cbn [negb orb andb].
  destruct (export_links_fine env out_dir (if limit <=? 0 then 200 else limit) (db_fido_echolink_list 32 db) db [] 0 0 0)
    as (db' & E & F); [done | done | by apply served_distinct | case_match; lia | case_match; lia |].
  eexists. split; [reflexivity |]. rewrite E. cbn [ex_ops ex_result ex_db]. by split_and!.
Qed.

(** ** Witnesses *)

Definition fine_env : Env :=
  MkEnv (λ _, true) (λ _, Written) (λ _, true) (λ _, 1772359202) (lit "2026-03-01 10:00:02").

Lemma fine_env_fine : fine fine_env.
Proof. by split_and!. Qed.

Definition echo_link : DbFidoEcholink := MkLink 1 1 (lit "GENERAL") 1 [] 0.
Definition echo_aka : DbFidoAka := MkAka 1 1 100 5 0 [] 1.
Definition echo_message : DbMessage :=
  MkMessage 1 1 2 0 0 0 (lit "Bob") [] [] (lit "Hello") (lit "Is anyone here?") (lit "2026-03-01 10:00:00") 0 0 [] [].

(** What the queue of [posted_db] becomes. *)
Example packet_of_the_queue :
  ex_ops <$> fido_echomail_export_pending fine_env (lit "/mail/out") 0 false posted_db
  = Some [Write (lit "/mail/out/echo_GENERAL_00000001_1772359202.pkt") (echomail_text echo_link echo_aka echo_message)].
Proof. vm_compute. reflexivity. Qed.

Lemma packets_read_back_witness :
  parse_packet (echomail_text echo_link echo_aka echo_message)
  = Some (MkPacket (lit "GENERAL") (lit "Bob") (lit "All") (lit "Hello") (lit "2026-03-01 10:00:00")
            (lit "Is anyone here?" ++ [10])).
Proof.
  apply packets_read_back. constructor; [repeat constructor; vm_compute; congruence |..].
  all: repeat apply conj; try (by apply closed_header); try (cbn; lia); try (vm_compute; congruence).
  - by apply (bool_decide_unpack (ch "<" ∉ sender echo_message)).
  - apply Forall_singleton. split; [| done]. apply header_line; [by apply closed_header | cbn; lia].
  - vm_compute. lia.
Defined.

Lemma nothing_is_imported_witness :
  fido_echomail_import (lit "now") (lit "/mail/in") [lit "echo_GENERAL_1.pkt"; lit "note.txt"]
    (λ _, Some (echomail_text echo_link echo_aka echo_message)) posted_db
  = (posted_db, [to_bad (lit "/mail/in") (lit "echo_GENERAL_1.pkt")], MkImportResult 1 0 1 0).
Proof. apply nothing_is_imported. exact posted_db_ok. Defined.

Lemma run_exports_the_queue_witness :
  ∃ st, fido_echomail_export_pending fine_env (lit "/mail/out") 0 false posted_db = Some st ∧
    ex_ops st = packet_writes fine_env (lit "/mail/out") posted_db 0 [(echo_link, echo_aka, 1)] ∧
    ex_result st = MkEchoResult 1 1 0 ∧ filter pending_row (rows (queue (ex_db st))) = [].
Proof.
  apply (run_exports_the_queue fine_env (lit "/mail/out") 0 posted_db);
    [exact fine_env_fine | done | exact posted_db_ok | vm_compute; congruence].
Defined.

Lemma queue_is_emptied_witness :
  waiting posted_db = 1%nat ∧ waiting (rounds (λ _, fine_env) (lit "/mail/out") 1 1 posted_db) = 0%nat.
Proof.
  split; [reflexivity |].
  apply (queue_is_emptied (λ _, fine_env) (lit "/mail/out") 1 posted_db);
    [intros _; exact fine_env_fine | done | exact posted_db_ok | vm_compute; lia].
Defined.
