(* ===== verification/Qwk.v ===== *)
(** QWK packets (src/qwk.c): the files of a packet of messages for reading offline,
    and the import of replies; with the tables of files of src/db.c that the list of
    new files is made of. A file is the list of its bytes; which files can be opened,
    what the archiver answers and the local time are parameters. [None] is an
    undefined condition of an area. Memory is taken to be available. *)

From S2P Require Import Prelude CLib Float Acs Mci Calendar MailDb.

#[local] Open Scope Z_scope.

(** ** The tables of files *)

(** include/bbs_db.h:183-199 (DbFileArea) *)
Record DbFileArea : Type := MkFileArea {
  fa_id : Z;
  fa_name : cstr;
  fa_path : cstr;
  acs_list : cstr;
  acs_download : cstr;
  acs_upload : cstr;
  fa_acs_sysop : cstr;
  fa_password : cstr;
  max_files : Z;
  archive_type : cstr;
  sort_type : Z;
  show_uploader : Z;
  check_dupes : Z;
  free_files : Z;
  fa_flags : Z
}.

(** include/bbs_db.h:201-217 (DbFileRec) *)
Record DbFileRec : Type := MkFile {
  f_id : Z;
  f_area : Z;
  filename : cstr;
  desc : cstr;
  extended_desc : cstr;
  file_id_diz : cstr;
  size_bytes : Z;
  uploaded_at : cstr;
  uploaded_by : Z;
  uploader : cstr;
  sha256 : cstr;
  f_points : Z;
  download_count : Z;
  owner_credit : Z;
  f_flags : Z
}.

(** The rows, with texts of any length and NULL as the empty text or zero, which the
    readers do not tell apart; the uploader of a row is not a column. *)
Record FileDb : Type := MkFileDb {
  file_areas : list DbFileArea;
  files : list DbFileRec
}.

Definition fetch_file_area (a : DbFileArea) : DbFileArea :=
  MkFileArea (fa_id a) (column 64 (fa_name a)) (column 256 (fa_path a)) (column 64 (acs_list a))
    (column 64 (acs_download a)) (column 64 (acs_upload a)) (column 64 (fa_acs_sysop a)) (column 32 (fa_password a))
    (max_files a) (column 16 (archive_type a)) (sort_type a) (show_uploader a) (check_dupes a) (free_files a)
    (fa_flags a).

(** src/db.c:2567-2619 (db_file_area_list) *)
Definition db_file_area_list (max : nat) (fdb : FileDb) : list DbFileArea :=
  map fetch_file_area (take max (order_by (λ a b, fa_id a <=? fa_id b) (file_areas fdb))).

Definition fetch_file (users : list (Z * cstr)) (f : DbFileRec) : DbFileRec :=
  MkFile (f_id f) (f_area f) (column 128 (filename f)) (column 256 (desc f)) (column 2048 (extended_desc f))
    (column 2048 (file_id_diz f)) (size_bytes f) (column 32 (uploaded_at f)) (uploaded_by f)
    (column 64 (default [] (snd <$> List.find (λ p, fst p =? uploaded_by f) users))) (column 65 (sha256 f))
    (f_points f) (download_count f) (owner_credit f) (f_flags f).

(** src/db.c:2649-2703 (db_file_list) *)
Definition db_file_list (area : Z) (max : nat) (users : list (Z * cstr)) (fdb : FileDb) : list DbFileRec :=
  map (fetch_file users) (take max (order_by (λ a b, f_id b <=? f_id a)
    (filter (λ f, f_area f = area) (files fdb)))).

(** ** Messages as blocks *)

(** src/qwk.c:21-21 (QWK_BLOCK_SIZE) *)
Definition QWK_BLOCK_SIZE : Z := 128.

(** src/qwk.c:23-30 (qwk_copy) *)
Definition qwk_copy (cap : nat) (src : cstr) : cstr := take (cap - 1) (c_string src).

(** src/qwk.c:72-87 (QwkMsgHeader) *)
Record QwkMsgHeader : Type := MkHeader {
  status : Z;
  msgnum : cstr;
  date : cstr;
  time : cstr;
  hdr_to : cstr;
  hdr_from : cstr;
  hdr_subject : cstr;
  hdr_password : cstr;
  refnum : cstr;
  blocks : cstr;
  active : Z;
  conf_num : cstr;
  logical_num : cstr;
  nettag : Z
}.

Definition header_bytes (h : QwkMsgHeader) : list Z :=
  status h :: msgnum h ++ date h ++ time h ++ hdr_to h ++ hdr_from h ++ hdr_subject h ++ hdr_password h
  ++ refnum h ++ blocks h ++ [active h] ++ conf_num h ++ logical_num h ++ [nettag h].

(** src/qwk.c:89-94 (pad_field) *)
Definition pad_field (src : cstr) (len : nat) : cstr := take len src ++ replicate (len - length src) 32.

(** [snprintf] into [numstr], which has 8 bytes. *)
Definition numstr (z : Z) : cstr := take 7 (fmt_d z).

(** [%c%c-%c%c-%c%c] of a date: month, day, year.
    src/qwk.c:247-252 (write_messages_dat_with_ndx) *)
Definition short_date (t : cstr) : cstr :=
  [char_at t 5; char_at t 6; ch "-"; char_at t 8; char_at t 9; ch "-"; char_at t 2; char_at t 3].

(** src/qwk.c:255-258 (write_messages_dat_with_ndx) *)
Definition short_time (t : cstr) : cstr := [char_at t 11; char_at t 12; ch ":"; char_at t 14; char_at t 15].

(** src/qwk.c:270-271 (write_messages_dat_with_ndx) *)
Definition num_blocks (body : cstr) : Z := (128 + zlen body + QWK_BLOCK_SIZE - 1) / QWK_BLOCK_SIZE.

(** Two bytes, the low one first. *)
Definition le2 (z : Z) : list Z := [Z.land z 255; Z.land (Z.shiftr z 8) 255].

(** src/qwk.c:233-280 (write_messages_dat_with_ndx) *)
Definition message_header (me area : Z) (m : DbMessage) : QwkMsgHeader :=
  MkHeader
    (if 0 <? to_user m then if to_user m =? me then ch "+" else ch "*" else 32)
    (pad_field (numstr (msg_id m)) 7)
    (if 10 <=? zlen (created_at m) then pad_field (short_date (created_at m)) 8 else replicate 8 32)
    (if 16 <=? zlen (created_at m) then pad_field (short_time (created_at m)) 5 else replicate 5 32)
    (pad_field (if bool_decide (to_name m = []) then lit "All" else to_name m) 25)
    (pad_field (if bool_decide (from_name m = []) then user_handle m else from_name m) 25)
    (pad_field (subject m) 25)
    (pad_field [] 12)
    (pad_field (numstr (reply_to m)) 8)
    (pad_field (numstr (num_blocks (body m))) 6)
    225 (le2 area) (le2 (msg_id m)) 32.

(** src/qwk.c:296-306 (write_messages_dat_with_ndx) *)
Definition body_block (body : cstr) : list Z :=
  let remaining := Z.to_nat (num_blocks body * QWK_BLOCK_SIZE - 128) in
  take remaining (map (λ c, if c =? 10 then 227 else c) body) ++ replicate (remaining - length body) 32.

Definition message_blocks (me area : Z) (m : DbMessage) : list Z :=
  header_bytes (message_header me area m) ++ body_block (body m).

(** ** The messages of a packet *)

(** src/qwk.c:138-141 (NdxEntry) *)
Record NdxEntry : Type := MkNdx {
  ndx_conf : Z;
  block_offset : Z
}.

(** src/qwk.c:192-194 (QWK_MAX_NDX, QWK_MAX_AREAS, QWK_DEFAULT_MAX_MSGS) *)
Definition QWK_MAX_NDX : nat := 4096.
Definition QWK_MAX_AREAS : nat := 64.
Definition QWK_DEFAULT_MAX_MSGS : Z := 500.

(** What the writer has written and noted. *)
Record packet_state : Type := MkPacketState {
  out : list Z;
  current_block : Z;
  msg_count : Z;
  ndx_entries : list NdxEntry;
  personal_entries : list NdxEntry;
  areas_used : list Z
}.

Definition note_entry (e : NdxEntry) (l : list NdxEntry) : list NdxEntry :=
  if (length l <? QWK_MAX_NDX)%nat then l ++ [e] else l.

(** src/qwk.c:282-312 (write_messages_dat_with_ndx) *)
Definition write_message (me area : Z) (st : packet_state) (m : DbMessage) : packet_state :=
  let e := MkNdx area (current_block st) in
  MkPacketState (out st ++ message_blocks me area m) (current_block st + num_blocks (body m)) (msg_count st + 1)
    (note_entry e (ndx_entries st))
    (if to_user m =? me then note_entry e (personal_entries st) else personal_entries st)
    (areas_used st).

(** src/qwk.c:212-215 (write_messages_dat_with_ndx) *)
Definition header_block : list Z := pad_field (lit "Produced by Mutineer BBS") 128.

Section packet.
Context (clk : Clock) (s : MciSession) (db : MailDb) (fdb : FileDb).

Definition my_id : Z := id (user (acs_part s)).

(** src/qwk.c:222-320 (write_messages_dat_with_ndx) *)
Definition write_area (last_qwk : cstr) (st : packet_state) (a : DbMsgArea) : option packet_state :=
  allowed ← acs_allows clk (Some (acs_part s)) (acs_read a);
  if negb allowed then Some st
  else
    let per_area_max := if 0 <? max_msgs a then max_msgs a else QWK_DEFAULT_MAX_MSGS in
    let msgs := db_messages_since (area_id a) last_qwk (Z.to_nat per_area_max) db in
    let st := fold_left (write_message my_id (area_id a)) msgs st in
    if negb (bool_decide (msgs = [])) && (length (areas_used st) <? QWK_MAX_AREAS)%nat then
      Some (MkPacketState (out st) (current_block st) (msg_count st) (ndx_entries st) (personal_entries st)
              (areas_used st ++ [area_id a]))
    else Some st.

Fixpoint write_areas (last_qwk : cstr) (l : list DbMsgArea) (st : packet_state) : option packet_state :=
  match l with
  | [] => Some st
  | a :: l => st ← write_area last_qwk st a; write_areas last_qwk l st
  end.

(** src/qwk.c:196-321 (write_messages_dat_with_ndx) *)
Definition write_messages_dat_with_ndx (last_qwk : cstr) : option packet_state :=
  write_areas last_qwk (db_msg_area_list QWK_MAX_AREAS db) (MkPacketState header_block 1 0 [] [] []).

(** ** Indexes *)

(** The bits of [(float)z] for [0 <= z]: rounded to 24 binary digits, ties to even;
    a mantissa that is rounded up to the next power carries into the exponent. *)
Definition float_bits (z : Z) : Z :=
  if z <=? 0 then 0
  else
    let e := Z.log2 z in
    let m := if e <=? 23 then z * 2 ^ (23 - e) else div_even z (2 ^ (e - 23)) in
    (e + 127) * 2 ^ 23 + (m - 2 ^ 23).

(** On a little-endian machine, the highest byte first.
    src/qwk.c:143-151 (write_ndx_msb_float) *)
Definition write_ndx_msb_float (block_num : Z) : list Z := be_bytes 4 (float_bits block_num).

Definition ndx_record (e : NdxEntry) : list Z := write_ndx_msb_float (block_offset e) ++ [Z.land (ndx_conf e) 255].

(** The files by their paths; a file that cannot be opened is left out.
    src/qwk.c:153-190 (write_ndx_files) *)
Definition write_ndx_files (opens : cstr → bool) (temp_dir : cstr) (entries : list NdxEntry) (used : list Z)
    (personal : list NdxEntry) : list (cstr * list Z) :=
  filter (λ f, opens (fst f) = true)
    (concat (map (λ conf,
       match filter (λ e, ndx_conf e = conf) entries with
       | [] => []
       | l => [(path_join temp_dir (take 31 (fmt_0d 3 conf ++ lit ".NDX")) 512, concat (map ndx_record l))]
       end) used)
     ++ [(path_join temp_dir (lit "PERSONAL.NDX") 512, concat (map ndx_record personal))]).

(** ** Texts of a packet *)

Definition crlf : cstr := [13; 10].

(** src/qwk.c:96-127 (write_control_dat) *)
Definition write_control_dat (now : tm) (num_areas : Z) : cstr :=
  let line t := t ++ crlf in
  line (if bool_decide (cfg_bbs_name s = []) then lit "Mutineer BBS" else cfg_bbs_name s)
  ++ line (lit "Unknown") ++ line (lit "000-000-0000")
  ++ line (if bool_decide (cfg_sysop_name s = []) then lit "Sysop" else cfg_sysop_name s)
  ++ line (lit "00000,MUTINEER")
  ++ line (fmt_0d 2 (mon now + 1) ++ lit "-" ++ fmt_0d 2 (mday now) ++ lit "-" ++ fmt_0d 4 (year now + 1900) ++ lit ","
           ++ fmt_0d 2 (hour now) ++ lit ":" ++ fmt_0d 2 (minute now) ++ lit ":" ++ fmt_0d 2 (sec now))
  ++ line (handle (profile s)) ++ line [] ++ line (lit "0") ++ line (lit "0") ++ line (lit "0")
  ++ line (fmt_d (num_areas - 1))
  ++ concat (map (λ a, line (fmt_d (area_id a)) ++ line (area_name a))
               (take (Z.to_nat num_areas) (db_msg_area_list 32 db)))
  ++ line (lit "HELLO") ++ line (lit "NEWS") ++ line (lit "GOODBYE").

(** src/qwk.c:129-136 (write_door_id) *)
Definition write_door_id : cstr :=
  let line t := t ++ crlf in
  line (lit "DOOR = Mutineer") ++ line (lit "VERSION = 1.0")
  ++ line (lit "SYSTEM = " ++ (if bool_decide (cfg_bbs_name s = []) then lit "Mutineer BBS" else cfg_bbs_name s))
  ++ line (lit "CONTROLNAME = MUTINEER") ++ line (lit "CONTROLTYPE = ADD") ++ line (lit "CONTROLTYPE = DROP").

(** src/qwk.c:345-357 (write_newfiles_dat) *)
Definition newfile_line (f : DbFileRec) : cstr :=
  pad_right 13 (filename f) ++ lit " " ++ pad_left 8 32 (fmt_d (size_bytes f)) ++ lit "  "
  ++ (if 10 <=? zlen (uploaded_at f) then short_date (uploaded_at f) else lit "--/--/--") ++ lit "  "
  ++ (if bool_decide (desc f = []) then lit "(no description)" else desc f) ++ crlf.

(** src/qwk.c:323-362 (write_newfiles_dat) *)
Fixpoint write_newfiles_dat (last_qwk : cstr) (l : list DbFileArea) : option cstr :=
  match l with
  | [] => Some []
  | a :: l =>
      allowed ← acs_allows clk (Some (acs_part s)) (acs_list a);
      let max := if 0 <? max_files a then max_files a else 500 in
      let fresh := filter (λ f, last_qwk = [] ∨ text_le (uploaded_at f) last_qwk = false)
                     (db_file_list (fa_id a) (Z.to_nat max) (users db) fdb) in
      rest ← write_newfiles_dat last_qwk l;
      Some ((if (allowed : bool) && negb (bool_decide (fresh = [])) then
               lit "--- " ++ fa_name a ++ lit " ---" ++ crlf ++ concat (map newfile_line fresh)
             else []) ++ rest)
  end.

(** ** A packet *)

Definition opened (opens : cstr → bool) (path : cstr) (content : list Z) : list (cstr * list Z) :=
  if opens path then [(path, content)] else [].

(** The files in the order they are written.
    src/qwk.c:370-418 (qwk_generate_packet) *)
Definition packet_files (opens : cstr → bool) (now : tm) (temp_dir last_qwk : cstr) : option (list (cstr * list Z)) :=
  let num_areas := zlen (db_msg_area_list QWK_MAX_AREAS db) in
  let messages := path_join temp_dir (lit "MESSAGES.DAT") 512 in
  let newfiles := path_join temp_dir (lit "NEWFILES.DAT") 512 in
  st ← (if opens messages then write_messages_dat_with_ndx last_qwk else Some (MkPacketState [] 0 0 [] [] []));
  fresh ← (if opens newfiles then write_newfiles_dat last_qwk (db_file_area_list QWK_MAX_AREAS fdb) else Some []);
  Some (opened opens (path_join temp_dir (lit "CONTROL.DAT") 512) (write_control_dat now num_areas)
        ++ opened opens messages (out st)
        ++ write_ndx_files opens temp_dir (ndx_entries st) (areas_used st) (personal_entries st)
        ++ opened opens (path_join temp_dir (lit "DOOR.ID") 512) write_door_id
        ++ opened opens newfiles fresh).

(** [temp_dir] is the directory [mkdtemp] made; [zip] is whether the archiver made a
    packet of the files.
    src/qwk.c:364-424 (qwk_generate_packet) *)
Definition qwk_generate_packet (opens : cstr → bool) (now : tm) (temp_dir : option cstr)
    (zip : list (cstr * list Z) → bool) (last_qwk : cstr) : option bool :=
  match temp_dir with
  | None => Some false
  | Some d => zip <$> packet_files opens now d last_qwk
  end.

End packet.

(** ** Replies *)

(** A message of a reply packet. *)
Record rep_message : Type := MkReply {
  rep_active : bool;
  rep_conf : Z;
  rep_to : cstr;
  rep_subject : cstr;
  rep_body : cstr
}.

Definition field (pos len : nat) (hdr : list Z) : list Z := take len (drop pos hdr).

(** Bytes at the end that satisfy [p] are dropped. *)
Fixpoint trim_end (p : Z → bool) (l : list Z) : list Z :=
  match l with
  | [] => []
  | c :: l => match trim_end p l with [] => if p c then [] else [c] | t => c :: t end
  end.

(** The number of blocks of a header.
    src/qwk.c:551-556 (qwk_import_rep) *)
Definition header_blocks (hdr : list Z) : Z := atoi (c_string (field 116 6 hdr)).

(** src/qwk.c:561-577 (qwk_import_rep) *)
Definition reply_body (bytes : list Z) : list Z :=
  trim_end (λ c, (c =? 32) || (c =? 0)) (map (λ c, if c =? 227 then 10 else c) bytes).

(** One message and the bytes after it; [None] at the end of the file, or at a number
    of blocks out of range.
    src/qwk.c:550-594 (qwk_import_rep) *)
Definition read_reply (bytes : list Z) : option (rep_message * list Z) :=
  if (length bytes <? 128)%nat then None
  else
    let hdr := take 128 bytes in
    let rest := drop 128 bytes in
    let n := header_blocks hdr in
    if (n <? 1) || (1000 <? n) then None
    else
      let size := Z.to_nat (n * QWK_BLOCK_SIZE - 128) in
      let conf := Z.lor (char_at (field 123 2 hdr) 0) (Z.shiftl (char_at (field 123 2 hdr) 1) 8) in
      Some (MkReply (char_at hdr 122 =? 225) conf
              (c_string (trim_end (λ c, c =? 32) (field 21 25 hdr))) (c_string (trim_end (λ c, c =? 32) (field 71 25 hdr)))
              (c_string (reply_body (take size rest))),
            drop size rest).

(** src/qwk.c:599-607 (qwk_import_rep) *)
Definition reply_message (s : MciSession) (r : rep_message) : DbMessage :=
  MkMessage 0 (rep_conf r) (my_id s) 0 0 0 (qwk_copy 64 (handle (profile s))) (qwk_copy 64 (handle (profile s)))
    (qwk_copy 64 (rep_to r)) (qwk_copy 80 (rep_subject r)) (qwk_copy 2048 (rep_body r)) [] 0 0 [] [].

Section import.
Context (clk : Clock) (s : MciSession) (now : cstr).

(** One reply: the database, whether it was imported.
    src/qwk.c:580-617 (qwk_import_rep) *)
Definition post_reply (r : rep_message) (db : MailDb) : option (bool * MailDb) :=
  if negb (rep_active r) then Some (false, db)
  else
    match MailDb.db_msg_area_get (rep_conf r) db with
    | None => Some (false, db)
    | Some area =>
        allowed ← acs_allows clk (Some (acs_part s)) (acs_post area);
        Some (if (allowed : bool) then db_message_post_ex now (reply_message s r) db else (false, db))
    end.

(** The messages of the file, what is sent to the user, and how many were imported.
    A message has at least one block.
    src/qwk.c:550-618 (qwk_import_rep) *)
Fixpoint import_loop (fuel : nat) (bytes : list Z) (db : MailDb) (sent : list cstr) (imported : Z) :
    option (MailDb * list cstr * Z) :=
  match fuel with
  | O => Some (db, sent, imported)
  | S fuel =>
      match read_reply bytes with
      | None => Some (db, sent, imported)
      | Some (r, rest) =>
          '(ok, db) ← post_reply r db;
          if ok : bool then
            import_loop fuel rest db
              (sent ++ [lit "  Imported: [" ++ fmt_d (rep_conf r) ++ lit "] " ++ rep_subject r ++ [13; 10]]) (imported + 1)
          else import_loop fuel rest db sent imported
      end
  end.

(** [temp_dir] as for a packet; [extract] is what the archiver left there, a file by
    its path, or [None] when it failed.
    src/qwk.c:515-627 (qwk_import_rep) *)
Definition qwk_import_rep (temp_dir : option cstr) (extract : cstr → option (cstr → option (list Z))) (db : MailDb) :
    option (bool * MailDb * list cstr) :=
  match temp_dir with
  | None => Some (false, db, [])
  | Some d =>
      match extract d with
      | None => Some (false, db, [])
      | Some file =>
          let found :=
            match file (path_join d (lit "MUTINEER.MSG") 512) with
            | Some c => Some c
            | None => file (path_join d (lit "mutineer.msg") 512)
            end in
          match found with
          | None => Some (false, db, [])
          | Some content =>
              '(db, sent, imported) ← import_loop (length content) (drop 128 content) db [] 0;
              Some (0 <? imported, db,
                    sent ++ [[13; 10] ++ lit "Imported " ++ fmt_d imported ++ lit " message(s)." ++ [13; 10]])
          end
      end
  end.

End import.
