(* ===== verification/QwkSpec.v ===== *)
(** What the packets of QWK promise (src/qwk.c): the messages a user may read stand in
    whole blocks, an index leads to each of them, and the reader of replies reads them
    as they were written. And what the import does not do: with the database's
    foreign keys no reply is stored. *)

From S2P Require Import Prelude CLib Float Acs AcsSpec Mci MciSpec Calendar MailDb MailDbSpec Qwk.

#[local] Open Scope Z_scope.

(** ** Blocks *)

Lemma length_pad_field t n : length (pad_field t n) = n.
Proof. unfold pad_field. rewrite length_app, length_take, length_replicate. lia. Qed.

Lemma length_header me a m : length (header_bytes (message_header me a m)) = 128%nat.
Proof.
  unfold header_bytes, message_header. cbn [status msgnum date time hdr_to hdr_from hdr_subject hdr_password refnum
    blocks active conf_num logical_num nettag le2]. cbn [length]. rewrite !length_app.
  repeat case_match; rewrite ?length_pad_field, ?length_replicate; reflexivity.
Qed.

Lemma num_blocks_bounds b : 1 <= num_blocks b ∧ zlen b <= num_blocks b * 128 - 128 ∧ num_blocks b * 128 <= zlen b + 255.
Proof. unfold num_blocks, QWK_BLOCK_SIZE, zlen. Z.div_mod_to_equations. lia. Qed.

Lemma body_block_eq b :
  body_block b = map (λ c, if c =? 10 then 227 else c) b
    ++ replicate (Z.to_nat (num_blocks b * 128 - 128) - length b) 32.
Proof.
  unfold body_block, QWK_BLOCK_SIZE. rewrite take_ge; [done |]. rewrite length_map.
  pose proof (num_blocks_bounds b). unfold zlen in *. lia.
Qed.

Lemma length_blocks me a m : length (message_blocks me a m) = Z.to_nat (128 * num_blocks (body m)).
Proof.
  unfold message_blocks. rewrite length_app, length_header, body_block_eq, length_app, length_map, length_replicate.
  pose proof (num_blocks_bounds (body m)). unfold zlen in *. lia.
Qed.

(** ** What is written *)

(** The messages with the blocks they begin at. *)
Fixpoint located (block : Z) (l : list (Z * DbMessage)) : list (NdxEntry * DbMessage) :=
  match l with
  | [] => []
  | (a, m) :: l => (MkNdx a block, m) :: located (block + num_blocks (body m)) l
  end.

Fixpoint total_blocks (l : list (Z * DbMessage)) : Z :=
  match l with [] => 0 | (_, m) :: l => num_blocks (body m) + total_blocks l end.

Definition written (me : Z) (l : list (Z * DbMessage)) : list Z := concat (map (λ p, message_blocks me (fst p) (snd p)) l).

Lemma located_app b l l' : located b (l ++ l') = located b l ++ located (b + total_blocks l) l'.
Proof.
  revert b. induction l as [|[a m] l IH]; intros b; cbn; [by rewrite Z.add_0_r |].
  rewrite IH. do 3 f_equal. lia.
Qed.

Lemma total_blocks_app l l' : total_blocks (l ++ l') = total_blocks l + total_blocks l'.
Proof. induction l as [|[a m] l IH]; cbn; lia. Qed.

Lemma total_blocks_nonneg l : 0 <= total_blocks l.
Proof. induction l as [|[a m] l IH]; cbn; [lia |]. pose proof (num_blocks_bounds (body m)). lia. Qed.

Lemma length_written me l : length (written me l) = Z.to_nat (128 * total_blocks l).
Proof.
  unfold written. induction l as [|[a m] l IH]; [done |]. cbn [map concat fst snd total_blocks].
  rewrite length_app, length_blocks, IH. pose proof (total_blocks_nonneg l). pose proof (num_blocks_bounds (body m)). lia.
Qed.

(** The i-th message is behind the blocks of those before it. *)
Lemma located_lookup l : ∀ b i a m, l !! i = Some (a, m) →
  ∃ l1 l2, l = l1 ++ (a, m) :: l2 ∧ located b l !! i = Some (MkNdx a (b + total_blocks l1), m).
Proof.
  induction l as [|[a' m'] l IH]; intros b [|i] a m H; [done | done | |].
  - injection H as -> ->. exists [], l. cbn. by rewrite Z.add_0_r.
  - destruct (IH (b + num_blocks (body m')) i a m H) as (l1 & l2 & -> & E). exists ((a', m') :: l1), l2.
    split; [done |]. etrans; [exact E |]. cbn [total_blocks]. do 3 f_equal. lia.
Qed.

Lemma note_taken e l : note_entry e (take QWK_MAX_NDX l) = take QWK_MAX_NDX (l ++ [e]).
Proof.
  unfold note_entry. rewrite length_take. destruct (Nat.ltb_spec (QWK_MAX_NDX `min` length l) QWK_MAX_NDX) as [H | H].
  - rewrite !take_ge; [done | rewrite length_app; cbn [length]; lia | lia].
  - rewrite take_app_le by lia. done.
Qed.

(** The state of the writer after these messages. *)
Record wrote (me : Z) (l : list (Z * DbMessage)) (st : packet_state) : Prop := {
  wrote_out : out st = header_block ++ written me l;
  wrote_block : current_block st = 1 + total_blocks l;
  wrote_count : msg_count st = zlen l;
  wrote_ndx : ndx_entries st = take QWK_MAX_NDX (map fst (located 1 l));
  wrote_personal :
    personal_entries st = take QWK_MAX_NDX (map fst (filter (λ p, to_user (snd p) = me) (located 1 l)))
}.

Lemma wrote_message me l st a m : wrote me l st → wrote me (l ++ [(a, m)]) (write_message me a st m).
Proof.
  intros [Ho Hb Hc Hn Hp]. unfold write_message. constructor; cbn [out current_block msg_count ndx_entries personal_entries].
  - unfold written. rewrite map_app, concat_app. cbn. by rewrite Ho, app_nil_r, <- app_assoc.
  - rewrite total_blocks_app. cbn. lia.
  - unfold zlen in *. rewrite length_app. cbn. lia.
  - rewrite Hn, note_taken, located_app, map_app. cbn. by rewrite Hb.
  - rewrite located_app, filter_app, map_app. cbn [located]. rewrite filter_cons. cbn [snd].
    destruct (Z.eqb_spec (to_user m) me) as [E | E].
    + rewrite decide_True by done. cbn. by rewrite Hp, note_taken, Hb.
    + rewrite decide_False by done. cbn. by rewrite app_nil_r.
Qed.

Lemma wrote_messages me a msgs : ∀ l st,
  wrote me l st → wrote me (l ++ map (pair a) msgs) (fold_left (write_message me a) msgs st).
Proof.
  induction msgs as [|m msgs IH]; intros l st H; cbn [map fold_left]; [by rewrite app_nil_r |].
  rewrite cons_middle, app_assoc. by apply IH, wrote_message.
Qed.

Lemma areas_kept me a msgs : ∀ st, areas_used (fold_left (write_message me a) msgs st) = areas_used st.
Proof. induction msgs as [|m msgs IH]; intros st; cbn; [done | by rewrite IH]. Qed.

Lemma length_located b l : length (located b l) = length l.
Proof. revert b. induction l as [|[a m] l IH]; intros b; cbn; auto. Qed.

Lemma zlen_blocks me a m : zlen (message_blocks me a m) = 128 * num_blocks (body m).
Proof. unfold zlen. rewrite length_blocks. pose proof (num_blocks_bounds (body m)). lia. Qed.

(** The header block and the messages before one. *)
Lemma zlen_before me l : zlen (header_block ++ written me l) = 128 * (1 + total_blocks l).
Proof.
  unfold zlen, header_block. rewrite length_app, length_pad_field, length_written.
  pose proof (total_blocks_nonneg l). lia.
Qed.

Section packet.
Context (clk : Clock) (s : MciSession) (db : MailDb) (last_qwk : cstr).
Context (Hdef : defined clk (Some (acs_part s))).

(** An area whose messages the user may read. *)
Definition readable (a : DbMsgArea) : Prop := acs_allows clk (Some (acs_part s)) (acs_read a) = Some true.

Definition area_messages (a : DbMsgArea) : list DbMessage :=
  db_messages_since (area_id a) last_qwk (Z.to_nat (if 0 <? max_msgs a then max_msgs a else QWK_DEFAULT_MAX_MSGS)) db.

(** The messages of a packet with their areas. *)
Definition selected (l : list DbMsgArea) : list (Z * DbMessage) :=
  concat (map (λ a, map (pair (area_id a)) (area_messages a)) (filter readable l)).

(** The areas it has messages of. *)
Definition used (l : list DbMsgArea) : list Z :=
  map area_id (filter (λ a, readable a ∧ area_messages a ≠ []) l).

Lemma used_le l : (length (used l) <= length l)%nat.
Proof. unfold used. rewrite length_map. apply length_filter. Qed.

Lemma selected_snoc l a :
  selected (l ++ [a]) = selected l ++ (if decide (readable a) then map (pair (area_id a)) (area_messages a) else []).
Proof.
  unfold selected. rewrite filter_app, map_app, concat_app. f_equal. rewrite filter_cons.
  case_decide; cbn; [by rewrite app_nil_r | done].
Qed.

Lemma used_snoc l a :
  used (l ++ [a]) = used l ++ (if decide (readable a ∧ area_messages a ≠ []) then [area_id a] else []).
Proof. unfold used. rewrite filter_app, map_app. f_equal. rewrite filter_cons. by case_decide. Qed.

Lemma write_area_spec l st a :
  wrote (my_id s) (selected l) st → areas_used st = used l → (length l < QWK_MAX_AREAS)%nat →
  ∃ st', write_area clk s db last_qwk st a = Some st' ∧
    wrote (my_id s) (selected (l ++ [a])) st' ∧ areas_used st' = used (l ++ [a]).
Proof.
  intros Hw Hu Hl. destruct (acs_allows_total clk (Some (acs_part s)) (acs_read a) Hdef) as [v Hv].
  unfold write_area. rewrite Hv. cbn [mbind option_bind]. fold (area_messages a).
  rewrite selected_snoc, used_snoc. unfold readable. rewrite Hv. destruct v; cbn [negb].
  - rewrite (decide_True (P := Some true = Some true)) by done.
    pose proof (wrote_messages (my_id s) (area_id a) (area_messages a) (selected l) st Hw) as Hw'.
    destruct (decide (area_messages a = [])) as [E | E].
    + rewrite bool_decide_eq_true_2, decide_False by (done || tauto). cbn [negb andb].
      eexists. split; [done |]. split; [done |]. by rewrite areas_kept, Hu, app_nil_r.
    + rewrite bool_decide_eq_false_2, decide_True by done. rewrite areas_kept, Hu. pose proof (used_le l).
      rewrite (proj2 (Nat.ltb_lt _ _)) by lia. cbn [negb andb].
      eexists. split; [done |]. split; [by destruct Hw' | done].
  - rewrite !decide_False by first [done | by intros [? _]]. rewrite !app_nil_r. by exists st.
Qed.

Lemma write_areas_spec l : ∀ l0 st,
  wrote (my_id s) (selected l0) st → areas_used st = used l0 → (length l0 + length l <= QWK_MAX_AREAS)%nat →
  ∃ st', write_areas clk s db last_qwk l st = Some st' ∧
    wrote (my_id s) (selected (l0 ++ l)) st' ∧ areas_used st' = used (l0 ++ l).
Proof.
  induction l as [|a l IH]; intros l0 st Hw Hu Hl; cbn [write_areas length] in *.
  - rewrite app_nil_r. by exists st.
  - destruct (write_area_spec l0 st a Hw Hu) as (st1 & -> & Hw1 & Hu1); [lia |]. cbn [mbind option_bind].
    rewrite cons_middle, app_assoc. apply IH; [done | done |]. rewrite length_app. cbn. lia.
Qed.

Lemma first_area_count : (length (db_msg_area_list QWK_MAX_AREAS db) <= QWK_MAX_AREAS)%nat.
Proof. unfold db_msg_area_list. rewrite length_map, length_take. lia. Qed.

(** C23. A packet is made of the first 64 message areas that the database lists, and of
    each of them that the user may read of its oldest messages that are newer than
    the last packet, as many as the area's own limit, or 500 without one. They are
    written area by area, all of them, each in whole blocks, and every area of
    which there are any is noted. The index has an entry for each of the first 4096
    messages, the block at which it begins, and the personal index for the first
    4096 of those to the user; later messages are in the packet and in no index
    (qwk.c:192). The access conditions of the areas compute no age, ratio or number
    of days that overflows an int. *)
Theorem packets_are_indexed :
  let l := selected (db_msg_area_list QWK_MAX_AREAS db) in
  ∃ st, write_messages_dat_with_ndx clk s db last_qwk = Some st ∧
    out st = header_block ++ written (my_id s) l ∧
    msg_count st = zlen l ∧ areas_used st = used (db_msg_area_list QWK_MAX_AREAS db) ∧
    personal_entries st = take QWK_MAX_NDX (map fst (filter (λ p, to_user (snd p) = my_id s) (located 1 l))) ∧
    length (ndx_entries st) = (QWK_MAX_NDX `min` length l)%nat ∧
    ∀ i e, ndx_entries st !! i = Some e →
      ∃ m, l !! i = Some (ndx_conf e, m) ∧
        takeZ (128 * num_blocks (body m)) (dropZ (128 * block_offset e) (out st)) = message_blocks (my_id s) (ndx_conf e) m.
Proof.
  intros l. unfold write_messages_dat_with_ndx.
  destruct (write_areas_spec (db_msg_area_list QWK_MAX_AREAS db) [] (MkPacketState header_block 1 0 [] [] []))
    as (st & E & [Ho Hb Hc Hn Hp] & Hu); [by constructor | done | apply first_area_count |].
  cbn [app] in *. fold l in Ho, Hb, Hc, Hn, Hp. exists st. split_and!; try done.
  - rewrite Hn, length_take, length_map. by rewrite length_located.
  - intros i e He. rewrite Hn in He. apply lookup_take_Some in He as [He _].
    rewrite list_lookup_fmap in He. destruct (l !! i) as [[a m] |] eqn:Hi.
    + destruct (located_lookup l 1 i a m Hi) as (l1 & l2 & El & Hloc). rewrite Hloc in He. injection He as <-.
      exists m. split; [done |]. cbn [block_offset ndx_conf]. rewrite Ho, El. unfold written.
      rewrite map_app, concat_app. cbn [map concat fst snd]. fold (written (my_id s) l1) (written (my_id s) l2).
      rewrite app_assoc, <- zlen_before with (me := my_id s), <- zlen_blocks with (me := my_id s) (a := a).
      apply slice_mid.
    + apply lookup_ge_None in Hi. rewrite lookup_ge_None_2 in He; [done | by rewrite length_located].
Qed.

End packet.

(** ** Reading replies *)

Lemma field_mid (a f c : list Z) k n : length a = k → length f = n → field k n (a ++ f ++ c) = f.
Proof. intros <- <-. unfold field. by rewrite drop_app_length, take_app_length. Qed.

Record header_ok (h : QwkMsgHeader) : Prop := {
  ok_msgnum : length (msgnum h) = 7%nat;
  ok_date : length (date h) = 8%nat;
  ok_time : length (time h) = 5%nat;
  ok_to : length (hdr_to h) = 25%nat;
  ok_from : length (hdr_from h) = 25%nat;
  ok_subject : length (hdr_subject h) = 25%nat;
  ok_password : length (hdr_password h) = 12%nat;
  ok_refnum : length (refnum h) = 8%nat;
  ok_blocks : length (blocks h) = 6%nat;
  ok_conf : length (conf_num h) = 2%nat
}.

Lemma message_header_ok me a m : header_ok (message_header me a m).
Proof. constructor; cbn; repeat case_match; rewrite ?length_pad_field, ?length_replicate; done. Qed.

(** Where the reader finds the fields. *)
Lemma header_fields h : header_ok h →
  field 21 25 (header_bytes h) = hdr_to h ∧ field 71 25 (header_bytes h) = hdr_subject h ∧
  field 116 6 (header_bytes h) = blocks h ∧ char_at (header_bytes h) 122 = active h ∧
  field 123 2 (header_bytes h) = conf_num h.
Proof.
  intros []. unfold header_bytes.
  set (a := status h :: msgnum h ++ date h ++ time h). set (b := a ++ hdr_to h ++ hdr_from h).
  set (d := b ++ hdr_subject h ++ hdr_password h ++ refnum h).
  assert (length a = 21%nat) as Ha by (unfold a; cbn; rewrite !length_app; lia).
  assert (length b = 71%nat) as Hb by (unfold b; rewrite !length_app; lia).
  assert (length d = 116%nat) as Hd by (unfold d; rewrite !length_app; lia).
  assert (length (d ++ blocks h) = 122%nat) as He by (rewrite length_app; lia).
  set (t := conf_num h ++ logical_num h ++ [nettag h]).
  assert (∀ x, a ++ x = status h :: msgnum h ++ date h ++ time h ++ x) as Ea
    by (intros x; unfold a; cbn [app]; by rewrite <- !app_assoc).
  assert (∀ x, b ++ x = a ++ hdr_to h ++ hdr_from h ++ x) as Eb by (intros x; unfold b; by rewrite <- !app_assoc).
  assert (∀ x, d ++ x = b ++ hdr_subject h ++ hdr_password h ++ refnum h ++ x) as Ed
    by (intros x; unfold d; by rewrite <- !app_assoc).
  rewrite <- Ea. split_and!.
  - by apply field_mid.
  - rewrite <- Eb. by apply field_mid.
  - rewrite <- Eb, <- Ed. by apply field_mid.
  - rewrite <- Eb, <- Ed, app_assoc. unfold char_at. rewrite <- He. cbn [app]. by rewrite list_lookup_middle.
  - rewrite <- Eb, <- Ed, app_assoc, (app_assoc _ [active h]). apply field_mid; [| done]. rewrite length_app, He. done.
Qed.

(** A text with blanks behind it. *)
Lemma trim_end_pad p l n c : p c = true → trim_end p (l ++ replicate n c) = trim_end p l.
Proof.
  intros Hc. induction l as [|d l IH]; cbn.
  - induction n as [|n IHn]; cbn; [done |]. by rewrite IHn, Hc.
  - by rewrite IH.
Qed.

Lemma trim_end_ext p q l : (∀ c, c ∈ l → p c = q c) → trim_end p l = trim_end q l.
Proof.
  induction l as [|c l IH]; intros H; [done |]. cbn. rewrite IH by (intros d Hd; apply H; by right).
  rewrite (H c) by left. done.
Qed.

Lemma trim_end_prefix p l : ∃ r, l = trim_end p l ++ r.
Proof.
  induction l as [|c l [r IH]]; [by exists [] |]. cbn. destruct (trim_end p l) as [|d t].
  - destruct (p c); [by exists (c :: l) | exists l; done].
  - exists r. by rewrite IH at 1.
Qed.

Lemma trim_end_forall (P : Z → Prop) p l : Forall P l → Forall P (trim_end p l).
Proof. intros H. destruct (trim_end_prefix p l) as [r E]. rewrite E in H. by apply Forall_app in H as []. Qed.

(** The conference of a message. *)
Lemma le2_value z : 0 <= z < 65536 → Z.lor (Z.land z 255) (Z.shiftl (Z.land (Z.shiftr z 8) 255) 8) = z.
Proof.
  intros Hz. apply Z.bits_inj'. intros n Hn. change 255 with (Z.ones 8).
  rewrite Z.lor_spec, Z.land_spec, Z.testbit_ones_nonneg by lia.
  destruct (Z.ltb_spec n 8).
  - rewrite Z.shiftl_spec_low by lia. by rewrite andb_true_r, orb_false_r.
  - rewrite andb_false_r, Z.shiftl_spec by lia. rewrite Z.land_spec, Z.shiftr_spec, Z.testbit_ones_nonneg by lia.
    replace (n - 8 + 8) with n by lia. destruct (Z.ltb_spec (n - 8) 8); [by rewrite andb_true_r |].
    rewrite andb_false_r. cbn. symmetry. apply Z.testbit_false; [lia |].
    rewrite Z.div_small; [done |]. split; [lia |]. apply Z.lt_le_trans with (2 ^ 16); [lia |].
    apply Z.pow_le_mono_r; lia.
Qed.

(** The number of blocks of a message. *)
Lemma header_blocks_back n : 1 <= n <= 1000 → atoi (c_string (pad_field (numstr n) 6)) = n.
Proof.
  intros Hn. assert (Forall (λ n, atoi (c_string (pad_field (numstr n) 6)) = n) (seqZ 1 1000)) as H.
  { apply (bool_decide_unpack _). vm_compute. reflexivity. }
  rewrite Forall_forall in H. apply H. apply elem_of_seqZ. lia.
Qed.

Definition no_nul (t : cstr) : Prop := Forall (λ c, c ≠ 0) t.

(** A message whose texts are texts, not longer than a struct can hold. *)
Definition mailable (m : DbMessage) : Prop :=
  no_nul (to_name m) ∧ no_nul (subject m) ∧ no_nul (body m) ∧ (length (body m) <= 2047)%nat.

(** What is left of a message: 25 characters of the names, no blanks at an end, and a
    line feed for the mark of one. *)
Definition as_reply (a : Z) (m : DbMessage) : rep_message :=
  let blank c := c =? 32 in
  MkReply true a (trim_end blank (take 25 (if bool_decide (to_name m = []) then lit "All" else to_name m)))
    (trim_end blank (take 25 (subject m))) (trim_end blank (map (λ c, if c =? 227 then 10 else c) (body m))).

Lemma name_back t : no_nul t →
  c_string (trim_end (λ c, c =? 32) (pad_field t 25)) = trim_end (λ c, c =? 32) (take 25 t).
Proof.
  intros Ht. unfold pad_field. rewrite trim_end_pad by done. apply c_string_no_nul, trim_end_forall.
  by apply Forall_take.
Qed.

Lemma map_blanks (f : Z → Z) n : f 32 = 32 → map f (replicate n 32) = replicate n 32.
Proof. intros Hf. induction n as [|n IH]; cbn; [done | by rewrite Hf, IH]. Qed.

Lemma body_back b : no_nul b →
  c_string (reply_body (body_block b)) = trim_end (λ c, c =? 32) (map (λ c, if c =? 227 then 10 else c) b).
Proof.
  intros Hb. unfold reply_body. rewrite body_block_eq, map_app, map_blanks, map_map by done.
  rewrite trim_end_pad by done. set (l := map _ b).
  assert (l = map (λ c, if c =? 227 then 10 else c) b) as El.
  { apply map_ext. intros c. destruct (Z.eqb_spec c 10) as [-> | Hc]; [done |]. done. }
  rewrite El. assert (no_nul (map (λ c, if c =? 227 then 10 else c) b)) as Hn.
  { apply Forall_map. eapply Forall_impl; [exact Hb |]. intros c Hc. cbn. case_match; [done |]. exact Hc. }
  rewrite (trim_end_ext _ (λ c, c =? 32)); [by apply c_string_no_nul, trim_end_forall |].
  intros c Hc. unfold no_nul in Hn. rewrite Forall_forall in Hn. specialize (Hn c Hc).
  rewrite (proj2 (Z.eqb_neq c 0)) by done. apply orb_false_r.
Qed.

(** A message that was written reads as what is left of it. *)
Lemma read_message me a m rest :
  mailable m → 0 <= a < 65536 → read_reply (message_blocks me a m ++ rest) = Some (as_reply a m, rest).
Proof.
  intros (Ht & Hs & Hb & Hl) Ha. pose proof (num_blocks_bounds (body m)) as Hn.
  pose proof (length_header me a m) as Hh. set (h := message_header me a m) in *.
  assert (length (body_block (body m)) = Z.to_nat (num_blocks (body m) * QWK_BLOCK_SIZE - 128)) as Hbl.
  { pose proof (length_blocks me a m) as E. unfold message_blocks in E. rewrite length_app in E. fold h in E.
    unfold QWK_BLOCK_SIZE. lia. }
  destruct (header_fields h (message_header_ok me a m)) as (E1 & E2 & E3 & E4 & E5).
  unfold read_reply, message_blocks. cbn zeta. fold h. rewrite <- app_assoc.
  rewrite (proj2 (Nat.ltb_ge _ _)) by (rewrite length_app; lia). rewrite <- Hh, take_app_length, drop_app_length.
  unfold header_blocks. rewrite E1, E2, E3, E4, E5. 
  change (blocks h) with (pad_field (numstr (num_blocks (body m))) 6).
  change (hdr_subject h) with (pad_field (subject m) 25).
  change (hdr_to h) with (pad_field (if bool_decide (to_name m = []) then lit "All" else to_name m) 25).
  change (active h) with 225. change (conf_num h) with (le2 a).
  rewrite header_blocks_back by (unfold zlen in *; lia).
  rewrite (proj2 (Z.ltb_ge (num_blocks (body m)) 1)), (proj2 (Z.ltb_ge 1000 (num_blocks (body m)))) by (unfold zlen in *; lia).
  cbn [orb]. rewrite <- Hbl, take_app_length, drop_app_length, body_back by done. unfold as_reply.
  change (char_at (le2 a) 0) with (Z.land a 255). change (char_at (le2 a) 1) with (Z.land (Z.shiftr a 8) 255).
  rewrite le2_value, (name_back (subject m)) by done. rewrite name_back; [done |].
  case_bool_decide; [by repeat constructor | done].
Qed.

(** The messages the import finds in a file. *)
Fixpoint read_all (fuel : nat) (bytes : list Z) : list rep_message :=
  match fuel with
  | O => []
  | S fuel => match read_reply bytes with Some (r, rest) => r :: read_all fuel rest | None => [] end
  end.

(** The messages of a packet are read as they were written, in order. *)
Theorem written_messages_read_back (me : Z) (l : list (Z * DbMessage)) (fuel : nat) :
  Forall (λ p, 0 <= fst p < 65536 ∧ mailable (snd p)) l → (length l <= fuel)%nat →
  read_all fuel (drop 128 (header_block ++ written me l)) = map (λ p, as_reply (fst p) (snd p)) l.
Proof.
  intros Hl Hf. replace (drop 128 (header_block ++ written me l)) with (written me l); last first.
  { assert (length header_block = 128%nat) as <- by apply length_pad_field. by rewrite drop_app_length. }
  revert fuel Hf. induction Hl as [|[a m] l [Ha Hm] _ IH]; intros fuel Hf.
  - by destruct fuel.
  - destruct fuel as [|fuel]; [cbn in Hf; lia |]. unfold written. cbn [map concat fst snd read_all].
    cbn in Ha, Hm. rewrite read_message by done. f_equal. apply IH. cbn in Hf. lia.
Qed.

(** ** Import *)

Lemma replies_are_refused clk s now r db ok db' :
  db_ok db → post_reply clk s now r db = Some (ok, db') → ok = false ∧ db' = db.
Proof.
  intros Hok. unfold post_reply. destruct (rep_active r); cbn [negb]; [| by intros [= <- <-]].
  destruct (MailDb.db_msg_area_get (rep_conf r) db) as [area |]; [| by intros [= <- <-]].
  destruct (acs_allows _ _ _) as [[] |]; cbn [mbind option_bind]; [| by intros [= <- <-] | done].
  rewrite zero_is_no_reference; [by intros [= <- <-] | done |]. right. by left.
Qed.

Lemma import_refused clk s now fuel : ∀ bytes db sent n r,
  db_ok db → import_loop clk s now fuel bytes db sent n = Some r → r = (db, sent, n).
Proof.
  induction fuel as [|fuel IH]; intros bytes db sent n r Hok; cbn [import_loop]; [by intros [= <-] |].
  destruct (read_reply bytes) as [[m rest] |]; [| by intros [= <-]].
  destruct (post_reply clk s now m db) as [[ok db'] |] eqn:E; cbn [mbind option_bind]; [| done].
  destruct (replies_are_refused clk s now m db ok db' Hok E) as [-> ->]. by apply IH.
Qed.

(** No reply is ever imported, whatever the packet holds. *)
Theorem no_reply_is_imported (clk : Clock) (s : MciSession) (now : cstr) (temp_dir : option cstr)
    (extract : cstr → option (cstr → option (list Z))) (db : MailDb) r :
  db_ok db → qwk_import_rep clk s now temp_dir extract db = Some r →
  r = (false, db, []) ∨ r = (false, db, [[13; 10] ++ lit "Imported 0 message(s)." ++ [13; 10]]).
Proof.
  intros Hok. unfold qwk_import_rep. destruct temp_dir as [d |]; [| intros [= <-]; by left].
  destruct (extract d) as [file |]; [| intros [= <-]; by left].
  destruct (match file _ with Some _ => _ | None => _ end) as [content |]; [| intros [= <-]; by left].
  destruct (import_loop _ _ _ _ _ _ _ _) as [[[db' sent] n] |] eqn:E; cbn [mbind option_bind]; [| done].
  apply import_refused in E as [= -> -> ->]; [| done]. intros [= <-]. by right.
Qed.

(** ** Numbers of the index *)

(** The number a float of 32 bits stands for, when it is whole. *)
Definition float_value (bits : Z) : Z :=
  if bits =? 0 then 0 else (bits mod 2 ^ 23 + 2 ^ 23) * 2 ^ (bits / 2 ^ 23 - 127) / 2 ^ 23.

(** The block of an index record is exact, up to what 24 bits can hold. *)
Theorem index_numbers_exact (z : Z) :
  0 <= z < 2 ^ 24 → float_value (be_value (write_ndx_msb_float z)) = z.
Proof.
  intros Hz. unfold write_ndx_msb_float. rewrite be_value_bytes. unfold float_bits.
  destruct (Z.leb_spec z 0) as [H0 | H0]; [by replace z with 0 by lia |].
  pose proof (Z.log2_spec z H0) as [Hl1 Hl2]. pose proof (Z.log2_nonneg z) as He.
  assert (Z.log2 z < 24) as He2 by (apply Z.log2_lt_pow2; lia). set (e := Z.log2 z) in *.
  rewrite (proj2 (Z.leb_le e 23)) by lia.
  assert (2 ^ e * 2 ^ (23 - e) = 2 ^ 23) as Ep by (rewrite <- Z.pow_add_r by lia; f_equal; lia).
  assert (0 < 2 ^ (23 - e)) as Hp by lia. rewrite Z.pow_succ_r in Hl2 by lia.
  set (m := z * 2 ^ (23 - e)). assert (2 ^ 23 <= m < 2 ^ 24) as Hm by (unfold m; change (2 ^ 24) with (2 * 2 ^ 23); nia).
  rewrite Z.mod_small by lia. unfold float_value. rewrite (proj2 (Z.eqb_neq _ 0)) by lia.
  assert (((e + 127) * 2 ^ 23 + (m - 2 ^ 23)) mod 2 ^ 23 = m - 2 ^ 23) as ->
    by (symmetry; apply (Z.mod_unique _ _ (e + 127)); lia).
  assert (((e + 127) * 2 ^ 23 + (m - 2 ^ 23)) / 2 ^ 23 = e + 127) as ->
    by (symmetry; apply (Z.div_unique _ _ _ (m - 2 ^ 23)); lia).
  replace (m - 2 ^ 23 + 2 ^ 23) with m by lia. replace (e + 127 - 127) with e by lia.
  unfold m. rewrite <- Z.mul_assoc, (Z.mul_comm (2 ^ (23 - e))), Ep. apply Z.div_mul. lia.
Qed.

(** ** Witnesses *)

Definition packed_message : DbMessage :=
  MkMessage 1 1 2 0 0 0 (lit "Bob") [] [] (lit "Hello") (lit "Is anyone here?") (lit "2026-03-01 10:00:00") 0 0 [] [].

Lemma packets_are_indexed_witness :
  ∃ st, write_messages_dat_with_ndx sample_clock sample_mci posted_db [] = Some st ∧
    out st = header_block ++ written (my_id sample_mci) [(1, packed_message)] ∧
    ∀ i e, ndx_entries st !! i = Some e →
      ∃ m, [(1, packed_message)] !! i = Some (ndx_conf e, m) ∧
        takeZ (128 * num_blocks (body m)) (dropZ (128 * block_offset e) (out st))
        = message_blocks (my_id sample_mci) (ndx_conf e) m.
Proof.
  destruct (packets_are_indexed sample_clock sample_mci posted_db [] sample_defined) as (st & E & Ho & _ & _ & _ & _ & Hi).
  exists st. exact (conj E (conj Ho Hi)).
Defined.

Lemma written_messages_read_back_witness :
  read_all 9 (drop 128 (header_block ++ written 1 [(1, packed_message)]))
  = [MkReply true 1 (lit "All") (lit "Hello") (lit "Is anyone here?")].
Proof.
  apply (written_messages_read_back 1 [(1, packed_message)] 9); [| cbn; lia].
  apply Forall_singleton. split; [cbn; lia |].
  split_and!; [by repeat constructor..| cbn; lia].
Defined.

Lemma no_reply_is_imported_witness :
  ∃ r, qwk_import_rep sample_clock sample_mci [] (Some (lit "/tmp/q"))
         (λ _, Some (λ _, Some (header_block ++ written 1 [(1, packed_message)]))) posted_db = Some r ∧
    (r = (false, posted_db, []) ∨
     r = (false, posted_db, [[13; 10] ++ lit "Imported 0 message(s)." ++ [13; 10]])).
Proof.
  destruct (qwk_import_rep sample_clock sample_mci [] (Some (lit "/tmp/q"))
         (λ _, Some (λ _, Some (header_block ++ written 1 [(1, packed_message)]))) posted_db) as [r |] eqn:E.
  - exists r. split; [done |]. apply (no_reply_is_imported _ _ _ _ _ _ _ posted_db_ok E).
  - exfalso. vm_compute in E. discriminate.
Defined.

Lemma index_numbers_exact_witness : float_value (be_value (write_ndx_msb_float 8193)) = 8193.
Proof. apply index_numbers_exact. lia. Defined.
